(* ===== verification/_CoqProject ===== *)
-Q . S2P
Prelude.v
Window.v
Float64.v
Storekit.v
Proto.v
Dag.v
GoStrings.v
Base64.v
Cron.v
CronPkg.v
CronGraph.v
CronJobs.v
Approval.v
ApprovalProps.v
Breaker.v
AlertEval.v
AlertProps.v
Escalation.v
EscalationProps.v
LogQuery.v
LogQueryProps.v
Fulltext.v
FulltextProps.v
LogStore.v
Deploy.v
DeployProps.v
DeployRollout.v
AutoAdvance.v
AutoAdvanceProps.v
Federation.v
FederationProps.v
FederationRollout.v
Gpu.v
GpuProps.v
GpuAccounting.v
Autoscaler.v
AutoscalerProps.v
Incident.v
IncidentProps.v
SecretCrypto.v
ConfigStore.v
ConfigProps.v
ConfigSecrets.v
ConfigJobs.v
ConfigJobsProps.v
Auth.v
AuthGateway.v
AuthProps.v
AuthTokens.v
AuthAccess.v
AuthGuard.v
AuthExamples.v
Tenant.v
ShellQuote.v
Requests.v
Session.v
AuditChain.v
AuditProps.v
TaskSvc.v
TaskService.v
TaskLoops.v
TaskGateway.v
TaskProps.v
TaskClaims.v
TaskReports.v
TaskLeader.v
TaskTenants.v
TaskCanary.v
MemState.v
MemTasks.v
MemFleet.v
MemRecords.v
MemLife.v
MemInv.v
MemExec.v
MemProps.v
MemTheorems.v
MemAccess.v
MemSchedule.v
AuditQueries.v
