(* ===== verification/Prelude.v ===== *)
(** * OpsMesh: a verification library

    OpsMesh is a control plane that hands operation tasks to agents.  Agents
    register, send heartbeats, claim tasks, report results; operators create,
    approve, cancel and retry tasks; schedules derive tasks periodically; tasks
    wait for each other.  The state lives behind a store interface whose
    in-memory implementation ([src/internal/store/memory/memory.go]) holds the
    reference behaviour; around it stand packages with logic of their own: job
    graphs, cron expressions, deployments, approval, alerting, logs, breakers,
    bounded buffers, limits and quoting.  Beside the control plane there are
    services that run on their own, for tasks, authentication, configuration,
    incidents, scaling and GPUs.  This library models those parts as executable
    definitions, one per function of the source and under the source's names, and
    proves what makes them correct.

    ** Files and what they model

    Shared:
    - [Prelude] (this file): notations, machine integers, time, [result], lists,
      stable sorting, runs of a step function, finite graphs.
    - [GoStrings], [Float64], [Base64]: the functions of Go's [strings] and
      [strconv], binary64 arithmetic, and the standard encoding.
    - [Window]: the interface [BoundedLog] of "the most recent n items" with what
      clients may conclude from it, and the rotation arithmetic of ring buffers.
    - [Storekit]: [internal/store/storekit/metricsring.go] (an instance of
      [BoundedLog]) and [bounds.go]: metrics ring, eviction, agent logs.
    - [Proto]: the structs of [internal/proto/model.go], field by field.

    The control plane and its packages:
    - [Dag]: [internal/dag/dag.go], readiness tests, Kahn's algorithm, validation.
    - [Cron]: [internal/cron/cron.go] and [nextrun.go], with a reference syntax
      and denotation of cron expressions; [CronPkg]: the second matcher,
      [pkg/cron/cron.go], and where the two agree.
    - [CronGraph]: [internal/cron/dag.go], the orchestration graph; [CronJobs]:
      [internal/cron/manager.go] and [sla.go].
    - [Approval], [ApprovalProps]: [internal/approval].
    - [Breaker]: [internal/circuitbreaker/circuitbreaker.go] and
      [pkg/circuit/breaker.go].
    - [AlertEval], [AlertProps]: [internal/alertengine], rules, sample rings, hold
      durations, silences, inhibition, grouping; [Escalation], [EscalationProps]:
      the escalation package of the alert service.
    - [LogQuery], [LogQueryProps]: the query language of [internal/logstore];
      [Fulltext], [FulltextProps]: [internal/fulltext], the inverted index;
      [LogStore]: the log store in memory, on top of both.
    - [Deploy], [DeployProps], [DeployRollout]: [internal/deploy], deployments and
      the operations of the handler on them; [AutoAdvance], [AutoAdvanceProps]: the
      monitors of canary rollouts; [Federation], [FederationProps],
      [FederationRollout]: deployments over several clusters.
    - [ShellQuote]: [pkg/shellquote], with readers of shell words and of PowerShell
      literals as the specification.
    - [Requests]: [internal/controlplane/paginate], [pkg/retry],
      [internal/controlplane/ratelimit] and the windows of [pkg/security].
    - [Session]: [internal/store/session.go] as the interface [SessionStore] with its
      instance in memory, and [internal/controlplane/loginguard] over it.
    - [AuditChain], [AuditProps]: the chain of audit records,
      [internal/store/sqlstore/sql_audit_chain.go]; [AuditQueries]: the queries of
      [sql_audits.go] and of the memory store.
    - [MemState], [MemTasks], [MemFleet], [MemRecords]: [MemoryStore] of
      [internal/store/memory/memory.go], its state and its operations on tasks,
      on agents, devices and tokens, and on alerts, audits, results, rules,
      quotas and metrics.
    - [MemLife]: the life cycle of one task as a step relation, the abstract
      specification of the store; [MemInv], [MemExec], [MemProps]: invariants of the
      operations, the store as a transition system over the type [op] of all its
      operations, and the specifications of the single operations; [MemTheorems],
      [MemAccess], [MemSchedule]: the properties of the store.

    The services:
    - [Gpu], [GpuProps], [GpuAccounting]: [services/gpu-svc], nodes, scheduler,
      workloads, quotas.
    - [Autoscaler], [AutoscalerProps]: [services/autoscaler-svc].
    - [Incident], [IncidentProps]: [services/incident-svc].
    - [SecretCrypto]: [pkg/secretcrypto]; [ConfigStore], [ConfigSecrets],
      [ConfigJobs] and their properties in [ConfigProps], [ConfigJobsProps]:
      [services/config-svc], versions, secrets, rotation, drift, compliance.
    - [Auth], [AuthGateway] and the properties [AuthProps], [AuthTokens],
      [AuthAccess], [AuthGuard], with examples in [AuthExamples]: [services/auth-svc].
    - [Tenant]: [pkg/auth] and [pkg/tenant].
    - [TaskSvc], [TaskService], [TaskLoops], [TaskGateway]: [services/task-svc], its
      store, operations, loops with the election of a leader, and gateway;
      [TaskProps], [TaskClaims], [TaskReports], [TaskLeader], [TaskTenants],
      [TaskCanary]: their properties.

    ** How the parts interact

    [MemTasks] calls [Dag] for the readiness of blocked tasks, [Cron] for due
    schedules and [MemState] for indices, alerts, audits and events; [MemExec]
    puts every operation of [MemTasks], [MemFleet] and [MemRecords] into one
    transition system, so the invariants hold for every interleaving of
    operations.  [MemRecords] and [MemState] use the bounded buffers of
    [Storekit]; [CronJobs] uses [Cron].  [LogStore] parses queries with [LogQuery]
    and keeps an index of [Fulltext].  The deployment handler acts on the task
    engine through the class [Dispatcher], of which any engine is an instance; the
    federation coordinator acts on deployments through the class [DeployExecutor],
    which [handler_executor] implements by the handler; [AutoAdvance] calls the
    handler back and reads results through [TaskResultProvider].  The login guard acts
    on a [SessionStore], the election of the task service on a [Lease.LeaseOps], which
    [LeaseTable] implements by the SQL table; tokens go through the classes [JWT] and
    [JWTLib], sealed secrets through an authenticated cipher, the audit chain through
    [SHA256].  The task service uses the matcher of [CronPkg], the breaker of [Breaker]
    and the tokens of [Tenant]; the configuration service keeps secrets by
    [SecretCrypto] and [Base64], which [ShellQuote] uses as well.  The other parts are
    self-contained packages, as in the source.

    ** What the theorems show

    - Task ownership: a task claimed again leaves the earlier holder's reports
      without effect ([superseded_holder_fenced], [claims_fenced]); a claim takes the
      most urgent task the agent may run ([claim_takes_most_urgent]); only abandoned
      tasks are reclaimed ([reclaim_only_abandoned]).
    - Task life cycle: the store refines [MemLife.life] under every sequence of
      operations ([store_refines_lifecycle]), with the consequences for settled
      tasks, retries, indices and releases of dependents.
    - Isolation, idempotency, listing, tokens, bounds ([MemAccess]), at most one
      derivation per schedule and minute ([MemSchedule]).
    - The task service: one leader at a time over every store of leases that keeps the
      contract ([leadership_exclusive]), retries, commands, tenants, staged releases
      that complete ([canary_completes]).
    - Graphs: Kahn's algorithm and the depth-first search answer correctly and
      always, whatever the order in which Go ranges over its maps ([Dag],
      [CronGraph]).
    - Cron: matching agrees with the denotation of the printed syntax, the next
      run is the first due minute ([Cron]); the second matcher agrees with the first on
      schedules whose ranges are in order ([matchers_agree]); entries announce their next run and
      deadlines are reported once ([CronJobs]).
    - Approval: no approval without the consent of every step, decisions are
      final, the pending list is exact ([ApprovalProps]).
    - Breakers: the cycle of a sequential breaker, and the discipline of a
      concurrent one ([Breaker]).
    - Alerts: a rule fires exactly when its condition has held long enough, and
      does fire then ([AlertProps]); escalations notify the levels in order, reach
      the last one when nobody reacts, and on-call entries are cyclic intervals
      ([EscalationProps]).
    - Logs: parsing inverts printing and terminates ([LogQueryProps]); the index is
      that of the documents and searches are exact ([FulltextProps]); a query of the
      store is the page of the matching entries ([LogStore]).
    - Deployments: the life cycle as a refinement ([DeployProps]), each target of a
      rollout served once ([DeployRollout]), healthy rollouts promoted
      ([AutoAdvanceProps]), federations completed and rolled back
      ([FederationRollout], [FederationProps]).
    - Accounts: a refresh token works once, logging out is final, guesses are bounded,
      permissions are those of the roles ([AuthTokens], [AuthGuard], [AuthAccess]);
      five failures lock an account of the control plane ([five_failures_lock]).
    - Audit: the canonical text determines its record ([canonical_determines]), the
      chain verifies whatever is appended and archived in order ([chain_verifies]), and
      a log that verifies is the one that was written, or a collision is known
      ([tampering_shows]); no crash of the archive loses a row.
    - Configuration and secrets: the store is a log of versions, secrets stay sealed
      ([ConfigProps], [ConfigSecrets]).
    - Resources: memory of GPUs is never overcommitted, replicas stay in their bounds,
      incidents move forward ([GpuProps], [AutoscalerProps], [IncidentProps]).
    - Input: quoted values are read back as they are ([quoted_arguments_read_back]),
      pages make up the list, windows admit to their limit.
    - Buffers: ring and eviction keep the most recent items ([Storekit]).
    - Some theorems record behaviour that contradicts the documentation of the
      code or its evident intent; their comments say so.

    ** Modelling choices

    - An operation that holds its mutex from beginning to end is one atomic step;
      [Manager.Create] and the breakers' [Execute], which release it in between,
      are split there, and runs interleave the pieces freely.
    - An operation reads the clock once, as an argument; times are nanoseconds
      since Go's zero time and are read in UTC.
    - Go's map iteration order is an argument: a list of keys, or a function that
      enumerates the map, of which theorems assume only that it is a permutation
      of the map's entries.  An unstable sort of such an enumeration is modelled by
      a stable one.
    - Task objects are shared in the source between the per-agent lists and the
      index by id, so [MemState] has a heap of task objects and both tables hold
      pointers into it.  Agents, devices, flows, requests, entries and breakers are
      values: the operations copy them or hold the only pointer they use.
    - [int], [int64] and [uint32] counters wrap as in Go ([wrap_i64], [wrap_u32]),
      except the counters that number new records or count failures, which do not get
      that far.
    - Goroutines that hold no lock between their steps, such as the monitors of
      [AutoAdvance], are a table of states with one step per critical section.
    - A transaction of SQL is one step, with how it ended as an argument; statements
      outside of transactions are steps of their own, and a run may stop between them.
      Texts compare byte by byte.
    - Floating point values are binary64 and round to nearest even.
    - HMAC, digests, ciphers, random texts, the folding of Unicode letters, the
      logarithm, metric queries and the executors behind interfaces are parameters.
    - White space and case folding are those of ASCII.

    ** Fuel

    Some loops need fuel.  [NextRun_scan] gets one unit per minute of its 366
    days ([scan_fuel]), and [nextrun_is_first_due] covers the whole interval.
    [kahn] and [topo_loop] put one node out per turn and get the number of nodes;
    [dfsCycle] colours one white node per call and gets the number of nodes.  The
    theorems about them exclude the exhausted outcome.  The eviction loop gets
    the size of the map, the rounds of the archive one more than the rows.  The lexer
    and the parser of queries get the length of the text and the number of tokens
    ([parse_terminates] shows that they never run out); the matching of wildcards gets
    a bound on its steps that covers every return to a star.

    ** What is not modelled

    Routes, JSON and gRPC forms of most handlers of the control plane, the SQL stores
    apart from the audit records, agents, cloud and AI adapters, telemetry and the
    remaining services: they are I/O around external systems, tables of records or
    generated code.  Of the in-memory store, the tables outside [memory.go] (RBAC,
    billing, tickets, and so on) are left out; of the alert engine the anomaly
    detectors; of the sessions the store in Redis, whose commands are those of a
    service; of the security package the headers and filters of patterns. *)

From stdpp Require Export base tactics option numbers list gmap strings sorting fin_maps.
From Stdlib Require Export ZArith Lia.

#[export] Set Default Goal Selector "!".
#[export] Set Warnings "-clear-no-such-hyp".

(** ** Notations *)

Declare Scope go_scope.
Delimit Scope go_scope with go.

(** Go's [==] on any type with decidable equality, and the boolean
    connectives; order tests on integers are the ones of [Z], which [lia]
    understands. *)
Notation "a == b" := (bool_decide (a = b)) (at level 70, no associativity) : go_scope.
Notation "a != b" := (negb (bool_decide (a = b))) (at level 70, no associativity) : go_scope.
Infix "<?" := Z.ltb (at level 70, no associativity) : go_scope.
Infix "<=?" := Z.leb (at level 70, no associativity) : go_scope.
Infix ">=?" := Z.geb (at level 70, no associativity) : go_scope.
Infix ">?" := Z.gtb (at level 70, no associativity) : go_scope.
Infix "&&" := andb : go_scope.
Infix "||" := orb : go_scope.

Lemma pair_of_snd {A B} (p : A * B) r : p.2 = r -> p = (p.1, r).
Proof. by destruct p; intros <-. Qed.

(** ** Machine integers

    Go's [int] and [int64] are 64-bit two's complement, [uint32] and
    [uint64] wrap modulo their width. *)

Definition wrap_i64 (z : Z) : Z := ((z + 2 ^ 63) `mod` 2 ^ 64 - 2 ^ 63)%Z.
Definition wrap_u32 (z : Z) : Z := (z `mod` 2 ^ 32)%Z.
Definition wrap_u64 (z : Z) : Z := (z `mod` 2 ^ 64)%Z.
Definition in_i64 (z : Z) : Prop := (- 2 ^ 63 <= z < 2 ^ 63)%Z.
Definition max_i64 : Z := (2 ^ 63 - 1)%Z.
Definition min_i64 : Z := (- 2 ^ 63)%Z.

Lemma wrap_i64_id z : in_i64 z -> wrap_i64 z = z.
Proof. unfold in_i64, wrap_i64. intros H. rewrite Z.mod_small; lia. Qed.

Lemma wrap_i64_range z : in_i64 (wrap_i64 z).
Proof.
  unfold in_i64, wrap_i64.
  pose proof (Z.mod_pos_bound (z + 2 ^ 63) (2 ^ 64) ltac:(lia)). lia.
Qed.

Lemma wrap_i64_eq_mod a b :
  wrap_i64 a = wrap_i64 b -> (a `mod` 2 ^ 64 = b `mod` 2 ^ 64)%Z.
Proof.
  unfold wrap_i64. intros H.
  assert (E : ((a + 2 ^ 63) `mod` 2 ^ 64 = (b + 2 ^ 63) `mod` 2 ^ 64)%Z) by lia.
  rewrite <- (Z.add_simpl_r a (2 ^ 63)), <- (Z.add_simpl_r b (2 ^ 63)).
  by rewrite (Zminus_mod (a + 2 ^ 63)), E, <- Zminus_mod.
Qed.

Lemma wrap_u32_id z : (0 <= z < 2 ^ 32)%Z -> wrap_u32 z = z.
Proof. apply Z.mod_small. Qed.

Lemma wrap_u32_range z : (0 <= wrap_u32 z < 2 ^ 32)%Z.
Proof. apply Z.mod_pos_bound. lia. Qed.

(** [int32]. *)
Definition wrap_i32 (z : Z) : Z := ((z + 2 ^ 31) `mod` 2 ^ 32 - 2 ^ 31)%Z.
Definition in_i32 (z : Z) : Prop := (- 2 ^ 31 <= z < 2 ^ 31)%Z.

Lemma wrap_i32_id z : in_i32 z -> wrap_i32 z = z.
Proof. unfold in_i32, wrap_i32. intros H. rewrite Z.mod_small; lia. Qed.

Lemma wrap_i64_succ z : wrap_i64 (wrap_i64 z + 1) = wrap_i64 (z + 1).
Proof.
  unfold wrap_i64. f_equal. replace ((z + 2 ^ 63) `mod` 2 ^ 64 - 2 ^ 63 + 1 + 2 ^ 63)%Z with ((z + 2 ^ 63) `mod` 2 ^ 64 + 1)%Z by lia.
  rewrite Zplus_mod_idemp_l. f_equal. lia.
Qed.

Lemma geb_true a b : (b <= a)%Z -> (a >=? b)%Z = true.
Proof. intros H. by apply Z.geb_le. Qed.

Lemma geb_false a b : (a < b)%Z -> (a >=? b)%Z = false.
Proof. intros H. rewrite Z.geb_leb. by apply Z.leb_gt. Qed.

(** ** Time

    A [time.Time] is the number of nanoseconds since Go's zero time
    (January 1, year 1, 00:00:00 UTC), a [time.Duration] a number of
    nanoseconds; [Sub] saturates at the bounds of an [int64] as
    [time.Time.Sub] does. *)

Abbreviation time := Z (only parsing).
Abbreviation duration := Z (only parsing).

Definition nanosecond : duration := 1%Z.
Definition second : duration := 1000000000%Z.
Definition minute : duration := (60 * second)%Z.
Definition hour : duration := (60 * minute)%Z.

Definition zero_time : time := 0%Z.
Definition IsZero (t : time) : bool := (t =? 0)%Z.
Definition Before (a b : time) : bool := (a <? b)%Z.
Definition After (a b : time) : bool := (b <? a)%Z.
Definition Add (t : time) (d : duration) : time := (t + d)%Z.
Definition Sub (a b : time) : duration := Z.max min_i64 (Z.min max_i64 (a - b))%Z.
(** [t.Truncate(d)]: rounds down to a multiple of [d] since the zero time. *)
Definition Truncate (t : time) (d : duration) : time := (t - t `mod` d)%Z.

(** A comparison with a duration that fits an [int64] is not affected by
    the saturation of [Sub]. *)
Lemma Sub_gt a b d : (min_i64 <= d < max_i64)%Z -> (Sub a b > d <-> a - b > d)%Z.
Proof. unfold Sub, min_i64, max_i64. lia. Qed.

Lemma Sub_ge a b d : (min_i64 < d <= max_i64)%Z -> (Sub a b >= d <-> a - b >= d)%Z.
Proof. unfold Sub, min_i64, max_i64. lia. Qed.

Lemma Sub_mono a a' b : (a <= a')%Z -> (Sub a b <= Sub a' b)%Z.
Proof. unfold Sub. lia. Qed.

Lemma Truncate_spec t d :
  (0 < d)%Z -> (Truncate t d <= t < Truncate t d + d)%Z /\ (Truncate t d `mod` d = 0)%Z.
Proof.
  intros Hd. unfold Truncate. pose proof (Z.mod_pos_bound t d Hd). split; [lia |].
  rewrite Zminus_mod, Zmod_mod, Z.sub_diag. by apply Zmod_0_l.
Qed.

(** ** Results

    A Go function returning [(T, error)] is modelled by [result E T]. *)

Inductive result (E A : Type) : Type :=
  | Ok (a : A)
  | Err (e : E).
Arguments Ok {E A} a.
Arguments Err {E A} e.

#[export] Instance result_eq_dec `{EqDecision E, EqDecision A} : EqDecision (result E A).
Proof. solve_decision. Defined.

Definition is_ok {E A} (r : result E A) : bool := match r with Ok _ => true | Err _ => false end.

#[export] Instance result_ret E : MRet (result E) := fun A a => Ok a.
#[export] Instance result_bind E : MBind (result E) :=
  fun A B f r => match r with Ok a => f a | Err e => Err e end.

Lemma result_bind_ok {E A B} (f : A -> result E B) r b :
  r ≫= f = Ok b <-> exists a, r = Ok a /\ f a = Ok b.
Proof.
  destruct r as [a | e]; simpl; split; [by eauto | by intros (? & [= ->] & ?) | done |].
  by intros (? & ? & _).
Qed.

(** ** Lists *)

(** The last [n] elements. *)
Definition lastn {A} (n : nat) (l : list A) : list A := drop (length l - n) l.

Lemma length_lastn {A} n (l : list A) : length (lastn n l) = n `min` length l.
Proof. unfold lastn. rewrite length_drop. lia. Qed.

Lemma lastn_all {A} n (l : list A) : length l <= n -> lastn n l = l.
Proof. intros. unfold lastn. by replace (length l - n) with 0 by lia. Qed.

(** Truncating to a window, appending and truncating again forgets the first
    truncation. *)
Lemma lastn_lastn_app {A} n (l k : list A) : lastn n (lastn n l ++ k) = lastn n (l ++ k).
Proof.
  unfold lastn. destruct (decide (length l <= n)) as [H | H].
  { by replace (length l - n) with 0 by lia. }
  rewrite !length_app, length_drop, !drop_app, drop_drop, length_drop. f_equal; f_equal; lia.
Qed.

Lemma lastn_snoc_full {A} n (x y : A) l :
  length (x :: l) = n -> lastn n ((x :: l) ++ [y]) = l ++ [y].
Proof.
  intros H. unfold lastn. simpl. rewrite length_app. simpl in *.
  by replace (S (length l + 1) - n) with 1 by lia.
Qed.

Lemma fmap_lastn {A B} (f : A -> B) n l : f <$> lastn n l = lastn n (f <$> l).
Proof. unfold lastn. by rewrite fmap_drop, length_fmap. Qed.

Lemma elem_of_lastn_lookup {A} n (l : list A) i x : l !! i = Some x -> length l <= i + n -> x ∈ lastn n l.
Proof.
  intros Hi Hn. unfold lastn. apply list_elem_of_lookup. exists (i - (length l - n)).
  rewrite lookup_drop. by replace (length l - n + (i - (length l - n))) with i by lia.
Qed.

Lemma lastn_app_last {A} (x : A) n l : 0 < n -> last (lastn n (l ++ [x])) = Some x.
Proof.
  intros. unfold lastn. rewrite drop_app_le, last_snoc; [done |]. rewrite length_app. simpl. lia.
Qed.

(** First element satisfying a boolean test: the shape of every Go loop
    [for i := range xs { if p(xs[i]) { return &xs[i] } }; return nil]. *)
Fixpoint find_first {A} (p : A -> bool) (l : list A) : option A :=
  match l with
  | [] => None
  | x :: l' => if p x then Some x else find_first p l'
  end.

Lemma find_first_Some {A} (p : A -> bool) l x :
  find_first p l = Some x -> x ∈ l /\ p x = true.
Proof.
  induction l as [| y l IH]; simpl; [done |].
  destruct (p y) eqn:E; [intros [= ->]; split; [left | done] |].
  intros H. destruct (IH H). split; [by right | done].
Qed.

Lemma find_first_None {A} (p : A -> bool) l :
  find_first p l = None <-> forall x, x ∈ l -> p x = false.
Proof.
  induction l as [| y l IH]; simpl.
  { split; [by intros _ x Hx; inversion Hx | done]. }
  destruct (p y) eqn:E; split.
  - done.
  - intros H. specialize (H y ltac:(left)). congruence.
  - rewrite IH. intros H x [-> | Hx]%elem_of_cons; auto.
  - intros H. apply IH. intros x Hx. apply H. by right.
Qed.

Lemma existsb_elem {A} (p : A -> bool) l :
  existsb p l = true <-> exists x, x ∈ l /\ p x = true.
Proof. rewrite existsb_exists. by setoid_rewrite list_elem_of_In. Qed.

Lemma forallb_elem {A} (p : A -> bool) l :
  forallb p l = true <-> forall x, x ∈ l -> p x = true.
Proof. rewrite forallb_forall. by setoid_rewrite list_elem_of_In. Qed.

Lemma existsb_false {A} (p : A -> bool) l :
  existsb p l = false <-> forall x, x ∈ l -> p x = false.
Proof.
  rewrite <- not_true_iff_false, existsb_elem. split.
  - intros H x Hx. apply not_true_is_false. eauto.
  - intros H (x & Hx & Hp). rewrite H in Hp; done.
Qed.

Lemma StronglySorted_weaken {A} (R R' : A -> A -> Prop) l :
  (forall a b, R a b -> R' a b) -> StronglySorted R l -> StronglySorted R' l.
Proof.
  intros Hr. induction 1 as [| a l _ IH Hl]; constructor; [done |]. eapply Forall_impl; [exact Hl | apply Hr].
Qed.

(** ** Maps *)

Lemma alter_as_insert `{FinMap K M} {A} (f : A -> A) (m : M A) i x : m !! i = Some x -> alter f i m = <[i := f x]> m.
Proof.
  intros Hi. apply map_eq. intros j. destruct (decide (i = j)) as [<- | Hne].
  - by rewrite lookup_alter_eq, lookup_insert_eq, Hi.
  - by rewrite lookup_alter_ne, lookup_insert_ne.
Qed.

(** ** Stable sorting

    [sort.SliceStable(xs, less)] keeps equal elements in their original
    order; the insertion below does.  An unstable [sort.Slice] returns the
    stable sort of some reordering of its input, which is how it is modelled
    where the input order is arbitrary anyway (a map iteration). *)
Section stable_sort.
Context {A : Type} (less : A -> A -> bool).

Fixpoint insert_stable (x : A) (l : list A) : list A :=
  match l with
  | [] => [x]
  | y :: l' => if less y x then y :: insert_stable x l' else x :: y :: l'
  end.

Definition stable_sort (l : list A) : list A := foldr insert_stable [] l.

Lemma insert_stable_perm x l : insert_stable x l ≡ₚ x :: l.
Proof.
  induction l as [| y l IH]; simpl; [done |].
  destruct (less y x); [rewrite IH; apply Permutation_swap | done].
Qed.

Lemma stable_sort_perm l : stable_sort l ≡ₚ l.
Proof. induction l as [| x l IH]; simpl; [done |]. by rewrite insert_stable_perm, IH. Qed.

Lemma elem_of_stable_sort x l : x ∈ stable_sort l <-> x ∈ l.
Proof. by rewrite stable_sort_perm. Qed.

Lemma length_stable_sort l : length (stable_sort l) = length l.
Proof. by rewrite stable_sort_perm. Qed.

(** "not greater": the order that the result is sorted by *)
Definition not_more (x y : A) : Prop := less y x = false.

Context (less_trans : forall x y z, not_more x y -> not_more y z -> not_more x z).
Context (less_asym : forall x y, less x y = true -> less y x = false).

Lemma insert_stable_sorted x l :
  StronglySorted not_more l -> StronglySorted not_more (insert_stable x l).
Proof using less_trans less_asym.
  induction 1 as [| y l Hl IH Hy]; simpl; [repeat constructor |].
  destruct (less y x) eqn:E.
  - constructor; [done |]. rewrite insert_stable_perm. constructor; [| done].
    by apply less_asym.
  - constructor; [by constructor |]. constructor; [done |].
    eapply Forall_impl; [exact Hy |]. intros z Hz. by eapply less_trans.
Qed.

Lemma stable_sort_sorted l : StronglySorted not_more (stable_sort l).
Proof using less_trans less_asym.
  induction l; simpl; [constructor | by apply insert_stable_sorted].
Qed.

(** A sorted list stays as it is. *)
Lemma stable_sort_id l : StronglySorted not_more l -> stable_sort l = l.
Proof using Type.
  induction 1 as [| x l _ IH Hx]; [done |]. simpl. rewrite IH. destruct l as [| y l]; [done |].
  simpl. apply Forall_cons in Hx as [Hx _]. unfold not_more in Hx. by rewrite Hx.
Qed.

(** The head of the sorted list is a least element of the list, and the
    first one among its equals. *)
Lemma stable_sort_head x l r :
  stable_sort l = x :: r -> x ∈ l /\ forall y, y ∈ l -> not_more x y.
Proof using less_trans less_asym.
  intros E. pose proof (stable_sort_sorted l) as H. rewrite E in H.
  split; [apply elem_of_stable_sort; rewrite E; left |].
  intros y Hy. rewrite <- elem_of_stable_sort, E in Hy.
  apply elem_of_cons in Hy as [-> | Hy].
  - unfold not_more. destruct (less x x) eqn:Ex; [| done]. by rewrite (less_asym _ _ Ex) in Ex.
  - inversion_clear H as [| ?? _ HF]. by eapply Forall_forall in HF.
Qed.

(** Where the head of the sorted list stood: everything before it is greater,
    nothing after it is less. *)
Lemma stable_sort_first x l r :
  stable_sort l = x :: r ->
  exists before after, l = before ++ x :: after /\
    (forall y, y ∈ before -> less x y = true) /\ (forall y, y ∈ after -> less y x = false).
Proof using less_trans less_asym.
  revert x r. induction l as [| y l IH]; intros x r; simpl; [done |].
  destruct (stable_sort l) as [| z k] eqn:E; simpl.
  { intros [= <- <-]. exists [], l. split_and!; [done | intros y' Hy'; inversion Hy' |].
    intros y' Hy'. rewrite <- elem_of_stable_sort, E in Hy'. inversion Hy'. }
  destruct (less z y) eqn:Ez.
  - intros [= <- <-]. destruct (IH _ _ eq_refl) as (b & a & -> & H1 & H2).
    exists (y :: b), a. split_and!; [done | | done]. intros y' [-> | Hy']%elem_of_cons; auto.
  - intros [= <- <-]. exists [], l. split_and!; [done | intros y' Hy'; inversion Hy' |].
    intros y' Hy'. destruct (stable_sort_head _ _ _ E) as [_ Hz].
    apply (less_trans y z y'); [exact Ez | by apply Hz].
Qed.

Lemma insert_stable_filter (P : A -> bool) x l :
  (forall y, y ∈ l -> P y = true -> P x = true -> less y x = false) ->
  List.filter P (insert_stable x l) = List.filter P (x :: l).
Proof.
  induction l as [| y l IH]; intros H; [done |].
  simpl insert_stable. destruct (less y x) eqn:E; [| done].
  simpl. rewrite IH by (intros y' Hy'; apply H; by right). simpl.
  destruct (P x) eqn:Px, (P y) eqn:Py; try done.
  rewrite H in E; [done | left | done | done].
Qed.

(** Stability: restricted to a class of mutually incomparable elements the
    sorted list is the original one. *)
Lemma stable_sort_filter (P : A -> bool) l :
  (forall x y, x ∈ l -> y ∈ l -> P x = true -> P y = true -> less x y = false) ->
  List.filter P (stable_sort l) = List.filter P l.
Proof.
  induction l as [| x l IH]; intros H; [done |].
  simpl stable_sort. rewrite insert_stable_filter.
  - simpl. rewrite IH; [done |]. intros a b Ha Hb. apply H; by right.
  - intros y Hy Py Px. rewrite elem_of_stable_sort in Hy.
    apply H; [by right | left | done | done].
Qed.

(** When no two different elements are incomparable the sorted list is
    determined by the multiset of elements. *)
Lemma stable_sort_unique l k :
  (forall x y, x ∈ l -> y ∈ l -> not_more x y -> not_more y x -> x = y) ->
  l ≡ₚ k -> stable_sort l = stable_sort k.
Proof using less_trans less_asym.
  intros Hanti Hp.
  assert (Hp' : stable_sort l ≡ₚ stable_sort k) by by rewrite !stable_sort_perm.
  assert (Ha : forall x y, x ∈ stable_sort l -> y ∈ stable_sort l ->
    not_more x y -> not_more y x -> x = y).
  { intros x y. rewrite !elem_of_stable_sort. apply Hanti. }
  pose proof (stable_sort_sorted l) as Hl. pose proof (stable_sort_sorted k) as Hk.
  clear Hp Hanti. revert Ha Hp' Hl Hk.
  generalize (stable_sort l), (stable_sort k). clear l k.
  induction l as [| x l IH]; intros k Ha Hp Hl Hk.
  { symmetry. by apply Permutation_nil_l in Hp. }
  destruct k as [| y k]; [by apply Permutation_nil_r in Hp |].
  inversion_clear Hl as [| ?? Hl' Hx]. inversion_clear Hk as [| ?? Hk' Hy].
  assert (x = y) as ->.
  { assert (Hx' : x ∈ y :: k) by (rewrite <- Hp; left).
    assert (Hy' : y ∈ x :: l) by (rewrite Hp; left).
    apply elem_of_cons in Hx' as [-> | Hx']; [done |].
    apply elem_of_cons in Hy' as [-> | Hy']; [done |].
    apply Ha; [left | by right | |].
    - by eapply Forall_forall in Hx.
    - by eapply Forall_forall in Hy. }
  f_equal. apply IH; [| by eapply Permutation_cons_inv | done..].
  intros a b Ha' Hb'. apply Ha; by right.
Qed.
End stable_sort.

(** ** Traces

    The reflexive transitive closure of a labelled step function, as the list
    of its labels: executions are explicit sequences of operations. *)
Section run.
Context {S L : Type} (step : L -> S -> S).

Definition run (ls : list L) (s : S) : S := foldl (fun s l => step l s) s ls.

Lemma run_app ls ls' s : run (ls ++ ls') s = run ls' (run ls s).
Proof. unfold run. by rewrite foldl_app. Qed.

(** A property kept by every step holds after every trace. *)
Lemma run_invariant (P : S -> Prop) ls s :
  (forall l s, P s -> P (step l s)) -> P s -> P (run ls s).
Proof.
  intros Hs. revert s. induction ls as [| l ls IH]; intros s H; [done |].
  apply IH. by apply Hs.
Qed.

(** A preorder that every step refines is refined by every trace. *)
Lemma run_preorder (R : S -> S -> Prop) `{!PreOrder R} ls s :
  (forall l s, R s (step l s)) -> R s (run ls s).
Proof.
  intros Hs. revert s. induction ls as [| l ls IH]; intros s; [reflexivity |].
  simpl. etransitivity; [apply Hs | apply IH].
Qed.

(** The same under an invariant. *)
Lemma run_preorder_inv (P : S -> Prop) (R : S -> S -> Prop) `{!PreOrder R} ls s :
  (forall l s, P s -> P (step l s) /\ R s (step l s)) -> P s -> P (run ls s) /\ R s (run ls s).
Proof.
  intros Hs. revert s. induction ls as [| l ls IH]; intros s H; [split; [done | reflexivity] |].
  destruct (Hs l s H) as [H1 H2]. destruct (IH _ H1) as [H3 H4].
  split; [done |]. etransitivity; [exact H2 | exact H4].
Qed.
End run.

(** ** Finite graphs *)

(** When every node of a finite set has a predecessor in the set, going back
    often enough runs into a cycle. *)
Lemma predecessor_cycle (R : string -> string -> Prop) (s : gset string) n x l :
  (forall x, x ∈ s -> exists y, y ∈ s /\ R y x) ->
  x ∈ s -> (forall y, y ∈ x :: l -> y ∈ s /\ (y = x \/ tc R x y)) -> NoDup (x :: l) ->
  size s <= length (x :: l) + n -> exists y, tc R y y.
Proof.
  intros Hp. revert x l. induction n as [| n IH]; intros x l Hx Hl Hnd Hsz.
  all: destruct (Hp x Hx) as (y & Hy & HR).
  all: destruct (decide (y ∈ x :: l)) as [Hin | Hin].
  1, 3: exists y; destruct (Hl y Hin) as [_ [-> | Htc]]; [by apply tc_once | by eapply tc_l].
  - exfalso. assert (size (list_to_set (y :: x :: l) : gset string) <= size s) as Hle.
    { apply subseteq_size. intros z Hz. apply elem_of_list_to_set, elem_of_cons in Hz as [-> | Hz];
        [done | by apply Hl]. }
    rewrite size_list_to_set in Hle by by constructor. simpl in *. lia.
  - apply (IH y (x :: l) Hy); [| by constructor | simpl in *; lia].
    intros z [-> | Hz]%elem_of_cons; [auto |]. destruct (Hl z Hz) as [Hzs [-> | Htc]].
    + split; [done |]. right. by apply tc_once.
    + split; [done |]. right. by eapply tc_l.
Qed.

Lemma tc_flip_tc {A} (R : A -> A -> Prop) x y : tc (flip R) x y -> tc R y x.
Proof. induction 1 as [x y H | x y z H _ IH]; [by apply tc_once | by eapply tc_r]. Qed.

(** Adding one edge to a relation. *)
Lemma tc_add_edge {A} (R : A -> A -> Prop) (a b : A) x y :
  tc (fun u v => R u v \/ u = a /\ v = b) x y ->
  tc R x y \/ rtc R x a /\ rtc R b y.
Proof.
  induction 1 as [x y [H | [-> ->]] | x y z [H | [-> ->]] _ [IH | [IH1 IH2]]].
  - left. by apply tc_once.
  - right. done.
  - left. by eapply tc_l.
  - right. split; [by eapply rtc_l | done].
  - right. split; [done | by apply tc_rtc].
  - right. done.
Qed.
