(* ===== verification/Window.v ===== *)
(** * Bounded windows

    Three parts of the program keep "the most recent [n] items": the device
    metrics ring ([internal/store/storekit/metricsring.go]), the sample ring of
    the alert evaluator ([internal/alertengine/evaluator.go]) and the audit and
    alert slices of the memory store ([internal/store/memory/memory.go]).  This
    file states what they promise as an interface: a [BoundedLog] holds a list,
    and pushing appends to it and drops everything but the last [log_cap]
    elements.  It also holds the rotation arithmetic the two rings share. *)

From S2P Require Import Prelude.

Class BoundedLog (R A : Type) := {
  log_inv : R -> Prop;
  log_cap : R -> nat;
  log_push : A -> R -> R;
  log_contents : R -> list A;
  log_push_inv : forall x r, log_inv r -> log_inv (log_push x r);
  log_push_cap : forall x r, log_inv r -> log_cap (log_push x r) = log_cap r;
  log_push_contents : forall x r, log_inv r ->
    log_contents (log_push x r) = lastn (log_cap r) (log_contents r ++ [x]);
  log_bounded : forall r, log_inv r -> length (log_contents r) <= log_cap r;
}.

(** ** What clients may conclude *)
Section clients.
Context `{BoundedLog R A}.

Definition log_pushes (xs : list A) (r : R) : R := foldl (fun r x => log_push x r) r xs.

Lemma log_pushes_inv xs r : log_inv r -> log_inv (log_pushes xs r).
Proof.
  revert r. induction xs as [| x xs IH]; intros r Hr; [done |].
  by apply IH, log_push_inv.
Qed.

Lemma log_pushes_cap xs r : log_inv r -> log_cap (log_pushes xs r) = log_cap r.
Proof.
  revert r. induction xs as [| x xs IH]; intros r Hr; [done |].
  simpl. rewrite IH; [by apply log_push_cap | by apply log_push_inv].
Qed.

(** After any sequence of pushes the window is the tail of the whole history. *)
Lemma log_pushes_contents xs r :
  log_inv r -> log_contents (log_pushes xs r) = lastn (log_cap r) (log_contents r ++ xs).
Proof.
  revert r. induction xs as [| x xs IH]; intros r Hr; simpl.
  { rewrite app_nil_r, lastn_all; [done | by apply log_bounded]. }
  rewrite IH by by apply log_push_inv.
  rewrite log_push_cap, log_push_contents, lastn_lastn_app, <- app_assoc by done. done.
Qed.

Lemma log_last x r : log_inv r -> 0 < log_cap r -> last (log_contents (log_push x r)) = Some x.
Proof.
  intros Hr Hc. rewrite log_push_contents by done.
  unfold lastn. rewrite drop_app_le, last_snoc; [done |].
  rewrite length_app. simpl. lia.
Qed.
End clients.

(** ** Rings

    A ring stores its elements in a buffer [buf] of fixed length [cap] with
    the next write position [head] and the number [size] of elements written;
    its oldest element is at [0] until the ring is full and at [head] from
    then on. *)
Section ring.
Context {A : Type}.
Implicit Types (buf : list A) (head size cap : nat).

Definition ring_start head size cap : nat := if decide (size = cap) then head else 0.

Definition ring_inv buf head size cap : Prop :=
  0 < cap /\ length buf = cap /\ head < cap /\ size <= cap /\ (size < cap -> head = size).

(** The elements in insertion order: the read loop of the sources. *)
Definition ring_items buf head size cap : list A :=
  omap (fun i => buf !! ((ring_start head size cap + i) `mod` cap)) (seq 0 size).

Lemma omap_seq_take buf n : n <= length buf -> omap (fun i => buf !! i) (seq 0 n) = take n buf.
Proof.
  intros Hn. induction n as [| n IH]; [done |].
  rewrite seq_S, omap_app, IH by lia. csimpl.
  destruct (lookup_lt_is_Some_2 buf n) as [x Hx]; [lia |].
  rewrite Hx. by rewrite (take_S_r _ _ _ Hx).
Qed.

Lemma omap_ext_in {B} (f g : nat -> option B) (l : list nat) :
  (forall i, i ∈ l -> f i = g i) -> omap f l = omap g l.
Proof.
  induction l as [| i l IH]; intros H; csimpl; [done |].
  rewrite (H i) by left. rewrite IH; [done |]. intros j Hj. apply H. by right.
Qed.

Lemma ring_items_rot buf head size cap :
  ring_inv buf head size cap ->
  ring_items buf head size cap =
    if decide (size = cap) then drop head buf ++ take head buf else take size buf.
Proof.
  intros (Hc & Hl & Hh & Hs & Hne). unfold ring_items, ring_start.
  destruct (decide (size = cap)) as [-> | Hsz].
  - assert (seq 0 cap = seq 0 (cap - head) ++ seq (cap - head) head) as ->.
    { pose proof (seq_app (cap - head) head 0) as E. simpl in E. rewrite <- E. f_equal. lia. }
    rewrite omap_app. f_equal.
    + rewrite (omap_ext_in _ (fun i => drop head buf !! i)).
      2: { intros i Hi%elem_of_seq. rewrite lookup_drop.
           by rewrite Nat.mod_small by lia. }
      rewrite omap_seq_take by (rewrite length_drop; lia).
      rewrite take_ge; [done |]. rewrite length_drop. lia.
    + rewrite <- (omap_seq_take buf head) by lia.
      rewrite <- (Nat.add_0_r (cap - head)) at 1. rewrite <- fmap_add_seq.
      assert (E : forall l : list nat, (forall i, i ∈ l -> i < head) ->
        omap (fun i => buf !! ((head + i) `mod` cap)) (Nat.add (cap - head) <$> l)
        = omap (fun i => buf !! i) l).
      { induction l as [| i l IH]; intros Hi; [done |]. csimpl.
        replace (head + (cap - head + i)) with (i + 1 * cap) by lia.
        rewrite Nat.Div0.mod_add, Nat.mod_small by (specialize (Hi i ltac:(left)); lia).
        rewrite IH; [done |]. intros j Hj. apply Hi. by right. }
      apply E. intros i Hi%elem_of_seq. lia.
  - rewrite (omap_ext_in _ (fun i => buf !! i)).
    + apply omap_seq_take. lia.
    + intros i Hi%elem_of_seq. by rewrite Nat.mod_small by lia.
Qed.

Lemma length_ring_items buf head size cap :
  ring_inv buf head size cap -> length (ring_items buf head size cap) = size.
Proof.
  intros Hi. rewrite ring_items_rot by done. destruct Hi as (Hc & Hl & Hh & Hs & _).
  case_decide; rewrite ?length_app, ?length_drop, ?length_take; lia.
Qed.

Lemma ring_push_inv buf head size cap x :
  ring_inv buf head size cap ->
  ring_inv (<[head := x]> buf) ((head + 1) `mod` cap)
    (if decide (size < cap) then S size else size) cap.
Proof.
  intros (Hc & Hl & Hh & Hs & Hne).
  pose proof (Nat.mod_upper_bound (head + 1) cap ltac:(lia)) as Hm.
  repeat split; [done | by rewrite length_insert | done | case_decide; lia |].
  case_decide; [| lia]. intros H1. rewrite Nat.mod_small by lia. lia.
Qed.

(** Writing at [head] and advancing keeps exactly the last [cap] elements. *)
Lemma ring_push_items buf head size cap x :
  ring_inv buf head size cap ->
  ring_items (<[head := x]> buf) ((head + 1) `mod` cap)
    (if decide (size < cap) then S size else size) cap
  = lastn cap (ring_items buf head size cap ++ [x]).
Proof.
  intros Hi. pose proof (length_ring_items _ _ _ _ Hi) as Hlen.
  pose proof (ring_push_inv _ _ _ _ x Hi) as Hi'.
  rewrite (ring_items_rot _ _ _ _ Hi'). rewrite (ring_items_rot _ _ _ _ Hi) in Hlen |- *.
  destruct Hi as (Hc & Hl & Hh & Hs & Hne). clear Hi'.
  destruct (decide (size < cap)) as [Hlt | Hge].
  - specialize (Hne Hlt). subst head.
    rewrite (decide_False (P := size = cap)) in Hlen |- * by lia.
    rewrite (lastn_all cap) by (rewrite length_app; simpl; lia).
    assert (take (S size) (<[size := x]> buf) = take size buf ++ [x]) as E.
    { rewrite (take_S_r _ _ x); [| apply list_lookup_insert_eq; lia].
      by rewrite take_insert_ge by lia. }
    destruct (decide (S size = cap)) as [<- |]; [| done].
    replace (size + 1) with (S size) by lia.
    rewrite Nat.Div0.mod_same. simpl. rewrite drop_0, app_nil_r, <- E.
    rewrite take_ge; [done |]. rewrite length_insert. lia.
  - assert (size = cap) as -> by lia.
    rewrite decide_True in Hlen by done. rewrite !decide_True by done.
    destruct (lookup_lt_is_Some_2 buf head ltac:(lia)) as [y Hy].
    rewrite (drop_S _ _ _ Hy), <- app_comm_cons in Hlen.
    rewrite (drop_S _ _ _ Hy), <- app_comm_cons.
    rewrite (lastn_snoc_full cap y x (drop (S head) buf ++ take head buf)) by done.
    rewrite <- app_assoc.
    assert (take (S head) (<[head := x]> buf) = take head buf ++ [x]) as E.
    { rewrite (take_S_r _ _ x); [| apply list_lookup_insert_eq; lia].
      by rewrite take_insert_ge by lia. }
    destruct (decide (S head = cap)) as [HS | HS].
    + replace (head + 1) with (S head) by lia. rewrite HS, Nat.Div0.mod_same.
      rewrite take_0, drop_0, app_nil_r, <- E, !HS.
      rewrite drop_ge by lia. simpl. rewrite take_ge; [done |]. rewrite length_insert. lia.
    + rewrite Nat.mod_small by lia. replace (head + 1) with (S head) by lia.
      by rewrite drop_insert_lt, E by lia.
Qed.
(** The element written last stands before [head]. *)
Lemma ring_last buf head size cap :
  ring_inv buf head size cap -> 0 < size ->
  buf !! ((head + cap - 1) `mod` cap) = last (ring_items buf head size cap).
Proof.
  intros Hi Hpos. rewrite last_lookup, length_ring_items, (ring_items_rot _ _ _ _ Hi) by done.
  destruct Hi as (Hc & Hl & Hh & Hs & Hne).
  assert (Hmod : 0 < head -> (head + cap - 1) `mod` cap = head - 1).
  { intros H. replace (head + cap - 1) with (head - 1 + 1 * cap) by lia.
    rewrite Nat.Div0.mod_add, Nat.mod_small; lia. }
  case_decide as Hf.
  - destruct (decide (head = 0)) as [-> | E].
    + rewrite drop_0, take_0, app_nil_r. f_equal. rewrite Nat.mod_small; lia.
    + rewrite Hmod, lookup_app_r, length_drop, lookup_take_lt by (rewrite ?length_drop; lia). f_equal. lia.
  - specialize (Hne ltac:(lia)). rewrite Hmod, lookup_take_lt by lia. f_equal. lia.
Qed.
End ring.

(** The other implementation: append, then cut the front when too long. *)
Definition append_capped {A} (cap : nat) (l : list A) (x : A) : list A :=
  let l := l ++ [x] in
  if decide (cap < length l) then drop (length l - cap) l else l.

Lemma append_capped_lastn {A} cap (l : list A) x : append_capped cap l x = lastn cap (l ++ [x]).
Proof.
  unfold append_capped. case_decide; [done |]. symmetry. apply lastn_all. lia.
Qed.

Lemma append_capped_bounded {A} cap (l : list A) x : length (append_capped cap l x) <= cap.
Proof. rewrite append_capped_lastn, length_lastn. lia. Qed.
