(* ===== verification/Float64.v ===== *)
(** * Floating point

    Go's [float64] is IEEE 754 binary64 with rounding to nearest even, as the
    standard library's [SpecFloat] specifies it. *)

From Stdlib Require Import SpecFloat.
From S2P Require Import Prelude.

Abbreviation float64 := spec_float.
Definition f_zero : float64 := S754_zero false.
Definition f_add : float64 -> float64 -> float64 := SFadd 53 1024.
Definition f_sub : float64 -> float64 -> float64 := SFsub 53 1024.
Definition f_mul : float64 -> float64 -> float64 := SFmul 53 1024.
Definition f_div : float64 -> float64 -> float64 := SFdiv 53 1024.
(** The conversion [float64(n)]. *)
Definition f_of_int (n : Z) : float64 := binary_normalize 53 1024 n 0 false.
Definition f_one : float64 := f_of_int 1.
(** The comparisons; a NaN is not equal to itself. *)
Definition f_lt : float64 -> float64 -> bool := SFltb.
Definition f_le : float64 -> float64 -> bool := SFleb.
Definition f_eq : float64 -> float64 -> bool := SFeqb.

(** [int(f)]: towards zero; out of range it is the least integer, as on amd64. *)
Definition f_trunc (f : float64) : Z :=
  match f with
  | S754_zero _ => 0%Z
  | S754_finite s m e =>
      let v := if (0 <=? e)%Z then (Z.pos m * 2 ^ e)%Z else (Z.pos m / 2 ^ (- e))%Z in
      let v := if s then (- v)%Z else v in
      if (min_i64 <=? v)%Z && (v <=? max_i64)%Z then v else min_i64
  | _ => min_i64
  end.

(** [d.Seconds()]. *)
Definition Seconds (d : duration) : float64 :=
  f_add (f_of_int (d ÷ second)) (f_div (f_of_int (Z.rem d second)) (f_of_int second)).
