(* ===== verification/Storekit.v ===== *)
(** * Resident buffers of the stores ([internal/store/storekit])

    [MetricsRing] is the per-device ring of metric snapshots, and
    [EvictDeviceMetricsIfNeeded] bounds the number of tracked devices; both
    back ends call them under their own lock.  [AppendAgentLogBounded] bounds
    the agent logs held in memory.  The ring is shown to implement the
    [BoundedLog] interface; a snapshot is any type with a collection time, of
    which [proto.DeviceMetrics] is the one the stores use. *)

From S2P Require Import Prelude Window.
Open Scope go_scope.

Definition MetricsRingDefaultCap : nat := 240.
Definition MaxTrackedDeviceMetrics : nat := 2000.

Module MetricsRing.
Section ring.
(** [zero] is the zero value that [make] fills the buffer with. *)
Context {A : Type} (zero : A) (CollectedAt : A -> time).

Record t := mk {
  samples : list A;
  head : nat;
  size : nat;
  capacity : nat;
  writeSeq : Z;
}.

Definition NewMetricsRing (cap : Z) : t :=
  let c := if (cap <=? 0)%Z then MetricsRingDefaultCap else Z.to_nat cap in
  mk (replicate c zero) 0 0 c 0%Z.

(** [Add]: [seq] is the number [nextDeviceMetricsSeq] returns. *)
Definition Add (seq : Z) (m : A) (r : t) : t :=
  mk (<[head r := m]> (samples r)) ((head r + 1) `mod` capacity r)
     (if decide (size r < capacity r) then S (size r) else size r)
     (capacity r) seq.

Definition Latest (r : t) : option A :=
  if size r == 0 then None
  else samples r !! ((head r + capacity r - 1) `mod` capacity r).

(** [Since]: a zero [since] asks for everything. *)
Definition Since (r : t) (since : time) : list A :=
  if size r == 0 then []
  else
    let start := if size r == capacity r then head r else 0 in
    omap (fun i =>
      s ← samples r !! ((start + i) `mod` capacity r);
      if negb (IsZero since) && Before (CollectedAt s) since then None else Some s)
      (seq 0 (size r)).

(** ** The ring is a bounded window *)

Definition inv (r : t) : Prop := ring_inv (samples r) (head r) (size r) (capacity r).
Definition contents (r : t) : list A :=
  ring_items (samples r) (head r) (size r) (capacity r).

#[global] Program Instance MetricsRing_log (seq : Z) : BoundedLog t A := {|
  log_inv := inv;
  log_cap := capacity;
  log_push := Add seq;
  log_contents := contents;
|}.
Next Obligation. intros seq x r H. by apply ring_push_inv. Qed.
Next Obligation. done. Qed.
Next Obligation. intros seq x r H. by apply ring_push_items. Qed.
Next Obligation.
  intros seq r H. unfold contents. rewrite length_ring_items by done. by destruct H as (_ & _ & _ & ? & _).
Qed.

Lemma New_inv cap : inv (NewMetricsRing cap).
Proof.
  unfold inv, NewMetricsRing, ring_inv, MetricsRingDefaultCap. simpl. rewrite length_replicate.
  destruct (Z.leb_spec cap 0); lia.
Qed.

Lemma New_contents cap : contents (NewMetricsRing cap) = [].
Proof. done. Qed.

Lemma Since_contents r since :
  Since r since =
    List.filter (fun s => negb (negb (IsZero since) && Before (CollectedAt s) since)) (contents r).
Proof.
  unfold Since, contents, ring_items, ring_start.
  case_bool_decide as Hs; [by rewrite Hs |].
  assert (E : (if size r == capacity r then head r else 0)
            = (if decide (size r = capacity r) then head r else 0)).
  { case_bool_decide; case_decide; done. }
  rewrite E. clear E. generalize (seq 0 (size r)).
  induction l as [| i l IH]; [done |]. csimpl. rewrite IH.
  destruct (samples r !! _) as [s |]; simpl; [| done].
  by destruct (negb (IsZero since) && Before (CollectedAt s) since)%go.
Qed.

Lemma Latest_contents r : inv r -> Latest r = last (contents r).
Proof.
  intros Hi. unfold Latest, contents. case_bool_decide as Hs.
  { unfold ring_items. by rewrite Hs. }
  apply ring_last; [done | lia].
Qed.
End ring.
Arguments t : clear implicits.
End MetricsRing.

(** ** Eviction of device entries

    [iter] is the order in which Go happens to range over the map: any
    enumeration of its entries.  An entry may hold a nil ring. *)
Module Evict.
Section evict.
Context {A : Type}.
Abbreviation rings := (gmap string (option (MetricsRing.t A))).
Context (iter : rings -> list (string * option (MetricsRing.t A))).

Abbreviation seq_of := (@MetricsRing.writeSeq A).

(** The inner [for k, r := range m]. *)
Fixpoint oldest (l : list (string * option (MetricsRing.t A))) (oldestKey : string) (oldestSeq : Z)
  : string :=
  match l with
  | [] => oldestKey
  | (k, None) :: _ => k
  | (k, Some r) :: l' =>
      if (oldestKey == "") || (seq_of r <? oldestSeq)%Z
      then oldest l' k (seq_of r) else oldest l' oldestKey oldestSeq
  end.

(** The outer loop; [fuel] bounds its turns, [size m] of them are enough. *)
Fixpoint evict_loop (limit : nat) (fuel : nat) (m : rings) (evicted : nat) : rings * nat :=
  if decide (size m <= limit) then (m, evicted)
  else match fuel with
  | 0 => (m, evicted)
  | S fuel =>
      let k := oldest (iter m) "" 0 in
      if k == "" then (m, evicted)
      else evict_loop limit fuel (delete k m) (S evicted)
  end.

Definition EvictDeviceMetricsIfNeeded (m : rings) : rings * nat :=
  evict_loop MaxTrackedDeviceMetrics (size m) m 0.

Hypothesis iter_perm : forall m, iter m ≡ₚ map_to_list m.

(** The maps the stores build: real device ids, non-nil rings, and write
    numbers that are never given twice. *)
Definition evict_wf (m : rings) : Prop :=
  (forall k o, m !! k = Some o -> k <> "" /\ exists r, o = Some r) /\
  (forall k k' r r', m !! k = Some (Some r) -> m !! k' = Some (Some r') ->
     seq_of r = seq_of r' -> k = k').

Lemma oldest_acc l k0 s0 :
  k0 <> "" -> (forall k o, (k, o) ∈ l -> k <> "" /\ exists r, o = Some r) ->
  (oldest l k0 s0 = k0 /\ forall k r, (k, Some r) ∈ l -> (s0 <= seq_of r)%Z) \/
  (exists r, (oldest l k0 s0, Some r) ∈ l /\ (seq_of r < s0)%Z /\
     forall k' r', (k', Some r') ∈ l -> (seq_of r <= seq_of r')%Z).
Proof.
  revert k0 s0. induction l as [| [k o] l IH]; intros k0 s0 Hk0 Hl.
  { left. split; [done |]. intros ?? H. inversion H. }
  destruct (Hl k o ltac:(left)) as [Hk [r ->]]. simpl.
  rewrite (bool_decide_false (k0 = "")) by done. simpl.
  assert (Hl' : forall k o, (k, o) ∈ l -> k <> "" /\ exists r, o = Some r).
  { intros k' o' H'. apply Hl. by right. }
  destruct (Z.ltb_spec (seq_of r) s0) as [Hlt | Hge].
  - right. destruct (IH k (seq_of r) Hk Hl') as [[-> Hmin] | (r1 & Hin & Hlt' & Hmin)].
    + exists r. split; [left |]. split; [done |].
      intros k' r' [[= -> ->] | H']%elem_of_cons; [done | by eapply Hmin].
    + exists r1. split; [by right |]. split; [lia |].
      intros k' r' [[= -> ->] | H']%elem_of_cons; [lia | by eapply Hmin].
  - destruct (IH k0 s0 Hk0 Hl') as [[-> Hmin] | (r1 & Hin & Hlt' & Hmin)].
    + left. split; [done |].
      intros k' r' [[= -> ->] | H']%elem_of_cons; [lia | by eapply Hmin].
    + right. exists r1. split; [by right |]. split; [done |].
      intros k' r' [[= -> ->] | H']%elem_of_cons; [lia | by eapply Hmin].
Qed.

(** The scan finds the entry written longest ago, whatever the order. *)
Lemma oldest_min m :
  evict_wf m -> m <> ∅ ->
  exists r, m !! oldest (iter m) "" 0 = Some (Some r) /\
    forall k' r', m !! k' = Some (Some r') -> (seq_of r <= seq_of r')%Z.
Proof using iter_perm.
  intros [Hwf _] Hne.
  assert (Hin : forall k o, (k, o) ∈ iter m <-> m !! k = Some o).
  { intros k o. by rewrite iter_perm, elem_of_map_to_list. }
  assert (Hl : forall k o, (k, o) ∈ iter m -> k <> "" /\ exists r, o = Some r).
  { intros k o H. apply (Hwf k o). by apply Hin. }
  assert (iter m <> []) as Hnn.
  { intros E. apply Hne. apply map_to_list_empty_iff, Permutation_nil_r.
    by rewrite <- E, iter_perm. }
  setoid_rewrite <- Hin. clear Hin Hwf Hne.
  destruct (iter m) as [| [k o] l]; [done |].
  destruct (Hl k o ltac:(left)) as [Hk [r ->]]. simpl.
  destruct (oldest_acc l k (seq_of r)) as [[-> Hmin] | (r1 & Hi & Hlt & Hmin)];
    [done | intros ?? ?; apply Hl; by right | |].
  - exists r. split; [left |].
    intros k' r' [[= -> ->] | H']%elem_of_cons; [lia | by eapply Hmin].
  - exists r1. split; [by right |].
    intros k' r' [[= -> ->] | H']%elem_of_cons; [lia | by eapply Hmin].
Qed.

Lemma evict_wf_delete k m : evict_wf m -> evict_wf (delete k m).
Proof.
  intros [H1 H2]. split.
  - intros k' o [_ H]%lookup_delete_Some. by apply (H1 k' o).
  - intros k1 k2 r r' [? E1]%lookup_delete_Some [? E2]%lookup_delete_Some. by eapply H2.
Qed.

(** What an eviction leaves: a sub-map of the limit's size whose entries
    were all written after every evicted one. *)
Definition evicted_from (limit : nat) (m m' : rings) : Prop :=
  m' ⊆ m /\ size m' = size m `min` limit /\
  forall k r k' r', m !! k = Some (Some r) -> m' !! k = None ->
    m' !! k' = Some (Some r') -> (seq_of r < seq_of r')%Z.

Lemma evict_loop_spec limit fuel m n :
  evict_wf m -> size m <= fuel ->
  evicted_from limit m (evict_loop limit fuel m n).1 /\
  (evict_loop limit fuel m n).2 = n + (size m - limit).
Proof using iter_perm.
  revert m n. induction fuel as [| fuel IH]; intros m n Hwf Hf; simpl.
  { rewrite decide_True by lia. simpl. split; [split_and!; [done | lia |] | lia].
    intros k r k' r' E1 E2. congruence. }
  case_decide as Hsz.
  { simpl. split; [split_and!; [done | lia |] | lia]. intros k r k' r' E1 E2. congruence. }
  destruct (oldest_min m Hwf) as (r0 & Hk0 & Hmin).
  { intros ->. rewrite map_size_empty in Hsz. lia. }
  destruct (proj1 Hwf _ _ Hk0) as [Hne _].
  revert Hk0 Hne. generalize (oldest (iter m) "" 0). intros k0 Hk0 Hne.
  rewrite (bool_decide_false (k0 = "")) by done.
  assert (Hsd : size (delete k0 m) = size m - 1).
  { rewrite map_size_delete_Some by eauto. lia. }
  destruct (IH (delete k0 m) (S n)) as [(Hsub & Hsize & Hord) Hn];
    [by apply evict_wf_delete | lia |].
  split; [| rewrite Hn, Hsd; lia].
  split; [etransitivity; [exact Hsub | apply delete_subseteq] |].
  split; [rewrite Hsize, Hsd; lia |].
  intros k r k' r' E1 E2 E3. destruct (decide (k = k0)) as [-> | Hk].
  - rewrite Hk0 in E1. injection E1 as ->.
    assert (Hm : delete k0 m !! k' = Some (Some r')) by (by eapply lookup_weaken).
    apply lookup_delete_Some in Hm as [Hkk Hm].
    pose proof (Hmin _ _ Hm).
    destruct (decide (seq_of r = seq_of r')) as [E |]; [| lia].
    destruct Hkk. by eapply (proj2 Hwf).
  - eapply (Hord k r k' r'); [by rewrite lookup_delete_ne | done | done].
Qed.
End evict.
End Evict.

(** ** Bounded agent logs ([bounds.go])

    A batch is represented by any type with a number of lines; the storage
    compaction at the end of the Go function copies the slice and changes no
    element, so it has no counterpart here. *)
Module AgentLogs.
Definition MaxAgentLogReports : Z := 2000.
Definition MaxAgentLogLines : Z := 100000.

Section logs.
Context {A : Type} (nlines : A -> Z).

(** The [for] loop: drops from the front while a bound is exceeded and more
    than one batch remains. *)
Fixpoint drop_oldest (logs : list A) (lines : Z) : list A * Z :=
  match logs with
  | x :: ((_ :: _) as rest) =>
      if ((MaxAgentLogReports <? Z.of_nat (length logs)) || (MaxAgentLogLines <? lines))%Z
      then drop_oldest rest (lines - nlines x) else (logs, lines)
  | _ => (logs, lines)
  end.

Lemma drop_oldest_cons x y logs lines :
  drop_oldest (x :: y :: logs) lines =
    if ((MaxAgentLogReports <? Z.of_nat (length (x :: y :: logs))) || (MaxAgentLogLines <? lines))%Z
    then drop_oldest (y :: logs) (lines - nlines x) else (x :: y :: logs, lines).
Proof. done. Qed.

Definition AppendAgentLogBounded (logs : list A) (lines : Z) (cp : A) : list A * Z :=
  drop_oldest (logs ++ [cp]) (lines + nlines cp).

Definition total_lines (logs : list A) : Z := foldr (fun x n => nlines x + n)%Z 0%Z logs.

Lemma total_lines_app l k : total_lines (l ++ k) = (total_lines l + total_lines k)%Z.
Proof. induction l; simpl; lia. Qed.

Definition within_bounds (logs : list A) : Prop :=
  (Z.of_nat (length logs) <= MaxAgentLogReports /\ total_lines logs <= MaxAgentLogLines)%Z.

Lemma drop_oldest_spec logs lines :
  logs <> [] -> lines = total_lines logs ->
  let (logs', lines') := drop_oldest logs lines in
  exists dropped, logs = dropped ++ logs' /\ lines' = total_lines logs' /\ logs' <> [] /\
    (within_bounds logs' \/ length logs' = 1) /\
    (forall d1 d2, dropped = d1 ++ d2 -> d2 <> [] -> ~ within_bounds (d2 ++ logs')).
Proof.
  revert lines. induction logs as [| x logs IH]; intros lines Hne ->; [done |].
  destruct logs as [| y logs].
  { simpl. exists []. repeat split; [done | by right |].
    intros d1 d2 H. symmetry in H. by apply app_eq_nil in H as [_ ->]. }
  rewrite drop_oldest_cons.
  destruct ((_ <? _)%Z || (_ <? _)%Z)%go eqn:E.
  - assert (Hl : (total_lines (x :: y :: logs) - nlines x)%Z = total_lines (y :: logs)).
    { simpl. lia. }
    specialize (IH _ ltac:(done) Hl). destruct (drop_oldest (y :: logs) _) as [logs' lines'].
    destruct IH as (d & Hd & Hlines & Hne' & Hb & Hmax).
    exists (x :: d). split; [by rewrite Hd |]. repeat split; [done | done | done |].
    intros d1 d2 Hdd Hd2. destruct d1 as [| z d1].
    + simpl in Hdd. subst d2. simpl. rewrite <- Hd. intros [H1 H2].
      apply orb_true_iff in E. rewrite !Z.ltb_lt in E. lia.
    + simpl in Hdd. injection Hdd as -> Hdd. by eapply Hmax.
  - exists []. apply orb_false_iff in E. rewrite !Z.ltb_ge in E.
    split_and!; [done | done | done | left; unfold within_bounds; lia |].
    intros d1 d2 H. symmetry in H. by apply app_eq_nil in H as [_ ->].
Qed.
End logs.
End AgentLogs.

(** ** Properties *)

Module StorekitProps.
Section props.
Context {A : Type} (zero : A) (CollectedAt : A -> time).

Definition add_all (xs : list (Z * A)) (r : MetricsRing.t A) : MetricsRing.t A :=
  foldl (fun r x => MetricsRing.Add x.1 x.2 r) r xs.

Lemma add_all_spec xs r :
  MetricsRing.inv r -> MetricsRing.inv (add_all xs r) /\ MetricsRing.capacity (add_all xs r) = MetricsRing.capacity r /\
  MetricsRing.contents (add_all xs r) = lastn (MetricsRing.capacity r) (MetricsRing.contents r ++ xs.*2).
Proof.
  revert r. induction xs as [| [s x] xs IH]; intros r Hr; simpl.
  { split_and!; [done..|]. rewrite app_nil_r, lastn_all; [done |].
    apply (log_bounded (BoundedLog := MetricsRing.MetricsRing_log 0)). done. }
  pose proof (log_push_contents (BoundedLog := MetricsRing.MetricsRing_log s) x r Hr) as Hc.
  destruct (IH (MetricsRing.Add s x r)) as (H1 & H2 & H3); [by apply ring_push_inv |].
  split_and!; [done | done |]. rewrite H3. simpl in Hc |- *.
  rewrite Hc, lastn_lastn_app, <- app_assoc. done.
Qed.
End props.

(** A metrics ring built by [NewMetricsRing] and filled with any sequence
    of snapshots answers [Latest] with the newest one and [Since] with exactly
    the snapshots of the last [capacity] ones that are not older than the given
    time, in insertion order. *)
Theorem metrics_ring_is_window {A} (zero : A) (CollectedAt : A -> time) cap (xs : list (Z * A)) since :
  let r := add_all xs (MetricsRing.NewMetricsRing zero cap) in
  MetricsRing.Since CollectedAt r since =
    List.filter (fun s => IsZero since || negb (Before (CollectedAt s) since))
      (lastn (MetricsRing.capacity (MetricsRing.NewMetricsRing zero cap)) xs.*2) /\
  MetricsRing.Latest r = last xs.*2.
Proof.
  destruct (add_all_spec xs (MetricsRing.NewMetricsRing zero cap) (MetricsRing.New_inv zero cap)) as (H1 & H2 & H3).
  cbv zeta. rewrite MetricsRing.Since_contents, MetricsRing.Latest_contents, H3, MetricsRing.New_contents by done. simpl app. split.
  { apply filter_ext. intros s. by destruct (IsZero since), (Before (CollectedAt s) since). }
  pose proof (MetricsRing.New_inv zero cap) as (Hpos & _). revert Hpos.
  generalize (MetricsRing.capacity (MetricsRing.NewMetricsRing zero cap)). intros c Hpos.
  destruct (xs.*2) as [| y l _] using rev_ind; [done |].
  unfold lastn. rewrite drop_app_le, !last_snoc; [done |]. rewrite length_app. simpl. lia.
Qed.

(** [EvictDeviceMetricsIfNeeded] keeps the number of tracked devices within
    [MaxTrackedDeviceMetrics], returns how many entries it removed, and every
    entry it removed was written before every entry it kept, for every order in
    which the map is ranged over. *)
Theorem eviction_keeps_recent {A} iter (m : gmap string (option (MetricsRing.t A))) :
  (forall m, iter m ≡ₚ map_to_list m) -> Evict.evict_wf m ->
  let (m', n) := Evict.EvictDeviceMetricsIfNeeded iter m in
  m' ⊆ m /\ size m' <= MaxTrackedDeviceMetrics /\ size m = size m' + n /\
  forall k r k' r', m !! k = Some (Some r) -> m' !! k = None -> m' !! k' = Some (Some r') ->
    (MetricsRing.writeSeq r < MetricsRing.writeSeq r')%Z.
Proof.
  intros Hi Hwf. unfold Evict.EvictDeviceMetricsIfNeeded.
  destruct (Evict.evict_loop_spec iter Hi MaxTrackedDeviceMetrics (size m) m 0 Hwf) as [(H1 & H2 & H3) H4];
    [done |].
  destruct (Evict.evict_loop _ _ _ _ _) as [m' n]. simpl in *.
  split_and!; [done | lia | lia | done].
Qed.

Definition eviction_example : gmap string (option (MetricsRing.t nat)) :=
  {[ "d1" := Some (MetricsRing.Add 1 5 (MetricsRing.NewMetricsRing 0 4)); "d2" := Some (MetricsRing.Add 2 6 (MetricsRing.NewMetricsRing 0 4)) ]}.

Lemma eviction_keeps_recent_witness :
  Evict.evict_wf eviction_example /\
  let (m', n) := Evict.EvictDeviceMetricsIfNeeded map_to_list eviction_example in
  m' ⊆ eviction_example /\ size m' <= MaxTrackedDeviceMetrics /\ size eviction_example = size m' + n /\
  forall k r k' r', eviction_example !! k = Some (Some r) -> m' !! k = None ->
    m' !! k' = Some (Some r') -> (MetricsRing.writeSeq r < MetricsRing.writeSeq r')%Z.
Proof.
  assert (H : Evict.evict_wf eviction_example).
  { unfold eviction_example. split.
    - intros k o [[<- <-] | [? [<- <-]%lookup_singleton_Some]]%lookup_insert_Some;
        (split; [done | by eexists]).
    - intros k k' r r' [[<- [= <-]] | [? [<- [= <-]]%lookup_singleton_Some]]%lookup_insert_Some
        [[<- [= <-]] | [? [<- [= <-]]%lookup_singleton_Some]]%lookup_insert_Some; done. }
  split; [exact H |].
  apply (eviction_keeps_recent map_to_list eviction_example); [intros; reflexivity | exact H].
Defined.

(** [AppendAgentLogBounded] keeps the newest batch, cuts a front segment
    only, keeps the line counter exact, and stops at the longest tail that
    respects both bounds (one batch always stays, even if it is too long). *)
Theorem agent_logs_bounded {A} (nlines : A -> Z) logs lines cp :
  lines = AgentLogs.total_lines nlines logs ->
  let (logs', lines') := AgentLogs.AppendAgentLogBounded nlines logs lines cp in
  exists dropped, logs ++ [cp] = dropped ++ logs' /\ last logs' = Some cp /\
    lines' = AgentLogs.total_lines nlines logs' /\
    (AgentLogs.within_bounds nlines logs' \/ logs' = [cp]) /\
    (forall d1 d2, dropped = d1 ++ d2 -> d2 <> [] -> ~ AgentLogs.within_bounds nlines (d2 ++ logs')).
Proof.
  intros ->. unfold AgentLogs.AppendAgentLogBounded.
  pose proof (AgentLogs.drop_oldest_spec nlines (logs ++ [cp])
    (AgentLogs.total_lines nlines logs + nlines cp)) as H.
  destruct (AgentLogs.drop_oldest _ _ _) as [logs' lines'].
  destruct H as (d & Hd & Hl & Hne & Hb & Hmax).
  { by destruct logs. }
  { rewrite AgentLogs.total_lines_app. simpl. lia. }
  assert (Hlast : last logs' = Some cp).
  { rewrite <- (last_snoc cp logs), Hd, last_app. by destruct (last logs') eqn:E; [| apply last_None in E]. }
  exists d. split_and!; [done.. | | done].
  destruct Hb as [Hb | Hb]; [by left | right].
  destruct logs' as [| y [| z logs']]; try done. simpl in Hlast. congruence.
Qed.

Lemma agent_logs_bounded_witness :
  exists dropped, [70000; 20000]%Z ++ [30000%Z] = dropped ++ [20000; 30000]%Z /\
    last [20000; 30000]%Z = Some 30000%Z.
Proof.
  destruct (agent_logs_bounded (fun x : Z => x) [70000; 20000]%Z 90000%Z 30000%Z eq_refl)
    as (d & H1 & H2 & _).
  exists d. split; [exact H1 | exact H2].
Defined.
End StorekitProps.
