(* ===== verification/Proto.v ===== *)
(** * Shared data ([internal/proto/model.go])

    The structs that the control plane and the agents exchange, one Module
    each with the source's field names, a setter per field (an assignment
    [x.F = v] of the source is [set_F v x]) and the zero value. *)

From S2P Require Import Prelude.

(** [proto.AgentInfo]: what an agent reports when it registers. *)
Module AgentInfo.
Record t := mk {
  AgentID : string;
  Hostname : string;
  Segment : string;
  TenantID : string;
  Addr : string;
  GRPCPort : Z;
  MetricsPort : Z;
  Status : string;
  Load : Z;
  LastSeen : time;
  InstallToken : string;
  OnboardDeviceID : string;
  OS : string;
  Arch : string;
}.

Definition set_AgentID (v : string) (r : t) : t :=
  mk v (r.(Hostname)) (r.(Segment)) (r.(TenantID)) (r.(Addr)) (r.(GRPCPort)) (r.(MetricsPort))
    (r.(Status)) (r.(Load)) (r.(LastSeen)) (r.(InstallToken)) (r.(OnboardDeviceID)) (r.(OS))
    (r.(Arch)).
Definition set_Hostname (v : string) (r : t) : t :=
  mk (r.(AgentID)) v (r.(Segment)) (r.(TenantID)) (r.(Addr)) (r.(GRPCPort)) (r.(MetricsPort))
    (r.(Status)) (r.(Load)) (r.(LastSeen)) (r.(InstallToken)) (r.(OnboardDeviceID)) (r.(OS))
    (r.(Arch)).
Definition set_Segment (v : string) (r : t) : t :=
  mk (r.(AgentID)) (r.(Hostname)) v (r.(TenantID)) (r.(Addr)) (r.(GRPCPort)) (r.(MetricsPort))
    (r.(Status)) (r.(Load)) (r.(LastSeen)) (r.(InstallToken)) (r.(OnboardDeviceID)) (r.(OS))
    (r.(Arch)).
Definition set_TenantID (v : string) (r : t) : t :=
  mk (r.(AgentID)) (r.(Hostname)) (r.(Segment)) v (r.(Addr)) (r.(GRPCPort)) (r.(MetricsPort))
    (r.(Status)) (r.(Load)) (r.(LastSeen)) (r.(InstallToken)) (r.(OnboardDeviceID)) (r.(OS))
    (r.(Arch)).
Definition set_Addr (v : string) (r : t) : t :=
  mk (r.(AgentID)) (r.(Hostname)) (r.(Segment)) (r.(TenantID)) v (r.(GRPCPort))
    (r.(MetricsPort)) (r.(Status)) (r.(Load)) (r.(LastSeen)) (r.(InstallToken))
    (r.(OnboardDeviceID)) (r.(OS)) (r.(Arch)).
Definition set_GRPCPort (v : Z) (r : t) : t :=
  mk (r.(AgentID)) (r.(Hostname)) (r.(Segment)) (r.(TenantID)) (r.(Addr)) v (r.(MetricsPort))
    (r.(Status)) (r.(Load)) (r.(LastSeen)) (r.(InstallToken)) (r.(OnboardDeviceID)) (r.(OS))
    (r.(Arch)).
Definition set_MetricsPort (v : Z) (r : t) : t :=
  mk (r.(AgentID)) (r.(Hostname)) (r.(Segment)) (r.(TenantID)) (r.(Addr)) (r.(GRPCPort)) v
    (r.(Status)) (r.(Load)) (r.(LastSeen)) (r.(InstallToken)) (r.(OnboardDeviceID)) (r.(OS))
    (r.(Arch)).
Definition set_Status (v : string) (r : t) : t :=
  mk (r.(AgentID)) (r.(Hostname)) (r.(Segment)) (r.(TenantID)) (r.(Addr)) (r.(GRPCPort))
    (r.(MetricsPort)) v (r.(Load)) (r.(LastSeen)) (r.(InstallToken)) (r.(OnboardDeviceID))
    (r.(OS)) (r.(Arch)).
Definition set_Load (v : Z) (r : t) : t :=
  mk (r.(AgentID)) (r.(Hostname)) (r.(Segment)) (r.(TenantID)) (r.(Addr)) (r.(GRPCPort))
    (r.(MetricsPort)) (r.(Status)) v (r.(LastSeen)) (r.(InstallToken)) (r.(OnboardDeviceID))
    (r.(OS)) (r.(Arch)).
Definition set_LastSeen (v : time) (r : t) : t :=
  mk (r.(AgentID)) (r.(Hostname)) (r.(Segment)) (r.(TenantID)) (r.(Addr)) (r.(GRPCPort))
    (r.(MetricsPort)) (r.(Status)) (r.(Load)) v (r.(InstallToken)) (r.(OnboardDeviceID))
    (r.(OS)) (r.(Arch)).
Definition set_InstallToken (v : string) (r : t) : t :=
  mk (r.(AgentID)) (r.(Hostname)) (r.(Segment)) (r.(TenantID)) (r.(Addr)) (r.(GRPCPort))
    (r.(MetricsPort)) (r.(Status)) (r.(Load)) (r.(LastSeen)) v (r.(OnboardDeviceID)) (r.(OS))
    (r.(Arch)).
Definition set_OnboardDeviceID (v : string) (r : t) : t :=
  mk (r.(AgentID)) (r.(Hostname)) (r.(Segment)) (r.(TenantID)) (r.(Addr)) (r.(GRPCPort))
    (r.(MetricsPort)) (r.(Status)) (r.(Load)) (r.(LastSeen)) (r.(InstallToken)) v (r.(OS))
    (r.(Arch)).
Definition set_OS (v : string) (r : t) : t :=
  mk (r.(AgentID)) (r.(Hostname)) (r.(Segment)) (r.(TenantID)) (r.(Addr)) (r.(GRPCPort))
    (r.(MetricsPort)) (r.(Status)) (r.(Load)) (r.(LastSeen)) (r.(InstallToken))
    (r.(OnboardDeviceID)) v (r.(Arch)).
Definition set_Arch (v : string) (r : t) : t :=
  mk (r.(AgentID)) (r.(Hostname)) (r.(Segment)) (r.(TenantID)) (r.(Addr)) (r.(GRPCPort))
    (r.(MetricsPort)) (r.(Status)) (r.(Load)) (r.(LastSeen)) (r.(InstallToken))
    (r.(OnboardDeviceID)) (r.(OS)) v.

(** Go's zero value. *)
Definition zero : t := mk "" "" "" "" "" 0%Z 0%Z "" 0%Z zero_time "" "" "" "".

#[export] Instance t_eq_dec : EqDecision t.
Proof. solve_decision. Defined.
End AgentInfo.

(** [proto.DeviceInfo]: a device of a network segment. *)
Module DeviceInfo.
Record t := mk {
  DeviceID : string;
  Segment : string;
  TenantID : string;
  IP : string;
  AgentID : string;
  State : string;
  TaskState : string;
  Managed : bool;
  LastResult : string;
  LastResultAt : time;
  Retired : bool;
  Hostname : string;
  OS : string;
  Arch : string;
}.

Definition set_DeviceID (v : string) (r : t) : t :=
  mk v (r.(Segment)) (r.(TenantID)) (r.(IP)) (r.(AgentID)) (r.(State)) (r.(TaskState))
    (r.(Managed)) (r.(LastResult)) (r.(LastResultAt)) (r.(Retired)) (r.(Hostname)) (r.(OS))
    (r.(Arch)).
Definition set_Segment (v : string) (r : t) : t :=
  mk (r.(DeviceID)) v (r.(TenantID)) (r.(IP)) (r.(AgentID)) (r.(State)) (r.(TaskState))
    (r.(Managed)) (r.(LastResult)) (r.(LastResultAt)) (r.(Retired)) (r.(Hostname)) (r.(OS))
    (r.(Arch)).
Definition set_TenantID (v : string) (r : t) : t :=
  mk (r.(DeviceID)) (r.(Segment)) v (r.(IP)) (r.(AgentID)) (r.(State)) (r.(TaskState))
    (r.(Managed)) (r.(LastResult)) (r.(LastResultAt)) (r.(Retired)) (r.(Hostname)) (r.(OS))
    (r.(Arch)).
Definition set_IP (v : string) (r : t) : t :=
  mk (r.(DeviceID)) (r.(Segment)) (r.(TenantID)) v (r.(AgentID)) (r.(State)) (r.(TaskState))
    (r.(Managed)) (r.(LastResult)) (r.(LastResultAt)) (r.(Retired)) (r.(Hostname)) (r.(OS))
    (r.(Arch)).
Definition set_AgentID (v : string) (r : t) : t :=
  mk (r.(DeviceID)) (r.(Segment)) (r.(TenantID)) (r.(IP)) v (r.(State)) (r.(TaskState))
    (r.(Managed)) (r.(LastResult)) (r.(LastResultAt)) (r.(Retired)) (r.(Hostname)) (r.(OS))
    (r.(Arch)).
Definition set_State (v : string) (r : t) : t :=
  mk (r.(DeviceID)) (r.(Segment)) (r.(TenantID)) (r.(IP)) (r.(AgentID)) v (r.(TaskState))
    (r.(Managed)) (r.(LastResult)) (r.(LastResultAt)) (r.(Retired)) (r.(Hostname)) (r.(OS))
    (r.(Arch)).
Definition set_TaskState (v : string) (r : t) : t :=
  mk (r.(DeviceID)) (r.(Segment)) (r.(TenantID)) (r.(IP)) (r.(AgentID)) (r.(State)) v
    (r.(Managed)) (r.(LastResult)) (r.(LastResultAt)) (r.(Retired)) (r.(Hostname)) (r.(OS))
    (r.(Arch)).
Definition set_Managed (v : bool) (r : t) : t :=
  mk (r.(DeviceID)) (r.(Segment)) (r.(TenantID)) (r.(IP)) (r.(AgentID)) (r.(State))
    (r.(TaskState)) v (r.(LastResult)) (r.(LastResultAt)) (r.(Retired)) (r.(Hostname)) (r.(OS))
    (r.(Arch)).
Definition set_LastResult (v : string) (r : t) : t :=
  mk (r.(DeviceID)) (r.(Segment)) (r.(TenantID)) (r.(IP)) (r.(AgentID)) (r.(State))
    (r.(TaskState)) (r.(Managed)) v (r.(LastResultAt)) (r.(Retired)) (r.(Hostname)) (r.(OS))
    (r.(Arch)).
Definition set_LastResultAt (v : time) (r : t) : t :=
  mk (r.(DeviceID)) (r.(Segment)) (r.(TenantID)) (r.(IP)) (r.(AgentID)) (r.(State))
    (r.(TaskState)) (r.(Managed)) (r.(LastResult)) v (r.(Retired)) (r.(Hostname)) (r.(OS))
    (r.(Arch)).
Definition set_Retired (v : bool) (r : t) : t :=
  mk (r.(DeviceID)) (r.(Segment)) (r.(TenantID)) (r.(IP)) (r.(AgentID)) (r.(State))
    (r.(TaskState)) (r.(Managed)) (r.(LastResult)) (r.(LastResultAt)) v (r.(Hostname)) (r.(OS))
    (r.(Arch)).
Definition set_Hostname (v : string) (r : t) : t :=
  mk (r.(DeviceID)) (r.(Segment)) (r.(TenantID)) (r.(IP)) (r.(AgentID)) (r.(State))
    (r.(TaskState)) (r.(Managed)) (r.(LastResult)) (r.(LastResultAt)) (r.(Retired)) v (r.(OS))
    (r.(Arch)).
Definition set_OS (v : string) (r : t) : t :=
  mk (r.(DeviceID)) (r.(Segment)) (r.(TenantID)) (r.(IP)) (r.(AgentID)) (r.(State))
    (r.(TaskState)) (r.(Managed)) (r.(LastResult)) (r.(LastResultAt)) (r.(Retired))
    (r.(Hostname)) v (r.(Arch)).
Definition set_Arch (v : string) (r : t) : t :=
  mk (r.(DeviceID)) (r.(Segment)) (r.(TenantID)) (r.(IP)) (r.(AgentID)) (r.(State))
    (r.(TaskState)) (r.(Managed)) (r.(LastResult)) (r.(LastResultAt)) (r.(Retired))
    (r.(Hostname)) (r.(OS)) v.

(** Go's zero value. *)
Definition zero : t := mk "" "" "" "" "" "" "" false "" zero_time false "" "" "".

#[export] Instance t_eq_dec : EqDecision t.
Proof. solve_decision. Defined.
End DeviceInfo.

(** [proto.Task]: a task sent to an agent ([Type] is a keyword, hence [Type_]). *)
Module Task.
Record t := mk {
  TaskID : string;
  AgentID : string;
  TenantID : string;
  Type_ : string;
  Command : string;
  Content : string;
  Path : string;
  Status : string;
  ClaimedBy : string;
  ClaimedAt : time;
  ClaimEpoch : Z;
  CreatedAt : time;
  RetryCount : Z;
  MaxRetries : Z;
  DeadLetter : bool;
  Timeout : Z;
  RetryDelay : Z;
  Schedule : string;
  ParentID : string;
  LastFiredAt : time;
  DependsOn : list string;
  ApprovalRequired : bool;
  ApprovedBy : string;
  ApprovedAt : time;
  BatchID : string;
  Priority : Z;
  IdempotencyKey : string;
  StatusMachine : string;
  ScriptBody : string;
}.

Definition set_TaskID (v : string) (r : t) : t :=
  mk v (r.(AgentID)) (r.(TenantID)) (r.(Type_)) (r.(Command)) (r.(Content)) (r.(Path))
    (r.(Status)) (r.(ClaimedBy)) (r.(ClaimedAt)) (r.(ClaimEpoch)) (r.(CreatedAt))
    (r.(RetryCount)) (r.(MaxRetries)) (r.(DeadLetter)) (r.(Timeout)) (r.(RetryDelay))
    (r.(Schedule)) (r.(ParentID)) (r.(LastFiredAt)) (r.(DependsOn)) (r.(ApprovalRequired))
    (r.(ApprovedBy)) (r.(ApprovedAt)) (r.(BatchID)) (r.(Priority)) (r.(IdempotencyKey))
    (r.(StatusMachine)) (r.(ScriptBody)).
Definition set_AgentID (v : string) (r : t) : t :=
  mk (r.(TaskID)) v (r.(TenantID)) (r.(Type_)) (r.(Command)) (r.(Content)) (r.(Path))
    (r.(Status)) (r.(ClaimedBy)) (r.(ClaimedAt)) (r.(ClaimEpoch)) (r.(CreatedAt))
    (r.(RetryCount)) (r.(MaxRetries)) (r.(DeadLetter)) (r.(Timeout)) (r.(RetryDelay))
    (r.(Schedule)) (r.(ParentID)) (r.(LastFiredAt)) (r.(DependsOn)) (r.(ApprovalRequired))
    (r.(ApprovedBy)) (r.(ApprovedAt)) (r.(BatchID)) (r.(Priority)) (r.(IdempotencyKey))
    (r.(StatusMachine)) (r.(ScriptBody)).
Definition set_TenantID (v : string) (r : t) : t :=
  mk (r.(TaskID)) (r.(AgentID)) v (r.(Type_)) (r.(Command)) (r.(Content)) (r.(Path))
    (r.(Status)) (r.(ClaimedBy)) (r.(ClaimedAt)) (r.(ClaimEpoch)) (r.(CreatedAt))
    (r.(RetryCount)) (r.(MaxRetries)) (r.(DeadLetter)) (r.(Timeout)) (r.(RetryDelay))
    (r.(Schedule)) (r.(ParentID)) (r.(LastFiredAt)) (r.(DependsOn)) (r.(ApprovalRequired))
    (r.(ApprovedBy)) (r.(ApprovedAt)) (r.(BatchID)) (r.(Priority)) (r.(IdempotencyKey))
    (r.(StatusMachine)) (r.(ScriptBody)).
Definition set_Type_ (v : string) (r : t) : t :=
  mk (r.(TaskID)) (r.(AgentID)) (r.(TenantID)) v (r.(Command)) (r.(Content)) (r.(Path))
    (r.(Status)) (r.(ClaimedBy)) (r.(ClaimedAt)) (r.(ClaimEpoch)) (r.(CreatedAt))
    (r.(RetryCount)) (r.(MaxRetries)) (r.(DeadLetter)) (r.(Timeout)) (r.(RetryDelay))
    (r.(Schedule)) (r.(ParentID)) (r.(LastFiredAt)) (r.(DependsOn)) (r.(ApprovalRequired))
    (r.(ApprovedBy)) (r.(ApprovedAt)) (r.(BatchID)) (r.(Priority)) (r.(IdempotencyKey))
    (r.(StatusMachine)) (r.(ScriptBody)).
Definition set_Command (v : string) (r : t) : t :=
  mk (r.(TaskID)) (r.(AgentID)) (r.(TenantID)) (r.(Type_)) v (r.(Content)) (r.(Path))
    (r.(Status)) (r.(ClaimedBy)) (r.(ClaimedAt)) (r.(ClaimEpoch)) (r.(CreatedAt))
    (r.(RetryCount)) (r.(MaxRetries)) (r.(DeadLetter)) (r.(Timeout)) (r.(RetryDelay))
    (r.(Schedule)) (r.(ParentID)) (r.(LastFiredAt)) (r.(DependsOn)) (r.(ApprovalRequired))
    (r.(ApprovedBy)) (r.(ApprovedAt)) (r.(BatchID)) (r.(Priority)) (r.(IdempotencyKey))
    (r.(StatusMachine)) (r.(ScriptBody)).
Definition set_Content (v : string) (r : t) : t :=
  mk (r.(TaskID)) (r.(AgentID)) (r.(TenantID)) (r.(Type_)) (r.(Command)) v (r.(Path))
    (r.(Status)) (r.(ClaimedBy)) (r.(ClaimedAt)) (r.(ClaimEpoch)) (r.(CreatedAt))
    (r.(RetryCount)) (r.(MaxRetries)) (r.(DeadLetter)) (r.(Timeout)) (r.(RetryDelay))
    (r.(Schedule)) (r.(ParentID)) (r.(LastFiredAt)) (r.(DependsOn)) (r.(ApprovalRequired))
    (r.(ApprovedBy)) (r.(ApprovedAt)) (r.(BatchID)) (r.(Priority)) (r.(IdempotencyKey))
    (r.(StatusMachine)) (r.(ScriptBody)).
Definition set_Path (v : string) (r : t) : t :=
  mk (r.(TaskID)) (r.(AgentID)) (r.(TenantID)) (r.(Type_)) (r.(Command)) (r.(Content)) v
    (r.(Status)) (r.(ClaimedBy)) (r.(ClaimedAt)) (r.(ClaimEpoch)) (r.(CreatedAt))
    (r.(RetryCount)) (r.(MaxRetries)) (r.(DeadLetter)) (r.(Timeout)) (r.(RetryDelay))
    (r.(Schedule)) (r.(ParentID)) (r.(LastFiredAt)) (r.(DependsOn)) (r.(ApprovalRequired))
    (r.(ApprovedBy)) (r.(ApprovedAt)) (r.(BatchID)) (r.(Priority)) (r.(IdempotencyKey))
    (r.(StatusMachine)) (r.(ScriptBody)).
Definition set_Status (v : string) (r : t) : t :=
  mk (r.(TaskID)) (r.(AgentID)) (r.(TenantID)) (r.(Type_)) (r.(Command)) (r.(Content))
    (r.(Path)) v (r.(ClaimedBy)) (r.(ClaimedAt)) (r.(ClaimEpoch)) (r.(CreatedAt))
    (r.(RetryCount)) (r.(MaxRetries)) (r.(DeadLetter)) (r.(Timeout)) (r.(RetryDelay))
    (r.(Schedule)) (r.(ParentID)) (r.(LastFiredAt)) (r.(DependsOn)) (r.(ApprovalRequired))
    (r.(ApprovedBy)) (r.(ApprovedAt)) (r.(BatchID)) (r.(Priority)) (r.(IdempotencyKey))
    (r.(StatusMachine)) (r.(ScriptBody)).
Definition set_ClaimedBy (v : string) (r : t) : t :=
  mk (r.(TaskID)) (r.(AgentID)) (r.(TenantID)) (r.(Type_)) (r.(Command)) (r.(Content))
    (r.(Path)) (r.(Status)) v (r.(ClaimedAt)) (r.(ClaimEpoch)) (r.(CreatedAt)) (r.(RetryCount))
    (r.(MaxRetries)) (r.(DeadLetter)) (r.(Timeout)) (r.(RetryDelay)) (r.(Schedule))
    (r.(ParentID)) (r.(LastFiredAt)) (r.(DependsOn)) (r.(ApprovalRequired)) (r.(ApprovedBy))
    (r.(ApprovedAt)) (r.(BatchID)) (r.(Priority)) (r.(IdempotencyKey)) (r.(StatusMachine))
    (r.(ScriptBody)).
Definition set_ClaimedAt (v : time) (r : t) : t :=
  mk (r.(TaskID)) (r.(AgentID)) (r.(TenantID)) (r.(Type_)) (r.(Command)) (r.(Content))
    (r.(Path)) (r.(Status)) (r.(ClaimedBy)) v (r.(ClaimEpoch)) (r.(CreatedAt)) (r.(RetryCount))
    (r.(MaxRetries)) (r.(DeadLetter)) (r.(Timeout)) (r.(RetryDelay)) (r.(Schedule))
    (r.(ParentID)) (r.(LastFiredAt)) (r.(DependsOn)) (r.(ApprovalRequired)) (r.(ApprovedBy))
    (r.(ApprovedAt)) (r.(BatchID)) (r.(Priority)) (r.(IdempotencyKey)) (r.(StatusMachine))
    (r.(ScriptBody)).
Definition set_ClaimEpoch (v : Z) (r : t) : t :=
  mk (r.(TaskID)) (r.(AgentID)) (r.(TenantID)) (r.(Type_)) (r.(Command)) (r.(Content))
    (r.(Path)) (r.(Status)) (r.(ClaimedBy)) (r.(ClaimedAt)) v (r.(CreatedAt)) (r.(RetryCount))
    (r.(MaxRetries)) (r.(DeadLetter)) (r.(Timeout)) (r.(RetryDelay)) (r.(Schedule))
    (r.(ParentID)) (r.(LastFiredAt)) (r.(DependsOn)) (r.(ApprovalRequired)) (r.(ApprovedBy))
    (r.(ApprovedAt)) (r.(BatchID)) (r.(Priority)) (r.(IdempotencyKey)) (r.(StatusMachine))
    (r.(ScriptBody)).
Definition set_CreatedAt (v : time) (r : t) : t :=
  mk (r.(TaskID)) (r.(AgentID)) (r.(TenantID)) (r.(Type_)) (r.(Command)) (r.(Content))
    (r.(Path)) (r.(Status)) (r.(ClaimedBy)) (r.(ClaimedAt)) (r.(ClaimEpoch)) v (r.(RetryCount))
    (r.(MaxRetries)) (r.(DeadLetter)) (r.(Timeout)) (r.(RetryDelay)) (r.(Schedule))
    (r.(ParentID)) (r.(LastFiredAt)) (r.(DependsOn)) (r.(ApprovalRequired)) (r.(ApprovedBy))
    (r.(ApprovedAt)) (r.(BatchID)) (r.(Priority)) (r.(IdempotencyKey)) (r.(StatusMachine))
    (r.(ScriptBody)).
Definition set_RetryCount (v : Z) (r : t) : t :=
  mk (r.(TaskID)) (r.(AgentID)) (r.(TenantID)) (r.(Type_)) (r.(Command)) (r.(Content))
    (r.(Path)) (r.(Status)) (r.(ClaimedBy)) (r.(ClaimedAt)) (r.(ClaimEpoch)) (r.(CreatedAt)) v
    (r.(MaxRetries)) (r.(DeadLetter)) (r.(Timeout)) (r.(RetryDelay)) (r.(Schedule))
    (r.(ParentID)) (r.(LastFiredAt)) (r.(DependsOn)) (r.(ApprovalRequired)) (r.(ApprovedBy))
    (r.(ApprovedAt)) (r.(BatchID)) (r.(Priority)) (r.(IdempotencyKey)) (r.(StatusMachine))
    (r.(ScriptBody)).
Definition set_MaxRetries (v : Z) (r : t) : t :=
  mk (r.(TaskID)) (r.(AgentID)) (r.(TenantID)) (r.(Type_)) (r.(Command)) (r.(Content))
    (r.(Path)) (r.(Status)) (r.(ClaimedBy)) (r.(ClaimedAt)) (r.(ClaimEpoch)) (r.(CreatedAt))
    (r.(RetryCount)) v (r.(DeadLetter)) (r.(Timeout)) (r.(RetryDelay)) (r.(Schedule))
    (r.(ParentID)) (r.(LastFiredAt)) (r.(DependsOn)) (r.(ApprovalRequired)) (r.(ApprovedBy))
    (r.(ApprovedAt)) (r.(BatchID)) (r.(Priority)) (r.(IdempotencyKey)) (r.(StatusMachine))
    (r.(ScriptBody)).
Definition set_DeadLetter (v : bool) (r : t) : t :=
  mk (r.(TaskID)) (r.(AgentID)) (r.(TenantID)) (r.(Type_)) (r.(Command)) (r.(Content))
    (r.(Path)) (r.(Status)) (r.(ClaimedBy)) (r.(ClaimedAt)) (r.(ClaimEpoch)) (r.(CreatedAt))
    (r.(RetryCount)) (r.(MaxRetries)) v (r.(Timeout)) (r.(RetryDelay)) (r.(Schedule))
    (r.(ParentID)) (r.(LastFiredAt)) (r.(DependsOn)) (r.(ApprovalRequired)) (r.(ApprovedBy))
    (r.(ApprovedAt)) (r.(BatchID)) (r.(Priority)) (r.(IdempotencyKey)) (r.(StatusMachine))
    (r.(ScriptBody)).
Definition set_Timeout (v : Z) (r : t) : t :=
  mk (r.(TaskID)) (r.(AgentID)) (r.(TenantID)) (r.(Type_)) (r.(Command)) (r.(Content))
    (r.(Path)) (r.(Status)) (r.(ClaimedBy)) (r.(ClaimedAt)) (r.(ClaimEpoch)) (r.(CreatedAt))
    (r.(RetryCount)) (r.(MaxRetries)) (r.(DeadLetter)) v (r.(RetryDelay)) (r.(Schedule))
    (r.(ParentID)) (r.(LastFiredAt)) (r.(DependsOn)) (r.(ApprovalRequired)) (r.(ApprovedBy))
    (r.(ApprovedAt)) (r.(BatchID)) (r.(Priority)) (r.(IdempotencyKey)) (r.(StatusMachine))
    (r.(ScriptBody)).
Definition set_RetryDelay (v : Z) (r : t) : t :=
  mk (r.(TaskID)) (r.(AgentID)) (r.(TenantID)) (r.(Type_)) (r.(Command)) (r.(Content))
    (r.(Path)) (r.(Status)) (r.(ClaimedBy)) (r.(ClaimedAt)) (r.(ClaimEpoch)) (r.(CreatedAt))
    (r.(RetryCount)) (r.(MaxRetries)) (r.(DeadLetter)) (r.(Timeout)) v (r.(Schedule))
    (r.(ParentID)) (r.(LastFiredAt)) (r.(DependsOn)) (r.(ApprovalRequired)) (r.(ApprovedBy))
    (r.(ApprovedAt)) (r.(BatchID)) (r.(Priority)) (r.(IdempotencyKey)) (r.(StatusMachine))
    (r.(ScriptBody)).
Definition set_Schedule (v : string) (r : t) : t :=
  mk (r.(TaskID)) (r.(AgentID)) (r.(TenantID)) (r.(Type_)) (r.(Command)) (r.(Content))
    (r.(Path)) (r.(Status)) (r.(ClaimedBy)) (r.(ClaimedAt)) (r.(ClaimEpoch)) (r.(CreatedAt))
    (r.(RetryCount)) (r.(MaxRetries)) (r.(DeadLetter)) (r.(Timeout)) (r.(RetryDelay)) v
    (r.(ParentID)) (r.(LastFiredAt)) (r.(DependsOn)) (r.(ApprovalRequired)) (r.(ApprovedBy))
    (r.(ApprovedAt)) (r.(BatchID)) (r.(Priority)) (r.(IdempotencyKey)) (r.(StatusMachine))
    (r.(ScriptBody)).
Definition set_ParentID (v : string) (r : t) : t :=
  mk (r.(TaskID)) (r.(AgentID)) (r.(TenantID)) (r.(Type_)) (r.(Command)) (r.(Content))
    (r.(Path)) (r.(Status)) (r.(ClaimedBy)) (r.(ClaimedAt)) (r.(ClaimEpoch)) (r.(CreatedAt))
    (r.(RetryCount)) (r.(MaxRetries)) (r.(DeadLetter)) (r.(Timeout)) (r.(RetryDelay))
    (r.(Schedule)) v (r.(LastFiredAt)) (r.(DependsOn)) (r.(ApprovalRequired)) (r.(ApprovedBy))
    (r.(ApprovedAt)) (r.(BatchID)) (r.(Priority)) (r.(IdempotencyKey)) (r.(StatusMachine))
    (r.(ScriptBody)).
Definition set_LastFiredAt (v : time) (r : t) : t :=
  mk (r.(TaskID)) (r.(AgentID)) (r.(TenantID)) (r.(Type_)) (r.(Command)) (r.(Content))
    (r.(Path)) (r.(Status)) (r.(ClaimedBy)) (r.(ClaimedAt)) (r.(ClaimEpoch)) (r.(CreatedAt))
    (r.(RetryCount)) (r.(MaxRetries)) (r.(DeadLetter)) (r.(Timeout)) (r.(RetryDelay))
    (r.(Schedule)) (r.(ParentID)) v (r.(DependsOn)) (r.(ApprovalRequired)) (r.(ApprovedBy))
    (r.(ApprovedAt)) (r.(BatchID)) (r.(Priority)) (r.(IdempotencyKey)) (r.(StatusMachine))
    (r.(ScriptBody)).
Definition set_DependsOn (v : list string) (r : t) : t :=
  mk (r.(TaskID)) (r.(AgentID)) (r.(TenantID)) (r.(Type_)) (r.(Command)) (r.(Content))
    (r.(Path)) (r.(Status)) (r.(ClaimedBy)) (r.(ClaimedAt)) (r.(ClaimEpoch)) (r.(CreatedAt))
    (r.(RetryCount)) (r.(MaxRetries)) (r.(DeadLetter)) (r.(Timeout)) (r.(RetryDelay))
    (r.(Schedule)) (r.(ParentID)) (r.(LastFiredAt)) v (r.(ApprovalRequired)) (r.(ApprovedBy))
    (r.(ApprovedAt)) (r.(BatchID)) (r.(Priority)) (r.(IdempotencyKey)) (r.(StatusMachine))
    (r.(ScriptBody)).
Definition set_ApprovalRequired (v : bool) (r : t) : t :=
  mk (r.(TaskID)) (r.(AgentID)) (r.(TenantID)) (r.(Type_)) (r.(Command)) (r.(Content))
    (r.(Path)) (r.(Status)) (r.(ClaimedBy)) (r.(ClaimedAt)) (r.(ClaimEpoch)) (r.(CreatedAt))
    (r.(RetryCount)) (r.(MaxRetries)) (r.(DeadLetter)) (r.(Timeout)) (r.(RetryDelay))
    (r.(Schedule)) (r.(ParentID)) (r.(LastFiredAt)) (r.(DependsOn)) v (r.(ApprovedBy))
    (r.(ApprovedAt)) (r.(BatchID)) (r.(Priority)) (r.(IdempotencyKey)) (r.(StatusMachine))
    (r.(ScriptBody)).
Definition set_ApprovedBy (v : string) (r : t) : t :=
  mk (r.(TaskID)) (r.(AgentID)) (r.(TenantID)) (r.(Type_)) (r.(Command)) (r.(Content))
    (r.(Path)) (r.(Status)) (r.(ClaimedBy)) (r.(ClaimedAt)) (r.(ClaimEpoch)) (r.(CreatedAt))
    (r.(RetryCount)) (r.(MaxRetries)) (r.(DeadLetter)) (r.(Timeout)) (r.(RetryDelay))
    (r.(Schedule)) (r.(ParentID)) (r.(LastFiredAt)) (r.(DependsOn)) (r.(ApprovalRequired)) v
    (r.(ApprovedAt)) (r.(BatchID)) (r.(Priority)) (r.(IdempotencyKey)) (r.(StatusMachine))
    (r.(ScriptBody)).
Definition set_ApprovedAt (v : time) (r : t) : t :=
  mk (r.(TaskID)) (r.(AgentID)) (r.(TenantID)) (r.(Type_)) (r.(Command)) (r.(Content))
    (r.(Path)) (r.(Status)) (r.(ClaimedBy)) (r.(ClaimedAt)) (r.(ClaimEpoch)) (r.(CreatedAt))
    (r.(RetryCount)) (r.(MaxRetries)) (r.(DeadLetter)) (r.(Timeout)) (r.(RetryDelay))
    (r.(Schedule)) (r.(ParentID)) (r.(LastFiredAt)) (r.(DependsOn)) (r.(ApprovalRequired))
    (r.(ApprovedBy)) v (r.(BatchID)) (r.(Priority)) (r.(IdempotencyKey)) (r.(StatusMachine))
    (r.(ScriptBody)).
Definition set_BatchID (v : string) (r : t) : t :=
  mk (r.(TaskID)) (r.(AgentID)) (r.(TenantID)) (r.(Type_)) (r.(Command)) (r.(Content))
    (r.(Path)) (r.(Status)) (r.(ClaimedBy)) (r.(ClaimedAt)) (r.(ClaimEpoch)) (r.(CreatedAt))
    (r.(RetryCount)) (r.(MaxRetries)) (r.(DeadLetter)) (r.(Timeout)) (r.(RetryDelay))
    (r.(Schedule)) (r.(ParentID)) (r.(LastFiredAt)) (r.(DependsOn)) (r.(ApprovalRequired))
    (r.(ApprovedBy)) (r.(ApprovedAt)) v (r.(Priority)) (r.(IdempotencyKey)) (r.(StatusMachine))
    (r.(ScriptBody)).
Definition set_Priority (v : Z) (r : t) : t :=
  mk (r.(TaskID)) (r.(AgentID)) (r.(TenantID)) (r.(Type_)) (r.(Command)) (r.(Content))
    (r.(Path)) (r.(Status)) (r.(ClaimedBy)) (r.(ClaimedAt)) (r.(ClaimEpoch)) (r.(CreatedAt))
    (r.(RetryCount)) (r.(MaxRetries)) (r.(DeadLetter)) (r.(Timeout)) (r.(RetryDelay))
    (r.(Schedule)) (r.(ParentID)) (r.(LastFiredAt)) (r.(DependsOn)) (r.(ApprovalRequired))
    (r.(ApprovedBy)) (r.(ApprovedAt)) (r.(BatchID)) v (r.(IdempotencyKey)) (r.(StatusMachine))
    (r.(ScriptBody)).
Definition set_IdempotencyKey (v : string) (r : t) : t :=
  mk (r.(TaskID)) (r.(AgentID)) (r.(TenantID)) (r.(Type_)) (r.(Command)) (r.(Content))
    (r.(Path)) (r.(Status)) (r.(ClaimedBy)) (r.(ClaimedAt)) (r.(ClaimEpoch)) (r.(CreatedAt))
    (r.(RetryCount)) (r.(MaxRetries)) (r.(DeadLetter)) (r.(Timeout)) (r.(RetryDelay))
    (r.(Schedule)) (r.(ParentID)) (r.(LastFiredAt)) (r.(DependsOn)) (r.(ApprovalRequired))
    (r.(ApprovedBy)) (r.(ApprovedAt)) (r.(BatchID)) (r.(Priority)) v (r.(StatusMachine))
    (r.(ScriptBody)).
Definition set_StatusMachine (v : string) (r : t) : t :=
  mk (r.(TaskID)) (r.(AgentID)) (r.(TenantID)) (r.(Type_)) (r.(Command)) (r.(Content))
    (r.(Path)) (r.(Status)) (r.(ClaimedBy)) (r.(ClaimedAt)) (r.(ClaimEpoch)) (r.(CreatedAt))
    (r.(RetryCount)) (r.(MaxRetries)) (r.(DeadLetter)) (r.(Timeout)) (r.(RetryDelay))
    (r.(Schedule)) (r.(ParentID)) (r.(LastFiredAt)) (r.(DependsOn)) (r.(ApprovalRequired))
    (r.(ApprovedBy)) (r.(ApprovedAt)) (r.(BatchID)) (r.(Priority)) (r.(IdempotencyKey)) v
    (r.(ScriptBody)).
Definition set_ScriptBody (v : string) (r : t) : t :=
  mk (r.(TaskID)) (r.(AgentID)) (r.(TenantID)) (r.(Type_)) (r.(Command)) (r.(Content))
    (r.(Path)) (r.(Status)) (r.(ClaimedBy)) (r.(ClaimedAt)) (r.(ClaimEpoch)) (r.(CreatedAt))
    (r.(RetryCount)) (r.(MaxRetries)) (r.(DeadLetter)) (r.(Timeout)) (r.(RetryDelay))
    (r.(Schedule)) (r.(ParentID)) (r.(LastFiredAt)) (r.(DependsOn)) (r.(ApprovalRequired))
    (r.(ApprovedBy)) (r.(ApprovedAt)) (r.(BatchID)) (r.(Priority)) (r.(IdempotencyKey))
    (r.(StatusMachine)) v.

(** Go's zero value. *)
Definition zero : t :=
  mk "" "" "" "" "" "" "" "" "" zero_time 0%Z zero_time 0%Z 0%Z false 0%Z 0%Z "" "" zero_time []
    false "" zero_time "" 0%Z "" "" "".

#[export] Instance t_eq_dec : EqDecision t.
Proof. solve_decision. Defined.
End Task.

(** [proto.AuditEvent]. *)
Module AuditEvent.
Record t := mk {
  TenantID : string;
  UserID : string;
  Action : string;
  Target : string;
  Detail : string;
  CreatedAt : time;
  HighRisk : bool;
  TraceID : string;
}.

Definition set_TenantID (v : string) (r : t) : t :=
  mk v (r.(UserID)) (r.(Action)) (r.(Target)) (r.(Detail)) (r.(CreatedAt)) (r.(HighRisk))
    (r.(TraceID)).
Definition set_UserID (v : string) (r : t) : t :=
  mk (r.(TenantID)) v (r.(Action)) (r.(Target)) (r.(Detail)) (r.(CreatedAt)) (r.(HighRisk))
    (r.(TraceID)).
Definition set_Action (v : string) (r : t) : t :=
  mk (r.(TenantID)) (r.(UserID)) v (r.(Target)) (r.(Detail)) (r.(CreatedAt)) (r.(HighRisk))
    (r.(TraceID)).
Definition set_Target (v : string) (r : t) : t :=
  mk (r.(TenantID)) (r.(UserID)) (r.(Action)) v (r.(Detail)) (r.(CreatedAt)) (r.(HighRisk))
    (r.(TraceID)).
Definition set_Detail (v : string) (r : t) : t :=
  mk (r.(TenantID)) (r.(UserID)) (r.(Action)) (r.(Target)) v (r.(CreatedAt)) (r.(HighRisk))
    (r.(TraceID)).
Definition set_CreatedAt (v : time) (r : t) : t :=
  mk (r.(TenantID)) (r.(UserID)) (r.(Action)) (r.(Target)) (r.(Detail)) v (r.(HighRisk))
    (r.(TraceID)).
Definition set_HighRisk (v : bool) (r : t) : t :=
  mk (r.(TenantID)) (r.(UserID)) (r.(Action)) (r.(Target)) (r.(Detail)) (r.(CreatedAt)) v
    (r.(TraceID)).
Definition set_TraceID (v : string) (r : t) : t :=
  mk (r.(TenantID)) (r.(UserID)) (r.(Action)) (r.(Target)) (r.(Detail)) (r.(CreatedAt))
    (r.(HighRisk)) v.

(** Go's zero value. *)
Definition zero : t := mk "" "" "" "" "" zero_time false "".

#[export] Instance t_eq_dec : EqDecision t.
Proof. solve_decision. Defined.
End AuditEvent.

(** [proto.TaskResult]: what an agent reports for a task. *)
Module TaskResult.
Record t := mk {
  TaskID : string;
  AgentID : string;
  ExitCode : Z;
  Stdout : string;
  Stderr : string;
  DurationMs : Z;
  FinishedAt : time;
  ClaimEpoch : Z;
}.

Definition set_TaskID (v : string) (r : t) : t :=
  mk v (r.(AgentID)) (r.(ExitCode)) (r.(Stdout)) (r.(Stderr)) (r.(DurationMs)) (r.(FinishedAt))
    (r.(ClaimEpoch)).
Definition set_AgentID (v : string) (r : t) : t :=
  mk (r.(TaskID)) v (r.(ExitCode)) (r.(Stdout)) (r.(Stderr)) (r.(DurationMs)) (r.(FinishedAt))
    (r.(ClaimEpoch)).
Definition set_ExitCode (v : Z) (r : t) : t :=
  mk (r.(TaskID)) (r.(AgentID)) v (r.(Stdout)) (r.(Stderr)) (r.(DurationMs)) (r.(FinishedAt))
    (r.(ClaimEpoch)).
Definition set_Stdout (v : string) (r : t) : t :=
  mk (r.(TaskID)) (r.(AgentID)) (r.(ExitCode)) v (r.(Stderr)) (r.(DurationMs)) (r.(FinishedAt))
    (r.(ClaimEpoch)).
Definition set_Stderr (v : string) (r : t) : t :=
  mk (r.(TaskID)) (r.(AgentID)) (r.(ExitCode)) (r.(Stdout)) v (r.(DurationMs)) (r.(FinishedAt))
    (r.(ClaimEpoch)).
Definition set_DurationMs (v : Z) (r : t) : t :=
  mk (r.(TaskID)) (r.(AgentID)) (r.(ExitCode)) (r.(Stdout)) (r.(Stderr)) v (r.(FinishedAt))
    (r.(ClaimEpoch)).
Definition set_FinishedAt (v : time) (r : t) : t :=
  mk (r.(TaskID)) (r.(AgentID)) (r.(ExitCode)) (r.(Stdout)) (r.(Stderr)) (r.(DurationMs)) v
    (r.(ClaimEpoch)).
Definition set_ClaimEpoch (v : Z) (r : t) : t :=
  mk (r.(TaskID)) (r.(AgentID)) (r.(ExitCode)) (r.(Stdout)) (r.(Stderr)) (r.(DurationMs))
    (r.(FinishedAt)) v.

(** Go's zero value. *)
Definition zero : t := mk "" "" 0%Z "" "" 0%Z zero_time 0%Z.

#[export] Instance t_eq_dec : EqDecision t.
Proof. solve_decision. Defined.
End TaskResult.

(** [proto.Alert]. *)
Module Alert.
Record t := mk {
  AlertID : string;
  TenantID : string;
  DeviceID : string;
  AgentID : string;
  Severity : string;
  Message : string;
  Metric : string;
  CreatedAt : time;
  Status : string;
  AcknowledgedBy : string;
  SilencedUntil : time;
  Comment : string;
  UpdatedAt : time;
}.

Definition set_AlertID (v : string) (r : t) : t :=
  mk v (r.(TenantID)) (r.(DeviceID)) (r.(AgentID)) (r.(Severity)) (r.(Message)) (r.(Metric))
    (r.(CreatedAt)) (r.(Status)) (r.(AcknowledgedBy)) (r.(SilencedUntil)) (r.(Comment))
    (r.(UpdatedAt)).
Definition set_TenantID (v : string) (r : t) : t :=
  mk (r.(AlertID)) v (r.(DeviceID)) (r.(AgentID)) (r.(Severity)) (r.(Message)) (r.(Metric))
    (r.(CreatedAt)) (r.(Status)) (r.(AcknowledgedBy)) (r.(SilencedUntil)) (r.(Comment))
    (r.(UpdatedAt)).
Definition set_DeviceID (v : string) (r : t) : t :=
  mk (r.(AlertID)) (r.(TenantID)) v (r.(AgentID)) (r.(Severity)) (r.(Message)) (r.(Metric))
    (r.(CreatedAt)) (r.(Status)) (r.(AcknowledgedBy)) (r.(SilencedUntil)) (r.(Comment))
    (r.(UpdatedAt)).
Definition set_AgentID (v : string) (r : t) : t :=
  mk (r.(AlertID)) (r.(TenantID)) (r.(DeviceID)) v (r.(Severity)) (r.(Message)) (r.(Metric))
    (r.(CreatedAt)) (r.(Status)) (r.(AcknowledgedBy)) (r.(SilencedUntil)) (r.(Comment))
    (r.(UpdatedAt)).
Definition set_Severity (v : string) (r : t) : t :=
  mk (r.(AlertID)) (r.(TenantID)) (r.(DeviceID)) (r.(AgentID)) v (r.(Message)) (r.(Metric))
    (r.(CreatedAt)) (r.(Status)) (r.(AcknowledgedBy)) (r.(SilencedUntil)) (r.(Comment))
    (r.(UpdatedAt)).
Definition set_Message (v : string) (r : t) : t :=
  mk (r.(AlertID)) (r.(TenantID)) (r.(DeviceID)) (r.(AgentID)) (r.(Severity)) v (r.(Metric))
    (r.(CreatedAt)) (r.(Status)) (r.(AcknowledgedBy)) (r.(SilencedUntil)) (r.(Comment))
    (r.(UpdatedAt)).
Definition set_Metric (v : string) (r : t) : t :=
  mk (r.(AlertID)) (r.(TenantID)) (r.(DeviceID)) (r.(AgentID)) (r.(Severity)) (r.(Message)) v
    (r.(CreatedAt)) (r.(Status)) (r.(AcknowledgedBy)) (r.(SilencedUntil)) (r.(Comment))
    (r.(UpdatedAt)).
Definition set_CreatedAt (v : time) (r : t) : t :=
  mk (r.(AlertID)) (r.(TenantID)) (r.(DeviceID)) (r.(AgentID)) (r.(Severity)) (r.(Message))
    (r.(Metric)) v (r.(Status)) (r.(AcknowledgedBy)) (r.(SilencedUntil)) (r.(Comment))
    (r.(UpdatedAt)).
Definition set_Status (v : string) (r : t) : t :=
  mk (r.(AlertID)) (r.(TenantID)) (r.(DeviceID)) (r.(AgentID)) (r.(Severity)) (r.(Message))
    (r.(Metric)) (r.(CreatedAt)) v (r.(AcknowledgedBy)) (r.(SilencedUntil)) (r.(Comment))
    (r.(UpdatedAt)).
Definition set_AcknowledgedBy (v : string) (r : t) : t :=
  mk (r.(AlertID)) (r.(TenantID)) (r.(DeviceID)) (r.(AgentID)) (r.(Severity)) (r.(Message))
    (r.(Metric)) (r.(CreatedAt)) (r.(Status)) v (r.(SilencedUntil)) (r.(Comment))
    (r.(UpdatedAt)).
Definition set_SilencedUntil (v : time) (r : t) : t :=
  mk (r.(AlertID)) (r.(TenantID)) (r.(DeviceID)) (r.(AgentID)) (r.(Severity)) (r.(Message))
    (r.(Metric)) (r.(CreatedAt)) (r.(Status)) (r.(AcknowledgedBy)) v (r.(Comment))
    (r.(UpdatedAt)).
Definition set_Comment (v : string) (r : t) : t :=
  mk (r.(AlertID)) (r.(TenantID)) (r.(DeviceID)) (r.(AgentID)) (r.(Severity)) (r.(Message))
    (r.(Metric)) (r.(CreatedAt)) (r.(Status)) (r.(AcknowledgedBy)) (r.(SilencedUntil)) v
    (r.(UpdatedAt)).
Definition set_UpdatedAt (v : time) (r : t) : t :=
  mk (r.(AlertID)) (r.(TenantID)) (r.(DeviceID)) (r.(AgentID)) (r.(Severity)) (r.(Message))
    (r.(Metric)) (r.(CreatedAt)) (r.(Status)) (r.(AcknowledgedBy)) (r.(SilencedUntil))
    (r.(Comment)) v.

(** Go's zero value. *)
Definition zero : t := mk "" "" "" "" "" "" "" zero_time "" "" zero_time "" zero_time.

#[export] Instance t_eq_dec : EqDecision t.
Proof. solve_decision. Defined.
End Alert.

(** Status constants of [Alert]. *)
Definition AlertStatusFiring : string := "firing".
Definition AlertStatusAcknowledged : string := "acknowledged".
Definition AlertStatusSilenced : string := "silenced".
