(* ===== verification/Dag.v ===== *)
(** * Job graphs ([internal/dag/dag.go])

    Dependency readiness, topological order (Kahn's algorithm) and validation
    of a set of tasks.  The functions that read a task through an index take
    the index as a function from task id to task: the pure callers pass the map
    [indexByID] builds, the memory store passes a view through its pointers.
    [iter] is the order in which Go ranges over a map, any enumeration of its
    entries. *)

From S2P Require Import Prelude Proto.
Open Scope go_scope.

Abbreviation index := (string -> option Task.t).

(** ** Operations *)

Definition indexByID (tasks : list Task.t) : gmap string Task.t :=
  foldl (fun m t => <[Task.TaskID t := t]> m) ∅ tasks.

Fixpoint AllDepsDone_loop (deps : list string) (byID : index) : bool :=
  match deps with
  | [] => true
  | dep :: deps =>
      match byID dep with
      | None => false
      | Some d => if Task.Status d != "done" then false else AllDepsDone_loop deps byID
      end
  end.
Definition AllDepsDone (t : Task.t) (byID : index) : bool := AllDepsDone_loop (Task.DependsOn t) byID.

Definition isTerminalStatus (status : string) : bool :=
  (status == "done") || (status == "failed") || (status == "cancelled") ||
  (status == "rejected") || (status == "dead_letter").

Fixpoint AllDepsTerminal_loop (deps : list string) (byID : index) : bool :=
  match deps with
  | [] => true
  | dep :: deps =>
      match byID dep with
      | None => false
      | Some d => if negb (isTerminalStatus (Task.Status d)) then false
                  else AllDepsTerminal_loop deps byID
      end
  end.
Definition AllDepsTerminal (t : Task.t) (byID : index) : bool :=
  AllDepsTerminal_loop (Task.DependsOn t) byID.

(** [("", false)] is [None]. *)
Fixpoint AnyDepFailed_loop (deps : list string) (byID : index) : option string :=
  match deps with
  | [] => None
  | dep :: deps =>
      match byID dep with
      | None => AnyDepFailed_loop deps byID
      | Some d =>
          if isTerminalStatus (Task.Status d) && (Task.Status d != "done")
          then Some (Task.TaskID d) else AnyDepFailed_loop deps byID
      end
  end.
Definition AnyDepFailed (t : Task.t) (byID : index) : option string :=
  AnyDepFailed_loop (Task.DependsOn t) byID.

Definition ReadyIDs (tasks : list Task.t) : list string :=
  let byID := indexByID tasks in
  omap (fun t =>
    if length (Task.DependsOn t) == 0 then Some (Task.TaskID t)
    else if AllDepsDone t (fun k => byID !! k) then Some (Task.TaskID t) else None) tasks.

Inductive dag_error :=
  | ErrSelfDep (id : string)
  | ErrMissingDep (id dep : string)
  | ErrCycle (ids : list string).

#[export] Instance dag_error_eq_dec : EqDecision dag_error.
Proof. solve_decision. Defined.

Definition get_indeg (indeg : gmap string Z) (id : string) : Z := default 0%Z (indeg !! id).

(** The in-degree of one task: its different dependencies that are in the graph. *)
Fixpoint count_deps (byID : gmap string Task.t) (id : string) (deps : list string)
    (seen : gset string) (indeg : gmap string Z) : gmap string Z :=
  match deps with
  | [] => indeg
  | dep :: deps =>
      match byID !! dep with
      | None => count_deps byID id deps seen indeg
      | Some _ =>
          if decide (dep ∈ seen) then count_deps byID id deps seen indeg
          else count_deps byID id deps ({[dep]} ∪ seen) (<[id := (get_indeg indeg id + 1)%Z]> indeg)
      end
  end.

Definition indegrees (byID : gmap string Task.t) (tasks : list Task.t) : gmap string Z :=
  let zeros := foldl (fun m t => <[Task.TaskID t := 0%Z]> m) ∅ tasks in
  foldl (fun m t => count_deps byID (Task.TaskID t) (Task.DependsOn t) ∅ m) zeros tasks.

(** The inner loop: [cur] is done, lower the in-degree of what depends on it. *)
Definition relax_one (cur : string) (st : gmap string Z * list string) (t : Task.t) :=
  if bool_decide (cur ∈ Task.DependsOn t) then
    let d := (get_indeg st.1 (Task.TaskID t) - 1)%Z in
    (<[Task.TaskID t := d]> st.1, if d == 0%Z then st.2 ++ [Task.TaskID t] else st.2)
  else st.

Definition relax (cur : string) (tasks : list Task.t) (indeg : gmap string Z) (queue : list string) :=
  foldl (relax_one cur) (indeg, queue) tasks.

(** The outer loop; [None] means that [fuel] ran out. *)
Fixpoint kahn (fuel : nat) (tasks : list Task.t) (indeg : gmap string Z)
    (queue order : list string) : option (list string) :=
  match queue with
  | [] => Some order
  | cur :: queue =>
      match fuel with
      | 0 => None
      | S fuel =>
          let (indeg, queue) := relax cur tasks indeg queue in
          kahn fuel tasks indeg queue (order ++ [cur])
      end
  end.

Section iteration.
Context (iter : gmap string Z -> list (string * Z)).

Definition TopoOrder (tasks : list Task.t) : option (result dag_error (list string)) :=
  let byID := indexByID tasks in
  let indeg := indegrees byID tasks in
  let queue := (List.filter (fun e => e.2 == 0%Z) (iter indeg)).*1 in
  order ← kahn (length tasks) tasks indeg queue [];
  Some (if length order == length tasks then Ok order
        else Err (ErrCycle (List.filter (fun id => negb (bool_decide (id ∈ order)))
                              (Task.TaskID <$> tasks)))).

Fixpoint check_deps (byID : gmap string Task.t) (id : string) (deps : list string)
  : option dag_error :=
  match deps with
  | [] => None
  | dep :: deps =>
      if dep == id then Some (ErrSelfDep id)
      else match byID !! dep with
           | None => Some (ErrMissingDep id dep)
           | Some _ => check_deps byID id deps
           end
  end.

Fixpoint check_tasks (byID : gmap string Task.t) (tasks : list Task.t) : option dag_error :=
  match tasks with
  | [] => None
  | t :: tasks =>
      match check_deps byID (Task.TaskID t) (Task.DependsOn t) with
      | Some e => Some e
      | None => check_tasks byID tasks
      end
  end.

Definition Validate (tasks : list Task.t) : option (result dag_error unit) :=
  match check_tasks (indexByID tasks) tasks with
  | Some e => Some (Err e)
  | None => r ← TopoOrder tasks; Some (match r with Ok _ => Ok tt | Err e => Err e end)
  end.
End iteration.

(** ** The graph and its vocabulary *)

(** The ids of the graph, and "[x] must come before [y]". *)
Definition ids (tasks : list Task.t) : list string := Task.TaskID <$> tasks.
Definition edge (tasks : list Task.t) (x y : string) : Prop :=
  exists t, t ∈ tasks /\ Task.TaskID t = y /\ x ∈ Task.DependsOn t /\ x ∈ ids tasks.
Definition acyclic (tasks : list Task.t) : Prop := forall x, ~ tc (edge tasks) x x.

(** [x] occurs before every occurrence of [y]. *)
Definition comes_before (x y : string) (l : list string) : Prop :=
  forall l1 l2, l = l1 ++ y :: l2 -> x ∈ l1.

(** ** Index and in-degrees *)

Lemma indexByID_acc tasks (m : gmap string Task.t) k :
  foldl (fun (m : gmap string Task.t) t => <[Task.TaskID t := t]> m) m tasks !! k =
    match last (List.filter (fun t => Task.TaskID t == k) tasks) with
    | Some t => Some t
    | None => m !! k
    end.
Proof.
  revert m. induction tasks as [| t tasks IH]; intros m; [done |].
  simpl foldl. rewrite IH. cbn [List.filter]. case_bool_decide as E.
  - rewrite last_cons. subst k. rewrite lookup_insert_eq. by destruct (last _).
  - by rewrite lookup_insert_ne.
Qed.

Lemma indexByID_None tasks k : indexByID tasks !! k = None <-> k ∉ ids tasks.
Proof.
  unfold indexByID. rewrite indexByID_acc, lookup_empty.
  assert (last (List.filter (fun t => Task.TaskID t == k) tasks) = None <-> k ∉ ids tasks) as <-.
  { rewrite last_None. unfold ids. induction tasks as [| t tasks IH]; simpl.
    - split; [by intros _ H%elem_of_nil | done].
    - rewrite not_elem_of_cons, <- IH. case_bool_decide; split; naive_solver. }
  by destruct (last _).
Qed.

Lemma indexByID_Some tasks k t :
  indexByID tasks !! k = Some t -> t ∈ tasks /\ Task.TaskID t = k.
Proof.
  unfold indexByID. rewrite indexByID_acc, lookup_empty.
  destruct (last _) as [t' |] eqn:E; intros H; simplify_eq.
  apply last_Some in E as [l E].
  assert (t ∈ List.filter (fun t => Task.TaskID t == k) tasks) as Hin.
  { rewrite E. apply elem_of_app. right. left. }
  apply list_elem_of_In, filter_In in Hin as [Hin Hb].
  split; [by apply list_elem_of_In | by apply bool_decide_eq_true in Hb].
Qed.

(** The dependencies of [t] that are in the graph and not in [done]. *)
Definition waiting (tasks : list Task.t) (order : list string) (t : Task.t) : gset string :=
  (list_to_set (Task.DependsOn t) ∩ list_to_set (ids tasks)) ∖ list_to_set order.

(** How many (task, dependency) pairs still hold the id [k] back. *)
Definition pending (tasks : list Task.t) (order : list string) (k : string) (ts : list Task.t) : Z :=
  foldr (fun t n => if Task.TaskID t == k then Z.of_nat (size (waiting tasks order t)) + n else n)%Z
    0%Z ts.

Lemma pending_nonneg tasks order k ts : (0 <= pending tasks order k ts)%Z.
Proof. induction ts; simpl; [lia |]. case_bool_decide; lia. Qed.

Lemma pending_zero tasks order k ts :
  pending tasks order k ts = 0%Z <->
  forall t, t ∈ ts -> Task.TaskID t = k -> waiting tasks order t = ∅.
Proof.
  induction ts as [| t ts IH]; simpl.
  { split; [by intros _ t H%elem_of_nil | done]. }
  pose proof (pending_nonneg tasks order k ts) as Hnn.
  setoid_rewrite elem_of_cons. case_bool_decide as E.
  - split.
    + intros H t' [-> | Hin] Hk.
      * apply leibniz_equiv, size_empty_inv. lia.
      * apply IH; [lia | done | done].
    + intros H. rewrite (H t) by auto. rewrite size_empty.
      rewrite (proj2 IH); [done |]. eauto.
  - rewrite IH. split; intros H t'; [intros [-> |]; [done |] |]; eauto.
Qed.

Lemma get_indeg_insert m k k' v :
  get_indeg (<[k := v]> m) k' = if decide (k = k') then v else get_indeg m k'.
Proof.
  unfold get_indeg. case_decide as E; [subst; by rewrite lookup_insert_eq | by rewrite lookup_insert_ne].
Qed.

Lemma cons_seen (d : string) (D I X : gset string) :
  (d ∈ I -> d ∈ X) -> (({[d]} ∪ D) ∩ I) ∖ X = (D ∩ I) ∖ X.
Proof.
  intros H. apply set_eq. intros x.
  rewrite !elem_of_difference, !elem_of_intersection, elem_of_union, elem_of_singleton.
  split; [intros [[[-> | ?] ?] ?]; tauto | tauto].
Qed.

Lemma cons_unseen (d : string) (D I X : gset string) :
  d ∈ I -> d ∉ X -> size ((({[d]} ∪ D) ∩ I) ∖ X) = S (size ((D ∩ I) ∖ ({[d]} ∪ X))).
Proof.
  intros HI HS.
  assert ((({[d]} ∪ D) ∩ I) ∖ X = {[d]} ∪ ((D ∩ I) ∖ ({[d]} ∪ X))) as ->.
  { apply set_eq. intros x.
    rewrite !elem_of_difference, !elem_of_union, !elem_of_difference, !elem_of_intersection,
      !elem_of_union, !elem_of_singleton.
    destruct (decide (x = d)) as [-> |]; tauto. }
  rewrite size_union by (intros x; rewrite elem_of_singleton; intros ->;
    rewrite elem_of_difference, elem_of_union, elem_of_singleton; tauto).
  by rewrite size_singleton.
Qed.

Lemma count_deps_spec tasks id deps seen m k :
  get_indeg (count_deps (indexByID tasks) id deps seen m) k =
    (get_indeg m k +
      if decide (id = k)
      then Z.of_nat (size ((list_to_set deps ∩ list_to_set (ids tasks)) ∖ seen : gset string))
      else 0)%Z.
Proof.
  revert seen m. induction deps as [| d deps IH]; intros seen m; simpl.
  { replace ((∅ ∩ list_to_set (ids tasks)) ∖ seen : gset string) with (∅ : gset string) by set_solver.
    rewrite size_empty. case_decide; lia. }
  destruct (indexByID tasks !! d) as [t |] eqn:E.
  - assert (d ∈ ids tasks) as Hd.
    { destruct (decide (d ∈ ids tasks)) as [| Hn]; [done |].
      apply indexByID_None in Hn. congruence. }
    destruct (decide (d ∈ seen)) as [Hs | Hs].
    + rewrite IH, cons_seen by done. done.
    + rewrite IH, get_indeg_insert. destruct (decide (id = k)) as [<- |]; [| lia].
      rewrite cons_unseen by (done || by apply elem_of_list_to_set). lia.
  - apply indexByID_None in E. rewrite IH, cons_seen; [done |].
    intros H%elem_of_list_to_set. done.
Qed.

Lemma indegrees_spec tasks k :
  k ∈ ids tasks -> get_indeg (indegrees (indexByID tasks) tasks) k = pending tasks [] k tasks.
Proof.
  intros Hk. unfold indegrees.
  assert (Hz : forall ts (m : gmap string Z), get_indeg m k = 0%Z ->
    get_indeg (foldl (fun m t => <[Task.TaskID t := 0%Z]> m) m ts) k = 0%Z).
  { induction ts as [| t ts IH]; intros m Hm; [done |]. simpl. apply IH.
    rewrite get_indeg_insert. by case_decide. }
  specialize (Hz tasks ∅ ltac:(done)). revert Hz.
  generalize (foldl (fun m t => <[Task.TaskID t := 0%Z]> m) (∅ : gmap string Z) tasks).
  assert (E : forall ts m, get_indeg (foldl (fun m t =>
      count_deps (indexByID tasks) (Task.TaskID t) (Task.DependsOn t) ∅ m) m ts) k
    = (get_indeg m k + pending tasks [] k ts)%Z).
  { induction ts as [| t ts IH]; intros m; simpl; [lia |].
    rewrite IH, count_deps_spec. unfold waiting. simpl list_to_set.
    case_bool_decide; case_decide; try done; lia. }
  intros m Hm. rewrite E, Hm. lia.
Qed.

Lemma indegrees_dom tasks : dom (indegrees (indexByID tasks) tasks) = list_to_set (ids tasks).
Proof.
  unfold indegrees.
  assert (Hc : forall id deps seen (m : gmap string Z), id ∈ dom m ->
    dom (count_deps (indexByID tasks) id deps seen m) = dom m).
  { intros id. induction deps as [| d deps IH]; intros seen m Hm; simpl; [done |].
    destruct (indexByID tasks !! d); [| by apply IH].
    case_decide; [by apply IH |]. rewrite IH; [set_solver | set_solver]. }
  assert (Hz : forall ts (m : gmap string Z),
    dom (foldl (fun m t => <[Task.TaskID t := 0%Z]> m) m ts) = dom m ∪ list_to_set (ids ts)).
  { induction ts as [| t ts IH]; intros m; simpl; [set_solver |].
    rewrite IH, dom_insert_L. set_solver. }
  specialize (Hz tasks ∅). rewrite dom_empty_L, union_empty_l_L in Hz. revert Hz.
  generalize (foldl (fun m t => <[Task.TaskID t := 0%Z]> m) (∅ : gmap string Z) tasks).
  assert (E : forall ts (m : gmap string Z), (list_to_set (ids ts) : gset string) ⊆ dom m ->
    dom (foldl (fun m t => count_deps (indexByID tasks) (Task.TaskID t) (Task.DependsOn t) ∅ m) m ts)
    = dom m).
  { induction ts as [| t ts IH]; intros m Hm; simpl; [done |].
    simpl in Hm. rewrite IH; rewrite Hc; set_solver. }
  intros m Hm. rewrite E; [done |]. by rewrite Hm.
Qed.

(** ** One turn of the outer loop *)

(** How many tasks of id [k] depend on [cur]. *)
Definition dec (cur k : string) (ts : list Task.t) : Z :=
  foldr (fun t n => if (Task.TaskID t == k) && bool_decide (cur ∈ Task.DependsOn t)
                    then n + 1 else n)%Z 0%Z ts.

Lemma dec_nonneg cur k ts : (0 <= dec cur k ts)%Z.
Proof. induction ts; simpl; [lia |]. destruct (_ && _)%go; lia. Qed.

Lemma dec_app cur k l r : dec cur k (l ++ r) = (dec cur k l + dec cur k r)%Z.
Proof. induction l; simpl; [lia |]. destruct (_ && _)%go; lia. Qed.

Lemma relax_spec cur tasks indeg queue :
  let (indeg', queue') := relax cur tasks indeg queue in
  (forall k, get_indeg indeg' k = (get_indeg indeg k - dec cur k tasks)%Z) /\
  exists new, queue' = queue ++ new /\ NoDup new /\
    forall k, k ∈ new <-> (0 < get_indeg indeg k <= dec cur k tasks)%Z.
Proof.
  induction tasks as [| t tasks IH] using rev_ind.
  { simpl. split; [intros; lia |]. exists []. rewrite app_nil_r.
    split_and!; [done | constructor |]. intros k. split; [by intros ?%elem_of_nil | simpl; lia]. }
  unfold relax in *. rewrite foldl_app. simpl. unfold relax_one at 1.
  destruct (foldl (relax_one cur) (indeg, queue) tasks) as [indeg' queue'].
  destruct IH as (Hdeg & new & -> & Hnd & Hnew). cbn [fst snd].
  case_bool_decide as Hc.
  2: { setoid_rewrite dec_app. split.
       - intros k. rewrite Hdeg. simpl. rewrite (bool_decide_false (cur ∈ _)), andb_false_r by done. lia.
       - exists new. split_and!; [done..|]. intros k. rewrite Hnew. simpl.
         rewrite (bool_decide_false (cur ∈ _)), andb_false_r by done. by rewrite Z.add_0_r. }
  rewrite Hdeg. setoid_rewrite dec_app.
  assert (Hone : forall k, dec cur k [t] = if decide (Task.TaskID t = k) then 1%Z else 0%Z).
  { intros k. simpl. rewrite (bool_decide_true (cur ∈ _)), andb_true_r by done.
    case_bool_decide; case_decide; done. }
  split.
  { intros k. rewrite get_indeg_insert, Hdeg, Hone. case_decide; [subst k |]; lia. }
  setoid_rewrite Hone. case_bool_decide as H0.
  - exists (new ++ [Task.TaskID t]). split; [by rewrite app_assoc |]. split.
    + apply NoDup_app. split_and!; [done | | apply NoDup_singleton].
      intros k Hk Hk1%list_elem_of_singleton. apply Hnew in Hk. subst k. lia.
    + intros k. rewrite elem_of_app, list_elem_of_singleton, Hnew.
      pose proof (dec_nonneg cur k tasks). case_decide as E; [subst k |].
      * split; [intros [? | _]; lia | intros; by right].
      * split; [intros [? | ->]; [lia | done] | intros; left; lia].
  - exists new. split_and!; [done..|]. intros k. rewrite Hnew.
    case_decide as E; [subst k; lia | by rewrite Z.add_0_r].
Qed.

Lemma size_difference_snoc (D : gset string) (order : list string) cur :
  cur ∉ order ->
  Z.of_nat (size (D ∖ list_to_set (order ++ [cur]))) =
    (Z.of_nat (size (D ∖ list_to_set order)) - if decide (cur ∈ D) then 1 else 0)%Z.
Proof.
  intros Hc. rewrite list_to_set_app_L. simpl list_to_set. rewrite union_empty_r_L.
  case_decide as Hd.
  - assert (D ∖ list_to_set order = {[cur]} ∪ D ∖ (list_to_set order ∪ {[cur]})) as E.
    { apply set_eq. intros x.
      rewrite elem_of_union, !elem_of_difference, elem_of_union, elem_of_singleton, elem_of_list_to_set.
      destruct (decide (x = cur)) as [-> |]; tauto. }
    assert ({[cur]} ## D ∖ (list_to_set order ∪ {[cur]})) as Hdisj.
    { intros x. rewrite elem_of_singleton, elem_of_difference, elem_of_union, elem_of_singleton. tauto. }
    rewrite E, (size_union _ _ Hdisj), size_singleton. lia.
  - rewrite Z.sub_0_r. do 2 f_equal. apply set_eq. intros x.
    rewrite !elem_of_difference, elem_of_union, elem_of_singleton.
    split; [tauto |]. intros [? ?]. split; [done |]. intros [? | ->]; done.
Qed.

Lemma pending_snoc tasks order cur k ts :
  cur ∈ ids tasks -> cur ∉ order ->
  pending tasks (order ++ [cur]) k ts = (pending tasks order k ts - dec cur k ts)%Z.
Proof.
  intros Hi Ho. induction ts as [| t ts IH]; simpl; [done |].
  case_bool_decide as E; simpl; [| lia].
  unfold waiting. rewrite size_difference_snoc by done. rewrite IH.
  case_bool_decide as Hd; case_decide as Hd'; try lia.
  - destruct Hd'. apply elem_of_intersection. by rewrite !elem_of_list_to_set.
  - destruct Hd. apply elem_of_intersection in Hd' as [Hd' _]. by apply elem_of_list_to_set in Hd'.
Qed.

(** A node that nothing in the graph holds back may be put out next. *)
Lemma comes_before_snoc tasks order cur x y :
  pending tasks order cur tasks = 0%Z -> edge tasks x y -> comes_before x y order ->
  comes_before x y (order ++ [cur]).
Proof.
  intros Hp Hxy Hsound l1 l2 E. destruct (decide (l2 = [])) as [-> | Hl2].
  - apply app_inj_tail in E as [-> ->]. destruct Hxy as (t & Ht & Hty & Hx & Hxi).
    rewrite pending_zero in Hp. specialize (Hp t Ht Hty).
    destruct (decide (x ∈ l1)) as [| Hn]; [done |].
    assert (x ∈ waiting tasks l1 t) as Hw; [| rewrite Hp in Hw; by apply elem_of_empty in Hw].
    unfold waiting. rewrite elem_of_difference, elem_of_intersection, !elem_of_list_to_set. done.
  - destruct (exists_last Hl2) as (l2' & z & ->).
    rewrite app_comm_cons, app_assoc in E. apply app_inj_tail in E as [E _].
    by apply (Hsound l1 l2').
Qed.

(** The invariant of the outer loop. *)
Record kahn_inv (tasks : list Task.t) (indeg : gmap string Z) (queue order : list string) : Prop := {
  kahn_nodup : NoDup (order ++ queue);
  kahn_ids : forall k, k ∈ order ++ queue -> k ∈ ids tasks;
  kahn_deg : forall k, k ∈ ids tasks -> get_indeg indeg k = pending tasks order k tasks;
  kahn_zero : forall k, k ∈ ids tasks -> (k ∈ order ++ queue <-> get_indeg indeg k = 0%Z);
  kahn_sound : forall x y, edge tasks x y -> comes_before x y order;
}.

Lemma kahn_inv_step tasks indeg cur queue order :
  kahn_inv tasks indeg (cur :: queue) order ->
  let (indeg', queue') := relax cur tasks indeg queue in
  kahn_inv tasks indeg' queue' (order ++ [cur]).
Proof.
  intros [Hnd Hids Hdeg Hzero Hsound].
  pose proof (relax_spec cur tasks indeg queue) as H.
  destruct (relax cur tasks indeg queue) as [indeg' queue'].
  destruct H as (Hdeg' & new & -> & Hnd' & Hnew).
  assert (Hcur : cur ∈ ids tasks) by (apply Hids, elem_of_app; right; left).
  assert (Hno : cur ∉ order).
  { intros Hc. apply NoDup_app in Hnd as (_ & Hd & _). apply (Hd cur Hc). left. }
  assert (Hdec : forall k, k ∈ ids tasks ->
    get_indeg indeg' k = pending tasks (order ++ [cur]) k tasks).
  { intros k Hk. by rewrite Hdeg', Hdeg, pending_snoc. }
  assert (Hge : forall k, k ∈ ids tasks -> (0 <= get_indeg indeg k - dec cur k tasks)%Z).
  { intros k Hk. rewrite <- Hdeg', Hdec by done. apply pending_nonneg. }
  assert (Hdecids : forall k, (0 < dec cur k tasks)%Z -> k ∈ ids tasks).
  { intros k. unfold ids. clear. induction tasks as [| t ts IH]; simpl; [lia |].
    case_bool_decide as E; simpl; [intros _; rewrite E; left | intros ?; right; auto]. }
  assert (Hnew' : forall k, k ∈ new -> k ∈ ids tasks /\ get_indeg indeg k <> 0%Z /\ get_indeg indeg' k = 0%Z).
  { intros k Hk. apply Hnew in Hk. assert (k ∈ ids tasks) as Hi by (apply Hdecids; lia).
    specialize (Hge k Hi). rewrite Hdeg'. split; [done | lia]. }
  assert (Hperm : (order ++ [cur]) ++ queue ++ new = (order ++ cur :: queue) ++ new).
  { rewrite <- !app_assoc. done. }
  split.
  - rewrite Hperm. apply NoDup_app. split_and!; [done | | done].
    intros k Hk Hk'. apply Hnew' in Hk' as (Hi & Hnz & _). apply Hnz, Hzero; done.
  - intros k. rewrite Hperm, elem_of_app. intros [Hk | Hk]; [by apply Hids | by apply Hnew'].
  - exact Hdec.
  - intros k Hk. rewrite Hperm, elem_of_app. specialize (Hge k Hk).
    pose proof (dec_nonneg cur k tasks). split.
    + intros [Hk' | Hk']; [| by apply Hnew']. apply Hzero in Hk'; [| done]. rewrite Hdeg'. lia.
    + rewrite Hdeg'. intros Hz. destruct (decide (get_indeg indeg k = 0%Z)) as [Hz' | Hz'].
      * left. by apply Hzero.
      * right. apply Hnew. lia.
  - intros x y Hxy. apply (comes_before_snoc tasks); [| done | by apply Hsound].
    rewrite <- Hdeg by done. apply Hzero; [done |]. apply elem_of_app. right. left.
Qed.

(** ** Termination and outcome *)

Lemma kahn_run tasks fuel indeg queue order :
  kahn_inv tasks indeg queue order -> length tasks <= length order + fuel ->
  exists order' indeg', kahn fuel tasks indeg queue order = Some order' /\
    kahn_inv tasks indeg' [] order'.
Proof.
  revert indeg queue order. induction fuel as [| fuel IH]; intros indeg queue order Hinv Hf.
  - destruct queue as [| cur queue]; simpl; [by eauto |].
    assert (length (order ++ cur :: queue) <= length (ids tasks)) as Hlen.
    { apply submseteq_length, NoDup_submseteq; [apply Hinv | apply Hinv]. }
    unfold ids in Hlen. rewrite length_app, length_fmap in Hlen. simpl in Hlen. lia.
  - destruct queue as [| cur queue]; simpl; [by eauto |].
    pose proof (kahn_inv_step _ _ _ _ _ Hinv) as Hstep.
    destruct (relax cur tasks indeg queue) as [indeg' queue'].
    apply (IH _ _ _ Hstep). rewrite length_app. simpl. lia.
Qed.

Section topo.
Context (iter : gmap string Z -> list (string * Z)).
Hypothesis iter_perm : forall m, iter m ≡ₚ map_to_list m.

Lemma kahn_inv_init tasks :
  kahn_inv tasks (indegrees (indexByID tasks) tasks)
    (List.filter (fun e => e.2 == 0%Z) (iter (indegrees (indexByID tasks) tasks))).*1 [].
Proof using iter_perm.
  set (m := indegrees (indexByID tasks) tasks).
  assert (Hin : forall k, k ∈ (List.filter (fun e => e.2 == 0%Z) (iter m)).*1 <-> m !! k = Some 0%Z).
  { intros k. rewrite list_elem_of_fmap. split.
    - intros ([k' v] & -> & Hf). apply list_elem_of_In, filter_In in Hf as [Hf Hv].
      apply list_elem_of_In in Hf. rewrite iter_perm, elem_of_map_to_list in Hf.
      apply bool_decide_eq_true in Hv. simpl in *. by subst v.
    - intros Hk. exists (k, 0%Z). split; [done |]. apply list_elem_of_In, filter_In.
      split; [apply list_elem_of_In; by rewrite iter_perm, elem_of_map_to_list |].
      by apply bool_decide_eq_true. }
  assert (Hdom : forall k, k ∈ ids tasks <-> is_Some (m !! k)).
  { intros k. rewrite <- elem_of_dom. unfold m. by rewrite indegrees_dom, elem_of_list_to_set. }
  split.
  - simpl. apply (sublist_NoDup _ (iter m).*1).
    + rewrite iter_perm. apply NoDup_fst_map_to_list.
    + apply fmap_sublist. assert (forall l : list (string * Z),
        List.filter (fun e => e.2 == 0%Z) l `sublist_of` l) as Hs.
      { induction l as [| e l IH]; simpl; [constructor |]. destruct (e.2 == 0%Z); by constructor. }
      apply Hs.
  - simpl. intros k Hk. apply Hdom. apply Hin in Hk. eauto.
  - intros k Hk. unfold m. by apply indegrees_spec.
  - simpl. intros k Hk. rewrite Hin. apply Hdom in Hk as [v Hv]. unfold get_indeg. rewrite Hv.
    simpl. split; [congruence | by intros ->].
  - intros x y Hxy l1 l2 E. by destruct l1.
Qed.

Lemma TopoOrder_run tasks :
  exists order indeg, kahn_inv tasks indeg [] order /\
    TopoOrder iter tasks = Some (if length order == length tasks then Ok order
      else Err (ErrCycle (List.filter (fun id => negb (bool_decide (id ∈ order))) (ids tasks)))).
Proof using iter_perm.
  destruct (kahn_run tasks (length tasks) _ _ _ (kahn_inv_init tasks) ltac:(simpl; lia))
    as (order & indeg & Hk & Hinv).
  exists order, indeg. split; [done |]. unfold TopoOrder. rewrite Hk. done.
Qed.
End topo.

Lemma comes_before_acyclic tasks order :
  (forall k, k ∈ ids tasks -> k ∈ order) ->
  (forall x y, edge tasks x y -> comes_before x y order) -> acyclic tasks.
Proof.
  intros Hall Hcb x Hx.
  (* along a path, the start lies before any occurrence of the end *)
  assert (H : forall x y, tc (edge tasks) x y -> forall l1 l2, order = l1 ++ y :: l2 -> x ∈ l1).
  { clear x Hx. induction 1 as [x y Hxy | x y z Hxy Hyz IH]; intros l1 l2 E; [by eapply Hcb |].
    specialize (IH l1 l2 E). apply list_elem_of_split in IH as (a & b & ->).
    rewrite <- app_assoc in E. simpl in E. specialize (Hcb x y Hxy a _ E).
    apply elem_of_app. by left. }
  assert (Hi : x ∈ order).
  { apply Hall. inversion Hx as [? ? (t & _ & _ & _ & ?) | ? ? ? (t & _ & _ & _ & ?)]; done. }
  (* take the first occurrence of [x] *)
  apply list_elem_of_split_l in Hi as (l1 & l2 & E & Hn). by apply Hn, (H x x Hx l1 l2).
Qed.

(** ** Properties *)

(** [TopoOrder] always returns, and an order it returns lists every task id
    exactly once with each dependency that is in the graph before the tasks that
    depend on it, whatever the order in which Go ranges over its maps. *)
Theorem topo_order_sound iter tasks order :
  (forall m, iter m ≡ₚ map_to_list m) -> NoDup (ids tasks) ->
  TopoOrder iter tasks = Some (Ok order) ->
  order ≡ₚ ids tasks /\ forall x y, edge tasks x y -> comes_before x y order.
Proof.
  intros Hi Hnd H. destruct (TopoOrder_run iter Hi tasks) as (o & d & Hinv & E).
  rewrite E in H. case_bool_decide as Hlen; [| done]. injection H as ->.
  split; [| apply Hinv].
  pose proof (kahn_nodup _ _ _ _ Hinv) as Hno. rewrite app_nil_r in Hno.
  apply submseteq_length_Permutation.
  - apply NoDup_submseteq; [done |]. intros k Hk. apply (kahn_ids _ _ _ _ Hinv).
    by rewrite app_nil_r.
  - unfold ids. rewrite length_fmap. lia.
Qed.

Lemma TopoOrder_outcome iter tasks :
  (forall m, iter m ≡ₚ map_to_list m) -> NoDup (ids tasks) ->
  (acyclic tasks /\ exists order, TopoOrder iter tasks = Some (Ok order)) \/
  (~ acyclic tasks /\ exists ids, TopoOrder iter tasks = Some (Err (ErrCycle ids))).
Proof.
  intros Hi Hnd. destruct (TopoOrder_run iter Hi tasks) as (o & d & Hinv & E).
  pose proof (kahn_nodup _ _ _ _ Hinv) as Hno. rewrite app_nil_r in Hno.
  pose proof (kahn_ids _ _ _ _ Hinv) as Hids. rewrite app_nil_r in Hids.
  pose proof (kahn_zero _ _ _ _ Hinv) as Hzero. rewrite app_nil_r in Hzero.
  rewrite E. case_bool_decide as Hlen; [left | right]; (split; [| by eauto]).
  - apply (comes_before_acyclic tasks o); [| apply Hinv].
    assert (o ≡ₚ ids tasks) as Hp; [| intros k; by rewrite Hp].
    apply submseteq_length_Permutation; [by apply NoDup_submseteq |].
    unfold ids. rewrite length_fmap. lia.
  - intros Hac.
    set (s := (list_to_set (ids tasks) ∖ list_to_set o : gset string)).
    assert (Hs : exists x, x ∈ s).
    { apply set_choose_L. intros He. apply Hlen.
      rewrite <- (length_fmap Task.TaskID tasks). apply Permutation_length, NoDup_Permutation; [done..|].
      intros k. split; [apply Hids |]. intros Hk. destruct (decide (k ∈ o)) as [| Hn]; [done |].
      assert (k ∈ s) as Hk'; [| by rewrite He in Hk'; apply elem_of_empty in Hk'].
      unfold s. rewrite elem_of_difference, !elem_of_list_to_set. done. }
    destruct Hs as [x Hx].
    destruct (predecessor_cycle (edge tasks) s (size s) x []) as [y Hy]; [| done | | | | by apply (Hac y)].
    + intros k. unfold s. rewrite elem_of_difference, !elem_of_list_to_set. intros [Hk Hko].
      assert (pending tasks o k tasks <> 0%Z) as Hp.
      { rewrite <- (kahn_deg _ _ _ _ Hinv) by done. intros Hz. by apply Hko, Hzero. }
      destruct (decide (Exists (fun t => Task.TaskID t = k /\ waiting tasks o t <> ∅) tasks)) as [He | He].
      * apply Exists_exists in He as (t & Ht & Htk & Hw). apply set_choose_L in Hw as [y Hy].
        unfold waiting in Hy.
        rewrite elem_of_difference, elem_of_intersection, !elem_of_list_to_set in Hy.
        exists y. rewrite elem_of_difference, !elem_of_list_to_set.
        split; [tauto |]. exists t. tauto.
      * exfalso. apply Hp, pending_zero. intros t Ht Htk.
        destruct (decide (waiting tasks o t = ∅)) as [| Hw]; [done |].
        destruct He. apply Exists_exists. eauto.
    + intros y Hy%list_elem_of_singleton. subst y. auto.
    + apply NoDup_singleton.
    + simpl. lia.
Qed.

(** With distinct task ids [TopoOrder] returns an order exactly when the
    graph has no cycle, and the cycle error otherwise; there is no third outcome
    (the fuel of the model is never exhausted). *)
Theorem topo_order_complete iter tasks :
  (forall m, iter m ≡ₚ map_to_list m) -> NoDup (ids tasks) ->
  (acyclic tasks /\ exists order, TopoOrder iter tasks = Some (Ok order)) \/
  (~ acyclic tasks /\ exists ids, TopoOrder iter tasks = Some (Err (ErrCycle ids))).
Proof. apply TopoOrder_outcome. Qed.

Definition with_deps (id : string) (deps : list string) : Task.t :=
  Task.set_DependsOn deps (Task.set_TaskID id Task.zero).

(** A diamond, listed with the last task first. *)
Definition diamond : list Task.t :=
  [with_deps "d" ["b"; "c"]; with_deps "b" ["a"]; with_deps "c" ["a"; "a"]; with_deps "a" ["gone"]].

Example diamond_order : TopoOrder map_to_list diamond = Some (Ok ["a"; "b"; "c"; "d"]).
Proof. vm_compute. reflexivity. Qed.

Lemma topo_order_sound_witness :
  NoDup (ids diamond) /\ TopoOrder map_to_list diamond = Some (Ok ["a"; "b"; "c"; "d"]) /\
  ["a"; "b"; "c"; "d"] ≡ₚ ids diamond.
Proof.
  assert (Hn : NoDup (ids diamond)) by (apply (bool_decide_unpack _); vm_compute; exact I).
  assert (Ho : TopoOrder map_to_list diamond = Some (Ok ["a"; "b"; "c"; "d"])) by (vm_compute; reflexivity).
  split; [exact Hn |]. split; [exact Ho |].
  apply (topo_order_sound map_to_list diamond _ (fun m => reflexivity _) Hn Ho).
Defined.

Lemma topo_order_complete_witness :
  NoDup (ids diamond) /\
  ((acyclic diamond /\ exists order, TopoOrder map_to_list diamond = Some (Ok order)) \/
   (~ acyclic diamond /\ exists ids, TopoOrder map_to_list diamond = Some (Err (ErrCycle ids)))).
Proof.
  assert (Hn : NoDup (ids diamond)) by (apply (bool_decide_unpack _); vm_compute; exact I).
  split; [exact Hn |].
  apply (topo_order_complete map_to_list diamond (fun m => reflexivity _) Hn).
Defined.

(** ** Validation *)

Lemma check_deps_None m id deps :
  check_deps m id deps = None <-> forall d, d ∈ deps -> d <> id /\ is_Some (m !! d).
Proof.
  induction deps as [| d deps IH]; simpl.
  { split; [by intros _ d ?%elem_of_nil | done]. }
  setoid_rewrite elem_of_cons. case_bool_decide as E.
  { split; [done |]. intros H. destruct (H d (or_introl eq_refl)) as [Hn _]. done. }
  destruct (m !! d) as [t |] eqn:Ed.
  - rewrite IH. split; [| by eauto]. intros H d' [-> | Hd']; [| by apply H]. split; [done |]. by exists t.
  - split; [done |]. intros H. destruct (H d (or_introl eq_refl)) as [_ [? ?]]. congruence.
Qed.

Lemma check_tasks_None m tasks :
  check_tasks m tasks = None <->
  forall t d, t ∈ tasks -> d ∈ Task.DependsOn t -> d <> Task.TaskID t /\ is_Some (m !! d).
Proof.
  induction tasks as [| t tasks IH]; simpl.
  { split; [by intros _ t d ?%elem_of_nil | done]. }
  setoid_rewrite elem_of_cons.
  destruct (check_deps m (Task.TaskID t) (Task.DependsOn t)) as [e |] eqn:E.
  - split; [done |]. intros H. rewrite (proj2 (check_deps_None _ _ _)) in E; [done |].
    intros d Hd. by apply H; [left |].
  - rewrite IH. rewrite check_deps_None in E.
    split; [intros H t' d [-> | Ht] Hd | intros H t' d Ht Hd]; auto.
Qed.

(** [Validate] accepts a task graph with distinct ids exactly when every
    dependency names another task of the graph and there is no dependency cycle. *)
Theorem validate_iff iter tasks :
  (forall m, iter m ≡ₚ map_to_list m) -> NoDup (ids tasks) ->
  Validate iter tasks = Some (Ok tt) <->
  (forall t d, t ∈ tasks -> d ∈ Task.DependsOn t -> d <> Task.TaskID t /\ d ∈ ids tasks) /\
  acyclic tasks.
Proof.
  intros Hi Hnd. unfold Validate.
  assert (Hsome : forall d, is_Some (indexByID tasks !! d) <-> d ∈ ids tasks).
  { intros d. rewrite <- not_eq_None_Some, indexByID_None. destruct (decide (d ∈ ids tasks)); tauto. }
  pose proof (check_tasks_None (indexByID tasks) tasks) as Hc. setoid_rewrite Hsome in Hc.
  destruct (check_tasks (indexByID tasks) tasks) as [e |].
  { split; [done |]. intros [H _]. apply Hc in H. done. }
  assert (Hok := proj1 Hc eq_refl).
  destruct (TopoOrder_outcome iter tasks Hi Hnd) as [[Hac [o' Ho']] | [Hac [o' Ho']]]; rewrite Ho'; simpl.
  - split; [by intros _ | done].
  - split; [done |]. by intros [_ ?].
Qed.

Lemma validate_iff_witness :
  NoDup (ids (tail diamond)) /\
  (Validate map_to_list (tail diamond) = Some (Ok tt) <->
   (forall t d, t ∈ tail diamond -> d ∈ Task.DependsOn t -> d <> Task.TaskID t /\ d ∈ ids (tail diamond)) /\
   acyclic (tail diamond)).
Proof.
  assert (Hn : NoDup (ids (tail diamond))) by (apply (bool_decide_unpack _); vm_compute; exact I).
  split; [exact Hn |].
  apply (validate_iff map_to_list (tail diamond) (fun m => reflexivity _) Hn).
Defined.

(** The cycle error names every task that is not in the order: a task that
    merely waits for a cycle is reported as a member of it. *)
Definition cycle_and_tail : list Task.t :=
  [with_deps "a" ["b"]; with_deps "b" ["a"]; with_deps "c" ["b"]].

Theorem cycle_error_overreports :
  TopoOrder map_to_list cycle_and_tail = Some (Err (ErrCycle ["a"; "b"; "c"])) /\
  ~ tc (edge cycle_and_tail) "c" "c".
Proof.
  split; [vm_compute; reflexivity |].
  assert (H : forall x y, tc (edge cycle_and_tail) x y -> x <> "c").
  { assert (He : forall x y, edge cycle_and_tail x y -> x <> "c").
    { intros x y (t & Ht & _ & Hx & _). unfold cycle_and_tail in Ht.
      rewrite !elem_of_cons in Ht. destruct Ht as [-> | [-> | [-> | Ht]]];
        [| | | by apply elem_of_nil in Ht]; apply list_elem_of_singleton in Hx; by subst. }
    by induction 1; eauto. }
  intros Hc. by apply (H _ _ Hc).
Qed.

(** ** Readiness *)

Lemma AllDepsDone_iff t (byID : index) :
  AllDepsDone t byID = true <->
  forall dep, dep ∈ Task.DependsOn t -> exists d, byID dep = Some d /\ Task.Status d = "done".
Proof.
  unfold AllDepsDone. induction (Task.DependsOn t) as [| dep deps IH]; simpl.
  { split; [by intros _ ? ?%elem_of_nil | done]. }
  setoid_rewrite elem_of_cons. destruct (byID dep) as [d |] eqn:E.
  - case_bool_decide as Hd; simpl.
    + rewrite IH. split; [| by eauto]. intros H dep' [-> | ?]; [by eauto | by apply H].
    + split; [done |]. intros H. destruct (H dep (or_introl eq_refl)) as (d' & ? & ?). congruence.
  - split; [done |]. intros H. destruct (H dep (or_introl eq_refl)) as (d' & ? & ?). congruence.
Qed.

Lemma AllDepsTerminal_iff t (byID : index) :
  AllDepsTerminal t byID = true <->
  forall dep, dep ∈ Task.DependsOn t ->
    exists d, byID dep = Some d /\ isTerminalStatus (Task.Status d) = true.
Proof.
  unfold AllDepsTerminal. induction (Task.DependsOn t) as [| dep deps IH]; simpl.
  { split; [by intros _ ? ?%elem_of_nil | done]. }
  setoid_rewrite elem_of_cons. destruct (byID dep) as [d |] eqn:E.
  - destruct (isTerminalStatus (Task.Status d)) eqn:Hd; simpl.
    + rewrite IH. split; [| by eauto]. intros H dep' [-> | ?]; [by eauto | by apply H].
    + split; [done |]. intros H. destruct (H dep (or_introl eq_refl)) as (d' & ? & ?). congruence.
  - split; [done |]. intros H. destruct (H dep (or_introl eq_refl)) as (d' & ? & ?). congruence.
Qed.

Lemma AnyDepFailed_None t (byID : index) :
  AnyDepFailed t byID = None <->
  forall dep d, dep ∈ Task.DependsOn t -> byID dep = Some d ->
    isTerminalStatus (Task.Status d) = true -> Task.Status d = "done".
Proof.
  unfold AnyDepFailed. induction (Task.DependsOn t) as [| dep deps IH]; simpl.
  { split; [by intros _ ? ? ?%elem_of_nil | done]. }
  setoid_rewrite elem_of_cons. destruct (byID dep) as [d |] eqn:E.
  - destruct (isTerminalStatus (Task.Status d)) eqn:Hd; simpl; [case_bool_decide as Hs; simpl |].
    + rewrite IH. split; [| by eauto]. intros H dep' d' [-> | ?] ? ?; [congruence | by eauto].
    + split; [done |]. intros H. by destruct Hs; eapply H; [left | exact E |].
    + rewrite IH. split; [| by eauto]. intros H dep' d' [-> | ?] ? ?; [congruence | by eauto].
  - rewrite IH. split; [| by eauto]. intros H dep' d' [-> | ?] ? ?; [congruence | by eauto].
Qed.

Lemma AnyDepFailed_Some t (byID : index) id :
  AnyDepFailed t byID = Some id ->
  exists dep d, dep ∈ Task.DependsOn t /\ byID dep = Some d /\ Task.TaskID d = id /\
    isTerminalStatus (Task.Status d) = true /\ Task.Status d <> "done".
Proof.
  unfold AnyDepFailed. induction (Task.DependsOn t) as [| dep deps IH]; simpl; [done |].
  destruct (byID dep) as [d |] eqn:E.
  - destruct (isTerminalStatus (Task.Status d)) eqn:Hd; simpl; [case_bool_decide as Hs; simpl |].
    + intros H. destruct (IH H) as (dep' & d' & ? & ?). exists dep', d'. split; [by right | done].
    + intros [= <-]. exists dep, d. split; [left | done].
    + intros H. destruct (IH H) as (dep' & d' & ? & ?). exists dep', d'. split; [by right | done].
  - intros H. destruct (IH H) as (dep' & d' & ? & ?). exists dep', d'. split; [by right | done].
Qed.

(** The three readiness tests agree: when all dependencies are terminal,
    none of them failed exactly when all of them are done, so a blocked task is
    either released or failed, never both and never neither. *)
Theorem readiness_partition t (byID : index) :
  AllDepsTerminal t byID = true ->
  (AnyDepFailed t byID = None <-> AllDepsDone t byID = true) /\
  (forall id, AnyDepFailed t byID = Some id ->
     exists dep d, dep ∈ Task.DependsOn t /\ byID dep = Some d /\ Task.TaskID d = id /\
       Task.Status d <> "done").
Proof.
  rewrite AllDepsTerminal_iff, AnyDepFailed_None, AllDepsDone_iff. intros Ht. split.
  - split.
    + intros H dep Hd. destruct (Ht dep Hd) as (d & E & Hterm). eauto.
    + intros H dep d Hd E _. destruct (H dep Hd) as (d' & E' & ?). congruence.
  - intros id H. apply AnyDepFailed_Some in H as (dep & d & ? & ? & ? & _ & ?). eauto 6.
Qed.

Lemma readiness_partition_witness :
  let byID := fun k => indexByID (Task.set_Status "done" <$> diamond) !! k in
  AllDepsTerminal (with_deps "b" ["a"]) byID = true /\
  (AnyDepFailed (with_deps "b" ["a"]) byID = None <-> AllDepsDone (with_deps "b" ["a"]) byID = true).
Proof.
  assert (H : AllDepsTerminal (with_deps "b" ["a"])
    (fun k => indexByID (Task.set_Status "done" <$> diamond) !! k) = true) by (vm_compute; reflexivity).
  split; [exact H |]. apply (readiness_partition (with_deps "b" ["a"]) _ H).
Defined.
