(* ===== verification/GoStrings.v ===== *)
(** * Strings

    The functions of Go's [strings] and [strconv] that the source uses, on
    strings as sequences of bytes.  White space is the ASCII white space (Go
    also knows a few non-ASCII code points). *)

From S2P Require Import Prelude.
From Stdlib Require Import Ascii String.
From stdpp Require Export pretty.
Open Scope go_scope.
Local Open Scope string_scope.

(** [strings.SplitN(s, sep, 2)] for a one-byte separator: the text before and
    after the first one, if there is one. *)
Fixpoint cut (c : ascii) (s : string) : option (string * string) :=
  match s with
  | "" => None
  | String a s' =>
      if a == c then Some ("", s')
      else match cut c s' with
      | Some (x, y) => Some (String a x, y)
      | None => None
      end
  end.

(** [strings.Split(s, sep)] for a one-byte separator. *)
Fixpoint Split (c : ascii) (s : string) : list string :=
  match s with
  | "" => [""]
  | String a s' =>
      if a == c then "" :: Split c s'
      else match Split c s' with
      | w :: ws => String a w :: ws
      | [] => [String a ""]
      end
  end.

(** [strings.Contains(s, c)] for a one-byte text. *)
Definition ContainsChar (c : ascii) (s : string) : bool := if cut c s is Some _ then true else false.

(** [strings.HasPrefix(s, p)]. *)
Fixpoint HasPrefix (p s : string) : bool :=
  match p, s with
  | "", _ => true
  | String a p', String b s' => (a == b) && HasPrefix p' s'
  | _, _ => false
  end.

(** [strings.HasSuffix(s, suffix)]. *)
Fixpoint HasSuffix (suffix s : string) : bool :=
  (s == suffix) || match s with String _ s' => HasSuffix suffix s' | "" => false end.

(** [strings.TrimSuffix(s, suffix)] and [strings.TrimPrefix(s, prefix)]. *)
Fixpoint TrimSuffix (suffix s : string) : string :=
  if s == suffix then "" else match s with String c s' => String c (TrimSuffix suffix s') | "" => "" end.
Fixpoint TrimPrefix (prefix s : string) : string :=
  match prefix, s with
  | "", _ => s
  | String a p, String b r => if (a == b) && HasPrefix p r then TrimPrefix p r else s
  | String _ _, "" => ""
  end.

(** [strings.Contains(s, sub)]. *)
Fixpoint Contains (sub s : string) : bool :=
  HasPrefix sub s || match s with String _ s' => Contains sub s' | "" => false end.

(** [strings.ReplaceAll(s, old, new)] for a nonempty [old]; [skip] characters belong
    to an occurrence that has been replaced. *)
Fixpoint replace_from (skip : nat) (old new s : string) : string :=
  match s with
  | "" => ""
  | String c s' =>
      match skip with
      | S k => replace_from k old new s'
      | 0 => if HasPrefix old s then new +:+ replace_from (String.length old - 1) old new s' else String c (replace_from 0 old new s')
      end
  end.
Definition ReplaceAll : string -> string -> string -> string := replace_from 0.

(** What follows a prefix that is compared as [strings.EqualFold] does, which for
    the letters of the prefixes in use is the folding of ASCII. *)
Definition lower_ascii (c : ascii) : ascii :=
  let n := nat_of_ascii c in if (65 <=? n)%nat && (n <=? 90)%nat then ascii_of_nat (n + 32) else c.
Fixpoint cut_fold (p s : string) : option string :=
  match p, s with
  | "", _ => Some s
  | String a p, String b s => if lower_ascii a == lower_ascii b then cut_fold p s else None
  | String _ _, "" => None
  end.

Definition isSpace (c : ascii) : bool :=
  existsb (Ascii.eqb c) ["009"; "010"; "011"; "012"; "013"; " "]%char.

(** [strings.TrimSpace(s)]. *)
Fixpoint trim_left (s : string) : string :=
  match s with
  | "" => ""
  | String c s' => if isSpace c then trim_left s' else s
  end.
Fixpoint trim_right (s : string) : string :=
  match s with
  | "" => ""
  | String c s' => match trim_right s' with "" => if isSpace c then "" else String c "" | r => String c r end
  end.
Definition TrimSpace (s : string) : string := trim_right (trim_left s).

(** [strings.Fields(s)]: the maximal runs of non-space bytes. *)
Fixpoint Fields_go (s : string) (cur : string) : list string :=
  match s with
  | "" => if cur == "" then [] else [cur]
  | String a s' =>
      if isSpace a then (if cur == "" then Fields_go s' "" else cur :: Fields_go s' "")
      else Fields_go s' (cur +:+ String a "")
  end.
Definition Fields (s : string) : list string := Fields_go s "".

Definition digit (c : ascii) : option Z :=
  let n := Z.of_N (N_of_ascii c) in
  if (48 <=? n)%Z && (n <=? 57)%Z then Some (n - 48)%Z else None.

Fixpoint digits (s : string) (acc : Z) : option Z :=
  match s with
  | "" => Some acc
  | String c s' => d ← digit c; digits s' (acc * 10 + d)%Z
  end.

(** [strconv.Atoi]: an optional sign, at least one digit, and a value that
    fits an [int]. *)
Definition Atoi (s : string) : option Z :=
  let '(sign, body) :=
    match s with
    | String "-" r => ((-1)%Z, r)
    | String "+" r => (1%Z, r)
    | _ => (1%Z, s)
    end in
  match body with
  | "" => None
  | _ =>
      n ← digits body 0%Z;
      let v := (sign * n)%Z in
      if (min_i64 <=? v)%Z && (v <=? max_i64)%Z then Some v else None
  end.

(** [fmt.Sprintf("%d", n)] and [strconv.Itoa]. *)
Definition itoa (n : Z) : string := pretty n.

(** Go compares strings bytewise, as [String.ltb] does. *)
Definition str_lt (a b : string) : bool := String.ltb a b.

Lemma str_lt_irrefl a : str_lt a a = false.
Proof.
  unfold str_lt, String.ltb. assert (H : String.compare a a = Eq); [| by rewrite H].
  induction a as [| c a IH]; simpl; [done |]. unfold Ascii.compare. by rewrite N.compare_refl.
Qed.

Lemma compare_trans_lt a b c :
  String.compare a b = Lt -> String.compare b c = Lt -> String.compare a c = Lt.
Proof.
  revert b c. induction a as [| x a IH]; intros [| y b] [| z c]; simpl; try done.
  unfold Ascii.compare. intros H1 H2.
  destruct (N.compare_spec (N_of_ascii x) (N_of_ascii y)) as [E1 | E1 | E1]; [| | done];
  destruct (N.compare_spec (N_of_ascii y) (N_of_ascii z)) as [E2 | E2 | E2]; try done;
  destruct (N.compare_spec (N_of_ascii x) (N_of_ascii z)) as [E3 | E3 | E3]; try done; try lia.
  by apply (IH b).
Qed.

Lemma str_lt_trans a b c : str_lt a b = true -> str_lt b c = true -> str_lt a c = true.
Proof.
  unfold str_lt, String.ltb.
  destruct (String.compare a b) eqn:E1; try done. destruct (String.compare b c) eqn:E2; try done.
  by rewrite (compare_trans_lt _ _ _ E1 E2).
Qed.

Lemma str_lt_asym a b : str_lt a b = true -> str_lt b a = false.
Proof.
  intros H. destruct (str_lt b a) eqn:E; [| done].
  by rewrite <- (str_lt_irrefl a), (str_lt_trans _ _ _ H E).
Qed.

(** Trichotomy: two strings neither of which is less are equal. *)
Lemma str_lt_total a b : str_lt a b = false -> str_lt b a = false -> a = b.
Proof.
  unfold str_lt, String.ltb. rewrite (String.compare_antisym b a).
  destruct (String.compare a b) eqn:E; simpl; try done.
  intros _ _. by apply String.compare_eq_iff.
Qed.

Lemma str_lt_not_trans a b c : str_lt b a = false -> str_lt c b = false -> str_lt c a = false.
Proof.
  intros H1 H2. destruct (str_lt c a) eqn:E; [| done].
  destruct (str_lt a b) eqn:E1.
  - by rewrite (str_lt_trans _ _ _ E E1) in H2.
  - rewrite (str_lt_total _ _ E1 H1) in E. congruence.
Qed.

(** [sort.Strings]. *)
Definition sort_strings (l : list string) : list string := stable_sort str_lt l.

Lemma sort_strings_perm l k : l ≡ₚ k -> sort_strings l = sort_strings k.
Proof.
  intros H. apply stable_sort_unique; [| apply str_lt_asym | | done].
  - unfold not_more. intros x y z. apply str_lt_not_trans.
  - unfold not_more. intros x y _ _ H1 H2. by apply str_lt_total.
Qed.

Lemma sort_strings_sorted l : StronglySorted (fun a b => str_lt b a = false) (sort_strings l).
Proof.
  apply (stable_sort_sorted str_lt); [| apply str_lt_asym].
  unfold not_more. intros x y z. apply str_lt_not_trans.
Qed.

(** ** Printing and parsing *)

Fixpoint all_chars (p : ascii -> bool) (s : string) : bool :=
  match s with
  | "" => true
  | String c s' => p c && all_chars p s'
  end.

(** [strings.Join(ws, sep)] for a one-byte separator. *)
Fixpoint JoinStr (sep : ascii) (ws : list string) : string :=
  match ws with
  | [] => ""
  | [w] => w
  | w :: ws' => w +:+ String sep (JoinStr sep ws')
  end.

Definition is_digit (c : ascii) : bool := if digit c is Some _ then true else false.
Definition not_char (c a : ascii) : bool := negb (a == c).

Lemma all_chars_app p s1 s2 : all_chars p (s1 +:+ s2) = all_chars p s1 && all_chars p s2.
Proof. induction s1 as [| c s1 IH]; simpl; [done |]. by rewrite IH, andb_assoc. Qed.

Lemma all_chars_weaken (p q : ascii -> bool) s :
  (forall c, p c = true -> q c = true) -> all_chars p s = true -> all_chars q s = true.
Proof.
  intros H. induction s as [| c s IH]; simpl; [done |].
  intros [H1 H2]%andb_true_iff. by rewrite (H _ H1), IH.
Qed.

Lemma cut_app c a b : all_chars (not_char c) a = true -> cut c (a +:+ String c b) = Some (a, b).
Proof.
  induction a as [| x a IH]; simpl.
  { by rewrite bool_decide_true. }
  intros [H1 H2]%andb_true_iff. unfold not_char in H1. apply negb_true_iff in H1.
  by rewrite H1, IH.
Qed.

Lemma cut_none c s : all_chars (not_char c) s = true -> cut c s = None.
Proof.
  induction s as [| x s IH]; simpl; [done |].
  intros [H1 H2]%andb_true_iff. unfold not_char in H1. apply negb_true_iff in H1.
  by rewrite H1, IH.
Qed.

Lemma Split_word c s : all_chars (not_char c) s = true -> Split c s = [s].
Proof.
  induction s as [| x s IH]; simpl; [done |].
  intros [H1 H2]%andb_true_iff. unfold not_char in H1. apply negb_true_iff in H1.
  by rewrite H1, IH.
Qed.

Lemma Split_app c a b : all_chars (not_char c) a = true -> Split c (a +:+ String c b) = a :: Split c b.
Proof.
  induction a as [| x a IH]; simpl.
  { by rewrite bool_decide_true. }
  intros [H1 H2]%andb_true_iff. unfold not_char in H1. apply negb_true_iff in H1.
  by rewrite H1, IH.
Qed.

Lemma Split_JoinStr c ws :
  ws <> [] -> Forall (fun w => all_chars (not_char c) w = true) ws -> Split c (JoinStr c ws) = ws.
Proof.
  induction ws as [| w ws IH]; [done |]. intros _ [Hw Hws]%Forall_cons.
  destruct ws as [| w' ws]; [by apply Split_word |].
  change (JoinStr c (w :: w' :: ws)) with (w +:+ String c (JoinStr c (w' :: ws))).
  by rewrite Split_app, IH.
Qed.

Definition is_word (w : string) : Prop := w <> "" /\ all_chars (fun c => negb (isSpace c)) w = true.

Lemma app_nil_r_string s : s +:+ "" = s.
Proof. induction s as [| c s IH]; [done |]. change (String c (s +:+ "") = String c s). by f_equal. Qed.

Lemma length_app_string a b : String.length (a +:+ b) = (String.length a + String.length b)%nat.
Proof.
  induction a as [| c a IH]; [done |]. change (S (String.length (a +:+ b)) = S (String.length a + String.length b)%nat). by rewrite IH.
Qed.

Lemma app_assoc_string a b c : (a +:+ b) +:+ c = a +:+ (b +:+ c).
Proof.
  induction a as [| x a IH]; [done |].
  change (String x ((a +:+ b) +:+ c) = String x (a +:+ (b +:+ c))). by f_equal.
Qed.

Lemma Fields_go_word w s cur :
  all_chars (fun c => negb (isSpace c)) w = true ->
  Fields_go (w +:+ s) cur = Fields_go s (cur +:+ w).
Proof.
  revert cur. induction w as [| c w IH]; intros cur.
  { by rewrite app_nil_r_string. }
  change (String c w +:+ s) with (String c (w +:+ s)). cbn [all_chars Fields_go].
  intros [H1 H2]%andb_true_iff. apply negb_true_iff in H1. rewrite H1, IH by done.
  by rewrite app_assoc_string.
Qed.

Lemma Fields_JoinStr ws : Forall is_word ws -> Fields (JoinStr " " ws) = ws.
Proof.
  unfold Fields. induction ws as [| w ws IH]; [done |].
  intros [[Hne Hw] Hws]%Forall_cons. destruct ws as [| w' ws].
  - simpl JoinStr. rewrite <- (app_nil_r_string w) at 1. rewrite Fields_go_word by done.
    cbn [Fields_go]. by rewrite bool_decide_false.
  - change (JoinStr " " (w :: w' :: ws)) with (w +:+ String " " (JoinStr " " (w' :: ws))).
    rewrite Fields_go_word by done. change ("" +:+ w) with w.
    cbn [Fields_go]. replace (isSpace " ") with true by done. cbv iota.
    by rewrite bool_decide_false, IH.
Qed.

Lemma digit_pretty x : (x < 10)%N -> digit (pretty_N_char x) = Some (Z.of_N x).
Proof.
  intros H. assert (x = 0 \/ x = 1 \/ x = 2 \/ x = 3 \/ x = 4 \/ x = 5 \/ x = 6 \/ x = 7 \/ x = 8 \/ x = 9)%N
    as E by lia.
  by repeat destruct E as [-> | E]; [..| subst x].
Qed.

Lemma pretty_N_go_ind (P : N -> string -> string -> Prop) :
  (forall s, P 0%N s s) ->
  (forall x s r, (0 < x)%N -> P (x `div` 10)%N (String (pretty_N_char (x `mod` 10)) s) r -> P x s r) ->
  forall x s, P x s (pretty_N_go x s).
Proof.
  intros H0 HS x. induction (N.lt_wf_0 x) as [x _ IH]. intros s.
  destruct (decide (x = 0)%N) as [-> |]; [apply H0 |].
  rewrite pretty_N_go_step by lia. apply HS; [lia |]. apply IH. apply N.div_lt; lia.
Qed.

Lemma digits_pretty_go x s : digits (pretty_N_go x s) 0 = digits s (Z.of_N x).
Proof.
  apply (pretty_N_go_ind (fun x s r => digits r 0 = digits s (Z.of_N x))); [done |].
  clear. intros x s r Hx ->. cbn [digits].
  rewrite digit_pretty by (apply N.mod_lt; done). simpl. f_equal.
  rewrite N2Z.inj_div, N2Z.inj_mod. pose proof (Z.div_mod (Z.of_N x) 10). lia.
Qed.

Lemma is_digit_pretty_go x s : all_chars is_digit (pretty_N_go x s) = all_chars is_digit s.
Proof.
  apply (pretty_N_go_ind (fun x s r => all_chars is_digit r = all_chars is_digit s)); [done |].
  clear. intros x s r Hx ->. cbn [all_chars]. unfold is_digit at 1.
  by rewrite digit_pretty by (apply N.mod_lt; done).
Qed.

Lemma itoa_nonneg n : (0 <= n)%Z -> itoa n = if decide (n = 0)%Z then "0" else pretty_N_go (Z.to_N n) "".
Proof. intros H. destruct n as [| p | p]; [done | done | lia]. Qed.

Lemma itoa_digits n : (0 <= n)%Z -> all_chars is_digit (itoa n) = true.
Proof. intros H. rewrite itoa_nonneg by done. case_decide; [done |]. by rewrite is_digit_pretty_go. Qed.

Lemma itoa_nonempty n : itoa n <> "".
Proof.
  destruct n as [| p | p]; [done | | done].
  rewrite itoa_nonneg by lia. rewrite decide_False by lia.
  rewrite pretty_N_go_step by lia.
  assert (H : forall x s, s <> "" -> pretty_N_go x s <> "").
  { intros x s. apply (pretty_N_go_ind (fun x s r => s <> "" -> r <> "")); [done |]. naive_solver. }
  by apply H.
Qed.

Lemma Atoi_itoa n : (0 <= n <= max_i64)%Z -> Atoi (itoa n) = Some n.
Proof.
  intros [H1 H2]. unfold Atoi.
  assert (Hd : digits (itoa n) 0 = Some n).
  { rewrite itoa_nonneg by done. case_decide as E; [by subst |].
    rewrite digits_pretty_go. simpl. f_equal. lia. }
  pose proof (itoa_digits n H1) as Hc. pose proof (itoa_nonempty n) as Hne.
  destruct (itoa n) as [| c s]; [done |].
  cbn [all_chars] in Hc. apply andb_true_iff in Hc as [Hc _].
  assert (Hs : forall a b : Z * string, match c with "-"%char => a | "+"%char => b | _ => (1%Z, String c s) end
     = (1%Z, String c s)).
  { intros a b. destruct c as [[] [] [] [] [] [] [] []]; try done; by vm_compute in Hc. }
  rewrite Hs. rewrite Hd. cbn [mbind option_bind]. rewrite Z.mul_1_l.
  replace ((min_i64 <=? n)%Z && (n <=? max_i64)%Z) with true; [done |].
  symmetry. apply andb_true_iff. rewrite !Z.leb_le. unfold min_i64. lia.
Qed.

(** ** Splitting and trimming *)

Lemma Split_pieces c p s : all_chars p s = true -> Forall (fun w => all_chars p w = true) (Split c s).
Proof.
  induction s as [| a s IH]; simpl; [by repeat constructor |].
  intros [Ha Hs]%andb_true_iff. specialize (IH Hs). case_bool_decide; [by constructor |].
  destruct (Split c s) as [| w ws]; [by repeat constructor; simpl; rewrite Ha |].
  apply Forall_cons in IH as [Hw Hws]. constructor; [simpl; by rewrite Ha, Hw | done].
Qed.

Lemma Split_no_sep c s : Forall (fun w => all_chars (not_char c) w = true) (Split c s).
Proof.
  induction s as [| a s IH]; simpl; [by repeat constructor |].
  case_bool_decide as Ha; [by constructor |].
  assert (Hc : not_char c a = true) by (unfold not_char; by rewrite bool_decide_false).
  destruct (Split c s) as [| w ws]; [by repeat constructor; simpl; rewrite Hc |].
  apply Forall_cons in IH as [Hw Hws]. constructor; [simpl; by rewrite Hc, Hw | done].
Qed.

Lemma all_chars_trim p s : all_chars p s = true -> all_chars p (TrimSpace s) = true.
Proof.
  unfold TrimSpace. intros H.
  assert (Hl : all_chars p (trim_left s) = true).
  { induction s as [| a s IH]; simpl in *; [done |]. apply andb_true_iff in H as [Ha Hs].
    destruct (isSpace a); [by apply IH | simpl; by rewrite Ha, Hs]. }
  revert Hl. generalize (trim_left s). clear. intros s. induction s as [| a s IH]; simpl; [done |].
  intros [Ha Hs]%andb_true_iff. specialize (IH Hs).
  destruct (trim_right s); simpl in *; [destruct (isSpace a) |]; simpl; by rewrite ?Ha.
Qed.

Lemma trim_left_head s : trim_left s = "" \/ exists c r, trim_left s = String c r /\ isSpace c = false.
Proof.
  induction s as [| a s IH]; simpl; [by left |]. destruct (isSpace a) eqn:E; [done |]. right. by exists a, s.
Qed.

Lemma trim_right_idem s : trim_right (trim_right s) = trim_right s.
Proof.
  induction s as [| a s IH]; simpl; [done |].
  destruct (trim_right s) as [| b r] eqn:E.
  - destruct (isSpace a) eqn:Ea; simpl; [done | by rewrite Ea].
  - change (trim_right (String a (String b r))) with
      (match trim_right (String b r) with "" => if isSpace a then "" else String a "" | r => String a r end).
    by rewrite IH.
Qed.

Lemma TrimSpace_idem s : TrimSpace (TrimSpace s) = TrimSpace s.
Proof.
  unfold TrimSpace. destruct (trim_left_head s) as [-> | (c & r & -> & Hc)]; [done |].
  assert (H : trim_left (trim_right (String c r)) = trim_right (String c r)).
  { simpl. destruct (trim_right r); simpl; by rewrite Hc; simpl; rewrite ?Hc. }
  by rewrite H, trim_right_idem.
Qed.

#[global] Arguments cut c%_char s%_string.
#[global] Arguments Split c%_char s%_string.
#[global] Arguments ContainsChar c%_char s%_string.
#[global] Arguments JoinStr sep%_char ws.
#[global] Arguments not_char c%_char a%_char.
