(* ===== verification/Base64.v ===== *)
(** * Base64 ([encoding/base64], [StdEncoding])

    The standard encoding as the programs use it, over byte strings: groups of
    three bytes become four characters, the last group is padded.  The decoder
    skips line ends and accepts nothing after the padding.  Shared by the secrets
    of the configuration service and the PowerShell commands of [shellquote]. *)

From Stdlib Require Import Ascii.
From S2P Require Import Prelude GoStrings.
#[local] Open Scope Z_scope.

Definition alphabet : string := "ABCDEFGHIJKLMNOPQRSTUVWXYZabcdefghijklmnopqrstuvwxyz0123456789+/".

Definition sextet_char (n : Z) : ascii := default "="%char (String.get (Z.to_nat n) alphabet).

(** The position of a character in the alphabet. *)
Fixpoint index_of (c : ascii) (s : string) : option Z :=
  match s with
  | EmptyString => None
  | String d s' => if Ascii.eqb c d then Some 0 else Z.succ <$> index_of c s'
  end.
Definition char_sextet (c : ascii) : option Z := index_of c alphabet.

Definition byte (a : ascii) : Z := Z.of_N (N_of_ascii a).

Fixpoint EncodeToString (s : string) : string :=
  match s with
  | EmptyString => EmptyString
  | String a EmptyString =>
      String (sextet_char (byte a / 4)) (String (sextet_char (byte a mod 4 * 16)) "==")
  | String a (String b EmptyString) =>
      String (sextet_char (byte a / 4)) (String (sextet_char (byte a mod 4 * 16 + byte b / 16))
        (String (sextet_char (byte b mod 16 * 4)) "="))
  | String a (String b (String c s')) =>
      String (sextet_char (byte a / 4)) (String (sextet_char (byte a mod 4 * 16 + byte b / 16))
        (String (sextet_char (byte b mod 16 * 4 + byte c / 64)) (String (sextet_char (byte c mod 64)) (EncodeToString s'))))
  end.

(** The characters that the decoder looks at. *)
Fixpoint strip (s : string) : string :=
  match s with
  | EmptyString => EmptyString
  | String c s' => if Ascii.eqb c "010" || Ascii.eqb c "013" then strip s' else String c (strip s')
  end.

Definition out (n : Z) : ascii := ascii_of_N (Z.to_N (n mod 256)).

Fixpoint decode_groups (s : string) : option string :=
  match s with
  | EmptyString => Some EmptyString
  | String c1 (String c2 (String c3 (String c4 s'))) =>
      x1 ← char_sextet c1; x2 ← char_sextet c2;
      if Ascii.eqb c3 "=" then
        if Ascii.eqb c4 "=" then match s' with EmptyString => Some (String (out (x1 * 4 + x2 / 16)) EmptyString) | _ => None end
        else None
      else
        x3 ← char_sextet c3;
        if Ascii.eqb c4 "=" then
          match s' with
          | EmptyString => Some (String (out (x1 * 4 + x2 / 16)) (String (out (x2 mod 16 * 16 + x3 / 4)) EmptyString))
          | _ => None
          end
        else
          x4 ← char_sextet c4; rest ← decode_groups s';
          Some (String (out (x1 * 4 + x2 / 16)) (String (out (x2 mod 16 * 16 + x3 / 4)) (String (out (x3 mod 4 * 64 + x4)) rest)))
  | _ => None
  end.

Definition DecodeString (s : string) : option string := decode_groups (strip s).

(** ** What is encoded is decoded *)

(** A property of all sextets, by computation. *)
Definition sextets : list Z := Z.of_nat <$> seq 0 64.

Lemma sextets_all (P : Z -> bool) n : 0 <= n < 64 -> forallb P sextets = true -> P n = true.
Proof.
  intros Hn Hp. rewrite forallb_forall in Hp. apply Hp. apply list_elem_of_In, list_elem_of_fmap.
  exists (Z.to_nat n). split; [lia |]. apply elem_of_seq. lia.
Qed.

Definition payload (c : ascii) : bool :=
  negb (Ascii.eqb c "=") && negb (Ascii.eqb c "010") && negb (Ascii.eqb c "013").

Lemma sextet_ok n : 0 <= n < 64 -> char_sextet (sextet_char n) = Some n /\ payload (sextet_char n) = true.
Proof.
  intros Hn. assert (H : bool_decide (char_sextet (sextet_char n) = Some n) && payload (sextet_char n) = true).
  { apply (sextets_all (fun n => bool_decide (char_sextet (sextet_char n) = Some n) && payload (sextet_char n)) n Hn). vm_compute. reflexivity. }
  apply andb_true_iff in H as [H%bool_decide_eq_true ?]. done.
Qed.

Lemma byte_bound a : 0 <= byte a < 256.
Proof. unfold byte. pose proof (N_ascii_bounded a). lia. Qed.

Lemma out_byte n a : n = byte a -> out n = a.
Proof. intros ->. unfold out. rewrite Z.mod_small by apply byte_bound. unfold byte. rewrite N2Z.id. apply ascii_N_embedding. Qed.

Lemma string_ind3 (P : string -> Prop) :
  P EmptyString -> (forall a, P (String a EmptyString)) -> (forall a b, P (String a (String b EmptyString))) ->
  (forall a b c s, P s -> P (String a (String b (String c s)))) -> forall s, P s.
Proof.
  intros H0 H1 H2 H3.
  cut (forall s, P s /\ (forall a, P (String a s)) /\ forall a b, P (String a (String b s))); [intros H s; apply H |].
  induction s as [| c s (IH0 & IH1 & IH2)]; [done |]. split; [apply IH1 |]. split; [intros a; apply IH2 |]. intros a b. by apply H3.
Qed.

Lemma strip_payload c s : payload c = true -> strip (String c s) = String c (strip s).
Proof.
  unfold payload. cbn [strip]. rewrite !andb_true_iff, !negb_true_iff. intros [[_ ->] ->]. done.
Qed.

Lemma strip_sextet n s : 0 <= n < 64 -> strip (String (sextet_char n) s) = String (sextet_char n) (strip s).
Proof. intros Hn. by apply strip_payload, sextet_ok. Qed.

Lemma sextet_not_pad n : 0 <= n < 64 -> Ascii.eqb (sextet_char n) "=" = false.
Proof.
  intros Hn. destruct (sextet_ok n Hn) as [_ Hp]. unfold payload in Hp. rewrite !andb_true_iff, !negb_true_iff in Hp. apply Hp.
Qed.

Lemma decode_four x1 x2 x3 x4 s :
  0 <= x1 < 64 -> 0 <= x2 < 64 -> 0 <= x3 < 64 -> 0 <= x4 < 64 ->
  decode_groups (String (sextet_char x1) (String (sextet_char x2) (String (sextet_char x3) (String (sextet_char x4) s)))) =
    rest ← decode_groups s;
    Some (String (out (x1 * 4 + x2 / 16)) (String (out (x2 mod 16 * 16 + x3 / 4)) (String (out (x3 mod 4 * 64 + x4)) rest))).
Proof.
  intros H1 H2 H3 H4. cbn [decode_groups]. rewrite (proj1 (sextet_ok x1 H1)), (proj1 (sextet_ok x2 H2)).
  rewrite !sextet_not_pad by done. by rewrite (proj1 (sextet_ok x3 H3)), (proj1 (sextet_ok x4 H4)).
Qed.

Lemma decode_three x1 x2 x3 :
  0 <= x1 < 64 -> 0 <= x2 < 64 -> 0 <= x3 < 64 ->
  decode_groups (String (sextet_char x1) (String (sextet_char x2) (String (sextet_char x3) "="))) =
    Some (String (out (x1 * 4 + x2 / 16)) (String (out (x2 mod 16 * 16 + x3 / 4)) EmptyString)).
Proof.
  intros H1 H2 H3. cbn [decode_groups]. rewrite (proj1 (sextet_ok x1 H1)), (proj1 (sextet_ok x2 H2)).
  rewrite sextet_not_pad by done. by rewrite (proj1 (sextet_ok x3 H3)).
Qed.

Lemma decode_two x1 x2 :
  0 <= x1 < 64 -> 0 <= x2 < 64 ->
  decode_groups (String (sextet_char x1) (String (sextet_char x2) "==")) = Some (String (out (x1 * 4 + x2 / 16)) EmptyString).
Proof. intros H1 H2. cbn [decode_groups]. by rewrite (proj1 (sextet_ok x1 H1)), (proj1 (sextet_ok x2 H2)). Qed.

Ltac byte_bounds :=
  repeat match goal with a : ascii |- _ => let H := fresh in pose proof (byte_bound a) as H; revert H; generalize (byte a); clear a end;
  intros; Z.to_euclidean_division_equations; lia.

Lemma byte_sextets a b c :
  0 <= byte a / 4 < 64 /\ 0 <= byte a mod 4 * 16 + byte b / 16 < 64 /\ 0 <= byte b mod 16 * 4 + byte c / 64 < 64 /\
  0 <= byte a mod 4 * 16 < 64 /\ 0 <= byte b mod 16 * 4 < 64 /\ 0 <= byte c mod 64 < 64.
Proof. byte_bounds. Qed.

Lemma join_first a b : byte a / 4 * 4 + (byte a mod 4 * 16 + byte b / 16) / 16 = byte a.
Proof. byte_bounds. Qed.
Lemma join_second a b c : (byte a mod 4 * 16 + byte b / 16) mod 16 * 16 + (byte b mod 16 * 4 + byte c / 64) / 4 = byte b.
Proof. byte_bounds. Qed.
Lemma join_third b c : (byte b mod 16 * 4 + byte c / 64) mod 4 * 64 + byte c mod 64 = byte c.
Proof. byte_bounds. Qed.

Lemma join_last a : byte a / 4 * 4 + byte a mod 4 * 16 / 16 = byte a.
Proof. byte_bounds. Qed.
Lemma join_last_second a b : (byte a mod 4 * 16 + byte b / 16) mod 16 * 16 + byte b mod 16 * 4 / 4 = byte b.
Proof. byte_bounds. Qed.

Lemma DecodeString_EncodeToString s : DecodeString (EncodeToString s) = Some s.
Proof.
  unfold DecodeString. induction s as [| a | a b | a b c s IH] using string_ind3; [done | ..]; cbn [EncodeToString].
  - destruct (byte_sextets a "000" "000") as (A & _ & _ & B & _). rewrite !strip_sextet by done. rewrite decode_two by done.
    do 2 f_equal. apply out_byte, join_last.
  - destruct (byte_sextets a b "000") as (A & B & _ & _ & C & _). rewrite !strip_sextet by done. rewrite decode_three by done.
    by rewrite (out_byte _ a), (out_byte _ b) by (apply join_first || apply join_last_second).
  - destruct (byte_sextets a b c) as (A & B & C & _ & _ & D). rewrite !strip_sextet by done. rewrite decode_four, IH by done. cbn [mbind option_bind].
    rewrite (out_byte _ a), (out_byte _ b), (out_byte _ c); [done | apply join_third | apply join_second | apply join_first].
Qed.
