(* ===== verification/Cron.v ===== *)
(** * Cron expressions ([internal/cron/cron.go], [internal/cron/nextrun.go])

    The five-field matcher and the search for the next run.  Times are read in
    UTC; the calendar is computed from the nanoseconds since January 1 of year
    1.  A reference syntax for fields with a denotation states what a printed
    expression means, and [NextRun] is shown to find the first match. *)

From Stdlib Require Import Ascii.
From S2P Require Import GoStrings Prelude.
Open Scope go_scope.

(** ** Calendar ([time.Time]'s accessors, in UTC) *)

Definition days (t : time) : Z := (t / (24 * hour))%Z.
Definition Minute (t : time) : Z := ((t / minute) `mod` 60)%Z.
Definition Hour (t : time) : Z := ((t / hour) `mod` 24)%Z.
(** Monday, January 1 of year 1 is day 0. *)
Definition Weekday (t : time) : Z := ((days t + 1) `mod` 7)%Z.

(** Day of the 400-year cycle that starts on March 1 of a year divisible by
    400, and the year, month and day of month in it. *)
Definition day_of_era (d : Z) : Z := ((d + 306) `mod` 146097)%Z.
Definition year_of_era (doe : Z) : Z := ((doe - doe / 1460 + doe / 36524 - doe / 146096) / 365)%Z.
Definition day_of_year (doe : Z) : Z :=
  let yoe := year_of_era doe in (doe - (365 * yoe + yoe / 4 - yoe / 100))%Z.
Definition month_index (doe : Z) : Z := ((5 * day_of_year doe + 2) / 153)%Z.
Definition Day (t : time) : Z :=
  let doe := day_of_era (days t) in (day_of_year doe - (153 * month_index doe + 2) / 5 + 1)%Z.
Definition Month (t : time) : Z :=
  let mp := month_index (day_of_era (days t)) in (if (mp <? 10)%Z then mp + 3 else mp - 9)%Z.

(** ** Matching *)

Inductive cron_error :=
  | BadFieldCount | EmptyField | BadStep | BadStepPrefix | BadRangeStart | BadRangeEnd
  | BadRange | RangeOutOfBounds | BadField | FieldOutOfBounds.

Abbreviation cron := (result cron_error).

Definition atoi_or (e : cron_error) (s : string) : cron Z :=
  match Atoi s with Some n => Ok n | None => Err e end.

(** The loop over the comma-separated tokens. *)
Fixpoint matchTokens (toks : list string) (val lo hi : Z) : cron bool :=
  match toks with
  | [] => Ok false
  | tok :: toks =>
      match cut "-" tok with
      | Some (a, b) =>
          match Atoi a, Atoi b with
          | Some a, Some b =>
              if (a <? lo) || (a >? hi) || (b <? lo) || (b >? hi) then Err RangeOutOfBounds
              else if (val >=? a) && (val <=? b) then Ok true
              else matchTokens toks val lo hi
          | _, _ => Err BadRange
          end
      | None =>
          match Atoi tok with
          | None => Err BadField
          | Some n =>
              if (n <? lo) || (n >? hi) then Err FieldOutOfBounds
              else if (n =? val)%Z then Ok true
              else matchTokens toks val lo hi
          end
      end
  end.

(** The part of the field after the test for ["/"]. *)
Definition matchStep (prefix stepText : string) (val lo hi : Z) : cron bool :=
  match Atoi stepText with
  | None => Err BadStep
  | Some step =>
      if (step <=? 0)%Z then Err BadStep
      else
        '(baseLo, baseHi) ←
          (if prefix != "*" then
             match cut "-" prefix with
             | None => Err BadStepPrefix
             | Some (a, b) =>
                 baseLo ← atoi_or BadRangeStart a;
                 baseHi ← atoi_or BadRangeEnd b;
                 Ok (baseLo, baseHi)
             end
           else Ok (lo, hi));
        if (val <? baseLo) || (val >? baseHi) then Ok false
        else Ok (Z.rem (val - baseLo) step =? 0)%Z
  end.

Definition matchField (field : string) (val lo hi : Z) : cron bool :=
  if field == "" then Err EmptyField
  else if field == "*" then Ok true
  else match cut "/" field with
  | Some (prefix, stepText) => matchStep prefix stepText val lo hi
  | None => matchTokens (Split "," field) val lo hi
  end.

Definition Match (expr : string) (t : time) : cron bool :=
  match Fields expr with
  | [f0; f1; f2; f3; f4] =>
      m ← matchField f0 (Minute t) 0 59;
      h ← matchField f1 (Hour t) 0 23;
      dom ← matchField f2 (Day t) 1 31;
      mon ← matchField f3 (Month t) 1 12;
      let dow := Weekday t in
      d1 ← matchField f4 dow 0 7;
      let d1 :=
        if (dow =? 0)%Z && negb d1 then
          match matchField f4 7 0 7 with
          | Ok d2 => d2
          | Err _ => d1
          end
        else d1 in
      Ok (m && h && dom && mon && d1)
  | _ => Err BadFieldCount
  end.

(** ** Next run *)

Definition scan_limit : duration := (366 * 24 * hour)%Z.

(** The scan; [fuel] bounds its turns, one per minute of the limit is enough. *)
Fixpoint NextRun_scan (fuel : nat) (expr : string) (t limit : time) : time :=
  match fuel with
  | 0 => zero_time
  | S fuel =>
      if Before t limit then
        match Match expr t with
        | Err _ => zero_time
        | Ok true => t
        | Ok false => NextRun_scan fuel expr (Add t minute) limit
        end
      else zero_time
  end.

Definition scan_fuel : nat := Z.to_nat (scan_limit / minute + 1).

Definition NextRun (expr : string) (from : time) : time :=
  let start := Add (Truncate from minute) minute in
  NextRun_scan scan_fuel expr start (Add start scan_limit).

#[global] Arguments scan_fuel : simpl never.

Example match_every_5 : Match "*/5 9-17 * * 1-5" (14 * 24 * hour + 9 * hour + 15 * minute) = Ok true.
Proof. vm_compute. reflexivity. Qed.
Example match_sunday_7 : Match "0 0 * * 7" (6 * 24 * hour) = Ok true.
Proof. vm_compute. reflexivity. Qed.
(* 2024-02-29 12:00 *)
Example match_leap : Match "0 12 29 2 *" (738944 * 24 * hour + 12 * hour) = Ok true.
Proof. vm_compute. reflexivity. Qed.

(** ** Calendar facts *)

Lemma day_of_year_range doe : (0 <= doe < 146097)%Z -> (0 <= day_of_year doe <= 365)%Z.
Proof.
  intros H. unfold day_of_year, year_of_era.
  assert (0 <= doe / 36524 <= 4 /\ 0 <= doe / 146096 <= 1)%Z by (split; Z.div_mod_to_equations; lia).
  Z.div_mod_to_equations. lia.
Qed.

Lemma day_month_ranges doe :
  (0 <= doe < 146097)%Z ->
  (0 <= month_index doe < 12 /\ 1 <= day_of_year doe - (153 * month_index doe + 2) / 5 + 1 <= 31)%Z.
Proof.
  intros H%day_of_year_range. unfold month_index. revert H. generalize (day_of_year doe).
  intros d H. split; Z.div_mod_to_equations; lia.
Qed.

Lemma calendar_ranges t :
  (0 <= Minute t <= 59 /\ 0 <= Hour t <= 23 /\ 1 <= Day t <= 31 /\ 1 <= Month t <= 12 /\
   0 <= Weekday t <= 6)%Z.
Proof.
  unfold Minute, Hour, Day, Month, Weekday.
  pose proof (Z.mod_pos_bound (t / minute) 60 ltac:(lia)).
  pose proof (Z.mod_pos_bound (t / hour) 24 ltac:(lia)).
  pose proof (Z.mod_pos_bound (days t + 1) 7 ltac:(lia)).
  pose proof (day_month_ranges (day_of_era (days t)) (Z.mod_pos_bound (days t + 306) 146097 ltac:(lia))).
  destruct (Z.ltb_spec (month_index (day_of_era (days t))) 10); lia.
Qed.

(** ** What an expression means

    A reference syntax, its concrete text, and the set of values a field of it
    stands for in a position that ranges over [lo..hi]. *)

Inductive item := One (n : Z) | Range (a b : Z).
Inductive field := Star | Every (step : Z) | RangeEvery (a b step : Z) | Items (i : item) (l : list item).

Definition print_item (i : item) : string :=
  match i with
  | One n => itoa n
  | Range a b => itoa a +:+ String "-" (itoa b)
  end.
Definition print_field (f : field) : string :=
  match f with
  | Star => "*"
  | Every n => "*" +:+ String "/" (itoa n)
  | RangeEvery a b n => (itoa a +:+ String "-" (itoa b)) +:+ String "/" (itoa n)
  | Items i l => JoinStr "," (print_item <$> i :: l)
  end.

Definition denotes_item (v : Z) (i : item) : bool :=
  match i with
  | One n => (n =? v)%Z
  | Range a b => (v >=? a) && (v <=? b)
  end.
Definition denotes (lo hi : Z) (f : field) (v : Z) : bool :=
  match f with
  | Star => true
  | Every n => ((v - lo) `mod` n =? 0)%Z
  | RangeEvery a b n => (v >=? a) && (v <=? b) && ((v - a) `mod` n =? 0)%Z
  | Items i l => existsb (denotes_item v) (i :: l)
  end.

Definition wf_item (lo hi : Z) (i : item) : Prop :=
  match i with
  | One n => (lo <= n <= hi)%Z
  | Range a b => (lo <= a <= hi /\ lo <= b <= hi)%Z
  end.
Definition wf_field (lo hi : Z) (f : field) : Prop :=
  match f with
  | Star => True
  | Every n => (0 < n <= max_i64)%Z
  | RangeEvery a b n => (lo <= a <= hi /\ lo <= b <= hi /\ 0 < n <= max_i64)%Z
  | Items i l => Forall (wf_item lo hi) (i :: l)
  end.

(** *** Characters of a printed field *)

Lemma digit_not_char c n :
  is_digit c = false -> (0 <= n)%Z -> all_chars (not_char c) (itoa n) = true.
Proof.
  intros Hc Hn. eapply all_chars_weaken; [| by apply itoa_digits].
  intros a Ha. unfold not_char. rewrite bool_decide_false; [done |]. congruence.
Qed.

Lemma itoa_word n : (0 <= n)%Z -> is_word (itoa n).
Proof.
  intros Hn. split; [apply itoa_nonempty |].
  eapply all_chars_weaken; [| by apply itoa_digits].
  intros [[] [] [] [] [] [] [] []] H; first [done | by vm_compute in H].
Qed.

Lemma word_sep a c b : is_word a -> isSpace c = false -> is_word b -> is_word (a +:+ String c b).
Proof.
  intros [Ha1 Ha2] Hc [Hb1 Hb2]. split; [by destruct a |].
  rewrite all_chars_app, Ha2. cbn [all_chars]. by rewrite Hc, Hb2.
Qed.

Lemma print_item_word lo hi i : (0 <= lo)%Z -> wf_item lo hi i -> is_word (print_item i).
Proof.
  destruct i; simpl; intros; [apply itoa_word; lia |].
  apply word_sep; [apply itoa_word; lia | done | apply itoa_word; lia].
Qed.

Lemma print_item_no c lo hi i :
  is_digit c = false -> c <> "-"%char -> (0 <= lo)%Z -> wf_item lo hi i ->
  all_chars (not_char c) (print_item i) = true.
Proof.
  intros Hc Hd Hlo. destruct i as [n | a b]; cbn [wf_item print_item]; intros Hi.
  { apply digit_not_char; [done | lia]. }
  rewrite all_chars_app. cbn [all_chars]. rewrite !digit_not_char by (done || lia).
  unfold not_char. rewrite bool_decide_false; [done |]. congruence.
Qed.

Lemma JoinStr_word sep ws : ws <> [] -> isSpace sep = false -> Forall is_word ws -> is_word (JoinStr sep ws).
Proof.
  intros Hne Hsep H. induction H as [| w ws Hw Hws IH]; [done |].
  destruct ws as [| w' ws]; [done |].
  change (JoinStr sep (w :: w' :: ws)) with (w +:+ String sep (JoinStr sep (w' :: ws))).
  apply word_sep; [done | done |]. by apply IH.
Qed.

Lemma JoinStr_no c sep ws :
  not_char c sep = true -> Forall (fun w => all_chars (not_char c) w = true) ws ->
  all_chars (not_char c) (JoinStr sep ws) = true.
Proof.
  intros Hs H. induction H as [| w ws Hw Hws IH]; [done |].
  destruct ws as [| w' ws]; [done |].
  change (JoinStr sep (w :: w' :: ws)) with (w +:+ String sep (JoinStr sep (w' :: ws))).
  rewrite all_chars_app. cbn [all_chars]. by rewrite Hw, Hs, IH.
Qed.

Lemma print_items_wf lo hi l (P : string -> Prop) :
  (forall i, wf_item lo hi i -> P (print_item i)) -> Forall (wf_item lo hi) l ->
  Forall P (print_item <$> l).
Proof. intros HP. rewrite Forall_fmap. intros H. eapply Forall_impl; [exact H |]. apply HP. Qed.

Lemma print_field_word lo hi f : (0 <= lo)%Z -> wf_field lo hi f -> is_word (print_field f).
Proof.
  intros Hlo. destruct f as [| n | a b n | i l]; intros Hf; cbn [wf_field print_field] in *.
  - by split.
  - apply word_sep; [by split | done | apply itoa_word; lia].
  - apply word_sep; [| done | apply itoa_word; lia].
    apply word_sep; [apply itoa_word; lia | done | apply itoa_word; lia].
  - apply JoinStr_word; [done | done |]. eapply print_items_wf; [| exact Hf].
    intros. by eapply print_item_word.
Qed.

(** *** Matching a printed field *)

Lemma matchTokens_print lo hi l v :
  (0 <= lo)%Z -> (hi <= max_i64)%Z -> Forall (wf_item lo hi) l ->
  matchTokens (print_item <$> l) v lo hi = Ok (existsb (denotes_item v) l).
Proof.
  intros Hlo Hhi. induction 1 as [| i l Hi Hl IH]; [done |]. csimpl.
  destruct i as [n | a b]; cbn [print_item denotes_item wf_item] in *.
  - rewrite cut_none by (apply digit_not_char; [done | lia]). rewrite Atoi_itoa, IH by lia.
    destruct (Z.ltb_spec n lo); [lia |].
    replace (n >? hi)%Z with false by (symmetry; rewrite Z.gtb_ltb; apply Z.ltb_ge; lia).
    simpl. by destruct (n =? v)%Z.
  - rewrite cut_app by (apply digit_not_char; [done | lia]). rewrite !Atoi_itoa, IH by lia.
    replace ((a <? lo) || (a >? hi) || (b <? lo) || (b >? hi)) with false.
    2: { symmetry. rewrite !orb_false_iff, !Z.gtb_ltb, !Z.ltb_ge. lia. }
    by destruct ((v >=? a) && (v <=? b)).
Qed.

Lemma matchField_print lo hi f v :
  (0 <= lo)%Z -> (hi <= max_i64)%Z -> (lo <= v <= hi)%Z -> wf_field lo hi f ->
  matchField (print_field f) v lo hi = Ok (denotes lo hi f v).
Proof.
  intros Hlo Hhi Hv Hf. destruct (print_field_word lo hi f Hlo Hf) as [Hne _].
  unfold matchField. rewrite bool_decide_false by done.
  destruct f as [| n | a b n | i l]; cbn [wf_field print_field denotes] in *; [done | ..].
  - rewrite bool_decide_false by done. rewrite cut_app by done. unfold matchStep.
    rewrite Atoi_itoa by lia. destruct (Z.leb_spec n 0); [lia |].
    rewrite bool_decide_true by done. cbn [negb mbind result_bind].
    replace ((v <? lo) || (v >? hi)) with false
      by (symmetry; rewrite !orb_false_iff, !Z.gtb_ltb, !Z.ltb_ge; lia).
    by rewrite Z.rem_mod_nonneg by lia.
  - assert (Hd : all_chars (not_char "/") (itoa a +:+ String "-" (itoa b)) = true).
    { rewrite all_chars_app. cbn [all_chars]. by rewrite !digit_not_char by (done || lia). }
    assert (Hs : forall s, all_chars (not_char "*") s = true -> s <> "*").
    { intros s Hs ->. done. }
    assert (Hstar : all_chars (not_char "*") (itoa a +:+ String "-" (itoa b)) = true).
    { rewrite all_chars_app. cbn [all_chars]. by rewrite !digit_not_char by (done || lia). }
    rewrite bool_decide_false.
    2: { apply Hs. rewrite all_chars_app, Hstar. cbn [all_chars]. by rewrite digit_not_char by (done || lia). }
    rewrite cut_app by done. unfold matchStep. rewrite Atoi_itoa by lia.
    destruct (Z.leb_spec n 0); [lia |]. rewrite bool_decide_false by auto. cbn [negb].
    rewrite cut_app by (apply digit_not_char; [done | lia]). unfold atoi_or.
    rewrite !Atoi_itoa by lia. cbn [mbind result_bind].
    destruct (Z.ltb_spec v a), (Z.geb_spec v a); try lia; [done |].
    destruct (Z.leb_spec v b), (v >? b)%Z eqn:Eb; rewrite Z.gtb_ltb in Eb;
      apply Z.ltb_lt in Eb || apply Z.ltb_ge in Eb; try lia; [| done].
    cbn [orb andb]. by rewrite Z.rem_mod_nonneg by lia.
  - assert (Hno : forall c, is_digit c = false -> c <> "-"%char -> not_char c "," = true ->
      all_chars (not_char c) (JoinStr "," (print_item <$> i :: l)) = true).
    { intros c Hc Hc' Hcc. apply JoinStr_no; [done |]. eapply print_items_wf; [| exact Hf].
      intros. by eapply print_item_no. }
    rewrite bool_decide_false.
    2: { intros E. specialize (Hno "*"%char). rewrite E in Hno. by specialize (Hno eq_refl ltac:(done) eq_refl). }
    rewrite cut_none by (by apply Hno). rewrite Split_JoinStr; [by apply matchTokens_print | done |].
    eapply print_items_wf; [| exact Hf]. intros. by eapply print_item_no.
Qed.

(** *** Expressions *)

Record schedule := mk_schedule {
  minutes : field; hours : field; doms : field; months : field; dows : field
}.

Definition print_schedule (s : schedule) : string :=
  JoinStr " " [print_field (minutes s); print_field (hours s); print_field (doms s);
               print_field (months s); print_field (dows s)].

Definition wf_schedule (s : schedule) : Prop :=
  wf_field 0 59 (minutes s) /\ wf_field 0 23 (hours s) /\ wf_field 1 31 (doms s) /\
  wf_field 1 12 (months s) /\ wf_field 0 7 (dows s).

(** The instants a schedule names; Sunday answers to 0 and to 7. *)
Definition due (s : schedule) (t : time) : bool :=
  denotes 0 59 (minutes s) (Minute t) && denotes 0 23 (hours s) (Hour t) &&
  denotes 1 31 (doms s) (Day t) && denotes 1 12 (months s) (Month t) &&
  (denotes 0 7 (dows s) (Weekday t) || ((Weekday t =? 0)%Z && denotes 0 7 (dows s) 7)).

Lemma Match_print s t : wf_schedule s -> Match (print_schedule s) t = Ok (due s t).
Proof.
  intros (H1 & H2 & H3 & H4 & H5). destruct (calendar_ranges t) as (R1 & R2 & R3 & R4 & R5).
  unfold Match, print_schedule. rewrite Fields_JoinStr.
  2: { repeat constructor; eapply print_field_word; try eassumption; lia. }
  rewrite !matchField_print by (done || lia || (unfold max_i64; lia)).
  cbn [mbind result_bind]. unfold due. f_equal. f_equal.
  destruct (Z.eqb_spec (Weekday t) 0), (denotes 0 7 (dows s) (Weekday t)); simpl; try done.
Qed.

(** ** The search *)

(** What the scan from [t] to [limit] returns: the first of the instants [t],
    [t + 1 minute], ... that matches, or zero when an error or the limit comes
    first. *)
Definition first_match (expr : string) (t limit r : time) : Prop :=
  (exists k, (0 <= k)%Z /\ r = Add t (k * minute) /\ (r < limit)%Z /\ Match expr r = Ok true /\
     forall j, (0 <= j < k)%Z -> Match expr (Add t (j * minute)) = Ok false) \/
  (r = zero_time /\ forall k, (0 <= k)%Z -> (Add t (k * minute) < limit)%Z ->
     (forall j, (0 <= j < k)%Z -> Match expr (Add t (j * minute)) = Ok false) ->
     Match expr (Add t (k * minute)) <> Ok true).

Lemma NextRun_scan_first expr fuel t limit :
  (limit - t <= Z.of_nat fuel * minute)%Z -> first_match expr t limit (NextRun_scan fuel expr t limit).
Proof.
  revert t. induction fuel as [| fuel IH]; intros t Hf.
  { right. split; [done |]. intros k Hk. unfold Add, minute, second in *. lia. }
  cbn [NextRun_scan]. unfold Before. destruct (Z.ltb_spec t limit) as [Hlt | Hge].
  2: { right. split; [done |]. intros k Hk. unfold Add, minute, second in *. lia. }
  assert (E0 : Add t (0 * minute) = t) by (unfold Add; lia).
  destruct (Match expr t) as [[] | e] eqn:Em.
  - left. exists 0%Z. rewrite E0. split_and!; [lia | done.. | lia].
  - assert (Es : forall k, Add (Add t minute) (k * minute) = Add t ((k + 1) * minute)).
    { intros k. unfold Add. lia. }
    destruct (IH (Add t minute)) as [(k & Hk & Hr & Hlim & Hm & Hbef) | [Hr Hnone]].
    { unfold Add, minute, second in *. lia. }
    + left. exists (k + 1)%Z. rewrite <- Es. split_and!; [lia | done.. |].
      intros j Hj. destruct (decide (j = 0)%Z) as [-> |]; [by rewrite E0 |].
      specialize (Hbef (j - 1)%Z ltac:(lia)). rewrite Es in Hbef. by replace (j - 1 + 1)%Z with j in Hbef by lia.
    + right. split; [done |]. intros k Hk Hlim Hbef.
      destruct (decide (k = 0)%Z) as [-> |]; [rewrite E0; congruence |].
      specialize (Hnone (k - 1)%Z). rewrite Es in Hnone. replace (k - 1 + 1)%Z with k in Hnone by lia.
      apply Hnone; [lia | done |]. intros j Hj. rewrite Es. apply Hbef. lia.
  - right. split; [done |]. intros k Hk Hlim Hbef.
    destruct (decide (k = 0)%Z) as [-> |]; [rewrite E0; congruence |].
    specialize (Hbef 0%Z ltac:(lia)). rewrite E0 in Hbef. congruence.
Qed.

Lemma NextRun_first expr from :
  let start := Add (Truncate from minute) minute in
  first_match expr start (Add start scan_limit) (NextRun expr from).
Proof.
  unfold NextRun. apply NextRun_scan_first. unfold scan_fuel, Add.
  change scan_limit with (527040 * minute)%Z. rewrite Z.div_mul by done.
  unfold minute, second. lia.
Qed.

(** ** Properties *)

(** On the text of any well-formed five-field schedule (stars, steps,
    ranges, stepped ranges and enumerations, in bounds) [Match] reports no error
    and answers whether the instant is one the schedule denotes, with Sunday
    answering to both 0 and 7. *)
Theorem match_denotes s t : wf_schedule s -> Match (print_schedule s) t = Ok (due s t).
Proof. apply Match_print. Qed.

Definition workdays : schedule :=
  mk_schedule (Every 15) (RangeEvery 9 17 2) Star (Items (Range 1 6) [One 12]) (Items (Range 1 5) [One 7]).

Lemma workdays_wf : wf_schedule workdays.
Proof. repeat (constructor || unfold max_i64; try lia). Defined.

Lemma match_denotes_witness :
  print_schedule workdays = "*/15 9-17/2 * 1-6,12 1-5,7" /\
  Match "*/15 9-17/2 * 1-6,12 1-5,7" (13 * hour + 30 * minute) = Ok true.
Proof.
  split; [vm_compute; reflexivity |].
  apply (match_denotes workdays (13 * hour + 30 * minute) workdays_wf).
Defined.

(** [NextRun] returns the first whole minute after the minute of [from] at
    which a well-formed schedule is due, if there is one within 366 days, and
    the zero time otherwise; the search always ends. *)
Theorem nextrun_is_first_due s from :
  wf_schedule s ->
  let start := Add (Truncate from minute) minute in
  let r := NextRun (print_schedule s) from in
  (from < r /\ r < start + scan_limit /\ r mod minute = 0 /\ due s r = true /\
     forall t, start <= t < r -> t mod minute = 0 -> due s t = false)%Z \/
  (r = zero_time /\
     forall t, start <= t < start + scan_limit -> t mod minute = 0 -> due s t = false)%Z.
Proof.
  intros Hs start. cbv zeta.
  destruct (Truncate_spec from minute ltac:(done)) as [Hb Hm].
  assert (Hst : (start mod minute = 0)%Z).
  { unfold start, Add. rewrite <- Z.add_mod_idemp_l, Hm by done. done. }
  assert (Halign : forall t, (start <= t)%Z -> (t mod minute = 0)%Z ->
    exists k, (0 <= k)%Z /\ t = Add start (k * minute)).
  { intros t Ht Htm. exists ((t - start) / minute)%Z. split; [apply Z.div_pos; [lia | done] |].
    unfold Add. assert ((t - start) mod minute = 0)%Z as E by (by rewrite Zminus_mod, Htm, Hst).
    pose proof (Z.div_mod (t - start) minute ltac:(done)). lia. }
  assert (Hstart : start = Add (Truncate from minute) minute) by done.
  pose proof (NextRun_first (print_schedule s) from) as H. cbv zeta in H. rewrite <- Hstart in H.
  clearbody start. assert (Hminute : (0 < minute)%Z) by done.
  destruct H as [(k & Hk & Hr & Hlim & Hmt & Hbef) | [Hr Hnone]].
  - left. rewrite Match_print in Hmt by done. injection Hmt as Hdue. unfold Add in Hlim.
    split_and!; [unfold Add in *; nia | lia | | done |].
    { rewrite Hr. unfold Add. by rewrite Z_mod_plus_full. }
    intros t [Ht1 Ht2] Htm. destruct (Halign t Ht1 Htm) as (j & Hj & ->).
    specialize (Hbef j). rewrite Match_print in Hbef by done. assert (j < k)%Z by (unfold Add in *; nia).
    specialize (Hbef ltac:(lia)). congruence.
  - right. split; [done |]. intros t [Ht1 Ht2] Htm. destruct (Halign t Ht1 Htm) as (k & Hk & ->).
    clear Ht1 Htm Hr Halign. revert Ht2. pattern k. apply Zlt_0_ind; [| done]. clear k Hk.
    intros k IH Hk Hlim. apply not_true_is_false. intros Hdue. apply (Hnone k Hk); [done | |].
    + intros j Hj. rewrite Match_print by done. rewrite IH; [done | done |]. unfold Add in *. nia.
    + by rewrite Match_print, Hdue.
Qed.

(** Midnight on January 1: the next working-day slot of [workdays] is 09:00. *)
Lemma nextrun_is_first_due_witness :
  let r := NextRun (print_schedule workdays) 0 in
  (0 < r < Add minute scan_limit)%Z /\ due workdays r = true.
Proof.
  destruct (nextrun_is_first_due workdays 0 workdays_wf)
    as [(H1 & H2 & H3 & H4 & H5) | [Hr _]].
  - split; [split; [exact H1 | exact H2] | exact H4].
  - vm_compute in Hr. discriminate Hr.
Defined.

(** Bounds and syntax are only checked up to the first token that matches,
    and never in the range of a step, so whether an expression is accepted
    depends on the moment at which it is checked: [0,99 * * * *] passes at a
    full hour and is an error one minute later, and [50-99/7] passes although
    [50-99] is out of bounds. *)
Theorem validation_depends_on_time :
  Match "0,99 * * * *" 0 = Ok true /\
  Match "0,99 * * * *" (Add 0 minute) = Err FieldOutOfBounds /\
  Match "0,x * * * *" 0 = Ok true /\
  Match "50-99/7 * * * *" (Add 0 (57 * minute)) = Ok true /\
  Match "50-99 * * * *" (Add 0 (57 * minute)) = Err RangeOutOfBounds /\
  NextRun "0,99 * * * *" 0 = zero_time.
Proof. repeat split; vm_compute; reflexivity. Qed.
