(* ===== verification/CronPkg.v ===== *)
(** * The cron matcher of the task service ([pkg/cron/cron.go])

    A second matcher of five-field expressions, which is meant to agree with the one of
    [Cron] on the syntax both share: it does for steps, ranges whose ends are in order
    and lists of them, and the differences beyond are exhibited. *)

From Stdlib Require Import Ascii.
From S2P Require Import GoStrings Prelude Cron.
Open Scope go_scope.

Module PkgCron.
Inductive pkg_error := FieldCount | StepNotNumber | StepNotPositive | RangeStart | RangeEnd | RangeOutside | NotNumber | OutOfField.
Abbreviation pkg := (result pkg_error).

Definition atoi_or (e : pkg_error) (s : string) : pkg Z := match Atoi s with Some n => Ok n | None => Err e end.

(** A part without its step, and the step. *)
Definition split_step (part : string) : pkg (string * Z) :=
  match cut "/" part with
  | None => Ok (part, 1%Z)
  | Some (p, s) => step ← atoi_or StepNotNumber s; if (step <=? 0)%Z then Err StepNotPositive else Ok (p, step)
  end.

Fixpoint matchParts (parts : list string) (val lo hi : Z) : pkg bool :=
  match parts with
  | [] => Ok false
  | part :: parts =>
      '(part, step) ← split_step part;
      if part == "*" then
        if (val <? lo) || (val >? hi) then Ok false else Ok (Z.rem (val - lo) step =? 0)%Z
      else match cut "-" part with
      | Some (a, b) =>
          a ← atoi_or RangeStart a;
          b ← atoi_or RangeEnd b;
          if (a <? lo) || (b >? hi) || (a >? b) then Err RangeOutside
          else if (val <? a) || (val >? b) then matchParts parts val lo hi
          else Ok (Z.rem (val - a) step =? 0)%Z
      | None =>
          n ← atoi_or NotNumber part;
          if (n <? lo) || (n >? hi) then Err OutOfField
          else if (n =? val)%Z then Ok true
          else matchParts parts val lo hi
      end
  end.

Definition matchField (field : string) (val lo hi : Z) : pkg bool := matchParts (Split "," field) val lo hi.

Definition Match (expr : string) (t : time) : pkg bool :=
  match Fields expr with
  | [f0; f1; f2; f3; f4] =>
      m ← matchField f0 (Minute t) 0 59;
      h ← matchField f1 (Hour t) 0 23;
      d ← matchField f2 (Day t) 1 31;
      mo ← matchField f3 (Month t) 1 12;
      let dow := Weekday t in
      w ← matchField f4 dow 0 7;
      let w :=
        if (dow =? 0)%Z && negb w then match matchField f4 7 0 7 with Ok w7 => w7 | Err _ => w end else w in
      Ok (m && h && d && mo && w)
  | _ => Err FieldCount
  end.
End PkgCron.
Import PkgCron.

(** ** Agreement *)

(** Ranges with their ends in order. *)
Definition ordered_item (i : item) : Prop := match i with One _ => True | Range a b => (a <= b)%Z end.
Definition ordered (f : field) : Prop :=
  match f with
  | Star | Every _ => True
  | RangeEvery a b _ => (a <= b)%Z
  | Items i l => Forall ordered_item (i :: l)
  end.
Definition ordered_schedule (s : schedule) : Prop :=
  ordered (minutes s) /\ ordered (hours s) /\ ordered (doms s) /\ ordered (months s) /\ ordered (dows s).

Lemma out_of_false v a b : (a <= v <= b)%Z -> (v <? a) || (v >? b) = false.
Proof. intros H. rewrite orb_false_iff, Z.gtb_ltb, !Z.ltb_ge. lia. Qed.

Lemma inside_iff v a b : (v <? a) || (v >? b) = negb ((v >=? a) && (v <=? b)).
Proof. rewrite Z.gtb_ltb, Z.geb_leb, negb_andb, !Z.leb_antisym, !negb_involutive. done. Qed.

Lemma ordered_false lo hi a b : (lo <= a)%Z -> (b <= hi)%Z -> (a <= b)%Z -> (a <? lo) || (b >? hi) || (a >? b) = false.
Proof. intros. rewrite !orb_false_iff, !Z.gtb_ltb, !Z.ltb_ge. lia. Qed.

Lemma no_char_ne c s x : all_chars (not_char c) s = true -> all_chars (not_char c) x = false -> s <> x.
Proof. intros H1 H2 ->. congruence. Qed.

(** The text of a part is no star and has no slash. *)
Lemma range_no c a b : is_digit c = false -> not_char c "-" = true -> (0 <= a)%Z -> (0 <= b)%Z ->
  all_chars (not_char c) (itoa a +:+ String "-" (itoa b)) = true.
Proof. intros Hc Hd Ha Hb. rewrite all_chars_app. cbn [all_chars]. by rewrite Hd, !digit_not_char. Qed.

Lemma matchParts_range lo hi a b step v parts s :
  (0 <= lo)%Z -> (lo <= a)%Z -> (b <= hi)%Z -> (a <= b)%Z -> (hi <= max_i64)%Z -> (0 < step)%Z ->
  split_step s = Ok (itoa a +:+ String "-" (itoa b), step) ->
  matchParts (s :: parts) v lo hi =
    if (v >=? a) && (v <=? b) then Ok ((v - a) `mod` step =? 0)%Z else matchParts parts v lo hi.
Proof.
  intros Hlo Ha Hb Hab Hhi Hstep Es. cbn [matchParts]. rewrite Es. cbn [mbind result_bind].
  rewrite bool_decide_false by (apply (no_char_ne "*"); [apply range_no; done || lia | done]).
  rewrite cut_app by (apply digit_not_char; [done | lia]). unfold atoi_or. rewrite !Atoi_itoa by lia. cbn [mbind result_bind].
  rewrite ordered_false, inside_iff by lia. destruct (Z.geb_spec v a); [| done]. destruct (v <=? b)%Z; [| done].
  cbn [andb negb]. by rewrite Z.rem_mod_nonneg by lia.
Qed.

Lemma matchParts_print lo hi l v :
  (0 <= lo)%Z -> (hi <= max_i64)%Z -> Forall (wf_item lo hi) l -> Forall ordered_item l ->
  matchParts (print_item <$> l) v lo hi = Ok (existsb (denotes_item v) l).
Proof.
  intros Hlo Hhi. induction 1 as [| i l Hi Hl IH]; intros Ho; [done |]. apply Forall_cons in Ho as [Hoi Ho]. specialize (IH Ho).
  assert (Hs : split_step (print_item i) = Ok (print_item i, 1%Z)).
  { unfold split_step. by rewrite cut_none by (by eapply print_item_no). }
  destruct i as [n | a b]; cbn [wf_item ordered_item] in *.
  - rewrite fmap_cons. cbn [matchParts existsb]. rewrite Hs. cbn [mbind result_bind print_item denotes_item].
    rewrite bool_decide_false by (apply (no_char_ne "*"); [apply digit_not_char; [done | lia] | done]).
    rewrite cut_none by (apply digit_not_char; [done | lia]). unfold atoi_or. rewrite Atoi_itoa by lia. cbn [mbind result_bind].
    rewrite out_of_false, IH by done. by destruct (n =? v)%Z.
  - rewrite fmap_cons. cbn [existsb]. rewrite (matchParts_range lo hi a b 1) by (exact Hs || lia). rewrite IH. cbn [denotes_item].
    destruct ((v >=? a) && (v <=? b)); [| done]. by rewrite Z.mod_1_r.
Qed.

Lemma split_step_every s n : all_chars (not_char "/") s = true -> (0 < n <= max_i64)%Z -> split_step (s +:+ String "/" (itoa n)) = Ok (s, n).
Proof.
  intros Hs Hn. unfold split_step. rewrite cut_app by done. unfold atoi_or. rewrite Atoi_itoa by lia. cbn [mbind result_bind].
  by rewrite (proj2 (Z.leb_gt n 0)) by lia.
Qed.

Lemma one_part s : all_chars (not_char ",") s = true -> Split "," s = [s].
Proof. intros H. apply (Split_JoinStr "," [s]); [done |]. by constructor. Qed.

Lemma pkg_matchField_print lo hi f v :
  (0 <= lo)%Z -> (hi <= max_i64)%Z -> (lo <= v <= hi)%Z -> wf_field lo hi f -> ordered f ->
  matchField (print_field f) v lo hi = Ok (denotes lo hi f v).
Proof.
  intros Hlo Hhi Hv Hf Ho. unfold matchField. destruct f as [| n | a b n | i l]; cbn [wf_field ordered print_field denotes] in *.
  - change (Split "," "*") with ["*"]. cbn [matchParts split_step cut mbind result_bind]. change (split_step "*") with (Ok ("*", 1%Z) : pkg _). cbn [mbind result_bind].
    rewrite bool_decide_true, out_of_false by done. by rewrite Z.rem_1_r.
  - assert (Hc : all_chars (not_char ",") ("*" +:+ String "/" (itoa n)) = true) by (rewrite all_chars_app; cbn [all_chars]; by rewrite digit_not_char by (done || lia)).
    rewrite one_part by done. cbn [matchParts]. rewrite split_step_every by (done || lia). cbn [mbind result_bind].
    rewrite bool_decide_true, out_of_false by done. by rewrite Z.rem_mod_nonneg by lia.
  - rewrite one_part.
    2: { rewrite all_chars_app, range_no by (done || lia). cbn [all_chars]. by rewrite digit_not_char by (done || lia). }
    rewrite (matchParts_range lo hi a b n) by (lia || (apply split_step_every; [apply range_no; done || lia | lia])).
    by destruct ((v >=? a) && (v <=? b)).
  - rewrite Split_JoinStr; [by apply matchParts_print | done |].
    eapply print_items_wf; [| exact Hf]. intros. by eapply print_item_no.
Qed.

Lemma pkg_Match_print s t : wf_schedule s -> ordered_schedule s -> PkgCron.Match (print_schedule s) t = Ok (due s t).
Proof.
  intros (H1 & H2 & H3 & H4 & H5) (O1 & O2 & O3 & O4 & O5). destruct (calendar_ranges t) as (R1 & R2 & R3 & R4 & R5).
  unfold PkgCron.Match, print_schedule. rewrite Fields_JoinStr.
  2: { repeat constructor; eapply print_field_word; try eassumption; lia. }
  rewrite !pkg_matchField_print by (done || lia || (unfold max_i64; lia)).
  cbn [mbind result_bind]. unfold due. f_equal. f_equal.
  destruct (Z.eqb_spec (Weekday t) 0), (denotes 0 7 (dows s) (Weekday t)); simpl; try done.
Qed.

(** C40: the two matchers agree: at every instant, on the text of every
    well-formed schedule with the ends of its ranges in order, both answer without an
    error whether the schedule names the instant. *)
Theorem matchers_agree s t :
  wf_schedule s -> ordered_schedule s ->
  PkgCron.Match (print_schedule s) t = Ok (due s t) /\ Cron.Match (print_schedule s) t = Ok (due s t).
Proof. intros Hs Ho. split; [by apply pkg_Match_print | by apply Match_print]. Qed.

Lemma workdays_ordered : ordered_schedule workdays.
Proof. repeat split; cbn; repeat constructor; cbn; lia. Qed.

Lemma matchers_agree_witness :
  PkgCron.Match "*/15 9-17/2 * 1-6,12 1-5,7" (13 * hour + 30 * minute) = Ok true /\
  Cron.Match "*/15 9-17/2 * 1-6,12 1-5,7" (13 * hour + 30 * minute) = Ok true.
Proof. exact (matchers_agree workdays (13 * hour + 30 * minute) workdays_wf workdays_ordered). Defined.

(** Outside that the matchers differ. A range whose ends are swapped never
    matches for the control plane and is an error for the task service. Where a list
    combines a stepped range or a stepped star with more parts, which only the task
    service accepts, the first part that spans a value decides about it: of the two
    parts of [0-30/10,15] and of [*/20,7], the second has no effect. *)
Theorem matchers_differ t :
  (Cron.Match "30-10 * * * *" t = Ok false /\ PkgCron.Match "30-10 * * * *" t = Err RangeOutside) /\
  (Minute t = 15 -> PkgCron.Match "0-30/10,15 * * * *" t = Ok false /\ PkgCron.Match "15,0-30/10 * * * *" t = Ok true)%Z /\
  (Minute t = 7 -> PkgCron.Match "*/20,7 * * * *" t = Ok false /\ PkgCron.Match "7,*/20 * * * *" t = Ok true)%Z.
Proof.
  destruct (calendar_ranges t) as (R1 & R2 & R3 & R4 & R5).
  assert (Hstar : forall v lo hi, (0 <= lo)%Z -> (hi <= max_i64)%Z -> (lo <= v <= hi)%Z -> matchField "*" v lo hi = Ok true).
  { intros v lo hi Hlo Hhi Hv. exact (pkg_matchField_print lo hi Star v Hlo Hhi Hv I I). }
  assert (Hm : forall f b, (forall x, (0 <= x <= 59)%Z -> x = Minute t -> matchField f x 0 59 = Ok b) ->
    Fields (f +:+ " * * * *") = [f; "*"; "*"; "*"; "*"] -> PkgCron.Match (f +:+ " * * * *") t = Ok b).
  { intros f b Hf Efs. unfold PkgCron.Match. rewrite Efs, (Hf (Minute t)) by done.
    rewrite !Hstar by (done || lia || (unfold max_i64; lia)). cbn [mbind result_bind negb]. by rewrite andb_false_r, !andb_true_r. }
  split; [split |].
  - assert (Hw : wf_schedule (mk_schedule (Items (Range 30 10) []) Star Star Star Star)) by (split_and!; cbn; try done; by constructor).
    pose proof (Match_print _ t Hw) as E. change (print_schedule _) with "30-10 * * * *" in E. rewrite E. f_equal.
    unfold due. cbn [minutes denotes existsb denotes_item].
    destruct (Z.geb_spec (Minute t) 30), (Z.leb_spec (Minute t) 10); try done. lia.
  - unfold PkgCron.Match. change (Fields "30-10 * * * *") with ["30-10"; "*"; "*"; "*"; "*"]. reflexivity.
  - split; intros E; split; [apply (Hm "0-30/10,15" false) | apply (Hm "15,0-30/10" true) | apply (Hm "*/20,7" false) | apply (Hm "7,*/20" true)];
      try reflexivity; intros x _ ->; rewrite E; reflexivity.
Qed.

Lemma matchers_differ_witness :
  PkgCron.Match "0-30/10,15 * * * *" (13 * hour + 15 * minute) = Ok false /\ PkgCron.Match "15,0-30/10 * * * *" (13 * hour + 15 * minute) = Ok true.
Proof. exact (proj1 (proj2 (matchers_differ (13 * hour + 15 * minute))) eq_refl). Defined.
