(* ===== verification/CronGraph.v ===== *)
(** * Orchestration graphs ([internal/cron/dag.go])

    The directed graph of the scheduler: nodes are task ids, an edge from [u]
    to [v] says that [u] waits for [v].  [range] is the order in which Go
    ranges over a map; every loop of the source has its own order, given by
    the place of the loop.  The recursion of the depth-first search is bounded
    by the number of nodes that are still white, the loop of [TopoSort] by the
    number of nodes; [None] is exhausted fuel, which the theorems exclude. *)

From S2P Require Import GoStrings Prelude.
Open Scope go_scope.

(** ** Data *)

Module DAG.
Record t := mk {
  nodes : gset string;
  edges : gmap string (gset string);
}.
End DAG.

Inductive DAG_error :=
  | ErrDAGCycle
  | ErrDAGEmpty
  | ErrDAGIncomplete (got want : nat).

#[export] Instance DAG_error_eq_dec : EqDecision DAG_error.
Proof. solve_decision. Defined.

(** The loops over a map. *)
Inductive place :=
  | InHasCycle
  | InDfs (u : string)
  | InTopoNodes
  | InTopoReady
  | InTopoEdges
  | InTopoDeps (from : string)
  | InReadyNodes
  | InReadyDeps (n : string)
  | InNodes
  | InDependencies.

(** [d.edges[u]]: the empty set when [u] has no entry. *)
Definition deps (d : DAG.t) (u : string) : gset string := default ∅ (DAG.edges d !! u).

Definition NewDAG : DAG.t := DAG.mk ∅ ∅.

Definition AddNode (d : DAG.t) (id : string) : DAG.t :=
  DAG.mk ({[id]} ∪ DAG.nodes d)
    (match DAG.edges d !! id with None => <[id := ∅]> (DAG.edges d) | Some _ => DAG.edges d end).

(** [0] white, [1] grey (on the path of the search), [2] black. *)
Abbreviation colors := (gmap string Z).
Definition color_of (c : colors) (u : string) : Z := default 0%Z (c !! u).

Definition get_deg (m : gmap string Z) (k : string) : Z := default 0%Z (m !! k).

(** ** Operations *)

Section operations.
Context (range : place -> gset string -> list string).

(** The loop of [dfsCycle]: [dfs] is the recursive call. *)
Fixpoint dfs_children (dfs : string -> colors -> option (bool * colors))
    (vs : list string) (color : colors) : option (bool * colors) :=
  match vs with
  | [] => Some (false, color)
  | v :: vs =>
      if color_of color v =? 1 then Some (true, color)
      else if color_of color v =? 0 then
        match dfs v color with
        | None => None
        | Some (true, color) => Some (true, color)
        | Some (false, color) => dfs_children dfs vs color
        end
      else dfs_children dfs vs color
  end%Z.

Fixpoint dfsCycle (fuel : nat) (d : DAG.t) (u : string) (color : colors) : option (bool * colors) :=
  match fuel with
  | 0 => None
  | S fuel =>
      match dfs_children (dfsCycle fuel d) (range (InDfs u) (deps d u)) (<[u := 1%Z]> color) with
      | None => None
      | Some (true, color) => Some (true, color)
      | Some (false, color) => Some (false, <[u := 2%Z]> color)
      end
  end.

Fixpoint HasCycle_loop (d : DAG.t) (ns : list string) (color : colors) : option bool :=
  match ns with
  | [] => Some false
  | n :: ns =>
      if color_of color n =? 0 then
        match dfsCycle (size (DAG.nodes d)) d n color with
        | None => None
        | Some (true, _) => Some true
        | Some (false, color) => HasCycle_loop d ns color
        end
      else HasCycle_loop d ns color
  end%Z.

Definition HasCycle (d : DAG.t) : option bool :=
  HasCycle_loop d (range InHasCycle (DAG.nodes d)) ∅.

(** The graph is changed, and rolled back, in place. *)
Definition AddEdge (d : DAG.t) (from to : string) : option (DAG.t * option DAG_error) :=
  if from == to then Some (d, Some ErrDAGCycle)
  else
    let d := AddNode (AddNode d from) to in
    let d := DAG.mk (DAG.nodes d) (<[from := {[to]} ∪ deps d from]> (DAG.edges d)) in
    match HasCycle d with
    | None => None
    | Some true =>
        Some (DAG.mk (DAG.nodes d) (<[from := deps d from ∖ {[to]}]> (DAG.edges d)), Some ErrDAGCycle)
    | Some false => Some (d, None)
    end.

Definition Nodes (d : DAG.t) : list string := sort_strings (range InNodes (DAG.nodes d)).

Definition Dependencies (d : DAG.t) (from : string) : list string :=
  sort_strings (range InDependencies (deps d from)).

(** [indeg] as the second loop computes it; the result of the first one is
    overwritten. *)
Definition topo_indeg (d : DAG.t) : gmap string Z :=
  foldl (fun m n => <[n := Z.of_nat (size (deps d n))]> m) ∅ (range InTopoNodes (DAG.nodes d)).

(** [rdeps[to] = append(rdeps[to], from)] for every edge. *)
Definition add_rdeps (d : DAG.t) (m : gmap string (list string)) (from : string)
  : gmap string (list string) :=
  foldl (fun m to => <[to := default [] (m !! to) ++ [from]]> m) m
    (range (InTopoDeps from) (deps d from)).

Definition topo_rdeps (d : DAG.t) : gmap string (list string) :=
  foldl (add_rdeps d) ∅ (range InTopoEdges (dom (DAG.edges d))).

Definition unlock (froms : list string) (st : gmap string Z * list string) :=
  foldl (fun st from =>
    let n := (get_deg st.1 from - 1)%Z in
    (<[from := n]> st.1, if n == 0%Z then st.2 ++ [from] else st.2)) st froms.

Fixpoint topo_loop (fuel : nat) (rdeps : gmap string (list string)) (indeg : gmap string Z)
    (ready out : list string) : option (list string) :=
  match sort_strings ready with
  | [] => Some out
  | n :: ready =>
      match fuel with
      | 0 => None
      | S fuel =>
          let (indeg, ready) := unlock (default [] (rdeps !! n)) (indeg, ready) in
          topo_loop fuel rdeps indeg ready (out ++ [n])
      end
  end.

Definition TopoSort (d : DAG.t) : option (result DAG_error (list string)) :=
  cyclic ← HasCycle d;
  if (cyclic : bool) then Some (Err ErrDAGCycle)
  else
    let indeg := topo_indeg d in
    let ready := List.filter (fun n => get_deg indeg n == 0%Z) (range InTopoReady (dom indeg)) in
    out ← topo_loop (size (DAG.nodes d)) (topo_rdeps d) indeg (sort_strings ready) [];
    Some (if length out != size (DAG.nodes d)
          then Err (ErrDAGIncomplete (length out) (size (DAG.nodes d))) else Ok out).

Definition ReadyNodes (d : DAG.t) (done : gset string) : list string :=
  sort_strings (List.filter (fun n =>
    negb (bool_decide (n ∈ done)) &&
    forallb (fun dep => bool_decide (dep ∈ done)) (range (InReadyDeps n) (deps d n)))
    (range InReadyNodes (DAG.nodes d))).

Definition Validate (d : DAG.t) : option (result DAG_error unit) :=
  if size (DAG.nodes d) == 0 then Some (Err ErrDAGEmpty)
  else match HasCycle d with
       | None => None
       | Some true => Some (Err ErrDAGCycle)
       | Some false => Some (Ok tt)
       end.
End operations.

(** ** Vocabulary *)

(** [needs d u v]: the edge from [u] to [v], "[u] waits for [v]". *)
Definition needs (d : DAG.t) (u v : string) : Prop := v ∈ deps d u.
Definition acyclic (d : DAG.t) : Prop := forall u, ~ tc (needs d) u u.

#[export] Instance needs_dec d u v : Decision (needs d u v).
Proof. unfold needs. apply _. Defined.

(** The edges start and end at nodes. *)
Definition wf (d : DAG.t) : Prop :=
  forall u v, needs d u v -> u ∈ DAG.nodes d /\ v ∈ DAG.nodes d.

Lemma color_insert c k k' v :
  color_of (<[k := v]> c) k' = if decide (k = k') then v else color_of c k'.
Proof.
  unfold color_of. case_decide as E; [subst; by rewrite lookup_insert_eq | by rewrite lookup_insert_ne].
Qed.

(** ** Depth-first search *)

Section search.
Context (range : place -> gset string -> list string).
Hypothesis range_perm : forall p s, range p s ≡ₚ elements s.

Lemma elem_of_range p s x : x ∈ range p s <-> x ∈ s.
Proof using range_perm. by rewrite range_perm, elem_of_elements. Qed.

(** The nodes not visited yet: the measure of the recursion. *)
Definition white (d : DAG.t) (c : colors) : gset string :=
  filter (fun x => color_of c x = 0%Z) (DAG.nodes d).

(** The state of the search between two steps: everything black is closed
    under the edges and on no cycle, everything grey leads to [u], and the
    colours are the three of the source. *)
Record search_inv (d : DAG.t) (u : string) (c : colors) : Prop := {
  inv_colors : forall x, color_of c x = 0%Z \/ color_of c x = 1%Z \/ color_of c x = 2%Z;
  inv_closed : forall x y, color_of c x = 2%Z -> needs d x y -> color_of c y = 2%Z;
  inv_black : forall x, color_of c x = 2%Z -> ~ tc (needs d) x x;
  inv_grey : forall x, color_of c x = 1%Z -> rtc (needs d) x u;
}.

(** What a finished part of the search leaves behind. *)
Definition extends (c c' : colors) : Prop :=
  (forall x, color_of c' x = 1%Z <-> color_of c x = 1%Z) /\
  (forall x, color_of c x = 2%Z -> color_of c' x = 2%Z).

Lemma extends_refl c : extends c c.
Proof. done. Qed.

Lemma extends_trans c1 c2 c3 : extends c1 c2 -> extends c2 c3 -> extends c1 c3.
Proof. intros [A B] [C D]. split; [intros x; by rewrite C, A | auto]. Qed.

Lemma extends_white d u c c' :
  search_inv d u c -> extends c c' -> white d c' ⊆ white d c.
Proof.
  intros Hinv [H1 H2] x. unfold white. rewrite !elem_of_filter. intros [H3 H4].
  split; [| done]. destruct (inv_colors _ _ _ Hinv x) as [| [H | H]]; [done | |].
  - apply H1 in H. lia.
  - apply H2 in H. lia.
Qed.

Lemma search_inv_extends d u c c' :
  search_inv d u c -> extends c c' ->
  (forall x, color_of c' x = 0%Z \/ color_of c' x = 1%Z \/ color_of c' x = 2%Z) ->
  (forall x y, color_of c' x = 2%Z -> needs d x y -> color_of c' y = 2%Z) ->
  (forall x, color_of c' x = 2%Z -> ~ tc (needs d) x x) -> search_inv d u c'.
Proof.
  intros Hinv [H1 _] A B C. split; [done..|]. intros x Hx. apply (inv_grey _ _ _ Hinv), H1, Hx.
Qed.

(** The specification of one call of the search from a white node. *)
Definition search_ok (d : DAG.t) (fuel : nat) (dfs : string -> colors -> option (bool * colors)) : Prop :=
  forall u c, u ∈ DAG.nodes d -> color_of c u = 0%Z -> search_inv d u c ->
    size (white d c) <= fuel ->
    exists b c', dfs u c = Some (b, c') /\
      if b : bool then exists x, tc (needs d) x x
      else extends c c' /\ search_inv d u c' /\ color_of c' u = 2%Z.

(** The loop over the successors [vs] of the grey node [u]. *)
Lemma dfs_children_ok d fuel dfs u vs c :
  wf d -> search_ok d fuel dfs -> (forall v, v ∈ vs -> needs d u v) ->
  color_of c u = 1%Z -> search_inv d u c -> size (white d c) <= fuel ->
  exists b c', dfs_children dfs vs c = Some (b, c') /\
    if b : bool then exists x, tc (needs d) x x
    else extends c c' /\ search_inv d u c' /\ forall v, v ∈ vs -> color_of c' v = 2%Z.
Proof.
  intros Hwf Hdfs. revert c. induction vs as [| v vs IH]; intros c Hvs Hu Hinv Hsz; simpl.
  { exists false, c. split_and!; [done.. | by intros v ?%elem_of_nil]. }
  assert (Huv : needs d u v) by (apply Hvs; left).
  assert (Hvs' : forall w, w ∈ vs -> needs d u w) by (intros w Hw; apply Hvs; by right).
  destruct (inv_colors _ _ _ Hinv v) as [Hv | [Hv | Hv]]; rewrite Hv; simpl.
  - destruct (Hdfs v c) as (b & c1 & -> & Hb); [by apply (Hwf u v) | done | | done |].
    { split; [apply Hinv.. |]. intros x Hx.
      eapply rtc_r; [by apply (inv_grey _ _ _ Hinv) | done]. }
    destruct b; [by exists true, c1 |]. destruct Hb as (He & Hi & Hv2).
    assert (Hinv1 : search_inv d u c1) by (eapply search_inv_extends; [exact Hinv | done | apply Hi..]).
    destruct (IH c1) as (b & c2 & -> & Hb); [done | by apply He | done | |].
    { etransitivity; [apply subseteq_size, (extends_white d u c c1 Hinv He) | done]. }
    exists b, c2. split; [done |]. destruct b; [done |]. destruct Hb as (He2 & Hi2 & Hall).
    split_and!; [by eapply extends_trans | done |].
    intros w [-> | Hw]%elem_of_cons; [by apply He2 | by apply Hall].
  - exists true, c. split; [done |]. exists u.
    pose proof (inv_grey _ _ _ Hinv v Hv) as Hr. clear - Huv Hr.
    apply rtc_tc in Hr as [<- | Hr]; [by apply tc_once | by eapply tc_l].
  - destruct (IH c) as (b & c2 & -> & Hb); [done..|]. exists b, c2. split; [done |].
    destruct b; [done |]. destruct Hb as (He2 & Hi2 & Hall). split_and!; [done..|].
    intros w [-> | Hw]%elem_of_cons; [by apply He2 | by apply Hall].
Qed.

Lemma closed_tc d u c x y :
  search_inv d u c -> color_of c x = 2%Z -> tc (needs d) x y -> color_of c y = 2%Z.
Proof.
  intros Hinv Hx H. induction H as [x y H | x y z H _ IH]; [by eapply inv_closed |].
  apply IH. by eapply inv_closed.
Qed.

(** Colouring the start grey, and the finished start black. *)
Lemma search_inv_grey d u c :
  color_of c u = 0%Z -> search_inv d u c -> search_inv d u (<[u := 1%Z]> c).
Proof.
  intros Hu [H1 H2 H3 H4]. split; intros x; rewrite ?color_insert.
  - case_decide; [auto | apply H1].
  - intros y. rewrite color_insert. case_decide; [done |]. intros Hx Hxy.
    specialize (H2 x y Hx Hxy). case_decide; [subst; congruence | done].
  - case_decide; [done | apply H3].
  - case_decide; [subst; done | apply H4].
Qed.

Lemma search_inv_black d u c :
  color_of c u = 1%Z -> (forall v, needs d u v -> color_of c v = 2%Z) ->
  search_inv d u c -> search_inv d u (<[u := 2%Z]> c).
Proof.
  intros Hu Hall Hinv. pose proof Hinv as [H1 H2 H3 H4]. split; intros x; rewrite ?color_insert.
  - case_decide; [auto | apply H1].
  - intros y. rewrite color_insert. intros Hx Hxy.
    destruct (decide (u = y)) as [| Huy]; [done |].
    destruct (decide (u = x)) as [<- |]; [by apply Hall | by eapply H2].
  - case_decide as Hux; [subst x | apply H3]. intros _ Hc.
    assert (color_of c u = 2%Z); [| congruence].
    inversion Hc as [? ? Huv | ? v ? Huv Hvu]; subst; [by apply Hall |].
    eapply (closed_tc d u c v); [done | by apply Hall | done].
  - case_decide; [done | apply H4].
Qed.

Lemma white_grey d c u :
  u ∈ DAG.nodes d -> color_of c u = 0%Z -> size (white d (<[u := 1%Z]> c)) < size (white d c).
Proof.
  intros Hn Hu. apply subset_size. split.
  - intros x. unfold white. rewrite !elem_of_filter, color_insert. case_decide; [by intros [? ?] | done].
  - intros H. specialize (H u). unfold white in H.
    rewrite !elem_of_filter, color_insert, decide_True in H by done. destruct H; done.
Qed.

Lemma dfsCycle_ok d fuel : wf d -> search_ok d fuel (dfsCycle range fuel d).
Proof using range_perm.
  intros Hwf. induction fuel as [| fuel IH]; intros u c Hn Hu Hinv Hsz.
  { pose proof (white_grey d c u Hn Hu). lia. }
  pose proof (white_grey d c u Hn Hu) as Hlt. simpl.
  destruct (dfs_children_ok d fuel (dfsCycle range fuel d) u (range (InDfs u) (deps d u))
    (<[u := 1%Z]> c)) as (b & c2 & -> & Hb).
  { done. } { done. } { intros v. by rewrite elem_of_range. }
  { by rewrite color_insert, decide_True. } { by apply search_inv_grey. } { lia. }
  destruct b; [by exists true, c2 |]. destruct Hb as ([He1 He2] & Hinv2 & Hall).
  exists false, (<[u := 2%Z]> c2). split; [done |].
  assert (Hu2 : color_of c2 u = 1%Z) by (by rewrite He1, color_insert, decide_True).
  split_and!.
  - split; intros x; rewrite color_insert.
    + destruct (decide (u = x)) as [<- | Hux]; [by rewrite Hu |].
      by rewrite He1, color_insert, decide_False.
    + intros Hx. destruct (decide (u = x)) as [| Hux]; [done |].
      apply He2. by rewrite color_insert, decide_False.
  - apply search_inv_black; [done | | done]. intros v Hv. apply Hall. by rewrite elem_of_range.
  - by rewrite color_insert, decide_True.
Qed.

(** Between two searches nothing is grey. *)
Definition idle_inv (d : DAG.t) (c : colors) : Prop :=
  (forall u, search_inv d u c) /\ forall x, color_of c x <> 1%Z.

Lemma HasCycle_loop_ok d ns c :
  wf d -> (forall n, n ∈ ns -> n ∈ DAG.nodes d) -> idle_inv d c ->
  exists b, HasCycle_loop range d ns c = Some b /\
    if b : bool then exists x, tc (needs d) x x
    else exists c', idle_inv d c' /\ (forall x, color_of c x = 2%Z -> color_of c' x = 2%Z) /\
      forall n, n ∈ ns -> color_of c' n = 2%Z.
Proof using range_perm.
  intros Hwf. revert c. induction ns as [| n ns IH]; intros c Hns [Hinv Hg]; simpl.
  { exists false. split; [done |]. exists c. split_and!; [done | done | by intros n ?%elem_of_nil]. }
  assert (Hns' : forall m, m ∈ ns -> m ∈ DAG.nodes d) by (intros m Hm; apply Hns; by right).
  case (Z.eqb_spec (color_of c n) 0) as [Hn | Hn].
  - destruct (dfsCycle_ok d (size (DAG.nodes d)) Hwf n c) as (b & c1 & -> & Hb);
      [apply Hns; left | done | apply Hinv | apply subseteq_size; unfold white; set_solver |].
    destruct b; [by exists true |]. destruct Hb as (He & Hi & Hn2).
    assert (Hg1 : forall x, color_of c1 x <> 1%Z) by (intros x; rewrite (proj1 He); apply Hg).
    destruct (IH c1 Hns') as (b & -> & Hb).
    { split; [| done]. intros u. split; [apply Hi.. |]. intros x Hx. by destruct (Hg1 x). }
    exists b. split; [done |]. destruct b; [done |]. destruct Hb as (c' & Hc' & Hm & Hall).
    exists c'. split_and!; [done | intros x Hx; apply Hm, He, Hx |].
    intros m [-> | Hm']%elem_of_cons; auto.
  - destruct (IH c Hns') as (b & -> & Hb); [done |]. exists b. split; [done |].
    destruct b; [done |]. destruct Hb as (c' & Hc' & Hm & Hall). exists c'. split_and!; [done..|].
    intros m [-> | Hm']%elem_of_cons; [| auto]. apply Hm.
    destruct (inv_colors _ _ _ (Hinv n) n) as [| [|]]; [done | by destruct (Hg n) | done].
Qed.

Lemma HasCycle_ok d :
  wf d -> exists b, HasCycle range d = Some b /\ (b = true <-> exists x, tc (needs d) x x).
Proof using range_perm.
  intros Hwf. destruct (HasCycle_loop_ok d (range InHasCycle (DAG.nodes d)) ∅ Hwf) as (b & Hb & H).
  { intros n. by rewrite elem_of_range. }
  { split; [intros u; split |]; intros x; unfold color_of; rewrite lookup_empty; simpl; auto; lia. }
  exists b. split; [done |]. destruct b; [done |].
  destruct H as (c & [Hc _] & _ & Hall). split; [done |]. intros (x & Hx). exfalso.
  assert (Hxn : x ∈ DAG.nodes d) by (inversion Hx as [? ? Hn | ? ? ? Hn]; subst; apply (Hwf _ _ Hn)).
  by apply (inv_black _ _ _ (Hc x) x); [apply Hall; rewrite elem_of_range |].
Qed.

Lemma HasCycle_acyclic d : wf d -> acyclic d -> HasCycle range d = Some false.
Proof using range_perm.
  intros Hwf Ha. destruct (HasCycle_ok d Hwf) as ([] & -> & H); [| done].
  destruct (proj1 H eq_refl) as [x Hx]. by destruct (Ha x).
Qed.
End search.

(** ** Building the graph *)

Lemma deps_AddNode d id u : deps (AddNode d id) u = deps d u.
Proof.
  unfold deps, AddNode. simpl. destruct (DAG.edges d !! id) eqn:E; [done |].
  destruct (decide (id = u)) as [<- | Hu]; [by rewrite lookup_insert_eq, E | by rewrite lookup_insert_ne].
Qed.

Lemma deps_insert ns d u s v :
  deps (DAG.mk ns (<[u := s]> (DAG.edges d))) v = if decide (u = v) then s else deps d v.
Proof.
  unfold deps. simpl. case_decide as E; [subst; by rewrite lookup_insert_eq | by rewrite lookup_insert_ne].
Qed.

Lemma wf_NewDAG : wf NewDAG.
Proof. intros u v. unfold needs, deps. simpl. rewrite lookup_empty. simpl. set_solver. Qed.

Lemma wf_AddNode d id : wf d -> wf (AddNode d id).
Proof.
  intros H u v. unfold needs. rewrite deps_AddNode. intros Huv. destruct (H u v Huv).
  simpl. set_solver.
Qed.

(** The graph [AddEdge] tries, and the one it rolls back to. *)
Lemma needs_tried d from to :
  let d1 := AddNode (AddNode d from) to in
  let d2 := DAG.mk (DAG.nodes d1) (<[from := {[to]} ∪ deps d1 from]> (DAG.edges d1)) in
  forall u v, needs d2 u v <-> needs d u v \/ u = from /\ v = to.
Proof.
  intros d1 d2 u v. unfold needs, d2. rewrite deps_insert. unfold d1. rewrite !deps_AddNode. case_decide; set_solver.
Qed.

Lemma wf_same d d' :
  (forall u v, needs d' u v <-> needs d u v) -> DAG.nodes d ⊆ DAG.nodes d' -> wf d -> wf d'.
Proof. intros H1 H2 H u v Huv. apply H1, H in Huv. set_solver. Qed.

Lemma tc_same (R R' : string -> string -> Prop) x y :
  (forall u v, R u v <-> R' u v) -> tc R x y -> tc R' x y.
Proof.
  intros H. induction 1 as [x y Hxy | x y z Hxy _ IH]; [by apply tc_once, H |].
  eapply tc_l; [by apply H | done].
Qed.

Lemma rtc_weaken (R R' : string -> string -> Prop) x y :
  (forall u v, R u v -> R' u v) -> rtc R x y -> rtc R' x y.
Proof.
  intros H. induction 1 as [| x y z Hxy _ IH]; [done |]. eapply rtc_l; [by apply H | done].
Qed.

Lemma acyclic_same d d' :
  (forall u v, needs d' u v <-> needs d u v) -> acyclic d -> acyclic d'.
Proof. intros H Ha u Hu. by eapply (Ha u), tc_same. Qed.

Section building.
Context (range : place -> gset string -> list string).
Hypothesis range_perm : forall p s, range p s ≡ₚ elements s.

Lemma AddEdge_cases d from to :
  wf d -> acyclic d ->
  exists d' e, AddEdge range d from to = Some (d', e) /\
    ((e = None /\ ~ rtc (needs d) to from /\ DAG.nodes d' = {[from; to]} ∪ DAG.nodes d /\
      forall u v, needs d' u v <-> needs d u v \/ u = from /\ v = to) \/
     (e = Some ErrDAGCycle /\ rtc (needs d) to from /\ DAG.nodes d ⊆ DAG.nodes d' /\
      forall u v, needs d' u v <-> needs d u v)).
Proof using range_perm.
  intros Hwf Ha. unfold AddEdge. case_bool_decide as Eft.
  { subst to. exists d, (Some ErrDAGCycle). split; [done |]. right. done. }
  cbv zeta. pose proof (needs_tried d from to) as Hn. cbv zeta in Hn. revert Hn.
  set (d1 := AddNode (AddNode d from) to).
  set (d2 := DAG.mk (DAG.nodes d1) (<[from := {[to]} ∪ deps d1 from]> (DAG.edges d1))). intros Hn.
  assert (Hnodes : DAG.nodes d2 = {[from; to]} ∪ DAG.nodes d) by (unfold d2, d1; simpl; set_solver).
  assert (Hwf2 : wf d2).
  { intros u v [Huv | [-> ->]]%Hn; rewrite Hnodes; [| set_solver]. apply Hwf in Huv. set_solver. }
  destruct (HasCycle_ok range range_perm d2 Hwf2) as (b & -> & Hb). destruct b.
  - eexists _, _. split; [done |]. right. destruct (proj1 Hb eq_refl) as [x Hx].
    assert (Hr : rtc (needs d) to from).
    { eapply tc_same in Hx; [| exact Hn]. apply tc_add_edge in Hx as [Hx | [H1 H2]].
      - by apply Ha in Hx.
      - by etransitivity. }
    split_and!; [done | done | simpl; unfold d1; simpl; set_solver |].
    assert (Hno : ~ needs d from to).
    { intros H. apply rtc_tc in Hr as [-> | Hr]; [done |]. apply (Ha from). by eapply tc_l. }
    intros u v. unfold needs. rewrite deps_insert.
    case_decide as Eu; [subst u |].
    + rewrite elem_of_difference, elem_of_singleton. fold (needs d2 from v). rewrite Hn.
      split; [tauto |]. intros H. split; [by left |]. by intros ->.
    + fold (needs d2 u v). rewrite Hn. split; [by intros [| [-> _]] | by left].
  - eexists _, _. split; [done |]. left. split_and!; [done | | done | done].
    intros Hr. destruct Hb as [_ Hb]. enough (false = true) by done. apply Hb. exists from.
    assert (Hr' : rtc (needs d2) to from).
    { eapply rtc_weaken; [| exact Hr]. intros u v Huv. apply Hn. by left. }
    apply rtc_tc in Hr' as [-> | Hr']; [done |]. eapply tc_l; [apply Hn; by right | done].
Qed.
End building.

(** ** Topological sorting *)

Section sorting.
Context (range : place -> gset string -> list string).
Hypothesis range_perm : forall p s, range p s ≡ₚ elements s.
Context (d : DAG.t).

Lemma range_NoDup p s : NoDup (range p s).
Proof using range_perm. rewrite range_perm. apply NoDup_elements. Qed.

Lemma topo_indeg_lookup k :
  topo_indeg range d !! k =
    if decide (k ∈ DAG.nodes d) then Some (Z.of_nat (size (deps d k))) else None.
Proof using range_perm.
  unfold topo_indeg.
  assert (H : forall l (m : gmap string Z),
    foldl (fun m n => <[n := Z.of_nat (size (deps d n))]> m) m l !! k =
      if decide (k ∈ l) then Some (Z.of_nat (size (deps d k))) else m !! k).
  { induction l as [| x l IH]; intros m; [done |]. simpl foldl.
    rewrite IH. destruct (decide (k ∈ l)); [by rewrite decide_True by (by right) |].
    destruct (decide (x = k)) as [-> |].
    - rewrite lookup_insert_eq, decide_True by left. done.
    - rewrite lookup_insert_ne, decide_False by (done || by rewrite not_elem_of_cons). done. }
  rewrite H, lookup_empty. case_decide as E; rewrite (elem_of_range range range_perm) in E;
    by case_decide.
Qed.

Lemma add_rdeps_lookup (m : gmap string (list string)) from k :
  default [] (add_rdeps range d m from !! k) =
    default [] (m !! k) ++ (if decide (k ∈ deps d from) then [from] else []).
Proof using range_perm.
  unfold add_rdeps.
  assert (H : forall l (m : gmap string (list string)), NoDup l ->
    default [] (foldl (fun m to => <[to := default [] (m !! to) ++ [from]]> m) m l !! k) =
      default [] (m !! k) ++ (if decide (k ∈ l) then [from] else [])).
  { clear m. induction l as [| x l IH]; intros m Hnd.
    { simpl. by rewrite app_nil_r. }
    simpl foldl.
    apply NoDup_cons in Hnd as [Hx Hnd]. rewrite IH by done.
    destruct (decide (x = k)) as [-> |].
    - rewrite lookup_insert_eq, decide_False, decide_True by (done || left). simpl. by rewrite app_nil_r.
    - rewrite lookup_insert_ne by done. f_equal.
      destruct (decide (k ∈ l)), (decide (k ∈ x :: l)) as [E | E]; try done; [by destruct E; right |].
      by apply elem_of_cons in E as [-> |]. }
  rewrite H by apply range_NoDup. f_equal.
  destruct (decide (k ∈ range _ _)) as [E | E]; rewrite (elem_of_range range range_perm) in E;
    by case_decide.
Qed.

Lemma topo_rdeps_lookup k :
  default [] (topo_rdeps range d !! k) =
    List.filter (fun from => bool_decide (k ∈ deps d from)) (range InTopoEdges (dom (DAG.edges d))).
Proof using range_perm.
  unfold topo_rdeps.
  assert (H : forall l m, default [] (foldl (add_rdeps range d) m l !! k) =
    default [] (m !! k) ++ List.filter (fun from => bool_decide (k ∈ deps d from)) l).
  { induction l as [| x l IH]; intros m; simpl; [by rewrite app_nil_r |].
    rewrite IH, add_rdeps_lookup, <- app_assoc. f_equal.
    case_decide; case_bool_decide; done. }
  by rewrite H, lookup_empty.
Qed.

(** What finishing [k] unlocks. *)
Definition waiters (k : string) : list string := default [] (topo_rdeps range d !! k).

Lemma elem_of_waiters k x : x ∈ waiters k <-> needs d x k.
Proof using range_perm.
  unfold waiters. rewrite topo_rdeps_lookup, list_elem_of_In, filter_In, <- list_elem_of_In.
  rewrite (elem_of_range range range_perm), bool_decide_eq_true. unfold needs.
  split; [by intros [_ ?] |]. intros H. split; [| done]. apply elem_of_dom.
  unfold deps in H. destruct (DAG.edges d !! x); [done | set_solver].
Qed.

Lemma NoDup_waiters k : NoDup (waiters k).
Proof using range_perm. unfold waiters. rewrite topo_rdeps_lookup. apply NoDup_ListNoDup, List.NoDup_filter, NoDup_ListNoDup, range_NoDup. Qed.
End sorting.

Lemma get_deg_insert m k k' v :
  get_deg (<[k := v]> m) k' = if decide (k = k') then v else get_deg m k'.
Proof.
  unfold get_deg. case_decide as E; [subst; by rewrite lookup_insert_eq | by rewrite lookup_insert_ne].
Qed.

Lemma unlock_spec fs indeg ready :
  NoDup fs ->
  let st := unlock fs (indeg, ready) in
  (forall k, get_deg st.1 k = get_deg indeg k - (if decide (k ∈ fs) then 1 else 0))%Z /\
  st.2 = ready ++ List.filter (fun f => get_deg indeg f =? 1)%Z fs.
Proof.
  unfold unlock. cbv zeta. revert indeg ready.
  induction fs as [| f fs IH]; intros indeg ready Hnd.
  { simpl. split; [intros k; lia | by rewrite app_nil_r]. }
  simpl foldl. cbn [List.filter].
  apply NoDup_cons in Hnd as [Hf Hnd].
  destruct (IH (<[f := (get_deg indeg f - 1)%Z]> indeg)
    (if get_deg indeg f - 1 == 0 then ready ++ [f] else ready)%Z Hnd) as [H1 H2]. split.
  - intros k. rewrite H1, get_deg_insert. destruct (decide (f = k)) as [-> |].
    + rewrite (decide_True (P := k ∈ k :: fs)), decide_False by (done || left). lia.
    + destruct (decide (k ∈ fs)), (decide (k ∈ f :: fs)) as [E | E]; try lia; [by destruct E; right |].
      apply elem_of_cons in E as [-> |]; done.
  - rewrite H2. assert (E : List.filter (fun x => get_deg (<[f := (get_deg indeg f - 1)%Z]> indeg) x =? 1)%Z fs =
      List.filter (fun x => get_deg indeg x =? 1)%Z fs).
    { apply filter_ext_in. intros x Hx%list_elem_of_In. rewrite get_deg_insert.
      destruct (decide (f = x)) as [-> |]; done. }
    rewrite E. case_bool_decide; destruct (Z.eqb_spec (get_deg indeg f) 1); try lia; [| done].
    by rewrite <- app_assoc.
Qed.

(** The invariant of the loop of [TopoSort]: the nodes put out or ready are
    those whose dependencies are out, and every node that is out was the least
    one that could come next. *)
Definition free (d : DAG.t) (out : list string) (n : string) : Prop :=
  n ∈ DAG.nodes d /\ forall v, needs d n v -> v ∈ out.

Definition least_next (d : DAG.t) (out : list string) (n : string) : Prop :=
  (n ∉ out) /\ free d out n /\ forall m, m ∉ out -> free d out m -> str_lt m n = false.

Definition waiting (d : DAG.t) (out : list string) (n : string) : Z :=
  Z.of_nat (size (deps d n ∖ list_to_set out)).

Record topo_inv (d : DAG.t) (indeg : gmap string Z) (ready out : list string) : Prop := {
  topo_nodup : NoDup (out ++ ready);
  topo_deg : forall k, k ∈ DAG.nodes d -> get_deg indeg k = waiting d out k;
  topo_free : forall k, k ∈ out ++ ready <-> free d out k;
  topo_greedy : forall l n r, out = l ++ n :: r -> least_next d l n;
}.

Lemma waiting_zero d out n : waiting d out n = 0%Z <-> forall v, needs d n v -> v ∈ out.
Proof.
  unfold waiting, needs. assert (E : size (deps d n ∖ list_to_set out) = 0 <-> deps d n ⊆ list_to_set out).
  { rewrite size_empty_iff. split; [| set_solver]. intros H x Hx.
    destruct (decide (x ∈ (list_to_set out : gset string))); [done | set_solver]. }
  split.
  - intros H v Hv. assert (Hs : v ∈ (list_to_set out : gset string)) by (apply E; [lia | done]).
    by apply elem_of_list_to_set in Hs.
  - intros H. assert (size (deps d n ∖ list_to_set out) = 0); [| lia].
    apply E. intros v Hv. apply elem_of_list_to_set. auto.
Qed.

Lemma waiting_snoc d out n k :
  n ∉ out -> waiting d (out ++ [n]) k = (waiting d out k - if decide (needs d k n) then 1 else 0)%Z.
Proof.
  intros Hn. unfold waiting, needs. rewrite list_to_set_app_L. simpl list_to_set.
  rewrite union_empty_r_L, <- difference_difference_l_L. case_decide as Hd.
  - rewrite size_difference by (intros x; rewrite elem_of_singleton; intros ->; set_solver).
    rewrite size_singleton. assert (size (deps d k ∖ list_to_set out) <> 0); [| lia].
    apply size_non_empty_iff. set_solver.
  - rewrite Z.sub_0_r. do 2 f_equal. set_solver.
Qed.

Lemma free_mono d out out' n : (forall x, x ∈ out -> x ∈ out') -> free d out n -> free d out' n.
Proof. intros H [H1 H2]. split; auto. Qed.

Section sorting_loop.
Context (range : place -> gset string -> list string).
Hypothesis range_perm : forall p s, range p s ≡ₚ elements s.
Context (d : DAG.t) (Hwf : wf d).

(** The nodes that [n] unlocks are those that only it held back. *)
Lemma elem_of_unlocked indeg ready out n k :
  topo_inv d indeg ready out -> n ∉ out ->
  k ∈ List.filter (fun f => get_deg indeg f =? 1)%Z (waiters range d n) <->
    free d (out ++ [n]) k /\ ~ free d out k.
Proof using range_perm Hwf.
  intros Hinv Hn. rewrite list_elem_of_In, filter_In, <- list_elem_of_In, Z.eqb_eq.
  rewrite (elem_of_waiters range range_perm). unfold free. rewrite <- !waiting_zero, waiting_snoc by done.
  split.
  - intros [Hk E]. assert (Hkn : k ∈ DAG.nodes d) by by apply (Hwf k n).
    rewrite (topo_deg _ _ _ _ Hinv) in E by done. rewrite decide_True by done.
    split; [split; [done | lia] | intros [_ ?]; lia].
  - intros [[Hkn Hz] Hnf]. case_decide as E.
    + split; [done |]. rewrite (topo_deg _ _ _ _ Hinv) by done. lia.
    + destruct Hnf. split; [done | lia].
Qed.

(** One turn: the least ready node goes out, and unlocks its waiters. *)
Lemma topo_inv_step indeg ready out n rest :
  topo_inv d indeg ready out -> sort_strings ready = n :: rest ->
  let st := unlock (waiters range d n) (indeg, rest) in
  topo_inv d st.1 st.2 (out ++ [n]).
Proof using range_perm Hwf.
  intros Hinv Hs st.
  destruct (unlock_spec (waiters range d n) indeg rest) as [H1 H2]; [by apply NoDup_waiters |].
  fold st in H1, H2. pose proof Hinv as [Hnd Hdeg Hfree Hgreedy].
  assert (Hp : ready ≡ₚ n :: rest) by (rewrite <- Hs; symmetry; apply stable_sort_perm).
  assert (Hno : n ∉ out).
  { intros Hn. rewrite Hp in Hnd. apply NoDup_app in Hnd as (_ & Hd & _). apply (Hd n Hn). left. }
  assert (Hn : free d out n) by (apply Hfree; rewrite Hp; apply elem_of_app; right; left).
  pose proof (fun k => elem_of_unlocked indeg ready out n k Hinv Hno) as Hnew.
  rewrite H2.
  assert (Hperm : forall l, (out ++ [n]) ++ rest ++ l ≡ₚ (out ++ ready) ++ l).
  { intros l. by rewrite Hp, <- !app_assoc. }
  split.
  - rewrite Hperm. apply NoDup_app. split_and!; [done | |].
    + intros k Hk Hk'. apply Hnew in Hk' as [_ Hk']. by apply Hk', Hfree.
    + apply NoDup_ListNoDup, List.NoDup_filter, NoDup_ListNoDup, NoDup_waiters, range_perm.
  - intros k Hk. rewrite H1, Hdeg, waiting_snoc by done. f_equal.
    destruct (decide (k ∈ waiters range d n)) as [E | E];
      rewrite (elem_of_waiters range range_perm) in E; by case_decide.
  - intros k. rewrite Hperm, elem_of_app, Hfree, Hnew. split.
    + intros [Hk | [Hk _]]; [| done]. revert Hk. apply free_mono. intros x Hx. apply elem_of_app. by left.
    + intros Hk. destruct (decide (k ∈ out ++ ready)) as [E | E]; rewrite Hfree in E; auto.
  - intros l m r E. destruct (decide (r = [])) as [-> | Hr].
    + apply app_inj_tail in E as [<- <-]. split_and!; [done | done |].
      intros k Hk Hf. apply Hfree, elem_of_app in Hf as [? | Hf]; [done |].
      pose proof (sort_strings_sorted ready) as Hsort. rewrite Hs in Hsort.
      rewrite Hp in Hf. apply elem_of_cons in Hf as [-> | Hf]; [apply str_lt_irrefl |].
      inversion_clear Hsort as [| ? ? _ Hall]. by eapply Forall_forall in Hall.
    + destruct (exists_last Hr) as (r' & z & ->).
      rewrite app_comm_cons, app_assoc in E. apply app_inj_tail in E as [E _].
      by apply (Hgreedy l m r').
Qed.

Lemma topo_loop_run fuel indeg ready out :
  topo_inv d indeg ready out -> size (DAG.nodes d) <= length out + fuel ->
  exists out' indeg', topo_loop fuel (topo_rdeps range d) indeg ready out = Some out' /\
    topo_inv d indeg' [] out'.
Proof using range_perm Hwf.
  revert indeg ready out. induction fuel as [| fuel IH]; intros indeg ready out Hinv Hf; simpl.
  all: destruct (sort_strings ready) as [| n rest] eqn:Hs.
  1, 3: exists out, indeg; split; [done |]; replace ready with (@nil string) in Hinv; [done |].
  1, 2: symmetry; apply Permutation_nil_r; rewrite <- Hs; symmetry; apply stable_sort_perm.
  - assert (Hp : ready ≡ₚ n :: rest) by (rewrite <- Hs; symmetry; apply stable_sort_perm).
    assert (Hle : length (out ++ ready) <= size (DAG.nodes d)).
    { rewrite <- (size_list_to_set (C := gset string)) by apply Hinv. apply subseteq_size.
      intros x Hx%elem_of_list_to_set. by apply (topo_free _ _ _ _ Hinv) in Hx as [? _]. }
    rewrite Hp, length_app in Hle. simpl in Hle. lia.
  - pose proof (topo_inv_step _ _ _ _ _ Hinv Hs) as Hstep. cbv zeta in Hstep. unfold waiters in Hstep.
    destruct (unlock _ (indeg, rest)) as [indeg' ready']. simpl in Hstep.
    apply (IH _ _ _ Hstep). rewrite length_app. simpl. lia.
Qed.

(** The loop starts with the nodes that wait for nothing. *)
Lemma topo_inv_init :
  topo_inv d (topo_indeg range d)
    (sort_strings (List.filter (fun n => get_deg (topo_indeg range d) n == 0%Z)
      (range InTopoReady (dom (topo_indeg range d))))) [].
Proof using range_perm Hwf.
  assert (Hdeg : forall k, k ∈ DAG.nodes d -> get_deg (topo_indeg range d) k = waiting d [] k).
  { intros k Hk. unfold get_deg, waiting.
    rewrite (topo_indeg_lookup range range_perm), decide_True by done. simpl.
    by rewrite difference_empty_L. }
  split; simpl; [| done | | by intros [] ? ?].
  - unfold sort_strings. rewrite stable_sort_perm.
    apply NoDup_ListNoDup, List.NoDup_filter, NoDup_ListNoDup, range_NoDup, range_perm.
  - intros k. unfold sort_strings.
    rewrite elem_of_stable_sort, list_elem_of_In, filter_In, <- list_elem_of_In, bool_decide_eq_true.
    rewrite (elem_of_range range range_perm), elem_of_dom, (topo_indeg_lookup range range_perm).
    unfold free. rewrite <- waiting_zero. case_decide as E.
    + rewrite Hdeg by done. split; [tauto | intros [_ ?]; split; [by eexists | done]].
    + split; [intros [[? ?] _]; done | intros [? _]; done].
Qed.
End sorting_loop.

Lemma TopoSort_acyclic range d :
  (forall p s, range p s ≡ₚ elements s) -> wf d -> acyclic d ->
  exists l, TopoSort range d = Some (Ok l) /\ l ≡ₚ elements (DAG.nodes d) /\
    forall l1 n l2, l = l1 ++ n :: l2 -> least_next d l1 n.
Proof.
  intros Hr Hwf Ha. unfold TopoSort. rewrite HasCycle_acyclic by done. simpl.
  destruct (topo_loop_run range Hr d Hwf (size (DAG.nodes d)) _ _ _
    (topo_inv_init range Hr d Hwf) ltac:(simpl; lia)) as (out & indeg & -> & Hinv).
  destruct Hinv as [Hnd Hdeg Hfree Hgreedy]. rewrite app_nil_r in Hnd.
  assert (Hall : forall k, k ∈ DAG.nodes d -> k ∈ out).
  { intros k Hk. destruct (decide (k ∈ out)) as [| Hko]; [done |]. exfalso.
    set (s := DAG.nodes d ∖ list_to_set out).
    assert (Hks : k ∈ s) by (unfold s; rewrite elem_of_difference, elem_of_list_to_set; done).
    destruct (predecessor_cycle (flip (needs d)) s (size s) k []) as [y Hy]; [| done | | | simpl; lia |].
    - intros x [Hx Hxo]%elem_of_difference. rewrite elem_of_list_to_set in Hxo.
      destruct (decide (Forall (fun v => v ∈ out) (elements (deps d x)))) as [HF | HF].
      + destruct Hxo. rewrite <- (app_nil_r out). apply Hfree. split; [done |].
        intros v Hv. eapply Forall_forall in HF; [exact HF |]. by apply elem_of_elements.
      + apply not_Forall_Exists in HF; [| apply _]. apply Exists_exists in HF as (v & Hv & Hvo).
        apply elem_of_elements in Hv. exists v. split; [| exact Hv].
        unfold s. rewrite elem_of_difference, elem_of_list_to_set. split; [by apply (Hwf x v) | done].
    - intros y ->%list_elem_of_singleton. auto.
    - apply NoDup_singleton.
    - apply (Ha y). by apply tc_flip_tc. }
  assert (Hp : out ≡ₚ elements (DAG.nodes d)).
  { apply NoDup_Permutation; [done | apply NoDup_elements |]. intros k. rewrite elem_of_elements.
    split; [| apply Hall]. intros Hk. apply Hfree. by rewrite app_nil_r. }
  exists out. split; [| done]. simpl. rewrite bool_decide_true; [done |].
  by rewrite (Permutation_length Hp).
Qed.

(** An order in which every node is the least that can come next is unique. *)
Lemma least_next_unique d l k :
  (forall l1 n l2, l = l1 ++ n :: l2 -> least_next d l1 n) ->
  (forall l1 n l2, k = l1 ++ n :: l2 -> least_next d l1 n) -> length l = length k -> l = k.
Proof.
  intros Hl Hk Hlen. apply list_eq_same_length with (n := length k); [done..|].
  intros i x y Hi Hx Hy. revert x y Hx Hy. induction i as [i IH] using lt_wf_ind. intros x y Hx Hy.
  assert (E : take i l = take i k).
  { apply list_eq_same_length with (n := i); [rewrite length_take; lia.. |].
    intros j a b Hj. rewrite !lookup_take_lt by done. intros Ha Hb. apply (IH j Hj); [lia | done | done]. }
  apply take_drop_middle in Hx, Hy.
  destruct (Hl _ _ _ (eq_sym Hx)) as (Hx1 & Hx2 & Hx3), (Hk _ _ _ (eq_sym Hy)) as (Hy1 & Hy2 & Hy3).
  rewrite E in *. apply str_lt_total; auto.
Qed.

(** Both premises of the theorems are decided by computation. *)
Lemma wf_by_check d :
  bool_decide (map_Forall (fun u s => u ∈ DAG.nodes d /\ s ⊆ DAG.nodes d) (DAG.edges d)) = true -> wf d.
Proof.
  intros H%bool_decide_eq_true u v. unfold needs, deps.
  destruct (DAG.edges d !! u) as [s |] eqn:E; simpl; [| set_solver].
  destruct (H u s E). set_solver.
Qed.

Lemma acyclic_by_check d :
  wf d -> HasCycle (fun _ s => elements s) d = Some false -> acyclic d.
Proof.
  intros Hwf H x Hx. destruct (HasCycle_ok (fun _ s => elements s) (fun _ _ => reflexivity _) d Hwf)
    as (b & Hb & Hiff). rewrite H in Hb. injection Hb as <-. enough (false = true) by done.
  apply Hiff. eauto.
Qed.

(** [ReadyNodes] answers with the free nodes that are not done. *)
Lemma ReadyNodes_spec range d done n :
  (forall p s, range p s ≡ₚ elements s) ->
  n ∈ ReadyNodes range d done <-> (n ∉ done) /\ free d (elements done) n.
Proof.
  intros Hr. unfold ReadyNodes, sort_strings, free, needs.
  rewrite elem_of_stable_sort, list_elem_of_In, filter_In, <- list_elem_of_In.
  rewrite (elem_of_range range Hr), andb_true_iff, negb_true_iff, bool_decide_eq_false, forallb_elem.
  setoid_rewrite bool_decide_eq_true. setoid_rewrite (elem_of_range range Hr).
  setoid_rewrite elem_of_elements. tauto.
Qed.

(** ** Properties *)

(** [AddEdge] on an acyclic graph always answers; it refuses an edge exactly
    when the edge would close a cycle (its end already waits, directly or not, for
    its start), a refused edge leaves the relation as it was, an accepted one adds
    exactly that edge, and the graph stays acyclic either way. *)
Theorem add_edge_keeps_acyclic range d from to :
  (forall p s, range p s ≡ₚ elements s) -> wf d -> acyclic d ->
  exists d' e, AddEdge range d from to = Some (d', e) /\ wf d' /\ acyclic d' /\
    ((e = None /\ ~ rtc (needs d) to from /\
        forall u v, needs d' u v <-> needs d u v \/ u = from /\ v = to) \/
     (e = Some ErrDAGCycle /\ rtc (needs d) to from /\ forall u v, needs d' u v <-> needs d u v)).
Proof.
  intros Hr Hwf Ha. destruct (AddEdge_cases range Hr d from to Hwf Ha)
    as (d' & e & E & [(-> & Hn & Hnodes & Hd) | (-> & Hn & Hnodes & Hd)]);
    exists d'; eexists; (split; [exact E |]).
  - split_and!; [| | by left].
    + intros u v [Huv | [-> ->]]%Hd; rewrite Hnodes; [| set_solver]. apply Hwf in Huv. set_solver.
    + intros u Hu. eapply tc_same in Hu; [| exact Hd]. apply tc_add_edge in Hu as [Hu | [H1 H2]].
      * by apply (Ha u).
      * apply Hn. by etransitivity.
  - split_and!; [by eapply wf_same | by eapply acyclic_same | by right].
Qed.

(** On an acyclic graph [TopoSort] returns every node once, each at the
    place where it is the alphabetically least node whose dependencies are all
    out, so the order does not depend on Go's map order; on a cyclic graph it
    returns the cycle error, and the "incomplete" error never occurs. *)
Theorem topo_sort_least range d :
  (forall p s, range p s ≡ₚ elements s) -> wf d ->
  (~ acyclic d /\ TopoSort range d = Some (Err ErrDAGCycle)) \/
  (exists l, TopoSort range d = Some (Ok l) /\ l ≡ₚ elements (DAG.nodes d) /\
    (forall l1 n l2, l = l1 ++ n :: l2 -> least_next d l1 n) /\
    forall range', (forall p s, range' p s ≡ₚ elements s) -> TopoSort range' d = Some (Ok l)).
Proof.
  intros Hr Hwf. destruct (HasCycle_ok range Hr d Hwf) as ([] & Hc & Hb).
  - left. destruct (proj1 Hb eq_refl) as [x Hx]. split; [intros Ha; by apply (Ha x) |].
    unfold TopoSort. by rewrite Hc.
  - right. assert (Ha : acyclic d) by (intros x Hx; destruct Hb as [_ Hb]; enough (false = true) by done; eauto).
    destruct (TopoSort_acyclic range d Hr Hwf Ha) as (l & E & Hp & Hl). exists l. split_and!; [done..|].
    intros range' Hr'. destruct (TopoSort_acyclic range' d Hr' Hwf Ha) as (k & E' & Hp' & Hk).
    rewrite E'. do 2 f_equal. apply (least_next_unique d); [done..|]. by rewrite Hp, Hp'.
Qed.

(** ** Witnesses *)

(** A release pipeline: deploy waits for test and build, test for build. *)
Definition ex_pipeline : DAG.t :=
  DAG.mk {["build"; "test"; "deploy"]}
    (<["build" := ∅]> (<["test" := {["build"]}]> (<["deploy" := {["build"; "test"]}]> ∅))).

Lemma ex_pipeline_wf : wf ex_pipeline.
Proof. apply wf_by_check. vm_compute. reflexivity. Qed.

Lemma ex_pipeline_acyclic : acyclic ex_pipeline.
Proof. apply acyclic_by_check; [apply ex_pipeline_wf | vm_compute; reflexivity]. Qed.

Definition ex_range (p : place) (s : gset string) : list string := rev (elements s).

Lemma ex_range_perm p s : ex_range p s ≡ₚ elements s.
Proof. unfold ex_range. symmetry. apply Permutation_rev. Qed.

(** The edge back from build to deploy is refused. *)
Lemma add_edge_keeps_acyclic_witness :
  (exists d', AddEdge ex_range ex_pipeline "build" "deploy" = Some (d', Some ErrDAGCycle)) /\
  rtc (needs ex_pipeline) "deploy" "build".
Proof.
  destruct (add_edge_keeps_acyclic ex_range ex_pipeline "build" "deploy" ex_range_perm
    ex_pipeline_wf ex_pipeline_acyclic) as (d' & e & E & _ & _ & [(-> & Hn & _) | (-> & Hr & _)]).
  - exfalso. apply Hn, rtc_once, (bool_decide_unpack (needs ex_pipeline "deploy" "build")).
    vm_compute. exact I.
  - split; [by exists d' | exact Hr].
Defined.

Lemma topo_sort_least_witness :
  TopoSort ex_range ex_pipeline = Some (Ok ["build"; "test"; "deploy"]) /\
  least_next ex_pipeline ["build"] "test".
Proof.
  assert (E : TopoSort ex_range ex_pipeline = Some (Ok ["build"; "test"; "deploy"]))
    by (vm_compute; reflexivity).
  split; [exact E |].
  destruct (topo_sort_least ex_range ex_pipeline ex_range_perm ex_pipeline_wf)
    as [[Hn _] | (l & E' & _ & Hl & _)].
  - destruct (Hn ex_pipeline_acyclic).
  - rewrite E in E'. injection E' as <-. exact (Hl ["build"] "test" ["deploy"] eq_refl).
Defined.
