(* ===== verification/CronJobs.v ===== *)
(** * Scheduled entries and deadlines ([internal/cron/manager.go], [internal/cron/sla.go])

    The index of scheduled entries with its life cycle (create, update, pause,
    resume, soft delete, mark fired), and the monitor that reports a running
    task once when it reaches its warning threshold and once when it passes its
    deadline.  Operations that hold the lock are atomic; [Create] releases it
    between its check and its insertion, so it is split there into
    [Create_check] and [Create_insert].  Entries are values: the pointer that
    [Create] returns is not followed. *)

From Stdlib Require Import Ascii.
From S2P Require Import GoStrings Cron Prelude.
Open Scope go_scope.

(** ** Scheduled entries *)

Definition EntryActive : string := "active".
Definition EntryPaused : string := "paused".
Definition EntryDeleted : string := "deleted".

Module ScheduleEntry.
Record t := mk {
  ID : string;
  TaskID : string;
  TenantID : string;
  Name : string;
  CronExpr : string;
  Status : string;
  CreatedAt : time;
  UpdatedAt : time;
  LastRunAt : time;
  NextRunAt : time;
  CreatedBy : string;
}.
Definition set_ID v e := mk v (TaskID e) (TenantID e) (Name e) (CronExpr e) (Status e) (CreatedAt e) (UpdatedAt e) (LastRunAt e) (NextRunAt e) (CreatedBy e).
Definition set_Name v e := mk (ID e) (TaskID e) (TenantID e) v (CronExpr e) (Status e) (CreatedAt e) (UpdatedAt e) (LastRunAt e) (NextRunAt e) (CreatedBy e).
Definition set_CronExpr v e := mk (ID e) (TaskID e) (TenantID e) (Name e) v (Status e) (CreatedAt e) (UpdatedAt e) (LastRunAt e) (NextRunAt e) (CreatedBy e).
Definition set_Status v e := mk (ID e) (TaskID e) (TenantID e) (Name e) (CronExpr e) v (CreatedAt e) (UpdatedAt e) (LastRunAt e) (NextRunAt e) (CreatedBy e).
Definition set_CreatedAt v e := mk (ID e) (TaskID e) (TenantID e) (Name e) (CronExpr e) (Status e) v (UpdatedAt e) (LastRunAt e) (NextRunAt e) (CreatedBy e).
Definition set_UpdatedAt v e := mk (ID e) (TaskID e) (TenantID e) (Name e) (CronExpr e) (Status e) (CreatedAt e) v (LastRunAt e) (NextRunAt e) (CreatedBy e).
Definition set_LastRunAt v e := mk (ID e) (TaskID e) (TenantID e) (Name e) (CronExpr e) (Status e) (CreatedAt e) (UpdatedAt e) v (NextRunAt e) (CreatedBy e).
Definition set_NextRunAt v e := mk (ID e) (TaskID e) (TenantID e) (Name e) (CronExpr e) (Status e) (CreatedAt e) (UpdatedAt e) (LastRunAt e) v (CreatedBy e).
End ScheduleEntry.

Inductive entry_error :=
  | ErrTaskIDRequired
  | ErrCronExprRequired
  | ErrInvalidCron (e : cron_error)
  | ErrEntryNotFound
  | ErrEntryExists.

#[export] Instance cron_error_eq_dec : EqDecision cron_error.
Proof. solve_decision. Defined.
#[export] Instance entry_error_eq_dec : EqDecision entry_error.
Proof. solve_decision. Defined.

Module Manager.
Record t := mk {
  entries : gmap string ScheduleEntry.t;
  counter : Z;
}.

Definition NewManager : t := mk ∅ 0.

(** [clock] is [time.Now()], which validation reads whatever [SetNow] injected. *)
Definition Validate (clock : time) (e : ScheduleEntry.t) : result entry_error unit :=
  if ScheduleEntry.TaskID e == "" then Err ErrTaskIDRequired
  else if ScheduleEntry.CronExpr e == "" then Err ErrCronExprRequired
  else match Match (ScheduleEntry.CronExpr e) clock with
       | Err x => Err (ErrInvalidCron x)
       | Ok _ => Ok tt
       end.

(** The loop of [itoa] over its 20-byte buffer; [None] is the index panic. *)
Fixpoint itoa_loop (room : nat) (n : N) (buf : string) : option string :=
  if (0 <? Z.of_N n)%Z then
    match room with
    | 0 => None
    | S room => itoa_loop room (n `div` 10)%N (String (ascii_of_N (48 + n `mod` 10)%N) buf)
    end
  else Some buf.

Definition itoa (n : Z) : option string :=
  if n == 0%Z then Some "0" else itoa_loop 20 (Z.to_N n) "".

Definition nextID (m : t) : t * string :=
  let c := wrap_u64 (counter m + 1) in
  (mk (entries m) c, "entry-" +:+ default "" (itoa c)).

(** The first part of [Create]: validation, and an id that is new, or free at
    this moment. *)
Definition Create_check (clock : time) (e : ScheduleEntry.t) (m : t)
  : t * result entry_error ScheduleEntry.t :=
  match Validate clock e with
  | Err x => (m, Err x)
  | Ok _ =>
      if ScheduleEntry.ID e == "" then
        let (m, id) := nextID m in (m, Ok (ScheduleEntry.set_ID id e))
      else match entries m !! ScheduleEntry.ID e with
           | Some _ => (m, Err ErrEntryExists)
           | None => (m, Ok e)
           end
  end.

(** The second part, under the lock again. *)
Definition Create_insert (now : time) (cp : ScheduleEntry.t) (m : t) : t * ScheduleEntry.t :=
  let cp := if ScheduleEntry.Status cp == "" then ScheduleEntry.set_Status EntryActive cp else cp in
  let cp := if IsZero (ScheduleEntry.CreatedAt cp) then ScheduleEntry.set_CreatedAt now cp else cp in
  let cp := ScheduleEntry.set_UpdatedAt now cp in
  let cp := ScheduleEntry.set_NextRunAt (NextRun (ScheduleEntry.CronExpr cp) now) cp in
  (mk (<[ScheduleEntry.ID cp := cp]> (entries m)) (counter m), cp).

Definition Create (clock now : time) (e : ScheduleEntry.t) (m : t)
  : t * result entry_error ScheduleEntry.t :=
  let (m, r) := Create_check clock e m in
  match r with
  | Err x => (m, Err x)
  | Ok cp => let (m, cp) := Create_insert now cp m in (m, Ok cp)
  end.

Definition Get (id : string) (m : t) : result entry_error ScheduleEntry.t :=
  match entries m !! id with Some e => Ok e | None => Err ErrEntryNotFound end.

(** [range] is the order in which Go visits the entries. *)
Definition List (range : gmap string ScheduleEntry.t -> list ScheduleEntry.t)
    (tenantID status : string) (m : t) : list ScheduleEntry.t :=
  stable_sort (fun a b => str_lt (ScheduleEntry.ID a) (ScheduleEntry.ID b))
    (List.filter (fun e =>
       negb ((tenantID != "") && (ScheduleEntry.TenantID e != tenantID)) &&
       negb ((status != "") && (ScheduleEntry.Status e != status))) (range (entries m))).

(** Write the entry [id] back and return a copy of it. *)
Definition store (id : string) (e : ScheduleEntry.t) (m : t)
  : t * result entry_error ScheduleEntry.t :=
  (mk (<[id := e]> (entries m)) (counter m), Ok e).

Definition apply_patch (p e : ScheduleEntry.t) : ScheduleEntry.t :=
  let e := if ScheduleEntry.Name p != "" then ScheduleEntry.set_Name (ScheduleEntry.Name p) e else e in
  let e := if ScheduleEntry.CronExpr p != ""
           then ScheduleEntry.set_CronExpr (ScheduleEntry.CronExpr p) e else e in
  if ScheduleEntry.Status p != "" then ScheduleEntry.set_Status (ScheduleEntry.Status p) e else e.

Definition patch_error (clock : time) (patch : option ScheduleEntry.t) : option entry_error :=
  match patch with
  | None => None
  | Some p =>
      if ScheduleEntry.CronExpr p != "" then
        match Match (ScheduleEntry.CronExpr p) clock with
        | Err x => Some (ErrInvalidCron x)
        | Ok _ => None
        end
      else None
  end.

Definition Update (clock now : time) (id : string) (patch : option ScheduleEntry.t) (m : t)
  : t * result entry_error ScheduleEntry.t :=
  match patch_error clock patch with
  | Some x => (m, Err x)
  | None =>
      match entries m !! id with
      | None => (m, Err ErrEntryNotFound)
      | Some e =>
          let e := match patch with Some p => apply_patch p e | None => e end in
          let e := ScheduleEntry.set_UpdatedAt now e in
          store id
            (if ScheduleEntry.Status e == EntryActive
             then ScheduleEntry.set_NextRunAt (NextRun (ScheduleEntry.CronExpr e) (ScheduleEntry.UpdatedAt e)) e
             else ScheduleEntry.set_NextRunAt zero_time e) m
      end
  end.

(** The body that [Pause] and [Delete] share. *)
Definition halt (status : string) (now : time) (e : ScheduleEntry.t) : ScheduleEntry.t :=
  ScheduleEntry.set_NextRunAt zero_time
    (ScheduleEntry.set_UpdatedAt now (ScheduleEntry.set_Status status e)).

Definition Delete (now : time) (id : string) (m : t) : t * option entry_error :=
  match entries m !! id with
  | None => (m, Some ErrEntryNotFound)
  | Some e => ((store id (halt EntryDeleted now e) m).1, None)
  end.

Definition Pause (now : time) (id : string) (m : t) : t * result entry_error ScheduleEntry.t :=
  match entries m !! id with
  | None => (m, Err ErrEntryNotFound)
  | Some e => store id (halt EntryPaused now e) m
  end.

Definition Resume (now : time) (id : string) (m : t) : t * result entry_error ScheduleEntry.t :=
  match entries m !! id with
  | None => (m, Err ErrEntryNotFound)
  | Some e =>
      let e := ScheduleEntry.set_UpdatedAt now (ScheduleEntry.set_Status EntryActive e) in
      store id (ScheduleEntry.set_NextRunAt
        (NextRun (ScheduleEntry.CronExpr e) (ScheduleEntry.UpdatedAt e)) e) m
  end.

Definition MarkFired (id : string) (at_ : time) (m : t) : t :=
  match entries m !! id with
  | None => m
  | Some e =>
      if ScheduleEntry.Status e != EntryActive then m
      else (store id (ScheduleEntry.set_NextRunAt (NextRun (ScheduleEntry.CronExpr e) at_)
             (ScheduleEntry.set_LastRunAt at_ e)) m).1
  end.
End Manager.

(** ** The entries under concurrent callers *)

(** The manager and the creations that passed their check and have not
    inserted yet. *)
Module Sys.
Record t := mk { mgr : Manager.t; pending : list ScheduleEntry.t }.
End Sys.

Inductive sched_op :=
  | SCheck (clock : time) (e : ScheduleEntry.t)
  | SInsert (now : time) (k : nat)
  | SUpdate (clock now : time) (id : string) (patch : option ScheduleEntry.t)
  | SDelete (now : time) (id : string)
  | SPause (now : time) (id : string)
  | SResume (now : time) (id : string)
  | SFired (id : string) (at_ : time).

Definition sched_step (o : sched_op) (s : Sys.t) : Sys.t :=
  let m := Sys.mgr s in
  let with_mgr m := Sys.mk m (Sys.pending s) in
  match o with
  | SCheck clock e =>
      match Manager.Create_check clock e m with
      | (m, Ok cp) => Sys.mk m (Sys.pending s ++ [cp])
      | (m, Err _) => with_mgr m
      end
  | SInsert now k =>
      match Sys.pending s !! k with
      | Some cp => Sys.mk (Manager.Create_insert now cp m).1 (delete k (Sys.pending s))
      | None => s
      end
  | SUpdate clock now id patch => with_mgr (Manager.Update clock now id patch m).1
  | SDelete now id => with_mgr (Manager.Delete now id m).1
  | SPause now id => with_mgr (Manager.Pause now id m).1
  | SResume now id => with_mgr (Manager.Resume now id m).1
  | SFired id at_ => with_mgr (Manager.MarkFired id at_ m)
  end.

Definition sched_init : Sys.t := Sys.mk Manager.NewManager [].

(** What every entry, stored or about to be, satisfies: it names a task and its
    expression passed validation at some instant. *)
Definition valid (e : ScheduleEntry.t) : Prop :=
  ScheduleEntry.TaskID e <> "" /\
  exists clock b, Match (ScheduleEntry.CronExpr e) clock = Ok b.

(** A stored active entry announces the next run after its last change or its
    last run. *)
Definition announces (e : ScheduleEntry.t) : Prop :=
  ScheduleEntry.Status e = EntryActive ->
  ScheduleEntry.NextRunAt e = NextRun (ScheduleEntry.CronExpr e) (ScheduleEntry.UpdatedAt e) \/
  ScheduleEntry.NextRunAt e = NextRun (ScheduleEntry.CronExpr e) (ScheduleEntry.LastRunAt e).

Definition stored (id : string) (e : ScheduleEntry.t) : Prop :=
  ScheduleEntry.ID e = id /\ valid e /\ announces e.

Record sched_inv (s : Sys.t) : Prop := {
  sched_entries : map_Forall stored (Manager.entries (Sys.mgr s));
  sched_pending : Forall valid (Sys.pending s);
}.

#[global] Arguments NextRun : simpl never.

Lemma Validate_valid clock e : Manager.Validate clock e = Ok () -> valid e.
Proof.
  unfold Manager.Validate, valid. repeat case_bool_decide; try done.
  destruct (Match _ clock) eqn:E; [| done]. eauto.
Qed.

Lemma Create_check_spec clock e m m' r :
  Manager.Create_check clock e m = (m', r) ->
  Manager.entries m' = Manager.entries m /\
  match r with
  | Ok cp => valid cp /\ (exists id, cp = ScheduleEntry.set_ID id e) /\
      (ScheduleEntry.ID e <> "" -> cp = e /\ Manager.entries m !! ScheduleEntry.ID e = None)
  | Err _ => True
  end.
Proof.
  unfold Manager.Create_check. destruct (Manager.Validate clock e) as [[] |] eqn:Ev; [| by intros [= <- <-]].
  apply Validate_valid in Ev. case_bool_decide as Eid.
  - intros [= <- <-]. split_and!; [done | done | by eexists | done].
  - destruct (Manager.entries m !! ScheduleEntry.ID e) eqn:El; intros [= <- <-]; [done |].
    split_and!; [done | done | | done]. exists (ScheduleEntry.ID e). by destruct e.
Qed.

Lemma Create_insert_stored now cp m :
  valid cp -> map_Forall stored (Manager.entries m) ->
  map_Forall stored (Manager.entries (Manager.Create_insert now cp m).1).
Proof.
  intros Hv H. unfold Manager.Create_insert. cbv zeta. cbn [fst Manager.entries].
  apply map_Forall_insert_2; [| done].
  split_and!; [done | |].
  - revert Hv. unfold valid. by destruct (_ == ""), (IsZero _).
  - intros _. left. by destruct (_ == ""), (IsZero _).
Qed.

(** Replacing a stored entry by a changed copy of it. *)
Lemma store_stored id e e' m :
  Manager.entries m !! id = Some e -> map_Forall stored (Manager.entries m) ->
  (stored id e -> stored id e') -> map_Forall stored (Manager.entries (Manager.store id e' m).1).
Proof.
  intros E H He. apply map_Forall_insert_2; [| done]. apply He. by apply (H id).
Qed.

Lemma apply_patch_stored clock p id e :
  Manager.patch_error clock (Some p) = None -> stored id e ->
  ScheduleEntry.ID (Manager.apply_patch p e) = id /\ valid (Manager.apply_patch p e).
Proof.
  intros Hp (Hid & [Ht Hc] & _). unfold Manager.patch_error, Manager.apply_patch in *.
  destruct (ScheduleEntry.CronExpr p != "").
  - destruct (Match (ScheduleEntry.CronExpr p) clock) eqn:E; [| done].
    destruct (ScheduleEntry.Name p != ""), (ScheduleEntry.Status p != ""); unfold valid; simpl; eauto.
  - destruct (ScheduleEntry.Name p != ""), (ScheduleEntry.Status p != ""); unfold valid; simpl; eauto.
Qed.

Lemma Update_stored clock now id patch m :
  map_Forall stored (Manager.entries m) ->
  map_Forall stored (Manager.entries (Manager.Update clock now id patch m).1).
Proof.
  intros H. unfold Manager.Update. destruct (Manager.patch_error clock patch) eqn:Ep; [done |].
  destruct (Manager.entries m !! id) as [e |] eqn:E; [| done]. cbv zeta.
  eapply store_stored; [exact E | done |]. intros He.
  set (e' := match patch with Some p => Manager.apply_patch p e | None => e end).
  assert (H' : ScheduleEntry.ID e' = id /\ valid e').
  { unfold e'. destruct patch as [p |]; [by eapply apply_patch_stored |]. split; apply He. }
  destruct H' as [Hid Hv]. case_bool_decide as Es; (split_and!; [exact Hid | exact Hv |]).
  - intros _. by left.
  - intros Hs. done.
Qed.

Lemma sched_step_inv o s : sched_inv s -> sched_inv (sched_step o s).
Proof.
  intros [He Hp]. destruct o as [clock e | now k | clock now id patch | now id | now id | now id | id at_]; simpl.
  - destruct (Manager.Create_check clock e (Sys.mgr s)) as [m r] eqn:E.
    apply Create_check_spec in E as [Em Hr]. destruct r as [cp |]; split; simpl; rewrite ?Em; try done.
    apply Forall_app. split; [done |]. apply Forall_singleton, Hr.
  - destruct (Sys.pending s !! k) as [cp |] eqn:E; [| done]. split; simpl.
    + apply Create_insert_stored; [| done]. by eapply Forall_lookup in E.
    + by apply Forall_delete.
  - split; [| done]. by apply Update_stored.
  - split; [| done]. unfold Manager.Delete. simpl. destruct (_ !! id) as [e |] eqn:E; [| done].
    eapply store_stored; [exact E | done |]. intros (Hid & Hv & _). by split_and!.
  - split; [| done]. unfold Manager.Pause. simpl. destruct (_ !! id) as [e |] eqn:E; [| done].
    eapply store_stored; [exact E | done |]. intros (Hid & Hv & _). by split_and!.
  - split; [| done]. unfold Manager.Resume. simpl. destruct (_ !! id) as [e |] eqn:E; [| done].
    eapply store_stored; [exact E | done |]. intros (Hid & Hv & _). split_and!; [done | done | by left].
  - split; [| done]. unfold Manager.MarkFired. simpl. destruct (_ !! id) as [e |] eqn:E; [| done].
    destruct (_ != EntryActive); [done |].
    eapply store_stored; [exact E | done |]. intros (Hid & Hv & _). split_and!; [done | done | by right].
Qed.

(** ** Generated ids *)

(** The hand-written conversion never leaves its buffer and writes the decimal
    numeral of its argument. *)
Lemma itoa_loop_pretty room n buf :
  (n < 10 ^ N.of_nat room)%N -> Manager.itoa_loop room n buf = Some (pretty_N_go n buf).
Proof.
  revert n buf. induction room as [| room IH]; intros n buf Hn.
  { assert (n = 0%N) as -> by (change (10 ^ N.of_nat 0)%N with 1%N in Hn; lia). done. }
  cbn [Manager.itoa_loop]. destruct (Z.ltb_spec 0 (Z.of_N n)) as [Hpos | Hz].
  - rewrite pretty_N_go_step by lia. rewrite IH.
    + do 3 f_equal. assert (Hm : (n `mod` 10 < 10)%N) by (apply N.mod_lt; lia).
      revert Hm. generalize (n `mod` 10)%N. clear. intros x Hx.
      assert (x = 0 \/ x = 1 \/ x = 2 \/ x = 3 \/ x = 4 \/ x = 5 \/ x = 6 \/ x = 7 \/ x = 8 \/ x = 9)%N
        as Hc by lia.
      repeat destruct Hc as [-> | Hc]; try done. by rewrite Hc.
    + rewrite Nat2N.inj_succ, N.pow_succ_r' in Hn. apply N.Div0.div_lt_upper_bound. lia.
  - assert (n = 0%N) as -> by lia. by rewrite pretty_N_go_0.
Qed.

Lemma itoa_decimal n : (0 <= n < 2 ^ 64)%Z -> Manager.itoa n = Some (GoStrings.itoa n).
Proof.
  intros Hn. unfold Manager.itoa. rewrite itoa_nonneg by lia.
  case_bool_decide as E; case_decide; try done.
  apply itoa_loop_pretty. apply N2Z.inj_lt. rewrite N2Z.inj_pow, Z2N.id by lia. simpl Z.of_N.
  etransitivity; [apply Hn | by vm_compute].
Qed.

(** ** Properties of the index *)

(** Under every interleaving of concurrent creations, updates, pauses,
    resumptions, deletions and firings, every entry is found under its own id,
    names a task, has an expression that passed validation, and, while it is
    active, announces the next run after its last change or its last run. *)
Theorem entries_stay_scheduled ops id e :
  Manager.Get id (Sys.mgr (run sched_step ops sched_init)) = Ok e ->
  ScheduleEntry.ID e = id /\ ScheduleEntry.TaskID e <> "" /\
  (exists clock b, Match (ScheduleEntry.CronExpr e) clock = Ok b) /\
  (ScheduleEntry.Status e = EntryActive ->
     ScheduleEntry.NextRunAt e = NextRun (ScheduleEntry.CronExpr e) (ScheduleEntry.UpdatedAt e) \/
     ScheduleEntry.NextRunAt e = NextRun (ScheduleEntry.CronExpr e) (ScheduleEntry.LastRunAt e)).
Proof.
  intros H. assert (Hinv : sched_inv (run sched_step ops sched_init)).
  { apply run_invariant; [intros o s; apply sched_step_inv |].
    split; [apply map_Forall_empty | constructor]. }
  destruct Hinv as [He _]. unfold Manager.Get in H.
  destruct (_ !! id) as [e' |] eqn:E; [injection H as -> | done].
  destruct (He id e E) as (H1 & [H2 H3] & H4). done.
Qed.

(** An entry without id, with id "entry-1", and the histories they are used in. *)
Definition ex_entry (id task : string) : ScheduleEntry.t :=
  ScheduleEntry.mk id task "acme" "backup" "*/5 * * * *" "" 0 0 0 0 "alice".

Definition ex_sched_ops : list sched_op :=
  [SCheck 0 (ex_entry "" "task-1"); SInsert hour 0; SFired "entry-1" (hour + 5 * minute)].

Definition ex_stored_entry : ScheduleEntry.t :=
  ScheduleEntry.mk "entry-1" "task-1" "acme" "backup" "*/5 * * * *" "active"
    hour hour (hour + 5 * minute) (hour + 10 * minute) "alice".

Lemma entries_stay_scheduled_witness :
  ScheduleEntry.NextRunAt ex_stored_entry = NextRun "*/5 * * * *" hour \/
  ScheduleEntry.NextRunAt ex_stored_entry = NextRun "*/5 * * * *" (hour + 5 * minute).
Proof.
  assert (H : Manager.Get "entry-1" (Sys.mgr (run sched_step ex_sched_ops sched_init)) = Ok ex_stored_entry)
    by (vm_compute; reflexivity).
  pose proof (entries_stay_scheduled ex_sched_ops "entry-1" ex_stored_entry H) as (_ & _ & _ & Ha).
  exact (Ha eq_refl).
Defined.

(** The ids of the index are not unique over time: a generated id replaces
    an entry that a caller had stored under it, and two concurrent creations with
    one id both succeed, the second replacing the first. *)
Theorem creation_overwrites :
  (exists m1 m2 e1 e2,
     Manager.Create 0 hour (ex_entry "entry-1" "task-1") Manager.NewManager = (m1, Ok e1) /\
     Manager.Create 0 hour (ex_entry "" "task-2") m1 = (m2, Ok e2) /\
     Manager.Get "entry-1" m2 = Ok e2 /\ ScheduleEntry.TaskID e2 = "task-2") /\
  (exists e, Manager.Get "nightly" (Sys.mgr (run sched_step
       [SCheck 0 (ex_entry "nightly" "task-1"); SCheck 0 (ex_entry "nightly" "task-2");
        SInsert hour 0; SInsert hour 0] sched_init)) = Ok e /\ ScheduleEntry.TaskID e = "task-2").
Proof. split; repeat eexists; vm_compute; reflexivity. Qed.

(** ** Deadlines *)

Module SLAConfig.
Record t := mk { TaskID : string; Deadline : duration; WarnAt : duration; StartedAt : time }.
End SLAConfig.

Module SLABreachEvent.
Record t := mk {
  TaskID : string; Kind : string; StartedAt : time; At : time;
  Elapsed : duration; Threshold : duration }.
End SLABreachEvent.

Module SLAMonitor.
Record t := mk { tasks : gmap string SLAConfig.t; fired : gmap string string }.

Definition NewSLAMonitor : t := mk ∅ ∅.

(** [m.fired[id]], the empty string when there is no entry. *)
Definition fired_of (m : t) (id : string) : string := default "" (fired m !! id).

Definition Track (now : time) (cfg : SLAConfig.t) (m : t) : t :=
  let cp := if IsZero (SLAConfig.StartedAt cfg)
            then SLAConfig.mk (SLAConfig.TaskID cfg) (SLAConfig.Deadline cfg) (SLAConfig.WarnAt cfg) now
            else cfg in
  mk (<[SLAConfig.TaskID cfg := cp]> (tasks m)) (delete (SLAConfig.TaskID cfg) (fired m)).

Definition Complete (taskID : string) (m : t) : t * bool :=
  (mk (delete taskID (tasks m)) (delete taskID (fired m)),
   match fired m !! taskID with Some _ => true | None => false end).

Definition event (kind id : string) (cfg : SLAConfig.t) (now : time) (threshold : duration) : SLABreachEvent.t :=
  SLABreachEvent.mk id kind (SLAConfig.StartedAt cfg) now (Sub now (SLAConfig.StartedAt cfg)) threshold.

(** The body of the loop of [Check]. *)
Definition check_one (now : time) (st : t * list SLABreachEvent.t) (id : string)
  : t * list SLABreachEvent.t :=
  let (m, events) := st in
  match tasks m !! id with
  | None => st
  | Some cfg =>
      let warn := SLAConfig.WarnAt cfg in
      let deadline := SLAConfig.Deadline cfg in
      if (warn <=? 0) && (deadline <=? 0) then st
      else
        let elapsed := Sub now (SLAConfig.StartedAt cfg) in
        if (deadline >? 0) && (elapsed >? deadline) && (fired_of m id != "breach") then
          (mk (tasks m) (<[id := "breach"]> (fired m)), events ++ [event "breach" id cfg now deadline])
        else if (warn >? 0) && (elapsed >? warn) && (fired_of m id == "") then
          (mk (tasks m) (<[id := "warn"]> (fired m)), events ++ [event "warn" id cfg now warn])
        else st
  end%Z.

(** [ids] is the order in which Go visits [m.tasks]. The callback receives the
    events that are returned. *)
Definition Check (ids : list string) (now : time) (m : t) : t * list SLABreachEvent.t :=
  foldl (check_one now) (m, []) ids.

Definition Tracked (ids : list string) : list string := sort_strings ids.

Definition Get (taskID : string) (m : t) : option SLAConfig.t := tasks m !! taskID.
End SLAMonitor.

(** A history of the monitor, with the events it reported. *)
Inductive sla_op :=
  | STrack (now : time) (cfg : SLAConfig.t)
  | SComplete (id : string)
  | SlaCheck (ids : list string) (now : time).

Definition sla_step (o : sla_op) (s : SLAMonitor.t * list SLABreachEvent.t) :=
  match o with
  | STrack now cfg => (SLAMonitor.Track now cfg s.1, s.2)
  | SComplete id => ((SLAMonitor.Complete id s.1).1, s.2)
  | SlaCheck ids now => let (m, ev) := SLAMonitor.Check ids now s.1 in (m, s.2 ++ ev)
  end.

(** The operation does not end the run of [id] nor start another one. *)
Definition leaves (id : string) (o : sla_op) : Prop :=
  match o with
  | STrack _ cfg => SLAConfig.TaskID cfg <> id
  | SComplete id' => id' <> id
  | SlaCheck _ _ => True
  end.

(** The kinds reported for [id], in order. *)
Definition kinds (id : string) (ev : list SLABreachEvent.t) : list string :=
  SLABreachEvent.Kind <$> List.filter (fun e => SLABreachEvent.TaskID e == id) ev.

Lemma kinds_app id a b : kinds id (a ++ b) = kinds id a ++ kinds id b.
Proof. unfold kinds. by rewrite List.filter_app, fmap_app. Qed.

(** The four histories one run of a task can have. *)
Definition run_kinds (ks : list string) (fired : option string) : Prop :=
  (ks = [] /\ fired = None) \/ (ks = ["warn"] /\ fired = Some "warn") \/
  (ks = ["breach"] /\ fired = Some "breach") \/ (ks = ["warn"; "breach"] /\ fired = Some "breach").

Definition sla_inv (id : string) (s : SLAMonitor.t * list SLABreachEvent.t) : Prop :=
  run_kinds (kinds id s.2) (SLAMonitor.fired s.1 !! id) /\
  Forall (fun e => SLABreachEvent.Elapsed e > SLABreachEvent.Threshold e)%Z s.2.

Lemma check_one_inv id now s x : sla_inv id s -> sla_inv id (SLAMonitor.check_one now s x).
Proof.
  destruct s as [m ev]. intros [Hk Hev]. unfold SLAMonitor.check_one.
  destruct (SLAMonitor.tasks m !! x) as [cfg |]; [| done].
  destruct (_ && _)%go; [done |]. cbv zeta.
  destruct (_ && _ && (SLAMonitor.fired_of m x != "breach"))%go eqn:Eb;
    [| destruct (_ && _ && (SLAMonitor.fired_of m x == ""))%go eqn:Ew; [| done]].
  all: rename Eb into E0; first [rename Ew into E | rename E0 into E].
  all: apply andb_true_iff in E as [[_ Hel]%andb_true_iff Hf]; rewrite Z.gtb_ltb, Z.ltb_lt in Hel.
  all: split; cbn [fst snd SLAMonitor.fired];
    [| apply Forall_app; split; [done |]; apply Forall_singleton; simpl; lia].
  all: rewrite kinds_app; unfold kinds at 2; simpl; unfold SLAMonitor.fired_of in Hf.
  all: destruct (decide (x = id)) as [-> | Hne];
    [rewrite (bool_decide_true (id = id)), lookup_insert_eq by done
    | rewrite (bool_decide_false (x = id)), lookup_insert_ne by done; simpl; by rewrite app_nil_r].
  all: simpl in Hk; destruct Hk as [[-> Hx] | [[-> Hx] | [[-> Hx] | [-> Hx]]]]; rewrite Hx in Hf;
    try done; unfold run_kinds; simpl; tauto.
Qed.

Lemma Check_inv id ids now s : sla_inv id s -> sla_inv id (foldl (SLAMonitor.check_one now) s ids).
Proof. revert s. induction ids as [| x ids IH]; intros s H; [done |]. by apply IH, check_one_inv. Qed.

(** The events of a check are appended to those reported before. *)
Lemma check_one_events now m ev x :
  SLAMonitor.check_one now (m, ev) x =
    let (m', ev') := SLAMonitor.check_one now (m, []) x in (m', ev ++ ev').
Proof.
  unfold SLAMonitor.check_one. destruct (_ !! x); [| by rewrite app_nil_r].
  cbv zeta. repeat (destruct (_ && _)%go); by rewrite ?app_nil_r.
Qed.

Lemma Check_events now ids m ev :
  foldl (SLAMonitor.check_one now) (m, ev) ids =
    let (m', ev') := SLAMonitor.Check ids now m in (m', ev ++ ev').
Proof.
  unfold SLAMonitor.Check. assert (H : forall a b m,
    foldl (SLAMonitor.check_one now) (m, a ++ b) ids =
      let (m', ev') := foldl (SLAMonitor.check_one now) (m, b) ids in (m', a ++ ev')).
  { clear. induction ids as [| x ids IH]; intros a b m; [done |]. cbn [foldl].
    rewrite (check_one_events now m b x), (check_one_events now m (a ++ b) x).
    destruct (SLAMonitor.check_one now (m, []) x) as [m' ev']. rewrite <- app_assoc. apply IH. }
  rewrite <- (app_nil_r ev) at 1. apply H.
Qed.

Lemma sla_step_inv id o s : leaves id o -> sla_inv id s -> sla_inv id (sla_step o s).
Proof.
  destruct s as [m ev]. intros Ho [Hk Hev]. destruct o as [now cfg | x | ids now]; simpl in *.
  - split; [| done]. simpl. by rewrite lookup_delete_ne.
  - split; [| done]. simpl. by rewrite lookup_delete_ne.
  - pose proof (Check_events now ids m ev) as E. simpl.
    destruct (SLAMonitor.Check ids now m) as [m' ev']. rewrite <- E. by apply Check_inv.
Qed.

(** Once visited past its deadline a task stays marked. *)
Lemma check_one_breach now s x id cfg :
  SLAMonitor.tasks s.1 !! id = Some cfg -> (0 < SLAConfig.Deadline cfg)%Z ->
  (Sub now (SLAConfig.StartedAt cfg) > SLAConfig.Deadline cfg)%Z ->
  x = id \/ SLAMonitor.fired s.1 !! id = Some "breach" ->
  SLAMonitor.fired (SLAMonitor.check_one now s x).1 !! id = Some "breach".
Proof.
  destruct s as [m ev]. intros Ht Hd Hel Hx. simpl in *. unfold SLAMonitor.check_one.
  destruct (decide (x = id)) as [-> | Hne].
  - rewrite Ht. cbv zeta.
    replace (SLAConfig.Deadline cfg <=? 0)%Z with false by lia. rewrite andb_false_r.
    replace (SLAConfig.Deadline cfg >? 0)%Z with true by lia.
    replace (Sub now (SLAConfig.StartedAt cfg) >? SLAConfig.Deadline cfg)%Z with true by lia.
    unfold SLAMonitor.fired_of. destruct (SLAMonitor.fired m !! id) as [k |] eqn:Ef; simpl.
    + case_bool_decide as Ek; [| simpl; by rewrite lookup_insert_eq]. subst k. simpl.
      rewrite andb_false_r. done.
    + by rewrite lookup_insert_eq.
  - destruct Hx as [| Hf]; [done |]. destruct (_ !! x) as [c |]; [| done]. cbv zeta.
    repeat (destruct (_ && _)%go); simpl; rewrite ?lookup_insert_ne by done; done.
Qed.

Lemma check_one_tasks now s x : SLAMonitor.tasks (SLAMonitor.check_one now s x).1 = SLAMonitor.tasks s.1.
Proof.
  destruct s as [m ev]. unfold SLAMonitor.check_one. destruct (_ !! x); [| done].
  cbv zeta. repeat (destruct (_ && _)%go); done.
Qed.

Lemma Check_breach now ids s id cfg :
  SLAMonitor.tasks s.1 !! id = Some cfg -> (0 < SLAConfig.Deadline cfg)%Z ->
  (Sub now (SLAConfig.StartedAt cfg) > SLAConfig.Deadline cfg)%Z ->
  id ∈ ids \/ SLAMonitor.fired s.1 !! id = Some "breach" ->
  SLAMonitor.fired (foldl (SLAMonitor.check_one now) s ids).1 !! id = Some "breach".
Proof.
  intros Ht Hd Hel. revert s Ht. induction ids as [| x ids IH]; intros s Ht Hx.
  { destruct Hx as [Hx | Hx]; [inversion Hx | done]. }
  simpl. apply IH; [by rewrite check_one_tasks |].
  destruct Hx as [[-> | Hx]%elem_of_cons | Hx]; [right | by left | right]; eapply check_one_breach; eauto.
Qed.

(** Between the start of a run of a task and its end the monitor reports at
    most one warning and at most one breach, a warning never after a breach, each
    only past its threshold; [Complete] answers whether anything was reported; and
    a check past the deadline leaves the task reported as a breach. *)
Theorem sla_reports_once m ops id :
  SLAMonitor.fired m !! id = None -> Forall (leaves id) ops ->
  let s := run sla_step ops (m, []) in
  (kinds id s.2 = [] \/ kinds id s.2 = ["warn"] \/ kinds id s.2 = ["breach"] \/
     kinds id s.2 = ["warn"; "breach"]) /\
  Forall (fun e => SLABreachEvent.Elapsed e > SLABreachEvent.Threshold e)%Z s.2 /\
  ((SLAMonitor.Complete id s.1).2 = true <-> kinds id s.2 <> []) /\
  (forall ids now cfg, SLAMonitor.Get id s.1 = Some cfg -> id ∈ ids ->
     (0 < SLAConfig.Deadline cfg)%Z -> (Sub now (SLAConfig.StartedAt cfg) > SLAConfig.Deadline cfg)%Z ->
     exists ks, kinds id (sla_step (SlaCheck ids now) s).2 = ks ++ ["breach"]).
Proof.
  intros Hf Hops s.
  assert (Hinv : sla_inv id s).
  { subst s. assert (H0 : sla_inv id (m, [])) by (split; [by left | constructor]).
    revert H0. generalize (m, @nil SLABreachEvent.t). clear Hf m.
    induction Hops as [| o ops Ho _ IH]; intros s H; [done |]. by apply IH, sla_step_inv. }
  clearbody s. clear Hf m. destruct Hinv as [Hk Hev]. split_and!; [| done | |].
  - destruct Hk as [[-> _] | [[-> _] | [[-> _] | [-> _]]]]; tauto.
  - simpl. destruct Hk as [[-> ->] | [[-> ->] | [[-> ->] | [-> ->]]]]; done.
  - intros ids now cfg Hc Hin Hd Hel. destruct s as [m ev].
    assert (Hinv' : sla_inv id (sla_step (SlaCheck ids now) (m, ev))) by by apply sla_step_inv.
    assert (Hb : SLAMonitor.fired (sla_step (SlaCheck ids now) (m, ev)).1 !! id = Some "breach").
    { pose proof (Check_breach now ids (m, ev) id cfg Hc Hd Hel (or_introl Hin)) as Hb.
      rewrite (Check_events now ids m ev) in Hb. simpl.
      by destruct (SLAMonitor.Check ids now m) as [m' ev']. }
    destruct Hinv' as [Hk' _]. rewrite Hb in Hk'.
    destruct Hk' as [[_ ?] | [[_ ?] | [[-> _] | [-> _]]]]; try done; [by exists [] | by exists ["warn"]].
Qed.

Definition ex_monitor : SLAMonitor.t :=
  SLAMonitor.Track 0 (SLAConfig.mk "job" hour (30 * minute) hour) SLAMonitor.NewSLAMonitor.

Definition ex_checks : list sla_op :=
  [SlaCheck ["job"] (hour + 31 * minute); SlaCheck ["job"] (hour + 40 * minute);
   SlaCheck ["job"] (2 * hour + minute); SlaCheck ["job"] (3 * hour)].

Lemma sla_reports_once_witness :
  kinds "job" (run sla_step ex_checks (ex_monitor, [])).2 = ["warn"; "breach"] /\
  (SLAMonitor.Complete "job" (run sla_step ex_checks (ex_monitor, [])).1).2 = true.
Proof.
  assert (H : SLAMonitor.fired ex_monitor !! "job" = None) by (vm_compute; reflexivity).
  assert (Hops : Forall (leaves "job") ex_checks) by (repeat constructor).
  assert (Hk : kinds "job" (run sla_step ex_checks (ex_monitor, [])).2 = ["warn"; "breach"])
    by (vm_compute; reflexivity).
  split; [exact Hk |].
  destruct (sla_reports_once ex_monitor ex_checks "job" H Hops) as (_ & _ & Hc & _).
  apply Hc. rewrite Hk. discriminate.
Defined.
