(* ===== verification/Approval.v ===== *)
(** * Approval engine ([internal/approval])

    Flows of approval steps, requests that walk through them, decisions,
    cancellation, timeouts, histories and the preset policy.  One definition per
    function, in the order of the files [flow.go], [request.go], [history.go],
    [state_machine.go], [preset.go] and [engine.go].  Every operation of the
    engine runs under one lock and is an atomic step on [Engine.t]; it reads the
    engine's clock once ([now]), and [wall] is what [time.Now] answers inside it.
    The engine copies flows and requests on their way in and out, so they are
    values; the notifications it sends after unlocking are returned as a list. *)

From S2P Require Import GoStrings Prelude.
Open Scope go_scope.

(** ** Constants *)

Definition StepSequential : string := "sequential".
Definition StepCountersign : string := "countersign".
Definition StepAnyOf : string := "anyof".

Definition TriggerShell : string := "shell".
Definition TriggerBatchRestart : string := "batch_restart".
Definition TriggerConfigChange : string := "config_change".
Definition TriggerK8sDelete : string := "k8s_delete".
Definition TriggerDeploy : string := "deploy".

Definition RiskHigh : string := "high".
Definition RiskLow : string := "low".

Definition StatusPending : string := "pending".
Definition StatusApproved : string := "approved".
Definition StatusRejected : string := "rejected".
Definition StatusTimeout : string := "timeout".
Definition StatusCancelled : string := "cancelled".

Definition ActionApprove : string := "approve".
Definition ActionReject : string := "reject".

Definition HistorySubmit : string := "submit".
Definition HistoryCancel : string := "cancel".
Definition HistoryTimeout : string := "timeout".
Definition HistoryStepAdvance : string := "step_advance".

(** ** Data *)

Module ApprovalStep.
Record t := mk {
  ID : string; Name : string; Order : Z; Mode : string;
  Approvers : list string; Timeout : duration }.
End ApprovalStep.

Module ApprovalFlow.
Record t := mk {
  ID : string; Name : string; TenantID : string; TriggerType : string;
  Steps : list ApprovalStep.t; Enabled : bool; CreatedAt : time; UpdatedAt : time }.
Definition set_CreatedAt v f := mk (ID f) (Name f) (TenantID f) (TriggerType f) (Steps f) (Enabled f) v (UpdatedAt f).
Definition set_UpdatedAt v f := mk (ID f) (Name f) (TenantID f) (TriggerType f) (Steps f) (Enabled f) (CreatedAt f) v.
End ApprovalFlow.

Module Decision.
Record t := mk { UserID : string; Action : string; Comment : string; Timestamp : time }.
End Decision.

Module RequestStep.
Record t := mk {
  StepID : string; Order : Z; Status : string; Decisions : list Decision.t; StartedAt : time }.
Definition set_Status v s := mk (StepID s) (Order s) v (Decisions s) (StartedAt s).
Definition set_Decisions v s := mk (StepID s) (Order s) (Status s) v (StartedAt s).
Definition set_StartedAt v s := mk (StepID s) (Order s) (Status s) (Decisions s) v.
End RequestStep.

Module ApprovalRequest.
Record t := mk {
  ID : string; FlowID : string; TenantID : string; TriggerType : string;
  Operator : string; Target : string; Detail : string; Risk : string;
  Status : string; CurrentStep : Z; Steps : list RequestStep.t;
  CreatedAt : time; UpdatedAt : time; ExpireAt : time }.
Definition set_Status v r := mk (ID r) (FlowID r) (TenantID r) (TriggerType r) (Operator r) (Target r) (Detail r) (Risk r) v (CurrentStep r) (Steps r) (CreatedAt r) (UpdatedAt r) (ExpireAt r).
Definition set_CurrentStep v r := mk (ID r) (FlowID r) (TenantID r) (TriggerType r) (Operator r) (Target r) (Detail r) (Risk r) (Status r) v (Steps r) (CreatedAt r) (UpdatedAt r) (ExpireAt r).
Definition set_Steps v r := mk (ID r) (FlowID r) (TenantID r) (TriggerType r) (Operator r) (Target r) (Detail r) (Risk r) (Status r) (CurrentStep r) v (CreatedAt r) (UpdatedAt r) (ExpireAt r).
Definition set_CreatedAt v r := mk (ID r) (FlowID r) (TenantID r) (TriggerType r) (Operator r) (Target r) (Detail r) (Risk r) (Status r) (CurrentStep r) (Steps r) v (UpdatedAt r) (ExpireAt r).
Definition set_UpdatedAt v r := mk (ID r) (FlowID r) (TenantID r) (TriggerType r) (Operator r) (Target r) (Detail r) (Risk r) (Status r) (CurrentStep r) (Steps r) (CreatedAt r) v (ExpireAt r).
End ApprovalRequest.

Module HistoryEntry.
Record t := mk { Timestamp : time; Action : string; UserID : string; StepID : string; Comment : string }.
End HistoryEntry.

Module History.
Record t := mk { RequestID : string; Timeline : list HistoryEntry.t }.
End History.

Inductive approval_error :=
  | FlowIDRequired | FlowNameRequired | FlowTenantRequired | FlowTriggerRequired | FlowStepsRequired
  | StepIDRequired | DuplicateStepID (id : string) | StepOrderTooSmall | DuplicateStepOrder
  | InvalidStepMode (mode : string) | StepApproversRequired | StepsNotSorted
  | RequestIDRequired | RequestFlowIDRequired | RequestTenantRequired | RequestTriggerRequired
  | RequestOperatorRequired | InvalidRequestStatus (status : string)
  | ErrFlowNotFound | ErrFlowExists | ErrRequestNotFound | ErrRequestExists | FlowDisabled
  | ErrInvalidTransition | ErrStepAlreadyDecided | ErrNotApprover | ErrNotPending
  | ErrOutOfOrder | ErrStepNotActive | ErrRequestExpired.

#[export] Instance approval_error_eq_dec : EqDecision approval_error.
Proof. solve_decision. Defined.

(** ** Flows ([flow.go]) *)

(** The loop of [Validate]; [prev] is the order of the step before. *)
Fixpoint validate_steps (steps : list ApprovalStep.t) (seenOrder : gset Z) (seenID : gset string)
    (prev : option Z) : option approval_error :=
  match steps with
  | [] => None
  | s :: steps =>
      if ApprovalStep.ID s == "" then Some StepIDRequired
      else if bool_decide (ApprovalStep.ID s ∈ seenID) then Some (DuplicateStepID (ApprovalStep.ID s))
      else if (ApprovalStep.Order s <=? 0)%Z then Some StepOrderTooSmall
      else if bool_decide (ApprovalStep.Order s ∈ seenOrder) then Some DuplicateStepOrder
      else if negb ((ApprovalStep.Mode s == StepSequential) || (ApprovalStep.Mode s == StepCountersign)
                    || (ApprovalStep.Mode s == StepAnyOf)) then Some (InvalidStepMode (ApprovalStep.Mode s))
      else if length (ApprovalStep.Approvers s) == 0 then Some StepApproversRequired
      else if (match prev with Some p => (p >=? ApprovalStep.Order s)%Z | None => false end)
           then Some StepsNotSorted
      else validate_steps steps ({[ApprovalStep.Order s]} ∪ seenOrder) ({[ApprovalStep.ID s]} ∪ seenID)
             (Some (ApprovalStep.Order s))
  end.

Definition ValidateFlow (f : ApprovalFlow.t) : option approval_error :=
  if ApprovalFlow.ID f == "" then Some FlowIDRequired
  else if ApprovalFlow.Name f == "" then Some FlowNameRequired
  else if ApprovalFlow.TenantID f == "" then Some FlowTenantRequired
  else if ApprovalFlow.TriggerType f == "" then Some FlowTriggerRequired
  else if length (ApprovalFlow.Steps f) == 0 then Some FlowStepsRequired
  else validate_steps (ApprovalFlow.Steps f) ∅ ∅ None.

Definition StepByOrder (f : ApprovalFlow.t) (order : Z) : option ApprovalStep.t :=
  find_first (fun s => ApprovalStep.Order s == order) (ApprovalFlow.Steps f).

Definition StepByID (f : ApprovalFlow.t) (id : string) : option ApprovalStep.t :=
  find_first (fun s => ApprovalStep.ID s == id) (ApprovalFlow.Steps f).

Definition LastOrder (f : ApprovalFlow.t) : Z :=
  match last (ApprovalFlow.Steps f) with None => 0%Z | Some s => ApprovalStep.Order s end.

(** ** Requests ([request.go]) *)

Definition IsTerminal (s : string) : bool :=
  (s == StatusApproved) || (s == StatusRejected) || (s == StatusTimeout) || (s == StatusCancelled).

Definition HasDecided (rs : RequestStep.t) (userID : string) : bool :=
  existsb (fun d => Decision.UserID d == userID) (RequestStep.Decisions rs).

Definition ValidateRequest (r : ApprovalRequest.t) : option approval_error :=
  if ApprovalRequest.ID r == "" then Some RequestIDRequired
  else if ApprovalRequest.FlowID r == "" then Some RequestFlowIDRequired
  else if ApprovalRequest.TenantID r == "" then Some RequestTenantRequired
  else if ApprovalRequest.TriggerType r == "" then Some RequestTriggerRequired
  else if ApprovalRequest.Operator r == "" then Some RequestOperatorRequired
  else if (ApprovalRequest.Status r == StatusPending) || IsTerminal (ApprovalRequest.Status r) then None
  else Some (InvalidRequestStatus (ApprovalRequest.Status r)).

Definition RequestStepByOrder (r : ApprovalRequest.t) (order : Z) : option RequestStep.t :=
  find_first (fun s => RequestStep.Order s == order) (ApprovalRequest.Steps r).

Definition RequestStepByID (r : ApprovalRequest.t) (id : string) : option RequestStep.t :=
  find_first (fun s => RequestStep.StepID s == id) (ApprovalRequest.Steps r).

(** Writing through the pointer that [StepByOrder] returns. *)
Fixpoint update_step (order : Z) (g : RequestStep.t -> RequestStep.t) (l : list RequestStep.t)
  : list RequestStep.t :=
  match l with
  | [] => []
  | s :: l => if RequestStep.Order s == order then g s :: l else s :: update_step order g l
  end.

Definition IsExpired (r : ApprovalRequest.t) (now : time) : bool :=
  negb (IsZero (ApprovalRequest.ExpireAt r)) && After now (ApprovalRequest.ExpireAt r).

(** ** Histories ([history.go]) *)

Definition Append (wall : time) (h : History.t) (e : HistoryEntry.t) : History.t :=
  let e := if IsZero (HistoryEntry.Timestamp e)
           then HistoryEntry.mk wall (HistoryEntry.Action e) (HistoryEntry.UserID e)
                  (HistoryEntry.StepID e) (HistoryEntry.Comment e)
           else e in
  History.mk (History.RequestID h)
    (stable_sort (fun a b => Before (HistoryEntry.Timestamp a) (HistoryEntry.Timestamp b))
      (History.Timeline h ++ [e])).

Definition Last (h : History.t) : option HistoryEntry.t := last (History.Timeline h).

Definition FilterByAction (h : History.t) (action : string) : list HistoryEntry.t :=
  List.filter (fun e => HistoryEntry.Action e == action) (History.Timeline h).

(** ** Decisions ([state_machine.go]) *)

Definition CanTransition (from to : string) : bool :=
  if from == to then false
  else if from != StatusPending then false
  else (to == StatusApproved) || (to == StatusRejected) || (to == StatusTimeout) || (to == StatusCancelled).

Definition isApprover (step : ApprovalStep.t) (userID : string) : bool :=
  existsb (fun a => a == userID) (ApprovalStep.Approvers step).

Definition nextSequentialApprover (step : ApprovalStep.t) (rs : RequestStep.t) : string :=
  default "" (ApprovalStep.Approvers step !! length (RequestStep.Decisions rs)).

(** The outcome of a step that everyone must approve. *)
Definition evaluate_all (step : ApprovalStep.t) (rs : RequestStep.t) : bool * bool :=
  if existsb (fun d => Decision.Action d == ActionReject) (RequestStep.Decisions rs) then (true, false)
  else if (length (ApprovalStep.Approvers step) <=? length (RequestStep.Decisions rs))%nat
  then (true, true) else (false, false).

Fixpoint evaluate_any (ds : list Decision.t) : bool * bool :=
  match ds with
  | [] => (false, false)
  | d :: ds =>
      if Decision.Action d == ActionApprove then (true, true)
      else if Decision.Action d == ActionReject then (true, false)
      else evaluate_any ds
  end.

Definition evaluateStep (step : ApprovalStep.t) (rs : RequestStep.t) : bool * bool :=
  if ApprovalStep.Mode step == StepSequential then evaluate_all step rs
  else if ApprovalStep.Mode step == StepCountersign then evaluate_all step rs
  else if ApprovalStep.Mode step == StepAnyOf then evaluate_any (RequestStep.Decisions rs)
  else (false, false).

Definition stepExpired (step : ApprovalStep.t) (rs : RequestStep.t) (now : time) : bool :=
  if (ApprovalStep.Timeout step <=? 0)%Z || IsZero (RequestStep.StartedAt rs) then false
  else (Sub now (RequestStep.StartedAt rs) >? ApprovalStep.Timeout step)%Z.

Definition validateDecision (req : ApprovalRequest.t) (flow : ApprovalFlow.t) (userID : string)
    (now : time) : result approval_error (ApprovalStep.t * RequestStep.t) :=
  if ApprovalRequest.Status req != StatusPending then Err ErrNotPending
  else if negb (IsZero (ApprovalRequest.ExpireAt req)) && After now (ApprovalRequest.ExpireAt req)
  then Err ErrRequestExpired
  else match StepByOrder flow (ApprovalRequest.CurrentStep req) with
  | None => Err ErrStepNotActive
  | Some step =>
      match RequestStepByOrder req (ApprovalRequest.CurrentStep req) with
      | None => Err ErrStepNotActive
      | Some rs =>
          if negb (isApprover step userID) then Err ErrNotApprover
          else if HasDecided rs userID then Err ErrStepAlreadyDecided
          else
            let expected := nextSequentialApprover step rs in
            if (ApprovalStep.Mode step == StepSequential) && (expected != "") && (expected != userID)
            then Err ErrOutOfOrder
            else Ok (step, rs)
      end
  end.

(** ** Policy ([preset.go]) *)

Definition ShouldRequireApproval (triggerType risk : string) : bool :=
  if (triggerType == TriggerShell) || (triggerType == TriggerBatchRestart) || (triggerType == TriggerK8sDelete)
  then true
  else if triggerType == TriggerConfigChange then risk != RiskLow
  else if triggerType == TriggerDeploy then risk == RiskHigh
  else risk == RiskHigh.

(** A preset flow: template tenant, enabled, no timestamps. *)
Definition preset_flow (trigger name : string) (steps : list ApprovalStep.t) : ApprovalFlow.t :=
  ApprovalFlow.mk ("preset-" +:+ trigger) name "" trigger steps true zero_time zero_time.

Definition DefaultFlows : list ApprovalFlow.t :=
  [ preset_flow TriggerShell "Shell 命令执行审批"
      [ApprovalStep.mk "shell-1" "管理员或签" 1 StepAnyOf ["admin"] (30 * minute)];
    preset_flow TriggerBatchRestart "批量重启审批"
      [ApprovalStep.mk "batch_restart-1" "运维负责人审批" 1 StepSequential ["ops_lead"; "admin"] (30 * minute)];
    preset_flow TriggerK8sDelete "K8s 资源删除审批"
      [ApprovalStep.mk "k8s_delete-1" "SRE 负责人与管理员会签" 1 StepCountersign ["sre_lead"; "admin"] (60 * minute)];
    preset_flow TriggerConfigChange "配置变更审批"
      [ApprovalStep.mk "config_change-1" "运维负责人或签" 1 StepAnyOf ["ops_lead"; "admin"] (30 * minute)];
    preset_flow TriggerDeploy "部署审批"
      [ApprovalStep.mk "deploy-1" "运维负责人审批" 1 StepSequential ["ops_lead"] (30 * minute);
       ApprovalStep.mk "deploy-2" "管理员审批" 2 StepSequential ["admin"] (30 * minute)] ].

Definition DefaultFlowForTrigger (triggerType : string) : option ApprovalFlow.t :=
  find_first (fun f => ApprovalFlow.TriggerType f == triggerType) DefaultFlows.

(** ** The engine ([engine.go]) *)

Module Engine.
Record t := mk {
  flows : gmap string ApprovalFlow.t;
  requests : gmap string ApprovalRequest.t;
  histories : gmap string History.t;
}.
Definition New : t := mk ∅ ∅ ∅.
Definition set_flows v e := mk v (requests e) (histories e).
End Engine.

(** What the notifier is told after the lock is released. *)
Abbreviation notes := (list (ApprovalRequest.t * string)).

Definition CreateFlow (now : time) (flow : ApprovalFlow.t) (e : Engine.t)
  : Engine.t * option approval_error :=
  match ValidateFlow flow with
  | Some x => (e, Some x)
  | None =>
      let cp := if IsZero (ApprovalFlow.CreatedAt flow) then ApprovalFlow.set_CreatedAt now flow else flow in
      let cp := if IsZero (ApprovalFlow.UpdatedAt cp) then ApprovalFlow.set_UpdatedAt now cp else cp in
      match Engine.flows e !! ApprovalFlow.ID cp with
      | Some _ => (e, Some ErrFlowExists)
      | None => (Engine.set_flows (<[ApprovalFlow.ID cp := cp]> (Engine.flows e)) e, None)
      end
  end.

Definition UpdateFlow (now : time) (flow : ApprovalFlow.t) (e : Engine.t)
  : Engine.t * option approval_error :=
  match ValidateFlow flow with
  | Some x => (e, Some x)
  | None =>
      let cp := ApprovalFlow.set_UpdatedAt now flow in
      match Engine.flows e !! ApprovalFlow.ID cp with
      | None => (e, Some ErrFlowNotFound)
      | Some old =>
          let cp := ApprovalFlow.set_CreatedAt (ApprovalFlow.CreatedAt old) cp in
          (Engine.set_flows (<[ApprovalFlow.ID cp := cp]> (Engine.flows e)) e, None)
      end
  end.

Definition DeleteFlow (id : string) (e : Engine.t) : Engine.t * option approval_error :=
  match Engine.flows e !! id with
  | None => (e, Some ErrFlowNotFound)
  | Some _ => (Engine.set_flows (delete id (Engine.flows e)) e, None)
  end.

Definition GetFlow (id : string) (e : Engine.t) : result approval_error ApprovalFlow.t :=
  match Engine.flows e !! id with Some f => Ok f | None => Err ErrFlowNotFound end.

(** [range] is the order in which Go visits the map. *)
Definition ListFlows (range : gmap string ApprovalFlow.t -> list ApprovalFlow.t)
    (tenantID : string) (e : Engine.t) : list ApprovalFlow.t :=
  stable_sort (fun a b => str_lt (ApprovalFlow.ID a) (ApprovalFlow.ID b))
    (List.filter (fun f => negb ((tenantID != "") && (ApprovalFlow.TenantID f != tenantID)))
      (range (Engine.flows e))).

(** Append to the history of a request, if it has one. *)
Definition append_history (wall : time) (id : string) (entry : HistoryEntry.t) (e : Engine.t) : Engine.t :=
  match Engine.histories e !! id with
  | Some h => Engine.mk (Engine.flows e) (Engine.requests e) (<[id := Append wall h entry]> (Engine.histories e))
  | None => e
  end.

(** The snapshots of the steps that a new request starts with. *)
Definition initial_steps (now : time) (flow : ApprovalFlow.t) : list RequestStep.t :=
  (fun s => RequestStep.mk (ApprovalStep.ID s) (ApprovalStep.Order s) StatusPending []
              (if ApprovalStep.Order s == 1%Z then now else zero_time)) <$> ApprovalFlow.Steps flow.

Definition Submit (wall now : time) (req : ApprovalRequest.t) (e : Engine.t)
  : Engine.t * option approval_error * notes :=
  let req := if ApprovalRequest.Status req == "" then ApprovalRequest.set_Status StatusPending req else req in
  match ValidateRequest req with
  | Some x => (e, Some x, [])
  | None =>
      match Engine.requests e !! ApprovalRequest.ID req with
      | Some _ => (e, Some ErrRequestExists, [])
      | None =>
          match Engine.flows e !! ApprovalRequest.FlowID req with
          | None => (e, Some ErrFlowNotFound, [])
          | Some flow =>
              if negb (ApprovalFlow.Enabled flow) then (e, Some FlowDisabled, [])
              else
                let cp := ApprovalRequest.set_Status StatusPending req in
                let cp := ApprovalRequest.set_CurrentStep 1 cp in
                let cp := ApprovalRequest.set_Steps (initial_steps now flow) cp in
                let cp := if IsZero (ApprovalRequest.CreatedAt cp)
                          then ApprovalRequest.set_CreatedAt now cp else cp in
                let cp := ApprovalRequest.set_UpdatedAt now cp in
                let hist := Append wall (History.mk (ApprovalRequest.ID cp) [])
                  (HistoryEntry.mk now HistorySubmit (ApprovalRequest.Operator cp) "" "submit approval request") in
                (Engine.mk (Engine.flows e) (<[ApprovalRequest.ID cp := cp]> (Engine.requests e))
                   (<[ApprovalRequest.ID cp := hist]> (Engine.histories e)),
                 None, [(cp, HistorySubmit)])
          end
      end
  end.

(** What a decision does to the request: the new request, the action that is
    notified, and the history entry. *)
Definition decide_step (now : time) (flow : ApprovalFlow.t) (step : ApprovalStep.t) (rs : RequestStep.t)
    (userID comment action : string) (req : ApprovalRequest.t)
  : ApprovalRequest.t * string * HistoryEntry.t :=
  let order := RequestStep.Order rs in
  let rs := RequestStep.set_Decisions
    (RequestStep.Decisions rs ++ [Decision.mk userID action comment now]) rs in
  let upd g r := ApprovalRequest.set_Steps (update_step order g (ApprovalRequest.Steps r)) r in
  let req := upd (fun _ => rs) req in
  let req := ApprovalRequest.set_UpdatedAt now req in
  let entry := HistoryEntry.mk now action userID (ApprovalStep.ID step) comment in
  let (done, passed) := evaluateStep step rs in
  if done then
    if passed then
      let req := upd (RequestStep.set_Status StatusApproved) req in
      if (ApprovalStep.Order step >=? LastOrder flow)%Z then
        let req := ApprovalRequest.set_Status StatusApproved req in
        (ApprovalRequest.set_CurrentStep (wrap_i64 (ApprovalStep.Order step + 1)) req, action, entry)
      else
        let req := ApprovalRequest.set_CurrentStep (wrap_i64 (ApprovalStep.Order step + 1)) req in
        let req := ApprovalRequest.set_Steps
          (update_step (ApprovalRequest.CurrentStep req) (RequestStep.set_StartedAt now)
             (ApprovalRequest.Steps req)) req in
        (req, HistoryStepAdvance,
         HistoryEntry.mk now HistoryStepAdvance userID (ApprovalStep.ID step)
           ("step " +:+ ApprovalStep.ID step +:+ " approved, advance to next step"))
    else
      let req := upd (RequestStep.set_Status StatusRejected) req in
      (ApprovalRequest.set_Status StatusRejected req, action, entry)
  else (req, action, entry).

Definition applyDecision (wall now : time) (requestID userID comment action : string) (e : Engine.t)
  : Engine.t * result approval_error ApprovalRequest.t * notes :=
  match Engine.requests e !! requestID with
  | None => (e, Err ErrRequestNotFound, [])
  | Some req =>
      if ApprovalRequest.Status req != StatusPending then (e, Err ErrNotPending, [])
      else match Engine.flows e !! ApprovalRequest.FlowID req with
      | None => (e, Err ErrFlowNotFound, [])
      | Some flow =>
          match validateDecision req flow userID now with
          | Err x => (e, Err x, [])
          | Ok (step, rs) =>
              let '(req, notifyAction, entry) := decide_step now flow step rs userID comment action req in
              let e := Engine.mk (Engine.flows e) (<[requestID := req]> (Engine.requests e)) (Engine.histories e) in
              (append_history wall requestID entry e, Ok req, [(req, notifyAction)])
          end
      end
  end.

Definition error_of {A} (r : result approval_error A) : option approval_error :=
  match r with Ok _ => None | Err x => Some x end.

Definition Approve (wall now : time) (requestID userID comment : string) (e : Engine.t) :=
  let '(e, r, n) := applyDecision wall now requestID userID comment ActionApprove e in (e, error_of r, n).

Definition Reject (wall now : time) (requestID userID comment : string) (e : Engine.t) :=
  let '(e, r, n) := applyDecision wall now requestID userID comment ActionReject e in (e, error_of r, n).

Definition Cancel (wall now : time) (requestID userID : string) (e : Engine.t)
  : Engine.t * option approval_error * notes :=
  match Engine.requests e !! requestID with
  | None => (e, Some ErrRequestNotFound, [])
  | Some req =>
      if ApprovalRequest.Status req != StatusPending then (e, Some ErrInvalidTransition, [])
      else
        let req := ApprovalRequest.set_UpdatedAt now (ApprovalRequest.set_Status StatusCancelled req) in
        let e := Engine.mk (Engine.flows e) (<[requestID := req]> (Engine.requests e)) (Engine.histories e) in
        (append_history wall requestID
           (HistoryEntry.mk now HistoryCancel userID "" "cancel approval request") e,
         None, [(req, HistoryCancel)])
  end.

Definition recordTimeout (wall : time) (req : ApprovalRequest.t) (stepID : string) (now : time)
    (comment : string) (e : Engine.t) : Engine.t :=
  append_history wall (ApprovalRequest.ID req) (HistoryEntry.mk now HistoryTimeout "" stepID comment) e.

Definition CheckTimeout (wall now : time) (requestID : string) (e : Engine.t)
  : Engine.t * result approval_error bool * notes :=
  match Engine.requests e !! requestID with
  | None => (e, Err ErrRequestNotFound, [])
  | Some req =>
      let put req := Engine.mk (Engine.flows e) (<[requestID := req]> (Engine.requests e)) (Engine.histories e) in
      if ApprovalRequest.Status req != StatusPending then (e, Ok false, [])
      else if IsExpired req now then
        let req := ApprovalRequest.set_UpdatedAt now (ApprovalRequest.set_Status StatusTimeout req) in
        (recordTimeout wall req "" now "request expired" (put req), Ok true, [(req, HistoryTimeout)])
      else match Engine.flows e !! ApprovalRequest.FlowID req with
      | None => (e, Err ErrFlowNotFound, [])
      | Some flow =>
          match StepByOrder flow (ApprovalRequest.CurrentStep req) with
          | None => (e, Ok false, [])
          | Some step =>
              match RequestStepByOrder req (ApprovalRequest.CurrentStep req) with
              | None => (e, Ok false, [])
              | Some rs =>
                  if negb (stepExpired step rs now) then (e, Ok false, [])
                  else
                    let req := ApprovalRequest.set_Steps
                      (update_step (ApprovalRequest.CurrentStep req) (RequestStep.set_Status StatusRejected)
                         (ApprovalRequest.Steps req)) req in
                    let req := ApprovalRequest.set_UpdatedAt now (ApprovalRequest.set_Status StatusRejected req) in
                    (recordTimeout wall req (ApprovalStep.ID step) now
                       ("step " +:+ ApprovalStep.ID step +:+ " timed out") (put req),
                     Ok true, [(req, HistoryTimeout)])
              end
          end
      end
  end.

Definition GetRequest (id : string) (e : Engine.t) : result approval_error ApprovalRequest.t :=
  match Engine.requests e !! id with Some r => Ok r | None => Err ErrRequestNotFound end.

Definition ListRequests (range : gmap string ApprovalRequest.t -> list ApprovalRequest.t)
    (tenantID status : string) (e : Engine.t) : list ApprovalRequest.t :=
  stable_sort (fun a b => After (ApprovalRequest.CreatedAt a) (ApprovalRequest.CreatedAt b))
    (List.filter (fun r =>
       negb ((tenantID != "") && (ApprovalRequest.TenantID r != tenantID)) &&
       negb ((status != "") && (ApprovalRequest.Status r != status))) (range (Engine.requests e))).

(** The guards of the loop of [ListPendingApprovals]. *)
Definition awaits (userID : string) (e : Engine.t) (r : ApprovalRequest.t) : bool :=
  if ApprovalRequest.Status r != StatusPending then false
  else match Engine.flows e !! ApprovalRequest.FlowID r with
  | None => false
  | Some flow =>
      match StepByOrder flow (ApprovalRequest.CurrentStep r) with
      | None => false
      | Some step =>
          if negb (isApprover step userID) then false
          else match RequestStepByOrder r (ApprovalRequest.CurrentStep r) with
          | None => false
          | Some rs =>
              if HasDecided rs userID then false
              else
                let next := nextSequentialApprover step rs in
                negb ((ApprovalStep.Mode step == StepSequential) && (next != "") && (next != userID))
          end
      end
  end.

Definition ListPendingApprovals (range : gmap string ApprovalRequest.t -> list ApprovalRequest.t)
    (userID : string) (e : Engine.t) : list ApprovalRequest.t :=
  stable_sort (fun a b => Before (ApprovalRequest.CreatedAt a) (ApprovalRequest.CreatedAt b))
    (List.filter (awaits userID e) (range (Engine.requests e))).

Definition GetHistory (requestID : string) (e : Engine.t) : result approval_error History.t :=
  match Engine.requests e !! requestID with
  | None => Err ErrRequestNotFound
  | Some _ => Ok (default (History.mk requestID []) (Engine.histories e !! requestID))
  end.
