(* ===== verification/ApprovalProps.v ===== *)
(** * Properties of the approval engine

    Histories of the engine as runs of its operations: what is final, what an
    approval guarantees, which decisions are accepted, and where the flow a
    request was submitted under is not the flow it is judged by. *)

From S2P Require Import GoStrings Prelude Approval.
Open Scope go_scope.

(** ** Histories *)

Inductive op :=
  | OCreateFlow (now : time) (f : ApprovalFlow.t)
  | OUpdateFlow (now : time) (f : ApprovalFlow.t)
  | ODeleteFlow (id : string)
  | OSubmit (wall now : time) (req : ApprovalRequest.t)
  | OApprove (wall now : time) (id user comment : string)
  | OReject (wall now : time) (id user comment : string)
  | OCancel (wall now : time) (id user : string)
  | OCheckTimeout (wall now : time) (id : string).

Definition step (o : op) (e : Engine.t) : Engine.t :=
  match o with
  | OCreateFlow now f => (CreateFlow now f e).1
  | OUpdateFlow now f => (UpdateFlow now f e).1
  | ODeleteFlow id => (DeleteFlow id e).1
  | OSubmit wall now req => (Submit wall now req e).1.1
  | OApprove wall now id user comment => (Approve wall now id user comment e).1.1
  | OReject wall now id user comment => (Reject wall now id user comment e).1.1
  | OCancel wall now id user => (Cancel wall now id user e).1.1
  | OCheckTimeout wall now id => (CheckTimeout wall now id e).1.1
  end.

(** ** What one operation does to one request *)

(** A request stays as it is, or was pending and has moved on. *)
Definition moves (r r' : ApprovalRequest.t) : Prop :=
  r' = r \/
  (ApprovalRequest.Status r = StatusPending /\ ApprovalRequest.FlowID r' = ApprovalRequest.FlowID r /\
   ApprovalRequest.ID r' = ApprovalRequest.ID r /\ ApprovalRequest.TenantID r' = ApprovalRequest.TenantID r /\
   (ApprovalRequest.Status r' = StatusPending \/
    CanTransition StatusPending (ApprovalRequest.Status r') = true)).

#[export] Instance moves_preorder : PreOrder moves.
Proof.
  split; [by left |]. intros r1 r2 r3 [-> | H1] [-> | H2]; [by left | by right | by right |].
  right. destruct H1 as (A1 & B1 & C1 & D1 & _), H2 as (A2 & B2 & C2 & D2 & E2).
  split_and!; congruence || done.
Qed.

Definition all_move (e e' : Engine.t) : Prop :=
  forall id r, Engine.requests e !! id = Some r ->
    exists r', Engine.requests e' !! id = Some r' /\ moves r r'.

#[export] Instance all_move_preorder : PreOrder all_move.
Proof.
  split; [intros e id r H; by exists r |].
  intros e1 e2 e3 H1 H2 id r H. destruct (H1 id r H) as (r' & H' & M1).
  destruct (H2 id r' H') as (r'' & H'' & M2). exists r''. split; [done | by etransitivity].
Qed.

Lemma all_move_same e e' : Engine.requests e' = Engine.requests e -> all_move e e'.
Proof. intros E id r H. rewrite E. by exists r. Qed.

Lemma all_move_put e e' id r r' :
  Engine.requests e !! id = Some r -> Engine.requests e' = <[id := r']> (Engine.requests e) ->
  moves r r' -> all_move e e'.
Proof.
  intros H E M id0 r0 H0. rewrite E. destruct (decide (id = id0)) as [<- | Hne].
  - rewrite lookup_insert_eq. exists r'. split; [done |]. congruence.
  - rewrite lookup_insert_ne by done. by exists r0.
Qed.

Lemma append_history_requests wall id h e :
  Engine.requests (append_history wall id h e) = Engine.requests e /\
  Engine.flows (append_history wall id h e) = Engine.flows e.
Proof. unfold append_history. by destruct (_ !! id). Qed.

(** The request after a decision, and the four ways the step can go on. *)
Definition decided (now : time) (rs : RequestStep.t) (user comment action : string) : RequestStep.t :=
  RequestStep.set_Decisions (RequestStep.Decisions rs ++ [Decision.mk user action comment now]) rs.

(** What the invariants look at in a step snapshot. *)
Definition shape (rs : RequestStep.t) : Z * list Decision.t := (RequestStep.Order rs, RequestStep.Decisions rs).

Lemma update_step_shape o g l :
  (forall s, shape (g s) = shape s) -> shape <$> update_step o g l = shape <$> l.
Proof.
  intros H. induction l as [| s l IH]; [done |]. cbn [update_step].
  case_bool_decide; rewrite !fmap_cons; by rewrite ?H, ?IH.
Qed.

Lemma update_step_const o x l :
  RequestStep.Order x = o ->
  shape <$> update_step o (fun _ => x) l =
    match list_find (fun s => RequestStep.Order s = o) l with
    | Some (i, _) => <[i := shape x]> (shape <$> l)
    | None => shape <$> l
    end.
Proof.
  intros Hx. induction l as [| s l IH]; [done |]. cbn [update_step list_find].
  case_bool_decide as E; case_decide; try done. rewrite !fmap_cons, IH.
  by destruct (list_find _ l) as [[i y] |].
Qed.

Lemma decide_step_spec now flow st rs user comment action req req' act entry :
  decide_step now flow st rs user comment action req = (req', act, entry) ->
  let rs' := decided now rs user comment action in
  shape <$> ApprovalRequest.Steps req' =
    shape <$> update_step (RequestStep.Order rs) (fun _ => rs') (ApprovalRequest.Steps req) /\
  ApprovalRequest.ID req' = ApprovalRequest.ID req /\
  ApprovalRequest.FlowID req' = ApprovalRequest.FlowID req /\
  ApprovalRequest.TenantID req' = ApprovalRequest.TenantID req /\
  match evaluateStep st rs' with
  | (false, _) =>
      ApprovalRequest.Status req' = ApprovalRequest.Status req /\
      ApprovalRequest.CurrentStep req' = ApprovalRequest.CurrentStep req
  | (true, false) => ApprovalRequest.Status req' = StatusRejected
  | (true, true) =>
      if (ApprovalStep.Order st >=? LastOrder flow)%Z
      then ApprovalRequest.Status req' = StatusApproved
      else ApprovalRequest.Status req' = ApprovalRequest.Status req /\
           ApprovalRequest.CurrentStep req' = wrap_i64 (ApprovalStep.Order st + 1)
  end.
Proof.
  unfold decide_step. cbv zeta. fold (decided now rs user comment action).
  destruct (evaluateStep st (decided now rs user comment action)) as [[] []].
  1: destruct (_ >=? _)%Z.
  all: intros [= <- <- <-]; split; [| done].
  all: cbn [ApprovalRequest.Steps ApprovalRequest.set_Steps ApprovalRequest.set_Status
    ApprovalRequest.set_CurrentStep ApprovalRequest.set_UpdatedAt ApprovalRequest.CurrentStep].
  all: rewrite ?(update_step_shape _ (RequestStep.set_StartedAt now)) by done.
  all: rewrite ?(update_step_shape _ (RequestStep.set_Status _)) by done; done.
Qed.

(** Every operation changes the requests only by such moves. *)
Lemma decide_moves now flow st rs user comment action req req' act entry :
  ApprovalRequest.Status req = StatusPending ->
  decide_step now flow st rs user comment action req = (req', act, entry) -> moves req req'.
Proof.
  intros Hp H. apply decide_step_spec in H as (_ & H1 & H2 & H3 & H4). right.
  split_and!; [done..|]. destruct (evaluateStep _ _) as [[] []].
  - destruct (_ >=? _)%Z; [rewrite H4; by right | left; by rewrite (proj1 H4)].
  - rewrite H4. by right.
  - left. by rewrite (proj1 H4).
  - left. by rewrite (proj1 H4).
Qed.

Lemma validateDecision_pending req flow user now st rs :
  validateDecision req flow user now = Ok (st, rs) -> ApprovalRequest.Status req = StatusPending.
Proof. unfold validateDecision. by case_bool_decide. Qed.

Lemma applyDecision_cases wall now id user comment action e :
  (exists x, applyDecision wall now id user comment action e = (e, Err x, [])) \/
  (exists req flow st rs req' act entry e',
     Engine.requests e !! id = Some req /\ Engine.flows e !! ApprovalRequest.FlowID req = Some flow /\
     validateDecision req flow user now = Ok (st, rs) /\
     decide_step now flow st rs user comment action req = (req', act, entry) /\
     applyDecision wall now id user comment action e = (e', Ok req', [(req', act)]) /\
     Engine.requests e' = <[id := req']> (Engine.requests e) /\ Engine.flows e' = Engine.flows e).
Proof.
  unfold applyDecision. destruct (Engine.requests e !! id) as [req |]; [| left; by eexists].
  case_bool_decide; [| left; by eexists]. simpl.
  destruct (Engine.flows e !! _) as [flow |] eqn:Ef; [| left; by eexists].
  destruct (validateDecision req flow user now) as [[st rs] | x] eqn:Ev; [| left; by eexists].
  destruct (decide_step now flow st rs user comment action req) as [[req' act] entry] eqn:Ed.
  right. exists req, flow, st, rs, req', act, entry. eexists. split_and!; try done.
  all: by rewrite ?(proj1 (append_history_requests _ _ _ _)), ?(proj2 (append_history_requests _ _ _ _)).
Qed.

Lemma applyDecision_moves wall now id user comment action e :
  all_move e (applyDecision wall now id user comment action e).1.1.
Proof.
  destruct (applyDecision_cases wall now id user comment action e)
    as [(x & ->) | (req & flow & st & rs & req' & act & entry & e' & H1 & H2 & H3 & H4 & -> & H5 & H6)].
  { reflexivity. }
  eapply all_move_put; [exact H1 | exact H5 |].
  eapply decide_moves; [by eapply validateDecision_pending | done].
Qed.

Lemma Cancel_cases wall now id user e :
  (Cancel wall now id user e).1.1 = e \/
  exists req, Engine.requests e !! id = Some req /\ ApprovalRequest.Status req = StatusPending /\
    Engine.requests (Cancel wall now id user e).1.1 =
      <[id := ApprovalRequest.set_UpdatedAt now (ApprovalRequest.set_Status StatusCancelled req)]>
        (Engine.requests e) /\
    Engine.flows (Cancel wall now id user e).1.1 = Engine.flows e.
Proof.
  unfold Cancel. destruct (Engine.requests e !! id) as [req |]; [| by left].
  case_bool_decide as Hp; [right | by left]. exists req. simpl. split_and!; [done | done | |].
  all: by rewrite ?(proj1 (append_history_requests _ _ _ _)), ?(proj2 (append_history_requests _ _ _ _)).
Qed.

(** A timeout ends the request and leaves the decisions alone. *)
Lemma CheckTimeout_cases wall now id e :
  (CheckTimeout wall now id e).1.1 = e \/
  exists req req', Engine.requests e !! id = Some req /\ ApprovalRequest.Status req = StatusPending /\
    ApprovalRequest.ID req' = ApprovalRequest.ID req /\
    ApprovalRequest.FlowID req' = ApprovalRequest.FlowID req /\
    ApprovalRequest.TenantID req' = ApprovalRequest.TenantID req /\
    shape <$> ApprovalRequest.Steps req' = shape <$> ApprovalRequest.Steps req /\
    (ApprovalRequest.Status req' = StatusTimeout \/ ApprovalRequest.Status req' = StatusRejected) /\
    Engine.requests (CheckTimeout wall now id e).1.1 = <[id := req']> (Engine.requests e) /\
    Engine.flows (CheckTimeout wall now id e).1.1 = Engine.flows e.
Proof.
  unfold CheckTimeout, recordTimeout. destruct (Engine.requests e !! id) as [req |]; [| by left].
  case_bool_decide as Hp; [| by left]. cbv zeta. simpl.
  destruct (IsExpired req now).
  - right. exists req, (ApprovalRequest.set_UpdatedAt now (ApprovalRequest.set_Status StatusTimeout req)).
    cbn [fst].
    rewrite (proj1 (append_history_requests _ _ _ _)), (proj2 (append_history_requests _ _ _ _)).
    (split_and!; [.. | by left | reflexivity | reflexivity]); done.
  - destruct (Engine.flows e !! _) as [flow |]; [| by left].
    destruct (StepByOrder flow _) as [st |]; [| by left].
    destruct (RequestStepByOrder req _) as [rs |]; [| by left].
    destruct (stepExpired st rs now); [| by left]. right. exists req, (ApprovalRequest.set_UpdatedAt now (ApprovalRequest.set_Status StatusRejected
      (ApprovalRequest.set_Steps (update_step (ApprovalRequest.CurrentStep req)
        (RequestStep.set_Status StatusRejected) (ApprovalRequest.Steps req)) req))). cbn [fst negb].
    rewrite (proj1 (append_history_requests _ _ _ _)), (proj2 (append_history_requests _ _ _ _)).
    (split_and!; [.. | by right | reflexivity | reflexivity]); try done. simpl. by apply update_step_shape.
Qed.

(** A submission adds a fresh request of an existing flow. *)
Lemma Submit_cases wall now req e :
  (Submit wall now req e).1.1 = e \/
  exists flow r, Engine.flows e !! ApprovalRequest.FlowID r = Some flow /\
    Engine.requests e !! ApprovalRequest.ID r = None /\
    ApprovalRequest.Status r = StatusPending /\ ApprovalRequest.CurrentStep r = 1%Z /\
    ApprovalRequest.Steps r = initial_steps now flow /\
    Engine.requests (Submit wall now req e).1.1 = <[ApprovalRequest.ID r := r]> (Engine.requests e) /\
    Engine.flows (Submit wall now req e).1.1 = Engine.flows e.
Proof.
  unfold Submit. cbv zeta.
  set (q := if _ == "" then _ else req).
  destruct (ValidateRequest q); [by left |].
  destruct (Engine.requests e !! ApprovalRequest.ID q) eqn:En; [by left |].
  destruct (Engine.flows e !! ApprovalRequest.FlowID q) as [flow |] eqn:Ef; [| by left].
  destruct (ApprovalFlow.Enabled flow); [| by left]. right. exists flow. cbn [negb fst].
  destruct (IsZero _); eexists; (split_and!; [.. | reflexivity | reflexivity]); done.
Qed.

Lemma step_moves o e : all_move e (step o e).
Proof.
  destruct o as [now f | now f | id | wall now req | wall now id user comment | wall now id user comment
    | wall now id user | wall now id]; simpl.
  - apply all_move_same. unfold CreateFlow. destruct (ValidateFlow f); [done |]. by destruct (_ !! _).
  - apply all_move_same. unfold UpdateFlow. destruct (ValidateFlow f); [done |]. by destruct (_ !! _).
  - apply all_move_same. unfold DeleteFlow. by destruct (_ !! _).
  - destruct (Submit_cases wall now req e) as [-> | (flow & r & _ & Hn & _ & _ & _ & Hr & _)]; [reflexivity |].
    intros id r0 H0. rewrite Hr. exists r0. split; [| by left].
    rewrite lookup_insert_ne by congruence. done.
  - unfold Approve. pose proof (applyDecision_moves wall now id user comment ActionApprove e) as H.
    by destruct (applyDecision _ _ _ _ _ _ _) as [[e' r] n].
  - unfold Reject. pose proof (applyDecision_moves wall now id user comment ActionReject e) as H.
    by destruct (applyDecision _ _ _ _ _ _ _) as [[e' r] n].
  - destruct (Cancel_cases wall now id user e) as [-> | (req & H1 & Hp & H2 & _)]; [reflexivity |].
    eapply all_move_put; [exact H1 | exact H2 |]. right. split_and!; try done. by right.
  - destruct (CheckTimeout_cases wall now id e)
      as [-> | (req & req' & H1 & Hp & Hi & Hf & Ht & _ & Hs & H2 & _)]; [reflexivity |].
    eapply all_move_put; [exact H1 | exact H2 |]. right. split_and!; [done..|].
    destruct Hs as [-> | ->]; by right.
Qed.

(** ** A request and the flow that judges it *)

Definition orders (f : ApprovalFlow.t) : list Z := ApprovalStep.Order <$> ApprovalFlow.Steps f.
Definition positive_flow (f : ApprovalFlow.t) : Prop := Forall (Z.lt 0) (orders f).
Definition sorted_flow (f : ApprovalFlow.t) : Prop := StronglySorted Z.lt (orders f).

Lemma validate_steps_sorted steps so si prev :
  validate_steps steps so si prev = None ->
  StronglySorted Z.lt (ApprovalStep.Order <$> steps) /\ Forall (Z.lt 0) (ApprovalStep.Order <$> steps) /\
  forall p, prev = Some p -> Forall (Z.lt p) (ApprovalStep.Order <$> steps).
Proof.
  revert so si prev. induction steps as [| s steps IH]; intros so si prev H; [by repeat constructor |].
  cbn [validate_steps] in H. 
  repeat match type of H with
  | (if ?b then Some _ else _) = None => destruct b eqn:?; [done |]
  end.
  apply IH in H as (H1 & H0 & H2). specialize (H2 _ eq_refl). rewrite fmap_cons.
  split_and!; [by constructor | constructor; [lia | done] |].
  intros p ->. assert (Hp : (p < ApprovalStep.Order s)%Z) by lia. constructor; [done |].
  eapply Forall_impl; [exact H2 |]. intros x Hx. lia.
Qed.

Lemma ValidateFlow_sorted f : ValidateFlow f = None -> sorted_flow f /\ positive_flow f.
Proof.
  unfold ValidateFlow. repeat (case_bool_decide; [done |]).
  intros (Ha & Hb & _)%validate_steps_sorted. done.
Qed.

Lemma sorted_lookup_inj l i j x :
  StronglySorted Z.lt l -> l !! i = Some x -> l !! j = Some x -> i = j.
Proof.
  intros Hs. revert i j. induction Hs as [| y l Hl IH Hy]; intros [| i] [| j] Hi Hj; try done; simpl in *.
  - injection Hi as ->. eapply Forall_lookup in Hy; [| exact Hj]. lia.
  - injection Hj as ->. eapply Forall_lookup in Hy; [| exact Hi]. lia.
  - f_equal. by apply IH.
Qed.

Lemma sorted_last l m x : StronglySorted Z.lt l -> last l = Some m -> x ∈ l -> (x <= m)%Z.
Proof.
  intros Hs. induction Hs as [| y l Hl IH Hy]; [done |]. rewrite last_cons.
  destruct (last l) as [m' |] eqn:El; intros [= ->] [-> | Hx]%elem_of_cons; auto; try lia.
  - eapply Forall_forall in Hy; [| apply list_elem_of_lookup; exists (pred (length l));
      rewrite <- last_lookup; exact El]. lia.
  - apply last_None in El as ->. by apply elem_of_nil in Hx.
Qed.

Lemma LastOrder_bound f i s :
  sorted_flow f -> ApprovalFlow.Steps f !! i = Some s -> (ApprovalStep.Order s <= LastOrder f)%Z.
Proof.
  intros Hf Hi. unfold LastOrder. destruct (last (ApprovalFlow.Steps f)) as [m |] eqn:E.
  - apply (sorted_last (orders f)); [done | unfold orders; by rewrite fmap_last, E |].
    apply list_elem_of_lookup. exists i. unfold orders. by rewrite list_lookup_fmap, Hi.
  - apply last_None in E. by rewrite E in Hi.
Qed.

(** The outcome of a step as a function of its decisions. *)
Definition eval (s : ApprovalStep.t) (ds : list Decision.t) : bool * bool :=
  evaluateStep s (RequestStep.mk "" 0 "" ds 0).

Lemma evaluateStep_eval s rs : evaluateStep s rs = eval s (RequestStep.Decisions rs).
Proof. done. Qed.

(** The decisions of a step come from different approvers of the step, in turn
    where the step is sequential. *)
Record step_ok (s : ApprovalStep.t) (ds : list Decision.t) : Prop := {
  ok_users : NoDup (Decision.UserID <$> ds);
  ok_approvers : forall d, d ∈ ds -> Decision.UserID d ∈ ApprovalStep.Approvers s;
  ok_actions : forall d, d ∈ ds -> Decision.Action d = ActionApprove \/ Decision.Action d = ActionReject;
  ok_turns : ApprovalStep.Mode s = StepSequential -> Forall (fun a => a <> "") (ApprovalStep.Approvers s) ->
    Decision.UserID <$> ds = take (length ds) (ApprovalStep.Approvers s);
}.

Lemma step_ok_nil s : step_ok s [].
Proof. split; [constructor | by intros d Hd%elem_of_nil.. | done]. Qed.

Record req_ok (f : ApprovalFlow.t) (status : string) (cur : Z) (ks : list (Z * list Decision.t)) : Prop := {
  ok_orders : ks.*1 = orders f;
  ok_step : forall i s k, ApprovalFlow.Steps f !! i = Some s -> ks !! i = Some k -> step_ok s k.2;
  ok_done : forall i s k, ApprovalFlow.Steps f !! i = Some s -> ks !! i = Some k ->
    (status = StatusPending /\ (ApprovalStep.Order s < cur)%Z) \/ status = StatusApproved ->
    eval s k.2 = (true, true);
}.

(** Adding a decision to the current step and moving on to [status], [c]. *)
Lemma req_ok_decide f cur ks i st ds d status c :
  sorted_flow f -> req_ok f StatusPending cur ks ->
  ApprovalFlow.Steps f !! i = Some st -> ApprovalStep.Order st = cur -> ks !! i = Some (cur, ds) ->
  step_ok st (ds ++ [d]) ->
  (forall j s, ApprovalFlow.Steps f !! j = Some s ->
     (status = StatusPending /\ (ApprovalStep.Order s < c)%Z) \/ status = StatusApproved ->
     (ApprovalStep.Order s < cur)%Z \/ (ApprovalStep.Order s = cur /\ eval st (ds ++ [d]) = (true, true))) ->
  req_ok f status c (<[i := (cur, ds ++ [d])]> ks).
Proof.
  intros Hf [Ho Hs Hd] Hi Hcur Hk Hst Hnew. split.
  - rewrite list_fmap_insert, Ho. simpl. apply list_insert_id.
    unfold orders. rewrite list_lookup_fmap, Hi. simpl. by rewrite Hcur.
  - intros j s k Hj. destruct (decide (i = j)) as [<- | Hne].
    + rewrite list_lookup_insert_eq by (by eapply lookup_lt_Some). intros [= <-]. simpl. congruence.
    + rewrite list_lookup_insert_ne by done. eauto.
  - intros j s k Hj Hkj Hx. destruct (Hnew j s Hj Hx) as [Hlt | [Heq He]].
    + assert (i <> j) by (intros ->; rewrite Hi in Hj; injection Hj as <-; lia).
      rewrite list_lookup_insert_ne in Hkj by done. eapply Hd; [done | done | by left].
    + assert (i = j) as <-.
      { apply (sorted_lookup_inj (orders f) i j cur Hf); unfold orders; rewrite list_lookup_fmap;
          [by rewrite Hi; simpl; rewrite Hcur | by rewrite Hj; simpl; rewrite Heq]. }
      rewrite list_lookup_insert_eq in Hkj by (by eapply lookup_lt_Some).
      injection Hkj as <-. simpl. congruence.
Qed.

(** An accepted decision keeps the discipline of the step. *)
Lemma step_ok_decide f req user now st rs comment action :
  validateDecision req f user now = Ok (st, rs) -> step_ok st (RequestStep.Decisions rs) ->
  action = ActionApprove \/ action = ActionReject ->
  step_ok st (RequestStep.Decisions rs ++ [Decision.mk user action comment now]).
Proof.
  unfold validateDecision. case_bool_decide; [| done]. simpl. destruct (_ && After _ _)%go; [done |].
  destruct (StepByOrder f _) as [st' |]; [| done]. destruct (RequestStepByOrder req _) as [rs' |]; [| done].
  destruct (isApprover st' user) eqn:Ea; [| done]. destruct (HasDecided rs' user) eqn:Eh; [done |]. simpl.
  destruct (_ && (_ != user))%go eqn:Et; [done |]. intros [= -> ->] [Hu Hap Hac Ht] Hact.
  assert (Hin : user ∈ ApprovalStep.Approvers st).
  { apply existsb_elem in Ea as (a & Ha & E%bool_decide_eq_true). by subst a. }
  assert (Hno : user ∉ Decision.UserID <$> RequestStep.Decisions rs).
  { intros (d & -> & Hd)%list_elem_of_fmap. eapply existsb_false in Eh; [| exact Hd].
    by rewrite bool_decide_true in Eh. }
  split.
  - rewrite fmap_app. apply NoDup_app. split_and!; [done | | apply NoDup_singleton].
    intros x Hx ->%list_elem_of_singleton. done.
  - intros d [Hd | ->%list_elem_of_singleton]%elem_of_app; [by apply Hap | done].
  - intros d [Hd | ->%list_elem_of_singleton]%elem_of_app; [by apply Hac | done].
  - intros Hm Hne. specialize (Ht Hm Hne). rewrite fmap_app, length_app, Ht. simpl.
    unfold nextSequentialApprover in Et. rewrite (bool_decide_true (_ = StepSequential)) in Et by done.
    destruct (ApprovalStep.Approvers st !! length (RequestStep.Decisions rs)) as [a |] eqn:Ea'.
    + simpl in Et. rewrite (bool_decide_false (a = "")) in Et.
      2: { eapply Forall_lookup in Hne; [exact Hne | exact Ea']. }
      simpl in Et. apply negb_false_iff, bool_decide_eq_true in Et. subst a.
      rewrite Nat.add_1_r. by rewrite (take_S_r _ _ user).
    + exfalso. apply Hno. rewrite Ht, take_ge by (by apply lookup_ge_None). done.
Qed.

Lemma find_first_lookup {A} (p : A -> bool) l x :
  find_first p l = Some x -> exists i, l !! i = Some x /\ p x = true.
Proof. intros [Hin Hp]%find_first_Some. apply list_elem_of_lookup in Hin as [i Hi]. by exists i. Qed.

Lemma validateDecision_Ok req flow user now st rs :
  validateDecision req flow user now = Ok (st, rs) ->
  StepByOrder flow (ApprovalRequest.CurrentStep req) = Some st /\
  RequestStepByOrder req (ApprovalRequest.CurrentStep req) = Some rs /\
  ApprovalStep.Order st = ApprovalRequest.CurrentStep req /\
  RequestStep.Order rs = ApprovalRequest.CurrentStep req.
Proof.
  unfold validateDecision. case_bool_decide; [| done]. simpl. destruct (_ && After _ _)%go; [done |].
  destruct (StepByOrder flow _) as [st' |] eqn:E1; [| done].
  destruct (RequestStepByOrder req _) as [rs' |] eqn:E2; [| done].
  destruct (isApprover st' user); [| done]. destruct (HasDecided rs' user); [done |]. simpl.
  destruct (_ && _ && _)%go; [done |]. intros [= <- <-].
  apply find_first_lookup in E1 as (i & _ & E1%bool_decide_eq_true).
  apply find_first_lookup in E2 as (j & _ & E2%bool_decide_eq_true). done.
Qed.

(** Where the current step stands, in the flow and in the request. *)
Lemma current_step f req user now st rs :
  sorted_flow f -> (shape <$> ApprovalRequest.Steps req).*1 = orders f ->
  validateDecision req f user now = Ok (st, rs) ->
  exists i, ApprovalFlow.Steps f !! i = Some st /\
    (shape <$> ApprovalRequest.Steps req) !! i = Some (shape rs) /\
    forall x, RequestStep.Order x = RequestStep.Order rs ->
      shape <$> update_step (RequestStep.Order rs) (fun _ => x) (ApprovalRequest.Steps req) =
      <[i := shape x]> (shape <$> ApprovalRequest.Steps req).
Proof.
  intros Hf Ho Hv. apply validateDecision_Ok in Hv as (E1 & E2 & Hst & Hrs).
  apply find_first_lookup in E1 as (i & Hi & _). apply find_first_lookup in E2 as (j & Hj & _).
  assert (Hat : forall k y, ApprovalRequest.Steps req !! k = Some y -> orders f !! k = Some (RequestStep.Order y)).
  { intros k y Hk. by rewrite <- Ho, !list_lookup_fmap, Hk. }
  assert (Hi' : orders f !! i = Some (RequestStep.Order rs)).
  { unfold orders. rewrite list_lookup_fmap, Hi. simpl. congruence. }
  assert (i = j) as <- by (eapply (sorted_lookup_inj (orders f)); eauto).
  exists i. split_and!; [done | by rewrite list_lookup_fmap, Hj |].
  intros x Hx. rewrite update_step_const by done.
  destruct (list_find _ (ApprovalRequest.Steps req)) as [[k y] |] eqn:E.
  - apply list_find_Some in E as (Hk & Hy & _).
    assert (k = i) as ->; [| done].
    apply (sorted_lookup_inj (orders f) k i (RequestStep.Order rs) Hf); [| done].
    rewrite <- Hy. by apply Hat.
  - apply list_find_None in E. eapply Forall_lookup in E; [| exact Hj]. done.
Qed.

Lemma wrap_i64_le z : (min_i64 <= z)%Z -> (wrap_i64 z <= z)%Z.
Proof.
  unfold wrap_i64, min_i64. intros H. pose proof (Z.mod_le (z + 2 ^ 63) (2 ^ 64)). lia.
Qed.

Lemma decide_req_ok f req user now st rs comment action req' act entry :
  sorted_flow f -> positive_flow f ->
  req_ok f (ApprovalRequest.Status req) (ApprovalRequest.CurrentStep req) (shape <$> ApprovalRequest.Steps req) ->
  validateDecision req f user now = Ok (st, rs) -> action = ActionApprove \/ action = ActionReject ->
  decide_step now f st rs user comment action req = (req', act, entry) ->
  req_ok f (ApprovalRequest.Status req') (ApprovalRequest.CurrentStep req') (shape <$> ApprovalRequest.Steps req').
Proof.
  intros Hf Hpos Hok Hv Hact Hd. pose proof (validateDecision_pending _ _ _ _ _ _ Hv) as Hp.
  rewrite Hp in Hok.
  destruct (current_step f req user now st rs Hf (ok_orders _ _ _ _ Hok) Hv) as (i & Hi & Hk & Hupd).
  destruct (validateDecision_Ok _ _ _ _ _ _ Hv) as (_ & _ & Hst & Hrs).
  apply decide_step_spec in Hd as (Hshape & _ & _ & _ & Hout). cbv zeta in Hshape, Hout.
  rewrite Hshape, Hupd by done.
  assert (H1 : (0 < ApprovalStep.Order st)%Z).
  { eapply Forall_lookup in Hpos; [exact Hpos |]. unfold orders. by rewrite list_lookup_fmap, Hi. }
  assert (Hds : step_ok st (RequestStep.Decisions rs ++ [Decision.mk user action comment now])).
  { eapply step_ok_decide; [done | | done]. exact (ok_step _ _ _ _ Hok i st _ Hi Hk). }
  rewrite evaluateStep_eval in Hout. simpl in Hout.
  unfold shape at 1. simpl. rewrite Hrs.
  apply (req_ok_decide f _ _ i st (RequestStep.Decisions rs)); try done.
  { by rewrite Hk; unfold shape; rewrite Hrs. }
  intros j s Hj Hx.
  destruct (eval st _) as [[] []].
  - destruct (Z.geb_spec (ApprovalStep.Order st) (LastOrder f)) as [Hlast | Hlast].
    + pose proof (LastOrder_bound f j s Hf Hj).
      destruct (decide (ApprovalStep.Order s = ApprovalRequest.CurrentStep req)); [by right | left; lia].
    + destruct Hout as [Hs Hc]. rewrite Hs, Hc, Hp in Hx. destruct Hx as [[_ Hx] | Hx]; [| done].
      pose proof (wrap_i64_le (ApprovalStep.Order st + 1) ltac:(unfold min_i64; lia)).
      destruct (decide (ApprovalStep.Order s = ApprovalRequest.CurrentStep req)); [by right | left; lia].
  - rewrite Hout in Hx. destruct Hx as [[? _] | ?]; done.
  - destruct Hout as [Hs Hc]. rewrite Hs, Hc, Hp in Hx. destruct Hx as [[_ Hx] | Hx]; [by left | done].
  - destruct Hout as [Hs Hc]. rewrite Hs, Hc, Hp in Hx. destruct Hx as [[_ Hx] | Hx]; [by left | done].
Qed.

(** ** Runs that leave one flow alone *)

Definition keeps_flow (fid : string) (o : op) : Prop :=
  match o with
  | OUpdateFlow _ f => ApprovalFlow.ID f <> fid
  | ODeleteFlow id => id <> fid
  | _ => True
  end.

Record flow_inv (fid : string) (e : Engine.t) : Prop := {
  inv_flows : map_Forall (fun id f => ApprovalFlow.ID f = id /\ sorted_flow f /\ positive_flow f)
    (Engine.flows e);
  inv_requests : forall id r, Engine.requests e !! id = Some r -> ApprovalRequest.FlowID r = fid ->
    exists f, Engine.flows e !! fid = Some f /\
      req_ok f (ApprovalRequest.Status r) (ApprovalRequest.CurrentStep r) (shape <$> ApprovalRequest.Steps r);
}.

Lemma req_ok_settled f status cur ks status' cur' :
  req_ok f status cur ks -> status' <> StatusPending -> status' <> StatusApproved ->
  req_ok f status' cur' ks.
Proof. intros [H1 H2 _] Hp Ha. split; [done | done |]. by intros i s k _ _ [[? _] | ?]. Qed.

Lemma req_ok_initial f now :
  sorted_flow f -> positive_flow f ->
  req_ok f StatusPending 1 (shape <$> initial_steps now f).
Proof.
  intros Hf Hpos. unfold initial_steps. rewrite <- list_fmap_compose.
  split.
  - rewrite <- list_fmap_compose. done.
  - intros i s k _ Hk. rewrite list_lookup_fmap in Hk.
    destruct (ApprovalFlow.Steps f !! i); [injection Hk as <- | done]. apply step_ok_nil.
  - intros i s k Hi _ [[_ Hlt] | ?]; [| done].
    assert (Ho : orders f !! i = Some (ApprovalStep.Order s)).
    { unfold orders. by rewrite list_lookup_fmap, Hi. }
    eapply Forall_lookup in Hpos; [| exact Ho]. lia.
Qed.

(** Changing one request, the flows staying. *)
Lemma flow_inv_put fid e e' id r r' :
  flow_inv fid e -> Engine.flows e' = Engine.flows e ->
  Engine.requests e' = <[id := r']> (Engine.requests e) -> Engine.requests e !! id = Some r ->
  ApprovalRequest.FlowID r' = ApprovalRequest.FlowID r ->
  (forall f, Engine.flows e !! ApprovalRequest.FlowID r = Some f -> sorted_flow f -> positive_flow f ->
     req_ok f (ApprovalRequest.Status r) (ApprovalRequest.CurrentStep r) (shape <$> ApprovalRequest.Steps r) ->
     req_ok f (ApprovalRequest.Status r') (ApprovalRequest.CurrentStep r') (shape <$> ApprovalRequest.Steps r')) ->
  flow_inv fid e'.
Proof.
  intros [Hfl Hreq] Ef Er Hr Hfid Hok. split; [by rewrite Ef |]. intros id0 r0. rewrite Er, Ef.
  destruct (decide (id = id0)) as [<- | Hne].
  - rewrite lookup_insert_eq. intros [= <-] Hf0. rewrite Hfid in Hf0.
    destruct (Hreq id r Hr Hf0) as (f & Hf & Hrok). exists f. split; [done |].
    destruct (Hfl fid f Hf) as (_ & Hs & Hp). apply Hok; [by rewrite Hf0 | done..].
  - rewrite lookup_insert_ne by done. apply Hreq.
Qed.

Lemma flow_inv_flows fid e fl :
  flow_inv fid e -> map_Forall (fun id f => ApprovalFlow.ID f = id /\ sorted_flow f /\ positive_flow f) fl ->
  (forall f, Engine.flows e !! fid = Some f -> fl !! fid = Some f) ->
  flow_inv fid (Engine.set_flows fl e).
Proof.
  intros [_ Hreq] Hfl Hsame. split; [done |]. intros id r Hr Hf. simpl.
  destruct (Hreq id r Hr Hf) as (f & H1 & H2). exists f. auto.
Qed.

Lemma decision_flow_inv fid wall now id user comment action e :
  action = ActionApprove \/ action = ActionReject -> flow_inv fid e ->
  flow_inv fid (applyDecision wall now id user comment action e).1.1.
Proof.
  intros Hact Hinv. destruct (applyDecision_cases wall now id user comment action e)
    as [(x & ->) | (req & flow & st & rs & req' & act & entry & e' & H1 & H2 & H3 & H4 & -> & H5 & H6)].
  { done. }
  eapply flow_inv_put; [done | exact H6 | exact H5 | exact H1 | by eapply decide_step_spec |].
  intros f Hf Hs Hp Hok. rewrite H2 in Hf. injection Hf as <-. by eapply decide_req_ok.
Qed.

Lemma create_flow_inv fid now f e : flow_inv fid e -> flow_inv fid (CreateFlow now f e).1.
Proof.
  intros Hinv. unfold CreateFlow. destruct (ValidateFlow f) eqn:Ev; [done |].
  apply ValidateFlow_sorted in Ev as [Hs Hp]. cbv zeta.
  set (cp := if IsZero (ApprovalFlow.UpdatedAt _) then _ else _).
  assert (Hcp : ApprovalFlow.ID cp = ApprovalFlow.ID f /\ sorted_flow cp /\ positive_flow cp).
  { unfold cp. by destruct (IsZero _), (IsZero _). }
  destruct (Engine.flows e !! ApprovalFlow.ID cp) eqn:E; [done |].
  apply flow_inv_flows; [done | |].
  - apply map_Forall_insert_2; [by destruct Hcp as (_ & ? & ?) | apply Hinv].
  - intros f' Hf'. rewrite lookup_insert_ne by congruence. done.
Qed.

Lemma submit_flow_inv fid wall now req e : flow_inv fid e -> flow_inv fid (Submit wall now req e).1.1.
Proof.
  intros Hinv. destruct (Submit_cases wall now req e)
    as [-> | (flow & r & Hf & Hn & Hs & Hc & Hst & Er & Ef)]; [done |].
  destruct Hinv as [Hfl Hreq]. split; [by rewrite Ef |]. intros id r0. rewrite Er, Ef.
  destruct (decide (ApprovalRequest.ID r = id)) as [<- | Hne].
  - rewrite lookup_insert_eq. intros [= <-] Hf0. rewrite Hf0 in Hf. exists flow. split; [done |].
    destruct (Hfl fid flow Hf) as (_ & Hs' & Hp). rewrite Hs, Hc, Hst. by apply req_ok_initial.
  - rewrite lookup_insert_ne by done. apply Hreq.
Qed.

Lemma step_flow_inv fid o e : keeps_flow fid o -> flow_inv fid e -> flow_inv fid (step o e).
Proof.
  destruct o as [now f | now f | id | wall now req | wall now id user comment | wall now id user comment
    | wall now id user | wall now id]; simpl; intros Hk Hinv.
  - by apply create_flow_inv.
  - unfold UpdateFlow. destruct (ValidateFlow f) eqn:Ev; [done |].
    apply ValidateFlow_sorted in Ev as [Hs Hp]. cbv zeta.
    destruct (_ !! _); [| done]. apply flow_inv_flows; [done | |].
    + apply map_Forall_insert_2; [done | apply Hinv].
    + intros f' Hf'. simpl. by rewrite lookup_insert_ne.
  - unfold DeleteFlow. destruct (_ !! _); [| done]. apply flow_inv_flows; [done | |].
    + apply map_Forall_delete, Hinv.
    + intros f' Hf'. by rewrite lookup_delete_ne.
  - by apply submit_flow_inv.
  - unfold Approve. pose proof (decision_flow_inv fid wall now id user comment ActionApprove e) as H.
    destruct (applyDecision _ _ _ _ _ _ _) as [[e' r] n]. apply H; [by left | done].
  - unfold Reject. pose proof (decision_flow_inv fid wall now id user comment ActionReject e) as H.
    destruct (applyDecision _ _ _ _ _ _ _) as [[e' r] n]. apply H; [by right | done].
  - destruct (Cancel_cases wall now id user e) as [-> | (req & H1 & Hp & H2 & H3)]; [done |].
    eapply flow_inv_put; [done | exact H3 | exact H2 | exact H1 | done |].
    intros f _ _ _ Hok. by eapply req_ok_settled.
  - destruct (CheckTimeout_cases wall now id e)
      as [-> | (req & req' & H1 & Hp & Hi & Hf & Ht & Hsh & Hs & H2 & H3)]; [done |].
    eapply flow_inv_put; [done | exact H3 | exact H2 | exact H1 | done |].
    intros f _ _ _ Hok. rewrite Hsh. eapply req_ok_settled; [done | |]; by destruct Hs as [-> | ->].
Qed.

Lemma run_flow_inv fid ops : Forall (keeps_flow fid) ops -> flow_inv fid (run step ops Engine.New).
Proof.
  intros H. assert (H0 : flow_inv fid Engine.New).
  { split; [apply map_Forall_empty |]. intros id r Hr. simpl in Hr. by rewrite lookup_empty in Hr. }
  revert H0. generalize Engine.New. induction H as [| o ops Ho _ IH]; intros e He; [done |].
  by apply IH, step_flow_inv.
Qed.

(** ** What an approval means *)

Definition users (rs : RequestStep.t) : list string := Decision.UserID <$> RequestStep.Decisions rs.

(** [a] has approved in [rs]. *)
Definition consented (rs : RequestStep.t) (a : string) : Prop :=
  exists d, d ∈ RequestStep.Decisions rs /\ Decision.UserID d = a /\ Decision.Action d = ActionApprove.

Definition granted (s : ApprovalStep.t) (rs : RequestStep.t) : Prop :=
  if ApprovalStep.Mode s == StepAnyOf
  then exists a, a ∈ ApprovalStep.Approvers s /\ consented rs a
  else (forall a, a ∈ ApprovalStep.Approvers s -> consented rs a) /\
       (ApprovalStep.Mode s = StepSequential -> Forall (fun a => a <> "") (ApprovalStep.Approvers s) ->
          users rs = ApprovalStep.Approvers s).

Lemma evaluate_all_granted s rs :
  step_ok s (RequestStep.Decisions rs) -> evaluate_all s rs = (true, true) ->
  (forall a, a ∈ ApprovalStep.Approvers s -> consented rs a) /\
  length (ApprovalStep.Approvers s) <= length (RequestStep.Decisions rs).
Proof.
  intros [Hu Ha Hact Ht] E. unfold evaluate_all in E.
  destruct (existsb _ _) eqn:Er; [done |].
  destruct (Nat.leb_spec (length (ApprovalStep.Approvers s)) (length (RequestStep.Decisions rs)))
    as [Hle |]; [| done].
  assert (Hall : forall a, a ∈ ApprovalStep.Approvers s -> a ∈ users rs).
  { intros a Hin. assert (Hsub : users rs ⊆+ ApprovalStep.Approvers s).
    { apply NoDup_submseteq; [done |]. intros x (d & -> & Hd)%list_elem_of_fmap. by apply Ha. }
    apply submseteq_length_Permutation in Hsub; [by rewrite Hsub |].
    unfold users. rewrite length_fmap. lia. }
  split; [| done]. intros a Hin. apply Hall in Hin as (d & -> & Hd)%list_elem_of_fmap.
  exists d. split_and!; [done | done |]. destruct (Hact d Hd) as [| Hrej]; [done |].
  eapply existsb_false in Er; [| exact Hd]. by rewrite bool_decide_true in Er.
Qed.

Lemma evaluate_any_granted ds : evaluate_any ds = (true, true) -> exists d, d ∈ ds /\ Decision.Action d = ActionApprove.
Proof.
  induction ds as [| d ds IH]; simpl; [done |]. case_bool_decide.
  - intros _. exists d. split; [left | done].
  - case_bool_decide; [done |]. intros (d' & ? & ?)%IH. exists d'. split; [by right | done].
Qed.

Lemma eval_granted s rs :
  step_ok s (RequestStep.Decisions rs) -> eval s (RequestStep.Decisions rs) = (true, true) -> granted s rs.
Proof.
  intros Hok. rewrite <- evaluateStep_eval. unfold evaluateStep, granted.
  destruct (decide (ApprovalStep.Mode s = StepSequential)) as [Em | Em].
  - rewrite Em. simpl. intros [H1 H2]%evaluate_all_granted; [| done]. split; [done |].
    intros _ Hne. unfold users. rewrite (ok_turns _ _ Hok Em Hne). by apply take_ge.
  - rewrite (bool_decide_false (_ = StepSequential)) by done.
    destruct (decide (ApprovalStep.Mode s = StepCountersign)) as [Ec | Ec].
    + rewrite Ec. simpl. intros [H1 _]%evaluate_all_granted; [| done]. by split.
    + rewrite (bool_decide_false (_ = StepCountersign)) by done. case_bool_decide; [| done].
      intros (d & Hd & Hda)%evaluate_any_granted. exists (Decision.UserID d).
      split; [by apply (ok_approvers _ _ Hok) | by exists d].
Qed.

(** ** Properties *)

(** A request that has left the pending state is never changed again, and a
    pending one keeps its flow and tenant and only moves to a status that
    [CanTransition] allows, under every sequence of operations on the engine. *)
Theorem approval_is_final ops e id r :
  Engine.requests e !! id = Some r ->
  exists r', Engine.requests (run step ops e) !! id = Some r' /\
    (ApprovalRequest.Status r <> StatusPending -> r' = r) /\
    ApprovalRequest.FlowID r' = ApprovalRequest.FlowID r /\
    ApprovalRequest.TenantID r' = ApprovalRequest.TenantID r /\
    (ApprovalRequest.Status r' = ApprovalRequest.Status r \/
     CanTransition (ApprovalRequest.Status r) (ApprovalRequest.Status r') = true).
Proof.
  intros Hr. destruct (run_preorder step all_move ops e step_moves id r Hr) as (r' & Hr' & M).
  exists r'. split; [done |]. destruct M as [-> | (Hp & Hf & _ & Ht & Hs)]; [by split_and!; try left |].
  rewrite Hp. split_and!; [done | done | done |]. destruct Hs as [-> | Hs]; [by left | by right].
Qed.

(** C18: in a history that does not update or delete the flow, a request is
    approved only with the consent of every step of the flow: of all its approvers
    in a sequential step (in their order) and in a countersigned step, of one of
    them in an any-of step. *)
Theorem approved_by_every_step fid ops id r :
  Forall (keeps_flow fid) ops ->
  Engine.requests (run step ops Engine.New) !! id = Some r ->
  ApprovalRequest.FlowID r = fid -> ApprovalRequest.Status r = StatusApproved ->
  exists f, Engine.flows (run step ops Engine.New) !! fid = Some f /\
    forall s, s ∈ ApprovalFlow.Steps f ->
      exists rs, rs ∈ ApprovalRequest.Steps r /\ RequestStep.Order rs = ApprovalStep.Order s /\ granted s rs.
Proof.
  intros Hops Hr Hf Hs. pose proof (run_flow_inv fid ops Hops) as [_ Hreq].
  destruct (Hreq id r Hr Hf) as (f & Hfl & Hok). exists f. split; [done |]. intros s Hin.
  apply list_elem_of_lookup in Hin as [i Hi].
  assert (Ho : (shape <$> ApprovalRequest.Steps r).*1 !! i = Some (ApprovalStep.Order s)).
  { rewrite (ok_orders _ _ _ _ Hok). unfold orders. by rewrite list_lookup_fmap, Hi. }
  rewrite !list_lookup_fmap in Ho. destruct (ApprovalRequest.Steps r !! i) as [rs |] eqn:Ers; [| done].
  injection Ho as Ho.
  assert (Hk : (shape <$> ApprovalRequest.Steps r) !! i = Some (shape rs)) by by rewrite list_lookup_fmap, Ers.
  exists rs. split_and!; [apply list_elem_of_lookup; by exists i | done |].
  apply eval_granted; [exact (ok_step _ _ _ _ Hok i s _ Hi Hk) |].
  apply (ok_done _ _ _ _ Hok i s _ Hi Hk). by right.
Qed.

(** A decision is accepted exactly for the requests that the list of pending
    approvals shows to that user and that have not expired; a refused decision
    changes nothing and notifies nobody, an accepted one writes only that request
    and its history. *)
Theorem decision_accepted_iff_listed range wall now id user comment action e r :
  range (Engine.requests e) ≡ₚ (map_to_list (Engine.requests e)).*2 ->
  Engine.requests e !! id = Some r ->
  let res := applyDecision wall now id user comment action e in
  ((exists r', res.1.2 = Ok r') <-> r ∈ ListPendingApprovals range user e /\ IsExpired r now = false) /\
  match res with
  | (e', Err _, sent) => e' = e /\ sent = []
  | (e', Ok r', sent) =>
      Engine.requests e' = <[id := r']> (Engine.requests e) /\ Engine.flows e' = Engine.flows e /\
      exists act, sent = [(r', act)]
  end.
Proof.
  intros Hrange Hr res. split.
  - unfold ListPendingApprovals. rewrite elem_of_stable_sort, list_elem_of_In, filter_In, <- list_elem_of_In.
    assert (Hin : r ∈ range (Engine.requests e)).
    { rewrite Hrange. apply list_elem_of_fmap. exists (id, r). split; [done |]. by apply elem_of_map_to_list. }
    assert (H : (exists r', res.1.2 = Ok r') <->
      awaits user e r = true /\ IsExpired r now = false); [| tauto].
    unfold res, applyDecision, awaits. rewrite Hr. case_bool_decide as Hp.
    2: { simpl. split; [intros (? & ?) | intros (? & ?)]; done. }
    simpl. destruct (Engine.flows e !! _) as [flow |].
    2: { simpl. split; [intros (? & ?) | intros (? & ?)]; done. }
    unfold validateDecision. rewrite bool_decide_true by done. simpl. unfold IsExpired.
    destruct (_ && After _ _)%go.
    { simpl. split; [intros (? & ?) | intros (? & ?)]; done. }
    destruct (StepByOrder flow _) as [st |]; [| by split; intros (? & ?)].
    destruct (isApprover st user); [simpl | by destruct (RequestStepByOrder r _); split; intros (? & ?)].
    destruct (RequestStepByOrder r _) as [rs |]; [| by split; intros (? & ?)].
    destruct (HasDecided rs user); [by split; intros (? & ?) |].
    destruct (_ && _ && _)%go; [by split; intros (? & ?) |].
    destruct (decide_step _ _ _ _ _ _ _ _) as [[r' act] entry]. simpl. split; [done | by eexists].
  - unfold res. destruct (applyDecision_cases wall now id user comment action e)
      as [(x & ->) | (req & flow & st & rs & req' & act & entry & e' & H1 & H2 & H3 & H4 & -> & H5 & H6)].
    + done.
    + split_and!; [done | done | by exists act].
Qed.

(** ** Witnesses *)

(** The deployment flow of one tenant, and a request under it. *)
Definition ex_deploy_flow : ApprovalFlow.t :=
  ApprovalFlow.mk "deploy" "deploy" "acme" TriggerDeploy
    [ApprovalStep.mk "lead" "lead" 1 StepSequential ["ops_lead"; "sre_lead"] (30 * minute);
     ApprovalStep.mk "admin" "admin" 2 StepAnyOf ["admin"; "root"] (30 * minute)] true 0 0.

Definition ex_request (id : string) : ApprovalRequest.t :=
  ApprovalRequest.mk id "deploy" "acme" TriggerDeploy "alice" "web" "" RiskHigh "" 0 [] 0 0 (5 * hour).

Definition ex_submitted : list op :=
  [OCreateFlow hour ex_deploy_flow; OSubmit hour hour (ex_request "r1")].

Definition ex_approved : list op :=
  ex_submitted ++
  [OApprove hour (hour + minute) "r1" "ops_lead" ""; OApprove hour (hour + 2 * minute) "r1" "sre_lead" "";
   OApprove hour (hour + 3 * minute) "r1" "root" ""].

(** The first request of the engine after [ops]. *)
Definition ex_state (ops : list op) : ApprovalRequest.t :=
  default (ex_request "r1") (Engine.requests (run step ops Engine.New) !! "r1").

Lemma approval_is_final_witness :
  exists r', Engine.requests (run step [OCancel hour (2 * hour) "r1" "alice"]
      (run step ex_approved Engine.New)) !! "r1" = Some r' /\ r' = ex_state ex_approved.
Proof.
  assert (Hr : Engine.requests (run step ex_approved Engine.New) !! "r1" = Some (ex_state ex_approved))
    by (vm_compute; reflexivity).
  assert (Hs : bool_decide (ApprovalRequest.Status (ex_state ex_approved) = StatusPending) = false)
    by (vm_compute; reflexivity).
  destruct (approval_is_final [OCancel hour (2 * hour) "r1" "alice"] _ "r1" _ Hr) as (r' & H1 & H2 & _).
  exists r'. split; [exact H1 |]. apply H2. by apply bool_decide_eq_false in Hs.
Defined.

Lemma approved_by_every_step_witness :
  exists f, Engine.flows (run step ex_approved Engine.New) !! "deploy" = Some f /\
    forall s, s ∈ ApprovalFlow.Steps f ->
      exists rs, rs ∈ ApprovalRequest.Steps (ex_state ex_approved) /\
        RequestStep.Order rs = ApprovalStep.Order s /\ granted s rs.
Proof.
  assert (Hops : Forall (keeps_flow "deploy") ex_approved) by (repeat constructor).
  assert (Hr : Engine.requests (run step ex_approved Engine.New) !! "r1" = Some (ex_state ex_approved))
    by (vm_compute; reflexivity).
  assert (Hf : ApprovalRequest.FlowID (ex_state ex_approved) = "deploy") by (vm_compute; reflexivity).
  assert (Hs : ApprovalRequest.Status (ex_state ex_approved) = StatusApproved) by (vm_compute; reflexivity).
  exact (approved_by_every_step "deploy" ex_approved "r1" _ Hops Hr Hf Hs).
Defined.

Definition ex_range (m : gmap string ApprovalRequest.t) : list ApprovalRequest.t := (map_to_list m).*2.

Lemma decision_accepted_iff_listed_witness :
  ex_state ex_submitted ∈ ListPendingApprovals ex_range "ops_lead" (run step ex_submitted Engine.New) /\
  ~ ex_state ex_submitted ∈ ListPendingApprovals ex_range "sre_lead" (run step ex_submitted Engine.New).
Proof.
  assert (Hr : Engine.requests (run step ex_submitted Engine.New) !! "r1" = Some (ex_state ex_submitted))
    by (vm_compute; reflexivity).
  assert (He : IsExpired (ex_state ex_submitted) (hour + minute) = false) by (vm_compute; reflexivity).
  split.
  - destruct (decision_accepted_iff_listed ex_range hour (hour + minute) "r1" "ops_lead" "" ActionApprove
      (run step ex_submitted Engine.New) _ (reflexivity _) Hr) as [[H _] _]. apply H.
    eexists. vm_compute. reflexivity.
  - intros Hin. destruct (decision_accepted_iff_listed ex_range hour (hour + minute) "r1" "sre_lead" "" ActionApprove
      (run step ex_submitted Engine.New) _ (reflexivity _) Hr) as [[_ H] _].
    destruct (H (conj Hin He)) as (r' & E). vm_compute in E. discriminate.
Defined.

(** A pending request is judged by the flow as it is now and not as it was
    when the request was submitted: after an update that leaves one step, one user
    who was no approver before grants the request alone. And validation accepts
    flows whose orders do not start at one, under which no decision is ever
    accepted. *)
Theorem live_flow_judges_requests :
  let weak := ApprovalFlow.mk "deploy" "deploy" "acme" TriggerDeploy
    [ApprovalStep.mk "lead" "lead" 1 StepAnyOf ["mallory"] 0] true 0 0 in
  let gap := ApprovalFlow.mk "deploy" "deploy" "acme" TriggerDeploy
    [ApprovalStep.mk "lead" "lead" 2 StepAnyOf ["admin"] 0] true 0 0 in
  (exists r, Engine.requests (run step (ex_submitted ++ [OUpdateFlow hour weak;
       OApprove hour hour "r1" "mallory" ""]) Engine.New) !! "r1" = Some r /\
     ApprovalRequest.Status r = StatusApproved /\ length (ApprovalRequest.Steps r) = 2) /\
  ValidateFlow gap = None /\
  forall wall now user comment action,
    let e := run step [OCreateFlow hour gap; OSubmit hour hour (ex_request "r1")] Engine.New in
    exists x, (applyDecision wall now "r1" user comment action e).1.2 = Err x.
Proof.
  intros weak gap. split_and!.
  - eexists. split_and!; vm_compute; reflexivity.
  - vm_compute. reflexivity.
  - intros wall now user comment action e.
    assert (Hr : exists r, Engine.requests e !! "r1" = Some r /\ ApprovalRequest.CurrentStep r = 1%Z /\
      ApprovalRequest.FlowID r = "deploy") by (eexists; split_and!; vm_compute; reflexivity).
    assert (Hf : exists f, Engine.flows e !! "deploy" = Some f /\ StepByOrder f 1 = None)
      by (eexists; split_and!; vm_compute; reflexivity).
    clearbody e. destruct Hr as (r & Hr & Hc & Hid), Hf as (f & Hf & Hs).
    unfold applyDecision. rewrite Hr, Hid, Hf. unfold validateDecision. rewrite Hc, Hs.
    destruct (_ != StatusPending); [by eexists |]. destruct (_ && _)%go; by eexists.
Qed.
