(* ===== verification/Breaker.v ===== *)
(** * Circuit breakers ([internal/circuitbreaker/circuitbreaker.go], [pkg/circuit/breaker.go])

    Both breakers are split as the code splits them: a permission step before
    the protected call and a report step after it, each under the lock.  A
    sequential [Execute] is their composition; concurrent calls are arbitrary
    interleavings of the two steps.  [now] is the clock a step reads.  The state
    change callback of the first breaker is returned as a list of changes. *)

From S2P Require Import GoStrings Prelude.
Open Scope go_scope.

(** ** The breaker of the agent *)

Module CB.
Definition StateClosed : string := "closed".
Definition StateOpen : string := "open".
Definition StateHalfOpen : string := "halfopen".

Module Config.
Record t := mk {
  Name : string; FailureThreshold : Z; RecoveryTimeout : duration; HalfOpenMaxCalls : Z }.
End Config.

Record t := mk {
  cfg : Config.t;
  state : string;
  failureCount : Z;
  openedAt : time;
  halfOpenCalls : Z;
  halfOpenSucc : Z;
}.

Abbreviation changes := (list (string * string)).

Definition New (c : Config.t) : t :=
  let rt := if (Config.RecoveryTimeout c <=? 0)%Z then (30 * second)%Z else Config.RecoveryTimeout c in
  let hm := if (Config.HalfOpenMaxCalls c <=? 0)%Z then 1%Z else Config.HalfOpenMaxCalls c in
  mk (Config.mk (Config.Name c) (Config.FailureThreshold c) rt hm) StateClosed 0 zero_time 0 0.

Definition Enabled (cb : t) : bool := (Config.FailureThreshold (cfg cb) >? 0)%Z.

Definition transition (to : string) (cb : t) : t * changes :=
  if state cb == to then (cb, [])
  else (mk (cfg cb) to (failureCount cb) (openedAt cb) (halfOpenCalls cb) (halfOpenSucc cb),
        [(state cb, to)]).

Definition beforeCall (now : time) (cb : t) : t * bool * changes :=
  if state cb == StateClosed then (cb, true, [])
  else if state cb == StateOpen then
    if (Sub now (openedAt cb) >=? Config.RecoveryTimeout (cfg cb))%Z then
      let (cb, ch) := transition StateHalfOpen cb in
      (mk (cfg cb) (state cb) (failureCount cb) (openedAt cb) 1 0, true, ch)
    else (cb, false, [])
  else if state cb == StateHalfOpen then
    if (halfOpenCalls cb <? Config.HalfOpenMaxCalls (cfg cb))%Z then
      (mk (cfg cb) (state cb) (failureCount cb) (openedAt cb) (wrap_i64 (halfOpenCalls cb + 1))
         (halfOpenSucc cb), true, [])
    else (cb, false, [])
  else (cb, true, []).

(** [ok]: the call returned no error. *)
Definition afterCall (now : time) (ok : bool) (cb : t) : t * changes :=
  if state cb == StateClosed then
    if ok then (mk (cfg cb) (state cb) 0 (openedAt cb) (halfOpenCalls cb) (halfOpenSucc cb), [])
    else
      let n := wrap_i64 (failureCount cb + 1) in
      let cb := mk (cfg cb) (state cb) n (openedAt cb) (halfOpenCalls cb) (halfOpenSucc cb) in
      if (n >=? Config.FailureThreshold (cfg cb))%Z then
        let (cb, ch) := transition StateOpen cb in
        (mk (cfg cb) (state cb) 0 now (halfOpenCalls cb) (halfOpenSucc cb), ch)
      else (cb, [])
  else if state cb == StateHalfOpen then
    if ok then
      let n := wrap_i64 (halfOpenSucc cb + 1) in
      let cb := mk (cfg cb) (state cb) (failureCount cb) (openedAt cb) (halfOpenCalls cb) n in
      if (n >=? Config.HalfOpenMaxCalls (cfg cb))%Z then
        let (cb, ch) := transition StateClosed cb in (mk (cfg cb) (state cb) 0 (openedAt cb) 0 0, ch)
      else (cb, [])
    else let (cb, ch) := transition StateOpen cb in (mk (cfg cb) (state cb) 0 now 0 0, ch)
  else (cb, []).

(** [Execute] with a call that starts at [t0], ends at [t1] and succeeds iff [ok];
    the second component says whether the call was made. *)
Definition Execute (t0 t1 : time) (ok : bool) (cb : t) : t * bool * changes :=
  if (Config.FailureThreshold (cfg cb) <=? 0)%Z then (cb, true, [])
  else match beforeCall t0 cb with
       | (cb, false, ch) => (cb, false, ch)
       | (cb, true, ch) => let (cb, ch') := afterCall t1 ok cb in (cb, true, ch ++ ch')
       end.

Definition Reset (cb : t) : t * changes :=
  let (cb, ch) := transition StateClosed cb in (mk (cfg cb) (state cb) 0 (openedAt cb) 0 0, ch).
End CB.

(** The set of breakers, one per key. *)
Module BreakerSet.
Record t := mk { breakers : gmap string CB.t; template : CB.Config.t }.

Definition NewBreakerSet (c : CB.Config.t) : t := mk ∅ c.

Definition Get (key : string) (bs : t) : t * CB.t :=
  match breakers bs !! key with
  | Some cb => (bs, cb)
  | None =>
      let c := template bs in
      let cb := CB.New (CB.Config.mk key (CB.Config.FailureThreshold c) (CB.Config.RecoveryTimeout c)
                          (CB.Config.HalfOpenMaxCalls c)) in
      (mk (<[key := cb]> (breakers bs)) c, cb)
  end.

Definition Execute (key : string) (t0 t1 : time) (ok : bool) (bs : t) : t * bool * CB.changes :=
  let (bs, cb) := Get key bs in
  let '(cb, made, ch) := CB.Execute t0 t1 ok cb in
  (mk (<[key := cb]> (breakers bs)) (template bs), made, ch).

Definition States (bs : t) : gmap string string := CB.state <$> breakers bs.
End BreakerSet.

(** ** The breaker of the services *)

Module Circuit.
Inductive State := StateClosed | StateOpen | StateHalfOpen.

#[export] Instance State_eq_dec : EqDecision State.
Proof. solve_decision. Defined.

Record t := mk {
  name : string; maxFailures : Z; timeout : duration; failures : Z; lastFailure : time; state : State }.

Definition New (name : string) (maxFailures : Z) (timeout : duration) : t :=
  mk name maxFailures timeout 0 zero_time StateClosed.

Definition set_state (s : State) (b : t) : t :=
  mk (name b) (maxFailures b) (timeout b) (failures b) (lastFailure b) s.

Definition allow (now : time) (b : t) : t * bool :=
  match state b with
  | StateClosed => (b, true)
  | StateOpen =>
      if (Sub now (lastFailure b) >=? timeout b)%Z then (set_state StateHalfOpen b, true) else (b, false)
  | StateHalfOpen => (b, true)
  end.

Definition recordResult (now : time) (ok : bool) (b : t) : t :=
  if ok then mk (name b) (maxFailures b) (timeout b) 0 (lastFailure b) StateClosed
  else
    let b := mk (name b) (maxFailures b) (timeout b) (wrap_u32 (failures b + 1)) now (state b) in
    if state b == StateHalfOpen then set_state StateOpen b
    else if (failures b >=? maxFailures b)%Z then set_state StateOpen b else b.

Definition Execute (t0 t1 : time) (ok : bool) (b : t) : t * bool :=
  match allow t0 b with
  | (b, false) => (b, false)
  | (b, true) => (recordResult t1 ok b, true)
  end.

Definition observe (now : time) (b : t) : t * State :=
  let b := if (state b == StateOpen) && (Sub now (lastFailure b) >=? timeout b)%Z
           then set_state StateHalfOpen b else b in
  (b, state b).

Definition Reset (b : t) : t := mk (name b) (maxFailures b) (timeout b) 0 (lastFailure b) StateClosed.
End Circuit.

(** ** Sequential calls *)

(** A call: when it starts, when it ends, whether it succeeds. *)
Module Call.
Record t := mk { start : time; stop : time; ok : bool }.
End Call.

Fixpoint exec_all (cs : list Call.t) (cb : CB.t) : CB.t * list bool :=
  match cs with
  | [] => (cb, [])
  | c :: cs =>
      let '(cb, made, _) := CB.Execute (Call.start c) (Call.stop c) (Call.ok c) cb in
      let (cb, l) := exec_all cs cb in (cb, made :: l)
  end.

Lemma exec_all_app cs ds cb :
  exec_all (cs ++ ds) cb =
    let (cb, l) := exec_all cs cb in let (cb, l') := exec_all ds cb in (cb, l ++ l').
Proof.
  revert cb. induction cs as [| c cs IH]; intros cb; simpl; [by destruct (exec_all ds cb) |].
  destruct (CB.Execute _ _ _ cb) as [[cb' made] ch]. rewrite IH.
  destruct (exec_all cs cb') as [cb1 l1]. by destruct (exec_all ds cb1).
Qed.

(** An enabled breaker with its defaults filled in. *)
Record enabled (c : CB.Config.t) : Prop := {
  enabled_threshold : (0 < CB.Config.FailureThreshold c <= max_i64)%Z;
  enabled_probes : (0 < CB.Config.HalfOpenMaxCalls c <= max_i64)%Z;
}.

Definition closed_with (c : CB.Config.t) (o : time) (k : nat) : CB.t :=
  CB.mk c CB.StateClosed (Z.of_nat k) o 0 0.
Definition opened_at (c : CB.Config.t) (o : time) : CB.t := CB.mk c CB.StateOpen 0 o 0 0.
Definition probing (c : CB.Config.t) (o : time) (k : nat) : CB.t :=
  CB.mk c CB.StateHalfOpen 0 o (Z.of_nat k) (Z.of_nat k).

Definition late (c : CB.Config.t) (o : time) (x : Call.t) : Prop :=
  (Sub (Call.start x) o >= CB.Config.RecoveryTimeout c)%Z.

Section calls.
Context (c : CB.Config.t) (Hc : enabled c).

Lemma wrap_succ k m : (Z.of_nat k < m <= max_i64)%Z -> wrap_i64 (Z.of_nat k + 1) = Z.of_nat (S k).
Proof. intros H. rewrite wrap_i64_id; [lia | unfold in_i64, max_i64 in *; lia]. Qed.

Lemma Execute_fails x o k :
  Call.ok x = false -> (Z.of_nat k < CB.Config.FailureThreshold c)%Z ->
  CB.Execute (Call.start x) (Call.stop x) (Call.ok x) (closed_with c o k) =
    if (Z.of_nat (S k) =? CB.Config.FailureThreshold c)%Z
    then (opened_at c (Call.stop x), true, [(CB.StateClosed, CB.StateOpen)])
    else (closed_with c o (S k), true, []).
Proof using Hc.
  intros -> Hk. destruct Hc as [H1 H2]. unfold CB.Execute, CB.beforeCall, CB.afterCall, closed_with.
  cbn [CB.cfg CB.state CB.failureCount].
  replace (CB.Config.FailureThreshold c <=? 0)%Z with false by lia.
  destruct (Z.eqb_spec (Z.of_nat (S k)) (CB.Config.FailureThreshold c)) as [E | E]; simpl;
    rewrite (wrap_succ k (CB.Config.FailureThreshold c)) by lia.
  - by rewrite geb_true by lia.
  - by rewrite geb_false by lia.
Qed.

(** Failures in a row, up to the threshold. *)
Lemma exec_failures fs o k :
  Forall (fun x => Call.ok x = false) fs -> fs <> [] ->
  (Z.of_nat (k + length fs) = CB.Config.FailureThreshold c)%Z ->
  exec_all fs (closed_with c o k) =
    (opened_at c (default o (Call.stop <$> last fs)), replicate (length fs) true).
Proof using Hc.
  intros Hf. revert k. induction Hf as [| x fs Hx Hfs IH]; intros k Hne Hlen; [done |].
  simpl in Hlen. cbn [exec_all]. rewrite Execute_fails by (done || lia).
  destruct (decide (fs = [])) as [-> | Hne'].
  - rewrite (proj2 (Z.eqb_eq _ _)) by (simpl in Hlen; lia). done.
  - destruct fs as [| y fs]; [done |]. rewrite (proj2 (Z.eqb_neq _ _)) by (simpl in Hlen; lia).
    rewrite IH by (done || (simpl in *; lia)). done.
Qed.

(** Calls before the recovery timeout. *)
Lemma exec_rejected cs o :
  Forall (fun x => ~ late c o x) cs ->
  exec_all cs (opened_at c o) = (opened_at c o, replicate (length cs) false).
Proof using Hc.
  destruct Hc as [H1 _]. induction 1 as [| x cs Hx _ IH]; [done |]. cbn [exec_all].
  unfold CB.Execute, CB.beforeCall, opened_at at 1. cbn [CB.cfg CB.state CB.openedAt].
  replace (CB.Config.FailureThreshold c <=? 0)%Z with false by lia. simpl. unfold late in Hx.
  rewrite geb_false by lia.
  simpl. by rewrite IH.
Qed.

(** The [k+1]st probe, the first one of them from the open state. *)
Definition before_probe (o : time) (k : nat) : CB.t :=
  match k with 0 => opened_at c o | S _ => probing c o k end.

Lemma Execute_probe x o k :
  (k = 0 -> late c o x) -> (Z.of_nat k < CB.Config.HalfOpenMaxCalls c)%Z ->
  exists ch, CB.Execute (Call.start x) (Call.stop x) (Call.ok x) (before_probe o k) =
    (if Call.ok x
     then if (Z.of_nat (S k) =? CB.Config.HalfOpenMaxCalls c)%Z then closed_with c o 0 else probing c o (S k)
     else opened_at c (Call.stop x), true, ch).
Proof using Hc.
  intros Hl Hk. destruct Hc as [H1 H2].
  assert (Hb : exists ch, CB.beforeCall (Call.start x) (before_probe o k) =
    (CB.mk c CB.StateHalfOpen 0 o (Z.of_nat (S k)) (Z.of_nat k), true, ch)).
  { destruct k as [| k]; unfold CB.beforeCall, before_probe; simpl.
    - specialize (Hl eq_refl). unfold late in Hl.
      rewrite geb_true by lia. by eexists.
    - rewrite (proj2 (Z.ltb_lt _ _)) by lia. rewrite (wrap_succ (S k) (CB.Config.HalfOpenMaxCalls c)) by lia.
      by eexists. }
  destruct Hb as [ch Hb]. unfold CB.Execute.
  assert (Hcfg : CB.cfg (before_probe o k) = c) by by destruct k.
  rewrite Hcfg. replace (CB.Config.FailureThreshold c <=? 0)%Z with false by lia. rewrite Hb.
  unfold CB.afterCall. cbn [CB.cfg CB.state CB.halfOpenSucc].
  destruct (Call.ok x); [| by eexists].
  destruct (Z.eqb_spec (Z.of_nat (S k)) (CB.Config.HalfOpenMaxCalls c)) as [E | E]; simpl;
    rewrite (wrap_succ k (CB.Config.HalfOpenMaxCalls c)) by lia.
  - rewrite geb_true by lia. by eexists.
  - rewrite geb_false by lia. by eexists.
Qed.

(** Successful probes, fewer than the breaker asks for. *)
Lemma exec_probes ps o k :
  Forall (fun x => Call.ok x = true) ps -> (k = 0 -> forall x, head ps = Some x -> late c o x) ->
  (Z.of_nat (k + length ps) < CB.Config.HalfOpenMaxCalls c)%Z ->
  exec_all ps (before_probe o k) = (before_probe o (k + length ps), replicate (length ps) true).
Proof using Hc.
  intros Hp. revert k. induction Hp as [| x ps Hx Hps IH]; intros k Hl Hlen.
  { simpl. by rewrite Nat.add_0_r. }
  simpl in Hlen. cbn [exec_all].
  destruct (Execute_probe x o k) as [ch ->]; [intros E; by apply (Hl E) | lia |]. rewrite Hx.
  rewrite (proj2 (Z.eqb_neq _ _)) by lia. change (probing c o (S k)) with (before_probe o (S k)).
  rewrite IH by (done || lia). simpl. by rewrite Nat.add_succ_r.
Qed.
End calls.

(** ** Concurrent calls *)

(** The breaker, the calls that have started and not ended, the state changes
    announced, and the probes admitted since the breaker last became half open. *)
Module Sys.
Record t := mk { cb : CB.t; inflight : nat; log : CB.changes; probes : Z }.
End Sys.

Inductive cb_op := BBegin (now : time) | BEnd (now : time) (ok : bool) | BReset.

Definition cb_step (o : cb_op) (s : Sys.t) : Sys.t :=
  match o with
  | BBegin now =>
      let '(cb, admitted, ch) := CB.beforeCall now (Sys.cb s) in
      Sys.mk cb (if admitted then S (Sys.inflight s) else Sys.inflight s) (Sys.log s ++ ch)
        (if admitted && (CB.state cb == CB.StateHalfOpen)
         then if CB.state (Sys.cb s) == CB.StateHalfOpen then (Sys.probes s + 1)%Z else 1%Z
         else Sys.probes s)
  | BEnd now ok =>
      match Sys.inflight s with
      | 0 => s
      | S n =>
          let (cb, ch) := CB.afterCall now ok (Sys.cb s) in
          Sys.mk cb n (Sys.log s ++ ch) (Sys.probes s)
      end
  | BReset => let (cb, ch) := CB.Reset (Sys.cb s) in Sys.mk cb (Sys.inflight s) (Sys.log s ++ ch) (Sys.probes s)
  end.

Definition cb_init (c : CB.Config.t) : Sys.t := Sys.mk (CB.New c) 0 [] 0.

(** The changes of the state machine; only a reset leaves the open state for
    the closed one. *)
Definition lawful (reset : Prop) (ch : string * string) : Prop :=
  ch = (CB.StateClosed, CB.StateOpen) \/ ch = (CB.StateOpen, CB.StateHalfOpen) \/
  ch = (CB.StateHalfOpen, CB.StateClosed) \/ ch = (CB.StateHalfOpen, CB.StateOpen) \/
  (ch = (CB.StateOpen, CB.StateClosed) /\ reset).

(** A log in which every change starts where the one before ended. *)
Fixpoint chain (from : string) (log : CB.changes) : option string :=
  match log with
  | [] => Some from
  | (a, b) :: log => if a == from then chain b log else None
  end.

Lemma chain_app from l k : chain from (l ++ k) = chain from l ≫= fun s => chain s k.
Proof.
  revert from. induction l as [| [a b] l IH]; intros from; simpl; [done |].
  case_bool_decide; [apply IH | done].
Qed.

(** The breaker between two steps. *)
Record cb_ok (c : CB.Config.t) (cb : CB.t) : Prop := {
  ok_cfg : CB.cfg cb = c;
  ok_state : CB.state cb = CB.StateClosed \/ CB.state cb = CB.StateOpen \/ CB.state cb = CB.StateHalfOpen;
  ok_failures : (0 <= CB.failureCount cb < CB.Config.FailureThreshold c)%Z;
  ok_half : CB.state cb = CB.StateHalfOpen ->
    (0 < CB.halfOpenCalls cb <= CB.Config.HalfOpenMaxCalls c /\
     0 <= CB.halfOpenSucc cb < CB.Config.HalfOpenMaxCalls c)%Z;
}.

(** What a step announces: a path of lawful changes. *)
Definition announces (reset : Prop) (cb cb' : CB.t) (ch : CB.changes) : Prop :=
  chain (CB.state cb) ch = Some (CB.state cb') /\ Forall (lawful reset) ch.

Section steps.
Context (c : CB.Config.t) (Hc : enabled c) (reset : Prop).

Lemma announces_one a b cb cb' :
  lawful reset (a, b) -> CB.state cb = a -> CB.state cb' = b -> announces reset cb cb' [(a, b)].
Proof using Type.
  intros H Ha Hb. split; [| by apply Forall_singleton]. simpl. by rewrite bool_decide_true, Hb.
Qed.

Lemma announces_none cb cb' : CB.state cb = CB.state cb' -> announces reset cb cb' [].
Proof using Type. intros H. split; [simpl; by rewrite H | constructor]. Qed.

Ltac cb_fields := split; simpl; [done | tauto | lia | intros ?; first [done | lia]].

Lemma beforeCall_ok now cb :
  cb_ok c cb ->
  let '(cb', adm, ch) := CB.beforeCall now cb in
  cb_ok c cb' /\ announces reset cb cb' ch /\
  (CB.state cb' = CB.StateHalfOpen ->
     (CB.state cb = CB.StateHalfOpen /\
        CB.halfOpenCalls cb' = CB.halfOpenCalls cb + (if adm then 1 else 0)) \/
     (CB.state cb <> CB.StateHalfOpen /\ adm = true /\ CB.halfOpenCalls cb' = 1))%Z.
Proof using Hc.
  intros H. pose proof H as [Hcfg Hst Hf Hh]. destruct Hc as [Hth Hmax].
  destruct cb as [cf st fc oa hc hs]; simpl in *; subst cf.
  unfold CB.beforeCall, CB.transition; simpl.
  destruct Hst as [-> | [-> | ->]]; simpl.
  - split_and!; [done | by apply announces_none | done].
  - destruct (_ >=? _)%Z.
    + split_and!; [cb_fields | apply announces_one; try done; unfold lawful; tauto |].
      intros _. by right.
    + split_and!; [done | by apply announces_none | done].
  - destruct (Hh eq_refl) as [H1 H2].
    destruct (Z.ltb_spec hc (CB.Config.HalfOpenMaxCalls c)).
    + rewrite wrap_i64_id by (unfold in_i64, max_i64 in *; lia).
      split_and!; [cb_fields | by apply announces_none |]. intros _. by left.
    + split_and!; [done | by apply announces_none |]. intros _. left. split; [done | simpl; lia].
Qed.

Lemma afterCall_ok now ok cb :
  cb_ok c cb ->
  let (cb', ch) := CB.afterCall now ok cb in
  cb_ok c cb' /\ announces reset cb cb' ch /\
  (CB.state cb' = CB.StateHalfOpen ->
     CB.state cb = CB.StateHalfOpen /\ CB.halfOpenCalls cb' = CB.halfOpenCalls cb).
Proof using Hc.
  intros H. pose proof H as [Hcfg Hst Hf Hh]. destruct Hc as [Hth Hmax].
  destruct cb as [cf st fc oa hc hs]; simpl in *; subst cf.
  unfold CB.afterCall, CB.transition; simpl.
  destruct Hst as [-> | [-> | ->]]; simpl.
  - destruct ok; [split_and!; [cb_fields | by apply announces_none | done] |].
    rewrite wrap_i64_id by (unfold in_i64, max_i64 in *; lia).
    destruct (Z.geb_spec (fc + 1) (CB.Config.FailureThreshold c)); simpl.
    + split_and!; [cb_fields | apply announces_one; try done; unfold lawful; tauto | done].
    + split_and!; [cb_fields | by apply announces_none | done].
  - split_and!; [done | by apply announces_none | done].
  - destruct (Hh eq_refl) as [H1 H2]. destruct ok.
    + rewrite wrap_i64_id by (unfold in_i64, max_i64 in *; lia).
      destruct (Z.geb_spec (hs + 1) (CB.Config.HalfOpenMaxCalls c)); simpl.
      * split_and!; [cb_fields | apply announces_one; try done; unfold lawful; tauto | done].
      * split_and!; [cb_fields | by apply announces_none | done].
    + split_and!; [cb_fields | apply announces_one; try done; unfold lawful; tauto | done].
Qed.

Lemma Reset_ok cb :
  reset -> cb_ok c cb ->
  let (cb', ch) := CB.Reset cb in
  cb_ok c cb' /\ announces reset cb cb' ch /\ CB.state cb' = CB.StateClosed.
Proof using Hc.
  intros Hr H. pose proof H as [Hcfg Hst Hf Hh]. destruct Hc as [Hth Hmax].
  destruct cb as [cf st fc oa hc hs]; simpl in *; subst cf. unfold CB.Reset, CB.transition; simpl.
  destruct Hst as [-> | [-> | ->]]; simpl; (split_and!; [cb_fields | | done]).
  - by apply announces_none.
  - apply announces_one; try done. unfold lawful. tauto.
  - apply announces_one; try done. unfold lawful. tauto.
Qed.

Record cb_inv (s : Sys.t) : Prop := {
  inv_cb : cb_ok c (Sys.cb s);
  inv_probes : CB.state (Sys.cb s) = CB.StateHalfOpen -> Sys.probes s = CB.halfOpenCalls (Sys.cb s);
  inv_chain : chain CB.StateClosed (Sys.log s) = Some (CB.state (Sys.cb s));
  inv_lawful : Forall (lawful reset) (Sys.log s);
}.

Lemma log_ok s cb ch :
  cb_inv s -> announces reset (Sys.cb s) cb ch ->
  chain CB.StateClosed (Sys.log s ++ ch) = Some (CB.state cb) /\ Forall (lawful reset) (Sys.log s ++ ch).
Proof using Type.
  intros H [Hch Hl]. rewrite chain_app, (inv_chain _ H). split; [exact Hch |].
  apply Forall_app. split; [apply H | done].
Qed.

Lemma cb_step_inv o s : (o = BReset -> reset) -> cb_inv s -> cb_inv (cb_step o s).
Proof using Hc.
  intros Hr H. destruct o as [now | now ok |]; simpl.
  - pose proof (beforeCall_ok now (Sys.cb s) (inv_cb _ H)) as Hb.
    destruct (CB.beforeCall now (Sys.cb s)) as [[cb adm] ch]. destruct Hb as (Hok & Ha & Hp).
    destruct (log_ok s cb ch H Ha) as [Hch Hlaw]. split; simpl; [done | | done | done].
    intros Hhalf. rewrite (bool_decide_true (CB.state cb = _)), andb_true_r by done.
    destruct (Hp Hhalf) as [[Hs Hn] | (Hs & -> & Hn)].
    + rewrite (inv_probes _ H Hs). rewrite bool_decide_true by done. destruct adm; lia.
    + by rewrite bool_decide_false.
  - destruct (Sys.inflight s); [done |].
    pose proof (afterCall_ok now ok (Sys.cb s) (inv_cb _ H)) as Hb.
    destruct (CB.afterCall now ok (Sys.cb s)) as [cb ch]. destruct Hb as (Hok & Ha & Hp).
    destruct (log_ok s cb ch H Ha) as [Hch Hlaw]. split; simpl; [done | | done | done].
    intros Hhalf. destruct (Hp Hhalf) as [Hs ->]. by apply (inv_probes _ H).
  - pose proof (Reset_ok (Sys.cb s) (Hr eq_refl) (inv_cb _ H)) as Hb.
    destruct (CB.Reset (Sys.cb s)) as [cb ch]. destruct Hb as (Hok & Ha & Hp).
    destruct (log_ok s cb ch H Ha) as [Hch Hlaw]. split; simpl; [done | | done | done].
    rewrite Hp. done.
Qed.
End steps.

(** ** Properties *)

(** Called sequentially, the breaker opens at the last of exactly
    [FailureThreshold] failures in a row, makes no call until the recovery timeout
    has passed, then makes probes: after [HalfOpenMaxCalls] successes it is closed
    with no failure counted, and at the first failing probe it is open again, from
    the end of that probe. *)
Theorem breaker_cycle c o fs early probes :
  enabled c ->
  Forall (fun x => Call.ok x = false) fs ->
  Z.of_nat (length fs) = CB.Config.FailureThreshold c ->
  let opened := default o (Call.stop <$> last fs) in
  Forall (fun x => ~ late c opened x) early ->
  Forall (fun x => Call.ok x = true) probes ->
  Z.of_nat (length probes) = CB.Config.HalfOpenMaxCalls c ->
  (forall x, head probes = Some x -> late c opened x) ->
  exec_all (fs ++ early ++ probes) (closed_with c o 0) =
    (closed_with c opened 0,
     replicate (length fs) true ++ replicate (length early) false ++ replicate (length probes) true) /\
  forall k bad, k < length probes -> Call.ok bad = false -> late c opened bad ->
    exec_all (fs ++ early ++ take k probes ++ [bad]) (closed_with c o 0) =
      (opened_at c (Call.stop bad),
       replicate (length fs) true ++ replicate (length early) false ++ replicate (S k) true).
Proof.
  intros Hc Hfs Hlen opened Hearly Hok Hmax Hlate. pose proof Hc as [Hth Hpm].
  assert (Hopen : forall rest, exec_all (fs ++ early ++ rest) (closed_with c o 0) =
    let (cb, l) := exec_all rest (opened_at c opened) in
    (cb, replicate (length fs) true ++ replicate (length early) false ++ l)).
  { intros rest. rewrite !exec_all_app, exec_failures by (done || (destruct fs; simpl in *; [lia | done])).
    fold opened. rewrite exec_all_app, exec_rejected by done. by destruct (exec_all rest _). }
  assert (Htake : forall k, k < length probes ->
    exec_all (take k probes) (opened_at c opened) = (before_probe c opened k, replicate k true)).
  { intros k Hk. change (opened_at c opened) with (before_probe c opened 0).
    assert (Hl : length (take k probes) = k) by (rewrite length_take; lia).
    rewrite exec_probes; [by rewrite Hl | done | by apply Forall_take | | rewrite Hl; lia].
    intros _ x Hx. apply Hlate. by destruct probes, k. }
  split.
  - rewrite Hopen. destruct (exists_last (l := probes)) as (ps & x & E); [intros ->; simpl in *; lia |].
    assert (Hx : Call.ok x = true) by (rewrite E in Hok; apply Forall_app in Hok as [_ Hok]; by inversion Hok).
    assert (Hps : length probes = S (length ps)) by (rewrite E, length_app; simpl; lia).
    assert (Ht : take (length ps) probes = ps) by (rewrite E; by apply take_app_length).
    rewrite E at 1. rewrite exec_all_app, <- Ht at 1. rewrite Htake by lia. cbn [exec_all].
    destruct (Execute_probe c Hc x opened (length ps)) as [ch ->]; [| lia |].
    { intros E0. apply Hlate. rewrite E. by destruct ps. }
    rewrite Hx, (proj2 (Z.eqb_eq _ _)) by lia. by rewrite Hps, replicate_S_end.
  - intros k bad Hk Hbad Hlb. rewrite Hopen, exec_all_app, Htake by done. cbn [exec_all].
    destruct (Execute_probe c Hc bad opened k) as [ch ->]; [done | lia |].
    rewrite Hbad. by rewrite replicate_S_end.
Qed.

(** Under every interleaving of concurrent calls and resets the announced
    changes form a path of the state machine that ends in the current state, only
    a reset leads from open to closed, the failures counted stay below the
    threshold, and no more than [HalfOpenMaxCalls] probes are admitted between two
    visits of the half-open state. *)
Theorem breaker_discipline c ops :
  enabled (CB.cfg (CB.New c)) ->
  let s := run cb_step ops (cb_init c) in
  let limit := CB.cfg (CB.New c) in
  chain CB.StateClosed (Sys.log s) = Some (CB.state (Sys.cb s)) /\
  Forall (lawful (BReset ∈ ops)) (Sys.log s) /\
  (0 <= CB.failureCount (Sys.cb s) < CB.Config.FailureThreshold limit)%Z /\
  (CB.state (Sys.cb s) = CB.StateHalfOpen -> (0 < Sys.probes s <= CB.Config.HalfOpenMaxCalls limit)%Z).
Proof.
  intros Hc s limit.
  assert (Hinv : forall l, l ⊆ ops -> cb_inv limit (BReset ∈ ops) (run cb_step l (cb_init c))).
  { intros l. induction l as [| o l IH] using rev_ind; intros Hl.
    - split; simpl; [| done | done | constructor].
      split; simpl; [done | by left | destruct Hc; simpl in *; lia | done].
    - rewrite run_app. simpl. apply cb_step_inv; [done | |].
      + intros ->. apply Hl, elem_of_app. right. left.
      + apply IH. intros x Hx. apply Hl, elem_of_app. by left. }
  destruct (Hinv ops) as [Hok Hp Hch Hlaw]; [done |]. fold s in Hok, Hp, Hch, Hlaw.
  split_and!; [done | done | apply Hok | apply Hok |].
  intros Hs. rewrite Hp by done. by apply (ok_half _ _ Hok).
Qed.

(** Reports of calls that started in an earlier state decide for the current
    one.  The agent's breaker closes on the success of a call admitted before it
    opened, while its only probe is still running; the services' breaker closes
    on such a success straight from the open state, before its timeout, and it
    admits any number of calls while half open. *)
Theorem stale_reports_decide :
  let c := CB.Config.mk "dev" 1 minute 1 in
  (let s := run cb_step [BBegin 0; BBegin 0; BEnd second false; BBegin hour; BEnd hour true] (cb_init c) in
   CB.state (Sys.cb s) = CB.StateClosed /\ Sys.inflight s = 1 /\ Sys.probes s = 1%Z) /\
  (let b := Circuit.recordResult second false (Circuit.New "svc" 1 minute) in
   Circuit.state b = Circuit.StateOpen /\ (Circuit.allow (second + 1) b).2 = false /\
   Circuit.state (Circuit.recordResult (second + 1) true b) = Circuit.StateClosed) /\
  (forall b now, Circuit.state b = Circuit.StateHalfOpen -> Circuit.allow now b = (b, true)).
Proof.
  intros c. split; [vm_compute; auto |]. split; [vm_compute; auto |].
  intros b now H. unfold Circuit.allow. by rewrite H.
Qed.

(** ** Witnesses *)

Definition ex_config : CB.Config.t := CB.Config.mk "dev-1" 2 minute 1.

Lemma ex_config_enabled : enabled ex_config.
Proof. split; vm_compute; split; congruence. Qed.

Definition ex_failures : list Call.t := [Call.mk 0 second false; Call.mk second (2 * second) false].
Definition ex_early : list Call.t := [Call.mk (3 * second) (3 * second) true].
Definition ex_probes : list Call.t := [Call.mk hour hour true].

Lemma breaker_cycle_witness :
  exec_all (ex_failures ++ ex_early ++ ex_probes) (closed_with ex_config 0 0) =
    (closed_with ex_config (2 * second) 0, [true; true; false; true]).
Proof.
  assert (H1 : Forall (fun x => Call.ok x = false) ex_failures) by (repeat constructor).
  assert (H2 : Z.of_nat (length ex_failures) = CB.Config.FailureThreshold ex_config) by reflexivity.
  assert (H3 : Forall (fun x => ~ late ex_config (2 * second) x) ex_early).
  { constructor; [| constructor]. unfold late. vm_compute. congruence. }
  assert (H4 : Forall (fun x => Call.ok x = true) ex_probes) by (repeat constructor).
  assert (H5 : Z.of_nat (length ex_probes) = CB.Config.HalfOpenMaxCalls ex_config) by reflexivity.
  assert (H6 : forall x, head ex_probes = Some x -> late ex_config (2 * second) x).
  { intros x [= <-]. unfold late. vm_compute. congruence. }
  exact (proj1 (breaker_cycle ex_config 0 ex_failures ex_early ex_probes ex_config_enabled H1 H2 H3 H4 H5 H6)).
Defined.

Lemma breaker_discipline_witness :
  chain CB.StateClosed (Sys.log (run cb_step [BBegin 0; BEnd 0 false; BBegin 0; BEnd 0 false; BBegin hour]
    (cb_init ex_config))) = Some CB.StateHalfOpen.
Proof.
  assert (Hc : enabled (CB.cfg (CB.New ex_config))) by exact ex_config_enabled.
  rewrite (proj1 (breaker_discipline ex_config
    [BBegin 0; BEnd 0 false; BBegin 0; BEnd 0 false; BBegin hour] Hc)).
  vm_compute. reflexivity.
Defined.
