(* ===== verification/AlertEval.v ===== *)
(** * Alert evaluation ([internal/alertengine])

    Rules with combined conditions over metric windows, the evaluator that
    keeps samples and "satisfied since" times, silences, inhibition by active
    parent alerts, and aggregation.  The metrics provider is an interface of the
    source without a fixed implementation: [query] stands for it, and may answer
    differently at each place that asks. *)

From Stdlib Require Import Ascii.
From S2P Require Import Proto GoStrings Window Float64 Prelude.
Open Scope go_scope.

(** ** Rules ([rule.go]) *)

Definition LogicAnd : string := "AND".
Definition LogicOr : string := "OR".
Definition LogicNot : string := "NOT".
Definition SeverityWarning : string := "warning".

Module Condition.
Record t := mk { Metric : string; Operator : string; Threshold : float64; Window : duration }.
End Condition.

Module AlertRule.
Record t := mk {
  ID : string; Name : string; TenantID : string; Enabled : bool;
  Conditions : list Condition.t; Logic : string; Duration : duration; Severity : string;
  NotifyChannels : list string; SilenceID : string; CreatedAt : time; UpdatedAt : time }.
Definition set_Logic v r := mk (ID r) (Name r) (TenantID r) (Enabled r) (Conditions r) v (Duration r) (Severity r) (NotifyChannels r) (SilenceID r) (CreatedAt r) (UpdatedAt r).
Definition set_Severity v r := mk (ID r) (Name r) (TenantID r) (Enabled r) (Conditions r) (Logic r) (Duration r) v (NotifyChannels r) (SilenceID r) (CreatedAt r) (UpdatedAt r).
Definition set_CreatedAt v r := mk (ID r) (Name r) (TenantID r) (Enabled r) (Conditions r) (Logic r) (Duration r) (Severity r) (NotifyChannels r) (SilenceID r) v (UpdatedAt r).
Definition set_UpdatedAt v r := mk (ID r) (Name r) (TenantID r) (Enabled r) (Conditions r) (Logic r) (Duration r) (Severity r) (NotifyChannels r) (SilenceID r) (CreatedAt r) v.
End AlertRule.

Module AlertEvent.
Record t := mk {
  RuleID : string; TenantID : string; DeviceID : string; Severity : string; Message : string;
  Labels : gmap string string; FiredAt : time; Values : gmap string float64 }.
End AlertEvent.

Inductive rule_error := ErrRuleInvalid | ErrRuleNotFound | QueryFailed (metric : string).
Inductive query_error := ErrMetricUnavailable | QueryOther.

Definition isSupportedOp (op : string) : bool :=
  (op == ">") || (op == "<") || (op == ">=") || (op == "<=") || (op == "==") || (op == "!=").

Definition compare (op : string) (actual threshold : float64) : bool :=
  if op == ">" then f_lt threshold actual
  else if op == "<" then f_lt actual threshold
  else if op == ">=" then f_le threshold actual
  else if op == "<=" then f_le actual threshold
  else if op == "==" then f_eq actual threshold
  else if op == "!=" then negb (f_eq actual threshold)
  else false.

Definition combine (logic : string) (results : list bool) : bool :=
  if length results == 0 then false
  else if logic == LogicOr then existsb id results
  else if logic == LogicNot then negb (existsb id results)
  else forallb id results.

(** [Validate] also fills in the defaults of the rule. *)
Definition ValidateRule (r : AlertRule.t) : result rule_error AlertRule.t :=
  if AlertRule.ID r == "" then Err ErrRuleInvalid
  else if AlertRule.TenantID r == "" then Err ErrRuleInvalid
  else if length (AlertRule.Conditions r) == 0 then Err ErrRuleInvalid
  else if existsb (fun c => (Condition.Metric c == "") || negb (isSupportedOp (Condition.Operator c)))
            (AlertRule.Conditions r) then Err ErrRuleInvalid
  else
    let r := if AlertRule.Logic r == "" then AlertRule.set_Logic LogicAnd r else r in
    Ok (if AlertRule.Severity r == "" then AlertRule.set_Severity SeverityWarning r else r).

(** ** Samples and durations ([evaluator.go]) *)

Module Sample.
Record t := mk { ts : time; value : float64 }.
Definition zero : t := mk zero_time f_zero.
End Sample.

Module Ring.
Record t := mk { buf : list Sample.t; head : nat; count : nat; cap : nat }.

Definition newRingBuffer (capacity : Z) : t :=
  let capacity := if (capacity <=? 0)%Z then 1%Z else capacity in
  mk (replicate (Z.to_nat capacity) Sample.zero) 0 0 (Z.to_nat capacity).

Definition push (s : Sample.t) (r : t) : t :=
  mk (<[head r := s]> (buf r)) ((head r + 1) `mod` cap r)
     (if decide (count r < cap r) then S (count r) else count r) (cap r).

(** The body of the loop of [avgSince]: the sum and the number of samples. *)
Definition accumulate (since : time) (acc : float64 * Z) (s : Sample.t) : float64 * Z :=
  if negb (Before (Sample.ts s) since) then (f_add acc.1 (Sample.value s), (acc.2 + 1)%Z) else acc.

Definition avgSince (since : time) (r : t) : option float64 :=
  if count r == 0 then None
  else
    let start := if count r == cap r then head r else 0 in
    let acc := foldl (fun acc i =>
      match buf r !! ((start + i) `mod` cap r) with
      | Some s => accumulate since acc s
      | None => acc
      end) (f_zero, 0%Z) (seq 0 (count r)) in
    if (acc.2 =? 0)%Z then None else Some (f_div acc.1 (f_of_int acc.2)).
End Ring.

Module Evaluator.
Record t := mk {
  samples : gmap string (gmap string Ring.t);
  satisfaction : gmap string (gmap string time);
  maxSamples : Z;
}.

Definition NewEvaluator (maxSamples : Z) : t :=
  mk ∅ ∅ (if (maxSamples <=? 0)%Z then 60%Z else maxSamples).

Definition ring_of (deviceID metric : string) (e : t) : option Ring.t :=
  samples e !! deviceID ≫= fun m => m !! metric.

Definition RecordSample (deviceID metric : string) (value : float64) (ts : time) (e : t) : t :=
  let m := default ∅ (samples e !! deviceID) in
  let ring := default (Ring.newRingBuffer (maxSamples e)) (m !! metric) in
  mk (<[deviceID := <[metric := Ring.push (Sample.mk ts value) ring]> m]> (samples e))
     (satisfaction e) (maxSamples e).

Definition AvgInWindow (now : time) (deviceID metric : string) (window : duration) (e : t)
  : option float64 :=
  match ring_of deviceID metric e with
  | None => None
  | Some ring =>
      if Ring.count ring == 0 then None
      else if (window <=? 0)%Z then
        Sample.value <$> (Ring.buf ring !! ((Ring.head ring + Ring.cap ring - 1) `mod` Ring.cap ring))
      else Ring.avgSince (Add now (- window)) ring
  end.

(** [e.satisfaction[deviceID][ruleID]]. *)
Definition since_of (deviceID ruleID : string) (e : t) : option time :=
  satisfaction e !! deviceID ≫= fun m => m !! ruleID.

Definition set_satisfaction v e : t := mk (samples e) v (maxSamples e).

(** Delete one entry; a missing inner map is left missing. *)
Definition forget (deviceID ruleID : string) (e : t) : t :=
  match satisfaction e !! deviceID with
  | Some m => set_satisfaction (<[deviceID := delete ruleID m]> (satisfaction e)) e
  | None => e
  end.

Definition ShouldFire (now : time) (deviceID ruleID : string) (matched : bool) (duration : duration)
    (e : t) : t * bool :=
  if negb matched then (forget deviceID ruleID e, false)
  else if (duration <=? 0)%Z then (e, true)
  else
    let m := default ∅ (satisfaction e !! deviceID) in
    let e := set_satisfaction (<[deviceID := m]> (satisfaction e)) e in
    match m !! ruleID with
    | None => (set_satisfaction (<[deviceID := <[ruleID := now]> m]> (satisfaction e)) e, false)
    | Some start =>
        if (Sub now start >=? duration)%Z then (forget deviceID ruleID e, true) else (e, false)
    end.

Definition ResetDevice (deviceID : string) (e : t) : t :=
  mk (delete deviceID (samples e)) (delete deviceID (satisfaction e)) (maxSamples e).

Definition ResetRule (ruleID : string) (e : t) : t :=
  set_satisfaction ((fun m : gmap string time => delete ruleID m) <$> satisfaction e) e.
End Evaluator.

(** ** The engine ([engine.go]) *)

(** [%q]: a double-quoted Go string; bytes of multi-byte characters are taken
    to be printable. *)
Definition hex_digit (n : N) : ascii := if (n <? 10)%N then ascii_of_N (48 + n) else ascii_of_N (87 + n).

Definition quote_char (c : ascii) : string :=
  let n := N_of_ascii c in
  let esc (x : N) := String (ascii_of_N 92) (String (ascii_of_N x) "") in
  if (n =? 34)%N then esc 34%N
  else if (n =? 92)%N then esc 92%N
  else if (n =? 7)%N then esc 97%N
  else if (n =? 8)%N then esc 98%N
  else if (n =? 9)%N then esc 116%N
  else if (n =? 10)%N then esc 110%N
  else if (n =? 11)%N then esc 118%N
  else if (n =? 12)%N then esc 102%N
  else if (n =? 13)%N then esc 114%N
  else if (n <? 32)%N || (n =? 127)%N
  then esc 120%N +:+ String (hex_digit (n `div` 16)) (String (hex_digit (n `mod` 16)) "")
  else String c "".

Fixpoint quote_body (s : string) : string :=
  match s with
  | "" => ""
  | String c s => quote_char c +:+ quote_body s
  end.

Definition quote (s : string) : string :=
  String (ascii_of_N 34) (quote_body s +:+ String (ascii_of_N 34) "").

Module Engine.
Record t := mk { rules : gmap string AlertRule.t; evaluator : Evaluator.t }.

Definition NewEngine (ev : Evaluator.t) : t := mk ∅ ev.
Definition put (r : AlertRule.t) (e : t) : t := mk (<[AlertRule.ID r := r]> (rules e)) (evaluator e).

Definition AddRule (now : time) (rule : AlertRule.t) (e : t) : t * option rule_error :=
  match ValidateRule rule with
  | Err x => (e, Some x)
  | Ok rule =>
      match rules e !! AlertRule.ID rule with
      | Some _ => (e, Some ErrRuleInvalid)
      | None =>
          let rule := if IsZero (AlertRule.CreatedAt rule) then AlertRule.set_CreatedAt now rule else rule in
          let rule := if IsZero (AlertRule.UpdatedAt rule) then AlertRule.set_UpdatedAt now rule else rule in
          (put rule e, None)
      end
  end.

Definition UpdateRule (now : time) (rule : AlertRule.t) (e : t) : t * option rule_error :=
  match ValidateRule rule with
  | Err x => (e, Some x)
  | Ok rule =>
      match rules e !! AlertRule.ID rule with
      | None => (e, Some ErrRuleNotFound)
      | Some old =>
          (put (AlertRule.set_UpdatedAt now (AlertRule.set_CreatedAt (AlertRule.CreatedAt old) rule)) e, None)
      end
  end.

Definition DeleteRule (id : string) (e : t) : t * option rule_error :=
  match rules e !! id with
  | None => (e, Some ErrRuleNotFound)
  | Some _ => (mk (delete id (rules e)) (Evaluator.ResetRule id (evaluator e)), None)
  end.

Definition GetRule (id : string) (e : t) : result rule_error AlertRule.t :=
  match rules e !! id with Some r => Ok r | None => Err ErrRuleNotFound end.

Definition ListRules (range : gmap string AlertRule.t -> list AlertRule.t) (tenantID : string) (e : t)
  : list AlertRule.t :=
  stable_sort (fun a b => str_lt (AlertRule.ID a) (AlertRule.ID b))
    (List.filter (fun r => negb ((tenantID != "") && (AlertRule.TenantID r != tenantID))) (range (rules e))).

Definition enabledSnapshot (range : gmap string AlertRule.t -> list AlertRule.t) (e : t) : list AlertRule.t :=
  List.filter AlertRule.Enabled (range (rules e)).

Section evaluation.
(** [query building ruleID i metric deviceID window]: what the provider answers
    for condition [i] of the rule, when it is matched or when its event is built. *)
Context (query : bool -> string -> nat -> string -> string -> duration -> result query_error float64).

Fixpoint match_conditions (ruleID : string) (i : nat) (cs : list Condition.t) (deviceID : string)
  : result rule_error (list bool) :=
  match cs with
  | [] => Ok []
  | c :: cs =>
      match query false ruleID i (Condition.Metric c) deviceID (Condition.Window c) with
      | Err QueryOther => Err (QueryFailed (Condition.Metric c))
      | Err ErrMetricUnavailable =>
          l ← match_conditions ruleID (S i) cs deviceID; Ok (false :: l)
      | Ok actual =>
          l ← match_conditions ruleID (S i) cs deviceID;
          Ok (compare (Condition.Operator c) actual (Condition.Threshold c) :: l)
      end
  end.

Definition MatchRule (rule : AlertRule.t) (deviceID : string) : result rule_error bool :=
  results ← match_conditions (AlertRule.ID rule) 0 (AlertRule.Conditions rule) deviceID;
  Ok (combine (AlertRule.Logic rule) results).

Definition buildEvent (r : AlertRule.t) (deviceID : string) (now : time) : AlertEvent.t :=
  let values := imap (fun i c =>
    (Condition.Metric c, query true (AlertRule.ID r) i (Condition.Metric c) deviceID (Condition.Window c)))
    (AlertRule.Conditions r) in
  AlertEvent.mk (AlertRule.ID r) (AlertRule.TenantID r) deviceID (AlertRule.Severity r)
    ("rule " +:+ quote (AlertRule.Name r) +:+ " triggered on device " +:+ deviceID)
    (<["ruleID" := AlertRule.ID r]> (<["deviceID" := deviceID]>
      (<["severity" := AlertRule.Severity r]> (<["tenantID" := AlertRule.TenantID r]> ∅))))
    now
    (foldl (fun m (v : string * result query_error float64) =>
      match v.2 with Ok x => <[v.1 := x]> m | Err _ => m end) ∅ values).

(** The body of the loop of [Evaluate]; [clock] is what the evaluator's clock
    answers for a rule. *)
Definition evaluate_one (deviceID : string) (now : time) (clock : string -> time)
    (st : Evaluator.t * list AlertEvent.t) (r : AlertRule.t) : Evaluator.t * list AlertEvent.t :=
  match MatchRule r deviceID with
  | Err _ => st
  | Ok matched =>
      let (ev, fire) := Evaluator.ShouldFire (clock (AlertRule.ID r)) deviceID (AlertRule.ID r) matched
                          (AlertRule.Duration r) st.1 in
      (ev, if (fire : bool) then st.2 ++ [buildEvent r deviceID now] else st.2)
  end.

Definition Evaluate (range : gmap string AlertRule.t -> list AlertRule.t) (deviceID : string) (now : time)
    (clock : string -> time) (e : t) : t * list AlertEvent.t :=
  let st := foldl (evaluate_one deviceID now clock) (evaluator e, []) (enabledSnapshot range e) in
  (mk (rules e) st.1, stable_sort (fun a b => str_lt (AlertEvent.RuleID a) (AlertEvent.RuleID b)) st.2).
End evaluation.
End Engine.

(** ** Silences ([silencer.go]) *)

Module SilenceRule.
Record t := mk {
  ID : string; TenantID : string; MatchLabels : gmap string string;
  StartAt : time; EndAt : time; CreatedBy : string; Reason : string }.
End SilenceRule.

Inductive silence_error := ErrSilenceNotFound | ErrSilenceInvalid.

Abbreviation silencer := (gmap string SilenceRule.t).

Definition ValidateSilence (s : SilenceRule.t) : option silence_error :=
  if SilenceRule.ID s == "" then Some ErrSilenceInvalid
  else if SilenceRule.TenantID s == "" then Some ErrSilenceInvalid
  else if negb (IsZero (SilenceRule.StartAt s)) && negb (IsZero (SilenceRule.EndAt s)) &&
          Before (SilenceRule.EndAt s) (SilenceRule.StartAt s) then Some ErrSilenceInvalid
  else None.

Definition AddSilence (rule : SilenceRule.t) (s : silencer) : silencer * option silence_error :=
  match ValidateSilence rule with
  | Some x => (s, Some x)
  | None =>
      match s !! SilenceRule.ID rule with
      | Some _ => (s, Some ErrSilenceInvalid)
      | None => (<[SilenceRule.ID rule := rule]> s, None)
      end
  end.

Definition UpdateSilence (rule : SilenceRule.t) (s : silencer) : silencer * option silence_error :=
  match ValidateSilence rule with
  | Some x => (s, Some x)
  | None =>
      match s !! SilenceRule.ID rule with
      | None => (s, Some ErrSilenceNotFound)
      | Some _ => (<[SilenceRule.ID rule := rule]> s, None)
      end
  end.

Definition DeleteSilence (id : string) (s : silencer) : silencer * option silence_error :=
  match s !! id with
  | None => (s, Some ErrSilenceNotFound)
  | Some _ => (delete id s, None)
  end.

Definition GetSilence (id : string) (s : silencer) : result silence_error SilenceRule.t :=
  match s !! id with Some r => Ok r | None => Err ErrSilenceNotFound end.

Definition ListSilences (range : silencer -> list SilenceRule.t) (s : silencer) : list SilenceRule.t :=
  stable_sort (fun a b => str_lt (SilenceRule.ID a) (SilenceRule.ID b)) (range s).

(** A missing label reads as the empty string. *)
Definition label (m : gmap string string) (k : string) : string := default "" (m !! k).

(** [iter] enumerates the constraints in the order Go ranges over them. *)
Definition labelsMatch (iter : gmap string string -> list (string * string))
    (eventLabels match_ : gmap string string) : bool :=
  forallb (fun kv => negb (label eventLabels kv.1 != kv.2)) (iter match_).

Definition silences (iter : gmap string string -> list (string * string)) (now : time)
    (event : AlertEvent.t) (r : SilenceRule.t) : bool :=
  if SilenceRule.TenantID r != AlertEvent.TenantID event then false
  else if negb (IsZero (SilenceRule.StartAt r)) && Before now (SilenceRule.StartAt r) then false
  else if negb (IsZero (SilenceRule.EndAt r)) && After now (SilenceRule.EndAt r) then false
  else labelsMatch iter (AlertEvent.Labels event) (SilenceRule.MatchLabels r).

Definition IsSilenced (range : silencer -> list SilenceRule.t)
    (iter : gmap string string -> list (string * string)) (now : time) (event : AlertEvent.t)
    (s : silencer) : bool :=
  existsb (silences iter now event) (range s).

(** ** Inhibition ([inhibitor.go]) *)

Module InhibitRule.
Record t := mk {
  Name : string; SourceMatch : gmap string string; TargetMatch : gmap string string; Equal : list string }.
End InhibitRule.

Module Inhibitor.
Record t := mk {
  rules : list InhibitRule.t;
  activeAlerts : gmap string Alert.t;
  trackedAt : gmap string time;
  ttl : duration;
}.

Definition defaultInhibitTTL : duration := (30 * minute)%Z.

Definition newAlertInhibitor (rules : list InhibitRule.t) (ttl : duration) : t :=
  mk rules ∅ ∅ (if (ttl <=? 0)%Z then defaultInhibitTTL else ttl).

Definition alertLabels (a : Alert.t) : gmap string string :=
  <["metric" := Alert.Metric a]> (<["device_id" := Alert.DeviceID a]>
    (<["severity" := Alert.Severity a]> (<["status" := Alert.Status a]> ∅))).

Definition equalLabelsMatch (parent target : gmap string string) (equal : list string) : bool :=
  forallb (fun k => negb (label parent k != label target k)) equal.

Definition IsInhibited (range : gmap string Alert.t -> list Alert.t)
    (iter : gmap string string -> list (string * string)) (alert : Alert.t) (s : t) : bool :=
  let targetLabels := alertLabels alert in
  existsb (fun rule =>
    labelsMatch iter targetLabels (InhibitRule.TargetMatch rule) &&
    existsb (fun parent =>
      labelsMatch iter (alertLabels parent) (InhibitRule.SourceMatch rule) &&
      equalLabelsMatch (alertLabels parent) targetLabels (InhibitRule.Equal rule))
      (range (activeAlerts s))) (rules s).

Definition TrackActive (now : time) (alert : Alert.t) (s : t) : t :=
  if Alert.AlertID alert == "" then s
  else mk (rules s) (<[Alert.AlertID alert := alert]> (activeAlerts s))
         (<[Alert.AlertID alert := now]> (trackedAt s)) (ttl s).

Definition RemoveActive (alertID : string) (s : t) : t :=
  if alertID == "" then s
  else mk (rules s) (delete alertID (activeAlerts s)) (delete alertID (trackedAt s)) (ttl s).

Definition cleanup_one (now : time) (st : t * nat) (id : string) : t * nat :=
  let (s, n) := st in
  match trackedAt s !! id with
  | None => st
  | Some tracked =>
      if (Sub now tracked >? ttl s)%Z
      then (mk (rules s) (delete id (activeAlerts s)) (delete id (trackedAt s)) (ttl s), S n)
      else st
  end.

(** [ids] is the order in which Go visits [trackedAt]. *)
Definition Cleanup (ids : list string) (now : time) (s : t) : t * nat := foldl (cleanup_one now) (s, 0) ids.

Definition ActiveCount (s : t) : nat := size (activeAlerts s).
End Inhibitor.

(** ** Aggregation ([aggregator.go]) *)

Module Aggregator.
Record t := mk { groupBy : list string; maxGroup : nat }.

Definition defaultMaxGroup : nat := 100.

Definition NewAggregator (groupBy : list string) (maxGroup : Z) : t :=
  mk groupBy (if (maxGroup <=? 0)%Z then defaultMaxGroup else Z.to_nat maxGroup).

Definition groupKey (a : t) (ev : AlertEvent.t) : string :=
  JoinStr "|" ((fun f => f +:+ "=" +:+ label (AlertEvent.Labels ev) f) <$> groupBy a).

(** One turn of the first loop: the groups and the order of their first events. *)
Definition add_event (a : t) (st : gmap string (list AlertEvent.t) * list string) (ev : AlertEvent.t) :=
  let key := groupKey a ev in
  (<[key := default [] (st.1 !! key) ++ [ev]]> st.1,
   match st.1 !! key with Some _ => st.2 | None => st.2 ++ [key] end).

Definition Aggregate (a : t) (events : list AlertEvent.t) : list (string * list AlertEvent.t) :=
  let (groups, order) := foldl (add_event a) (∅, []) events in
  stable_sort (fun x y => str_lt x.1 y.1)
    ((fun key =>
       let evs := default [] (groups !! key) in
       (key, if decide (maxGroup a < length evs) then take (maxGroup a) evs else evs)) <$> order).
End Aggregator.
