(* ===== verification/AlertProps.v ===== *)
(** * Properties of alert evaluation

    The evaluator's rings hold the latest samples and its averages are those of
    the samples in the window; a rule with a duration fires exactly when its
    condition has held without interruption for that long; grouping splits the
    events by key. *)

From S2P Require Import Proto GoStrings Window Float64 Prelude AlertEval.
Open Scope go_scope.

(** ** Windows of samples *)

Module RingProps.
Definition inv (r : Ring.t) : Prop := ring_inv (Ring.buf r) (Ring.head r) (Ring.count r) (Ring.cap r).
Definition contents (r : Ring.t) : list Sample.t :=
  ring_items (Ring.buf r) (Ring.head r) (Ring.count r) (Ring.cap r).

Lemma push_inv x r : inv r -> inv (Ring.push x r).
Proof. intros H. by apply ring_push_inv. Qed.

Lemma push_contents x r : inv r -> contents (Ring.push x r) = lastn (Ring.cap r) (contents r ++ [x]).
Proof. intros H. by apply ring_push_items. Qed.

#[export] Program Instance Ring_log : BoundedLog Ring.t Sample.t := {|
  log_inv := inv;
  log_cap := Ring.cap;
  log_push := Ring.push;
  log_contents := contents;
|}.
Next Obligation. exact push_inv. Qed.
Next Obligation. done. Qed.
Next Obligation. exact push_contents. Qed.
Next Obligation.
  intros r H. unfold contents. rewrite length_ring_items by done. by destruct H as (_ & _ & _ & ? & _).
Qed.

Lemma new_inv capacity : inv (Ring.newRingBuffer capacity).
Proof.
  unfold inv, Ring.newRingBuffer, ring_inv. simpl. rewrite length_replicate.
  destruct (Z.leb_spec capacity 0); lia.
Qed.

Lemma new_contents capacity : contents (Ring.newRingBuffer capacity) = [].
Proof. done. Qed.
End RingProps.

(** The average as a function of the samples in order. *)
Definition mean (l : list float64) : option float64 :=
  match l with
  | [] => None
  | _ => Some (f_div (foldl f_add f_zero l) (f_of_int (Z.of_nat (length l))))
  end.

Definition in_window (since : time) (l : list Sample.t) : list float64 :=
  Sample.value <$> List.filter (fun s => negb (Before (Sample.ts s) since)) l.

Lemma foldl_omap {A B C} (f : A -> option B) (g : C -> B -> C) c l :
  foldl (fun c a => match f a with Some b => g c b | None => c end) c l = foldl g c (omap f l).
Proof.
  revert c. induction l as [| a l IH]; intros c; [done |]. csimpl. rewrite IH.
  by destruct (f a).
Qed.

Lemma accumulate_foldl since l acc :
  foldl (Ring.accumulate since) acc l =
    (foldl f_add acc.1 (in_window since l), (acc.2 + Z.of_nat (length (in_window since l)))%Z).
Proof.
  revert acc. induction l as [| s l IH]; intros [sum n].
  { unfold in_window. simpl. f_equal. lia. }
  cbn [foldl]. rewrite IH. unfold Ring.accumulate, in_window. cbn [List.filter].
  destruct (negb (Before (Sample.ts s) since)); [| done].
  cbn [fst snd fmap list_fmap foldl length]. f_equal. lia.
Qed.

Lemma avgSince_mean since r :
  RingProps.inv r -> Ring.avgSince since r = mean (in_window since (RingProps.contents r)).
Proof.
  intros Hi. unfold Ring.avgSince. case_bool_decide as Hc.
  { unfold RingProps.contents, ring_items. by rewrite Hc. }
  rewrite foldl_omap.
  replace (if Ring.count r == Ring.cap r then Ring.head r else 0)
    with (ring_start (Ring.head r) (Ring.count r) (Ring.cap r))
    by (unfold ring_start; case_bool_decide; case_decide; done).
  fold (ring_items (Ring.buf r) (Ring.head r) (Ring.count r) (Ring.cap r)). fold (RingProps.contents r).
  rewrite accumulate_foldl. cbn [fst snd]. rewrite Z.add_0_l. unfold mean.
  destruct (in_window since (RingProps.contents r)) as [| x l] eqn:E; [done |].
  rewrite (proj2 (Z.eqb_neq _ _)) by (simpl; lia). done.
Qed.

(** A history of recorded samples, and those of one metric of one device. *)
Module Rec.
Record t := mk { device : string; metric : string; sample : Sample.t }.
End Rec.

Definition record (e : Evaluator.t) (r : Rec.t) : Evaluator.t :=
  Evaluator.RecordSample (Rec.device r) (Rec.metric r) (Sample.value (Rec.sample r)) (Sample.ts (Rec.sample r)) e.

Definition recorded (deviceID metric : string) (recs : list Rec.t) : list Sample.t :=
  Rec.sample <$> List.filter (fun r => (Rec.device r == deviceID) && (Rec.metric r == metric)) recs.

Lemma ring_of_record d m e r :
  Evaluator.ring_of d m (record e r) =
    if (Rec.device r == d) && (Rec.metric r == m)
    then Some (Ring.push (Rec.sample r)
           (default (Ring.newRingBuffer (Evaluator.maxSamples e)) (Evaluator.ring_of d m e)))
    else Evaluator.ring_of d m e.
Proof.
  unfold record, Evaluator.RecordSample, Evaluator.ring_of. simpl.
  destruct (decide (Rec.device r = d)) as [<- | Hd].
  - rewrite bool_decide_true, lookup_insert_eq by done. simpl.
    destruct (decide (Rec.metric r = m)) as [<- | Hm].
    + rewrite bool_decide_true, lookup_insert_eq by done.
      destruct (Rec.sample r). by destruct (Evaluator.samples e !! Rec.device r).
    + rewrite bool_decide_false, lookup_insert_ne by done.
      by destruct (Evaluator.samples e !! Rec.device r).
  - rewrite bool_decide_false, lookup_insert_ne by done. done.
Qed.

Lemma record_max recs e : Evaluator.maxSamples (foldl record e recs) = Evaluator.maxSamples e.
Proof. revert e. induction recs as [| r recs IH]; intros e; [done |]. simpl. by rewrite IH. Qed.

Definition window_size (maxSamples : Z) : nat := Z.to_nat (if (maxSamples <=? 0)%Z then 60%Z else maxSamples).

Lemma ring_of_recorded max d m recs :
  match Evaluator.ring_of d m (foldl record (Evaluator.NewEvaluator max) recs) with
  | None => recorded d m recs = []
  | Some r => recorded d m recs <> [] /\ RingProps.inv r /\ Ring.cap r = window_size max /\
      RingProps.contents r = lastn (window_size max) (recorded d m recs)
  end.
Proof.
  induction recs as [| x recs IH] using rev_ind; [done |].
  rewrite foldl_snoc, ring_of_record, record_max.
  assert (Hrec : recorded d m (recs ++ [x]) = recorded d m recs ++
    if (Rec.device x == d) && (Rec.metric x == m) then [Rec.sample x] else []).
  { unfold recorded. rewrite List.filter_app, fmap_app. simpl. by destruct (_ && _)%go. }
  rewrite Hrec. destruct ((Rec.device x == d) && (Rec.metric x == m))%go; [| by rewrite app_nil_r].
  split; [by destruct (recorded d m recs) |].
  set (e := foldl record _ recs) in *.
  destruct (Evaluator.ring_of d m e) as [r |]; simpl.
  - destruct IH as (_ & Hi & Hc & Hr).
    split_and!; [by apply RingProps.push_inv | done |].
    by rewrite RingProps.push_contents, Hc, Hr, lastn_lastn_app.
  - rewrite IH. set (n := if (max <=? 0)%Z then 60%Z else max).
    assert (Hc : Ring.cap (Ring.newRingBuffer n) = window_size max).
    { unfold window_size, Ring.newRingBuffer, n. simpl.
      destruct (Z.leb_spec max 0); simpl; [done |]. by rewrite (proj2 (Z.leb_gt _ _)) by lia. }
    pose proof (RingProps.new_inv n) as Hi.
    split_and!; [by apply RingProps.push_inv | done |].
    by rewrite RingProps.push_contents, Hc, RingProps.new_contents.
Qed.

(** After any history of samples the average over a window is the mean of
    the samples of that device and metric that lie in the window, among the last
    [maxSamples] of them; without a window it is the last sample's value. *)
Theorem average_of_window max recs now d m window :
  Evaluator.AvgInWindow now d m window (foldl record (Evaluator.NewEvaluator max) recs) =
    let kept := lastn (window_size max) (recorded d m recs) in
    if (window <=? 0)%Z then Sample.value <$> last kept
    else mean (in_window (Add now (- window)) kept).
Proof.
  pose proof (ring_of_recorded max d m recs) as H. unfold Evaluator.AvgInWindow.
  destruct (Evaluator.ring_of d m _) as [r |]; simpl; last first.
  { rewrite H. unfold lastn. simpl. by case_match. }
  destruct H as (Hne & Hi & Hc & Hr).
  assert (0 < Ring.count r).
  { destruct (decide (Ring.count r = 0)) as [E |]; [| lia]. exfalso. apply Hne.
    unfold RingProps.contents, ring_items in Hr. rewrite E in Hr. simpl in Hr.
    apply (f_equal length) in Hr. rewrite length_lastn in Hr. simpl in Hr.
    apply nil_length_inv. destruct Hi as (? & _). lia. }
  rewrite bool_decide_false by lia. rewrite <- Hr.
  destruct (window <=? 0)%Z; [| by apply avgSince_mean].
  by rewrite (ring_last _ _ _ _ Hi).
Qed.

(** ** Durations *)

(** What happens to an evaluator: checks of rules, samples, and resets. *)
Inductive event :=
  | Checked (now : time) (device rule : string) (matched : bool) (dur : duration)
  | Recorded (r : Rec.t)
  | DeviceReset (device : string)
  | RuleReset (rule : string).

Definition react (e : Evaluator.t) (ev : event) : Evaluator.t * bool :=
  match ev with
  | Checked now d r matched dur => Evaluator.ShouldFire now d r matched dur e
  | Recorded x => (record e x, false)
  | DeviceReset d => (Evaluator.ResetDevice d e, false)
  | RuleReset r => (Evaluator.ResetRule r e, false)
  end.

(** The state after a history, and the history, newest first, with what fired. *)
Definition history (max : Z) (evs : list event) : Evaluator.t * list (event * bool) :=
  foldl (fun st ev => let (e, fired) := react st.1 ev in (e, (ev, fired) :: st.2))
    (Evaluator.NewEvaluator max, []) evs.

(** The instant of the first check of the uninterrupted run of matched, unfired
    checks that ends the log; [None] when there is no such run.  Checks without
    a duration neither start nor interrupt a run. *)
Fixpoint run_start (d r : string) (log : list (event * bool)) : option time :=
  match log with
  | [] => None
  | (Checked t d' r' matched dur, fired) :: log =>
      if (d' == d) && (r' == r) then
        if negb matched then None
        else if (dur <=? 0)%Z then run_start d r log
        else if (fired : bool) then None
        else Some (default t (run_start d r log))
      else run_start d r log
  | (Recorded _, _) :: log => run_start d r log
  | (DeviceReset d', _) :: log => if d' == d then None else run_start d r log
  | (RuleReset r', _) :: log => if r' == r then None else run_start d r log
  end.

Lemma history_snoc max evs ev :
  history max (evs ++ [ev]) =
    ((react (history max evs).1 ev).1, (ev, (react (history max evs).1 ev).2) :: (history max evs).2).
Proof. unfold history. rewrite foldl_snoc. by destruct (react _ ev). Qed.

Lemma since_of_forget d' r' d r e :
  Evaluator.since_of d r (Evaluator.forget d' r' e) =
    if (d' == d) && (r' == r) then None else Evaluator.since_of d r e.
Proof.
  unfold Evaluator.forget, Evaluator.since_of.
  destruct (decide (d' = d)) as [<- | Hd]; [rewrite bool_decide_true by done | rewrite bool_decide_false by done];
    destruct (Evaluator.satisfaction e !! d') as [m |] eqn:E; simpl;
    rewrite ?E, ?lookup_insert_eq, ?lookup_insert_ne by done; simpl; try done.
  - destruct (decide (r' = r)) as [<- | Hr].
    + by rewrite bool_decide_true, lookup_delete_eq.
    + by rewrite bool_decide_false, lookup_delete_ne.
  - by case_bool_decide.
Qed.

Lemma since_of_set d' r' t d r e :
  Evaluator.since_of d r (Evaluator.set_satisfaction
      (<[d' := <[r' := t]> (default ∅ (Evaluator.satisfaction e !! d'))]> (Evaluator.satisfaction e)) e) =
    if (d' == d) && (r' == r) then Some t else Evaluator.since_of d r e.
Proof.
  unfold Evaluator.since_of. simpl.
  destruct (decide (d' = d)) as [<- | Hd].
  - rewrite bool_decide_true, lookup_insert_eq by done. simpl.
    destruct (decide (r' = r)) as [<- | Hr].
    + by rewrite bool_decide_true, lookup_insert_eq.
    + rewrite bool_decide_false, lookup_insert_ne by done. by destruct (_ !! d').
  - by rewrite bool_decide_false, lookup_insert_ne.
Qed.

Lemma since_of_touch d' d r e :
  Evaluator.since_of d r (Evaluator.set_satisfaction
      (<[d' := default ∅ (Evaluator.satisfaction e !! d')]> (Evaluator.satisfaction e)) e) =
    Evaluator.since_of d r e.
Proof.
  unfold Evaluator.since_of. simpl. destruct (decide (d' = d)) as [<- | Hd].
  - rewrite lookup_insert_eq. simpl. by destruct (_ !! d').
  - by rewrite lookup_insert_ne.
Qed.

(** What a check does to the entry of a rule on a device, and whether it fires. *)
Lemma ShouldFire_since now d' r' matched dur e d r :
  let (e', fired) := Evaluator.ShouldFire now d' r' matched dur e in
  Evaluator.since_of d r e' =
    if (d' == d) && (r' == r) then
      if negb matched then None
      else if (dur <=? 0)%Z then Evaluator.since_of d r e
      else if (fired : bool) then None
      else Some (default now (Evaluator.since_of d r e))
    else Evaluator.since_of d r e.
Proof.
  unfold Evaluator.ShouldFire. destruct matched; simpl; [| apply since_of_forget].
  destruct (dur <=? 0)%Z; [by repeat case_bool_decide |].
  set (e' := Evaluator.set_satisfaction _ e).
  assert (Htouch : Evaluator.since_of d r e' = Evaluator.since_of d r e) by apply since_of_touch.
  destruct (default ∅ (Evaluator.satisfaction e !! d') !! r') as [start |] eqn:E.
  - assert (Hs : Evaluator.since_of d' r' e = Some start).
    { unfold Evaluator.since_of. by destruct (Evaluator.satisfaction e !! d'). }
    destruct (Sub now start >=? dur)%Z.
    + rewrite since_of_forget, Htouch. by destruct (_ && _)%go.
    + rewrite Htouch. case_bool_decide as Hd; [| done]. case_bool_decide as Hr; [| done].
      subst. simpl. by rewrite Hs.
  - assert (Hs : Evaluator.since_of d' r' e = None).
    { unfold Evaluator.since_of. by destruct (Evaluator.satisfaction e !! d'). }
    replace (Evaluator.set_satisfaction _ e') with (Evaluator.set_satisfaction
      (<[d' := <[r' := now]> (default ∅ (Evaluator.satisfaction e !! d'))]> (Evaluator.satisfaction e)) e)
      by (unfold e', Evaluator.set_satisfaction; simpl; by rewrite insert_insert_eq).
    rewrite since_of_set.
    case_bool_decide as Hd; [| done]. case_bool_decide as Hr; [| done].
    subst. simpl. by rewrite Hs.
Qed.

Lemma ShouldFire_fires now d r dur e :
  (0 < dur)%Z ->
  (Evaluator.ShouldFire now d r true dur e).2 =
    match Evaluator.since_of d r e with Some s => (Sub now s >=? dur)%Z | None => false end.
Proof.
  intros Hd. unfold Evaluator.ShouldFire, Evaluator.since_of. simpl.
  rewrite (proj2 (Z.leb_gt _ _)) by done.
  destruct (Evaluator.satisfaction e !! d) as [m |]; simpl; [| done].
  destruct (m !! r) as [s |]; [| done]. by destruct (Sub now s >=? dur)%Z.
Qed.

Lemma since_of_history max evs d r :
  Evaluator.since_of d r (history max evs).1 = run_start d r (history max evs).2.
Proof.
  induction evs as [| ev evs IH] using rev_ind; [done |].
  rewrite history_snoc. destruct (history max evs) as [e log]. cbn [fst snd] in *.
  destruct ev as [now d' r' matched dur | x | d' | r']; cbn [react fst snd run_start].
  - pose proof (ShouldFire_since now d' r' matched dur e d r) as H.
    destruct (Evaluator.ShouldFire now d' r' matched dur e) as [e' fired]. cbn [fst snd]. by rewrite H, IH.
  - exact IH.
  - unfold Evaluator.ResetDevice, Evaluator.since_of in *. simpl.
    destruct (decide (d' = d)) as [<- | Hd].
    + by rewrite bool_decide_true, lookup_delete_eq.
    + by rewrite bool_decide_false, lookup_delete_ne.
  - unfold Evaluator.ResetRule, Evaluator.since_of in *. simpl. rewrite lookup_fmap.
    destruct (decide (r' = r)) as [<- | Hr].
    + rewrite bool_decide_true by done. destruct (_ !! d); simpl; [by rewrite lookup_delete_eq | done].
    + rewrite bool_decide_false by done. rewrite <- IH. destruct (_ !! d); simpl; [by rewrite lookup_delete_ne | done].
Qed.

(** C37: after any history of checks, samples and resets, a check of a rule with
    a positive duration fires exactly when its condition is matched and the
    uninterrupted run of matched checks of this rule on this device, since the
    last unmatched check, firing or reset, began at least that duration ago; a
    check without a duration fires exactly when its condition is matched. *)
Theorem fires_after_duration max evs now d r matched dur :
  (Evaluator.ShouldFire now d r matched dur (history max evs).1).2 =
    matched && ((dur <=? 0)%Z ||
      match run_start d r (history max evs).2 with
      | Some s => (Sub now s >=? dur)%Z
      | None => false
      end).
Proof.
  destruct matched; [| done]. destruct (Z.leb_spec dur 0) as [Hd | Hd].
  - unfold Evaluator.ShouldFire. simpl. by rewrite (proj2 (Z.leb_le _ _)).
  - by rewrite ShouldFire_fires, since_of_history.
Qed.

(** Events that leave a run of [r] on [d] with duration [dur] uninterrupted. *)
Definition steady (d r : string) (dur : duration) (ev : event) : bool :=
  match ev with
  | Checked _ d' r' matched dur' => negb ((d' == d) && (r' == r)) || (matched && (dur' =? dur)%Z)
  | Recorded _ => true
  | DeviceReset d' => d' != d
  | RuleReset r' => r' != r
  end.

(** Checks of the pair are made no later than [s]. *)
Definition checked_by (s : time) (d r : string) (ev : event) : bool :=
  match ev with
  | Checked t d' r' _ _ => negb ((d' == d) && (r' == r)) || (t <=? s)%Z
  | _ => true
  end.

Lemma since_of_checked_by s max evs d r t :
  Forall (fun ev => checked_by s d r ev = true) evs ->
  Evaluator.since_of d r (history max evs).1 = Some t -> (t <= s)%Z.
Proof.
  rewrite since_of_history. revert t. induction evs as [| ev evs IH] using rev_ind; intros t H; [done |].
  apply Forall_app in H as [H Hev]. rewrite Forall_singleton in Hev. specialize (fun t => IH t H).
  rewrite history_snoc. cbn [snd].
  destruct ev as [now d' r' matched dur | x | d' | r']; cbn [run_start]; [| by auto | |];
    [| case_bool_decide; by auto ..].
  simpl in Hev. case_bool_decide as Hd; [| by auto]. case_bool_decide as Hr; [| by auto].
  destruct matched; simpl in *; [| done]. destruct (dur <=? 0)%Z; [by auto |].
  destruct (Evaluator.ShouldFire _ _ _ _ _ _).2; [done |]. intros [= <-].
  destruct (run_start d r _) as [t |]; simpl; [by auto | lia].
Qed.

(** One more steady event: the pair fires, or its run goes on. *)
Lemma steady_step dur max evs ev d r s :
  (0 < dur)%Z -> steady d r dur ev = true ->
  Evaluator.since_of d r (history max evs).1 = Some s ->
  (exists t, (history max (evs ++ [ev])).2 = (Checked t d r true dur, true) :: (history max evs).2) \/
  Evaluator.since_of d r (history max (evs ++ [ev])).1 = Some s.
Proof.
  intros Hdur Hev Hs. rewrite history_snoc. cbn [fst snd].
  destruct ev as [now d' r' matched dur' | x | d' | r']; cbn [react]; simpl in Hev.
  - pose proof (ShouldFire_since now d' r' matched dur' (history max evs).1 d r) as H.
    destruct (Evaluator.ShouldFire now d' r' matched dur' _) as [e' fired]. cbn [fst snd].
    rewrite H. case_bool_decide as Hd; [| by right]. case_bool_decide as Hr; [| by right].
    simpl in Hev. apply andb_true_iff in Hev as [-> ->%Z.eqb_eq].
    rewrite (proj2 (Z.leb_gt _ _)), Hs by done. subst. destruct fired; [left; by exists now | by right].
  - by right.
  - right. case_bool_decide as Hd; [done |]. unfold Evaluator.ResetDevice, Evaluator.since_of in *.
    simpl. by rewrite lookup_delete_ne.
  - right. case_bool_decide as Hd; [done |]. unfold Evaluator.ResetRule, Evaluator.since_of in *. simpl.
    rewrite lookup_fmap. destruct (_ !! d); simpl in *; [by rewrite lookup_delete_ne | done].
Qed.

(** A firing of the pair among the last [n] events. *)
Definition fired_within (n : nat) (d r : string) (dur : duration) (log : list (event * bool)) : Prop :=
  exists t, (Checked t d r true dur, true) ∈ take n log.

Lemma length_history max evs : length (history max evs).2 = length evs.
Proof.
  induction evs as [| ev evs IH] using rev_ind; [done |]. rewrite history_snoc, length_app. simpl. lia.
Qed.

Lemma steady_run dur max evs mid d r s :
  (0 < dur)%Z -> Forall (fun ev => steady d r dur ev = true) mid ->
  Evaluator.since_of d r (history max evs).1 = Some s ->
  fired_within (length mid) d r dur (history max (evs ++ mid)).2 \/
  Evaluator.since_of d r (history max (evs ++ mid)).1 = Some s.
Proof.
  intros Hdur Hmid Hs. induction mid as [| ev mid IH] using rev_ind; [rewrite app_nil_r; by right |].
  apply Forall_app in Hmid as [Hmid Hev]. rewrite Forall_singleton in Hev. rewrite app_assoc, length_app, Nat.add_1_r.
  destruct (IH Hmid) as [[t Ht] | Hs'].
  - left. exists t. rewrite history_snoc. cbn [snd take]. by apply list_elem_of_further.
  - destruct (steady_step dur max (evs ++ mid) ev d r s Hdur Hev Hs') as [[t Ht] |]; [| by right].
    left. exists t. rewrite Ht. cbn [take]. by apply list_elem_of_here.
Qed.

Lemma list_elem_of_take_S {A} (x : A) n l : x ∈ take n l -> x ∈ take (S n) l.
Proof.
  revert n. induction l as [| y l IH]; intros n; [by rewrite !take_nil |].
  destruct n; [by intros ?%elem_of_nil |]. cbn [take]. rewrite !elem_of_cons.
  intros [-> | H]; [by left | right; by apply IH].
Qed.

Lemma fired_within_app n a b max d r dur :
  fired_within n d r dur (history max a).2 ->
  fired_within (length b + n) d r dur (history max (a ++ b)).2.
Proof.
  intros [t Ht]. exists t. induction b as [| ev b IH] using rev_ind; [by rewrite app_nil_r |].
  rewrite app_assoc, history_snoc, length_app, Nat.add_1_r. cbn [snd take Nat.add].
  by apply list_elem_of_further.
Qed.

(** A matched check by which the run is at most [s] old, or which fires. *)
Lemma matched_check max evs d r dur s :
  (0 < dur)%Z -> Forall (fun ev => checked_by s d r ev = true) evs ->
  let h := history max (evs ++ [Checked s d r true dur]) in
  fired_within 1 d r dur h.2 \/ exists s', (s' <= s)%Z /\ Evaluator.since_of d r h.1 = Some s'.
Proof.
  intros Hdur Hevs. rewrite history_snoc. cbn [fst snd react].
  pose proof (ShouldFire_since s d r true dur (history max evs).1 d r) as H.
  destruct (Evaluator.ShouldFire s d r true dur _) as [e' fired]. cbn [fst snd].
  rewrite !bool_decide_true, (proj2 (Z.leb_gt _ _)) in H by done. simpl in H.
  destruct fired; [left; exists s; by apply list_elem_of_here | right].
  eexists; split; [| exact H].
  pose proof (since_of_checked_by s max evs d r) as Hle.
  destruct (Evaluator.since_of d r (history max evs).1) as [t |]; simpl; [by apply Hle | lia].
Qed.

(** A condition that holds long enough fires: when a rule is matched at
    [s], and again at [now] at least its duration later, and nothing unmatched
    it or reset it in between, it fires at least once from [s] to [now]; the
    clock has to be monotone only for the checks of this rule on this device. *)
Theorem held_condition_fires max evs mid d r dur s now :
  (0 < dur)%Z -> (Sub now s >= dur)%Z ->
  Forall (fun ev => checked_by s d r ev = true) evs ->
  Forall (fun ev => steady d r dur ev = true) mid ->
  fired_within (S (S (length mid))) d r dur
    (history max (((evs ++ [Checked s d r true dur]) ++ mid) ++ [Checked now d r true dur])).2.
Proof.
  intros Hdur Hlong Hevs Hmid.
  destruct (matched_check max evs d r dur s Hdur Hevs) as [H | (s' & Hle & Hs)].
  { replace (S (S (length mid))) with (length [Checked now d r true dur] + (length mid + 1)) by (simpl; lia).
    by apply fired_within_app, fired_within_app. }
  destruct (steady_run dur max _ mid d r s' Hdur Hmid Hs) as [[t Ht] | Hs'].
  { change (S (S (length mid))) with (length [Checked now d r true dur] + S (length mid)).
    apply fired_within_app. exists t. revert Ht. apply list_elem_of_take_S. }
  exists now. rewrite history_snoc. cbn [snd take react].
  rewrite (ShouldFire_fires now d r dur _ Hdur), Hs'.
  rewrite (proj2 (Z.geb_le _ _)); [by apply list_elem_of_here |].
  revert Hlong. unfold Sub. lia.
Qed.

Definition ex_checks : list event :=
  [Checked 0 "d1" "r1" true (5 * second); Recorded (Rec.mk "d1" "cpu" (Sample.mk 1 f_zero));
   Checked (2 * second) "d1" "r1" true (5 * second); Checked (3 * second) "d2" "r1" false (5 * second)]%Z.

Lemma held_condition_fires_witness :
  fired_within 6 "d1" "r1" (5 * second)
    (history 60 ((([] ++ [Checked 0 "d1" "r1" true (5 * second)]) ++ ex_checks) ++
                 [Checked (5 * second) "d1" "r1" true (5 * second)])).2.
Proof.
  apply (held_condition_fires 60 [] ex_checks "d1" "r1" (5 * second) 0 (5 * second));
    [reflexivity | vm_compute; discriminate | constructor | repeat constructor].
Defined.

(** ** Groups *)

(** The events of one group, in order. *)
Definition group (a : Aggregator.t) (key : string) (events : list AlertEvent.t) : list AlertEvent.t :=
  List.filter (fun ev => Aggregator.groupKey a ev == key) events.

Lemma group_nil a key events :
  group a key events = [] <-> key ∉ Aggregator.groupKey a <$> events.
Proof.
  unfold group. induction events as [| ev events IH]; csimpl; [set_solver |].
  case_bool_decide; set_solver.
Qed.

Lemma foldl_add_event a events :
  let st := foldl (Aggregator.add_event a) (∅, []) events in
  (forall key, st.1 !! key = if decide (group a key events = []) then None else Some (group a key events)) /\
  NoDup st.2 /\ (forall key, key ∈ st.2 <-> group a key events <> []).
Proof.
  induction events as [| ev events IH] using rev_ind.
  { simpl. split_and!; [done | constructor | intros key; split; [by intros ?%elem_of_nil | done]]. }
  cbn zeta in *. rewrite foldl_snoc. destruct (foldl _ _ events) as [groups order].
  destruct IH as (Hg & Hn & Ho). cbn [fst snd] in *. set (k := Aggregator.groupKey a ev).
  assert (Hgroup : forall key, group a key (events ++ [ev]) =
            group a key events ++ if k == key then [ev] else []).
  { intros key. unfold group. rewrite List.filter_app. simpl. fold k. by case_bool_decide. }
  assert (Hne : forall key, group a key (events ++ [ev]) <> [] <-> k = key \/ group a key events <> []).
  { intros key. rewrite Hgroup. case_bool_decide; [split; [by left | by destruct (group a key events)] |].
    rewrite app_nil_r. naive_solver. }
  unfold Aggregator.add_event. cbn [fst snd]. fold k. split_and!.
  - intros key. rewrite Hgroup. destruct (decide (k = key)) as [<- | Hk].
    + rewrite lookup_insert_eq, Hg, bool_decide_true by done.
      repeat case_decide; simplify_eq/=; try done; by destruct (group a k events).
    + by rewrite lookup_insert_ne, bool_decide_false, app_nil_r.
  - rewrite Hg. case_decide as E; [| done]. apply NoDup_app. split_and!; [done | | apply NoDup_singleton].
    intros x Hx Hk%list_elem_of_singleton. subst x. by apply Ho in Hx.
  - intros key. rewrite Hne, <- Ho, Hg. case_decide as E; [set_solver |].
    split; [by right | intros [<- |]; [by apply Ho | done]].
Qed.

(** Sorted by distinct keys, the order is strict. *)
Lemma sorted_strict {B} (l : list (string * B)) :
  StronglySorted (not_more (fun x y => str_lt x.1 y.1)) l -> NoDup (fst <$> l) ->
  StronglySorted (fun x y => str_lt x.1 y.1 = true) l.
Proof.
  induction 1 as [| x l Hl IH Hx]; csimpl; [constructor |]. intros [Hn Hnd]%NoDup_cons.
  constructor; [by apply IH |]. rewrite Forall_forall in *. intros y Hy.
  destruct (str_lt x.1 y.1) eqn:E; [done | exfalso]. apply Hn.
  rewrite (str_lt_total _ _ E (Hx y Hy)). by apply list_elem_of_fmap_2.
Qed.

(** Grouping yields one group per key that occurs among the events, in
    increasing order of the keys, each holding the first [maxGroup] events with
    that key in their order; so no event is in two groups, and none is lost from
    a group that is not full. *)
Theorem aggregate_groups a events :
  let out := Aggregator.Aggregate a events in
  StronglySorted (fun x y => str_lt x.1 y.1 = true) out /\
  (forall key, key ∈ fst <$> out <-> key ∈ Aggregator.groupKey a <$> events) /\
  (forall key evs, (key, evs) ∈ out -> evs = take (Aggregator.maxGroup a) (group a key events)).
Proof.
  unfold Aggregator.Aggregate. destruct (foldl_add_event a events) as (Hg & Hn & Ho).
  destruct (foldl _ _ events) as [groups order]. cbn [fst snd] in *.
  set (f := fun key => (key, _)).
  assert (Hf : fst <$> (f <$> order) = order) by (by rewrite <- list_fmap_compose, list_fmap_id).
  split_and!.
  - apply sorted_strict; [| by rewrite stable_sort_perm, Hf].
    apply stable_sort_sorted; intros x y; [intros z; apply str_lt_not_trans | apply str_lt_asym].
  - intros key. rewrite stable_sort_perm, Hf, Ho, group_nil.
    split; [by apply dec_stable | by intros ? []].
  - intros key evs. rewrite elem_of_stable_sort, list_elem_of_fmap. intros (k & [= -> ->] & Hk%Ho).
    rewrite Hg. destruct (decide (group a k events = [])); [done |]. simpl.
    case_decide; [done | symmetry; apply take_ge; lia].
Qed.
