(* ===== verification/Escalation.v ===== *)
(** * Alert escalation ([services/alert-svc/internal/escalation])

    Policies with timed levels, escalations that climb them until somebody
    acknowledges, and on-call schedules.  The clock is an argument of each
    operation.  The callback [notifyFn] is observed: an operation returns the
    calls it makes, and as in the source the callback's errors are dropped.
    The slices and maps inside policies and states, which the source shares with
    its callers, are values here; the goroutine of [Start] is a run of
    [checkEscalations] steps. *)

From S2P Require Import GoStrings Cron Prelude.
Open Scope go_scope.

(** ** Data *)

Module EscalationLevel.
Record t := mk { Level : Z; Timeout : duration; Channels : list string }.
End EscalationLevel.

Module EscalationPolicy.
Record t := mk {
  ID : string; Name : string; TenantID : string; Levels : list EscalationLevel.t; Enabled : bool;
  CreatedAt : time; UpdatedAt : time }.
Definition set_times c u (p : t) := mk (ID p) (Name p) (TenantID p) (Levels p) (Enabled p) c u.
End EscalationPolicy.

(** A [time.Time] is an instant with the offset of its location. *)
Module Stamp.
Record t := mk { instant : time; offset : duration }.
Definition local (s : t) : time := (instant s + offset s)%Z.
End Stamp.

Inductive RotationType := RotationDaily | RotationWeekly | RotationOther.

Module OnCallEntry.
Record t := mk { UserID : string; StartTime : Stamp.t; EndTime : Stamp.t }.
End OnCallEntry.

Module OnCallSchedule.
Record t := mk {
  ID : string; Name : string; TenantID : string; Entries : list OnCallEntry.t; Rotation : RotationType;
  CreatedAt : time; UpdatedAt : time }.
Definition set_times c u (s : t) := mk (ID s) (Name s) (TenantID s) (Entries s) (Rotation s) c u.
End OnCallSchedule.

Definition escActive : string := "active".
Definition escAcknowledged : string := "acknowledged".
Definition escResolved : string := "resolved".

Module EscalationState.
Record t := mk {
  ID : string; AlertID : string; PolicyID : string; CurrentLevel : Z; Status : string;
  StartedAt : time; AcknowledgedAt : option time; ResolvedAt : option time;
  NotifiedAt : gmap Z time; ChannelsUsed : gmap Z (list string) }.
Definition acknowledge (now : time) (s : t) : t :=
  mk (ID s) (AlertID s) (PolicyID s) (CurrentLevel s) escAcknowledged (StartedAt s) (Some now) (ResolvedAt s) (NotifiedAt s) (ChannelsUsed s).
Definition resolve (now : time) (s : t) : t :=
  mk (ID s) (AlertID s) (PolicyID s) (CurrentLevel s) escResolved (StartedAt s) (AcknowledgedAt s) (Some now) (NotifiedAt s) (ChannelsUsed s).
(** Move to level [next]; the instant and the channels are noted under [key]. *)
Definition climb (next key : Z) (now : time) (channels : list string) (s : t) : t :=
  mk (ID s) (AlertID s) (PolicyID s) next (Status s) (StartedAt s) (AcknowledgedAt s) (ResolvedAt s)
     (<[key := now]> (NotifiedAt s)) (<[key := channels]> (ChannelsUsed s)).
End EscalationState.

(** A call of [notifyFn]. *)
Module Notification.
Record t := mk { alertID : string; level : Z; channels : list string }.
End Notification.

Inductive escalation_error :=
  | PolicyIDRequired | ScheduleIDRequired | PolicyNotFound | PolicyDisabled
  | EscalationNotFound | EscalationNotActive.

Module Escalator.
Record t := mk {
  policies : gmap string EscalationPolicy.t;
  schedules : gmap string OnCallSchedule.t;
  escalations : gmap string EscalationState.t;
  (** whether a callback has been set *)
  notifyFn : bool;
}.
Definition set_policies v e := mk v (schedules e) (escalations e) (notifyFn e).
Definition set_schedules v e := mk (policies e) v (escalations e) (notifyFn e).
Definition set_escalations v e := mk (policies e) (schedules e) v (notifyFn e).

Definition NewEscalator : t := mk ∅ ∅ ∅ false.
Definition SetNotificationFunc (e : t) : t := mk (policies e) (schedules e) (escalations e) true.

(** ** Policies and schedules *)

Definition AddPolicy (now : time) (policy : EscalationPolicy.t) (e : t) : t * option escalation_error :=
  if EscalationPolicy.ID policy == "" then (e, Some PolicyIDRequired)
  else
    let created := if IsZero (EscalationPolicy.CreatedAt policy) then now else EscalationPolicy.CreatedAt policy in
    (set_policies (<[EscalationPolicy.ID policy := EscalationPolicy.set_times created now policy]> (policies e)) e, None).

Definition GetPolicy (id : string) (e : t) : option EscalationPolicy.t := policies e !! id.

Definition ListPolicies (range : gmap string EscalationPolicy.t -> list EscalationPolicy.t)
    (tenantID : string) (e : t) : list EscalationPolicy.t :=
  List.filter (fun p => negb ((tenantID != "") && (EscalationPolicy.TenantID p != tenantID))) (range (policies e)).

Definition DeletePolicy (id : string) (e : t) : t * bool :=
  match policies e !! id with
  | None => (e, false)
  | Some _ => (set_policies (delete id (policies e)) e, true)
  end.

Definition AddSchedule (now : time) (s : OnCallSchedule.t) (e : t) : t * option escalation_error :=
  if OnCallSchedule.ID s == "" then (e, Some ScheduleIDRequired)
  else
    let created := if IsZero (OnCallSchedule.CreatedAt s) then now else OnCallSchedule.CreatedAt s in
    (set_schedules (<[OnCallSchedule.ID s := OnCallSchedule.set_times created now s]> (schedules e)) e, None).

Definition GetSchedule (id : string) (e : t) : option OnCallSchedule.t := schedules e !! id.

Definition ListSchedules (range : gmap string OnCallSchedule.t -> list OnCallSchedule.t)
    (tenantID : string) (e : t) : list OnCallSchedule.t :=
  List.filter (fun s => negb ((tenantID != "") && (OnCallSchedule.TenantID s != tenantID))) (range (schedules e)).

Definition DeleteSchedule (id : string) (e : t) : t * bool :=
  match schedules e !! id with
  | None => (e, false)
  | Some _ => (set_schedules (delete id (schedules e)) e, true)
  end.

(** ** Escalations *)

Definition escID (alertID : string) : string := "esc-" +:+ alertID.

Definition StartEscalation (now : time) (alertID policyID : string) (e : t)
  : t * result escalation_error EscalationState.t :=
  match policies e !! policyID with
  | None => (e, Err PolicyNotFound)
  | Some policy =>
      if negb (EscalationPolicy.Enabled policy) then (e, Err PolicyDisabled)
      else
        let state := EscalationState.mk (escID alertID) alertID policyID (-1) escActive now None None ∅ ∅ in
        (set_escalations (<[EscalationState.ID state := state]> (escalations e)) e, Ok state)
  end.

Definition put (key : string) (s : EscalationState.t) (e : t) : t :=
  set_escalations (<[key := s]> (escalations e)) e.

Definition Acknowledge (now : time) (alertID : string) (e : t) : t * option escalation_error :=
  match escalations e !! escID alertID with
  | None => (e, Some EscalationNotFound)
  | Some state =>
      if EscalationState.Status state != escActive then (e, Some EscalationNotActive)
      else (put (escID alertID) (EscalationState.acknowledge now state) e, None)
  end.

(** The calls of the callback, if one is set. *)
Definition notify (e : t) (alertID : string) (level : Z) (channels : list string) : list Notification.t :=
  if notifyFn e then [Notification.mk alertID level channels] else [].

Definition Escalate (now : time) (alertID : string) (e : t)
  : t * list Notification.t * result escalation_error EscalationState.t :=
  match escalations e !! escID alertID with
  | None => (e, [], Err EscalationNotFound)
  | Some state =>
      if EscalationState.Status state != escActive then (e, [], Err EscalationNotActive)
      else
        match policies e !! EscalationState.PolicyID state with
        | None => (e, [], Err PolicyNotFound)
        | Some policy =>
            let nextLevel := (EscalationState.CurrentLevel state + 1)%Z in
            match EscalationPolicy.Levels policy !! Z.to_nat nextLevel with
            | None => (e, [], Ok state)
            | Some level =>
                let state := EscalationState.climb nextLevel (EscalationLevel.Level level) now
                               (EscalationLevel.Channels level) state in
                (put (escID alertID) state e,
                 notify e alertID (EscalationLevel.Level level) (EscalationLevel.Channels level), Ok state)
            end
        end
  end.

Definition Resolve (now : time) (alertID : string) (e : t) : t * option escalation_error :=
  match escalations e !! escID alertID with
  | None => (e, Some EscalationNotFound)
  | Some state => (put (escID alertID) (EscalationState.resolve now state) e, None)
  end.

Definition GetActiveEscalation (alertID : string) (e : t) : option EscalationState.t :=
  escalations e !! escID alertID.

Definition ListActiveEscalations (range : gmap string EscalationState.t -> list EscalationState.t) (e : t)
  : list EscalationState.t :=
  List.filter (fun s => EscalationState.Status s == escActive) (range (escalations e)).

(** The body of the loop of [checkEscalations] for the entry under [key]. *)
Definition check_one (now : time) (st : t * list Notification.t) (key : string) : t * list Notification.t :=
  let (e, sent) := st in
  match escalations e !! key with
  | None => st
  | Some state =>
      if EscalationState.Status state != escActive then st
      else
        match policies e !! EscalationState.PolicyID state with
        | None => st
        | Some policy =>
            let currentLevel := EscalationState.CurrentLevel state in
            if (currentLevel <? 0)%Z then
              match EscalationPolicy.Levels policy !! 0 with
              | None => st
              | Some level =>
                  if (Sub now (EscalationState.StartedAt state) >=? EscalationLevel.Timeout level)%Z then
                    (put key (EscalationState.climb 0 0 now (EscalationLevel.Channels level) state) e,
                     sent ++ notify e (EscalationState.AlertID state) 0 (EscalationLevel.Channels level))
                  else st
              end
            else
              let nextLevel := (currentLevel + 1)%Z in
              match EscalationPolicy.Levels policy !! Z.to_nat nextLevel with
              | None => st
              | Some level =>
                  let lastNotified := default (EscalationState.StartedAt state)
                                        (EscalationState.NotifiedAt state !! currentLevel) in
                  if (Sub now lastNotified >=? EscalationLevel.Timeout level)%Z then
                    (put key (EscalationState.climb nextLevel nextLevel now (EscalationLevel.Channels level) state) e,
                     sent ++ notify e (EscalationState.AlertID state) nextLevel (EscalationLevel.Channels level))
                  else st
              end
        end
  end.

(** [keys] is the order in which Go visits [escalations]. *)
Definition checkEscalations (keys : list string) (now : time) (e : t) : t * list Notification.t :=
  foldl (check_one now) (e, []) keys.
End Escalator.

(** ** On-call *)

Definition second_of_day (t : time) : Z :=
  (Hour t * 3600 + Minute t * 60 + (t / second) `mod` 60)%Z.

Definition isEntryActive (entry : OnCallEntry.t) (at_ : Stamp.t) (rotation : RotationType) : bool :=
  let start := OnCallEntry.StartTime entry in
  let fin := OnCallEntry.EndTime entry in
  match rotation with
  | RotationDaily =>
      let atTime := second_of_day (Stamp.local at_) in
      let startTime := second_of_day (Stamp.local start) in
      let endTime := second_of_day (Stamp.local fin) in
      if (startTime <=? endTime)%Z then (atTime >=? startTime)%Z && (atTime <=? endTime)%Z
      else (atTime >=? startTime)%Z || (atTime <=? endTime)%Z
  | RotationWeekly =>
      let atWeekday := Weekday (Stamp.local at_) in
      let startWeekday := Weekday (Stamp.local start) in
      let endWeekday := Weekday (Stamp.local fin) in
      let atSec := second_of_day (Stamp.local at_) in
      let startSec := second_of_day (Stamp.local start) in
      let endSec := second_of_day (Stamp.local fin) in
      if (startWeekday =? endWeekday)%Z then
        (atWeekday =? startWeekday)%Z && (atSec >=? startSec)%Z && (atSec <=? endSec)%Z
      else if (startWeekday <? endWeekday)%Z then
        if (atWeekday >? startWeekday)%Z && (atWeekday <? endWeekday)%Z then true
        else if (atWeekday =? startWeekday)%Z && (atSec >=? startSec)%Z then true
        else if (atWeekday =? endWeekday)%Z && (atSec <=? endSec)%Z then true
        else false
      else
        if (atWeekday >? startWeekday)%Z || (atWeekday <? endWeekday)%Z then true
        else if (atWeekday =? startWeekday)%Z && (atSec >=? startSec)%Z then true
        else if (atWeekday =? endWeekday)%Z && (atSec <=? endSec)%Z then true
        else false
  | RotationOther =>
      negb (Before (Stamp.instant at_) (Stamp.instant start)) &&
      negb (After (Stamp.instant at_) (Stamp.instant fin))
  end.

Definition findOnCall (schedule : OnCallSchedule.t) (at_ : Stamp.t) : option OnCallEntry.t :=
  find_first (fun entry => isEntryActive entry at_ (OnCallSchedule.Rotation schedule))
    (OnCallSchedule.Entries schedule).

Definition GetOnCall (scheduleID : string) (at_ : Stamp.t) (e : Escalator.t) : option OnCallEntry.t :=
  match Escalator.schedules e !! scheduleID with
  | None => None
  | Some schedule => findOnCall schedule at_
  end.

(** [range] lists the schedules in the order Go visits them. *)
Fixpoint first_on_call (tenantID : string) (at_ : Stamp.t) (range : list OnCallSchedule.t) : option OnCallEntry.t :=
  match range with
  | [] => None
  | s :: range =>
      if OnCallSchedule.TenantID s == tenantID then
        match findOnCall s at_ with
        | Some entry => Some entry
        | None => first_on_call tenantID at_ range
        end
      else first_on_call tenantID at_ range
  end.

Definition GetOnCallForTenant (range : gmap string OnCallSchedule.t -> list OnCallSchedule.t)
    (tenantID : string) (at_ : Stamp.t) (e : Escalator.t) : option OnCallEntry.t :=
  first_on_call tenantID at_ (range (Escalator.schedules e)).
