(* ===== verification/EscalationProps.v ===== *)
(** * Properties of alert escalation

    An escalation that is acknowledged or resolved stays silent; the channels
    notified are those of the policy's levels, each once and in order; an
    escalation nobody takes care of reaches the last level; and when an entry of
    a schedule is on call. *)

From S2P Require Import GoStrings Cron Prelude Escalation.
Open Scope go_scope.
Import Escalator.

(** ** Runs *)

Inductive op :=
  | OpAddPolicy (p : EscalationPolicy.t)
  | OpDeletePolicy (id : string)
  | OpAddSchedule (s : OnCallSchedule.t)
  | OpDeleteSchedule (id : string)
  | OpStart (alertID policyID : string)
  | OpAcknowledge (alertID : string)
  | OpEscalate (alertID : string)
  | OpResolve (alertID : string)
  | OpCheck (keys : list string).

(** One operation at an instant: the new state and the calls of the callback. *)
Definition step (o : op) (now : time) (e : Escalator.t) : Escalator.t * list Notification.t :=
  match o with
  | OpAddPolicy p => ((AddPolicy now p e).1, [])
  | OpDeletePolicy id => ((DeletePolicy id e).1, [])
  | OpAddSchedule s => ((AddSchedule now s e).1, [])
  | OpDeleteSchedule id => ((DeleteSchedule id e).1, [])
  | OpStart a p => ((StartEscalation now a p e).1, [])
  | OpAcknowledge a => ((Acknowledge now a e).1, [])
  | OpEscalate a => (Escalate now a e).1
  | OpResolve a => ((Resolve now a e).1, [])
  | OpCheck keys => checkEscalations keys now e
  end.

(** A timed sequence of operations, with all the calls in order. *)
Definition exec (ops : list (op * time)) (e : Escalator.t) : Escalator.t * list Notification.t :=
  foldl (fun st o => let (e, sent) := step o.1 o.2 st.1 in (e, st.2 ++ sent)) (e, []) ops.

Lemma exec_snoc ops o e :
  exec (ops ++ [o]) e =
    ((step o.1 o.2 (exec ops e).1).1, (exec ops e).2 ++ (step o.1 o.2 (exec ops e).1).2).
Proof. unfold exec. rewrite foldl_snoc. by destruct (step _ _ _). Qed.

#[global] Instance escID_inj : Inj (=) (=) escID.
Proof. intros a b. unfold escID. apply (inj (String.append "esc-")). Qed.

(** ** What an operation does to one escalation *)

(** A change of one escalation, with the channels notified for it; [fl] tells
    whether it may be acknowledged or resolved. *)
Inductive move (fl : bool) (ps : gmap string EscalationPolicy.t) (now : time)
    : EscalationState.t -> EscalationState.t -> list (list string) -> Prop :=
  | move_ack s :
      fl = true -> EscalationState.Status s = escActive -> move fl ps now s (EscalationState.acknowledge now s) []
  | move_resolve s : fl = true -> move fl ps now s (EscalationState.resolve now s) []
  | move_climb s p l key :
      EscalationState.Status s = escActive ->
      ps !! EscalationState.PolicyID s = Some p ->
      EscalationPolicy.Levels p !! Z.to_nat (EscalationState.CurrentLevel s + 1) = Some l ->
      move fl ps now s (EscalationState.climb (EscalationState.CurrentLevel s + 1) key now (EscalationLevel.Channels l) s)
        [EscalationLevel.Channels l].

Inductive moves (fl : bool) (ps : gmap string EscalationPolicy.t) (now : time)
    : EscalationState.t -> EscalationState.t -> list (list string) -> Prop :=
  | moves_none s : moves fl ps now s s []
  | moves_more s s1 s2 cs cs' : moves fl ps now s s1 cs -> move fl ps now s1 s2 cs' -> moves fl ps now s s2 (cs ++ cs').

Lemma move_weaken fl ps now s s' cs : move fl ps now s s' cs -> move true ps now s s' cs.
Proof. destruct 1; [by constructor .. | by eapply move_climb]. Qed.

Lemma moves_one fl ps now s s' cs : move fl ps now s s' cs -> moves fl ps now s s' cs.
Proof. intros H. by apply (moves_more fl ps now s s s' [] cs); [constructor |]. Qed.

(** The channels notified for an alert. *)
Definition notified (alertID : string) (sent : list Notification.t) : list (list string) :=
  Notification.channels <$> List.filter (fun n => Notification.alertID n == alertID) sent.

Lemma notified_app a s s' : notified a (s ++ s') = notified a s ++ notified a s'.
Proof. unfold notified. by rewrite List.filter_app, fmap_app. Qed.

(** Every escalation is stored under its alert's id, at a level. *)
Definition well_keyed (e : Escalator.t) : Prop :=
  map_Forall (fun k s => k = escID (EscalationState.AlertID s) /\ (-1 <= EscalationState.CurrentLevel s)%Z)
    (escalations e).

Lemma notified_notify e a b l cs :
  notified a (notify e b l cs) = if notifyFn e && (b == a) then [cs] else [].
Proof. unfold notify. destruct (notifyFn e); [| done]. unfold notified. simpl. by case_bool_decide. Qed.

Lemma well_keyed_put k s e :
  well_keyed e -> k = escID (EscalationState.AlertID s) -> (-1 <= EscalationState.CurrentLevel s)%Z ->
  well_keyed (put k s e).
Proof. intros He Hk Hl. by apply map_Forall_insert_2. Qed.

(** The escalations of [e] have moved to those of [e'] while [sent] was sent;
    [fl] tells which alerts may have been settled. *)
Definition moved (fl : string -> bool) (now : time) (e e' : Escalator.t) (sent : list Notification.t) : Prop :=
  well_keyed e' /\ policies e' = policies e /\ notifyFn e' = notifyFn e /\
  forall a s, escalations e !! escID a = Some s ->
    exists s' cs, escalations e' !! escID a = Some s' /\ moves (fl a) (policies e) now s s' cs /\
      notified a sent = if notifyFn e then cs else [].

Lemma moved_refl fl now e : well_keyed e -> moved fl now e e [].
Proof.
  intros He. split_and!; [done .. |]. intros a s Hs. exists s, [].
  split_and!; [done | constructor | by destruct (notifyFn e)].
Qed.

Lemma moved_move fl now e key s s' cs sent :
  well_keyed e -> escalations e !! key = Some s -> move (fl (EscalationState.AlertID s)) (policies e) now s s' cs ->
  EscalationState.AlertID s' = EscalationState.AlertID s -> (-1 <= EscalationState.CurrentLevel s')%Z ->
  (forall a, notified a sent = if notifyFn e && (EscalationState.AlertID s == a) then cs else []) ->
  moved fl now e (put key s' e) sent.
Proof.
  intros He Hs Hm Ha Hl Hsent. destruct (He _ _ Hs) as [-> _].
  split_and!; [apply well_keyed_put; [done | by rewrite Ha | done] | done | done |].
  intros a s1 Hs1. rewrite Hsent. destruct (decide (EscalationState.AlertID s = a)) as [<- | Hne]; simpl.
  - rewrite bool_decide_true, andb_true_r, lookup_insert_eq by done. simplify_eq.
    eexists _, _. split_and!; [done | by apply moves_one | done].
  - rewrite bool_decide_false, andb_false_r, lookup_insert_ne by naive_solver.
    eexists _, []. split_and!; [done | constructor | by destruct (notifyFn e)].
Qed.

Lemma check_one_moved fl now e sent key :
  well_keyed e ->
  exists new, (check_one now (e, sent) key).2 = sent ++ new /\ moved fl now e (check_one now (e, sent) key).1 new.
Proof.
  intros Hk. unfold check_one.
  assert (Hstay : exists new, sent = sent ++ new /\ moved fl now e e new).
  { exists []. rewrite app_nil_r. split; [done | by apply moved_refl]. }
  destruct (escalations e !! key) as [s |] eqn:Es; [| exact Hstay].
  case_bool_decide as Hact; simpl; [| exact Hstay].
  destruct (policies e !! _) as [p |] eqn:Ep; [| exact Hstay].
  assert (Hclimb : forall next l, next = (EscalationState.CurrentLevel s + 1)%Z ->
    EscalationPolicy.Levels p !! Z.to_nat next = Some l ->
    moved fl now e (put key (EscalationState.climb next next now (EscalationLevel.Channels l) s) e)
      (notify e (EscalationState.AlertID s) next (EscalationLevel.Channels l))).
  { intros next l -> Hl. destruct (Hk _ _ Es) as [_ ?].
    apply (moved_move fl now e key s _ [EscalationLevel.Channels l]);
      [done | done | by eapply move_climb | done | simpl; lia | intros a; apply notified_notify]. }
  destruct (Z.ltb_spec (EscalationState.CurrentLevel s) 0) as [Hl | Hl].
  - destruct (EscalationPolicy.Levels p !! 0) as [l |] eqn:El; [| exact Hstay].
    case_match; [| exact Hstay]. eexists. split; [done |]. destruct (Hk _ _ Es) as [_ ?].
    by apply Hclimb; [lia |].
  - destruct (EscalationPolicy.Levels p !! Z.to_nat _) as [l |] eqn:El; [| exact Hstay].
    case_match; [| exact Hstay]. eexists. split; [done |]. by apply Hclimb.
Qed.

Lemma moves_trans fl ps now s s1 s2 cs cs' :
  moves fl ps now s s1 cs -> moves fl ps now s1 s2 cs' -> moves fl ps now s s2 (cs ++ cs').
Proof.
  intros H1 H2. induction H2 as [| s1 s2 s3 cs1 cs2 H2 IH Hm]; [by rewrite app_nil_r |].
  rewrite app_assoc. eapply moves_more; [by apply IH | done].
Qed.

Lemma moved_trans fl now e e1 e2 sent sent' :
  moved fl now e e1 sent -> moved fl now e1 e2 sent' -> moved fl now e e2 (sent ++ sent').
Proof.
  intros (_ & Hp & Hn & H1) (Hk & Hp' & Hn' & H2).
  split_and!; [done | congruence | congruence |]. intros a s Hs.
  destruct (H1 a s Hs) as (s1 & cs1 & Hs1 & Hm1 & Hc1).
  destruct (H2 a s1 Hs1) as (s2 & cs2 & Hs2 & Hm2 & Hc2). rewrite Hp in Hm2. rewrite Hn in Hc2.
  exists s2, (cs1 ++ cs2). split_and!; [done | by eapply moves_trans |].
  rewrite notified_app, Hc1, Hc2. by destruct (notifyFn e).
Qed.

Lemma check_moved fl keys now e sent :
  well_keyed e ->
  exists new, (foldl (check_one now) (e, sent) keys).2 = sent ++ new /\
    moved fl now e (foldl (check_one now) (e, sent) keys).1 new.
Proof.
  revert e sent. induction keys as [| key keys IH]; intros e sent He.
  { exists []. rewrite app_nil_r. split; [done | by apply moved_refl]. }
  cbn [foldl]. destruct (check_one_moved fl now e sent key He) as (new & Hn & Hm).
  destruct (check_one now (e, sent) key) as [e1 sent1]. simpl in Hn, Hm. subst sent1.
  destruct (IH e1 (sent ++ new)) as (new' & Hn' & Hm'); [apply Hm |].
  exists (new ++ new'). rewrite Hn', app_assoc. split; [done | by eapply moved_trans].
Qed.

(** Operations that settle the alert's escalation. *)
Definition settles (a : string) (o : op) : bool :=
  match o with OpAcknowledge b | OpResolve b => b == a | _ => false end.

(** Every operation but a restart of the alert moves its escalation. *)
Lemma escalation_step_moves o now e a s :
  well_keyed e -> (forall p, o <> OpStart a p) -> escalations e !! escID a = Some s ->
  exists s' cs, escalations (step o now e).1 !! escID a = Some s' /\ moves (settles a o) (policies e) now s s' cs /\
    notified a (step o now e).2 = if notifyFn e then cs else [].
Proof.
  intros He Ho Hs.
  assert (Hsame : forall e' : Escalator.t, escalations e' !! escID a = Some s ->
    exists s' cs, escalations e' !! escID a = Some s' /\ moves (settles a o) (policies e) now s s' cs /\
      notified a [] = if notifyFn e then cs else []).
  { intros e' Hs'. exists s, []. split_and!; [done | constructor | by destruct (notifyFn e)]. }
  assert (Hput : forall b s1 s' cs sent, escalations e !! escID b = Some s1 -> move (settles b o) (policies e) now s1 s' cs ->
    EscalationState.AlertID s' = EscalationState.AlertID s1 -> (-1 <= EscalationState.CurrentLevel s')%Z ->
    (forall a, notified a sent = if notifyFn e && (EscalationState.AlertID s1 == a) then cs else []) ->
    exists s2 cs, escalations (put (escID b) s' e) !! escID a = Some s2 /\ moves (settles a o) (policies e) now s s2 cs /\
      notified a sent = if notifyFn e then cs else []).
  { intros b s1 s' cs sent H1 Hm Ha Hl Hsent. destruct (He _ _ H1) as [Hb%(inj escID) _].
    rewrite Hb in Hm at 1.
    destruct (moved_move (fun a => settles a o) now e (escID b) s1 s' cs sent He H1 Hm Ha Hl Hsent)
      as (_ & _ & _ & H). by apply H. }
  destruct o as [p | id | sch | id | b p | b | b | b | keys]; cbn [step].
  - apply Hsame. unfold AddPolicy. by case_bool_decide.
  - apply Hsame. unfold DeletePolicy. by destruct (policies e !! id).
  - apply Hsame. unfold AddSchedule. by case_bool_decide.
  - apply Hsame. unfold DeleteSchedule. by destruct (schedules e !! id).
  - apply Hsame. unfold StartEscalation. destruct (policies e !! p) as [pol |]; [| done].
    destruct (EscalationPolicy.Enabled pol); [| done]. simpl. rewrite lookup_insert_ne; [done |]. naive_solver.
  - unfold Acknowledge. destruct (escalations e !! escID b) as [s1 |] eqn:E1; [| by apply Hsame].
    case_bool_decide; simpl; [| by apply Hsame]. destruct (He _ _ E1) as [_ ?].
    eapply Hput; [done | by constructor; [apply bool_decide_true | ..] | done | done |]. intros c. by destruct (_ && _).
  - unfold Escalate. destruct (escalations e !! escID b) as [s1 |] eqn:E1; [| by apply Hsame].
    case_bool_decide; simpl; [| by apply Hsame]. destruct (He _ _ E1) as [Hb%(inj escID) ?]. subst b.
    destruct (policies e !! _) as [p |] eqn:Ep; [| by apply Hsame].
    destruct (EscalationPolicy.Levels p !! _) as [l |] eqn:El; [| by apply Hsame]. simpl.
    eapply Hput; [done | by eapply move_climb | done | simpl; lia |]. intros c. apply notified_notify.
  - unfold Resolve. destruct (escalations e !! escID b) as [s1 |] eqn:E1; [| by apply Hsame].
    destruct (He _ _ E1) as [_ ?].
    eapply Hput; [done | by constructor; [apply bool_decide_true | ..] | done | done |]. intros c. by destruct (_ && _).
  - destruct (check_moved (fun _ => false) keys now e [] He) as (new & Hn & _ & _ & _ & H). unfold checkEscalations.
    destruct (H a s Hs) as (s' & cs & Hs' & Hm & Hc). exists s', cs. rewrite Hn. by split_and!.
Qed.

Lemma step_well_keyed o now e : well_keyed e -> well_keyed (step o now e).1.
Proof.
  intros He. destruct o as [p | id | sch | id | b p | b | b | b | keys]; cbn [step fst].
  - unfold AddPolicy. by case_bool_decide.
  - unfold DeletePolicy. by destruct (policies e !! id).
  - unfold AddSchedule. by case_bool_decide.
  - unfold DeleteSchedule. by destruct (schedules e !! id).
  - unfold StartEscalation. destruct (policies e !! p) as [pol |]; [| done].
    destruct (EscalationPolicy.Enabled pol); [| done]. by apply well_keyed_put.
  - unfold Acknowledge. destruct (escalations e !! escID b) as [s |] eqn:E; [| done].
    case_bool_decide; [| done]. destruct (He _ _ E). by apply well_keyed_put.
  - unfold Escalate. destruct (escalations e !! escID b) as [s |] eqn:E; [| done].
    case_bool_decide; [| done]. simpl. destruct (policies e !! _) as [p |]; [| done].
    destruct (EscalationPolicy.Levels p !! _) as [l |]; [| done]. destruct (He _ _ E).
    apply well_keyed_put; simpl; [done | done | lia].
  - unfold Resolve. destruct (escalations e !! escID b) as [s |] eqn:E; [| done].
    destruct (He _ _ E). by apply well_keyed_put.
  - destruct (check_moved (fun _ => false) keys now e [] He) as (new & _ & H & _). exact H.
Qed.

Lemma step_notifyFn o now e : well_keyed e -> notifyFn (step o now e).1 = notifyFn e.
Proof.
  intros He. destruct o; cbn [step fst];
    try (unfold AddPolicy, DeletePolicy, AddSchedule, DeleteSchedule, StartEscalation, Acknowledge, Escalate, Resolve;
         by repeat case_match).
  destruct (check_moved (fun _ => false) keys now e [] He) as (new & _ & _ & _ & H & _). exact H.
Qed.

Definition restarts (a : string) (o : op) : bool := match o with OpStart b _ => b == a | _ => false end.
Definition replaces (pid : string) (o : op) : bool :=
  match o with OpAddPolicy p => EscalationPolicy.ID p == pid | OpDeletePolicy id => id == pid | _ => false end.

Lemma step_policy o now e pid :
  well_keyed e -> replaces pid o = false -> policies (step o now e).1 !! pid = policies e !! pid.
Proof.
  intros He Ho. destruct o; cbn [step fst]; simpl in Ho;
    try (unfold AddSchedule, DeleteSchedule, StartEscalation, Acknowledge, Escalate, Resolve; by repeat case_match).
  - unfold AddPolicy. case_bool_decide; [done |]. case_bool_decide; [done |]. simpl. by rewrite lookup_insert_ne.
  - unfold DeletePolicy. case_bool_decide; [done |]. destruct (policies e !! id); [| done].
    simpl. by rewrite lookup_delete_ne.
  - destruct (check_moved (fun _ => false) keys now e [] He) as (new & _ & _ & H & _). unfold checkEscalations. by rewrite H.
Qed.

(** ** Runs from the start *)

Definition reachable (e : Escalator.t) : Prop :=
  exists (cb : bool) ops, e = (exec ops (Escalator.mk ∅ ∅ ∅ cb)).1.

Lemma exec_well_keyed ops e : well_keyed e -> well_keyed (exec ops e).1.
Proof.
  intros He. induction ops as [| o ops IH] using rev_ind; [done |].
  rewrite exec_snoc. by apply step_well_keyed.
Qed.

Lemma reachable_well_keyed e : reachable e -> well_keyed e.
Proof. intros (cb & ops & ->). by apply exec_well_keyed. Qed.

Lemma exec_notifyFn ops e : well_keyed e -> notifyFn (exec ops e).1 = notifyFn e.
Proof.
  intros He. induction ops as [| o ops IH] using rev_ind; [done |].
  rewrite exec_snoc. cbn [fst]. rewrite step_notifyFn; [done | by apply exec_well_keyed].
Qed.

(** Invariants of one escalation and of the channels notified for it, along the
    moves that a run without a restart makes. *)
Lemma exec_invariant (P : EscalationState.t -> list (list string) -> Prop) (ok : op -> Prop)
    (inv : Escalator.t -> Prop) a ops e s :
  well_keyed e -> inv e ->
  (forall o now e', well_keyed e' -> ok o -> inv e' -> inv (step o now e').1) ->
  (forall e' now s s' cs sent, inv e' -> P s sent -> move true (policies e') now s s' cs ->
     P s' (sent ++ if notifyFn e then cs else [])) ->
  Forall (fun o => ok o.1 /\ restarts a o.1 = false) ops ->
  escalations e !! escID a = Some s -> P s [] ->
  inv (exec ops e).1 /\
  exists s', escalations (exec ops e).1 !! escID a = Some s' /\ P s' (notified a (exec ops e).2).
Proof.
  intros He Hi Hinv Hmove Hops Hs HP. induction ops as [| o ops IH] using rev_ind.
  { split; [done |]. by exists s. }
  apply Forall_app in Hops as [Hops Ho]. rewrite Forall_singleton in Ho.
  destruct (IH Hops) as (Hi1 & s1 & Hs1 & HP1). pose proof (exec_well_keyed ops e He) as He1.
  rewrite exec_snoc. cbn [fst snd]. split; [by apply Hinv; destruct Ho |].
  destruct (escalation_step_moves o.1 o.2 (exec ops e).1 a s1 He1) as (s' & cs & Hs' & Hm & Hc); [| done |].
  { intros p E. rewrite E in Ho. destruct Ho as [_ Ho]. simpl in Ho. by case_bool_decide. }
  exists s'. split; [done |]. rewrite notified_app, Hc, exec_notifyFn by done.
  clear Hs' Hc Hs1. revert HP1. generalize (notified a (exec ops e).2) as sent.
  induction Hm as [| s1 s2 s3 cs cs' Hm IHm Hone]; intros sent HP1.
  - destruct (notifyFn e); rewrite app_nil_r; exact HP1.
  - pose proof (Hmove _ _ _ _ _ _ Hi1 (IHm sent HP1) (move_weaken _ _ _ _ _ _ Hone)) as H.
    destruct (notifyFn e); rewrite ?app_nil_r in *; [by rewrite app_assoc | done].
Qed.

(** Once an escalation is acknowledged or resolved, no operation but a
    restart for the same alert changes its level or the notifications recorded
    in it, and no channel is notified for the alert again; at most its status
    becomes resolved. *)
Theorem settled_escalation_silent e a s ops :
  reachable e -> escalations e !! escID a = Some s -> EscalationState.Status s <> escActive ->
  Forall (fun o => restarts a o.1 = false) ops ->
  notified a (exec ops e).2 = [] /\
  exists s', escalations (exec ops e).1 !! escID a = Some s' /\
    EscalationState.CurrentLevel s' = EscalationState.CurrentLevel s /\
    EscalationState.NotifiedAt s' = EscalationState.NotifiedAt s /\
    EscalationState.ChannelsUsed s' = EscalationState.ChannelsUsed s /\
    (EscalationState.Status s' = EscalationState.Status s \/ EscalationState.Status s' = escResolved).
Proof.
  intros He%reachable_well_keyed Hs Hst Hops.
  set (P := fun s' (sent : list (list string)) => sent = [] /\
    EscalationState.CurrentLevel s' = EscalationState.CurrentLevel s /\
    EscalationState.NotifiedAt s' = EscalationState.NotifiedAt s /\
    EscalationState.ChannelsUsed s' = EscalationState.ChannelsUsed s /\
    (EscalationState.Status s' = EscalationState.Status s \/ EscalationState.Status s' = escResolved)).
  destruct (exec_invariant P (fun _ => True) (fun _ => True) a ops e s) as (_ & s' & Hs' & HP & Hrest);
    [done | done | done | | | done | by split_and!; auto | by eauto].
  - intros e' now s1 s2 cs sent _ (-> & Hl & Hn & Hc & Hst') Hm.
    assert (EscalationState.Status s1 <> escActive) by (destruct Hst' as [-> | ->]; [done | by vm_compute]).
    destruct Hm as [s1 | s1 | s1 p l key]; [done | | done].
    split_and!; simpl; auto; by destruct (notifyFn e).
  - eapply Forall_impl; [exact Hops |]. by intros.
Qed.

(** While its policy is left alone, the channels notified for an alert
    since its escalation began are exactly those of the first levels of the
    policy, each once and in order, up to the current level: no level is skipped
    or repeated, whether checks or calls of [Escalate] drive it. *)
Theorem notified_in_order e now a pid p ops :
  reachable e -> notifyFn e = true ->
  policies e !! pid = Some p -> EscalationPolicy.Enabled p = true ->
  Forall (fun o => restarts a o.1 = false /\ replaces pid o.1 = false) ops ->
  let e' := exec ops (StartEscalation now a pid e).1 in
  exists s, escalations e'.1 !! escID a = Some s /\
    (-1 <= EscalationState.CurrentLevel s < Z.of_nat (length (EscalationPolicy.Levels p)))%Z /\
    notified a e'.2 =
      take (Z.to_nat (EscalationState.CurrentLevel s + 1)) (EscalationLevel.Channels <$> EscalationPolicy.Levels p).
Proof.
  intros He%reachable_well_keyed Hcb Hp Hen Hops.
  unfold StartEscalation. rewrite Hp, Hen. cbn [negb fst].
  set (s0 := EscalationState.mk _ _ _ _ _ _ _ _ _ _).
  set (e1 := set_escalations _ e). cbn zeta.
  set (P := fun s sent => EscalationState.PolicyID s = pid /\
    (-1 <= EscalationState.CurrentLevel s < Z.of_nat (length (EscalationPolicy.Levels p)))%Z /\
    sent = take (Z.to_nat (EscalationState.CurrentLevel s + 1)) (EscalationLevel.Channels <$> EscalationPolicy.Levels p)).
  destruct (exec_invariant P (fun o => replaces pid o = false)
    (fun e' => policies e' !! pid = Some p) a ops e1 s0) as (_ & s' & Hs' & _ & HP);
    [by apply well_keyed_put | done | | | | by apply lookup_insert_eq | split_and!; simpl; [done | lia | lia | done] | by eauto].
  - intros o t e' He' Ho Hp'. by rewrite step_policy.
  - intros e' t s1 s2 cs sent Hp' (Hid & Hl & ->) Hm. change (notifyFn e1) with (notifyFn e). rewrite Hcb.
    destruct Hm as [s1 Hst | s1 | s1 p' l key Hst Hp1 Hlev]; [by rewrite app_nil_r .. |].
    rewrite Hid, Hp' in Hp1. simplify_eq. pose proof (lookup_lt_Some _ _ _ Hlev).
    split_and!; simpl; [done | lia | lia |].
    replace (Z.to_nat (EscalationState.CurrentLevel s1 + 1 + 1))
      with (S (Z.to_nat (EscalationState.CurrentLevel s1 + 1))) by lia.
    symmetry. apply take_S_r. by rewrite list_lookup_fmap, Hlev.
  - eapply Forall_impl; [exact Hops |]. by intros o [].
Qed.

(** ** Progress *)

(** The instant that the timeout of the next level is counted from. *)
Definition since (s : EscalationState.t) : time :=
  if (EscalationState.CurrentLevel s <? 0)%Z then EscalationState.StartedAt s
  else default (EscalationState.StartedAt s) (EscalationState.NotifiedAt s !! EscalationState.CurrentLevel s).

(** Nobody settles or restarts the alert's escalation or changes its policy. *)
Definition unattended (a pid : string) (o : op) : bool :=
  negb (settles a o) && negb (restarts a o) && negb (replaces pid o).

(** [spaced now last n ops]: from [now] on, with a monotone clock, the operations
    leave the escalation unattended, and contain [n] checks, the first one at
    least [D] after [last], each later one at least [D] after the one before;
    other checks and manual escalations may come between them. *)
Inductive spaced (a pid : string) (D : duration) : time -> time -> nat -> list (op * time) -> Prop :=
  | spaced_nil now last : spaced a pid D now last 0 []
  | spaced_check now last t keys n ops :
      (now <= t)%Z -> escID a ∈ keys -> (Sub t last >= D)%Z ->
      spaced a pid D t t n ops -> spaced a pid D now last (S n) ((OpCheck keys, t) :: ops)
  | spaced_other now last t o n ops :
      (now <= t)%Z -> unattended a pid o = true ->
      spaced a pid D t last n ops -> spaced a pid D now last n ((o, t) :: ops).

(** An active escalation of the policy, with no instant after [now]. *)
Definition active_by (pid : string) (now : time) (s : EscalationState.t) : Prop :=
  EscalationState.Status s = escActive /\ EscalationState.PolicyID s = pid /\
  (EscalationState.StartedAt s <= now)%Z /\
  map_Forall (fun _ t => (t <= now)%Z) (EscalationState.NotifiedAt s).

Lemma active_by_since pid now s : active_by pid now s -> (since s <= now)%Z.
Proof.
  intros (_ & _ & Hs & Hn). unfold since. destruct (_ <? 0)%Z; [done |].
  destruct (EscalationState.NotifiedAt s !! _) as [t |] eqn:E; [by apply (Hn _ _ E) | done].
Qed.

(** Unsettled moves keep an escalation active; it stays or climbs. *)
Lemma moves_climb pid ps now t s s' cs :
  (now <= t)%Z -> active_by pid now s -> moves false ps t s s' cs ->
  active_by pid t s' /\
  (s' = s \/ EscalationState.CurrentLevel s < EscalationState.CurrentLevel s')%Z.
Proof.
  intros Hle (Hst & Hp & Hs & Hn) H.
  assert (Ht : active_by pid t s).
  { split_and!; [done | done | lia |]. intros k t' Hk. specialize (Hn k t' Hk). simpl in Hn. lia. }
  induction H as [| s s1 s2 cs cs' H IH Hm]; [by auto |].
  destruct (IH Hst Hp Hs Hn Ht) as [(Hst1 & Hp1 & Hs1 & Hn1) Hl1].
  destruct Hm as [? | ? | s1 p l key]; [done | done |]. split.
  - split_and!; simpl; [done | done | done |]. apply map_Forall_insert_2; [simpl; lia | done].
  - right. simpl. destruct Hl1 as [-> | ?]; lia.
Qed.

(** The turn of the loop for an escalation that is due. *)
Lemma check_one_due pid p l t e sent a s :
  well_keyed e -> active_by pid t s -> policies e !! pid = Some p ->
  escalations e !! escID a = Some s ->
  EscalationPolicy.Levels p !! Z.to_nat (EscalationState.CurrentLevel s + 1) = Some l ->
  (Sub t (since s) >= EscalationLevel.Timeout l)%Z ->
  exists s', escalations (check_one t (e, sent) (escID a)).1 !! escID a = Some s' /\ active_by pid t s' /\
    (EscalationState.CurrentLevel s < EscalationState.CurrentLevel s')%Z.
Proof.
  intros He (Hst & Hpid & Hst0 & Hn) Hp Hs Hl Hdue. destruct (He _ _ Hs) as [_ Hlow].
  unfold check_one. rewrite Hs, Hst, bool_decide_true, Hpid, Hp by done. cbn [negb].
  unfold since in Hdue.
  assert (Hclimbed : forall next, active_by pid t (EscalationState.climb next next t (EscalationLevel.Channels l) s)).
  { intros next. split_and!; simpl; [done .. |]. by apply map_Forall_insert_2; simpl. }
  destruct (Z.ltb_spec (EscalationState.CurrentLevel s) 0).
  - replace (Z.to_nat _) with 0 in Hl by lia. rewrite Hl, geb_true by lia. cbn [fst].
    eexists. split; [by apply lookup_insert_eq |]. split; [done | simpl; lia].
  - rewrite Hl, geb_true by lia. cbn [fst].
    eexists. split; [by apply lookup_insert_eq |]. split; [done | simpl; lia].
Qed.

(** The turns of the loop keep an active escalation, at its level or above. *)
Lemma check_keeps pid keys t e sent a s :
  well_keyed e -> active_by pid t s -> escalations e !! escID a = Some s ->
  let st := foldl (check_one t) (e, sent) keys in
  well_keyed st.1 /\ policies st.1 = policies e /\
  exists s', escalations st.1 !! escID a = Some s' /\ active_by pid t s' /\
    (s' = s \/ EscalationState.CurrentLevel s < EscalationState.CurrentLevel s')%Z.
Proof.
  intros He Hact Hs.
  destruct (check_moved (fun _ => false) keys t e sent He) as (new & _ & He' & Hp' & _ & H).
  destruct (H a s Hs) as (s' & cs & Hs' & Hm & _). split_and!; [done | done |].
  exists s'. split; [done |]. by apply (moves_climb pid (policies e) t t s s' cs).
Qed.

(** A check that is due takes the escalation to its next level, at least. *)
Lemma check_climbs pid p l keys t e a s :
  well_keyed e -> active_by pid t s -> policies e !! pid = Some p ->
  escalations e !! escID a = Some s -> escID a ∈ keys ->
  EscalationPolicy.Levels p !! Z.to_nat (EscalationState.CurrentLevel s + 1) = Some l ->
  (Sub t (since s) >= EscalationLevel.Timeout l)%Z ->
  exists s', escalations (checkEscalations keys t e).1 !! escID a = Some s' /\ active_by pid t s' /\
    (EscalationState.CurrentLevel s < EscalationState.CurrentLevel s')%Z.
Proof.
  intros He Hact Hp Hs (l1 & l2 & ->)%list_elem_of_split Hl Hdue.
  unfold checkEscalations. rewrite foldl_app. cbn [foldl].
  destruct (check_keeps pid l1 t e [] a s He Hact Hs) as (He1 & Hp1 & s1 & Hs1 & Hact1 & Hl1).
  destruct (foldl (check_one t) (e, []) l1) as [e1 sent1]. cbn [fst] in *.
  assert (Hone : exists s2, escalations (check_one t (e1, sent1) (escID a)).1 !! escID a = Some s2 /\
            active_by pid t s2 /\ (EscalationState.CurrentLevel s < EscalationState.CurrentLevel s2)%Z).
  { destruct Hl1 as [-> | Hl1]; [apply (check_one_due pid p l); [done | done | by rewrite Hp1 | done ..] |].
    destruct (check_keeps pid [escID a] t e1 sent1 a s1 He1 Hact1 Hs1) as (_ & _ & s2 & Hs2 & Hact2 & Hl2).
    exists s2. split_and!; [done | done | destruct Hl2 as [-> | ?]; lia]. }
  destruct Hone as (s2 & Hs2 & Hact2 & Hl2).
  destruct (check_one_moved (fun _ => false) t e1 sent1 (escID a) He1) as (new & _ & He2 & _).
  destruct (check_one t (e1, sent1) (escID a)) as [e2 sent2]. cbn [fst] in *.
  destruct (check_keeps pid l2 t e2 sent2 a s2 He2 Hact2 Hs2) as (_ & _ & s3 & Hs3 & Hact3 & Hl3).
  exists s3. split_and!; [done | done | destruct Hl3 as [-> | ?]; lia].
Qed.

Lemma unattended_step pid now t o e a s :
  well_keyed e -> (now <= t)%Z -> unattended a pid o = true -> active_by pid now s ->
  escalations e !! escID a = Some s ->
  policies (step o t e).1 !! pid = policies e !! pid /\
  exists s', escalations (step o t e).1 !! escID a = Some s' /\ active_by pid t s' /\
    (s' = s \/ EscalationState.CurrentLevel s < EscalationState.CurrentLevel s')%Z.
Proof.
  unfold unattended. rewrite !andb_true_iff, !negb_true_iff.
  intros He Hle ((Hset & Hre) & Hrep) Hact Hs. split; [by apply step_policy |].
  destruct (escalation_step_moves o t e a s He) as (s' & cs & Hs' & Hm & _); [| done |].
  { intros p ->. simpl in Hre. by rewrite bool_decide_true in Hre. }
  rewrite Hset in Hm. exists s'. split; [done |]. by apply (moves_climb pid (policies e) now t s s' cs).
Qed.

(** How far an escalation has come after [i] spaced checks, the last at [last]. *)
Definition advanced (pid : string) (levels : nat) (now last : time) (i : nat) (s : EscalationState.t) : Prop :=
  active_by pid now s /\
  (Z.of_nat (i `min` levels) - 1 <= EscalationState.CurrentLevel s)%Z /\
  (Z.of_nat i < Z.of_nat levels -> EscalationState.CurrentLevel s = Z.of_nat i - 1 -> since s <= last)%Z.

Lemma exec_cons o ops e : (exec (o :: ops) e).1 = (exec ops (step o.1 o.2 e).1).1.
Proof.
  unfold exec. cbn [foldl fst snd]. destruct (step o.1 o.2 e) as [e' sent]. cbn [fst snd app].
  assert (H : forall sent e sent', (foldl (fun st o => let (e, sent) := step o.1 o.2 st.1 in (e, st.2 ++ sent)) (e, sent) ops).1
    = (foldl (fun st o => let (e, sent) := step o.1 o.2 st.1 in (e, st.2 ++ sent)) (e, sent') ops).1).
  { clear. induction ops as [| o ops IH]; intros sent e sent'; [done |]. cbn [foldl fst snd].
    destruct (step o.1 o.2 e). apply IH. }
  apply H.
Qed.

(** A spaced check advances the escalation by one level, up to the last one. *)
Lemma advanced_check a pid p D now last t keys e s i :
  Forall (fun l => EscalationLevel.Timeout l <= D)%Z (EscalationPolicy.Levels p) ->
  well_keyed e -> policies e !! pid = Some p -> escalations e !! escID a = Some s ->
  (now <= t)%Z -> escID a ∈ keys -> (Sub t last >= D)%Z ->
  advanced pid (length (EscalationPolicy.Levels p)) now last i s ->
  exists s', escalations (checkEscalations keys t e).1 !! escID a = Some s' /\
    advanced pid (length (EscalationPolicy.Levels p)) t t (S i) s'.
Proof.
  intros Hd He Hp Hs Hle Hkey Hspace (Hact & Hl & Hsince).
  assert (Hact' : active_by pid t s).
  { destruct Hact as (? & ? & ? & Hn). split_and!; [done | done | lia |].
    intros k t' Hk. specialize (Hn k t' Hk). simpl in Hn. lia. }
  set (K := length (EscalationPolicy.Levels p)) in *.
  assert (exists s', escalations (checkEscalations keys t e).1 !! escID a = Some s' /\ active_by pid t s' /\
    (Z.of_nat (S i `min` K) - 1 <= EscalationState.CurrentLevel s')%Z) as (s' & Hs' & Ha' & Hl').
  { destruct (decide ((EscalationState.CurrentLevel s = Z.of_nat i - 1)%Z /\ i < K)) as [[E Hi] | Hn].
    - destruct (lookup_lt_is_Some_2 (EscalationPolicy.Levels p) i Hi) as [l El].
      destruct (check_climbs pid p l keys t e a s) as (s' & Hs' & Ha' & Hl'); try done.
      + by replace (Z.to_nat _) with i by lia.
      + rewrite Forall_forall in Hd. specialize (Hd l (list_elem_of_lookup_2 _ _ _ El)). simpl in Hd.
        specialize (Hsince ltac:(lia) E). unfold Sub in *. lia.
      + exists s'. split_and!; [done | done | lia].
    - destruct (check_keeps pid keys t e [] a s He Hact' Hs) as (_ & _ & s' & Hs' & Ha' & Hl').
      exists s'. split_and!; [done | done |]. destruct Hl' as [-> | ?]; lia. }
  exists s'. split; [done |]. split; [done |]. split; [done |]. intros _ _. by apply (active_by_since pid).
Qed.

Lemma advanced_exec a pid p D now last n ops e s i :
  spaced a pid D now last n ops ->
  Forall (fun l => EscalationLevel.Timeout l <= D)%Z (EscalationPolicy.Levels p) ->
  well_keyed e -> policies e !! pid = Some p -> escalations e !! escID a = Some s ->
  advanced pid (length (EscalationPolicy.Levels p)) now last i s ->
  exists s', escalations (exec ops e).1 !! escID a = Some s' /\ EscalationState.Status s' = escActive /\
    (Z.of_nat ((i + n) `min` length (EscalationPolicy.Levels p)) - 1 <= EscalationState.CurrentLevel s')%Z.
Proof.
  intros Hsp Hd. revert e s i.
  induction Hsp as [now last | now last t keys n ops Hle Hkey Hspace Hsp IH | now last t o n ops Hle Ho Hsp IH];
    intros e s i He Hp Hs Hadv.
  - exists s. rewrite Nat.add_0_r. destruct Hadv as ((Hst & _) & Hl & _). by split_and!.
  - rewrite exec_cons, Nat.add_succ_r, <- Nat.add_succ_l. cbn [fst snd step].
    destruct (advanced_check a pid p D now last t keys e s i Hd He Hp Hs Hle Hkey Hspace Hadv) as (s' & Hs' & Hadv').
    apply (IH _ s'); [| | done | done].
    + by apply (step_well_keyed (OpCheck keys) t).
    + rewrite <- Hp. by apply (step_policy (OpCheck keys) t).
  - rewrite exec_cons. cbn [fst snd]. destruct Hadv as (Hact & Hl & Hsince).
    destruct (unattended_step pid now t o e a s He Hle Ho Hact Hs) as (Hp' & s' & Hs' & Ha' & Hl').
    apply (IH _ s'); [by apply step_well_keyed | by rewrite Hp' | done |].
    split; [done |]. split; [destruct Hl' as [-> | ?]; lia |]. intros Hi E.
    destruct Hl' as [-> | ?]; [by apply Hsince | lia].
Qed.

(** C38: an alert that nobody takes care of is escalated to the end: started
    under an enabled policy whose timeouts are at most [D], and with checks that
    keep being made, an escalation has reached level [n - 1], or the last level
    of the policy, after [n] checks spaced at least [D] apart, and is still
    active; so with as many checks as levels it is at the last level. *)
Theorem unattended_reaches_last_level e now a pid p D n ops :
  reachable e -> policies e !! pid = Some p -> EscalationPolicy.Enabled p = true ->
  Forall (fun l => EscalationLevel.Timeout l <= D)%Z (EscalationPolicy.Levels p) ->
  spaced a pid D now now n ops ->
  exists s, escalations (exec ops (StartEscalation now a pid e).1).1 !! escID a = Some s /\
    EscalationState.Status s = escActive /\
    (Z.of_nat (n `min` length (EscalationPolicy.Levels p)) - 1 <= EscalationState.CurrentLevel s)%Z.
Proof.
  intros He%reachable_well_keyed Hp Hen Hd Hsp.
  unfold StartEscalation. rewrite Hp, Hen. cbn [negb fst].
  set (s0 := EscalationState.mk _ _ _ _ _ _ _ _ _ _). set (e1 := set_escalations _ e).
  apply (advanced_exec a pid p D now now n ops e1 s0 0 Hsp Hd);
    [by apply well_keyed_put | done | by apply lookup_insert_eq |].
  split; [by split_and!; simpl; [| | | apply map_Forall_empty] |]. split; [simpl; lia |].
  intros _ _. apply Z.le_refl.
Qed.

(** A manual escalation does not restart the clock when the policy's levels
    are not numbered from 0: [Escalate] notes the instant under the level's
    number, checks read it under its index; so the next check climbs again as
    soon as the timeout has passed since the start of the escalation, even at
    the very instant of the manual escalation. *)
Theorem manual_escalation_keeps_clock e started now a pid p l0 l1 rest :
  policies e !! pid = Some p -> EscalationPolicy.Enabled p = true ->
  EscalationPolicy.Levels p = l0 :: l1 :: rest -> EscalationLevel.Level l0 <> 0%Z ->
  (Sub now started >= EscalationLevel.Timeout l1)%Z ->
  let e1 := (Escalate now a (StartEscalation started a pid e).1).1.1 in
  EscalationState.CurrentLevel <$> escalations e1 !! escID a = Some 0%Z /\
  EscalationState.CurrentLevel <$> escalations (checkEscalations [escID a] now e1).1 !! escID a = Some 1%Z.
Proof.
  intros Hp Hen Hl Hne Hdue. unfold StartEscalation. rewrite Hp, Hen. cbn [negb fst].
  set (s0 := EscalationState.mk _ _ _ _ _ _ _ _ _ _). set (e0 := set_escalations _ e).
  assert (E : (Escalate now a e0).1.1 =
    put (escID a) (EscalationState.climb 0 (EscalationLevel.Level l0) now (EscalationLevel.Channels l0) s0) e0).
  { unfold Escalate. replace (escalations e0 !! escID a) with (Some s0) by (symmetry; apply lookup_insert_eq).
    cbn. by rewrite Hp, Hl. }
  cbn zeta. rewrite E. split; [unfold put; simpl; by rewrite lookup_insert_eq |].
  unfold checkEscalations. cbn [foldl]. unfold check_one.
  set (s1 := EscalationState.climb 0 _ now _ s0).
  replace (escalations (put (escID a) s1 e0) !! escID a) with (Some s1) by (symmetry; apply lookup_insert_eq).
  cbn -[lookup Sub insert]. rewrite Hp, Hl, lookup_insert_ne by done. rewrite bool_decide_true by done.
  change ((l0 :: l1 :: rest) !! Z.to_nat (0 + 1)) with (Some l1).
  rewrite lookup_empty. cbn [negb default]. rewrite geb_true by (simpl; lia).
  unfold put. simpl. by rewrite lookup_insert_eq.
Qed.

(** ** On call *)

(** Seconds since midnight, and since midnight before Sunday. *)
Definition day_second (t : time) : Z := ((t / second) `mod` 86400)%Z.
Definition week_second (t : time) : Z := ((t / second + 86400) `mod` 604800)%Z.

(** [x] lies in the interval from [lo] to [hi] of a cycle, both included. *)
Definition within (lo hi x : Z) : bool :=
  if (lo <=? hi)%Z then (lo <=? x)%Z && (x <=? hi)%Z else (lo <=? x)%Z || (x <=? hi)%Z.

Lemma second_of_day_spec t : second_of_day t = day_second t.
Proof.
  unfold second_of_day, day_second, Hour, Minute.
  replace (t / hour)%Z with (t / second / 3600)%Z by (rewrite Z.div_div by done; done).
  replace (t / minute)%Z with (t / second / 60)%Z by (rewrite Z.div_div by done; done).
  generalize (t / second)%Z. intros s. Z.div_mod_to_equations. lia.
Qed.

Lemma week_second_spec t : week_second t = (Weekday t * 86400 + second_of_day t)%Z.
Proof.
  rewrite second_of_day_spec. unfold week_second, day_second, Weekday, days.
  replace (t / (24 * hour))%Z with (t / second / 86400)%Z by (rewrite Z.div_div by done; done).
  generalize (t / second)%Z. intros s. Z.div_mod_to_equations. lia.
Qed.

Lemma second_of_day_range t : (0 <= second_of_day t < 86400)%Z.
Proof. rewrite second_of_day_spec. unfold day_second. by apply Z.mod_pos_bound. Qed.

(** An entry of a daily rotation is on call within its cyclic interval of
    the day, an entry of a weekly one within its cyclic interval of the week,
    wrapping around midnight or the weekend, in the local time of each instant;
    the exception is a weekly entry that ends earlier on the weekday on which it
    starts: it is never on call, instead of nearly the whole week. *)
Theorem on_call_windows entry at_ rotation :
  isEntryActive entry at_ rotation =
    let start := OnCallEntry.StartTime entry in
    let fin := OnCallEntry.EndTime entry in
    match rotation with
    | RotationDaily =>
        within (day_second (Stamp.local start)) (day_second (Stamp.local fin)) (day_second (Stamp.local at_))
    | RotationWeekly =>
        within (week_second (Stamp.local start)) (week_second (Stamp.local fin)) (week_second (Stamp.local at_)) &&
        negb ((Weekday (Stamp.local start) =? Weekday (Stamp.local fin))%Z &&
              (week_second (Stamp.local fin) <? week_second (Stamp.local start))%Z)
    | RotationOther =>
        (Stamp.instant start <=? Stamp.instant at_)%Z && (Stamp.instant at_ <=? Stamp.instant fin)%Z
    end.
Proof.
  destruct rotation; cbn zeta; unfold isEntryActive.
  - rewrite !second_of_day_spec. unfold within. rewrite !Z.geb_leb. done.
  - rewrite !week_second_spec.
    pose proof (second_of_day_range (Stamp.local at_)).
    pose proof (second_of_day_range (Stamp.local (OnCallEntry.StartTime entry))).
    pose proof (second_of_day_range (Stamp.local (OnCallEntry.EndTime entry))).
    revert H H0 H1. generalize (second_of_day (Stamp.local at_)),
      (second_of_day (Stamp.local (OnCallEntry.StartTime entry))), (second_of_day (Stamp.local (OnCallEntry.EndTime entry))),
      (Weekday (Stamp.local at_)), (Weekday (Stamp.local (OnCallEntry.StartTime entry))),
      (Weekday (Stamp.local (OnCallEntry.EndTime entry))).
    intros a s f wa ws wf Ha Hs Hf. unfold within. apply eq_true_iff_eq.
    destruct (Z.eqb_spec ws wf); destruct (Z.ltb_spec ws wf);
      destruct (Z.leb_spec (ws * 86400 + s) (wf * 86400 + f)); try lia.
    all: repeat (match goal with |- context [if ?b then _ else _] => destruct b eqn:? end); try lia.
  - unfold Before, After. rewrite <- !Z.leb_antisym. done.
Qed.

(** ** Witnesses *)

Definition ex_levels : list EscalationLevel.t :=
  [EscalationLevel.mk 0 (5 * minute) ["email"]; EscalationLevel.mk 1 (10 * minute) ["sms"; "pagerduty"]].
Definition ex_policy : EscalationPolicy.t := EscalationPolicy.mk "p1" "night" "acme" ex_levels true 0 0.
Definition ex_escalator : Escalator.t := (exec [(OpAddPolicy ex_policy, 7%Z)] (Escalator.mk ∅ ∅ ∅ true)).1.
Definition ex_stored : EscalationPolicy.t := EscalationPolicy.set_times 7 7 ex_policy.

Lemma ex_escalator_reachable : reachable ex_escalator.
Proof. by eexists true, _. Qed.

Definition ex_settled : Escalator.t :=
  (exec [(OpAddPolicy ex_policy, 7%Z); (OpStart "a1" "p1", 8%Z); (OpEscalate "a1", 9%Z); (OpAcknowledge "a1", 10%Z)]
    (Escalator.mk ∅ ∅ ∅ true)).1.
Definition ex_settled_state : EscalationState.t :=
  EscalationState.mk "esc-a1" "a1" "p1" 0 escAcknowledged 8 (Some 10%Z) None {[ 0%Z := 9%Z ]} {[ 0%Z := ["email"] ]}.
Definition ex_later : list (op * time) :=
  [(OpCheck ["esc-a1"], (100 * minute)%Z); (OpEscalate "a1", (101 * minute)%Z); (OpResolve "a1", (102 * minute)%Z)].

Lemma settled_escalation_silent_witness :
  notified "a1" (exec ex_later ex_settled).2 = [] /\
  exists s', escalations (exec ex_later ex_settled).1 !! escID "a1" = Some s' /\
    EscalationState.CurrentLevel s' = 0%Z.
Proof.
  destruct (settled_escalation_silent ex_settled "a1" ex_settled_state ex_later) as (H & s' & Hs & Hl & _);
    [by eexists true, _ | vm_compute; reflexivity | vm_compute; discriminate | repeat constructor |].
  split; [exact H | exists s'; split; [exact Hs | exact Hl]].
Defined.

Definition ex_mixed : list (op * time) :=
  [(OpCheck ["esc-a1"], (2 * minute)%Z); (OpEscalate "a1", (3 * minute)%Z); (OpCheck ["esc-a1"], (20 * minute)%Z);
   (OpAcknowledge "a1", (21 * minute)%Z)].

Lemma notified_in_order_witness :
  let e' := exec ex_mixed (StartEscalation minute "a1" "p1" ex_escalator).1 in
  exists s, escalations e'.1 !! escID "a1" = Some s /\
    (-1 <= EscalationState.CurrentLevel s < 2)%Z /\
    notified "a1" e'.2 =
      take (Z.to_nat (EscalationState.CurrentLevel s + 1)) (EscalationLevel.Channels <$> ex_levels).
Proof.
  apply (notified_in_order ex_escalator minute "a1" "p1" ex_stored ex_mixed ex_escalator_reachable);
    [reflexivity | vm_compute; reflexivity | reflexivity | repeat constructor].
Defined.

Definition ex_unattended : list (op * time) :=
  [(OpCheck ["esc-a1"], (2 * minute)%Z); (OpCheck ["esc-a1"], (12 * minute)%Z); (OpResolve "a2", (13 * minute)%Z);
   (OpCheck ["esc-a1"], (23 * minute)%Z)].

Lemma unattended_reaches_last_level_witness :
  exists s, escalations (exec ex_unattended (StartEscalation minute "a1" "p1" ex_escalator).1).1 !! escID "a1" = Some s /\
    EscalationState.Status s = escActive /\ (1 <= EscalationState.CurrentLevel s)%Z.
Proof.
  apply (unattended_reaches_last_level ex_escalator minute "a1" "p1" ex_stored (10 * minute) 2 ex_unattended
    ex_escalator_reachable); [vm_compute; reflexivity | reflexivity | |].
  - repeat constructor; vm_compute; discriminate.
  - apply spaced_other; [vm_compute; discriminate | reflexivity |].
    apply spaced_check; [vm_compute; discriminate | apply list_elem_of_here | vm_compute; discriminate |].
    apply spaced_other; [vm_compute; discriminate | reflexivity |].
    apply spaced_check; [vm_compute; discriminate | apply list_elem_of_here | vm_compute; discriminate | constructor].
Defined.

Definition ex_from_one : EscalationPolicy.t :=
  EscalationPolicy.mk "p1" "night" "acme"
    [EscalationLevel.mk 1 (5 * minute) ["email"]; EscalationLevel.mk 2 (10 * minute) ["sms"]] true 7 7.

Lemma manual_escalation_keeps_clock_witness :
  let e1 := (Escalate (11 * minute) "a1"
    (StartEscalation minute "a1" "p1" (set_policies {[ "p1" := ex_from_one ]} NewEscalator)).1).1.1 in
  EscalationState.CurrentLevel <$> escalations e1 !! escID "a1" = Some 0%Z /\
  EscalationState.CurrentLevel <$> escalations (checkEscalations [escID "a1"] (11 * minute) e1).1 !! escID "a1" = Some 1%Z.
Proof.
  apply (manual_escalation_keeps_clock _ minute (11 * minute) "a1" "p1" ex_from_one
    (EscalationLevel.mk 1 (5 * minute) ["email"]) (EscalationLevel.mk 2 (10 * minute) ["sms"]) []);
    [reflexivity | reflexivity | reflexivity | discriminate | vm_compute; discriminate].
Defined.
