(* ===== verification/LogQuery.v ===== *)
(** * The log query language ([internal/logstore/queryparse.go])

    The lexer, the recursive-descent parser and the matching of entries.  The
    lexer's state is the rest of the input with its byte position, the parser's
    is the rest of the tokens.  Both recursions take fuel; [LogQueryProps] shows
    that the fuel [ParseQuery] gives is never used up. *)

From Stdlib Require Import Ascii.
From S2P Require Import GoStrings Prelude.
Open Scope go_scope.

(** ** Entries ([model.go]) *)

Module Entry.
Record t := mk {
  ID : Z; TenantID : string; DeviceID : string; AgentID : string; TaskID : string;
  Timestamp : time; Level : string; Source : string; Message : string }.
Definition set_ID v e := mk v (TenantID e) (DeviceID e) (AgentID e) (TaskID e) (Timestamp e) (Level e) (Source e) (Message e).
Definition set_Timestamp v e := mk (ID e) (TenantID e) (DeviceID e) (AgentID e) (TaskID e) v (Level e) (Source e) (Message e).
End Entry.

(** ** The syntax tree; [NilNode] stands for a nil node *)

Inductive QueryNode :=
  | NilNode
  | AndNode (Left Right : QueryNode)
  | OrNode (Left Right : QueryNode)
  | NotNode (Child : QueryNode)
  | FieldEq (Field Value : string)
  | FieldNotEq (Field Value : string)
  | FieldContains (Field Value : string)
  | FieldNotContains (Field Value : string).

Definition fieldValue (e : Entry.t) (field : string) : string :=
  if field == "level" then Entry.Level e
  else if field == "device" then Entry.DeviceID e
  else if field == "agent" then Entry.AgentID e
  else if field == "source" then Entry.Source e
  else if field == "message" then Entry.Message e
  else if field == "task" then Entry.TaskID e
  else "".

Definition isKnownField (f : string) : bool :=
  (f == "level") || (f == "device") || (f == "agent") || (f == "source") || (f == "message") || (f == "task").

Fixpoint Match (n : QueryNode) (e : Entry.t) : bool :=
  match n with
  | NilNode => false
  | AndNode l r => match l, r with NilNode, _ | _, NilNode => false | _, _ => Match l e && Match r e end
  | OrNode l r => match l, r with NilNode, _ | _, NilNode => false | _, _ => Match l e || Match r e end
  | NotNode c => match c with NilNode => false | _ => negb (Match c e) end
  | FieldEq f v => fieldValue e f == v
  | FieldNotEq f v => fieldValue e f != v
  | FieldContains f v => Contains v (fieldValue e f)
  | FieldNotContains f v => negb (Contains v (fieldValue e f))
  end.

Definition ApplyQuery (entries : list Entry.t) (q : QueryNode) : list Entry.t :=
  match q with
  | NilNode => []
  | _ => List.filter (Match q) entries
  end.

(** ** Lexer *)

Inductive tokenKind :=
  tokEOF | tokIdent | tokString | tokOp | tokAnd | tokOr | tokNot | tokLParen | tokRParen.

#[export] Instance tokenKind_eq_dec : EqDecision tokenKind.
Proof. solve_decision. Defined.

Module Token.
Record t := mk { kind : tokenKind; value : string; pos : nat }.
End Token.

Inductive parse_error :=
  | ErrEmptyQuery
  | LoneBang (pos : nat)
  | UnknownChar (pos : nat) (c : ascii)
  | UnclosedString (pos : nat)
  | Expected (what : string) (pos : nat) (got : string)
  | ExtraToken (pos : nat) (got : string)
  | UnknownField (pos : nat) (got : string)
  | MessageOperator (op : string)
  | UnknownOperator (op : string)
  | OutOfFuel.

Abbreviation parse := (result parse_error).

Definition isBlank (c : ascii) : bool :=
  (c == " "%char) || (c == "009"%char) || (c == "010"%char) || (c == "013"%char).

(** The rest after the blanks, and its position. *)
Fixpoint skipSpaces (s : string) (pos : nat) : string * nat :=
  match s with
  | String c s' => if isBlank c then skipSpaces s' (S pos) else (s, pos)
  | "" => (s, pos)
  end.

Definition in_range (lo c hi : ascii) : bool :=
  (N_of_ascii lo <=? N_of_ascii c)%N && (N_of_ascii c <=? N_of_ascii hi)%N.

Definition isIdentStart (c : ascii) : bool :=
  (c == "_"%char) || in_range "a" c "z" || in_range "A" c "Z" || in_range "0" c "9" ||
  (c == "-"%char) || (c == "."%char).

Definition isIdentPart (c : ascii) : bool := isIdentStart c.

(** The quote and the backslash. *)
Definition dquote : ascii := "034"%char.
Definition backslash : ascii := "092"%char.

(** After the opening quote: the text up to the closing one and the rest after
    it, with its position; [None] when there is no closing quote. *)
Fixpoint readString (s : string) (pos : nat) : option (string * string * nat) :=
  match s with
  | "" => None
  | String c s' =>
      if c == backslash then
        match s' with
        | String next s'' =>
            if (next == dquote) || (next == backslash) then
              '(v, r, p) ← readString s'' (2 + pos); Some (String next v, r, p)
            else '(v, r, p) ← readString s' (S pos); Some (String c v, r, p)
        | "" => '(v, r, p) ← readString s' (S pos); Some (String c v, r, p)
        end
      else if c == dquote then Some ("", s', S pos)
      else '(v, r, p) ← readString s' (S pos); Some (String c v, r, p)
  end.

(** The longest prefix of identifier characters, the rest and its position. *)
Fixpoint readIdent (s : string) (pos : nat) : string * string * nat :=
  match s with
  | String c s' =>
      if isIdentPart c then let '(w, r, p) := readIdent s' (S pos) in (String c w, r, p)
      else ("", s, pos)
  | "" => ("", s, pos)
  end.

Definition keyword (word : string) : tokenKind :=
  if word == "AND" then tokAnd
  else if word == "OR" then tokOr
  else if word == "NOT" then tokNot
  else tokIdent.

(** One turn of the loop of [tokenize] at a character [c] with rest [s]: the
    token, the rest and its position.  The token of a string has the position
    after its closing quote. *)
Definition lex_one (c : ascii) (s : string) (pos : nat) : parse (Token.t * string * nat) :=
  if c == "("%char then Ok (Token.mk tokLParen "(" pos, s, S pos)
  else if c == ")"%char then Ok (Token.mk tokRParen ")" pos, s, S pos)
  else if c == "="%char then Ok (Token.mk tokOp "=" pos, s, S pos)
  else if c == "~"%char then Ok (Token.mk tokOp "~" pos, s, S pos)
  else if c == "!"%char then
    match s with
    | String "=" s' => Ok (Token.mk tokOp "!=" pos, s', 2 + pos)
    | String "~" s' => Ok (Token.mk tokOp "!~" pos, s', 2 + pos)
    | _ => Err (LoneBang pos)
    end
  else if c == dquote then
    match readString s (S pos) with
    | Some (v, r, p) => Ok (Token.mk tokString v p, r, p)
    | None => Err (UnclosedString pos)
    end
  else if isIdentStart c then
    let '(word, r, p) := readIdent (String c s) pos in
    Ok (Token.mk (keyword word) word pos, r, p)
  else Err (UnknownChar pos c).

Fixpoint tokenize (fuel : nat) (s : string) (pos : nat) : parse (list Token.t) :=
  match fuel with
  | 0 => Err OutOfFuel
  | S fuel =>
      let (s, pos) := skipSpaces s pos in
      match s with
      | "" => Ok [Token.mk tokEOF "" pos]
      | String c s' =>
          '(t, r, p) ← lex_one c s' pos;
          ts ← tokenize fuel r p;
          Ok (t :: ts)
      end
  end.

(** ** Parser *)

(** The current token; past the end it is an [EOF]. *)
Definition cur (ts : list Token.t) : Token.t :=
  match ts with t :: _ => t | [] => Token.mk tokEOF "" 0 end.

Definition advance (ts : list Token.t) : list Token.t := tl ts.

Definition expect (k : tokenKind) (what : string) (ts : list Token.t) : parse (list Token.t) :=
  let t := cur ts in
  if Token.kind t != k then Err (Expected what (Token.pos t) (Token.value t)) else Ok (advance ts).

(** [field op value], at a token that is not a parenthesis. *)
Definition parseField (ts : list Token.t) : parse (QueryNode * list Token.t) :=
  let t := cur ts in
  if Token.kind t != tokIdent then Err (Expected "field or (" (Token.pos t) (Token.value t))
  else if negb (isKnownField (Token.value t)) then Err (UnknownField (Token.pos t) (Token.value t))
  else
    let field := Token.value t in
    let ts := advance ts in
    let op := cur ts in
    if Token.kind op != tokOp then Err (Expected "operator" (Token.pos op) (Token.value op))
    else
      let ts := advance ts in
      let val := cur ts in
      if (Token.kind val != tokIdent) && (Token.kind val != tokString)
      then Err (Expected "value" (Token.pos val) (Token.value val))
      else
        let ts := advance ts in
        if (field == "message") && (Token.value op != "~") && (Token.value op != "!~")
        then Err (MessageOperator (Token.value op))
        else if Token.value op == "=" then Ok (FieldEq field (Token.value val), ts)
        else if Token.value op == "!=" then Ok (FieldNotEq field (Token.value val), ts)
        else if Token.value op == "~" then Ok (FieldContains field (Token.value val), ts)
        else if Token.value op == "!~" then Ok (FieldNotContains field (Token.value val), ts)
        else Err (UnknownOperator (Token.value op)).

Fixpoint parseOr (fuel : nat) (ts : list Token.t) : parse (QueryNode * list Token.t) :=
  match fuel with
  | 0 => Err OutOfFuel
  | S fuel => '(lhs, ts) ← parseAnd fuel ts; orLoop fuel lhs ts
  end
(** The loop of [parseOr], with what has been read as [lhs]. *)
with orLoop (fuel : nat) (lhs : QueryNode) (ts : list Token.t) : parse (QueryNode * list Token.t) :=
  match fuel with
  | 0 => Err OutOfFuel
  | S fuel =>
      if Token.kind (cur ts) == tokOr then
        '(rhs, ts) ← parseAnd fuel (advance ts); orLoop fuel (OrNode lhs rhs) ts
      else Ok (lhs, ts)
  end
with parseAnd (fuel : nat) (ts : list Token.t) : parse (QueryNode * list Token.t) :=
  match fuel with
  | 0 => Err OutOfFuel
  | S fuel => '(lhs, ts) ← parseNot fuel ts; andLoop fuel lhs ts
  end
(** The loop of [parseAnd]. *)
with andLoop (fuel : nat) (lhs : QueryNode) (ts : list Token.t) : parse (QueryNode * list Token.t) :=
  match fuel with
  | 0 => Err OutOfFuel
  | S fuel =>
      if Token.kind (cur ts) == tokAnd then
        '(rhs, ts) ← parseNot fuel (advance ts); andLoop fuel (AndNode lhs rhs) ts
      else Ok (lhs, ts)
  end
with parseNot (fuel : nat) (ts : list Token.t) : parse (QueryNode * list Token.t) :=
  match fuel with
  | 0 => Err OutOfFuel
  | S fuel =>
      if Token.kind (cur ts) == tokNot then
        '(child, ts) ← parseNot fuel (advance ts); Ok (NotNode child, ts)
      else parsePrimary fuel ts
  end
with parsePrimary (fuel : nat) (ts : list Token.t) : parse (QueryNode * list Token.t) :=
  match fuel with
  | 0 => Err OutOfFuel
  | S fuel =>
      if Token.kind (cur ts) == tokLParen then
        '(node, ts) ← parseOr fuel (advance ts);
        ts ← expect tokRParen "')'" ts;
        Ok (node, ts)
      else parseField ts
  end.

(** The parser's entry point on all the tokens. *)
Definition parse_tokens (fuel : nat) (ts : list Token.t) : parse QueryNode :=
  '(node, ts) ← parseOr fuel ts;
  let t := cur ts in
  if Token.kind t != tokEOF then Err (ExtraToken (Token.pos t) (Token.value t)) else Ok node.

(** A turn of the lexer per byte and one at the end; six calls of the parser per token. *)
Definition lex_fuel (s : string) : nat := S (String.length s).
Definition parse_fuel (ts : list Token.t) : nat := 6 * S (length ts).

Definition ParseQuery (s : string) : parse QueryNode :=
  if all_chars isSpace s then Err ErrEmptyQuery
  else
    ts ← tokenize (lex_fuel s) s 0;
    parse_tokens (parse_fuel ts) ts.
