(* ===== verification/LogQueryProps.v ===== *)
(** * Properties of the log query language

    The parser always answers; what it accepts is a well-formed tree; and the
    text of a well-formed tree, printed with the parentheses that precedence and
    associativity require, parses back to that tree. *)

From Stdlib Require Import Ascii.
From S2P Require Import GoStrings Prelude LogQuery.
Open Scope go_scope.

(** ** The fuel is enough *)

Lemma skipSpaces_length s pos : String.length (skipSpaces s pos).1 <= String.length s.
Proof.
  revert pos. induction s as [| c s IH]; intros pos; simpl; [lia |].
  destruct (isBlank c); simpl; [specialize (IH (S pos)); lia | lia].
Qed.

Lemma readString_length s : forall pos v r p, readString s pos = Some (v, r, p) -> String.length r <= String.length s.
Proof.
  induction s as [s IH] using (induction_ltof1 _ String.length). unfold ltof in IH.
  intros pos v r p. destruct s as [| c s]; simpl; [done |].
  assert (Hrec : forall s' pos' (f : string -> string), String.length s' <= String.length s ->
    ('(v, r, p) ← readString s' pos'; Some (f v, r, p)) = Some (v, r, p) -> String.length r <= S (String.length s)).
  { intros s' pos' f Hs H. destruct (readString s' pos') as [[[v' r'] p'] |] eqn:E; simplify_eq/=.
    apply IH in E; simpl; lia. }
  destruct (c == backslash).
  - destruct s as [| next s']; [by apply (Hrec "" _ (String c)) |].
    destruct (_ || _); apply Hrec; simpl; lia.
  - destruct (c == dquote); [intros; simplify_eq; lia |]. by apply Hrec.
Qed.

Lemma readIdent_length s pos : String.length (readIdent s pos).1.2 <= String.length s.
Proof.
  revert pos. induction s as [| c s IH]; intros pos; simpl; [lia |].
  destruct (isIdentPart c); [| simpl; lia]. specialize (IH (S pos)).
  destruct (readIdent s (S pos)) as [[w r] p]. simpl in *. lia.
Qed.

Lemma lex_one_length c s pos t r p : lex_one c s pos = Ok (t, r, p) -> String.length r <= String.length s.
Proof.
  unfold lex_one. repeat (case_bool_decide; [intros; simplify_eq; lia |]).
  destruct (c == "!"%char); [destruct s as [| [[] [] [] [] [] [] [] []] s]; intros; simplify_eq/=; lia |].
  destruct (c == dquote).
  { destruct (readString s (S pos)) as [[[v r'] p'] |] eqn:E; intros; simplify_eq. by eapply readString_length. }
  destruct (isIdentStart c) eqn:Hc; [| done]. simpl. unfold isIdentPart. rewrite Hc.
  pose proof (readIdent_length s (S pos)) as Hlen. destruct (readIdent s (S pos)) as [[w r'] p'].
  intros; simplify_eq. exact Hlen.
Qed.

Lemma lex_one_fuel c s pos : lex_one c s pos <> Err OutOfFuel.
Proof.
  unfold lex_one. repeat case_bool_decide; try done;
    try (destruct s as [| [[] [] [] [] [] [] [] []] s]; done);
    [by destruct (readString s (S pos)) as [[[] ?] |] | ].
  destruct (isIdentStart c); [| done]. by destruct (readIdent _ _) as [[] ?].
Qed.

Lemma tokenize_fuel fuel s pos : String.length s < fuel -> tokenize fuel s pos <> Err OutOfFuel.
Proof.
  revert s pos. induction fuel as [| fuel IH]; intros s pos Hf; [lia |]. cbn [tokenize].
  pose proof (skipSpaces_length s pos) as Hs. destruct (skipSpaces s pos) as [s' pos']. simpl in Hs.
  destruct s' as [| c s']; [done |]. simpl in Hs.
  pose proof (lex_one_fuel c s' pos') as Hf1.
  destruct (lex_one c s' pos') as [[[t r] p] | e] eqn:E; simpl; [| congruence].
  apply lex_one_length in E. specialize (IH r p ltac:(lia)).
  by destruct (tokenize fuel r p); simpl.
Qed.

(** An answer other than running out of fuel, leaving no more tokens than [n];
    a tree it gives satisfies [P]. *)
Definition answers (P : QueryNode -> Prop) (n : nat) (res : parse (QueryNode * list Token.t)) : Prop :=
  match res with
  | Ok (q, r) => length r <= n /\ P q
  | Err e => e <> OutOfFuel
  end.

(** Trees over known fields, with messages compared by content only. *)
Fixpoint well_formed (q : QueryNode) : Prop :=
  match q with
  | NilNode => False
  | AndNode l r | OrNode l r => well_formed l /\ well_formed r
  | NotNode c => well_formed c
  | FieldEq f _ | FieldNotEq f _ => isKnownField f = true /\ f <> "message"
  | FieldContains f _ | FieldNotContains f _ => isKnownField f = true
  end.

Lemma answers_bind P Q n m res k :
  answers P n res -> (forall q r, length r <= n -> P q -> answers Q m (k q r)) ->
  answers Q m ('(q, r) ← res; k q r).
Proof. destruct res as [[q r] | e]; simpl; [| done]. intros [H1 H2] H. by apply H. Qed.

Lemma length_advance ts k : Token.kind (cur ts) = k -> k <> tokEOF -> S (length (advance ts)) = length ts.
Proof. destruct ts; simpl; congruence. Qed.

Lemma parseField_answers ts : answers well_formed (length ts) (parseField ts).
Proof.
  unfold parseField.
  assert (Hadv : forall l : list Token.t, length (advance l) <= length l) by (intros []; simpl; lia).
  assert (Hts : length (advance (advance (advance ts))) <= length ts).
  { pose proof (Hadv ts). pose proof (Hadv (advance ts)). pose proof (Hadv (advance (advance ts))). lia. }
  repeat (match goal with |- answers _ _ (if ?b then _ else _) => destruct b eqn:? end; try done);
    (split; [exact Hts |]); simpl;
    repeat match goal with H : negb _ = false |- _ => apply negb_false_iff in H end;
    try done; (split; [done |]); intros Hm; rewrite Hm in *;
    repeat match goal with H : bool_decide _ = true |- _ => apply bool_decide_eq_true_1 in H end;
    match goal with
    | H : _ = ?op, H' : _ && _ && _ = false |- _ => by rewrite H in H'
    end.
Qed.

(** With six units of fuel per token and a few more, no part of the parser runs out. *)
Definition parser_answers (fuel : nat) : Prop := forall ts,
  (6 * length ts + 4 <= fuel -> answers well_formed (length ts) (parseOr fuel ts)) /\
  (forall lhs, well_formed lhs -> 6 * length ts + 1 <= fuel -> answers well_formed (length ts) (orLoop fuel lhs ts)) /\
  (6 * length ts + 3 <= fuel -> answers well_formed (length ts) (parseAnd fuel ts)) /\
  (forall lhs, well_formed lhs -> 6 * length ts + 1 <= fuel -> answers well_formed (length ts) (andLoop fuel lhs ts)) /\
  (6 * length ts + 2 <= fuel -> answers well_formed (length ts) (parseNot fuel ts)) /\
  (6 * length ts + 1 <= fuel -> answers well_formed (length ts) (parsePrimary fuel ts)).

Lemma answers_le P n m res : n <= m -> answers P n res -> answers P m res.
Proof. destruct res as [[q r] | e]; simpl; [| done]. intros H [? ?]. split; [lia | done]. Qed.

Lemma parser_fuel fuel : parser_answers fuel.
Proof.
  induction fuel as [| fuel IH]; intros ts; [split_and!; intros; lia |].
  split_and!; cbn [parseOr orLoop parseAnd andLoop parseNot parsePrimary].
  - intros H. eapply answers_bind; [apply (IH ts); lia |]. intros q r Hr Hq.
    eapply answers_le; [exact Hr |]. apply (IH r); [done | lia].
  - intros lhs Hl H. case_bool_decide as Hk; [| by split].
    apply length_advance in Hk as Hlen; [| done].
    eapply answers_bind; [apply (IH (advance ts)); lia |]. intros q r Hr Hq.
    apply (answers_le _ (length r)); [lia |]. apply (IH r); [done | lia].
  - intros H. eapply answers_bind; [apply (IH ts); lia |]. intros q r Hr Hq.
    eapply answers_le; [exact Hr |]. apply (IH r); [done | lia].
  - intros lhs Hl H. case_bool_decide as Hk; [| by split].
    apply length_advance in Hk as Hlen; [| done].
    eapply answers_bind; [apply (IH (advance ts)); lia |]. intros q r Hr Hq.
    apply (answers_le _ (length r)); [lia |]. apply (IH r); [done | lia].
  - intros H. case_bool_decide as Hk; [| apply (IH ts); lia].
    apply length_advance in Hk as Hlen; [| done].
    eapply answers_bind; [apply (IH (advance ts)); lia |]. intros q r Hr Hq. split; [lia | done].
  - intros H. case_bool_decide as Hk; [| apply parseField_answers].
    apply length_advance in Hk as Hlen; [| done].
    eapply answers_bind; [apply (IH (advance ts)); lia |]. intros q r Hr Hq.
    unfold expect. case_bool_decide as Hk'; simpl; [| done]. split; [| done].
    apply length_advance in Hk'; [| done]. lia.
Qed.

(** C36: parsing terminates: [ParseQuery] never runs out of fuel, on any text. *)
Theorem parse_terminates s : ParseQuery s <> Err OutOfFuel.
Proof.
  unfold ParseQuery. destruct (all_chars isSpace s); [done |].
  pose proof (tokenize_fuel (lex_fuel s) s 0 ltac:(unfold lex_fuel; lia)) as Hl.
  destruct (tokenize _ s 0) as [ts | e]; simpl; [| congruence].
  unfold parse_tokens. destruct (parser_fuel (parse_fuel ts) ts) as [H _]. unfold parse_fuel in *.
  specialize (H ltac:(lia)). destruct (parseOr _ ts) as [[q r] | e]; simpl in *; [| congruence].
  by case_bool_decide.
Qed.

(** C35: an accepted query mentions known fields only, compares the message by
    content only, and has no nil node: so [Match] never falls back to its
    answers for nil nodes and unknown fields. *)
Theorem parse_well_formed s q : ParseQuery s = Ok q -> well_formed q.
Proof.
  unfold ParseQuery. destruct (all_chars isSpace s); [done |].
  destruct (tokenize _ s 0) as [ts | e]; simpl; [| done].
  unfold parse_tokens. destruct (parser_fuel (parse_fuel ts) ts) as [H _]. unfold parse_fuel in *.
  specialize (H ltac:(lia)). destruct (parseOr _ ts) as [[q' r] | e]; simpl in *; [| done].
  case_bool_decide; simpl; [| done]. intros [= <-]. apply H.
Qed.

Lemma parse_well_formed_witness :
  well_formed (AndNode (FieldEq "level" "error") (NotNode (FieldContains "message" "panic"))).
Proof.
  apply (parse_well_formed "level=error AND NOT message~panic"). vm_compute. reflexivity.
Defined.

(** ** Printing *)

(** A value in quotes: the quote and the backslash are escaped. *)
Fixpoint escape (v : string) : string :=
  match v with
  | "" => ""
  | String c v =>
      if (c == dquote) || (c == backslash) then String backslash (String c (escape v)) else String c (escape v)
  end.
Definition quoted (v : string) : string := String dquote (escape v +:+ String dquote "").

(** The binding strength of a tree: 0 for [OR], 1 for [AND], 2 for the rest. *)
Definition strength (q : QueryNode) : nat :=
  match q with OrNode _ _ => 0 | AndNode _ _ => 1 | _ => 2 end.

(** The text of a tree where a tree of strength [k] is expected. *)
Fixpoint print (k : nat) (q : QueryNode) : string :=
  let body :=
    match q with
    | NilNode => ""
    | OrNode l r => print 0 l +:+ " OR " +:+ print 1 r
    | AndNode l r => print 1 l +:+ " AND " +:+ print 2 r
    | NotNode c => "NOT " +:+ print 2 c
    | FieldEq f v => f +:+ "=" +:+ quoted v
    | FieldNotEq f v => f +:+ "!=" +:+ quoted v
    | FieldContains f v => f +:+ "~" +:+ quoted v
    | FieldNotContains f v => f +:+ "!~" +:+ quoted v
    end in
  if decide (strength q < k) then "(" +:+ body +:+ ")" else body.

(** The kinds and values of the tokens of that text. *)
Abbreviation lexeme := (tokenKind * string)%type.
Definition lexeme_of (t : Token.t) : lexeme := (Token.kind t, Token.value t).

Fixpoint lexemes (k : nat) (q : QueryNode) : list lexeme :=
  let body :=
    match q with
    | NilNode => []
    | OrNode l r => lexemes 0 l ++ (tokOr, "OR") :: lexemes 1 r
    | AndNode l r => lexemes 1 l ++ (tokAnd, "AND") :: lexemes 2 r
    | NotNode c => (tokNot, "NOT") :: lexemes 2 c
    | FieldEq f v => [(tokIdent, f); (tokOp, "="); (tokString, v)]
    | FieldNotEq f v => [(tokIdent, f); (tokOp, "!="); (tokString, v)]
    | FieldContains f v => [(tokIdent, f); (tokOp, "~"); (tokString, v)]
    | FieldNotContains f v => [(tokIdent, f); (tokOp, "!~"); (tokString, v)]
    end in
  if decide (strength q < k) then (tokLParen, "(") :: body ++ [(tokRParen, ")")] else body.

(** ** Lexing a printed tree *)

(** An answer does not change when there is more fuel. *)
Definition keeps {A} (res res' : parse A) : Prop := res = Err OutOfFuel \/ res' = res.

Lemma keeps_refl {A} (res : parse A) : keeps res res.
Proof. by right. Qed.

Lemma keeps_bind {A B} (res res' : parse A) (k k' : A -> parse B) :
  keeps res res' -> (forall a, keeps (k a) (k' a)) -> keeps (res ≫= k) (res' ≫= k').
Proof. intros [-> | ->] Hk; [by left |]. destruct res; [apply Hk | by right]. Qed.

Lemma fuel_le {A} (f : nat -> parse A) n m :
  (forall n, keeps (f n) (f (S n))) -> n <= m -> keeps (f n) (f m).
Proof.
  intros Hf. induction 1 as [| m _ IH]; [apply keeps_refl |].
  destruct IH as [IH | IH]; [by left |]. destruct (Hf m) as [E | E]; [left; congruence | right; congruence].
Qed.

Lemma fuel_ok {A} (f : nat -> parse A) n m v :
  (forall n, keeps (f n) (f (S n))) -> n <= m -> f n = Ok v -> f m = Ok v.
Proof. intros Hf Hle H. destruct (fuel_le f n m Hf Hle); congruence. Qed.

(** Enough fuel gives what any fuel gives. *)
Lemma fuel_enough {A} (f : nat -> parse A) n m v :
  (forall n, keeps (f n) (f (S n))) -> f m <> Err OutOfFuel -> f n = Ok v -> f m = Ok v.
Proof.
  intros Hf Hm H. destruct (fuel_le f n (n `max` m) Hf ltac:(lia)) as [E | E]; [congruence |].
  destruct (fuel_le f m (n `max` m) Hf ltac:(lia)) as [E' | E']; congruence.
Qed.

Lemma tokenize_more fuel s pos : keeps (tokenize fuel s pos) (tokenize (S fuel) s pos).
Proof.
  revert s pos. induction fuel as [| fuel IH]; intros s pos; [by left |].
  change (keeps (tokenize (S fuel) s pos) (let (s, pos) := skipSpaces s pos in
    match s with
    | "" => Ok [Token.mk tokEOF "" pos]
    | String c s' => '(t, r, p) ← lex_one c s' pos; ts ← tokenize (S fuel) r p; Ok (t :: ts)
    end)).
  cbn [tokenize]. destruct (skipSpaces s pos) as [s' pos']. destruct s' as [| c s']; [apply keeps_refl |].
  apply keeps_bind; [apply keeps_refl |]. intros [[t r] p].
  apply keeps_bind; [apply IH | intros; apply keeps_refl].
Qed.

(** The text [s] is read as the lexemes [ks], whatever comes after it. *)
Definition lexes (s : string) (ks : list lexeme) : Prop :=
  forall tail pos, exists ts pos', lexeme_of <$> ts = ks /\
    forall fuel ts', tokenize fuel tail pos' = Ok ts' ->
      exists fuel', tokenize fuel' (s +:+ tail) pos = Ok (ts ++ ts').

Lemma lexes_nil : lexes "" [].
Proof. intros tail pos. exists [], pos. split; [done |]. intros fuel ts' H. by exists fuel. Qed.

Lemma lexes_app s1 s2 k1 k2 : lexes s1 k1 -> lexes s2 k2 -> lexes (s1 +:+ s2) (k1 ++ k2).
Proof.
  intros H1 H2 tail pos. destruct (H1 (s2 +:+ tail) pos) as (ts1 & p1 & Hk1 & Hl1).
  destruct (H2 tail p1) as (ts2 & p2 & Hk2 & Hl2). exists (ts1 ++ ts2), p2.
  split; [by rewrite fmap_app, Hk1, Hk2 |]. intros fuel ts' H.
  destruct (Hl2 fuel ts' H) as [f2 E2]. destruct (Hl1 f2 _ E2) as [f1 E1]. exists f1.
  by rewrite app_assoc_string, E1, app_assoc.
Qed.

(** A text read as one token. *)
Lemma lexes_one c s k v :
  isBlank c = false ->
  (forall tail pos, exists at_ p, lex_one c (s +:+ tail) pos = Ok (Token.mk k v at_, tail, p)) ->
  lexes (String c s) [(k, v)].
Proof.
  intros Hc Hone tail pos. destruct (Hone tail pos) as (at_ & p & E). exists [Token.mk k v at_], p. split; [done |].
  intros fuel ts' H. exists (S fuel). change (String c s +:+ tail) with (String c (s +:+ tail)).
  cbn [tokenize skipSpaces]. rewrite Hc, E. simpl. by rewrite H.
Qed.

Lemma lexes_blank_l s ks : lexes s ks -> lexes (" " +:+ s) ks.
Proof.
  intros H tail pos. destruct (H tail (S pos)) as (ts & p & Hk & Hl). exists ts, p. split; [done |].
  intros fuel ts' Ht. destruct (Hl fuel ts' Ht) as [fuel' E]. exists fuel'.
  destruct fuel'; [done |]. exact E.
Qed.

Lemma lexes_blank : lexes " " [].
Proof. apply (lexes_blank_l ""). apply lexes_nil. Qed.

Lemma readIdent_app w c s pos :
  all_chars isIdentPart w = true -> isIdentPart c = false ->
  exists p, readIdent (w +:+ String c s) pos = (w, String c s, p).
Proof.
  revert pos. induction w as [| x w IH]; intros pos; cbn [all_chars].
  { intros _ Hc. exists pos. simpl. by rewrite Hc. }
  intros [Hx Hw]%andb_true_iff Hc. change (String x w +:+ String c s) with (String x (w +:+ String c s)).
  cbn [readIdent]. rewrite Hx. destruct (IH (S pos) Hw Hc) as [p E]. rewrite E. by exists p.
Qed.

Lemma readString_escape v s pos :
  exists p, readString (escape v +:+ String dquote s) pos = Some (v, s, p).
Proof.
  revert pos. induction v as [| c v IH]; intros pos; [by eexists |].
  cbn [escape]. destruct ((c == dquote) || (c == backslash)) eqn:E.
  - destruct (IH (2 + pos)) as [p Ep]. exists p.
    change (String backslash (String c (escape v)) +:+ String dquote s)
      with (String backslash (String c (escape v +:+ String dquote s))).
    cbn [readString]. by rewrite bool_decide_true, E, Ep.
  - apply orb_false_iff in E as [E1 E2]. destruct (IH (S pos)) as [p Ep]. exists p.
    change (String c (escape v) +:+ String dquote s) with (String c (escape v +:+ String dquote s)).
    cbn [readString]. by rewrite E1, E2, Ep.
Qed.

Lemma lexes_quoted v : lexes (quoted v) [(tokString, v)].
Proof.
  apply lexes_one; [done |]. intros tail pos. destruct (readString_escape v tail (S pos)) as [p E].
  exists p, p. rewrite app_assoc_string. unfold lex_one. simpl.
  change (String dquote "" +:+ tail) with (String dquote tail). by rewrite E.
Qed.

(** A word ends where a character of another kind follows it. *)
Lemma lexes_word w c s ks :
  w <> "" -> all_chars isIdentPart w = true -> isIdentPart c = false ->
  lexes (String c s) ks -> lexes (w +:+ String c s) ((keyword w, w) :: ks).
Proof.
  intros Hne Hw Hc H tail pos. destruct w as [| x w]; [done |].
  destruct (readIdent_app (String x w) c (s +:+ tail) pos Hw Hc) as [p1 E].
  destruct (H tail p1) as (ts & p & Hk & Hl).
  exists (Token.mk (keyword (String x w)) (String x w) pos :: ts), p. split; [by csimpl; rewrite Hk |].
  intros fuel ts' Ht. destruct (Hl fuel ts' Ht) as [fuel' E']. exists (S fuel').
  cbn [all_chars] in Hw. apply andb_true_iff in Hw as [Hx Hw].
  assert (Hlex : lex_one x (w +:+ String c (s +:+ tail)) pos =
    Ok (Token.mk (keyword (String x w)) (String x w) pos, String c (s +:+ tail), p1)).
  { change (String x w +:+ String c (s +:+ tail)) with (String x (w +:+ String c (s +:+ tail))) in E.
    unfold lex_one. rewrite E. unfold isIdentPart in Hx. rewrite Hx. revert Hx. clear.
    by destruct x as [[] [] [] [] [] [] [] []]. }
  rewrite app_assoc_string. change (String c s +:+ tail) with (String c (s +:+ tail)).
  change (String x w +:+ String c (s +:+ tail)) with (String x (w +:+ String c (s +:+ tail))).
  cbn [tokenize skipSpaces]. replace (isBlank x) with false.
  - rewrite Hlex. simpl. change (String c s +:+ tail) with (String c (s +:+ tail)) in E'. by rewrite E'.
  - revert Hx. clear. by destruct x as [[] [] [] [] [] [] [] []].
Qed.

Lemma known_field f :
  isKnownField f = true ->
  f <> "" /\ all_chars isIdentPart f = true /\ keyword f = tokIdent.
Proof.
  unfold isKnownField. intros H.
  repeat (apply orb_true_iff in H as [H | H]); apply bool_decide_eq_true_1 in H; subst f; by vm_compute.
Qed.

Lemma lexes_op op c s :
  op = String c s -> op ∈ ["="; "!="; "~"; "!~"] -> isIdentPart c = false /\ lexes op [(tokOp, op)].
Proof.
  intros ->. rewrite !elem_of_cons, elem_of_nil. intros H.
  repeat destruct H as [[= -> ->] | H]; [.. | done]; (split; [done |]; apply lexes_one; [done |];
    intros tail pos; by repeat eexists).
Qed.

Lemma lexes_field f op v :
  isKnownField f = true -> op ∈ ["="; "!="; "~"; "!~"] ->
  lexes (f +:+ op +:+ quoted v) [(tokIdent, f); (tokOp, op); (tokString, v)].
Proof.
  intros Hf Hop. destruct (known_field f Hf) as (Hne & Hw & Hk). rewrite <- Hk.
  destruct op as [| c s]; [by rewrite !elem_of_cons, elem_of_nil in Hop; naive_solver |].
  destruct (lexes_op _ c s eq_refl Hop) as [Hc Hl].
  change (String c s +:+ quoted v) with (String c (s +:+ quoted v)).
  apply lexes_word; [done .. |].
  change (String c (s +:+ quoted v)) with (String c s +:+ quoted v).
  apply (lexes_app _ _ [_] [_]); [done | apply lexes_quoted].
Qed.

Lemma lexes_keyword w k s ks :
  w <> "" -> all_chars isIdentPart w = true -> keyword w = k -> lexes s ks ->
  lexes (w +:+ " " +:+ s) ((k, w) :: ks).
Proof. intros Hne Hw <- H. apply lexes_word; [done | done | done | by apply lexes_blank_l]. Qed.

Lemma print_lexes k q : well_formed q -> lexes (print k q) (lexemes k q).
Proof.
  assert (Hparen : forall s ks, lexes s ks -> lexes ("(" +:+ s +:+ ")") ((tokLParen, "(") :: ks ++ [(tokRParen, ")")])).
  { intros s ks H. apply (lexes_app "(" _ [_]); [| apply lexes_app; [done |]];
      (apply lexes_one; [done |]; intros tail pos; by repeat eexists). }
  revert k. induction q as [| l IHl r IHr | l IHl r IHr | c IHc | f v | f v | f v | f v]; intros k; simpl.
  - done.
  - intros [Hl Hr].
    assert (H : lexes (print 1 l +:+ " AND " +:+ print 2 r) (lexemes 1 l ++ (tokAnd, "AND") :: lexemes 2 r)).
    { apply lexes_app; [by apply IHl |]. apply (lexes_blank_l ("AND" +:+ " " +:+ print 2 r)).
      apply lexes_keyword; [done .. | by apply IHr]. }
    case_decide; [exact (Hparen _ _ H) | exact H].
  - intros [Hl Hr].
    assert (H : lexes (print 0 l +:+ " OR " +:+ print 1 r) (lexemes 0 l ++ (tokOr, "OR") :: lexemes 1 r)).
    { apply lexes_app; [by apply IHl |]. apply (lexes_blank_l ("OR" +:+ " " +:+ print 1 r)).
      apply lexes_keyword; [done .. | by apply IHr]. }
    case_decide; [exact (Hparen _ _ H) | exact H].
  - intros Hc.
    assert (H : lexes ("NOT " +:+ print 2 c) ((tokNot, "NOT") :: lexemes 2 c)).
    { apply (lexes_keyword "NOT"); [done .. | by apply IHc]. }
    case_decide; [exact (Hparen _ _ H) | exact H].
  - intros [Hf _]. pose proof (lexes_field f "=" v Hf ltac:(set_solver)) as H. case_decide; [exact (Hparen _ _ H) | exact H].
  - intros [Hf _]. pose proof (lexes_field f "!=" v Hf ltac:(set_solver)) as H. case_decide; [exact (Hparen _ _ H) | exact H].
  - intros Hf. pose proof (lexes_field f "~" v Hf ltac:(set_solver)) as H. case_decide; [exact (Hparen _ _ H) | exact H].
  - intros Hf. pose proof (lexes_field f "!~" v Hf ltac:(set_solver)) as H. case_decide; [exact (Hparen _ _ H) | exact H].
Qed.

(** ** Parsing the lexemes of a printed tree *)

Definition parser_keeps (fuel : nat) : Prop := forall ts,
  keeps (parseOr fuel ts) (parseOr (S fuel) ts) /\
  (forall lhs, keeps (orLoop fuel lhs ts) (orLoop (S fuel) lhs ts)) /\
  keeps (parseAnd fuel ts) (parseAnd (S fuel) ts) /\
  (forall lhs, keeps (andLoop fuel lhs ts) (andLoop (S fuel) lhs ts)) /\
  keeps (parseNot fuel ts) (parseNot (S fuel) ts) /\
  keeps (parsePrimary fuel ts) (parsePrimary (S fuel) ts).

(** The equations of the two functions that call themselves. *)
Lemma orLoop_S fuel lhs ts : orLoop (S fuel) lhs ts =
  if Token.kind (cur ts) == tokOr then
    '(rhs, ts) ← parseAnd fuel (advance ts); orLoop fuel (OrNode lhs rhs) ts
  else Ok (lhs, ts).
Proof. done. Qed.

Lemma andLoop_S fuel lhs ts : andLoop (S fuel) lhs ts =
  if Token.kind (cur ts) == tokAnd then
    '(rhs, ts) ← parseNot fuel (advance ts); andLoop fuel (AndNode lhs rhs) ts
  else Ok (lhs, ts).
Proof. done. Qed.

Lemma parseNot_S fuel ts : parseNot (S fuel) ts =
  if Token.kind (cur ts) == tokNot then
    '(child, ts) ← parseNot fuel (advance ts); Ok (NotNode child, ts)
  else parsePrimary fuel ts.
Proof. done. Qed.

Lemma parser_more fuel : parser_keeps fuel.
Proof.
  induction fuel as [| fuel IH]; intros ts; [split_and!; intros; by left |].
  split_and!.
  - cbn [parseOr]. apply keeps_bind; [apply IH | intros [q r]; apply IH].
  - intros lhs. rewrite (orLoop_S fuel), (orLoop_S (S fuel)). case_bool_decide; [| apply keeps_refl].
    apply keeps_bind; [apply IH | intros [q r]; apply IH].
  - cbn [parseAnd]. apply keeps_bind; [apply IH | intros [q r]; apply IH].
  - intros lhs. rewrite (andLoop_S fuel), (andLoop_S (S fuel)). case_bool_decide; [| apply keeps_refl].
    apply keeps_bind; [apply IH | intros [q r]; apply IH].
  - rewrite (parseNot_S fuel), (parseNot_S (S fuel)). case_bool_decide; [| apply IH].
    apply keeps_bind; [apply IH | intros [q r]; apply keeps_refl].
  - cbn [parsePrimary]. case_bool_decide; [| apply keeps_refl].
    apply keeps_bind; [apply IH | intros [q r]; apply keeps_refl].
Qed.

Lemma parseOr_more ts n : keeps (parseOr n ts) (parseOr (S n) ts).
Proof. apply parser_more. Qed.
Lemma orLoop_le n m lhs ts v : n <= m -> orLoop n lhs ts = Ok v -> orLoop m lhs ts = Ok v.
Proof. apply (fuel_ok (fun n => orLoop n lhs ts)). intros k. apply parser_more. Qed.
Lemma parseAnd_le n m ts v : n <= m -> parseAnd n ts = Ok v -> parseAnd m ts = Ok v.
Proof. apply (fuel_ok (fun n => parseAnd n ts)). intros k. apply parser_more. Qed.
Lemma andLoop_le n m lhs ts v : n <= m -> andLoop n lhs ts = Ok v -> andLoop m lhs ts = Ok v.
Proof. apply (fuel_ok (fun n => andLoop n lhs ts)). intros k. apply parser_more. Qed.
Lemma parseNot_le n m ts v : n <= m -> parseNot n ts = Ok v -> parseNot m ts = Ok v.
Proof. apply (fuel_ok (fun n => parseNot n ts)). intros k. apply parser_more. Qed.

(** What each part of the parser reads, with some fuel. *)
Definition reads_or ts q r := exists n, parseOr n ts = Ok (q, r).
Definition or_goes_on lhs ts q r := exists n, orLoop n lhs ts = Ok (q, r).
Definition reads_and ts q r := exists n, parseAnd n ts = Ok (q, r).
Definition and_goes_on lhs ts q r := exists n, andLoop n lhs ts = Ok (q, r).
Definition reads_not ts q r := exists n, parseNot n ts = Ok (q, r).

Lemma reads_or_intro ts lhs r1 q r : reads_and ts lhs r1 -> or_goes_on lhs r1 q r -> reads_or ts q r.
Proof.
  intros [n1 H1] [n2 H2]. exists (S (n1 `max` n2)). cbn [parseOr].
  rewrite (parseAnd_le n1 (n1 `max` n2) _ _ ltac:(lia) H1). simpl. by apply (orLoop_le n2); [lia |].
Qed.

Lemma reads_and_intro ts lhs r1 q r : reads_not ts lhs r1 -> and_goes_on lhs r1 q r -> reads_and ts q r.
Proof.
  intros [n1 H1] [n2 H2]. exists (S (n1 `max` n2)). cbn [parseAnd].
  rewrite (parseNot_le n1 (n1 `max` n2) _ _ ltac:(lia) H1). simpl. by apply (andLoop_le n2); [lia |].
Qed.

Lemma or_stops lhs ts : Token.kind (cur ts) <> tokOr -> or_goes_on lhs ts lhs ts.
Proof. intros H. exists 1. simpl. by rewrite bool_decide_false. Qed.

Lemma and_stops lhs ts : Token.kind (cur ts) <> tokAnd -> and_goes_on lhs ts lhs ts.
Proof. intros H. exists 1. simpl. by rewrite bool_decide_false. Qed.

Lemma or_continues lhs t ts rhs r1 q r :
  Token.kind t = tokOr -> reads_and ts rhs r1 -> or_goes_on (OrNode lhs rhs) r1 q r ->
  or_goes_on lhs (t :: ts) q r.
Proof.
  intros Ht [n1 H1] [n2 H2]. exists (S (n1 `max` n2)). rewrite orLoop_S. simpl. rewrite bool_decide_true by done.
  rewrite (parseAnd_le n1 (n1 `max` n2) _ _ ltac:(lia) H1). simpl. by apply (orLoop_le n2); [lia |].
Qed.

Lemma and_continues lhs t ts rhs r1 q r :
  Token.kind t = tokAnd -> reads_not ts rhs r1 -> and_goes_on (AndNode lhs rhs) r1 q r ->
  and_goes_on lhs (t :: ts) q r.
Proof.
  intros Ht [n1 H1] [n2 H2]. exists (S (n1 `max` n2)). rewrite andLoop_S. simpl. rewrite bool_decide_true by done.
  rewrite (parseNot_le n1 (n1 `max` n2) _ _ ltac:(lia) H1). simpl. by apply (andLoop_le n2); [lia |].
Qed.

Lemma reads_not_not t ts q r :
  Token.kind t = tokNot -> reads_not ts q r -> reads_not (t :: ts) (NotNode q) r.
Proof.
  intros Ht [n H]. exists (S n). rewrite parseNot_S. simpl. rewrite bool_decide_true by done. by rewrite H.
Qed.

Lemma reads_not_paren t t' ts q r :
  Token.kind t = tokLParen -> Token.kind t' = tokRParen -> reads_or ts q (t' :: r) -> reads_not (t :: ts) q r.
Proof.
  intros Ht Ht' [n H]. exists (S (S n)). rewrite parseNot_S. simpl. rewrite Ht.
  change (tokLParen == tokNot) with false. cbv iota. change (tokLParen == tokLParen) with true. cbv iota.
  rewrite H. simpl. unfold expect. simpl. by rewrite Ht'.
Qed.

(** Decide the equalities between constants. *)
Ltac decide_constants :=
  repeat match goal with
  | |- context [bool_decide (?a = ?b)] =>
      let v := eval vm_compute in (bool_decide (a = b)) in
      first [constr_eq v true | constr_eq v false]; change (bool_decide (a = b)) with v
  end; cbn [negb andb orb].

(** The fields' tokens. *)
Lemma reads_field ts q r :
  well_formed q -> strength q = 2 -> (forall c, q <> NotNode c) ->
  lexeme_of <$> ts = lexemes 2 q -> reads_not (ts ++ r) q r.
Proof.
  intros Hwf Hs Hn Hk. exists 2. rewrite parseNot_S.
  destruct q as [| | | c | f v | f v | f v | f v]; try done; [by destruct (Hn c) | ..]; cbn in Hk;
    destruct ts as [| [k1 v1 p1] [| [k2 v2 p2] [| [k3 v3 p3] [|]]]]; try done; unfold lexeme_of in Hk; csimpl in Hk; simplify_eq;
    cbn [app cur Token.kind parsePrimary]; decide_constants;
    unfold parseField; cbn [cur advance tl Token.kind Token.value]; decide_constants.
  1, 2: destruct Hwf as [Hf Hm]; rewrite Hf, (bool_decide_false (f = "message")) by done; done.
  all: cbn in Hwf; rewrite Hwf; by destruct (bool_decide (f = "message")).
Qed.

(** The tokens of a printed tree, at the three levels, are read as that tree. *)
Definition read_at_2 q := forall ts rest,
  lexeme_of <$> ts = lexemes 2 q -> reads_not (ts ++ rest) q rest.
Definition read_at_1 q := forall ts rest q' r,
  lexeme_of <$> ts = lexemes 1 q -> and_goes_on q rest q' r -> reads_and (ts ++ rest) q' r.
Definition read_at_0 q := forall ts rest q' r,
  lexeme_of <$> ts = lexemes 0 q -> Token.kind (cur rest) <> tokAnd -> or_goes_on q rest q' r ->
  reads_or (ts ++ rest) q' r.

Lemma read_1_of_2 q : lexemes 1 q = lexemes 2 q -> read_at_2 q -> read_at_1 q.
Proof. intros E H ts rest q' r Hk. apply reads_and_intro, H. by rewrite <- E. Qed.

Lemma read_0_of_1 q : lexemes 0 q = lexemes 1 q -> read_at_1 q -> read_at_0 q.
Proof. intros E H ts rest q' r Hk Hc. apply reads_or_intro, H; [by rewrite <- E | by apply and_stops]. Qed.

Lemma lexeme_kind t k v : (k, v) = lexeme_of t -> Token.kind t = k.
Proof. by intros [= -> ->]. Qed.

Lemma read_2_of_0 q :
  lexemes 2 q = (tokLParen, "(") :: lexemes 0 q ++ [(tokRParen, ")")] -> read_at_0 q -> read_at_2 q.
Proof.
  intros E H ts rest Hk. rewrite E in Hk.
  apply fmap_cons_inv in Hk as (t1 & ts1 & Ht1 & Hk & ->).
  symmetry in Hk. apply fmap_app_inv in Hk as (ts2 & ts3 & Hk2 & Hk3 & ->).
  destruct ts3 as [| t3 [|]]; try done. csimpl in Hk3. injection Hk3 as Ht3 Hv3.
  change ((t1 :: ts2 ++ [t3]) ++ rest) with (t1 :: ((ts2 ++ [t3]) ++ rest)). rewrite <- app_assoc.
  apply (reads_not_paren t1 t3); [by eapply lexeme_kind | done |].
  apply H; [done | simpl; congruence | apply or_stops; simpl; congruence].
Qed.

Lemma lexemes_split ts l k x r :
  lexeme_of <$> ts = l ++ (k, x) :: r ->
  exists ts1 t ts2, ts = ts1 ++ t :: ts2 /\ lexeme_of <$> ts1 = l /\ Token.kind t = k /\ lexeme_of <$> ts2 = r.
Proof.
  intros H. apply fmap_app_inv in H as (ts1 & ts2 & -> & H2 & ->).
  symmetry in H2. apply fmap_cons_inv in H2 as (t & ts3 & Ht & -> & ->).
  exists ts1, t, ts3. split_and!; [done | done | by eapply lexeme_kind | done].
Qed.

Lemma printed_reads q : well_formed q -> read_at_0 q /\ read_at_1 q /\ read_at_2 q.
Proof.
  assert (Hleaf : forall q, strength q = 2 -> lexemes 0 q = lexemes 2 q -> lexemes 1 q = lexemes 2 q ->
            read_at_2 q -> read_at_0 q /\ read_at_1 q /\ read_at_2 q).
  { intros q' _ E0 E1 H. assert (read_at_1 q') by by apply read_1_of_2.
    split_and!; [apply read_0_of_1; [congruence | done] | done | done]. }
  induction q as [| l IHl r IHr | l IHl r IHr | c IHc | f v | f v | f v | f v]; [done | | | | ..];
    [| | | intros Hwf; apply Hleaf; [done .. |]; intros ts rest Hk; by apply reads_field ..].
  - intros [Hl Hr]. destruct (IHl Hl) as (_ & Hl1 & _), (IHr Hr) as (_ & _ & Hr2).
    assert (H1 : read_at_1 (AndNode l r)).
    { intros ts rest q' r' Hk Hgo. change (lexemes 1 (AndNode l r)) with (lexemes 1 l ++ (tokAnd, "AND") :: lexemes 2 r) in Hk.
      apply lexemes_split in Hk as (ts1 & t & ts2 & -> & Hk1 & Ht & Hk2). rewrite <- app_assoc.
      apply (Hl1 ts1); [done |]. apply (and_continues l t (ts2 ++ rest) r rest); [done | by apply Hr2 | done]. }
    assert (H0 : read_at_0 (AndNode l r)) by by apply read_0_of_1.
    split_and!; [done | done | by apply read_2_of_0].
  - intros [Hl Hr]. destruct (IHl Hl) as (Hl0 & _ & _), (IHr Hr) as (_ & Hr1 & _).
    assert (H0 : read_at_0 (OrNode l r)).
    { intros ts rest q' r' Hk Hc Hgo. change (lexemes 0 (OrNode l r)) with (lexemes 0 l ++ (tokOr, "OR") :: lexemes 1 r) in Hk.
      apply lexemes_split in Hk as (ts1 & t & ts2 & -> & Hk1 & Ht & Hk2). rewrite <- app_assoc.
      apply (Hl0 ts1); [done | simpl; congruence |].
      apply (or_continues l t (ts2 ++ rest) r rest); [done | | done]. apply Hr1; [done | by apply and_stops]. }
    assert (H2 : read_at_2 (OrNode l r)) by by apply read_2_of_0.
    split_and!; [done | by apply read_1_of_2 | done].
  - intros Hc. destruct (IHc Hc) as (_ & _ & Hc2). apply Hleaf; [done .. |]. intros ts rest Hk.
    apply fmap_cons_inv in Hk as (t & ts1 & Ht & Hk & ->). apply (reads_not_not t); [by eapply lexeme_kind | by apply Hc2].
Qed.

Lemma print_not_blank k q : well_formed q -> all_chars isSpace (print k q) = false.
Proof.
  assert (Hparen : forall s, all_chars isSpace ("(" +:+ s) = false) by done.
  assert (Hfield : forall f s, isKnownField f = true -> all_chars isSpace (f +:+ s) = false).
  { intros f s Hf. rewrite all_chars_app. destruct (known_field f Hf) as (_ & Hw & _).
    destruct f as [| c f]; [done |]. cbn [all_chars] in *. apply andb_true_iff in Hw as [Hc _].
    replace (isSpace c) with false; [done |]. revert Hc. clear. by destruct c as [[] [] [] [] [] [] [] []]. }
  revert k. induction q as [| l IHl r IHr | l IHl r IHr | c IHc | f v | f v | f v | f v];
    intros k Hwf; simpl in Hwf; try done; cbn [print]; case_decide; try apply Hparen.
  - rewrite all_chars_app. destruct Hwf as [Hl _]. by rewrite IHl.
  - rewrite all_chars_app. destruct Hwf as [Hl _]. by rewrite IHl.
  - done.
  - destruct Hwf. by apply Hfield.
  - destruct Hwf. by apply Hfield.
  - by apply Hfield.
  - by apply Hfield.
Qed.

(** C34: printing with parentheses only where precedence ([NOT] over [AND] over
    [OR]) and left associativity need them, and values in quotes with the quote
    and the backslash escaped, is undone by parsing: every well-formed query
    over any values can be written, and its text means it and nothing else. *)
Theorem parse_print q : well_formed q -> ParseQuery (print 0 q) = Ok q.
Proof.
  intros Hwf. unfold ParseQuery. rewrite print_not_blank by done.
  destruct (print_lexes 0 q Hwf "" 0) as (ts & p & Hk & Hlex). set (eof := Token.mk tokEOF "" p).
  destruct (Hlex 1 [eof] eq_refl) as [n Hn]. rewrite app_nil_r_string in Hn.
  rewrite (fuel_enough (fun n => tokenize n (print 0 q) 0) n _ (ts ++ [eof]));
    [| intros; apply tokenize_more | apply tokenize_fuel; unfold lex_fuel; lia | done].
  cbn [mbind result_bind]. unfold parse_tokens.
  destruct (printed_reads q Hwf) as [H0 _].
  destruct (H0 ts [eof] q [eof] Hk) as [m Hm]; [done | by apply or_stops |].
  rewrite (fuel_enough (fun n => parseOr n (ts ++ [eof])) m _ (q, [eof])); [done | | | done].
  - intros k. apply parseOr_more.
  - destruct (parser_fuel (parse_fuel (ts ++ [eof])) (ts ++ [eof])) as [H _]. unfold parse_fuel in *.
    intros E. rewrite E in H. by apply (H ltac:(lia)).
Qed.

Definition ex_query : QueryNode :=
  AndNode (FieldEq "source" "task")
    (OrNode (FieldNotEq "level" (String dquote "hi"))
       (NotNode (AndNode (FieldContains "message" (String backslash "b")) (FieldEq "task" "")))).

Lemma parse_print_witness : ParseQuery (print 0 ex_query) = Ok ex_query.
Proof.
  apply parse_print. repeat split; discriminate.
Defined.
