(* ===== verification/Fulltext.v ===== *)
(** * Full-text index ([internal/fulltext])

    The tokenizer, the inverted index and the searches.  Documents are
    identified by a type [K] with an order; [ToLower] is [strings.ToLower], whose
    Unicode tables are not modelled, and [log10] is [math.Log10]; both are
    arbitrary.  Go visits a map in an arbitrary order: the loops of [Add] and
    [removeLocked] touch a different entry in each turn, and the results of the
    searches are sorted, so a fixed order stands for it. *)

From Stdlib Require Import Ascii.
From S2P Require Import GoStrings Float64 Prelude.
Open Scope go_scope.

(** ** Runes *)

Abbreviation rune := N.

Definition rune_error : rune := 65533%N.

(** [b] is between [lo] and [hi]. *)
Definition byte_in (lo hi : N) (b : ascii) : bool := (lo <=? N_of_ascii b)%N && (N_of_ascii b <=? hi)%N.
(** The payload of a continuation byte. *)
Definition cont (b : ascii) : N := (N_of_ascii b - 128)%N.

(** The range of the second byte after a lead byte, and the number of bytes. *)
Definition lead (n : N) : option (N * N * nat) :=
  if (n <? 194)%N then None
  else if (n <=? 223)%N then Some (128%N, 191%N, 2)
  else if (n =? 224)%N then Some (160%N, 191%N, 3)
  else if (n =? 237)%N then Some (128%N, 159%N, 3)
  else if (n <=? 239)%N then Some (128%N, 191%N, 3)
  else if (n =? 240)%N then Some (144%N, 191%N, 4)
  else if (n <=? 243)%N then Some (128%N, 191%N, 4)
  else if (n =? 244)%N then Some (128%N, 143%N, 4)
  else None.

(** The first rune of a text that starts with [c], and the rest: a byte that
    starts no well-formed sequence is an error of width one. *)
Definition decode_rune (c : ascii) (s : string) : rune * string :=
  let n := N_of_ascii c in
  if (n <? 128)%N then (n, s)
  else
    match lead n, s with
    | Some (lo, hi, 2), String b1 r =>
        if byte_in lo hi b1 then ((n - 192) * 64 + cont b1, r)%N else (rune_error, s)
    | Some (lo, hi, 3), String b1 (String b2 r) =>
        if byte_in lo hi b1 && byte_in 128 191 b2
        then (((n - 224) * 64 + cont b1) * 64 + cont b2, r)%N else (rune_error, s)
    | Some (lo, hi, 4), String b1 (String b2 (String b3 r)) =>
        if byte_in lo hi b1 && byte_in 128 191 b2 && byte_in 128 191 b3
        then ((((n - 240) * 64 + cont b1) * 64 + cont b2) * 64 + cont b3, r)%N else (rune_error, s)
    | _, _ => (rune_error, s)
    end.

Fixpoint runes_go (fuel : nat) (s : string) : list rune :=
  match fuel, s with
  | S fuel, String c s => let (r, rest) := decode_rune c s in r :: runes_go fuel rest
  | _, _ => []
  end.

(** [for _, r := range s] and [[]rune(s)]; at most one rune per byte. *)
Definition runes (s : string) : list rune := runes_go (String.length s) s.

Definition byte (n : N) : string := String (ascii_of_N n) "".

(** [string(r)] and [WriteRune(r)]. *)
Definition encode_rune (r : rune) : string :=
  if (r <? 128)%N then byte r
  else if (r <? 2048)%N then byte (192 + r / 64) +:+ byte (128 + r mod 64)
  else if (r <? 65536)%N then
    byte (224 + r / 4096) +:+ byte (128 + (r / 64) mod 64) +:+ byte (128 + r mod 64)
  else byte (240 + r / 262144) +:+ byte (128 + (r / 4096) mod 64) +:+ byte (128 + (r / 64) mod 64) +:+ byte (128 + r mod 64).

(** ** Tokenizer *)

Definition rune_in (lo hi : N) (r : rune) : bool := (lo <=? r)%N && (r <=? hi)%N.
Definition isASCIILetter (r : rune) : bool := rune_in 97 122 r || rune_in 65 90 r.
Definition isASCIIDigit (r : rune) : bool := rune_in 48 57 r.
Definition isCJK (r : rune) : bool := rune_in 19968 40959 r || rune_in 13312 19903 r || rune_in 63744 64255 r.

(** [unicode.ToLower] on the runes that make tokens: ideographs have no case. *)
Definition lower_rune (r : rune) : rune := if rune_in 65 90 r then (r + 32)%N else r.

Definition flush (word : string) (tokens : list string) : list string :=
  if word == "" then tokens else tokens ++ [word].

(** The loop over the runes: the tokens so far and the word being built. *)
Definition tokenize_rune (st : list string * string) (r : rune) : list string * string :=
  let (tokens, word) := st in
  if isASCIILetter r || isASCIIDigit r || (r =? 95)%N then (tokens, word +:+ encode_rune (lower_rune r))
  else if isCJK r then (flush word tokens ++ [encode_rune (lower_rune r)], "")
  else (flush word tokens, "").

Definition Tokenize (text : string) : list string :=
  let (tokens, word) := foldl tokenize_rune ([], "") (runes text) in flush word tokens.

(** ** Index *)

Section index.
Context {K : Type} `{Countable K} (less : K -> K -> bool).
Context (ToLower : string -> string) (log10 : float64 -> float64).

Record indexedDoc := mk_doc { doc_tokens : list string; doc_tf : gmap string nat; doc_length : nat }.

Record posting := mk_posting { posting_docID : K; posting_tf : nat; positions : list nat }.

Abbreviation postingsList := (gmap K posting).

Record Index := mk_index {
  docs : gmap K indexedDoc;
  postings : gmap string postingsList;
  docCount : Z;
  (** the cached terms in order; [None] is the nil slice *)
  sorted : option (list string);
  sortedDirty : bool;
}.

Definition NewIndex : Index := mk_index ∅ ∅ 0 None false.

Definition set_postings v d idx := mk_index (docs idx) v (docCount idx) (sorted idx) d.

(** The frequencies and positions of the terms of a document. *)
Definition count_token (tf : gmap string nat) (tok : string) : gmap string nat :=
  <[tok := S (default 0 (tf !! tok))]> tf.
Definition frequencies (tokens : list string) : gmap string nat := foldl count_token ∅ tokens.

Definition note_position (pos : gmap string (list nat)) (it : nat * string) : gmap string (list nat) :=
  <[it.2 := default [] (pos !! it.2) ++ [it.1]]> pos.
Definition term_positions (tokens : list string) : gmap string (list nat) :=
  foldl note_position ∅ (imap pair tokens).

(** The loop of [removeLocked] over the document's terms. *)
Definition remove_term (docID : K) (idx : Index) (tok : string) : Index :=
  match postings idx !! tok with
  | None => idx
  | Some pl =>
      let pl := delete docID pl in
      if size pl == 0 then set_postings (delete tok (postings idx)) true idx
      else set_postings (<[tok := pl]> (postings idx)) (sortedDirty idx) idx
  end.

Definition removeLocked (docID : K) (idx : Index) : Index :=
  match docs idx !! docID with
  | None => idx
  | Some doc =>
      let idx := foldl (remove_term docID) idx (map_to_list (doc_tf doc)).*1 in
      mk_index (delete docID (docs idx)) (postings idx) (docCount idx - 1) (sorted idx) (sortedDirty idx)
  end.

Definition Remove (docID : K) (idx : Index) : Index := removeLocked docID idx.

(** The second loop of [Add]. *)
Definition add_term (docID : K) (idx : Index) (it : string * list nat) : Index :=
  let (tok, ps) := it in
  let p := mk_posting docID (length ps) ps in
  match postings idx !! tok with
  | Some pl => set_postings (<[tok := <[docID := p]> pl]> (postings idx)) (sortedDirty idx) idx
  | None => set_postings (<[tok := {[docID := p]}]> (postings idx)) true idx
  end.

Definition Add (docID : K) (text : string) (idx : Index) : Index :=
  let tokens := Tokenize text in
  let idx := match docs idx !! docID with Some _ => removeLocked docID idx | None => idx end in
  let doc := mk_doc tokens (frequencies tokens) (length tokens) in
  let idx := mk_index (<[docID := doc]> (docs idx)) (postings idx) (docCount idx + 1) (sorted idx) (sortedDirty idx) in
  foldl (add_term docID) idx (map_to_list (term_positions tokens)).

Definition Size (idx : Index) : Z := docCount idx.

(** The cache is rebuilt when it is stale. *)
Definition sortedTermsLocked (idx : Index) : Index * list string :=
  match sortedDirty idx, sorted idx with
  | false, Some l => (idx, l)
  | _, _ =>
      let l := sort_strings (map_to_list (postings idx)).*1 in
      (mk_index (docs idx) (postings idx) (docCount idx) (Some l) false, l)
  end.

Definition Terms (idx : Index) : Index * list string := sortedTermsLocked idx.

Definition tfidfLocked (tf df : nat) (idx : Index) : float64 :=
  if (docCount idx =? 0)%Z || (df == 0) then f_zero
  else
    let tfVal := if decide (1 < tf) then f_add f_one (log10 (f_of_int (Z.of_nat tf))) else f_one in
    let idfVal := log10 (f_div (f_of_int (docCount idx)) (f_of_int (Z.of_nat df))) in
    f_mul tfVal idfVal.

(** ** Searches *)

Abbreviation scoredDoc := (K * float64)%type.

Definition scored_before (a b : scoredDoc) : bool :=
  if negb (f_eq a.2 b.2) then f_lt b.2 a.2 else less a.1 b.1.

Definition sortScored (hits : list scoredDoc) : list scoredDoc := stable_sort scored_before hits.
Definition scoredToIDs (hits : list scoredDoc) : list K := hits.*1.

(** The documents of a term with their scores. *)
Definition score_all (pl : postingsList) (idx : Index) : list scoredDoc :=
  (fun kp => (kp.1, tfidfLocked (posting_tf kp.2) (size pl) idx)) <$> map_to_list pl.

Definition Search (term : string) (idx : Index) : list K :=
  match postings idx !! ToLower term with
  | None => []
  | Some pl => if size pl == 0 then [] else scoredToIDs (sortScored (score_all pl idx))
  end.

(** [scores[docID] += s] for the documents of a term. *)
Definition add_scores (idx : Index) (scores : gmap K float64) (pl : postingsList) : gmap K float64 :=
  foldl (fun m ks => <[ks.1 := f_add (default f_zero (m !! ks.1)) ks.2]> m) scores (score_all pl idx).

(** The terms from the first one not less than the prefix on, while they have it. *)
Fixpoint prefix_terms (prefix : string) (terms : list string) : list string :=
  match terms with
  | [] => []
  | t :: terms => if HasPrefix prefix t then t :: prefix_terms prefix terms else []
  end.
(** [terms[sort.SearchStrings(terms, s):]]: the binary search finds the first
    element of a sorted list that is not less than [s]. *)
Fixpoint from_first_ge (s : string) (terms : list string) : list string :=
  match terms with
  | [] => []
  | t :: rest => if str_lt t s then from_first_ge s rest else terms
  end.

Definition SearchPrefix (prefix : string) (idx : Index) : Index * list K :=
  let prefix := ToLower prefix in
  if prefix == "" then (idx, [])
  else
    let (idx, terms) := sortedTermsLocked idx in
    let scores := foldl (fun scores t =>
      match postings idx !! t with None => scores | Some pl => add_scores idx scores pl end)
      ∅ (prefix_terms prefix (from_first_ge prefix terms)) in
    if size scores == 0 then (idx, [])
    else (idx, scoredToIDs (sortScored (map_to_list scores))).

Definition containsInt (s : list nat) (v : nat) : bool := existsb (fun x => x == v) s.

(** The positions of the tokens in a document; [None] when one is missing. *)
Fixpoint phrase_positions (docID : K) (tokens : list string) (idx : Index) : option (list (list nat)) :=
  match tokens with
  | [] => Some []
  | tok :: tokens =>
      pl ← postings idx !! tok; p ← pl !! docID;
      ps ← phrase_positions docID tokens idx; Some (positions p :: ps)
  end.

Definition hasPhraseLocked (docID : K) (tokens : list string) (idx : Index) : bool :=
  match phrase_positions docID tokens idx with
  | None => false
  | Some [] => false
  | Some (first :: rest) =>
      existsb (fun start => forallb id (imap (fun i ps => containsInt ps (start + S i)) rest)) first
  end.

Definition SearchPhrase (phrase : string) (idx : Index) : list K :=
  match Tokenize phrase with
  | [] => []
  | [tok] => Search tok idx
  | (tok :: _) as tokens =>
      match postings idx !! tok with
      | None => []
      | Some first =>
          scoredToIDs (sortScored (List.filter (fun ks => hasPhraseLocked ks.1 tokens idx) (score_all first idx)))
      end
  end.

(** The score of a document that has all the terms. *)
Fixpoint score_and (docID : K) (norm : list string) (score : float64) (idx : Index) : option float64 :=
  match norm with
  | [] => Some score
  | tok :: norm =>
      pl ← postings idx !! tok; p ← pl !! docID;
      score_and docID norm (f_add score (tfidfLocked (posting_tf p) (size pl) idx)) idx
  end.

Definition SearchAnd (terms : list string) (idx : Index) : list K :=
  match ToLower <$> terms with
  | [] => []
  | (tok :: _) as norm =>
      match postings idx !! tok with
      | None => []
      | Some first =>
          scoredToIDs (sortScored (omap (fun docID => score ← score_and docID norm f_zero idx; Some (docID, score))
            (map_to_list first).*1))
      end
  end.

Definition SearchOr (terms : list string) (idx : Index) : list K :=
  if length terms == 0 then []
  else
    let scores := foldl (fun scores t =>
      match postings idx !! t with None => scores | Some pl => add_scores idx scores pl end)
      ∅ (ToLower <$> terms) in
    scoredToIDs (sortScored (map_to_list scores)).

Definition SearchNot (term : string) (idx : Index) : list K :=
  let excluded := postings idx !! ToLower term in
  stable_sort less (List.filter (fun docID =>
    match excluded with None => true | Some pl => if pl !! docID is Some _ then false else true end)
    (map_to_list (docs idx)).*1).

(** ** Wildcards *)

Fixpoint skip_stars (p : list rune) : list rune :=
  match p with
  | 42%N :: p' => skip_stars p'
  | _ => p
  end.

(** [t], its tail, and so on to the empty list. *)
Fixpoint suffixes (t : list rune) : list (list rune) :=
  match t with
  | [] => [[]]
  | _ :: t' => t :: suffixes t'
  end.

(** The pattern from [pi] on and the text from [ti] on; fuel bounds the pattern. *)
Fixpoint wildcardMatch (fuel : nat) (p t : list rune) : bool :=
  match fuel with
  | 0 => false
  | S fuel =>
      match p with
      | [] => length t == 0
      | 42%N :: _ =>
          match skip_stars p with
          | [] => true
          | p' => existsb (wildcardMatch fuel p') (suffixes t)
          end
      | 63%N :: p' => match t with [] => false | _ :: t' => wildcardMatch fuel p' t' end
      | c :: p' => match t with [] => false | d :: t' => (c == d) && wildcardMatch fuel p' t' end
      end
  end.

Definition matchWildcard (pattern s : string) : bool :=
  wildcardMatch (S (length (runes pattern))) (runes pattern) (runes s).

Definition has_wildcard (pattern : string) : bool := ContainsChar "*" pattern || ContainsChar "?" pattern.

Definition SearchWildcard (pattern : string) (idx : Index) : list K :=
  let pattern := ToLower pattern in
  if pattern == "" then []
  else if negb (has_wildcard pattern) then Search pattern idx
  else
    scoredToIDs (sortScored (flat_map (fun tp : string * postingsList =>
      if matchWildcard pattern tp.1 then score_all tp.2 idx else []) (map_to_list (postings idx)))).
End index.
