(* ===== verification/FulltextProps.v ===== *)
(** * Properties of the full-text index

    After any sequence of additions and removals the index holds exactly the
    terms of the current documents ([represents]); the searches then find exactly
    the documents they describe. *)

From Stdlib Require Import Ascii.
From S2P Require Import GoStrings Float64 Prelude Fulltext.
Open Scope go_scope.

(** ** Terms of a document *)

Lemma frequencies_dom tokens tok : is_Some (frequencies tokens !! tok) <-> tok ∈ tokens.
Proof.
  unfold frequencies. induction tokens as [| t tokens IH] using rev_ind.
  { simpl. rewrite lookup_empty. split; [by intros [] | by intros ?%elem_of_nil]. }
  rewrite foldl_snoc, elem_of_app, list_elem_of_singleton, <- IH. unfold count_token.
  destruct (decide (t = tok)) as [-> | Hne].
  - rewrite lookup_insert_eq. split; [by right | by eexists].
  - rewrite lookup_insert_ne by done. split; [by left | intros [? | ->]; done].
Qed.

(** The positions of a token, counted from [n]. *)
Fixpoint positions_from (n : nat) (tok : string) (tokens : list string) : list nat :=
  match tokens with
  | [] => []
  | t :: tokens => if t == tok then n :: positions_from (S n) tok tokens else positions_from (S n) tok tokens
  end.

Lemma elem_of_positions n tok tokens i :
  i ∈ positions_from n tok tokens <-> n <= i /\ tokens !! (i - n) = Some tok.
Proof.
  revert n. induction tokens as [| t tokens IH]; intros n; simpl.
  { split; [by intros ?%elem_of_nil | by intros []]. }
  assert (Hrec : i ∈ positions_from (S n) tok tokens <-> n < i /\ (t :: tokens) !! (i - n) = Some tok).
  { rewrite IH. destruct (decide (n < i)) as [Hi |]; [| split; intros []; lia].
    replace (i - n) with (S (i - S n)) by lia. done. }
  case_bool_decide as Ht; [rewrite elem_of_cons |]; rewrite Hrec.
  - split; [intros [-> | [? ?]]; [by rewrite Nat.sub_diag; simpl; subst | split; [lia | done]] |].
    intros [Hle Hl]. destruct (decide (i = n)) as [-> |]; [by left | right; split; [lia | done]].
  - split; intros [Hle Hl]; (split; [| done]); [lia |].
    destruct (decide (i = n)) as [-> |]; [| lia]. rewrite Nat.sub_diag in Hl. by simplify_eq/=.
Qed.

Lemma term_positions_lookup tokens tok :
  term_positions tokens !! tok =
    if decide (tok ∈ tokens) then Some (positions_from 0 tok tokens) else None.
Proof.
  unfold term_positions.
  assert (H : forall n acc, foldl note_position acc (imap (fun i t => (n + i, t)) tokens) !! tok =
    if decide (tok ∈ tokens) then Some (default [] (acc !! tok) ++ positions_from n tok tokens) else acc !! tok).
  { induction tokens as [| t tokens IH]; intros n acc.
    { rewrite decide_False; [done | by intros ?%elem_of_nil]. }
    rewrite imap_cons. cbn [foldl positions_from].
    rewrite (imap_ext _ (fun i t => (S n + i, t))) by (intros; unfold compose; f_equal; lia).
    rewrite IH. unfold note_position. cbn [fst snd]. rewrite Nat.add_0_r.
    destruct (decide (t = tok)) as [-> | Hne].
    - rewrite bool_decide_true, lookup_insert_eq by done.
      rewrite (decide_True (P := tok ∈ tok :: tokens)) by left. cbn [default].
      case_decide as Hin; [unfold id; by rewrite <- app_assoc |].
      replace (positions_from (S n) tok tokens) with (@nil nat); [done |].
      symmetry. destruct (positions_from (S n) tok tokens) as [| i l] eqn:E; [done |]. exfalso. apply Hin.
      assert (Hi : i ∈ positions_from (S n) tok tokens) by (rewrite E; left).
      apply elem_of_positions in Hi as [_ Hi]. by apply list_elem_of_lookup_2 in Hi.
    - rewrite bool_decide_false, lookup_insert_ne by done.
      destruct (decide (tok ∈ tokens)) as [Hin | Hin].
      + by rewrite decide_True by (by right).
      + rewrite decide_False; [done |]. intros [-> | ?]%elem_of_cons; done. }
  specialize (H 0 ∅). simpl in H. rewrite lookup_empty in H. exact H.
Qed.

(** The keys of a map. *)
Lemma elem_of_keys `{Countable K} {A} (m : gmap K A) k : k ∈ (map_to_list m).*1 <-> is_Some (m !! k).
Proof.
  rewrite list_elem_of_fmap. split.
  - intros ([t x] & -> & Hx). apply elem_of_map_to_list in Hx. by exists x.
  - intros [x Hx]. exists (k, x). split; [done | by apply elem_of_map_to_list].
Qed.

(** ** The index of a set of documents *)

Section index.
Context {K : Type} `{Countable K}.

Abbreviation Index := (Index (K := K)).

Definition doc_of (text : string) : indexedDoc :=
  mk_doc (Tokenize text) (frequencies (Tokenize text)) (length (Tokenize text)).

(** What the index holds about a term and a document with this text. *)
Definition posting_of (k : K) (tok text : string) : option posting :=
  if decide (tok ∈ Tokenize text) then
    let ps := positions_from 0 tok (Tokenize text) in Some (mk_posting k (length ps) ps)
  else None.

Definition entry (idx : Index) (tok : string) (k : K) : option posting :=
  postings idx !! tok ≫= fun pl => pl !! k.

Definition no_empty (idx : Index) : Prop := map_Forall (fun _ pl => pl <> ∅) (postings idx).

Record represents (idx : Index) (m : gmap K string) : Prop := {
  rep_docs : docs idx = doc_of <$> m;
  rep_entry : forall tok k, entry idx tok k = m !! k ≫= posting_of k tok;
  rep_no_empty : no_empty idx;
  rep_count : docCount idx = Z.of_nat (size m);
  rep_cache : sortedDirty idx = false -> forall l, sorted idx = Some l ->
    l = sort_strings (elements (dom (postings idx)));
}.

Lemma represents_new : represents NewIndex ∅.
Proof.
  split; simpl; [by rewrite fmap_empty | done | apply map_Forall_empty | done | done].
Qed.

(** What a loop over some terms changes: the entries of one document for these
    terms; the cache stays valid, or is marked stale. *)
Record edited (docID : K) (idx idx' : Index) (f : string -> option posting -> option posting) : Prop := {
  ed_docs : docs idx' = docs idx;
  ed_count : docCount idx' = docCount idx;
  ed_sorted : sorted idx' = sorted idx;
  ed_entry : forall tok k, entry idx' tok k = if decide (k = docID) then f tok (entry idx tok k) else entry idx tok k;
  ed_no_empty : no_empty idx';
  ed_dirty : sortedDirty idx' = false -> sortedDirty idx = false /\ dom (postings idx') = dom (postings idx);
}.

Lemma edited_refl docID idx : no_empty idx -> edited docID idx idx (fun _ o => o).
Proof. intros. split; try done. intros tok k. by case_decide. Qed.

Lemma edited_trans docID idx idx1 idx2 f g :
  edited docID idx idx1 f -> edited docID idx1 idx2 g -> edited docID idx idx2 (fun tok o => g tok (f tok o)).
Proof.
  intros [Hd Hc Hs He Hn Hst] [Hd' Hc' Hs' He' Hn' Hst']. split; [congruence .. | | done |].
  - intros tok k. rewrite He', He. by case_decide.
  - intros Hf. destruct (Hst' Hf) as [H1 H2]. destruct (Hst H1). split; [done | congruence].
Qed.

Lemma edited_ext docID idx idx' f g :
  edited docID idx idx' f -> (forall tok, f tok (entry idx tok docID) = g tok (entry idx tok docID)) ->
  edited docID idx idx' g.
Proof.
  intros [] Hfg. split; [done .. | | done | done].
  intros tok k. rewrite ed_entry0. case_decide as Hk; [by subst | done].
Qed.

(** Setting the list of one term to a map that differs at one document. *)
Lemma edited_set docID idx tok pl o d :
  no_empty idx -> pl <> ∅ ->
  (forall k, pl !! k = if decide (k = docID) then o else entry idx tok k) ->
  (d = false -> sortedDirty idx = false /\ is_Some (postings idx !! tok)) ->
  edited docID idx (set_postings (<[tok := pl]> (postings idx)) d idx)
    (fun tok' o' => if decide (tok' = tok) then o else o').
Proof.
  intros Hne Hpl Hk Hd. split; try done; simpl.
  - intros tok' k. unfold entry. simpl. destruct (decide (tok' = tok)) as [-> | Ht].
    + rewrite lookup_insert_eq. simpl. rewrite Hk. done.
    + rewrite lookup_insert_ne by done. by case_decide.
  - by apply map_Forall_insert_2.
  - intros Hf. destruct (Hd Hf) as [H1 H2]. split; [done |]. rewrite dom_insert_L.
    apply elem_of_dom in H2. set_solver.
Qed.

Lemma remove_term_edited docID idx tok :
  no_empty idx ->
  edited docID idx (remove_term docID idx tok) (fun tok' o => if decide (tok' = tok) then None else o).
Proof.
  intros Hne. unfold remove_term. destruct (postings idx !! tok) as [pl |] eqn:Epl; last first.
  { eapply edited_ext; [by apply edited_refl |]. intros tok'. simpl. case_decide; [| done].
    subst. unfold entry. by rewrite Epl. }
  case_bool_decide as Hz.
  - apply map_size_empty_inv in Hz. split; try done; simpl.
    + intros tok' k. unfold entry. simpl. destruct (decide (tok' = tok)) as [-> | Ht].
      * rewrite lookup_delete_eq, Epl. simpl. case_decide as Hk; [done |].
        by rewrite <- (lookup_delete_ne pl docID k), Hz by done.
      * rewrite lookup_delete_ne by done. by case_decide.
    + by apply map_Forall_delete.
  - apply edited_set; [done | | |].
    + intros E. by rewrite E in Hz.
    + intros k. unfold entry. rewrite Epl. simpl. case_decide as Hk; [subst; apply lookup_delete_eq |].
      by apply lookup_delete_ne.
    + intros Hd. by rewrite Epl.
Qed.

Lemma remove_terms_edited docID idx toks :
  no_empty idx ->
  edited docID idx (foldl (remove_term docID) idx toks) (fun tok' o => if decide (tok' ∈ toks) then None else o).
Proof.
  revert idx. induction toks as [| tok toks IH]; intros idx Hne; cbn [foldl].
  { eapply edited_ext; [by apply edited_refl |]. intros tok'. cbv beta.
    case_decide as E; [by apply elem_of_nil in E | done]. }
  pose proof (remove_term_edited docID idx tok Hne) as H1.
  pose proof (edited_trans _ _ _ _ _ _ H1 (IH _ (ed_no_empty _ _ _ _ H1))) as H2.
  eapply edited_ext; [exact H2 |]. intros tok'. cbv beta.
  destruct (decide (tok' ∈ toks)), (decide (tok' = tok)), (decide (tok' ∈ tok :: toks)); set_solver.
Qed.

Lemma add_term_edited docID idx it :
  no_empty idx ->
  edited docID idx (add_term docID idx it)
    (fun tok' o => if decide (tok' = it.1) then Some (mk_posting docID (length it.2) it.2) else o).
Proof.
  intros Hne. destruct it as [tok ps]. unfold add_term. simpl.
  destruct (postings idx !! tok) as [pl |] eqn:Epl; apply edited_set; try done.
  - apply insert_non_empty.
  - intros k. unfold entry. rewrite Epl. simpl. case_decide as Hk; [subst; apply lookup_insert_eq |].
    by apply lookup_insert_ne.
  - intros k. unfold entry. rewrite Epl. simpl. case_decide as Hk; [subst; apply lookup_singleton_eq |].
    by apply lookup_singleton_ne.
Qed.

Lemma add_terms_edited docID idx l :
  no_empty idx -> NoDup l.*1 ->
  edited docID idx (foldl (add_term docID) idx l)
    (fun tok' o => match (list_to_map l : gmap string (list nat)) !! tok' with
                   | Some ps => Some (mk_posting docID (length ps) ps)
                   | None => o
                   end).
Proof.
  revert idx. induction l as [| [tok ps] l IH]; intros idx Hne Hnd; simpl.
  { by apply edited_refl. }
  apply NoDup_cons in Hnd as [Htok Hnd].
  pose proof (add_term_edited docID idx (tok, ps) Hne) as H1.
  pose proof (edited_trans _ _ _ _ _ _ H1 (IH _ (ed_no_empty _ _ _ _ H1) Hnd)) as H2.
  eapply edited_ext; [exact H2 |]. intros tok'. simpl.
  destruct (decide (tok' = tok)) as [-> | Ht].
  - rewrite lookup_insert_eq. by rewrite not_elem_of_list_to_map_1.
  - by rewrite lookup_insert_ne.
Qed.

Lemma cache_edited docID idx idx' f m m' :
  represents idx m -> edited docID idx idx' f ->
  forall idx2 : Index, postings idx2 = postings idx' -> sorted idx2 = sorted idx' -> sortedDirty idx2 = sortedDirty idx' ->
  docs idx2 = doc_of <$> m' -> docCount idx2 = Z.of_nat (size m') ->
  (forall tok k, entry idx' tok k = m' !! k ≫= posting_of k tok) ->
  represents idx2 m'.
Proof.
  intros Hr He idx2 Hp Hs Hd Hdocs Hcount Hent. split; [done | | | done |].
  - intros tok k. rewrite <- Hent. unfold entry. by rewrite Hp.
  - unfold no_empty. rewrite Hp. apply He.
  - rewrite Hs, Hd, Hp, (ed_sorted _ _ _ _ He). intros Hdirty l Hl.
    destruct (ed_dirty _ _ _ _ He Hdirty) as [H1 ->]. by apply Hr.
Qed.

Lemma removeLocked_represents docID idx m :
  represents idx m -> represents (removeLocked docID idx) (delete docID m).
Proof.
  intros Hr. unfold removeLocked. rewrite (rep_docs _ _ Hr), lookup_fmap.
  destruct (m !! docID) as [text |] eqn:Em; cbn [fmap option_fmap option_map];
    [| by rewrite delete_id by done].
  set (toks := (map_to_list (doc_tf (doc_of text))).*1).
  assert (Htoks : forall tok, tok ∈ toks <-> tok ∈ Tokenize text).
  { intros tok. unfold toks. rewrite elem_of_keys. apply frequencies_dom. }
  pose proof (remove_terms_edited docID idx toks (rep_no_empty _ _ Hr)) as He. clearbody toks.
  eapply (cache_edited docID idx _ _ m); [done | exact He | done | done | done | | |]; simpl.
  - by rewrite (ed_docs _ _ _ _ He), (rep_docs _ _ Hr), fmap_delete.
  - rewrite (ed_count _ _ _ _ He), (rep_count _ _ Hr), map_size_delete_Some by done.
    pose proof (map_size_ne_0_lookup_2 m docID ltac:(by rewrite Em)). lia.
  - intros tok k. rewrite (ed_entry _ _ _ _ He), (rep_entry _ _ Hr). destruct (decide (k = docID)) as [-> | Hk].
    + rewrite lookup_delete_eq, Em. cbn [mbind option_bind]. unfold posting_of.
      case_decide as Hin; [done |]. rewrite Htoks in Hin. by rewrite decide_False.
    + by rewrite lookup_delete_ne.
Qed.

Lemma Remove_represents docID idx m : represents idx m -> represents (Remove docID idx) (delete docID m).
Proof. apply removeLocked_represents. Qed.

Lemma Add_represents docID text idx m : represents idx m -> represents (Add docID text idx) (<[docID := text]> m).
Proof.
  intros Hr. unfold Add.
  set (idx0 := match docs idx !! docID with Some _ => removeLocked docID idx | None => idx end).
  assert (Hr0 : represents idx0 (delete docID m)).
  { unfold idx0. destruct (docs idx !! docID) eqn:E; [by apply removeLocked_represents |].
    rewrite (rep_docs _ _ Hr), lookup_fmap in E. apply fmap_None in E. by rewrite delete_id. }
  clearbody idx0. set (doc := mk_doc _ _ _). set (idx1 := mk_index _ _ _ _ _).
  set (l := map_to_list (term_positions (Tokenize text))).
  assert (Hnd : NoDup l.*1) by apply NoDup_fst_map_to_list.
  assert (He : edited docID idx1 (foldl (add_term docID) idx1 l) _)
    by (apply add_terms_edited; [exact (rep_no_empty _ _ Hr0) | done]).
  assert (Hl : forall tok, (list_to_map l : gmap string (list nat)) !! tok = term_positions (Tokenize text) !! tok).
  { intros tok. unfold l. by rewrite list_to_map_to_list. }
  split.
  - rewrite (ed_docs _ _ _ _ He). unfold idx1. simpl.
    by rewrite (rep_docs _ _ Hr0), fmap_delete, insert_delete_eq, fmap_insert.
  - intros tok k. rewrite (ed_entry _ _ _ _ He).
    change (entry idx1 tok k) with (entry idx0 tok k). rewrite (rep_entry _ _ Hr0).
    destruct (decide (k = docID)) as [-> | Hk].
    + rewrite Hl, term_positions_lookup, lookup_insert_eq, lookup_delete_eq. simpl. unfold posting_of.
      by case_decide.
    + by rewrite lookup_insert_ne, lookup_delete_ne by done.
  - apply He.
  - rewrite (ed_count _ _ _ _ He). unfold idx1. simpl.
    rewrite (rep_count _ _ Hr0), <- insert_delete_eq, map_size_insert_None by apply lookup_delete_eq. lia.
  - rewrite (ed_sorted _ _ _ _ He). intros Hd lc Hc.
    destruct (ed_dirty _ _ _ _ He Hd) as [H1 ->]. by apply (rep_cache _ _ Hr0).
Qed.

(** ** The cache of terms *)

Lemma keys_perm {A} (m : gmap string A) : (map_to_list m).*1 ≡ₚ elements (dom m).
Proof.
  apply NoDup_Permutation; [apply NoDup_fst_map_to_list | apply NoDup_elements |].
  intros tok. by rewrite elem_of_keys, elem_of_elements, elem_of_dom.
Qed.

Lemma sortedTerms_represents idx m :
  represents idx m ->
  represents (sortedTermsLocked idx).1 m /\
  postings (sortedTermsLocked idx).1 = postings idx /\
  (sortedTermsLocked idx).2 = sort_strings (elements (dom (postings idx))).
Proof.
  intros Hr. unfold sortedTermsLocked.
  assert (Hbuild : represents (mk_index (docs idx) (postings idx) (docCount idx)
            (Some (sort_strings (map_to_list (postings idx)).*1)) false) m).
  { destruct Hr as [Hd He Hn Hc _]. split; try done. simpl. intros _ l [= <-].
    apply sort_strings_perm, keys_perm. }
  destruct (sortedDirty idx) eqn:Hdirty; [by split_and!; [| | apply sort_strings_perm, keys_perm] |].
  destruct (sorted idx) as [l |] eqn:Hl; [| by split_and!; [| | apply sort_strings_perm, keys_perm]].
  split_and!; [done | done |]. by apply (rep_cache _ _ Hr).
Qed.

(** ** Runs *)

Context (less : K -> K -> bool) (ToLower : string -> string) (log10 : float64 -> float64).

Inductive op := OpAdd (docID : K) (text : string) | OpRemove (docID : K) | OpTerms | OpSearchPrefix (prefix : string).

Definition step (o : op) (idx : Index) : Index :=
  match o with
  | OpAdd k text => Add k text idx
  | OpRemove k => Remove k idx
  | OpTerms => (Terms idx).1
  | OpSearchPrefix p => (SearchPrefix less ToLower log10 p idx).1
  end.

Definition change (o : op) (m : gmap K string) : gmap K string :=
  match o with
  | OpAdd k text => <[k := text]> m
  | OpRemove k => delete k m
  | OpTerms | OpSearchPrefix _ => m
  end.

Definition index_after (ops : list op) : Index := foldl (fun idx o => step o idx) NewIndex ops.
Definition documents_after (ops : list op) : gmap K string := foldl (fun m o => change o m) ∅ ops.

Lemma step_represents o idx m : represents idx m -> represents (step o idx) (change o m).
Proof.
  intros Hr. destruct o as [k text | k | | p]; simpl.
  - by apply Add_represents.
  - by apply Remove_represents.
  - by apply sortedTerms_represents.
  - unfold SearchPrefix. case_bool_decide; [done |].
    destruct (sortedTerms_represents idx m Hr) as (Hr' & _ & _).
    destruct (sortedTermsLocked idx) as [idx' terms]. by case_bool_decide.
Qed.

Lemma run_represents ops : represents (index_after ops) (documents_after ops).
Proof.
  unfold index_after, documents_after. induction ops as [| o ops IH] using rev_ind; [apply represents_new |].
  rewrite !foldl_snoc. by apply step_represents.
Qed.

(** ** What the searches find *)

(** The document [k] contains the term. *)
Definition matching (m : gmap K string) (tok : string) (k : K) : Prop :=
  exists text, m !! k = Some text /\ tok ∈ Tokenize text.

(** A result without repetitions that holds exactly the documents with [P]. *)
Definition finds (res : list K) (P : K -> Prop) : Prop := NoDup res /\ forall k, k ∈ res <-> P k.

Lemma entry_matching idx m tok k : represents idx m -> is_Some (entry idx tok k) <-> matching m tok k.
Proof.
  intros Hr. rewrite (rep_entry _ _ Hr). unfold matching, posting_of. destruct (m !! k) as [text |]; simpl.
  - case_decide; split; [by eauto | by eexists | by intros [] | intros (? & [= <-] & ?); done].
  - split; [by intros [] | by intros (? & ? & _)].
Qed.

Lemma finds_sorted (hits : list (K * float64)) P :
  finds hits.*1 P -> finds (scoredToIDs (sortScored less hits)) P.
Proof.
  unfold finds, scoredToIDs, sortScored. intros [H1 H2].
  rewrite stable_sort_perm. split; [done |]. intros k. by rewrite stable_sort_perm.
Qed.

Lemma score_all_keys (pl : gmap K posting) idx : (score_all log10 pl idx).*1 = (map_to_list pl).*1.
Proof. unfold score_all. rewrite <- list_fmap_compose. by apply list_fmap_ext. Qed.

Lemma finds_keys {A} (pl : gmap K A) P : (forall k, is_Some (pl !! k) <-> P k) -> finds (map_to_list pl).*1 P.
Proof. intros HP. split; [apply NoDup_fst_map_to_list |]. intros k. by rewrite elem_of_keys. Qed.

Lemma entry_list idx tok pl k : postings idx !! tok = Some pl -> entry idx tok k = pl !! k.
Proof. intros E. unfold entry. by rewrite E. Qed.

Lemma entry_none idx tok k : postings idx !! tok = None -> ~ is_Some (entry idx tok k).
Proof. intros E. unfold entry. rewrite E. by intros []. Qed.

Lemma Search_finds idx m t :
  represents idx m -> finds (Search less ToLower log10 t idx) (matching m (ToLower t)).
Proof.
  intros Hr. unfold Search. destruct (postings idx !! ToLower t) as [pl |] eqn:E.
  - rewrite bool_decide_false by (intros Hz%map_size_empty_inv; by apply (rep_no_empty _ _ Hr _ _ E)).
    apply finds_sorted. rewrite score_all_keys. apply finds_keys. intros k.
    rewrite <- (entry_matching idx m) by done. by rewrite (entry_list _ _ _ _ E).
  - split; [constructor |]. intros k. split; [by intros ?%elem_of_nil |].
    intros Hm%(entry_matching idx m); [by apply entry_none in Hm | done].
Qed.

Lemma SearchNot_finds idx m t :
  represents idx m ->
  finds (SearchNot less ToLower t idx) (fun k => is_Some (m !! k) /\ ~ matching m (ToLower t) k).
Proof.
  intros Hr. unfold SearchNot, finds. rewrite stable_sort_perm.
  split; [apply NoDup_ListNoDup, List.NoDup_filter, NoDup_ListNoDup, NoDup_fst_map_to_list |].
  intros k. rewrite stable_sort_perm, list_elem_of_In, List.filter_In, <- list_elem_of_In, elem_of_keys.
  rewrite (rep_docs _ _ Hr), lookup_fmap, fmap_is_Some, <- (entry_matching idx m) by done.
  unfold entry. destruct (postings idx !! ToLower t) as [pl |]; simpl.
  - destruct (pl !! k); split; intros [? ?]; (split; [done |]); [done | by exfalso; eauto | by intros [] | done].
  - split; intros [? ?]; (split; [done |]); [by intros [] | done].
Qed.

Lemma add_scores_keys idx scores (pl : gmap K posting) k :
  is_Some (add_scores log10 idx scores pl !! k) <-> is_Some (scores !! k) \/ is_Some (pl !! k).
Proof.
  unfold add_scores. rewrite <- (elem_of_keys pl), <- (score_all_keys pl idx).
  revert scores. induction (score_all log10 pl idx) as [| [k' s] l IH]; intros scores; csimpl; [set_solver |].
  rewrite IH. destruct (decide (k = k')) as [-> | Hk].
  - rewrite lookup_insert_eq, elem_of_cons. split; [by right; left | by left; eexists].
  - rewrite lookup_insert_ne, elem_of_cons by done. naive_solver.
Qed.

(** The scores of the documents of some terms. *)
Definition scores_of (idx : Index) (terms : list string) : gmap K float64 :=
  foldl (fun scores t =>
    match postings idx !! t with None => scores | Some pl => add_scores log10 idx scores pl end) ∅ terms.

Lemma scores_of_keys idx m terms k :
  represents idx m ->
  is_Some (scores_of idx terms !! k) <-> exists tok, tok ∈ terms /\ matching m tok k.
Proof.
  intros Hr. unfold scores_of.
  assert (H0 : forall scores, is_Some (foldl (fun scores t =>
      match postings idx !! t with None => scores | Some pl => add_scores log10 idx scores pl end) scores terms !! k)
    <-> is_Some (scores !! k) \/ exists tok, tok ∈ terms /\ is_Some (entry idx tok k)).
  { induction terms as [| t terms IH]; intros scores; cbn [foldl].
    { split; [by left | intros [? | (? & ?%elem_of_nil & _)]; done]. }
    rewrite IH. unfold entry at 2. setoid_rewrite elem_of_cons.
    destruct (postings idx !! t) as [pl |] eqn:E.
    - rewrite add_scores_keys. split.
      + intros [[? | ?] | (tok & ? & ?)]; [by left | right; exists t; rewrite E; by auto | right; exists tok; by auto].
      + intros [? | (tok & [-> | ?] & Hm)]; [by auto | rewrite E in Hm; by auto | right; exists tok; by auto].
    - split.
      + intros [? | (tok & ? & ?)]; [by left | right; exists tok; by auto].
      + intros [? | (tok & [-> | ?] & Hm)]; [by left | rewrite E in Hm; by destruct Hm | right; exists tok; by auto]. }
  rewrite H0, lookup_empty. setoid_rewrite <- (entry_matching idx m); [| done].
  split; [intros [[] |]; done | by right].
Qed.

Lemma SearchOr_finds idx m terms :
  represents idx m ->
  finds (SearchOr less ToLower log10 terms idx) (fun k => exists t, t ∈ terms /\ matching m (ToLower t) k).
Proof.
  intros Hr. unfold SearchOr. case_bool_decide as Hl.
  { apply nil_length_inv in Hl as ->. split; [constructor |]. intros k.
    split; [by intros ?%elem_of_nil | by intros (? & ?%elem_of_nil & _)]. }
  apply finds_sorted. fold (scores_of idx (ToLower <$> terms)). apply finds_keys. intros k.
  rewrite (scores_of_keys idx m) by done. split.
  - intros (tok & (t & -> & Ht)%list_elem_of_fmap & Hm). by exists t.
  - intros (t & Ht & Hm). exists (ToLower t). split; [by apply list_elem_of_fmap_2 | done].
Qed.

Lemma score_and_some idx docID norm score :
  is_Some (score_and log10 docID norm score idx) <-> forall tok, tok ∈ norm -> is_Some (entry idx tok docID).
Proof.
  revert score. induction norm as [| t norm IH]; intros score; simpl.
  { split; [by intros _ tok ?%elem_of_nil | by eexists]. }
  unfold entry at 1. setoid_rewrite elem_of_cons.
  destruct (postings idx !! t) as [pl |] eqn:E; simpl; last first.
  { split; [by intros [] | intros Hm]. specialize (Hm t (or_introl eq_refl)). rewrite E in Hm. by destruct Hm. }
  destruct (pl !! docID) as [p |] eqn:Ep; simpl; last first.
  { split; [by intros [] | intros Hm]. specialize (Hm t (or_introl eq_refl)). rewrite E in Hm. simpl in Hm.
    rewrite Ep in Hm. by destruct Hm. }
  rewrite IH. split.
  - intros Hm tok [-> | Ht]; [by rewrite E; simpl; rewrite Ep | by apply Hm].
  - intros Hm tok Ht. by apply Hm; right.
Qed.

Lemma omap_keys {A} (f : K -> option A) l :
  (omap (fun k => x ← f k; Some (k, x)) l).*1 = List.filter (fun k => if f k is Some _ then true else false) l.
Proof. induction l as [| k l IH]; [done |]. csimpl. destruct (f k); csimpl; by rewrite IH. Qed.

Lemma filter_keys {A} (p : K -> bool) (l : list (K * A)) :
  (List.filter (fun kx => p kx.1) l).*1 = List.filter p l.*1.
Proof. induction l as [| [k x] l IH]; [done |]. csimpl. destruct (p k); csimpl; by rewrite IH. Qed.

Lemma finds_filter {A} (pl : gmap K A) (p : K -> bool) P :
  (forall k, k ∈ (map_to_list pl).*1 /\ p k = true <-> P k) -> finds (List.filter p (map_to_list pl).*1) P.
Proof.
  intros HP. split; [apply NoDup_ListNoDup, List.NoDup_filter, NoDup_ListNoDup, NoDup_fst_map_to_list |].
  intros k. by rewrite <- HP, !list_elem_of_In, List.filter_In.
Qed.

Lemma SearchAnd_finds idx m terms :
  represents idx m ->
  finds (SearchAnd less ToLower log10 terms idx)
    (fun k => terms <> [] /\ forall t, t ∈ terms -> matching m (ToLower t) k).
Proof.
  intros Hr. unfold SearchAnd.
  destruct terms as [| t terms]; cbn [fmap list_fmap].
  { split; [constructor |]. intros k. split; [by intros ?%elem_of_nil | by intros []]. }
  assert (Hall : forall k, (forall tok, tok ∈ ToLower <$> t :: terms -> is_Some (entry idx tok k)) <->
      t :: terms <> [] /\ forall t', t' ∈ t :: terms -> matching m (ToLower t') k).
  { intros k. split.
    - intros Hm. split; [done |]. intros t' Ht. rewrite <- (entry_matching idx m) by done.
      by apply Hm, list_elem_of_fmap_2.
    - intros [_ Hm] tok (t' & -> & Ht)%list_elem_of_fmap. rewrite (entry_matching idx m) by done. by apply Hm. }
  destruct (postings idx !! ToLower t) as [first |] eqn:E; last first.
  { split; [constructor |]. intros k. rewrite <- Hall. split; [by intros ?%elem_of_nil |].
    intros Hm. specialize (Hm (ToLower t) ltac:(left)). by apply entry_none in Hm. }
  apply finds_sorted.
  set (norm := ToLower <$> t :: terms) in *. change (ToLower t :: (ToLower <$> terms)) with norm.
  rewrite omap_keys. apply finds_filter. intros k. rewrite <- Hall, <- (score_and_some idx k norm f_zero).
  rewrite elem_of_keys, <- (entry_list _ _ _ _ E).
  destruct (score_and log10 k norm f_zero idx) as [sc |] eqn:Es; [| split; [by intros [_ ?] | by intros []]].
  split; [by eexists | intros _; split; [| done]].
  apply (score_and_some idx k norm f_zero); [by rewrite Es | apply list_elem_of_fmap_2; left].
Qed.

(** *** Phrases *)

Lemma entry_positions idx m tok k p :
  represents idx m -> entry idx tok k = Some p ->
  exists text, m !! k = Some text /\ positions p = positions_from 0 tok (Tokenize text).
Proof.
  intros Hr. rewrite (rep_entry _ _ Hr). unfold posting_of.
  destruct (m !! k) as [text |]; simpl; [| done]. case_decide; [| done]. intros [= <-]. by exists text.
Qed.

Lemma phrase_positions_spec idx m k tokens :
  represents idx m ->
  match phrase_positions k tokens idx with
  | Some ps => forall text, m !! k = Some text -> ps = (fun tok => positions_from 0 tok (Tokenize text)) <$> tokens
  | None => exists tok, tok ∈ tokens /\ ~ matching m tok k
  end.
Proof.
  intros Hr. induction tokens as [| tok tokens IH]; csimpl; [done |].
  assert (Hno : entry idx tok k = None -> exists tok', tok' ∈ tok :: tokens /\ ~ matching m tok' k).
  { intros E. exists tok. split; [by left |]. rewrite <- (entry_matching idx m), E by done. by intros []. }
  unfold entry in Hno. destruct (postings idx !! tok) as [pl |] eqn:E; simpl in *; [| by apply Hno].
  destruct (pl !! k) as [p |] eqn:Ep; simpl in *; [| by apply Hno].
  destruct (entry_positions idx m tok k p Hr) as (text & Hm & Hp); [by rewrite (entry_list _ _ _ _ E) |].
  destruct (phrase_positions k tokens idx) as [ps |]; simpl.
  - intros text' Hm'. assert (text' = text) as -> by congruence. by rewrite Hp, (IH text Hm).
  - destruct IH as (tok' & Hin & Hn). exists tok'. split; [by right | done].
Qed.

Lemma containsInt_spec l v : containsInt l v = true <-> v ∈ l.
Proof.
  unfold containsInt. rewrite existsb_elem. split.
  - intros (x & Hx & <-%bool_decide_eq_true_1). done.
  - intros Hv. exists v. by rewrite bool_decide_true.
Qed.

(** The tokens occur one after the other in the text. *)
Definition has_phrase (m : gmap K string) (tokens : list string) (k : K) : Prop :=
  exists text before after, m !! k = Some text /\ Tokenize text = before ++ tokens ++ after.

Lemma infix_lookup {A} (l k : list A) n :
  (forall i x, k !! i = Some x -> l !! (n + i) = Some x) -> n <= length l ->
  l = take n l ++ k ++ drop (n + length k) l.
Proof.
  intros Hlk Hn. rewrite <- (take_drop n l) at 1. f_equal. rewrite <- drop_drop.
  assert (Hk : forall i x, k !! i = Some x -> drop n l !! i = Some x).
  { intros i x Hi. rewrite lookup_drop. by apply Hlk. }
  clear Hlk Hn. revert k Hk. generalize (drop n l) as r. intros r k. revert r.
  induction k as [| y k IH]; intros r Hk; [done |].
  pose proof (Hk 0 y eq_refl) as H0. destruct r as [| z r]; simplify_eq/=. f_equal.
  apply IH. intros i x Hi. by apply (Hk (S i)).
Qed.

Lemma hasPhrase_spec idx m k tok tokens :
  represents idx m -> hasPhraseLocked k (tok :: tokens) idx = true <-> has_phrase m (tok :: tokens) k.
Proof.
  intros Hr. unfold hasPhraseLocked.
  pose proof (phrase_positions_spec idx m k (tok :: tokens) Hr) as Hps.
  destruct (phrase_positions k (tok :: tokens) idx) as [ps |] eqn:E; last first.
  { split; [done |]. intros (text & before & after & Hm & Ht). exfalso.
    destruct Hps as (tok' & Hin & Hn). apply Hn. exists text. split; [done |]. rewrite Ht. set_solver. }
  destruct (m !! k) as [text |] eqn:Hm; last first.
  { exfalso. simpl in E. destruct (postings idx !! tok) as [pl |] eqn:Ep; simpl in E; [| done].
    destruct (pl !! k) as [p |] eqn:Epk; simpl in E; [| done].
    destruct (entry_positions idx m tok k p Hr) as (text & Hm' & _); [by rewrite (entry_list _ _ _ _ Ep) | congruence]. }
  rewrite (Hps text eq_refl). csimpl. rewrite existsb_elem.
  assert (Hhas : forall i t', tokens !! i = Some t' -> forall start,
    (start + S i) ∈ positions_from 0 t' (Tokenize text) <-> Tokenize text !! (start + S i) = Some t').
  { intros i t' _ start. rewrite elem_of_positions, Nat.sub_0_r. split; [by intros [] | split; [lia | done]]. }
  assert (Hall : forall start,
    forallb id (imap (fun i ps => containsInt ps (start + S i))
      ((fun t' => positions_from 0 t' (Tokenize text)) <$> tokens)) = true <->
    forall i t', tokens !! i = Some t' -> Tokenize text !! (start + S i) = Some t').
  { intros start. rewrite forallb_elem. split.
    - intros Hf i t' Hi. apply (Hhas i t' Hi), containsInt_spec, Hf, list_elem_of_lookup. exists i.
      by rewrite list_lookup_imap, list_lookup_fmap, Hi.
    - intros Hf b (i & Hi)%list_elem_of_lookup. rewrite list_lookup_imap, list_lookup_fmap in Hi.
      destruct (tokens !! i) as [t' |] eqn:Ht; simplify_eq/=. unfold id. apply containsInt_spec, (Hhas i t' Ht). by apply Hf. }
  split.
  - intros (start & Hs & Hf). rewrite Hall in Hf. apply elem_of_positions in Hs as [_ Hs].
    rewrite Nat.sub_0_r in Hs. exists text, (take start (Tokenize text)), (drop (start + length (tok :: tokens)) (Tokenize text)).
    split; [done |]. apply infix_lookup; [| apply lookup_lt_Some in Hs; lia].
    intros [| i] x Hx; simplify_eq/=; [by rewrite Nat.add_0_r | by apply Hf].
  - intros (text' & before & after & Hm' & Ht). simplify_eq. exists (length before). split.
    + apply elem_of_positions. split; [lia |]. by rewrite Nat.sub_0_r, Ht, lookup_app_r, Nat.sub_diag by lia.
    + apply Hall. intros i t' Hi. rewrite Ht, lookup_app_r by lia.
      replace (length before + S i - length before) with (S i) by lia. simpl.
      by apply lookup_app_l_Some.
Qed.

(** [ToLower] leaves the tokens as they are: they are in lower case. *)
Definition lowers : Prop := forall text tok, tok ∈ Tokenize text -> ToLower tok = tok.

Lemma SearchPhrase_finds idx m phrase :
  represents idx m -> lowers ->
  finds (SearchPhrase less ToLower log10 phrase idx)
    (fun k => Tokenize phrase <> [] /\ has_phrase m (Tokenize phrase) k).
Proof.
  intros Hr Hlow. unfold SearchPhrase. specialize (Hlow phrase).
  destruct (Tokenize phrase) as [| tok [| tok' tokens]] eqn:Et.
  - split; [constructor |]. intros k. split; [by intros ?%elem_of_nil | by intros []].
  - destruct (Search_finds idx m tok Hr) as [Hn Hs]. rewrite Hlow in Hs by left. split; [done |].
    intros k. rewrite Hs. split.
    + intros (text & Hm & (before & after & Ht)%list_elem_of_split). split; [done |].
      by exists text, before, after.
    + intros (_ & text & before & after & Hm & Ht). exists text. split; [done |]. rewrite Ht. set_solver.
  - destruct (postings idx !! tok) as [first |] eqn:E; last first.
    { split; [constructor |]. intros k. split; [by intros ?%elem_of_nil |].
      intros (_ & text & before & after & Hm & Ht). exfalso. apply (entry_none idx tok k E).
      apply (entry_matching idx m); [done |]. exists text. split; [done |]. rewrite Ht. set_solver. }
    apply finds_sorted.
    rewrite (filter_keys (fun k => hasPhraseLocked k (tok :: tok' :: tokens) idx)), score_all_keys.
    apply finds_filter. intros k.
    rewrite (hasPhrase_spec idx m) by done. rewrite elem_of_keys, <- (entry_list _ _ _ _ E), (entry_matching idx m) by done.
    split; [by intros [_ ?] |]. intros [_ Hph]. split; [| done].
    destruct Hph as (text & before & after & Hm & Ht). exists text. split; [done |]. rewrite Ht. set_solver.
Qed.

(** *** Prefixes *)

Lemma prefix_spec p : forall x, HasPrefix p x = true -> str_lt x p = false.
Proof.
  unfold str_lt, String.ltb. induction p as [| a p IH]; intros [| b x]; simpl; try done.
  intros [Hab%bool_decide_eq_true_1 Hp]%andb_true_iff. subst. unfold Ascii.compare. rewrite N.compare_refl.
  by apply IH.
Qed.

Lemma prefix_between p : forall a b,
  str_lt a p = false -> str_lt b a = false -> HasPrefix p b = true -> HasPrefix p a = true.
Proof.
  unfold str_lt, String.ltb. induction p as [| c p IH]; intros [| a' a] [| b' b]; simpl; try done.
  unfold Ascii.compare. intros H1 H2 [Hc%bool_decide_eq_true_1 Hp]%andb_true_iff. subst b'.
  destruct (N.compare_spec (N_of_ascii a') (N_of_ascii c)) as [E | E | E]; [| done |].
  - apply (f_equal ascii_of_N) in E. rewrite !ascii_N_embedding in E. subst a'.
    rewrite N.compare_refl in H2. rewrite bool_decide_true by done. by apply (IH a b).
  - by rewrite (proj2 (N.compare_lt_iff _ _)) in H2.
Qed.

Lemma prefix_terms_spec p l x :
  StronglySorted (fun a b => str_lt b a = false) l ->
  x ∈ prefix_terms p (from_first_ge p l) <-> x ∈ l /\ HasPrefix p x = true.
Proof.
  assert (Htake : forall l, StronglySorted (fun a b => str_lt b a = false) l ->
    Forall (fun a => str_lt a p = false) l ->
    x ∈ prefix_terms p l <-> x ∈ l /\ HasPrefix p x = true).
  { induction 1 as [| a r Hr IH Ha]; intros Hall; simpl; [set_solver |].
    apply Forall_cons in Hall as [Hap Hall]. rewrite elem_of_cons. destruct (HasPrefix p a) eqn:Ep.
    - rewrite elem_of_cons, IH by done. naive_solver.
    - split; [by intros ?%elem_of_nil |]. intros [[-> | Hin] Hpx]; [congruence |].
      rewrite Forall_forall in Ha. specialize (Ha x Hin).
      rewrite (prefix_between p a x Hap Ha Hpx) in Ep. done. }
  induction 1 as [| a r Hr IH Ha]; cbn [from_first_ge]; [set_solver |].
  destruct (str_lt a p) eqn:E.
  - rewrite IH, elem_of_cons. split; [by intros []; auto |]. intros [[-> | Hin] Hpx]; [| done].
    by rewrite (prefix_spec p a Hpx) in E.
  - apply Htake; [by constructor |]. constructor; [done |].
    eapply Forall_impl; [exact Ha |]. intros b Hb. by apply (str_lt_not_trans p a b).
Qed.

Lemma matching_term idx m tok k : represents idx m -> matching m tok k -> tok ∈ dom (postings idx).
Proof.
  intros Hr Hm. apply (entry_matching idx m) in Hm; [| done]. apply elem_of_dom. unfold entry in Hm.
  by destruct (postings idx !! tok); [| destruct Hm].
Qed.

Lemma SearchPrefix_finds idx m p :
  represents idx m ->
  finds (SearchPrefix less ToLower log10 p idx).2
    (fun k => ToLower p <> "" /\ exists tok, HasPrefix (ToLower p) tok = true /\ matching m tok k).
Proof.
  intros Hr. unfold SearchPrefix. case_bool_decide as Hp; cbn [snd].
  { split; [constructor |]. intros k. split; [by intros ?%elem_of_nil | by intros []]. }
  destruct (sortedTerms_represents idx m Hr) as (Hr' & Hpost & Hterms).
  destruct (sortedTermsLocked idx) as [idx' terms]. cbn [fst snd] in *.
  fold (scores_of idx' (prefix_terms (ToLower p) (from_first_ge (ToLower p) terms))).
  assert (Hkeys : forall k, is_Some (scores_of idx' (prefix_terms (ToLower p) (from_first_ge (ToLower p) terms)) !! k) <->
    ToLower p <> "" /\ exists tok, HasPrefix (ToLower p) tok = true /\ matching m tok k).
  { intros k. rewrite (scores_of_keys idx' m) by done. rewrite Hterms. split.
    - intros (tok & Ht & Hm). split; [done |]. apply prefix_terms_spec in Ht as [_ Ht]; [| apply sort_strings_sorted].
      by exists tok.
    - intros (_ & tok & Ht & Hm). exists tok. split; [| done].
      apply prefix_terms_spec; [apply sort_strings_sorted |]. split; [| done].
      unfold sort_strings. rewrite elem_of_stable_sort, elem_of_elements. by eapply matching_term. }
  case_bool_decide as Hz.
  - split; [constructor |]. intros k. rewrite <- Hkeys. apply map_size_empty_inv in Hz. rewrite Hz, lookup_empty.
    split; [by intros ?%elem_of_nil | by intros []].
  - cbn [snd]. by apply finds_sorted, finds_keys.
Qed.

(** *** Wildcards *)

(** What a pattern matches: [*] any text, [?] any rune, others themselves. *)
Inductive globs : list rune -> list rune -> Prop :=
  | globs_nil : globs [] []
  | globs_star p t t' : globs p t' -> globs (42%N :: p) (t ++ t')
  | globs_any p c t : globs p t -> globs (63%N :: p) (c :: t)
  | globs_char p c t : c <> 42%N -> c <> 63%N -> globs p t -> globs (c :: p) (c :: t).

Lemma elem_of_suffixes t t' : t' ∈ suffixes t <-> exists l, t = l ++ t'.
Proof.
  induction t as [| c t IH]; simpl.
  - rewrite list_elem_of_singleton. split; [intros ->; by exists [] | by intros ([|] & ?); simplify_eq/=].
  - rewrite elem_of_cons, IH. split.
    + intros [-> | [l ->]]; [by exists [] | by exists (c :: l)].
    + intros ([| d l] & Hl); simplify_eq/=; [by left | right; by exists l].
Qed.

Lemma globs_star_inv p t : globs (42%N :: p) t -> exists t1 t2, t = t1 ++ t2 /\ globs p t2.
Proof. intros Hg. inversion Hg; subst; [by eauto | done]. Qed.

Lemma skip_stars_other c p : c <> 42%N -> skip_stars (c :: p) = c :: p.
Proof. intros Hc. simpl. repeat (case_match; try done). Qed.

Lemma skip_stars_globs p t : globs (42%N :: p) t <-> globs (42%N :: skip_stars p) t.
Proof.
  revert t. induction p as [| c p IH]; intros t; [done |].
  destruct (decide (c = 42%N)) as [-> | Hc]; [| by rewrite skip_stars_other].
  cbn [skip_stars]. rewrite <- IH. split; [| intros Hg; by apply (globs_star _ [])].
  intros (t1 & t2 & -> & (t3 & t4 & -> & Hg)%globs_star_inv)%globs_star_inv.
  rewrite app_assoc. by constructor.
Qed.

Lemma skip_stars_length p : length (skip_stars p) <= length p.
Proof.
  induction p as [| c p IH]; [done |]. destruct (decide (c = 42%N)) as [-> | Hc]; [simpl; lia |].
  by rewrite skip_stars_other.
Qed.

(** The equation of [wildcardMatch] by the kind of the first rune. *)
Lemma wildcardMatch_S fuel c p t :
  wildcardMatch (S fuel) (c :: p) t =
    if decide (c = 42%N) then
      match skip_stars p with [] => true | p' => existsb (wildcardMatch fuel p') (suffixes t) end
    else if decide (c = 63%N) then
      match t with [] => false | _ :: t' => wildcardMatch fuel p t' end
    else match t with [] => false | d :: t' => (c == d) && wildcardMatch fuel p t' end.
Proof.
  destruct (decide (c = 42%N)) as [-> | H1]; [done |].
  destruct (decide (c = 63%N)) as [-> | H2]; [done |].
  cbn [wildcardMatch]. repeat (case_match; try done).
Qed.

Lemma wildcardMatch_globs fuel p t : length p < fuel -> wildcardMatch fuel p t = true <-> globs p t.
Proof.
  revert p t. induction fuel as [| fuel IH]; intros p t Hf; [lia |].
  destruct p as [| c p].
  { simpl. rewrite bool_decide_eq_true, length_zero_iff_nil. split; [intros ->; constructor | by inversion 1]. }
  simpl in Hf. rewrite wildcardMatch_S. destruct (decide (c = 42%N)) as [-> | H1].
  - rewrite skip_stars_globs. pose proof (skip_stars_length p) as Hl.
    assert (Hex : existsb (wildcardMatch fuel (skip_stars p)) (suffixes t) = true <-> globs (42%N :: skip_stars p) t).
    { rewrite existsb_elem. setoid_rewrite elem_of_suffixes. split.
      - intros (t' & [l ->] & Hm). constructor. apply IH; [lia | done].
      - intros (t1 & t2 & -> & Hg)%globs_star_inv. exists t2. split; [by exists t1 |]. apply IH; [lia | done]. }
    destruct (skip_stars p) as [| c' p'] eqn:E; [| exact Hex]. split; [intros _ | done].
    rewrite <- (app_nil_r t). constructor. constructor.
  - destruct (decide (c = 63%N)) as [-> | H2].
    + destruct t as [| d t]; [split; [done | inversion 1] |]. rewrite IH by lia.
      split; [by constructor | by inversion 1].
    + destruct t as [| d t]; [split; [done | inversion 1; done] |].
      rewrite andb_true_iff, bool_decide_eq_true, IH by lia.
      split; [intros [-> ?]; by constructor | by inversion 1].
Qed.

(** [*] in a pattern matches any sequence of runes, [?] any single rune. *)
Lemma matchWildcard_globs pattern s :
  matchWildcard pattern s = true <-> globs (runes pattern) (runes s).
Proof. apply wildcardMatch_globs. lia. Qed.

Lemma wildcard_hits idx m pattern k :
  represents idx m ->
  k ∈ (flat_map (fun tp : string * gmap K posting =>
         if matchWildcard pattern tp.1 then score_all log10 tp.2 idx else []) (map_to_list (postings idx))).*1 <->
  exists tok, globs (runes pattern) (runes tok) /\ matching m tok k.
Proof.
  intros Hr. setoid_rewrite <- matchWildcard_globs. setoid_rewrite <- (entry_matching idx m); [| done].
  rewrite list_elem_of_fmap. split.
  - intros ([k' s] & -> & Hin). apply list_elem_of_In, in_flat_map in Hin as ([tok pl] & Hpl & Hin).
    apply list_elem_of_In, elem_of_map_to_list in Hpl. exists tok. cbn [fst snd] in *.
    destruct (matchWildcard pattern tok); [| done]. split; [done |].
    rewrite (entry_list _ _ _ _ Hpl), <- elem_of_keys, <- (score_all_keys pl idx).
    apply list_elem_of_fmap. exists (k', s). split; [done | by apply list_elem_of_In].
  - intros (tok & Hm & He). unfold entry in He. destruct (postings idx !! tok) as [pl |] eqn:E; [| by destruct He].
    simpl in He. rewrite <- elem_of_keys, <- (score_all_keys pl idx) in He.
    apply list_elem_of_fmap in He as ([k' s] & -> & Hin). exists (k', s). split; [done |].
    apply list_elem_of_In, in_flat_map. exists (tok, pl). rewrite <- !list_elem_of_In. cbn [fst snd].
    rewrite Hm. split; [by apply elem_of_map_to_list | done].
Qed.

Lemma NoDup_flat_map_twice {A B} (f : A -> list (K * B)) l x y k :
  x <> y -> x ∈ l -> y ∈ l -> k ∈ (f x).*1 -> k ∈ (f y).*1 -> ~ NoDup (flat_map f l).*1.
Proof.
  assert (Hone : forall x l, x ∈ l -> forall k, k ∈ (f x).*1 -> k ∈ (flat_map f l).*1).
  { intros z l' Hz k' Hk. apply list_elem_of_split in Hz as (l1 & l2 & ->).
    rewrite flat_map_app, fmap_app. simpl. rewrite fmap_app. set_solver. }
  intros Hne Hx Hy Hkx Hky Hnd. apply list_elem_of_split in Hx as (l1 & l2 & ->).
  rewrite flat_map_app in Hnd. simpl in Hnd. rewrite !fmap_app in Hnd.
  apply NoDup_app in Hnd as (_ & H1 & (_ & H2 & _)%NoDup_app).
  rewrite elem_of_app, elem_of_cons in Hy. destruct Hy as [Hy | [Hy | Hy]]; [| done |].
  - apply (H1 k); [by eapply Hone | set_solver].
  - apply (H2 k); [done | by eapply Hone].
Qed.

(** ** The main theorems *)

(** C32: after any sequence of additions (updates included), removals and
    searches, the index holds exactly the current documents: their token lists,
    for each term exactly the documents that contain it with all its positions,
    no term without documents, the number of documents, and a cache of terms
    that is either marked stale or the sorted list of the terms. *)
Theorem index_refines_documents ops : represents (index_after ops) (documents_after ops).
Proof. apply run_represents. Qed.

(** C33: at any time each search returns, without repetitions, exactly the
    current documents it describes: those that contain the term, a term with the
    prefix, the whole phrase, all terms, one of the terms, or not the term. *)
Theorem searches_exact ops t ts :
  lowers ->
  let idx := index_after ops in
  let m := documents_after ops in
  finds (Search less ToLower log10 t idx) (matching m (ToLower t)) /\
  finds (SearchPrefix less ToLower log10 t idx).2
    (fun k => ToLower t <> "" /\ exists tok, HasPrefix (ToLower t) tok = true /\ matching m tok k) /\
  finds (SearchPhrase less ToLower log10 t idx)
    (fun k => Tokenize t <> [] /\ has_phrase m (Tokenize t) k) /\
  finds (SearchAnd less ToLower log10 ts idx) (fun k => ts <> [] /\ forall t, t ∈ ts -> matching m (ToLower t) k) /\
  finds (SearchOr less ToLower log10 ts idx) (fun k => exists t, t ∈ ts /\ matching m (ToLower t) k) /\
  finds (SearchNot less ToLower t idx) (fun k => is_Some (m !! k) /\ ~ matching m (ToLower t) k).
Proof.
  intros Hlow idx m. pose proof (run_represents ops) as Hr. fold idx m in Hr.
  split_and!; [by apply Search_finds | by apply SearchPrefix_finds | by apply SearchPhrase_finds |
    by apply SearchAnd_finds | by apply SearchOr_finds | by apply SearchNot_finds].
Qed.

(** A search with a wildcard finds exactly the current documents with a term
    that the pattern matches, [*] standing for any sequence of runes and [?] for
    one; but a document in which the pattern matches two different terms is
    returned more than once. *)
Theorem wildcard_search ops pattern :
  has_wildcard (ToLower pattern) = true ->
  let res := SearchWildcard less ToLower log10 pattern (index_after ops) in
  let hit k tok := globs (runes (ToLower pattern)) (runes tok) /\ matching (documents_after ops) tok k in
  (forall k, k ∈ res <-> exists tok, hit k tok) /\
  (forall k tok tok', tok <> tok' -> hit k tok -> hit k tok' -> ~ NoDup res).
Proof.
  intros Hw. cbn zeta. pose proof (run_represents ops) as Hr.
  set (idx := index_after ops) in *. set (m := documents_after ops) in *.
  unfold SearchWildcard. rewrite bool_decide_false by (intros E; by rewrite E in Hw). rewrite Hw. cbn [negb].
  unfold scoredToIDs, sortScored. split.
  - intros k. rewrite stable_sort_perm. by apply wildcard_hits.
  - intros k tok tok' Hne [Hg Hm] [Hg' Hm']. rewrite stable_sort_perm.
    assert (Hin : forall tok, globs (runes (ToLower pattern)) (runes tok) -> matching m tok k ->
      exists pl, (tok, pl) ∈ map_to_list (postings idx) /\
        k ∈ ((if matchWildcard (ToLower pattern) tok then score_all log10 pl idx else [])).*1).
    { intros t Ht Hmt. apply matchWildcard_globs in Ht. apply (entry_matching idx m) in Hmt; [| done].
      unfold entry in Hmt. destruct (postings idx !! t) as [pl |] eqn:E; [| by destruct Hmt].
      exists pl. split; [by apply elem_of_map_to_list |]. by rewrite Ht, score_all_keys, elem_of_keys. }
    destruct (Hin tok Hg Hm) as (pl & H1 & H2), (Hin tok' Hg' Hm') as (pl' & H1' & H2').
    apply (NoDup_flat_map_twice _ _ (tok, pl) (tok', pl') k); [congruence | done ..].
Qed.
End index.

(** ** Witnesses *)

(** [strings.ToLower] on texts whose only cased letters are ASCII. *)
Definition lower_ascii_char (c : ascii) : ascii :=
  if byte_in 65 90 c then ascii_of_N (N_of_ascii c + 32) else c.
Fixpoint lower_ascii (s : string) : string :=
  match s with
  | "" => ""
  | String c s => String (lower_ascii_char c) (lower_ascii s)
  end.

Definition uncased (c : ascii) : bool := negb (byte_in 65 90 c).

Lemma lower_ascii_id s : all_chars uncased s = true -> lower_ascii s = s.
Proof.
  induction s as [| c s IH]; [done |]. cbn [all_chars lower_ascii]. intros [Hc Hs]%andb_true_iff.
  rewrite IH by done. unfold lower_ascii_char. unfold uncased in Hc. apply negb_true_iff in Hc. by rewrite Hc.
Qed.

Lemma uncased_byte n : (n < 256)%N -> ~ (65 <= n <= 90)%N -> all_chars uncased (byte n) = true.
Proof.
  intros Hn Hc. cbn [all_chars byte]. unfold uncased, byte_in. rewrite N_ascii_embedding by done.
  rewrite andb_true_r. apply negb_true_iff, andb_false_iff. rewrite !N.leb_gt. lia.
Qed.

Lemma uncased_rune r :
  isASCIILetter r || isASCIIDigit r || (r =? 95)%N || isCJK r = true ->
  all_chars uncased (encode_rune (lower_rune r)) = true.
Proof.
  unfold isASCIILetter, isASCIIDigit, isCJK, lower_rune, rune_in.
  rewrite !orb_true_iff, !andb_true_iff, !N.leb_le, N.eqb_eq. intros Hr.
  destruct ((65 <=? r) && (r <=? 90))%N eqn:E.
  - rewrite andb_true_iff, !N.leb_le in E. unfold encode_rune. rewrite (proj2 (N.ltb_lt _ _)) by lia.
    apply uncased_byte; lia.
  - rewrite andb_false_iff, !N.leb_gt in E. unfold encode_rune.
    destruct (N.ltb_spec r 128); [apply uncased_byte; lia |]. assert (13312 <= r < 65536)%N by lia.
    rewrite (proj2 (N.ltb_ge _ _)), (proj2 (N.ltb_lt _ _)) by lia. rewrite !all_chars_app.
    assert (r / 4096 < 16)%N by (apply N.Div0.div_lt_upper_bound; lia).
    pose proof (N.mod_lt (r / 64) 64 ltac:(done)). pose proof (N.mod_lt r 64 ltac:(done)).
    clear Hr E. revert H1 H2 H3. generalize (r / 4096)%N ((r / 64) `mod` 64)%N (r `mod` 64)%N.
    intros a b c Ha Hb Hc. rewrite (uncased_byte (224 + a)), (uncased_byte (128 + b)), (uncased_byte (128 + c)) by lia. done.
Qed.

Lemma Tokenize_uncased text tok : tok ∈ Tokenize text -> all_chars uncased tok = true.
Proof.
  assert (Hgo : forall rs toks w, Forall (fun t => all_chars uncased t = true) toks -> all_chars uncased w = true ->
    Forall (fun t => all_chars uncased t = true) (foldl tokenize_rune (toks, w) rs).1 /\
    all_chars uncased (foldl tokenize_rune (toks, w) rs).2 = true).
  { induction rs as [| r rs IH]; intros toks w Ht Hw; [done |]. cbn [foldl]. unfold tokenize_rune at 2 4.
    assert (Hflush : Forall (fun t => all_chars uncased t = true) (flush w toks)).
    { unfold flush. case_bool_decide; [done |]. apply Forall_app. by rewrite Forall_singleton. }
    destruct (_ || _ || _) eqn:E1.
    - apply IH; [done |]. rewrite all_chars_app, Hw. apply uncased_rune. by rewrite E1.
    - destruct (isCJK r) eqn:E2; apply IH; try done. apply Forall_app. rewrite Forall_singleton. split; [done |].
      apply uncased_rune. by rewrite E2, orb_true_r. }
  unfold Tokenize. destruct (Hgo (runes text) [] "" (Forall_nil_2 _) eq_refl) as [H1 H2].
  destruct (foldl _ _ _) as [toks w]. cbn [fst snd] in *. unfold flush.
  case_bool_decide; [| rewrite elem_of_app, list_elem_of_singleton; intros [Hin | ->]; [| done]];
    rewrite Forall_forall in H1; by auto.
Qed.

Lemma lower_ascii_lowers : lowers lower_ascii.
Proof. intros text tok Htok. by apply lower_ascii_id, (Tokenize_uncased text). Qed.

Definition ex_ops : list (op (K := Z)) :=
  [OpAdd 1%Z "Web server web1 ready"; OpAdd 2%Z "web2 web1 down"; OpAdd 3%Z "db down"; OpSearchPrefix "web"; OpRemove 3%Z;
   OpAdd 1%Z "web1 ready"].

Lemma searches_exact_witness :
  finds (SearchPhrase Z.ltb lower_ascii id "WEB1 ready" (index_after Z.ltb lower_ascii id ex_ops))
    (fun k => Tokenize "WEB1 ready" <> [] /\ has_phrase (documents_after ex_ops) (Tokenize "WEB1 ready") k).
Proof.
  destruct (searches_exact Z.ltb lower_ascii id ex_ops "WEB1 ready" ["web1"; "down"] lower_ascii_lowers)
    as (_ & _ & H & _). exact H.
Defined.

Lemma wildcard_search_witness :
  SearchWildcard Z.ltb lower_ascii id "WEB*" (index_after Z.ltb lower_ascii id ex_ops) = [2; 1; 2]%Z /\
  forall k, k ∈ SearchWildcard Z.ltb lower_ascii id "WEB*" (index_after Z.ltb lower_ascii id ex_ops) <->
    exists tok, globs (runes "web*") (runes tok) /\ matching (documents_after ex_ops) tok k.
Proof.
  destruct (wildcard_search Z.ltb lower_ascii id ex_ops "WEB*") as [H _]; [vm_compute; reflexivity |].
  split; [vm_compute; reflexivity | exact H].
Defined.
