(* ===== verification/LogStore.v ===== *)
(** * The in-memory log store ([internal/logstore/memory.go])

    A bounded buffer of entries with an optional full-text index of their
    messages.  [ToLower], [EqualFold] and [log10] are the functions of Go's
    library of these names.  The store refines the window of the last entries; the
    index is always that of the buffered messages; and both kinds of query return
    exactly the pages of the matching entries. *)

From Stdlib Require Import Ascii.
From S2P Require Import GoStrings Window Float64 Prelude LogQuery LogQueryProps Fulltext FulltextProps.
Open Scope go_scope.

Module Query.
Record t := mk {
  TenantID : string; DeviceID : string; AgentID : string; Level : string; Source : string;
  Keyword : string; Q : string; From : time; To : time; Limit : Z; Offset : Z }.
Definition set_Keyword v q := mk (TenantID q) (DeviceID q) (AgentID q) (Level q) (Source q) v (Q q) (From q) (To q) (Limit q) (Offset q).
Definition set_Q v q := mk (TenantID q) (DeviceID q) (AgentID q) (Level q) (Source q) (Keyword q) v (From q) (To q) (Limit q) (Offset q).
Definition set_Offset v q := mk (TenantID q) (DeviceID q) (AgentID q) (Level q) (Source q) (Keyword q) (Q q) (From q) (To q) (Limit q) v.
End Query.

Module FullTextQuery.
Record t := mk {
  Base : Query.t; Term : string; Phrase : string; And : list string; Or : list string;
  Not : string; Wildcard : string; Limit : Z }.
End FullTextQuery.

Inductive search_error := ErrIndexDisabled | ErrNothingToSearch.

Module MemoryLogStore.
Record t := mk { buf : list Entry.t; cap : nat; seq : Z; index : option (Index (K := Z)) }.
End MemoryLogStore.

Definition maxQueryLimit : Z := 1000.

Definition store_cap (cap : Z) : nat := Z.to_nat (if (cap <=? 0)%Z then 5000 else cap)%Z.

Definition NewMemory (cap : Z) : MemoryLogStore.t := MemoryLogStore.mk [] (store_cap cap) 0 None.
Definition NewMemoryWithIndex (cap : Z) : MemoryLogStore.t :=
  MemoryLogStore.mk [] (store_cap cap) 0 (Some NewIndex).

(** [Append] of an entry that is not nil. *)
Definition Append (now : time) (e : Entry.t) (m : MemoryLogStore.t) : MemoryLogStore.t :=
  let e := if IsZero (Entry.Timestamp e) then Entry.set_Timestamp now e else e in
  let seq := (MemoryLogStore.seq m + 1)%Z in
  let cp := Entry.set_ID seq e in
  let buf := MemoryLogStore.buf m ++ [cp] in
  let n := length buf - MemoryLogStore.cap m in
  let '(buf, index) :=
    if decide (MemoryLogStore.cap m < length buf) then
      (drop n buf,
       (fun idx => foldl (fun idx d => Remove (Entry.ID d) idx) idx (take n buf)) <$> MemoryLogStore.index m)
    else (buf, MemoryLogStore.index m) in
  MemoryLogStore.mk buf (MemoryLogStore.cap m) seq (Add (Entry.ID cp) (Entry.Message cp) <$> index).

Section queries.
Context (ToLower : string -> string) (EqualFold : string -> string -> bool) (log10 : float64 -> float64).

Definition matchEntry (e : Entry.t) (q : Query.t) : bool :=
  if (Query.TenantID q != "") && (Entry.TenantID e != Query.TenantID q) then false
  else if (Query.DeviceID q != "") && (Entry.DeviceID e != Query.DeviceID q) then false
  else if (Query.AgentID q != "") && (Entry.AgentID e != Query.AgentID q) then false
  else if (Query.Level q != "") && negb (EqualFold (Entry.Level e) (Query.Level q)) then false
  else if (Query.Source q != "") && negb (EqualFold (Entry.Source e) (Query.Source q)) then false
  else if (Query.Keyword q != "") &&
          negb (Contains (ToLower (Query.Keyword q)) (ToLower (Entry.Message e))) then false
  else if negb (IsZero (Query.From q)) && Before (Entry.Timestamp e) (Query.From q) then false
  else if negb (IsZero (Query.To q)) && After (Entry.Timestamp e) (Query.To q) then false
  else true.

Definition query_limit (limit : Z) : Z :=
  let limit := if (limit <=? 0)%Z then 200%Z else limit in
  if (limit >? maxQueryLimit)%Z then maxQueryLimit else limit.

(** The loop of [Query] over the entries from the newest: [skipped] hits have
    been passed over, [out] has been collected. *)
Fixpoint query_loop (limit offset : Z) (q : Query.t) (qnode : option QueryNode) (skipped : Z)
    (out : list Entry.t) (entries : list Entry.t) : list Entry.t :=
  match entries with
  | [] => out
  | e :: entries =>
      if negb (matchEntry e q) then query_loop limit offset q qnode skipped out entries
      else if match qnode with Some n => negb (Match n e) | None => false end
      then query_loop limit offset q qnode skipped out entries
      else if (skipped <? offset)%Z then query_loop limit offset q qnode (skipped + 1) out entries
      else
        let out := out ++ [e] in
        if (Z.of_nat (length out) >=? limit)%Z then out
        else query_loop limit offset q qnode skipped out entries
  end.

Definition QueryLogs (q : Query.t) (m : MemoryLogStore.t) : result parse_error (list Entry.t) :=
  let limit := query_limit (Query.Limit q) in
  let q := if (Query.Offset q <? 0)%Z then Query.set_Offset 0 q else q in
  '(qnode, q) ←
    (if Query.Q q != "" then
       n ← ParseQuery (Query.Q q); Ok (Some n, Query.set_Keyword "" q)
     else Ok (None, q));
  Ok (query_loop limit (Query.Offset q) q qnode 0 [] (rev (MemoryLogStore.buf m))).

(** The loop of [SearchFullText] over the ranked documents. *)
Fixpoint fulltext_loop (limit : Z) (base : Query.t) (entryMap : gmap Z Entry.t) (out : list Entry.t)
    (docIDs : list Z) : list Entry.t :=
  match docIDs with
  | [] => out
  | id :: docIDs =>
      match entryMap !! id with
      | None => fulltext_loop limit base entryMap out docIDs
      | Some e =>
          if negb (matchEntry e base) then fulltext_loop limit base entryMap out docIDs
          else
            let out := out ++ [e] in
            if (Z.of_nat (length out) >=? limit)%Z then out
            else fulltext_loop limit base entryMap out docIDs
      end
  end.

(** The documents in the order of the search that the query asks for; none of
    these searches changes the index. *)
Definition ranked (q : FullTextQuery.t) (idx : Index (K := Z)) : option (list Z) :=
  if FullTextQuery.Phrase q != "" then Some (SearchPhrase Z.ltb ToLower log10 (FullTextQuery.Phrase q) idx)
  else if negb (length (FullTextQuery.And q) == 0) then Some (SearchAnd Z.ltb ToLower log10 (FullTextQuery.And q) idx)
  else if negb (length (FullTextQuery.Or q) == 0) then Some (SearchOr Z.ltb ToLower log10 (FullTextQuery.Or q) idx)
  else if FullTextQuery.Not q != "" then Some (SearchNot Z.ltb ToLower (FullTextQuery.Not q) idx)
  else if FullTextQuery.Wildcard q != "" then Some (SearchWildcard Z.ltb ToLower log10 (FullTextQuery.Wildcard q) idx)
  else if FullTextQuery.Term q != "" then Some (Search Z.ltb ToLower log10 (FullTextQuery.Term q) idx)
  else None.

Definition SearchFullText (q : FullTextQuery.t) (m : MemoryLogStore.t) : result search_error (list Entry.t) :=
  match MemoryLogStore.index m with
  | None => Err ErrIndexDisabled
  | Some idx =>
      match ranked q idx with
      | None => Err ErrNothingToSearch
      | Some docIDs =>
          if length docIDs == 0 then Ok []
          else
            let base := Query.set_Q "" (Query.set_Keyword "" (FullTextQuery.Base q)) in
            let limit := query_limit (FullTextQuery.Limit q) in
            let entryMap := foldl (fun em e => <[Entry.ID e := e]> em) ∅ (MemoryLogStore.buf m) in
            Ok (fulltext_loop limit base entryMap [] docIDs)
      end
  end.
End queries.

(** ** Appending *)

(** What has been logged: the entries in order, stamped and numbered from 1. *)
Definition stamped (i : nat) (it : time * Entry.t) : Entry.t :=
  let e := if IsZero (Entry.Timestamp it.2) then Entry.set_Timestamp it.1 it.2 else it.2 in
  Entry.set_ID (Z.of_nat i + 1) e.
Definition logged (h : list (time * Entry.t)) : list Entry.t := imap stamped h.
Definition append_all (h : list (time * Entry.t)) (m : MemoryLogStore.t) : MemoryLogStore.t :=
  foldl (fun m it => Append it.1 it.2 m) m h.

(** The messages of some entries by id. *)
Definition messages (l : list Entry.t) : gmap Z string := list_to_map ((fun e => (Entry.ID e, Entry.Message e)) <$> l).

Definition consistent (m : MemoryLogStore.t) (h : list (time * Entry.t)) : Prop :=
  MemoryLogStore.buf m = lastn (MemoryLogStore.cap m) (logged h) /\
  MemoryLogStore.seq m = Z.of_nat (length h) /\ 0 < MemoryLogStore.cap m /\
  match MemoryLogStore.index m with
  | Some idx => represents idx (messages (MemoryLogStore.buf m))
  | None => True
  end.

Lemma logged_snoc h it : logged (h ++ [it]) = logged h ++ [stamped (length h) it].
Proof. unfold logged. rewrite imap_app. simpl. by rewrite Nat.add_0_r. Qed.

Lemma logged_ID h e : e ∈ logged h -> (0 < Entry.ID e <= Z.of_nat (length h))%Z.
Proof.
  intros (i & Hi)%list_elem_of_lookup. unfold logged in Hi. rewrite list_lookup_imap in Hi.
  destruct (h !! i) as [it |] eqn:E; simplify_eq/=. apply lookup_lt_Some in E.
  unfold stamped. destruct (IsZero (Entry.Timestamp it.2)); simpl; lia.
Qed.

Lemma logged_NoDup h : NoDup (Entry.ID <$> logged h).
Proof.
  induction h as [| it h IH] using rev_ind; [constructor |].
  rewrite logged_snoc, fmap_app. apply NoDup_app. split_and!; [done | | apply NoDup_singleton].
  intros id (e & -> & He)%list_elem_of_fmap. apply logged_ID in He. csimpl. rewrite list_elem_of_singleton.
  unfold stamped. destruct (IsZero (Entry.Timestamp it.2)); simpl; lia.
Qed.

Lemma messages_keys l id : messages l !! id = None <-> id ∉ Entry.ID <$> l.
Proof.
  unfold messages. rewrite <- not_elem_of_list_to_map, <- list_fmap_compose. done.
Qed.

Lemma messages_snoc l e : Entry.ID e ∉ Entry.ID <$> l -> messages (l ++ [e]) = <[Entry.ID e := Entry.Message e]> (messages l).
Proof.
  intros Hn. unfold messages. rewrite fmap_app, list_to_map_app. simpl. rewrite <- insert_union_r.
  - by rewrite map_union_empty.
  - by apply messages_keys.
Qed.

Lemma messages_tail e l : NoDup (Entry.ID <$> e :: l) -> delete (Entry.ID e) (messages (e :: l)) = messages l.
Proof.
  csimpl. intros [Hn _]%NoDup_cons. unfold messages. csimpl. apply delete_insert_id. by apply messages_keys.
Qed.

Lemma append_consistent now e m h : consistent m h -> consistent (Append now e m) (h ++ [(now, e)]).
Proof.
  intros (Hb & Hs & Hc & Hi). unfold Append, consistent.
  set (cp := Entry.set_ID _ _).
  assert (Hcp : cp = stamped (length h) (now, e)) by (unfold cp, stamped; rewrite Hs; done).
  rewrite logged_snoc, <- Hcp. set (buf := MemoryLogStore.buf m) in *.
  assert (Hlen : length buf <= MemoryLogStore.cap m) by (rewrite Hb, length_lastn; lia).
  assert (Hnd : NoDup (Entry.ID <$> buf ++ [cp])).
  { assert (H : NoDup (Entry.ID <$> logged h ++ [cp])) by (rewrite Hcp, <- logged_snoc; apply logged_NoDup).
    rewrite Hb. unfold lastn. rewrite <- (take_drop (length (logged h) - MemoryLogStore.cap m) (logged h)), <- app_assoc, fmap_app in H.
    by apply NoDup_app in H as (_ & _ & H). }
  assert (Hlast : lastn (MemoryLogStore.cap m) (logged h ++ [cp]) = lastn (MemoryLogStore.cap m) (buf ++ [cp]))
    by (by rewrite Hb, lastn_lastn_app).
  clearbody cp buf. assert (Hl1 : length (buf ++ [cp]) = S (length buf)) by (rewrite length_app; simpl; lia).
  case_decide as Hfull; rewrite Hl1 in *.
  - replace (S (length buf) - MemoryLogStore.cap m) with 1 by lia.
    destruct buf as [| e0 buf]; [simpl in *; lia |]. simpl in Hfull, Hlen.
    cbn [MemoryLogStore.buf MemoryLogStore.cap MemoryLogStore.seq MemoryLogStore.index]. rewrite Hlast.
    split_and!; [unfold lastn; rewrite Hl1; simpl length; f_equal; lia | rewrite length_app; simpl; lia | done |].
    change (drop 1 ((e0 :: buf) ++ [cp])) with (buf ++ [cp]).
    destruct (MemoryLogStore.index m) as [idx |]; cbn [fmap option_fmap option_map foldl take app]; [| done].
    change ((e0 :: buf) ++ [cp]) with (e0 :: buf ++ [cp]) in Hnd. csimpl in Hnd.
    rewrite fmap_app, NoDup_cons, NoDup_app in Hnd. destruct Hnd as (H0 & Hnd & Hcp' & _).
    assert (Hfresh : Entry.ID cp ∉ Entry.ID <$> buf) by (intros Hin; apply (Hcp' _ Hin); csimpl; by apply list_elem_of_here).
    rewrite messages_snoc by done. apply Add_represents. rewrite <- (messages_tail e0 buf); [by apply Remove_represents |].
    csimpl. apply NoDup_cons. split; [| done]. set_solver.
  - cbn [MemoryLogStore.buf MemoryLogStore.cap MemoryLogStore.seq MemoryLogStore.index]. rewrite Hlast.
    split_and!; [by rewrite lastn_all by (rewrite length_app; simpl; lia) | rewrite length_app; simpl; lia | done |].
    destruct (MemoryLogStore.index m) as [idx |]; simpl; [| done].
    rewrite fmap_app, NoDup_app in Hnd. destruct Hnd as (_ & Hcp' & _).
    assert (Hfresh : Entry.ID cp ∉ Entry.ID <$> buf) by (intros Hin; apply (Hcp' _ Hin); csimpl; by apply list_elem_of_here).
    rewrite messages_snoc by done. by apply Add_represents.
Qed.

Lemma append_all_consistent h m : consistent m [] -> consistent (append_all h m) h.
Proof.
  intros Hm. unfold append_all. induction h as [| [now e] h IH] using rev_ind; [done |].
  rewrite foldl_snoc. by apply append_consistent.
Qed.

Lemma new_consistent cap : consistent (NewMemory cap) [] /\ consistent (NewMemoryWithIndex cap) [].
Proof.
  assert (0 < store_cap cap) by (unfold store_cap; destruct (Z.leb_spec cap 0); lia).
  split; split_and!; done || apply represents_new.
Qed.

Lemma new_appended cap h :
  let m := append_all h (NewMemoryWithIndex cap) in
  MemoryLogStore.buf m = lastn (store_cap cap) (logged h) /\
  exists idx, MemoryLogStore.index m = Some idx /\ represents idx (messages (MemoryLogStore.buf m)).
Proof.
  cbn zeta.
  assert (H : MemoryLogStore.cap (append_all h (NewMemoryWithIndex cap)) = store_cap cap /\
              is_Some (MemoryLogStore.index (append_all h (NewMemoryWithIndex cap)))).
  { unfold append_all. induction h as [| it h IH] using rev_ind; [by split |].
    rewrite foldl_snoc. destruct IH as [IH1 IH2]. unfold Append. case_decide; (split; [exact IH1 |]);
      cbn [MemoryLogStore.index]; by rewrite ?fmap_is_Some. }
  destruct (append_all_consistent h _ (proj2 (new_consistent cap))) as (Hb & _ & _ & Hi).
  destruct H as [Hc [idx E]]. rewrite E in Hi. rewrite <- Hc at 1. split; [done |]. by exists idx.
Qed.

(** After any entries have been appended the buffer holds the last [cap] of
    them, numbered consecutively from 1, and the index is that of exactly the
    buffered messages. *)
Theorem log_is_window cap h :
  let m := append_all h (NewMemoryWithIndex cap) in
  MemoryLogStore.buf m = lastn (store_cap cap) (logged h) /\
  exists idx, MemoryLogStore.index m = Some idx /\ represents idx (messages (MemoryLogStore.buf m)).
Proof. apply new_appended. Qed.

(** ** Queries *)

Section queries.
Context (ToLower : string -> string) (EqualFold : string -> string -> bool) (log10 : float64 -> float64).

(** The entries that a query selects. *)
Definition selects (q : Query.t) (qnode : option QueryNode) (e : Entry.t) : bool :=
  matchEntry ToLower EqualFold e q && match qnode with Some n => Match n e | None => true end.

Lemma query_limit_range limit : (0 < query_limit limit <= maxQueryLimit)%Z.
Proof. unfold query_limit, maxQueryLimit. destruct (Z.leb_spec limit 0); case_match; lia. Qed.

Lemma query_loop_spec limit offset q qnode skipped out entries :
  (0 <= skipped <= offset)%Z -> (Z.of_nat (length out) < limit)%Z ->
  query_loop ToLower EqualFold limit offset q qnode skipped out entries =
    out ++ take (Z.to_nat limit - length out)
      (drop (Z.to_nat (offset - skipped)) (List.filter (selects q qnode) entries)).
Proof.
  revert skipped out. induction entries as [| e entries IH]; intros skipped out Hs Ho; cbn [query_loop List.filter].
  { by rewrite drop_nil, take_nil, app_nil_r. }
  unfold selects at 1. destruct (matchEntry ToLower EqualFold e q) eqn:Em; cbn [negb andb]; [| by apply IH].
  assert (Hhit : (if (skipped <? offset)%Z then
        query_loop ToLower EqualFold limit offset q qnode (skipped + 1) out entries
      else if (Z.of_nat (length (out ++ [e])) >=? limit)%Z then out ++ [e]
      else query_loop ToLower EqualFold limit offset q qnode skipped (out ++ [e]) entries) =
      out ++ take (Z.to_nat limit - length out)
        (drop (Z.to_nat (offset - skipped)) (e :: List.filter (selects q qnode) entries))).
  { destruct (Z.ltb_spec skipped offset).
    - rewrite IH by lia. by replace (Z.to_nat (offset - skipped)) with (S (Z.to_nat (offset - (skipped + 1)))) by lia.
    - replace (Z.to_nat (offset - skipped)) with 0 by lia. rewrite drop_0.
      assert (Hlen : length (out ++ [e]) = S (length out)) by (rewrite length_app; simpl; lia).
      replace (Z.to_nat limit - length out) with (S (Z.to_nat limit - length (out ++ [e]))) by lia.
      cbn [take]. destruct (Z.of_nat (length (out ++ [e])) >=? limit)%Z eqn:E.
      + apply Z.geb_le in E. replace (Z.to_nat limit - length (out ++ [e])) with 0 by lia. done.
      + rewrite IH by lia. replace (Z.to_nat (offset - skipped)) with 0 by lia. by rewrite drop_0, <- app_assoc. }
  destruct qnode as [n |]; [| exact Hhit]. destruct (Match n e); cbn [negb]; [exact Hhit | by apply IH].
Qed.

(** A query returns, of the entries that match its conditions and, when it
    has a structured part, the parsed tree, newest first, the page of at most
    [Limit] entries after the first [Offset] ones; it fails only when the
    structured part does not parse; the keyword counts only without one. *)
Theorem query_returns_page q m :
  let page q' qnode :=
    take (Z.to_nat (query_limit (Query.Limit q)))
      (drop (Z.to_nat (Query.Offset q)) (List.filter (selects q' qnode) (rev (MemoryLogStore.buf m)))) in
  QueryLogs ToLower EqualFold q m =
    if Query.Q q == "" then Ok (page q None)
    else n ← ParseQuery (Query.Q q); Ok (page (Query.set_Keyword "" q) (Some n)).
Proof.
  cbn zeta. unfold QueryLogs. pose proof (query_limit_range (Query.Limit q)) as Hl.
  set (q1 := if (Query.Offset q <? 0)%Z then Query.set_Offset 0 q else q).
  assert (Hq : Query.Q q1 = Query.Q q /\ (0 <= Query.Offset q1)%Z /\ Z.to_nat (Query.Offset q1) = Z.to_nat (Query.Offset q) /\
    forall kw e, matchEntry ToLower EqualFold e (if kw : bool then Query.set_Keyword "" q1 else q1) =
                 matchEntry ToLower EqualFold e (if kw then Query.set_Keyword "" q else q)).
  { unfold q1. destruct (Z.ltb_spec (Query.Offset q) 0); simpl; (split_and!; [done | lia | lia | by intros []]). }
  destruct Hq as (HQ & Ho & Hto & Hm). clearbody q1. rewrite HQ.
  assert (Hrun : forall (kw : bool) qnode,
    query_loop ToLower EqualFold (query_limit (Query.Limit q)) (Query.Offset q1)
      (if kw then Query.set_Keyword "" q1 else q1) qnode 0 [] (rev (MemoryLogStore.buf m)) =
    take (Z.to_nat (query_limit (Query.Limit q))) (drop (Z.to_nat (Query.Offset q))
      (List.filter (selects (if kw then Query.set_Keyword "" q else q) qnode) (rev (MemoryLogStore.buf m))))).
  { intros kw qnode. rewrite query_loop_spec by (simpl; lia). simpl. rewrite Nat.sub_0_r, Z.sub_0_r, Hto.
    do 2 f_equal. apply List.filter_ext. intros e. unfold selects. by rewrite Hm. }
  case_bool_decide; cbn [negb mbind result_bind].
  - f_equal. apply (Hrun false).
  - destruct (ParseQuery (Query.Q q)) as [n | x]; cbn [mbind result_bind]; [| done]. f_equal. apply (Hrun true).
Qed.

Lemma fulltext_loop_spec limit base em out ids :
  (Z.of_nat (length out) < limit)%Z ->
  fulltext_loop ToLower EqualFold limit base em out ids =
    out ++ take (Z.to_nat limit - length out)
      (List.filter (fun e => matchEntry ToLower EqualFold e base) (omap (fun id => em !! id) ids)).
Proof.
  revert out. induction ids as [| id ids IH]; intros out Ho; cbn [fulltext_loop].
  { simpl. by rewrite take_nil, app_nil_r. }
  csimpl. destruct (em !! id) as [e |]; [| by apply IH]. cbn [List.filter].
  destruct (matchEntry ToLower EqualFold e base) eqn:Em; cbn [negb]; [| by apply IH].
  assert (Hlen : length (out ++ [e]) = S (length out)) by (rewrite length_app; simpl; lia).
  replace (Z.to_nat limit - length out) with (S (Z.to_nat limit - length (out ++ [e]))) by lia.
  cbn [take]. destruct (Z.of_nat (length (out ++ [e])) >=? limit)%Z eqn:E.
  - apply Z.geb_le in E. by replace (Z.to_nat limit - length (out ++ [e])) with 0 by lia.
  - rewrite IH by lia. by rewrite <- app_assoc.
Qed.

(** The map of the buffered entries by id. *)
Lemma entry_map_spec l id e :
  NoDup (Entry.ID <$> l) ->
  foldl (fun em e => <[Entry.ID e := e]> em) (∅ : gmap Z Entry.t) l !! id = Some e <-> e ∈ l /\ Entry.ID e = id.
Proof.
  induction l as [| x l IH] using rev_ind; intros Hnd.
  { simpl. rewrite lookup_empty. split; [done | by intros [?%elem_of_nil _]]. }
  rewrite foldl_snoc. rewrite fmap_app, NoDup_app in Hnd. destruct Hnd as (Hnd & Hx & _).
  rewrite elem_of_app, list_elem_of_singleton. destruct (decide (Entry.ID x = id)) as [<- | Hne].
  - rewrite lookup_insert_eq. split; [intros [= <-]; by auto |]. intros [[He | ->] Hid]; [| done].
    exfalso. apply (Hx (Entry.ID x)); [rewrite <- Hid; by apply list_elem_of_fmap_2 | csimpl; by apply list_elem_of_here].
  - rewrite lookup_insert_ne, IH by done. naive_solver.
Qed.

(** The documents that a full-text query without a wildcard asks for. *)
Definition wanted (q : FullTextQuery.t) (docs : gmap Z string) (id : Z) : Prop :=
  if FullTextQuery.Phrase q != "" then
    Tokenize (FullTextQuery.Phrase q) <> [] /\ has_phrase docs (Tokenize (FullTextQuery.Phrase q)) id
  else if negb (length (FullTextQuery.And q) == 0) then
    forall t, t ∈ FullTextQuery.And q -> matching docs (ToLower t) id
  else if negb (length (FullTextQuery.Or q) == 0) then
    exists t, t ∈ FullTextQuery.Or q /\ matching docs (ToLower t) id
  else if FullTextQuery.Not q != "" then is_Some (docs !! id) /\ ~ matching docs (ToLower (FullTextQuery.Not q)) id
  else FullTextQuery.Term q <> "" /\ matching docs (ToLower (FullTextQuery.Term q)) id.

Lemma ranked_finds q idx docs ids :
  represents idx docs -> lowers ToLower -> FullTextQuery.Wildcard q = "" ->
  ranked ToLower log10 q idx = Some ids -> finds ids (wanted q docs).
Proof.
  intros Hr Hlow Hw. unfold ranked, wanted. rewrite Hw.
  case_bool_decide as E1; cbn [negb]; [| intros [= <-]; by apply SearchPhrase_finds].
  case_bool_decide as E2; cbn [negb]; [| intros [= <-]].
  - case_bool_decide as E3; cbn [negb]; [| intros [= <-]; by apply SearchOr_finds].
    case_bool_decide as E4; cbn [negb]; [| intros [= <-]; by apply SearchNot_finds].
    rewrite (bool_decide_true ("" = "")) by done. cbn [negb].
    case_bool_decide as E5; cbn [negb]; [done | intros [= <-]].
    destruct (Search_finds Z.ltb ToLower log10 idx docs (FullTextQuery.Term q) Hr) as [Hn Hs].
    split; [done |]. intros id. rewrite Hs. naive_solver.
  - destruct (SearchAnd_finds Z.ltb ToLower log10 idx docs (FullTextQuery.And q) Hr) as [Hn Hs].
    split; [done |]. intros id. rewrite Hs. split; [by intros [] |]. intros Hall. split; [| done].
    intros E. by rewrite E in E2.
Qed.

(** The messages of the buffered entries with the id. *)
Lemma messages_lookup l id text :
  NoDup (Entry.ID <$> l) ->
  messages l !! id = Some text <-> exists e, e ∈ l /\ Entry.ID e = id /\ Entry.Message e = text.
Proof.
  intros Hnd. unfold messages. rewrite <- elem_of_list_to_map.
  - rewrite list_elem_of_fmap. naive_solver.
  - by rewrite <- list_fmap_compose.
Qed.

Lemma buffer_NoDup m h : consistent m h -> NoDup (Entry.ID <$> MemoryLogStore.buf m).
Proof.
  intros (Hb & _). pose proof (logged_NoDup h) as Hnd. rewrite Hb. unfold lastn.
  rewrite <- (take_drop (length (logged h) - MemoryLogStore.cap m) (logged h)), fmap_app in Hnd.
  by apply NoDup_app in Hnd as (_ & _ & Hnd).
Qed.

(** A full-text query without a wildcard, after any appends, returns the
    first [Limit] of a list without repetitions of exactly the buffered entries
    that match its basic conditions (structured part and keyword aside) and
    whose message is what it asks for: so an entry is found as soon as it is
    logged and until it leaves the buffer, and a deleted one never. *)
Theorem fulltext_finds_logged cap h q ids :
  lowers ToLower -> FullTextQuery.Wildcard q = "" ->
  let m := append_all h (NewMemoryWithIndex cap) in
  MemoryLogStore.index m ≫= ranked ToLower log10 q = Some ids ->
  exists l, SearchFullText ToLower EqualFold log10 q m = Ok (take (Z.to_nat (query_limit (FullTextQuery.Limit q))) l) /\
    NoDup l /\ forall e, e ∈ l <-> e ∈ lastn (store_cap cap) (logged h) /\
      matchEntry ToLower EqualFold e (Query.set_Q "" (Query.set_Keyword "" (FullTextQuery.Base q))) = true /\
      wanted q (messages (lastn (store_cap cap) (logged h))) (Entry.ID e).
Proof.
  intros Hlow Hw. cbn zeta. destruct (new_appended cap h) as (Hb & idx & Ei & Hr).
  pose proof (append_all_consistent h _ (proj2 (new_consistent cap))) as Hcon. apply buffer_NoDup in Hcon.
  set (m := append_all h _) in *. rewrite Ei, <- Hb. simpl. intros Hids.
  destruct (ranked_finds q idx _ ids Hr Hlow Hw Hids) as [Hnd Hf].
  unfold SearchFullText. rewrite Ei, Hids.
  set (base := Query.set_Q _ _). set (em := foldl _ ∅ _).
  assert (Hem : forall id e, em !! id = Some e <-> e ∈ MemoryLogStore.buf m /\ Entry.ID e = id)
    by (intros; by apply entry_map_spec).
  exists (List.filter (fun e => matchEntry ToLower EqualFold e base) (omap (fun id => em !! id) ids)).
  pose proof (query_limit_range (FullTextQuery.Limit q)) as Hl. split_and!.
  - case_bool_decide as E; [by apply nil_length_inv in E as ->; simpl; rewrite take_nil |].
    rewrite fulltext_loop_spec by (simpl; lia). simpl. by rewrite Nat.sub_0_r.
  - apply NoDup_ListNoDup, List.NoDup_filter, NoDup_ListNoDup.
    apply (NoDup_fmap_1 Entry.ID). clear Hf Hids.
    assert (Hsub : Entry.ID <$> omap (fun id => em !! id) ids `sublist_of` ids).
    { induction ids as [| id ids IH]; csimpl; [constructor |]. apply NoDup_cons in Hnd as [_ Hnd].
      destruct (em !! id) as [e |] eqn:E; csimpl; [| constructor; by apply IH].
      apply Hem in E as [_ ->]. constructor. by apply IH. }
    by eapply sublist_NoDup.
  - intros e. rewrite list_elem_of_In, List.filter_In, <- list_elem_of_In, list_elem_of_omap.
    setoid_rewrite Hem. setoid_rewrite Hf. naive_solver.
Qed.

(** Tenants are isolated in the log: a query for a tenant returns entries of
    that tenant only, whatever its structured part or text, and so does a
    full-text query. *)
Theorem log_tenant_isolation q ftq m l e :
  QueryLogs ToLower EqualFold q m = Ok l \/
    SearchFullText ToLower EqualFold log10 ftq m = Ok l /\ Query.TenantID (FullTextQuery.Base ftq) = Query.TenantID q ->
  Query.TenantID q <> "" -> e ∈ l -> Entry.TenantID e = Query.TenantID q.
Proof.
  assert (Hmatch : forall q e, matchEntry ToLower EqualFold e q = true -> Query.TenantID q <> "" ->
            Entry.TenantID e = Query.TenantID q).
  { intros q' e' H Hne. unfold matchEntry in H. rewrite (bool_decide_false (Query.TenantID q' = "")) in H by done.
    cbn [negb andb] in H. by case_bool_decide. }
  assert (Hpage : forall a b (l' : list Entry.t), e ∈ take a (drop b l') -> e ∈ l').
  { intros a b l' He. rewrite <- (take_drop b l'), elem_of_app. right.
    rewrite <- (take_drop a (drop b l')), elem_of_app. by left. }
  intros [Hq | [Hq Ht]] Hne He.
  - rewrite query_returns_page in Hq. case_bool_decide as E.
    + injection Hq as <-. apply Hpage in He. apply list_elem_of_In, List.filter_In in He as [_ He].
      apply Hmatch; [| done]. unfold selects in He. by apply andb_true_iff in He as [He _].
    + destruct (ParseQuery (Query.Q q)) as [n |]; simpl in Hq; [| done]. injection Hq as <-.
      apply Hpage in He. apply list_elem_of_In, List.filter_In in He as [_ He].
      apply (Hmatch (Query.set_Keyword "" q)); [| done]. unfold selects in He. by apply andb_true_iff in He as [He _].
  - unfold SearchFullText in Hq. destruct (MemoryLogStore.index m) as [idx |]; [| done].
    destruct (ranked ToLower log10 ftq idx) as [ids |]; [| done].
    case_bool_decide; [injection Hq as <-; by apply elem_of_nil in He |].
    pose proof (query_limit_range (FullTextQuery.Limit ftq)).
    rewrite fulltext_loop_spec in Hq by (simpl; lia). injection Hq as <-. rewrite <- (drop_0 (List.filter _ _)) in He.
    apply Hpage in He. apply list_elem_of_In, List.filter_In in He as [_ He].
    rewrite <- Ht. apply (Hmatch (Query.set_Q "" (Query.set_Keyword "" (FullTextQuery.Base ftq)))); [done |].
    simpl. by rewrite Ht.
Qed.
End queries.

(** ** Witnesses *)

Definition ex_entry (tenant msg : string) : Entry.t := Entry.mk 0 tenant "dev-1" "ag-1" "" 5 "error" "task" msg.
Definition ex_history : list (time * Entry.t) :=
  [(1%Z, ex_entry "acme" "disk full"); (2%Z, ex_entry "acme" "disk web1 ok"); (3%Z, ex_entry "corp" "disk slow")].
Definition ex_base : Query.t := Query.mk "acme" "" "" "" "" "" "" 0 0 0 0.
Definition ex_search : FullTextQuery.t := FullTextQuery.mk ex_base "Disk" "" [] [] "" "" 10.

Lemma fulltext_finds_logged_witness :
  exists l, SearchFullText lower_ascii String.eqb id ex_search (append_all ex_history (NewMemoryWithIndex 2)) = Ok (take 10 l) /\
    NoDup l /\ forall e, e ∈ l <-> e ∈ lastn 2 (logged ex_history) /\
      matchEntry lower_ascii String.eqb e ex_base = true /\
      wanted lower_ascii ex_search (messages (lastn 2 (logged ex_history))) (Entry.ID e).
Proof.
  apply (fulltext_finds_logged lower_ascii String.eqb id 2 ex_history ex_search [2; 3]%Z lower_ascii_lowers);
    [reflexivity | vm_compute; reflexivity].
Defined.

Definition ex_query : Query.t := Query.mk "acme" "" "" "" "" "" "NOT message~full OR source=task" 0 0 1 0.

Lemma log_tenant_isolation_witness :
  Entry.TenantID (stamped 1 (2%Z, ex_entry "acme" "disk web1 ok")) = "acme".
Proof.
  apply (log_tenant_isolation lower_ascii String.eqb id ex_query ex_search
    (append_all ex_history (NewMemoryWithIndex 2)) [stamped 1 (2%Z, ex_entry "acme" "disk web1 ok")]);
    [left; vm_compute; reflexivity | discriminate | apply list_elem_of_here].
Defined.
