(* ===== verification/Deploy.v ===== *)
(** * Deployments ([internal/deploy]: [model.go], [store.go], [handler.go])

    A deployment sends its tasks to targets either at once (rolling, blue-green)
    or in growing shares (canary), waits for their results, and is promoted or
    rolled back.  [DeployStore] is [MemoryDeployStore]; the handler's operations
    work on a store and on the task engine behind the interface [Dispatcher],
    which is a class, so they run over any engine.  Each operation reads the
    clock once, as [now].  Records are values: [Update] keeps the pointer that it
    is given, which the handler does not use afterwards.  Not here: the HTTP
    routes. *)

From Stdlib Require Import Ascii.
From S2P Require Import Proto GoStrings Float64 Prelude.
Open Scope go_scope.

(** ** Data ([model.go]) *)

Definition StatusCreated : string := "created".
Definition StatusRunning : string := "running".
Definition StatusCanary : string := "canary".
Definition StatusPromoting : string := "promoting".
Definition StatusGated : string := "gated".
Definition StatusSuccess : string := "success".
Definition StatusFailed : string := "failed".
Definition StatusRolledBack : string := "rolledback".

Definition TypeScript : string := "script".
Definition TypeFile : string := "file".
Definition TypeK8s : string := "k8s".

Definition StrategyRolling : string := "rolling".
Definition StrategyCanary : string := "canary".
Definition StrategyBlueGreen : string := "bluegreen".

Definition defaultGateSuccessRate : float64 := f_of_int 100.
Definition defaultGateMaxFailRate : float64 := f_zero.
Definition defaultCanaryWeight : Z := 10.
Definition canaryWeightMin : Z := 0.
Definition canaryWeightMax : Z := 100.

(** The characters of [repoURLUnsafeChars], by code. *)
Definition repoURLUnsafeChars : list ascii :=
  ascii_of_nat <$> [32; 9; 10; 13; 59; 38; 124; 96; 36; 34; 39; 60; 62; 40; 41; 123; 125; 91; 93; 42; 63; 33; 92; 35; 126].

Module GateConfig.
Record t := mk {
  SuccessRate : float64; MaxFailRate : float64; MinSuccessCount : Z; HealthCheckURL : string }.
Definition set_SuccessRate v g := mk v (MaxFailRate g) (MinSuccessCount g) (HealthCheckURL g).
End GateConfig.

(** [deploy.DeployTask]; an assignment [x.F = v] is [set_F v x]. *)
Module DeployTask.
Record t := mk {
  ID : Z; Name : string; Type_ : string; RepoURL : string; Content : string; Path : string;
  TargetIDs : string; TaskIDs : string; TenantID : string; CreatedBy : string; Status : string;
  CreatedAt : time; UpdatedAt : time; Strategy : string; CanaryWeight : Z; AutoRollback : bool;
  Gate : option GateConfig.t; CanaryTargets : string; StableTargets : string;
}.

Definition set_ID (v : Z) (r : t) : t :=
  mk v (Name r) (Type_ r) (RepoURL r) (Content r) (Path r) (TargetIDs r) (TaskIDs r)
     (TenantID r) (CreatedBy r) (Status r) (CreatedAt r) (UpdatedAt r) (Strategy r)
     (CanaryWeight r) (AutoRollback r) (Gate r) (CanaryTargets r) (StableTargets r).
Definition set_TargetIDs (v : string) (r : t) : t :=
  mk (ID r) (Name r) (Type_ r) (RepoURL r) (Content r) (Path r) v (TaskIDs r) (TenantID r)
     (CreatedBy r) (Status r) (CreatedAt r) (UpdatedAt r) (Strategy r) (CanaryWeight r)
     (AutoRollback r) (Gate r) (CanaryTargets r) (StableTargets r).
Definition set_TaskIDs (v : string) (r : t) : t :=
  mk (ID r) (Name r) (Type_ r) (RepoURL r) (Content r) (Path r) (TargetIDs r) v (TenantID r)
     (CreatedBy r) (Status r) (CreatedAt r) (UpdatedAt r) (Strategy r) (CanaryWeight r)
     (AutoRollback r) (Gate r) (CanaryTargets r) (StableTargets r).
Definition set_TenantID (v : string) (r : t) : t :=
  mk (ID r) (Name r) (Type_ r) (RepoURL r) (Content r) (Path r) (TargetIDs r) (TaskIDs r) v
     (CreatedBy r) (Status r) (CreatedAt r) (UpdatedAt r) (Strategy r) (CanaryWeight r)
     (AutoRollback r) (Gate r) (CanaryTargets r) (StableTargets r).
Definition set_Status (v : string) (r : t) : t :=
  mk (ID r) (Name r) (Type_ r) (RepoURL r) (Content r) (Path r) (TargetIDs r) (TaskIDs r)
     (TenantID r) (CreatedBy r) v (CreatedAt r) (UpdatedAt r) (Strategy r) (CanaryWeight r)
     (AutoRollback r) (Gate r) (CanaryTargets r) (StableTargets r).
Definition set_CreatedAt (v : time) (r : t) : t :=
  mk (ID r) (Name r) (Type_ r) (RepoURL r) (Content r) (Path r) (TargetIDs r) (TaskIDs r)
     (TenantID r) (CreatedBy r) (Status r) v (UpdatedAt r) (Strategy r) (CanaryWeight r)
     (AutoRollback r) (Gate r) (CanaryTargets r) (StableTargets r).
Definition set_UpdatedAt (v : time) (r : t) : t :=
  mk (ID r) (Name r) (Type_ r) (RepoURL r) (Content r) (Path r) (TargetIDs r) (TaskIDs r)
     (TenantID r) (CreatedBy r) (Status r) (CreatedAt r) v (Strategy r) (CanaryWeight r)
     (AutoRollback r) (Gate r) (CanaryTargets r) (StableTargets r).
Definition set_CanaryWeight (v : Z) (r : t) : t :=
  mk (ID r) (Name r) (Type_ r) (RepoURL r) (Content r) (Path r) (TargetIDs r) (TaskIDs r)
     (TenantID r) (CreatedBy r) (Status r) (CreatedAt r) (UpdatedAt r) (Strategy r) v
     (AutoRollback r) (Gate r) (CanaryTargets r) (StableTargets r).
Definition set_CanaryTargets (v : string) (r : t) : t :=
  mk (ID r) (Name r) (Type_ r) (RepoURL r) (Content r) (Path r) (TargetIDs r) (TaskIDs r)
     (TenantID r) (CreatedBy r) (Status r) (CreatedAt r) (UpdatedAt r) (Strategy r)
     (CanaryWeight r) (AutoRollback r) (Gate r) v (StableTargets r).
Definition set_StableTargets (v : string) (r : t) : t :=
  mk (ID r) (Name r) (Type_ r) (RepoURL r) (Content r) (Path r) (TargetIDs r) (TaskIDs r)
     (TenantID r) (CreatedBy r) (Status r) (CreatedAt r) (UpdatedAt r) (Strategy r)
     (CanaryWeight r) (AutoRollback r) (Gate r) (CanaryTargets r) v.
End DeployTask.

Inductive deploy_error :=
  | ErrInvalid (msg : string)
  | ErrNotFound
  | ErrTenantMismatch
  | NotExecutable (status : string)
  | CannotPromote (status : string)
  | NoCanaryStage
  | CannotRollback (status : string)
  | NotCanary (strategy : string)
  | CannotAdvance (status : string)
  | WeightOutOfRange (weight : Z)
  | NoAdvance (weight current : Z)
  | NoTargets (weight : Z)
  | DispatchFailed (target : string) (cause : string)
  (** a run-time panic *)
  | Panicked.

Definition isZeroGate (g : GateConfig.t) : bool :=
  f_eq (GateConfig.SuccessRate g) f_zero && f_eq (GateConfig.MaxFailRate g) f_zero &&
  (GateConfig.MinSuccessCount g =? 0)%Z.

(** The gate in force: [ResolvedGate] and [ResolvedFedGate] are the same
    function of the [Gate] field. *)
Definition resolveGate (gate : option GateConfig.t) : GateConfig.t :=
  match gate with
  | Some g => if isZeroGate g then GateConfig.set_SuccessRate defaultGateSuccessRate g else g
  | None => GateConfig.mk defaultGateSuccessRate defaultGateMaxFailRate 0 ""
  end.
Definition ResolvedGate (d : DeployTask.t) : GateConfig.t := resolveGate (DeployTask.Gate d).

Definition EffectiveStrategy (d : DeployTask.t) : string :=
  if DeployTask.Strategy d == "" then StrategyRolling else DeployTask.Strategy d.

Definition EffectiveCanaryWeight (d : DeployTask.t) : Z :=
  if (DeployTask.CanaryWeight d <=? 0)%Z || (DeployTask.CanaryWeight d >? canaryWeightMax)%Z
  then defaultCanaryWeight else DeployTask.CanaryWeight d.

Definition validateRepoURL (u : string) : option deploy_error :=
  if existsb (fun c => ContainsChar c u) repoURLUnsafeChars
  then Some (ErrInvalid "repo_url contains shell metacharacters and is rejected for safety")
  else if forallb (fun p => negb (HasPrefix p u)) ["https://"; "http://"; "git://"; "ssh://"; "git@"; "/"]
  then Some (ErrInvalid "repo_url must start with http(s)://, git://, ssh://, git@, or /")
  else None.

(** A rate outside of 0 to 100. *)
Definition bad_rate (r : float64) : bool := f_lt r f_zero || f_lt (f_of_int 100) r.
Definition validateGate (gate : option GateConfig.t) : option deploy_error :=
  match gate with
  | None => None
  | Some g =>
      if bad_rate (GateConfig.SuccessRate g) then Some (ErrInvalid "gate.success_rate must be in [0,100]")
      else if bad_rate (GateConfig.MaxFailRate g) then Some (ErrInvalid "gate.max_fail_rate must be in [0,100]")
      else None
  end.

Definition Valid (d : DeployTask.t) : option deploy_error :=
  if DeployTask.Name d == "" then Some (ErrInvalid "name required")
  else if negb ((DeployTask.Type_ d == TypeScript) || (DeployTask.Type_ d == TypeFile) || (DeployTask.Type_ d == TypeK8s))
  then Some (ErrInvalid "type must be script/file/k8s")
  else if DeployTask.TargetIDs d == "" then Some (ErrInvalid "target_ids required")
  else
    match (if DeployTask.RepoURL d != "" then validateRepoURL (DeployTask.RepoURL d) else None) with
    | Some e => Some e
    | None =>
        if negb ((DeployTask.Strategy d == "") || (DeployTask.Strategy d == StrategyRolling) ||
                 (DeployTask.Strategy d == StrategyCanary) || (DeployTask.Strategy d == StrategyBlueGreen))
        then Some (ErrInvalid "strategy must be rolling/canary/bluegreen")
        else if (DeployTask.CanaryWeight d <? canaryWeightMin)%Z || (DeployTask.CanaryWeight d >? canaryWeightMax)%Z
        then Some (ErrInvalid "canary_weight must be in [0,100]")
        else validateGate (DeployTask.Gate d)
    end.

(** ** Store ([store.go]) *)

Module DeployStore.
Record t := mk { m : gmap Z DeployTask.t; seqno : Z }.
Definition NewMemory : t := mk ∅ 0.

Definition Create (now : time) (dt : DeployTask.t) (s : t) : t * result deploy_error DeployTask.t :=
  if DeployTask.TenantID dt == "" then (s, Err (ErrInvalid "tenant_id required"))
  else
    match Valid dt with
    | Some e => (s, Err e)
    | None =>
        let dt := if DeployTask.Status dt == "" then DeployTask.set_Status StatusCreated dt else dt in
        let dt := if IsZero (DeployTask.CreatedAt dt) then DeployTask.set_CreatedAt now dt else dt in
        let dt := DeployTask.set_UpdatedAt now dt in
        let seq := (seqno s + 1)%Z in
        let dt := DeployTask.set_ID seq dt in
        (mk (<[seq := dt]> (m s)) seq, Ok dt)
    end.

Definition Get (id : Z) (tenantID : string) (s : t) : result deploy_error DeployTask.t :=
  match m s !! id with
  | None => Err ErrNotFound
  | Some dt =>
      if (tenantID != "") && (DeployTask.TenantID dt != tenantID) then Err ErrTenantMismatch else Ok dt
  end.

Definition Update (now : time) (dt : DeployTask.t) (s : t) : t * option deploy_error :=
  match m s !! DeployTask.ID dt with
  | None => (s, Some ErrNotFound)
  | Some old =>
      if (DeployTask.TenantID dt != "") && (DeployTask.TenantID old != DeployTask.TenantID dt)
      then (s, Some ErrTenantMismatch)
      else (mk (<[DeployTask.ID dt := DeployTask.set_UpdatedAt now dt]> (m s)) (seqno s), None)
  end.

(** [range] enumerates the map in the order Go visits it. *)
Definition List (range : gmap Z DeployTask.t -> list DeployTask.t) (tenantID status : string) (s : t)
  : list DeployTask.t :=
  List.filter (fun dt => negb ((tenantID != "") && (DeployTask.TenantID dt != tenantID)) &&
                         negb ((status != "") && (DeployTask.Status dt != status))) (range (m s)).

Definition Delete (id : Z) (tenantID : string) (s : t) : t * option deploy_error :=
  match m s !! id with
  | None => (s, Some ErrNotFound)
  | Some dt =>
      if (tenantID != "") && (DeployTask.TenantID dt != tenantID) then (s, Some ErrTenantMismatch)
      else (mk (delete id (m s)) (seqno s), None)
  end.
End DeployStore.

Definition SplitIDs (s : string) : list string :=
  if s == "" then []
  else List.filter (fun seg => seg != "") (TrimSpace <$> flat_map (Split " ") (Split "," s)).

(** ** Handler ([handler.go]) *)

(** The interface to the task engine, over the engine's state [W]; the errors of
    [CreateTask] are texts. *)
Class Dispatcher (W : Type) := {
  disp_CreateTask : Task.t -> W -> W * result string (option Task.t);
  disp_Device : string -> W -> option DeviceInfo.t;
  disp_TaskStates : list string -> string -> W -> gmap string string;
}.

Definition TaskTypeShell : string := "shell".
Definition TaskTypeFile : string := "file".

Definition deployTypeToTaskType (ty : string) : string :=
  if (ty == TypeScript) || (ty == TypeK8s) then TaskTypeShell
  else if ty == TypeFile then TaskTypeFile
  else TaskTypeShell.

(** The first [weight] percent of the targets, at least one. *)
Definition selectCanaryTargets (all : list string) (weight : Z) : list string :=
  if (length all == 0) || (weight <=? 0)%Z then []
  else if (weight >=? canaryWeightMax)%Z then all
  else
    let k := (Z.of_nat (length all) * weight / canaryWeightMax)%Z in
    let k := if (k <? 1)%Z then 1%Z else k in
    let k := if (k >? Z.of_nat (length all))%Z then Z.of_nat (length all) else k in
    take (Z.to_nat k) all.

Definition evaluateGate (gate : GateConfig.t) (done_ failed total : Z) : bool :=
  if (total =? 0)%Z then false
  else
    let gate :=
      if f_eq (GateConfig.SuccessRate gate) f_zero && f_lt f_zero (GateConfig.MaxFailRate gate)
      then GateConfig.set_SuccessRate f_one gate else gate in
    let percent n := f_mul (f_div (f_of_int n) (f_of_int total)) (f_of_int 100) in
    if f_lt f_zero (GateConfig.SuccessRate gate) && f_lt (percent done_) (GateConfig.SuccessRate gate) then false
    else if f_lt f_zero (GateConfig.MaxFailRate gate) && f_lt (GateConfig.MaxFailRate gate) (percent failed) then false
    else if (GateConfig.MinSuccessCount gate >? 0)%Z && (done_ <? GateConfig.MinSuccessCount gate)%Z then false
    else if isZeroGate gate && (failed >? 0)%Z then false
    else true.

(** [t := &proto.Task{...}] for a target on agent [agentID]. *)
Definition deploy_task (dt : DeployTask.t) (agentID : string) : Task.t :=
  let t := Task.set_AgentID agentID Task.zero in
  let t := Task.set_TenantID (DeployTask.TenantID dt) t in
  let t := Task.set_Type_ (deployTypeToTaskType (DeployTask.Type_ dt)) t in
  let t := Task.set_Command (DeployTask.RepoURL dt) t in
  let t := Task.set_Content (DeployTask.Content dt) t in
  let t := Task.set_Path (DeployTask.Path dt) t in
  Task.set_Status "pending" t.

Section handler.
Context {W : Type} `{!Dispatcher W}.

Record Handler := mk_handler { store : DeployStore.t; world : W }.

Definition update (now : time) (dt : DeployTask.t) (h : Handler) : Handler * option deploy_error :=
  let (s, e) := DeployStore.Update now dt (store h) in (mk_handler s (world h), e).

(** The loop over the targets that dispatches a task to each one that has an
    agent, and collects the ids of the tasks. *)
Fixpoint dispatch (dt : DeployTask.t) (targets taskIDs : list string) (w : W)
  : W * result deploy_error (list string) :=
  match targets with
  | [] => (w, Ok taskIDs)
  | tid :: targets =>
      match disp_Device tid w with
      | None => dispatch dt targets taskIDs w
      | Some dev =>
          if DeviceInfo.AgentID dev == "" then dispatch dt targets taskIDs w
          else
            match disp_CreateTask (deploy_task dt (DeviceInfo.AgentID dev)) w with
            | (w, Err cause) => (w, Err (DispatchFailed tid cause))
            | (w, Ok (Some created)) =>
                if Task.TaskID created != "" then dispatch dt targets (taskIDs ++ [Task.TaskID created]) w
                else dispatch dt targets taskIDs w
            | (w, Ok None) => dispatch dt targets taskIDs w
            end
      end
  end.

(** The targets [Execute] starts with.  [allTargets[:1]] of an empty list is
    its unused first slot when the text was not empty, and a panic when it was. *)
Definition first_targets (dt : DeployTask.t) : result deploy_error (list string) :=
  let allTargets := SplitIDs (DeployTask.TargetIDs dt) in
  if EffectiveStrategy dt == StrategyCanary then
    let targets := selectCanaryTargets allTargets (EffectiveCanaryWeight dt) in
    if length targets == 0 then
      match allTargets with
      | t :: _ => Ok [t]
      | [] => if DeployTask.TargetIDs dt == "" then Err Panicked else Ok [""]
      end
    else Ok targets
  else Ok allTargets.

(** What [Execute] does with the deployment that it has read. *)
Definition execute_read (now : time) (dt : DeployTask.t) (h : Handler) : Handler * option deploy_error :=
  if DeployTask.Status dt != StatusCreated then (h, Some (NotExecutable (DeployTask.Status dt)))
  else
    match first_targets dt with
    | Err e => (h, Some e)
    | Ok targets =>
        let staged := (EffectiveStrategy dt == StrategyCanary) || (EffectiveStrategy dt == StrategyBlueGreen) in
        let dt := if staged then DeployTask.set_CanaryTargets (JoinStr "," targets) dt else dt in
        match dispatch dt targets [] (world h) with
        | (w, Err e) => (mk_handler (store h) w, Some e)
        | (w, Ok taskIDs) =>
            let dt :=
              if length taskIDs == 0 then DeployTask.set_Status StatusFailed dt
              else DeployTask.set_Status (if staged then StatusCanary else StatusRunning)
                     (DeployTask.set_TaskIDs (JoinStr "," taskIDs) dt) in
            update now dt (mk_handler (store h) w)
        end
    end.

Definition Execute (now : time) (id : Z) (tenantID : string) (h : Handler) : Handler * option deploy_error :=
  match DeployStore.Get id tenantID (store h) with
  | Err e => (h, Some e)
  | Ok dt => execute_read now dt h
  end.

(** The elements of [all] that are not in the set of [done]. *)
Definition not_in (done_ all : list string) : list string :=
  List.filter (fun t => negb (bool_decide (t ∈ done_))) all.

Definition Promote (now : time) (id : Z) (tenantID : string) (h : Handler) : Handler * option deploy_error :=
  match DeployStore.Get id tenantID (store h) with
  | Err e => (h, Some e)
  | Ok dt =>
      if (DeployTask.Status dt != StatusCanary) && (DeployTask.Status dt != StatusGated)
      then (h, Some (CannotPromote (DeployTask.Status dt)))
      else if EffectiveStrategy dt == StrategyRolling then (h, Some NoCanaryStage)
      else if EffectiveStrategy dt == StrategyBlueGreen
      then update now (DeployTask.set_Status StatusSuccess dt) h
      else
        let all := SplitIDs (DeployTask.TargetIDs dt) in
        let done_ := SplitIDs (DeployTask.CanaryTargets dt) in
        match dispatch dt (not_in done_ all) (SplitIDs (DeployTask.TaskIDs dt)) (world h) with
        | (w, Err e) => (mk_handler (store h) w, Some e)
        | (w, Ok taskIDs) =>
            let dt := DeployTask.set_TaskIDs (JoinStr "," taskIDs) dt in
            let dt := DeployTask.set_CanaryTargets (DeployTask.TargetIDs dt) dt in
            update now (DeployTask.set_Status StatusPromoting dt) (mk_handler (store h) w)
        end
  end.

Definition can_roll_back (status : string) : bool :=
  (status == StatusRunning) || (status == StatusCanary) || (status == StatusGated) ||
  (status == StatusPromoting) || (status == StatusSuccess).

Definition Rollback (now : time) (id : Z) (tenantID : string) (h : Handler) : Handler * option deploy_error :=
  match DeployStore.Get id tenantID (store h) with
  | Err e => (h, Some e)
  | Ok dt =>
      if negb (can_roll_back (DeployTask.Status dt)) then (h, Some (CannotRollback (DeployTask.Status dt)))
      else update now (DeployTask.set_Status StatusRolledBack dt) h
  end.

Definition autoRollback (now : time) (dt : DeployTask.t) (h : Handler) : Handler * option deploy_error :=
  update now (DeployTask.set_Status StatusRolledBack dt) h.

(** [dt.Status = StatusFailed], then the rollback if it is automatic. *)
Definition fail (now : time) (dt : DeployTask.t) (h : Handler) : Handler * option deploy_error :=
  let dt := DeployTask.set_Status StatusFailed dt in
  match update now dt h with
  | (h, Some e) => (h, Some e)
  | (h, None) => if DeployTask.AutoRollback dt then autoRollback now dt h else (h, None)
  end.

(** The number of tasks in a state. *)
Definition count_state (st : string) (states : gmap string string) : Z :=
  Z.of_nat (length (List.filter (fun kv : string * string => kv.2 == st) (map_to_list states))).

Definition Reconcile (now : time) (id : Z) (tenantID : string) (h : Handler) : Handler * option deploy_error :=
  match DeployStore.Get id tenantID (store h) with
  | Err e => (h, Some e)
  | Ok dt =>
      if negb ((DeployTask.Status dt == StatusRunning) || (DeployTask.Status dt == StatusPromoting) ||
               (DeployTask.Status dt == StatusCanary)) then (h, None)
      else
        let states := disp_TaskStates (SplitIDs (DeployTask.TaskIDs dt)) (DeployTask.TenantID dt) (world h) in
        if size states == 0 then (h, None)
        else
          let done_ := count_state "done" states in
          let failed := count_state "failed" states in
          let total := Z.of_nat (size states) in
          if DeployTask.Status dt == StatusCanary then
            if (done_ + failed <? total)%Z then (h, None)
            else if evaluateGate (ResolvedGate dt) done_ failed total
            then update now (DeployTask.set_Status StatusGated dt) h
            else fail now dt h
          else if (failed >? 0)%Z then fail now dt h
          else if (done_ =? total)%Z then update now (DeployTask.set_Status StatusSuccess dt) h
          else (h, None)
  end.

Definition AdvanceCanary (now : time) (deployID : Z) (tenantID : string) (newWeight : Z) (h : Handler)
  : Handler * option deploy_error :=
  match DeployStore.Get deployID tenantID (store h) with
  | Err e => (h, Some e)
  | Ok dt =>
      if EffectiveStrategy dt != StrategyCanary then (h, Some (NotCanary (EffectiveStrategy dt)))
      else if (DeployTask.Status dt != StatusCanary) && (DeployTask.Status dt != StatusGated)
      then (h, Some (CannotAdvance (DeployTask.Status dt)))
      else if (newWeight <=? 0)%Z || (newWeight >? canaryWeightMax)%Z then (h, Some (WeightOutOfRange newWeight))
      else if (newWeight <=? EffectiveCanaryWeight dt)%Z
      then (h, Some (NoAdvance newWeight (EffectiveCanaryWeight dt)))
      else
        let all := SplitIDs (DeployTask.TargetIDs dt) in
        let done_ := SplitIDs (DeployTask.CanaryTargets dt) in
        let newTargets := selectCanaryTargets all newWeight in
        if length newTargets == 0 then (h, Some (NoTargets newWeight))
        else
          match dispatch dt (not_in done_ newTargets) (SplitIDs (DeployTask.TaskIDs dt)) (world h) with
          | (w, Err e) => (mk_handler (store h) w, Some e)
          | (w, Ok taskIDs) =>
              let dt := DeployTask.set_TaskIDs (JoinStr "," taskIDs) dt in
              let dt := DeployTask.set_CanaryWeight newWeight dt in
              let dt := DeployTask.set_CanaryTargets (JoinStr "," newTargets) dt in
              update now (DeployTask.set_Status StatusCanary dt) (mk_handler (store h) w)
          end
  end.

(** One status of [ReconcileAll]; [range] is the order of the listing, which is
    made before the deployments of this status are reconciled. *)
Definition reconcile_status (range : gmap Z DeployTask.t -> list DeployTask.t) (now : time) (tenantID : string)
    (st : Handler * nat) (status : string) : Handler * nat :=
  foldl (fun (st : Handler * nat) dt =>
    let (h, e) := Reconcile now (DeployTask.ID dt) tenantID st.1 in
    (h, if e is None then S st.2 else st.2))
    st (DeployStore.List range tenantID status (store st.1)).

Definition ReconcileAll (range : gmap Z DeployTask.t -> list DeployTask.t) (now : time) (tenantID : string)
    (h : Handler) : Handler * nat :=
  foldl (reconcile_status range now tenantID) (h, 0) [StatusRunning; StatusCanary; StatusPromoting].

(** ** The executor of federated deployments: the handler itself *)

Definition CreateAndExecute (now : time) (template : DeployTask.t) (targetIDs tenantID : string) (h : Handler)
  : Handler * result deploy_error Z :=
  let dt := DeployTask.set_TargetIDs targetIDs (DeployTask.set_ID 0 template) in
  let dt := DeployTask.set_Status "" (DeployTask.set_TenantID tenantID dt) in
  let dt := DeployTask.set_StableTargets "" (DeployTask.set_CanaryTargets "" (DeployTask.set_TaskIDs "" dt)) in
  let (s, r) := DeployStore.Create now dt (store h) in
  let h := mk_handler s (world h) in
  match r with
  | Err e => (h, Err e)
  | Ok created =>
      match Execute now (DeployTask.ID created) tenantID h with
      | (h, Some e) => (h, Err e)
      | (h, None) => (h, Ok (DeployTask.ID created))
      end
  end.

Definition MemberStatus (deployID : Z) (tenantID : string) (h : Handler) : result deploy_error string :=
  match DeployStore.Get deployID tenantID (store h) with
  | Err e => Err e
  | Ok dt => Ok (DeployTask.Status dt)
  end.
End handler.
#[global] Arguments Handler W : clear implicits.
