(* ===== verification/DeployProps.v ===== *)
(** * Properties of deployments

    The handler as a transition system: every deployment follows its life cycle
    and keeps its plan, a canary rollout reaches every target once, and what
    happens when the task engine refuses a task in between. *)

From Stdlib Require Import Ascii.
From S2P Require Import Proto GoStrings Float64 Prelude Deploy.
Open Scope go_scope.

(** ** The life cycle *)

(** The changes of status, for a strategy. *)
Definition status_step (strategy a b : string) : Prop :=
  (a, b) ∈ [(StatusCreated, StatusFailed);
            (StatusRunning, StatusSuccess); (StatusRunning, StatusFailed); (StatusRunning, StatusRolledBack);
            (StatusCanary, StatusGated); (StatusCanary, StatusFailed); (StatusCanary, StatusRolledBack);
            (StatusGated, StatusRolledBack);
            (StatusPromoting, StatusSuccess); (StatusPromoting, StatusFailed); (StatusPromoting, StatusRolledBack);
            (StatusSuccess, StatusRolledBack)] ++
           (if decide (strategy = StrategyCanary) then
              [(StatusCreated, StatusCanary); (StatusGated, StatusCanary);
               (StatusCanary, StatusPromoting); (StatusGated, StatusPromoting)]
            else if decide (strategy = StrategyBlueGreen) then
              [(StatusCreated, StatusCanary); (StatusCanary, StatusSuccess); (StatusGated, StatusSuccess)]
            else
              (StatusCreated, StatusRunning) ::
              (if decide (strategy = StrategyRolling) then []
               else [(StatusCanary, StatusPromoting); (StatusGated, StatusPromoting)])).

(** What never changes. *)
Definition plan (d : DeployTask.t) :=
  (DeployTask.ID d, DeployTask.Name d, DeployTask.Type_ d, DeployTask.RepoURL d, DeployTask.Content d,
   DeployTask.Path d, DeployTask.TargetIDs d, DeployTask.TenantID d, DeployTask.CreatedBy d,
   (DeployTask.CreatedAt d, DeployTask.Strategy d, DeployTask.AutoRollback d, DeployTask.Gate d,
    DeployTask.StableTargets d)).

Definition follows (d d' : DeployTask.t) : Prop :=
  plan d = plan d' /\
  rtc (status_step (EffectiveStrategy d)) (DeployTask.Status d) (DeployTask.Status d') /\
  (EffectiveCanaryWeight d <= EffectiveCanaryWeight d')%Z.

Lemma plan_strategy d d' : plan d = plan d' -> EffectiveStrategy d = EffectiveStrategy d'.
Proof.
  unfold plan, EffectiveStrategy. intros H.
  assert (DeployTask.Strategy d = DeployTask.Strategy d') as -> by congruence. done.
Qed.

Lemma plan_ID d d' : plan d = plan d' -> DeployTask.ID d = DeployTask.ID d'.
Proof. unfold plan. by intros [=]. Qed.

#[export] Instance follows_preorder : PreOrder follows.
Proof.
  split.
  - intros d. split; [done |]. split; [apply rtc_refl | lia].
  - intros d1 d2 d3 (P1 & S1 & W1) (P2 & S2 & W2). split; [congruence |]. split; [| lia].
    rewrite <- (plan_strategy _ _ P1) in S2. by etransitivity.
Qed.

(** One step, and only bookkeeping besides. *)
Lemma follows_step d d' :
  plan d = plan d' -> status_step (EffectiveStrategy d) (DeployTask.Status d) (DeployTask.Status d') ->
  EffectiveCanaryWeight d = EffectiveCanaryWeight d' -> follows d d'.
Proof. intros Hp Hs Hw. split; [done |]. split; [by apply rtc_once | lia]. Qed.

(** ** The handler as a transition system *)

(** A change of status whose ends are known, once the strategy has been decided. *)
Ltac solve_step :=
  try match goal with E : EffectiveStrategy ?d = _ |- context [EffectiveStrategy ?d] => rewrite E end;
  unfold status_step; simpl; repeat (rewrite decide_False by done);
  apply (bool_decide_unpack _); vm_compute; exact I.
(** The statuses a value is known to be among, one goal each. *)
Ltac each_status H := rewrite ?elem_of_cons, elem_of_nil in H; repeat destruct H as [H | H]; [rewrite H .. | done].

Section transitions.
Context {W : Type} `{!Dispatcher W}.

Inductive op :=
  | OCreate (now : time) (dt : DeployTask.t)
  | OExecute (now : time) (id : Z) (tenantID : string)
  | OPromote (now : time) (id : Z) (tenantID : string)
  | ORollback (now : time) (id : Z) (tenantID : string)
  | OReconcile (now : time) (id : Z) (tenantID : string)
  | OAdvance (now : time) (id : Z) (tenantID : string) (newWeight : Z)
  | OReconcileAll (range : gmap Z DeployTask.t -> list DeployTask.t) (now : time) (tenantID : string)
  | OCreateAndExecute (now : time) (template : DeployTask.t) (targetIDs tenantID : string)
  | ODelete (id : Z) (tenantID : string)
  (** the task engine goes on *)
  | OWorld (f : W -> W).

Definition exec (o : op) (h : Handler W) : Handler W :=
  match o with
  | OCreate now dt => mk_handler (DeployStore.Create now dt (store h)).1 (world h)
  | OExecute now id ten => (Execute now id ten h).1
  | OPromote now id ten => (Promote now id ten h).1
  | ORollback now id ten => (Rollback now id ten h).1
  | OReconcile now id ten => (Reconcile now id ten h).1
  | OAdvance now id ten w => (AdvanceCanary now id ten w h).1
  | OReconcileAll range now ten => (ReconcileAll range now ten h).1
  | OCreateAndExecute now tpl ids ten => (CreateAndExecute now tpl ids ten h).1
  | ODelete id ten => mk_handler (DeployStore.Delete id ten (store h)).1 (world h)
  | OWorld f => mk_handler (store h) (f (world h))
  end.

(** Every deployment is stored under its id, and ids have been handed out. *)
Definition well_numbered (s : DeployStore.t) : Prop :=
  forall id d, DeployStore.m s !! id = Some d -> DeployTask.ID d = id /\ (id <= DeployStore.seqno s)%Z.

(** The deployments of [s] later on. *)
Definition evolves (s s' : DeployStore.t) : Prop :=
  well_numbered s ->
  well_numbered s' /\ (DeployStore.seqno s <= DeployStore.seqno s')%Z /\
  forall id, (id <= DeployStore.seqno s)%Z ->
    match DeployStore.m s !! id, DeployStore.m s' !! id with
    | Some d, Some d' => follows d d'
    | None, Some _ => False
    | _, None => True
    end.

#[export] Instance evolves_preorder : PreOrder evolves.
Proof.
  split.
  - intros s Hs. split; [done |]. split; [lia |]. intros id _. by destruct (_ !! id).
  - intros s1 s2 s3 H1 H2 Hs. destruct (H1 Hs) as (W2 & L2 & F2). destruct (H2 W2) as (W3 & L3 & F3).
    split; [done |]. split; [lia |]. intros id Hid. specialize (F2 id Hid). specialize (F3 id ltac:(lia)).
    destruct (DeployStore.m s1 !! id), (DeployStore.m s2 !! id), (DeployStore.m s3 !! id); try done.
    by etransitivity.
Qed.

Lemma Get_Ok id ten s d : DeployStore.Get id ten s = Ok d -> DeployStore.m s !! id = Some d.
Proof. unfold DeployStore.Get. destruct (_ !! id); [| done]. by case_match; intros [= ->]. Qed.

(** Updating a deployment that is there with a later version of it. *)
Lemma Update_evolves now id d d' s :
  DeployStore.m s !! id = Some d -> follows d d' ->
  evolves s (DeployStore.Update now d' s).1.
Proof.
  intros Hd Hf Hs. destruct (Hs _ _ Hd) as [Hid Hle]. pose proof Hf as (Hp & _).
  unfold DeployStore.Update. rewrite <- (plan_ID _ _ Hp), Hid, Hd.
  case_match; [by apply evolves_preorder |]. simpl. split; [| split; [lia |]].
  - intros i e. simpl. intros [[<- <-] | [_ H1]]%lookup_insert_Some; [| by apply Hs].
    split; [| done]. rewrite <- Hid. symmetry. exact (plan_ID _ _ Hp).
  - intros i Hi. simpl. destruct (decide (i = id)) as [-> | Hne].
    + by rewrite Hd, lookup_insert_eq.
    + rewrite lookup_insert_ne by done. by destruct (_ !! i).
Qed.

Lemma update_evolves now id d d' (h : Handler W) :
  DeployStore.m (store h) !! id = Some d -> follows d d' -> evolves (store h) (store (update now d' h).1).
Proof.
  intros Hd Hf. unfold update. pose proof (Update_evolves now id d d' (store h) Hd Hf) as H.
  by destruct (DeployStore.Update now d' (store h)).
Qed.

Lemma update_stored now id d d' (h : Handler W) :
  well_numbered (store h) -> DeployStore.m (store h) !! id = Some d -> plan d = plan d' ->
  (update now d' h).2 = None /\ DeployStore.m (store (update now d' h).1) !! id = Some (DeployTask.set_UpdatedAt now d') /\
  world (update now d' h).1 = world h.
Proof.
  intros Hs Hd Hp. destruct (Hs _ _ Hd) as [Hid _]. unfold update, DeployStore.Update.
  rewrite <- (plan_ID _ _ Hp), Hid, Hd.
  assert (Ht : DeployTask.TenantID d = DeployTask.TenantID d') by (unfold plan in Hp; congruence).
  rewrite Ht. rewrite (bool_decide_true (DeployTask.TenantID d' = DeployTask.TenantID d')) by done. rewrite andb_false_r. simpl.
  split; [done |]. split; [| done]. by rewrite lookup_insert_eq.
Qed.

Lemma execute_evolves now d id (h : Handler W) :
  DeployStore.m (store h) !! id = Some d -> evolves (store h) (store (execute_read now d h).1).
Proof.
  intros Hd. unfold execute_read. case_bool_decide as Hst; [| done]. cbn [negb].
  destruct (first_targets d) as [targets | e]; [| done].
  set (staged := _ || _). set (d0 := if staged then _ else d).
  assert (Hp : plan d = plan d0) by (unfold d0; by destruct staged).
  assert (Hs0 : DeployTask.Status d0 = StatusCreated) by (unfold d0; by destruct staged).
  assert (Hw : EffectiveCanaryWeight d = EffectiveCanaryWeight d0) by (unfold d0; by destruct staged).
  destruct (dispatch d0 targets [] (world h)) as [w [ids | e]]; [| done].
  apply (update_evolves now id d _ (mk_handler (store h) w)); [done |].
  apply follows_step; [by case_match | | by case_match].
  rewrite Hst. case_match; [unfold status_step; apply elem_of_app; left; apply (bool_decide_unpack _); vm_compute; exact I |].
  unfold staged. simpl. destruct (decide (EffectiveStrategy d = StrategyCanary)) as [E | E].
  { rewrite bool_decide_true by done. solve_step. }
  rewrite bool_decide_false by done.
  destruct (decide (EffectiveStrategy d = StrategyBlueGreen)) as [E2 | E2].
  { rewrite bool_decide_true by done. solve_step. }
  rewrite bool_decide_false by done. destruct (decide (EffectiveStrategy d = StrategyRolling)); solve_step.
Qed.

(** A step that sets the status, and perhaps the lists of tasks and targets. *)
Lemma set_status_evolves now id d d' (h : Handler W) :
  DeployStore.m (store h) !! id = Some d -> plan d = plan d' ->
  DeployTask.CanaryWeight d = DeployTask.CanaryWeight d' ->
  status_step (EffectiveStrategy d) (DeployTask.Status d) (DeployTask.Status d') ->
  evolves (store h) (store (update now d' h).1).
Proof.
  intros Hd Hp Hw Hs. apply (update_evolves now id d); [done |]. apply follows_step; [done .. |].
  unfold EffectiveCanaryWeight. by rewrite Hw.
Qed.

Lemma Execute_evolves now id ten (h : Handler W) : evolves (store h) (store (Execute now id ten h).1).
Proof.
  unfold Execute. destruct (DeployStore.Get id ten (store h)) as [d | e] eqn:E; [| done].
  by apply (execute_evolves now d id), Get_Ok in E || eapply execute_evolves, Get_Ok.
Qed.

Lemma Promote_evolves now id ten (h : Handler W) : evolves (store h) (store (Promote now id ten h).1).
Proof.
  unfold Promote. destruct (DeployStore.Get id ten (store h)) as [d | e] eqn:E; [| done]. apply Get_Ok in E.
  destruct (_ && _) eqn:Hst; [done |].
  assert (Hs : DeployTask.Status d ∈ [StatusCanary; StatusGated]).
  { apply andb_false_iff in Hst as [H | H]; apply negb_false_iff, bool_decide_eq_true_1 in H; set_solver. }
  clear Hst. case_bool_decide as H1; [done |]. case_bool_decide as H2.
  { apply (set_status_evolves now id d); [done .. |]. 
    assert (EffectiveStrategy d <> StrategyCanary) by (by rewrite H2). each_status Hs; solve_step. }
  destruct (dispatch _ _ _ _) as [w [ids | e]]; [| done].
  apply (set_status_evolves now id d _ (mk_handler (store h) w)); [done .. |]. 
  each_status Hs; (destruct (decide (EffectiveStrategy d = StrategyCanary)); solve_step).
Qed.

Lemma Rollback_evolves now id ten (h : Handler W) : evolves (store h) (store (Rollback now id ten h).1).
Proof.
  unfold Rollback. destruct (DeployStore.Get id ten (store h)) as [d | e] eqn:E; [| done]. apply Get_Ok in E.
  destruct (can_roll_back _) eqn:Hst; [| done]. cbn [negb].
  apply (set_status_evolves now id d); [done .. |].
  assert (Hs : DeployTask.Status d ∈ [StatusRunning; StatusCanary; StatusGated; StatusPromoting; StatusSuccess]).
  { unfold can_roll_back in Hst. repeat (apply orb_true_iff in Hst as [Hst | Hst]);
      apply bool_decide_eq_true_1 in Hst; rewrite Hst; set_solver. }
  unfold status_step. apply elem_of_app. left. each_status Hs; solve_step.
Qed.

(** A rollback after the failure is one transition, to the last status. *)
Lemma fail_evolves now id d (h : Handler W) :
  DeployStore.m (store h) !! id = Some d ->
  DeployTask.Status d ∈ [StatusRunning; StatusPromoting; StatusCanary] ->
  evolves (store h) (store (fail now d h).1).
Proof.
  intros Hd Hs Hwf. unfold fail.
  set (d1 := DeployTask.set_Status StatusFailed d).
  destruct (update_stored now id d d1 h Hwf Hd eq_refl) as (He & H1 & Hw).
  assert (Hstep : forall st, st ∈ [StatusFailed; StatusRolledBack] -> follows d (DeployTask.set_Status st d)).
  { intros st Hst. apply follows_step; [done | | done].
    unfold status_step. apply elem_of_app. left. each_status Hst; each_status Hs; solve_step. }
  assert (Hev : evolves (store h) (store (update now d1 h).1)).
  { apply (update_evolves now id d); [done |]. apply Hstep. set_solver. }
  destruct (update now d1 h) as [h1 [e |]] eqn:Eu; [done |]. cbn [fst snd] in *.
  destruct (DeployTask.AutoRollback d1); [| by apply Hev].
  unfold autoRollback. set (d2 := DeployTask.set_Status StatusRolledBack d1).
  assert (Hs2 : DeployStore.m (store (update now d2 h1).1) =
                DeployStore.m (store (update now (DeployTask.set_Status StatusRolledBack d) h).1) /\
              DeployStore.seqno (store (update now d2 h1).1) =
                DeployStore.seqno (store (update now (DeployTask.set_Status StatusRolledBack d) h).1)).
  { destruct (Hwf _ _ Hd) as [Hid _]. unfold update, DeployStore.Update in *. cbn in *.
    rewrite Hid in *. rewrite Hd in *.
    rewrite (bool_decide_true (DeployTask.TenantID d = DeployTask.TenantID d)) in * by done.
    rewrite andb_false_r in *. cbn in *. injection Eu as <-. cbn. rewrite lookup_insert_eq. cbn.
    rewrite (bool_decide_true (DeployTask.TenantID d = DeployTask.TenantID d)) by done.
    rewrite andb_false_r. cbn. by rewrite insert_insert_eq. }
  pose proof (update_evolves now id d (DeployTask.set_Status StatusRolledBack d) h Hd
    ltac:(apply Hstep; set_solver) Hwf) as H2.
  destruct (update now d2 h1) as [[[m2 n2] w2] ?], (update now (DeployTask.set_Status StatusRolledBack d) h) as [[[m3 n3] w3] ?].
  cbn in *. destruct Hs2 as [-> ->]. exact H2.
Qed.

Lemma Reconcile_evolves now id ten (h : Handler W) : evolves (store h) (store (Reconcile now id ten h).1).
Proof.
  unfold Reconcile. destruct (DeployStore.Get id ten (store h)) as [d | e] eqn:E; [| done]. apply Get_Ok in E.
  destruct (_ || _ || _) eqn:Hst; [| done]. cbn [negb].
  assert (Hs : DeployTask.Status d ∈ [StatusRunning; StatusPromoting; StatusCanary]).
  { repeat (apply orb_true_iff in Hst as [Hst | Hst]); apply bool_decide_eq_true_1 in Hst; rewrite Hst; set_solver. }
  set (states := disp_TaskStates _ _ _). clear Hst.
  case_bool_decide as H0; [done |]. case_bool_decide as Hc.
  - destruct (_ <? _)%Z; [done |]. destruct (evaluateGate _ _ _ _).
    + apply (set_status_evolves now id d); [done .. |]. rewrite Hc. apply elem_of_app. left. solve_step.
    + by apply (fail_evolves now id d).
  - destruct (_ >? _)%Z; [by apply (fail_evolves now id d) |]. destruct (_ =? _)%Z; [| done].
    apply (set_status_evolves now id d); [done .. |]. apply elem_of_app. left.
    rewrite !elem_of_cons, elem_of_nil in Hs. destruct Hs as [Hs | [Hs | [Hs | []]]]; [| | done];
      rewrite Hs; solve_step.
Qed.

Lemma AdvanceCanary_evolves now id ten w (h : Handler W) :
  evolves (store h) (store (AdvanceCanary now id ten w h).1).
Proof.
  unfold AdvanceCanary. destruct (DeployStore.Get id ten (store h)) as [d | e] eqn:E; [| done]. apply Get_Ok in E.
  case_bool_decide as Hc; [| done]. cbn [negb]. destruct (_ && _) eqn:Hst; [done |].
  assert (Hs : DeployTask.Status d ∈ [StatusCanary; StatusGated]).
  { apply andb_false_iff in Hst as [H | H]; apply negb_false_iff, bool_decide_eq_true_1 in H; set_solver. }
  clear Hst. destruct (_ || _) eqn:Hw; [done |]. destruct (Z.leb_spec w (EffectiveCanaryWeight d)); [done |].
  case_bool_decide; [done |]. destruct (dispatch _ _ _ _) as [w' [ids | e]]; [| done].
  apply (update_evolves now id d _ (mk_handler (store h) w')); [done |].
  split; [done |]. split.
  - cbn. each_status Hs; [apply rtc_refl | apply rtc_once; solve_step].
  - unfold EffectiveCanaryWeight at 2. cbn. rewrite Hw. lia.
Qed.

Lemma Create_evolves now dt (s : DeployStore.t) : evolves s (DeployStore.Create now dt s).1.
Proof.
  unfold DeployStore.Create. case_bool_decide; [done |]. destruct (Valid dt); [done |].
  intros Hs. simpl. split; [| split; [lia |]].
  - intros i e. simpl. intros [[<- <-] | [_ H1]]%lookup_insert_Some; [split; [done | simpl; lia] |].
    destruct (Hs _ _ H1). split; [done | simpl; lia].
  - intros i Hi. rewrite lookup_insert_ne by lia. by destruct (_ !! i).
Qed.

Lemma Delete_evolves id ten (s : DeployStore.t) : evolves s (DeployStore.Delete id ten s).1.
Proof.
  unfold DeployStore.Delete. destruct (DeployStore.m s !! id) as [d |] eqn:E; [| done].
  case_match; [done |]. intros Hs. simpl. split; [| split; [lia |]].
  - intros i e. simpl. intros [_ H1]%lookup_delete_Some. by apply Hs.
  - intros i Hi. destruct (decide (i = id)) as [-> | Hne].
    + rewrite lookup_delete_eq. by destruct (_ !! id).
    + rewrite lookup_delete_ne by done. by destruct (_ !! i).
Qed.

Lemma handler_exec_evolves o (h : Handler W) : evolves (store h) (store (exec o h)).
Proof.
  destruct o; simpl.
  - apply Create_evolves.
  - apply Execute_evolves.
  - apply Promote_evolves.
  - apply Rollback_evolves.
  - apply Reconcile_evolves.
  - apply AdvanceCanary_evolves.
  - assert (Hone : forall status st, evolves (store (st.1)) (store (reconcile_status range now tenantID st status).1)).
    { intros status. unfold reconcile_status. intros st. generalize (DeployStore.List range tenantID status (store st.1)).
      intros l. revert st. induction l as [| d l IH]; intros st; [done |]. simpl.
      destruct (Reconcile now (DeployTask.ID d) tenantID st.1) as [h1 e] eqn:E.
      etransitivity; [| apply IH]. simpl. pose proof (Reconcile_evolves now (DeployTask.ID d) tenantID st.1) as H.
      by rewrite E in H. }
    unfold ReconcileAll. simpl. etransitivity; [apply (Hone StatusRunning (h, 0)) |].
    etransitivity; apply Hone.
  - unfold CreateAndExecute. set (dt := DeployTask.set_StableTargets _ _).
    pose proof (Create_evolves now dt (store h)) as H.
    destruct (DeployStore.Create now dt (store h)) as [s [d | e]]; [| done]. cbn [fst] in H.
    etransitivity; [exact H |].
    pose proof (Execute_evolves now (DeployTask.ID d) tenantID (mk_handler s (world h))) as H2.
    by destruct (Execute _ _ _ _) as [h1 [e |]].
  - apply Delete_evolves.
  - reflexivity.
Qed.

Lemma settled_stays strategy a b :
  a ∈ [StatusFailed; StatusRolledBack] -> rtc (status_step strategy) a b -> b = a.
Proof.
  intros Ha. destruct 1 as [| a c b H _]; [done | exfalso]. revert H. unfold status_step.
  each_status Ha; repeat case_decide; apply (bool_decide_unpack _); by vm_compute.
Qed.

(** C20: whatever operations run, deployments are numbered once and for all, and
    each one that is still there has the plan it was created with, has moved
    along the transitions of its strategy only (so a failed or rolled back one
    has not moved at all), and never shrinks its canary share. *)
Theorem deployments_follow_lifecycle ops (h : Handler W) :
  well_numbered (store h) ->
  well_numbered (store (run exec ops h)) /\
  forall id d', (id <= DeployStore.seqno (store h))%Z -> DeployStore.m (store (run exec ops h)) !! id = Some d' ->
    exists d, DeployStore.m (store h) !! id = Some d /\ plan d = plan d' /\
      rtc (status_step (EffectiveStrategy d)) (DeployTask.Status d) (DeployTask.Status d') /\
      (DeployTask.Status d ∈ [StatusFailed; StatusRolledBack] -> DeployTask.Status d' = DeployTask.Status d) /\
      (EffectiveCanaryWeight d <= EffectiveCanaryWeight d')%Z.
Proof.
  intros Hs. assert (H : evolves (store h) (store (run exec ops h))).
  { assert (PreOrder (fun h h' : Handler W => evolves (store h) (store h'))).
    { split; [by intros ? | intros ???; apply evolves_preorder]. }
    apply (run_preorder exec (fun h h' : Handler W => evolves (store h) (store h'))).
    intros o h'. apply handler_exec_evolves. }
  destruct (H Hs) as (Hw & _ & Hf). split; [done |]. intros id d' Hid Hd'. specialize (Hf id Hid).
  rewrite Hd' in Hf. destruct (DeployStore.m (store h) !! id) as [d |]; [| done].
  destruct Hf as (Hp & Hst & Hwt). exists d. do 3 (split; [done |]).
  split; [intros Ha; by apply (settled_stays _ _ _ Ha) in Hst | done].
Qed.
End transitions.

(** ** An engine for examples

    It numbers its tasks and knows an agent for
    every device but ["bare"]; every task is done at once. *)

Definition ex_device (id : string) : option DeviceInfo.t :=
  if id == "bare" then None else Some (DeviceInfo.set_AgentID ("agent-" +:+ id) DeviceInfo.zero).

#[export] Instance ex_engine : Dispatcher nat := {|
  disp_CreateTask t n := (S n, Ok (Some (Task.set_TaskID ("t" +:+ pretty n) t)));
  disp_Device id _ := ex_device id;
  disp_TaskStates ids _ _ := list_to_map ((fun id => (id, "done")) <$> ids);
|}.

Definition ex_deploy : DeployTask.t :=
  DeployTask.mk 0 "web" TypeScript "https://example.org/web" "" "" "d1, d2,bare,d3" "" "acme" "ops" ""
    zero_time zero_time StrategyCanary 25 true None "" "".

Definition ex_handler {W} (w : W) : Handler W :=
  mk_handler (DeployStore.Create 1 ex_deploy DeployStore.NewMemory).1 w.

Definition ex_ops {W} : list (op (W := W)) :=
  [OExecute 2 1 "acme"; OReconcile 3 1 "acme"; OAdvance 4 1 "acme" 50; OReconcile 5 1 "acme";
   OPromote 6 1 "acme"; OReconcile 7 1 "acme"].

Lemma ex_numbered {W} (w : W) : well_numbered (store (ex_handler w)).
Proof. apply (Create_evolves 1 ex_deploy DeployStore.NewMemory). intros id d H. simpl in H. by rewrite lookup_empty in H. Qed.

Lemma deployments_follow_lifecycle_witness :
  exists d', DeployStore.m (store (run exec ex_ops (ex_handler 0))) !! 1%Z = Some d' /\
    DeployTask.Status d' = StatusSuccess /\ EffectiveCanaryWeight d' = 50%Z /\
    exists d, DeployStore.m (store (ex_handler 0)) !! 1%Z = Some d /\
      rtc (status_step StrategyCanary) (DeployTask.Status d) (DeployTask.Status d').
Proof.
  destruct (deployments_follow_lifecycle ex_ops (ex_handler 0) (ex_numbered 0)) as [_ H].
  eexists. split; [vm_compute; reflexivity |]. split; [reflexivity |]. split; [reflexivity |].
  destruct (H 1%Z _ ltac:(vm_compute; discriminate) ltac:(vm_compute; reflexivity)) as (d & Hd & _ & Hs & _).
  exists d. split; [exact Hd |]. vm_compute in Hd. injection Hd as <-. exact Hs.
Defined.
