(* ===== verification/DeployRollout.v ===== *)
(** * Canary rollouts ([internal/deploy/handler.go])

    To which targets the tasks of a deployment go: a canary rollout reaches
    every target once, in order, however often it is advanced; and what a
    refused task leads to. *)

From Stdlib Require Import Ascii.
From S2P Require Import Proto GoStrings Float64 Prelude Deploy DeployProps.
Open Scope go_scope.

(** ** Lists of ids *)

Definition clean_id (w : string) : Prop :=
  w <> "" /\ all_chars (not_char ",") w = true /\ all_chars (not_char " ") w = true /\ TrimSpace w = w.

Lemma SplitIDs_clean s : Forall clean_id (SplitIDs s).
Proof.
  unfold SplitIDs. case_bool_decide; [done |]. apply Forall_forall. intros w Hw.
  apply list_elem_of_In, filter_In in Hw as [Hw Hne]. apply list_elem_of_In in Hw.
  apply negb_true_iff, bool_decide_eq_false_1 in Hne.
  apply list_elem_of_fmap in Hw as (seg & -> & Hseg). apply list_elem_of_In, in_flat_map in Hseg as (p & Hp & Hseg).
  apply list_elem_of_In in Hp, Hseg.
  pose proof (Split_no_sep "," s) as Hc. rewrite Forall_forall in Hc. specialize (Hc p Hp).
  pose proof (Split_pieces " " _ p Hc) as Hc'. rewrite Forall_forall in Hc'.
  pose proof (Split_no_sep " " p) as Hb. rewrite Forall_forall in Hb.
  split; [done |]. split; [by apply all_chars_trim, Hc' |]. split; [by apply all_chars_trim, Hb |].
  apply TrimSpace_idem.
Qed.

Lemma SplitIDs_join ws : Forall clean_id ws -> SplitIDs (JoinStr "," ws) = ws.
Proof.
  intros Hws. unfold SplitIDs. destruct ws as [| w ws]; [done |].
  assert (Hne : JoinStr "," (w :: ws) <> "").
  { apply Forall_cons in Hws as [[Hw _] _]. by destruct w, ws. }
  rewrite bool_decide_false by done.
  rewrite Split_JoinStr; [| done | by eapply Forall_impl; [exact Hws |]; intros ? (_ & ? & _)].
  clear Hne. induction Hws as [| x l (Hne & _ & Hb & Ht) _ IH]; [done |].
  change (flat_map (Split " ") (x :: l)) with (Split " " x ++ flat_map (Split " ") l).
  rewrite Split_word by done. cbn. rewrite Ht, bool_decide_false by done. cbn. by rewrite IH.
Qed.

(** ** Shares *)

(** How many of [n] targets a weight selects. *)
Definition share (n : nat) (w : Z) : nat :=
  if (w >=? 100)%Z then n else Z.to_nat (Z.min (Z.of_nat n) (Z.max 1 (Z.of_nat n * w / 100))).

Lemma select_share all w :
  (0 < w)%Z -> all <> [] -> selectCanaryTargets all w = take (share (length all) w) all.
Proof.
  intros Hw Hne. unfold selectCanaryTargets, share, canaryWeightMax.
  rewrite bool_decide_false by (intros H; by apply Hne, nil_length_inv).
  destruct (Z.leb_spec w 0); [lia |]. cbn [orb].
  destruct (Z.geb_spec w 100); [by rewrite take_ge |]. f_equal.
  destruct (Z.ltb_spec (Z.of_nat (length all) * w / 100) 1);
    repeat match goal with |- context [(?a >? ?b)%Z] => destruct (Z.gtb_spec a b) end; lia.
Qed.

Lemma share_mono n w w' : (0 < w <= w')%Z -> share n w <= share n w'.
Proof.
  intros H. unfold share.
  assert (Z.of_nat n * w / 100 <= Z.of_nat n * w' / 100)%Z by (apply Z.div_le_mono; nia).
  destruct (Z.geb_spec w 100), (Z.geb_spec w' 100); lia.
Qed.

Lemma share_le n w : share n w <= n.
Proof. unfold share. destruct (w >=? 100)%Z; lia. Qed.

Lemma share_pos n w : 0 < n -> 0 < share n w.
Proof. unfold share. destruct (w >=? 100)%Z; lia. Qed.

Lemma weight_range d : (0 < EffectiveCanaryWeight d <= 100)%Z.
Proof.
  unfold EffectiveCanaryWeight, canaryWeightMax, defaultCanaryWeight.
  destruct (Z.leb_spec (DeployTask.CanaryWeight d) 0); cbn [orb]; [lia |].
  destruct (Z.gtb_spec (DeployTask.CanaryWeight d) 100); cbn [orb]; lia.
Qed.

Lemma not_in_all (done_ l : list string) : (forall x, x ∈ l -> x ∈ done_) -> not_in done_ l = [].
Proof.
  unfold not_in. induction l as [| x l IH]; intros H; [done |]. simpl.
  rewrite bool_decide_true by (apply H; left). simpl. apply IH. intros y Hy. apply H. by right.
Qed.

Lemma not_in_none (done_ l : list string) : (forall x, x ∈ l -> x ∉ done_) -> not_in done_ l = l.
Proof.
  unfold not_in. induction l as [| x l IH]; intros H; [done |]. simpl.
  rewrite bool_decide_false by (apply H; left). simpl. f_equal. apply IH. intros y Hy. apply H. by right.
Qed.

(** What is missing from the first [j] targets to the first [k]. *)
Lemma not_in_take (all : list string) j k :
  NoDup all -> j <= k -> take j all ++ not_in (take j all) (take k all) = take k all.
Proof.
  intros Hnd Hle. set (rest := drop j (take k all)).
  assert (E : take k all = take j all ++ rest).
  { unfold rest. rewrite <- (take_drop j (take k all)) at 1. by rewrite take_take, Nat.min_l. }
  rewrite E. f_equal. unfold not_in. rewrite List.filter_app.
  fold (not_in (take j all) (take j all)). fold (not_in (take j all) rest).
  rewrite not_in_all by done. apply not_in_none. intros x Hx Hx'.
  assert (Hnd' : NoDup (take j all ++ rest)).
  { rewrite <- E. rewrite <- (take_drop k all) in Hnd. by apply NoDup_app in Hnd as [? _]. }
  apply NoDup_app in Hnd' as (_ & H & _). by apply (H x).
Qed.

(** ** Recording the tasks *)

(** A task engine that keeps the tasks it has accepted. *)
#[export] Instance recorder {W} `{!Dispatcher W} : Dispatcher (W * list Task.t) := {|
  disp_CreateTask t wl :=
    match disp_CreateTask t wl.1 with
    | (w, Ok c) => ((w, wl.2 ++ [t]), Ok c)
    | (w, Err e) => ((w, wl.2), Err e)
    end;
  disp_Device id wl := disp_Device id wl.1;
  disp_TaskStates ids ten wl := disp_TaskStates ids ten wl.1;
|}.

(** No task is refused. *)
Definition accepting {W} `{!Dispatcher W} : Prop := forall t (w : W), is_ok (disp_CreateTask t w).2 = true.

Lemma recorder_accepting {W} `{!Dispatcher W} : accepting (W := W) -> accepting (W := W * list Task.t).
Proof.
  intros Hok t wl. cbn. specialize (Hok t wl.1). by destruct (disp_CreateTask t wl.1) as [w [c | e]].
Qed.

Lemma dispatch_accepts {W} `{!Dispatcher W} (Hok : accepting (W := W)) d ts ids (w : W) :
  is_ok (dispatch d ts ids w).2 = true.
Proof.
  revert ids w. induction ts as [| t ts IH]; intros ids w; [done |]. cbn [dispatch].
  destruct (disp_Device t w) as [dv |]; [| apply IH]. destruct (_ == _); [apply IH |].
  specialize (Hok (deploy_task d (DeviceInfo.AgentID dv)) w).
  destruct (disp_CreateTask (deploy_task d (DeviceInfo.AgentID dv)) w) as [w1 [[c |] | e]]; [| apply IH | done].
  destruct (Task.TaskID c != ""); apply IH.
Qed.

Section rollout.
Context {W : Type} `{!Dispatcher W}.
(** The agents of the devices do not change during the rollout. *)
Context (dev : string -> option DeviceInfo.t) (Hdev : forall id (w : W), disp_Device id w = dev id).

Definition agent_of (tid : string) : option string :=
  d ← dev tid; if DeviceInfo.AgentID d == "" then None else Some (DeviceInfo.AgentID d).

(** The tasks for some targets: one for each that has an agent. *)
Definition tasks_for (d : DeployTask.t) (targets : list string) : list Task.t :=
  deploy_task d <$> omap agent_of targets.

Lemma tasks_for_app d l k : tasks_for d (l ++ k) = tasks_for d l ++ tasks_for d k.
Proof. unfold tasks_for. by rewrite omap_app, fmap_app. Qed.

Lemma tasks_for_plan d d' l : plan d = plan d' -> tasks_for d l = tasks_for d' l.
Proof.
  intros H. unfold tasks_for. apply list_fmap_ext. intros _ a _. unfold deploy_task, plan in *.
  assert (DeployTask.TenantID d = DeployTask.TenantID d' /\ DeployTask.Type_ d = DeployTask.Type_ d' /\
          DeployTask.RepoURL d = DeployTask.RepoURL d' /\ DeployTask.Content d = DeployTask.Content d' /\
          DeployTask.Path d = DeployTask.Path d') as (-> & -> & -> & -> & ->) by (split_and!; congruence).
  done.
Qed.

(** The tasks that are dispatched are those of the targets, up to the one whose
    task is refused. *)
Lemma dispatch_records d ts ids (w : W) l :
  exists w' r done_, dispatch d ts ids (w, l) = ((w', l ++ tasks_for d done_), r) /\ done_ `prefix_of` ts /\
    (is_ok r = true -> done_ = ts).
Proof.
  revert ids w l. induction ts as [| t ts IH]; intros ids w l; cbn [dispatch].
  { exists w, (Ok ids), []. rewrite app_nil_r. split; [done |]. by split. }
  change (disp_Device t (w, l)) with (disp_Device t w). rewrite Hdev.
  assert (Hskip : agent_of t = None ->
    exists w' r done_, dispatch d ts ids (w, l) = ((w', l ++ tasks_for d done_), r) /\ done_ `prefix_of` (t :: ts) /\
    (is_ok r = true -> done_ = t :: ts)).
  { intros Ha. destruct (IH ids w l) as (w' & r & k & E & Hp & Hr). exists w', r, (t :: k).
    unfold tasks_for in *. simpl. rewrite Ha. split; [done |]. split; [by apply prefix_cons |].
    intros Ho. by rewrite Hr. }
  destruct (dev t) as [dv |] eqn:Ed; [| apply Hskip; unfold agent_of; by rewrite Ed].
  destruct (DeviceInfo.AgentID dv == "") eqn:Ea; [apply Hskip; unfold agent_of; rewrite Ed; simpl; by rewrite Ea |].
  assert (Ht : agent_of t = Some (DeviceInfo.AgentID dv)).
  { unfold agent_of. rewrite Ed. simpl. by rewrite Ea. }
  cbn [disp_CreateTask recorder fst snd].
  destruct (disp_CreateTask (deploy_task d (DeviceInfo.AgentID dv)) w) as [w1 [c | e]]; last first.
  { exists w1, (Err (DispatchFailed t e)), []. rewrite app_nil_r. split; [done |]. split; [apply prefix_nil | done]. }
  assert (Hgo : forall ids', exists w' r done_,
    dispatch d ts ids' (w1, l ++ [deploy_task d (DeviceInfo.AgentID dv)]) = ((w', l ++ tasks_for d done_), r) /\
    done_ `prefix_of` (t :: ts) /\ (is_ok r = true -> done_ = t :: ts)).
  { intros ids'. destruct (IH ids' w1 (l ++ [deploy_task d (DeviceInfo.AgentID dv)])) as (w' & r & k & E & Hp & Hr).
    exists w', r, (t :: k). rewrite E. unfold tasks_for. simpl. rewrite Ht. simpl. rewrite <- app_assoc.
    split; [done |]. split; [by apply prefix_cons |]. intros Ho. by rewrite Hr. }
  destruct c as [c |]; [| apply Hgo]. destruct (Task.TaskID c != ""); apply Hgo.
Qed.

(** ** The rollout of one deployment *)

Lemma dispatch_accepted d ts ids (w : W) l :
  accepting (W := W) -> exists w' ids', dispatch d ts ids (w, l) = ((w', l ++ tasks_for d ts), Ok ids').
Proof.
  intros Hok. pose proof (dispatch_accepts (recorder_accepting Hok) d ts ids (w, l)) as Hr.
  destruct (dispatch_records d ts ids w l) as (w' & r & k & E & _ & Hk). rewrite E in *. simpl in Hr.
  destruct r as [ids' | e]; [| done]. exists w', ids'. by rewrite <- (Hk eq_refl).
Qed.

(** The operations on deployment [id], and steps of the engine that leave the
    record alone. *)
Definition concerns (id : Z) (o : op (W := W * list Task.t)) : Prop :=
  match o with
  | OExecute _ i _ | OPromote _ i _ | ORollback _ i _ | OReconcile _ i _ | OAdvance _ i _ _ => i = id
  | OWorld f => forall w, (f w).2 = w.2
  | _ => False
  end.

(** Deployment [d] when the tasks of its first [k] targets have been dispatched
    and it has become [d']. *)
Definition stage (d d' : DeployTask.t) (k : nat) : Prop :=
  let targets := SplitIDs (DeployTask.TargetIDs d) in
  (DeployTask.Status d' = StatusCreated /\ k = 0) \/
  (DeployTask.Status d' ∈ [StatusCanary; StatusGated] /\ k = share (length targets) (EffectiveCanaryWeight d') /\
   DeployTask.CanaryTargets d' = JoinStr "," (take k targets)) \/
  (DeployTask.Status d' ∈ [StatusPromoting; StatusSuccess] /\ k = length targets) \/
  DeployTask.Status d' ∈ [StatusFailed; StatusRolledBack].

Definition rolled_out (id : Z) (d : DeployTask.t) (h : Handler (W * list Task.t)) : Prop :=
  well_numbered (store h) /\
  exists d' k, DeployStore.m (store h) !! id = Some d' /\ plan d = plan d' /\ stage d d' k /\
    (world h).2 = tasks_for d (take k (SplitIDs (DeployTask.TargetIDs d))).

Lemma update_numbered now id d d' (h : Handler (W * list Task.t)) :
  well_numbered (store h) -> DeployStore.m (store h) !! id = Some d -> plan d = plan d' ->
  well_numbered (store (update now d' h).1).
Proof.
  intros Hs Hd Hp. destruct (Hs _ _ Hd) as [Hid Hle]. unfold update, DeployStore.Update.
  rewrite <- (plan_ID _ _ Hp), Hid, Hd. destruct (_ && _); [done |]. simpl.
  intros i e. simpl. intros [[<- <-] | [_ H1]]%lookup_insert_Some; [| by apply Hs].
  split; [| done]. rewrite <- Hid. symmetry. exact (plan_ID _ _ Hp).
Qed.

(** A deployment that has been read is updated to [d2], at [k] targets. *)
Lemma rolled_out_update now id d d1 d2 k w (h : Handler (W * list Task.t)) :
  well_numbered (store h) -> DeployStore.m (store h) !! id = Some d1 ->
  plan d = plan d1 -> plan d1 = plan d2 -> stage d d2 k ->
  w.2 = tasks_for d (take k (SplitIDs (DeployTask.TargetIDs d))) ->
  rolled_out id d (update now d2 (mk_handler (store h) w)).1.
Proof.
  intros Hwf Hd Hp1 Hp2 Hst Hw.
  destruct (update_stored now id d1 d2 (mk_handler (store h) w) Hwf Hd Hp2) as (_ & Hs & Hw').
  split; [by apply (update_numbered now id d1) |]. exists (DeployTask.set_UpdatedAt now d2), k.
  split; [exact Hs |]. split; [by rewrite Hp1, Hp2 |]. split; [exact Hst |]. by rewrite Hw'.
Qed.

(** Statuses of a stage. *)
Lemma stage_created d d' k : stage d d' k -> DeployTask.Status d' = StatusCreated -> k = 0.
Proof.
  intros [[_ H] | [[H _] | [[H _] | H]]] E; [done | ..]; rewrite E in H;
    exfalso; revert H; apply (bool_decide_unpack _); by vm_compute.
Qed.

Lemma stage_canary d d' k :
  stage d d' k -> DeployTask.Status d' ∈ [StatusCanary; StatusGated] ->
  k = share (length (SplitIDs (DeployTask.TargetIDs d))) (EffectiveCanaryWeight d') /\
  DeployTask.CanaryTargets d' = JoinStr "," (take k (SplitIDs (DeployTask.TargetIDs d))).
Proof.
  intros [[H _] | [[_ H] | [[H _] | H]]] E; [| done | ..];
    exfalso; revert H; each_status E; apply (bool_decide_unpack _); by vm_compute.
Qed.

Lemma stage_promoted d d' k :
  stage d d' k -> DeployTask.Status d' ∈ [StatusRunning; StatusPromoting; StatusSuccess] ->
  k = length (SplitIDs (DeployTask.TargetIDs d)).
Proof.
  intros [[H _] | [[H _] | [[_ H] | H]]] E; [| | done |];
    exfalso; revert H; each_status E; apply (bool_decide_unpack _); by vm_compute.
Qed.

Section steps.
Context (Hok : accepting (W := W)) (id : Z) (d : DeployTask.t).
Context (Hcanary : EffectiveStrategy d = StrategyCanary).
Context (Hne : SplitIDs (DeployTask.TargetIDs d) <> []).
Context (Hnd : NoDup (SplitIDs (DeployTask.TargetIDs d))).

Lemma share_targets w : 0 < share (length (SplitIDs (DeployTask.TargetIDs d))) w.
Proof using All. apply share_pos. destruct (SplitIDs _); [done | simpl; lia]. Qed.

Lemma first_share d1 :
  plan d = plan d1 ->
  first_targets d1 = Ok (take (share (length (SplitIDs (DeployTask.TargetIDs d))) (EffectiveCanaryWeight d1))
                           (SplitIDs (DeployTask.TargetIDs d))).
Proof using All.
  intros Hp. unfold first_targets. rewrite <- (plan_strategy _ _ Hp), Hcanary, bool_decide_true by done.
  assert (DeployTask.TargetIDs d1 = DeployTask.TargetIDs d) as -> by (unfold plan in Hp; congruence).
  rewrite select_share by (done || apply weight_range).
  rewrite bool_decide_false; [done |]. rewrite length_take.
  pose proof (share_targets (EffectiveCanaryWeight d1)).
  pose proof (share_le (length (SplitIDs (DeployTask.TargetIDs d))) (EffectiveCanaryWeight d1)). lia.
Qed.

Lemma Execute_rolled_out now ten h : rolled_out id d h -> rolled_out id d (Execute now id ten h).1.
Proof using All.
  intros Hh. pose proof Hh as (Hwf & d1 & k & Hd1 & Hp & Hst & Hlog). unfold Execute.
  destruct (DeployStore.Get id ten (store h)) as [d1' | e] eqn:E; [| done].
  apply Get_Ok in E. rewrite Hd1 in E. injection E as <-. unfold execute_read.
  case_bool_decide as Hc; [| done]. cbn [negb]. rewrite (first_share d1 Hp).
  rewrite (stage_created _ _ _ Hst Hc) in Hlog. rewrite <- (plan_strategy _ _ Hp), Hcanary.
  rewrite bool_decide_true by done. cbn [orb]. set (ts := take _ _). set (d2 := DeployTask.set_CanaryTargets _ d1).
  destruct (world h) as [w l] eqn:Ew. cbn [snd] in Hlog.
  destruct (dispatch_accepted d2 ts [] w l Hok) as (w' & ids & ->).
  apply (rolled_out_update now id d d1) with (k := share (length (SplitIDs (DeployTask.TargetIDs d))) (EffectiveCanaryWeight d1));
    [done .. | by case_match | |].
  - case_bool_decide; [by right; right; right; apply (bool_decide_unpack _); vm_compute |].
    right. left. split; [by apply (bool_decide_unpack _); vm_compute |]. done.
  - cbn [snd]. rewrite Hlog. simpl. apply tasks_for_plan. by rewrite Hp.
Qed.

Lemma Promote_rolled_out now ten h : rolled_out id d h -> rolled_out id d (Promote now id ten h).1.
Proof using All.
  intros Hh. pose proof Hh as (Hwf & d1 & k & Hd1 & Hp & Hst & Hlog). unfold Promote.
  destruct (DeployStore.Get id ten (store h)) as [d1' | e] eqn:E; [| done].
  apply Get_Ok in E. rewrite Hd1 in E. injection E as <-.
  destruct (_ && _) eqn:Hc; [done |].
  assert (Hs : DeployTask.Status d1 ∈ [StatusCanary; StatusGated]).
  { apply andb_false_iff in Hc as [H | H]; apply negb_false_iff, bool_decide_eq_true_1 in H; set_solver. }
  clear Hc. rewrite <- (plan_strategy _ _ Hp), Hcanary. rewrite !bool_decide_false by done.
  destruct (stage_canary _ _ _ Hst Hs) as [Hk Hct].
  assert (DeployTask.TargetIDs d1 = DeployTask.TargetIDs d) as Et by (unfold plan in Hp; congruence).
  rewrite Et, Hct, SplitIDs_join by (apply Forall_take, SplitIDs_clean).
  destruct (world h) as [w l] eqn:Ew. cbn [snd] in Hlog.
  set (rest := not_in _ _).
  destruct (dispatch_accepted d1 rest (SplitIDs (DeployTask.TaskIDs d1)) w l Hok) as (w' & ids & ->).
  apply (rolled_out_update now id d d1) with (k := length (SplitIDs (DeployTask.TargetIDs d))); [done .. | |].
  - right. right. left. split; [by apply (bool_decide_unpack _); vm_compute | done].
  - cbn [snd]. rewrite Hlog, <- (tasks_for_plan d d1), <- tasks_for_app by done. f_equal.
    unfold rest. rewrite <- (firstn_all (SplitIDs (DeployTask.TargetIDs d))) at 3.
    apply not_in_take; [done |]. rewrite Hk. apply share_le.
Qed.

(** An operation that only sets a status. *)
Lemma set_status_rolled_out now d1 k st h :
  rolled_out id d h -> DeployStore.m (store h) !! id = Some d1 -> plan d = plan d1 ->
  stage d (DeployTask.set_Status st d1) k ->
  (world h).2 = tasks_for d (take k (SplitIDs (DeployTask.TargetIDs d))) ->
  rolled_out id d (update now (DeployTask.set_Status st d1) h).1.
Proof using All.
  intros [Hwf _] Hd1 Hp Hst Hlog. destruct h as [s w].
  by apply (rolled_out_update now id d d1 _ k w (mk_handler s w)).
Qed.

Lemma Rollback_rolled_out now ten h : rolled_out id d h -> rolled_out id d (Rollback now id ten h).1.
Proof using All.
  intros Hh. pose proof Hh as (Hwf & d1 & k & Hd1 & Hp & Hst & Hlog). unfold Rollback.
  destruct (DeployStore.Get id ten (store h)) as [d1' | e] eqn:E; [| done].
  apply Get_Ok in E. rewrite Hd1 in E. injection E as <-. destruct (negb _); [done |].
  apply (set_status_rolled_out now d1 k); [done .. | | done].
  do 3 right. apply (bool_decide_unpack _). by vm_compute.
Qed.

Lemma fail_rolled_out now d1 k h :
  rolled_out id d h -> DeployStore.m (store h) !! id = Some d1 -> plan d = plan d1 ->
  (world h).2 = tasks_for d (take k (SplitIDs (DeployTask.TargetIDs d))) ->
  rolled_out id d (fail now d1 h).1.
Proof using All.
  intros Hh Hd1 Hp Hlog. unfold fail.
  assert (Hset : forall st, st ∈ [StatusFailed; StatusRolledBack] -> stage d (DeployTask.set_Status st d1) k)
    by (intros st Hst; by do 3 right).
  pose proof (set_status_rolled_out now d1 k StatusFailed h Hh Hd1 Hp (Hset StatusFailed ltac:(left)) Hlog) as H1.
  destruct Hh as [Hwf _].
  destruct (update_stored now id d1 (DeployTask.set_Status StatusFailed d1) h Hwf Hd1 eq_refl) as (_ & Hs & Hw).
  destruct (update now (DeployTask.set_Status StatusFailed d1) h) as [h1 [e |]] eqn:Eu; [exact H1 |].
  destruct (DeployTask.AutoRollback _); [| exact H1]. cbn [fst] in *. unfold autoRollback.
  destruct H1 as [Hwf1 H1].
  destruct h1 as [s1 w1]. apply (rolled_out_update now id d _ _ k w1 (mk_handler s1 w1) Hwf1 Hs).
  - exact Hp.
  - done.
  - apply (Hset StatusRolledBack). right. left.
  - cbn in Hw. by rewrite Hw.
Qed.

Lemma Reconcile_rolled_out now ten h : rolled_out id d h -> rolled_out id d (Reconcile now id ten h).1.
Proof using All.
  intros Hh. pose proof Hh as (Hwf & d1 & k & Hd1 & Hp & Hst & Hlog). unfold Reconcile.
  destruct (DeployStore.Get id ten (store h)) as [d1' | e] eqn:E; [| done].
  apply Get_Ok in E. rewrite Hd1 in E. injection E as <-.
  destruct (_ || _ || _) eqn:Hs; [| done]. cbn [negb]. set (states := disp_TaskStates _ _ _).
  destruct (size states == 0); [done |]. destruct (DeployTask.Status d1 == StatusCanary) eqn:Hc.
  - apply bool_decide_eq_true_1 in Hc. destruct (_ <? _)%Z; [done |]. destruct (evaluateGate _ _ _ _); [| by apply (fail_rolled_out now d1 k)].
    destruct (stage_canary _ _ _ Hst) as [Hk Hct]; [rewrite Hc; set_solver |].
    apply (set_status_rolled_out now d1 k); [done .. | | done].
    right. left. split; [apply (bool_decide_unpack _); by vm_compute |]. done.
  - destruct (_ >? _)%Z; [by apply (fail_rolled_out now d1 k) |]. destruct (_ =? _)%Z; [| done].
    assert (Hst' : DeployTask.Status d1 ∈ [StatusRunning; StatusPromoting; StatusSuccess]).
    { rewrite orb_false_r in Hs. apply orb_true_iff in Hs as [Hs | Hs]; apply bool_decide_eq_true_1 in Hs; rewrite Hs;
        apply (bool_decide_unpack _); by vm_compute. }
    apply (set_status_rolled_out now d1 k); [done .. | | done].
    right. right. left. split; [apply (bool_decide_unpack _); by vm_compute |]. by apply (stage_promoted _ d1).
Qed.

Lemma Advance_rolled_out now ten w h : rolled_out id d h -> rolled_out id d (AdvanceCanary now id ten w h).1.
Proof using All.
  intros Hh. pose proof Hh as (Hwf & d1 & k & Hd1 & Hp & Hst & Hlog). unfold AdvanceCanary.
  destruct (DeployStore.Get id ten (store h)) as [d1' | e] eqn:E; [| done].
  apply Get_Ok in E. rewrite Hd1 in E. injection E as <-.
  destruct (EffectiveStrategy d1 != StrategyCanary); [done |]. destruct (_ && _) eqn:Hc; [done |].
  assert (Hs : DeployTask.Status d1 ∈ [StatusCanary; StatusGated]).
  { apply andb_false_iff in Hc as [H | H]; apply negb_false_iff, bool_decide_eq_true_1 in H; set_solver. }
  clear Hc. destruct (_ || _) eqn:Hw; [done |]. destruct (Z.leb_spec w (EffectiveCanaryWeight d1)) as [| Hlt]; [done |].
  destruct (stage_canary _ _ _ Hst Hs) as [Hk Hct].
  assert (DeployTask.TargetIDs d1 = DeployTask.TargetIDs d) as Et by (unfold plan in Hp; congruence).
  pose proof (weight_range d1). rewrite Et, Hct, SplitIDs_join by (apply Forall_take, SplitIDs_clean).
  rewrite select_share by (done || lia). case_bool_decide; [done |].
  destruct (world h) as [w0 l] eqn:Ew. cbn [snd] in Hlog.
  set (rest := not_in _ _).
  destruct (dispatch_accepted d1 rest (SplitIDs (DeployTask.TaskIDs d1)) w0 l Hok) as (w' & ids & ->).
  apply (rolled_out_update now id d d1) with (k := share (length (SplitIDs (DeployTask.TargetIDs d))) w); [done .. | |].
  - right. left. split; [by apply (bool_decide_unpack _); vm_compute |].
    unfold EffectiveCanaryWeight. cbn. by rewrite Hw.
  - cbn [snd]. rewrite Hlog, <- (tasks_for_plan d d1), <- tasks_for_app by done. f_equal.
    apply not_in_take; [done |]. rewrite Hk. apply share_mono. lia.
Qed.

Lemma concerns_rolled_out o h : concerns id o -> rolled_out id d h -> rolled_out id d (exec o h).
Proof using All.
  destruct o; simpl; intros Hc Hh; try done; try subst.
  - by apply Execute_rolled_out.
  - by apply Promote_rolled_out.
  - by apply Rollback_rolled_out.
  - by apply Reconcile_rolled_out.
  - by apply Advance_rolled_out.
  - destruct Hh as (Hwf & d1 & k & Hd1 & Hp & Hst & Hlog). split; [done |].
    exists d1, k. split; [done |]. split; [done |]. split; [done |]. simpl. by rewrite Hc.
Qed.
End steps.


(** What an execution does to the record and, when a task is refused, to the
    store. *)
Lemma execute_records now d ts s (w : W) l :
  DeployTask.Status d = StatusCreated -> first_targets d = Ok ts ->
  let '(h', e) := execute_read now d (mk_handler s (w, l)) in
  exists done_, (world h').2 = l ++ tasks_for d done_ /\ done_ `prefix_of` ts /\
    (forall t c, e = Some (DispatchFailed t c) -> store h' = s) /\ (e = None -> done_ = ts).
Proof using Hdev.
  intros Hc Hf. unfold execute_read. rewrite bool_decide_true, Hf by done. cbn [negb].
  set (staged := (_ || _)%bool). set (d0 := if staged then _ else d). cbn [world store].
  assert (Hp : plan d = plan d0) by (unfold d0; by destruct staged).
  destruct (dispatch_records d0 ts [] w l) as (w1 & r & k & E & Hpre & Hk). rewrite E.
  rewrite <- (tasks_for_plan d d0 k Hp) in *.
  destruct r as [ids | e].
  - unfold update. cbn [store world].
    set (d2 := if length ids == 0 then _ else _).
    assert (He : (DeployStore.Update now d2 s).2 = None \/
                 exists e, (DeployStore.Update now d2 s).2 = Some e /\ forall t c, e <> DispatchFailed t c).
    { unfold DeployStore.Update. destruct (_ !! _); [| right; by eexists]. destruct (_ && _); [right; by eexists | by left]. }
    destruct (DeployStore.Update now d2 s) as [s' e]. cbn [fst snd world store] in *. exists k.
    split; [done |]. split; [done |]. split; [| intros _; by apply Hk].
    destruct He as [-> | (e' & -> & He)]; [done |]. intros t c [= H]. by apply He in H.
  - exists k. cbn [world store snd]. by split_and!.
Qed.

(** A refused task leaves no trace of the tasks accepted before it: the
    deployment stays as created, and the next execution creates all of them
    again. *)
Theorem refused_execution_repeats now now' id ten w t c (h h1 h2 : Handler (W * list Task.t)) :
  Execute now id ten h = (h1, Some (DispatchFailed t c)) ->
  w.2 = (world h1).2 -> Execute now' id ten (mk_handler (store h1) w) = (h2, None) ->
  store h1 = store h /\
  exists l1 l2, (world h1).2 = (world h).2 ++ l1 /\ (world h2).2 = (world h).2 ++ l1 ++ l2 /\ l1 `prefix_of` l2.
Proof using Hdev.
  unfold Execute. destruct (DeployStore.Get id ten (store h)) as [d | e] eqn:Eg;
    [| unfold DeployStore.Get in Eg; by repeat case_match; simplify_eq].
  destruct (decide (DeployTask.Status d = StatusCreated)) as [Hc | Hc];
    [| unfold execute_read; by rewrite bool_decide_false].
  destruct (first_targets d) as [ts | e] eqn:Ef; last first.
  { unfold execute_read. rewrite bool_decide_true, Ef by done. cbn [negb]. intros [= _ ->].
    unfold first_targets in Ef. by repeat case_match; simplify_eq. }
  destruct h as [s [w0 l0]]. cbn [world store snd] in *. intros E1 Hw.
  pose proof (execute_records now d ts s w0 l0 Hc Ef) as H1. rewrite E1 in H1.
  destruct H1 as (k1 & Hl1 & Hp1 & Hs & _). rewrite (Hs _ _ eq_refl) in *. rewrite Eg. destruct w as [w2 l2].
  cbn [snd] in Hw. subst l2. intros E2. pose proof (execute_records now' d ts s w2 (world h1).2 Hc Ef) as H2.
  rewrite E2 in H2. destruct H2 as (k2 & Hl2 & _ & _ & Hk2). rewrite (Hk2 eq_refl) in Hl2.
  split; [done |]. exists (tasks_for d k1), (tasks_for d ts). split; [done |].
  split; [by rewrite Hl2, Hl1, app_assoc |]. destruct Hp1 as [rest ->]. rewrite tasks_for_app. by apply prefix_app_r.
Qed.

(** Reading and writing are separate critical sections of the store: two
    executions that both read the deployment as created dispatch everything
    twice. *)
Theorem concurrent_executions_repeat now now' d ts s (w : W) l h1 h2 :
  DeployTask.Status d = StatusCreated -> first_targets d = Ok ts ->
  execute_read now d (mk_handler s (w, l)) = (h1, None) -> execute_read now' d h1 = (h2, None) ->
  (world h2).2 = l ++ tasks_for d ts ++ tasks_for d ts.
Proof using Hdev.
  intros Hc Hf E1 E2. pose proof (execute_records now d ts s w l Hc Hf) as H1. rewrite E1 in H1.
  destruct H1 as (k1 & Hl1 & _ & _ & Hk1). rewrite (Hk1 eq_refl) in Hl1.
  destruct h1 as [s1 [w1 l1]]. cbn [world snd] in Hl1.
  pose proof (execute_records now' d ts s1 w1 l1 Hc Hf) as H2. rewrite E2 in H2.
  destruct H2 as (k2 & Hl2 & _ & _ & Hk2). rewrite (Hk2 eq_refl) in Hl2. by rewrite Hl2, Hl1, app_assoc.
Qed.
End rollout.


(** The engine of the examples, refusing the task of agent [d2] until it has
    refused one. *)
Definition refusing : Dispatcher nat := {|
  disp_CreateTask t n :=
    if (Task.AgentID t == "agent-d2") && (n <=? 1)%nat then (S n, Err "full")
    else (S n, Ok (Some (Task.set_TaskID ("t" +:+ pretty n) t)));
  disp_Device id _ := ex_device id;
  disp_TaskStates ids _ _ := ∅;
|}.

#[local] Instance refusing_recorder : Dispatcher (nat * list Task.t) := @recorder nat refusing.
Definition ex_half : Handler (nat * list Task.t) :=
  mk_handler (DeployStore.mk (DeployTask.set_CanaryWeight 60 <$> DeployStore.m (store (ex_handler 0))) 1) (0, []).
Definition ex_refused : Handler (nat * list Task.t) := (Execute 2 1 "acme" ex_half).1.
Definition ex_repeated : Handler (nat * list Task.t) := (Execute 3 1 "acme" ex_refused).1.

Lemma refused_execution_repeats_witness :
  (Task.AgentID <$> (world ex_refused).2) = ["agent-d1"] /\
  (Task.AgentID <$> (world ex_repeated).2) = ["agent-d1"; "agent-d1"; "agent-d2"] /\
  store ex_refused = store ex_half.
Proof.
  split; [vm_compute; reflexivity |]. split; [vm_compute; reflexivity |].
  apply (@refused_execution_repeats nat refusing ex_device (fun _ _ => eq_refl) 2 3 1 "acme"
    (world ex_refused) "d2" "full" ex_half ex_refused ex_repeated); vm_compute; reflexivity.
Defined.

(** A gate at a rate that is met exactly can be closed: the percentage is
    computed in binary floating point.  Of the whole rates below one hundred, on a
    hundred tasks, these success rates and failure rates are affected. *)
Lemma attained_rates_refused :
  List.filter (fun n => negb (evaluateGate (GateConfig.mk (f_of_int n) f_zero 0 "") n (100 - n) 100))
    (Z.of_nat <$> seq 1 99) = [29; 57; 58]%Z /\
  List.filter (fun n => negb (evaluateGate (GateConfig.mk f_zero (f_of_int n) 0 "") 100 n 100))
    (Z.of_nat <$> seq 1 99) = [7; 14; 28; 55; 56]%Z.
Proof. split; vm_compute; reflexivity. Qed.
