(* ===== verification/AutoAdvance.v ===== *)
(** * Automatic advance of canary rollouts ([internal/deploy/auto_advance.go])

    A monitor per deployment looks at the results of the tasks dispatched so far
    and rolls back, waits, widens the canary share or promotes.  [checkAndAdvance]
    is one step of a monitor; its callbacks are the handler's operations or
    missing.  The monitors are goroutines: [Manager.t] holds, beside the table of
    running monitors, the state of each goroutine, and their steps (begin, check,
    leave, and the calls of [Stop]) are separate because the lock is released in
    between.  Instants are arguments; the texts of failed gates are
    constructors. *)

From Stdlib Require Import Ascii SpecFloat.
From S2P Require Import Proto GoStrings Float64 Prelude Deploy.
Open Scope go_scope.

(** The literal [p/100]. *)
Definition percent (p : Z) : float64 := f_div (f_of_int p) (f_of_int 100).

Definition millisecond : duration := 1000000%Z.

Module AutoAdvanceConfig.
Record t := mk {
  Enabled : bool; CheckInterval : duration; FailureRateThreshold : float64; LatencyThreshold : duration;
  MinSampleSize : Z; AdvanceRatio : float64; MaxRatio : float64 }.
End AutoAdvanceConfig.

Definition DefaultAutoAdvanceConfig : AutoAdvanceConfig.t :=
  AutoAdvanceConfig.mk true (30 * second) (percent 5) (500 * millisecond) 100 (percent 10) f_one.

(** The defaults that [NewAutoAdvanceManager] fills in. *)
Definition resolveConfig (c : AutoAdvanceConfig.t) : AutoAdvanceConfig.t :=
  AutoAdvanceConfig.mk (AutoAdvanceConfig.Enabled c)
    (if (AutoAdvanceConfig.CheckInterval c <=? 0)%Z then (30 * second)%Z else AutoAdvanceConfig.CheckInterval c)
    (if f_le (AutoAdvanceConfig.FailureRateThreshold c) f_zero then percent 5 else AutoAdvanceConfig.FailureRateThreshold c)
    (if (AutoAdvanceConfig.LatencyThreshold c <=? 0)%Z then (500 * millisecond)%Z else AutoAdvanceConfig.LatencyThreshold c)
    (if (AutoAdvanceConfig.MinSampleSize c <=? 0)%Z then 100%Z else AutoAdvanceConfig.MinSampleSize c)
    (if f_le (AutoAdvanceConfig.AdvanceRatio c) f_zero then percent 10 else AutoAdvanceConfig.AdvanceRatio c)
    (if f_le (AutoAdvanceConfig.MaxRatio c) f_zero then f_one else AutoAdvanceConfig.MaxRatio c).

Inductive gate_reason :=
  | NoReason
  | NoTasksDispatched
  | NoCompletedSamples
  | FailureRateHigh (rate threshold : float64)
  | LatencyHigh (latency threshold : duration).

Module GateResult.
Record t := mk {
  Passed : bool; FailureRate : float64; AvgLatency : duration; SampleSize : Z; Reason : gate_reason }.
End GateResult.

Inductive monitor_error :=
  | ErrAlreadyMonitoring
  | OnlyCanary (strategy : string)
  | NotInCanaryStage (status : string)
  | DeployError (e : deploy_error).

(** What a monitor has last seen and done. *)
Module MonitorState.
Record t := mk {
  startedAt : time; lastGate : option GateResult.t; lastCheck : time; lastAction : string;
  lastError : option monitor_error }.
Definition started (now : time) : t := mk now None zero_time "" None.
Definition recordError (now : time) (e : monitor_error) (st : t) : t :=
  mk (startedAt st) (lastGate st) now "error" (Some e).
Definition recordAction (now : time) (action : string) (gate : GateResult.t) (st : t) : t :=
  mk (startedAt st) (Some gate) now action None.
End MonitorState.

(** [TaskResultProvider]. *)
Class TaskResultProvider (W : Type) := provider_TaskResult : string -> W -> option TaskResult.t.

Section advance.
Context {W : Type} `{!Dispatcher W, !TaskResultProvider W}.

(** The callbacks: the ones the package documents are [AdvanceCanary],
    [Promote] and [Rollback] of the handler. *)
Abbreviation callback A := (option (Z -> string -> A -> Handler W -> Handler W * option deploy_error)).

Record manager := mk_manager {
  config : AutoAdvanceConfig.t;
  advance : callback Z;
  promote : callback unit;
  rollback : callback unit;
}.

Definition NewAutoAdvanceManager (cfg : AutoAdvanceConfig.t) (a : callback Z) (p r : callback unit) : manager :=
  mk_manager (resolveConfig cfg) a p r.

(** The loop over the results: their number, the failed ones, and the sum of the
    durations. *)
Definition add_result (w : W) (acc : Z * Z * Z) (tid : string) : Z * Z * Z :=
  match provider_TaskResult tid w with
  | None => acc
  | Some r =>
      let '(total, failed, sum) := acc in
      ((total + 1)%Z,
       (if (TaskResult.ExitCode r =? 0)%Z then failed else failed + 1)%Z,
       if (TaskResult.DurationMs r >? 0)%Z then wrap_i64 (sum + TaskResult.DurationMs r) else sum)
  end.

Definition evaluateGate (cfg : AutoAdvanceConfig.t) (deployID : Z) (h : Handler W) : result monitor_error GateResult.t :=
  match DeployStore.Get deployID "" (store h) with
  | Err e => Err (DeployError e)
  | Ok dt =>
      if EffectiveStrategy dt != StrategyCanary then Err (OnlyCanary (EffectiveStrategy dt))
      else
        let taskIDs := SplitIDs (DeployTask.TaskIDs dt) in
        if length taskIDs == 0 then Ok (GateResult.mk false f_zero 0 0 NoTasksDispatched)
        else
          let '(total, failed, sum) := foldl (add_result (world h)) (0, 0, 0)%Z taskIDs in
          if (total =? 0)%Z then Ok (GateResult.mk false f_zero 0 total NoCompletedSamples)
          else
            let rate := f_div (f_of_int failed) (f_of_int total) in
            let latency := wrap_i64 (Z.quot sum total * millisecond) in
            if f_lt (AutoAdvanceConfig.FailureRateThreshold cfg) rate
            then Ok (GateResult.mk false rate latency total (FailureRateHigh rate (AutoAdvanceConfig.FailureRateThreshold cfg)))
            else if (latency >? AutoAdvanceConfig.LatencyThreshold cfg)%Z
            then Ok (GateResult.mk false rate latency total (LatencyHigh latency (AutoAdvanceConfig.LatencyThreshold cfg)))
            else Ok (GateResult.mk true rate latency total NoReason)
  end.

(** What follows an open gate at a canary weight. *)
Inductive next_share := ToPromotion | NoGrowth | ToWeight (weight : Z).

Definition nextShare (cfg : AutoAdvanceConfig.t) (weight : Z) : next_share :=
  let currentRatio := f_div (f_of_int weight) (f_of_int 100) in
  let newRatio := f_add currentRatio (AutoAdvanceConfig.AdvanceRatio cfg) in
  if f_le (AutoAdvanceConfig.MaxRatio cfg) newRatio then ToPromotion
  else
    let newWeight := f_trunc (f_mul newRatio (f_of_int 100)) in
    let newWeight := if (newWeight >? 100)%Z then 100%Z else newWeight in
    if (newWeight <=? weight)%Z then NoGrowth else ToWeight newWeight.

(** Call a callback for the deployment, and record what came of it. *)
Definition act {A} (now : time) (name : string) (cb : callback A) (deployID : Z) (tenantID : string) (arg : A)
    (gate : GateResult.t) (h : Handler W) (st : MonitorState.t) : Handler W * MonitorState.t :=
  match cb with
  | None => (h, MonitorState.recordAction now (name +:+ "_skipped") gate st)
  | Some f =>
      match f deployID tenantID arg h with
      | (h, Some e) => (h, MonitorState.recordError now (DeployError e) st)
      | (h, None) => (h, MonitorState.recordAction now name gate st)
      end
  end.

Definition checkAndAdvance (m : manager) (now : time) (deployID : Z) (h : Handler W) (st : MonitorState.t)
  : Handler W * MonitorState.t :=
  match evaluateGate (config m) deployID h with
  | Err e => (h, MonitorState.recordError now e st)
  | Ok gate =>
      if (GateResult.SampleSize gate <? AutoAdvanceConfig.MinSampleSize (config m))%Z
      then (h, MonitorState.recordAction now "wait" gate st)
      else if negb (GateResult.Passed gate) && match rollback m with None => true | Some _ => false end
      then (h, MonitorState.recordAction now "rollback_skipped" gate st)
      else
        match DeployStore.Get deployID "" (store h) with
        | Err e => (h, MonitorState.recordError now (DeployError e) st)
        | Ok dt =>
            let tenantID := DeployTask.TenantID dt in
            if negb (GateResult.Passed gate) then act now "rollback" (rollback m) deployID tenantID tt gate h st
            else
              match nextShare (config m) (EffectiveCanaryWeight dt) with
              | ToPromotion => act now "promote" (promote m) deployID tenantID tt gate h st
              | NoGrowth => (h, MonitorState.recordAction now "wait" gate st)
              | ToWeight newWeight => act now "advance" (advance m) deployID tenantID newWeight gate h st
              end
        end
  end.

Definition isTerminalStatus (status : string) : bool :=
  (status == StatusSuccess) || (status == StatusFailed) || (status == StatusRolledBack).

(** ** Monitors as goroutines *)

(** A call of [Monitor] after its prologue: its state, whether its context is
    cancelled, and whether its loop has ended, which leaves the clean-up. *)
Record monitor := mk_monitor { deployID : Z; state : MonitorState.t; cancelled : bool; ended : bool }.
Definition set_state v mo := mk_monitor (deployID mo) v (cancelled mo) (ended mo).

(** The manager with the handler; [running] maps deployments to monitors. *)
Record system := mk_system {
  mgr : manager; handler : Handler W; running : gmap Z nat; monitors : gmap nat monitor }.
Definition put_monitor (g : nat) (mo : monitor) (s : system) : system :=
  mk_system (mgr s) (handler s) (running s) (<[g := mo]> (monitors s)).

(** The prologue of [Monitor], as goroutine [g]. *)
Definition Monitor_begin (now : time) (g : nat) (id : Z) (s : system) : system * option monitor_error :=
  match running s !! id with
  | Some _ => (s, Some ErrAlreadyMonitoring)
  | None =>
      match DeployStore.Get id "" (store (handler s)) with
      | Err e => (s, Some (DeployError e))
      | Ok dt =>
          if EffectiveStrategy dt != StrategyCanary then (s, Some (OnlyCanary (EffectiveStrategy dt)))
          else if (DeployTask.Status dt != StatusCanary) && (DeployTask.Status dt != StatusGated)
          then (s, Some (NotInCanaryStage (DeployTask.Status dt)))
          else
            (mk_system (mgr s) (handler s) (<[id := g]> (running s))
               (<[g := mk_monitor id (MonitorState.started now) false false]> (monitors s)), None)
      end
  end.

(** [checkAndAdvance] by monitor [g]. *)
Definition check_by (now : time) (g : nat) (mo : monitor) (s : system) : system :=
  let (h, st) := checkAndAdvance (mgr s) now (deployID mo) (handler s) (state mo) in
  mk_system (mgr s) h (running s) (<[g := set_state st mo]> (monitors s)).

Definition end_loop (g : nat) (mo : monitor) (s : system) : system :=
  put_monitor g (mk_monitor (deployID mo) (state mo) (cancelled mo) true) s.

(** A tick of the loop. *)
Definition tick (now : time) (g : nat) (mo : monitor) (s : system) : system :=
  match DeployStore.Get (deployID mo) "" (store (handler s)) with
  | Err e => end_loop g (set_state (MonitorState.recordError now (DeployError e) (state mo)) mo) s
  | Ok dt => if isTerminalStatus (DeployTask.Status dt) then end_loop g mo s else check_by now g mo s
  end.

(** The clean-up of [Monitor]: it deletes the entry of the deployment. *)
Definition leave (g : nat) (mo : monitor) (s : system) : system :=
  mk_system (mgr s) (handler s) (delete (deployID mo) (running s)) (delete g (monitors s)).

Definition Stop (id : Z) (s : system) : system * bool :=
  match running s !! id with
  | None => (s, false)
  | Some g =>
      (mk_system (mgr s) (handler s) (delete id (running s))
         (alter (fun mo => mk_monitor (deployID mo) (state mo) true (ended mo)) g (monitors s)), true)
  end.

(** The state that [Status] reports, or that nothing is running. *)
Definition Status (id : Z) (s : system) : option MonitorState.t :=
  g ← running s !! id; mo ← monitors s !! g; Some (state mo).

(** The steps of the goroutines; a step that is not possible does nothing. *)
Inductive mstep :=
  | MBegin (now : time) (g : nat) (id : Z)
  | MCheck (now : time) (g : nat)
  | MTick (now : time) (g : nat)
  | MCancelled (g : nat)
  | MLeave (g : nat)
  | MStop (id : Z)
  | MHandler (f : Handler W -> Handler W).

Definition mexec (o : mstep) (s : system) : system :=
  match o with
  | MBegin now g id => match monitors s !! g with Some _ => s | None => (Monitor_begin now g id s).1 end
  | MCheck now g =>
      match monitors s !! g with Some mo => if ended mo then s else check_by now g mo s | None => s end
  | MTick now g =>
      match monitors s !! g with Some mo => if ended mo then s else tick now g mo s | None => s end
  | MCancelled g =>
      match monitors s !! g with Some mo => if cancelled mo then end_loop g mo s else s | None => s end
  | MLeave g => match monitors s !! g with Some mo => if ended mo then leave g mo s else s | None => s end
  | MStop id => (Stop id s).1
  | MHandler f => mk_system (mgr s) (f (handler s)) (running s) (monitors s)
  end.

(** ** How many monitors *)

(** Every monitor is the registered one of its deployment. *)
Definition registered (s : system) : Prop :=
  forall g mo, monitors s !! g = Some mo -> running s !! deployID mo = Some g.

Definition stops (o : mstep) : bool := match o with MStop _ => true | _ => false end.

Lemma put_registered g mo mo' h (s : system) :
  registered s -> monitors s !! g = Some mo -> deployID mo' = deployID mo ->
  registered (mk_system (mgr s) h (running s) (<[g := mo']> (monitors s))).
Proof.
  intros Hs Hg Hid g' mo1. simpl. intros [[<- <-] | [_ H]]%lookup_insert_Some; [| by apply Hs].
  rewrite Hid. by apply Hs.
Qed.

Lemma mexec_registered o s : stops o = false -> registered s -> registered (mexec o s).
Proof.
  intros Ho Hs. destruct o as [now g id | now g | now g | g | g | id | f]; simpl; try done;
    destruct (monitors s !! g) as [mo |] eqn:Eg; try done.
  - unfold Monitor_begin. destruct (running s !! id) as [g' |] eqn:Er; [done |].
    destruct (DeployStore.Get id "" (store (handler s))) as [d | e]; [| done].
    destruct (_ != _); [done |]. destruct (_ && _); [done |].
    intros g' mo. simpl. intros [[<- <-] | [Hne H]]%lookup_insert_Some; [by rewrite lookup_insert_eq |].
    apply Hs in H as H'. rewrite lookup_insert_ne; [done | congruence].
  - destruct (ended mo); [done |]. unfold check_by. destruct (checkAndAdvance _ _ _ _ _).
    by apply (put_registered g mo).
  - destruct (ended mo); [done |]. unfold tick. destruct (DeployStore.Get _ _ _); [| by apply (put_registered g mo)].
    destruct (isTerminalStatus _); [by apply (put_registered g mo) |]. unfold check_by.
    destruct (checkAndAdvance _ _ _ _ _). by apply (put_registered g mo).
  - destruct (cancelled mo); [| done]. by apply (put_registered g mo).
  - destruct (ended mo); [| done]. intros g' mo'. simpl. intros [Hne H]%lookup_delete_Some.
    apply Hs in H as H'. apply Hs in Eg. rewrite lookup_delete_ne; [done | congruence].
Qed.

(** As long as nobody calls [Stop], every deployment has at most one monitor,
    however the goroutines interleave. *)
Theorem one_monitor_without_stop ops s g1 g2 m1 m2 :
  registered s -> Forall (fun o => stops o = false) ops ->
  monitors (run mexec ops s) !! g1 = Some m1 -> monitors (run mexec ops s) !! g2 = Some m2 ->
  deployID m1 = deployID m2 -> g1 = g2.
Proof.
  intros Hs Hops. assert (H : registered (run mexec ops s)).
  { revert s Hs. induction Hops as [| o ops Ho _ IH]; intros s Hs; [done |].
    apply IH, mexec_registered; done. }
  intros H1%H H2%H E. rewrite E in H1. congruence.
Qed.
End advance.
