(* ===== verification/AutoAdvanceProps.v ===== *)
(** * Properties of the automatic advance

    A healthy rollout is promoted within ten checks under the default steps,
    stalls for ever under steps of one percent, and [Stop] followed by a new
    start leaves two monitors. *)

From Stdlib Require Import Ascii SpecFloat.
From S2P Require Import Proto GoStrings Float64 Prelude Deploy DeployProps DeployRollout AutoAdvance.
Open Scope go_scope.

(** ** Weights *)

(** From weight [w], open gates lead to the promotion within [n] checks. *)
Fixpoint reaches (cfg : AutoAdvanceConfig.t) (n : nat) (w : Z) : bool :=
  match n with
  | 0 => false
  | S n =>
      match nextShare cfg w with
      | ToPromotion => true
      | NoGrowth => false
      | ToWeight w' => (w <? w')%Z && (w' <=? 100)%Z && reaches cfg n w'
      end
  end.

Definition weights : list Z := (fun n => Z.of_nat (S n)) <$> seq 0 100.

Lemma elem_of_weights w : (0 < w <= 100)%Z -> w ∈ weights.
Proof.
  intros H. apply list_elem_of_fmap. exists (Z.to_nat (w - 1)). split; [lia |]. apply elem_of_seq. lia.
Qed.

Lemma default_reaches w : (0 < w <= 100)%Z -> reaches DefaultAutoAdvanceConfig 10 w = true.
Proof.
  intros H. assert (Hall : forallb (reaches DefaultAutoAdvanceConfig 10) weights = true) by by vm_compute.
  rewrite forallb_elem in Hall. by apply Hall, elem_of_weights.
Qed.

Lemma nextShare_ratios cfg cfg' w :
  AutoAdvanceConfig.AdvanceRatio cfg = AutoAdvanceConfig.AdvanceRatio cfg' ->
  AutoAdvanceConfig.MaxRatio cfg = AutoAdvanceConfig.MaxRatio cfg' -> nextShare cfg w = nextShare cfg' w.
Proof. unfold nextShare. by intros -> ->. Qed.

Lemma reaches_ratios cfg cfg' n w :
  AutoAdvanceConfig.AdvanceRatio cfg = AutoAdvanceConfig.AdvanceRatio cfg' ->
  AutoAdvanceConfig.MaxRatio cfg = AutoAdvanceConfig.MaxRatio cfg' -> reaches cfg n w = reaches cfg' n w.
Proof.
  intros H1 H2. revert w. induction n as [| n IH]; intros w; [done |]. simpl.
  rewrite (nextShare_ratios cfg cfg' w H1 H2). destruct (nextShare cfg' w); [done | done |]. by rewrite IH.
Qed.

Section checks.
Context {W : Type} `{!Dispatcher W, !TaskResultProvider W}.

(** The manager wired to the handler's operations, at instant [now]. *)
Definition wired (cfg : AutoAdvanceConfig.t) (now : time) : manager :=
  mk_manager (W := W) cfg
    (Some (fun id ten w h => AdvanceCanary now id ten w h))
    (Some (fun id ten _ h => Promote now id ten h))
    (Some (fun id ten _ h => Rollback now id ten h)).

(** The engine goes on, then the deployment is checked, for as many times as
    there are steps of the engine. *)
Fixpoint checks (m : manager) (now : time) (id : Z) (env : list (W -> W)) (h : Handler W) (st : MonitorState.t)
  : Handler W * MonitorState.t :=
  match env with
  | [] => (h, st)
  | f :: env =>
      let (h, st) := checkAndAdvance m now id (mk_handler (store h) (f (world h))) st in
      checks m now id env h st
  end.

(** At a check after which the deployment is still in its canary stage, there
    are enough samples and the gate is open. *)
Definition gate_open (m : manager (W := W)) (id : Z) (h : Handler W) : Prop :=
  exists gate, AutoAdvance.evaluateGate (config m) id h = Ok gate /\ GateResult.Passed gate = true /\
    (AutoAdvanceConfig.MinSampleSize (config m) <= GateResult.SampleSize gate)%Z.

Fixpoint gates_open (m : manager) (now : time) (id : Z) (env : list (W -> W)) (h : Handler W) (st : MonitorState.t)
  : Prop :=
  match env with
  | [] => True
  | f :: env =>
      let h' := mk_handler (store h) (f (world h)) in
      gate_open m id h' /\ gates_open m now id env (checkAndAdvance m now id h' st).1 (checkAndAdvance m now id h' st).2
  end.

(** The same as a test. *)
Fixpoint gates_test (m : manager) (now : time) (id : Z) (env : list (W -> W)) (h : Handler W) (st : MonitorState.t)
  : bool :=
  match env with
  | [] => true
  | f :: env =>
      let h' := mk_handler (store h) (f (world h)) in
      match AutoAdvance.evaluateGate (config m) id h' with
      | Ok gate =>
          GateResult.Passed gate &&
          (AutoAdvanceConfig.MinSampleSize (config m) <=? GateResult.SampleSize gate)%Z
      | Err _ => false
      end &&
      let (h1, st1) := checkAndAdvance m now id h' st in gates_test m now id env h1 st1
  end.

Lemma gates_test_open m now id env h st : gates_test m now id env h st = true -> gates_open m now id env h st.
Proof.
  revert h st. induction env as [| f env IH]; intros h st; [done |]. cbn [gates_test gates_open].
  set (h' := mk_handler _ _). intros [H1 H2]%andb_true_iff. split.
  - destruct (AutoAdvance.evaluateGate _ id h') as [gate | e] eqn:E; [| done]. exists gate.
    apply andb_true_iff in H1 as [Hp Hn%Z.leb_le]. done.
  - destruct (checkAndAdvance m now id h' st). by apply IH.
Qed.

Definition in_stage (id : Z) (d : DeployTask.t) (h : Handler W) : Prop :=
  well_numbered (store h) /\ DeployStore.m (store h) !! id = Some d /\
  DeployTask.Status d ∈ [StatusCanary; StatusGated] /\ EffectiveStrategy d = StrategyCanary.

Lemma Get_any id (h : Handler W) d :
  DeployStore.m (store h) !! id = Some d -> DeployStore.Get id "" (store h) = Ok d.
Proof. intros H. unfold DeployStore.Get. by rewrite H. Qed.

Lemma Get_own id (h : Handler W) d :
  DeployStore.m (store h) !! id = Some d -> DeployStore.Get id (DeployTask.TenantID d) (store h) = Ok d.
Proof.
  intros H. unfold DeployStore.Get. rewrite H.
  by rewrite (bool_decide_true (DeployTask.TenantID d = DeployTask.TenantID d)), andb_false_r.
Qed.

Lemma stage_not d : DeployTask.Status d ∈ [StatusCanary; StatusGated] ->
  (DeployTask.Status d != StatusCanary) && (DeployTask.Status d != StatusGated) = false.
Proof. intros Hs. by each_status Hs. Qed.

(** What a check with an open gate does. *)
Lemma check_open m now id h st d :
  in_stage id d h -> gate_open m id h -> exists gate,
  checkAndAdvance m now id h st =
    match nextShare (config m) (EffectiveCanaryWeight d) with
    | ToPromotion => act now "promote" (promote m) id (DeployTask.TenantID d) tt gate h st
    | NoGrowth => (h, MonitorState.recordAction now "wait" gate st)
    | ToWeight w => act now "advance" (advance m) id (DeployTask.TenantID d) w gate h st
    end.
Proof.
  intros (_ & Hd & _ & _) (gate & Eg & Hp & Hn). exists gate. unfold checkAndAdvance. rewrite Eg.
  destruct (Z.ltb_spec (GateResult.SampleSize gate) (AutoAdvanceConfig.MinSampleSize (config m))); [lia |].
  rewrite Hp. cbn [negb andb]. by rewrite (Get_any _ _ _ Hd).
Qed.

Lemma advance_in_stage now id w d (h : Handler W) :
  accepting (W := W) -> in_stage id d h -> SplitIDs (DeployTask.TargetIDs d) <> [] ->
  (EffectiveCanaryWeight d < w <= 100)%Z ->
  exists h' d', AdvanceCanary now id (DeployTask.TenantID d) w h = (h', None) /\ in_stage id d' h' /\
    plan d = plan d' /\ EffectiveCanaryWeight d' = w.
Proof.
  intros Hok (Hwf & Hd & Hs & Hc) Hne Hw. unfold AdvanceCanary.
  rewrite (Get_own _ _ _ Hd), bool_decide_true, (stage_not d Hs) by done. cbn [negb].
  pose proof (weight_range d). unfold canaryWeightMax.
  destruct (Z.leb_spec w 0); [lia |]. destruct (Z.gtb_spec w 100); [lia |]. cbn [orb].
  destruct (Z.leb_spec w (EffectiveCanaryWeight d)); [lia |].
  rewrite select_share by (done || lia).
  rewrite (bool_decide_false (length _ = 0)); last first.
  { rewrite length_take. pose proof (share_le (length (SplitIDs (DeployTask.TargetIDs d))) w).
    pose proof (share_pos (length (SplitIDs (DeployTask.TargetIDs d))) w ltac:(by destruct (SplitIDs _); simpl; [| lia])). lia. }
  pose proof (dispatch_accepts Hok d) as Hdis.
  match goal with |- context [dispatch d ?ts ?ids ?w0] => specialize (Hdis ts ids w0); destruct (dispatch d ts ids w0) as [w1 [ids' | e]] end;
    [| done].
  match goal with |- context [update now ?d2 ?h2] => destruct (update_stored now id d d2 h2 Hwf Hd eq_refl) as (He & Hst & _);
    pose proof (update_evolves now id d d2 h2 Hd) as Hev; destruct (update now d2 h2) as [h' e'] end.
  cbn [fst snd] in *. subst e'. match type of Hst with _ = Some ?x => exists h', x end. split; [done |].
  assert (Hweight : forall x, EffectiveCanaryWeight (DeployTask.set_UpdatedAt now (DeployTask.set_Status StatusCanary
    (DeployTask.set_CanaryTargets x (DeployTask.set_CanaryWeight w (DeployTask.set_TaskIDs (JoinStr "," ids') d))))) = w).
  { intros x. unfold EffectiveCanaryWeight, canaryWeightMax. cbn.
    destruct (Z.leb_spec w 0); [lia |]. by destruct (Z.gtb_spec w 100); [lia |]. }
  split; [| by split]. split; [| split; [exact Hst |]; split; [left | exact Hc]].
  apply Hev; [| done]. split; [done |]. split.
  - cbn. each_status Hs; [apply rtc_refl | apply rtc_once; solve_step].
  - unfold EffectiveCanaryWeight at 2, canaryWeightMax. cbn.
    destruct (Z.leb_spec w 0); [lia |]. destruct (Z.gtb_spec w 100); cbn [orb]; lia.
Qed.

Lemma promote_in_stage now id d (h : Handler W) :
  accepting (W := W) -> in_stage id d h ->
  exists h' d', Promote now id (DeployTask.TenantID d) h = (h', None) /\
    DeployStore.m (store h') !! id = Some d' /\ plan d = plan d' /\ DeployTask.Status d' = StatusPromoting.
Proof.
  intros Hok (Hwf & Hd & Hs & Hc). unfold Promote.
  rewrite (Get_own _ _ _ Hd), (stage_not d Hs), Hc, !bool_decide_false by done.
  pose proof (dispatch_accepts Hok d) as Hdis.
  match goal with |- context [dispatch d ?ts ?ids ?w0] => specialize (Hdis ts ids w0); destruct (dispatch d ts ids w0) as [w1 [ids' | e]] end;
    [| done].
  match goal with |- context [update now ?d2 ?h2] => destruct (update_stored now id d d2 h2 Hwf Hd eq_refl) as (He & Hst & _);
    destruct (update now d2 h2) as [h' e'] end.
  cbn [fst snd] in *. subst e'. match type of Hst with _ = Some ?x => exists h', x end. split; [done |]. split; [exact Hst |]. by split.
Qed.

(** A healthy rollout, phrased on its checks: it is promoted at one of them, or
    the weights do not lead there. *)
Lemma reaches_promotion cfg now id env h st d :
  accepting (W := W) -> in_stage id d h -> SplitIDs (DeployTask.TargetIDs d) <> [] ->
  reaches cfg (length env) (EffectiveCanaryWeight d) = true ->
  gates_open (wired cfg now) now id env h st ->
  exists env1 env2 d', env = env1 ++ env2 /\ plan d = plan d' /\
    DeployStore.m (store (checks (wired cfg now) now id env1 h st).1) !! id = Some d' /\
    DeployTask.Status d' = StatusPromoting.
Proof.
  intros Hok. revert h st d. induction env as [| f env IH]; intros h st d Hin Hne; [done |].
  cbn [length reaches gates_open]. set (h0 := mk_handler (store h) (f (world h))).
  assert (Hin0 : in_stage id d h0) by exact Hin. intros Hr [Hopen Hrest].
  destruct (check_open _ now id h0 st d Hin0 Hopen) as [gate E]. cbn [config wired advance promote] in E.
  destruct (nextShare cfg (EffectiveCanaryWeight d)) as [| | w] eqn:En; [| done |].
  - destruct (promote_in_stage now id d h0 Hok Hin0) as (h1 & d1 & Ep & Hd1 & Hp & Hs1).
    exists [f], env, d1. split; [done |]. split; [done |]. split; [| done].
    cbn [checks]. fold h0. rewrite E. unfold act. by rewrite Ep.
  - apply andb_true_iff in Hr as [Hr Hr3]. apply andb_true_iff in Hr as [Hr1%Z.ltb_lt Hr2%Z.leb_le].
    destruct (advance_in_stage now id w d h0 Hok Hin0 Hne ltac:(lia)) as (h1 & d1 & Ea & Hin1 & Hp & Hw).
    unfold act in E. rewrite Ea in E. rewrite E in Hrest. cbn [fst snd] in Hrest.
    assert (Ht : DeployTask.TargetIDs d1 = DeployTask.TargetIDs d) by (unfold plan in Hp; congruence).
    destruct (IH h1 _ d1 Hin1 ltac:(by rewrite Ht) ltac:(by rewrite Hw) Hrest) as (e1 & e2 & d' & -> & Hp' & Hd' & Hs').
    exists (f :: e1), e2, d'. split; [done |]. split; [congruence |]. split; [| done].
    cbn [checks]. fold h0. by rewrite E.
Qed.

Definition default_steps (cfg : AutoAdvanceConfig.t) : Prop :=
  AutoAdvanceConfig.AdvanceRatio cfg = AutoAdvanceConfig.AdvanceRatio DefaultAutoAdvanceConfig /\
  AutoAdvanceConfig.MaxRatio cfg = AutoAdvanceConfig.MaxRatio DefaultAutoAdvanceConfig.

(** A healthy canary is promoted: with the default steps, from any weight,
    when the engine accepts the tasks and the gate is open with enough samples at
    each of ten checks, the deployment is promoted to all of its targets at one
    of them, whatever the engine does in between. *)
Theorem healthy_canary_promoted cfg now id env h st d :
  default_steps cfg -> accepting (W := W) -> in_stage id d h -> SplitIDs (DeployTask.TargetIDs d) <> [] ->
  length env = 10 -> gates_open (wired cfg now) now id env h st ->
  exists env1 env2 d', env = env1 ++ env2 /\ plan d = plan d' /\
    DeployStore.m (store (checks (wired cfg now) now id env1 h st).1) !! id = Some d' /\
    DeployTask.Status d' = StatusPromoting.
Proof.
  intros [H1 H2] Hok Hin Hne Hlen Hopen. apply (reaches_promotion cfg now id env h st d); [done .. | | done].
  rewrite Hlen, (reaches_ratios cfg DefaultAutoAdvanceConfig) by done. apply default_reaches, weight_range.
Qed.

(** Steps of one percent stall: binary floating point puts 57% and 1% at less
    than 58%, the share is rounded down to 57 again, and however often the gate
    is open the deployment stays as it is. *)
Theorem one_percent_steps_stall cfg now id env h st d :
  AutoAdvanceConfig.AdvanceRatio cfg = percent 1 -> AutoAdvanceConfig.MaxRatio cfg = f_one ->
  in_stage id d h -> EffectiveCanaryWeight d = 57%Z -> gates_open (wired cfg now) now id env h st ->
  let (h', st') := checks (wired cfg now) now id env h st in
  store h' = store h /\ (env <> [] -> MonitorState.lastAction st' = "wait").
Proof.
  intros H1 H2 Hin Hw. revert h st Hin. induction env as [| f env IH]; intros h st Hin; [done |].
  cbn [gates_open checks]. set (h0 := mk_handler (store h) (f (world h))).
  assert (Hin0 : in_stage id d h0) by exact Hin. intros [Hopen Hrest].
  destruct (check_open _ now id h0 st d Hin0 Hopen) as [gate E]. cbn [config wired] in E. rewrite Hw in E.
  assert (Hn : nextShare cfg 57 = NoGrowth).
  { rewrite (nextShare_ratios cfg (AutoAdvanceConfig.mk true 0 f_zero 0 0 (percent 1) f_one)) by done. by vm_compute. }
  rewrite Hn in E. rewrite E in Hrest |- *. cbn [fst snd] in Hrest.
  specialize (IH h0 _ Hin0 Hrest). destruct (checks _ now id env h0 _) as [h' st'] eqn:Ec.
  destruct IH as [-> IH]. split; [done |]. intros _.
  destruct env; [| by apply IH]. cbn in Ec. by injection Ec as _ <-.
Qed.

(** ** Restarted monitors *)

(** [Monitor] can start on the deployment. *)
Definition startable (id : Z) (s : system (W := W)) : Prop := exists d, in_stage id d (handler s).

Lemma begin_started now g id s :
  startable id s -> running s !! id = None -> monitors s !! g = None ->
  mexec (MBegin now g id) s =
    mk_system (mgr s) (handler s) (<[id := g]> (running s))
      (<[g := mk_monitor id (MonitorState.started now) false false]> (monitors s)).
Proof.
  intros (d & _ & Hd & Hs & Hc) Hr Hg. cbn [mexec]. rewrite Hg. unfold Monitor_begin. rewrite Hr.
  by rewrite (Get_any _ _ _ Hd), Hc, bool_decide_true, (stage_not d Hs).
Qed.

Lemma stop_step id g mo s :
  running s !! id = Some g -> monitors s !! g = Some mo ->
  mexec (MStop id) s = mk_system (mgr s) (handler s) (delete id (running s))
    (<[g := mk_monitor (deployID mo) (state mo) true (ended mo)]> (monitors s)).
Proof.
  intros Hr Hg. cbn [mexec]. unfold Stop. rewrite Hr. cbn [fst]. f_equal.
  apply map_eq. intros g'. destruct (decide (g' = g)) as [-> | Hne].
  - by rewrite lookup_alter_eq, lookup_insert_eq, Hg.
  - by rewrite lookup_alter_ne, lookup_insert_ne.
Qed.

Lemma end_step g mo s :
  cancelled mo = true -> monitors s !! g = Some mo ->
  mexec (MCancelled g) s = mk_system (mgr s) (handler s) (running s)
    (<[g := mk_monitor (deployID mo) (state mo) (cancelled mo) true]> (monitors s)).
Proof. intros Hc Hg. cbn [mexec]. unfold end_loop, put_monitor. by rewrite Hg, Hc. Qed.

Lemma leave_step g mo s :
  ended mo = true -> monitors s !! g = Some mo ->
  mexec (MLeave g) s = mk_system (mgr s) (handler s) (delete (deployID mo) (running s)) (delete g (monitors s)).
Proof. intros He Hg. cbn [mexec]. by rewrite Hg, He. Qed.

(** Goroutine [g] watches the deployment and has not been told to stop. *)
Definition watches (id : Z) (g : nat) (s : system (W := W)) : Prop :=
  exists mo, monitors s !! g = Some mo /\ deployID mo = id /\ cancelled mo = false /\ ended mo = false.

(** [Stop] followed by a new start can leave two live monitors of one
    deployment: the stopped one, when it gets to its clean-up, deletes the entry
    of its successor, so a third start is let through; and the successor cannot
    be stopped any more. *)
Theorem restart_doubles_monitor now id s :
  startable id s -> running s !! id = None -> (forall g, g < 3 -> monitors s !! g = None) ->
  let s' := run mexec [MBegin now 0 id; MStop id; MBegin now 1 id; MCancelled 0; MLeave 0; MBegin now 2 id] s in
  watches id 1 s' /\ watches id 2 s' /\
  (Stop id s').2 = true /\ watches id 1 (Stop id s').1 /\ (Stop id (Stop id s').1).2 = false.
Proof.
  intros Hst Hr Hg. cbn zeta. cbn [run foldl].
  rewrite (begin_started now 0 id s Hst Hr (Hg 0 ltac:(lia))).
  destruct s as [mg h R M]. cbn [mgr handler running monitors] in *.
  set (mo := mk_monitor id (MonitorState.started now) false false).
  rewrite (stop_step id 0 mo); [| apply lookup_insert_eq | apply lookup_insert_eq].
  cbn [mgr handler running monitors]. rewrite delete_insert_eq, insert_insert_eq, delete_id by done.
  rewrite (begin_started now 1); [| exact Hst | exact Hr | cbn; rewrite lookup_insert_ne by done; apply Hg; lia].
  cbn [mgr handler running monitors]. fold mo.
  rewrite (end_step 0 (mk_monitor id (MonitorState.started now) true false));
    [| done | by cbn; rewrite lookup_insert_ne, lookup_insert_eq].
  cbn [mgr handler running monitors].
  rewrite (leave_step 0 (mk_monitor id (MonitorState.started now) true true)); [| done | cbn; apply lookup_insert_eq].
  cbn [mgr handler running monitors deployID]. rewrite delete_insert_eq, delete_insert_eq, delete_insert_ne,
    delete_insert_eq, (delete_id M), (delete_id R) by (done || apply Hg; lia).
  rewrite (begin_started now 2); [| exact Hst | exact Hr | cbn; rewrite lookup_insert_ne by done; apply Hg; lia].
  cbn [mgr handler running monitors]. fold mo.
  assert (Hw : forall g x, monitors x !! g = Some mo -> watches id g x) by (intros g x E; by exists mo).
  split; [apply Hw; cbn; by rewrite lookup_insert_ne, lookup_insert_eq |].
  split; [apply Hw; cbn; apply lookup_insert_eq |].
  unfold Stop. cbn [running]. rewrite lookup_insert_eq. cbn [fst snd running monitors]. split; [done |].
  split; [apply Hw; cbn; by rewrite lookup_alter_ne, lookup_insert_ne, lookup_insert_eq |].
  by rewrite lookup_delete_eq.
Qed.
End checks.

(** ** Examples *)

(** Every task has succeeded in 20 milliseconds. *)
#[local] Instance ex_results : TaskResultProvider nat :=
  fun _ _ => Some (TaskResult.set_DurationMs 20 TaskResult.zero).

Definition ex_config (step : Z) : AutoAdvanceConfig.t :=
  AutoAdvanceConfig.mk true (30 * second) (percent 5) (500 * millisecond) 1 (percent step) f_one.

(** The deployment in its canary stage, at a weight. *)
Definition ex_canary (w : Z) : Handler nat :=
  let h := exec (OExecute 2 1 "acme") (ex_handler 0) in
  mk_handler (DeployStore.mk (DeployTask.set_CanaryWeight w <$> DeployStore.m (store h)) 1) (world h).

Lemma ex_in_stage w :
  exists d, in_stage 1 d (ex_canary w) /\ SplitIDs (DeployTask.TargetIDs d) <> [] /\
    EffectiveCanaryWeight d = EffectiveCanaryWeight (DeployTask.set_CanaryWeight w ex_deploy).
Proof.
  eexists. split; [split; [| split; [vm_compute; reflexivity |]] |].
  - intros id d. unfold ex_canary. cbn [store DeployStore.m]. rewrite lookup_fmap, fmap_Some.
    intros (d0 & Hd0 & ->).
    destruct (handler_exec_evolves (OExecute 2 1 "acme") (ex_handler 0) (ex_numbered 0)) as (Hn & _).
    destruct (Hn _ _ Hd0) as [<- Hle]. split; [done |]. exact Hle.
  - split; [left | done].
  - split; [by vm_compute | done].
Qed.

Lemma healthy_canary_promoted_witness :
  exists env1 env2 d', replicate 10 (@id nat) = env1 ++ env2 /\
    DeployStore.m (store (checks (wired (ex_config 10) 9) 9 1 env1 (ex_canary 25) (MonitorState.started 3)).1) !! 1%Z = Some d' /\
    DeployTask.Status d' = StatusPromoting.
Proof.
  destruct (ex_in_stage 25) as (d & Hin & Hne & _).
  destruct (healthy_canary_promoted (ex_config 10) 9 1 (replicate 10 id) (ex_canary 25) (MonitorState.started 3) d)
    as (e1 & e2 & d' & He & _ & Hd & Hs).
  - by split.
  - intros t w. reflexivity.
  - exact Hin.
  - exact Hne.
  - reflexivity.
  - apply gates_test_open. vm_compute. reflexivity.
  - by exists e1, e2, d'.
Defined.

Lemma one_percent_steps_stall_witness :
  MonitorState.lastAction
    (checks (wired (ex_config 1) 9) 9 1 (replicate 3 (@id nat)) (ex_canary 57) (MonitorState.started 3)).2 = "wait".
Proof.
  destruct (ex_in_stage 57) as (d & Hin & _ & Hw).
  pose proof (one_percent_steps_stall (ex_config 1) 9 1 (replicate 3 (@id nat)) (ex_canary 57) (MonitorState.started 3) d
    eq_refl eq_refl Hin ltac:(rewrite Hw; reflexivity)) as H.
  destruct (checks _ _ _ _ _ _) as [h' st']. apply H; [| discriminate].
  apply gates_test_open. vm_compute. reflexivity.
Defined.

Lemma restart_doubles_monitor_witness :
  let s := mk_system (NewAutoAdvanceManager DefaultAutoAdvanceConfig None None None) (ex_canary 25) ∅ ∅ in
  let s' := run mexec [MBegin 3 0 1; MStop 1; MBegin 3 1 1; MCancelled 0; MLeave 0; MBegin 3 2 1] s in
  watches 1 1 s' /\ watches 1 2 s'.
Proof.
  cbn zeta.
  destruct (restart_doubles_monitor 3 1
    (mk_system (NewAutoAdvanceManager DefaultAutoAdvanceConfig None None None) (ex_canary 25) ∅ ∅)) as (H1 & H2 & _).
  - destruct (ex_in_stage 25) as (d & Hin & _). by exists d.
  - reflexivity.
  - intros g _. apply lookup_empty.
  - split; [exact H1 | exact H2].
Defined.
