(* ===== verification/Federation.v ===== *)
(** * Federated deployments ([internal/deploy/federation.go] and the federation part of [model.go])

    A federated deployment rolls one template out over several clusters, in
    batches of ascending order or all at once.  The coordinator acts on the
    clusters through the interface [DeployExecutor], a class here over any state
    of the executor; [handler_executor] is the implementation by the handler of
    [Deploy].  Not modelled: a coordinator without an executor. *)

From S2P Require Import Proto GoStrings Float64 Prelude Deploy.
Open Scope go_scope.

(** ** Data *)

Definition FedStatusPending : string := "fed_pending".
Definition FedStatusRunning : string := "fed_running".
Definition FedStatusCanary : string := "fed_canary".
Definition FedStatusGated : string := "fed_gated".
Definition FedStatusPromoting : string := "fed_promoting".
Definition FedStatusSuccess : string := "fed_success".
Definition FedStatusFailed : string := "fed_failed".
Definition FedStatusRolledBack : string := "fed_rolledback".

Definition FedModeSequential : string := "sequential".
Definition FedModeParallel : string := "parallel".
Definition fedOrderMin : Z := 0.

(** [deploy.FederationMember]: one cluster with its own deployment. *)
Module FederationMember.
Record t := mk {
  ClusterID : string; Name : string; TargetIDs : string; Order : Z; Weight : Z; DeployID : Z;
  Status : string; Error : string;
}.

Definition set_DeployID (v : Z) (r : t) : t :=
  mk (ClusterID r) (Name r) (TargetIDs r) (Order r) (Weight r) v (Status r) (Error r).
Definition set_Status (v : string) (r : t) : t :=
  mk (ClusterID r) (Name r) (TargetIDs r) (Order r) (Weight r) (DeployID r) v (Error r).
Definition set_Error (v : string) (r : t) : t :=
  mk (ClusterID r) (Name r) (TargetIDs r) (Order r) (Weight r) (DeployID r) (Status r) v.
End FederationMember.

(** [deploy.FederationDeploy]: a rollout over several clusters. *)
Module FederationDeploy.
Record t := mk {
  ID : Z; Name : string; TenantID : string; CreatedBy : string; Mode : string; Status : string;
  Template : DeployTask.t; Members : list FederationMember.t; Gate : option GateConfig.t;
  AutoRollback : bool; CreatedAt : time; UpdatedAt : time;
}.

Definition set_ID (v : Z) (r : t) : t :=
  mk v (Name r) (TenantID r) (CreatedBy r) (Mode r) (Status r) (Template r) (Members r) (Gate r)
     (AutoRollback r) (CreatedAt r) (UpdatedAt r).
Definition set_Status (v : string) (r : t) : t :=
  mk (ID r) (Name r) (TenantID r) (CreatedBy r) (Mode r) v (Template r) (Members r) (Gate r)
     (AutoRollback r) (CreatedAt r) (UpdatedAt r).
Definition set_Members (v : list FederationMember.t) (r : t) : t :=
  mk (ID r) (Name r) (TenantID r) (CreatedBy r) (Mode r) (Status r) (Template r) v (Gate r)
     (AutoRollback r) (CreatedAt r) (UpdatedAt r).
Definition set_CreatedAt (v : time) (r : t) : t :=
  mk (ID r) (Name r) (TenantID r) (CreatedBy r) (Mode r) (Status r) (Template r) (Members r)
     (Gate r) (AutoRollback r) v (UpdatedAt r).
Definition set_UpdatedAt (v : time) (r : t) : t :=
  mk (ID r) (Name r) (TenantID r) (CreatedBy r) (Mode r) (Status r) (Template r) (Members r)
     (Gate r) (AutoRollback r) (CreatedAt r) v.
End FederationDeploy.

Module FederationStatus.
Record t := mk {
  ID : Z; OverallStatus : string; TotalMembers : Z; DoneMembers : Z; FailedMembers : Z; PendingMembers : Z;
  Members : list FederationMember.t }.
End FederationStatus.

Inductive gate_refusal :=
  | NotTerminal (clusterID status : string)
  | NoDispatchedMembers
  | GateFailed (done_ failed total : Z).

Inductive fed_error :=
  | FedInvalid (e : deploy_error)
  | ErrFedNotFound
  | ErrFedTenantMismatch
  | NotStartable (status : string)
  | FedCannotPromote (status : string)
  | FedGateNotPassed (reason : gate_refusal)
  | FedCannotRollback (status : string).

Definition EffectiveMode (f : FederationDeploy.t) : string :=
  if FederationDeploy.Mode f == "" then FedModeSequential else FederationDeploy.Mode f.

Definition ResolvedFedGate (f : FederationDeploy.t) : GateConfig.t := resolveGate (FederationDeploy.Gate f).

(** The loop over the members of [ValidFed]. *)
Fixpoint validate_members (seen : list string) (ms : list FederationMember.t) : option deploy_error :=
  match ms with
  | [] => None
  | m :: ms =>
      if FederationMember.ClusterID m == "" then Some (ErrInvalid "member.cluster_id required")
      else if bool_decide (FederationMember.ClusterID m ∈ seen)
      then Some (ErrInvalid ("duplicate member.cluster_id: " +:+ FederationMember.ClusterID m))
      else if FederationMember.TargetIDs m == ""
      then Some (ErrInvalid ("member.target_ids required for " +:+ FederationMember.ClusterID m))
      else if (FederationMember.Order m <? fedOrderMin)%Z then Some (ErrInvalid "member.order must be >= 0")
      else if (FederationMember.Weight m <? canaryWeightMin)%Z || (FederationMember.Weight m >? canaryWeightMax)%Z
      then Some (ErrInvalid "member.weight must be in [0,100]")
      else validate_members (FederationMember.ClusterID m :: seen) ms
  end.

Definition ValidFed (f : FederationDeploy.t) : option deploy_error :=
  if FederationDeploy.Name f == "" then Some (ErrInvalid "name required")
  else if negb ((FederationDeploy.Mode f == "") || (FederationDeploy.Mode f == FedModeSequential) ||
                (FederationDeploy.Mode f == FedModeParallel))
  then Some (ErrInvalid "mode must be sequential/parallel")
  else
    match FederationDeploy.Members f with
    | [] => Some (ErrInvalid "members required")
    | m :: _ =>
        match validate_members [] (FederationDeploy.Members f) with
        | Some e => Some e
        | None =>
            match Valid (DeployTask.set_TargetIDs (FederationMember.TargetIDs m) (FederationDeploy.Template f)) with
            | Some e => Some e
            | None => validateGate (FederationDeploy.Gate f)
            end
        end
    end.

(** The loop that finds the least order; [-1] stands for none. *)
Definition least_order (p : Z -> bool) (ms : list FederationMember.t) : Z :=
  foldl (fun o m =>
    let x := FederationMember.Order m in
    if p x && ((o =? -1)%Z || (x <? o)%Z) then x else o) (-1)%Z ms.

Definition of_order (o : Z) (ms : list FederationMember.t) : list FederationMember.t :=
  List.filter (fun m => FederationMember.Order m =? o)%Z ms.

Definition firstBatchMembers (f : FederationDeploy.t) : list FederationMember.t :=
  if EffectiveMode f == FedModeParallel then FederationDeploy.Members f
  else of_order (least_order (fun _ => true) (FederationDeploy.Members f)) (FederationDeploy.Members f).

Definition nextBatchMembers (doneMaxOrder : Z) (f : FederationDeploy.t) : list FederationMember.t :=
  let nextOrder := least_order (fun o => o >? doneMaxOrder)%Z (FederationDeploy.Members f) in
  if (nextOrder =? -1)%Z then [] else of_order nextOrder (FederationDeploy.Members f).

Definition maxDispatchedOrder (f : FederationDeploy.t) : Z :=
  foldl (fun o m =>
    if (FederationMember.DeployID m >? 0)%Z && (FederationMember.Order m >? o)%Z
    then FederationMember.Order m else o) (-1)%Z (FederationDeploy.Members f).

(** ** Store *)

Module FederationStore.
Record t := mk { m : gmap Z FederationDeploy.t; seqno : Z }.
Definition NewMemoryFederationStore : t := mk ∅ 0.

Definition Create (now : time) (f : FederationDeploy.t) (s : t) : t * result fed_error FederationDeploy.t :=
  if FederationDeploy.TenantID f == "" then (s, Err (FedInvalid (ErrInvalid "tenant_id required")))
  else
    match ValidFed f with
    | Some e => (s, Err (FedInvalid e))
    | None =>
        let f := if FederationDeploy.Status f == "" then FederationDeploy.set_Status FedStatusPending f else f in
        let f := if IsZero (FederationDeploy.CreatedAt f) then FederationDeploy.set_CreatedAt now f else f in
        let f := FederationDeploy.set_UpdatedAt now f in
        let seq := (seqno s + 1)%Z in
        let f := FederationDeploy.set_ID seq f in
        (mk (<[seq := f]> (m s)) seq, Ok f)
    end.

Definition Get (id : Z) (tenantID : string) (s : t) : result fed_error FederationDeploy.t :=
  match m s !! id with
  | None => Err ErrFedNotFound
  | Some f =>
      if (tenantID != "") && (FederationDeploy.TenantID f != tenantID) then Err ErrFedTenantMismatch else Ok f
  end.

Definition Update (now : time) (f : FederationDeploy.t) (s : t) : t * option fed_error :=
  match m s !! FederationDeploy.ID f with
  | None => (s, Some ErrFedNotFound)
  | Some old =>
      if (FederationDeploy.TenantID f != "") && (FederationDeploy.TenantID old != FederationDeploy.TenantID f)
      then (s, Some ErrFedTenantMismatch)
      else (mk (<[FederationDeploy.ID f := FederationDeploy.set_UpdatedAt now f]> (m s)) (seqno s), None)
  end.

(** [range] enumerates the map; the listing is sorted by id. *)
Definition List (range : gmap Z FederationDeploy.t -> list FederationDeploy.t) (tenantID status : string) (s : t)
  : list FederationDeploy.t :=
  stable_sort (fun a b => FederationDeploy.ID a <? FederationDeploy.ID b)%Z
    (List.filter (fun f => negb ((tenantID != "") && (FederationDeploy.TenantID f != tenantID)) &&
                           negb ((status != "") && (FederationDeploy.Status f != status))) (range (m s))).

Definition Delete (id : Z) (tenantID : string) (s : t) : t * option fed_error :=
  match m s !! id with
  | None => (s, Some ErrFedNotFound)
  | Some f =>
      if (tenantID != "") && (FederationDeploy.TenantID f != tenantID) then (s, Some ErrFedTenantMismatch)
      else (mk (delete id (m s)) (seqno s), None)
  end.
End FederationStore.

(** ** The executor of the members' deployments *)

(** [deploy.DeployExecutor] over the states [E]; errors are their texts.  The
    executor reads the clock where the source's does. *)
Class DeployExecutor (E : Type) := {
  exec_CreateAndExecute : time -> DeployTask.t -> string -> string -> E -> E * result string Z;
  exec_MemberStatus : Z -> string -> E -> result string string;
  exec_PromoteMember : time -> Z -> string -> E -> E * option string;
  exec_RollbackMember : time -> Z -> string -> E -> E * option string;
}.

(** [var _ DeployExecutor = ( *Handler)(nil)]; [describe] is [err.Error()]. *)
Definition handler_executor {W} `{!Dispatcher W} (describe : deploy_error -> string) : DeployExecutor (Handler W) := {|
  exec_CreateAndExecute now template targetIDs tenantID h :=
    match CreateAndExecute now template targetIDs tenantID h with
    | (h, Ok id) => (h, Ok id)
    | (h, Err e) => (h, Err (describe e))
    end;
  exec_MemberStatus id tenantID h :=
    match MemberStatus id tenantID h with Ok st => Ok st | Err e => Err (describe e) end;
  exec_PromoteMember now id tenantID h := let (h, e) := Deploy.Promote now id tenantID h in (h, describe <$> e);
  exec_RollbackMember now id tenantID h := let (h, e) := Deploy.Rollback now id tenantID h in (h, describe <$> e);
|}.

(** ** Changes of the members *)

Definition setMemberDispatched (clusterID : string) (deployID : Z) (f : FederationDeploy.t) : FederationDeploy.t :=
  FederationDeploy.set_Members (map (fun m =>
    if FederationMember.ClusterID m == clusterID
    then FederationMember.set_Error "" (FederationMember.set_Status StatusRunning (FederationMember.set_DeployID deployID m))
    else m) (FederationDeploy.Members f)) f.

Definition setMemberError (clusterID err : string) (f : FederationDeploy.t) : FederationDeploy.t :=
  FederationDeploy.set_Members (map (fun m =>
    if FederationMember.ClusterID m == clusterID
    then FederationMember.set_Error err (FederationMember.set_Status StatusFailed m)
    else m) (FederationDeploy.Members f)) f.

(** [m := &f.Members[i]; m.Status = st] *)
Definition set_member_status (i : nat) (st : string) (f : FederationDeploy.t) : FederationDeploy.t :=
  FederationDeploy.set_Members (alter (FederationMember.set_Status st) i (FederationDeploy.Members f)) f.

(** [for i := range f.Members]: the body sees the members as the earlier
    turns left them. *)
Definition each_member {A} (body : nat -> FederationMember.t -> FederationDeploy.t * A -> FederationDeploy.t * A)
    (f : FederationDeploy.t) (a : A) : FederationDeploy.t * A :=
  foldl (fun st i =>
    match FederationDeploy.Members st.1 !! i with
    | Some m => body i m st
    | None => st
    end) (f, a) (seq 0 (length (FederationDeploy.Members f))).

(** How many dispatched members there are, how many are [p], and how many failed. *)
Definition count_dispatched (p : string -> bool) (ms : list FederationMember.t) : Z :=
  Z.of_nat (length (List.filter (fun m =>
    negb (FederationMember.DeployID m =? 0)%Z && p (FederationMember.Status m)) ms)).

Definition is_failed (st : string) : bool := st == StatusFailed.
Definition gate_done (st : string) : bool := (st == StatusSuccess) || (st == StatusGated).

(** The first dispatched member that is neither done nor failed ends the loop. *)
Definition evaluateFedGate (f : FederationDeploy.t) : option gate_refusal :=
  let ms := FederationDeploy.Members f in
  match List.find (fun m => negb (FederationMember.DeployID m =? 0)%Z &&
                            negb (gate_done (FederationMember.Status m)) &&
                            negb (is_failed (FederationMember.Status m))) ms with
  | Some m => Some (NotTerminal (FederationMember.ClusterID m) (FederationMember.Status m))
  | None =>
      let dispatched := count_dispatched (fun _ => true) ms in
      let done_ := count_dispatched gate_done ms in
      let failed := count_dispatched is_failed ms in
      if (dispatched =? 0)%Z then Some NoDispatchedMembers
      else if evaluateGate (ResolvedFedGate f) done_ failed dispatched then None
      else Some (GateFailed done_ failed dispatched)
  end.

Definition recomputeStatus (f : FederationDeploy.t) : FederationDeploy.t :=
  let ms := FederationDeploy.Members f in
  let dispatched := count_dispatched (fun _ => true) ms in
  let done_ := count_dispatched (fun st => st == StatusSuccess) ms in
  let failed := count_dispatched is_failed ms in
  let total := Z.of_nat (length ms) in
  if (failed >? 0)%Z then FederationDeploy.set_Status FedStatusFailed f
  else if (dispatched =? total)%Z && (done_ =? total)%Z then FederationDeploy.set_Status FedStatusSuccess f
  else if (dispatched >? 0)%Z && (done_ =? dispatched)%Z && (dispatched <? total)%Z
  then FederationDeploy.set_Status FedStatusGated f
  else if FederationDeploy.Status f == FedStatusPending then FederationDeploy.set_Status FedStatusCanary f
  else f.

Definition computeFederationStatus (f : FederationDeploy.t) : FederationStatus.t :=
  let ms := FederationDeploy.Members f in
  let count p := Z.of_nat (length (List.filter (fun m => p (FederationMember.Status m)) ms)) in
  {| FederationStatus.ID := FederationDeploy.ID f;
     FederationStatus.OverallStatus := FederationDeploy.Status f;
     FederationStatus.TotalMembers := Z.of_nat (length ms);
     FederationStatus.DoneMembers := count (fun st => st == StatusSuccess);
     FederationStatus.FailedMembers := count is_failed;
     FederationStatus.PendingMembers := count (fun st => (st == "") || (st == StatusCreated));
     FederationStatus.Members := ms |}.

(** ** The coordinator *)

Module Coord.
Section coordinator.
Context {E : Type} `{!DeployExecutor E}.

Record t := mk { fstore : FederationStore.t; fexec : E }.

Definition update (now : time) (f : FederationDeploy.t) (c : t) : t * option fed_error :=
  let (s, e) := FederationStore.Update now f (fstore c) in (mk s (fexec c), e).

(** The loop that dispatches a batch; a member that is refused is marked and
    the others go on. *)
Definition dispatch_batch (now : time) (batch : list FederationMember.t) (f : FederationDeploy.t) (x : E)
  : FederationDeploy.t * E :=
  foldl (fun (st : FederationDeploy.t * E) m =>
    let (f, x) := st in
    match exec_CreateAndExecute now (FederationDeploy.Template f) (FederationMember.TargetIDs m)
            (FederationDeploy.TenantID f) x with
    | (x, Err e) => (setMemberError (FederationMember.ClusterID m) e f, x)
    | (x, Ok deployID) => (setMemberDispatched (FederationMember.ClusterID m) deployID f, x)
    end) (f, x) batch.

Definition Start (now : time) (id : Z) (tenantID : string) (c : t) : t * option fed_error :=
  match FederationStore.Get id tenantID (fstore c) with
  | Err e => (c, Some e)
  | Ok f =>
      if FederationDeploy.Status f != FedStatusPending then (c, Some (NotStartable (FederationDeploy.Status f)))
      else
        match firstBatchMembers f with
        | [] => update now (FederationDeploy.set_Status FedStatusFailed f) c
        | batch =>
            let (f, x) := dispatch_batch now batch f (fexec c) in
            update now (recomputeStatus f) (mk (fstore c) x)
        end
  end.

(** One turn of the loop of [Promote] in parallel mode. *)
Definition promote_member (now : time) (i : nat) (m : FederationMember.t) (st : FederationDeploy.t * E)
  : FederationDeploy.t * E :=
  let (f, x) := st in
  if (FederationMember.DeployID m >? 0)%Z &&
     ((FederationMember.Status m == StatusCanary) || (FederationMember.Status m == StatusGated))
  then
    match exec_PromoteMember now (FederationMember.DeployID m) (FederationDeploy.TenantID f) x with
    | (x, Some e) => (setMemberError (FederationMember.ClusterID m) e f, x)
    | (x, None) => (set_member_status i StatusPromoting f, x)
    end
  else (f, x).

Definition Promote (now : time) (id : Z) (tenantID : string) (c : t) : t * option fed_error :=
  match FederationStore.Get id tenantID (fstore c) with
  | Err e => (c, Some e)
  | Ok f =>
      if (FederationDeploy.Status f != FedStatusCanary) && (FederationDeploy.Status f != FedStatusGated)
      then (c, Some (FedCannotPromote (FederationDeploy.Status f)))
      else
        match evaluateFedGate f with
        | Some reason => (c, Some (FedGateNotPassed reason))
        | None =>
            if EffectiveMode f == FedModeParallel then
              let (f, x) := each_member (promote_member now) f (fexec c) in
              update now (FederationDeploy.set_Status FedStatusPromoting f) (mk (fstore c) x)
            else
              match nextBatchMembers (maxDispatchedOrder f) f with
              | [] => update now (FederationDeploy.set_Status FedStatusSuccess f) c
              | batch =>
                  let (f, x) := dispatch_batch now batch f (fexec c) in
                  update now (recomputeStatus (FederationDeploy.set_Status FedStatusPromoting f)) (mk (fstore c) x)
              end
        end
  end.

(** One turn of the loop of [rollbackDispatched]. *)
Definition rollback_member (now : time) (i : nat) (m : FederationMember.t) (st : FederationDeploy.t * E)
  : FederationDeploy.t * E :=
  let (f, x) := st in
  if (FederationMember.DeployID m =? 0)%Z then (f, x)
  else
    match exec_RollbackMember now (FederationMember.DeployID m) (FederationDeploy.TenantID f) x with
    | (x, Some e) => (setMemberError (FederationMember.ClusterID m) e f, x)
    | (x, None) => (set_member_status i StatusRolledBack f, x)
    end.

Definition rollbackDispatched (now : time) (f : FederationDeploy.t) (x : E) : FederationDeploy.t * E :=
  each_member (rollback_member now) f x.

(** One turn of the loop that asks for the members' states. *)
Definition poll_member (x : E) (i : nat) (m : FederationMember.t) (st : FederationDeploy.t * bool)
  : FederationDeploy.t * bool :=
  let (f, changed) := st in
  if (FederationMember.DeployID m =? 0)%Z then (f, changed)
  else
    match exec_MemberStatus (FederationMember.DeployID m) (FederationDeploy.TenantID f) x with
    | Err _ => (f, changed)
    | Ok status => if status != FederationMember.Status m then (set_member_status i status f, true) else (f, changed)
    end.

Definition skips (status : string) : bool :=
  (status == FedStatusPending) || (status == FedStatusSuccess) || (status == FedStatusFailed) ||
  (status == FedStatusRolledBack).

Definition Reconcile (now : time) (id : Z) (tenantID : string) (c : t) : t * option fed_error :=
  match FederationStore.Get id tenantID (fstore c) with
  | Err e => (c, Some e)
  | Ok f =>
      if skips (FederationDeploy.Status f) then (c, None)
      else
        let (f, changed) := each_member (poll_member (fexec c)) f false in
        let f := recomputeStatus f in
        if (FederationDeploy.Status f == FedStatusFailed) && FederationDeploy.AutoRollback f then
          let (f, x) := rollbackDispatched now f (fexec c) in
          update now (FederationDeploy.set_Status FedStatusRolledBack f) (mk (fstore c) x)
        else if negb changed && (FederationDeploy.Status f == FedStatusCanary) then (c, None)
        else update now f c
  end.

Definition can_roll_back (status : string) : bool :=
  (status == FedStatusRunning) || (status == FedStatusCanary) || (status == FedStatusGated) ||
  (status == FedStatusPromoting) || (status == FedStatusSuccess).

Definition Rollback (now : time) (id : Z) (tenantID : string) (c : t) : t * option fed_error :=
  match FederationStore.Get id tenantID (fstore c) with
  | Err e => (c, Some e)
  | Ok f =>
      if negb (can_roll_back (FederationDeploy.Status f)) then (c, Some (FedCannotRollback (FederationDeploy.Status f)))
      else
        let (f, x) := rollbackDispatched now f (fexec c) in
        update now (FederationDeploy.set_Status FedStatusRolledBack f) (mk (fstore c) x)
  end.

Definition Status (id : Z) (tenantID : string) (c : t) : result fed_error FederationStatus.t :=
  match FederationStore.Get id tenantID (fstore c) with
  | Err e => Err e
  | Ok f => Ok (computeFederationStatus f)
  end.

(** One status of [ReconcileAll] with the set of the ids that were seen. *)
Definition reconcile_status (range : gmap Z FederationDeploy.t -> list FederationDeploy.t) (now : time)
    (tenantID : string) (st : t * nat * gset Z) (status : string) : t * nat * gset Z :=
  foldl (fun (st : t * nat * gset Z) f =>
    let '(c, n, seen) := st in
    let id := FederationDeploy.ID f in
    if bool_decide (id ∈ seen) then st
    else
      let (c, e) := Reconcile now id tenantID c in
      (c, (if e is None then S n else n), {[ id ]} ∪ seen))
    st (FederationStore.List range tenantID status (fstore st.1.1)).

Definition ReconcileAll (range : gmap Z FederationDeploy.t -> list FederationDeploy.t) (now : time)
    (tenantID : string) (c : t) : t * nat :=
  (foldl (reconcile_status range now tenantID) (c, 0, ∅)
     [FedStatusRunning; FedStatusCanary; FedStatusPromoting; FedStatusGated]).1.
End coordinator.
#[global] Arguments t E : clear implicits.
End Coord.
