(* ===== verification/FederationProps.v ===== *)
(** * Properties of federated deployments

    How the state of a federation follows from those of its members, what a
    rollback reaches, and that a rollout can be called a success when nothing
    was promoted. *)

From S2P Require Import Proto GoStrings Float64 Prelude Deploy DeployProps Federation.
Open Scope go_scope.

Definition dispatched (m : FederationMember.t) : Prop := FederationMember.DeployID m <> 0%Z.

#[export] Instance dispatched_dec m : Decision (dispatched m).
Proof. unfold dispatched. apply _. Defined.

(** ** Counts *)

Lemma filter_count {A} (p q : A -> bool) l :
  (forall x, p x = true -> q x = true) ->
  length (List.filter p l) <= length (List.filter q l) /\
  (length (List.filter p l) = length (List.filter q l) <-> Forall (fun x => q x = true -> p x = true) l).
Proof.
  intros Hpq. induction l as [| x l [IHle IHeq]]; [by split; [| split] |]. cbn.
  specialize (Hpq x). rewrite Forall_cons. destruct (p x), (q x); cbn; try (by specialize (Hpq eq_refl)).
  all: split; [lia |]; try rewrite <- IHeq; split; intros; try lia; try (split; [done | lia]); try (destruct_and!; lia).
Qed.

Lemma filter_some {A} (p : A -> bool) l : 0 < length (List.filter p l) <-> Exists (fun x => p x = true) l.
Proof.
  induction l as [| x l IH]; [split; [cbn; lia | by intros ?%Exists_nil] |]. rewrite Exists_cons, <- IH. cbn.
  destruct (p x); cbn; split; try tauto; try lia; naive_solver.
Qed.

Lemma filter_true {A} (l : list A) : List.filter (fun _ => true) l = l.
Proof. induction l as [| x l IH]; [done |]. cbn. by rewrite IH. Qed.

Lemma Forall_same {A} (P Q : A -> Prop) l : (forall x, P x <-> Q x) -> Forall P l <-> Forall Q l.
Proof. intros H. split; intros Hl; (eapply Forall_impl; [exact Hl |]); intros x; apply H. Qed.

Lemma Exists_same {A} (P Q : A -> Prop) l : (forall x, P x <-> Q x) -> Exists P l <-> Exists Q l.
Proof. intros H. split; intros Hl; (eapply Exists_impl; [exact Hl |]); intros x; apply H. Qed.

Lemma dispatched_test m : negb (FederationMember.DeployID m =? 0)%Z = true <-> dispatched m.
Proof. rewrite negb_true_iff. apply Z.eqb_neq. Qed.

Section counts.
Context (p : string -> bool) (ms : list FederationMember.t).

Lemma count_some :
  (0 < count_dispatched p ms)%Z <-> Exists (fun m => dispatched m /\ p (FederationMember.Status m) = true) ms.
Proof.
  unfold count_dispatched. rewrite <- (Nat2Z.inj_lt 0), filter_some. apply Exists_same.
  intros m. by rewrite andb_true_iff, dispatched_test.
Qed.

Lemma count_total :
  count_dispatched p ms = Z.of_nat (length ms) <-> Forall (fun m => dispatched m /\ p (FederationMember.Status m) = true) ms.
Proof.
  destruct (filter_count (fun m => negb (FederationMember.DeployID m =? 0)%Z && p (FederationMember.Status m)) (fun _ => true) ms
    ltac:(done)) as [Hle Heq].
  rewrite filter_true in Heq. unfold count_dispatched. rewrite Nat2Z.inj_iff, Heq. apply Forall_same.
  intros m. rewrite andb_true_iff, dispatched_test. naive_solver.
Qed.

Lemma count_all_dispatched :
  (count_dispatched p ms <= count_dispatched (fun _ => true) ms <= Z.of_nat (length ms))%Z /\
  (count_dispatched p ms = count_dispatched (fun _ => true) ms <->
   Forall (fun m => dispatched m -> p (FederationMember.Status m) = true) ms).
Proof.
  unfold count_dispatched.
  destruct (filter_count (fun m => negb (FederationMember.DeployID m =? 0)%Z && p (FederationMember.Status m))
    (fun m => negb (FederationMember.DeployID m =? 0)%Z && true) ms) as [Hle Heq].
  { intros m. rewrite !andb_true_iff. naive_solver. }
  split.
  { split; [lia |]. apply inj_le, List.filter_length_le. }
  rewrite Nat2Z.inj_iff, Heq. apply Forall_same.
  intros m. rewrite !andb_true_iff, dispatched_test. naive_solver.
Qed.
End counts.

(** ** The state of a federation *)

Definition member_failed (m : FederationMember.t) : Prop := dispatched m /\ FederationMember.Status m = StatusFailed.
Definition member_done (m : FederationMember.t) : Prop := FederationMember.Status m = StatusSuccess.

(** The rules in the comment of [recomputeStatus]. *)
Definition status_by_rules (f : FederationDeploy.t) : string :=
  let ms := FederationDeploy.Members f in
  if decide (Exists member_failed ms) then FedStatusFailed
  else if decide (Forall (fun m => dispatched m /\ member_done m) ms) then FedStatusSuccess
  else if decide (Exists dispatched ms /\ Forall (fun m => dispatched m -> member_done m) ms) then FedStatusGated
  else if decide (FederationDeploy.Status f = FedStatusPending) then FedStatusCanary
  else FederationDeploy.Status f.

Lemma recompute_frame f : recomputeStatus f = FederationDeploy.set_Status (FederationDeploy.Status (recomputeStatus f)) f.
Proof. unfold recomputeStatus. destruct f. by repeat case_match. Qed.

Lemma recompute_by_rules f : FederationDeploy.Status (recomputeStatus f) = status_by_rules f.
Proof.
  unfold recomputeStatus, status_by_rules. set (ms := FederationDeploy.Members f).
  pose proof (count_some is_failed ms) as Hf. pose proof (count_some (fun _ => true) ms) as Hd.
  pose proof (count_total (fun st => st == StatusSuccess) ms) as Ht.
  destruct (count_all_dispatched (fun st => st == StatusSuccess) ms) as [Hle Ha].
  setoid_rewrite bool_decide_eq_true in Ht. setoid_rewrite bool_decide_eq_true in Ha.
  rewrite Z.gtb_ltb. destruct (Z.ltb_spec 0 (count_dispatched is_failed ms)) as [H0 | H0].
  { rewrite decide_True; [done |]. apply Hf in H0. eapply Exists_impl; [exact H0 |].
    unfold is_failed. intros m [? ?%bool_decide_eq_true]. by split. }
  rewrite decide_False; last first.
  { intros Hex. enough (0 < count_dispatched is_failed ms)%Z by lia. apply Hf. eapply Exists_impl; [exact Hex |].
    intros m [? ?]. split; [done |]. by apply bool_decide_eq_true. }
  destruct (decide (Forall (fun m => dispatched m /\ member_done m) ms)) as [Hall | Hall].
  { apply Ht in Hall. by rewrite !(proj2 (Z.eqb_eq _ _)) by lia. }
  destruct (Z.eqb_spec (count_dispatched (fun st => st == StatusSuccess) ms) (Z.of_nat (length ms))) as [E | E];
    [by apply Ht in E |]. rewrite andb_false_r.
  case_decide as Hg.
  - destruct Hg as [Hex Hdone]. apply Ha in Hdone. rewrite Z.gtb_ltb.
    assert (0 < count_dispatched (fun _ => true) ms)%Z.
    { apply Hd. eapply Exists_impl; [exact Hex |]. by intros m ?. }
    rewrite (proj2 (Z.ltb_lt _ _)), (proj2 (Z.eqb_eq _ _)), (proj2 (Z.ltb_lt _ _)) by lia. done.
  - rewrite (proj2 (andb_false_iff _ _)); last first.
    { left. apply not_true_iff_false. rewrite andb_true_iff, Z.gtb_ltb, Z.ltb_lt, Z.eqb_eq, Ha, Hd.
      intros [Hex Hdone]. apply Hg. split; [| done]. eapply Exists_impl; [exact Hex |]. by intros m [? _]. }
    by destruct (decide _); [rewrite bool_decide_true | rewrite bool_decide_false].
Qed.

Lemma default_gate_full n : (0 < n <= 100)%Z -> evaluateGate (resolveGate None) n 0 n = true.
Proof.
  intros H. assert (Hall : forallb (fun k => evaluateGate (resolveGate None) (Z.of_nat k) 0 (Z.of_nat k)) (seq 1 100) = true)
    by by vm_compute.
  rewrite forallb_forall in Hall. replace n with (Z.of_nat (Z.to_nat n)) by lia. apply Hall, in_seq. lia.
Qed.

(** The default gate is open when every dispatched member is through. *)
Lemma full_gate f :
  FederationDeploy.Gate f = None -> length (FederationDeploy.Members f) <= 100 ->
  Exists dispatched (FederationDeploy.Members f) ->
  Forall (fun m => dispatched m -> FederationMember.Status m = StatusSuccess \/ FederationMember.Status m = StatusGated)
    (FederationDeploy.Members f) ->
  evaluateFedGate f = None.
Proof.
  intros Hg Hn Hex Hd. unfold evaluateFedGate. set (ms := FederationDeploy.Members f) in *.
  destruct (List.find _ ms) as [m |] eqn:Hfind.
  { apply find_some in Hfind as [Hm%list_elem_of_In Hb]. exfalso. rewrite !andb_true_iff in Hb.
    destruct Hb as [[Hdm%dispatched_test Hb] _]. rewrite Forall_forall in Hd.
    by destruct (Hd m Hm Hdm) as [E | E]; rewrite E in Hb. }
  assert (Hdone : count_dispatched gate_done ms = count_dispatched (fun _ => true) ms).
  { apply count_all_dispatched. eapply Forall_impl; [exact Hd |]. cbn beta. intros m Hm Hdm. by destruct (Hm Hdm) as [-> | ->]. }
  assert (Hfail : count_dispatched is_failed ms = 0%Z).
  { enough (~ 0 < count_dispatched is_failed ms)%Z by (unfold count_dispatched in *; lia). rewrite count_some.
    intros (m & Hm & Hdm & Hf)%Exists_exists. rewrite Forall_forall in Hd. by destruct (Hd m Hm Hdm) as [E | E]; rewrite E in Hf. }
  assert (Hpos : (0 < count_dispatched (fun _ => true) ms)%Z).
  { apply count_some. eapply Exists_impl; [exact Hex |]. done. }
  destruct (count_all_dispatched (fun _ => true) ms) as [[_ Hle] _].
  unfold ResolvedFedGate. rewrite Hdone, Hfail, Hg, default_gate_full by lia.
  by rewrite (proj2 (Z.eqb_neq _ _)) by lia.
Qed.

(** ** Loops over the members *)

Definition clusters (f : FederationDeploy.t) : list string := FederationMember.ClusterID <$> FederationDeploy.Members f.

(** One pass over the members that changes each one and carries a value along. *)
Fixpoint thread {A} (step : FederationMember.t -> A -> FederationMember.t * A) (ms : list FederationMember.t) (a : A)
  : list FederationMember.t * A :=
  match ms with
  | [] => ([], a)
  | m :: ms =>
      let (m', a) := step m a in
      let (ms', a) := thread step ms a in
      (m' :: ms', a)
  end.

Lemma set_Members_twice ms ms' f :
  FederationDeploy.set_Members ms (FederationDeploy.set_Members ms' f) = FederationDeploy.set_Members ms f.
Proof. by destruct f. Qed.

Lemma set_Members_same f : FederationDeploy.set_Members (FederationDeploy.Members f) f = f.
Proof. by destruct f. Qed.

Section loops.
Context {A : Type} (tenant : string) (cs : list string).
Context (body : nat -> FederationMember.t -> FederationDeploy.t * A -> FederationDeploy.t * A).
Context (step : FederationMember.t -> A -> FederationMember.t * A).
Hypothesis body_step : forall i m f a,
  FederationDeploy.TenantID f = tenant -> clusters f = cs -> FederationDeploy.Members f !! i = Some m ->
  body i m (f, a) = (FederationDeploy.set_Members (<[i := (step m a).1]> (FederationDeploy.Members f)) f, (step m a).2).
Hypothesis step_cluster : forall m a, FederationMember.ClusterID (step m a).1 = FederationMember.ClusterID m.

Lemma each_member_from done_ ms f a :
  FederationDeploy.TenantID f = tenant -> clusters f = cs -> FederationDeploy.Members f = done_ ++ ms ->
  foldl (fun st i => match FederationDeploy.Members st.1 !! i with Some m => body i m st | None => st end)
    (f, a) (seq (length done_) (length ms)) =
  (FederationDeploy.set_Members (done_ ++ (thread step ms a).1) f, (thread step ms a).2).
Proof using All.
  revert done_ f a. induction ms as [| m ms IH]; intros done_ f a Ht Hc Hm; cbn [length seq foldl fst].
  { cbn. by rewrite <- Hm, set_Members_same. }
  assert (Hi : FederationDeploy.Members f !! length done_ = Some m) by (rewrite Hm; by apply list_lookup_middle).
  rewrite Hi, (body_step _ _ _ _ Ht Hc Hi). pose proof (step_cluster m a) as Hcl. cbn [thread].
  destruct (step m a) as [m' a']. cbn [fst snd] in *.
  assert (Hins : <[length done_ := m']> (FederationDeploy.Members f) = (done_ ++ [m']) ++ ms).
  { rewrite Hm, <- (Nat.add_0_r (length done_)), insert_app_r, <- app_assoc. done. }
  replace (S (length done_)) with (length (done_ ++ [m'])) by (rewrite length_app; cbn; lia).
  rewrite IH; [| done | | by rewrite Hins].
  - rewrite Hins, set_Members_twice. destruct (thread step ms a'). by rewrite <- app_assoc.
  - unfold clusters in *. cbn. rewrite Hins, <- Hc, Hm, !fmap_app, <- app_assoc. cbn. by rewrite Hcl.
Qed.

Lemma each_member_thread f a :
  FederationDeploy.TenantID f = tenant -> clusters f = cs ->
  each_member body f a =
  (FederationDeploy.set_Members (thread step (FederationDeploy.Members f) a).1 f,
   (thread step (FederationDeploy.Members f) a).2).
Proof using All. intros Ht Hc. by apply (each_member_from []). Qed.
End loops.

(** Errors are put on the member with the cluster's name, of which there is one. *)
Lemma setMemberError_at i m e f :
  NoDup (clusters f) -> FederationDeploy.Members f !! i = Some m ->
  setMemberError (FederationMember.ClusterID m) e f =
  FederationDeploy.set_Members
    (<[i := FederationMember.set_Error e (FederationMember.set_Status StatusFailed m)]> (FederationDeploy.Members f)) f.
Proof.
  intros Hnd Hi. unfold setMemberError. f_equal. apply list_eq. intros j. rewrite list_lookup_fmap.
  destruct (decide (i = j)) as [<- | Hij].
  - rewrite Hi, list_lookup_insert_eq by (by eapply lookup_lt_Some). cbn. by rewrite bool_decide_true.
  - rewrite list_lookup_insert_ne by done. destruct (FederationDeploy.Members f !! j) as [m' |] eqn:Hj; [| done].
    cbn. rewrite bool_decide_false; [done |]. intros Heq. apply Hij. eapply NoDup_lookup; [exact Hnd | |].
    + unfold clusters. by rewrite list_lookup_fmap, Hi.
    + unfold clusters. rewrite list_lookup_fmap, Hj. cbn. by rewrite Heq.
Qed.

Lemma set_member_status_at i m st f :
  FederationDeploy.Members f !! i = Some m ->
  set_member_status i st f =
  FederationDeploy.set_Members (<[i := FederationMember.set_Status st m]> (FederationDeploy.Members f)) f.
Proof.
  intros Hi. unfold set_member_status. f_equal. apply list_eq. intros j. destruct (decide (i = j)) as [<- | Hij].
  - rewrite list_lookup_insert_eq by (by eapply lookup_lt_Some). rewrite list_lookup_alter_eq. by rewrite Hi.
  - by rewrite list_lookup_insert_ne, list_lookup_alter_ne by done.
Qed.

Lemma set_Members_id i m f :
  FederationDeploy.Members f !! i = Some m -> FederationDeploy.set_Members (<[i := m]> (FederationDeploy.Members f)) f = f.
Proof. intros Hi. by rewrite list_insert_id, set_Members_same. Qed.

(** ** Rollback *)

Section executor.
Context {E : Type} `{!DeployExecutor E}.

Definition rollback_step (now : time) (tenant : string) (m : FederationMember.t) (x : E) : FederationMember.t * E :=
  if decide (dispatched m) then
    match exec_RollbackMember now (FederationMember.DeployID m) tenant x with
    | (x, Some e) => (FederationMember.set_Error e (FederationMember.set_Status StatusFailed m), x)
    | (x, None) => (FederationMember.set_Status StatusRolledBack m, x)
    end
  else (m, x).

Lemma rollback_thread now f (x : E) :
  NoDup (clusters f) ->
  Coord.rollbackDispatched now f x =
  (FederationDeploy.set_Members (thread (rollback_step now (FederationDeploy.TenantID f)) (FederationDeploy.Members f) x).1 f,
   (thread (rollback_step now (FederationDeploy.TenantID f)) (FederationDeploy.Members f) x).2).
Proof.
  intros Hnd. apply (each_member_thread (FederationDeploy.TenantID f) (clusters f)); try done.
  - intros i m g y <- Hc Hi. unfold Coord.rollback_member, rollback_step, dispatched.
    destruct (Z.eqb_spec (FederationMember.DeployID m) 0) as [H0 | H0]; case_decide; try done.
    + by rewrite set_Members_id.
    + destruct (exec_RollbackMember _ _ _ y) as [y' [e |]].
      * by rewrite (setMemberError_at i) by (done || by rewrite Hc).
      * by rewrite (set_member_status_at i m).
  - intros m y. unfold rollback_step. case_decide; [| done]. by destruct (exec_RollbackMember _ _ _ y) as [y' [e |]].
Qed.

(** The executor after it was asked to roll every dispatched member back. *)
Definition rolled_back (now : time) (tenant : string) (ms : list FederationMember.t) (x : E) : E :=
  foldl (fun x m => if decide (dispatched m) then (exec_RollbackMember now (FederationMember.DeployID m) tenant x).1 else x) x ms.

Lemma rollback_step_spec now tenant ms (x : E) :
  (thread (rollback_step now tenant) ms x).2 = rolled_back now tenant ms x /\
  Forall2 (fun m m' =>
    if decide (dispatched m) then FederationMember.Status m' = StatusRolledBack \/ FederationMember.Status m' = StatusFailed
    else m' = m) ms (thread (rollback_step now tenant) ms x).1.
Proof.
  revert x. induction ms as [| m ms IH]; intros x; [by split |]. unfold rolled_back. cbn [thread foldl].
  unfold rollback_step at 1 3. case_decide as Hd.
  - destruct (exec_RollbackMember _ _ _ x) as [y [e |]]; destruct (IH y) as [Hx Hms];
      destruct (thread _ ms y); (split; [done |]); (constructor; [| done]); rewrite decide_True by done; cbn; tauto.
  - destruct (IH x) as [Hx Hms]. destruct (thread _ ms x). split; [done |]. constructor; [| done]. by rewrite decide_False.
Qed.

(** A federation as the store holds it. *)
Definition stored (f : FederationDeploy.t) (c : Coord.t E) : Prop :=
  FederationStore.m (Coord.fstore c) !! FederationDeploy.ID f = Some f.

Lemma Get_stored f c :
  stored f c -> FederationStore.Get (FederationDeploy.ID f) (FederationDeploy.TenantID f) (Coord.fstore c) = Ok f.
Proof.
  intros H. unfold FederationStore.Get. rewrite H.
  by rewrite (bool_decide_true (FederationDeploy.TenantID f = FederationDeploy.TenantID f)), andb_false_r.
Qed.

Lemma fed_update_stored now f g c :
  stored f c -> FederationDeploy.ID g = FederationDeploy.ID f -> FederationDeploy.TenantID g = FederationDeploy.TenantID f ->
  exists s, Coord.update now g c = (Coord.mk s (Coord.fexec c), None) /\
    stored (FederationDeploy.set_UpdatedAt now g) (Coord.mk s (Coord.fexec c)).
Proof.
  intros Hf Hi Ht. unfold Coord.update, FederationStore.Update. rewrite Hi, Hf, Ht.
  rewrite (bool_decide_true (FederationDeploy.TenantID f = FederationDeploy.TenantID f)), andb_false_r by done.
  eexists. split; [done |]. unfold stored. cbn. rewrite Hi. apply lookup_insert_eq.
Qed.
End executor.

(** A rollback of a federation asks the executor to roll back the
    deployment of every dispatched member, once each and in the members' order,
    whatever the executor answers for the others; the federation is then rolled
    back, every dispatched member is rolled back or marked failed, and the
    others are as before. *)
Theorem rollback_reaches_every_member {E} `{!DeployExecutor E} now f (c : Coord.t E) :
  stored f c -> NoDup (clusters f) -> Coord.can_roll_back (FederationDeploy.Status f) = true ->
  exists c' f', Coord.Rollback now (FederationDeploy.ID f) (FederationDeploy.TenantID f) c = (c', None) /\
    Coord.fexec c' = rolled_back now (FederationDeploy.TenantID f) (FederationDeploy.Members f) (Coord.fexec c) /\
    stored f' c' /\ FederationDeploy.Status f' = FedStatusRolledBack /\
    Forall2 (fun m m' =>
      if decide (dispatched m) then FederationMember.Status m' = StatusRolledBack \/ FederationMember.Status m' = StatusFailed
      else m' = m) (FederationDeploy.Members f) (FederationDeploy.Members f').
Proof.
  intros Hf Hnd Hs. unfold Coord.Rollback. rewrite (Get_stored f c Hf), Hs, rollback_thread by done. cbn [negb].
  destruct (rollback_step_spec now (FederationDeploy.TenantID f) (FederationDeploy.Members f) (Coord.fexec c)) as [Hx Hms].
  destruct (thread _ _ _) as [ms x]. cbn [fst snd] in *.
  destruct (fed_update_stored now f (FederationDeploy.set_Status FedStatusRolledBack (FederationDeploy.set_Members ms f))
    (Coord.mk (Coord.fstore c) x) Hf eq_refl eq_refl) as (s & Hu & Hst).
  rewrite Hu. eexists _, _. split_and!; [done | done | exact Hst | done | done].
Qed.

(** ** Batches *)

Lemma least_order_acc p ms a :
  Forall (fun m => 0 <= FederationMember.Order m)%Z ms ->
  let r := foldl (fun o m =>
    let x := FederationMember.Order m in if p x && ((o =? -1)%Z || (x <? o)%Z) then x else o) a ms in
  (r = a \/ exists m, m ∈ ms /\ FederationMember.Order m = r /\ p r = true) /\
  (forall m, m ∈ ms -> p (FederationMember.Order m) = true -> r <> (-1)%Z /\ (r <= FederationMember.Order m)%Z) /\
  (a <> -1 -> r <> -1 /\ r <= a)%Z.
Proof.
  intros Hms. revert a. induction Hms as [| m ms Hm _ IH]; intros a; cbn [foldl].
  { split; [by left |]. split; [by intros ? ?%elem_of_nil |]. lia. }
  set (x := FederationMember.Order m) in *. set (b := if p x && _ then x else a).
  assert (Hb : (b = a \/ b = x /\ p x = true) /\ (p x = true -> b <> -1 /\ b <= x)%Z /\ (a <> -1 -> b <> -1 /\ b <= a)%Z).
  { subst b. destruct (p x); cbn [andb]; [| naive_solver lia].
    destruct (Z.eqb_spec a (-1)), (Z.ltb_spec x a); cbn [orb]; naive_solver lia. }
  clearbody b. destruct Hb as (Hb1 & Hb2 & Hb3), (IH b) as (H1 & H2 & H3). cbv zeta in *.
  match goal with |- context [foldl ?g ?i ?l] => set (r := foldl g i l) in * end. clearbody r. split_and!.
  - destruct H1 as [-> | (m' & ? & ?)]; [| right; exists m'; split; [by right | done]].
    destruct Hb1 as [-> | [-> ?]]; [by left |]. right. exists m. split; [by left | done].
  - intros m' [-> | Hm']%elem_of_cons Hp; [| by apply H2]. destruct (Hb2 Hp), H3; lia.
  - intros Ha. destruct (Hb3 Ha), H3; lia.
Qed.

Lemma least_order_least p ms m :
  Forall (fun m => 0 <= FederationMember.Order m)%Z ms -> m ∈ ms -> p (FederationMember.Order m) = true ->
  exists m', m' ∈ ms /\ FederationMember.Order m' = least_order p ms /\ p (least_order p ms) = true /\
    forall m2, m2 ∈ ms -> p (FederationMember.Order m2) = true -> (least_order p ms <= FederationMember.Order m2)%Z.
Proof.
  intros Hms Hm Hp. destruct (least_order_acc p ms (-1) Hms) as (H1 & H2 & _).
  fold (least_order p ms) in H1, H2. destruct H1 as [H1 | (m' & ? & ? & ?)]; [by destruct (H2 m Hm Hp) |].
  exists m'. split_and!; [done.. |]. intros m2 ? ?. by apply H2.
Qed.

Lemma max_dispatched_acc ms a :
  let r := foldl (fun o m =>
    if (FederationMember.DeployID m >? 0)%Z && (FederationMember.Order m >? o)%Z then FederationMember.Order m else o) a ms in
  (r = a \/ exists m, m ∈ ms /\ (0 < FederationMember.DeployID m)%Z /\ FederationMember.Order m = r) /\
  (forall m, m ∈ ms -> (0 < FederationMember.DeployID m)%Z -> FederationMember.Order m <= r)%Z /\ (a <= r)%Z.
Proof.
  revert a. induction ms as [| m ms IH]; intros a; cbn [foldl].
  { split; [by left |]. split; [by intros ? ?%elem_of_nil | lia]. }
  match goal with |- context [foldl _ ?i ms] => set (b := i) end. destruct (IH b) as (H1 & H2 & H3).
  assert (Hb : (b = a \/ b = FederationMember.Order m /\ (0 < FederationMember.DeployID m)%Z) /\ (a <= b)%Z /\
    (0 < FederationMember.DeployID m -> FederationMember.Order m <= b)%Z).
  { subst b. rewrite !Z.gtb_ltb. destruct (Z.ltb_spec 0 (FederationMember.DeployID m)), (Z.ltb_spec a (FederationMember.Order m));
      cbn [andb]; naive_solver lia. }
  clearbody b. destruct Hb as (Hb1 & Hb2 & Hb3). cbv zeta in *.
  match goal with |- context [foldl ?g ?i ?l] => set (r := foldl g i l) in * end. clearbody r. split_and!.
  - destruct H1 as [-> | (m' & ? & ?)]; [| right; exists m'; split; [by right | done]].
    destruct Hb1 as [-> | [-> ?]]; [by left |]. right. exists m. split; [by left | done].
  - intros m' [-> | Hm']%elem_of_cons Hp; [specialize (Hb3 Hp); lia | by apply H2].
  - lia.
Qed.

Lemma max_dispatched_is f m :
  m ∈ FederationDeploy.Members f -> (0 < FederationMember.DeployID m)%Z -> (0 <= FederationMember.Order m)%Z ->
  (forall m', m' ∈ FederationDeploy.Members f -> 0 < FederationMember.DeployID m' -> FederationMember.Order m' <= FederationMember.Order m)%Z ->
  maxDispatchedOrder f = FederationMember.Order m.
Proof.
  intros Hm Hd Ho Hmax. destruct (max_dispatched_acc (FederationDeploy.Members f) (-1)) as (H1 & H2 & _).
  fold (maxDispatchedOrder f) in H1, H2. specialize (H2 m Hm Hd).
  destruct H1 as [H1 | (m' & Hm' & Hd' & H1)]; [lia |]. specialize (Hmax m' Hm' Hd'). lia.
Qed.

Lemma elem_of_of_order o ms m : m ∈ of_order o ms <-> m ∈ ms /\ FederationMember.Order m = o.
Proof. unfold of_order. by rewrite !list_elem_of_In, filter_In, Z.eqb_eq. Qed.

(** ** Success without promotion *)

Section gated.
Context (f : FederationDeploy.t).
Hypothesis some_dispatched : Exists (fun m => dispatched m) (FederationDeploy.Members f).
Hypothesis gated_or_refused : Forall (fun m =>
    (0 < FederationMember.DeployID m)%Z /\ FederationMember.Status m = StatusGated \/
    FederationMember.DeployID m = 0%Z /\ FederationMember.Status m = StatusFailed /\
      Exists (fun m' => dispatched m' /\ FederationMember.Order m <= FederationMember.Order m')%Z (FederationDeploy.Members f))
    (FederationDeploy.Members f).

Lemma gate_all_gated :
  FederationDeploy.Gate f = None -> length (FederationDeploy.Members f) <= 100 -> evaluateFedGate f = None.
Proof using All.
  intros Hg Hlen. apply full_gate; [done | done | done |]. eapply Forall_impl; [exact gated_or_refused |].
  intros m [[_ ->] | [H _]] Hd; [by right |]. by unfold dispatched in Hd.
Qed.

Lemma no_next_batch : nextBatchMembers (maxDispatchedOrder f) f = [].
Proof using All.
  unfold nextBatchMembers. destruct (max_dispatched_acc (FederationDeploy.Members f) (-1)) as (_ & Hmax & Hneg).
  fold (maxDispatchedOrder f) in Hmax, Hneg. rewrite Forall_forall in gated_or_refused.
  assert (Hle : forall m, m ∈ FederationDeploy.Members f -> (FederationMember.Order m <= maxDispatchedOrder f)%Z).
  { intros m Hm. destruct (gated_or_refused m Hm) as [[Hd _] | (_ & _ & Hex)]; [by apply Hmax |].
    apply Exists_exists in Hex as (m' & Hm' & Hd & Ho). etransitivity; [exact Ho |]. apply Hmax; [done |].
    unfold dispatched in Hd. destruct (gated_or_refused m' Hm') as [[? _] | [? _]]; lia. }
  enough (least_order (fun o => o >? maxDispatchedOrder f)%Z (FederationDeploy.Members f) = (-1)%Z) as ->; [done |].
  unfold least_order. generalize (FederationDeploy.Members f) Hle. intros ms Hms. induction ms as [| m ms IH]; [done |].
  cbn [foldl]. rewrite Z.gtb_ltb, (proj2 (Z.ltb_ge _ _)) by (apply Hms; left). cbn [andb]. apply IH.
  intros m' Hm'. apply Hms. by right.
Qed.
End gated.

(** A sequential federation can be called a success although no deployment
    succeeded.  When every member is either dispatched and only [gated] (its
    canary is through and waits for its own promotion), or was refused at its
    dispatch and is no later in the order than a dispatched one, [Promote] finds
    no next batch and sets [fed_success]: it asks nothing of the executor, it
    promotes no member, it does not try the refused ones again, and the next
    reconciliations change nothing. *)
Theorem success_without_promotion {E} `{!DeployExecutor E} now f (c : Coord.t E) :
  stored f c -> EffectiveMode f = FedModeSequential -> FederationDeploy.Gate f = None ->
  length (FederationDeploy.Members f) <= 100 ->
  FederationDeploy.Status f = FedStatusCanary \/ FederationDeploy.Status f = FedStatusGated ->
  Exists (fun m => dispatched m) (FederationDeploy.Members f) ->
  Forall (fun m =>
    (0 < FederationMember.DeployID m)%Z /\ FederationMember.Status m = StatusGated \/
    FederationMember.DeployID m = 0%Z /\ FederationMember.Status m = StatusFailed /\
      Exists (fun m' => dispatched m' /\ FederationMember.Order m <= FederationMember.Order m')%Z (FederationDeploy.Members f))
    (FederationDeploy.Members f) ->
  exists c' f', Coord.Promote now (FederationDeploy.ID f) (FederationDeploy.TenantID f) c = (c', None) /\
    stored f' c' /\ FederationDeploy.Status f' = FedStatusSuccess /\
    FederationDeploy.Members f' = FederationDeploy.Members f /\
    Forall (fun m => FederationMember.Status m <> StatusSuccess) (FederationDeploy.Members f') /\
    Coord.fexec c' = Coord.fexec c /\
    forall later, Coord.Reconcile later (FederationDeploy.ID f) (FederationDeploy.TenantID f) c' = (c', None).
Proof.
  intros Hf Hmode Hgate Hlen Hst Hex Hall. pose proof (Get_stored f c Hf) as Hg. unfold Coord.Promote.
  rewrite Hg, (proj2 (andb_false_iff _ _)) by (destruct Hst as [-> | ->]; [left | right]; done).
  rewrite gate_all_gated, Hmode, no_next_batch by done.
  rewrite (bool_decide_false (FedModeSequential = FedModeParallel)) by done.
  destruct (fed_update_stored now f (FederationDeploy.set_Status FedStatusSuccess f) c Hf eq_refl eq_refl) as (s' & Hu & Hst').
  rewrite Hu. eexists _, _. split; [done |]. split; [exact Hst' |]. split_and!; try done.
  - eapply Forall_impl; [exact Hall |]. by intros m [[_ ->] | (_ & -> & _)].
  - intros later. apply Get_stored in Hst'. cbn in Hst'. unfold Coord.Reconcile. cbn [Coord.fstore]. by rewrite Hst'.
Qed.

(** ** Examples *)

(** An executor that keeps a log: a positive number for a deployment that it
    began, a negative one for a rollback; it refuses to roll number 2 back. *)
#[export] Instance logger : DeployExecutor (list Z) := {|
  exec_CreateAndExecute _ _ _ _ x := (x ++ [Z.of_nat (S (length x))], Ok (Z.of_nat (S (length x))));
  exec_MemberStatus _ _ _ := Ok StatusSuccess;
  exec_PromoteMember _ _ _ x := (x, None);
  exec_RollbackMember _ id _ x := (x ++ [(- id)%Z], if (id =? 2)%Z then Some "refused" else None);
|}.

Definition ex_member (cluster : string) (order id : Z) (status : string) : FederationMember.t :=
  FederationMember.mk cluster cluster "d1,d2" order 0 id status "".

Definition ex_federation (status : string) (ms : list FederationMember.t) : FederationDeploy.t :=
  FederationDeploy.mk 0 "release" "t1" "ops" "" status ex_deploy ms None false 0 0.

Definition ex_members : list FederationMember.t :=
  [ex_member "east" 1 0 ""; ex_member "west" 0 0 ""; ex_member "north" 1 0 ""; ex_member "south" 4 0 ""].

Definition ex_coord (f : FederationDeploy.t) (x : list Z) : Coord.t (list Z) :=
  Coord.mk (FederationStore.mk {[ FederationDeploy.ID f := f ]} 0) x.

Lemma rollback_reaches_every_member_witness :
  exists c' f',
  let f := ex_federation FedStatusGated [ex_member "east" 0 1 StatusSuccess; ex_member "west" 0 2 StatusSuccess;
                                         ex_member "north" 1 0 ""; ex_member "south" 0 3 StatusSuccess] in
  Coord.Rollback 9 (FederationDeploy.ID f) (FederationDeploy.TenantID f) (ex_coord f []) = (c', None) /\
    Coord.fexec c' = [-1; -2; -3]%Z /\
    stored f' c' /\ FederationDeploy.Status f' = FedStatusRolledBack /\
    Forall2 (fun m m' =>
      if decide (dispatched m) then FederationMember.Status m' = StatusRolledBack \/ FederationMember.Status m' = StatusFailed
      else m' = m) (FederationDeploy.Members f) (FederationDeploy.Members f').
Proof.
  destruct (rollback_reaches_every_member 9
    (ex_federation FedStatusGated [ex_member "east" 0 1 StatusSuccess; ex_member "west" 0 2 StatusSuccess;
                                   ex_member "north" 1 0 ""; ex_member "south" 0 3 StatusSuccess])
    (ex_coord (ex_federation FedStatusGated [ex_member "east" 0 1 StatusSuccess; ex_member "west" 0 2 StatusSuccess;
                                   ex_member "north" 1 0 ""; ex_member "south" 0 3 StatusSuccess]) []))
    as (c' & f' & H); [reflexivity | by apply (bool_decide_unpack _); vm_compute | reflexivity |].
  exists c', f'. exact H.
Defined.

Lemma success_without_promotion_witness :
  let f := ex_federation FedStatusCanary [ex_member "east" 0 1 StatusGated; ex_member "west" 0 0 StatusFailed] in
  exists c' f', Coord.Promote 9 (FederationDeploy.ID f) (FederationDeploy.TenantID f) (ex_coord f [1]%Z) = (c', None) /\
    stored f' c' /\ FederationDeploy.Status f' = FedStatusSuccess /\
    FederationDeploy.Members f' = FederationDeploy.Members f /\
    Forall (fun m => FederationMember.Status m <> StatusSuccess) (FederationDeploy.Members f') /\
    Coord.fexec c' = [1]%Z /\
    forall later, Coord.Reconcile later (FederationDeploy.ID f) (FederationDeploy.TenantID f) c' = (c', None).
Proof.
  apply (success_without_promotion 9
    (ex_federation FedStatusCanary [ex_member "east" 0 1 StatusGated; ex_member "west" 0 0 StatusFailed])
    (ex_coord (ex_federation FedStatusCanary [ex_member "east" 0 1 StatusGated; ex_member "west" 0 0 StatusFailed]) [1]%Z));
    [reflexivity | reflexivity | reflexivity | cbn; lia | by left | by left |].
  apply Forall_cons; split; [by left |]. apply Forall_cons; split; [| constructor].
  right. split_and!; [done | done | left; by split].
Defined.
