(* ===== verification/FederationRollout.v ===== *)
(** * A sequential rollout completes ([internal/deploy/federation.go])

    With an executor that accepts every deployment and whose deployments
    succeed, a sequential federation goes through its orders, one per round,
    until every member is a success. *)

From S2P Require Import Proto GoStrings Float64 Prelude Deploy DeployProps Federation FederationProps.
Open Scope go_scope.

(** ** Dispatching a batch *)

(** An executor that takes the template to the given targets of a tenant:
    [ran] are the deployments it has begun, which [finish] lets succeed. *)
Record willing {E} `{!DeployExecutor E} (template : DeployTask.t) (targets : list string) (tenant : string)
    (ran : E -> Z -> Prop) (finish : E -> E) : Prop := {
  willing_create now t x : t ∈ targets -> exists x' id,
    exec_CreateAndExecute now template t tenant x = (x', Ok id) /\ (0 < id)%Z /\ ran x' id /\
    forall i, ran x i -> ran x' i;
  willing_finish x i : ran x i -> ran (finish x) i /\ exec_MemberStatus i tenant (finish x) = Ok StatusSuccess;
}.

Section rollout.
Context {E : Type} `{!DeployExecutor E} (template : DeployTask.t) (targets : list string) (tenant : string).
Context (ran : E -> Z -> Prop) (finish : E -> E) (Hwilling : willing template targets tenant ran finish).

(** The federations that the rollout below is about. *)
Record suits (f : FederationDeploy.t) : Prop := {
  suits_template : FederationDeploy.Template f = template;
  suits_tenant : FederationDeploy.TenantID f = tenant;
  suits_mode : EffectiveMode f = FedModeSequential;
  suits_gate : FederationDeploy.Gate f = None;
  suits_size : length (FederationDeploy.Members f) <= 100;
  suits_clusters : NoDup (clusters f);
  suits_orders : Forall (fun m => 0 <= FederationMember.Order m)%Z (FederationDeploy.Members f);
  suits_targets : Forall (fun m => FederationMember.TargetIDs m ∈ targets) (FederationDeploy.Members f);
}.

Definition same_seat (m m' : FederationMember.t) : Prop :=
  FederationMember.ClusterID m' = FederationMember.ClusterID m /\
  FederationMember.TargetIDs m' = FederationMember.TargetIDs m /\ FederationMember.Order m' = FederationMember.Order m.

(** What became of a member when the clusters [cs] were dispatched. *)
Definition sent (cs : list string) (x : E) (m m' : FederationMember.t) : Prop :=
  same_seat m m' /\
  if decide (FederationMember.ClusterID m ∈ cs)
  then (0 < FederationMember.DeployID m')%Z /\ ran x (FederationMember.DeployID m') /\ FederationMember.Status m' = StatusRunning
  else m' = m.

Lemma dispatch_sends now batch f x :
  FederationDeploy.Template f = template -> FederationDeploy.TenantID f = tenant ->
  Forall (fun m => FederationMember.TargetIDs m ∈ targets) batch ->
  exists ms x', Coord.dispatch_batch now batch f x = (FederationDeploy.set_Members ms f, x') /\
    (forall i, ran x i -> ran x' i) /\
    Forall2 (sent (FederationMember.ClusterID <$> batch) x') (FederationDeploy.Members f) ms.
Proof using All.
  intros Hp Ht Hb. revert f x Hp Ht. induction Hb as [| m batch Hm _ IH]; intros f x Hp Ht.
  { exists (FederationDeploy.Members f), x. rewrite set_Members_same. split_and!; [done.. |].
    apply Forall_Forall2_diag, Forall_forall. intros m _. split; [done |].
    by rewrite decide_False by apply not_elem_of_nil. }
  destruct (willing_create _ _ _ _ _ Hwilling now (FederationMember.TargetIDs m) x Hm) as (x1 & id & Hc & Hid & Hr & Hmono).
  unfold Coord.dispatch_batch. cbn [foldl]. rewrite Hp, Ht, Hc.
  destruct (IH (setMemberDispatched (FederationMember.ClusterID m) id f) x1 Hp Ht) as (ms & x' & Hd & Hmono' & Hms).
  unfold Coord.dispatch_batch in Hd. rewrite Hd. exists ms, x'. split_and!; [by destruct f | by auto |].
  unfold setMemberDispatched in Hms. cbn in Hms. match type of Hms with Forall2 _ (map ?g ?l) _ => change (map g l) with (g <$> l) in Hms end. rewrite Forall2_fmap_l in Hms. eapply Forall2_impl; [exact Hms |].
  intros m0 m' [Hs Hm']. rewrite fmap_cons. unfold same_seat in Hs |- *.
  destruct (decide (FederationMember.ClusterID m0 = FederationMember.ClusterID m)) as [Heq | Hne].
  - rewrite bool_decide_true in Hs, Hm' by done. cbn in Hs, Hm'. split; [done |].
    rewrite (decide_True (P := _ ∈ _ :: _)) by (rewrite Heq; left). case_decide; [done |]. subst m'. cbn. by auto.
  - rewrite bool_decide_false in Hs, Hm' by done. split; [done |]. case_decide as H1.
    + by rewrite decide_True by (by right).
    + by rewrite decide_False by (by apply not_elem_of_cons).
Qed.

(** The members up to order [o] are dispatched. *)
Definition reached (o : Z) (x : E) (m : FederationMember.t) : Prop :=
  if decide (FederationMember.Order m <= o)%Z
  then (0 < FederationMember.DeployID m)%Z /\ ran x (FederationMember.DeployID m) /\
       FederationMember.Status m ∈ [StatusRunning; StatusSuccess]
  else FederationMember.DeployID m = 0%Z.

Lemma clusters_inj f m m' :
  NoDup (clusters f) -> m ∈ FederationDeploy.Members f -> m' ∈ FederationDeploy.Members f ->
  FederationMember.ClusterID m = FederationMember.ClusterID m' -> m = m'.
Proof.
  intros Hnd [i Hi]%list_elem_of_lookup [j Hj]%list_elem_of_lookup Heq.
  enough (i = j) by congruence. eapply NoDup_lookup; [exact Hnd | |];
    unfold clusters; rewrite list_lookup_fmap; [rewrite Hi | rewrite Hj]; cbn; by rewrite ?Heq.
Qed.

Lemma next_reached lo o f x x' ms :
  NoDup (clusters f) -> (forall i, ran x i -> ran x' i) -> (lo < o)%Z ->
  (forall m, m ∈ FederationDeploy.Members f -> (lo < FederationMember.Order m)%Z -> (o <= FederationMember.Order m)%Z) ->
  Forall (reached lo x) (FederationDeploy.Members f) ->
  Forall2 (sent (FederationMember.ClusterID <$> of_order o (FederationDeploy.Members f)) x') (FederationDeploy.Members f) ms ->
  Forall (reached o x') ms.
Proof.
  intros Hnd Hmono Hlo Hleast Hr Hms. rewrite Forall_forall in Hr. apply Forall_forall. intros m' [i Hi]%list_elem_of_lookup.
  destruct (Forall2_lookup_r _ _ _ _ _ Hms Hi) as (m & Hm & (_ & _ & Ho) & Hsent).
  apply list_elem_of_lookup_2 in Hm. specialize (Hr m Hm). unfold reached in *. case_decide as Hin.
  - apply list_elem_of_fmap in Hin as (m2 & Heq & [Hm2 Ho2]%elem_of_of_order).
    rewrite <- (clusters_inj f m m2 Hnd Hm Hm2 Heq) in Ho2. rewrite decide_True by lia.
    destruct Hsent as (? & ? & ->). split_and!; [done | done | left].
  - subst m'. assert (FederationMember.Order m <> o).
    { intros H. apply Hin, list_elem_of_fmap. exists m. split; [done |]. by apply elem_of_of_order. }
    destruct (decide (FederationMember.Order m <= lo)%Z).
    + rewrite decide_True by lia. naive_solver.
    + specialize (Hleast m Hm). by rewrite decide_False by lia.
Qed.

Lemma suits_kept f f' :
  suits f -> Forall2 same_seat (FederationDeploy.Members f) (FederationDeploy.Members f') ->
  FederationDeploy.Template f' = FederationDeploy.Template f -> FederationDeploy.TenantID f' = FederationDeploy.TenantID f ->
  FederationDeploy.Mode f' = FederationDeploy.Mode f -> FederationDeploy.Gate f' = FederationDeploy.Gate f -> suits f'.
Proof.
  intros [] Hms Hp Ht Hm Hg. split; try congruence.
  - unfold EffectiveMode in *. by rewrite Hm.
  - by rewrite <- (Forall2_length _ _ _ Hms).
  - assert (clusters f' = clusters f) as ->; [| done]. unfold clusters. symmetry.
    apply list_eq_Forall2, Forall2_fmap_2. eapply Forall2_impl; [exact Hms |]. by intros ? ? (? & _ & _).
  - eapply Forall2_Forall_r; [exact Hms |]. eapply Forall_impl; [exact suits_orders0 |]. by intros m Hm' m' (_ & _ & ->).
  - eapply Forall2_Forall_r; [exact Hms |]. eapply Forall_impl; [exact suits_targets0 |]. by intros m Hm' m' (_ & -> & _).
Qed.

(** ** A round of reconciliation *)

Definition poll_step (x : E) (m : FederationMember.t) (b : bool) : FederationMember.t * bool :=
  if decide (dispatched m) then
    match exec_MemberStatus (FederationMember.DeployID m) tenant x with
    | Err _ => (m, b)
    | Ok status => if status != FederationMember.Status m then (FederationMember.set_Status status m, true) else (m, b)
    end
  else (m, b).

Lemma poll_thread f x b :
  suits f -> each_member (Coord.poll_member x) f b =
  (FederationDeploy.set_Members (thread (poll_step x) (FederationDeploy.Members f) b).1 f,
   (thread (poll_step x) (FederationDeploy.Members f) b).2).
Proof.
  intros []. apply (each_member_thread tenant (clusters f)); try done.
  - intros i m g y Ht Hc Hi. unfold Coord.poll_member, poll_step, dispatched. rewrite Ht.
    destruct (Z.eqb_spec (FederationMember.DeployID m) 0) as [H0 | H0]; case_decide; try done.
    + by rewrite set_Members_id.
    + destruct (exec_MemberStatus _ _ x); [| by rewrite set_Members_id].
      destruct (negb _); [by rewrite (set_member_status_at i m) | by rewrite set_Members_id].
  - intros m y. unfold poll_step. case_decide; [| done]. destruct (exec_MemberStatus _ _ x); [| done]. by destruct (negb _).
Qed.

(** What a poll makes of a member whose work has succeeded. *)
Definition settled (m m' : FederationMember.t) : Prop :=
  same_seat m m' /\ FederationMember.DeployID m' = FederationMember.DeployID m /\
  (dispatched m -> FederationMember.Status m' = StatusSuccess).

Lemma poll_settles o ms x b :
  Forall (reached o x) ms -> Forall2 settled ms (thread (poll_step (finish x)) ms b).1.
Proof using All.
  intros Hms. revert b. induction Hms as [| m ms Hm _ IH]; intros b; [constructor |]. cbn [thread].
  assert (Hs : settled m (poll_step (finish x) m b).1).
  { unfold poll_step, reached in *. destruct (decide (dispatched m)); [| by split; [| split; [| intros ?]]].
    case_decide; [| done]. destruct Hm as (_ & Hr & _). destruct (willing_finish _ _ _ _ _ Hwilling x _ Hr) as [_ ->].
    destruct (bool_decide_reflect (StatusSuccess = FederationMember.Status m)); by split; [| split]. }
  destruct (poll_step _ m b) as [m' b']. specialize (IH b'). destruct (thread _ ms b'). by constructor.
Qed.

(** The members of a federation that is at order [o], all of whose deployments succeeded. *)
Definition at_order (o : Z) (x : E) (f : FederationDeploy.t) : Prop :=
  Forall (reached o x) (FederationDeploy.Members f) /\
  Exists (fun m => FederationMember.Order m = o) (FederationDeploy.Members f).

Definition all_done (f : FederationDeploy.t) : Prop :=
  Forall (fun m => dispatched m -> FederationMember.Status m = StatusSuccess) (FederationDeploy.Members f).

Lemma at_order_settled o x f ms :
  at_order o x f -> Forall2 settled (FederationDeploy.Members f) ms ->
  at_order o (finish x) (FederationDeploy.set_Members ms f) /\ all_done (FederationDeploy.set_Members ms f).
Proof using All.
  intros [Hr Ho] Hms. split; [split |]; cbn.
  - eapply Forall2_Forall_r; [exact Hms |]. eapply Forall_impl; [exact Hr |].
    intros m Hm m' ((_ & _ & Heq) & Hid & Hs). unfold reached in *. rewrite Heq, Hid. case_decide; [| done].
    destruct Hm as (H1 & H2 & _). destruct (willing_finish _ _ _ _ _ Hwilling x _ H2).
    rewrite Hs by (unfold dispatched; lia). split_and!; [done | done | right; left].
  - apply Exists_exists in Ho as (m & [i Hi]%list_elem_of_lookup & Hm).
    destruct (Forall2_lookup_l _ _ _ _ _ Hms Hi) as (m' & Hi' & (_ & _ & Heq) & _).
    apply Exists_exists. exists m'. split; [by eapply list_elem_of_lookup_2 | by rewrite Heq].
  - unfold all_done. cbn. eapply Forall2_Forall_r; [exact Hms |]. apply Forall_forall. intros m _ m' (_ & Hid & Hs).
    unfold dispatched in *. by rewrite Hid.
Qed.

Lemma status_all_done o x f :
  at_order o x f -> all_done f ->
  status_by_rules f =
  if decide (Forall (fun m => FederationMember.Order m <= o)%Z (FederationDeploy.Members f)) then FedStatusSuccess else FedStatusGated.
Proof using All.
  intros [Hr Ho] Hd. unfold all_done in Hd. rewrite Forall_forall in Hr, Hd. unfold status_by_rules.
  rewrite decide_False; last first.
  { intros (m & Hm & Hdm & Hf)%Exists_exists. by rewrite (Hd m Hm Hdm) in Hf. }
  destruct (decide (Forall (fun m => FederationMember.Order m <= o)%Z _)) as [Hall | Hall].
  - rewrite Forall_forall in Hall. rewrite decide_True; [done |]. apply Forall_forall. intros m Hm.
    specialize (Hr m Hm). unfold reached in Hr. rewrite decide_True in Hr by by apply Hall.
    assert (dispatched m) by (unfold dispatched; lia). split; [done | by apply Hd].
  - rewrite decide_False; last first.
    { rewrite Forall_forall. intros H. apply Hall, Forall_forall. intros m Hm. specialize (Hr m Hm).
      destruct (H m Hm) as [Hdm _]. unfold reached, dispatched in *. by case_decide. }
    rewrite decide_True; [done |]. split; [| by apply Forall_forall]. apply Exists_exists in Ho as (m & Hm & Hmo).
    apply Exists_exists. exists m. split; [done |]. specialize (Hr m Hm). unfold reached, dispatched in *.
    rewrite decide_True in Hr by lia. lia.
Qed.

(** ** The steps of a rollout *)

Lemma reconcile_stage now o f c :
  stored f c -> suits f -> at_order o (Coord.fexec c) f -> Coord.skips (FederationDeploy.Status f) = false ->
  exists c' f', Coord.Reconcile now (FederationDeploy.ID f) tenant (Coord.mk (Coord.fstore c) (finish (Coord.fexec c))) = (c', None) /\
    stored f' c' /\ FederationDeploy.ID f' = FederationDeploy.ID f /\ suits f' /\
    at_order o (Coord.fexec c') f' /\ all_done f' /\
    Forall2 same_seat (FederationDeploy.Members f) (FederationDeploy.Members f') /\
    FederationDeploy.Status f' =
    if decide (Forall (fun m => FederationMember.Order m <= o)%Z (FederationDeploy.Members f')) then FedStatusSuccess else FedStatusGated.
Proof using All.
  intros Hf Hs Ho Hk. pose proof (Get_stored f c Hf) as Hg. rewrite (suits_tenant _ Hs) in Hg.
  unfold Coord.Reconcile. cbn [Coord.fstore Coord.fexec]. rewrite Hg, Hk, (poll_thread _ _ _ Hs).
  pose proof (poll_settles o _ (Coord.fexec c) false (proj1 Ho)) as Hms.
  destruct (thread _ _ _) as [ms b]. cbn [fst snd] in *. destruct (at_order_settled _ _ _ _ Ho Hms) as [Ho' Hd].
  set (g := FederationDeploy.set_Members ms f) in *. rewrite (recompute_frame g), (recompute_by_rules g).
  rewrite (status_all_done _ _ _ Ho' Hd). set (st := if decide _ then FedStatusSuccess else FedStatusGated).
  assert (Hst : st = FedStatusSuccess \/ st = FedStatusGated) by (subst st; case_decide; auto).
  rewrite (bool_decide_false (_ = FedStatusFailed)) by (by destruct Hst as [-> | ->]).
  rewrite (bool_decide_false (_ = FedStatusCanary)) by (by destruct Hst as [-> | ->]). rewrite andb_false_r. cbn [andb].
  destruct (fed_update_stored now f (FederationDeploy.set_Status st g) (Coord.mk (Coord.fstore c) (finish (Coord.fexec c))) Hf eq_refl eq_refl)
    as (s' & Hu & Hst'). rewrite Hu. eexists _, _. split; [done |]. split; [exact Hst' |].
  assert (Hseat : Forall2 same_seat (FederationDeploy.Members f) ms) by (eapply Forall2_impl; [exact Hms |]; by intros ? ? (? & _)).
  split_and!; try done. by eapply suits_kept; [exact Hs | | | | |].
Qed.

Lemma gate_all_done o x f : suits f -> at_order o x f -> all_done f -> evaluateFedGate f = None.
Proof using All.
  intros Hs [Hr Ho] Hd. apply full_gate; [by apply suits_gate | by apply suits_size | |].
  - apply Exists_exists in Ho as (m & Hm & Hmo). apply Exists_exists. exists m. split; [done |].
    rewrite Forall_forall in Hr. specialize (Hr m Hm). unfold reached, dispatched in *. rewrite decide_True in Hr by lia. lia.
  - eapply Forall_impl; [exact Hd |]. intros m H ?. left. by apply H.
Qed.

Lemma status_running f :
  ~ Exists member_failed (FederationDeploy.Members f) ->
  Exists (fun m => dispatched m /\ FederationMember.Status m = StatusRunning) (FederationDeploy.Members f) ->
  status_by_rules f = if decide (FederationDeploy.Status f = FedStatusPending) then FedStatusCanary else FederationDeploy.Status f.
Proof.
  intros Hf (m & Hm & Hdm & Hr)%Exists_exists. unfold status_by_rules.
  assert (Hnd : ~ member_done m) by (unfold member_done; by rewrite Hr).
  rewrite (decide_False (P := Exists _ _)), (decide_False (P := Forall _ _)), (decide_False (P := _ /\ _)); try done.
  - intros [_ H]. rewrite Forall_forall in H. by apply Hnd, H.
  - intros H. rewrite Forall_forall in H. by apply Hnd, H.
Qed.

(** Dispatching the next order. *)
Lemma dispatch_stage now lo o f x :
  suits f -> Forall (reached lo x) (FederationDeploy.Members f) -> (lo < o)%Z ->
  (exists m, m ∈ FederationDeploy.Members f /\ FederationMember.Order m = o) ->
  (forall m, m ∈ FederationDeploy.Members f -> (lo < FederationMember.Order m)%Z -> (o <= FederationMember.Order m)%Z) ->
  exists ms x', Coord.dispatch_batch now (of_order o (FederationDeploy.Members f)) f x = (FederationDeploy.set_Members ms f, x') /\
    Forall2 same_seat (FederationDeploy.Members f) ms /\ at_order o x' (FederationDeploy.set_Members ms f) /\
    forall st, status_by_rules (FederationDeploy.set_Status st (FederationDeploy.set_Members ms f)) =
      if decide (st = FedStatusPending) then FedStatusCanary else st.
Proof using All.
  intros Hs Hr Hlo (m & Hm & Hmo) Hleast.
  destruct (dispatch_sends now (of_order o (FederationDeploy.Members f)) f x (suits_template _ Hs) (suits_tenant _ Hs))
    as (ms & x' & Hd & Hmono & Hms).
  { apply Forall_forall. intros y [Hy _]%elem_of_of_order. revert y Hy. apply Forall_forall, (suits_targets _ Hs). }
  pose proof (next_reached lo o f x x' ms (suits_clusters _ Hs) Hmono Hlo Hleast Hr Hms) as Hr'.
  apply list_elem_of_lookup in Hm as [i Hi]. destruct (Forall2_lookup_l _ _ _ _ _ Hms Hi) as (m' & Hi' & (_ & _ & Ho') & Hsent).
  rewrite decide_True in Hsent; last first.
  { apply list_elem_of_fmap. exists m. split; [done |]. apply elem_of_of_order. split; [by eapply list_elem_of_lookup_2 | done]. }
  exists ms, x'. split_and!; [done | by eapply Forall2_impl; [exact Hms |]; intros ? ? [? _] | |].
  - split; [done |]. apply Exists_exists. exists m'. split; [by eapply list_elem_of_lookup_2 | congruence].
  - intros st. rewrite status_running; [done | |].
    + intros (y & Hy & Hdy & Hf)%Exists_exists. cbn in Hy. rewrite Forall_forall in Hr'. specialize (Hr' y Hy).
      unfold reached, dispatched in *. destruct (decide (FederationMember.Order y <= o)%Z); [| done].
      destruct Hr' as (_ & _ & H). rewrite Hf, !elem_of_cons, elem_of_nil in H.
      by destruct H as [H | [H | H]].
    + apply Exists_exists. exists m'. split; [by eapply list_elem_of_lookup_2 |]. unfold dispatched. split; [lia | tauto].
Qed.

Lemma promote_stage now o f c :
  stored f c -> suits f -> at_order o (Coord.fexec c) f -> all_done f -> FederationDeploy.Status f = FedStatusGated ->
  ~ Forall (fun m => FederationMember.Order m <= o)%Z (FederationDeploy.Members f) ->
  exists c' f' o', Coord.Promote now (FederationDeploy.ID f) tenant c = (c', None) /\
    stored f' c' /\ FederationDeploy.ID f' = FederationDeploy.ID f /\ suits f' /\ (o < o')%Z /\
    at_order o' (Coord.fexec c') f' /\ Coord.skips (FederationDeploy.Status f') = false /\
    Forall2 same_seat (FederationDeploy.Members f) (FederationDeploy.Members f').
Proof using All.
  intros Hf Hs Ho Hd Hst Hmore. pose proof (Get_stored f c Hf) as Hg. rewrite (suits_tenant _ Hs) in Hg.
  unfold Coord.Promote. rewrite Hg, Hst, (gate_all_done _ _ _ Hs Ho Hd), (suits_mode _ Hs).
  cbn -[maxDispatchedOrder nextBatchMembers Coord.dispatch_batch Coord.update recomputeStatus]. destruct Ho as [Hr (m & Hm & Hmo)%Exists_exists].
  pose proof (suits_orders _ Hs) as Hord. rewrite Forall_forall in Hr, Hord.
  assert (Hmax : maxDispatchedOrder f = o).
  { rewrite <- Hmo. pose proof (Hr m Hm) as Hrm. unfold reached in Hrm. rewrite decide_True in Hrm by lia.
    apply max_dispatched_is; [done | tauto | by apply Hord |]. intros m' Hm' Hd'. specialize (Hr m' Hm').
    unfold reached in Hr. rewrite Hmo. case_decide; lia. }
  rewrite Hmax. apply not_Forall_Exists in Hmore as (y & Hy & Hyo)%Exists_exists; [| apply _]. cbn in Hyo.
  destruct (least_order_least (fun z => z >? o)%Z (FederationDeploy.Members f) y (suits_orders _ Hs) Hy) as (m2 & Hm2 & Ho2 & Hgt & Hleast).
  { rewrite Z.gtb_ltb. apply Z.ltb_lt. lia. }
  unfold nextBatchMembers. set (o' := least_order _ _) in *. rewrite Z.gtb_ltb, Z.ltb_lt in Hgt.
  pose proof (Hord m2 Hm2). rewrite (proj2 (Z.eqb_neq o' (-1))) by lia.
  assert (Hin : m2 ∈ of_order o' (FederationDeploy.Members f)) by by apply elem_of_of_order.
  destruct (dispatch_stage now o o' f (Coord.fexec c) Hs) as (ms & x' & Hdis & Hseat & Hat & Hrule); [by apply Forall_forall | done | eauto | |].
  { intros m' Hm' ?. apply Hleast; [done |]. by rewrite Z.gtb_ltb, Z.ltb_lt. }
  destruct (of_order o' _) as [| b bs] eqn:Hb; [by apply elem_of_nil in Hin |]. rewrite Hdis.
  rewrite recompute_frame, recompute_by_rules, Hrule, decide_False by done.
  match goal with |- context [Coord.update now ?g ?c1] => destruct (fed_update_stored now f g c1 Hf eq_refl eq_refl) as (s' & Hu & Hst') end.
  cbn in Hu, Hst' |- *. rewrite Hu. eexists _, _, o'. split; [done |]. split; [exact Hst' |].
  split_and!; try done. by eapply suits_kept; [exact Hs | | | | |].
Qed.

Lemma start_stage now f c :
  stored f c -> suits f -> FederationDeploy.Status f = FedStatusPending -> FederationDeploy.Members f <> [] ->
  Forall (fun m => FederationMember.DeployID m = 0%Z) (FederationDeploy.Members f) ->
  exists c' f' o, Coord.Start now (FederationDeploy.ID f) tenant c = (c', None) /\
    stored f' c' /\ FederationDeploy.ID f' = FederationDeploy.ID f /\ suits f' /\
    at_order o (Coord.fexec c') f' /\ Coord.skips (FederationDeploy.Status f') = false /\
    Forall2 same_seat (FederationDeploy.Members f) (FederationDeploy.Members f').
Proof using All.
  intros Hf Hs Hst Hne Hz. pose proof (Get_stored f c Hf) as Hg. rewrite (suits_tenant _ Hs) in Hg.
  unfold Coord.Start. rewrite Hg, Hst. rewrite (bool_decide_true (FedStatusPending = FedStatusPending)) by done. cbn [negb]. pose proof (suits_orders _ Hs) as Hord.
  destruct (FederationDeploy.Members f) as [| y ys] eqn:Hys; [done |]. rewrite <- Hys in *.
  destruct (least_order_least (fun _ => true) (FederationDeploy.Members f) y Hord) as (m2 & Hm2 & Ho2 & _ & Hleast);
    [rewrite Hys; left | done |].
  unfold firstBatchMembers. rewrite (suits_mode _ Hs). rewrite (bool_decide_false (FedModeSequential = FedModeParallel)) by done. set (o := least_order _ _) in *.
  rewrite Forall_forall in Hord. pose proof (Hord m2 Hm2).
  assert (Hin : m2 ∈ of_order o (FederationDeploy.Members f)) by by apply elem_of_of_order.
  destruct (dispatch_stage now (-1) o f (Coord.fexec c) Hs) as (ms & x' & Hdis & Hseat & Hat & Hrule); [| lia | eauto | |].
  { apply Forall_forall. intros m Hm. unfold reached. rewrite Forall_forall in Hz. specialize (Hord m Hm).
    rewrite decide_False by lia. by apply Hz. }
  { intros m' Hm' ?. by apply Hleast. }
  destruct (of_order o _) as [| b bs] eqn:Hb; [by apply elem_of_nil in Hin |]. rewrite Hdis.
  assert (Heq : FederationDeploy.set_Status FedStatusPending (FederationDeploy.set_Members ms f) = FederationDeploy.set_Members ms f)
    by (rewrite <- Hst; by destruct f).
  specialize (Hrule FedStatusPending). rewrite Heq, decide_True in Hrule by done.
  rewrite recompute_frame, recompute_by_rules, Hrule.
  match goal with |- context [Coord.update now ?g ?c1] => destruct (fed_update_stored now f g c1 Hf eq_refl eq_refl) as (s' & Hu & Hst') end.
  rewrite Hu. eexists _, _, o. split; [done |]. split; [exact Hst' |].
  split_and!; try done. by eapply suits_kept; [exact Hs | | | | |].
Qed.

(** One round: the work that was begun succeeds, the federation is reconciled
    and promoted. *)
Definition round (id : Z) (c : Coord.t E) (now : time) : Coord.t E :=
  let c := Coord.mk (Coord.fstore c) (finish (Coord.fexec c)) in
  (Coord.Promote now id tenant (Coord.Reconcile now id tenant c).1).1.

(** The federation is a success, as is the deployment of every member. *)
Definition completed (f f' : FederationDeploy.t) : Prop :=
  FederationDeploy.Status f' = FedStatusSuccess /\
  Forall2 (fun m m' => same_seat m m' /\ dispatched m' /\ FederationMember.Status m' = StatusSuccess)
    (FederationDeploy.Members f) (FederationDeploy.Members f').

Lemma success_stays now f c :
  stored f c -> FederationDeploy.TenantID f = tenant -> FederationDeploy.Status f = FedStatusSuccess ->
  stored f (round (FederationDeploy.ID f) c now).
Proof using All.
  intros Hf Ht Hs. pose proof (Get_stored f c Hf) as Hg. rewrite Ht in Hg.
  unfold round, Coord.Reconcile. cbn [Coord.fstore]. rewrite Hg, Hs.
  change (Coord.skips FedStatusSuccess) with true. unfold Coord.Promote. cbn [Coord.fstore fst]. by rewrite Hg, Hs.
Qed.

Lemma successes_stay times f c :
  stored f c -> FederationDeploy.TenantID f = tenant -> FederationDeploy.Status f = FedStatusSuccess ->
  stored f (foldl (round (FederationDeploy.ID f)) c times).
Proof using All.
  revert c. induction times as [| now times IH]; intros c Hf Ht Hs; [done |]. cbn. apply IH; [| done..]. by apply success_stays.
Qed.

Lemma seats_completed f f0 f' :
  Forall2 same_seat (FederationDeploy.Members f0) (FederationDeploy.Members f) -> completed f f' -> completed f0 f'.
Proof.
  intros Hseat [Hst Hms]. split; [done |]. revert Hms. generalize (FederationDeploy.Members f').
  induction Hseat as [| m0 m l0 l (H1 & H2 & H3) _ IH]; intros l'; inversion 1 as [| ? m' ? ? ((H4 & H5 & H6) & H7) Hl']; subst; constructor.
  - split; [| done]. by split; [rewrite H4 | split; [rewrite H5 | rewrite H6]].
  - by apply IH.
Qed.

(** The members after order [o]. *)
Definition to_come (o : Z) (ms : list FederationMember.t) : nat :=
  length (List.filter (fun m => o <? FederationMember.Order m)%Z ms).

Lemma to_come_less o o' f ms x :
  (o < o')%Z -> Forall2 same_seat (FederationDeploy.Members f) ms ->
  at_order o' x (FederationDeploy.set_Members ms f) -> to_come o' ms < to_come o (FederationDeploy.Members f).
Proof.
  intros Hlt Hseat [_ Ho]. cbn in Ho.
  assert (to_come o (FederationDeploy.Members f) = to_come o ms) as ->.
  { unfold to_come. clear Ho. induction Hseat as [| m m' l l' (_ & _ & Heq) _ IH]; [done |]. cbn. rewrite Heq.
    destruct (o <? _)%Z; cbn; lia. }
  destruct (filter_count (fun m => o' <? FederationMember.Order m)%Z (fun m => o <? FederationMember.Order m)%Z ms) as [Hle Heq].
  { intros m. rewrite !Z.ltb_lt. lia. }
  unfold to_come. enough (length (List.filter (fun m => o' <? FederationMember.Order m)%Z ms) <>
    length (List.filter (fun m => o <? FederationMember.Order m)%Z ms)) by lia.
  rewrite Heq, Forall_forall. intros H. apply Exists_exists in Ho as (m & Hm & Hmo). specialize (H m Hm).
  cbn beta in H. rewrite !Z.ltb_lt in H. lia.
Qed.

Lemma to_come_below o f x : at_order o x f -> to_come o (FederationDeploy.Members f) < length (FederationDeploy.Members f).
Proof.
  intros [_ Ho]. unfold to_come.
  destruct (filter_count (fun m => o <? FederationMember.Order m)%Z (fun _ => true) (FederationDeploy.Members f) ltac:(done)) as [Hle Heq].
  rewrite filter_true in *. enough (length (List.filter (fun m => o <? FederationMember.Order m)%Z (FederationDeploy.Members f)) <>
    length (FederationDeploy.Members f)) by lia.
  rewrite Heq, Forall_forall. intros H. apply Exists_exists in Ho as (m & Hin & Hmo). specialize (H m Hin eq_refl).
  cbn beta in H. rewrite Z.ltb_lt in H. lia.
Qed.

Lemma rounds_complete n o times f c :
  stored f c -> suits f -> at_order o (Coord.fexec c) f -> Coord.skips (FederationDeploy.Status f) = false ->
  to_come o (FederationDeploy.Members f) <= n -> n < length times ->
  exists f', stored f' (foldl (round (FederationDeploy.ID f)) c times) /\ FederationDeploy.ID f' = FederationDeploy.ID f /\
    completed f f'.
Proof using All.
  revert o times f c. induction n as [n IH] using lt_wf_ind. intros o [| now times] f c Hf Hs Ho Hk Hn Hlen; [cbn in Hlen; lia |].
  destruct (reconcile_stage now o f c Hf Hs Ho Hk) as (c1 & f1 & Hrec & Hf1 & Hid1 & Hs1 & Ho1 & Hd1 & Hseat1 & Hst1).
  cbn [foldl]. unfold round at 2. rewrite Hrec. cbn [fst]. rewrite <- Hid1. case_decide as Hall.
  - assert (Hp : Coord.Promote now (FederationDeploy.ID f1) tenant c1 = (c1, Some (FedCannotPromote FedStatusSuccess))).
    { pose proof (Get_stored f1 c1 Hf1) as Hg. rewrite (suits_tenant _ Hs1) in Hg. unfold Coord.Promote. by rewrite Hg, Hst1. }
    rewrite Hp. exists f1. split; [by apply successes_stay; [| apply Hs1 |] |]. split; [done |].
    eapply seats_completed; [exact Hseat1 |]. split; [done |]. apply Forall_Forall2_diag, Forall_forall. intros m Hm.
    destruct Ho1 as [Hr _]. unfold all_done in Hd1. rewrite Forall_forall in Hr, Hd1, Hall. specialize (Hr m Hm).
    unfold reached in Hr. rewrite decide_True in Hr by by apply Hall.
    assert (dispatched m) by (unfold dispatched; lia). split; [done |]. split; [done | by apply Hd1].
  - destruct (promote_stage now o f1 c1 Hf1 Hs1 Ho1 Hd1 Hst1 Hall)
      as (c2 & f2 & o2 & Hpr & Hf2 & Hid2 & Hs2 & Hlt & Ho2 & Hk2 & Hseat2).
    rewrite Hpr. cbn [fst]. rewrite <- Hid2.
    pose proof (to_come_less o o2 f1 _ (Coord.fexec c2) Hlt Hseat2) as Hless.
    assert (Heq : to_come o (FederationDeploy.Members f1) = to_come o (FederationDeploy.Members f)).
    { unfold to_come. clear -Hseat1. induction Hseat1 as [| m m' l l' (_ & _ & E1) _ IH]; [done |]. cbn. rewrite E1.
      destruct (o <? _)%Z; cbn; lia. }
    destruct (IH (to_come o2 (FederationDeploy.Members f2))) with (o := o2) (times := times) (f := f2) (c := c2)
      as (f' & Hf' & Hid' & Hc'); try done.
    + specialize (Hless ltac:(destruct f1; exact Ho2)). lia.
    + specialize (Hless ltac:(destruct f1; exact Ho2)). cbn in Hlen. lia.
    + exists f'. split; [done |]. split; [done |]. by eapply seats_completed; [exact Hseat1 |]; eapply seats_completed; [exact Hseat2 |].
Qed.
End rollout.

(** ** A whole rollout *)

Lemma validate_members_sound seen ms :
  validate_members seen ms = None ->
  NoDup (FederationMember.ClusterID <$> ms) /\ (forall x, x ∈ FederationMember.ClusterID <$> ms -> x ∉ seen) /\
  Forall (fun m => 0 <= FederationMember.Order m)%Z ms.
Proof.
  revert seen. induction ms as [| m ms IH]; intros seen.
  { intros _. split; [constructor | split; [by intros x ?%elem_of_nil | done]]. }
  cbn [validate_members]. case_bool_decide; [done |]. case_bool_decide as Hseen; [done |]. case_bool_decide; [done |].
  destruct (Z.ltb_spec (FederationMember.Order m) fedOrderMin) as [| Ho]; [done |]. destruct (_ || _); [done |].
  intros (Hnd & Hfresh & Hall)%IH. rewrite fmap_cons. split; [| split].
  - constructor; [| done]. intros Hin. apply (Hfresh _ Hin). left.
  - intros x [-> | Hx]%elem_of_cons; [done |]. intros Hs. apply (Hfresh _ Hx). by right.
  - constructor; [exact Ho | done].
Qed.

Lemma ValidFed_sound f :
  ValidFed f = None -> FederationDeploy.Members f <> [] /\ NoDup (clusters f) /\
  Forall (fun m => 0 <= FederationMember.Order m)%Z (FederationDeploy.Members f).
Proof.
  unfold ValidFed. case_bool_decide; [done |]. destruct (negb _); [done |].
  destruct (FederationDeploy.Members f) as [| m ms] eqn:Hm; [done |].
  destruct (validate_members [] (m :: ms)) eqn:Hv; [done |]. intros _. apply validate_members_sound in Hv as (H1 & _ & H2).
  split; [done |]. unfold clusters. by rewrite Hm.
Qed.

(** C22: a sequential rollout with a willing executor completes.  Take a
    federation that has just been created, with no gate of its own, at most a
    hundred members and none of them dispatched.  If the executor accepts every
    deployment and the work it begins succeeds before each reconciliation, then
    [Start] followed by as many rounds of [Reconcile] and [Promote] as there are
    members, or more, ends in [fed_success], with every member dispatched and
    its deployment a success. *)
Theorem sequential_rollout_completes {E} `{!DeployExecutor E} (ran : E -> Z -> Prop) (finish : E -> E) now f f0 s s0 x times :
  FederationStore.Create now f s = (s0, Ok f0) ->
  FederationDeploy.Status f = "" -> EffectiveMode f = FedModeSequential -> FederationDeploy.Gate f = None ->
  length (FederationDeploy.Members f) <= 100 ->
  Forall (fun m => FederationMember.DeployID m = 0%Z) (FederationDeploy.Members f) ->
  willing (FederationDeploy.Template f) (FederationMember.TargetIDs <$> FederationDeploy.Members f)
    (FederationDeploy.TenantID f) ran finish ->
  length (FederationDeploy.Members f) <= length times ->
  exists c f', Coord.Start now (FederationDeploy.ID f0) (FederationDeploy.TenantID f) (Coord.mk s0 x) = (c, None) /\
    stored f' (foldl (round (FederationDeploy.TenantID f) finish (FederationDeploy.ID f0)) c times) /\
    FederationDeploy.ID f' = FederationDeploy.ID f0 /\ completed f f'.
Proof.
  intros Hc Hst Hmode Hgate Hlen Hz Hw Htimes. unfold FederationStore.Create in Hc.
  destruct (FederationDeploy.TenantID f == ""); [done |]. destruct (ValidFed f) eqn:Hv; [done |].
  apply ValidFed_sound in Hv as (Hne & Hnd & Hord). rewrite Hst in Hc. change ("" == "") with true in Hc. cbv iota zeta in Hc.
  set (f1 := if IsZero _ then _ else _) in Hc. injection Hc as <- Hf0.
  assert (Hf1 : FederationDeploy.set_Members (FederationDeploy.Members f) f0 = f0 /\ FederationDeploy.Status f0 = FedStatusPending /\
    FederationDeploy.Template f0 = FederationDeploy.Template f /\ FederationDeploy.TenantID f0 = FederationDeploy.TenantID f /\
    EffectiveMode f0 = EffectiveMode f /\ FederationDeploy.Gate f0 = FederationDeploy.Gate f).
  { subst f0 f1. by destruct (IsZero _). }
  destruct Hf1 as (Hm & Hp & Ht & Hten & Hmo & Hga). apply (f_equal FederationDeploy.Members) in Hm. cbn in Hm.
  set (c0 := Coord.mk _ x). assert (Hstored : stored f0 c0).
  { unfold stored, c0. cbn. rewrite Hf0. assert (FederationDeploy.ID f0 = FederationStore.seqno s + 1)%Z as -> by by rewrite <- Hf0.
    apply lookup_insert_eq. }
  assert (Hs : suits (FederationDeploy.Template f) (FederationMember.TargetIDs <$> FederationDeploy.Members f) (FederationDeploy.TenantID f) f0).
  { split; unfold clusters; rewrite <- ?Hm; try congruence; try done. apply Forall_forall. intros m Hin. by apply list_elem_of_fmap_2. }
  destruct (start_stage _ _ _ ran finish Hw now f0 c0 Hstored Hs Hp) as (c & f2 & o & Hstart & Hf2 & Hid2 & Hs2 & Ho2 & Hk2 & Hseat2);
    [by rewrite <- Hm | by rewrite <- Hm |].
  destruct (rounds_complete _ _ _ ran finish Hw (to_come o (FederationDeploy.Members f2)) o times f2 c Hf2 Hs2 Ho2 Hk2 (Nat.le_refl _))
    as (f' & Hf' & Hid' & Hcomp).
  - rewrite Hm, (Forall2_length _ _ _ Hseat2) in Htimes. eapply Nat.lt_le_trans; [| exact Htimes].
    by apply (to_come_below ran o f2 (Coord.fexec c)).
  - exists c, f'. split; [exact Hstart |]. rewrite <- Hid2. split; [done |]. split; [done |].
    eapply seats_completed; [| exact Hcomp]. by rewrite Hm.
Qed.

Lemma ex_willing template targets :
  willing template targets "t1" (fun x i => 0 < i <= Z.of_nat (length x))%Z (fun x => x).
Proof.
  split.
  - intros now t x _. eexists _, _. split; [done |]. rewrite length_app. cbn. split; [lia |]. split; [lia |]. intros i. lia.
  - intros x i Hi. by split.
Qed.

Lemma sequential_rollout_completes_witness :
  let s0 := (FederationStore.Create 9 (ex_federation "" ex_members) FederationStore.NewMemoryFederationStore).1 in
  exists f0, FederationStore.Create 9 (ex_federation "" ex_members) FederationStore.NewMemoryFederationStore = (s0, Ok f0) /\
  exists c f',
    Coord.Start 9 (FederationDeploy.ID f0) "t1" (Coord.mk s0 []) = (c, None) /\
    stored f' (foldl (round "t1" (fun x => x) (FederationDeploy.ID f0)) c [10; 11; 12; 13]%Z) /\
    FederationDeploy.ID f' = FederationDeploy.ID f0 /\ completed (ex_federation "" ex_members) f'.
Proof.
  eexists. split; [reflexivity |].
  apply (sequential_rollout_completes (fun x i => 0 < i <= Z.of_nat (length x))%Z (fun x => x) 9 (ex_federation "" ex_members)
    _ FederationStore.NewMemoryFederationStore _ [] [10; 11; 12; 13]%Z);
    [reflexivity.. | cbn; lia | by repeat constructor | apply ex_willing | cbn; lia].
Defined.
