(* ===== verification/Gpu.v ===== *)
(** * The GPU service ([services/gpu-svc/internal])

    Nodes with GPUs ([node/node.go]), workloads ([workload/workload.go]), quotas
    of tenants ([quota/quota.go]), the scheduler ([scheduler/scheduler.go]) and
    the service that composes them ([service/service.go]); their structs are in
    [models/models.go].  Every method of a manager holds its lock; an operation of
    the service is a sequence of them.  Instants and generated identifiers are
    arguments.  Nil arguments are not modelled: the HTTP handlers never pass one.
    Not modelled: the detection of GPUs, their metrics, the models of ollama. *)

From Stdlib Require Import Ascii.
From S2P Require Import Prelude.
Open Scope go_scope.

(** ** Data *)

Definition NodeStatusOnline : string := "online".
Definition NodeStatusOffline : string := "offline".
Definition NodeStatusDraining : string := "draining".
Definition WorkloadStatusPending : string := "pending".
Definition WorkloadStatusScheduling : string := "scheduling".
Definition WorkloadStatusRunning : string := "running".
Definition WorkloadStatusCompleted : string := "completed".
Definition WorkloadStatusFailed : string := "failed".
Definition WorkloadStatusCancelled : string := "cancelled".

(** [models.GPUInfo] *)
Module GPUInfo.
Record t := mk {
  Index : Z; Model : string; VRAMMB : Z; ComputeCapability : string; DriverVersion : string;
  ECCEnabled : bool; Vendor : string;
}.

End GPUInfo.
(** [models.GPUNode]; a nil map of labels is [None]. *)
Module GPUNode.
Record t := mk {
  ID : string; Name : string; Address : string; GPUs : list GPUInfo.t; Status : string;
  Labels : option (gmap string string); TotalVRAMMB : Z; UsedVRAMMB : Z; GPUErrors : Z;
  LastHeartbeat : time; CreatedAt : time; UpdatedAt : time;
}.

Definition set_ID (v : string) (r : t) : t :=
  mk v (Name r) (Address r) (GPUs r) (Status r) (Labels r) (TotalVRAMMB r) (UsedVRAMMB r)
     (GPUErrors r) (LastHeartbeat r) (CreatedAt r) (UpdatedAt r).
Definition set_Status (v : string) (r : t) : t :=
  mk (ID r) (Name r) (Address r) (GPUs r) v (Labels r) (TotalVRAMMB r) (UsedVRAMMB r)
     (GPUErrors r) (LastHeartbeat r) (CreatedAt r) (UpdatedAt r).
Definition set_TotalVRAMMB (v : Z) (r : t) : t :=
  mk (ID r) (Name r) (Address r) (GPUs r) (Status r) (Labels r) v (UsedVRAMMB r) (GPUErrors r)
     (LastHeartbeat r) (CreatedAt r) (UpdatedAt r).
Definition set_UsedVRAMMB (v : Z) (r : t) : t :=
  mk (ID r) (Name r) (Address r) (GPUs r) (Status r) (Labels r) (TotalVRAMMB r) v (GPUErrors r)
     (LastHeartbeat r) (CreatedAt r) (UpdatedAt r).
Definition set_LastHeartbeat (v : time) (r : t) : t :=
  mk (ID r) (Name r) (Address r) (GPUs r) (Status r) (Labels r) (TotalVRAMMB r) (UsedVRAMMB r)
     (GPUErrors r) v (CreatedAt r) (UpdatedAt r).
Definition set_CreatedAt (v : time) (r : t) : t :=
  mk (ID r) (Name r) (Address r) (GPUs r) (Status r) (Labels r) (TotalVRAMMB r) (UsedVRAMMB r)
     (GPUErrors r) (LastHeartbeat r) v (UpdatedAt r).
Definition set_UpdatedAt (v : time) (r : t) : t :=
  mk (ID r) (Name r) (Address r) (GPUs r) (Status r) (Labels r) (TotalVRAMMB r) (UsedVRAMMB r)
     (GPUErrors r) (LastHeartbeat r) (CreatedAt r) v.
End GPUNode.
(** [models.NodeHealth], the fields that [GetHealth] sets. *)
Module NodeHealth.
Record t := mk {
  NodeID : string; Status : string; ECCErrors : Z; Issues : list string;
}.

End NodeHealth.
(** [models.GPURequest] *)
Module GPURequest.
Record t := mk {
  Count : Z; MinVRAMMB : Z; GPUModel : string; MultiGPU : bool; Parallelism : string;
}.

End GPURequest.
(** [models.Workload] *)
Module Workload.
Record t := mk {
  ID : string; Name : string; TenantID : string; Type_ : string; Status : string;
  GPURequest : GPURequest.t; NodeIDs : list string; Priority : Z; Image : string;
  Command : list string; Env : gmap string string; Replicas : Z; ModelName : string;
  CreatedAt : time; UpdatedAt : time; StartedAt : option time; FinishedAt : option time;
  ErrorMsg : string;
}.

Definition set_ID (v : string) (r : t) : t :=
  mk v (Name r) (TenantID r) (Type_ r) (Status r) (GPURequest r) (NodeIDs r) (Priority r)
     (Image r) (Command r) (Env r) (Replicas r) (ModelName r) (CreatedAt r) (UpdatedAt r)
     (StartedAt r) (FinishedAt r) (ErrorMsg r).
Definition set_Status (v : string) (r : t) : t :=
  mk (ID r) (Name r) (TenantID r) (Type_ r) v (GPURequest r) (NodeIDs r) (Priority r) (Image r)
     (Command r) (Env r) (Replicas r) (ModelName r) (CreatedAt r) (UpdatedAt r) (StartedAt r)
     (FinishedAt r) (ErrorMsg r).
Definition set_NodeIDs (v : list string) (r : t) : t :=
  mk (ID r) (Name r) (TenantID r) (Type_ r) (Status r) (GPURequest r) v (Priority r) (Image r)
     (Command r) (Env r) (Replicas r) (ModelName r) (CreatedAt r) (UpdatedAt r) (StartedAt r)
     (FinishedAt r) (ErrorMsg r).
Definition set_Replicas (v : Z) (r : t) : t :=
  mk (ID r) (Name r) (TenantID r) (Type_ r) (Status r) (GPURequest r) (NodeIDs r) (Priority r)
     (Image r) (Command r) (Env r) v (ModelName r) (CreatedAt r) (UpdatedAt r) (StartedAt r)
     (FinishedAt r) (ErrorMsg r).
Definition set_CreatedAt (v : time) (r : t) : t :=
  mk (ID r) (Name r) (TenantID r) (Type_ r) (Status r) (GPURequest r) (NodeIDs r) (Priority r)
     (Image r) (Command r) (Env r) (Replicas r) (ModelName r) v (UpdatedAt r) (StartedAt r)
     (FinishedAt r) (ErrorMsg r).
Definition set_UpdatedAt (v : time) (r : t) : t :=
  mk (ID r) (Name r) (TenantID r) (Type_ r) (Status r) (GPURequest r) (NodeIDs r) (Priority r)
     (Image r) (Command r) (Env r) (Replicas r) (ModelName r) (CreatedAt r) v (StartedAt r)
     (FinishedAt r) (ErrorMsg r).
Definition set_StartedAt (v : option time) (r : t) : t :=
  mk (ID r) (Name r) (TenantID r) (Type_ r) (Status r) (GPURequest r) (NodeIDs r) (Priority r)
     (Image r) (Command r) (Env r) (Replicas r) (ModelName r) (CreatedAt r) (UpdatedAt r) v
     (FinishedAt r) (ErrorMsg r).
Definition set_FinishedAt (v : option time) (r : t) : t :=
  mk (ID r) (Name r) (TenantID r) (Type_ r) (Status r) (GPURequest r) (NodeIDs r) (Priority r)
     (Image r) (Command r) (Env r) (Replicas r) (ModelName r) (CreatedAt r) (UpdatedAt r)
     (StartedAt r) v (ErrorMsg r).
Definition set_ErrorMsg (v : string) (r : t) : t :=
  mk (ID r) (Name r) (TenantID r) (Type_ r) (Status r) (GPURequest r) (NodeIDs r) (Priority r)
     (Image r) (Command r) (Env r) (Replicas r) (ModelName r) (CreatedAt r) (UpdatedAt r)
     (StartedAt r) (FinishedAt r) v.
End Workload.
(** [models.SchedulingPolicy]; only the number of labels and their values matter. *)
Module SchedulingPolicy.
Record t := mk {
  Name : string; Type_ : string; Enabled : bool; Labels : gmap string string;
  PriorityWeight : Z; MaxGPUsPerNode : Z;
}.

End SchedulingPolicy.
(** [models.ScheduleResult] *)
Module ScheduleResult.
Record t := mk {
  WorkloadID : string; Assigned : bool; NodeIDs : list string; Reason : string;
}.

End ScheduleResult.
(** [models.GPUQuota] *)
Module GPUQuota.
Record t := mk {
  TenantID : string; MaxGPUs : Z; MaxVRAMMB : Z; MaxWorkloads : Z; Priority : Z; UsedGPUs : Z;
  UsedVRAMMB : Z; UsedWorkloads : Z; CreatedAt : time; UpdatedAt : time;
}.

Definition set_UsedGPUs (v : Z) (r : t) : t :=
  mk (TenantID r) (MaxGPUs r) (MaxVRAMMB r) (MaxWorkloads r) (Priority r) v (UsedVRAMMB r)
     (UsedWorkloads r) (CreatedAt r) (UpdatedAt r).
Definition set_UsedVRAMMB (v : Z) (r : t) : t :=
  mk (TenantID r) (MaxGPUs r) (MaxVRAMMB r) (MaxWorkloads r) (Priority r) (UsedGPUs r) v
     (UsedWorkloads r) (CreatedAt r) (UpdatedAt r).
Definition set_UsedWorkloads (v : Z) (r : t) : t :=
  mk (TenantID r) (MaxGPUs r) (MaxVRAMMB r) (MaxWorkloads r) (Priority r) (UsedGPUs r)
     (UsedVRAMMB r) v (CreatedAt r) (UpdatedAt r).
Definition set_CreatedAt (v : time) (r : t) : t :=
  mk (TenantID r) (MaxGPUs r) (MaxVRAMMB r) (MaxWorkloads r) (Priority r) (UsedGPUs r)
     (UsedVRAMMB r) (UsedWorkloads r) v (UpdatedAt r).
Definition set_UpdatedAt (v : time) (r : t) : t :=
  mk (TenantID r) (MaxGPUs r) (MaxVRAMMB r) (MaxWorkloads r) (Priority r) (UsedGPUs r)
     (UsedVRAMMB r) (UsedWorkloads r) (CreatedAt r) v.
End GPUQuota.
(** [models.QuotaUsage] *)
Module QuotaUsage.
Record t := mk {
  TenantID : string; UsedGPUs : Z; UsedVRAMMB : Z; UsedWorkloads : Z; MaxGPUs : Z;
  MaxVRAMMB : Z; MaxWorkloads : Z; UpdatedAt : time;
}.

End QuotaUsage.
(** [models.NodeResource] *)
Module NodeResource.
Record t := mk {
  NodeID : string; Status : string; TotalGPUs : Z; AvailableGPUs : Z; AllocatedGPUs : Z;
  TotalVRAMMB : Z; AvailableVRAMMB : Z; AllocatedVRAMMB : Z;
}.

End NodeResource.

Inductive gpu_error :=
  | ErrNodeNotFound
  | ErrNodeAlreadyExists
  | ErrNodeInvalid
  | ErrWorkloadNotFound
  | ErrWorkloadInvalid
  | ErrInvalidStateTransition
  | ErrQuotaNotFound
  | ErrQuotaExceeded
  | ErrInvalidQuota
  | ErrNoSuitableNode
  | ErrInvalidPolicy.

(** ** Nodes ([node.Manager]) *)

Definition sum_i64 (l : list Z) : Z := foldl (fun a x => wrap_i64 (a + x)) 0%Z l.

Module NodeManager.
Record t := mk { nodes : gmap string GPUNode.t }.
Definition NewManager : t := mk ∅.

Definition computeTotalVRAM (gpus : list GPUInfo.t) : Z := sum_i64 (GPUInfo.VRAMMB <$> gpus).

(** [uuid] is the identifier that is generated for a node without one. *)
Definition Register (uuid : string) (now : time) (node : GPUNode.t) (m : t) : t * result gpu_error GPUNode.t :=
  if GPUNode.Name node == "" then (m, Err ErrNodeInvalid)
  else
    match nodes m !! GPUNode.ID node with
    | Some _ => (m, Err ErrNodeAlreadyExists)
    | None =>
        let node := if GPUNode.ID node == "" then GPUNode.set_ID uuid node else node in
        let node := GPUNode.set_Status NodeStatusOnline node in
        let node := GPUNode.set_LastHeartbeat now (GPUNode.set_UpdatedAt now (GPUNode.set_CreatedAt now node)) in
        let node := GPUNode.set_TotalVRAMMB (computeTotalVRAM (GPUNode.GPUs node)) node in
        (mk (<[GPUNode.ID node := node]> (nodes m)), Ok node)
    end.

Definition Get (id : string) (m : t) : result gpu_error GPUNode.t :=
  match nodes m !! id with Some n => Ok n | None => Err ErrNodeNotFound end.

Definition List (range : gmap string GPUNode.t -> list GPUNode.t) (m : t) : list GPUNode.t := range (nodes m).

Definition Update (now : time) (node : GPUNode.t) (m : t) : t * option gpu_error :=
  if GPUNode.ID node == "" then (m, Some ErrNodeInvalid)
  else
    match nodes m !! GPUNode.ID node with
    | None => (m, Some ErrNodeNotFound)
    | Some old =>
        let node := GPUNode.set_UpdatedAt now (GPUNode.set_CreatedAt (GPUNode.CreatedAt old) node) in
        let node := GPUNode.set_TotalVRAMMB (computeTotalVRAM (GPUNode.GPUs node)) node in
        (mk (<[GPUNode.ID node := node]> (nodes m)), None)
    end.

Definition Unregister (id : string) (m : t) : t * option gpu_error :=
  match nodes m !! id with
  | None => (m, Some ErrNodeNotFound)
  | Some _ => (mk (delete id (nodes m)), None)
  end.

Definition UpdateHeartbeat (now : time) (id : string) (m : t) : t * option gpu_error :=
  match nodes m !! id with
  | None => (m, Some ErrNodeNotFound)
  | Some node => (mk (<[id := GPUNode.set_LastHeartbeat now node]> (nodes m)), None)
  end.

Definition GetHealth (now : time) (id : string) (m : t) : result gpu_error NodeHealth.t :=
  match nodes m !! id with
  | None => Err ErrNodeNotFound
  | Some node =>
      Ok (NodeHealth.mk id (GPUNode.Status node) (GPUNode.GPUErrors node)
        ((if GPUNode.Status node == NodeStatusOffline then ["node is offline"] else []) ++
         (if (Sub now (GPUNode.LastHeartbeat node) >? 2 * minute)%Z then ["heartbeat timeout"] else []) ++
         (if (GPUNode.GPUErrors node >? 0)%Z then ["GPU errors detected"] else [])))
  end.

Definition SetNodeStatus (now : time) (id status : string) (m : t) : t * option gpu_error :=
  match nodes m !! id with
  | None => (m, Some ErrNodeNotFound)
  | Some node => (mk (<[id := GPUNode.set_UpdatedAt now (GPUNode.set_Status status node)]> (nodes m)), None)
  end.

Definition GetOnlineNodes (range : gmap string GPUNode.t -> list GPUNode.t) (m : t) : list GPUNode.t :=
  List.filter (fun n => GPUNode.Status n == NodeStatusOnline) (range (nodes m)).
End NodeManager.

(** ** Workloads ([workload.Manager]) *)

Module WorkloadManager.
Record t := mk { workloads : gmap string Workload.t }.
Definition NewManager : t := mk ∅.

(** [validTransitions]; an unknown state has none. *)
Definition validTransitions (from : string) : list string :=
  if from == WorkloadStatusPending
  then [WorkloadStatusScheduling; WorkloadStatusRunning; WorkloadStatusCompleted; WorkloadStatusFailed; WorkloadStatusCancelled]
  else if from == WorkloadStatusScheduling
  then [WorkloadStatusRunning; WorkloadStatusFailed; WorkloadStatusCancelled]
  else if from == WorkloadStatusRunning
  then [WorkloadStatusCompleted; WorkloadStatusFailed; WorkloadStatusCancelled]
  else [].

Definition isValidTransition (from to : string) : bool := existsb (fun s => s == to) (validTransitions from).

Definition Submit (uuid : string) (now : time) (wl : Workload.t) (m : t) : t * result gpu_error Workload.t :=
  if (Workload.Name wl == "") || (Workload.TenantID wl == "") then (m, Err ErrWorkloadInvalid)
  else
    match workloads m !! Workload.ID wl with
    | Some _ => (m, Err ErrWorkloadInvalid)
    | None =>
        let wl := if Workload.ID wl == "" then Workload.set_ID uuid wl else wl in
        let wl := Workload.set_Status WorkloadStatusPending wl in
        let wl := Workload.set_UpdatedAt now (Workload.set_CreatedAt now wl) in
        let wl := if (Workload.Replicas wl <? 1)%Z then Workload.set_Replicas 1 wl else wl in
        (mk (<[Workload.ID wl := wl]> (workloads m)), Ok wl)
    end.

Definition Get (id : string) (m : t) : result gpu_error Workload.t :=
  match workloads m !! id with Some wl => Ok wl | None => Err ErrWorkloadNotFound end.

Definition List (range : gmap string Workload.t -> list Workload.t) (status : string) (m : t) : list Workload.t :=
  stable_sort (fun a b => After (Workload.CreatedAt a) (Workload.CreatedAt b))
    (List.filter (fun wl => negb ((status != "") && (Workload.Status wl != status))) (range (workloads m))).

Definition Update (now : time) (wl : Workload.t) (m : t) : t * option gpu_error :=
  if Workload.ID wl == "" then (m, Some ErrWorkloadInvalid)
  else
    match workloads m !! Workload.ID wl with
    | None => (m, Some ErrWorkloadNotFound)
    | Some old =>
        let changes := (Workload.Status wl != "") && (Workload.Status wl != Workload.Status old) in
        if changes && negb (isValidTransition (Workload.Status old) (Workload.Status wl))
        then (m, Some ErrInvalidStateTransition)
        else
          let wl := if changes then wl else Workload.set_Status (Workload.Status old) wl in
          let wl := Workload.set_CreatedAt (Workload.CreatedAt old) (Workload.set_UpdatedAt now wl) in
          (mk (<[Workload.ID wl := wl]> (workloads m)), None)
    end.

(** The common shape of the operations that move a workload to state [to]. *)
Definition transition (id to : string) (change : Workload.t -> Workload.t) (m : t) : t * option gpu_error :=
  match workloads m !! id with
  | None => (m, Some ErrWorkloadNotFound)
  | Some wl =>
      if negb (isValidTransition (Workload.Status wl) to) then (m, Some ErrInvalidStateTransition)
      else (mk (<[id := change (Workload.set_Status to wl)]> (workloads m)), None)
  end.

Definition finish (now : time) (wl : Workload.t) : Workload.t :=
  Workload.set_FinishedAt (Some now) (Workload.set_UpdatedAt now wl).

Definition Cancel (now : time) (id : string) (m : t) : t * option gpu_error :=
  transition id WorkloadStatusCancelled (finish now) m.

Definition Scale (now : time) (id : string) (replicas : Z) (m : t) : t * option gpu_error :=
  if (replicas <? 0)%Z then (m, Some ErrWorkloadInvalid)
  else
    match workloads m !! id with
    | None => (m, Some ErrWorkloadNotFound)
    | Some wl => (mk (<[id := Workload.set_UpdatedAt now (Workload.set_Replicas replicas wl)]> (workloads m)), None)
    end.

Definition AssignNode (now : time) (id : string) (nodeIDs : list string) (m : t) : t * option gpu_error :=
  transition id WorkloadStatusRunning (fun wl =>
    Workload.set_StartedAt (Some now) (Workload.set_UpdatedAt now (Workload.set_NodeIDs nodeIDs wl))) m.

Definition MarkCompleted (now : time) (id : string) (m : t) : t * option gpu_error :=
  transition id WorkloadStatusCompleted (finish now) m.

Definition MarkFailed (now : time) (id errMsg : string) (m : t) : t * option gpu_error :=
  transition id WorkloadStatusFailed (fun wl => finish now (Workload.set_ErrorMsg errMsg wl)) m.

Definition GetRunningWorkloads (range : gmap string Workload.t -> list Workload.t) (m : t) : list Workload.t :=
  List range WorkloadStatusRunning m.
Definition GetPendingWorkloads (range : gmap string Workload.t -> list Workload.t) (m : t) : list Workload.t :=
  List range WorkloadStatusPending m.
End WorkloadManager.

(** ** Quotas ([quota.Manager]) *)

Module QuotaManager.
Record t := mk { quotas : gmap string GPUQuota.t }.
Definition NewManager : t := mk ∅.

Definition SetQuota (now : time) (quota : GPUQuota.t) (m : t) : t * option gpu_error :=
  if GPUQuota.TenantID quota == "" then (m, Some ErrInvalidQuota)
  else if (GPUQuota.MaxGPUs quota <? 0)%Z || (GPUQuota.MaxVRAMMB quota <? 0)%Z || (GPUQuota.MaxWorkloads quota <? 0)%Z
  then (m, Some ErrInvalidQuota)
  else
    let quota := GPUQuota.set_UpdatedAt now quota in
    let quota :=
      match quotas m !! GPUQuota.TenantID quota with
      | Some existing => GPUQuota.set_CreatedAt (GPUQuota.CreatedAt existing) quota
      | None => GPUQuota.set_CreatedAt now quota
      end in
    (mk (<[GPUQuota.TenantID quota := quota]> (quotas m)), None).

Definition GetQuota (tenantID : string) (m : t) : result gpu_error GPUQuota.t :=
  match quotas m !! tenantID with Some q => Ok q | None => Err ErrQuotaNotFound end.

Definition ListQuotas (range : gmap string GPUQuota.t -> list GPUQuota.t) (m : t) : list GPUQuota.t := range (quotas m).

Definition DeleteQuota (tenantID : string) (m : t) : t * option gpu_error :=
  match quotas m !! tenantID with
  | None => (m, Some ErrQuotaNotFound)
  | Some _ => (mk (delete tenantID (quotas m)), None)
  end.

Definition CheckAllocation (tenantID : string) (gpuCount vramMB workloads : Z) (m : t) : option gpu_error :=
  match quotas m !! tenantID with
  | None => None
  | Some q =>
      if (wrap_i64 (GPUQuota.UsedGPUs q + gpuCount) >? GPUQuota.MaxGPUs q)%Z then Some ErrQuotaExceeded
      else if (wrap_i64 (GPUQuota.UsedVRAMMB q + vramMB) >? GPUQuota.MaxVRAMMB q)%Z then Some ErrQuotaExceeded
      else if (wrap_i64 (GPUQuota.UsedWorkloads q + workloads) >? GPUQuota.MaxWorkloads q)%Z then Some ErrQuotaExceeded
      else None
  end.

(** Change the used amounts of a tenant that has a quota. *)
Definition change_used (now : time) (tenantID : string) (gpus vram workloads : Z -> Z) (m : t) : t :=
  match quotas m !! tenantID with
  | None => m
  | Some q =>
      let q := GPUQuota.set_UsedGPUs (gpus (GPUQuota.UsedGPUs q)) q in
      let q := GPUQuota.set_UsedVRAMMB (vram (GPUQuota.UsedVRAMMB q)) q in
      let q := GPUQuota.set_UsedWorkloads (workloads (GPUQuota.UsedWorkloads q)) q in
      mk (<[tenantID := GPUQuota.set_UpdatedAt now q]> (quotas m))
  end.

Definition more (n used : Z) : Z := wrap_i64 (used + n).
Definition less (n used : Z) : Z := let used := wrap_i64 (used - n) in if (used <? 0)%Z then 0%Z else used.

Definition RecordAllocation (now : time) (tenantID : string) (gpuCount vramMB workloads : Z) (m : t) : t :=
  change_used now tenantID (more gpuCount) (more vramMB) (more workloads) m.
Definition ReleaseAllocation (now : time) (tenantID : string) (gpuCount vramMB workloads : Z) (m : t) : t :=
  change_used now tenantID (less gpuCount) (less vramMB) (less workloads) m.

Definition GetUsage (tenantID : string) (m : t) : result gpu_error QuotaUsage.t :=
  match quotas m !! tenantID with
  | None => Err ErrQuotaNotFound
  | Some q => Ok (QuotaUsage.mk (GPUQuota.TenantID q) (GPUQuota.UsedGPUs q) (GPUQuota.UsedVRAMMB q)
      (GPUQuota.UsedWorkloads q) (GPUQuota.MaxGPUs q) (GPUQuota.MaxVRAMMB q) (GPUQuota.MaxWorkloads q) (GPUQuota.UpdatedAt q))
  end.
End QuotaManager.

(** ** The scheduler ([scheduler.Scheduler]) *)

Module Scheduler.
Record t := mk { policies : list SchedulingPolicy.t }.

Definition defaultPolicies : list SchedulingPolicy.t :=
  [SchedulingPolicy.mk "bin-packing" "bin_packing" true ∅ 10 8; SchedulingPolicy.mk "priority-scheduling" "priority" true ∅ 5 8].
Definition NewScheduler : t := mk defaultPolicies.

Definition valid_type (ty : string) : bool :=
  (ty == "bin_packing") || (ty == "spreading") || (ty == "affinity") || (ty == "anti-affinity") || (ty == "priority").

Definition SetPolicies (ps : list SchedulingPolicy.t) (s : t) : t * option gpu_error :=
  if forallb (fun p => valid_type (SchedulingPolicy.Type_ p)) ps then (mk ps, None) else (s, Some ErrInvalidPolicy).

Definition GetQueue (pending : list Workload.t) : list Workload.t :=
  stable_sort (fun a b =>
    if Workload.Priority a != Workload.Priority b then (Workload.Priority a >? Workload.Priority b)%Z
    else Before (Workload.CreatedAt a) (Workload.CreatedAt b)) pending.

Definition AssignNodeResources (now : time) (vramMB : Z) (node : GPUNode.t) : GPUNode.t * bool :=
  if (vramMB <=? 0)%Z then (node, false)
  else if (wrap_i64 (GPUNode.UsedVRAMMB node + vramMB) >? GPUNode.TotalVRAMMB node)%Z then (node, false)
  else (GPUNode.set_UpdatedAt now (GPUNode.set_UsedVRAMMB (wrap_i64 (GPUNode.UsedVRAMMB node + vramMB)) node), true).

Definition ReleaseNodeResources (now : time) (vramMB : Z) (node : GPUNode.t) : GPUNode.t :=
  if (vramMB <=? 0)%Z then node
  else
    let used := wrap_i64 (GPUNode.UsedVRAMMB node - vramMB) in
    GPUNode.set_UpdatedAt now (GPUNode.set_UsedVRAMMB (if (used <? 0)%Z then 0%Z else used) node).

(** The enabled policy of the greatest weight, the first one of equals. *)
Definition activePolicy (s : t) : option SchedulingPolicy.t :=
  foldl (fun best p =>
    if SchedulingPolicy.Enabled p then
      match best with
      | None => Some p
      | Some b => if (SchedulingPolicy.PriorityWeight p >? SchedulingPolicy.PriorityWeight b)%Z then Some p else best
      end
    else best) None (policies s).

Definition gpu_count (n : GPUNode.t) : Z := Z.of_nat (length (GPUNode.GPUs n)).

Definition countAllocated (n : GPUNode.t) : Z :=
  if (gpu_count n =? 0)%Z then 0%Z
  else
    let vramPerGPU := Z.quot (GPUNode.TotalVRAMMB n) (gpu_count n) in
    if (vramPerGPU =? 0)%Z then 0%Z
    else
      let allocated := wrap_i64 (Z.quot (GPUNode.UsedVRAMMB n) vramPerGPU) in
      if (allocated >? gpu_count n)%Z then gpu_count n else allocated.

Definition availableGPUs (n : GPUNode.t) : Z := wrap_i64 (gpu_count n - countAllocated n).

Definition hasSufficientVRAM (n : GPUNode.t) (minVRAMMB : Z) : bool :=
  (wrap_i64 (GPUNode.TotalVRAMMB n - GPUNode.UsedVRAMMB n) >=? minVRAMMB)%Z.

Definition matchLabels (nodeLabels : option (gmap string string)) (policyLabels : gmap string string) : bool :=
  if size policyLabels == 0 then true
  else
    match nodeLabels with
    | None => false
    | Some ls => forallb (fun kv : string * string => default "" (ls !! kv.1) == kv.2) (map_to_list policyLabels)
    end.

Definition nodeHasGPUModel (n : GPUNode.t) (model : string) : bool :=
  existsb (fun g => GPUInfo.Model g == model) (GPUNode.GPUs n).

(** The checks that depend on the policy. *)
Definition policy_admits (p : SchedulingPolicy.t) (count : Z) (n : GPUNode.t) : bool :=
  let labelled := negb (size (SchedulingPolicy.Labels p) == 0) in
  let matches := matchLabels (GPUNode.Labels n) (SchedulingPolicy.Labels p) in
  if (SchedulingPolicy.MaxGPUsPerNode p >? 0)%Z && (count >? SchedulingPolicy.MaxGPUsPerNode p)%Z then false
  else if labelled && negb matches then false
  else if (SchedulingPolicy.Type_ p == "affinity") && labelled && negb matches then false
  else if (SchedulingPolicy.Type_ p == "anti-affinity") && labelled && matches then false
  else true.

(** Whether a node passes the loop of [filterAndSortNodes]. *)
Definition eligible (w : Workload.t) (policy : option SchedulingPolicy.t) (n : GPUNode.t) : bool :=
  let req := Workload.GPURequest w in
  if (availableGPUs n <? GPURequest.Count req)%Z then false
  else if (GPURequest.MinVRAMMB req >? 0)%Z && negb (hasSufficientVRAM n (GPURequest.MinVRAMMB req)) then false
  else if negb (match policy with Some p => policy_admits p (GPURequest.Count req) n | None => true end) then false
  else if (GPURequest.GPUModel req != "") && negb (nodeHasGPUModel n (GPURequest.GPUModel req)) then false
  else true.

(** Which of two nodes comes first. *)
Definition node_before (policy : option SchedulingPolicy.t) (a b : GPUNode.t) : bool :=
  match SchedulingPolicy.Type_ <$> policy with
  | Some "bin_packing" => (GPUNode.UsedVRAMMB a >? GPUNode.UsedVRAMMB b)%Z
  | Some "spreading" => (GPUNode.UsedVRAMMB a <? GPUNode.UsedVRAMMB b)%Z
  | Some "priority" =>
      (wrap_i64 (GPUNode.TotalVRAMMB a - GPUNode.UsedVRAMMB a) >?
       wrap_i64 (GPUNode.TotalVRAMMB b - GPUNode.UsedVRAMMB b))%Z
  | _ => (gpu_count a >? gpu_count b)%Z
  end.

Definition filterAndSortNodes (nodes : list GPUNode.t) (w : Workload.t) (policy : option SchedulingPolicy.t)
  : list GPUNode.t :=
  stable_sort (node_before policy) (List.filter (eligible w policy) nodes).

(** The loop of [selectNodes]: the chosen nodes and the GPUs still missing. *)
Fixpoint select_loop (nodes : list GPUNode.t) (gpusNeeded : Z) (selected : list string) : list string * Z :=
  match nodes with
  | [] => (selected, gpusNeeded)
  | n :: nodes =>
      if (availableGPUs n <=? 0)%Z then select_loop nodes gpusNeeded selected
      else
        let gpusNeeded := wrap_i64 (gpusNeeded - availableGPUs n) in
        if (gpusNeeded <=? 0)%Z then (selected ++ [GPUNode.ID n], gpusNeeded)
        else select_loop nodes gpusNeeded (selected ++ [GPUNode.ID n])
  end.

Definition selectNodes (nodes : list GPUNode.t) (w : Workload.t) : list string :=
  let (selected, gpusNeeded) := select_loop nodes (GPURequest.Count (Workload.GPURequest w)) [] in
  if (gpusNeeded >? 0)%Z then [] else selected.

(** The result, and whether [ErrNoSuitableNode] comes with it. *)
Definition Schedule (w : Workload.t) (nodes : list GPUNode.t) (s : t) : ScheduleResult.t * option gpu_error :=
  let fails reason := (ScheduleResult.mk (Workload.ID w) false [] reason, Some ErrNoSuitableNode) in
  match nodes with
  | [] => fails "no online nodes available"
  | _ =>
      match filterAndSortNodes nodes w (activePolicy s) with
      | [] => fails "no nodes with sufficient GPU resources"
      | candidates =>
          match selectNodes candidates w with
          | [] => fails "could not allocate GPUs on any node"
          | selected => (ScheduleResult.mk (Workload.ID w) true selected "", None)
          end
      end
  end.
End Scheduler.

(** ** The service ([service.Service]) *)

Module Service.
Record t := mk {
  nodes : NodeManager.t; scheduler : Scheduler.t; workloads : WorkloadManager.t; quotas : QuotaManager.t }.
Definition NewService : t := mk NodeManager.NewManager Scheduler.NewScheduler WorkloadManager.NewManager QuotaManager.NewManager.

Definition set_nodes v s := mk v (scheduler s) (workloads s) (quotas s).
Definition set_scheduler v s := mk (nodes s) v (workloads s) (quotas s).
Definition set_workloads v s := mk (nodes s) (scheduler s) v (quotas s).
Definition set_quotas v s := mk (nodes s) (scheduler s) (workloads s) v.

Definition RegisterNode (uuid : string) (now : time) (n : GPUNode.t) (s : t) : t * result gpu_error GPUNode.t :=
  let (m, r) := NodeManager.Register uuid now n (nodes s) in (set_nodes m s, r).
Definition UpdateNode (now : time) (n : GPUNode.t) (s : t) : t * option gpu_error :=
  let (m, e) := NodeManager.Update now n (nodes s) in (set_nodes m s, e).
Definition UnregisterNode (id : string) (s : t) : t * option gpu_error :=
  let (m, e) := NodeManager.Unregister id (nodes s) in (set_nodes m s, e).

(** What [GetResourceSummary] reports of one node. *)
Definition node_resource (n : GPUNode.t) : NodeResource.t :=
  let gpuCount := Scheduler.gpu_count n in
  let available := (gpuCount - Z.quot (GPUNode.UsedVRAMMB n) (81920 + 1))%Z in
  let available := if (available <? 0)%Z then 0%Z else available in
  NodeResource.mk (GPUNode.ID n) (GPUNode.Status n) gpuCount available (gpuCount - available)%Z (GPUNode.TotalVRAMMB n)
    (wrap_i64 (GPUNode.TotalVRAMMB n - GPUNode.UsedVRAMMB n)) (GPUNode.UsedVRAMMB n).

Definition GetNodeResources (range : gmap string GPUNode.t -> list GPUNode.t) (s : t) : list NodeResource.t :=
  node_resource <$> NodeManager.List range (nodes s).

Definition SubmitWorkload (uuid : string) (now : time) (wl : Workload.t) (s : t) : t * result gpu_error Workload.t :=
  let req := Workload.GPURequest wl in
  match QuotaManager.CheckAllocation (Workload.TenantID wl) (GPURequest.Count req) (GPURequest.MinVRAMMB req) 1 (quotas s) with
  | Some e => (s, Err e)
  | None => let (m, r) := WorkloadManager.Submit uuid now wl (workloads s) in (set_workloads m s, r)
  end.

Definition UpdateWorkload (now : time) (wl : Workload.t) (s : t) : t * option gpu_error :=
  let (m, e) := WorkloadManager.Update now wl (workloads s) in (set_workloads m s, e).
Definition ScaleWorkload (now : time) (id : string) (replicas : Z) (s : t) : t * option gpu_error :=
  let (m, e) := WorkloadManager.Scale now id replicas (workloads s) in (set_workloads m s, e).

(** [vramPerWorkload] *)
Definition vram_of (wl : Workload.t) : Z :=
  let vram := GPURequest.MinVRAMMB (Workload.GPURequest wl) in if (vram <=? 0)%Z then 4096%Z else vram.

(** [nodes.Get], a change of the copy, [nodes.Update]; errors are logged. *)
Definition change_node (now : time) (change : GPUNode.t -> GPUNode.t) (m : NodeManager.t) (nodeID : string) : NodeManager.t :=
  match NodeManager.Get nodeID m with
  | Ok n => (NodeManager.Update now (change n) m).1
  | Err _ => m
  end.

(** The second half of the operations that end a workload; [wl] is the copy
    that was read before. *)
Definition release (now : time) (wl : Workload.t) (s : t) : t :=
  let req := Workload.GPURequest wl in
  let s := set_nodes (foldl (change_node now (Scheduler.ReleaseNodeResources now (vram_of wl))) (nodes s) (Workload.NodeIDs wl)) s in
  set_quotas (QuotaManager.ReleaseAllocation now (Workload.TenantID wl) (GPURequest.Count req) (GPURequest.MinVRAMMB req) 1 (quotas s)) s.

(** [Get], the transition, then the release of what the workload holds. *)
Definition end_workload (now : time) (id : string) (step : WorkloadManager.t -> WorkloadManager.t * option gpu_error) (s : t)
  : t * option gpu_error :=
  match WorkloadManager.Get id (workloads s) with
  | Err e => (s, Some e)
  | Ok wl =>
      match step (workloads s) with
      | (m, Some e) => (set_workloads m s, Some e)
      | (m, None) => (release now wl (set_workloads m s), None)
      end
  end.

Definition CancelWorkload (now : time) (id : string) : t -> t * option gpu_error :=
  end_workload now id (WorkloadManager.Cancel now id).
Definition CompleteWorkload (now : time) (id : string) : t -> t * option gpu_error :=
  end_workload now id (WorkloadManager.MarkCompleted now id).
Definition FailWorkload (now : time) (id errMsg : string) : t -> t * option gpu_error :=
  end_workload now id (WorkloadManager.MarkFailed now id errMsg).

(** One turn of [TriggerScheduling]; [wl] is the copy in the list of pending
    workloads, which was made before the loop. *)
Definition schedule_one (range : gmap string GPUNode.t -> list GPUNode.t) (now : time) (wl : Workload.t) (s : t)
  : t * ScheduleResult.t :=
  let (result, _) := Scheduler.Schedule wl (NodeManager.GetOnlineNodes range (nodes s)) (scheduler s) in
  if ScheduleResult.Assigned result then
    let req := Workload.GPURequest wl in
    let s := set_workloads (WorkloadManager.AssignNode now (Workload.ID wl) (ScheduleResult.NodeIDs result) (workloads s)).1 s in
    let s := set_nodes (foldl (change_node now (fun n => (Scheduler.AssignNodeResources now (vram_of wl) n).1))
               (nodes s) (ScheduleResult.NodeIDs result)) s in
    let s := set_quotas (QuotaManager.RecordAllocation now (Workload.TenantID wl) (GPURequest.Count req)
               (GPURequest.MinVRAMMB req) 1 (quotas s)) s in
    (s, result)
  else (s, result).

Definition TriggerScheduling (range : gmap string GPUNode.t -> list GPUNode.t)
    (rangeW : gmap string Workload.t -> list Workload.t) (now : time) (s : t) : t * list ScheduleResult.t :=
  foldl (fun (st : t * list ScheduleResult.t) wl =>
    let (s, result) := schedule_one range now wl st.1 in (s, st.2 ++ [result]))
    (s, []) (WorkloadManager.GetPendingWorkloads rangeW (workloads s)).

Definition SetSchedulingPolicies (ps : list SchedulingPolicy.t) (s : t) : t * option gpu_error :=
  let (m, e) := Scheduler.SetPolicies ps (scheduler s) in (set_scheduler m s, e).
Definition GetScheduleQueue (rangeW : gmap string Workload.t -> list Workload.t) (s : t) : list Workload.t :=
  Scheduler.GetQueue (WorkloadManager.GetPendingWorkloads rangeW (workloads s)).
Definition SetQuota (now : time) (q : GPUQuota.t) (s : t) : t * option gpu_error :=
  let (m, e) := QuotaManager.SetQuota now q (quotas s) in (set_quotas m s, e).
Definition GetQuotaUsage (tenantID : string) (s : t) : result gpu_error QuotaUsage.t :=
  QuotaManager.GetUsage tenantID (quotas s).
End Service.
