(* ===== verification/GpuProps.v ===== *)
(** * Properties of the GPU service

    The life cycle of workloads and the accounting of video memory, under every
    sequence of operations of the service; where a workload is placed; and what
    goes wrong with quotas, with policies and with the number of GPUs. *)

From Stdlib Require Import Ascii.
From S2P Require Import Prelude Gpu.
Import Service.
Open Scope go_scope.

(** ** The service as a transition system *)

Inductive op :=
  | ORegister (uuid : string) (now : time) (n : GPUNode.t)
  | OUpdateNode (now : time) (n : GPUNode.t)
  | OUnregister (id : string)
  | OHeartbeat (now : time) (id : string)
  | ONodeStatus (now : time) (id status : string)
  | OSubmit (uuid : string) (now : time) (w : Workload.t)
  | OUpdateWorkload (now : time) (w : Workload.t)
  | OScale (now : time) (id : string) (replicas : Z)
  | OCancel (now : time) (id : string)
  | OComplete (now : time) (id : string)
  | OFail (now : time) (id errMsg : string)
  | OTrigger (range : gmap string GPUNode.t -> list GPUNode.t) (rangeW : gmap string Workload.t -> list Workload.t) (now : time)
  | OPolicies (ps : list SchedulingPolicy.t)
  | OSetQuota (now : time) (q : GPUQuota.t).

Definition exec (o : op) (s : t) : t :=
  match o with
  | ORegister uuid now n => (RegisterNode uuid now n s).1
  | OUpdateNode now n => (UpdateNode now n s).1
  | OUnregister id => (UnregisterNode id s).1
  | OHeartbeat now id => set_nodes (NodeManager.UpdateHeartbeat now id (nodes s)).1 s
  | ONodeStatus now id st => set_nodes (NodeManager.SetNodeStatus now id st (nodes s)).1 s
  | OSubmit uuid now w => (SubmitWorkload uuid now w s).1
  | OUpdateWorkload now w => (UpdateWorkload now w s).1
  | OScale now id n => (ScaleWorkload now id n s).1
  | OCancel now id => (CancelWorkload now id s).1
  | OComplete now id => (CompleteWorkload now id s).1
  | OFail now id msg => (FailWorkload now id msg s).1
  | OTrigger range rangeW now => (TriggerScheduling range rangeW now s).1
  | OPolicies ps => (SetSchedulingPolicies ps s).1
  | OSetQuota now q => (SetQuota now q s).1
  end.

(** ** The life cycle of workloads *)

Definition wl_step (a b : string) : Prop := WorkloadManager.isValidTransition a b = true.

(** Workloads are never lost and move along the life cycle. *)
Definition moves (m m' : WorkloadManager.t) : Prop :=
  forall id w, WorkloadManager.workloads m !! id = Some w ->
  exists w', WorkloadManager.workloads m' !! id = Some w' /\ rtc wl_step (Workload.Status w) (Workload.Status w').

Lemma moves_refl m : moves m m.
Proof. intros id w H. exists w. split; [done | apply rtc_refl]. Qed.

Lemma gpu_moves_trans m1 m2 m3 : moves m1 m2 -> moves m2 m3 -> moves m1 m3.
Proof.
  intros H1 H2 id w (w2 & Hw2 & R1)%H1. apply H2 in Hw2 as (w3 & Hw3 & R2). exists w3. split; [done | by etrans].
Qed.

(** Replacing the workload under a key. *)
Lemma moves_insert m id w' :
  (forall w, WorkloadManager.workloads m !! id = Some w -> rtc wl_step (Workload.Status w) (Workload.Status w')) ->
  moves m (WorkloadManager.mk (<[id := w']> (WorkloadManager.workloads m))).
Proof.
  intros H id0 w Hw. cbn. destruct (decide (id = id0)) as [<- | Hne].
  - exists w'. rewrite lookup_insert_eq. split; [done | by apply H].
  - exists w. rewrite lookup_insert_ne by done. split; [done | apply rtc_refl].
Qed.

Lemma transition_moves id to change m :
  (forall w, Workload.Status (change w) = Workload.Status w) -> moves m (WorkloadManager.transition id to change m).1.
Proof.
  intros Hc. unfold WorkloadManager.transition. destruct (WorkloadManager.workloads m !! id) as [w |] eqn:Hw; [| apply moves_refl].
  destruct (WorkloadManager.isValidTransition (Workload.Status w) to) eqn:Hv; [| apply moves_refl].
  cbn. apply moves_insert. intros w0 Hw0. rewrite Hw in Hw0. injection Hw0 as <-. rewrite Hc. by apply rtc_once.
Qed.

Lemma Update_moves now w m : moves m (WorkloadManager.Update now w m).1.
Proof.
  unfold WorkloadManager.Update. case_bool_decide; [apply moves_refl |].
  destruct (WorkloadManager.workloads m !! Workload.ID w) as [old |] eqn:Hold; [| apply moves_refl].
  set (changes := (_ != "") && (_ != _)). destruct changes eqn:Hch; cbn [andb].
  - destruct (WorkloadManager.isValidTransition _ _) eqn:Hv; [| apply moves_refl]. cbn. apply moves_insert.
    intros w0 Hw0. rewrite Hold in Hw0. injection Hw0 as <-. by apply rtc_once.
  - cbn. apply moves_insert. intros w0 Hw0. rewrite Hold in Hw0. injection Hw0 as <-. apply rtc_refl.
Qed.

Lemma Submit_moves uuid now w m :
  WorkloadManager.workloads m !! uuid = None -> moves m (WorkloadManager.Submit uuid now w m).1.
Proof.
  intros Hfresh. unfold WorkloadManager.Submit. destruct (_ || _); [apply moves_refl |].
  destruct (WorkloadManager.workloads m !! Workload.ID w) as [old |] eqn:Hold; [apply moves_refl |].
  cbn. apply moves_insert. intros w0 Hw0. exfalso.
  enough (WorkloadManager.workloads m !! (if Workload.ID w == "" then uuid else Workload.ID w) = Some w0) as H
    by (destruct (Workload.ID w == ""); congruence).
  rewrite <- Hw0. f_equal. destruct (Workload.ID w == ""); by destruct (_ <? 1)%Z.
Qed.

Lemma Scale_moves now id n m : moves m (WorkloadManager.Scale now id n m).1.
Proof.
  unfold WorkloadManager.Scale. destruct (n <? 0)%Z; [apply moves_refl |].
  destruct (WorkloadManager.workloads m !! id) as [w |] eqn:Hw; [| apply moves_refl]. cbn. apply moves_insert.
  intros w0 Hw0. rewrite Hw in Hw0. injection Hw0 as <-. apply rtc_refl.
Qed.

Lemma end_workload_moves now id step s :
  moves (workloads s) (step (workloads s)).1 -> moves (workloads s) (workloads (end_workload now id step s).1).
Proof.
  intros H. unfold end_workload. destruct (WorkloadManager.Get id (workloads s)); [| apply moves_refl].
  by destruct (step (workloads s)) as [m [e |]].
Qed.

Lemma schedule_one_moves range now w s : moves (workloads s) (workloads (schedule_one range now w s).1).
Proof.
  unfold schedule_one. destruct (Scheduler.Schedule _ _ _) as [r e]. destruct (ScheduleResult.Assigned r); [| apply moves_refl].
  cbn. by apply transition_moves.
Qed.

(** An invariant of every turn is one of the loop. *)
Lemma Trigger_ind (P : t -> Prop) range rangeW now s :
  (forall s' w, w ∈ WorkloadManager.GetPendingWorkloads rangeW (workloads s) -> P s' -> P (schedule_one range now w s').1) ->
  P s -> P (TriggerScheduling range rangeW now s).1.
Proof.
  unfold TriggerScheduling. set (l := WorkloadManager.GetPendingWorkloads _ _). clearbody l. intros Hstep.
  assert (H : forall rs, P s -> P (foldl (fun (st : t * list ScheduleResult.t) wl =>
    let (s, result) := schedule_one range now wl st.1 in (s, st.2 ++ [result])) (s, rs) l).1); [| by apply H].
  revert s Hstep. induction l as [| w l IH]; intros s Hstep rs Hs; [done |]. cbn [foldl fst snd].
  pose proof (Hstep s w ltac:(left) Hs) as Hs'. destruct (schedule_one range now w s). apply IH; [| done].
  intros s' w' Hw'. apply Hstep. by right.
Qed.

(** The identifiers that are generated are new. *)
Definition new_id (o : op) (s : t) : Prop :=
  match o with OSubmit uuid _ _ => WorkloadManager.workloads (workloads s) !! uuid = None | _ => True end.

Lemma exec_moves o s : new_id o s -> moves (workloads s) (workloads (exec o s)).
Proof.
  destruct o; cbn [exec new_id]; intros Hnew; try (by apply end_workload_moves, transition_moves).
  all: unfold RegisterNode, UpdateNode, UnregisterNode, SubmitWorkload, UpdateWorkload, ScaleWorkload, SetSchedulingPolicies, SetQuota.
  all: repeat match goal with |- context [let (_, _) := ?f in _] => let E := fresh "E" in destruct f eqn:E end; try apply moves_refl.
  - destruct (QuotaManager.CheckAllocation _ _ _ _ _); [apply moves_refl |].
    pose proof (Submit_moves uuid now w _ Hnew) as H. by rewrite E in H.
  - pose proof (Update_moves now w (workloads s)) as H. by rewrite E in H.
  - pose proof (Scale_moves now id replicas (workloads s)) as H. by rewrite E in H.
  - apply (Trigger_ind (fun s' => moves (workloads s) (workloads s'))); [| apply moves_refl].
    intros s' w _ H. eapply gpu_moves_trans; [exact H | apply schedule_one_moves].
Qed.

Fixpoint new_ids (ops : list op) (s : t) : Prop :=
  match ops with [] => True | o :: ops => new_id o s /\ new_ids ops (exec o s) end.

Definition terminal (st : string) : bool :=
  (st == WorkloadStatusCompleted) || (st == WorkloadStatusFailed) || (st == WorkloadStatusCancelled).

Lemma terminal_stays a b : rtc wl_step a b -> terminal a = true -> b = a.
Proof.
  intros [<- | (c & Hs & _)]%rtc_inv Ht; [done |]. exfalso. revert Ht. unfold terminal, wl_step in *.
  rewrite !orb_true_iff, !bool_decide_eq_true. intros [[-> | ->] | ->]; by vm_compute in Hs.
Qed.

(** C24: the life cycle of workloads.  Under every sequence of operations of the
    service in which the generated identifiers are new, a workload that is stored
    stays stored, its state moves along the life cycle only, and once it is
    completed, failed or cancelled it stays so. *)
Theorem workloads_follow_lifecycle ops s id w :
  new_ids ops s -> WorkloadManager.workloads (workloads s) !! id = Some w ->
  exists w', WorkloadManager.workloads (workloads (run exec ops s)) !! id = Some w' /\
    rtc wl_step (Workload.Status w) (Workload.Status w') /\
    (terminal (Workload.Status w) = true -> Workload.Status w' = Workload.Status w).
Proof.
  intros Hnew Hw. assert (H : moves (workloads s) (workloads (run exec ops s))).
  { clear Hw. revert s Hnew. induction ops as [| o ops IH]; intros s Hnew; [apply moves_refl |].
    destruct Hnew as [Ho Hops]. eapply gpu_moves_trans; [by apply exec_moves | by apply IH]. }
  apply H in Hw as (w' & Hw' & R). exists w'. split; [done |]. split; [done | by apply terminal_stays].
Qed.

(** ** Video memory *)

(** The memory in use is part of the memory there is. *)
Definition fits (n : GPUNode.t) : Prop :=
  (0 <= GPUNode.UsedVRAMMB n <= GPUNode.TotalVRAMMB n)%Z /\ (GPUNode.TotalVRAMMB n < 2 ^ 62)%Z.

(** Nodes are stored under their identifiers, and add up their GPUs. *)
Definition sound (m : NodeManager.t) : Prop :=
  forall id n, NodeManager.nodes m !! id = Some n ->
  GPUNode.ID n = id /\ GPUNode.TotalVRAMMB n = NodeManager.computeTotalVRAM (GPUNode.GPUs n) /\ fits n.

(** A node as a client may register it. *)
Definition fit_client (n : GPUNode.t) : Prop :=
  fits (GPUNode.set_TotalVRAMMB (NodeManager.computeTotalVRAM (GPUNode.GPUs n)) n).

Definition small (w : Workload.t) : Prop := (GPURequest.MinVRAMMB (Workload.GPURequest w) < 2 ^ 62)%Z.

Definition all_small (m : WorkloadManager.t) : Prop := map_Forall (fun _ w => small w) (WorkloadManager.workloads m).

Lemma sound_insert m n :
  sound m -> GPUNode.TotalVRAMMB n = NodeManager.computeTotalVRAM (GPUNode.GPUs n) -> fits n ->
  sound (NodeManager.mk (<[GPUNode.ID n := n]> (NodeManager.nodes m))).
Proof. intros Hm Ht Hf id n'. cbn. intros [[<- <-] | [_ H]]%lookup_insert_Some; [done | by apply Hm]. Qed.

Lemma Update_sound now n m : sound m -> fit_client n -> sound (NodeManager.Update now n m).1.
Proof.
  intros Hm Hn. unfold NodeManager.Update. case_bool_decide; [done |].
  destruct (NodeManager.nodes m !! GPUNode.ID n) as [old |]; [| done]. cbn.
  by match goal with |- sound (NodeManager.mk (<[_ := ?n']> _)) => apply (sound_insert m n') end.
Qed.

Lemma Register_sound uuid now n m : sound m -> fit_client n -> sound (NodeManager.Register uuid now n m).1.
Proof.
  intros Hm Hn. unfold NodeManager.Register. case_bool_decide; [done |].
  destruct (NodeManager.nodes m !! GPUNode.ID n) as [old |]; [done |]. cbn.
  match goal with |- sound (NodeManager.mk (<[_ := ?n']> _)) => apply (sound_insert m n') end; [done | |]; by destruct (GPUNode.ID n == "").
Qed.

(** Changes of the memory in use, as the scheduler makes them. *)
Lemma assign_fits now v n :
  fits n -> (v < 2 ^ 62)%Z ->
  let n' := (Scheduler.AssignNodeResources now v n).1 in
  fits n' /\ GPUNode.GPUs n' = GPUNode.GPUs n /\ GPUNode.TotalVRAMMB n' = GPUNode.TotalVRAMMB n.
Proof.
  intros [Hu Ht] Hv. unfold Scheduler.AssignNodeResources. destruct (Z.leb_spec v 0) as [| Hv0]; [done |].
  rewrite wrap_i64_id by (unfold in_i64; lia). rewrite Z.gtb_ltb. destruct (Z.ltb_spec (GPUNode.TotalVRAMMB n) (GPUNode.UsedVRAMMB n + v)); [done |].
  cbn. split; [| done]. split; cbn; lia.
Qed.

Lemma release_fits now v n :
  fits n -> (v < 2 ^ 62)%Z ->
  let n' := Scheduler.ReleaseNodeResources now v n in
  fits n' /\ GPUNode.GPUs n' = GPUNode.GPUs n /\ GPUNode.TotalVRAMMB n' = GPUNode.TotalVRAMMB n.
Proof.
  intros [Hu Ht] Hv. unfold Scheduler.ReleaseNodeResources. destruct (Z.leb_spec v 0) as [| Hv0]; [done |].
  rewrite wrap_i64_id by (unfold in_i64; lia). cbn. split; [| done]. destruct (Z.ltb_spec (GPUNode.UsedVRAMMB n - v) 0); split; cbn; lia.
Qed.

Lemma change_nodes_sound now change ids m :
  (forall n, fits n -> let n' := change n in fits n' /\ GPUNode.GPUs n' = GPUNode.GPUs n /\ GPUNode.TotalVRAMMB n' = GPUNode.TotalVRAMMB n) ->
  sound m -> sound (foldl (change_node now change) m ids).
Proof.
  intros Hc. revert m. induction ids as [| id ids IH]; intros m Hm; [done |]. apply IH. unfold change_node, NodeManager.Get.
  destruct (NodeManager.nodes m !! id) as [n |] eqn:Hn; [| done]. apply Hm in Hn as (_ & Ht & Hf). apply Update_sound; [done |].
  destruct (Hc n Hf) as (Hf' & Hg & Ht'). unfold fit_client. rewrite Hg, <- Ht, <- Ht'. by destruct (change n).
Qed.

Lemma vram_small w : small w -> (vram_of w < 2 ^ 62)%Z.
Proof. unfold small, vram_of. destruct (_ <=? 0)%Z; lia. Qed.

Definition memory_sound (s : t) : Prop := sound (nodes s) /\ all_small (workloads s).

Lemma pending_stored rangeW m w :
  (forall ws v, v ∈ rangeW ws -> exists id, ws !! id = Some v) -> w ∈ WorkloadManager.GetPendingWorkloads rangeW m ->
  exists id, WorkloadManager.workloads m !! id = Some w.
Proof.
  intros Hr Hw. unfold WorkloadManager.GetPendingWorkloads, WorkloadManager.List in Hw.
  apply elem_of_stable_sort in Hw. apply list_elem_of_In, filter_In in Hw as [Hw _]. by apply (Hr _), list_elem_of_In.
Qed.

Lemma transition_small id to change m :
  (forall w, Workload.GPURequest (change w) = Workload.GPURequest w) -> all_small m ->
  all_small (WorkloadManager.transition id to change m).1.
Proof.
  intros Hc Hm. unfold WorkloadManager.transition. destruct (WorkloadManager.workloads m !! id) as [w |] eqn:Hw; [| done].
  destruct (negb _); [done |]. cbn. apply map_Forall_insert_2; [| done]. unfold small. rewrite Hc. cbn. by apply Hm in Hw.
Qed.

Lemma release_sound now w s : small w -> memory_sound s -> memory_sound (release now w s).
Proof.
  intros Hw [Hn Hs]. split; [| done]. cbn. apply change_nodes_sound; [| done]. intros n Hf. by apply release_fits, vram_small.
Qed.

Lemma end_workload_sound now id to change s :
  (forall w, Workload.GPURequest (change w) = Workload.GPURequest w) -> memory_sound s ->
  memory_sound (end_workload now id (WorkloadManager.transition id to change) s).1.
Proof.
  intros Hc [Hn Hs]. unfold end_workload, WorkloadManager.Get.
  destruct (WorkloadManager.workloads (workloads s) !! id) as [w |] eqn:Hw; [| done].
  pose proof (transition_small id to change (workloads s) Hc Hs) as Ht.
  destruct (WorkloadManager.transition id to change (workloads s)) as [m [e |]]; [done |]. apply release_sound; [by apply Hs in Hw | done].
Qed.

Lemma schedule_one_sound range now w s : small w -> memory_sound s -> memory_sound (schedule_one range now w s).1.
Proof.
  intros Hw [Hn Hs]. unfold schedule_one. destruct (Scheduler.Schedule _ _ _) as [r e]. destruct (ScheduleResult.Assigned r); [| done].
  split; cbn; [| by apply transition_small]. apply change_nodes_sound; [| done]. intros n Hf. by apply assign_fits, vram_small.
Qed.

(** What clients send is of reasonable size. *)
Definition reasonable (o : op) : Prop :=
  match o with
  | ORegister _ _ n | OUpdateNode _ n => fit_client n
  | OSubmit _ _ w | OUpdateWorkload _ w => small w
  | OTrigger _ rangeW _ => forall ws v, v ∈ rangeW ws -> exists id, ws !! id = Some v
  | _ => True
  end.

Lemma Submit_small uuid now w m : small w -> all_small m -> all_small (WorkloadManager.Submit uuid now w m).1.
Proof.
  intros Hw Hm. unfold WorkloadManager.Submit. destruct (_ || _); [done |]. destruct (WorkloadManager.workloads m !! _); [done |].
  cbn. apply map_Forall_insert_2; [| done]. destruct (Workload.ID w == ""), (_ <? 1)%Z; done.
Qed.

Lemma Update_small now w m : small w -> all_small m -> all_small (WorkloadManager.Update now w m).1.
Proof.
  intros Hw Hm. unfold WorkloadManager.Update. case_bool_decide; [done |]. destruct (WorkloadManager.workloads m !! _); [| done].
  destruct (_ && negb _); [done |]. cbn. apply map_Forall_insert_2; [| done]. by destruct (_ && _).
Qed.

Lemma exec_memory_sound o s : reasonable o -> memory_sound s -> memory_sound (exec o s).
Proof.
  intros Ho [Hn Hs]. destruct o; cbn [exec reasonable] in *; try (by apply end_workload_sound).
  - unfold RegisterNode. pose proof (Register_sound uuid now n (nodes s) Hn Ho). by destruct (NodeManager.Register _ _ _ _).
  - unfold UpdateNode. pose proof (Update_sound now n (nodes s) Hn Ho). by destruct (NodeManager.Update _ _ _).
  - unfold UnregisterNode, NodeManager.Unregister. destruct (NodeManager.nodes (nodes s) !! id); [| done]. split; [| done].
    intros id' n H. cbn in H. apply lookup_delete_Some in H as [_ H]. by apply Hn.
  - unfold NodeManager.UpdateHeartbeat. destruct (NodeManager.nodes (nodes s) !! id) as [n |] eqn:E; [| done]. split; [| done].
    apply Hn in E as (<- & ? & ?). by apply (sound_insert (nodes s) (GPUNode.set_LastHeartbeat now n)).
  - unfold NodeManager.SetNodeStatus. destruct (NodeManager.nodes (nodes s) !! id) as [n |] eqn:E; [| done]. split; [| done].
    apply Hn in E as (<- & ? & ?). by apply (sound_insert (nodes s) (GPUNode.set_UpdatedAt now (GPUNode.set_Status status n))).
  - unfold SubmitWorkload. destruct (QuotaManager.CheckAllocation _ _ _ _ _); [done |].
    pose proof (Submit_small uuid now w (workloads s) Ho Hs). by destruct (WorkloadManager.Submit _ _ _ _).
  - unfold UpdateWorkload. pose proof (Update_small now w (workloads s) Ho Hs). by destruct (WorkloadManager.Update _ _ _).
  - unfold ScaleWorkload, WorkloadManager.Scale. destruct (replicas <? 0)%Z; [done |].
    destruct (WorkloadManager.workloads (workloads s) !! id) as [w |] eqn:E; [| done]. split; [done |]. cbn.
    apply map_Forall_insert_2; [| done]. by apply Hs in E.
  - apply (Trigger_ind memory_sound); [| done]. intros s' w Hw Hs'. apply schedule_one_sound; [| done].
    apply pending_stored in Hw as [id Hid]; [| done]. by apply Hs in Hid.
  - unfold SetSchedulingPolicies. by destruct (Scheduler.SetPolicies _ _).
  - unfold SetQuota. by destruct (QuotaManager.SetQuota _ _ _).
Qed.


(** ** Placement *)

(** The policies order nodes by an integer. *)
Lemma node_before_key policy : exists key : GPUNode.t -> Z, forall a b, Scheduler.node_before policy a b = (key a <? key b)%Z.
Proof.
  set (used := GPUNode.UsedVRAMMB). set (free n := wrap_i64 (GPUNode.TotalVRAMMB n - GPUNode.UsedVRAMMB n)).
  assert (H : Scheduler.node_before policy = (fun a b => used a >? used b)%Z \/
    Scheduler.node_before policy = (fun a b => used a <? used b)%Z \/
    Scheduler.node_before policy = (fun a b => free a >? free b)%Z \/
    Scheduler.node_before policy = (fun a b => Scheduler.gpu_count a >? Scheduler.gpu_count b)%Z).
  { unfold Scheduler.node_before. destruct (SchedulingPolicy.Type_ <$> policy); [| auto]. repeat case_match; auto. }
  destruct H as [-> | [-> | [-> | ->]]].
  - exists (fun n => - used n)%Z. intros a b. rewrite Z.gtb_ltb. destruct (Z.ltb_spec (used b) (used a)), (Z.ltb_spec (- used a) (- used b)); lia.
  - by exists used.
  - exists (fun n => - free n)%Z. intros a b. rewrite Z.gtb_ltb. destruct (Z.ltb_spec (free b) (free a)), (Z.ltb_spec (- free a) (- free b)); lia.
  - exists (fun n => - Scheduler.gpu_count n)%Z. intros a b. rewrite Z.gtb_ltb.
    destruct (Z.ltb_spec (Scheduler.gpu_count b) (Scheduler.gpu_count a)), (Z.ltb_spec (- Scheduler.gpu_count a) (- Scheduler.gpu_count b)); lia.
Qed.

Lemma first_node policy l n r :
  stable_sort (Scheduler.node_before policy) l = n :: r ->
  n ∈ l /\ forall n', n' ∈ l -> Scheduler.node_before policy n' n = false.
Proof.
  destruct (node_before_key policy) as [key Hkey]. apply stable_sort_head; unfold not_more; intros *; rewrite !Hkey.
  - rewrite !Z.ltb_ge. lia.
  - rewrite Z.ltb_lt, Z.ltb_ge. lia.
Qed.

Lemma eligible_available w policy n :
  Scheduler.eligible w policy n = true -> (GPURequest.Count (Workload.GPURequest w) <= Scheduler.availableGPUs n)%Z.
Proof. unfold Scheduler.eligible. destruct (Z.ltb_spec (Scheduler.availableGPUs n) (GPURequest.Count (Workload.GPURequest w))); done. Qed.

(** A workload that asks for GPUs goes to the first candidate. *)
Lemma selectNodes_head w policy n r :
  (1 <= GPURequest.Count (Workload.GPURequest w))%Z -> Scheduler.eligible w policy n = true ->
  Scheduler.selectNodes (n :: r) w = [GPUNode.ID n].
Proof.
  intros Hc He%eligible_available. unfold Scheduler.selectNodes. cbn [Scheduler.select_loop].
  assert (in_i64 (Scheduler.availableGPUs n)) by apply wrap_i64_range.
  destruct (Z.leb_spec (Scheduler.availableGPUs n) 0); [lia |]. unfold in_i64 in *. rewrite wrap_i64_id by (unfold in_i64; lia).
  rewrite (proj2 (Z.leb_le _ _)) by lia. rewrite Z.gtb_ltb. by rewrite (proj2 (Z.ltb_ge _ _)) by lia.
Qed.

(** Where a workload is placed.  A workload that asks for at least one GPU
    is assigned exactly when some online node has enough free GPUs and memory,
    the model it asks for, and the consent of the active policy; it then gets one
    node, which is such a node, and none of the others comes before it in the
    order of the policy. *)
Theorem placement_is_best range w s m :
  (forall ns, range ns ≡ₚ (map_to_list ns).*2) -> (1 <= GPURequest.Count (Workload.GPURequest w))%Z ->
  let policy := Scheduler.activePolicy s in
  let fit n := exists id, NodeManager.nodes m !! id = Some n /\ GPUNode.Status n = NodeStatusOnline /\ Scheduler.eligible w policy n = true in
  match Scheduler.Schedule w (NodeManager.GetOnlineNodes range m) s with
  | (r, None) => ScheduleResult.Assigned r = true /\ exists n, ScheduleResult.NodeIDs r = [GPUNode.ID n] /\ fit n /\
      forall n', fit n' -> Scheduler.node_before policy n' n = false
  | (r, Some _) => ScheduleResult.Assigned r = false /\ forall n, ~ fit n
  end.
Proof.
  intros Hr Hc policy fit. set (ns := NodeManager.GetOnlineNodes range m).
  assert (Hfit : forall n, n ∈ List.filter (Scheduler.eligible w policy) ns <-> fit n).
  { intros n. unfold ns, NodeManager.GetOnlineNodes, fit. rewrite !list_elem_of_In, !filter_In, <- list_elem_of_In, (Hr _), bool_decide_eq_true.
    rewrite list_elem_of_fmap. split.
    - intros [[([id n'] & -> & H%elem_of_map_to_list) Hs] He]. by exists id.
    - intros (id & H & Hs & He). split; [split; [| done] | done]. exists (id, n). split; [done | by apply elem_of_map_to_list]. }
  unfold Scheduler.Schedule. destruct ns as [| n0 ns0] eqn:Hns.
  { split; [done |]. intros n. rewrite <- Hfit. apply not_elem_of_nil. }
  rewrite <- Hns in *. clear n0 ns0 Hns. unfold Scheduler.filterAndSortNodes.
  destruct (stable_sort (Scheduler.node_before (Scheduler.activePolicy s)) (List.filter (Scheduler.eligible w (Scheduler.activePolicy s)) ns))
    as [| n r] eqn:Hsort.
  { split; [done |]. intros n Hn%Hfit. apply (elem_of_stable_sort (Scheduler.node_before policy)) in Hn. unfold policy in Hn.
    rewrite Hsort in Hn. by apply elem_of_nil in Hn. }
  apply first_node in Hsort as [Hn Hfirst]. pose proof (proj1 (Hfit n) Hn) as Hn'.
  rewrite (selectNodes_head w policy); [| done | by destruct Hn' as (_ & _ & _ & ?)].
  split; [done |]. exists n. split; [done |]. split; [done |]. intros n' H%Hfit. by apply Hfirst.
Qed.

Lemma filter_all_false {A} (p : A -> bool) l : (forall x, x ∈ l -> p x = false) -> List.filter p l = [].
Proof.
  intros H. destruct (List.filter p l) as [| x r] eqn:E; [done |]. assert (Hx : In x (List.filter p l)) by (rewrite E; by left).
  apply filter_In in Hx as [Hx%list_elem_of_In Hp]. by rewrite (H x Hx) in Hp.
Qed.

(** An anti-affinity policy with labels admits no node at all: the check of
    labels that comes before requires that the node has them, and the check of
    the policy that it does not.  While such a policy is active, every workload is
    refused. *)
Theorem anti_affinity_refuses_all w ns s p :
  Scheduler.activePolicy s = Some p -> SchedulingPolicy.Type_ p = "anti-affinity" -> SchedulingPolicy.Labels p <> ∅ ->
  exists reason, Scheduler.Schedule w ns s = (ScheduleResult.mk (Workload.ID w) false [] reason, Some ErrNoSuitableNode).
Proof.
  intros Hp Ht Hl. unfold Scheduler.Schedule. destruct ns as [| n0 ns0]; [by eexists |]. rewrite Hp. unfold Scheduler.filterAndSortNodes.
  replace (List.filter (Scheduler.eligible w (Some p)) (n0 :: ns0)) with (@nil GPUNode.t); [by eexists |].
  symmetry. apply filter_all_false. intros n _. unfold Scheduler.eligible.
  destruct (_ <? _)%Z; [done |]. destruct (_ && _); [done |]. replace (Scheduler.policy_admits p _ n) with false; [done |].
  unfold Scheduler.policy_admits. rewrite (bool_decide_false (size (SchedulingPolicy.Labels p) = 0)) by by rewrite map_size_empty_iff.
  destruct (_ && _); [done |]. destruct (Scheduler.matchLabels _ _); cbn [negb andb]; [| done]. rewrite Ht. by vm_compute.
Qed.

(** ** Examples *)

Definition in_order {A} (m : gmap string A) : list A := (map_to_list m).*2.

Definition ex_gpu : GPUInfo.t := GPUInfo.mk 0 "A100" 81920 "8.0" "535" false "NVIDIA".
Definition ex_node (id : string) (inUse : Z) : GPUNode.t :=
  GPUNode.mk id id "10.0.0.1" [ex_gpu] NodeStatusOnline None 81920 inUse 0 0 0 0.
Definition ex_workload (id : string) (gpus vram : Z) (status : string) (nodes : list string) : Workload.t :=
  Workload.mk id id "t1" "training" status (GPURequest.mk gpus vram "" false "") nodes 0 "" [] ∅ 1 "" 0 0 None None "".

Definition ex_ops : list op :=
  [ORegister "" 1 (ex_node "n1" 0); OSubmit "" 2 (ex_workload "w1" 1 50000 "" []); OSubmit "" 3 (ex_workload "w2" 1 50000 "" []);
   OTrigger in_order in_order 4; OComplete 5 "w1"; OCancel 6 "w2"; OTrigger in_order in_order 7].

Lemma in_order_sound (ws : gmap string Workload.t) v : v ∈ in_order ws -> exists id, ws !! id = Some v.
Proof. intros ([id v'] & -> & H%elem_of_map_to_list)%list_elem_of_fmap. by exists id. Qed.

Lemma workloads_follow_lifecycle_witness :
  exists w', WorkloadManager.workloads (workloads (run exec (drop 4 ex_ops) (run exec (take 4 ex_ops) NewService))) !! "w2" = Some w' /\
    Workload.Status w' = WorkloadStatusCancelled /\ rtc wl_step WorkloadStatusRunning (Workload.Status w').
Proof.
  destruct (workloads_follow_lifecycle (drop 4 ex_ops) (run exec (take 4 ex_ops) NewService) "w2"
    (Workload.set_StartedAt (Some 4%Z) (Workload.set_UpdatedAt 4 (Workload.set_CreatedAt 3
      (ex_workload "w2" 1 50000 WorkloadStatusRunning ["n1"]))))) as (w' & Hw' & R & _).
  - repeat split.
  - vm_compute. reflexivity.
  - exists w'. split; [exact Hw' |]. split; [| exact R]. vm_compute in Hw'. injection Hw' as <-. reflexivity.
Defined.


Definition ex_nodes : NodeManager.t :=
  NodeManager.mk {["n1" := ex_node "n1" 1000; "n2" := ex_node "n2" 20000; "n3" := ex_node "n3" 40000]}.

Lemma placement_is_best_witness :
  let w := ex_workload "w" 1 50000 "" [] in
  exists r n, Scheduler.Schedule w (NodeManager.GetOnlineNodes in_order ex_nodes) Scheduler.NewScheduler = (r, None) /\
    ScheduleResult.NodeIDs r = ["n2"] /\ ScheduleResult.NodeIDs r = [GPUNode.ID n] /\
    forall n', (exists id, NodeManager.nodes ex_nodes !! id = Some n' /\ GPUNode.Status n' = NodeStatusOnline /\
      Scheduler.eligible w (Scheduler.activePolicy Scheduler.NewScheduler) n' = true) ->
    Scheduler.node_before (Scheduler.activePolicy Scheduler.NewScheduler) n' n = false.
Proof.
  pose proof (placement_is_best in_order (ex_workload "w" 1 50000 "" []) Scheduler.NewScheduler ex_nodes
    ltac:(intros; reflexivity) ltac:(cbn; lia)) as H.
  assert (E : Scheduler.Schedule (ex_workload "w" 1 50000 "" []) (NodeManager.GetOnlineNodes in_order ex_nodes) Scheduler.NewScheduler =
    (ScheduleResult.mk "w" true ["n2"] "", None)) by (vm_compute; reflexivity).
  rewrite E in H. destruct H as (_ & n & H1 & _ & H2). exists (ScheduleResult.mk "w" true ["n2"] ""), n.
  split; [exact E |]. split; [reflexivity |]. split; [exact H1 | exact H2].
Defined.

Definition ex_apart : SchedulingPolicy.t := SchedulingPolicy.mk "apart" "anti-affinity" true {["gpu" := "old"]} 20 8.

Lemma anti_affinity_refuses_all_witness :
  exists reason, Scheduler.Schedule (ex_workload "w" 1 0 "" []) [ex_node "n1" 0] (Scheduler.mk (ex_apart :: Scheduler.defaultPolicies)) =
    (ScheduleResult.mk "w" false [] reason, Some ErrNoSuitableNode).
Proof.
  apply (anti_affinity_refuses_all (ex_workload "w" 1 0 "" []) [ex_node "n1" 0] (Scheduler.mk (ex_apart :: Scheduler.defaultPolicies)) ex_apart);
    [vm_compute; reflexivity | reflexivity | apply map_non_empty_singleton].
Defined.
