(* ===== verification/GpuAccounting.v ===== *)
(** * Accounts of the GPU service

    What a workload takes from its node and from its tenant's quota it gives
    back when it ends; and where the accounts go wrong: quotas are checked before
    anything is recorded and given back for workloads that never ran, GPUs are
    counted by video memory, and a workload that is cancelled while it is being
    scheduled keeps what it got. *)

From Stdlib Require Import Ascii.
From S2P Require Import Prelude Gpu GpuProps.
Import Service.
Open Scope go_scope.

(** ** Changes of one node and one quota *)

Lemma change_node_at now change m id n :
  sound m -> NodeManager.nodes m !! id = Some n -> id <> "" -> GPUNode.ID (change n) = GPUNode.ID n ->
  exists n', NodeManager.nodes (change_node now change m id) = <[id := n']> (NodeManager.nodes m) /\
    GPUNode.UsedVRAMMB n' = GPUNode.UsedVRAMMB (change n).
Proof.
  intros Hm Hn Hne Hid. unfold change_node, NodeManager.Get, NodeManager.Update. rewrite Hn, Hid.
  destruct (Hm id n Hn) as (-> & _). rewrite bool_decide_false, Hn by done. cbn. rewrite Hid.
  destruct (Hm id n Hn) as (-> & _). by eexists.
Qed.

Lemma Get_at (m : NodeManager.t) id n m' n' :
  NodeManager.nodes m' = <[id := n']> (NodeManager.nodes m) -> NodeManager.nodes m !! id = Some n -> NodeManager.nodes m' !! id = Some n'.
Proof. intros -> _. apply lookup_insert_eq. Qed.

Definition used (m : NodeManager.t) (id : string) : option Z := GPUNode.UsedVRAMMB <$> NodeManager.nodes m !! id.

(** The amounts that are recorded for a tenant. *)
Definition usage (m : QuotaManager.t) (tenantID : string) : option (Z * Z * Z) :=
  (fun q => (GPUQuota.UsedGPUs q, GPUQuota.UsedVRAMMB q, GPUQuota.UsedWorkloads q)) <$> QuotaManager.quotas m !! tenantID.

Lemma usage_changed now ten g v k m t :
  usage (QuotaManager.change_used now ten g v k m) t =
  if decide (t = ten) then (fun u : Z * Z * Z => (g u.1.1, v u.1.2, k u.2)) <$> usage m t else usage m t.
Proof.
  unfold usage, QuotaManager.change_used. destruct (QuotaManager.quotas m !! ten) as [q |] eqn:Hq.
  - cbn. case_decide as Ht; [subst t; by rewrite lookup_insert_eq, Hq |]. by rewrite lookup_insert_ne.
  - case_decide as Ht; [subst t; by rewrite Hq | done].
Qed.

Definition sane (z : Z) : Prop := (0 <= z < 2 ^ 62)%Z.

Lemma more_less n u : (- 2 ^ 62 < n < 2 ^ 62)%Z -> sane u -> QuotaManager.less n (QuotaManager.more n u) = u.
Proof.
  unfold sane, QuotaManager.less, QuotaManager.more. intros Hn Hu.
  rewrite (wrap_i64_id (u + n)) by (unfold in_i64; lia). replace (u + n - n)%Z with u by lia. rewrite wrap_i64_id by (unfold in_i64; lia).
  by rewrite (proj2 (Z.ltb_ge _ _)) by lia.
Qed.

Lemma assign_release now now' v n n1 :
  fits n -> (0 < v <= GPUNode.TotalVRAMMB n - GPUNode.UsedVRAMMB n)%Z ->
  GPUNode.UsedVRAMMB n1 = GPUNode.UsedVRAMMB (Scheduler.AssignNodeResources now v n).1 ->
  GPUNode.UsedVRAMMB (Scheduler.ReleaseNodeResources now' v n1) = GPUNode.UsedVRAMMB n.
Proof.
  intros [Hu Ht] Hv. unfold Scheduler.AssignNodeResources, Scheduler.ReleaseNodeResources.
  rewrite (proj2 (Z.leb_gt v 0)), wrap_i64_id, Z.gtb_ltb, (proj2 (Z.ltb_ge _ _)) by (unfold in_i64; lia). cbn.
  intros ->. replace (GPUNode.UsedVRAMMB n + v - v)%Z with (GPUNode.UsedVRAMMB n) by lia.
  rewrite wrap_i64_id by (unfold in_i64; lia). by rewrite (proj2 (Z.ltb_ge _ _)) by lia.
Qed.

(** ** Ending a workload *)

(** The operations that end a workload. *)
Definition ends (o : op) (id : string) (now : time) : Prop :=
  o = OCancel now id \/ o = OComplete now id \/ exists msg, o = OFail now id msg.

Lemma ends_release o id now s w :
  ends o id now -> WorkloadManager.workloads (workloads s) !! id = Some w ->
  exists to change, exec o s = (end_workload now id (WorkloadManager.transition id to change) s).1 /\
    terminal to = true /\
    (Workload.Status w ∈ [WorkloadStatusPending; WorkloadStatusRunning] ->
     exists m, exec o s = release now w (set_workloads m s)).
Proof.
  intros Ho Hw.
  assert (H : exists to change, exec o s = (end_workload now id (WorkloadManager.transition id to change) s).1 /\ terminal to = true).
  { destruct Ho as [-> | [-> | [msg ->]]]; eexists _, _; (split; [done | by vm_compute]). }
  destruct H as (to & change & He & Ht). exists to, change. split; [done |]. split; [done |]. intros Hs.
  rewrite He. unfold end_workload, WorkloadManager.Get, WorkloadManager.transition. rewrite Hw.
  assert (WorkloadManager.isValidTransition (Workload.Status w) to = true) as ->.
  { revert Ht. unfold terminal. rewrite !orb_true_iff, !bool_decide_eq_true. rewrite !elem_of_cons, elem_of_nil in Hs.
    by intros [[-> | ->] | ->]; destruct Hs as [-> | [-> | []]]; vm_compute. }
  by eexists.
Qed.

Section schedule.
Context (range : gmap string GPUNode.t -> list GPUNode.t) (now : time).

(** What scheduling a workload onto one node does. *)
Lemma schedule_one_at w s r nid :
  Scheduler.Schedule w (NodeManager.GetOnlineNodes range (nodes s)) (scheduler s) = (r, None) ->
  ScheduleResult.Assigned r = true -> ScheduleResult.NodeIDs r = [nid] ->
  let s1 := (schedule_one range now w s).1 in
  let req := Workload.GPURequest w in
  workloads s1 = (WorkloadManager.AssignNode now (Workload.ID w) [nid] (workloads s)).1 /\
  nodes s1 = change_node now (fun n => (Scheduler.AssignNodeResources now (vram_of w) n).1) (nodes s) nid /\
  quotas s1 = QuotaManager.RecordAllocation now (Workload.TenantID w) (GPURequest.Count req) (GPURequest.MinVRAMMB req) 1 (quotas s).
Proof. intros Hr Ha Hid. unfold schedule_one. rewrite Hr, Ha, Hid. by cbn. Qed.

(** The state after a successful assignment. *)
Lemma assigned_state w s r nid n :
  memory_sound s -> WorkloadManager.workloads (workloads s) !! Workload.ID w = Some w -> Workload.Status w = WorkloadStatusPending ->
  Scheduler.Schedule w (NodeManager.GetOnlineNodes range (nodes s)) (scheduler s) = (r, None) ->
  ScheduleResult.Assigned r = true -> ScheduleResult.NodeIDs r = [nid] -> nid <> "" ->
  NodeManager.nodes (nodes s) !! nid = Some n ->
  let s1 := (schedule_one range now w s).1 in
  sound (nodes s1) /\
  (exists n1, NodeManager.nodes (nodes s1) = <[nid := n1]> (NodeManager.nodes (nodes s)) /\
    GPUNode.UsedVRAMMB n1 = GPUNode.UsedVRAMMB (Scheduler.AssignNodeResources now (vram_of w) n).1) /\
  (exists w1, WorkloadManager.workloads (workloads s1) !! Workload.ID w = Some w1 /\ Workload.Status w1 = WorkloadStatusRunning /\
    Workload.NodeIDs w1 = [nid] /\ Workload.GPURequest w1 = Workload.GPURequest w /\ Workload.TenantID w1 = Workload.TenantID w).
Proof.
  intros [Hn Hsmall] Hw Hp Hr Ha Hids Hne Hnid s1.
  destruct (schedule_one_at w s r nid Hr Ha Hids) as (Hw1 & Hn1 & _). fold s1 in Hw1, Hn1. pose proof (Hsmall _ _ Hw) as Hsm.
  split_and!.
  - rewrite Hn1. apply (change_nodes_sound now _ [nid]); [| done]. intros n0 Hf0. apply assign_fits; [done | by apply vram_small].
  - rewrite Hn1. apply (change_node_at now (fun n => (Scheduler.AssignNodeResources now (vram_of w) n).1) _ _ n Hn Hnid Hne). unfold Scheduler.AssignNodeResources. repeat case_match; done.
  - rewrite Hw1. unfold WorkloadManager.AssignNode, WorkloadManager.transition. rewrite Hw, Hp.
    change (WorkloadManager.isValidTransition WorkloadStatusPending WorkloadStatusRunning) with true. cbn. rewrite lookup_insert_eq. by eexists.
Qed.
End schedule.

Lemma vram_positive w : (0 < vram_of w)%Z.
Proof. unfold vram_of. destruct (Z.leb_spec (GPURequest.MinVRAMMB (Workload.GPURequest w)) 0); lia. Qed.

Lemma assign_adds now v n :
  fits n -> (0 < v <= GPUNode.TotalVRAMMB n - GPUNode.UsedVRAMMB n)%Z ->
  GPUNode.UsedVRAMMB (Scheduler.AssignNodeResources now v n).1 = (GPUNode.UsedVRAMMB n + v)%Z.
Proof.
  intros [Hu Ht] Hv. unfold Scheduler.AssignNodeResources.
  by rewrite (proj2 (Z.leb_gt v 0)), wrap_i64_id, Z.gtb_ltb, (proj2 (Z.ltb_ge _ _)) by (unfold in_i64; lia).
Qed.

(** A workload gives back what it took.  When a pending workload is assigned
    to a node with enough free memory, and is then cancelled, completed or failed,
    every node has as much memory in use, and every tenant as much of its quota,
    as before. *)
Theorem workload_gives_back range now now' w s r nid n o :
  memory_sound s -> WorkloadManager.workloads (workloads s) !! Workload.ID w = Some w ->
  Workload.Status w = WorkloadStatusPending ->
  Scheduler.Schedule w (NodeManager.GetOnlineNodes range (nodes s)) (scheduler s) = (r, None) ->
  ScheduleResult.Assigned r = true -> ScheduleResult.NodeIDs r = [nid] -> nid <> "" ->
  NodeManager.nodes (nodes s) !! nid = Some n -> (vram_of w <= GPUNode.TotalVRAMMB n - GPUNode.UsedVRAMMB n)%Z ->
  sane (GPURequest.Count (Workload.GPURequest w)) -> (- 2 ^ 62 < GPURequest.MinVRAMMB (Workload.GPURequest w))%Z ->
  ends o (Workload.ID w) now' ->
  let s1 := (schedule_one range now w s).1 in
  used (nodes s1) nid = Some (GPUNode.UsedVRAMMB n + vram_of w)%Z /\
  forall i t, used (nodes (exec o s1)) i = used (nodes s) i /\
    (forall a b c, usage (quotas s) t = Some (a, b, c) -> sane a -> sane b -> sane c ->
     usage (quotas (exec o s1)) t = Some (a, b, c)).
Proof.
  intros Hs Hw Hp Hr Ha Hids Hne Hnid Hv Hcount Hmin Ho s1. pose proof (vram_positive w) as Hv0.
  destruct (assigned_state range now w s r nid n Hs Hw Hp Hr Ha Hids Hne Hnid)
    as (Hs1 & (n1 & E1 & U1) & (w1 & Hw1' & Hst1 & Hids1 & Hreq1 & Hten1)). fold s1 in Hs1, E1, Hw1'.
  destruct (schedule_one_at range now w s r nid Hr Ha Hids) as (_ & _ & Hq1). fold s1 in Hq1.
  destruct Hs as [Hn Hsmall]. destruct (Hn nid n Hnid) as (_ & _ & Hfit). pose proof (Hsmall _ _ Hw) as Hsm. unfold small in Hsm.
  pose proof (Get_at (nodes s) nid n (nodes s1) n1 E1 Hnid) as Hn1.
  split. { unfold used. rewrite Hn1. cbn. by rewrite U1, assign_adds. }
  destruct (ends_release o (Workload.ID w) now' s1 w1 Ho Hw1') as (_ & _ & _ & _ & Hrel).
  destruct Hrel as [m ->]; [rewrite Hst1; right; left |]. intros i t. unfold release. cbn [nodes quotas set_nodes set_quotas set_workloads].
  rewrite Hids1. cbn [foldl]. assert (Hvr : vram_of w1 = vram_of w) by (unfold vram_of; by rewrite Hreq1). rewrite Hvr. split.
  - destruct (change_node_at now' (Scheduler.ReleaseNodeResources now' (vram_of w)) (nodes s1) nid n1 Hs1 Hn1 Hne) as (n2 & E2 & U2).
    { unfold Scheduler.ReleaseNodeResources. by case_match. }
    unfold used. rewrite E2, E1, insert_insert_eq. destruct (decide (i = nid)) as [-> | Hi].
    + rewrite lookup_insert_eq, Hnid. cbn. rewrite U2. f_equal. by eapply assign_release.
    + by rewrite lookup_insert_ne.
  - intros a b c Hu Ha0 Hb0 Hc0. unfold QuotaManager.ReleaseAllocation. rewrite usage_changed, Hten1, Hreq1, Hq1.
    unfold QuotaManager.RecordAllocation. rewrite usage_changed. unfold sane in Hcount.
    case_decide; [| done]. rewrite Hu. cbn. by rewrite !more_less by (done || lia).
Qed.

(** ** Quotas *)

(** Submitting records nothing. *)
Lemma Submit_quotas uuid now w s : quotas (SubmitWorkload uuid now w s).1 = quotas s.
Proof.
  unfold SubmitWorkload. destruct (QuotaManager.CheckAllocation _ _ _ _ _); [done |]. by destruct (WorkloadManager.Submit _ _ _ _).
Qed.

Definition submit_all (now : time) (ws : list Workload.t) (s : t) : t :=
  foldl (fun s w => (SubmitWorkload "" now w s).1) s ws.

Lemma submit_accepts now w s :
  Workload.ID w <> "" -> Workload.Name w <> "" -> Workload.TenantID w <> "" ->
  WorkloadManager.workloads (workloads s) !! Workload.ID w = None ->
  QuotaManager.CheckAllocation (Workload.TenantID w) (GPURequest.Count (Workload.GPURequest w))
    (GPURequest.MinVRAMMB (Workload.GPURequest w)) 1 (quotas s) = None ->
  exists w', WorkloadManager.workloads (workloads (SubmitWorkload "" now w s).1) =
      <[Workload.ID w := w']> (WorkloadManager.workloads (workloads s)) /\
    Workload.Status w' = WorkloadStatusPending /\ Workload.GPURequest w' = Workload.GPURequest w /\
    Workload.TenantID w' = Workload.TenantID w.
Proof.
  intros Hid Hname Hten Hfree Hq. unfold SubmitWorkload. rewrite Hq. unfold WorkloadManager.Submit.
  rewrite !bool_decide_false, Hfree by done. cbn. destruct (_ <? 1)%Z; by eexists.
Qed.

Lemma submit_others now ws id s :
  id ∉ Workload.ID <$> ws ->
  WorkloadManager.workloads (workloads (foldl (fun s w => (SubmitWorkload "" now w s).1) s ws)) !! id =
  WorkloadManager.workloads (workloads s) !! id.
Proof.
  revert s. induction ws as [| w ws IH]; intros s Hid; [done |]. apply not_elem_of_cons in Hid as [Hne Hid]. cbn [foldl].
  rewrite IH by done. unfold SubmitWorkload. destruct (QuotaManager.CheckAllocation _ _ _ _ _); [done |].
  unfold WorkloadManager.Submit. destruct (_ || _); [done |]. destruct (WorkloadManager.workloads (workloads s) !! Workload.ID w); [done |].
  cbn. destruct (bool_decide_reflect (Workload.ID w = "")) as [E | E]; destruct (_ <? 1)%Z; cbn;
    (rewrite lookup_insert_ne; [done | congruence]).
Qed.

(** A quota does not bound what is submitted.  Of any list of workloads with
    identifiers of their own, each of which is within the quota of its tenant by
    itself, all are accepted, one after the other: nothing is recorded before a
    workload is scheduled, and scheduling does not look at quotas. *)
Theorem quota_admits_each_alone now ws s :
  NoDup (Workload.ID <$> ws) ->
  Forall (fun w => Workload.ID w <> "" /\ Workload.Name w <> "" /\ Workload.TenantID w <> "" /\
    WorkloadManager.workloads (workloads s) !! Workload.ID w = None /\
    QuotaManager.CheckAllocation (Workload.TenantID w) (GPURequest.Count (Workload.GPURequest w))
      (GPURequest.MinVRAMMB (Workload.GPURequest w)) 1 (quotas s) = None) ws ->
  quotas (submit_all now ws s) = quotas s /\
  Forall (fun w => exists w', WorkloadManager.workloads (workloads (submit_all now ws s)) !! Workload.ID w = Some w' /\
    Workload.Status w' = WorkloadStatusPending /\ Workload.GPURequest w' = Workload.GPURequest w /\
    Workload.TenantID w' = Workload.TenantID w) ws.
Proof.
  unfold submit_all. revert s. induction ws as [| w ws IH]; intros s Hnd Hws; [done |].
  apply NoDup_cons in Hnd as [Hnew Hnd]. apply Forall_cons in Hws as [(Hid & Hname & Hten & Hfree & Hq) Hws]. cbn [foldl].
  destruct (submit_accepts now w s) as (w' & E & Hst & Hreq & Hten'); [done.. |].
  set (s1 := (SubmitWorkload "" now w s).1) in *. assert (Hq1 : quotas s1 = quotas s) by apply Submit_quotas.
  destruct (IH s1 Hnd) as [HIq HIw].
  { apply Forall_forall. intros v Hv. rewrite Forall_forall in Hws. destruct (Hws v Hv) as (? & ? & ? & ? & ?).
    split_and!; [done.. | | by rewrite Hq1]. rewrite E, lookup_insert_ne; [done |].
    intros Heq. apply Hnew. rewrite Heq. by apply list_elem_of_fmap_2. }
  split; [by rewrite HIq |]. constructor; [| done]. rewrite submit_others.
  - exists w'. rewrite E, lookup_insert_eq. done.
  - done.
Qed.

Lemma less_floor n u : sane n -> sane u -> QuotaManager.less n u = Z.max 0 (u - n).
Proof.
  unfold sane, QuotaManager.less. intros Hn Hu. rewrite wrap_i64_id by (unfold in_i64; lia).
  destruct (Z.ltb_spec (u - n) 0); lia.
Qed.

(** Cancelling a workload that never ran gives back quota that it never
    took, and memory of the nodes that its client has named.  Nothing has been
    recorded for a pending workload, yet its cancellation subtracts its request
    from what the tenant's running workloads have recorded (not below zero), and
    its memory from what is in use on the node in its own [NodeIDs], which
    [Submit] keeps. *)
Theorem pending_cancellation_gives_back now id s w nid n a b c :
  memory_sound s -> WorkloadManager.workloads (workloads s) !! id = Some w -> Workload.Status w = WorkloadStatusPending ->
  Workload.NodeIDs w = [nid] -> nid <> "" -> NodeManager.nodes (nodes s) !! nid = Some n ->
  usage (quotas s) (Workload.TenantID w) = Some (a, b, c) -> sane a -> sane b -> sane c ->
  sane (GPURequest.Count (Workload.GPURequest w)) -> sane (GPURequest.MinVRAMMB (Workload.GPURequest w)) ->
  exists s', CancelWorkload now id s = (s', None) /\
    usage (quotas s') (Workload.TenantID w) =
      Some (Z.max 0 (a - GPURequest.Count (Workload.GPURequest w)), Z.max 0 (b - GPURequest.MinVRAMMB (Workload.GPURequest w)), Z.max 0 (c - 1))%Z /\
    used (nodes s') nid = Some (Z.max 0 (GPUNode.UsedVRAMMB n - vram_of w))%Z.
Proof.
  intros [Hn Hsmall] Hw Hp Hids Hne Hnid Hu Ha Hb Hc Hcount Hmin. pose proof (vram_positive w) as Hv0. pose proof (vram_small w (Hsmall _ _ Hw)).
  unfold CancelWorkload, end_workload, WorkloadManager.Get, WorkloadManager.Cancel, WorkloadManager.transition. rewrite Hw, Hp.
  change (WorkloadManager.isValidTransition WorkloadStatusPending WorkloadStatusCancelled) with true. cbn [negb].
  eexists. split; [reflexivity |]. unfold release. cbn [nodes quotas set_nodes set_quotas set_workloads]. split.
  - unfold QuotaManager.ReleaseAllocation. rewrite usage_changed, decide_True, Hu by done. cbn. by rewrite !less_floor by done.
  - rewrite Hids. cbn [foldl].
    destruct (change_node_at now (Scheduler.ReleaseNodeResources now (vram_of w)) (nodes s) nid n Hn Hnid Hne) as (n1 & E1 & U1).
    { unfold Scheduler.ReleaseNodeResources. by case_match. }
    unfold used. rewrite E1, lookup_insert_eq. cbn. rewrite U1. f_equal. destruct (Hn nid n Hnid) as (_ & _ & [Hu0 Ht]).
    unfold Scheduler.ReleaseNodeResources. rewrite (proj2 (Z.leb_gt _ _)), wrap_i64_id by (unfold in_i64; lia). cbn.
    destruct (Z.ltb_spec (GPUNode.UsedVRAMMB n - vram_of w) 0); lia.
Qed.

(** ** GPUs counted by memory *)

(** [k] workloads without a demand for memory, put onto a node. *)
Definition after_workloads (now : time) (k : nat) (n : GPUNode.t) : GPUNode.t :=
  Nat.iter k (fun n => (Scheduler.AssignNodeResources now 4096 n).1) n.

Lemma after_workloads_used now k n :
  fits n -> (GPUNode.UsedVRAMMB n + 4096 * Z.of_nat k <= GPUNode.TotalVRAMMB n)%Z ->
  let n' := after_workloads now k n in
  GPUNode.UsedVRAMMB n' = (GPUNode.UsedVRAMMB n + 4096 * Z.of_nat k)%Z /\ fits n' /\
  GPUNode.TotalVRAMMB n' = GPUNode.TotalVRAMMB n /\ GPUNode.GPUs n' = GPUNode.GPUs n.
Proof.
  intros Hf. induction k as [| k IH]; intros Hk.
  { change (after_workloads now 0 n) with n. split; [lia | done]. }
  destruct IH as (Hu & Hf' & Ht & Hg); [lia |]. cbv zeta in *. change (after_workloads now (S k) n) with
    (Scheduler.AssignNodeResources now 4096 (after_workloads now k n)).1. set (n' := after_workloads now k n) in *.
  destruct (assign_fits now 4096 n' Hf' ltac:(lia)) as (H1 & H2 & H3). rewrite assign_adds by (done || lia).
  split_and!; [rewrite Hu; lia | done | congruence | congruence].
Qed.

(** A GPU can be given to many workloads at once.  The scheduler derives
    the number of free GPUs from the memory in use, and a workload that demands no
    memory counts for 4096 MB.  As long as the workloads on a node use less than
    the memory of one GPU, all GPUs of the node count as free, and the next
    workload may again ask for all of them. *)
Theorem gpus_given_away_twice now k n w :
  fits n -> (0 < Scheduler.gpu_count n)%Z ->
  (GPUNode.UsedVRAMMB n + 4096 * Z.of_nat k < GPUNode.TotalVRAMMB n / Scheduler.gpu_count n)%Z ->
  GPURequest.Count (Workload.GPURequest w) = Scheduler.gpu_count n -> GPURequest.MinVRAMMB (Workload.GPURequest w) = 0%Z ->
  GPURequest.GPUModel (Workload.GPURequest w) = "" ->
  vram_of w = 4096%Z /\ Scheduler.availableGPUs (after_workloads now k n) = Scheduler.gpu_count n /\
  Scheduler.eligible w None (after_workloads now k n) = true.
Proof.
  intros Hf Hpos Hk Hcount Hmin Hmodel. set (g := Scheduler.gpu_count n) in *.
  assert (Hdiv : (GPUNode.TotalVRAMMB n / g <= GPUNode.TotalVRAMMB n)%Z) by (destruct Hf; apply Z.div_le_upper_bound; nia).
  destruct (after_workloads_used now k n Hf) as (Hu & [Hb Hb2] & Ht & Hg); [lia |]. cbv zeta in *. set (n' := after_workloads now k n) in *.
  assert (Hg' : Scheduler.gpu_count n' = g) by (unfold g, Scheduler.gpu_count; by rewrite Hg).
  assert (Hgu : (g < 2 ^ 62)%Z).
  { destruct Hf. destruct (Z.lt_ge_cases (GPUNode.TotalVRAMMB n) g) as [Hlt |]; [| lia]. rewrite Z.div_small in Hk by lia. lia. }
  assert (Hall : Scheduler.countAllocated n' = 0%Z).
  { unfold Scheduler.countAllocated. rewrite Hg', (proj2 (Z.eqb_neq _ _)), Ht by lia. rewrite Z.quot_div_nonneg by (destruct Hf; lia).
    rewrite (proj2 (Z.eqb_neq _ _)) by lia. rewrite Z.quot_small by lia. rewrite wrap_i64_id by (unfold in_i64; lia).
    rewrite Z.gtb_ltb. by rewrite (proj2 (Z.ltb_ge _ _)) by lia. }
  assert (Hav : Scheduler.availableGPUs n' = g).
  { unfold Scheduler.availableGPUs. rewrite Hall, Hg', Z.sub_0_r. apply wrap_i64_id. unfold in_i64. lia. }
  split; [unfold vram_of; by rewrite Hmin |]. split; [done |]. unfold Scheduler.eligible.
  rewrite Hav, Hcount, Hmin, Hmodel, Z.ltb_irrefl. by rewrite (bool_decide_true ("" = "")).
Qed.

(** ** Scheduling what has ended *)

(** A workload that ends while it is being scheduled keeps what it got.
    [TriggerScheduling] works on copies of the pending workloads and goes on when
    [AssignNode] fails: the memory and the quota are taken for a workload that is
    already over, whose cancellation, completion and failure are refused, so
    nothing gives them back. *)
Theorem ended_workload_keeps_memory range now w cur s r nid n :
  memory_sound s -> small w ->
  WorkloadManager.workloads (workloads s) !! Workload.ID w = Some cur -> terminal (Workload.Status cur) = true ->
  Scheduler.Schedule w (NodeManager.GetOnlineNodes range (nodes s)) (scheduler s) = (r, None) ->
  ScheduleResult.Assigned r = true -> ScheduleResult.NodeIDs r = [nid] -> nid <> "" ->
  NodeManager.nodes (nodes s) !! nid = Some n -> (vram_of w <= GPUNode.TotalVRAMMB n - GPUNode.UsedVRAMMB n)%Z ->
  let s1 := (schedule_one range now w s).1 in
  workloads s1 = workloads s /\ used (nodes s1) nid = Some (GPUNode.UsedVRAMMB n + vram_of w)%Z /\
  forall o later, ends o (Workload.ID w) later -> exec o s1 = s1.
Proof.
  intros [Hn _] Hsm Hw Hterm Hr Ha Hids Hne Hnid Hv s1. pose proof (vram_positive w) as Hv0.
  destruct (schedule_one_at range now w s r nid Hr Ha Hids) as (Hw1 & Hn1 & _). fold s1 in Hw1, Hn1.
  assert (Hno : forall to, WorkloadManager.isValidTransition (Workload.Status cur) to = false).
  { intros to. apply not_true_iff_false. intros Hs. pose proof (terminal_stays _ _ (rtc_once _ _ Hs) Hterm) as ->.
    revert Hterm Hs. unfold terminal. rewrite !orb_true_iff, !bool_decide_eq_true. by intros [[-> | ->] | ->]; vm_compute. }
  assert (Hsame : workloads s1 = workloads s).
  { rewrite Hw1. unfold WorkloadManager.AssignNode, WorkloadManager.transition. by rewrite Hw, Hno. }
  split; [done |]. split.
  - destruct (change_node_at now (fun n => (Scheduler.AssignNodeResources now (vram_of w) n).1) (nodes s) nid n Hn Hnid Hne) as (n1 & E1 & U1).
    { unfold Scheduler.AssignNodeResources. repeat case_match; done. }
    unfold used. rewrite Hn1, E1, lookup_insert_eq. cbn. destruct (Hn nid n Hnid) as (_ & _ & Hf). by rewrite U1, assign_adds.
  - intros o later Ho. rewrite <- Hsame in Hw. destruct (ends_release o (Workload.ID w) later s1 cur Ho Hw) as (to & change & -> & _ & _).
    unfold end_workload, WorkloadManager.Get, WorkloadManager.transition. rewrite Hw, Hno. by destruct s1.
Qed.

(** ** Examples *)

Definition ex_quota (gpus : Z) : GPUQuota.t := GPUQuota.mk "t1" 1 200000 10 0 gpus 0 0 0 0.

(** A node that is in use up to [inUse], a quota of one GPU of which [gpus] are
    recorded, and some workloads. *)
Definition ex_service (inUse gpus : Z) (ws : list Workload.t) : t :=
  mk (NodeManager.mk {["n1" := ex_node "n1" inUse]}) (Scheduler.mk [])
    (WorkloadManager.mk (list_to_map ((fun w => (Workload.ID w, w)) <$> ws))) (QuotaManager.mk {["t1" := ex_quota gpus]}).

Definition ex_pending : Workload.t := ex_workload "w" 1 3000 WorkloadStatusPending [].

Lemma ex_memory inUse gpus w : (0 <= inUse <= 81920)%Z -> small w -> memory_sound (ex_service inUse gpus [w]).
Proof.
  intros Hu Hw. split.
  - intros id n Hid. change (({["n1" := ex_node "n1" inUse]} : gmap string GPUNode.t) !! id = Some n) in Hid.
    apply lookup_singleton_Some in Hid as [<- <-]. split; [done |]. split; [done |]. split; cbn; lia.
  - intros id w' Hw'. cbn in Hw'. apply lookup_insert_Some in Hw' as [[_ <-] | [_ Hw']]; [done |]. by rewrite lookup_empty in Hw'.
Qed.

Lemma workload_gives_back_witness :
  let s := ex_service 60000 0 [ex_pending] in
  let s1 := (schedule_one in_order 5 ex_pending s).1 in
  used (nodes s1) "n1" = Some 63000%Z /\ used (nodes (exec (OComplete 9 "w") s1)) "n1" = Some 60000%Z.
Proof.
  destruct (workload_gives_back in_order 5 9 ex_pending (ex_service 60000 0 [ex_pending]) (ScheduleResult.mk "w" true ["n1"] "")
    "n1" (ex_node "n1" 60000) (OComplete 9 "w")) as [H1 H2];
    [apply ex_memory; [lia | reflexivity] | reflexivity | reflexivity | vm_compute; reflexivity | reflexivity | reflexivity | discriminate
    | reflexivity | vm_compute; discriminate | unfold sane; cbn; lia | cbn; lia | right; left; reflexivity |].
  split; [exact H1 |]. exact (proj1 (H2 "n1" "t1")).
Defined.

(** Three workloads with the whole quota each; scheduled on a free node, they
    are all run, and three times the quota is recorded. *)
Definition ex_three : list Workload.t :=
  [ex_workload "a" 1 1000 "" []; ex_workload "b" 1 1000 "" []; ex_workload "c" 1 1000 "" []].

Lemma quota_admits_each_alone_witness :
  quotas (submit_all 3 ex_three (ex_service 0 0 [])) = quotas (ex_service 0 0 []) /\
  Forall (fun w => exists w', WorkloadManager.workloads (workloads (submit_all 3 ex_three (ex_service 0 0 []))) !! Workload.ID w = Some w' /\
    Workload.Status w' = WorkloadStatusPending /\ Workload.GPURequest w' = Workload.GPURequest w /\
    Workload.TenantID w' = Workload.TenantID w) ex_three /\
  usage (quotas (TriggerScheduling in_order in_order 5 (submit_all 3 ex_three (ex_service 0 0 []))).1) "t1" = Some (3, 3000, 3)%Z.
Proof.
  destruct (quota_admits_each_alone 3 ex_three (ex_service 0 0 [])) as [H1 H2].
  - apply (bool_decide_unpack _). vm_compute. exact I.
  - repeat apply List.Forall_cons; try constructor; cbn; try discriminate; repeat split; try discriminate.
  - split; [exact H1 |]. split; [exact H2 | vm_compute; reflexivity].
Defined.

Lemma pending_cancellation_gives_back_witness :
  exists s', CancelWorkload 7 "w" (ex_service 60000 1 [Workload.set_NodeIDs ["n1"] ex_pending]) = (s', None) /\
    usage (quotas s') "t1" = Some (0, 0, 0)%Z /\ used (nodes s') "n1" = Some 57000%Z.
Proof.
  apply (pending_cancellation_gives_back 7 "w" (ex_service 60000 1 [Workload.set_NodeIDs ["n1"] ex_pending])
    (Workload.set_NodeIDs ["n1"] ex_pending) "n1" (ex_node "n1" 60000) 1 0 0);
    [apply ex_memory; [lia | reflexivity] | reflexivity | reflexivity | reflexivity | discriminate | reflexivity | reflexivity
    | unfold sane; cbn; lia ..].
Defined.

Lemma gpus_given_away_twice_witness :
  vram_of (ex_workload "w" 1 0 "" []) = 4096%Z /\ Scheduler.availableGPUs (after_workloads 1 19 (ex_node "n1" 0)) = 1%Z /\
  Scheduler.eligible (ex_workload "w" 1 0 "" []) None (after_workloads 1 19 (ex_node "n1" 0)) = true.
Proof.
  apply (gpus_given_away_twice 1 19 (ex_node "n1" 0) (ex_workload "w" 1 0 "" []));
    [unfold fits; vm_compute; repeat split; discriminate | reflexivity | vm_compute; reflexivity | reflexivity | reflexivity | reflexivity].
Defined.

Lemma ended_workload_keeps_memory_witness :
  let s := ex_service 60000 0 [Workload.set_Status WorkloadStatusCancelled ex_pending] in
  let s1 := (schedule_one in_order 5 ex_pending s).1 in
  used (nodes s1) "n1" = Some 63000%Z /\ exec (OComplete 9 "w") s1 = s1.
Proof.
  destruct (ended_workload_keeps_memory in_order 5 ex_pending (Workload.set_Status WorkloadStatusCancelled ex_pending)
    (ex_service 60000 0 [Workload.set_Status WorkloadStatusCancelled ex_pending]) (ScheduleResult.mk "w" true ["n1"] "")
    "n1" (ex_node "n1" 60000)) as (_ & H1 & H2);
    [apply ex_memory; [lia | reflexivity] | reflexivity | reflexivity | reflexivity | vm_compute; reflexivity | reflexivity | reflexivity
    | discriminate | reflexivity | vm_compute; discriminate |].
  split; [exact H1 |]. apply (H2 _ 9%Z). right. left. reflexivity.
Defined.

(** Workloads are scheduled newest first, whatever their priority: of two that
    ask for the only GPU, the older one with the higher priority waits. *)
Lemma newest_is_scheduled_first :
  let old := Workload.mk "old" "old" "t1" "training" WorkloadStatusPending (GPURequest.mk 1 50000 "" false "") [] 9 "" [] ∅ 1 "" 1 1 None None "" in
  let new := Workload.mk "new" "new" "t1" "training" WorkloadStatusPending (GPURequest.mk 1 50000 "" false "") [] 0 "" [] ∅ 1 "" 2 2 None None "" in
  let s := ex_service 0 0 [old; new] in
  Workload.ID <$> GetScheduleQueue in_order s = ["old"; "new"] /\
  ((fun r => (ScheduleResult.WorkloadID r, ScheduleResult.Assigned r)) <$> (TriggerScheduling in_order in_order 5 s).2) =
    [("new", true); ("old", false)].
Proof. split; vm_compute; reflexivity. Qed.
