(* ===== verification/Autoscaler.v ===== *)
(** * The autoscaler ([services/autoscaler-svc/internal]: [evaluator],
    [service], [k8s])

    Rules compare a metric of a deployment with two thresholds and move its
    number of replicas by one, at most once per cooldown.  The reader of metrics
    is a function and the executor that changes the replicas is an interface, the
    class [K8sScaler]; [Client] is the simulated executor of [k8s.go], its
    instance in memory.  [Evaluator.t] is the evaluator under its mutex, each
    operation one atomic step that reads the clock once, as [now]; the orders in
    which Go ranges over maps and the random identifiers are arguments.  The
    decisions returned by [Evaluate] are the objects that the history holds, so
    naming them ([Service.Evaluate]) renames the entries of the history as well.
    Texts of reasons are constructors.  Not here: the HTTP handler, the client of
    Prometheus, the executors that reach a cluster, gauges. *)

From Stdlib Require Import Ascii SpecFloat.
From S2P Require Import Prelude GoStrings Float64 Window.
Open Scope go_scope.

(** ** Data ([models.go]) *)

(** [models.ScaleRule]; an assignment [x.F = v] is [set_F v x]. *)
Module ScaleRule.
Record t := mk {
  ID : string; Name : string; Deployment : string; Namespace : string; Metric : string;
  ScaleUpThreshold : float64; ScaleDownThreshold : float64; MinReplicas : Z; MaxReplicas : Z;
  CooldownUp : duration; CooldownDown : duration; Enabled : bool; CreatedAt : time;
  UpdatedAt : time;
}.

Definition set_ID (v : string) (r : t) : t :=
  mk v (Name r) (Deployment r) (Namespace r) (Metric r) (ScaleUpThreshold r)
     (ScaleDownThreshold r) (MinReplicas r) (MaxReplicas r) (CooldownUp r) (CooldownDown r)
     (Enabled r) (CreatedAt r) (UpdatedAt r).
Definition set_MinReplicas (v : Z) (r : t) : t :=
  mk (ID r) (Name r) (Deployment r) (Namespace r) (Metric r) (ScaleUpThreshold r)
     (ScaleDownThreshold r) v (MaxReplicas r) (CooldownUp r) (CooldownDown r) (Enabled r)
     (CreatedAt r) (UpdatedAt r).
Definition set_MaxReplicas (v : Z) (r : t) : t :=
  mk (ID r) (Name r) (Deployment r) (Namespace r) (Metric r) (ScaleUpThreshold r)
     (ScaleDownThreshold r) (MinReplicas r) v (CooldownUp r) (CooldownDown r) (Enabled r)
     (CreatedAt r) (UpdatedAt r).
Definition set_CooldownUp (v : duration) (r : t) : t :=
  mk (ID r) (Name r) (Deployment r) (Namespace r) (Metric r) (ScaleUpThreshold r)
     (ScaleDownThreshold r) (MinReplicas r) (MaxReplicas r) v (CooldownDown r) (Enabled r)
     (CreatedAt r) (UpdatedAt r).
Definition set_CooldownDown (v : duration) (r : t) : t :=
  mk (ID r) (Name r) (Deployment r) (Namespace r) (Metric r) (ScaleUpThreshold r)
     (ScaleDownThreshold r) (MinReplicas r) (MaxReplicas r) (CooldownUp r) v (Enabled r)
     (CreatedAt r) (UpdatedAt r).
Definition set_CreatedAt (v : time) (r : t) : t :=
  mk (ID r) (Name r) (Deployment r) (Namespace r) (Metric r) (ScaleUpThreshold r)
     (ScaleDownThreshold r) (MinReplicas r) (MaxReplicas r) (CooldownUp r) (CooldownDown r)
     (Enabled r) v (UpdatedAt r).
Definition set_UpdatedAt (v : time) (r : t) : t :=
  mk (ID r) (Name r) (Deployment r) (Namespace r) (Metric r) (ScaleUpThreshold r)
     (ScaleDownThreshold r) (MinReplicas r) (MaxReplicas r) (CooldownUp r) (CooldownDown r)
     (Enabled r) (CreatedAt r) v.
End ScaleRule.

(** The texts of the reasons. *)
Inductive reason :=
  | FailedToGetReplicas (err : string)
  | FailedToReadMetric (err : string)
  | FailedToSetReplicas (err : string)
  | InCooldown (action : string)
  | AboveThreshold (metric : string) (value threshold : float64)
  | BelowThreshold (metric : string) (value threshold : float64)
  | AtMaxReplicas
  | AtMinReplicas
  | WithinThresholds (metric : string) (value low high : float64)
  | Given (text : string).

(** [models.ScaleDecision]. *)
Module ScaleDecision.
Record t := mk {
  ID : string; RuleID : string; Deployment : string; Namespace : string; Action : string;
  FromReplicas : Z; ToReplicas : Z; Reason : reason; MetricValue : float64; Executor : string;
  Timestamp : time;
}.

Definition set_ID (v : string) (r : t) : t :=
  mk v (RuleID r) (Deployment r) (Namespace r) (Action r) (FromReplicas r) (ToReplicas r)
     (Reason r) (MetricValue r) (Executor r) (Timestamp r).
Definition set_Executor (v : string) (r : t) : t :=
  mk (ID r) (RuleID r) (Deployment r) (Namespace r) (Action r) (FromReplicas r) (ToReplicas r)
     (Reason r) (MetricValue r) v (Timestamp r).
Definition set_Timestamp (v : time) (r : t) : t :=
  mk (ID r) (RuleID r) (Deployment r) (Namespace r) (Action r) (FromReplicas r) (ToReplicas r)
     (Reason r) (MetricValue r) (Executor r) v.
End ScaleDecision.
(** ** Executors ([k8s/scaler.go]) *)

Definition ExecutorSimulated : string := "memory-simulated".
Definition IsSimulated (executor : string) : bool := executor == ExecutorSimulated.

(** What the evaluator asks of an executor, over its own state [X]. *)
Class K8sScaler (X : Type) := {
  GetReplicas : string -> string -> X -> result string Z;
  SetReplicas : string -> string -> Z -> X -> X * option string;
  Executor : X -> string;
}.

(** What a client of an executor relies on: [slot] tells which deployments are
    one and the same; a change that is not refused is read back, a refused one
    changes nothing, and other deployments keep their replicas. *)
Class LawfulScaler (X : Type) `{K8sScaler X} := {
  slot : string -> string -> string;
  get_set : forall dep ns n x x', SetReplicas dep ns n x = (x', None) -> GetReplicas dep ns x' = Ok n;
  get_set_other : forall dep ns dep' ns' n x, slot dep ns <> slot dep' ns' ->
    GetReplicas dep' ns' (SetReplicas dep ns n x).1 = GetReplicas dep' ns' x;
  get_slot : forall dep ns dep' ns' x n m, slot dep ns = slot dep' ns' ->
    GetReplicas dep ns x = Ok n -> GetReplicas dep' ns' x = Ok m -> n = m;
  set_refused : forall dep ns n x x' e, SetReplicas dep ns n x = (x', Some e) -> x' = x;
  executor_kept : forall dep ns n x, Executor (SetReplicas dep ns n x).1 = Executor x;
}.

(** The simulated executor: replicas in a map, under [namespace/deployment]. *)
Module Client.
Record t := mk { replicas : gmap string Z }.
Definition NewClient : t := mk ∅.

Definition key (deployment namespace : string) : string := namespace +:+ "/" +:+ deployment.

Definition GetReplicas (deployment namespace : string) (c : t) : result string Z :=
  if deployment == "" then Err "deployment name cannot be empty"
  else Ok (default 0%Z (replicas c !! key deployment namespace)).

Definition SetReplicas (deployment namespace : string) (n : Z) (c : t) : t * option string :=
  if deployment == "" then (c, Some "deployment name cannot be empty")
  else if (n <? 0)%Z then (c, Some "replicas cannot be negative")
  else (mk (<[key deployment namespace := n]> (replicas c)), None).

Definition RegisterDeployment (deployment namespace : string) (n : Z) (c : t) : t :=
  mk (<[key deployment namespace := n]> (replicas c)).
End Client.

#[export] Instance client_scaler : K8sScaler Client.t := {|
  GetReplicas := Client.GetReplicas; SetReplicas := Client.SetReplicas; Executor _ := ExecutorSimulated |}.

#[export] Instance client_lawful : LawfulScaler Client.t.
Proof.
  refine {| slot := Client.key |}; cbn; unfold Client.GetReplicas, Client.SetReplicas.
  - intros dep ns n x x'. repeat case_match; intros [= <-]. cbn. by rewrite lookup_insert_eq.
  - intros dep ns dep' ns' n x Hne. destruct (dep == ""), (n <? 0)%Z; try done.
    destruct (dep' == ""); [done |]. cbn. by rewrite lookup_insert_ne.
  - intros dep ns dep' ns' x n m E. rewrite E. repeat case_match; congruence.
  - intros dep ns n x x' e. repeat case_match; congruence.
  - done.
Defined.

(** ** Rules and decisions ([evaluator.go]) *)

Definition maxDecisionHistory : nat := 500.

Inductive rule_error := RuleNoID | MinReplicasNegative | MaxNotAboveMin | UpNotAboveDown | RuleNotFound.

Module CooldownStatus.
Record t := mk { RuleID : string; RuleName : string; Remaining : Z; ExpiresAt : Z }.
End CooldownStatus.

(** [t.Unix()]. *)
Definition unix_epoch : time := (62135596800 * second)%Z.
Definition Unix (t : time) : Z := ((t - unix_epoch) / second)%Z.

Module Evaluator.
Record t := mk { rules : gmap string ScaleRule.t; decisions : list ScaleDecision.t }.
Definition NewEvaluator : t := mk ∅ [].

Definition appendDecisionLocked (d : ScaleDecision.t) (e : t) : t :=
  mk (rules e) (append_capped maxDecisionHistory (decisions e) d).

Definition check_rule (r : ScaleRule.t) : option rule_error :=
  if ScaleRule.ID r == "" then Some RuleNoID
  else if (ScaleRule.MinReplicas r <? 0)%Z then Some MinReplicasNegative
  else if (ScaleRule.MaxReplicas r <=? ScaleRule.MinReplicas r)%Z then Some MaxNotAboveMin
  else if f_le (ScaleRule.ScaleUpThreshold r) (ScaleRule.ScaleDownThreshold r) then Some UpNotAboveDown
  else None.

Definition stamped (now : time) (r : ScaleRule.t) : ScaleRule.t :=
  let r := if IsZero (ScaleRule.CreatedAt r) then ScaleRule.set_CreatedAt now r else r in
  if IsZero (ScaleRule.UpdatedAt r) then ScaleRule.set_UpdatedAt now r else r.

Definition AddRule (now : time) (r : ScaleRule.t) (e : t) : t * result rule_error ScaleRule.t :=
  match check_rule r with
  | Some err => (e, Err err)
  | None => let r := stamped now r in (mk (<[ScaleRule.ID r := r]> (rules e)) (decisions e), Ok r)
  end.

Definition UpdateRule (now : time) (r : ScaleRule.t) (e : t) : t * option rule_error :=
  if ScaleRule.ID r == "" then (e, Some RuleNoID) else
  match rules e !! ScaleRule.ID r with
  | None => (e, Some RuleNotFound)
  | Some old =>
      let cp := ScaleRule.set_UpdatedAt now (ScaleRule.set_CreatedAt (ScaleRule.CreatedAt old) r) in
      (mk (<[ScaleRule.ID r := cp]> (rules e)) (decisions e), None)
  end.

Definition DeleteRule (id : string) (e : t) : t * option rule_error :=
  match rules e !! id with
  | None => (e, Some RuleNotFound)
  | Some _ => (mk (delete id (rules e)) (decisions e), None)
  end.

Definition GetRule (id : string) (e : t) : result rule_error ScaleRule.t :=
  match rules e !! id with Some r => Ok r | None => Err RuleNotFound end.
Definition ListRules (range : gmap string ScaleRule.t -> list ScaleRule.t) (e : t) : list ScaleRule.t := range (rules e).

(** The loop runs over the history from its end; it only asks whether some
    entry qualifies. *)
Definition isInCooldown (ruleID action : string) (cooldown : duration) (now : time) (ds : list ScaleDecision.t) : bool :=
  let cutoff := (now + wrap_i64 (- cooldown))%Z in
  existsb (fun d => (ScaleDecision.RuleID d == ruleID) && (ScaleDecision.Action d == action) &&
    After (ScaleDecision.Timestamp d) cutoff) (rev ds).

Section evaluate.
Context `{K8sScaler X}.
Context (ReadMetric : string -> string -> string -> result string float64).

Definition namespace_of (r : ScaleRule.t) : string :=
  if ScaleRule.Namespace r == "" then "default" else ScaleRule.Namespace r.
Definition cooldown_up (r : ScaleRule.t) : duration :=
  if (ScaleRule.CooldownUp r =? 0)%Z then (60 * second)%Z else ScaleRule.CooldownUp r.
Definition cooldown_down (r : ScaleRule.t) : duration :=
  if (ScaleRule.CooldownDown r =? 0)%Z then (300 * second)%Z else ScaleRule.CooldownDown r.

(** A decision of rule [r] ([&models.ScaleDecision{...}]). *)
Definition decision (now : time) (r : ScaleRule.t) (action : string) (from to : Z) (why : reason) (value : float64) : ScaleDecision.t :=
  ScaleDecision.mk "" (ScaleRule.ID r) (ScaleRule.Deployment r) (namespace_of r) action from to why value "" now.

(** The two branches that change something have one shape: the replicas are set
    when the new number differs. *)
Definition scale (now : time) (r : ScaleRule.t) (action : string) (cur new : Z) (why at_limit : reason) (value : float64) (x : X)
    : X * ScaleDecision.t :=
  if new != cur then
    match SetReplicas (ScaleRule.Deployment r) (namespace_of r) new x with
    | (x, Some err) => (x, decision now r "no_action" cur cur (FailedToSetReplicas err) value)
    | (x, None) => (x, decision now r action cur new why value)
    end
  else (x, decision now r "no_action" cur cur at_limit value).

Definition evaluateRule (r : ScaleRule.t) (now : time) (ds : list ScaleDecision.t) (x : X) : X * ScaleDecision.t :=
  match GetReplicas (ScaleRule.Deployment r) (namespace_of r) x with
  | Err err => (x, decision now r "no_action" 0 0 (FailedToGetReplicas err) f_zero)
  | Ok cur =>
    match ReadMetric (ScaleRule.Deployment r) (namespace_of r) (ScaleRule.Metric r) with
    | Err err => (x, decision now r "no_action" cur cur (FailedToReadMetric err) f_zero)
    | Ok value =>
      let up := ScaleRule.ScaleUpThreshold r in let down := ScaleRule.ScaleDownThreshold r in
      if f_lt up value then
        if isInCooldown (ScaleRule.ID r) "scale_up" (cooldown_up r) now ds
        then (x, decision now r "no_action" cur cur (InCooldown "scale_up") value)
        else
          let new := wrap_i32 (cur + 1) in
          let new := if (ScaleRule.MaxReplicas r <? new)%Z then ScaleRule.MaxReplicas r else new in
          scale now r "scale_up" cur new (AboveThreshold (ScaleRule.Metric r) value up) AtMaxReplicas value x
      else if f_lt value down then
        if isInCooldown (ScaleRule.ID r) "scale_down" (cooldown_down r) now ds
        then (x, decision now r "no_action" cur cur (InCooldown "scale_down") value)
        else
          let new := wrap_i32 (cur - 1) in
          let new := if (new <? ScaleRule.MinReplicas r)%Z then ScaleRule.MinReplicas r else new in
          scale now r "scale_down" cur new (BelowThreshold (ScaleRule.Metric r) value down) AtMinReplicas value x
      else (x, decision now r "no_action" cur cur (WithinThresholds (ScaleRule.Metric r) value down up) value)
    end
  end.

Definition evaluate_one (now : time) (r : ScaleRule.t) (st : t * X * list ScaleDecision.t) : t * X * list ScaleDecision.t :=
  let '(e, x, out) := st in
  let '(x, d) := evaluateRule r now (decisions e) x in
  let d := if ScaleDecision.Executor d == "" then ScaleDecision.set_Executor (Executor x) d else d in
  (appendDecisionLocked d e, x, out ++ [d]).

Definition to_evaluate (range : gmap string ScaleRule.t -> list ScaleRule.t) (ruleID : string) (e : t) : list ScaleRule.t :=
  List.filter (fun r => ScaleRule.Enabled r && ((ruleID == "") || (ScaleRule.ID r == ruleID))) (range (rules e)).

Definition Evaluate (range : gmap string ScaleRule.t -> list ScaleRule.t) (now : time) (ruleID : string) (e : t) (x : X)
    : t * X * list ScaleDecision.t :=
  foldl (fun st r => evaluate_one now r st) (e, x, []) (to_evaluate range ruleID e).
End evaluate.

Definition Decisions (e : t) : list ScaleDecision.t := decisions e.
Definition DecisionHistoryLen (e : t) : nat := length (decisions e).

Definition RecordDecision (now : time) (d : ScaleDecision.t) (e : t) : t :=
  appendDecisionLocked (if IsZero (ScaleDecision.Timestamp d) then ScaleDecision.set_Timestamp now d else d) e.

(** The latest scaling of each rule and action. *)
Definition note_last (last : gmap string (gmap string ScaleDecision.t)) (d : ScaleDecision.t)
    : gmap string (gmap string ScaleDecision.t) :=
  if (ScaleDecision.Action d != "scale_up") && (ScaleDecision.Action d != "scale_down") then last else
  let byAction := default ∅ (last !! ScaleDecision.RuleID d) in
  let newer := match byAction !! ScaleDecision.Action d with
    | None => true
    | Some prev => After (ScaleDecision.Timestamp d) (ScaleDecision.Timestamp prev)
    end in
  <[ScaleDecision.RuleID d := if newer then <[ScaleDecision.Action d := d]> byAction else byAction]> last.

Definition remaining_of (now : time) (r : ScaleRule.t) (acc : Z * Z) (entry : string * ScaleDecision.t) : Z * Z :=
  let '(action, d) := entry in
  let window := if action == "scale_down" then cooldown_down r else cooldown_up r in
  let expire := (ScaleDecision.Timestamp d + window)%Z in
  let remain := Seconds (Sub expire now) in
  if f_lt f_zero remain && (acc.1 <? f_trunc remain)%Z then (f_trunc remain, Unix expire) else acc.

Definition Cooldowns (range : gmap string ScaleRule.t -> list ScaleRule.t)
    (rangeD : gmap string ScaleDecision.t -> list (string * ScaleDecision.t)) (now : time) (e : t) : list CooldownStatus.t :=
  let last := foldl note_last ∅ (decisions e) in
  map (fun r =>
    let acc := foldl (remaining_of now r) (0, 0)%Z (rangeD (default ∅ (last !! ScaleRule.ID r))) in
    CooldownStatus.mk (ScaleRule.ID r) (ScaleRule.Name r) acc.1 acc.2) (range (rules e)).
End Evaluator.

(** The history of decisions is a bounded log. *)
#[export] Program Instance history_log : BoundedLog Evaluator.t ScaleDecision.t := {|
  log_inv e := length (Evaluator.decisions e) <= maxDecisionHistory;
  log_cap _ := maxDecisionHistory;
  log_push := Evaluator.appendDecisionLocked;
  log_contents := Evaluator.decisions |}.
Next Obligation. intros x e _. apply append_capped_bounded. Qed.
Next Obligation. done. Qed.
Next Obligation. intros x e _. apply append_capped_lastn. Qed.
Next Obligation. done. Qed.

(** ** The service ([service.go]) *)

Module ScaleRequest.
Record t := mk { Target : string; Replicas : Z; Reason : string }.
End ScaleRequest.

Inductive service_error :=
  | ErrRuleNotFound
  | ErrRuleInvalid
  | RuleRefused (err : rule_error)
  | TargetRequired
  | ReplicasNegative
  | ScalerRefused (err : string).

Module Autoscaler.
Section service.
Context `{K8sScaler X}.
Context (ReadMetric : string -> string -> string -> result string float64).

Record t := mk { evaluator : Evaluator.t; scaler : X }.

(** [rule.ScaleUpThreshold <= 0]; [now] is the clock of the service, [now'] the
    one of the evaluator. *)
Definition CreateRule (uuid : string) (now now' : time) (r : ScaleRule.t) (s : t) : t * result service_error ScaleRule.t :=
  let r := if ScaleRule.ID r == "" then ScaleRule.set_ID uuid r else r in
  if f_le (ScaleRule.ScaleUpThreshold r) f_zero then (s, Err ErrRuleInvalid) else
  let r := if (ScaleRule.MaxReplicas r <=? 0)%Z then ScaleRule.set_MaxReplicas 10 r else r in
  let r := if (ScaleRule.MinReplicas r <? 0)%Z then ScaleRule.set_MinReplicas 1 r else r in
  let r := ScaleRule.set_UpdatedAt now (ScaleRule.set_CreatedAt now r) in
  let r := if (ScaleRule.CooldownUp r =? 0)%Z then ScaleRule.set_CooldownUp (60 * second)%Z r else r in
  let r := if (ScaleRule.CooldownDown r =? 0)%Z then ScaleRule.set_CooldownDown (300 * second)%Z r else r in
  match Evaluator.AddRule now' r (evaluator s) with
  | (_, Err err) => (s, Err (RuleRefused err))
  | (e, Ok r) => (mk e (scaler s), Ok r)
  end.

Definition GetRule (id : string) (s : t) : result service_error ScaleRule.t :=
  match Evaluator.GetRule id (evaluator s) with Ok r => Ok r | Err _ => Err ErrRuleNotFound end.

Definition UpdateRule (now now' : time) (r : ScaleRule.t) (s : t) : t * result service_error ScaleRule.t :=
  if ScaleRule.ID r == "" then (s, Err ErrRuleInvalid) else
  let r := ScaleRule.set_UpdatedAt now r in
  match Evaluator.UpdateRule now' r (evaluator s) with
  | (_, Some RuleNotFound) => (s, Err ErrRuleNotFound)
  | (_, Some err) => (s, Err (RuleRefused err))
  | (e, None) => (mk e (scaler s), Ok r)
  end.

Definition DeleteRule (id : string) (s : t) : t * option service_error :=
  match Evaluator.DeleteRule id (evaluator s) with
  | (_, Some _) => (s, Some ErrRuleNotFound)
  | (e, None) => (mk e (scaler s), None)
  end.

(** Naming the decisions names the objects at the end of the history. *)
Definition named (uuids : nat -> string) (ds : list ScaleDecision.t) : list ScaleDecision.t :=
  imap (fun i d => ScaleDecision.set_ID (uuids i) d) ds.
Definition name_decisions (uuids : nat -> string) (ds : list ScaleDecision.t) (e : Evaluator.t) : Evaluator.t :=
  let h := Evaluator.decisions e in
  let k := length ds `min` length h in
  Evaluator.mk (Evaluator.rules e) (take (length h - k) h ++ lastn k (named uuids ds)).

Definition Evaluate (range : gmap string ScaleRule.t -> list ScaleRule.t) (uuids : nat -> string) (now : time) (ruleID : string) (s : t)
    : t * list ScaleDecision.t :=
  let '(e, x, ds) := Evaluator.Evaluate ReadMetric range now ruleID (evaluator s) (scaler s) in
  (mk (name_decisions uuids ds e) x, named uuids ds).

Definition GetDecisions (s : t) : list ScaleDecision.t := Evaluator.Decisions (evaluator s).
Definition GetCooldowns range rangeD (now : time) (s : t) : list CooldownStatus.t :=
  Evaluator.Cooldowns range rangeD now (evaluator s).

(** The deployment and the namespace of [namespace/deployment]. *)
Definition parseScaleTarget (target : string) : string * string :=
  let target := TrimSpace target in
  if target == "" then ("", "") else
  match cut "/" target with
  | Some (ns, dep) => (dep, if ns == "" then "default" else ns)
  | None => (target, "default")
  end.

Definition Scale (uuid : string) (now : time) (req : ScaleRequest.t) (s : t) : t * result service_error (string * bool) :=
  let '(deployment, namespace) := parseScaleTarget (ScaleRequest.Target req) in
  if deployment == "" then (s, Err TargetRequired)
  else if (ScaleRequest.Replicas req <? 0)%Z then (s, Err ReplicasNegative) else
  match GetReplicas deployment namespace (scaler s) with
  | Err err => (s, Err (ScalerRefused err))
  | Ok from =>
    match SetReplicas deployment namespace (ScaleRequest.Replicas req) (scaler s) with
    | (x, Some err) => (mk (evaluator s) x, Err (ScalerRefused err))
    | (x, None) =>
      let executor := Executor x in
      let d := ScaleDecision.mk uuid "" deployment namespace "manual" from (ScaleRequest.Replicas req)
        (Given (ScaleRequest.Reason req)) f_zero executor now in
      (mk (Evaluator.RecordDecision now d (evaluator s)) x, Ok (executor, IsSimulated executor))
    end
  end.
End service.
End Autoscaler.
