(* ===== verification/AutoscalerProps.v ===== *)
(** * Correctness of the autoscaler

    What an evaluation does to the replicas and what it writes down; bounds and
    cooldowns under every sequence of operations; that a load that stays is
    answered.  The theorems are stated over any lawful executor. *)

From Stdlib Require Import Ascii SpecFloat.
From S2P Require Import Prelude GoStrings Float64 Window Autoscaler.
Open Scope go_scope.

(** ** One rule *)

Definition is_scaling (d : ScaleDecision.t) : Prop := ScaleDecision.Action d <> "no_action".

Section one_rule.
Context `{LawfulScaler X}.
Implicit Types (x : X) (r : ScaleRule.t) (d : ScaleDecision.t) (ds : list ScaleDecision.t).

(** What a decision says of the executor's states before and after. *)
Definition tells x x' d : Prop :=
  (ScaleDecision.Action d = "no_action" /\ x' = x) \/
  (is_scaling d /\ GetReplicas (ScaleDecision.Deployment d) (ScaleDecision.Namespace d) x = Ok (ScaleDecision.FromReplicas d) /\
   SetReplicas (ScaleDecision.Deployment d) (ScaleDecision.Namespace d) (ScaleDecision.ToReplicas d) x = (x', None)).

#[export] Instance is_scaling_dec d : Decision (is_scaling d).
Proof. unfold is_scaling. apply _. Defined.

(** The bounds a change keeps to. *)
Definition clamp_up r cur : Z := Z.min (ScaleRule.MaxReplicas r) (wrap_i32 (cur + 1)).
Definition clamp_down r cur : Z := Z.max (ScaleRule.MinReplicas r) (wrap_i32 (cur - 1)).

(** The cases of [evaluateRule]: nothing, or one of the two moves. *)
Inductive outcome (read : string -> string -> string -> result string float64) r (now : time) ds x : X -> ScaleDecision.t -> Prop :=
  | stays from why v : outcome read r now ds x x (Evaluator.decision now r "no_action" from from why v)
  | moves_up x' cur why v :
      GetReplicas (ScaleRule.Deployment r) (Evaluator.namespace_of r) x = Ok cur ->
      read (ScaleRule.Deployment r) (Evaluator.namespace_of r) (ScaleRule.Metric r) = Ok v ->
      f_lt (ScaleRule.ScaleUpThreshold r) v = true ->
      Evaluator.isInCooldown (ScaleRule.ID r) "scale_up" (Evaluator.cooldown_up r) now ds = false ->
      cur <> clamp_up r cur ->
      SetReplicas (ScaleRule.Deployment r) (Evaluator.namespace_of r) (clamp_up r cur) x = (x', None) ->
      outcome read r now ds x x' (Evaluator.decision now r "scale_up" cur (clamp_up r cur) why v)
  | moves_down x' cur why v :
      GetReplicas (ScaleRule.Deployment r) (Evaluator.namespace_of r) x = Ok cur ->
      read (ScaleRule.Deployment r) (Evaluator.namespace_of r) (ScaleRule.Metric r) = Ok v ->
      f_lt v (ScaleRule.ScaleDownThreshold r) = true ->
      Evaluator.isInCooldown (ScaleRule.ID r) "scale_down" (Evaluator.cooldown_down r) now ds = false ->
      cur <> clamp_down r cur ->
      SetReplicas (ScaleRule.Deployment r) (Evaluator.namespace_of r) (clamp_down r cur) x = (x', None) ->
      outcome read r now ds x x' (Evaluator.decision now r "scale_down" cur (clamp_down r cur) why v).

Lemma clamp_up_eq r cur :
  (if (ScaleRule.MaxReplicas r <? wrap_i32 (cur + 1))%Z then ScaleRule.MaxReplicas r else wrap_i32 (cur + 1)) = clamp_up r cur.
Proof. unfold clamp_up. destruct (Z.ltb_spec (ScaleRule.MaxReplicas r) (wrap_i32 (cur + 1))); lia. Qed.

Lemma clamp_down_eq r cur :
  (if (wrap_i32 (cur - 1) <? ScaleRule.MinReplicas r)%Z then ScaleRule.MinReplicas r else wrap_i32 (cur - 1)) = clamp_down r cur.
Proof. unfold clamp_down. destruct (Z.ltb_spec (wrap_i32 (cur - 1)) (ScaleRule.MinReplicas r)); lia. Qed.

Lemma evaluateRule_outcome read r now ds x :
  outcome read r now ds x (Evaluator.evaluateRule read r now ds x).1 (Evaluator.evaluateRule read r now ds x).2.
Proof.
  unfold Evaluator.evaluateRule, Evaluator.scale.
  destruct (GetReplicas _ _ x) as [cur | err] eqn:G; [| apply stays].
  destruct (read _ _ _) as [v | err] eqn:R; [| apply stays]. cbv zeta.
  destruct (f_lt (ScaleRule.ScaleUpThreshold r) v) eqn:U.
  - destruct (Evaluator.isInCooldown _ _ _ _ _) eqn:C; [apply stays |]. rewrite clamp_up_eq.
    case_bool_decide as E; [apply stays |]. cbn [negb].
    destruct (SetReplicas _ _ _ x) as [x' [err |]] eqn:S; cbn.
    + apply set_refused in S as ->. apply stays.
    + by apply moves_up.
  - destruct (f_lt v _) eqn:D; [| apply stays].
    destruct (Evaluator.isInCooldown _ _ _ _ _) eqn:C; [apply stays |]. rewrite clamp_down_eq.
    case_bool_decide as E; [apply stays |]. cbn [negb].
    destruct (SetReplicas _ _ _ x) as [x' [err |]] eqn:S; cbn.
    + apply set_refused in S as ->. apply stays.
    + by apply moves_down.
Qed.

Lemma outcome_tells read r now ds x x' d : outcome read r now ds x x' d -> tells x x' d.
Proof. destruct 1; [by left | right ..]; unfold is_scaling; cbn; auto. Qed.
End one_rule.

(** ** Sequences of operations *)

Inductive op :=
  | OCreate (uuid : string) (now now' : time) (r : ScaleRule.t)
  | OUpdate (now now' : time) (r : ScaleRule.t)
  | ODelete (id : string)
  | OEvaluate (read : string -> string -> string -> result string float64) (range : gmap string ScaleRule.t -> list ScaleRule.t)
      (uuids : nat -> string) (now : time) (ruleID : string)
  | OScale (uuid : string) (now : time) (req : ScaleRequest.t).

Section runs.
Context `{LawfulScaler X}.
Implicit Types (x : X) (s : Autoscaler.t (X := X)) (e : Evaluator.t) (d : ScaleDecision.t) (ds log : list ScaleDecision.t).

(** One operation, with the decisions that it takes. *)
Definition exec (o : op) s : Autoscaler.t (X := X) * list ScaleDecision.t :=
  match o with
  | OCreate uuid now now' r => ((Autoscaler.CreateRule uuid now now' r s).1, [])
  | OUpdate now now' r => ((Autoscaler.UpdateRule now now' r s).1, [])
  | ODelete id => ((Autoscaler.DeleteRule id s).1, [])
  | OEvaluate read range uuids now ruleID => Autoscaler.Evaluate read range uuids now ruleID s
  | OScale uuid now req =>
      match Autoscaler.Scale uuid now req s with
      | (s', Ok _) => (s', option_list (last (Autoscaler.GetDecisions s')))
      | (s', Err _) => (s', [])
      end
  end.

(** The state after some operations and all decisions taken meanwhile. *)
Definition run (ops : list op) s : Autoscaler.t (X := X) * list ScaleDecision.t :=
  foldl (fun '(s, log) o => let '(s', ds) := exec o s in (s', log ++ ds)) (s, []) ops.

Lemma autoscaler_run_snoc ops o s :
  run (ops ++ [o]) s = ((exec o (run ops s).1).1, (run ops s).2 ++ (exec o (run ops s).1).2).
Proof. unfold run. rewrite foldl_snoc. destruct (foldl _ _ ops) as [s' log]. cbn. by destruct (exec o s'). Qed.

(** A chain of decisions that lead from one state of the executor to another. *)
Inductive explains : X -> list ScaleDecision.t -> X -> Prop :=
  | explains_nil x : explains x [] x
  | explains_cons x x1 x' d ds : tells x x1 d -> explains x1 ds x' -> explains x (d :: ds) x'.

Lemma explains_app x ds x1 ds' x' : explains x ds x1 -> explains x1 ds' x' -> explains x (ds ++ ds') x'.
Proof. induction 1 as [| x x1' x1 d ds Ht _ IH]; cbn; [done |]. intros. econstructor; eauto. Qed.

(** The replicas of the deployment at [sl] according to some decisions. *)
Definition replay (sl : string) (n : Z) ds : Z :=
  foldl (fun n d =>
    if decide (is_scaling d /\ slot (ScaleDecision.Deployment d) (ScaleDecision.Namespace d) = sl)
    then ScaleDecision.ToReplicas d else n) n ds.

(** Some name of the deployment at [sl] reads [n]. *)
Definition reads (sl : string) x (n : Z) : Prop := exists dep ns, slot dep ns = sl /\ GetReplicas dep ns x = Ok n.

Lemma explains_replay x ds x' sl n : explains x ds x' -> reads sl x n -> reads sl x' (replay sl n ds).
Proof.
  intros Hx. revert n. induction Hx as [| x x1 x' d ds Ht _ IH]; intros n Hn; [done |]. cbn. apply IH.
  destruct Ht as [[Ha ->] | (Ha & _ & Hs)].
  - rewrite decide_False; [done |]. by intros [? _].
  - case_decide as E.
    + exists (ScaleDecision.Deployment d), (ScaleDecision.Namespace d). split; [apply E | by eapply get_set].
    + destruct Hn as (dep & ns & <- & Hn). exists dep, ns. split; [done |].
      replace x1 with (SetReplicas (ScaleDecision.Deployment d) (ScaleDecision.Namespace d) (ScaleDecision.ToReplicas d) x).1 by by rewrite Hs.
      rewrite get_set_other; [done |]. intros E'. by apply E.
Qed.

(** What a run of [evaluate_one]s adds: decisions appended to the history, each
    the outcome of its rule under the history so far. *)
Definition labelled (ex : string) d : ScaleDecision.t := if ScaleDecision.Executor d == "" then ScaleDecision.set_Executor ex d else d.

Inductive evaluated read (now : time) : list ScaleRule.t -> list ScaleDecision.t -> X -> list ScaleDecision.t -> X -> Prop :=
  | evaluated_nil h x : evaluated read now [] h x [] x
  | evaluated_cons r rs h x d x1 ds x' :
      outcome read r now h x x1 d ->
      evaluated read now rs (append_capped maxDecisionHistory h (labelled (Executor x1) d)) x1 ds x' ->
      evaluated read now (r :: rs) h x (labelled (Executor x1) d :: ds) x'.

Lemma Evaluate_evaluated read now rs e x out :
  let '(e', x', out') := foldl (fun st r => Evaluator.evaluate_one read now r st) (e, x, out) rs in
  exists ds, out' = out ++ ds /\ evaluated read now rs (Evaluator.decisions e) x ds x' /\
    e' = log_pushes ds e.
Proof.
  revert e x out. induction rs as [| r rs IH]; intros e x out; cbn.
  { exists []. split; [by rewrite app_nil_r | split; [constructor | done]]. }
  destruct (Evaluator.evaluateRule read r now (Evaluator.decisions e) x) as [x1 d] eqn:Er.
  pose proof (evaluateRule_outcome read r now (Evaluator.decisions e) x) as Ho. rewrite Er in Ho. cbn in Ho.
  fold (labelled (Executor x1) d). specialize (IH (Evaluator.appendDecisionLocked (labelled (Executor x1) d) e) x1 (out ++ [labelled (Executor x1) d])).
  destruct (foldl _ _ rs) as [[e' x'] out']. destruct IH as (ds & -> & He & ->).
  exists (labelled (Executor x1) d :: ds). rewrite <- app_assoc. split; [done | split; [| done]]. by econstructor.
Qed.

Lemma rules_log_pushes ds e : Evaluator.rules (log_pushes ds e) = Evaluator.rules e.
Proof. revert e. induction ds as [| d ds IH]; intros e; [done |]. exact (IH (Evaluator.appendDecisionLocked d e)). Qed.

(** [Evaluate] as a whole. *)
Lemma exec_evaluate read range uuids now ruleID s :
  exists ds x', Autoscaler.Evaluate read range uuids now ruleID s =
      (Autoscaler.mk (Autoscaler.name_decisions uuids ds (log_pushes ds (Autoscaler.evaluator s))) x', Autoscaler.named uuids ds) /\
    evaluated read now (Evaluator.to_evaluate range ruleID (Autoscaler.evaluator s)) (Evaluator.decisions (Autoscaler.evaluator s))
      (Autoscaler.scaler s) ds x'.
Proof.
  unfold Autoscaler.Evaluate, Evaluator.Evaluate.
  pose proof (Evaluate_evaluated read now (Evaluator.to_evaluate range ruleID (Autoscaler.evaluator s)) (Autoscaler.evaluator s) (Autoscaler.scaler s) []) as He.
  destruct (foldl _ _ _) as [[e' x'] out']. destruct He as (ds & -> & He & ->). by exists ds, x'.
Qed.

(** What is evaluated are rules of the evaluator, if the range is sound. *)
Lemma to_evaluate_rules range ruleID e :
  (forall m r, r ∈ range m -> exists id, m !! id = Some r) ->
  Forall (fun r => exists id, Evaluator.rules e !! id = Some r) (Evaluator.to_evaluate range ruleID e).
Proof.
  intros Hr. apply Forall_forall. intros r Hin. unfold Evaluator.to_evaluate in Hin.
  rewrite list_elem_of_In, filter_In, <- list_elem_of_In in Hin. apply Hr, Hin.
Qed.

Lemma labelled_tells ex x x' d : tells x x' d -> tells x x' (labelled ex d).
Proof. unfold labelled. by case_bool_decide. Qed.

Lemma evaluated_explains read now rs h x ds x' : evaluated read now rs h x ds x' -> explains x ds x'.
Proof.
  induction 1 as [| r rs h x d x1 ds x' Ho _ IH]; [constructor |].
  econstructor; [by eapply labelled_tells, outcome_tells | done].
Qed.

Lemma explains_named uuids x ds x' : explains x ds x' -> explains x (Autoscaler.named uuids ds) x'.
Proof.
  intros Hx. revert uuids. induction Hx as [| x x1 x' d ds Ht _ IH]; intros uuids; [constructor |].
  unfold Autoscaler.named. cbn. apply (explains_cons x x1 x'); [exact Ht | apply IH].
Qed.

(** Replacing the end of a window by the same number of elements. *)
Lemma lastn_replace {A} n (a b b' : list A) :
  length b' = length b ->
  let h := lastn n (a ++ b) in let k := length b `min` length h in
  take (length h - k) h ++ lastn k b' = lastn n (a ++ b').
Proof.
  intros E h k. unfold k, h. rewrite length_lastn, length_app. unfold lastn. rewrite !length_app, E, !drop_app.
  destruct (decide (length b <= n)) as [Hle | Hgt].
  - replace (length a + length b - n - length a) with 0 by lia. rewrite !drop_0.
    rewrite take_app_le by (rewrite length_drop; lia).
    rewrite take_ge by (rewrite length_drop; lia).
    by replace (length b - length b `min` (n `min` (length a + length b))) with 0 by lia.
  - rewrite !(drop_ge a) by lia. rewrite !app_nil_l.
    rewrite (proj2 (Nat.sub_0_le _ _)) by lia. rewrite take_0, app_nil_l. f_equal. lia.
Qed.

Lemma length_named uuids ds : length (Autoscaler.named uuids ds) = length ds.
Proof. apply length_imap. Qed.

(** What one operation does to the history and to the executor. *)
Lemma exec_history o s :
  length (Evaluator.decisions (Autoscaler.evaluator s)) <= maxDecisionHistory ->
  Evaluator.decisions (Autoscaler.evaluator (exec o s).1) =
    lastn maxDecisionHistory (Evaluator.decisions (Autoscaler.evaluator s) ++ (exec o s).2) /\
  explains (Autoscaler.scaler s) (exec o s).2 (Autoscaler.scaler (exec o s).1).
Proof.
  intros Hlen. destruct o as [uuid now now' r | now now' r | id | read range uuids now ruleID | uuid now req]; cbn [exec].
  1-3: rewrite app_nil_r, lastn_all by done.
  - unfold Autoscaler.CreateRule, Evaluator.AddRule. repeat case_match; simplify_eq; by split; [| constructor].
  - unfold Autoscaler.UpdateRule, Evaluator.UpdateRule. repeat case_match; simplify_eq; by split; [| constructor].
  - unfold Autoscaler.DeleteRule, Evaluator.DeleteRule. repeat case_match; simplify_eq; by split; [| constructor].
  - destruct (exec_evaluate read range uuids now ruleID s) as (ds & x' & -> & He). cbn [fst snd Autoscaler.evaluator Autoscaler.scaler]. split.
    + unfold Autoscaler.name_decisions. cbn [Evaluator.decisions].
      change (Evaluator.decisions (log_pushes ds (Autoscaler.evaluator s))) with (log_contents (log_pushes ds (Autoscaler.evaluator s))).
      rewrite log_pushes_contents by done. change (log_cap _) with maxDecisionHistory. cbn [log_contents history_log].
      apply (lastn_replace maxDecisionHistory), length_named.
    + by eapply explains_named, evaluated_explains.
  - unfold Autoscaler.Scale. destruct (Autoscaler.parseScaleTarget _) as [dep ns].
    assert (Hkeep : forall x', x' = Autoscaler.scaler s -> Evaluator.decisions (Autoscaler.evaluator s) =
      lastn maxDecisionHistory (Evaluator.decisions (Autoscaler.evaluator s) ++ []) /\ explains (Autoscaler.scaler s) [] x').
    { intros x' ->. rewrite app_nil_r, lastn_all by done. by split; [| constructor]. }
    destruct (dep == ""); [by apply Hkeep |]. destruct (_ <? 0)%Z; [by apply Hkeep |].
    destruct (GetReplicas dep ns _) as [from | err] eqn:G; [| by apply Hkeep].
    destruct (SetReplicas dep ns _ _) as [x' [err |]] eqn:S; [apply Hkeep; by eapply set_refused |].
    unfold Evaluator.RecordDecision. set (d := if IsZero _ then _ else _).
    unfold Autoscaler.GetDecisions, Evaluator.Decisions. cbn [Evaluator.appendDecisionLocked Autoscaler.evaluator Autoscaler.scaler Evaluator.decisions].
    rewrite append_capped_lastn, (lastn_app_last d) by (unfold maxDecisionHistory; lia).
    cbn [option_list fst snd Autoscaler.evaluator Autoscaler.scaler Evaluator.decisions]. split; [apply append_capped_lastn |].
    apply (explains_cons _ x'); [| constructor]. right. unfold is_scaling, d. case_match; cbn; auto.
Qed.

(** The history is the end of the log of all decisions. *)
Lemma run_history_from ops s :
  length (Evaluator.decisions (Autoscaler.evaluator s)) <= maxDecisionHistory ->
  Evaluator.decisions (Autoscaler.evaluator (run ops s).1) =
    lastn maxDecisionHistory (Evaluator.decisions (Autoscaler.evaluator s) ++ (run ops s).2) /\
  explains (Autoscaler.scaler s) (run ops s).2 (Autoscaler.scaler (run ops s).1).
Proof.
  intros H0'. induction ops as [| o ops [IH1 IH2]] using rev_ind.
  { cbn. rewrite app_nil_r, lastn_all by done. by split; [| constructor]. }
  rewrite autoscaler_run_snoc. destruct (exec_history o (run ops s).1) as [E1 E2].
  { rewrite IH1, length_lastn. lia. }
  cbn [fst snd]. split; [by rewrite E1, IH1, lastn_lastn_app, app_assoc | by eapply explains_app].
Qed.

Lemma run_history ops s :
  Evaluator.decisions (Autoscaler.evaluator s) = [] ->
  Evaluator.decisions (Autoscaler.evaluator (run ops s).1) = lastn maxDecisionHistory (run ops s).2 /\
  explains (Autoscaler.scaler s) (run ops s).2 (Autoscaler.scaler (run ops s).1).
Proof. intros E. destruct (run_history_from ops s) as [E1 E2]; [rewrite E; cbn; lia |]. by rewrite E in E1. Qed.

(** After any operations, whatever the readings, orders and refusals, the
    replicas that a deployment reads are those of its last decision that changed
    it (by rule or by hand), and the history is the end of the log of decisions. *)
Theorem decisions_explain_replicas ops s dep ns n m :
  Evaluator.decisions (Autoscaler.evaluator s) = [] ->
  GetReplicas dep ns (Autoscaler.scaler s) = Ok n -> GetReplicas dep ns (Autoscaler.scaler (run ops s).1) = Ok m ->
  m = replay (slot dep ns) n (run ops s).2 /\
  Autoscaler.GetDecisions (run ops s).1 = lastn maxDecisionHistory (run ops s).2.
Proof.
  intros Hs Hn Hm. destruct (run_history ops s Hs) as [Hh Hx]. split; [| done].
  destruct (explains_replay _ _ _ (slot dep ns) n Hx) as (dep' & ns' & E & H'); [by exists dep, ns |].
  symmetry. by eapply get_slot.
Qed.

(** ** Cooldowns *)

(** What decides about cooldowns: rule, action and instant. *)
Definition sig d : string * string * time := (ScaleDecision.RuleID d, ScaleDecision.Action d, ScaleDecision.Timestamp d).

Definition far (c : duration) (h : list (string * string * time)) (t : string * string * time) : Prop :=
  forall t', t' ∈ h -> t'.1 = t.1 -> (t'.2 + c <= t.2)%Z.

Inductive spaced (c : duration) : list (string * string * time) -> Prop :=
  | spaced_nil : spaced c []
  | spaced_snoc L t : spaced c L -> (t.1.2 = "scale_up" \/ t.1.2 = "scale_down" -> far c (lastn maxDecisionHistory L) t) ->
      spaced c (L ++ [t]).

(** Rules with cooldowns of at least [c]. *)
Definition patient_rule (c : duration) (r : ScaleRule.t) : Prop :=
  (c <= Evaluator.cooldown_up r <= max_i64 /\ c <= Evaluator.cooldown_down r <= max_i64)%Z.

Definition patient (c : duration) (o : op) : Prop :=
  match o with
  | OCreate _ _ _ r | OUpdate _ _ r => patient_rule c r
  | OEvaluate _ range _ _ _ => forall m r, r ∈ range m -> exists id, m !! id = Some r
  | _ => True
  end.

Definition patient_rules (c : duration) e : Prop := map_Forall (fun _ r => patient_rule c r) (Evaluator.rules e).

Lemma calm_far c id action cooldown now ds t :
  (0 <= c <= cooldown)%Z -> (cooldown <= max_i64)%Z -> Evaluator.isInCooldown id action cooldown now ds = false ->
  t = (id, action, now) -> far c (sig <$> ds) t.
Proof.
  intros Hc Hm Hi -> t' (d & -> & Hd)%list_elem_of_fmap [= E1 E2]. cbn in *.
  unfold Evaluator.isInCooldown in Hi. rewrite existsb_false in Hi.
  specialize (Hi d ltac:(by rewrite elem_of_reverse_rev || (rewrite list_elem_of_In, <- in_rev, <- list_elem_of_In))).
  rewrite wrap_i64_id in Hi by (unfold in_i64, max_i64 in *; lia).
  rewrite E1, E2, !bool_decide_true in Hi by done. cbn in Hi. unfold After in Hi. lia.
Qed.

Lemma evaluated_spaced c read now rs h x ds x' L :
  (0 <= c)%Z -> Forall (patient_rule c) rs -> evaluated read now rs h x ds x' ->
  sig <$> h = lastn maxDecisionHistory L -> spaced c L -> spaced c (L ++ (sig <$> ds)).
Proof.
  intros Hc Hr He. revert L. induction He as [h x | r rs h x d x1 ds x' Ho _ IH]; intros L HL Hs.
  { by rewrite app_nil_r. }
  inversion Hr as [| ?? [Hu Hd] Hr']; subst. cbn. rewrite cons_middle, app_assoc.
  assert (E : sig (labelled (Executor x1) d) = sig d) by (unfold labelled; by case_bool_decide). rewrite E.
  apply IH; [done | |].
  - rewrite append_capped_lastn, fmap_lastn, fmap_app. cbn. by rewrite E, HL, lastn_lastn_app.
  - apply spaced_snoc; [done |]. intros Ha. rewrite <- HL.
    destruct Ho; cbn in *; [by destruct Ha | eapply calm_far .. ]; [| | done | done | | | done | done]; lia.
Qed.

Lemma stamped_cooldowns now r : Evaluator.cooldown_up (Evaluator.stamped now r) = Evaluator.cooldown_up r.
Proof. unfold Evaluator.stamped. by repeat case_match. Qed.

Lemma stamped_cooldowns' now r : Evaluator.cooldown_down (Evaluator.stamped now r) = Evaluator.cooldown_down r.
Proof. unfold Evaluator.stamped. by repeat case_match. Qed.

Lemma exec_patient c o s : patient c o -> patient_rules c (Autoscaler.evaluator s) -> patient_rules c (Autoscaler.evaluator (exec o s).1).
Proof.
  intros Ho Hs. destruct o as [uuid now now' r | now now' r | id | read range uuids now ruleID | uuid now req]; cbn [exec patient] in *.
  - unfold Autoscaler.CreateRule. destruct (f_le _ f_zero); [done |]. cbv zeta.
    match goal with |- context [Evaluator.AddRule _ ?r _] => set (r' := r) end.
    unfold Evaluator.AddRule. destruct (Evaluator.check_rule r'); [done |]. cbn [fst Autoscaler.evaluator].
    apply map_Forall_insert_2; [| done]. unfold patient_rule in *. rewrite stamped_cooldowns, stamped_cooldowns'.
    revert Ho. unfold r', Evaluator.cooldown_up, Evaluator.cooldown_down. clear. repeat case_match; cbn in *; lia.
  - unfold Autoscaler.UpdateRule, Evaluator.UpdateRule. repeat case_match; simplify_eq; try done. by apply map_Forall_insert_2.
  - unfold Autoscaler.DeleteRule, Evaluator.DeleteRule. repeat case_match; simplify_eq; try done. by apply map_Forall_delete.
  - destruct (exec_evaluate read range uuids now ruleID s) as (ds & x' & -> & _).
    unfold patient_rules. cbn [fst Autoscaler.evaluator Autoscaler.name_decisions Evaluator.rules]. by rewrite rules_log_pushes.
  - unfold Autoscaler.Scale. repeat case_match; simplify_eq; done.
Qed.

Lemma sig_named uuids ds : sig <$> Autoscaler.named uuids ds = sig <$> ds.
Proof.
  unfold Autoscaler.named. apply list_eq. intros i. rewrite !list_lookup_fmap, list_lookup_imap. by destruct (ds !! i).
Qed.

Lemma exec_spaced c o s L :
  (0 <= c)%Z -> patient c o -> patient_rules c (Autoscaler.evaluator s) ->
  sig <$> Evaluator.decisions (Autoscaler.evaluator s) = lastn maxDecisionHistory L -> spaced c L ->
  spaced c (L ++ (sig <$> (exec o s).2)).
Proof.
  intros Hc Ho Hr HL Hs. destruct o as [uuid now now' r | now now' r | id | read range uuids now ruleID | uuid now req]; cbn [exec snd fmap list_fmap]; rewrite ?app_nil_r; try done.
  - destruct (exec_evaluate read range uuids now ruleID s) as (ds & x' & -> & He). cbn [snd]. rewrite sig_named.
    eapply evaluated_spaced; [done | | exact He | done | done].
    eapply Forall_impl; [by apply to_evaluate_rules |]. intros r (id & Hid). by eapply Hr.
  - unfold Autoscaler.Scale. repeat case_match; cbn [snd fmap list_fmap]; rewrite ?app_nil_r; simplify_eq; try done.
    unfold Autoscaler.GetDecisions, Evaluator.Decisions, Evaluator.RecordDecision, Evaluator.appendDecisionLocked. cbn [Autoscaler.evaluator Evaluator.decisions].
    rewrite append_capped_lastn, lastn_app_last by (unfold maxDecisionHistory; lia). cbn.
    apply spaced_snoc; [done |]. by case_match; cbn; intros [|].
Qed.

Lemma spaced_lookup c L i j t t' :
  spaced c L -> L !! i = Some t -> L !! j = Some t' -> i < j <= i + maxDecisionHistory -> t.1 = t'.1 ->
  t'.1.2 = "scale_up" \/ t'.1.2 = "scale_down" -> (t.2 + c <= t'.2)%Z.
Proof.
  intros Hs. revert i j t t'. induction Hs as [| L t0 Hs IH Hf]; intros i j t t' Hi Hj Hij E Ha; [done |].
  pose proof (lookup_lt_Some _ _ _ Hj) as Hlt. rewrite length_app in Hlt. cbn in Hlt.
  rewrite lookup_app_l in Hi by lia. destruct (decide (j = length L)) as [-> | Hne].
  - rewrite lookup_app_r, Nat.sub_diag in Hj by lia. injection Hj as <-. apply (Hf Ha); [| done].
    eapply elem_of_lastn_lookup; [exact Hi | lia].
  - rewrite lookup_app_l in Hj by lia. by eapply IH.
Qed.

(** If all rules have cooldowns of at least [c], two scalings of one rule in
    one direction are at least [c] apart, whatever else is decided, created,
    changed and scaled by hand, provided that fewer than [maxDecisionHistory]
    other decisions lie between them. *)
Theorem cooldown_respected ops s c i j d d' :
  (0 <= c)%Z -> Evaluator.decisions (Autoscaler.evaluator s) = [] -> patient_rules c (Autoscaler.evaluator s) -> Forall (patient c) ops ->
  (run ops s).2 !! i = Some d -> (run ops s).2 !! j = Some d' -> i < j <= i + maxDecisionHistory ->
  ScaleDecision.RuleID d' = ScaleDecision.RuleID d -> ScaleDecision.Action d' = ScaleDecision.Action d ->
  ScaleDecision.Action d = "scale_up" \/ ScaleDecision.Action d = "scale_down" ->
  (ScaleDecision.Timestamp d + c <= ScaleDecision.Timestamp d')%Z.
Proof.
  intros Hc Hs Hr Hops Hi Hj Hij Erule Eact Ha.
  assert (Hsp : spaced c (sig <$> (run ops s).2) /\ patient_rules c (Autoscaler.evaluator (run ops s).1)).
  { clear -H0 Hc Hs Hr Hops. induction ops as [| o ops IH] using rev_ind; [by split; [constructor |] |].
    apply Forall_app in Hops as [Hops [Ho _]%Forall_cons_1]. destruct (IH Hops) as [IH1 IH2]. rewrite autoscaler_run_snoc. cbn [fst snd]. rewrite fmap_app.
    split; [| by apply exec_patient].
    apply exec_spaced; try done. by rewrite (proj1 (run_history ops s Hs)), fmap_lastn. }
  apply (spaced_lookup c (sig <$> (run ops s).2) i j (sig d) (sig d')); rewrite ?list_lookup_fmap, ?Hi, ?Hj; try done; cbn; [by destruct Hsp | congruence |].
  by rewrite Eact.
Qed.

(** The converse: a cooldown is forgotten as soon as [maxDecisionHistory] other
    decisions have been taken. *)
Lemma not_in_cooldown r cooldown now action ds :
  (forall d, d ∈ ds -> ScaleDecision.RuleID d = ScaleRule.ID r -> ScaleDecision.Action d = action ->
    ScaleDecision.Timestamp d <= now + wrap_i64 (- cooldown))%Z ->
  Evaluator.isInCooldown (ScaleRule.ID r) action cooldown now ds = false.
Proof.
  intros Hd. apply existsb_false. intros d Hin.
  rewrite list_elem_of_In, <- in_rev, <- list_elem_of_In in Hin. specialize (Hd d Hin).
  case_bool_decide; [| done]. case_bool_decide; [| done]. cbn. apply Z.ltb_ge. by apply Hd.
Qed.

(** After [maxDecisionHistory] other decisions - scalings by hand of any
    deployments, or evaluations that change nothing - a rule whose metric is above its
    threshold is scaled up again, however recently it was. *)
Theorem cooldown_forgotten ops s r read now cur v x' :
  length (Evaluator.decisions (Autoscaler.evaluator s)) <= maxDecisionHistory ->
  maxDecisionHistory <= length (run ops s).2 ->
  Forall (fun d => ScaleDecision.RuleID d <> ScaleRule.ID r \/ ScaleDecision.Action d <> "scale_up") (run ops s).2 ->
  let s' := (run ops s).1 in
  GetReplicas (ScaleRule.Deployment r) (Evaluator.namespace_of r) (Autoscaler.scaler s') = Ok cur ->
  read (ScaleRule.Deployment r) (Evaluator.namespace_of r) (ScaleRule.Metric r) = Ok v -> f_lt (ScaleRule.ScaleUpThreshold r) v = true ->
  (0 <= cur < ScaleRule.MaxReplicas r)%Z -> (ScaleRule.MaxReplicas r < 2 ^ 31)%Z ->
  SetReplicas (ScaleRule.Deployment r) (Evaluator.namespace_of r) (cur + 1) (Autoscaler.scaler s') = (x', None) ->
  let '(x'', d) := Evaluator.evaluateRule read r now (Autoscaler.GetDecisions s') (Autoscaler.scaler s') in
  x'' = x' /\ ScaleDecision.Action d = "scale_up" /\ ScaleDecision.ToReplicas d = (cur + 1)%Z.
Proof.
  intros Hlen Hlog Hnone s' G R U Hcur Hmax S.
  assert (Hcalm : Evaluator.isInCooldown (ScaleRule.ID r) "scale_up" (Evaluator.cooldown_up r) now (Autoscaler.GetDecisions s') = false).
  { apply not_in_cooldown. intros d Hd E1 E2. exfalso. rewrite Forall_forall in Hnone.
    unfold Autoscaler.GetDecisions, Evaluator.Decisions, s' in Hd. rewrite (proj1 (run_history_from ops s Hlen)) in Hd.
    unfold lastn in Hd. rewrite length_app, drop_app_ge in Hd by lia. apply subseteq_drop in Hd. destruct (Hnone d Hd); congruence. }
  unfold Evaluator.evaluateRule. rewrite G, R, U, Hcalm. cbv zeta. rewrite clamp_up_eq.
  assert (E : clamp_up r cur = (cur + 1)%Z) by (unfold clamp_up; rewrite wrap_i32_id by (unfold in_i32; lia); lia).
  unfold Evaluator.scale. rewrite E, bool_decide_false by lia. cbn [negb]. by rewrite S.
Qed.

(** ** Bounds *)

(** The rules of [e] are those that [AddRule] accepts, for different
    deployments. *)
Definition well_ruled e : Prop :=
  map_Forall (fun _ r => 0 <= ScaleRule.MinReplicas r <= ScaleRule.MaxReplicas r /\ ScaleRule.MaxReplicas r < 2 ^ 31 - 1)%Z (Evaluator.rules e) /\
  forall i j r r', Evaluator.rules e !! i = Some r -> Evaluator.rules e !! j = Some r' -> i <> j ->
    slot (ScaleRule.Deployment r) (Evaluator.namespace_of r) <> slot (ScaleRule.Deployment r') (Evaluator.namespace_of r').

Definition within e x : Prop :=
  map_Forall (fun _ r => forall n, GetReplicas (ScaleRule.Deployment r) (Evaluator.namespace_of r) x = Ok n ->
    (ScaleRule.MinReplicas r <= n <= ScaleRule.MaxReplicas r)%Z) (Evaluator.rules e).

Definition only_evaluates (o : op) : Prop :=
  match o with OEvaluate _ range _ _ _ => forall m r, r ∈ range m -> exists id, m !! id = Some r | _ => False end.

Lemma outcome_within e read i r now h x x' d :
  well_ruled e -> Evaluator.rules e !! i = Some r -> outcome read r now h x x' d -> within e x -> within e x'.
Proof.
  intros [Hb Hd] Hi Ho Hx. destruct (Hb i r Hi) as [Hr1 Hr2].
  assert (Hset : forall n, SetReplicas (ScaleRule.Deployment r) (Evaluator.namespace_of r) n x = (x', None) ->
    (ScaleRule.MinReplicas r <= n <= ScaleRule.MaxReplicas r)%Z -> within e x').
  { intros n S Hn j r' Hj m Hm. destruct (decide (i = j)) as [<- | Hne].
    - assert (r' = r) as -> by congruence. apply get_set in S. assert (n = m) as -> by congruence. done.
    - apply (Hx j r' Hj). rewrite <- Hm. replace x' with (SetReplicas (ScaleRule.Deployment r) (Evaluator.namespace_of r) n x).1 by by rewrite S.
      symmetry. apply get_set_other. by apply (Hd i j). }
  destruct Ho as [| x' cur why v G _ _ _ _ S | x' cur why v G _ _ _ _ S]; [done | ..];
    pose proof (Hx i r Hi cur G) as Hc; apply (Hset _ S); unfold clamp_up, clamp_down; rewrite wrap_i32_id by (unfold in_i32; lia); lia.
Qed.

Lemma evaluated_within e read now rs h x ds x' :
  well_ruled e -> Forall (fun r => exists i, Evaluator.rules e !! i = Some r) rs -> evaluated read now rs h x ds x' -> within e x -> within e x'.
Proof.
  intros He Hrs Hev. induction Hev as [| r rs h x d x1 ds x' Ho _ IH]; intros Hx; [done |].
  apply Forall_cons in Hrs as [(i & Hi) Hrs]. apply IH; [done |]. by eapply outcome_within.
Qed.

(** Evaluations, however many and whatever the metrics read, keep every
    deployment within the bounds of its rule once it is within them. *)
Theorem scaling_stays_in_bounds ops s :
  well_ruled (Autoscaler.evaluator s) -> within (Autoscaler.evaluator s) (Autoscaler.scaler s) -> Forall only_evaluates ops ->
  within (Autoscaler.evaluator s) (Autoscaler.scaler (run ops s).1).
Proof.
  intros Hr Hw Hops.
  cut (within (Autoscaler.evaluator s) (Autoscaler.scaler (run ops s).1) /\
    Evaluator.rules (Autoscaler.evaluator (run ops s).1) = Evaluator.rules (Autoscaler.evaluator s)); [by intros [] |].
  induction ops as [| o ops IH] using rev_ind; [done |]. apply Forall_app in Hops as [Hops [Ho _]%Forall_cons_1].
  destruct (IH Hops) as [IH1 IH2]. rewrite autoscaler_run_snoc. cbn [fst]. destruct o as [| | | read range uuids now ruleID |]; try done. cbn in Ho |- *.
  destruct (exec_evaluate read range uuids now ruleID (run ops s).1) as (ds & x' & -> & He).
  cbn [fst Autoscaler.scaler Autoscaler.evaluator Autoscaler.name_decisions Evaluator.rules].
  rewrite rules_log_pushes. split; [| done]. eapply evaluated_within; [done | | exact He | done].
  rewrite <- IH2. by apply to_evaluate_rules.
Qed.

(** ** A load that stays *)

Lemma Evaluate_single read range uuids now ruleID r s :
  Evaluator.to_evaluate range ruleID (Autoscaler.evaluator s) = [r] ->
  let res := Evaluator.evaluateRule read r now (Evaluator.decisions (Autoscaler.evaluator s)) (Autoscaler.scaler s) in
  let '(s', ds) := Autoscaler.Evaluate read range uuids now ruleID s in
  Autoscaler.scaler s' = res.1 /\ Evaluator.rules (Autoscaler.evaluator s') = Evaluator.rules (Autoscaler.evaluator s) /\
  sig <$> ds = [sig res.2].
Proof.
  intros E. unfold Autoscaler.Evaluate, Evaluator.Evaluate. rewrite E. cbn.
  destruct (Evaluator.evaluateRule _ _ _ _ _) as [x d]. cbn. split; [done | split; [done |]]. by case_match.
Qed.

Lemma evaluateRule_up read r now ds x cur v :
  GetReplicas (ScaleRule.Deployment r) (Evaluator.namespace_of r) x = Ok cur ->
  read (ScaleRule.Deployment r) (Evaluator.namespace_of r) (ScaleRule.Metric r) = Ok v -> f_lt (ScaleRule.ScaleUpThreshold r) v = true ->
  Evaluator.isInCooldown (ScaleRule.ID r) "scale_up" (Evaluator.cooldown_up r) now ds = false ->
  (exists x', SetReplicas (ScaleRule.Deployment r) (Evaluator.namespace_of r) (clamp_up r cur) x = (x', None)) ->
  GetReplicas (ScaleRule.Deployment r) (Evaluator.namespace_of r) (Evaluator.evaluateRule read r now ds x).1 = Ok (clamp_up r cur).
Proof.
  intros G R U C (x' & S). unfold Evaluator.evaluateRule, Evaluator.scale. rewrite G, R, U, C. cbv zeta. rewrite clamp_up_eq.
  case_bool_decide as E; cbn; [congruence |]. rewrite S. by eapply get_set.
Qed.

Lemma evaluateRule_sig read r now ds x :
  let t := sig (Evaluator.evaluateRule read r now ds x).2 in t.1.1 = ScaleRule.ID r /\ t.2 = now.
Proof. by destruct (evaluateRule_outcome read r now ds x). Qed.

(** Under a metric that stays above the threshold, checks that are a cooldown
    apart add one replica each until the maximum of the rule, which is kept. *)
Theorem held_load_reaches_max ts s r read range uuids v n :
  Evaluator.decisions (Autoscaler.evaluator s) = [] -> Evaluator.rules (Autoscaler.evaluator s) = {[ScaleRule.ID r := r]} ->
  ScaleRule.Enabled r = true -> range {[ScaleRule.ID r := r]} = [r] ->
  read (ScaleRule.Deployment r) (Evaluator.namespace_of r) (ScaleRule.Metric r) = Ok v -> f_lt (ScaleRule.ScaleUpThreshold r) v = true ->
  (forall k x, (0 <= k)%Z -> exists x', SetReplicas (ScaleRule.Deployment r) (Evaluator.namespace_of r) k x = (x', None)) ->
  GetReplicas (ScaleRule.Deployment r) (Evaluator.namespace_of r) (Autoscaler.scaler s) = Ok n ->
  (0 <= n <= ScaleRule.MaxReplicas r)%Z -> (ScaleRule.MaxReplicas r < 2 ^ 31 - 1)%Z ->
  (0 < Evaluator.cooldown_up r <= max_i64)%Z -> StronglySorted (fun a b => (a + Evaluator.cooldown_up r <= b)%Z) ts ->
  GetReplicas (ScaleRule.Deployment r) (Evaluator.namespace_of r)
    (Autoscaler.scaler (run ((fun t => OEvaluate read range uuids t "") <$> ts) s).1) =
    Ok (Z.min (ScaleRule.MaxReplicas r) (n + Z.of_nat (length ts))).
Proof.
  intros Hs Hrules Hen Hrange R U Hwill G Hn Hmax Hc Hts. set (ops := fun ts : list Z => (fun t => OEvaluate read range uuids t "") <$> ts).
  change (fmap _ ts) with (ops ts).
  cut (GetReplicas (ScaleRule.Deployment r) (Evaluator.namespace_of r) (Autoscaler.scaler (run (ops ts) s).1) =
      Ok (Z.min (ScaleRule.MaxReplicas r) (n + Z.of_nat (length ts))) /\
    Evaluator.rules (Autoscaler.evaluator (run (ops ts) s).1) = {[ScaleRule.ID r := r]} /\
    Forall (fun t => t.2 ∈ ts) (sig <$> (run (ops ts) s).2)); [by intros [] |].
  induction ts as [| t ts IH] using rev_ind; [cbn; split; [rewrite G; f_equal; lia | by split] |].
  apply StronglySorted_app in Hts as (Hbefore & Hts & _). destruct (IH Hts) as (IH1 & IH2 & IH3). clear IH.
  unfold ops. rewrite fmap_app. cbn [fmap list_fmap]. rewrite autoscaler_run_snoc. fold (ops ts). cbn [exec].
  assert (E : Evaluator.to_evaluate range "" (Autoscaler.evaluator (run (ops ts) s).1) = [r]).
  { unfold Evaluator.to_evaluate. rewrite IH2, Hrange. cbn. by rewrite Hen. }
  pose proof (Evaluate_single read range uuids t "" r _ E) as Hone. cbv zeta in Hone.
  destruct (Autoscaler.Evaluate _ _ _ _ _ _) as [s' ds]. destruct Hone as (E1 & E2 & Hsig). cbn [fst snd]. rewrite E1, E2. split; [| split; [done |]].
  - rewrite (evaluateRule_up _ _ _ _ _ _ _ IH1 R U).
    + unfold clamp_up. rewrite wrap_i32_id by (unfold in_i32; lia). rewrite length_app. cbn. f_equal. lia.
    + apply not_in_cooldown. intros d Hd _ _. rewrite (proj1 (run_history (ops ts) s Hs)) in Hd. apply subseteq_drop in Hd.
      rewrite Forall_forall in IH3. specialize (IH3 (sig d) (list_elem_of_fmap_2 _ _ _ Hd)). cbn in IH3.
      specialize (Hbefore _ t IH3 ltac:(left)). rewrite wrap_i64_id by (unfold in_i64, max_i64 in *; lia). lia.
    + apply Hwill. unfold clamp_up. rewrite wrap_i32_id by (unfold in_i32; lia). lia.
  - rewrite fmap_app, Hsig. apply Forall_app. split.
    + eapply Forall_impl; [exact IH3 |]. intros t' Ht'. apply elem_of_app. by left.
    + apply Forall_singleton. destruct (evaluateRule_sig read r t (Evaluator.decisions (Autoscaler.evaluator (run (ops ts) s).1)) (Autoscaler.scaler (run (ops ts) s).1)) as [_ ->].
      apply elem_of_app. right. left.
Qed.

Lemma scale_up_to_zero r read t v x x' cur ds :
  ScaleRule.MaxReplicas r = 0%Z ->
  GetReplicas (ScaleRule.Deployment r) (Evaluator.namespace_of r) x = Ok cur -> (0 < cur < 2 ^ 31 - 1)%Z ->
  read (ScaleRule.Deployment r) (Evaluator.namespace_of r) (ScaleRule.Metric r) = Ok v -> f_lt (ScaleRule.ScaleUpThreshold r) v = true ->
  Evaluator.isInCooldown (ScaleRule.ID r) "scale_up" (Evaluator.cooldown_up r) t ds = false ->
  SetReplicas (ScaleRule.Deployment r) (Evaluator.namespace_of r) 0 x = (x', None) ->
  let d := (Evaluator.evaluateRule read r t ds x).2 in
  (Evaluator.evaluateRule read r t ds x).1 = x' /\
  ScaleDecision.Action d = "scale_up" /\ ScaleDecision.FromReplicas d = cur /\ ScaleDecision.ToReplicas d = 0%Z.
Proof.
  intros Hmax G Hcur R U C S. unfold Evaluator.evaluateRule, Evaluator.scale. rewrite G, R, U, C, Hmax.
  rewrite wrap_i32_id by (unfold in_i32; lia). rewrite (proj2 (Z.ltb_lt 0 (cur + 1))) by lia.
  rewrite bool_decide_false by lia. cbn. by rewrite S.
Qed.

(** An update of a rule is not validated: one that leaves the maximum at
    zero is accepted, and the next evaluation under load sets the deployment to no
    replicas at all, as a scale_up. *)
Theorem update_without_limit_stops now now' r old s :
  ScaleRule.ID r <> "" -> Evaluator.rules (Autoscaler.evaluator s) !! ScaleRule.ID r = Some old -> ScaleRule.MaxReplicas r = 0%Z ->
  let s' := (Autoscaler.UpdateRule now now' r s).1 in
  is_ok (Autoscaler.UpdateRule now now' r s).2 = true /\
  exists r', Evaluator.rules (Autoscaler.evaluator s') !! ScaleRule.ID r = Some r' /\
    forall read t v x x' cur,
      GetReplicas (ScaleRule.Deployment r) (Evaluator.namespace_of r) x = Ok cur -> (0 < cur < 2 ^ 31 - 1)%Z ->
      read (ScaleRule.Deployment r) (Evaluator.namespace_of r) (ScaleRule.Metric r) = Ok v -> f_lt (ScaleRule.ScaleUpThreshold r) v = true ->
      Evaluator.isInCooldown (ScaleRule.ID r) "scale_up" (Evaluator.cooldown_up r) t (Autoscaler.GetDecisions s') = false ->
      SetReplicas (ScaleRule.Deployment r) (Evaluator.namespace_of r) 0 x = (x', None) ->
      let d := (Evaluator.evaluateRule read r' t (Autoscaler.GetDecisions s') x).2 in
      (Evaluator.evaluateRule read r' t (Autoscaler.GetDecisions s') x).1 = x' /\
      ScaleDecision.Action d = "scale_up" /\ ScaleDecision.FromReplicas d = cur /\ ScaleDecision.ToReplicas d = 0%Z.
Proof.
  intros Hid Hold Hmax. unfold Autoscaler.UpdateRule, Evaluator.UpdateRule. rewrite bool_decide_false by done. cbn.
  rewrite bool_decide_false, Hold by done. cbn. split; [done |]. eexists. split; [apply lookup_insert_eq |].
  intros read t v x x' cur G Hcur R U C S. by apply (scale_up_to_zero (ScaleRule.set_UpdatedAt now' (ScaleRule.set_CreatedAt (ScaleRule.CreatedAt old)
    (ScaleRule.set_UpdatedAt now r))) read t v x x' cur).
Qed.
End runs.

(** ** Examples *)

Definition ex_rule : ScaleRule.t :=
  ScaleRule.mk "r1" "api load" "api" "" "cpu" (f_of_int 80) (f_of_int 20) 1 5 0 0 true 1 1.
Definition ex_cpu (v : Z) (dep ns metric : string) : result string float64 := Ok (f_of_int v).
Definition ex_range (m : gmap string ScaleRule.t) : list ScaleRule.t := (map_to_list m).*2.
Definition ex_autoscaler (n : Z) : Autoscaler.t (X := Client.t) :=
  Autoscaler.mk (Evaluator.mk {["r1" := ex_rule]} []) (Client.RegisterDeployment "api" "default" n Client.NewClient).
Definition ex_check (v : Z) (t : time) : op := OEvaluate (ex_cpu v) ex_range (fun i => pretty (N.of_nat i)) t "".
Definition ex_by_hand (dep : string) (n : Z) (t : time) : op := OScale "u" t (ScaleRequest.mk dep n "by hand").

Lemma ex_range_sound (m : gmap string ScaleRule.t) r : r ∈ ex_range m -> exists id, m !! id = Some r.
Proof. intros ([id v'] & -> & H%elem_of_map_to_list)%list_elem_of_fmap. by exists id. Qed.

Lemma decisions_explain_replicas_witness :
  let ops := [ex_check 90 (100 * second); ex_by_hand "default/api" 5 (110 * second); ex_check 10 (120 * second); ex_check 10 (130 * second)] in
  GetReplicas "api" "default" (Autoscaler.scaler (run ops (ex_autoscaler 2)).1) = Ok 4%Z /\
  4%Z = replay "default/api" 2 (run ops (ex_autoscaler 2)).2.
Proof.
  intros ops. assert (H : GetReplicas "api" "default" (Autoscaler.scaler (run ops (ex_autoscaler 2)).1) = Ok 4%Z) by (vm_compute; reflexivity).
  split; [exact H |].
  exact (proj1 (decisions_explain_replicas ops (ex_autoscaler 2) "api" "default" 2 4 eq_refl eq_refl H)).
Defined.

Lemma cooldown_respected_witness :
  let ops := [ex_check 90 (100 * second); ex_by_hand "db" 3 (110 * second); ex_check 90 (130 * second); ex_check 90 (161 * second)] in
  (ScaleDecision.Action <$> (run ops (ex_autoscaler 2)).2) = ["scale_up"; "manual"; "no_action"; "scale_up"] /\
  (100 * second + 60 * second <= 161 * second)%Z.
Proof.
  intros ops. split; [vm_compute; reflexivity |].
  destruct ((run ops (ex_autoscaler 2)).2 !! 0) as [d |] eqn:E0; [| vm_compute in E0; discriminate E0].
  destruct ((run ops (ex_autoscaler 2)).2 !! 3) as [d' |] eqn:E3; [| vm_compute in E3; discriminate E3].
  assert (Hp : patient_rule (60 * second) ex_rule) by (unfold patient_rule, max_i64; vm_compute; repeat split; discriminate).
  pose proof (cooldown_respected ops (ex_autoscaler 2) (60 * second) 0 3 d d') as H.
  vm_compute in E0. injection E0 as <-. vm_compute in E3. injection E3 as <-. apply H; clear H.
  - discriminate.
  - reflexivity.
  - intros id r Hid. change (({["r1" := ex_rule]} : gmap string ScaleRule.t) !! id = Some r) in Hid.
    apply lookup_singleton_Some in Hid as [_ <-]. exact Hp.
  - repeat apply List.Forall_cons; [exact ex_range_sound | exact I | exact ex_range_sound | exact ex_range_sound | constructor].
  - vm_compute. reflexivity.
  - vm_compute. reflexivity.
  - unfold maxDecisionHistory. lia.
  - reflexivity.
  - reflexivity.
  - left. reflexivity.
Defined.

(** A rule that is scaled up at 100 s, 500 scalings of another deployment by
    hand, and the rule is scaled up again at 101 s. *)
Lemma cooldown_forgotten_witness :
  let s1 := (run [ex_check 90 (100 * second)] (ex_autoscaler 2)).1 in
  let s2 := (run (replicate 500 (ex_by_hand "db" 3 (101 * second))) s1).1 in
  GetReplicas "api" "default" (Autoscaler.scaler s1) = Ok 3%Z /\
  ScaleDecision.Action (Evaluator.evaluateRule (ex_cpu 90) ex_rule (101 * second) (Autoscaler.GetDecisions s2) (Autoscaler.scaler s2)).2 = "scale_up".
Proof.
  intros s1 s2. split; [vm_compute; reflexivity |].
  pose proof (cooldown_forgotten (replicate 500 (ex_by_hand "db" 3 (101 * second))) s1 ex_rule (ex_cpu 90) (101 * second) 3 (f_of_int 90)
    (SetReplicas "api" "default" 4 (Autoscaler.scaler s2)).1) as H.
  cbv zeta in H. fold s2 in H.
  destruct (Evaluator.evaluateRule (ex_cpu 90) ex_rule (101 * second) (Autoscaler.GetDecisions s2) (Autoscaler.scaler s2)) as [x'' d].
  apply H; clear H.
  - apply Nat.leb_le. vm_compute. reflexivity.
  - apply Nat.leb_le. vm_compute. reflexivity.
  - apply (bool_decide_unpack _). vm_compute. exact I.
  - vm_compute. reflexivity.
  - reflexivity.
  - vm_compute. reflexivity.
  - cbn. lia.
  - cbn. lia.
  - vm_compute. reflexivity.
Defined.

Lemma ex_within n : (1 <= n <= 5)%Z -> within (Autoscaler.evaluator (ex_autoscaler n)) (Autoscaler.scaler (ex_autoscaler n)).
Proof.
  intros Hn id r Hid m Hm. change (({["r1" := ex_rule]} : gmap string ScaleRule.t) !! id = Some r) in Hid.
  apply lookup_singleton_Some in Hid as [_ <-].
  change (Ok (default 0%Z ((<[Client.key "api" "default" := n]> ∅ : gmap string Z) !! Client.key "api" "default")) = @Ok string Z m) in Hm.
  rewrite lookup_insert_eq in Hm. injection Hm as <-. exact Hn.
Qed.

Lemma ex_well_ruled n : well_ruled (Autoscaler.evaluator (ex_autoscaler n)).
Proof.
  split.
  - intros id r Hid. change (({["r1" := ex_rule]} : gmap string ScaleRule.t) !! id = Some r) in Hid.
    apply lookup_singleton_Some in Hid as [_ <-]. cbn. lia.
  - intros i j r r' Hi Hj Hne. change (({["r1" := ex_rule]} : gmap string ScaleRule.t) !! i = Some r) in Hi.
    change (({["r1" := ex_rule]} : gmap string ScaleRule.t) !! j = Some r') in Hj.
    apply lookup_singleton_Some in Hi as [<- _]. apply lookup_singleton_Some in Hj as [<- _]. by destruct Hne.
Qed.

Lemma scaling_stays_in_bounds_witness :
  let ops := (fun i => ex_check 90 (Z.of_nat i * 100 * second)) <$> seq 0 9 in
  GetReplicas "api" "default" (Autoscaler.scaler (run ops (ex_autoscaler 2)).1) = Ok 5%Z /\ (1 <= 5 <= 5)%Z.
Proof.
  intros ops. assert (H : GetReplicas "api" "default" (Autoscaler.scaler (run ops (ex_autoscaler 2)).1) = Ok 5%Z) by (vm_compute; reflexivity).
  split; [exact H |].
  refine (scaling_stays_in_bounds ops (ex_autoscaler 2) (ex_well_ruled 2) (ex_within 2 _) _ "r1" ex_rule _ 5%Z H).
  - lia.
  - repeat apply List.Forall_cons; try exact ex_range_sound. constructor.
  - reflexivity.
Defined.

Lemma held_load_reaches_max_witness :
  let ts := (fun i => (Z.of_nat i * 60 * second)%Z) <$> seq 0 9 in
  GetReplicas "api" "default" (Autoscaler.scaler (run ((fun t => ex_check 90 t) <$> ts) (ex_autoscaler 2)).1) = Ok (Z.min 5 (2 + 9)).
Proof.
  intros ts.
  apply (held_load_reaches_max ts (ex_autoscaler 2) ex_rule (ex_cpu 90) ex_range (fun i => pretty (N.of_nat i)) (f_of_int 90) 2).
  - reflexivity.
  - reflexivity.
  - reflexivity.
  - vm_compute. reflexivity.
  - reflexivity.
  - vm_compute. reflexivity.
  - intros k x Hk. cbn. unfold Client.SetReplicas. cbn. rewrite (proj2 (Z.ltb_ge k 0) Hk). eexists. reflexivity.
  - reflexivity.
  - cbn. lia.
  - cbn. lia.
  - vm_compute. split; [reflexivity | discriminate].
  - repeat (constructor; [| repeat (apply List.Forall_cons; [vm_compute; discriminate |]); constructor]). constructor.
Defined.

Lemma update_without_limit_stops_witness :
  let r := ScaleRule.set_MaxReplicas 0 ex_rule in
  let s' := (Autoscaler.UpdateRule 5 5 r (ex_autoscaler 3)).1 in
  is_ok (Autoscaler.UpdateRule 5 5 r (ex_autoscaler 3)).2 = true /\
  (let '(s2, ds) := Autoscaler.Evaluate (ex_cpu 90) ex_range (fun _ => "u") 6 "" s' in
   GetReplicas "api" "default" (Autoscaler.scaler s2) = Ok 0%Z /\ (ScaleDecision.Action <$> ds) = ["scale_up"]).
Proof.
  intros r s'. split; [| vm_compute; split; reflexivity].
  refine (proj1 (update_without_limit_stops 5 5 r ex_rule (ex_autoscaler 3) _ _ _)); [discriminate | reflexivity | reflexivity].
Defined.
