(* ===== verification/Incident.v ===== *)
(** * Incidents ([services/incident-svc/internal]: [models], [aggregate],
    [timeline], [service])

    Alerts are grouped into incidents, which are moved forward from detection to
    closure, escalate with the alerts they collect, and keep a timeline.  The
    store hands out the objects it holds, so an assignment to a field of an
    incident changes the stored one: operations are functions of the store, in
    which an incident is changed in place ([MemoryStore.alter]).  [IngestAlert]
    looks for an open incident and then acts on what it found in separate critical
    sections; [ingest_find] and [ingest_into] are the two halves.  The clock is
    read as [now], new identifiers are [uuids 0], [uuids 1], ..., and the orders in
    which Go ranges over maps are arguments.  Not here: the HTTP handler, the
    MySQL store, the text of postmortems. *)

From Stdlib Require Import Ascii.
From S2P Require Import Prelude GoStrings.
Open Scope go_scope.

(** ** Data ([models.go]) *)

Definition StatusDetected : string := "detected".
Definition StatusInvestigating : string := "investigating".
Definition StatusMitigating : string := "mitigating".
Definition StatusResolved : string := "resolved".
Definition StatusClosed : string := "closed".

Definition SeverityCritical : string := "critical".
Definition SeverityHigh : string := "high".
Definition SeverityMedium : string := "medium".
Definition SeverityLow : string := "low".
Definition SeverityInfo : string := "info".

(** [models.Incident]; an assignment [x.F = v] is [set_F v x]. *)
Module Incident.
Record t := mk {
  ID : string; Title : string; Description : string; Severity : string; Status : string;
  AlertIDs : list string; DeviceIDs : list string; Assignee : string; Tags : gmap string string;
  OccurredAt : option time; DetectedAt : time; ResolvedAt : option time; ClosedAt : option time;
  CreatedAt : time; UpdatedAt : time;
}.

Definition set_Title (v : string) (r : t) : t :=
  mk (ID r) v (Description r) (Severity r) (Status r) (AlertIDs r) (DeviceIDs r) (Assignee r)
     (Tags r) (OccurredAt r) (DetectedAt r) (ResolvedAt r) (ClosedAt r) (CreatedAt r)
     (UpdatedAt r).
Definition set_Description (v : string) (r : t) : t :=
  mk (ID r) (Title r) v (Severity r) (Status r) (AlertIDs r) (DeviceIDs r) (Assignee r) (Tags r)
     (OccurredAt r) (DetectedAt r) (ResolvedAt r) (ClosedAt r) (CreatedAt r) (UpdatedAt r).
Definition set_Severity (v : string) (r : t) : t :=
  mk (ID r) (Title r) (Description r) v (Status r) (AlertIDs r) (DeviceIDs r) (Assignee r)
     (Tags r) (OccurredAt r) (DetectedAt r) (ResolvedAt r) (ClosedAt r) (CreatedAt r)
     (UpdatedAt r).
Definition set_Status (v : string) (r : t) : t :=
  mk (ID r) (Title r) (Description r) (Severity r) v (AlertIDs r) (DeviceIDs r) (Assignee r)
     (Tags r) (OccurredAt r) (DetectedAt r) (ResolvedAt r) (ClosedAt r) (CreatedAt r)
     (UpdatedAt r).
Definition set_AlertIDs (v : list string) (r : t) : t :=
  mk (ID r) (Title r) (Description r) (Severity r) (Status r) v (DeviceIDs r) (Assignee r)
     (Tags r) (OccurredAt r) (DetectedAt r) (ResolvedAt r) (ClosedAt r) (CreatedAt r)
     (UpdatedAt r).
Definition set_Assignee (v : string) (r : t) : t :=
  mk (ID r) (Title r) (Description r) (Severity r) (Status r) (AlertIDs r) (DeviceIDs r) v
     (Tags r) (OccurredAt r) (DetectedAt r) (ResolvedAt r) (ClosedAt r) (CreatedAt r)
     (UpdatedAt r).
Definition set_Tags (v : gmap string string) (r : t) : t :=
  mk (ID r) (Title r) (Description r) (Severity r) (Status r) (AlertIDs r) (DeviceIDs r)
     (Assignee r) v (OccurredAt r) (DetectedAt r) (ResolvedAt r) (ClosedAt r) (CreatedAt r)
     (UpdatedAt r).
Definition set_ResolvedAt (v : option time) (r : t) : t :=
  mk (ID r) (Title r) (Description r) (Severity r) (Status r) (AlertIDs r) (DeviceIDs r)
     (Assignee r) (Tags r) (OccurredAt r) (DetectedAt r) v (ClosedAt r) (CreatedAt r)
     (UpdatedAt r).
Definition set_ClosedAt (v : option time) (r : t) : t :=
  mk (ID r) (Title r) (Description r) (Severity r) (Status r) (AlertIDs r) (DeviceIDs r)
     (Assignee r) (Tags r) (OccurredAt r) (DetectedAt r) (ResolvedAt r) v (CreatedAt r)
     (UpdatedAt r).
Definition set_CreatedAt (v : time) (r : t) : t :=
  mk (ID r) (Title r) (Description r) (Severity r) (Status r) (AlertIDs r) (DeviceIDs r)
     (Assignee r) (Tags r) (OccurredAt r) (DetectedAt r) (ResolvedAt r) (ClosedAt r) v
     (UpdatedAt r).
Definition set_UpdatedAt (v : time) (r : t) : t :=
  mk (ID r) (Title r) (Description r) (Severity r) (Status r) (AlertIDs r) (DeviceIDs r)
     (Assignee r) (Tags r) (OccurredAt r) (DetectedAt r) (ResolvedAt r) (ClosedAt r)
     (CreatedAt r) v.
End Incident.

(** [models.TimelineEvent]. *)
Module TimelineEvent.
Record t := mk {
  ID : string; IncidentID : string; Timestamp : time; Type_ : string; Description : string;
  Author : string;
}.

Definition set_Timestamp (v : time) (r : t) : t :=
  mk (ID r) (IncidentID r) v (Type_ r) (Description r) (Author r).
End TimelineEvent.

(** [models.Alert]. *)
Module Alert.
Record t := mk {
  ID : string; Source : string; DeviceID : string; Severity : string; Message : string;
  Metric : string; Timestamp : time; Labels : gmap string string;
}.

Definition set_ID (v : string) (r : t) : t :=
  mk v (Source r) (DeviceID r) (Severity r) (Message r) (Metric r) (Timestamp r) (Labels r).
Definition set_Timestamp (v : time) (r : t) : t :=
  mk (ID r) (Source r) (DeviceID r) (Severity r) (Message r) (Metric r) v (Labels r).
End Alert.

(** [models.ResponseMetrics]; [AvgMTTF] is never set. *)
Module ResponseMetrics.
Record t := mk {
  TotalIncidents : Z; ActiveIncidents : Z; ResolvedIncidents : Z; AvgMTTD : duration;
  AvgMTTR : duration;
}.

End ResponseMetrics.

(** [aggregate.AggregationRule]. *)
Module AggregationRule.
Record t := mk {
  ID : string; Name : string; DeviceIDs : list string; MetricPatterns : list string;
  Severity : string; Window : duration; Enabled : bool;
}.

Definition set_Window (v : duration) (r : t) : t :=
  mk (ID r) (Name r) (DeviceIDs r) (MetricPatterns r) (Severity r) v (Enabled r).
End AggregationRule.

(** [aggregate.AggregateResult]; [IncidentID] is the key of the group. *)
Module AggregateResult.
Record t := mk {
  IncidentID : string; Matched : bool; RuleID : string;
}.

End AggregateResult.

(** [service.CreateIncidentInput]. *)
Module CreateIncidentInput.
Record t := mk {
  Title : string; Description : string; Severity : string; DeviceIDs : list string;
  OccurredAt : option time;
}.

End CreateIncidentInput.

(** ** The store ([MemoryStore]) *)

Module MemoryStore.
Record t := mk { incidents : gmap string Incident.t; timeline : gmap string (list TimelineEvent.t) }.
Definition NewMemoryStore : t := mk ∅ ∅.

Definition CreateIncident (now : time) (inc : Incident.t) (m : t) : t :=
  let inc := if IsZero (Incident.CreatedAt inc) then Incident.set_CreatedAt now inc else inc in
  let inc := if IsZero (Incident.UpdatedAt inc) then Incident.set_UpdatedAt (Incident.CreatedAt inc) inc else inc in
  mk (<[Incident.ID inc := inc]> (incidents m)) (timeline m).

Definition GetIncident (id : string) (m : t) : option Incident.t := incidents m !! id.

(** Assignments to the stored object followed by [UpdateIncident], which stamps
    it; nothing is left of the assignments when it is no longer stored. *)
Definition UpdateIncident (now : time) (id : string) (change : Incident.t -> Incident.t) (m : t) : t :=
  mk (alter (fun inc => Incident.set_UpdatedAt now (change inc)) id (incidents m)) (timeline m).

Definition DeleteIncident (id : string) (m : t) : t * bool :=
  match incidents m !! id with
  | None => (m, false)
  | Some _ => (mk (delete id (incidents m)) (delete id (timeline m)), true)
  end.

Definition ListIncidents (range : gmap string Incident.t -> list Incident.t) (status severity : string) (m : t) : list Incident.t :=
  List.filter (fun inc => ((status == "") || (Incident.Status inc == status)) && ((severity == "") || (Incident.Severity inc == severity)))
    (range (incidents m)).

Definition AddTimelineEvent (now : time) (ev : TimelineEvent.t) (m : t) : t :=
  let ev := if IsZero (TimelineEvent.Timestamp ev) then TimelineEvent.set_Timestamp now ev else ev in
  mk (incidents m) (<[TimelineEvent.IncidentID ev := default [] (timeline m !! TimelineEvent.IncidentID ev) ++ [ev]]> (timeline m)).

Definition GetTimeline (id : string) (m : t) : list TimelineEvent.t := default [] (timeline m !! id).
Definition Incidents (range : gmap string Incident.t -> list Incident.t) (m : t) : list Incident.t := range (incidents m).
End MemoryStore.

(** ** Timelines ([timeline.go]) *)

Module Timeline.
Definition earlier (a b : TimelineEvent.t) : bool := Before (TimelineEvent.Timestamp a) (TimelineEvent.Timestamp b).

(** [sort.Slice] is not stable: [shuffle] is the order in which it leaves
    events of the same instant. *)
Definition Build (shuffle : list TimelineEvent.t -> list TimelineEvent.t) (events : list TimelineEvent.t) : list TimelineEvent.t :=
  stable_sort earlier (shuffle events).

Definition AddEvent shuffle (events : list TimelineEvent.t) (ev : TimelineEvent.t) : list TimelineEvent.t :=
  Build shuffle (events ++ [ev]).

Definition Duration shuffle (events : list TimelineEvent.t) : duration :=
  match Build shuffle events, last (Build shuffle events) with
  | first :: _ :: _, Some final => Sub (TimelineEvent.Timestamp final) (TimelineEvent.Timestamp first)
  | _, _ => 0%Z
  end.

Definition FilterByType (events : list TimelineEvent.t) (eventType : string) : list TimelineEvent.t :=
  List.filter (fun ev => TimelineEvent.Type_ ev == eventType) events.
End Timeline.

(** ** Aggregation ([aggregate.go]) *)

Module Engine.
Record t := mk { rules : gmap string AggregationRule.t; window : duration }.
Definition NewEngine (window : duration) : t := mk ∅ (if (window <=? 0)%Z then (5 * minute)%Z else window).

Definition AddRule (rule : AggregationRule.t) (e : t) : t :=
  if AggregationRule.ID rule == "" then e else
  let rule := if (AggregationRule.Window rule <=? 0)%Z then AggregationRule.set_Window (window e) rule else rule in
  mk (<[AggregationRule.ID rule := rule]> (rules e)) (window e).
Definition RemoveRule (id : string) (e : t) : t := mk (delete id (rules e)) (window e).
Definition Rules (range : gmap string AggregationRule.t -> list AggregationRule.t) (e : t) : list AggregationRule.t :=
  stable_sort (fun a b => str_lt (AggregationRule.ID a) (AggregationRule.ID b)) (range (rules e)).

Definition matchesRule (rule : AggregationRule.t) (alert : Alert.t) (now : time) : bool :=
  if After (Alert.Timestamp alert) now || (Sub now (Alert.Timestamp alert) >? AggregationRule.Window rule)%Z then false
  else
    let deviceMatch := (length (AggregationRule.DeviceIDs rule) =? 0)%nat ||
      existsb (fun d => d == Alert.DeviceID alert) (AggregationRule.DeviceIDs rule) in
    if negb deviceMatch then false
    else (length (AggregationRule.MetricPatterns rule) =? 0)%nat ||
      existsb (fun p => p == Alert.Metric alert) (AggregationRule.MetricPatterns rule).

(** The key under which alerts of a device and a rule are grouped. *)
Definition grouping_key (deviceID ruleID : string) : string := deviceID +:+ "-" +:+ ruleID.

Definition Aggregate (range : gmap string AggregationRule.t -> list AggregationRule.t) (now : time) (alert : Alert.t) (e : t) : AggregateResult.t :=
  match find_first (fun rule => AggregationRule.Enabled rule && matchesRule rule alert now) (range (rules e)) with
  | Some rule => AggregateResult.mk (grouping_key (Alert.DeviceID alert) (AggregationRule.ID rule)) true (AggregationRule.ID rule)
  | None => AggregateResult.mk "" false ""
  end.
End Engine.

Definition ShouldEscalate (alertCount : Z) (maxSeverity : string) : string :=
  if (10 <=? alertCount)%Z || (maxSeverity == SeverityCritical) then SeverityCritical
  else if (5 <=? alertCount)%Z || (maxSeverity == SeverityHigh) then SeverityHigh
  else if (3 <=? alertCount)%Z || (maxSeverity == SeverityMedium) then SeverityMedium
  else SeverityLow.

Definition SeverityRank (s : string) : Z :=
  if s == SeverityInfo then 0 else if s == SeverityLow then 1 else if s == SeverityMedium then 2
  else if s == SeverityHigh then 3 else if s == SeverityCritical then 4 else -1.

(** ** The service ([service.go]) *)

Inductive incident_error :=
  | ErrIncidentNotFound
  | ErrInvalidStatus
  | ErrIncidentResolved
  | TitleRequired
  | NotMatched.

Definition aggregationKeyTag : string := "opsmesh.aggregation_key".

Module Service.
Record t := mk { store : MemoryStore.t; engine : Engine.t }.
Definition NewService (e : Engine.t) : t := mk MemoryStore.NewMemoryStore e.
Definition set_store (m : MemoryStore.t) (s : t) : t := mk m (engine s).

(** The two ends of every change: stamping the incident, noting the event. *)
Definition note (uuid : string) (now : time) (id type description author : string) (s : t) : t :=
  set_store (MemoryStore.AddTimelineEvent now (TimelineEvent.mk uuid id now type description author) (store s)) s.
Definition change (now : time) (id : string) (f : Incident.t -> Incident.t) (s : t) : t :=
  set_store (MemoryStore.UpdateIncident now id f (store s)) s.

Definition GetIncident (id : string) (s : t) : result incident_error Incident.t :=
  match MemoryStore.GetIncident id (store s) with Some inc => Ok inc | None => Err ErrIncidentNotFound end.

Definition CreateIncident (uuids : nat -> string) (now : time) (input : CreateIncidentInput.t) (s : t) : t * result incident_error Incident.t :=
  if CreateIncidentInput.Title input == "" then (s, Err TitleRequired) else
  let inc := Incident.mk (uuids 0) (CreateIncidentInput.Title input) (CreateIncidentInput.Description input)
    (CreateIncidentInput.Severity input) StatusDetected [] (CreateIncidentInput.DeviceIDs input) "" ∅
    (CreateIncidentInput.OccurredAt input) now None None now now in
  let s := set_store (MemoryStore.CreateIncident now inc (store s)) s in
  (note (uuids 1) now (uuids 0) "created" ("Incident created: " +:+ CreateIncidentInput.Title input) "system" s, Ok inc).

Definition ListIncidents range (status severity : string) (s : t) : list Incident.t :=
  MemoryStore.ListIncidents range status severity (store s).

Definition is_over (inc : Incident.t) : bool := (Incident.Status inc == StatusResolved) || (Incident.Status inc == StatusClosed).

Definition given (v : string) (set : string -> Incident.t -> Incident.t) (inc : Incident.t) : Incident.t :=
  if v != "" then set v inc else inc.

Definition UpdateIncident (now : time) (id title description assignee severity : string) (s : t) : t * option incident_error :=
  match MemoryStore.GetIncident id (store s) with
  | None => (s, Some ErrIncidentNotFound)
  | Some inc =>
      if is_over inc then (s, Some ErrIncidentResolved) else
      (change now id (fun inc => given severity Incident.set_Severity (given assignee Incident.set_Assignee
        (given description Incident.set_Description (given title Incident.set_Title inc)))) s, None)
  end.

Definition validForwardTransition (from to : string) : bool :=
  if (to != StatusDetected) && (to != StatusInvestigating) && (to != StatusMitigating) && (to != StatusResolved) && (to != StatusClosed)
  then false
  else if from == StatusDetected then
    (to == StatusInvestigating) || (to == StatusMitigating) || (to == StatusResolved) || (to == StatusClosed)
  else if from == StatusInvestigating then (to == StatusMitigating) || (to == StatusResolved) || (to == StatusClosed)
  else if from == StatusMitigating then (to == StatusResolved) || (to == StatusClosed)
  else if from == StatusResolved then to == StatusClosed
  else false.

(** The instants that a status stamps, unless they are set. *)
Definition stamp_status (now : time) (status : string) (inc : Incident.t) : Incident.t :=
  if status == StatusResolved then
    match Incident.ResolvedAt inc with None => Incident.set_ResolvedAt (Some now) inc | Some _ => inc end
  else if status == StatusClosed then
    match Incident.ClosedAt inc with None => Incident.set_ClosedAt (Some now) inc | Some _ => inc end
  else inc.

Definition UpdateStatus (uuid : string) (now : time) (id status : string) (s : t) : t * option incident_error :=
  match MemoryStore.GetIncident id (store s) with
  | None => (s, Some ErrIncidentNotFound)
  | Some inc =>
      if negb (validForwardTransition (Incident.Status inc) status) then (s, Some ErrInvalidStatus) else
      let s := change now id (fun inc => stamp_status now status (Incident.set_Status status inc)) s in
      (note uuid now id "status_changed" ("Status changed to " +:+ status) "system" s, None)
  end.

Definition DeleteIncident (id : string) (s : t) : t * option incident_error :=
  let '(m, ok) := MemoryStore.DeleteIncident id (store s) in
  if ok then (set_store m s, None) else (s, Some ErrIncidentNotFound).

Definition AddTimelineEvent (uuid : string) (now : time) (id eventType description author : string) (s : t) : t * option incident_error :=
  match MemoryStore.GetIncident id (store s) with
  | None => (s, Some ErrIncidentNotFound)
  | Some _ => (note uuid now id eventType description author s, None)
  end.

Definition GetTimeline shuffle (id : string) (s : t) : result incident_error (list TimelineEvent.t) :=
  match MemoryStore.GetIncident id (store s) with
  | None => Err ErrIncidentNotFound
  | Some _ => Ok (Timeline.Build shuffle (MemoryStore.GetTimeline id (store s)))
  end.

Definition ResolveIncident (uuid : string) (now : time) (id author : string) (s : t) : t * option incident_error :=
  match MemoryStore.GetIncident id (store s) with
  | None => (s, Some ErrIncidentNotFound)
  | Some inc =>
      if is_over inc then (s, Some ErrIncidentResolved) else
      let s := change now id (fun inc => Incident.set_ResolvedAt (Some now) (Incident.set_Status StatusResolved inc)) s in
      (note uuid now id "resolved" "Incident resolved" author s, None)
  end.

Definition CloseIncident (uuid : string) (now : time) (id author : string) (s : t) : t * option incident_error :=
  match MemoryStore.GetIncident id (store s) with
  | None => (s, Some ErrIncidentNotFound)
  | Some inc =>
      if Incident.Status inc == StatusClosed then (s, Some ErrInvalidStatus) else
      let s := change now id (fun inc => Incident.set_ClosedAt (Some now) (Incident.set_Status StatusClosed inc)) s in
      (note uuid now id "closed" "Incident closed" author s, None)
  end.

Definition findOpenIncidentByGroup (range : gmap string Incident.t -> list Incident.t) (key : string) (s : t) : option Incident.t :=
  find_first (fun inc => negb (is_over inc) && (default "" (Incident.Tags inc !! aggregationKeyTag) == key))
    (MemoryStore.Incidents range (store s)).

(** The first half of [IngestAlert]: the alert completed, its key, and the open
    incident of the key. *)
Definition ingest_find rangeR rangeI (uuids : nat -> string) (now : time) (alert : Alert.t) (s : t)
    : result incident_error (Alert.t * string * option Incident.t) :=
  let alert := if Alert.ID alert == "" then Alert.set_ID (uuids 0) alert else alert in
  let alert := if IsZero (Alert.Timestamp alert) then Alert.set_Timestamp now alert else alert in
  let res := Engine.Aggregate rangeR now alert (engine s) in
  if negb (AggregateResult.Matched res) then Err NotMatched
  else Ok (alert, AggregateResult.IncidentID res, findOpenIncidentByGroup rangeI (AggregateResult.IncidentID res) s).

(** The severity that an incident of severity [from] with [count] alerts takes
    on an alert of severity [by_]. *)
Definition max_severity (from by_ : string) : string := if (SeverityRank from <? SeverityRank by_)%Z then by_ else from.
Definition escalated (from by_ : string) (count : nat) : bool :=
  (SeverityRank from <? SeverityRank (ShouldEscalate (Z.of_nat count) (max_severity from by_)))%Z.
Definition escalate (alert : Alert.t) (inc : Incident.t) : Incident.t :=
  let target := ShouldEscalate (Z.of_nat (length (Incident.AlertIDs inc))) (max_severity (Incident.Severity inc) (Alert.Severity alert)) in
  if escalated (Incident.Severity inc) (Alert.Severity alert) (length (Incident.AlertIDs inc)) then Incident.set_Severity target inc else inc.
Definition collect (alert : Alert.t) (inc : Incident.t) : Incident.t :=
  escalate alert (Incident.set_AlertIDs (Incident.AlertIDs inc ++ [Alert.ID alert]) inc).

(** [inc.Tags[aggregationKeyTag] = groupingKey] on the stored object. *)
Definition tag_incident (key id : string) (s : t) : t :=
  set_store (MemoryStore.mk (alter (fun inc => Incident.set_Tags (<[aggregationKeyTag := key]> (Incident.Tags inc)) inc) id
    (MemoryStore.incidents (store s))) (MemoryStore.timeline (store s))) s.

(** A title is never missing below. *)
Definition empty_incident : Incident.t := Incident.mk "" "" "" "" "" [] [] "" ∅ None 0 None None 0 0.

(** The second half: the incident found, or a new one, collects the alert. *)
Definition ingest_into (uuids : nat -> string) (now : time) (alert : Alert.t) (key : string) (found : option Incident.t) (s : t)
    : t * result incident_error string :=
  let '(s, inc) := match found with
    | Some inc => (s, inc)
    | None =>
        let '(s, r) := CreateIncident (fun n => uuids (1 + n)%nat) now (CreateIncidentInput.mk ("Incident for " +:+ Alert.DeviceID alert)
          (Alert.Message alert) (Alert.Severity alert) [Alert.DeviceID alert] (Some (Alert.Timestamp alert))) s in
        match r with
        | Ok inc => (tag_incident key (Incident.ID inc) s, Incident.set_Tags (<[aggregationKeyTag := key]> (Incident.Tags inc)) inc)
        | Err _ => (s, empty_incident)
        end
    end in
  let id := Incident.ID inc in
  let before := default inc (MemoryStore.GetIncident id (store s)) in
  let n := S (length (Incident.AlertIDs before)) in
  let s := note (uuids 3) now id "alert_ingested" ("Alert ingested: " +:+ Alert.Message alert) "system" (change now id (collect alert) s) in
  let max := max_severity (Incident.Severity before) (Alert.Severity alert) in
  (if escalated (Incident.Severity before) (Alert.Severity alert) n
   then note (uuids 4) now id "escalated" ("Severity escalated " +:+ Incident.Severity before +:+ " → " +:+
     ShouldEscalate (Z.of_nat n) max +:+ "（累计 " +:+ itoa (Z.of_nat n) +:+ " 条告警，最高 " +:+ max +:+ "）") "system" s
   else s, Ok id).

Definition IngestAlert rangeR rangeI (uuids : nat -> string) (now : time) (alert : Alert.t) (s : t) : t * result incident_error string :=
  match ingest_find rangeR rangeI uuids now alert s with
  | Err err => (s, Err err)
  | Ok (alert, key, found) => ingest_into uuids now alert key found s
  end.

(** Totals, the sum and the number of the times to resolve, and of the times to
    detect. *)
Definition tally (acc : ResponseMetrics.t * (Z * Z) * (Z * Z)) (inc : Incident.t) : ResponseMetrics.t * (Z * Z) * (Z * Z) :=
  let '(m, (sumR, nR), (sumD, nD)) := acc in
  let st := Incident.Status inc in
  let m :=
    if (st == StatusDetected) || (st == StatusInvestigating) || (st == StatusMitigating)
    then ResponseMetrics.mk (ResponseMetrics.TotalIncidents m) (ResponseMetrics.ActiveIncidents m + 1) (ResponseMetrics.ResolvedIncidents m) 0 0
    else if (st == StatusResolved) || (st == StatusClosed)
    then ResponseMetrics.mk (ResponseMetrics.TotalIncidents m) (ResponseMetrics.ActiveIncidents m) (ResponseMetrics.ResolvedIncidents m + 1) 0 0
    else m in
  let count (d : duration) (acc : Z * Z) := if (0 <? d)%Z then (wrap_i64 (acc.1 + d), acc.2 + 1)%Z else acc in
  (m, match Incident.ResolvedAt inc with Some t => count (Sub t (Incident.DetectedAt inc)) (sumR, nR) | None => (sumR, nR) end,
   match Incident.OccurredAt inc with Some t => count (Sub (Incident.DetectedAt inc) t) (sumD, nD) | None => (sumD, nD) end).

Definition GetResponseMetrics (range : gmap string Incident.t -> list Incident.t) (s : t) : ResponseMetrics.t :=
  let incs := MemoryStore.Incidents range (store s) in
  let '(m, (sumR, nR), (sumD, nD)) :=
    foldl tally (ResponseMetrics.mk (Z.of_nat (length incs)) 0 0 0 0, (0, 0), (0, 0))%Z incs in
  ResponseMetrics.mk (ResponseMetrics.TotalIncidents m) (ResponseMetrics.ActiveIncidents m) (ResponseMetrics.ResolvedIncidents m)
    (if (0 <? nD)%Z then sumD ÷ nD else 0)%Z (if (0 <? nR)%Z then sumR ÷ nR else 0)%Z.
End Service.
