(* ===== verification/IncidentProps.v ===== *)
(** * Correctness of incidents

    Under every sequence of operations incidents only move forward and keep what
    they have collected; at most one open incident exists per group of alerts,
    and an alert joins it; severities rise with the alerts.  Every operation's
    effect on the table of incidents is a composition of a few kinds of change
    ([changes]), over which the invariants are proved once. *)

From Stdlib Require Import Ascii.
From S2P Require Import Prelude GoStrings Incident.
Import Service.
Open Scope go_scope.

(** ** One incident *)

(** The place of a status in the life cycle. *)
Definition rank (st : string) : nat :=
  if st == StatusDetected then 0 else if st == StatusInvestigating then 1 else if st == StatusMitigating then 2
  else if st == StatusResolved then 3 else if st == StatusClosed then 4 else 5.

(** The instants that a status has stamped. *)
Definition sound (inc : Incident.t) : Prop :=
  rank (Incident.Status inc) <= 4 /\
  (rank (Incident.Status inc) <= 2 -> Incident.ResolvedAt inc = None) /\
  (Incident.Status inc = StatusResolved -> is_Some (Incident.ResolvedAt inc)) /\
  (Incident.Status inc = StatusClosed <-> is_Some (Incident.ClosedAt inc)).

(** What an incident may become: forward in its life cycle, with everything that
    has been stamped and collected. *)
Record advances (inc inc' : Incident.t) : Prop := {
  adv_status : rank (Incident.Status inc) <= rank (Incident.Status inc');
  adv_resolved : forall t, Incident.ResolvedAt inc = Some t -> Incident.ResolvedAt inc' = Some t;
  adv_closed : forall t, Incident.ClosedAt inc = Some t -> Incident.ClosedAt inc' = Some t;
  adv_alerts : Incident.AlertIDs inc `prefix_of` Incident.AlertIDs inc';
  adv_kept : (Incident.ID inc', Incident.Tags inc', Incident.OccurredAt inc', Incident.DetectedAt inc', Incident.CreatedAt inc') =
    (Incident.ID inc, Incident.Tags inc, Incident.OccurredAt inc, Incident.DetectedAt inc, Incident.CreatedAt inc);
}.

#[export] Instance advances_preorder : PreOrder advances.
Proof.
  split; [by intros inc; split |].
  intros a b c [] []. split; [lia | auto | auto | by etrans | congruence].
Qed.

(** A change that keeps sound incidents sound and moves them forward. *)
Definition forward (f : Incident.t -> Incident.t) (inc : Incident.t) : Prop :=
  sound inc -> sound (f inc) /\ advances inc (f inc).

Definition open (inc : Incident.t) : Prop := is_over inc = false.
Definition tagged (key : string) (inc : Incident.t) : Prop := Incident.Tags inc !! aggregationKeyTag = Some key.

Lemma rank_resolved st : rank st = 3 <-> st = StatusResolved.
Proof. unfold rank. repeat case_bool_decide; subst; split; intros H'; try done; try lia. Qed.

Lemma rank_closed st : rank st = 4 <-> st = StatusClosed.
Proof. unfold rank. repeat case_bool_decide; subst; split; intros H'; try done; try lia. Qed.

Lemma open_rank inc : sound inc -> open inc <-> rank (Incident.Status inc) <= 2.
Proof.
  intros [Hr _]. unfold open, is_over. rewrite orb_false_iff, !bool_decide_eq_false, <- rank_resolved, <- rank_closed. lia.
Qed.

(** ** Changes of the table *)

Abbreviation table := (gmap string Incident.t).

Inductive changes (new : string -> Prop) : table -> table -> Prop :=
  | ch_refl m : changes new m m
  | ch_alter m id f : (forall inc, m !! id = Some inc -> forward f inc) -> changes new m (alter f id m)
  | ch_insert m inc : new (Incident.ID inc) -> sound inc ->
      (forall key id' inc', tagged key inc -> open inc -> m !! id' = Some inc' -> tagged key inc' -> ~ open inc') ->
      changes new m (<[Incident.ID inc := inc]> m)
  | ch_delete m id : changes new m (delete id m)
  | ch_trans m1 m2 m3 : changes new m1 m2 -> changes new m2 m3 -> changes new m1 m3.

Definition sound_table (m : table) : Prop := map_Forall (fun id inc => Incident.ID inc = id /\ sound inc) m.
Definition one_open (m : table) : Prop :=
  forall key i j a b, m !! i = Some a -> m !! j = Some b -> tagged key a -> tagged key b -> open a -> open b -> i = j.

Lemma changes_sound new m m' : changes new m m' -> sound_table m -> sound_table m'.
Proof.
  induction 1 as [m | m id f Hf | m inc _ Hs _ | m id | m1 m2 m3 _ IH1 _ IH2]; intros Hm; [done | | | | by auto].
  - intros i inc' [[<- (inc & Hi & ->)] | [_ Hi]]%lookup_alter_Some; [| by apply Hm].
    destruct (Hm _ _ Hi) as [Hid Hs]. destruct (Hf inc Hi Hs) as [Hs' Ha]. split; [| done]. destruct Ha. congruence.
  - apply map_Forall_insert_2; done.
  - by apply map_Forall_delete.
Qed.

Lemma changes_advance new m m' id :
  changes new m m' -> sound_table m -> ~ new id ->
  match m !! id with
  | None => m' !! id = None
  | Some inc => m' !! id = None \/ exists inc', m' !! id = Some inc' /\ advances inc inc'
  end.
Proof.
  intros Hc Hm Hid. induction Hc as [m | m i f Hf | m inc Hnew _ _ | m i | m1 m2 m3 H1 IH1 H2 IH2].
  - destruct (m !! id) as [inc |] eqn:E; [right; by exists inc | done].
  - destruct (m !! id) as [inc |] eqn:E; [| by rewrite lookup_alter_None].
    right. destruct (decide (i = id)) as [-> | Hne].
    + exists (f inc). rewrite lookup_alter_eq, E. split; [done |]. apply (Hf inc E), (Hm _ _ E).
    + exists inc. by rewrite lookup_alter_ne.
  - rewrite lookup_insert_ne by congruence. destruct (m !! id) as [inc0 |] eqn:E; [right; by exists inc0 | done].
  - destruct (decide (i = id)) as [-> | Hne]; [rewrite lookup_delete_eq; destruct (m !! id); auto |].
    rewrite lookup_delete_ne by done. destruct (m !! id) as [inc0 |] eqn:E; [right; by exists inc0 | done].
  - specialize (IH1 Hm). specialize (IH2 (changes_sound _ _ _ H1 Hm)). destruct (m1 !! id) as [inc |].
    + destruct IH1 as [E | (inc2 & E & A)]; rewrite E in IH2; [by left |].
      destruct IH2 as [? | (inc3 & E3 & A3)]; [by left |]. right. exists inc3. split; [done | by etrans].
    + by rewrite IH1 in IH2.
Qed.

Lemma changes_one_open new m m' : changes new m m' -> sound_table m -> one_open m -> one_open m'.
Proof.
  induction 1 as [m | m id f Hf | m inc _ _ Hins | m id | m1 m2 m3 H1 IH1 H2 IH2]; intros Hs Hm.
  - done.
  - assert (Hback : forall i a, alter f id m !! i = Some a -> exists a0, m !! i = Some a0 /\ Incident.Tags a = Incident.Tags a0 /\ (open a -> open a0)).
    { intros i a [[<- (a0 & Hi & ->)] | [_ Hi]]%lookup_alter_Some; [| by exists a].
      destruct (Hs _ _ Hi) as [_ Hs0]. destruct (Hf a0 Hi Hs0) as [Hs1 [Hst _ _ _ Hk]]. exists a0. split; [done |]. split; [congruence |].
      rewrite !open_rank by done. lia. }
    intros key i j a b Hi Hj Ta Tb Oa Ob. destruct (Hback i a Hi) as (a0 & Hi0 & Ea & Fa), (Hback j b Hj) as (b0 & Hj0 & Eb & Fb).
    unfold tagged in *. apply (Hm key i j a0 b0); rewrite ?Ea, ?Eb in *; auto.
  - intros key i j a b [[<- <-] | [Hi' Hi]]%lookup_insert_Some [[<- <-] | [Hj' Hj]]%lookup_insert_Some Ta Tb Oa Ob; [done | | | by eapply Hm].
    + by destruct (Hins key j b Ta Oa Hj Tb).
    + by destruct (Hins key i a Tb Ob Hi Ta).
  - intros key i j a b [_ Hi]%lookup_delete_Some [_ Hj]%lookup_delete_Some. by eapply Hm.
  - apply IH2; [by eapply changes_sound | by apply IH1].
Qed.

(** ** Operations *)

Inductive op :=
  | OCreate (uuids : nat -> string) (now : time) (input : CreateIncidentInput.t)
  | OUpdate (now : time) (id title description assignee severity : string)
  | OStatus (uuid : string) (now : time) (id status : string)
  | ODelete (id : string)
  | ONote (uuid : string) (now : time) (id type description author : string)
  | OResolve (uuid : string) (now : time) (id author : string)
  | OClose (uuid : string) (now : time) (id author : string)
  | OIngest (rangeR : gmap string AggregationRule.t -> list AggregationRule.t) (rangeI : table -> list Incident.t)
      (uuids : nat -> string) (now : time) (alert : Alert.t)
  | OAddRule (rule : AggregationRule.t)
  | ORemoveRule (id : string).

Definition exec (o : op) (s : t) : t :=
  match o with
  | OCreate uuids now input => (CreateIncident uuids now input s).1
  | OUpdate now id ti d a sev => (UpdateIncident now id ti d a sev s).1
  | OStatus uuid now id st => (UpdateStatus uuid now id st s).1
  | ODelete id => (DeleteIncident id s).1
  | ONote uuid now id ty d a => (AddTimelineEvent uuid now id ty d a s).1
  | OResolve uuid now id a => (ResolveIncident uuid now id a s).1
  | OClose uuid now id a => (CloseIncident uuid now id a s).1
  | OIngest rangeR rangeI uuids now alert => (IngestAlert rangeR rangeI uuids now alert s).1
  | OAddRule rule => mk (store s) (Engine.AddRule rule (engine s))
  | ORemoveRule id => mk (store s) (Engine.RemoveRule id (engine s))
  end.

Definition run (ops : list op) (s : t) : t := foldl (fun s o => exec o s) s ops.

(** The identifier that an operation gives to a new incident. *)
Definition creates (o : op) (id : string) : Prop :=
  match o with OCreate uuids _ _ => uuids 0 = id | OIngest _ _ uuids _ _ => uuids 1 = id | _ => False end.

(** Ranging over the table yields its incidents. *)
Definition ranges (rangeI : table -> list Incident.t) : Prop :=
  forall m inc, inc ∈ rangeI m <-> exists id, m !! id = Some inc.
Definition faithful (o : op) : Prop := match o with OIngest _ rangeI _ _ _ => ranges rangeI | _ => True end.

Definition table_of (s : t) : table := MemoryStore.incidents (store s).

Lemma table_note uuid now id ty d a s : table_of (note uuid now id ty d a s) = table_of s.
Proof. done. Qed.

Lemma table_change now id f s : table_of (change now id f s) = alter (fun inc => Incident.set_UpdatedAt now (f inc)) id (table_of s).
Proof. done. Qed.

Ltac forwards :=
  let H0 := fresh in let H1 := fresh in let H2 := fresh in let H3 := fresh in
  intros (H0 & H1 & H2 & H3); split; [split; [| split; [| split]] | split]; cbn in *; try done.

Lemma forward_fields now f inc :
  (forall inc, (Incident.ID (f inc), Incident.Status (f inc), Incident.AlertIDs (f inc), Incident.Tags (f inc), Incident.OccurredAt (f inc)) =
    (Incident.ID inc, Incident.Status inc, Incident.AlertIDs inc, Incident.Tags inc, Incident.OccurredAt inc) /\
    (Incident.DetectedAt (f inc), Incident.ResolvedAt (f inc), Incident.ClosedAt (f inc), Incident.CreatedAt (f inc)) =
    (Incident.DetectedAt inc, Incident.ResolvedAt inc, Incident.ClosedAt inc, Incident.CreatedAt inc)) ->
  forward (fun inc => Incident.set_UpdatedAt now (f inc)) inc.
Proof.
  intros Hf. destruct (Hf inc) as [[= E1 E2 E3 E4 E5] [= F1 F2 F3 F4]]. unfold forward, sound.
  forwards; rewrite ?E1, ?E2, ?E3, ?E4, ?E5, ?F1, ?F2, ?F3, ?F4; auto.
Qed.

Lemma forward_collect now alert inc : forward (fun inc => Incident.set_UpdatedAt now (collect alert inc)) inc.
Proof.
  unfold forward, sound, collect, escalate. case_match; forwards; by apply prefix_app_r.
Qed.

Lemma valid_iff a b : validForwardTransition a b = true <-> rank a < rank b /\ rank b <= 4.
Proof.
  unfold validForwardTransition, rank.
  destruct (decide (b = StatusDetected)) as [-> |]; [cbn; repeat case_bool_decide; subst; cbn; split; intros; try done; lia |].
  destruct (decide (b = StatusInvestigating)) as [-> |]; [cbn; repeat case_bool_decide; subst; cbn; split; intros; try done; lia |].
  destruct (decide (b = StatusMitigating)) as [-> |]; [cbn; repeat case_bool_decide; subst; cbn; split; intros; try done; lia |].
  destruct (decide (b = StatusResolved)) as [-> |]; [cbn; repeat case_bool_decide; subst; cbn; split; intros; try done; lia |].
  destruct (decide (b = StatusClosed)) as [-> |]; [cbn; repeat case_bool_decide; subst; cbn; split; intros; try done; lia |].
  rewrite !(bool_decide_false (b = _)) by done. cbn. split; [done | lia].
Qed.

(** A move to a later status that stamps it. *)
Lemma forward_status now status stamp inc :
  rank (Incident.Status inc) < rank status <= 4 ->
  (sound inc -> stamp = stamp_status now status (Incident.set_Status status inc)) ->
  sound inc -> sound (Incident.set_UpdatedAt now stamp) /\ advances inc (Incident.set_UpdatedAt now stamp).
Proof.
  intros [Hlt Hle] Hst Hs. rewrite (Hst Hs). destruct Hs as (Hr & Hopen & Hres & Hcl).
  assert (Hnc : Incident.ClosedAt inc = None).
  { apply eq_None_not_Some. rewrite <- Hcl, <- rank_closed. lia. }
  unfold stamp_status. destruct (decide (status = StatusResolved)) as [-> | Hn1]; [| destruct (decide (status = StatusClosed)) as [-> | Hn2]].
  - change (rank StatusResolved) with 3 in *. assert (Hn : Incident.ResolvedAt inc = None) by (apply Hopen; lia).
    rewrite bool_decide_true by done. cbn. rewrite Hn. split; [split; [| split; [| split]] | split]; cbn; try done.
    + change (rank StatusResolved) with 3. lia.
    + by rewrite Hnc; split; [| intros []].
    + change (rank StatusResolved) with 3. lia.
    + congruence.
  - change (rank StatusClosed) with 4 in *.
    rewrite (bool_decide_false (StatusClosed = _)), bool_decide_true by done. cbn. rewrite Hnc.
    split; [split; [| split; [| split]] | split]; cbn; try done; change (rank StatusClosed) with 4 in *; try lia; congruence.
  - rewrite !bool_decide_false by done. pose proof (rank_resolved status) as R3. pose proof (rank_closed status) as R4.
    split; [split; [| split; [| split]] | split]; cbn; try done; try lia.
    + intros _. apply Hopen. destruct (decide (rank status = 3)); [by destruct Hn1; apply R3 |].
      destruct (decide (rank status = 4)); [by destruct Hn2; apply R4 | lia].
    + rewrite Hnc. split; [done | by intros []].
Qed.

(** ** What ingesting does *)

(** The incident that the first alert of a group opens. *)
Definition opened (uuid : string) (now : time) (key : string) (alert : Alert.t) : Incident.t :=
  Incident.set_Tags {[aggregationKeyTag := key]} (Incident.mk uuid ("Incident for " +:+ Alert.DeviceID alert) (Alert.Message alert)
    (Alert.Severity alert) StatusDetected [] [Alert.DeviceID alert] "" ∅ (Some (Alert.Timestamp alert)) now None None now now).

Definition collecting (now : time) (alert : Alert.t) (inc : Incident.t) : Incident.t := Incident.set_UpdatedAt now (collect alert inc).

Lemma stored_opened now inc m :
  Incident.CreatedAt inc = now -> Incident.UpdatedAt inc = now ->
  MemoryStore.incidents (MemoryStore.CreateIncident now inc m) = <[Incident.ID inc := inc]> (MemoryStore.incidents m).
Proof.
  intros E1 E2. unfold MemoryStore.CreateIncident. destruct inc; cbn in *. subst.
  repeat case_match; cbn in *; try done; by rewrite ?E1.
Qed.

Lemma ingest_into_result uuids now alert key found s :
  (ingest_into uuids now alert key found s).2 = Ok (match found with Some inc => Incident.ID inc | None => uuids 1 end).
Proof. unfold ingest_into. by destruct found as [inc |]. Qed.

Lemma ingest_into_found uuids now alert key inc s :
  table_of (ingest_into uuids now alert key (Some inc) s).1 = alter (collecting now alert) (Incident.ID inc) (table_of s).
Proof. unfold ingest_into. by case_match. Qed.

Lemma ingest_into_new uuids now alert key s :
  table_of (ingest_into uuids now alert key None s).1 =
    <[uuids 1 := collecting now alert (opened (uuids 1) now key alert)]> (table_of s).
Proof.
  unfold ingest_into, CreateIncident. cbn [CreateIncidentInput.Title]. rewrite bool_decide_false by done. cbn [Incident.ID].
  match goal with |- table_of (if ?b then _ else _, _).1 = _ => destruct b end; cbn [fst]; rewrite ?table_note, table_change.
  all: unfold table_of, tag_incident, note, set_store; cbn [store MemoryStore.incidents MemoryStore.AddTimelineEvent].
  all: rewrite stored_opened by done; cbn [Incident.ID]; by rewrite alter_insert_eq, alter_insert_eq, insert_id_eq || rewrite !alter_insert_eq.
Qed.

Lemma find_open range key s inc :
  ranges range -> findOpenIncidentByGroup range key s = Some inc -> key <> "" ->
  exists id, table_of s !! id = Some inc /\ open inc /\ tagged key inc.
Proof.
  intros Hr [Hin Hb]%find_first_Some Hk. apply Hr in Hin as (id & Hid). exists id. split; [done |].
  apply andb_true_iff in Hb as [Ho%negb_true_iff Ht%bool_decide_eq_true]. split; [done |]. unfold tagged.
  destruct (Incident.Tags inc !! aggregationKeyTag); cbn in Ht; congruence.
Qed.

Lemma find_none range key s id inc :
  ranges range -> findOpenIncidentByGroup range key s = None -> table_of s !! id = Some inc -> tagged key inc -> ~ open inc.
Proof.
  intros Hr Hn Hid Ht Ho. unfold findOpenIncidentByGroup in Hn. rewrite find_first_None in Hn.
  specialize (Hn inc). rewrite Ho, Ht in Hn. cbn in Hn. rewrite bool_decide_true in Hn by done.
  by discriminate (Hn (proj2 (Hr _ _) (ex_intro _ id Hid))).
Qed.

Lemma grouping_key_nonempty d r : Engine.grouping_key d r <> "".
Proof. unfold Engine.grouping_key. by destruct d. Qed.

Lemma sound_new inc :
  Incident.Status inc = StatusDetected -> Incident.ResolvedAt inc = None -> Incident.ClosedAt inc = None -> sound inc.
Proof.
  intros E1 E2 E3. unfold sound. rewrite E1, E2, E3. split; [exact (Nat.le_0_l 4) |]. split; [done |]. split; [done |].
  split; [done |]. by intros [].
Qed.

Lemma collecting_kept now alert inc :
  Incident.ID (collecting now alert inc) = Incident.ID inc /\ Incident.Status (collecting now alert inc) = Incident.Status inc /\
  Incident.Tags (collecting now alert inc) = Incident.Tags inc /\
  Incident.AlertIDs (collecting now alert inc) = Incident.AlertIDs inc ++ [Alert.ID alert].
Proof. unfold collecting, collect, escalate. by case_match. Qed.

(** ** Every operation is a composition of the changes *)

Lemma exec_changes o s : sound_table (table_of s) -> faithful o -> changes (creates o) (table_of s) (table_of (exec o s)).
Proof.
  intros Hs Ho. destruct o as [uuids now input | now id ti d a sev | uuid now id st | id | uuid now id ty d a | uuid now id a | uuid now id a
    | rangeR rangeI uuids now alert | rule | id]; cbn [exec creates faithful] in *.
  - unfold CreateIncident. case_bool_decide; [constructor |]. cbn [fst]. rewrite table_note. unfold table_of, set_store. cbn [store].
    rewrite stored_opened by done. by apply ch_insert; [| apply sound_new |].
  - unfold UpdateIncident. destruct (MemoryStore.GetIncident id (store s)); [| constructor]. case_match; [constructor |].
    cbn [fst]. rewrite table_change. apply ch_alter. intros inc _. apply forward_fields. intros inc'. unfold given. by repeat case_match.
  - unfold UpdateStatus. destruct (MemoryStore.GetIncident id (store s)) as [inc |] eqn:E; [| constructor].
    destruct (validForwardTransition _ _) eqn:V; [| constructor].
    cbn [fst negb]. rewrite table_note, table_change. apply ch_alter.
    intros inc' E'. unfold MemoryStore.GetIncident in E. assert (inc' = inc) as -> by (unfold table_of in E'; congruence).
    intros Hi. by apply (forward_status now st); [apply valid_iff | |].
  - unfold DeleteIncident, MemoryStore.DeleteIncident. destruct (MemoryStore.incidents (store s) !! id); [apply ch_delete | constructor].
  - unfold AddTimelineEvent. destruct (MemoryStore.GetIncident id (store s)); constructor.
  - unfold ResolveIncident. destruct (MemoryStore.GetIncident id (store s)) as [inc |] eqn:E; [| constructor].
    destruct (is_over inc) eqn:V; [constructor |]. cbn [fst]. rewrite table_note, table_change. apply ch_alter.
    intros inc' E'. unfold MemoryStore.GetIncident in E. assert (inc' = inc) as -> by (unfold table_of in E'; congruence).
    intros Hi. pose proof (proj1 (open_rank inc Hi) V). apply (forward_status now StatusResolved); [change (rank StatusResolved) with 3; lia | | done].
    intros (_ & Hr & _). unfold stamp_status. rewrite bool_decide_true by done. cbn. by rewrite Hr.
  - unfold CloseIncident. destruct (MemoryStore.GetIncident id (store s)) as [inc |] eqn:E; [| constructor].
    case_bool_decide as V; [constructor |]. cbn [fst]. rewrite table_note, table_change. apply ch_alter.
    intros inc' E'. unfold MemoryStore.GetIncident in E. assert (inc' = inc) as -> by (unfold table_of in E'; congruence).
    intros Hi. rewrite <- rank_closed in V. destruct Hi as (Hr & Hi). apply (forward_status now StatusClosed); [change (rank StatusClosed) with 4; lia | | done].
    intros (_ & _ & _ & Hc). unfold stamp_status. rewrite (bool_decide_false (StatusClosed = _)), bool_decide_true by done. cbn.
    rewrite rank_closed, Hc in V. by rewrite (proj2 (eq_None_not_Some _) V).
  - unfold IngestAlert, ingest_find. set (a1 := if Alert.ID alert == "" then _ else _). set (a2 := if IsZero _ then _ else _).
    set (res := Engine.Aggregate rangeR now a2 (engine s)). destruct (AggregateResult.Matched res) eqn:M; [| constructor]. cbn [negb].
    destruct (findOpenIncidentByGroup rangeI (AggregateResult.IncidentID res) s) as [inc |] eqn:F.
    + rewrite ingest_into_found. apply ch_alter. intros inc' _. apply forward_collect.
    + rewrite ingest_into_new. set (inc := opened _ _ _ _).
      destruct (collecting_kept now a2 inc) as (E1 & _ & E3 & _).
      assert (Hc : changes (creates (OIngest rangeR rangeI uuids now alert)) (table_of s)
        (<[Incident.ID (collecting now a2 inc) := collecting now a2 inc]> (table_of s))); [| rewrite E1 in Hc; exact Hc].
      apply ch_insert; [by rewrite E1 | by apply (forward_collect now a2 inc), sound_new |].
      intros key id' inc' Ht _ Hid Ht'. unfold tagged in Ht. rewrite E3 in Ht.
      unfold inc, opened in Ht. cbn [Incident.Tags Incident.set_Tags] in Ht. rewrite lookup_singleton_eq in Ht.
      injection Ht as <-. by eapply find_none.
  - constructor.
  - constructor.
Qed.

(** ** Runs *)

Lemma incident_run_snoc ops o s : run (ops ++ [o]) s = exec o (run ops s).
Proof. unfold run. by rewrite foldl_snoc. Qed.

(** What every run keeps. *)
Definition orderly (s : t) : Prop := sound_table (table_of s) /\ one_open (table_of s).

Lemma exec_orderly o s : faithful o -> orderly s -> orderly (exec o s).
Proof.
  intros Ho [H1 H2]. pose proof (exec_changes o s H1 Ho) as Hc. split; [by eapply changes_sound | by eapply changes_one_open].
Qed.

Lemma run_orderly ops s : Forall faithful ops -> orderly s -> orderly (run ops s).
Proof.
  intros Hops Hs. induction ops as [| o ops IH] using rev_ind; [done |]. apply Forall_app in Hops as [Hops [Ho _]%Forall_cons_1].
  rewrite incident_run_snoc. apply exec_orderly; auto.
Qed.

Lemma orderly_new e : orderly (NewService e).
Proof. split; [apply map_Forall_empty |]. intros key i j a b Hi. change ((∅ : table) !! i = Some a) in Hi. by rewrite lookup_empty in Hi. Qed.

(** Along every sequence of operations an incident only moves forward in
    its life cycle, keeps the alerts it has collected and the instants at which it
    was resolved and closed, and these instants are set exactly as its status says. *)
Theorem incidents_move_forward ops s id inc inc' :
  orderly s -> Forall faithful ops -> Forall (fun o => ~ creates o id) ops ->
  table_of s !! id = Some inc -> table_of (run ops s) !! id = Some inc' ->
  advances inc inc' /\ sound inc'.
Proof.
  intros Hs Hops Hnew Hid Hid'. split; [| by apply (proj1 (run_orderly ops s Hops Hs) id inc' Hid')].
  cut (table_of (run ops s) !! id = None \/ exists inc', table_of (run ops s) !! id = Some inc' /\ advances inc inc').
  { intros [E | (inc2 & E & A)]; congruence. }
  clear inc' Hid'. induction ops as [| o ops IH] using rev_ind; [right; by exists inc |].
  apply Forall_app in Hops as [Hops [Ho _]%Forall_cons_1]. apply Forall_app in Hnew as [Hnew [Hn _]%Forall_cons_1].
  rewrite incident_run_snoc. pose proof (run_orderly ops s Hops Hs) as [Hr _].
  pose proof (changes_advance _ _ _ id (exec_changes o _ Hr Ho) Hr Hn) as Hc.
  destruct (IH Hops Hnew) as [E | (inc1 & E & A)]; rewrite E in Hc; [by left |].
  destruct Hc as [? | (inc2 & E2 & A2)]; [by left |]. right. exists inc2. split; [done | by etrans].
Qed.

(** The alert as it is ingested. *)
Definition completed (uuid : string) (now : time) (alert : Alert.t) : Alert.t :=
  let alert := if Alert.ID alert == "" then Alert.set_ID uuid alert else alert in
  if IsZero (Alert.Timestamp alert) then Alert.set_Timestamp now alert else alert.

Lemma completed_kept uuid now alert :
  Alert.ID (completed uuid now alert) = (if Alert.ID alert == "" then uuid else Alert.ID alert) /\
  Alert.DeviceID (completed uuid now alert) = Alert.DeviceID alert.
Proof. unfold completed. by repeat case_match. Qed.

(** The effect of [IngestAlert] on the table. *)
Lemma ingest_effect rangeR rangeI uuids now alert s :
  ranges rangeI -> sound_table (table_of s) ->
  match IngestAlert rangeR rangeI uuids now alert s with
  | (s', Err err) => err = NotMatched /\ s' = s
  | (s', Ok id) => exists rule inc, let key := Engine.grouping_key (Alert.DeviceID alert) rule in
      AggregateResult.mk key true rule = Engine.Aggregate rangeR now (completed (uuids 0) now alert) (engine s) /\
      (table_of s !! id = Some inc \/ findOpenIncidentByGroup rangeI key s = None /\ id = uuids 1 /\ Incident.AlertIDs inc = []) /\
      table_of s' = <[id := collecting now (completed (uuids 0) now alert) inc]> (table_of s) /\ open inc /\ tagged key inc /\ Incident.ID inc = id
  end.
Proof.
  intros Hr Hs. unfold IngestAlert, ingest_find. cbv zeta. fold (completed (uuids 0) now alert). set (a2 := completed _ _ _).
  destruct (Engine.Aggregate rangeR now a2 (engine s)) as [key ok rule] eqn:Ea. unfold Engine.Aggregate in Ea.
  destruct (find_first _ _) as [r |]; [injection Ea as <- <- <- | by injection Ea as <- <- <-].
  cbn [negb AggregateResult.Matched AggregateResult.IncidentID].
  replace (Alert.DeviceID a2) with (Alert.DeviceID alert) by (symmetry; apply completed_kept). set (key := Engine.grouping_key _ _).
  destruct (ingest_into _ _ _ _ _ _) as [s' r2] eqn:Ei.
  pose proof (ingest_into_result uuids now a2 key (findOpenIncidentByGroup rangeI key s) s) as E2. rewrite Ei in E2. cbn in E2. subst r2.
  exists (AggregationRule.ID r). destruct (findOpenIncidentByGroup rangeI key s) as [inc |] eqn:F.
  - destruct (find_open _ _ _ _ Hr F (grouping_key_nonempty _ _)) as (id & Hid & Ho & Ht). destruct (Hs id inc Hid) as [<- _].
    pose proof (ingest_into_found uuids now a2 key inc s) as Hf. rewrite Ei in Hf. cbn [fst] in Hf.
    exists inc. split; [done |]. split; [by left |]. split; [| done]. rewrite Hf. by apply alter_as_insert.
  - pose proof (ingest_into_new uuids now a2 key s) as Hf. rewrite Ei in Hf. cbn [fst] in Hf.
    exists (opened (uuids 1) now key a2). split; [done |]. split; [by right |]. split; [done |]. split; [done |].
    split; [apply lookup_singleton_eq | done].
Qed.

(** After any operations, an alert that is ingested joins the only open
    incident of its group, which is a new one when there was none; no other
    incident changes. *)
Theorem alert_joins_its_incident ops e rangeR rangeI uuids now alert :
  Forall faithful ops -> ranges rangeI ->
  let s := run ops (NewService e) in
  match IngestAlert rangeR rangeI uuids now alert s with
  | (s', Err err) => err = NotMatched /\ s' = s
  | (s', Ok id) => exists rule inc, table_of s' !! id = Some inc /\ open inc /\
      tagged (Engine.grouping_key (Alert.DeviceID alert) rule) inc /\
      last (Incident.AlertIDs inc) = Some (if Alert.ID alert == "" then uuids 0 else Alert.ID alert) /\
      (forall i other, table_of s' !! i = Some other -> open other -> tagged (Engine.grouping_key (Alert.DeviceID alert) rule) other -> i = id) /\
      forall i, i <> id -> table_of s' !! i = table_of s !! i
  end.
Proof.
  intros Hops Hr s. assert (Hs : orderly s) by (apply run_orderly; [done | apply orderly_new]).
  pose proof (exec_orderly (OIngest rangeR rangeI uuids now alert) s Hr Hs) as [_ Hs2]. cbn [exec] in Hs2.
  pose proof (ingest_effect rangeR rangeI uuids now alert s Hr (proj1 Hs)) as Hi.
  destruct (IngestAlert _ _ _ _ _ _) as [s' [id | err]]; [| done]. cbn [fst] in Hs2.
  destruct Hi as (rule & inc & _ & _ & Et & Ho & Ht & _). set (a2 := completed _ _ _) in *.
  destruct (collecting_kept now a2 inc) as (_ & E2 & E3 & E4).
  assert (Hin : table_of s' !! id = Some (collecting now a2 inc)) by (rewrite Et; apply lookup_insert_eq).
  assert (Ho' : open (collecting now a2 inc)) by (unfold open, is_over in *; by rewrite E2).
  assert (Ht' : tagged (Engine.grouping_key (Alert.DeviceID alert) rule) (collecting now a2 inc)) by (unfold tagged; by rewrite E3).
  exists rule, (collecting now a2 inc). split; [done |]. split; [done |]. split; [done |].
  split; [rewrite E4, last_snoc; f_equal; apply completed_kept |]. split; [intros i other Hi Hoi Hti; by eapply Hs2 |].
  intros i Hi. by rewrite Et, lookup_insert_ne.
Qed.

(** ** Severities *)

Lemma rank_ShouldEscalate n m : (SeverityRank m <= SeverityRank (ShouldEscalate n m))%Z.
Proof.
  unfold ShouldEscalate. repeat case_match; unfold SeverityRank; repeat case_bool_decide; subst; try done; try lia;
    rewrite ?orb_false_iff, ?bool_decide_eq_false in *; naive_solver lia.
Qed.

Lemma rank_max_severity a b : SeverityRank (max_severity a b) = Z.max (SeverityRank a) (SeverityRank b).
Proof. unfold max_severity. destruct (Z.ltb_spec (SeverityRank a) (SeverityRank b)); lia. Qed.

Lemma collecting_severity now alert inc :
  SeverityRank (Incident.Severity (collecting now alert inc)) =
    Z.max (SeverityRank (Incident.Severity inc))
      (SeverityRank (ShouldEscalate (Z.of_nat (S (length (Incident.AlertIDs inc)))) (max_severity (Incident.Severity inc) (Alert.Severity alert)))).
Proof.
  unfold collecting, collect, escalate, escalated. cbn [Incident.set_AlertIDs Incident.AlertIDs Incident.Severity]. rewrite length_app, Nat.add_1_r.
  destruct (Z.ltb_spec (SeverityRank (Incident.Severity inc)) (SeverityRank (ShouldEscalate (Z.of_nat (S (length (Incident.AlertIDs inc))))
    (max_severity (Incident.Severity inc) (Alert.Severity alert))))); cbn [Incident.set_UpdatedAt Incident.set_Severity Incident.set_AlertIDs Incident.Severity]; lia.
Qed.

Lemma rank_by_count n m :
  ((10 <= n -> SeverityRank (ShouldEscalate n m) = 4) /\ (5 <= n -> 3 <= SeverityRank (ShouldEscalate n m)) /\
   (3 <= n -> 2 <= SeverityRank (ShouldEscalate n m)))%Z.
Proof.
  unfold ShouldEscalate. destruct (Z.leb_spec 10 n); cbn [orb]; [split_and!; intros; vm_compute; congruence |].
  destruct (Z.leb_spec 5 n); cbn [orb]; [split_and!; [lia | |]; intros; case_match; vm_compute; congruence |].
  destruct (Z.leb_spec 3 n); cbn [orb]; split_and!; try lia; intros; repeat case_match; vm_compute; congruence.
Qed.

(** Ingesting an alert never lowers the severity of its incident, and leaves
    it at least at that of the alert and at that of the number of alerts
    collected: medium from three, high from five, critical from ten. *)
Theorem severity_only_rises ops e rangeR rangeI uuids now alert s' id :
  Forall faithful ops -> ranges rangeI ->
  let s := run ops (NewService e) in
  IngestAlert rangeR rangeI uuids now alert s = (s', Ok id) ->
  exists inc', table_of s' !! id = Some inc' /\
    let r := SeverityRank (Incident.Severity inc') in let n := length (Incident.AlertIDs inc') in
    (SeverityRank (Alert.Severity alert) <= r)%Z /\
    (forall inc, table_of s !! id = Some inc -> uuids 1 <> id -> (SeverityRank (Incident.Severity inc) <= r)%Z) /\
    (3 <= n -> (2 <= r)%Z) /\ (5 <= n -> (3 <= r)%Z) /\ (10 <= n -> (4 <= r)%Z).
Proof.
  intros Hops Hr s Hi. assert (Hs : orderly s) by (apply run_orderly; [done | apply orderly_new]).
  pose proof (ingest_effect rangeR rangeI uuids now alert s Hr (proj1 Hs)) as He. rewrite Hi in He.
  destruct He as (rule & inc & _ & Hold & Et & _). set (a2 := completed _ _ _) in *.
  exists (collecting now a2 inc). split; [by rewrite Et, lookup_insert_eq |]. cbv zeta.
  destruct (collecting_kept now a2 inc) as (_ & _ & _ & ->). rewrite length_app, Nat.add_1_r, collecting_severity.
  replace (Alert.Severity a2) with (Alert.Severity alert) by (unfold a2, completed; by repeat case_match).
  set (m := max_severity _ _). set (n := S (length (Incident.AlertIDs inc))).
  pose proof (rank_ShouldEscalate (Z.of_nat n) m) as Hm. pose proof (rank_max_severity (Incident.Severity inc) (Alert.Severity alert)) as Hx. fold m in Hx.
  pose proof (rank_by_count (Z.of_nat n) m) as (H10 & H5 & H3).
  split; [lia |]. split; [| lia].
  intros inc0 Hinc0 Hne. destruct Hold as [E | (_ & E & _)]; [| by destruct Hne]. rewrite E in Hinc0. injection Hinc0 as <-. lia.
Qed.

(** ** Groups that are not groups *)

Lemma grouping_keys_collide d x r : Engine.grouping_key (d +:+ "-" +:+ x) r = Engine.grouping_key d (x +:+ "-" +:+ r).
Proof. unfold Engine.grouping_key. by rewrite !app_assoc_string. Qed.

(** The key of a group joins the device and the rule by a dash, which may
    occur in both: the alerts of device [d-x] under rule [r] and those of device [d]
    under rule [x-r] are put into one incident. *)
Theorem groups_collide s rangeR rangeR' rangeI uuids uuids' now now' alert alert' s1 id s2 id' d x r :
  orderly s -> ranges rangeI ->
  Alert.DeviceID alert = d +:+ "-" +:+ x -> Alert.DeviceID alert' = d ->
  AggregateResult.RuleID (Engine.Aggregate rangeR now (completed (uuids 0) now alert) (engine s)) = r ->
  AggregateResult.RuleID (Engine.Aggregate rangeR' now' (completed (uuids' 0) now' alert') (engine s1)) = x +:+ "-" +:+ r ->
  IngestAlert rangeR rangeI uuids now alert s = (s1, Ok id) ->
  IngestAlert rangeR' rangeI uuids' now' alert' s1 = (s2, Ok id') -> id' = id.
Proof.
  intros Hs Hr Ed Ed' Er Er' H1 H2.
  pose proof (ingest_effect rangeR rangeI uuids now alert s Hr (proj1 Hs)) as He. rewrite H1 in He.
  destruct He as (rule & inc & Ea & _ & Et & Ho & Ht & _). rewrite <- Ea in Er. cbn in Er. subst rule.
  pose proof (exec_orderly (OIngest rangeR rangeI uuids now alert) s Hr Hs) as Hs1. cbn [exec] in Hs1. rewrite H1 in Hs1. cbn [fst] in Hs1.
  pose proof (ingest_effect rangeR' rangeI uuids' now' alert' s1 Hr (proj1 Hs1)) as He'. rewrite H2 in He'.
  destruct He' as (rule' & inc' & Ea' & Hold & _ & Ho' & Ht' & _). rewrite <- Ea' in Er'. cbn in Er'. subst rule'.
  rewrite Ed, grouping_keys_collide, <- Ed' in Ht. set (a2 := completed (uuids 0) now alert) in *.
  destruct (collecting_kept now a2 inc) as (_ & E2 & E3 & _).
  assert (Hin : table_of s1 !! id = Some (collecting now a2 inc)) by (rewrite Et; apply lookup_insert_eq).
  assert (Ho1 : open (collecting now a2 inc)) by (unfold open, is_over in *; by rewrite E2).
  assert (Ht1 : tagged (Engine.grouping_key (Alert.DeviceID alert') (x +:+ "-" +:+ r)) (collecting now a2 inc)) by (unfold tagged; by rewrite E3).
  destruct Hold as [Hid' | (Hn & _)]; [by eapply (proj2 Hs1) |].
  by destruct (find_none _ _ _ _ _ Hr Hn Hin Ht1).
Qed.

(** Looking for the open incident and creating one are not one step: two
    alerts of a group that both look before either creates open two incidents for
    it. *)
Theorem concurrent_alerts_open_two s rangeR rangeI u1 u2 now1 now2 a1 a2 a1' a2' key :
  u1 1 <> u2 1 ->
  ingest_find rangeR rangeI u1 now1 a1 s = Ok (a1', key, None) -> ingest_find rangeR rangeI u2 now2 a2 s = Ok (a2', key, None) ->
  let s' := (ingest_into u2 now2 a2' key None (ingest_into u1 now1 a1' key None s).1).1 in
  forall id, id = u1 1 \/ id = u2 1 -> exists inc, table_of s' !! id = Some inc /\ open inc /\ tagged key inc /\ length (Incident.AlertIDs inc) = 1.
Proof.
  intros Hne _ _ s' id Hid. unfold s'. rewrite !ingest_into_new.
  assert (Hone : forall u now a, let inc := collecting now a (opened u now key a) in open inc /\ tagged key inc /\ length (Incident.AlertIDs inc) = 1).
  { intros u now a inc. destruct (collecting_kept now a (opened u now key a)) as (_ & E2 & E3 & E4). unfold inc, open, is_over, tagged.
    rewrite E2, E3, E4. split; [done |]. split; [apply lookup_singleton_eq | done]. }
  destruct Hid as [-> | ->]; [rewrite lookup_insert_ne by done |]; rewrite lookup_insert_eq; eexists; (split; [done | apply Hone]).
Qed.

(** ** Reports *)

Lemma tally_counts acc inc :
  rank (Incident.Status inc) <= 4 ->
  ResponseMetrics.TotalIncidents (tally acc inc).1.1 = ResponseMetrics.TotalIncidents acc.1.1 /\
  (ResponseMetrics.ActiveIncidents (tally acc inc).1.1 + ResponseMetrics.ResolvedIncidents (tally acc inc).1.1 =
    ResponseMetrics.ActiveIncidents acc.1.1 + ResponseMetrics.ResolvedIncidents acc.1.1 + 1)%Z.
Proof.
  destruct acc as [[m [sR nR]] [sD nD]]. unfold rank, tally. cbn [fst].
  repeat (case_bool_decide; cbn [orb fst ResponseMetrics.TotalIncidents ResponseMetrics.ActiveIncidents ResponseMetrics.ResolvedIncidents]); lia.
Qed.

Lemma tallies_count l acc :
  Forall (fun inc => rank (Incident.Status inc) <= 4) l ->
  ResponseMetrics.TotalIncidents (foldl tally acc l).1.1 = ResponseMetrics.TotalIncidents acc.1.1 /\
  (ResponseMetrics.ActiveIncidents (foldl tally acc l).1.1 + ResponseMetrics.ResolvedIncidents (foldl tally acc l).1.1 =
    ResponseMetrics.ActiveIncidents acc.1.1 + ResponseMetrics.ResolvedIncidents acc.1.1 + Z.of_nat (length l))%Z.
Proof.
  intros Hl. revert acc. induction Hl as [| inc l Hi _ IH]; intros acc; cbn [foldl length]; [lia |].
  destruct (tally_counts acc inc Hi), (IH (tally acc inc)). lia.
Qed.

(** Every incident is counted once, as active or as resolved. *)
Theorem metrics_count_all ops e range :
  Forall faithful ops -> ranges range ->
  let m := GetResponseMetrics range (run ops (NewService e)) in
  ResponseMetrics.TotalIncidents m = Z.of_nat (length (range (table_of (run ops (NewService e))))) /\
  (ResponseMetrics.ActiveIncidents m + ResponseMetrics.ResolvedIncidents m = ResponseMetrics.TotalIncidents m)%Z.
Proof.
  intros Hops Hr. cbv zeta. set (s := run ops _). assert (Hs : orderly s) by (apply run_orderly; [done | apply orderly_new]).
  unfold GetResponseMetrics, MemoryStore.Incidents. fold (table_of s). set (l := range (table_of s)).
  assert (Hl : Forall (fun inc => rank (Incident.Status inc) <= 4) l).
  { apply Forall_forall. intros inc (id & Hid)%Hr. apply (proj1 Hs id inc Hid). }
  pose proof (tallies_count l (ResponseMetrics.mk (Z.of_nat (length l)) 0 0 0 0, (0, 0), (0, 0))%Z Hl) as [E1 E2].
  destruct (foldl tally _ l) as [[m [sR nR]] [sD nD]]. cbn in *. lia.
Qed.

Lemma earlier_irrefl_trans :
  (forall a b, Timeline.earlier a b = true -> Timeline.earlier b a = false) /\
  (forall a b c, not_more Timeline.earlier a b -> not_more Timeline.earlier b c -> not_more Timeline.earlier a c).
Proof. unfold not_more, Timeline.earlier, Before. split; intros; lia. Qed.

(** A timeline has the events recorded for the incident, each once, in the
    order of their instants. *)
Theorem timeline_in_order shuffle id s l :
  (forall l, shuffle l ≡ₚ l) -> GetTimeline shuffle id s = Ok l ->
  l ≡ₚ MemoryStore.GetTimeline id (store s) /\
  StronglySorted (fun a b => TimelineEvent.Timestamp a <= TimelineEvent.Timestamp b)%Z l.
Proof.
  intros Hsh. unfold GetTimeline. destruct (MemoryStore.GetIncident id (store s)); [| done]. intros [= <-]. unfold Timeline.Build.
  split; [by rewrite stable_sort_perm, Hsh |]. destruct earlier_irrefl_trans as [Ha Ht].
  eapply StronglySorted_weaken; [| by apply stable_sort_sorted].
  intros a b H. unfold not_more, Timeline.earlier, Before in H. lia.
Qed.

(** ** Examples *)

Definition ex_values {A} (m : gmap string A) : list A := (map_to_list m).*2.
Definition ex_ids (u : string) (n : nat) : string := u +:+ pretty (N.of_nat n).
Definition ex_engine (rules : list string) : Engine.t :=
  foldl (fun e r => Engine.AddRule (AggregationRule.mk r r [] [] "" 0 true) e) (Engine.NewEngine 0) rules.
Definition ex_alert (dev sev : string) (at_ : time) : Alert.t := Alert.mk "" "probe" dev sev "disk full" "disk" at_ ∅.
Definition ex_ingest (u dev sev : string) (at_ : time) : op := OIngest ex_values ex_values (ex_ids u) at_ (ex_alert dev sev at_).

Lemma ex_ranges : ranges ex_values.
Proof.
  intros m inc. unfold ex_values. rewrite list_elem_of_fmap. split.
  - intros ([id v] & -> & H%elem_of_map_to_list). by exists id.
  - intros (id & H). exists (id, inc). split; [done | by apply elem_of_map_to_list].
Qed.

Definition ex_ops : list op :=
  [ex_ingest "a" "web1" "low" 10; ex_ingest "b" "web1" "high" 20; ex_ingest "c" "db" "info" 30].

Lemma ex_faithful : Forall faithful ex_ops.
Proof. repeat apply List.Forall_cons; try exact ex_ranges. constructor. Qed.

Lemma ex_orderly : orderly (run ex_ops (NewService (ex_engine ["r"]))).
Proof. apply run_orderly; [exact ex_faithful | apply orderly_new]. Qed.

Lemma incidents_move_forward_witness :
  let s := run ex_ops (NewService (ex_engine ["r"])) in
  let ops := [OResolve "x" 40 "a1" "ann"; ex_ingest "d" "web1" "low" 50; OClose "y" 60 "a1" "ann"; OStatus "z" 70 "a1" StatusDetected] in
  exists inc inc', table_of s !! "a1" = Some inc /\ table_of (run ops s) !! "a1" = Some inc' /\ advances inc inc' /\
    (Incident.Status inc', Incident.ResolvedAt inc', Incident.ClosedAt inc', Incident.AlertIDs inc') = (StatusClosed, Some 40%Z, Some 60%Z, ["a0"; "b0"]).
Proof.
  intros s ops. destruct (table_of s !! "a1") as [inc |] eqn:E; [| vm_compute in E; discriminate E].
  destruct (table_of (run ops s) !! "a1") as [inc' |] eqn:E'; [| vm_compute in E'; discriminate E'].
  exists inc, inc'. split; [reflexivity |]. split; [reflexivity |]. split.
  - refine (proj1 (incidents_move_forward ops s "a1" inc inc' ex_orderly _ _ E E')).
    + repeat apply List.Forall_cons; try exact I; try exact ex_ranges. constructor.
    + repeat apply List.Forall_cons; [intros [] | intros H; vm_compute in H; discriminate H | intros [] | intros [] | constructor].
  - vm_compute in E'. injection E' as <-. reflexivity.
Defined.

Lemma alert_joins_its_incident_witness :
  let s := run ex_ops (NewService (ex_engine ["r"])) in
  exists s' inc, IngestAlert ex_values ex_values (ex_ids "d") 40 (ex_alert "web1" "info" 40) s = (s', Ok "a1") /\
    table_of s' !! "a1" = Some inc /\ open inc /\ table_of s' !! "c1" = table_of s !! "c1".
Proof.
  intros s. pose proof (alert_joins_its_incident ex_ops (ex_engine ["r"]) ex_values ex_values (ex_ids "d") 40 (ex_alert "web1" "info" 40)
    ex_faithful ex_ranges) as H. cbv zeta in H. fold s in H.
  assert (E : (IngestAlert ex_values ex_values (ex_ids "d") 40 (ex_alert "web1" "info" 40) s).2 = Ok "a1") by (vm_compute; reflexivity).
  destruct (IngestAlert ex_values ex_values (ex_ids "d") 40 (ex_alert "web1" "info" 40) s) as [s' r]. cbn in E. subst r.
  destruct H as (rule & inc & Hin & Ho & _ & _ & _ & Hother). exists s', inc. split; [reflexivity |]. split; [exact Hin |]. split; [exact Ho |].
  apply Hother. discriminate.
Defined.

Lemma severity_only_rises_witness :
  let s := run ex_ops (NewService (ex_engine ["r"])) in
  exists s' inc', IngestAlert ex_values ex_values (ex_ids "d") 40 (ex_alert "web1" "info" 40) s = (s', Ok "a1") /\
    table_of s' !! "a1" = Some inc' /\ (0 <= SeverityRank (Incident.Severity inc'))%Z.
Proof.
  intros s. pose proof (severity_only_rises ex_ops (ex_engine ["r"]) ex_values ex_values (ex_ids "d") 40 (ex_alert "web1" "info" 40)) as H.
  assert (E : (IngestAlert ex_values ex_values (ex_ids "d") 40 (ex_alert "web1" "info" 40) s).2 = Ok "a1") by (vm_compute; reflexivity).
  destruct (IngestAlert ex_values ex_values (ex_ids "d") 40 (ex_alert "web1" "info" 40) s) as [s' r] eqn:Ei. cbn in E. subst r.
  destruct (H s' "a1" ex_faithful ex_ranges Ei) as (inc' & Hin & Hr & _). exists s', inc'. split; [reflexivity |]. split; [exact Hin | exact Hr].
Defined.

Definition ex_one (id : string) (m : gmap string AggregationRule.t) : list AggregationRule.t := option_list (m !! id).
Definition ex_first : t * result incident_error string :=
  IngestAlert (ex_one "disk") ex_values (ex_ids "a") 10 (ex_alert "web-1" "low" 10) (NewService (ex_engine ["disk"; "1-disk"])).
Definition ex_second : t * result incident_error string :=
  IngestAlert (ex_one "1-disk") ex_values (ex_ids "b") 20 (ex_alert "web" "low" 20) ex_first.1.

(** Device [web-1] under rule [disk], and device [web] under rule [1-disk]. *)
Lemma groups_collide_witness : exists id, ex_first.2 = Ok "a1" /\ ex_second.2 = Ok id /\ id = "a1".
Proof.
  assert (E1 : ex_first.2 = Ok "a1") by (vm_compute; reflexivity). assert (E2 : ex_second.2 = Ok "a1") by (vm_compute; reflexivity).
  exists "a1". split; [exact E1 |]. split; [exact E2 |].
  refine (groups_collide (NewService (ex_engine ["disk"; "1-disk"])) (ex_one "disk") (ex_one "1-disk") ex_values (ex_ids "a") (ex_ids "b") 10 20
    (ex_alert "web-1" "low" 10) (ex_alert "web" "low" 20) ex_first.1 "a1" ex_second.1 "a1" "web" "1" "disk"
    (orderly_new _) ex_ranges eq_refl eq_refl _ _ (pair_of_snd _ _ E1) (pair_of_snd _ _ E2)); vm_compute; reflexivity.
Defined.

Lemma concurrent_alerts_open_two_witness :
  let s := NewService (ex_engine ["r"]) in let a := ex_alert "web1" "low" 10 in
  let find u := ingest_find ex_values ex_values (ex_ids u) 10 a s in
  let s' := (ingest_into (ex_ids "y") 10 (Alert.set_ID "y0" a) "web1-r" None (ingest_into (ex_ids "x") 10 (Alert.set_ID "x0" a) "web1-r" None s).1).1 in
  find "x" = Ok (Alert.set_ID "x0" a, "web1-r", None) /\
  exists inc1 inc2, table_of s' !! "x1" = Some inc1 /\ open inc1 /\ table_of s' !! "y1" = Some inc2 /\ open inc2.
Proof.
  intros s a find s'. split; [vm_compute; reflexivity |].
  pose proof (concurrent_alerts_open_two s ex_values ex_values (ex_ids "x") (ex_ids "y") 10 10 a a (Alert.set_ID "x0" a) (Alert.set_ID "y0" a) "web1-r") as H.
  cbv zeta in H. fold s' in H. specialize (H ltac:(discriminate) ltac:(vm_compute; reflexivity) ltac:(vm_compute; reflexivity)).
  destruct (H "x1" ltac:(left; reflexivity)) as (inc1 & H1 & O1 & _). destruct (H "y1" ltac:(right; reflexivity)) as (inc2 & H2 & O2 & _).
  exists inc1, inc2. split; [exact H1 |]. split; [exact O1 |]. split; [exact H2 | exact O2].
Defined.

Lemma metrics_count_all_witness :
  let m := GetResponseMetrics ex_values (run ex_ops (NewService (ex_engine ["r"]))) in
  ResponseMetrics.TotalIncidents m = 2%Z /\ (ResponseMetrics.ActiveIncidents m + ResponseMetrics.ResolvedIncidents m = ResponseMetrics.TotalIncidents m)%Z.
Proof.
  intros m. split; [vm_compute; reflexivity |].
  exact (proj2 (metrics_count_all ex_ops (ex_engine ["r"]) ex_values ex_faithful ex_ranges)).
Defined.

Lemma timeline_in_order_witness :
  exists l, GetTimeline (fun l => l) "a1" (run ex_ops (NewService (ex_engine ["r"]))) = Ok l /\
    TimelineEvent.Type_ <$> l = ["created"; "alert_ingested"; "alert_ingested"; "escalated"] /\
    StronglySorted (fun a b => TimelineEvent.Timestamp a <= TimelineEvent.Timestamp b)%Z l.
Proof.
  destruct (GetTimeline (fun l => l) "a1" (run ex_ops (NewService (ex_engine ["r"])))) as [l |] eqn:E; [| vm_compute in E; discriminate E].
  exists l. split; [reflexivity |]. split; [vm_compute in E; injection E as <-; reflexivity |].
  refine (proj2 (timeline_in_order (fun l => l) "a1" (run ex_ops (NewService (ex_engine ["r"]))) l _ E)). reflexivity.
Defined.

(** When two rules match, the order in which Go ranges over the rules decides
    about the group. *)
Lemma overlapping_rules_split :
  let e := ex_engine ["cpu"; "all"] in let a := ex_alert "web1" "low" 10 in
  AggregateResult.IncidentID (Engine.Aggregate ex_values 10 a e) = "web1-cpu" /\
  AggregateResult.IncidentID (Engine.Aggregate (fun m => rev (ex_values m)) 10 a e) = "web1-all".
Proof. split; vm_compute; reflexivity. Qed.
