(* ===== verification/SecretCrypto.v ===== *)
(** * Secrets at rest ([pkg/secretcrypto/secretcrypto.go])

    A secret is stored as [enc:v1:] and the base64 of the nonce followed by the
    AES-256-GCM ciphertext; a text without the prefix is taken for plaintext from
    before encryption.  The cipher is an interface, the class [AEAD], of which only
    the law that opening undoes sealing is used; randomness is an argument,
    missing when it cannot be read. *)

From Stdlib Require Import Ascii.
From S2P Require Import Prelude GoStrings Base64.
Open Scope go_scope.

(** [s[:n]] and [s[n:]]. *)
Fixpoint str_take (n : nat) (s : string) : string :=
  match n, s with S n', String c s' => String c (str_take n' s') | _, _ => "" end.
Fixpoint str_drop (n : nat) (s : string) : string :=
  match n, s with S n', String _ s' => str_drop n' s' | _, _ => s end.

Lemma str_take_app a b : str_take (String.length a) (a +:+ b) = a.
Proof.
  induction a as [| c a IH]; [by destruct b |].
  change (String c (str_take (String.length a) (a +:+ b)) = String c a). by rewrite IH.
Qed.
Lemma str_drop_app a b : str_drop (String.length a) (a +:+ b) = b.
Proof. induction a as [| c a IH]; [by destruct b | exact IH]. Qed.

Definition keyLen : nat := 32.
Definition NonceSize : nat := 12.

(** AES-256-GCM. *)
Class AEAD := {
  Seal : string -> string -> string -> string;
  Open : string -> string -> string -> option string;
  Open_Seal : forall key nonce plaintext, String.length key = keyLen -> String.length nonce = NonceSize ->
    Open key nonce (Seal key nonce plaintext) = Some plaintext;
}.

Definition Prefix : string := "enc:v1:".
Definition HasEncPrefix (stored : string) : bool := HasPrefix Prefix stored.

Inductive crypto_error := BadKeyLength | NoRandomness | BadBase64 | TooShort | OpenFailed.

Section crypto.
Context `{AEAD}.

Definition Encrypt (random : option string) (key plaintext : string) : result crypto_error string :=
  if plaintext == "" then Ok ""
  else if negb (String.length key =? keyLen)%nat then Err BadKeyLength
  else match random with
    | None => Err NoRandomness
    | Some nonce => Ok (Prefix +:+ EncodeToString (nonce +:+ Seal key nonce plaintext))
    end.

(** Opening [nonce || ciphertext] in base64. *)
Definition open_sealed (key raw : string) : result crypto_error string :=
  if negb (String.length key =? keyLen)%nat then Err BadKeyLength else
  match DecodeString raw with
  | None => Err BadBase64
  | Some data =>
      if (String.length data <? NonceSize)%nat then Err TooShort else
      match Open key (str_take NonceSize data) (str_drop NonceSize data) with
      | None => Err OpenFailed
      | Some plaintext => Ok plaintext
      end
  end.

(** The plaintext, and whether it was stored as such. *)
Definition Decrypt (key stored : string) : result crypto_error (string * bool) :=
  if stored == "" then Ok ("", false)
  else if negb (HasEncPrefix stored) then Ok (stored, true)
  else match open_sealed key (str_drop (String.length Prefix) stored) with
    | Ok plaintext => Ok (plaintext, false)
    | Err e => Err e
    end.

Definition DecryptLegacyUnprefixed (key stored : string) : option string :=
  if (stored == "") || HasEncPrefix stored then None else
  match open_sealed key stored with Ok plaintext => Some plaintext | Err _ => None end.

Lemma HasPrefix_app p s : HasPrefix p (p +:+ s) = true.
Proof.
  induction p as [| c p IH]; [by destruct s |]. change ((c == c) && HasPrefix p (p +:+ s) = true). by rewrite bool_decide_true, IH by done.
Qed.

Lemma Decrypt_Encrypt random key plaintext stored :
  (forall nonce, random = Some nonce -> String.length nonce = NonceSize) ->
  Encrypt random key plaintext = Ok stored -> Decrypt key stored = Ok (plaintext, false).
Proof.
  intros Hr. unfold Encrypt. case_bool_decide as E; [by intros [= <-]; subst |].
  destruct (String.length key =? keyLen)%nat eqn:Ek; [| done]. destruct random as [nonce |]; [| done]. intros [= <-].
  specialize (Hr nonce eq_refl). unfold Decrypt. rewrite bool_decide_false by done. unfold HasEncPrefix. rewrite HasPrefix_app. cbn [negb].
  rewrite str_drop_app. unfold open_sealed. rewrite Ek, DecodeString_EncodeToString. cbn [negb].
  rewrite length_app_string, Hr. rewrite (proj2 (Nat.ltb_ge _ _)) by lia. rewrite <- Hr, str_take_app, str_drop_app, Open_Seal; [done | | by rewrite Hr].
  by apply Nat.eqb_eq.
Qed.

(** What is stored shows its format. *)
Lemma Encrypt_format random key plaintext stored :
  Encrypt random key plaintext = Ok stored -> plaintext <> "" -> exists sealed, stored = Prefix +:+ sealed.
Proof.
  intros E Hp. unfold Encrypt in E. rewrite bool_decide_false in E by done. destruct (_ =? _)%nat; [| done].
  destruct random; [| done]. injection E as <-. by eexists.
Qed.
End crypto.
