(* ===== verification/ConfigStore.v ===== *)
(** * The configuration service ([services/config-svc/internal]: [models],
    [store], [service])

    Configuration entries per tenant and key, with versions, a bounded history
    and rollback; secrets, encrypted at rest; channels and templates.
    [MemoryStore] is [store.MemoryStore]; its operations run under one mutex and
    are atomic steps that read the clock once, as [now].  Entries are values: the
    store keeps copies and returns copies.  Channels and templates are handled
    alike and share the operations of [Table], over the class [Owned].  Random
    texts and the orders in which Go ranges over maps are arguments.  Requests of
    the service are their fields; answers are entries, with the version cut to an
    [int32] as the messages have it.  Not here: gRPC and HTTP, the MySQL and
    Redis stores; the rendering of templates is an argument. *)

From Stdlib Require Import Ascii.
From S2P Require Import Prelude GoStrings SecretCrypto Window.
Open Scope go_scope.

(** ** Data ([models.go]) *)

(** [models.ConfigEntry]; an assignment [x.F = v] is [set_F v x]. *)
Module ConfigEntry.
Record t := mk {
  ID : string; TenantID : string; Key : string; Value : string; Format : string; Version : Z;
  Description : string; UpdatedBy : string; CreatedAt : time; UpdatedAt : time;
}.

Definition set_ID (v : string) (r : t) : t :=
  mk v (TenantID r) (Key r) (Value r) (Format r) (Version r) (Description r) (UpdatedBy r)
     (CreatedAt r) (UpdatedAt r).
Definition set_Format (v : string) (r : t) : t :=
  mk (ID r) (TenantID r) (Key r) (Value r) v (Version r) (Description r) (UpdatedBy r)
     (CreatedAt r) (UpdatedAt r).
Definition set_Version (v : Z) (r : t) : t :=
  mk (ID r) (TenantID r) (Key r) (Value r) (Format r) v (Description r) (UpdatedBy r)
     (CreatedAt r) (UpdatedAt r).
Definition set_CreatedAt (v : time) (r : t) : t :=
  mk (ID r) (TenantID r) (Key r) (Value r) (Format r) (Version r) (Description r) (UpdatedBy r)
     v (UpdatedAt r).
Definition set_UpdatedAt (v : time) (r : t) : t :=
  mk (ID r) (TenantID r) (Key r) (Value r) (Format r) (Version r) (Description r) (UpdatedBy r)
     (CreatedAt r) v.
End ConfigEntry.

(** [models.SecretEntry]. *)
Module SecretEntry.
Record t := mk {
  ID : string; TenantID : string; Key : string; Value : string; KeyType : string; Version : Z;
  CreatedAt : time; UpdatedAt : time;
}.

Definition set_Value (v : string) (r : t) : t :=
  mk (ID r) (TenantID r) (Key r) v (KeyType r) (Version r) (CreatedAt r) (UpdatedAt r).
Definition set_KeyType (v : string) (r : t) : t :=
  mk (ID r) (TenantID r) (Key r) (Value r) v (Version r) (CreatedAt r) (UpdatedAt r).
Definition set_Version (v : Z) (r : t) : t :=
  mk (ID r) (TenantID r) (Key r) (Value r) (KeyType r) v (CreatedAt r) (UpdatedAt r).
Definition set_CreatedAt (v : time) (r : t) : t :=
  mk (ID r) (TenantID r) (Key r) (Value r) (KeyType r) (Version r) v (UpdatedAt r).
Definition set_UpdatedAt (v : time) (r : t) : t :=
  mk (ID r) (TenantID r) (Key r) (Value r) (KeyType r) (Version r) (CreatedAt r) v.
End SecretEntry.

(** [models.SecretMeta]. *)
Module SecretMeta.
Record t := mk {
  ID : string; TenantID : string; Key : string; KeyType : string; Version : Z; CreatedAt : time;
  UpdatedAt : time;
}.

Definition set_Version (v : Z) (r : t) : t :=
  mk (ID r) (TenantID r) (Key r) (KeyType r) v (CreatedAt r) (UpdatedAt r).
End SecretMeta.

(** [models.ChannelEntry]. *)
Module ChannelEntry.
Record t := mk {
  ID : string; TenantID : string; Name : string; Type_ : string; Config : string;
  Enabled : bool; CreatedAt : time; UpdatedAt : time;
}.

Definition set_CreatedAt (v : time) (r : t) : t :=
  mk (ID r) (TenantID r) (Name r) (Type_ r) (Config r) (Enabled r) v (UpdatedAt r).
Definition set_UpdatedAt (v : time) (r : t) : t :=
  mk (ID r) (TenantID r) (Name r) (Type_ r) (Config r) (Enabled r) (CreatedAt r) v.
End ChannelEntry.

(** [models.TemplateEntry]. *)
Module TemplateEntry.
Record t := mk {
  ID : string; TenantID : string; Name : string; Description : string; Content : string;
  Variables : gmap string string; CreatedAt : time; UpdatedAt : time;
}.

Definition set_CreatedAt (v : time) (r : t) : t :=
  mk (ID r) (TenantID r) (Name r) (Description r) (Content r) (Variables r) v (UpdatedAt r).
Definition set_UpdatedAt (v : time) (r : t) : t :=
  mk (ID r) (TenantID r) (Name r) (Description r) (Content r) (Variables r) (CreatedAt r) v.
End TemplateEntry.

(** [tenantID + "/" + key]. *)
Definition configKey (tenantID key : string) : string := tenantID +:+ "/" +:+ key.

Definition meta_of (e : SecretEntry.t) : SecretMeta.t :=
  SecretMeta.mk (SecretEntry.ID e) (SecretEntry.TenantID e) (SecretEntry.Key e) (SecretEntry.KeyType e) (SecretEntry.Version e)
    (SecretEntry.CreatedAt e) (SecretEntry.UpdatedAt e).

(** ** Channels and templates *)

Class Owned (E : Type) := {
  owned_id : E -> string;
  owned_tenant : E -> string;
  owned_name : E -> string;
  created : time -> E -> E;
  updated : time -> E -> E;
}.

#[export] Instance channel_owned : Owned ChannelEntry.t := {|
  owned_id := ChannelEntry.ID; owned_tenant := ChannelEntry.TenantID; owned_name := ChannelEntry.Name;
  created now e := ChannelEntry.set_UpdatedAt now (ChannelEntry.set_CreatedAt now e); updated := ChannelEntry.set_UpdatedAt |}.
#[export] Instance template_owned : Owned TemplateEntry.t := {|
  owned_id := TemplateEntry.ID; owned_tenant := TemplateEntry.TenantID; owned_name := TemplateEntry.Name;
  created now e := TemplateEntry.set_UpdatedAt now (TemplateEntry.set_CreatedAt now e); updated := TemplateEntry.set_UpdatedAt |}.

Module Table.
Section table.
Context `{Owned E}.
Definition Create (now : time) (item : E) (m : gmap string E) : gmap string E * E :=
  let item := created now item in (<[owned_id item := item]> m, item).
Definition Get (id : string) (m : gmap string E) : option E := m !! id.
Definition Update (now : time) (item : E) (m : gmap string E) : gmap string E * bool :=
  match m !! owned_id item with
  | None => (m, false)
  | Some _ => let item := updated now item in (<[owned_id item := item]> m, true)
  end.
Definition Delete (id tenantID : string) (m : gmap string E) : gmap string E * bool :=
  match m !! id with
  | None => (m, false)
  | Some entry => if (tenantID != "") && (owned_tenant entry != tenantID) then (m, false) else (delete id m, true)
  end.
Definition List (range : gmap string E -> list E) (tenantID : string) (m : gmap string E) : list E :=
  stable_sort (fun a b => str_lt (owned_name a) (owned_name b))
    (List.filter (fun v => (tenantID == "") || (owned_tenant v == tenantID)) (range m)).
End table.
End Table.

(** ** The store ([store.go]) *)

Module MemoryStore.
Record t := mk {
  configs : gmap string ConfigEntry.t; configHistory : gmap string (list ConfigEntry.t); secrets : gmap string SecretEntry.t;
  channels : gmap string ChannelEntry.t; templates : gmap string TemplateEntry.t; encryptionKey : string; maxHistory : nat }.

(** [deriveKey] is SHA-256. *)
Definition NewMemoryStore (sha256 : string -> string) (passphrase : string) (maxHistory : Z) : t :=
  mk ∅ ∅ ∅ ∅ ∅ (sha256 passphrase) (if (maxHistory <=? 0)%Z then 50 else Z.to_nat maxHistory).

Definition set_configs c h s := mk c h (secrets s) (channels s) (templates s) (encryptionKey s) (maxHistory s).
Definition set_secrets v s := mk (configs s) (configHistory s) v (channels s) (templates s) (encryptionKey s) (maxHistory s).
Definition set_channels v s := mk (configs s) (configHistory s) (secrets s) v (templates s) (encryptionKey s) (maxHistory s).
Definition set_templates v s := mk (configs s) (configHistory s) (secrets s) (channels s) v (encryptionKey s) (maxHistory s).

Definition history_of (ck : string) (s : t) : list ConfigEntry.t := default [] (configHistory s !! ck).

Definition GetConfig (tenantID key : string) (s : t) : option ConfigEntry.t := configs s !! configKey tenantID key.

(** [history = append(history, existing)], cut to [maxHistory]. *)
Definition archive (ck : string) (existing : ConfigEntry.t) (s : t) : gmap string (list ConfigEntry.t) :=
  <[ck := append_capped (maxHistory s) (history_of ck s) existing]> (configHistory s).

Definition SetConfig (now : time) (item : ConfigEntry.t) (s : t) : t * ConfigEntry.t :=
  let ck := configKey (ConfigEntry.TenantID item) (ConfigEntry.Key item) in
  match configs s !! ck with
  | Some existing =>
      let item := ConfigEntry.set_Version (wrap_i64 (ConfigEntry.Version existing + 1)) item in
      let item := ConfigEntry.set_UpdatedAt now (ConfigEntry.set_CreatedAt (ConfigEntry.CreatedAt existing) item) in
      (set_configs (<[ck := item]> (configs s)) (archive ck existing s) s, item)
  | None =>
      let item := ConfigEntry.set_UpdatedAt now (ConfigEntry.set_CreatedAt now (ConfigEntry.set_Version 1 item)) in
      (set_configs (<[ck := item]> (configs s)) (configHistory s) s, item)
  end.

Definition DeleteConfig (tenantID key : string) (s : t) : t * bool :=
  let ck := configKey tenantID key in
  match configs s !! ck with
  | None => (s, false)
  | Some _ => (set_configs (delete ck (configs s)) (delete ck (configHistory s)) s, true)
  end.

Definition ListConfigs (range : gmap string ConfigEntry.t -> list ConfigEntry.t) (tenantID : string) (s : t) : list ConfigEntry.t :=
  stable_sort (fun a b => str_lt (ConfigEntry.Key a) (ConfigEntry.Key b))
    (List.filter (fun v => (tenantID == "") || (ConfigEntry.TenantID v == tenantID)) (range (configs s))).

Definition GetConfigHistory (tenantID key : string) (s : t) : list ConfigEntry.t :=
  stable_sort (fun a b => ConfigEntry.Version a <? ConfigEntry.Version b)%Z (history_of (configKey tenantID key) s).

(** The new entry made of an old one. *)
Definition restored (now : time) (version : Z) (target : ConfigEntry.t) : ConfigEntry.t :=
  ConfigEntry.mk (ConfigEntry.ID target) (ConfigEntry.TenantID target) (ConfigEntry.Key target) (ConfigEntry.Value target)
    (ConfigEntry.Format target) version (ConfigEntry.Description target) "" (ConfigEntry.CreatedAt target) now.

Definition RollbackConfig (now : time) (tenantID key : string) (version : Z) (s : t) : t * option ConfigEntry.t :=
  let ck := configKey tenantID key in
  match find_first (fun h => ConfigEntry.Version h == version) (history_of ck s) with
  | None => (s, None)
  | Some target =>
      match configs s !! ck with
      | Some existing =>
          let e := restored now (wrap_i64 (ConfigEntry.Version existing + 1)) target in
          (set_configs (<[ck := e]> (configs s)) (archive ck existing s) s, Some e)
      | None => let e := restored now 1 target in (set_configs (<[ck := e]> (configs s)) (configHistory s) s, Some e)
      end
  end.

Section secrets.
Context `{AEAD}.

Definition CreateSecret (random : option string) (now : time) (item : SecretEntry.t) (s : t) : t * option SecretEntry.t :=
  let ck := configKey (SecretEntry.TenantID item) (SecretEntry.Key item) in
  let item := SecretEntry.set_UpdatedAt now (SecretEntry.set_CreatedAt now (SecretEntry.set_Version 1 item)) in
  match Encrypt random (encryptionKey s) (SecretEntry.Value item) with
  | Err _ => (s, None)
  | Ok encrypted => (set_secrets (<[ck := SecretEntry.set_Value encrypted item]> (secrets s)) s, Some item)
  end.

Definition GetSecret (tenantID key : string) (s : t) : option SecretEntry.t :=
  match secrets s !! configKey tenantID key with
  | None => None
  | Some entry =>
      match Decrypt (encryptionKey s) (SecretEntry.Value entry) with
      | Err _ => None
      | Ok (decrypted, _) => Some (SecretEntry.set_Value decrypted entry)
      end
  end.

Definition UpdateSecret (random : option string) (now : time) (item : SecretEntry.t) (s : t) : t * option SecretEntry.t :=
  let ck := configKey (SecretEntry.TenantID item) (SecretEntry.Key item) in
  match secrets s !! ck with
  | None => (s, None)
  | Some existing =>
      match Encrypt random (encryptionKey s) (SecretEntry.Value item) with
      | Err _ => (s, None)
      | Ok encrypted =>
          let item := SecretEntry.set_Version (wrap_i64 (SecretEntry.Version existing + 1)) item in
          let item := SecretEntry.set_UpdatedAt now (SecretEntry.set_CreatedAt (SecretEntry.CreatedAt existing) item) in
          (set_secrets (<[ck := SecretEntry.set_Value encrypted item]> (secrets s)) s, Some item)
      end
  end.

Definition DeleteSecret (tenantID key : string) (s : t) : t * bool :=
  let ck := configKey tenantID key in
  match secrets s !! ck with None => (s, false) | Some _ => (set_secrets (delete ck (secrets s)) s, true) end.

Definition ListSecrets (range : gmap string SecretEntry.t -> list SecretEntry.t) (tenantID : string) (s : t) : list SecretMeta.t :=
  stable_sort (fun a b => str_lt (SecretMeta.Key a) (SecretMeta.Key b))
    (map meta_of (List.filter (fun v => (tenantID == "") || (SecretEntry.TenantID v == tenantID)) (range (secrets s)))).

Definition RotateSecret (random : option string) (now : time) (tenantID key newValue : string) (s : t) : t * option SecretMeta.t :=
  let ck := configKey tenantID key in
  match secrets s !! ck with
  | None => (s, None)
  | Some existing =>
      match Encrypt random (encryptionKey s) newValue with
      | Err _ => (s, None)
      | Ok encrypted =>
          let existing := SecretEntry.set_UpdatedAt now (SecretEntry.set_Version (wrap_i64 (SecretEntry.Version existing + 1))
            (SecretEntry.set_Value encrypted existing)) in
          (set_secrets (<[ck := existing]> (secrets s)) s, Some (meta_of existing))
      end
  end.
End secrets.

Definition CreateChannel now item s := let '(m, item) := Table.Create now item (channels s) in (set_channels m s, item).
Definition GetChannel id s : option ChannelEntry.t := Table.Get id (channels s).
Definition UpdateChannel now (item : ChannelEntry.t) s := let '(m, ok) := Table.Update now item (channels s) in (set_channels m s, ok).
Definition DeleteChannel id tenantID s := let '(m, ok) := Table.Delete id tenantID (channels s) in (set_channels m s, ok).
Definition ListChannels range tenantID s : list ChannelEntry.t := Table.List range tenantID (channels s).

Definition CreateTemplate now item s := let '(m, item) := Table.Create now item (templates s) in (set_templates m s, item).
Definition GetTemplate id s : option TemplateEntry.t := Table.Get id (templates s).
Definition UpdateTemplate now (item : TemplateEntry.t) s := let '(m, ok) := Table.Update now item (templates s) in (set_templates m s, ok).
Definition DeleteTemplate id tenantID s := let '(m, ok) := Table.Delete id tenantID (templates s) in (set_templates m s, ok).
Definition ListTemplates range tenantID s : list TemplateEntry.t := Table.List range tenantID (templates s).
End MemoryStore.

(** ** The service ([service.go]) *)

Inductive config_error :=
  | ErrConfigNotFound | ErrConfigInvalid
  | ErrSecretNotFound | ErrSecretInvalid
  | ErrVersionNotFound
  | ErrChannelNotFound | ErrChannelInvalid
  | ErrTemplateNotFound | ErrTemplateInvalid
  | NilDereference.

Module ConfigService.
Import MemoryStore.

(** [modelToProtoConfig] *)
Definition modelToProtoConfig (e : ConfigEntry.t) : ConfigEntry.t :=
  ConfigEntry.set_Version (wrap_i32 (ConfigEntry.Version e))
    (ConfigEntry.set_Format (if ConfigEntry.Format e == "" then "text" else ConfigEntry.Format e) e).

Definition GetConfig (tenantID key : string) (s : t) : result config_error ConfigEntry.t :=
  if (tenantID == "") || (key == "") then Err ErrConfigInvalid else
  match MemoryStore.GetConfig tenantID key s with Some e => Ok (modelToProtoConfig e) | None => Err ErrConfigNotFound end.

(** The fields [id], version and instants of [req] are not sent. *)
Definition SetConfig (uuid : string) (now : time) (req : ConfigEntry.t) (s : t) : t * result config_error ConfigEntry.t :=
  if (ConfigEntry.TenantID req == "") || (ConfigEntry.Key req == "") || (ConfigEntry.Value req == "") then (s, Err ErrConfigInvalid) else
  let entry := ConfigEntry.set_UpdatedAt now (ConfigEntry.set_CreatedAt now (ConfigEntry.set_ID uuid req)) in
  let entry := match MemoryStore.GetConfig (ConfigEntry.TenantID req) (ConfigEntry.Key req) s with
    | Some existing => ConfigEntry.set_CreatedAt (ConfigEntry.CreatedAt existing) (ConfigEntry.set_ID (ConfigEntry.ID existing) entry)
    | None => entry
    end in
  let '(s, e) := MemoryStore.SetConfig now entry s in (s, Ok (modelToProtoConfig e)).

Definition DeleteConfig (tenantID key : string) (s : t) : t * option config_error :=
  if (tenantID == "") || (key == "") then (s, Some ErrConfigInvalid) else
  let '(s, ok) := MemoryStore.DeleteConfig tenantID key s in (s, if ok then None else Some ErrConfigNotFound).

Definition ListConfigs range (tenantID : string) (s : t) : list ConfigEntry.t :=
  map modelToProtoConfig (MemoryStore.ListConfigs range tenantID s).

Definition GetConfigHistory (tenantID key : string) (s : t) : result config_error (list ConfigEntry.t) :=
  if (tenantID == "") || (key == "") then Err ErrConfigInvalid
  else Ok (map modelToProtoConfig (MemoryStore.GetConfigHistory tenantID key s)).

Definition RollbackConfig (now : time) (tenantID key : string) (version : Z) (s : t) : t * result config_error ConfigEntry.t :=
  if (tenantID == "") || (key == "") || (version <=? 0)%Z then (s, Err ErrConfigInvalid) else
  match MemoryStore.RollbackConfig now tenantID key version s with
  | (s, None) => (s, Err ErrVersionNotFound)
  | (s, Some e) => (s, Ok (modelToProtoConfig e))
  end.

Section secrets.
Context `{AEAD}.

Definition meta_item (m : SecretMeta.t) : SecretMeta.t := SecretMeta.set_Version (wrap_i32 (SecretMeta.Version m)) m.

Definition CreateSecret (uuid : string) (random : option string) (now : time) (tenantID key value keyType : string) (s : t)
    : t * result config_error SecretMeta.t :=
  if (tenantID == "") || (key == "") || (value == "") then (s, Err ErrSecretInvalid) else
  let entry := SecretEntry.mk uuid tenantID key value (if keyType == "" then "passphrase" else keyType) 0 0 0 in
  match MemoryStore.CreateSecret random now entry s with
  | (s, Some e) => (s, Ok (meta_item (meta_of e)))
  | (s, None) => (s, Err NilDereference)
  end.

Definition GetSecret (tenantID key : string) (s : t) : result config_error SecretEntry.t :=
  if (tenantID == "") || (key == "") then Err ErrSecretInvalid else
  match MemoryStore.GetSecret tenantID key s with
  | Some e => Ok (SecretEntry.set_Version (wrap_i32 (SecretEntry.Version e)) e)
  | None => Err ErrSecretNotFound
  end.

Definition UpdateSecret (random : option string) (now : time) (tenantID key value keyType : string) (s : t)
    : t * result config_error SecretMeta.t :=
  if (tenantID == "") || (key == "") || (value == "") then (s, Err ErrSecretInvalid) else
  match MemoryStore.GetSecret tenantID key s with
  | None => (s, Err ErrSecretNotFound)
  | Some existing =>
      let entry := SecretEntry.mk (SecretEntry.ID existing) tenantID key value
        (if keyType == "" then SecretEntry.KeyType existing else keyType) 0 0 0 in
      match MemoryStore.UpdateSecret random now entry s with
      | (s, Some e) => (s, Ok (meta_item (meta_of e)))
      | (s, None) => (s, Err NilDereference)
      end
  end.

Definition DeleteSecret (tenantID key : string) (s : t) : t * option config_error :=
  if (tenantID == "") || (key == "") then (s, Some ErrSecretInvalid) else
  let '(s, ok) := MemoryStore.DeleteSecret tenantID key s in (s, if ok then None else Some ErrSecretNotFound).

Definition ListSecrets range (tenantID : string) (s : t) : list SecretMeta.t := map meta_item (MemoryStore.ListSecrets range tenantID s).

Definition RotateSecret (random : option string) (now : time) (tenantID key newValue : string) (s : t)
    : t * result config_error SecretMeta.t :=
  if (tenantID == "") || (key == "") || (newValue == "") then (s, Err ErrSecretInvalid) else
  match MemoryStore.RotateSecret random now tenantID key newValue s with
  | (s, Some m) => (s, Ok (meta_item m))
  | (s, None) => (s, Err ErrSecretNotFound)
  end.
End secrets.

(** Channels and templates are sent as they are stored. *)
Definition CreateChannel (uuid : string) (now : time) (tenantID name type config : string) (enabled : bool) (s : t)
    : t * result config_error ChannelEntry.t :=
  if (tenantID == "") || (name == "") || (type == "") then (s, Err ErrChannelInvalid) else
  let '(s, e) := MemoryStore.CreateChannel now (ChannelEntry.mk uuid tenantID name type config enabled 0 0) s in (s, Ok e).

Definition GetChannel (id : string) (s : t) : result config_error ChannelEntry.t :=
  if id == "" then Err ErrChannelInvalid else
  match MemoryStore.GetChannel id s with None => Err ErrChannelNotFound | Some e => Ok e end.

(** The answer is the object the store has just stamped. *)
Definition UpdateChannel (now : time) (id name type config : string) (enabled : bool) (s : t) : t * result config_error ChannelEntry.t :=
  if id == "" then (s, Err ErrChannelInvalid) else
  match MemoryStore.GetChannel id s with
  | None => (s, Err ErrChannelNotFound)
  | Some existing =>
      let entry := ChannelEntry.mk (ChannelEntry.ID existing) (ChannelEntry.TenantID existing) name type config enabled (ChannelEntry.CreatedAt existing) 0 in
      let '(s, ok) := MemoryStore.UpdateChannel now entry s in
      (s, if ok then Ok (ChannelEntry.set_UpdatedAt now entry) else Err ErrChannelNotFound)
  end.

Definition DeleteChannel (id tenantID : string) (s : t) : t * option config_error :=
  if id == "" then (s, Some ErrChannelInvalid) else
  let '(s, ok) := MemoryStore.DeleteChannel id tenantID s in (s, if ok then None else Some ErrChannelNotFound).

Definition ListChannels range (tenantID : string) (s : t) : list ChannelEntry.t := MemoryStore.ListChannels range tenantID s.

Definition TestChannel (id : string) (s : t) : result config_error (bool * string) :=
  if id == "" then Err ErrChannelInvalid else
  match MemoryStore.GetChannel id s with
  | None => Ok (false, "channel not found")
  | Some entry =>
      if negb (ChannelEntry.Enabled entry) then Ok (false, "channel is disabled") else Ok (true, "test notification sent successfully")
  end.

Definition CreateTemplate (uuid : string) (now : time) (tenantID name description content : string) (variables : gmap string string) (s : t)
    : t * result config_error TemplateEntry.t :=
  if (tenantID == "") || (name == "") || (content == "") then (s, Err ErrTemplateInvalid) else
  let '(s, e) := MemoryStore.CreateTemplate now (TemplateEntry.mk uuid tenantID name description content variables 0 0) s in (s, Ok e).

Definition GetTemplate (id : string) (s : t) : result config_error TemplateEntry.t :=
  if id == "" then Err ErrTemplateInvalid else
  match MemoryStore.GetTemplate id s with None => Err ErrTemplateNotFound | Some e => Ok e end.

Definition UpdateTemplate (now : time) (id name description content : string) (variables : gmap string string) (s : t)
    : t * result config_error TemplateEntry.t :=
  if id == "" then (s, Err ErrTemplateInvalid) else
  match MemoryStore.GetTemplate id s with
  | None => (s, Err ErrTemplateNotFound)
  | Some existing =>
      let entry := TemplateEntry.mk (TemplateEntry.ID existing) (TemplateEntry.TenantID existing) name description content variables
        (TemplateEntry.CreatedAt existing) 0 in
      let '(s, ok) := MemoryStore.UpdateTemplate now entry s in
      (s, if ok then Ok (TemplateEntry.set_UpdatedAt now entry) else Err ErrTemplateNotFound)
  end.

Definition DeleteTemplate (id tenantID : string) (s : t) : t * option config_error :=
  if id == "" then (s, Some ErrTemplateInvalid) else
  let '(s, ok) := MemoryStore.DeleteTemplate id tenantID s in (s, if ok then None else Some ErrTemplateNotFound).

Definition ListTemplates range (tenantID : string) (s : t) : list TemplateEntry.t := MemoryStore.ListTemplates range tenantID s.

(** [parse] and the execution it gives are Go's [text/template]; variables of the
    request replace those of the template. *)
Definition ApplyTemplate (parse : string -> option (gmap string string -> option string)) (id : string) (variables : gmap string string) (s : t)
    : result config_error string :=
  if id == "" then Err ErrTemplateInvalid else
  match MemoryStore.GetTemplate id s with
  | None => Err ErrTemplateNotFound
  | Some entry =>
      match parse (TemplateEntry.Content entry) with
      | None => Err ErrTemplateInvalid
      | Some execute =>
          match execute (variables ∪ TemplateEntry.Variables entry) with None => Err ErrTemplateInvalid | Some out => Ok out end
      end
  end.
End ConfigService.
