(* ===== verification/ConfigProps.v ===== *)
(** * Correctness of the configuration service

    The entries with their versions and histories implement a log per key;
    secrets implement a map and are stored encrypted; tenants without a slash in
    their names are isolated, others are not. *)

From Stdlib Require Import Ascii.
From S2P Require Import Prelude GoStrings SecretCrypto Window ConfigStore.
Import MemoryStore ConfigService.
Open Scope go_scope.

(** ** Configuration entries implement a log *)

(** What a version holds. *)
Definition payload (e : ConfigEntry.t) : string * string * string := (ConfigEntry.Value e, ConfigEntry.Format e, ConfigEntry.Description e).

Inductive config_op :=
  | OSet (uuid : string) (now : time) (req : ConfigEntry.t)
  | ORollback (now : time) (tenantID key : string) (version : Z)
  | ODelete (tenantID key : string).

Definition exec (o : config_op) (s : t) : t :=
  match o with
  | OSet uuid now req => (SetConfig uuid now req s).1
  | ORollback now t k v => (RollbackConfig now t k v s).1
  | ODelete t k => (DeleteConfig t k s).1
  end.
Definition run (ops : list config_op) (s : t) : t := foldl (fun s o => exec o s) s ops.

(** The specification: all versions of a key, oldest first; of the earlier ones
    only the last [cap] can be restored. *)
Abbreviation log := (gmap string (list (string * string * string))).

Definition spec_exec (cap : nat) (o : config_op) (L : log) : log :=
  match o with
  | OSet _ _ req =>
      if (ConfigEntry.TenantID req == "") || (ConfigEntry.Key req == "") || (ConfigEntry.Value req == "") then L else
      let ck := configKey (ConfigEntry.TenantID req) (ConfigEntry.Key req) in
      <[ck := default [] (L !! ck) ++ [payload req]]> L
  | ORollback _ t k v =>
      if (t == "") || (k == "") || (v <=? 0)%Z then L else
      let l := default [] (L !! configKey t k) in
      let i := Z.to_nat (v - 1) in
      if bool_decide (S i < length l /\ length l <= S i + cap) then
        match l !! i with Some p => <[configKey t k := l ++ [p]]> L | None => L end
      else L
  | ODelete t k => if (t == "") || (k == "") then L else delete (configKey t k) L
  end.
Definition spec_run (cap : nat) (ops : list config_op) (L : log) : log := foldl (fun L o => spec_exec cap o L) L ops.

(** Versions count from one. *)
Definition numbered (es : list ConfigEntry.t) : Prop :=
  forall i e, es !! i = Some e -> ConfigEntry.Version e = wrap_i64 (Z.of_nat (S i)).

(** The stored entries [cur] and [h] of a key stand for the log [l]. *)
Definition stands_for (cap : nat) (cur : option ConfigEntry.t) (h : list ConfigEntry.t) (l : option (list (string * string * string))) : Prop :=
  match l with
  | None => cur = None /\ h = []
  | Some l => exists es e, payload <$> (es ++ [e]) = l /\ cur = Some e /\ h = lastn cap es /\ numbered (es ++ [e])
  end.
Definition implements (s : t) (L : log) : Prop :=
  forall ck, stands_for (maxHistory s) (configs s !! ck) (history_of ck s) (L !! ck).

Lemma numbered_snoc es e e' :
  numbered (es ++ [e]) -> ConfigEntry.Version e' = wrap_i64 (ConfigEntry.Version e + 1) -> numbered ((es ++ [e]) ++ [e']).
Proof.
  intros Hn Hv i x Hi. destruct (decide (i < length (es ++ [e]))) as [Hlt | Hge].
  - rewrite lookup_app_l in Hi by done. by apply Hn.
  - assert (i = length (es ++ [e])) as -> by (apply lookup_lt_Some in Hi; rewrite length_app in Hi; simpl in Hi; lia).
    rewrite lookup_app_r, Nat.sub_diag in Hi by done. injection Hi as <-. rewrite length_app. simpl.
    rewrite Hv, (Hn (length es) e) by (rewrite lookup_app_r, Nat.sub_diag; done). rewrite wrap_i64_succ. f_equal. lia.
Qed.

(** Appending a version. *)
Lemma stands_for_next cap cur h l e' :
  stands_for cap cur h l ->
  ConfigEntry.Version e' = match cur with Some e => wrap_i64 (ConfigEntry.Version e + 1) | None => 1%Z end ->
  stands_for cap (Some e') (match cur with Some e => append_capped cap h e | None => h end) (Some (default [] l ++ [payload e'])).
Proof.
  destruct l as [l |]; cbn.
  - intros (es & e & <- & -> & -> & Hn) Hv. exists (es ++ [e]), e'. rewrite !fmap_app. split; [done |]. split; [done |].
    split; [by rewrite append_capped_lastn, lastn_lastn_app | by apply numbered_snoc].
  - intros [-> ->] Hv. exists [], e'. split; [done |]. split; [done |]. split; [done |].
    intros [| i] x Hi; [injection Hi as <- | by destruct i]. rewrite Hv. by rewrite wrap_i64_id.
Qed.

(** Writing one key leaves the others. *)
Lemma implements_write s L s' L' ck :
  implements s L -> maxHistory s' = maxHistory s ->
  (forall ck', ck <> ck' -> configs s' !! ck' = configs s !! ck' /\ history_of ck' s' = history_of ck' s /\ L' !! ck' = L !! ck') ->
  stands_for (maxHistory s) (configs s' !! ck) (history_of ck s') (L' !! ck) -> implements s' L'.
Proof.
  intros Hs Hm Hne Hck ck'. rewrite Hm. destruct (decide (ck = ck')) as [<- | Hn]; [done |].
  destruct (Hne ck' Hn) as (-> & -> & ->). apply Hs.
Qed.

Lemma find_version cap es v :
  numbered es -> (Z.of_nat (length es) < 2 ^ 63)%Z -> (0 < v)%Z ->
  let i := Z.to_nat (v - 1) in
  find_first (fun h => ConfigEntry.Version h == v) (lastn cap es) =
    if bool_decide (i < length es /\ length es <= i + cap) then es !! i else None.
Proof.
  intros Hn Hlen Hv i.
  assert (Hnum : forall j e, es !! j = Some e -> ConfigEntry.Version e = Z.of_nat (S j)).
  { intros j e Hj. rewrite (Hn j e Hj). apply wrap_i64_id. apply lookup_lt_Some in Hj. unfold in_i64. lia. }
  destruct (find_first _ _) as [x |] eqn:F.
  - apply find_first_Some in F as [(j & Hj)%list_elem_of_lookup Hx%bool_decide_eq_true]. unfold lastn in Hj. rewrite lookup_drop in Hj.
    pose proof (Hnum _ _ Hj) as E. rewrite Hx in E. assert (Hi : i = length es - cap + j) by (unfold i; lia).
    rewrite <- Hi in Hj. pose proof (lookup_lt_Some _ _ _ Hj). rewrite bool_decide_true by lia. done.
  - case_bool_decide as E; [| done]. destruct E as [E1 E2]. destruct (lookup_lt_is_Some_2 es i E1) as [x Hx]. exfalso.
    rewrite find_first_None in F. specialize (F x (elem_of_lastn_lookup cap es i x Hx E2)).
    rewrite (Hnum i x Hx) in F. rewrite bool_decide_true in F; [done | unfold i; lia].
Qed.

(** Logs that the numbers of versions can count. *)
Definition countable_log (n : Z) (L : log) : Prop := map_Forall (fun _ l => (Z.of_nat (length l) <= n)%Z) L.

Lemma history_insert_ne s c ck ck' h : ck <> ck' -> history_of ck' (set_configs c (<[ck := h]> (configHistory s)) s) = history_of ck' s.
Proof. intros Hne. unfold history_of. cbn. by rewrite lookup_insert_ne. Qed.

Lemma history_insert_eq s c ck h : history_of ck (set_configs c (<[ck := h]> (configHistory s)) s) = h.
Proof. unfold history_of. cbn. by rewrite lookup_insert_eq. Qed.

Lemma set_implements uuid now req s L : implements s L -> implements (SetConfig uuid now req s).1 (spec_exec (maxHistory s) (OSet uuid now req) L).
Proof.
  intros Hs. unfold SetConfig, spec_exec. destruct (_ || _); [done |]. set (ck := configKey _ _).
  match goal with |- context [MemoryStore.SetConfig now ?e s] => set (entry := e) end.
  assert (Ek : configKey (ConfigEntry.TenantID entry) (ConfigEntry.Key entry) = ck /\ payload entry = payload req).
  { unfold entry, payload. by case_match. }
  destruct Ek as [Ek Ep]. rewrite <- Ep. unfold MemoryStore.SetConfig. rewrite Ek. clearbody entry. pose proof (Hs ck) as Hck.
  destruct (configs s !! ck) as [e |] eqn:E; cbn [fst].
  - apply (implements_write s L _ _ ck Hs); [done | |].
    + intros ck' Hne. unfold archive. rewrite history_insert_ne by done. cbn. by rewrite !lookup_insert_ne.
    + unfold archive. rewrite history_insert_eq. cbn. rewrite !lookup_insert_eq.
      by apply (stands_for_next _ (Some e) _ _ (ConfigEntry.set_UpdatedAt now (ConfigEntry.set_CreatedAt (ConfigEntry.CreatedAt e)
        (ConfigEntry.set_Version (wrap_i64 (ConfigEntry.Version e + 1)) entry)))).
  - apply (implements_write s L _ _ ck Hs); [done | |].
    + intros ck' Hne. cbn. rewrite !lookup_insert_ne by done. done.
    + cbn. rewrite !lookup_insert_eq.
      by apply (stands_for_next _ None _ _ (ConfigEntry.set_UpdatedAt now (ConfigEntry.set_CreatedAt now (ConfigEntry.set_Version 1 entry)))).
Qed.

Lemma delete_implements t k s L : implements s L -> implements (DeleteConfig t k s).1 (spec_exec (maxHistory s) (ODelete t k) L).
Proof.
  intros Hs. unfold DeleteConfig, spec_exec. destruct (_ || _); [done |]. unfold MemoryStore.DeleteConfig. set (ck := configKey t k).
  destruct (configs s !! ck) as [e |] eqn:E; cbn [fst].
  - apply (implements_write s L _ _ ck Hs); [done | |].
    + intros ck' Hne. unfold history_of. cbn. by rewrite !lookup_delete_ne.
    + unfold history_of. cbn. by rewrite !lookup_delete_eq.
  - rewrite delete_id; [done |]. pose proof (Hs ck) as Hck. rewrite E in Hck. destruct (L !! ck) as [l |]; [| done].
    by destruct Hck as (es & e & _ & ? & _).
Qed.

Lemma rollback_implements now t k v s L :
  implements s L -> countable_log (2 ^ 63 - 1) L ->
  implements (RollbackConfig now t k v s).1 (spec_exec (maxHistory s) (ORollback now t k v) L).
Proof.
  intros Hs Hc. unfold RollbackConfig, spec_exec. destruct ((t == "") || (k == "")); [done |]. cbn [orb].
  destruct (Z.leb_spec v 0) as [Hv | Hv]; [done |]. cbv zeta. unfold MemoryStore.RollbackConfig. set (ck := configKey t k).
  pose proof (Hs ck) as Hck. destruct (L !! ck) as [l |] eqn:El; cbn [default].
  - destruct Hck as (es & e & El' & Ecur & Eh & Hn). assert (Hlen : (Z.of_nat (length l) <= 2 ^ 63 - 1)%Z) by exact (Hc ck l El). change (id l) with l.
    assert (Hl : length l = S (length es)) by (rewrite <- El', length_fmap, length_app; simpl; lia).
    assert (Hes : numbered es) by (intros i x Hi; apply Hn; by apply lookup_app_l_Some).
    rewrite Eh, (find_version (maxHistory s) es v Hes) by lia. rewrite Hl.
    destruct (bool_decide (Z.to_nat (v - 1) < length es /\ _)) eqn:B.
    + apply bool_decide_eq_true in B as [B1 B2]. rewrite bool_decide_true by lia.
      destruct (lookup_lt_is_Some_2 es _ B1) as [target Ht]. rewrite Ht, Ecur. cbn [fst].
      assert (Hp : l !! Z.to_nat (v - 1) = Some (payload target)).
      { rewrite <- El', list_lookup_fmap, lookup_app_l, Ht by done. done. }
      rewrite Hp. apply (implements_write s L _ _ ck Hs); [done | |].
      * intros ck' Hne. unfold archive. rewrite history_insert_ne by done. cbn. by rewrite !lookup_insert_ne.
      * unfold archive. rewrite history_insert_eq. cbn. rewrite !lookup_insert_eq.
        apply (stands_for_next _ (Some e) _ (Some l) (restored now (wrap_i64 (ConfigEntry.Version e + 1)) target)); [| done].
        rewrite Eh. by exists es, e.
    + apply bool_decide_eq_false in B. rewrite bool_decide_false by lia. done.
  - destruct Hck as [_ ->]. rewrite bool_decide_false by (simpl; lia). done.
Qed.

Lemma exec_maxHistory o s : maxHistory (exec o s) = maxHistory s.
Proof.
  destruct o; cbn [exec]; unfold SetConfig, RollbackConfig, DeleteConfig, MemoryStore.SetConfig, MemoryStore.RollbackConfig, MemoryStore.DeleteConfig;
    repeat case_match; by simplify_eq.
Qed.

Lemma countable_append n L ck p :
  countable_log n L -> (0 <= n)%Z -> countable_log (n + 1) (<[ck := default [] (L !! ck) ++ [p]]> L).
Proof.
  intros Hc Hn ck' l. destruct (decide (ck = ck')) as [<- | Hne].
  - rewrite lookup_insert_eq. intros [= <-]. rewrite length_app. simpl. destruct (L !! ck) as [l |] eqn:E; [| simpl; lia].
    assert ((Z.of_nat (length l) <= n)%Z) by exact (Hc ck l E). simpl. lia.
  - rewrite lookup_insert_ne by done. intros E. assert ((Z.of_nat (length l) <= n)%Z) by exact (Hc ck' l E). lia.
Qed.

Lemma exec_countable cap o n L : countable_log n L -> (0 <= n)%Z -> countable_log (n + 1) (spec_exec cap o L).
Proof.
  intros Hc Hn. assert (Hw : countable_log (n + 1) L) by (eapply map_Forall_impl; [exact Hc |]; simpl; intros; lia).
  destruct o as [u t e | t tn k v | t k]; cbn [spec_exec]; (destruct (_ || _); [done |]); [by apply countable_append | |].
  - case_bool_decide; [| done]. case_match; [| done]. by apply countable_append.
  - by apply map_Forall_delete.
Qed.

Lemma exec_implements o s L :
  implements s L -> countable_log (2 ^ 63 - 1) L -> implements (exec o s) (spec_exec (maxHistory s) o L).
Proof. destruct o; [intros; by apply set_implements | apply rollback_implements | intros; by apply delete_implements]. Qed.

Lemma run_implements ops n s L :
  implements s L -> countable_log n L -> (0 <= n)%Z -> (n + Z.of_nat (length ops) < 2 ^ 63)%Z ->
  implements (run ops s) (spec_run (maxHistory s) ops L) /\ countable_log (n + Z.of_nat (length ops)) (spec_run (maxHistory s) ops L).
Proof.
  revert n s L. induction ops as [| o ops IH]; intros n s L Hs Hc Hn Hl; cbn [run spec_run foldl length] in *.
  - split; [done |]. by rewrite Z.add_0_r.
  - assert (Hcap : maxHistory (exec o s) = maxHistory s) by apply exec_maxHistory.
    destruct (IH (n + 1)%Z (exec o s) (spec_exec (maxHistory s) o L)) as [H1 H2].
    + apply exec_implements; [done |]. eapply map_Forall_impl; [exact Hc |]. simpl. intros. lia.
    + by apply exec_countable.
    + lia.
    + lia.
    + rewrite Hcap in H1, H2. split; [exact H1 |]. replace (n + Z.of_nat (S (length ops)))%Z with (n + 1 + Z.of_nat (length ops))%Z by lia. exact H2.
Qed.

(** ** What clients see *)

Definition view (e : ConfigEntry.t) : string * string * string * Z :=
  (ConfigEntry.Value e, ConfigEntry.Format e, ConfigEntry.Description e, ConfigEntry.Version e).

(** The versions of a log as clients see them. *)
Definition shown (l : list (string * string * string)) : list (string * string * string * Z) :=
  imap (fun i '(value, format, description) =>
    (value, if format == "" then "text" else format, description, wrap_i32 (Z.of_nat (S i)))) l.

Definition result_map {E A B} (f : A -> B) (r : result E A) : result E B := match r with Ok a => Ok (f a) | Err e => Err e end.

Lemma numbered_version es i e :
  numbered es -> (Z.of_nat (length es) < 2 ^ 63)%Z -> es !! i = Some e -> ConfigEntry.Version e = Z.of_nat (S i).
Proof. intros Hn Hl Hi. rewrite (Hn i e Hi). apply wrap_i64_id. apply lookup_lt_Some in Hi. unfold in_i64. lia. Qed.

Lemma numbered_shown es :
  numbered es -> (Z.of_nat (length es) < 2 ^ 63)%Z -> map (fun e => view (modelToProtoConfig e)) es = shown (payload <$> es).
Proof.
  intros Hn Hl. apply list_eq. intros i. unfold shown. rewrite list_lookup_imap, list_lookup_fmap, list_lookup_fmap.
  destruct (es !! i) as [e |] eqn:Hi; [| done]. cbn. unfold view, modelToProtoConfig. cbn. by rewrite (numbered_version es i e).
Qed.

Lemma numbered_sorted es :
  numbered es -> (Z.of_nat (length es) < 2 ^ 63)%Z ->
  StronglySorted (not_more (fun a b => ConfigEntry.Version a <? ConfigEntry.Version b)%Z) es.
Proof.
  induction es as [| e es IH] using rev_ind; [constructor |]. intros Hn Hl. rewrite length_app in Hl. simpl in Hl.
  apply StronglySorted_app. split; [| split; [| by repeat constructor]].
  - intros x y [i Hi]%list_elem_of_lookup ->%list_elem_of_singleton. unfold not_more. apply Z.ltb_ge.
    pose proof (lookup_lt_Some _ _ _ Hi) as Hlt.
    rewrite (numbered_version _ i x Hn), (numbered_version _ (length es) e Hn);
      try (rewrite length_app; simpl; lia); [lia | rewrite lookup_app_r, Nat.sub_diag; done | by apply lookup_app_l_Some].
  - apply IH; [| lia]. intros i x Hi. apply Hn. by apply lookup_app_l_Some.
Qed.

(** A key's entry and history, against the log. *)
Lemma implements_shown s L t k :
  implements s L -> countable_log (2 ^ 63 - 1) L -> t <> "" -> k <> "" ->
  let versions := shown (default [] (L !! configKey t k)) in
  result_map view (GetConfig t k s) = match last versions with Some v => Ok v | None => Err ErrConfigNotFound end /\
  result_map (map view) (GetConfigHistory t k s) = Ok (lastn (maxHistory s) (take (pred (length versions)) versions)).
Proof.
  intros Hs Hc Ht Hk. cbv zeta. unfold GetConfig, GetConfigHistory, MemoryStore.GetConfig, MemoryStore.GetConfigHistory.
  rewrite !bool_decide_false by done. cbn [orb result_map]. pose proof (Hs (configKey t k)) as Hck.
  destruct (L !! configKey t k) as [l |] eqn:El; cbn [default]; [| destruct Hck as [-> ->]; by rewrite lastn_all by (simpl; lia)].
  destruct Hck as (es & e & El' & -> & -> & Hn). change (id l) with l.
  assert (Hl : (Z.of_nat (length (es ++ [e])) < 2 ^ 63)%Z).
  { rewrite <- (length_fmap payload), El'. assert ((Z.of_nat (length l) <= 2 ^ 63 - 1)%Z) by exact (Hc _ l El). lia. }
  rewrite <- El', <- (numbered_shown _ Hn Hl), map_app. cbn [map]. rewrite last_snoc. split; [done |]. f_equal.
  rewrite length_app, length_map, Nat.add_1_r, take_app_length' by (by rewrite length_map).
  rewrite stable_sort_id.
  - rewrite List.map_map. exact (fmap_lastn (fun e => view (modelToProtoConfig e)) (maxHistory s) es).
  - pose proof (numbered_sorted _ Hn Hl) as Hsort. apply StronglySorted_app_1_l in Hsort.
    unfold lastn. rewrite <- (take_drop (length es - maxHistory s) es) in Hsort. by apply StronglySorted_app_1_r in Hsort.
Qed.

Lemma new_implements sha256 passphrase cap : implements (NewMemoryStore sha256 passphrase cap) ∅.
Proof. intros ck. by rewrite lookup_empty. Qed.

(** C28: the versioned store implements a log per tenant and key.  Whatever is
    set, rolled back and deleted, in any order and on any keys, a read of a key
    answers the last value of its log with the number of values as its version, and
    its history is the last [maxHistory] of the values before, oldest first and
    numbered; a rollback appends the value it restores, and is refused exactly when
    the version is not in the history. *)
Theorem config_store_refines_log sha256 passphrase cap ops t k :
  (Z.of_nat (length ops) < 2 ^ 63)%Z -> t <> "" -> k <> "" ->
  let s0 := NewMemoryStore sha256 passphrase cap in
  let s := run ops s0 in
  let versions := shown (default [] (spec_run (maxHistory s0) ops ∅ !! configKey t k)) in
  result_map view (GetConfig t k s) = match last versions with Some v => Ok v | None => Err ErrConfigNotFound end /\
  result_map (map view) (GetConfigHistory t k s) = Ok (lastn (maxHistory s0) (take (pred (length versions)) versions)).
Proof.
  intros Hl Ht Hk s0 s. destruct (run_implements ops 0 s0 ∅) as [H1 H2]; [apply new_implements | apply map_Forall_empty | done | lia |].
  assert (Hm : maxHistory s = maxHistory s0).
  { unfold s. clear. generalize s0. induction ops as [| o ops IH]; intros s1; [done |]. cbn. rewrite <- (exec_maxHistory o s1). apply IH. }
  rewrite <- Hm in *. apply implements_shown; [exact H1 | | done | done].
  eapply map_Forall_impl; [exact H2 |]. simpl. intros. lia.
Qed.

Definition ex_config (t k v : string) : ConfigEntry.t := ConfigEntry.mk "" t k v "" 0 "" "" 0 0.
Definition ex_config_ops : list config_op :=
  [OSet "u1" 10 (ex_config "acme" "port" "80"); OSet "u2" 20 (ex_config "acme" "port" "81"); OSet "u3" 30 (ex_config "acme" "port" "82");
   OSet "u4" 30 (ex_config "acme" "host" "h"); ORollback 40 "acme" "port" 2; ORollback 50 "acme" "port" 1; ODelete "acme" "host"].

(** With a history of two, version 2 is restored as version 4, version 1 no
    longer. *)
Lemma config_store_refines_log_witness :
  let s := run ex_config_ops (NewMemoryStore (fun p => p) "k" 2) in
  result_map view (GetConfig "acme" "port" s) = Ok ("81", "text", "", 4%Z) /\
  result_map (map view) (GetConfigHistory "acme" "port" s) = Ok [("81", "text", "", 2%Z); ("82", "text", "", 3%Z)].
Proof.
  exact (config_store_refines_log (fun p => p) "k" 2 ex_config_ops "acme" "port"
    ltac:(vm_compute; reflexivity) ltac:(done) ltac:(done)).
Defined.

(** ** Tenants *)

(** A tenant's name without a slash. *)
Definition slash_free (t : string) : Prop := all_chars (not_char "/") t = true.

Lemma configKey_inj t k t' k' : slash_free t -> slash_free t' -> configKey t k = configKey t' k' -> t = t' /\ k = k'.
Proof.
  intros Ht Ht' E. pose proof (cut_app "/" t k Ht) as C. pose proof (cut_app "/" t' k' Ht') as C'.
  assert (Some (t, k) = Some (t', k')) by (rewrite <- C, <- C'; by f_equal). by simplify_eq.
Qed.

Definition tenant_of (o : config_op) : string :=
  match o with OSet _ _ req => ConfigEntry.TenantID req | ORollback _ t _ _ | ODelete t _ => t end.
Definition key_of (o : config_op) : string :=
  match o with OSet _ _ req => ConfigEntry.Key req | ORollback _ _ k _ | ODelete _ k => k end.

(** An operation touches its own key only. *)
Lemma exec_frame o s ck :
  ck <> configKey (tenant_of o) (key_of o) -> configs (exec o s) !! ck = configs s !! ck /\ history_of ck (exec o s) = history_of ck s.
Proof.
  intros Hne. unfold history_of.
  destruct o as [u n e | n t k v | t k]; cbn [exec tenant_of key_of] in *;
    unfold SetConfig, RollbackConfig, DeleteConfig; case_match; try done;
    [destruct (MemoryStore.GetConfig _ _ s); unfold MemoryStore.SetConfig | unfold MemoryStore.RollbackConfig | unfold MemoryStore.DeleteConfig];
    cbn; repeat case_match; simplify_eq; cbn; unfold archive;
    by rewrite ?lookup_insert_ne, ?lookup_delete_ne by done.
Qed.

(** Tenants whose names have no slash are isolated: whatever other such
    tenants set, roll back or delete, a tenant reads the same entry and the same
    history as before. *)
Theorem config_tenants_isolated ops s t k :
  slash_free t -> Forall (fun o => slash_free (tenant_of o) /\ tenant_of o <> t) ops ->
  GetConfig t k (run ops s) = GetConfig t k s /\ GetConfigHistory t k (run ops s) = GetConfigHistory t k s.
Proof.
  intros Ht Hops.
  assert (Hf : configs (run ops s) !! configKey t k = configs s !! configKey t k /\
               history_of (configKey t k) (run ops s) = history_of (configKey t k) s).
  { revert s. induction Hops as [| o ops [Ho Hne] _ IH]; intros s; [done |]. change (run (o :: ops) s) with (run ops (exec o s)).
    destruct (IH (exec o s)) as [-> ->].
    apply exec_frame. intros E. apply (configKey_inj t k) in E as [E _]; [by subst | done | done]. }
  unfold GetConfig, GetConfigHistory, MemoryStore.GetConfig, MemoryStore.GetConfigHistory. destruct Hf as [-> ->]. done.
Qed.

Lemma config_tenants_isolated_witness :
  GetConfig "acme" "port" (run [OSet "u2" 20 (ex_config "evil" "port" "0"); ODelete "evil" "port"]
    (run ex_config_ops (NewMemoryStore (fun p => p) "k" 2))) = GetConfig "acme" "port" (run ex_config_ops (NewMemoryStore (fun p => p) "k" 2)).
Proof.
  exact (proj1 (config_tenants_isolated [OSet "u2" 20 (ex_config "evil" "port" "0"); ODelete "evil" "port"]
    (run ex_config_ops (NewMemoryStore (fun p => p) "k" 2)) "acme" "port" eq_refl
    ltac:(repeat apply List.Forall_cons; try apply List.Forall_nil; by split))).
Defined.

(** A slash in a tenant's name gives it the keys of another: what tenant
    [t/a] sets under [k] is what tenant [t] reads under [a/k], over whatever it had
    there, and what it deletes, [t] has lost. *)
Theorem config_tenants_collide uuid now (t a k v : string) req s :
  t <> "" -> a <> "" -> k <> "" -> v <> "" ->
  ConfigEntry.TenantID req = configKey t a -> ConfigEntry.Key req = k -> ConfigEntry.Value req = v ->
  (exists e, GetConfig t (configKey a k) (SetConfig uuid now req s).1 = Ok e /\ ConfigEntry.Value e = v) /\
  GetConfig t (configKey a k) (DeleteConfig (configKey t a) k s).1 = Err ErrConfigNotFound.
Proof.
  intros Ht Ha Hk Hv Et Ek Ev.
  assert (Hck : configKey t (configKey a k) = configKey (configKey t a) k).
  { unfold configKey. by rewrite !app_assoc_string. }
  assert (Hne : configKey t a <> "" /\ configKey a k <> "") by (unfold configKey; by destruct t, a).
  destruct Hne as [Hne1 Hne2]. unfold GetConfig. rewrite (bool_decide_false (t = "")), (bool_decide_false (configKey a k = "")) by done. cbn [orb].
  unfold MemoryStore.GetConfig. rewrite Hck. split.
  - unfold SetConfig. rewrite Et, Ek, Ev, !bool_decide_false by done. cbn [orb].
    match goal with |- context [MemoryStore.SetConfig now ?x s] => set (entry := x) end.
    assert (ConfigEntry.TenantID entry = configKey t a /\ ConfigEntry.Key entry = k /\ ConfigEntry.Value entry = v) as (E1 & E2 & E3)
      by (unfold entry; by case_match).
    unfold MemoryStore.SetConfig. rewrite E1, E2. destruct (configs s !! configKey (configKey t a) k) as [e |];
    cbn [fst set_configs configs]; rewrite lookup_insert_eq; by eexists.
  - unfold DeleteConfig. rewrite !bool_decide_false by done. cbn [orb]. unfold MemoryStore.DeleteConfig.
    destruct (configs s !! configKey (configKey t a) k) eqn:E;
    cbn [fst set_configs configs]; [by rewrite lookup_delete_eq | by rewrite E].
Qed.

Lemma config_tenants_collide_witness :
  let s := run ex_config_ops (NewMemoryStore (fun p => p) "k" 2) in
  exists e, GetConfig "acme" "eu/port" (SetConfig "u" 60 (ex_config "acme/eu" "port" "0") s).1 = Ok e /\ ConfigEntry.Value e = "0".
Proof.
  exact (proj1 (config_tenants_collide "u" 60 "acme" "eu" "port" "0" (ex_config "acme/eu" "port" "0")
    (run ex_config_ops (NewMemoryStore (fun p => p) "k" 2)) ltac:(done) ltac:(done) ltac:(done) ltac:(done) eq_refl eq_refl eq_refl)).
Defined.
