(* ===== verification/ConfigSecrets.v ===== *)
(** * Secrets of the configuration service

    Whatever clients do with secrets, the store implements a map from keys to
    values and versions, and holds each value sealed.  The toy cipher of the
    witnesses only shows that the laws of [AEAD] can hold. *)

From Stdlib Require Import Ascii.
From S2P Require Import Prelude GoStrings Base64 SecretCrypto Window ConfigStore ConfigProps.
Import MemoryStore ConfigService.
Open Scope go_scope.

(** ** Sealed values *)

(** [stored] is [value] sealed under [key]. *)
Definition sealed_as `{AEAD} (key value stored : string) : Prop :=
  exists nonce, String.length nonce = NonceSize /\ stored = Prefix +:+ EncodeToString (nonce +:+ Seal key nonce value).

Definition well_drawn (random : option string) : Prop := forall nonce, random = Some nonce -> String.length nonce = NonceSize.

Section secrets.
Context `{AEAD}.

Lemma Encrypt_ok key nonce value :
  String.length key = keyLen -> value <> "" ->
  Encrypt (Some nonce) key value = Ok (Prefix +:+ EncodeToString (nonce +:+ Seal key nonce value)).
Proof using Type. intros Hk Hv. unfold Encrypt. rewrite bool_decide_false by done. by rewrite (proj2 (Nat.eqb_eq _ _) Hk). Qed.

Lemma Encrypt_none key value :
  String.length key = keyLen -> value <> "" -> Encrypt None key value = Err NoRandomness.
Proof using Type. intros Hk Hv. unfold Encrypt. rewrite bool_decide_false by done. by rewrite (proj2 (Nat.eqb_eq _ _) Hk). Qed.

Lemma sealed_as_Decrypt key value stored :
  String.length key = keyLen -> value <> "" -> sealed_as key value stored -> Decrypt key stored = Ok (value, false).
Proof using Type.
  intros Hk Hv (nonce & Hn & ->). apply (Decrypt_Encrypt (Some nonce)); [by intros ? [= <-] | by apply Encrypt_ok].
Qed.

(** ** Operations and their specification *)

Inductive secret_op :=
  | SCreate (uuid : string) (random : option string) (now : time) (tenantID key value keyType : string)
  | SUpdate (random : option string) (now : time) (tenantID key value keyType : string)
  | SRotate (random : option string) (now : time) (tenantID key newValue : string)
  | SDelete (tenantID key : string).

Definition secret_exec (o : secret_op) (s : t) : t :=
  match o with
  | SCreate uuid r now t k v ty => (CreateSecret uuid r now t k v ty s).1
  | SUpdate r now t k v ty => (UpdateSecret r now t k v ty s).1
  | SRotate r now t k v => (RotateSecret r now t k v s).1
  | SDelete t k => (DeleteSecret t k s).1
  end.
Definition secret_run (ops : list secret_op) (s : t) : t := foldl (fun s o => secret_exec o s) s ops.

(** Value and version of each key. *)
Abbreviation vault := (gmap string (string * Z)).

(** A write with a nonce. *)
Definition vault_write (r : option string) (t k v : string) (version : option Z) (V : vault) : vault :=
  if (t == "") || (k == "") || (v == "") then V else
  match r, version with Some _, Some n => <[configKey t k := (v, n)]> V | _, _ => V end.
Definition next_version (t k : string) (V : vault) : option Z := (fun p : string * Z => wrap_i64 (p.2 + 1)) <$> V !! configKey t k.

Definition vault_exec (o : secret_op) (V : vault) : vault :=
  match o with
  | SCreate _ r _ t k v _ => vault_write r t k v (Some 1%Z) V
  | SUpdate r _ t k v _ | SRotate r _ t k v => vault_write r t k v (next_version t k V) V
  | SDelete t k => if (t == "") || (k == "") then V else delete (configKey t k) V
  end.
Definition vault_run (ops : list secret_op) (V : vault) : vault := foldl (fun V o => vault_exec o V) V ops.

Definition drawn (o : secret_op) : Prop :=
  match o with SCreate _ r _ _ _ _ _ | SUpdate r _ _ _ _ _ | SRotate r _ _ _ _ => well_drawn r | SDelete _ _ => True end.

(** The store holds the vault, sealed. *)
Definition keeps (key : string) (e : option SecretEntry.t) (p : option (string * Z)) : Prop :=
  match e, p with
  | Some e, Some (v, n) => v <> "" /\ sealed_as key v (SecretEntry.Value e) /\ SecretEntry.Version e = n
  | None, None => True
  | _, _ => False
  end.
Record holds (s : t) (V : vault) : Prop := {
  holds_key : String.length (encryptionKey s) = keyLen;
  holds_each : forall ck, keeps (encryptionKey s) (secrets s !! ck) (V !! ck);
}.

Lemma holds_insert s V ck e v n nonce :
  holds s V -> String.length nonce = NonceSize -> v <> "" -> SecretEntry.Version e = n ->
  SecretEntry.Value e = Prefix +:+ EncodeToString (nonce +:+ Seal (encryptionKey s) nonce v) ->
  holds (set_secrets (<[ck := e]> (secrets s)) s) (<[ck := (v, n)]> V).
Proof using Type.
  intros [Hk He] Hn Hv <- Es. split; [done |]. intros ck'. cbn. destruct (decide (ck = ck')) as [<- | Hne].
  - rewrite !lookup_insert_eq. split; [done |]. split; [by exists nonce | done].
  - rewrite !lookup_insert_ne by done. apply He.
Qed.

(** What the store reads of a kept entry. *)
Lemma holds_get s V t k :
  holds s V ->
  match V !! configKey t k with
  | Some (v, n) => exists e, secrets s !! configKey t k = Some e /\ MemoryStore.GetSecret t k s = Some (SecretEntry.set_Value v e) /\ SecretEntry.Version e = n
  | None => secrets s !! configKey t k = None /\ MemoryStore.GetSecret t k s = None
  end.
Proof using Type.
  intros [Hk He]. unfold MemoryStore.GetSecret. specialize (He (configKey t k)).
  destruct (secrets s !! configKey t k) as [e |], (V !! configKey t k) as [[v n] |]; try done.
  destruct He as (Hv & Hs & Hn). rewrite (sealed_as_Decrypt _ v) by done. by eexists.
Qed.

Lemma secret_exec_holds o s V : holds s V -> drawn o -> holds (secret_exec o s) (vault_exec o V).
Proof using Type.
  intros Hs Hd. pose proof (holds_key _ _ Hs) as Hk.
  destruct o as [u r n t k v ty | r n t k v ty | r n t k v | t k]; cbn [secret_exec vault_exec drawn] in *;
    unfold CreateSecret, UpdateSecret, RotateSecret, DeleteSecret, vault_write, next_version;
    try (destruct ((t == "") || (k == "")) eqn:B; cbn [orb]; [done |]; try (destruct (bool_decide_reflect (v = "")) as [_ | Hv]; [done |]));
    try pose proof (holds_get s V t k Hs) as Hg.
  - unfold MemoryStore.CreateSecret. cbn [SecretEntry.set_UpdatedAt SecretEntry.set_CreatedAt SecretEntry.set_Version SecretEntry.Value]. destruct r as [nonce |]; [|
      by rewrite Encrypt_none].
    rewrite Encrypt_ok by done. cbn. by apply (holds_insert s V _ _ v _ nonce Hs (Hd _ eq_refl)).
  - destruct (V !! configKey t k) as [[v0 n0] |] eqn:EV; [| by destruct Hg as [_ ->]; destruct r].
    destruct Hg as (e & E & -> & <-). unfold MemoryStore.UpdateSecret. cbn [SecretEntry.TenantID SecretEntry.Key SecretEntry.Value]. rewrite E.
    destruct r as [nonce |]; [| by rewrite Encrypt_none].
    rewrite Encrypt_ok by done. cbn. by apply (holds_insert s V _ _ v _ nonce Hs (Hd _ eq_refl)).
  - unfold MemoryStore.RotateSecret. destruct (V !! configKey t k) as [[v0 n0] |] eqn:EV; [| by destruct Hg as [-> _]; destruct r].
    destruct Hg as (e & -> & _ & <-). destruct r as [nonce |]; [| by rewrite Encrypt_none].
    rewrite Encrypt_ok by done. cbn. by apply (holds_insert s V _ _ v _ nonce Hs (Hd _ eq_refl)).
  - unfold MemoryStore.DeleteSecret. destruct (secrets s !! configKey t k) as [e |] eqn:E; cbn [fst].
    + split; [done |]. intros ck. cbn. destruct (decide (configKey t k = ck)) as [<- | Hne]; [by rewrite !lookup_delete_eq |].
      rewrite !lookup_delete_ne by done. apply Hs.
    + rewrite delete_id; [done |]. pose proof (holds_each _ _ Hs (configKey t k)) as He. rewrite E in He. by destruct (V !! configKey t k).
Qed.

Lemma secret_run_holds ops s V : holds s V -> Forall drawn ops -> holds (secret_run ops s) (vault_run ops V).
Proof using Type.
  intros Hs Hd. revert s V Hs. induction Hd as [| o ops Ho _ IH]; intros s V Hs; [done |].
  cbn [secret_run vault_run foldl]. apply IH. by apply secret_exec_holds.
Qed.
End secrets.

(** C29: secrets survive, and only sealed.  After any sequence of creations,
    updates, rotations and deletions, also ones for which no randomness could be
    read, reading a secret gives the value and the version the map from keys to
    values has, and what the store holds under a key is that value sealed with the
    store's key, under a nonce of its own. *)
Theorem secrets_kept_sealed `{AEAD} sha256 passphrase cap ops :
  (forall p, String.length (sha256 p) = keyLen) -> Forall drawn ops ->
  let s := secret_run ops (NewMemoryStore sha256 passphrase cap) in
  let V := vault_run ops ∅ in
  (forall t k, t <> "" -> k <> "" ->
     result_map (fun e => (SecretEntry.Value e, SecretEntry.Version e)) (GetSecret t k s) =
       match V !! configKey t k with Some (v, n) => Ok (v, wrap_i32 n) | None => Err ErrSecretNotFound end) /\
  (forall ck e, secrets s !! ck = Some e ->
     exists v n, V !! ck = Some (v, n) /\ sealed_as (encryptionKey s) v (SecretEntry.Value e)).
Proof.
  intros Hsha Hd s V. assert (Hs : holds s V).
  { apply secret_run_holds; [| done]. split; [apply Hsha |]. intros ck. cbn. by rewrite !lookup_empty. }
  split.
  - intros t k Ht Hk. unfold GetSecret. rewrite !bool_decide_false by done. cbn [orb]. pose proof (holds_get s V t k Hs) as Hg.
    destruct (V !! configKey t k) as [[v n] |]; [by destruct Hg as (e & _ & -> & <-) | by destruct Hg as [_ ->]].
  - intros ck e E. pose proof (holds_each _ _ Hs ck) as He. rewrite E in He. destruct (V !! ck) as [[v n] |]; [| done].
    exists v, n. split; [done | apply He].
Qed.

(** A cipher that seals nothing obeys the law. *)
Definition ex_aead : AEAD := {| Seal _ _ v := v; Open _ _ c := Some c; Open_Seal _ _ _ _ _ := eq_refl |}.
Definition ex_key : string := "0123456789abcdef0123456789abcdef".
Definition ex_nonce : string := "123456789012".
Definition ex_secret_ops : list secret_op :=
  [SCreate "u1" (Some ex_nonce) 10 "acme" "db" "hunter2" ""; SRotate None 20 "acme" "db" "lost"; SUpdate (Some ex_nonce) 30 "acme" "db" "hunter3" ""].

Lemma ex_drawn : well_drawn (Some ex_nonce) /\ well_drawn None.
Proof. split; [by intros ? [= <-] | done]. Qed.

Lemma secrets_kept_sealed_witness :
  result_map (fun e => (SecretEntry.Value e, SecretEntry.Version e))
    (@GetSecret ex_aead "acme" "db" (@secret_run ex_aead ex_secret_ops (NewMemoryStore (fun _ => ex_key) "p" 0))) = Ok ("hunter3", 2%Z).
Proof.
  assert (Hd : Forall drawn ex_secret_ops).
  { destruct ex_drawn as [H1 H2]. repeat apply List.Forall_cons; try apply List.Forall_nil; assumption. }
  exact (proj1 (@secrets_kept_sealed ex_aead (fun _ => ex_key) "p" 0 ex_secret_ops (fun _ => eq_refl) Hd) "acme" "db" ltac:(done) ltac:(done)).
Defined.
