(* ===== verification/ConfigJobs.v ===== *)
(** * Rotation of secrets and detection of drift
    ([services/config-svc/internal]: [rotation], [drift])

    The rotation manager keeps policies and changes secrets through the interface
    of the store, the class [SecretStore], whose laws [MemoryStore] meets; the
    drift detector compares configuration entries with what rules expect.  Both
    keep a bounded history.  The pattern compiler of Go's [regexp] is the argument
    [compile]; new values, identifiers and the clock are arguments.  [ScanAll]
    takes the list of rules first and then checks them one by one, as the code
    does. *)

From Stdlib Require Import Ascii.
From S2P Require Import Prelude GoStrings SecretCrypto Window ConfigStore.
Open Scope go_scope.

(** ** Data *)

Definition StatusActive : string := "active".
Definition StatusPaused : string := "paused".
Definition StatusCompleted : string := "completed".
Definition ComparisonExact : string := "exact".
Definition ComparisonRegex : string := "regex".
Definition ComparisonExists : string := "exists".

(** [rotation.RotationPolicy]. *)
Module RotationPolicy.
Record t := mk {
  ID : string; SecretID : string; TenantID : string; SecretKey : string;
  RotationInterval : duration; Enabled : bool; LastRotation : time; NextRotation : time;
  Status : string; CreatedAt : time; UpdatedAt : time;
}.

Definition set_LastRotation (v : time) (r : t) : t :=
  mk (ID r) (SecretID r) (TenantID r) (SecretKey r) (RotationInterval r) (Enabled r) v
     (NextRotation r) (Status r) (CreatedAt r) (UpdatedAt r).
Definition set_NextRotation (v : time) (r : t) : t :=
  mk (ID r) (SecretID r) (TenantID r) (SecretKey r) (RotationInterval r) (Enabled r)
     (LastRotation r) v (Status r) (CreatedAt r) (UpdatedAt r).
Definition set_Status (v : string) (r : t) : t :=
  mk (ID r) (SecretID r) (TenantID r) (SecretKey r) (RotationInterval r) (Enabled r)
     (LastRotation r) (NextRotation r) v (CreatedAt r) (UpdatedAt r).
Definition set_UpdatedAt (v : time) (r : t) : t :=
  mk (ID r) (SecretID r) (TenantID r) (SecretKey r) (RotationInterval r) (Enabled r)
     (LastRotation r) (NextRotation r) (Status r) (CreatedAt r) v.
End RotationPolicy.

(** [rotation.RotationResult]. *)
Module RotationResult.
Record t := mk {
  SecretID : string; OldVersion : Z; NewVersion : Z; RotatedAt : time; Status : string;
  Error : string;
}.

End RotationResult.

(** [drift.DriftRule]. *)
Module DriftRule.
Record t := mk {
  ID : string; ConfigKey : string; ExpectedValue : string; Comparison : string;
  TenantID : string; Description : string; Enabled : bool; CreatedAt : time;
}.

End DriftRule.

(** [drift.DriftResult]. *)
Module DriftResult.
Record t := mk {
  RuleID : string; Key : string; Expected : string; Actual : string; Drifted : bool;
  Timestamp : time;
}.

End DriftResult.

(** ** What the manager asks of the store *)

Class SecretStore (St : Type) := {
  store_get : string -> string -> St -> option SecretEntry.t;
  (** tenant, key, the randomness and the clock of the call, the new value *)
  store_rotate : string -> string -> option string -> time -> string -> St -> St * option SecretMeta.t;
}.

Class LawfulSecretStore (St : Type) `{SecretStore St} := {
  readable : St -> Prop;
  rotate_reads_back : forall tenantID key nonce now v s s' m e,
    readable s -> String.length nonce = NonceSize -> store_get tenantID key s = Some e ->
    store_rotate tenantID key (Some nonce) now v s = (s', Some m) ->
    readable s' /\ SecretMeta.Version m = wrap_i64 (SecretEntry.Version e + 1) /\
    exists e', store_get tenantID key s' = Some e' /\ SecretEntry.Value e' = v /\ SecretEntry.Version e' = SecretMeta.Version m;
  rotate_refused : forall tenantID key random now v s s', store_rotate tenantID key random now v s = (s', None) -> s' = s;
  rotate_accepted : forall tenantID key nonce now v s e,
    readable s -> store_get tenantID key s = Some e -> exists m, (store_rotate tenantID key (Some nonce) now v s).2 = Some m;
}.

Inductive rotation_error := FieldsRequired | IntervalNotPositive | PolicyExists | PolicyNotFound | PolicyDisabled | PolicySecretNotFound | RotationFailed.

Definition rotationHistory : nat := 1000.

Module Rotation.
Record t := mk { policies : gmap string RotationPolicy.t; results : list RotationResult.t }.
Definition NewManager : t := mk ∅ [].

Definition same_secret (tenantID secretKey : string) (p : RotationPolicy.t) : bool :=
  (RotationPolicy.TenantID p == tenantID) && (RotationPolicy.SecretKey p == secretKey).

(** The loop over the policies only asks whether one is for the secret. *)
Definition RegisterPolicy (uuid uuid' : string) (now : time) (tenantID secretKey : string) (interval : duration) (m : t)
    : t * result rotation_error RotationPolicy.t :=
  if (tenantID == "") || (secretKey == "") then (m, Err FieldsRequired)
  else if (interval <=? 0)%Z then (m, Err IntervalNotPositive)
  else if existsb (same_secret tenantID secretKey) (map_to_list (policies m)).*2 then (m, Err PolicyExists)
  else
    let p := RotationPolicy.mk uuid uuid' tenantID secretKey interval true zero_time (now + interval)%Z StatusActive now now in
    (mk (<[uuid := p]> (policies m)) (results m), Ok p).

Definition UnregisterPolicy (id : string) (m : t) : t * bool :=
  match policies m !! id with None => (m, false) | Some _ => (mk (delete id (policies m)) (results m), true) end.

Definition ListPolicies (range : gmap string RotationPolicy.t -> list RotationPolicy.t) (m : t) : list RotationPolicy.t := range (policies m).
Definition GetPolicy (id : string) (m : t) : option RotationPolicy.t := policies m !! id.

Definition reached (now : time) (p : RotationPolicy.t) : bool :=
  After now (RotationPolicy.NextRotation p) || (now =? RotationPolicy.NextRotation p)%Z.

Definition CheckRotation (now : time) (id : string) (m : t) : result rotation_error bool :=
  match policies m !! id with
  | None => Err PolicyNotFound
  | Some p => Ok (if negb (RotationPolicy.Enabled p) then false else reached now p)
  end.

Definition add_result (r : RotationResult.t) (m : t) : t := mk (policies m) (append_capped rotationHistory (results m) r).

Section rotate.
Context `{SecretStore St}.

Definition rotated (now : time) (p : RotationPolicy.t) : RotationPolicy.t :=
  RotationPolicy.set_UpdatedAt now (RotationPolicy.set_Status StatusActive
    (RotationPolicy.set_NextRotation (now + RotationPolicy.RotationInterval p)%Z (RotationPolicy.set_LastRotation now p))).

(** [newValue] is what [generateSecretValue] draws. *)
Definition RotateSecret (random : option string) (newValue : string) (now : time) (id : string) (m : t) (s : St)
    : t * St * result rotation_error RotationResult.t :=
  match policies m !! id with
  | None => (m, s, Err PolicyNotFound)
  | Some p =>
      if negb (RotationPolicy.Enabled p)
      then (mk (<[id := RotationPolicy.set_Status StatusPaused p]> (policies m)) (results m), s, Err PolicyDisabled)
      else match store_get (RotationPolicy.TenantID p) (RotationPolicy.SecretKey p) s with
      | None => (m, s, Err PolicySecretNotFound)
      | Some existing =>
          match store_rotate (RotationPolicy.TenantID p) (RotationPolicy.SecretKey p) random now newValue s with
          | (s, None) => (m, s, Err RotationFailed)
          | (s, Some meta) =>
              let r := RotationResult.mk (RotationPolicy.SecretID p) (SecretEntry.Version existing) (SecretMeta.Version meta) now StatusCompleted "" in
              (add_result r (mk (<[id := rotated now p]> (policies m)) (results m)), s, Ok r)
          end
      end
  end.

Definition ListDueRotations (range : gmap string RotationPolicy.t -> list RotationPolicy.t) (now : time) (m : t) : list RotationPolicy.t :=
  List.filter (fun p => RotationPolicy.Enabled p && reached now p) (range (policies m)).

Definition ListSecretsDueForRotation range (now : time) (m : t) (s : St) : list SecretMeta.t :=
  omap (fun p => meta_of <$> store_get (RotationPolicy.TenantID p) (RotationPolicy.SecretKey p) s) (ListDueRotations range now m).
End rotate.

Definition GetRotationStatus (id : string) (m : t) : result rotation_error RotationPolicy.t :=
  match policies m !! id with Some p => Ok p | None => Err PolicyNotFound end.
Definition GetRotationHistory (m : t) : list RotationResult.t := results m.

(** Policies, those enabled, those due, and results. *)
Definition GetStatus (now : time) (m : t) : nat * nat * nat * nat :=
  (size (policies m), length (List.filter RotationPolicy.Enabled (map_to_list (policies m)).*2),
   length (List.filter (fun p => RotationPolicy.Enabled p && reached now p) (map_to_list (policies m)).*2), length (results m)).
End Rotation.

#[export] Program Instance rotation_log : BoundedLog Rotation.t RotationResult.t := {|
  log_inv m := length (Rotation.results m) <= rotationHistory;
  log_cap _ := rotationHistory;
  log_push := Rotation.add_result;
  log_contents := Rotation.results |}.
Next Obligation. intros x m _. apply append_capped_bounded. Qed.
Next Obligation. done. Qed.
Next Obligation. intros x m _. apply append_capped_lastn. Qed.
Next Obligation. done. Qed.

(** ** Drift ([drift.go]) *)

Inductive drift_error := TenantRequired | InvalidPattern | UnknownComparison.

Definition driftHistory : nat := 1000.

Module Detector.
Record t := mk { rules : gmap string DriftRule.t; history : list DriftResult.t }.
Definition NewDetector : t := mk ∅ [].

Definition RegisterRule (uuid : string) (now : time) (configKey expectedValue comparison tenantID description : string) (d : t) : t * DriftRule.t :=
  let r := DriftRule.mk uuid configKey expectedValue comparison tenantID description true now in
  (mk (<[uuid := r]> (rules d)) (history d), r).
Definition UnregisterRule (id : string) (d : t) : t * bool :=
  match rules d !! id with None => (d, false) | Some _ => (mk (delete id (rules d)) (history d), true) end.
Definition ListRules (range : gmap string DriftRule.t -> list DriftRule.t) (d : t) : list DriftRule.t := range (rules d).
Definition GetRule (id : string) (d : t) : option DriftRule.t := rules d !! id.

Definition appendHistory (r : DriftResult.t) (d : t) : t := mk (rules d) (append_capped driftHistory (history d) r).

Section check.
Context (compile : string -> option (string -> bool)).
Context (GetConfig : string -> string -> option ConfigEntry.t).

(** What is found, and whether it drifts. *)
Definition compare (rule : DriftRule.t) : result drift_error (string * bool) :=
  if DriftRule.TenantID rule == "" then Err TenantRequired else
  let entry := GetConfig (DriftRule.TenantID rule) (DriftRule.ConfigKey rule) in
  let found := bool_decide (is_Some entry) in
  if DriftRule.Comparison rule == ComparisonExists then
    Ok (if found then "exists" else "missing", if DriftRule.ExpectedValue rule == "true" then negb found else found)
  else if DriftRule.Comparison rule == ComparisonExact then
    match entry with
    | None => Ok ("", true)
    | Some e => Ok (ConfigEntry.Value e, ConfigEntry.Value e != DriftRule.ExpectedValue rule)
    end
  else if DriftRule.Comparison rule == ComparisonRegex then
    match entry with
    | None => Ok ("", true)
    | Some e =>
        match compile (DriftRule.ExpectedValue rule) with
        | None => Err InvalidPattern
        | Some matches => Ok (ConfigEntry.Value e, negb (matches (ConfigEntry.Value e)))
        end
    end
  else Err UnknownComparison.

Definition CheckDrift (now : time) (rule : DriftRule.t) (d : t) : t * result drift_error DriftResult.t :=
  match compare rule with
  | Err e => (d, Err e)
  | Ok (actual, drifted) =>
      let r := DriftResult.mk (DriftRule.ID rule) (DriftRule.ConfigKey rule) (DriftRule.ExpectedValue rule) actual drifted now in
      (appendHistory r d, Ok r)
  end.

(** The checks in turn, until one fails. *)
Fixpoint scan (now : time) (rs : list DriftRule.t) (results : list DriftResult.t) (d : t) : t * result drift_error (list DriftResult.t) :=
  match rs with
  | [] => (d, Ok results)
  | rule :: rs =>
      match CheckDrift now rule d with
      | (d, Err e) => (d, Err e)
      | (d, Ok r) => scan now rs (results ++ [r]) d
      end
  end.

Definition ScanAll (range : gmap string DriftRule.t -> list DriftRule.t) (now : time) (d : t) : t * result drift_error (list DriftResult.t) :=
  scan now (List.filter DriftRule.Enabled (range (rules d))) [] d.
End check.

Definition GetDriftHistory (d : t) : list DriftResult.t := history d.

(** Rules, those enabled, results that drifted, and the last ten results. *)
Definition GetStatus (d : t) : nat * nat * nat * list DriftResult.t :=
  (size (rules d), length (List.filter DriftRule.Enabled (map_to_list (rules d)).*2),
   length (List.filter DriftResult.Drifted (history d)), take 10 (rev (history d))).
End Detector.
