(* ===== verification/ConfigJobsProps.v ===== *)
(** * Correctness of rotation and drift detection

    Rotation is proved against the laws of the secret store, which the memory
    store of the service meets; the drift detector answers for all its rules or for
    none. *)

From Stdlib Require Import Ascii.
From S2P Require Import Prelude GoStrings Base64 SecretCrypto Window ConfigStore ConfigProps ConfigSecrets ConfigJobs.
Open Scope go_scope.

(** ** The memory store is a lawful secret store *)

#[export] Instance memory_secrets `{AEAD} : SecretStore MemoryStore.t := {|
  store_get := MemoryStore.GetSecret;
  store_rotate t k random now v := MemoryStore.RotateSecret random now t k v |}.

(** Any value can be stored and read back, the empty one too. *)
Lemma Encrypt_drawn `{AEAD} key nonce v :
  String.length key = keyLen -> String.length nonce = NonceSize ->
  exists stored, Encrypt (Some nonce) key v = Ok stored /\ Decrypt key stored = Ok (v, false).
Proof.
  intros Hk Hn. destruct (decide (v = "")) as [-> | Hv]; [by exists "" |].
  rewrite Encrypt_ok by done. eexists. split; [done |]. apply sealed_as_Decrypt; [done | done |]. by exists nonce.
Qed.

Lemma GetSecret_stored `{AEAD} t k s e : MemoryStore.GetSecret t k s = Some e ->
  exists e0, MemoryStore.secrets s !! configKey t k = Some e0 /\ SecretEntry.Version e0 = SecretEntry.Version e.
Proof.
  unfold MemoryStore.GetSecret. destruct (_ !! _) as [e0 |]; [| done]. destruct (Decrypt _ _) as [[d b] |]; [| done].
  intros [= <-]. by exists e0.
Qed.

#[export] Program Instance memory_secrets_lawful `{AEAD} : LawfulSecretStore MemoryStore.t := {|
  readable s := String.length (MemoryStore.encryptionKey s) = keyLen |}.
Next Obligation.
  intros ? t k nonce now v s s' m e Hk Hn (e0 & E & Hv)%GetSecret_stored. unfold store_rotate, memory_secrets, MemoryStore.RotateSecret. rewrite E.
  destruct (Encrypt_drawn _ _ v Hk Hn) as (stored & -> & Hd). intros [= <- <-]. split; [done |]. cbn. rewrite Hv. split; [done |].
  unfold store_get, MemoryStore.GetSecret. cbn [MemoryStore.secrets MemoryStore.set_secrets MemoryStore.encryptionKey].
  rewrite lookup_insert_eq. cbn [SecretEntry.Value SecretEntry.set_UpdatedAt SecretEntry.set_Version SecretEntry.set_Value]. rewrite Hd. by eexists.
Qed.
Next Obligation.
  intros ? t k random now v s s'. cbn. unfold MemoryStore.RotateSecret. destruct (_ !! _); [| by intros [= <-]].
  by destruct (Encrypt _ _ _); intros [= <-].
Qed.
Next Obligation.
  intros ? t k nonce now v s e Hk (e0 & E & _)%GetSecret_stored. cbn. unfold MemoryStore.RotateSecret. rewrite E.
  destruct (decide (v = "")) as [-> | Hv]; [| rewrite Encrypt_ok by done]; by eexists.
Qed.

(** ** Rotation *)

Section rotation.
Import Rotation.
Context `{LawfulSecretStore St}.

(** Rotation takes effect.  With any lawful store, rotating the secret of
    an enabled policy succeeds: the secret then reads as the new value, one version
    up, the result names both versions and enters the bounded history, and the
    policy is due again exactly when its interval has passed. *)
Theorem rotation_takes_effect nonce v now id m (s : St) p old :
  policies m !! id = Some p -> RotationPolicy.Enabled p = true ->
  readable s -> String.length nonce = NonceSize -> store_get (RotationPolicy.TenantID p) (RotationPolicy.SecretKey p) s = Some old ->
  exists m' s' r e,
    RotateSecret (Some nonce) v now id m s = (m', s', Ok r) /\ readable s' /\
    store_get (RotationPolicy.TenantID p) (RotationPolicy.SecretKey p) s' = Some e /\ SecretEntry.Value e = v /\
    SecretEntry.Version e = wrap_i64 (SecretEntry.Version old + 1) /\
    RotationResult.OldVersion r = SecretEntry.Version old /\ RotationResult.NewVersion r = SecretEntry.Version e /\
    GetRotationHistory m' = lastn rotationHistory (GetRotationHistory m ++ [r]) /\
    forall now', CheckRotation now' id m' = Ok (now + RotationPolicy.RotationInterval p <=? now')%Z.
Proof using All.
  intros Hp He Hs Hn Hold. unfold RotateSecret. rewrite Hp, He, Hold. cbn [negb].
  destruct (rotate_accepted _ _ nonce now v s old Hs Hold) as [meta Hm].
  destruct (store_rotate _ _ (Some nonce) now v s) as [s' r] eqn:E. cbn in Hm. subst r.
  destruct (rotate_reads_back _ _ nonce now v s s' meta old Hs Hn Hold E) as (Hs' & Hver & e & He' & Hval & Hv').
  do 3 eexists. exists e. split_and!; try done; cbn.
  - by rewrite Hv', Hver.
  - apply append_capped_lastn.
  - intros now'. unfold CheckRotation. cbn. rewrite lookup_insert_eq. cbn. rewrite He. cbn. unfold reached, After. cbn.
    f_equal. destruct (Z.ltb_spec (now + RotationPolicy.RotationInterval p) now'), (Z.eqb_spec now' (now + RotationPolicy.RotationInterval p)),
      (Z.leb_spec (now + RotationPolicy.RotationInterval p) now'); cbn; lia.
Qed.

(** ** One policy per secret *)

Inductive policy_op :=
  | PRegister (uuid uuid' : string) (now : time) (tenantID secretKey : string) (interval : duration)
  | PUnregister (id : string)
  | PRotate (random : option string) (v : string) (now : time) (id : string).

Definition policy_exec (o : policy_op) (ms : t * St) : t * St :=
  match o with
  | PRegister u u' now t k i => ((RegisterPolicy u u' now t k i ms.1).1, ms.2)
  | PUnregister id => ((UnregisterPolicy id ms.1).1, ms.2)
  | PRotate r v now id => (RotateSecret r v now id ms.1 ms.2).1
  end.

Definition secret_of (p : RotationPolicy.t) : string * string := (RotationPolicy.TenantID p, RotationPolicy.SecretKey p).
Definition one_policy_each (m : t) : Prop :=
  forall i j p q, policies m !! i = Some p -> policies m !! j = Some q -> secret_of p = secret_of q -> i = j.

Lemma one_policy_replaced m m' id p q :
  one_policy_each m -> policies m !! id = Some p -> secret_of q = secret_of p -> policies m' = <[id := q]> (policies m) -> one_policy_each m'.
Proof using Type.
  intros Hm Hp Hq Hm' i j x y. rewrite Hm'. intros Hx Hy Hxy.
  assert (forall i x, (<[id := q]> (policies m)) !! i = Some x -> exists x', policies m !! i = Some x' /\ secret_of x' = secret_of x) as Hold.
  { intros i' x' [[<- <-] | [_ ?]]%lookup_insert_Some; by eauto. }
  destruct (Hold _ _ Hx) as (x' & Hx' & Ex), (Hold _ _ Hy) as (y' & Hy' & Ey). apply (Hm i j x' y'); congruence.
Qed.

(** No two policies rotate the same secret, whatever is registered,
    unregistered and rotated; a second registration is refused. *)
Theorem one_policy_per_secret ops (s : St) :
  let m := (foldl (fun ms o => policy_exec o ms) (NewManager, s) ops).1 in
  one_policy_each m /\
  forall i p u u' now interval,
    policies m !! i = Some p -> RotationPolicy.TenantID p <> "" -> RotationPolicy.SecretKey p <> "" -> (0 < interval)%Z ->
    RegisterPolicy u u' now (RotationPolicy.TenantID p) (RotationPolicy.SecretKey p) interval m = (m, Err PolicyExists).
Proof using Type.
  cbv zeta. split.
  - assert (Hinv : forall ms, one_policy_each ms.1 -> one_policy_each (foldl (fun ms o => policy_exec o ms) ms ops).1);
      [| by apply Hinv; intros i j p q; cbn; rewrite lookup_empty].
    induction ops as [| o ops IH]; intros [m st] Hm; [done |]. apply IH. cbn in Hm. destruct o as [u u' now t k i | id | r v now id]; cbn.
    + unfold RegisterPolicy. repeat (case_match; [done |]). cbn. destruct (existsb _ _) eqn:Ex; [done |].
      rewrite existsb_false in Ex. intros i1 j1 p q. cbn. rewrite !lookup_insert_Some.
      assert (Hnew : forall i1 p, policies m !! i1 = Some p -> secret_of p <> (t, k)).
      { intros i1' p' Hp' Es. injection Es as E1 E2. specialize (Ex p'). unfold same_secret in Ex.
        rewrite E1, E2, !bool_decide_true in Ex by done. apply (diff_true_false). apply Ex. apply list_elem_of_fmap.
        exists (i1', p'). split; [done |]. by apply elem_of_map_to_list. }
      intros [[<- <-] | [Hi Hp]] [[<- <-] | [Hj Hq]] Epq; [done | | | by apply (Hm i1 j1 p q)].
      * by destruct (Hnew _ _ Hq).
      * by destruct (Hnew _ _ Hp).
    + unfold UnregisterPolicy. case_match; [| done]. intros i1 j1 p q. cbn. rewrite !lookup_delete_Some.
      intros [_ Hp] [_ Hq]. by apply Hm.
    + unfold RotateSecret. destruct (policies m !! id) as [p |] eqn:Ep; [| done].
      repeat case_match; try done; cbn; (eapply one_policy_replaced; [exact Hm | exact Ep | | cbn; reflexivity]; done).
  - intros i p u u' now interval Hp Ht Hk Hi. unfold RegisterPolicy. rewrite !bool_decide_false by done. cbn [orb].
    rewrite (proj2 (Z.leb_gt _ _)) by done. rewrite (proj2 (existsb_elem _ _)); [done |]. exists p. split.
    + apply list_elem_of_fmap. exists (i, p). split; [done |]. by apply elem_of_map_to_list.
    + unfold same_secret. by rewrite !bool_decide_true.
Qed.
End rotation.

Definition ex_secrets : MemoryStore.t :=
  @secret_run ex_aead [SCreate "s1" (Some ex_nonce) 10 "acme" "db" "old" ""] (MemoryStore.NewMemoryStore (fun _ => ex_key) "p" 0).
Definition ex_policies : Rotation.t := (Rotation.RegisterPolicy "p1" "s1" 100 "acme" "db" 60 Rotation.NewManager).1.

Lemma rotation_takes_effect_witness : exists m' s' r,
  @Rotation.RotateSecret _ (@memory_secrets ex_aead) (Some ex_nonce) "new" 160 "p1" ex_policies ex_secrets = (m', s', Ok r) /\
  SecretEntry.Value <$> @MemoryStore.GetSecret ex_aead "acme" "db" s' = Some "new" /\ RotationResult.NewVersion r = 2%Z /\
  Rotation.CheckRotation 219 "p1" m' = Ok false /\ Rotation.CheckRotation 220 "p1" m' = Ok true.
Proof.
  destruct (@rotation_takes_effect _ (@memory_secrets ex_aead) (@memory_secrets_lawful ex_aead) ex_nonce "new" 160 "p1" ex_policies ex_secrets
    (RotationPolicy.mk "p1" "s1" "acme" "db" 60 true zero_time 160 StatusActive 100 100)
    (SecretEntry.mk "s1" "acme" "db" "old" "passphrase" 1 10 10)
    ltac:(vm_compute; reflexivity) eq_refl eq_refl eq_refl ltac:(vm_compute; reflexivity))
    as (m' & s' & r & e & E & _ & Hg & Hv & He & _ & Hr & _ & Hc).
  exists m', s', r. split; [exact E |].
  change (@MemoryStore.GetSecret ex_aead "acme" "db" s' = Some e) in Hg. rewrite Hg. split; [exact (f_equal Some Hv) |].
  split; [rewrite Hr, He; reflexivity |]. split; rewrite Hc; reflexivity.
Defined.

Lemma one_policy_per_secret_witness :
  Rotation.RegisterPolicy "p2" "s2" 120 "acme" "db" 30 ex_policies = (ex_policies, Err PolicyExists).
Proof.
  exact (proj2 (@one_policy_per_secret _ (@memory_secrets ex_aead) [PRegister "p1" "s1" 100 "acme" "db" 60] ex_secrets)
    "p1" (RotationPolicy.mk "p1" "s1" "acme" "db" 60 true zero_time 160 StatusActive 100 100) "p2" "s2" 120%Z 30%Z
    ltac:(vm_compute; reflexivity) ltac:(done) ltac:(done) ltac:(done)).
Defined.

(** ** Drift *)

Section drift.
Import Detector.
Context (compile : string -> option (string -> bool)) (GetConfig : string -> string -> option ConfigEntry.t).

Definition drift_result (now : time) (r : DriftRule.t) (found : string * bool) : DriftResult.t :=
  DriftResult.mk (DriftRule.ID r) (DriftRule.ConfigKey r) (DriftRule.ExpectedValue r) found.1 found.2 now.
Definition checkable (r : DriftRule.t) : bool := match compare compile GetConfig r with Ok _ => true | Err _ => false end.
Definition outcome (now : time) (r : DriftRule.t) : option DriftResult.t :=
  match compare compile GetConfig r with Ok f => Some (drift_result now r f) | Err _ => None end.

Lemma scan_spec now rs acc d :
  if forallb checkable rs then
    exists d', scan compile GetConfig now rs acc d = (d', Ok (acc ++ omap (outcome now) rs)) /\ rules d' = rules d
  else exists d' e, scan compile GetConfig now rs acc d = (d', Err e) /\ rules d' = rules d.
Proof using Type.
  revert acc d. induction rs as [| r rs IH]; intros acc d; cbn; [exists d; by rewrite app_nil_r |].
  unfold CheckDrift, checkable, outcome. destruct (compare compile GetConfig r) as [[a b] | e]; cbn; [| by exists d, e].
  match goal with |- context [scan _ _ _ _ ?x ?y] => specialize (IH x y) end.
  fold checkable. destruct (forallb _ rs); [| exact IH]. destruct IH as (d' & -> & Hd). exists d'. split; [| done].
  by rewrite <- app_assoc.
Qed.

Lemma omap_of_filter {A B} (f : A -> option B) (p : A -> bool) l :
  omap f (List.filter p l) = omap (fun x => if p x then f x else None) l.
Proof using Type. induction l as [| x l IH]; [done |]. cbn. destruct (p x); cbn; by rewrite IH. Qed.

(** A scan answers for all rules or for none: with every enabled rule
    checkable it answers one result per rule, what was found and whether it drifts;
    but one rule that cannot be checked (no tenant, an unknown comparison, or a
    pattern that does not compile) fails the scan of every other rule, of every
    other tenant, in whatever order the rules are visited. *)
Theorem one_bad_rule_blocks_scan range now d :
  (forall m : gmap string DriftRule.t, range m ≡ₚ (map_to_list m).*2) ->
  match ScanAll compile GetConfig range now d with
  | (_, Ok results) =>
      (forall i r, rules d !! i = Some r -> DriftRule.Enabled r = true -> checkable r = true) /\
      results ≡ₚ omap (outcome now) (List.filter DriftRule.Enabled (map_to_list (rules d)).*2)
  | (_, Err _) => exists i r, rules d !! i = Some r /\ DriftRule.Enabled r = true /\ checkable r = false
  end.
Proof using Type.
  intros Hr. unfold ScanAll. set (rs := List.filter DriftRule.Enabled (range (rules d))).
  assert (Hin : forall r, r ∈ rs <-> DriftRule.Enabled r = true /\ exists i, rules d !! i = Some r).
  { intros r. unfold rs. rewrite list_elem_of_In, filter_In, <- list_elem_of_In, (Hr (rules d)), list_elem_of_fmap. split.
    - intros [([i r'] & -> & Hi%elem_of_map_to_list) He]. split; [done | by exists i].
    - intros [He [i Hi]]. split; [| done]. exists (i, r). split; [done | by apply elem_of_map_to_list]. }
  pose proof (scan_spec now rs [] d) as Hs. destruct (forallb checkable rs) eqn:E.
  - destruct Hs as (d' & -> & _). rewrite forallb_elem in E. split.
    + intros i r Hi He. apply E, Hin. split; [done | by exists i].
    + cbn. unfold rs. rewrite !omap_of_filter. apply omap_Permutation, Hr.
  - destruct Hs as (d' & e & -> & _). apply not_true_iff_false in E. rewrite forallb_elem in E.
    destruct (existsb (fun r => negb (checkable r)) rs) eqn:X.
    + apply existsb_elem in X as (r & [He [i Hi]]%Hin & Hc%negb_true_iff). by exists i, r.
    + destruct E. intros r Hi. rewrite existsb_false in X. by apply negb_false_iff, X.
Qed.
End drift.

(** Two tenants; the second one's rule has a broken pattern. *)
Definition ex_detector : Detector.t :=
  (Detector.RegisterRule "r2" 10 "port" "[" ComparisonRegex "evil" ""
    (Detector.RegisterRule "r1" 10 "port" "80" ComparisonExact "acme" "" Detector.NewDetector).1).1.
Definition ex_lookup (t k : string) : option ConfigEntry.t := Some (ex_config t k "81").

Lemma one_bad_rule_blocks_scan_witness :
  exists d e, Detector.ScanAll (fun _ => None) ex_lookup (fun m => (map_to_list m).*2) 20 ex_detector = (d, Err e) /\
  exists i r, Detector.rules ex_detector !! i = Some r /\ DriftRule.Enabled r = true /\ checkable (fun _ => None) ex_lookup r = false.
Proof.
  pose proof (one_bad_rule_blocks_scan (fun _ => None) ex_lookup (fun m => (map_to_list m).*2) 20 ex_detector (fun m => reflexivity _)) as Hs.
  destruct (Detector.ScanAll _ _ _ _ _) as [d [rs | e]] eqn:E.
  - exfalso. assert (H : (Detector.ScanAll (fun _ => None) ex_lookup (fun m => (map_to_list m).*2) 20 ex_detector).2 = Err InvalidPattern)
      by (vm_compute; reflexivity). rewrite E in H. done.
  - by exists d, e.
Defined.
