(* ===== verification/Auth.v ===== *)
(** * The authentication service ([services/auth-svc/internal]: [auth], [store],
    [service])

    Users, roles, access tokens and refresh tokens.  [AuthStore] is
    [store.MemoryStore], whose operations run under one mutex; [AuthService] is
    [service.Service] over it.  JSON web tokens, bcrypt and SHA-256 are interfaces:
    the classes [JWT] and [PasswordHash] with their laws, and the argument
    [sha256].  An operation reads the clock once, as [now], and takes what is drawn
    at random as arguments: identifiers, the salt, the identifier of a token, and
    the refresh token.  Slices of roles and permissions are values: the store's
    copies share them with their readers, who do not write them.  Not here: gRPC,
    the MySQL and Redis stores. *)

From Stdlib Require Import Ascii.
From S2P Require Import Prelude Float64 GoStrings.
Open Scope go_scope.

(** ** Data ([store.go], [jwt.go]) *)

(** [store.User]; an assignment [x.F = v] is [set_F v x]. *)
Module User.
Record t := mk {
  ID : string; Username : string; Email : string; PasswordHash : string; Status : string;
  RoleIDs : list string; TenantID : string; CreatedAt : time; MustChangePassword : bool;
}.

Definition set_Email (v : string) (r : t) : t :=
  mk (ID r) (Username r) v (PasswordHash r) (Status r) (RoleIDs r) (TenantID r) (CreatedAt r)
     (MustChangePassword r).
Definition set_PasswordHash (v : string) (r : t) : t :=
  mk (ID r) (Username r) (Email r) v (Status r) (RoleIDs r) (TenantID r) (CreatedAt r)
     (MustChangePassword r).
Definition set_Status (v : string) (r : t) : t :=
  mk (ID r) (Username r) (Email r) (PasswordHash r) v (RoleIDs r) (TenantID r) (CreatedAt r)
     (MustChangePassword r).
Definition set_RoleIDs (v : list string) (r : t) : t :=
  mk (ID r) (Username r) (Email r) (PasswordHash r) (Status r) v (TenantID r) (CreatedAt r)
     (MustChangePassword r).
Definition set_MustChangePassword (v : bool) (r : t) : t :=
  mk (ID r) (Username r) (Email r) (PasswordHash r) (Status r) (RoleIDs r) (TenantID r)
     (CreatedAt r) v.
End User.

(** [store.Role]. *)
Module Role.
Record t := mk {
  ID : string; Name : string; Description : string; Permissions : list string; CreatedAt : time;
}.

Definition set_Description (v : string) (r : t) : t :=
  mk (ID r) (Name r) v (Permissions r) (CreatedAt r).
Definition set_Permissions (v : list string) (r : t) : t :=
  mk (ID r) (Name r) (Description r) v (CreatedAt r).
End Role.

(** [store.Permission]. *)
Module Permission.
Record t := mk {
  ID : string; Name : string; Description : string; Group : string;
}.
End Permission.

(** [store.RefreshToken]. *)
Module RefreshToken.
Record t := mk {
  TokenHash : string; UserID : string; TenantID : string; DeviceFP : string; ExpiresAt : time;
  CreatedAt : time;
}.
End RefreshToken.

(** [auth.Claims]. *)
Module Claims.
Record t := mk {
  UserID : string; Username : string; Roles : list string; Permissions : list string;
  TenantID : string; DeviceFP : string; JTI : string; ExpiresAt : time;
}.
End Claims.

(** [authv1.TokenResponse]; a user is sent without the hash, which [toProtoUser] drops. *)
Module TokenResponse.
Record t := mk {
  AccessToken : string; RefreshToken : string; ExpiresIn : Z; User : User.t;
  MustChangePassword : bool; ChangePasswordToken : string;
}.
End TokenResponse.

Definition StatusActive : string := "active".
Definition StatusPending : string := "pending".
Definition StatusRejected : string := "rejected".

(** ** The interfaces *)

(** [golang-jwt] with HS256: a token signed with the secret is accepted from the
    instant it is valid from until it expires.  Claims are encoded as JSON, which
    keeps texts in UTF-8 only. *)
Class JWT := {
  Sign : string -> Claims.t -> time -> string;
  ParseWithClaims : string -> time -> string -> option Claims.t;
  encodable : Claims.t -> Prop;
  Parse_Sign : forall secret c from now, encodable c ->
    ParseWithClaims secret now (Sign secret c from) = if (from <=? now)%Z && (now <? Claims.ExpiresAt c)%Z then Some c else None;
}.

(** [bcrypt], which refuses long passwords. *)
Class PasswordHash := {
  HashPassword : string -> string -> option string;
  VerifyPassword : string -> string -> bool;
  Verify_Hash : forall salt password hash, HashPassword salt password = Some hash -> VerifyPassword hash password = true;
}.

(** ** Tokens ([jwt.go]) *)

Module AuthEngine.
Record t := mk { secret : string; accessTTL : duration; refreshTTL : duration }.
Definition NewEngine := mk.

Section engine.
Context `{JWT}.

(** [jwt.NewNumericDate] cuts instants to seconds. *)
Definition NewNumericDate (t : time) : time := Truncate t second.

Definition IssueTokenWithDeviceFP (jti : string) (now : time) (userID username : string) (roles permissions : list string) (deviceFP : string)
    (ttl : duration) (tenantID : string) (e : t) : option (string * Z) :=
  if (secret e == "") || (ttl <=? 0)%Z then None else
  let tenantID := if tenantID == "" then "default" else tenantID in
  let claims := Claims.mk userID username roles permissions tenantID deviceFP jti (NewNumericDate (now + ttl)%Z) in
  Some (Sign (secret e) claims (NewNumericDate now), f_trunc (Seconds ttl)).

Definition IssueTokenWithTTL jti now userID username tenantID roles permissions ttl (e : t) : option (string * Z) :=
  let tenantID := if tenantID == "" then "default" else tenantID in
  IssueTokenWithDeviceFP jti now userID username roles permissions "" ttl tenantID e.

Definition ValidateToken (now : time) (token : string) (e : t) : option Claims.t :=
  if secret e == "" then None else ParseWithClaims (secret e) now token.
End engine.
End AuthEngine.

(** ** The store ([store.go]) *)

Module AuthStore.
Record t := mk {
  users : gmap string User.t; usersByName : gmap string string; roles : gmap string Role.t; rolesByName : gmap string string;
  permissions : gmap string Permission.t; refreshTokens : gmap string RefreshToken.t; blacklist : gmap string time }.

Definition set_users v n s := mk v n (roles s) (rolesByName s) (permissions s) (refreshTokens s) (blacklist s).
Definition set_roles v n s := mk (users s) (usersByName s) v n (permissions s) (refreshTokens s) (blacklist s).
Definition set_refreshTokens v s := mk (users s) (usersByName s) (roles s) (rolesByName s) (permissions s) v (blacklist s).
Definition set_blacklist v s := mk (users s) (usersByName s) (roles s) (rolesByName s) (permissions s) (refreshTokens s) v.

(** The permissions of [seedPermissions]: identifier and name. *)
Definition seedPermissions : list Permission.t :=
  [Permission.mk "perm-1" "user:read" "Read users" "user"; Permission.mk "perm-2" "user:write" "Create/update users" "user";
   Permission.mk "perm-2b" "user:approve" "Approve/reject user registration" "user"; Permission.mk "perm-3" "user:delete" "Delete users" "user";
   Permission.mk "perm-4" "role:read" "Read roles" "role"; Permission.mk "perm-5" "role:write" "Create/update roles" "role";
   Permission.mk "perm-6" "role:delete" "Delete roles" "role"; Permission.mk "perm-7" "role:assign" "Assign roles to users" "role";
   Permission.mk "perm-8" "permission:read" "Read permissions" "permission"].

Definition add_role (r : Role.t) (s : t) : t := set_roles (<[Role.ID r := r]> (roles s)) (<[Role.Name r := Role.ID r]> (rolesByName s)) s.
Definition add_user (u : User.t) (s : t) : t := set_users (<[User.ID u := u]> (users s)) (<[User.Username u := User.ID u]> (usersByName s)) s.

(** [strings.HasSuffix(p, ":read")] *)
Definition is_read (p : string) : bool := HasSuffix ":read" p.

(** [all] are the names of the permissions in the order of the map. *)
Definition seedAdminRole (now : time) (all : list string) : t -> t := add_role (Role.mk "role-admin" "admin" "Administrator with full access" all now).
Definition seedOperatorRole (now : time) (all : list string) : t -> t :=
  add_role (Role.mk "role-operator" "operator"
    "Operator (read-only within auth-svc catalog; business-plane RBAC decided by controlplane)" (sort_strings (List.filter is_read all)) now).
Definition seedViewerRole (now : time) (all : list string) : t -> t :=
  add_role (Role.mk "role-viewer" "viewer" "Read-only user, view only (default for self-registered users)" (sort_strings (List.filter is_read all)) now).
Definition seedAdminUser (now : time) (hash : string) : t -> t :=
  add_user (User.mk "user-admin" "admin" "admin@opsmesh.io" hash StatusActive ["role-admin"] "" now true).

Definition NewMemoryStore (range : gmap string Permission.t -> list Permission.t) (now : time) (hash : string) : t :=
  let perms : gmap string Permission.t := list_to_map (map (fun p => (Permission.ID p, p)) seedPermissions) in
  let all := map Permission.Name (range perms) in
  seedAdminUser now hash (seedViewerRole now all (seedOperatorRole now all (seedAdminRole now all (mk ∅ ∅ ∅ ∅ perms ∅ ∅)))).

Definition GetUser (id : string) (s : t) : option User.t := users s !! id.
Definition GetUserByUsername (name : string) (s : t) : option User.t := match usersByName s !! name with None => None | Some id => users s !! id end.
Definition ListUsers (range : gmap string User.t -> list User.t) (s : t) : list User.t := range (users s).

Inductive store_error := UserExists | UserMissing | RoleExists | RoleMissing.

(** A missing identifier, instant or status is filled in. *)
Definition CreateUser (uuid : string) (now : time) (u : User.t) (s : t) : t * result store_error User.t :=
  match usersByName s !! User.Username u with
  | Some _ => (s, Err UserExists)
  | None =>
      let u := User.mk (if User.ID u == "" then "user-" +:+ uuid else User.ID u) (User.Username u) (User.Email u) (User.PasswordHash u)
        (if User.Status u == "" then StatusActive else User.Status u) (User.RoleIDs u) (User.TenantID u)
        (if IsZero (User.CreatedAt u) then now else User.CreatedAt u) (User.MustChangePassword u) in
      (add_user u s, Ok u)
  end.

Definition change_user (id : string) (f : User.t -> User.t) (s : t) : t * option store_error :=
  match users s !! id with
  | None => (s, Some UserMissing)
  | Some u => (set_users (<[id := f u]> (users s)) (usersByName s) s, None)
  end.

(** The fields of [u] that are read; [None] is a nil slice. *)
Definition UpdateUser (id email status : string) (roleIDs : option (list string)) : t -> t * option store_error :=
  change_user id (fun existing =>
    let existing := if email != "" then User.set_Email email existing else existing in
    let existing := if status != "" then User.set_Status status existing else existing in
    match roleIDs with Some l => User.set_RoleIDs l existing | None => existing end).

Definition DeleteUser (id : string) (s : t) : t * option store_error :=
  match users s !! id with
  | None => (s, Some UserMissing)
  | Some u => (set_users (delete id (users s)) (delete (User.Username u) (usersByName s)) s, None)
  end.

Definition ChangePassword (userID newHash : string) : t -> t * option store_error :=
  change_user userID (fun u => User.set_MustChangePassword false (User.set_PasswordHash newHash u)).
Definition SetMustChangePassword (userID : string) (b : bool) : t -> t * option store_error := change_user userID (User.set_MustChangePassword b).

Definition GetRole (id : string) (s : t) : option Role.t := roles s !! id.
Definition GetRoleByName (name : string) (s : t) : option Role.t := match rolesByName s !! name with None => None | Some id => roles s !! id end.
Definition ListRoles (range : gmap string Role.t -> list Role.t) (s : t) : list Role.t := range (roles s).
Definition ListPermissions (range : gmap string Permission.t -> list Permission.t) (s : t) : list Permission.t := range (permissions s).

Definition CreateRole (uuid : string) (now : time) (r : Role.t) (s : t) : t * result store_error Role.t :=
  match rolesByName s !! Role.Name r with
  | Some _ => (s, Err RoleExists)
  | None =>
      let r := Role.mk (if Role.ID r == "" then "role-" +:+ uuid else Role.ID r) (Role.Name r) (Role.Description r) (Role.Permissions r)
        (if IsZero (Role.CreatedAt r) then now else Role.CreatedAt r) in
      (add_role r s, Ok r)
  end.

Definition UpdateRole (id description : string) (perms : option (list string)) (s : t) : t * option store_error :=
  match roles s !! id with
  | None => (s, Some RoleMissing)
  | Some existing =>
      let existing := if description != "" then Role.set_Description description existing else existing in
      let existing := match perms with Some l => Role.set_Permissions l existing | None => existing end in
      (set_roles (<[id := existing]> (roles s)) (rolesByName s) s, None)
  end.

Definition DeleteRole (id : string) (s : t) : t * option store_error :=
  match roles s !! id with
  | None => (s, Some RoleMissing)
  | Some r => (set_roles (delete id (roles s)) (delete (Role.Name r) (rolesByName s)) s, None)
  end.

Definition SaveRefreshToken (rt : RefreshToken.t) (s : t) : t := set_refreshTokens (<[RefreshToken.TokenHash rt := rt]> (refreshTokens s)) s.
Definition GetRefreshToken (hash : string) (s : t) : option RefreshToken.t := refreshTokens s !! hash.
Definition DeleteRefreshToken (hash : string) (s : t) : t * bool :=
  (set_refreshTokens (delete hash (refreshTokens s)) s, bool_decide (is_Some (refreshTokens s !! hash))).
Definition DeleteRefreshTokensByUser (userID : string) (s : t) : t * nat :=
  let kept := filter (fun kv => RefreshToken.UserID kv.2 <> userID) (refreshTokens s) in
  (set_refreshTokens kept s, size (refreshTokens s) - size kept).
Definition ConsumeRefreshToken (hash : string) (s : t) : t * option RefreshToken.t :=
  match refreshTokens s !! hash with
  | None => (s, None)
  | Some rt => (set_refreshTokens (delete hash (refreshTokens s)) s, Some rt)
  end.

Definition BlacklistJTI (now : time) (jti : string) (ttl : duration) (s : t) : t := set_blacklist (<[jti := (now + ttl)%Z]> (blacklist s)) s.
Definition IsBlacklisted (now : time) (jti : string) (s : t) : bool :=
  match blacklist s !! jti with None => false | Some expiry => negb (After now expiry) end.
Definition PurgeBlacklist (now : time) (s : t) : t := set_blacklist (filter (fun kv => After now kv.2 = false) (blacklist s)) s.
End AuthStore.

(** ** The service ([service.go]) *)

Inductive auth_error :=
  | ErrInvalidCredentials | ErrUserNotFound | ErrUserExists | ErrRoleNotFound | ErrRoleExists
  | ErrTokenInvalid | ErrTokenRevoked | ErrPasswordMismatch
  | FieldsMissing | HashFailed | IssueFailed | UpdateFailed.

Module AuthService.
Import AuthStore AuthEngine.

Record t := mk { jwtEngine : AuthEngine.t; store : AuthStore.t }.
Definition NewService := mk.
Definition set_store (st : AuthStore.t) (s : t) : t := mk (jwtEngine s) st.

Definition changePasswordTokenTTL : duration := (5 * minute)%Z.

(** What an operation draws at random for tokens: their identifier, and the
    refresh token, which may fail. *)
Record draws := { jti : string; refresh : option string }.

Definition resolveTenantID (tenantID : string) : string := if tenantID == "" then "default" else tenantID.

(** The permissions of the roles, each once. *)
Definition add_new (out : list string) (p : string) : list string := if bool_decide (p ∈ out) then out else out ++ [p].
Definition expandPermissions (u : User.t) (st : AuthStore.t) : list string :=
  foldl add_new [] (concat (omap (fun rid => Role.Permissions <$> GetRole rid st) (User.RoleIDs u))).

Definition toProtoUser (u : User.t) : User.t := User.set_PasswordHash "" u.

Section service.
Context `{JWT} `{PasswordHash} (sha256 : string -> string).

Definition HashRefreshToken : string -> string := sha256.

Definition issueChangePasswordTokens (d : draws) (now : time) (u : User.t) (s : t) : result auth_error TokenResponse.t :=
  let permissions := expandPermissions u (store s) in
  match IssueTokenWithTTL (jti d) now (User.ID u) (User.Username u) (User.TenantID u) (User.RoleIDs u) permissions changePasswordTokenTTL (jwtEngine s) with
  | None => Err IssueFailed
  | Some (accessToken, expiresIn) => Ok (TokenResponse.mk accessToken "" expiresIn (toProtoUser u) true accessToken)
  end.

Definition issueTokens (d : draws) (now : time) (u : User.t) (deviceFP tenantID : string) (s : t) : t * result auth_error TokenResponse.t :=
  let permissions := expandPermissions u (store s) in
  let tenantID := if tenantID == "" then "default" else tenantID in
  match IssueTokenWithDeviceFP (jti d) now (User.ID u) (User.Username u) (User.RoleIDs u) permissions deviceFP (accessTTL (jwtEngine s))
          (User.TenantID u) (jwtEngine s) with
  | None => (s, Err IssueFailed)
  | Some (accessToken, expiresIn) =>
      match refresh d with
      | None => (s, Err IssueFailed)
      | Some refreshToken =>
          let rt := RefreshToken.mk (HashRefreshToken refreshToken) (User.ID u) tenantID deviceFP (now + refreshTTL (jwtEngine s))%Z now in
          (set_store (SaveRefreshToken rt (store s)) s, Ok (TokenResponse.mk accessToken refreshToken expiresIn (toProtoUser u) false ""))
      end
  end.

Definition LoginWithFP (d : draws) (now : time) (username password tenantID deviceFP : string) (s : t) : t * result auth_error TokenResponse.t :=
  match GetUserByUsername username (store s) with
  | None => (s, Err ErrInvalidCredentials)
  | Some u =>
      if User.Status u != StatusActive then (s, Err ErrInvalidCredentials)
      else if negb (VerifyPassword (User.PasswordHash u) password) then (s, Err ErrInvalidCredentials)
      else if User.MustChangePassword u then (s, issueChangePasswordTokens d now u s)
      else issueTokens d now u deviceFP (resolveTenantID tenantID) s
  end.
Definition Login d now username password tenantID : t -> t * result auth_error TokenResponse.t := LoginWithFP d now username password tenantID "".

Definition Logout (now : time) (refreshToken accessToken : string) (s : t) : t :=
  let s := if refreshToken != "" then set_store (DeleteRefreshToken (HashRefreshToken refreshToken) (store s)).1 s else s in
  if accessToken != "" then
    match ValidateToken now accessToken (jwtEngine s) with
    | Some claims =>
        if Claims.JTI claims != "" then
          let ttl := Sub (Claims.ExpiresAt claims) now in
          if (ttl >? 0)%Z then set_store (BlacklistJTI now (Claims.JTI claims) ttl (store s)) s else s
        else s
    | None => s
    end
  else s.

Definition refreshTokenFP (d : draws) (now : time) (refreshToken deviceFP tenantID : string) (s : t) : t * result auth_error TokenResponse.t :=
  let '(st, rt) := ConsumeRefreshToken (HashRefreshToken refreshToken) (store s) in
  let s := set_store st s in
  match rt with
  | None => (s, Err ErrTokenInvalid)
  | Some rt =>
      if After now (RefreshToken.ExpiresAt rt) then (s, Err ErrTokenInvalid)
      else if (RefreshToken.DeviceFP rt != "") && (deviceFP != RefreshToken.DeviceFP rt) then (s, Err ErrTokenInvalid)
      else match GetUser (RefreshToken.UserID rt) (store s) with
      | None => (s, Err ErrTokenInvalid)
      | Some u =>
          if User.Status u != StatusActive then (s, Err ErrTokenInvalid)
          else if User.MustChangePassword u then (s, Err ErrTokenInvalid)
          else
            let tenantID := if tenantID == "" then RefreshToken.TenantID rt else tenantID in
            let tenantID := if tenantID == "" then "default" else tenantID in
            issueTokens d now u deviceFP tenantID s
      end
  end.

Definition ValidateToken (now : time) (token : string) (s : t) : result auth_error Claims.t :=
  match AuthEngine.ValidateToken now token (jwtEngine s) with
  | None => Err ErrTokenInvalid
  | Some claims => if IsBlacklisted now (Claims.JTI claims) (store s) then Err ErrTokenRevoked else Ok claims
  end.

Definition CheckPermission (now : time) (token permission : string) (s : t) : bool :=
  match AuthEngine.ValidateToken now token (jwtEngine s) with
  | None => false
  | Some claims =>
      if IsBlacklisted now (Claims.JTI claims) (store s) then false else existsb (fun p => p == permission) (Claims.Permissions claims)
  end.

(** The creation of a user, and the password after it. *)
Definition create_with_password (uuid salt : string) (now : time) (username password email : string) (roleIDs : list string)
    (status tenantID : string) (mustChange : bool) (s : t) : t * result auth_error User.t :=
  if (username == "") || (password == "") then (s, Err FieldsMissing) else
  match HashPassword salt password with
  | None => (s, Err HashFailed)
  | Some hash =>
      match AuthStore.CreateUser uuid now (User.mk "" username email "" status roleIDs (resolveTenantID tenantID) 0 mustChange) (store s) with
      | (_, Err _) => (s, Err ErrUserExists)
      | (st, Ok _) =>
          match GetUserByUsername username st with
          | None => (set_store st s, Err UpdateFailed)
          | Some u =>
              let '(st, _) := AuthStore.ChangePassword (User.ID u) hash st in
              let st := if mustChange then (SetMustChangePassword (User.ID u) true st).1 else st in
              (set_store st s, Ok (toProtoUser u))
          end
      end
  end.

Definition CreateUser uuid salt now username password email roleIDs mustChange tenantID : t -> t * result auth_error User.t :=
  create_with_password uuid salt now username password email roleIDs "" tenantID mustChange.
Definition RegisterUser uuid salt now username password email roleIDs tenantID : t -> t * result auth_error User.t :=
  create_with_password uuid salt now username password email roleIDs StatusPending tenantID false.

Definition GetUser (id : string) (s : t) : result auth_error User.t :=
  match AuthStore.GetUser id (store s) with None => Err ErrUserNotFound | Some u => Ok (toProtoUser u) end.

Definition UpdateUser (id email status : string) (roleIDs : option (list string)) (s : t) : t * result auth_error User.t :=
  match AuthStore.UpdateUser id email status roleIDs (store s) with
  | (_, Some _) => (s, Err ErrUserNotFound)
  | (st, None) => (set_store st s, GetUser id (set_store st s))
  end.

(** The copy that is changed is written back whole. *)
Definition UpdateUserFields (userID email status : string) (roleIDs : option (list string)) (s : t) : t * result auth_error User.t :=
  match AuthStore.GetUser userID (store s) with
  | None => (s, Err ErrUserNotFound)
  | Some u =>
      let u := if email != "" then User.set_Email email u else u in
      let u := if status != "" then User.set_Status status u else u in
      let u := match roleIDs with Some l => User.set_RoleIDs l u | None => u end in
      UpdateUser userID (User.Email u) (User.Status u) (Some (User.RoleIDs u)) s
  end.

Definition DeleteUser (id : string) (s : t) : t * result auth_error unit :=
  match AuthStore.DeleteUser id (store s) with
  | (_, Some _) => (s, Err ErrUserNotFound)
  | (st, None) => (set_store st s, Ok tt)
  end.

Definition ListUsers range (s : t) : list User.t := map toProtoUser (AuthStore.ListUsers range (store s)).

Definition ChangePassword (salt userID oldPassword newPassword : string) (s : t) : t * result auth_error unit :=
  match AuthStore.GetUser userID (store s) with
  | None => (s, Err ErrUserNotFound)
  | Some u =>
      if negb (VerifyPassword (User.PasswordHash u) oldPassword) then (s, Err ErrPasswordMismatch)
      else match HashPassword salt newPassword with
      | None => (s, Err HashFailed)
      | Some newHash => (set_store (AuthStore.ChangePassword userID newHash (store s)).1 s, Ok tt)
      end
  end.

Definition CreateRole (uuid : string) (now : time) (name description : string) (permissions : list string) (s : t) : t * result auth_error Role.t :=
  if name == "" then (s, Err FieldsMissing) else
  match AuthStore.CreateRole uuid now (Role.mk "" name description permissions 0) (store s) with
  | (_, Err _) => (s, Err ErrRoleExists)
  | (st, Ok r) => (set_store st s, Ok r)
  end.

Definition GetRole (id : string) (s : t) : result auth_error Role.t :=
  match AuthStore.GetRole id (store s) with None => Err ErrRoleNotFound | Some r => Ok r end.

Definition UpdateRole (id description : string) (permissions : option (list string)) (s : t) : t * result auth_error Role.t :=
  match AuthStore.UpdateRole id description permissions (store s) with
  | (_, Some _) => (s, Err ErrRoleNotFound)
  | (st, None) => (set_store st s, GetRole id (set_store st s))
  end.

Definition UpdateRoleFields (roleID description : string) (permissions : option (list string)) (s : t) : t * result auth_error Role.t :=
  match AuthStore.GetRole roleID (store s) with
  | None => (s, Err ErrRoleNotFound)
  | Some r =>
      let r := if description != "" then Role.set_Description description r else r in
      let r := match permissions with Some l => Role.set_Permissions l r | None => r end in
      UpdateRole roleID (Role.Description r) (Some (Role.Permissions r)) s
  end.

Definition DeleteRole (id : string) (s : t) : t * result auth_error unit :=
  match AuthStore.DeleteRole id (store s) with
  | (_, Some _) => (s, Err ErrRoleNotFound)
  | (st, None) => (set_store st s, Ok tt)
  end.

Definition ListRoles range (s : t) : list Role.t := AuthStore.ListRoles range (store s).

Definition AssignRole (userID roleID : string) (s : t) : t * result auth_error unit :=
  match AuthStore.GetUser userID (store s), AuthStore.GetRole roleID (store s) with
  | None, _ => (s, Err ErrUserNotFound)
  | _, None => (s, Err ErrRoleNotFound)
  | Some u, Some _ =>
      let roleIDs := if bool_decide (roleID ∈ User.RoleIDs u) then User.RoleIDs u else User.RoleIDs u ++ [roleID] in
      match AuthStore.UpdateUser userID (User.Email u) (User.Status u) (Some roleIDs) (store s) with
      | (_, Some _) => (s, Err UpdateFailed)
      | (st, None) => (set_store st s, Ok tt)
      end
  end.

Definition ListPermissions range (s : t) : list Permission.t := AuthStore.ListPermissions range (store s).
End service.
End AuthService.
