(* ===== verification/AuthGateway.v ===== *)
(** * The gateway of the authentication service
    ([services/auth-svc/internal/http]: [guard], [devicefp], [password], [gateway])

    The guard against guessing, known devices, the password policy, and the
    handlers of logins, sessions, users and roles over [AuthService].  Guard and
    devices are in memory, as without Redis, and no session store is set.  A request
    is what a handler reads of it, with the fingerprint of its device; an answer is
    its code, the cookies it sets and its body.  A handler is one step; the guard,
    the service and the store have locks of their own, so that handlers of two
    requests can interleave, which is not followed here. *)

From Stdlib Require Import Ascii.
From S2P Require Import Prelude Float64 GoStrings Auth.
Open Scope go_scope.

(** ** The guard ([guard.go]) *)

Definition guardRateBurst : float64 := f_of_int 5.
Definition guardRateRefill : float64 := f_div (f_of_int 1) (f_of_int 6).
Definition guardMaxFails : Z := 5.
Definition guardFailWindow : duration := (15 * minute)%Z.
Definition guardLockDur : duration := (15 * minute)%Z.

Module LoginGuard.
(** [guardRateRec] and [guardFailRec]. *)
Record bucket := { tokens : float64; last : time }.
Record failures := { fails : Z; windowAt : time; lockedTo : time }.
Record t := mk { ips : gmap string bucket; failed : gmap string failures }.
Definition newLoginGuard : t := mk ∅ ∅.

(** Refilling a bucket up to its size. *)
Definition refill (now : time) (b : bucket) : float64 :=
  let tokens := f_add (tokens b) (f_mul (Seconds (Sub now (last b))) guardRateRefill) in
  if f_lt guardRateBurst tokens then guardRateBurst else tokens.

Definition allowIP (now : time) (ip : string) (g : t) : t * bool :=
  let b := default {| tokens := guardRateBurst; last := now |} (ips g !! ip) in
  let tokens := refill now b in
  if f_lt tokens f_one then (mk (<[ip := {| tokens := tokens; last := now |}]> (ips g)) (failed g), false)
  else (mk (<[ip := {| tokens := f_sub tokens f_one; last := now |}]> (ips g)) (failed g), true).

Definition accountLocked (now : time) (username : string) (g : t) : bool :=
  match failed g !! username with
  | None => false
  | Some rec => negb (IsZero (lockedTo rec) || After now (lockedTo rec))
  end.

(** [GuardStatus]: locked, seconds to wait, failures, and the window in seconds. *)
Definition Status (now : time) (username : string) (g : t) : bool * Z * Z * Z :=
  let locked := accountLocked now username g in
  (locked, if locked then (guardLockDur / second)%Z else 0%Z,
   match failed g !! username with Some rec => if (Sub now (windowAt rec) <=? guardFailWindow)%Z then fails rec else 0%Z | None => 0%Z end,
   (guardFailWindow / second)%Z).

(** The record to count in. *)
Definition window_of (now : time) (rec : option failures) : failures :=
  match rec with
  | Some rec => if (Sub now (windowAt rec) >? guardFailWindow)%Z then {| fails := 0; windowAt := now; lockedTo := 0 |} else rec
  | None => {| fails := 0; windowAt := now; lockedTo := 0 |}
  end.
Definition counted (now : time) (rec : failures) : failures :=
  let fails := (fails rec + 1)%Z in
  {| fails := fails; windowAt := windowAt rec; lockedTo := if (fails >=? guardMaxFails)%Z then (now + guardLockDur)%Z else lockedTo rec |}.

Definition recordFailMemory (now : time) (username : string) (g : t) : t :=
  mk (ips g) (<[username := counted now (window_of now (failed g !! username))]> (failed g)).
Definition recordFail := recordFailMemory.
Definition recordSuccess (username : string) (g : t) : t := mk (ips g) (delete username (failed g)).
End LoginGuard.

(** ** Devices ([devicefp.go]) *)

(** [X-Device-FP], or the hash of the browser, the address and the TLS
    fingerprint. *)
Definition computeDeviceFP (sha256 : string -> string) (ua ip tlsFP : string) : string :=
  sha256 (ua +:+ String "031"%char (ip +:+ String "031"%char tlsFP)).
Definition collectDeviceFP (sha256 : string -> string) (header ua ip tls : string) : string :=
  if TrimSpace header != "" then TrimSpace header else computeDeviceFP sha256 ua ip (TrimSpace tls).

Module DeviceFP.
Record t := mk { enabled : bool; known : gmap string (gmap string time) }.
Definition newDeviceFPManager (enabled : bool) : t := mk enabled ∅.

Definition isKnownDevice (userID fp : string) (m : t) : bool :=
  if (fp == "") || (userID == "") then true else
  match known m !! userID with None => false | Some devices => bool_decide (is_Some (devices !! fp)) end.
Definition registerDevice (now : time) (userID fp : string) (m : t) : t :=
  if (fp == "") || (userID == "") then m else
  mk (enabled m) (<[userID := <[fp := now]> (default ∅ (known m !! userID))]> (known m)).
(** Whether it is known, and whether a second factor is asked for. *)
Definition checkAndRegister (now : time) (userID fp : string) (m : t) : t * (bool * bool) :=
  if negb (enabled m) || (fp == "") then (m, (true, false))
  else if isKnownDevice userID fp m then (m, (true, false))
  else (registerDevice now userID fp m, (false, true)).
End DeviceFP.

(** ** Passwords ([password.go]) *)

Module PasswordPolicy.
Record t := mk {
  MinLen : Z; RequireUpper : bool; RequireLower : bool; RequireDigit : bool; RequireSpecial : bool; Blacklist : option (list string) }.
End PasswordPolicy.

Definition defaultCommonPasswords : list string :=
  ["123456"; "password"; "123456789"; "12345678"; "12345"; "1234567"; "1234567890"; "qwerty"; "abc123"; "111111"; "123123";
   "admin"; "letmein"; "monkey"; "1234"; "dragon"; "master"; "666666"; "!@#$%^&*"; "aaa111"; "trustno1"; "welcome";
   "shadow"; "superman"; "michael"; "football"; "baseball"; "iloveyou"; "sunshine"; "princess"; "charlie"; "donald";
   "password1"; "qwerty123"; "welcome1"; "admin123"; "letmein1"; "changeme"; "P@ssw0rd"; "Passw0rd"; "Password1";
   "1q2w3e4r"; "qwerty1"; "123qwe"; "1qaz2wsx"; "zxcvbnm"; "asdfghjkl"; "000000"; "654321"; "123123123"; "abcdef";
   "abcdefg"; "abcdef123"; "test"; "test123"; "guest"; "guest123"; "root"; "root123"; "pass"; "pass123"; "pass1234";
   "123456a"; "123456abc"; "abc12345"; "a1b2c3d4"; "1a2b3c4d"; "q1w2e3r4"; "z1x2c3v4"; "11111111"; "00000000"; "88888888";
   "99999999"; "77777777"; "66666666"; "55555555"; "44444444"; "33333333"; "22222222"; "11111111"; "abcd1234"; "1234abcd";
   "a123456"; "aa123456"; "aaa12345"; "abc123abc"; "password12"; "password123"; "qwerty12"; "qwerty1234"; "admin1234";
   "administrator"; "administrator123"; "letmein123"; "welcome123"; "changeme123"; "P@ssword1"; "Pa$$w0rd"; "P@ssw0rd1";
   "Welcome1!23"; "Changeme1!23"; "Password1!23"; "Qwerty1!234"; "Admin1!2345"; "Letmein1!23"; "Abc123!@#45";
   "Test1!234567"].

Definition defaultPasswordPolicy : PasswordPolicy.t := PasswordPolicy.mk 12 true true true true (Some defaultCommonPasswords).

Inductive weakness := TooShort (minLen : Z) | NoUpper | NoLower | NoDigit | NoSpecial | TooCommon.

Definition in_range (a b c : ascii) : bool := (nat_of_ascii a <=? nat_of_ascii c)%nat && (nat_of_ascii c <=? nat_of_ascii b)%nat.
Definition is_upper : ascii -> bool := in_range "A" "Z".
Definition is_lower : ascii -> bool := in_range "a" "z".
(** A rune beyond ASCII is a special character, as its bytes are. *)
Definition is_special (c : ascii) : bool := negb (is_upper c || is_lower c || in_range "0" "9" c).
Definition any_char (p : ascii -> bool) (s : string) : bool := negb (all_chars (fun c => negb (p c)) s).

(** A policy of zeros asks for everything. *)
Definition filled (p : PasswordPolicy.t) : PasswordPolicy.t :=
  if (PasswordPolicy.MinLen p =? 0)%Z && negb (PasswordPolicy.RequireUpper p) && negb (PasswordPolicy.RequireLower p) &&
     negb (PasswordPolicy.RequireDigit p) && negb (PasswordPolicy.RequireSpecial p)
  then PasswordPolicy.mk 0 true true true true (PasswordPolicy.Blacklist p) else p.

Definition validatePasswordWithPolicy (ToLower : string -> string) (pw : string) (policy : option PasswordPolicy.t) : option weakness :=
  let policy := default defaultPasswordPolicy policy in
  let minLen := if (PasswordPolicy.MinLen policy <=? 0)%Z then 12%Z else PasswordPolicy.MinLen policy in
  let policy := filled policy in
  if (Z.of_nat (String.length pw) <? minLen)%Z then Some (TooShort minLen)
  else if PasswordPolicy.RequireUpper policy && negb (any_char is_upper pw) then Some NoUpper
  else if PasswordPolicy.RequireLower policy && negb (any_char is_lower pw) then Some NoLower
  else if PasswordPolicy.RequireDigit policy && negb (any_char (in_range "0" "9") pw) then Some NoDigit
  else if PasswordPolicy.RequireSpecial policy && negb (any_char is_special pw) then Some NoSpecial
  else if existsb (fun bad => ToLower pw == ToLower bad) (default defaultCommonPasswords (PasswordPolicy.Blacklist policy)) then Some TooCommon
  else None.

Definition validateStrongPassword (ToLower : string -> string) (pw : string) : option weakness :=
  validatePasswordWithPolicy ToLower pw (Some defaultPasswordPolicy).

(** ** Requests and answers *)

Module Request.
Record t := mk { Method : string; IP : string; DeviceFP : string; ATCookie : string; RTCookie : string; Authorization : string }.
End Request.

Definition MethodGet : string := "GET".
Definition MethodPost : string := "POST".
Definition MethodPut : string := "PUT".
Definition MethodDelete : string := "DELETE".

Inductive body :=
  | BError (msg : string) | BWeak (w : weakness) | BService (e : auth_error) | BStatus (status : string)
  | BLogin (user : User.t) (permissions : list string) (mustChange : bool) (changePasswordToken : string) (needMFA hasFP : bool)
  | BRegistered (userID : string) | BUser (user : User.t) (permissions : list string) | BMe (user : User.t) (tenant : string) (permissions : list string)
  | BUsers (users : list (User.t * list string)) | BRole (r : Role.t) | BRoles (rs : list Role.t) | BPermissions (ps : list Permission.t)
  | BRevoked (userID username : string) (deleted : nat).

(** A cookie is set to a value for some seconds, or left as it is. *)
Module Response.
Record t := mk { Code : Z; AT : option (string * Z); RT : option (string * Z); Body : body }.
Definition plain (code : Z) (b : body) : t := mk code None None b.
Definition error (code : Z) (msg : string) : t := plain code (BError msg).
Definition cleared (code : Z) (b : body) : t := mk code (Some ("", (-1)%Z)) (Some ("", (-1)%Z)) b.
End Response.

(** ** The handlers ([gateway.go]) *)

Definition week_seconds : Z := (7 * 24 * 3600)%Z.

Module Gateway.
Import Response.
Record t := mk { svc : AuthService.t; publicRegister : bool; guard : LoginGuard.t; deviceFP : DeviceFP.t }.
Definition NewGateway (s : AuthService.t) : t := mk s true LoginGuard.newLoginGuard (DeviceFP.newDeviceFPManager false).
Definition NewGatewayWithConfig (s : AuthService.t) (publicRegister deviceFPEnabled : bool) : t :=
  mk s publicRegister LoginGuard.newLoginGuard (DeviceFP.newDeviceFPManager deviceFPEnabled).
Definition set_svc (s : AuthService.t) (g : t) : t := mk s (publicRegister g) (guard g) (deviceFP g).
Definition set_guard (v : LoginGuard.t) (g : t) : t := mk (svc g) (publicRegister g) v (deviceFP g).
Definition set_deviceFP (v : DeviceFP.t) (g : t) : t := mk (svc g) (publicRegister g) (guard g) v.
Definition store (g : t) : AuthStore.t := AuthService.store (svc g).

(** [clientIP]: what precedes the last colon of the address. *)
Fixpoint cut_last_colon (s : string) : option string :=
  match s with
  | "" => None
  | String c s' => match cut_last_colon s' with Some a => Some (String c a) | None => if c == ":"%char then Some "" else None end
  end.
Definition clientIP (addr : string) : string := match cut_last_colon addr with Some "" | None => addr | Some host => host end.

Definition bearerOrCookie (r : Request.t) : string :=
  if HasPrefix "Bearer " (Request.Authorization r) then TrimPrefix "Bearer " (Request.Authorization r) else Request.ATCookie r.

Section gateway.
Context `{JWT} `{PasswordHash} (sha256 ToLower : string -> string).
(** The orders in which the maps are visited. *)
Context (range : gmap string Role.t -> list Role.t) (range_users : gmap string User.t -> list User.t)
  (range_permissions : gmap string Permission.t -> list Permission.t).

Definition effectivePermissions (roleIDs : list string) (g : t) : list string :=
  if roleIDs == [] then [] else
  foldl AuthService.add_new [] (concat (map Role.Permissions (List.filter (fun r => bool_decide (Role.ID r ∈ roleIDs)) (AuthStore.ListRoles range (store g))))).

Definition set_session (resp : TokenResponse.t) (code : Z) (b : body) : Response.t :=
  Response.mk code (Some (TokenResponse.AccessToken resp, TokenResponse.ExpiresIn resp))
    (if TokenResponse.RefreshToken resp != "" then Some (TokenResponse.RefreshToken resp, week_seconds) else None) b.

Definition allow (now : time) (r : Request.t) (g : t) : t * bool :=
  let '(gd, ok) := LoginGuard.allowIP now (Request.IP r) (guard g) in (set_guard gd g, ok).

Definition handleLogin (d : AuthService.draws) (now : time) (r : Request.t) (credentials : option (string * string)) (g : t) : t * Response.t :=
  if Request.Method r != MethodPost then (g, error 405 "method not allowed") else
  match credentials with
  | None => (g, error 400 "username and password are required")
  | Some (username, password) =>
      if (username == "") || (password == "") then (g, error 400 "username and password are required") else
      let '(g, ok) := allow now r g in
      if negb ok then (g, error 429 "too many attempts from this IP")
      else if LoginGuard.accountLocked now username (guard g) then (g, error 429 "account temporarily locked")
      else
        let fp := Request.DeviceFP r in
        match AuthService.LoginWithFP sha256 d now username password "" fp (svc g) with
        | (s, Err _) => (set_guard (LoginGuard.recordFail now username (guard g)) (set_svc s g), error 401 "invalid credentials")
        | (s, Ok resp) =>
            let g := set_guard (LoginGuard.recordSuccess username (guard g)) (set_svc s g) in
            let '(fps, (_, needMFA)) := DeviceFP.checkAndRegister now (User.ID (TokenResponse.User resp)) fp (deviceFP g) in
            let g := set_deviceFP fps g in
            (g, set_session resp 200 (BLogin (TokenResponse.User resp) (effectivePermissions (User.RoleIDs (TokenResponse.User resp)) g)
              (TokenResponse.MustChangePassword resp) (TokenResponse.ChangePasswordToken resp) needMFA (fp != "")))
        end
  end.

Definition handleLogout (now : time) (r : Request.t) (g : t) : t * Response.t :=
  if Request.Method r != MethodPost then (g, error 405 "method not allowed") else
  (set_svc (AuthService.Logout sha256 now (Request.RTCookie r) (Request.ATCookie r) (svc g)) g, cleared 200 (BStatus "ok")).

Definition handleRefresh (d : AuthService.draws) (now : time) (r : Request.t) (g : t) : t * Response.t :=
  if Request.Method r != MethodPost then (g, error 405 "method not allowed")
  else if Request.RTCookie r == "" then (g, error 401 "no refresh token")
  else match AuthService.refreshTokenFP sha256 d now (Request.RTCookie r) (Request.DeviceFP r) "" (svc g) with
  | (s, Err _) => (set_svc s g, cleared 401 (BError "refresh failed"))
  | (s, Ok resp) =>
      (set_svc s g, Response.mk 200 (Some (TokenResponse.AccessToken resp, TokenResponse.ExpiresIn resp))
         (Some (TokenResponse.RefreshToken resp, week_seconds)) (BStatus "ok"))
  end.

(** The fields of a registration: name, password, address and tenant. *)
Definition handleRegister (uuid salt : string) (now : time) (r : Request.t) (b : option (string * string * string * string)) (g : t) : t * Response.t :=
  if Request.Method r != MethodPost then (g, error 405 "method not allowed")
  else if negb (publicRegister g) then (g, error 403 "public registration is disabled")
  else match b with
  | None => (g, error 400 "username and password are required")
  | Some (username, password, email, tenantID) =>
      if (username == "") || (password == "") then (g, error 400 "username and password are required") else
      let '(g, ok) := allow now r g in
      if negb ok then (g, error 429 "too many attempts from this IP") else
      match validateStrongPassword ToLower password with
      | Some w => (g, plain 400 (BWeak w))
      | None =>
          match AuthStore.GetRole "role-viewer" (store g) with
          | None => (g, error 500 "default role missing, registration refused")
          | Some _ =>
              match AuthService.RegisterUser uuid salt now username password email ["role-viewer"] tenantID (svc g) with
              | (s, Err ErrUserExists) => (set_svc s g, error 409 "username already exists")
              | (s, Err e) => (set_svc s g, plain 500 (BService e))
              | (s, Ok u) => (set_svc s g, plain 201 (BRegistered (User.ID u)))
              end
          end
      end
  end.

(** Old and new password, and the token of a first login. *)
Definition handleChangePassword (d : AuthService.draws) (salt : string) (now : time) (r : Request.t) (b : option (string * string * string)) (g : t)
    : t * Response.t :=
  if Request.Method r != MethodPost then (g, error 405 "method not allowed") else
  let '(g, ok) := allow now r g in
  if negb ok then (g, error 429 "too many attempts from this IP") else
  match b with
  | None => (g, error 400 "oldPassword and newPassword are required")
  | Some (oldPassword, newPassword, changePasswordToken) =>
      if (oldPassword == "") || (newPassword == "") then (g, error 400 "oldPassword and newPassword are required")
      else if oldPassword == newPassword then (g, error 400 "new password must differ from old password")
      else match validateStrongPassword ToLower newPassword with
      | Some w => (g, plain 400 (BWeak w))
      | None =>
          let token := if changePasswordToken == "" then bearerOrCookie r else changePasswordToken in
          if token == "" then (g, error 401 "authentication required") else
          match AuthService.ValidateToken now token (svc g) with
          | Err _ => (g, error 401 "invalid or expired token")
          | Ok claims =>
              let userID := Claims.UserID claims in
              match AuthService.ChangePassword salt userID oldPassword newPassword (svc g) with
              | (s, Err ErrPasswordMismatch) => (set_svc s g, error 401 "old password does not match")
              | (s, Err e) => (set_svc s g, plain 500 (BService e))
              | (s, Ok _) =>
                  let g := set_svc s g in
                  if changePasswordToken != "" then
                    match AuthStore.GetUser userID (store g) with
                    | None => (g, error 401 "user not found")
                    | Some u =>
                        match AuthService.LoginWithFP sha256 d now (User.Username u) newPassword "" (Request.DeviceFP r) (svc g) with
                        | (s, Err _) => (set_svc s g, cleared 500 (BError "password changed, but session issue failed; please log in again"))
                        | (s, Ok resp) =>
                            let g := set_svc s g in
                            (g, set_session resp 200 (BUser (TokenResponse.User resp) (effectivePermissions (User.RoleIDs (TokenResponse.User resp)) g)))
                        end
                    end
                  else (g, plain 200 (BStatus "password changed"))
              end
          end
      end
  end.

Definition handleMe (now : time) (r : Request.t) (g : t) : Response.t :=
  if Request.Method r != MethodGet then error 405 "method not allowed" else
  let token := bearerOrCookie r in
  if token == "" then error 401 "authentication required" else
  match AuthService.ValidateToken now token (svc g) with
  | Err _ => error 401 "invalid or expired token"
  | Ok claims =>
      match AuthStore.GetUser (Claims.UserID claims) (store g) with
      | None => error 401 "user not found"
      | Some u =>
          if User.MustChangePassword u then error 403 "password change required (MUST_CHANGE_PASSWORD)"
          else plain 200 (BMe (AuthService.toProtoUser u) (Claims.TenantID claims) (effectivePermissions (User.RoleIDs u) g))
      end
  end.

(** [None] lets the request pass. *)
Definition requirePermission (now : time) (r : Request.t) (permission : string) (g : t) : option Response.t :=
  let token := bearerOrCookie r in
  if token == "" then Some (error 401 "authentication required") else
  match AuthService.ValidateToken now token (svc g) with
  | Err _ => Some (error 401 "invalid or expired token")
  | Ok claims =>
      match AuthStore.GetUser (Claims.UserID claims) (store g) with
      | None => Some (error 401 "user is not active")
      | Some u =>
          if User.Status u != StatusActive then Some (error 401 "user is not active")
          else if User.MustChangePassword u then Some (error 403 "password change required")
          else if permission == "" then None
          else if existsb (fun p => p == permission) (Claims.Permissions claims) then None
          else Some (error 403 "insufficient permissions")
      end
  end.

Definition management_permission (resource method : string) : string :=
  if method == MethodGet then (if (resource == "role") || (resource == "permission") then "" else resource +:+ ":read")
  else if method == MethodDelete then resource +:+ ":delete"
  else resource +:+ ":write".

Definition managementHandler (now : time) (resource : string) (next : t -> t * Response.t) (r : Request.t) (g : t) : t * Response.t :=
  match requirePermission now r (management_permission resource (Request.Method r)) g with Some resp => (g, resp) | None => next g end.

(** The fields of a new user: name, password, address, roles, whether the password
    has to be changed, and the tenant. *)
Definition handleUsers (uuid salt : string) (now : time) (r : Request.t) (b : option (string * string * string * list string * bool * string)) (g : t)
    : t * Response.t :=
  if Request.Method r == MethodGet then
    (g, plain 200 (BUsers (map (fun u => (u, effectivePermissions (User.RoleIDs u) g)) (AuthService.ListUsers range_users (svc g)))))
  else if Request.Method r == MethodPost then
    match b with
    | None => (g, error 400 "username and password are required")
    | Some (username, password, email, roles, mustChange, tenantID) =>
        if (username == "") || (password == "") then (g, error 400 "username and password are required") else
        match validateStrongPassword ToLower password with
        | Some w => (g, plain 400 (BWeak w))
        | None =>
            match find_first (fun rid => (rid != "") && bool_decide (AuthStore.GetRole rid (store g) = None)) roles with
            | Some rid => (g, error 400 ("unknown role id: " +:+ rid))
            | None =>
                match AuthService.CreateUser uuid salt now username password email roles mustChange tenantID (svc g) with
                | (s, Err ErrUserExists) => (set_svc s g, error 409 "username already exists")
                | (s, Err e) => (set_svc s g, plain 500 (BService e))
                | (s, Ok _) => (set_svc s g, plain 201 (BStatus "created"))
                end
            end
        end
    end
  else (g, error 405 "method not allowed").

(** Address, status and roles; [None] is a body that does not parse. *)
Definition handleUpdateUser (now : time) (r : Request.t) (b : option (string * string * option (list string))) (id : string) (g : t) : t * Response.t :=
  match requirePermission now r "user:write" g with
  | Some resp => (g, resp)
  | None =>
      match b with
      | None => (g, error 400 "invalid request body")
      | Some (email, status, roles) =>
          match (if status != "" then requirePermission now r "user:approve" g else None) with
          | Some resp => (g, resp)
          | None =>
              match AuthService.UpdateUserFields id email status roles (svc g) with
              | (s, Err _) => (set_svc s g, error 404 "user not found")
              | (s, Ok u) => (set_svc s g, plain 200 (BUser u []))
              end
          end
      end
  end.

(** [POST {id}/revoke-sessions] *)
Definition revokeSessions (now : time) (r : Request.t) (rest : string) (g : t) : t * Response.t :=
  if Request.Method r != MethodPost then (g, error 405 "method not allowed") else
  match requirePermission now r "user:write" g with
  | Some resp => (g, resp)
  | None =>
      let id := TrimSuffix "/revoke-sessions" rest in
      match AuthStore.GetUser id (store g) with
      | None => (g, error 404 "user not found")
      | Some u =>
          let '(st, n) := AuthStore.DeleteRefreshTokensByUser (User.ID u) (store g) in
          (set_svc (AuthService.set_store st (svc g)) g, plain 200 (BRevoked (User.ID u) (User.Username u) n))
      end
  end.

(** [POST {id}/approve] and [POST {id}/reject] *)
Definition decideUser (now : time) (r : Request.t) (rest : string) (g : t) : t * Response.t :=
  if Request.Method r != MethodPost then (g, error 405 "method not allowed") else
  match requirePermission now r "user:approve" g with
  | Some resp => (g, resp)
  | None =>
      let id := TrimSuffix "/reject" (TrimSuffix "/approve" rest) in
      match AuthStore.GetUser id (store g) with
      | None => (g, error 404 "user not found")
      | Some u =>
          if User.Status u != StatusPending then (g, error 409 "only pending users can be approved/rejected") else
          let status := if HasSuffix "/reject" rest then StatusRejected else StatusActive in
          match AuthStore.UpdateUser id (User.Email u) status (Some (User.RoleIDs u)) (store g) with
          | (_, Some _) => (g, plain 500 (BService UpdateFailed))
          | (st, None) => (set_svc (AuthService.set_store st (svc g)) g, plain 200 (BStatus status))
          end
      end
  end.

(** [rest] is the path after [/api/v1/users/]. *)
Definition handleUserDetail (now : time) (r : Request.t) (b : option (string * string * option (list string))) (rest : string) (g : t) : t * Response.t :=
  if rest == "" then (g, error 404 "not found")
  else if HasSuffix "/revoke-sessions" rest then revokeSessions now r rest g
  else if HasSuffix "/approve" rest || HasSuffix "/reject" rest then decideUser now r rest g
  else if Request.Method r == MethodPut then handleUpdateUser now r b rest g
  else if Request.Method r == MethodGet then
    match AuthStore.GetUser rest (store g) with
    | None => (g, error 404 "user not found")
    | Some u => (g, plain 200 (BUser (AuthService.toProtoUser u) []))
    end
  else if Request.Method r == MethodDelete then
    match AuthService.DeleteUser rest (svc g) with
    | (s, Err _) => (set_svc s g, error 404 "user not found")
    | (s, Ok _) => (set_svc s g, plain 200 (BStatus "deleted"))
    end
  else (g, error 405 "method not allowed").

(** Name, description and permissions. *)
Definition handleRoles (uuid : string) (now : time) (r : Request.t) (b : option (string * string * list string)) (g : t) : t * Response.t :=
  if Request.Method r == MethodGet then (g, plain 200 (BRoles (AuthService.ListRoles range (svc g))))
  else if Request.Method r == MethodPost then
    match b with
    | None => (g, error 400 "name is required")
    | Some (name, description, perms) =>
        if name == "" then (g, error 400 "name is required") else
        match AuthService.CreateRole uuid now name description perms (svc g) with
        | (s, Err ErrRoleExists) => (set_svc s g, error 409 "role already exists")
        | (s, Err e) => (set_svc s g, plain 500 (BService e))
        | (s, Ok _) => (set_svc s g, plain 201 (BStatus "created"))
        end
    end
  else (g, error 405 "method not allowed").

Definition handleUpdateRole (now : time) (r : Request.t) (b : option (string * option (list string))) (id : string) (g : t) : t * Response.t :=
  match requirePermission now r "role:write" g with
  | Some resp => (g, resp)
  | None =>
      match b with
      | None => (g, error 400 "invalid request body")
      | Some (description, perms) =>
          match AuthService.UpdateRoleFields id description perms (svc g) with
          | (s, Err _) => (set_svc s g, error 404 "role not found")
          | (s, Ok role) => (set_svc s g, plain 200 (BRole role))
          end
      end
  end.

Definition handleRoleDetail (now : time) (r : Request.t) (b : option (string * option (list string))) (rest : string) (g : t) : t * Response.t :=
  if rest == "" then (g, error 404 "not found")
  else if Request.Method r == MethodPut then handleUpdateRole now r b rest g
  else if Request.Method r == MethodGet then
    match AuthService.GetRole rest (svc g) with
    | Err _ => (g, error 404 "role not found")
    | Ok role => (g, plain 200 (BRole role))
    end
  else if Request.Method r == MethodDelete then
    match AuthService.DeleteRole rest (svc g) with
    | (s, Err _) => (set_svc s g, error 404 "role not found")
    | (s, Ok _) => (set_svc s g, plain 200 (BStatus "deleted"))
    end
  else (g, error 405 "method not allowed").

Definition handlePermissions (r : Request.t) (g : t) : t * Response.t :=
  if Request.Method r != MethodGet then (g, error 405 "method not allowed")
  else (g, plain 200 (BPermissions (AuthService.ListPermissions range_permissions (svc g)))).

(** ** The routes *)

(** A request with its path, the instant it is served, what it draws and its body. *)
Inductive call :=
  | CLogin (d : AuthService.draws) (now : time) (r : Request.t) (b : option (string * string))
  | CLogout (now : time) (r : Request.t)
  | CRefresh (d : AuthService.draws) (now : time) (r : Request.t)
  | CRegister (uuid salt : string) (now : time) (r : Request.t) (b : option (string * string * string * string))
  | CChangePassword (d : AuthService.draws) (salt : string) (now : time) (r : Request.t) (b : option (string * string * string))
  | CMe (now : time) (r : Request.t)
  | CUsers (uuid salt : string) (now : time) (r : Request.t) (b : option (string * string * string * list string * bool * string))
  | CUser (now : time) (r : Request.t) (b : option (string * string * option (list string))) (rest : string)
  | CRoles (uuid : string) (now : time) (r : Request.t) (b : option (string * string * list string))
  | CRole (now : time) (r : Request.t) (b : option (string * option (list string))) (rest : string)
  | CPermissions (now : time) (r : Request.t).

(** [RegisterRoutes] *)
Definition serve (c : call) (g : t) : t * Response.t :=
  match c with
  | CLogin d now r b => handleLogin d now r b g
  | CLogout now r => handleLogout now r g
  | CRefresh d now r => handleRefresh d now r g
  | CRegister uuid salt now r b => handleRegister uuid salt now r b g
  | CChangePassword d salt now r b => handleChangePassword d salt now r b g
  | CMe now r => (g, handleMe now r g)
  | CUsers uuid salt now r b => managementHandler now "user" (handleUsers uuid salt now r b) r g
  | CUser now r b rest => managementHandler now "user" (handleUserDetail now r b rest) r g
  | CRoles uuid now r b => managementHandler now "role" (handleRoles uuid now r b) r g
  | CRole now r b rest => managementHandler now "role" (handleRoleDetail now r b rest) r g
  | CPermissions now r => managementHandler now "permission" (handlePermissions r) r g
  end.
Definition serve_all (cs : list call) (g : t) : t := foldl (fun g c => (serve c g).1) g cs.
End gateway.
End Gateway.
