(* ===== verification/AuthProps.v ===== *)
(** * How requests change the authentication store

    Every request served by the gateway changes the store by a sequence of steps
    ([serve_steps]); what tokens, names and approvals promise is then proved of the
    steps, by induction on their sequences. *)

From Stdlib Require Import Ascii.
From stdpp Require Import relations.
From S2P Require Import Prelude Float64 GoStrings Auth AuthGateway.
Import AuthStore Gateway.
Open Scope go_scope.

(** ** Calls *)

Definition draws_of (c : call) : option string :=
  match c with CLogin d _ _ _ | CRefresh d _ _ | CChangePassword d _ _ _ _ => AuthService.refresh d | _ => None end.
Definition uuid_of (c : call) : option string :=
  match c with CRegister uuid _ _ _ _ | CUsers uuid _ _ _ _ => Some uuid | _ => None end.
Definition time_of (c : call) : time :=
  match c with
  | CLogin _ now _ _ | CLogout now _ | CRefresh _ now _ | CRegister _ _ now _ _ | CChangePassword _ _ now _ _ | CMe now _ | CUsers _ _ now _ _
  | CUser now _ _ _ | CRoles _ now _ _ | CRole now _ _ _ | CPermissions now _ => now
  end.
Definition request_of (c : call) : Request.t :=
  match c with
  | CLogin _ _ r _ | CLogout _ r | CRefresh _ _ r | CRegister _ _ _ r _ | CChangePassword _ _ _ r _ | CMe _ r | CUsers _ _ _ r _
  | CUser _ r _ _ | CRoles _ _ r _ | CRole _ r _ _ | CPermissions _ r => r
  end.

Section steps.
Context `{JWT} `{PasswordHash} (sha256 ToLower : string -> string).
Context (range : gmap string Role.t -> list Role.t) (range_users : gmap string User.t -> list User.t)
  (range_permissions : gmap string Permission.t -> list Permission.t).

Abbreviation serve := (serve sha256 ToLower range range_users range_permissions).
Abbreviation serve_all := (serve_all sha256 ToLower range range_users range_permissions).

(** The caller of [c] may approve users in state [g]. *)
Definition approver (c : call) (g : Gateway.t) : Prop := requirePermission (time_of c) (request_of c) "user:approve" g = None.

(** ** Steps *)

(** What one call may do to the store, in steps. *)
Inductive step (c : call) (g : Gateway.t) : AuthStore.t -> AuthStore.t -> Prop :=
  | StepTokens st v :
      (forall h rt, v !! h = Some rt -> refreshTokens st !! h = Some rt \/ exists tok, draws_of c = Some tok /\ h = sha256 tok) ->
      step c g st (set_refreshTokens v st)
  | StepBlacklist st now r claims :
      c = CLogout now r -> AuthEngine.ValidateToken now (Request.ATCookie r) (AuthService.jwtEngine (svc g)) = Some claims ->
      step c g st (BlacklistJTI now (Claims.JTI claims) (Sub (Claims.ExpiresAt claims) now) st)
  | StepCreate u uuid :
      uuid_of c = Some uuid -> User.ID u = "user-" +:+ uuid -> usersByName (store g) !! User.Username u = None ->
      step c g (store g) (add_user u (store g))
  | StepUser st id f :
      (forall u, User.ID (f u) = User.ID u /\ User.Username (f u) = User.Username u) ->
      (forall u, users st !! id = Some u -> User.Status (f u) = User.Status u \/ approver c g) ->
      step c g st (change_user id f st).1
  | StepDeleteUser st id : step c g st (DeleteUser id st).1
  | StepRoles st v n : step c g st (set_roles v n st).

Abbreviation steps c g := (rtc (step c g)).

Lemma step_forget c g h st : step c g st (set_refreshTokens (delete h (refreshTokens st)) st).
Proof using Type. apply StepTokens. intros h' rt [_ ?]%lookup_delete_Some. by left. Qed.

Lemma step_save c g rt tok st :
  draws_of c = Some tok -> RefreshToken.TokenHash rt = sha256 tok -> step c g st (SaveRefreshToken rt st).
Proof using Type. intros Hd Hh. apply StepTokens. intros h rt' [[<- _] | [_ ?]]%lookup_insert_Some; [right; by exists tok | by left]. Qed.

Lemma step_password c g id hash st : step c g st (ChangePassword id hash st).1.
Proof using Type. apply StepUser; intros u; [done | by left]. Qed.
Lemma step_must c g id b st : step c g st (SetMustChangePassword id b st).1.
Proof using Type. apply StepUser; intros u; [done | by left]. Qed.

Lemma step_update c g id email status roleIDs st :
  (forall u, users st !! id = Some u -> status = "" \/ status = User.Status u \/ approver c g) ->
  step c g st (UpdateUser id email status roleIDs st).1.
Proof using Type.
  intros Hs. apply StepUser; intros u.
  - repeat case_match; done.
  - intros Hu. destruct (Hs u Hu) as [-> | [-> | Ha]]; [left | left | by right]; repeat case_match; done.
Qed.

(** ** What the service does *)

Abbreviation sstore := AuthService.store.

(** A call changes the store in steps, and the engine never. *)
Definition reaches (c : call) (g : Gateway.t) (s s' : AuthService.t) : Prop :=
  steps c g (sstore s) (sstore s') /\ AuthService.jwtEngine s' = AuthService.jwtEngine s.

#[local] Instance reaches_preorder c g : PreOrder (reaches c g).
Proof using Type.
  split; [by split |]. intros s1 s2 s3 [H1 E1] [H2 E2]. split; [by etransitivity | by rewrite E2].
Qed.

Lemma reaches_step c g s st : step c g (sstore s) st -> reaches c g s (AuthService.set_store st s).
Proof using Type. intros Hs. split; [by apply rtc_once | done]. Qed.

Lemma issueTokens_steps c g d now u fp tenant s :
  draws_of c = AuthService.refresh d -> reaches c g s (AuthService.issueTokens sha256 d now u fp tenant s).1.
Proof using Type.
  intros Hd. unfold AuthService.issueTokens. destruct (AuthEngine.IssueTokenWithDeviceFP _ _ _ _ _ _ _ _ _ _) as [[at_ ex] |]; [| done].
  destruct (AuthService.refresh d) as [tok |]; [| done]. apply reaches_step. by apply (step_save c g _ tok).
Qed.

Lemma LoginWithFP_steps c g d now name pw tenant fp s :
  draws_of c = AuthService.refresh d -> reaches c g s (AuthService.LoginWithFP sha256 d now name pw tenant fp s).1.
Proof using Type.
  intros Hd. unfold AuthService.LoginWithFP. destruct (GetUserByUsername _ _) as [u |]; [| done].
  do 3 (case_match; [done |]). by apply issueTokens_steps.
Qed.

Lemma refreshTokenFP_steps c g d now tok fp tenant s :
  draws_of c = AuthService.refresh d -> reaches c g s (AuthService.refreshTokenFP sha256 d now tok fp tenant s).1.
Proof using Type.
  intros Hd. unfold AuthService.refreshTokenFP, ConsumeRefreshToken. destruct (refreshTokens _ !! _) as [rt |]; [| done].
  etransitivity; [apply reaches_step, (step_forget c g (sha256 tok)) |]. destruct (After _ _); [done |]. destruct (_ && _); [done |].
  destruct (AuthStore.GetUser _ _) as [u |]; [| done]. destruct (User.Status u != _); [done |]. destruct (User.MustChangePassword u); [done |].
  match goal with |- context [AuthService.issueTokens _ _ _ _ _ ?t ?s'] => exact (issueTokens_steps c g d now u fp t s' Hd) end.
Qed.

Lemma create_steps c g uuid salt now name pw email roles status tenant must s :
  uuid_of c = Some uuid -> sstore s = store g ->
  reaches c g s (AuthService.create_with_password uuid salt now name pw email roles status tenant must s).1.
Proof using Type.
  intros Hu Hsg. unfold AuthService.create_with_password. case_match; [done |]. destruct (HashPassword _ _) as [hash |]; [| done].
  unfold AuthStore.CreateUser. cbn [User.Username]. destruct (usersByName (sstore s) !! name) as [id |] eqn:E; [done |].
  match goal with |- context [add_user ?u ?st] => set (st1 := add_user u st) end.
  transitivity (AuthService.set_store st1 s).
  { apply reaches_step. unfold st1. rewrite Hsg in *. eapply StepCreate; [exact Hu | reflexivity | exact E]. }
  destruct (GetUserByUsername name st1) as [u |]; [| done].
  destruct (AuthStore.ChangePassword _ hash st1) as [st2 e2] eqn:E2. assert (st2 = (AuthStore.ChangePassword (User.ID u) hash st1).1) as -> by (by rewrite E2).
  etransitivity; [exact (reaches_step c g (AuthService.set_store st1 s) _ (step_password c g (User.ID u) hash st1)) |].
  destruct must; [| done]. exact (reaches_step c g (AuthService.set_store (AuthStore.ChangePassword (User.ID u) hash st1).1 s) _ (step_must c g (User.ID u) true _)).
Qed.

Lemma ChangePassword_steps c g salt id old new s : reaches c g s (AuthService.ChangePassword salt id old new s).1.
Proof using Type.
  unfold AuthService.ChangePassword. destruct (AuthStore.GetUser _ _) as [u |]; [| done]. case_match; [done |].
  destruct (HashPassword _ _) as [hash |]; [| done]. apply reaches_step, step_password.
Qed.

Lemma UpdateUser_steps c g id email status roleIDs s :
  (forall u, users (sstore s) !! id = Some u -> status = "" \/ status = User.Status u \/ approver c g) ->
  reaches c g s (AuthService.UpdateUser id email status roleIDs s).1.
Proof using Type.
  intros Hs. unfold AuthService.UpdateUser. destruct (AuthStore.UpdateUser _ _ _ _ _) as [st [e |]] eqn:E; [done |].
  assert (st = (AuthStore.UpdateUser id email status roleIDs (sstore s)).1) as -> by (by rewrite E). by apply reaches_step, step_update.
Qed.

Lemma UpdateUserFields_steps c g id email status roleIDs s :
  (status <> "" -> approver c g) -> reaches c g s (AuthService.UpdateUserFields id email status roleIDs s).1.
Proof using Type.
  intros Hs. unfold AuthService.UpdateUserFields. destruct (AuthStore.GetUser _ _) as [u |] eqn:Eu; [| done]. apply UpdateUser_steps.
  intros u' Hu'. unfold AuthStore.GetUser in Eu. rewrite Hu' in Eu. injection Eu as ->. right.
  case_bool_decide as Es; cbn [negb].
  - left. repeat case_match; done.
  - right. by apply Hs.
Qed.

Lemma role_steps c g uuid now name desc perms id operms s :
  reaches c g s (AuthService.CreateRole uuid now name desc perms s).1 /\
  reaches c g s (AuthService.UpdateRoleFields id desc operms s).1 /\
  reaches c g s (AuthService.DeleteRole id s).1 /\
  reaches c g s (AuthService.DeleteUser id s).1.
Proof using Type.
  split_and!.
  - unfold AuthService.CreateRole, AuthStore.CreateRole. destruct (name == ""); [done |]. cbn [Role.Name].
    destruct (rolesByName (sstore s) !! name); [done |]. apply reaches_step, StepRoles.
  - unfold AuthService.UpdateRoleFields, AuthService.UpdateRole, AuthStore.UpdateRole, AuthStore.GetRole.
    destruct (roles (sstore s) !! id); [| done]. apply reaches_step, StepRoles.
  - unfold AuthService.DeleteRole, AuthStore.DeleteRole. destruct (roles (sstore s) !! id); [| done]. apply reaches_step, StepRoles.
  - unfold AuthService.DeleteUser. destruct (AuthStore.DeleteUser id (sstore s)) as [st e] eqn:E.
    assert (st = (AuthStore.DeleteUser id (sstore s)).1) as -> by (by rewrite E). destruct e; [done |]. apply reaches_step, StepDeleteUser.
Qed.
(** ** What the handlers do *)

Lemma allow_svc now r g : svc (allow now r g).1 = svc g.
Proof using Type. unfold allow. by destruct (LoginGuard.allowIP _ _ _). Qed.

(** A branch that leaves the store. *)
Local Ltac unchanged Hs := cbn [fst]; rewrite Hs; done.

Lemma handleLogin_steps d now r b g :
  reaches (CLogin d now r b) g (svc g) (svc (handleLogin sha256 range d now r b g).1).
Proof using Type.
  unfold handleLogin. destruct (Request.Method r != _); [done |]. destruct b as [[name pw] |]; [| done]. destruct (_ || _); [done |].
  destruct (allow now r g) as [g1 ok] eqn:Ea. 
  assert (Hs : svc g1 = svc g) by (pose proof (allow_svc now r g) as Hal; by rewrite Ea in Hal).
  destruct ok; cbn [negb]; [| unchanged Hs]. destruct (LoginGuard.accountLocked _ _ _); [unchanged Hs |].
  pose proof (LoginWithFP_steps (CLogin d now r (Some (name, pw))) g d now name pw "" (Request.DeviceFP r) (svc g) eq_refl) as Hl.
  rewrite Hs. destruct (AuthService.LoginWithFP _ _ _ _ _ _ _ _) as [s [resp | e]]; [| exact Hl].
  by destruct (DeviceFP.checkAndRegister _ _ _ _) as [fps [? needMFA]].
Qed.

Lemma handleLogout_steps now r g : reaches (CLogout now r) g (svc g) (svc (handleLogout sha256 now r g).1).
Proof using Type.
  unfold handleLogout. destruct (Request.Method r != _); [done |]. unfold AuthService.Logout. cbn [fst svc set_svc].
  set (s1 := if Request.RTCookie r != "" then _ else _).
  assert (H1 : reaches (CLogout now r) g (svc g) s1) by (unfold s1; destruct (Request.RTCookie r != ""); [apply reaches_step, step_forget | done]).
  destruct (Request.ATCookie r != ""); [| done]. rewrite (proj2 H1).
  destruct (AuthEngine.ValidateToken _ _ _) as [claims |] eqn:Ev; [| done]. destruct (Claims.JTI claims != ""); [| done].
  destruct (_ >? 0)%Z; [| done]. etransitivity; [exact H1 |]. by eapply reaches_step, StepBlacklist.
Qed.

Lemma handleChangePassword_steps d salt now r b g :
  reaches (CChangePassword d salt now r b) g (svc g) (svc (handleChangePassword sha256 ToLower range d salt now r b g).1).
Proof using Type.
  unfold handleChangePassword. destruct (Request.Method r != _); [done |].
  destruct (allow now r g) as [g1 ok] eqn:Ea. 
  assert (Hs : svc g1 = svc g) by (pose proof (allow_svc now r g) as Hal; by rewrite Ea in Hal).
  destruct ok; cbn [negb]; [| unchanged Hs]. destruct b as [[[old new] tok] |]; [| unchanged Hs].
  destruct ((old == "") || _); [unchanged Hs |]. destruct (old == new); [unchanged Hs |].
  destruct (validateStrongPassword _ _); [unchanged Hs |]. cbv zeta.
  destruct ((if tok == "" then _ else _) == ""); [unchanged Hs |].
  destruct (AuthService.ValidateToken _ _ _) as [claims | e]; [| unchanged Hs]. rewrite Hs.
  pose proof (ChangePassword_steps (CChangePassword d salt now r (Some (old, new, tok))) g salt (Claims.UserID claims) old new (svc g)) as Hc.
  destruct (AuthService.ChangePassword _ _ _ _ _) as [s [[] | e]]; [| by destruct e]. destruct (tok != ""); [| done].
  destruct (AuthStore.GetUser _ _) as [u |]; [| done]. cbn [svc set_svc].
  pose proof (LoginWithFP_steps (CChangePassword d salt now r (Some (old, new, tok))) g d now (User.Username u) new "" (Request.DeviceFP r) s eq_refl) as Hl.
  cbn [fst] in Hc. destruct (AuthService.LoginWithFP _ _ _ _ _ _ _ _) as [s' [resp | e]]; by etransitivity.
Qed.

Lemma handleRegister_steps uuid salt now r b g :
  reaches (CRegister uuid salt now r b) g (svc g) (svc (handleRegister ToLower uuid salt now r b g).1).
Proof using Type.
  unfold handleRegister. destruct (Request.Method r != _); [done |]. destruct (publicRegister g); [| done]. cbn [negb].
  destruct b as [[[[name pw] email] tenant] |]; [| done]. destruct (_ || _); [done |].
  destruct (allow now r g) as [g1 ok] eqn:Ea. 
  assert (Hs : svc g1 = svc g) by (pose proof (allow_svc now r g) as Hal; by rewrite Ea in Hal).
  destruct ok; cbn [negb]; [| unchanged Hs]. destruct (validateStrongPassword _ _); [unchanged Hs |].
  destruct (AuthStore.GetRole _ _); [| unchanged Hs]. rewrite Hs. unfold AuthService.RegisterUser.
  pose proof (create_steps (CRegister uuid salt now r (Some (name, pw, email, tenant))) g uuid salt now name pw email ["role-viewer"] StatusPending
    tenant false (svc g) eq_refl eq_refl) as Hc.
  destruct (AuthService.create_with_password _ _ _ _ _ _ _ _ _ _ _) as [s [u | e]]; [exact Hc | by destruct e].
Qed.

Lemma handleUsers_steps uuid salt now r b g :
  reaches (CUsers uuid salt now r b) g (svc g) (svc (handleUsers ToLower range range_users uuid salt now r b g).1).
Proof using Type.
  unfold handleUsers. destruct (Request.Method r == _); [done |]. destruct (Request.Method r == _); [| done].
  destruct b as [[[[[[name pw] email] roles] must] tenant] |]; [| done]. destruct (_ || _); [done |].
  destruct (validateStrongPassword _ _); [done |]. destruct (find_first _ _); [done |]. unfold AuthService.CreateUser.
  pose proof (create_steps (CUsers uuid salt now r (Some (name, pw, email, roles, must, tenant))) g uuid salt now name pw email roles ""
    tenant must (svc g) eq_refl eq_refl) as Hc.
  destruct (AuthService.create_with_password _ _ _ _ _ _ _ _ _ _ _) as [s [u | e]]; [exact Hc | by destruct e].
Qed.

Lemma handleUserDetail_steps now r b rest g :
  reaches (CUser now r b rest) g (svc g) (svc (handleUserDetail now r b rest g).1).
Proof using Type.
  unfold handleUserDetail. destruct (rest == ""); [done |]. destruct (HasSuffix "/revoke-sessions" rest).
  { unfold revokeSessions. destruct (_ != _); [done |]. destruct (requirePermission _ _ _ _); [done |].
    destruct (AuthStore.GetUser _ _) as [u |]; [| done]. apply reaches_step, StepTokens. intros h rt [? _]%map_lookup_filter_Some. by left. }
  destruct (_ || _).
  { unfold decideUser. destruct (_ != _); [done |]. destruct (requirePermission now r "user:approve" g) eqn:Ep; [done |].
    destruct (AuthStore.GetUser _ _) as [u |]; [| done]. destruct (_ != _); [done |].
    match goal with |- context [AuthStore.UpdateUser ?i ?e ?s ?l ?st] =>
      pose proof (step_update (CUser now r b rest) g i e s l st ltac:(intros; right; right; exact Ep)) as Hu;
      destruct (AuthStore.UpdateUser i e s l st) as [st' [err |]] end; [done | by apply reaches_step]. }
  destruct (_ == _).
  { unfold handleUpdateUser. destruct (requirePermission _ _ "user:write" _); [done |]. destruct b as [[[email status] roles] |]; [| done].
    destruct (if status != "" then _ else _) as [resp |] eqn:Ep; [done |].
    pose proof (UpdateUserFields_steps (CUser now r (Some (email, status, roles)) rest) g rest email status roles (svc g)) as Hu.
    destruct (AuthService.UpdateUserFields _ _ _ _ _) as [s [u | e]]; apply Hu; intros Hne; rewrite bool_decide_false in Ep by done; exact Ep. }
  destruct (_ == _); [by destruct (AuthStore.GetUser _ _) |]. destruct (_ == _); [| done].
  destruct (role_steps (CUser now r b rest) g "" 0 "" "" [] rest None (svc g)) as (_ & _ & _ & Hd).
  by destruct (AuthService.DeleteUser _ _) as [s [u | e]].
Qed.

Lemma handleRoles_steps uuid now r b g : reaches (CRoles uuid now r b) g (svc g) (svc (handleRoles range uuid now r b g).1).
Proof using Type.
  unfold handleRoles. destruct (_ == _); [done |]. destruct (_ == _); [| done]. destruct b as [[[name desc] perms] |]; [| done].
  destruct (name == ""); [done |].
  destruct (role_steps (CRoles uuid now r (Some (name, desc, perms))) g uuid now name desc perms "" None (svc g)) as (Hc & _).
  destruct (AuthService.CreateRole _ _ _ _ _ _) as [s [u | e]]; [exact Hc | by destruct e].
Qed.

Lemma handleRoleDetail_steps now r b rest g : reaches (CRole now r b rest) g (svc g) (svc (handleRoleDetail now r b rest g).1).
Proof using Type.
  unfold handleRoleDetail, handleUpdateRole. destruct (rest == ""); [done |]. destruct (_ == _).
  { destruct (requirePermission _ _ _ _); [done |]. destruct b as [[desc perms] |]; [| done].
    destruct (role_steps (CRole now r (Some (desc, perms)) rest) g "" 0 "" desc [] rest perms (svc g)) as (_ & Hu & _).
    by destruct (AuthService.UpdateRoleFields _ _ _ _) as [s [u | e]]. }
  destruct (_ == _); [by destruct (AuthService.GetRole _ _) |]. destruct (_ == _); [| done].
  destruct (role_steps (CRole now r b rest) g "" 0 "" "" [] rest None (svc g)) as (_ & _ & Hd & _).
  by destruct (AuthService.DeleteRole _ _) as [s [u | e]].
Qed.

(** Every call changes the store in steps. *)
Lemma serve_steps c g : reaches c g (svc g) (svc (serve c g).1).
Proof using Type.
  destruct c; cbn [Gateway.serve]; try (unfold managementHandler; destruct (requirePermission _ _ (management_permission _ _) _); [done |]).
  - apply handleLogin_steps.
  - apply handleLogout_steps.
  - unfold handleRefresh. destruct (_ != _); [done |]. destruct (_ == _); [done |].
    pose proof (refreshTokenFP_steps (CRefresh d now r) g d now (Request.RTCookie r) (Request.DeviceFP r) "" (svc g) eq_refl) as Hr.
    by destruct (AuthService.refreshTokenFP _ _ _ _ _ _ _) as [s [resp | e]].
  - apply handleRegister_steps.
  - apply handleChangePassword_steps.
  - done.
  - apply handleUsers_steps.
  - apply handleUserDetail_steps.
  - apply handleRoles_steps.
  - apply handleRoleDetail_steps.
  - unfold handlePermissions. by destruct (_ != _).
Qed.
End steps.
