(* ===== verification/AuthTokens.v ===== *)
(** * What tokens, names and approvals promise

    Refresh tokens work once, a logout is final, names are unique, and nobody gets
    past the approval of registrations; what a token grants, and where the service
    grants more than it says. *)

From Stdlib Require Import Ascii.
From stdpp Require Import relations.
From S2P Require Import Prelude Float64 GoStrings Auth AuthGateway AuthProps.
Import AuthStore Gateway.
Open Scope go_scope.

Section tokens.
Context `{JWT} `{PasswordHash} (sha256 ToLower : string -> string).
Context (range : gmap string Role.t -> list Role.t) (range_users : gmap string User.t -> list User.t)
  (range_permissions : gmap string Permission.t -> list Permission.t).

Abbreviation serve := (serve sha256 ToLower range range_users range_permissions).
Abbreviation serve_all := (serve_all sha256 ToLower range range_users range_permissions).

(** A property of the store that every step keeps. *)
Lemma serve_keeps (P : AuthStore.t -> Prop) c g :
  (forall st st', P st -> step sha256 c g st st' -> P st') -> P (store g) -> P (store (serve c g).1).
Proof using Type.
  intros Hstep. pose proof (serve_steps sha256 ToLower range range_users range_permissions c g) as [Hs _].
  unfold store in *. induction Hs as [| a b d Hab _ IH]; [done |]. intros Ha. apply IH. by eapply Hstep.
Qed.

(** ** Refresh tokens *)

(** No call draws a token with the hash [h]. *)
Definition draws_other (h : string) (c : call) : Prop := forall tok, draws_of c = Some tok -> sha256 tok <> h.

Lemma step_no_token h c g st st' :
  draws_other h c -> refreshTokens st !! h = None -> step sha256 c g st st' -> refreshTokens st' !! h = None.
Proof using Type.
  intros Hd Hn Hs. destruct Hs as [st v Hv | | | st id f | st id |]; cbn; try done.
  - destruct (v !! h) as [rt |] eqn:E; [| done]. destruct (Hv h rt E) as [Ho | (tok & Ht & ->)]; [by rewrite Hn in Ho | by destruct (Hd tok Ht)].
  - unfold change_user. by destruct (users st !! id).
  - unfold DeleteUser. by destruct (users st !! id).
Qed.

Lemma serve_all_no_token h cs g :
  Forall (draws_other h) cs -> refreshTokens (store g) !! h = None -> refreshTokens (store (serve_all cs g)) !! h = None.
Proof using Type.
  intros Hcs. revert g. induction Hcs as [| c cs Hc _ IH]; intros g Hn; [done |]. apply (IH (serve c g).1).
  apply (serve_keeps (fun st => refreshTokens st !! h = None)); [| done]. intros st st' Hst. by apply step_no_token.
Qed.

(** [c] exchanges the refresh token [tok], or logs out with it. *)
Definition spends (tok : string) (c : call) : Prop :=
  match c with
  | CRefresh _ _ r | CLogout _ r => Request.Method r = MethodPost /\ Request.RTCookie r = tok
  | _ => False
  end.

Lemma issueTokens_no_token h d now u fp tenant s :
  (forall tok, AuthService.refresh d = Some tok -> sha256 tok <> h) -> refreshTokens (AuthService.store s) !! h = None ->
  refreshTokens (AuthService.store (AuthService.issueTokens sha256 d now u fp tenant s).1) !! h = None.
Proof using Type.
  intros Hd Hn. unfold AuthService.issueTokens. destruct (AuthEngine.IssueTokenWithDeviceFP _ _ _ _ _ _ _ _ _ _) as [[a e] |]; [| done].
  destruct (AuthService.refresh d) as [tok |]; [| done]. cbn. rewrite lookup_insert_ne; [done | by apply Hd].
Qed.

Lemma spends_token tok c g :
  spends tok c -> tok <> "" -> draws_other (sha256 tok) c -> refreshTokens (store (serve c g).1) !! sha256 tok = None.
Proof using Type.
  destruct c as [| now r | d now r | | | | | | | |]; try done; intros [Hm <-] Hne Hd; cbn [Gateway.serve].
  - unfold handleLogout. rewrite Hm. cbn. unfold AuthService.Logout, store. cbn [svc set_svc]. rewrite (bool_decide_false _ Hne). cbn [negb].
    set (s1 := AuthService.set_store (DeleteRefreshToken _ _).1 (svc g)).
    assert (H1 : refreshTokens (AuthService.store s1) !! sha256 (Request.RTCookie r) = None) by (cbn; apply lookup_delete_eq).
    destruct (Request.ATCookie r != ""); [| exact H1]. destruct (AuthEngine.ValidateToken _ _ _) as [claims |]; [| exact H1].
    destruct (Claims.JTI claims != ""); [| exact H1]. destruct (_ >? 0)%Z; exact H1.
  - unfold handleRefresh. rewrite Hm, (bool_decide_false _ Hne). cbn [negb]. unfold AuthService.refreshTokenFP, ConsumeRefreshToken, AuthService.HashRefreshToken.
    change (MethodPost != MethodPost) with false. cbn iota. unfold store.
    destruct (refreshTokens (AuthService.store (svc g)) !! sha256 (Request.RTCookie r)) as [rt |] eqn:E; [| by cbn].
    set (s1 := AuthService.set_store _ (svc g)).
    assert (H1 : refreshTokens (AuthService.store s1) !! sha256 (Request.RTCookie r) = None) by (cbn; apply lookup_delete_eq).
    destruct (After _ _); [exact H1 |]. destruct (_ && _); [exact H1 |]. destruct (AuthStore.GetUser _ _) as [u |]; [| exact H1].
    destruct (User.Status u != _); [exact H1 |]. destruct (User.MustChangePassword u); [exact H1 |].
    match goal with |- context [AuthService.issueTokens _ ?d ?n ?u ?f ?t ?s] => pose proof (issueTokens_no_token _ d n u f t s Hd H1) as Hi;
      destruct (AuthService.issueTokens sha256 d n u f t s) as [s' [resp | e]] end; exact Hi.
Qed.

(** C13: a refresh token that has been exchanged or logged out with is spent:
    whatever is served after that, with any other tokens drawn, and even when the
    exchange was refused, presenting it again is answered with 401 and clears the
    cookies. *)
Theorem refresh_token_works_once tok c cs d now r g :
  spends tok c -> tok <> "" -> Forall (draws_other (sha256 tok)) (c :: cs) ->
  Request.Method r = MethodPost -> Request.RTCookie r = tok ->
  (serve (CRefresh d now r) (serve_all (c :: cs) g)).2 = Response.cleared 401 (BError "refresh failed").
Proof using Type.
  intros Hc Hne [Hdc Hdcs]%Forall_cons_1 Hm Hr. change (serve_all (c :: cs) g) with (serve_all cs (serve c g).1).
  pose proof (serve_all_no_token _ cs _ Hdcs (spends_token tok c g Hc Hne Hdc)) as Hn.
  cbn [Gateway.serve]. unfold handleRefresh. rewrite Hm, Hr, (bool_decide_false _ Hne). change (MethodPost != MethodPost) with false. cbn iota.
  unfold AuthService.refreshTokenFP, ConsumeRefreshToken, AuthService.HashRefreshToken. unfold store in Hn. by rewrite Hn.
Qed.

(** ** Logging out *)

Lemma serve_all_engine cs g : AuthService.jwtEngine (svc (serve_all cs g)) = AuthService.jwtEngine (svc g).
Proof using Type.
  revert g. induction cs as [| c cs IH]; intros g; [done |]. change (serve_all (c :: cs) g) with (serve_all cs (serve c g).1). rewrite IH.
  apply (serve_steps sha256 ToLower range range_users range_permissions c g).
Qed.

(** The identifier [jti] is refused up to the instant [until]. *)
Definition barred (jti : string) (until : time) (st : AuthStore.t) : Prop := exists e, blacklist st !! jti = Some e /\ (until <= e)%Z.

(** A logout at an instant not too far from [until]; if its token has the
    identifier [jti], it is one that expires at [until]. *)
Definition tame (secret jti : string) (until : time) (c : call) : Prop :=
  forall n q, c = CLogout n q -> (until - n <= max_i64)%Z /\
    forall claims, ParseWithClaims secret n (Request.ATCookie q) = Some claims -> Claims.JTI claims = jti -> Claims.ExpiresAt claims = until /\ (n < until)%Z.

Lemma Sub_small a b : (min_i64 <= a - b <= max_i64)%Z -> Sub a b = (a - b)%Z.
Proof using Type. unfold Sub, min_i64, max_i64. lia. Qed.

Lemma step_barred jti until c g st st' :
  tame (AuthEngine.secret (AuthService.jwtEngine (svc g))) jti until c ->
  barred jti until st -> step sha256 c g st st' -> barred jti until st'.
Proof using Type.
  intros Hc (e & He & Hle) Hs. destruct Hs as [| st now r claims Ec Hv | | st id f | st id |]; try (exists e; by split).
  - unfold barred, BlacklistJTI. cbn. destruct (decide (Claims.JTI claims = jti)) as [<- | Hne].
    + rewrite lookup_insert_eq. eexists. split; [done |]. unfold AuthEngine.ValidateToken in Hv.
      destruct (_ == ""); [done |]. destruct (Hc now r Ec) as [Hd Hx]. destruct (Hx _ Hv eq_refl) as [-> Hlt].
      rewrite Sub_small by (unfold min_i64, max_i64 in *; lia). lia.
    + rewrite lookup_insert_ne by done. by exists e.
  - unfold change_user. destruct (users st !! id); exists e; by split.
  - unfold DeleteUser. destruct (users st !! id); exists e; by split.
Qed.

Lemma serve_all_barred jti until cs g :
  Forall (tame (AuthEngine.secret (AuthService.jwtEngine (svc g))) jti until) cs ->
  barred jti until (store g) -> barred jti until (store (serve_all cs g)).
Proof using Type.
  revert g. induction cs as [| c cs IH]; intros g Hcs Hb; [done |]. apply Forall_cons_1 in Hcs as [Hc Hcs]. apply (IH (serve c g).1).
  - change ((serve c g).1) with (serve_all [c] g). by rewrite serve_all_engine.
  - apply (serve_keeps (barred jti until)); [| done]. intros st st' Hst. by apply step_barred.
Qed.

(** What a token says while it is valid. *)
Lemma ValidateToken_issued claims from now e :
  encodable claims -> AuthEngine.secret e <> "" ->
  AuthEngine.ValidateToken now (Sign (AuthEngine.secret e) claims from) e =
    if (from <=? now)%Z && (now <? Claims.ExpiresAt claims)%Z then Some claims else None.
Proof using Type. intros Henc Hs. unfold AuthEngine.ValidateToken. rewrite bool_decide_false by done. by apply Parse_Sign. Qed.

Lemma logout_bars claims from now r g :
  encodable claims -> Claims.JTI claims <> "" -> AuthEngine.secret (AuthService.jwtEngine (svc g)) <> "" ->
  Request.Method r = MethodPost -> Request.ATCookie r = Sign (AuthEngine.secret (AuthService.jwtEngine (svc g))) claims from ->
  Request.ATCookie r <> "" -> (from <= now < Claims.ExpiresAt claims)%Z -> (Claims.ExpiresAt claims - now <= max_i64)%Z ->
  barred (Claims.JTI claims) (Claims.ExpiresAt claims) (store (serve (CLogout now r) g).1).
Proof using Type.
  intros Henc Hj Hsec Hm Htok Hne Hnow Hc. cbn [Gateway.serve]. unfold handleLogout. rewrite Hm. change (MethodPost != MethodPost) with false. cbn iota.
  unfold store, AuthService.Logout. cbn [svc set_svc fst].
  rewrite (bool_decide_false (Request.ATCookie r = "")) by done. cbn [negb]. set (s1 := if Request.RTCookie r != "" then _ else _).
  assert (He : AuthService.jwtEngine s1 = AuthService.jwtEngine (svc g)) by (unfold s1; by case_match).
  rewrite He, Htok, ValidateToken_issued by done. rewrite (proj2 (Z.leb_le _ _)), (proj2 (Z.ltb_lt _ _)) by lia. cbn [andb].
  rewrite bool_decide_false by done. cbn [negb]. rewrite Sub_small by (unfold min_i64, max_i64 in *; lia). rewrite (proj2 (Z.gtb_lt _ _)) by lia.
  exists (now + (Claims.ExpiresAt claims - now))%Z. split; [apply lookup_insert_eq | lia].
Qed.

(** C14: a logout is final: once a token has been logged out with, whatever is
    served after that, it is refused at every later instant, by the validation and
    by every check of a permission, before it expires and after. *)
Theorem logout_is_final claims from now r cs g now' p :
  encodable claims -> Claims.JTI claims <> "" -> AuthEngine.secret (AuthService.jwtEngine (svc g)) <> "" ->
  Request.Method r = MethodPost -> Request.ATCookie r = Sign (AuthEngine.secret (AuthService.jwtEngine (svc g))) claims from ->
  Request.ATCookie r <> "" -> (from <= now <= now')%Z ->
  Forall (tame (AuthEngine.secret (AuthService.jwtEngine (svc g))) (Claims.JTI claims) (Claims.ExpiresAt claims)) (CLogout now r :: cs) ->
  let g' := serve_all (CLogout now r :: cs) g in
  is_ok (AuthService.ValidateToken now' (Request.ATCookie r) (svc g')) = false /\
  AuthService.CheckPermission now' (Request.ATCookie r) p (svc g') = false.
Proof using Type.
  intros Henc Hj Hsec Hm Htok Hne Hnow [Hc Hcs]%Forall_cons_1 g'.
  assert (Hparse : AuthEngine.ValidateToken now' (Request.ATCookie r) (AuthService.jwtEngine (svc g')) =
    if (now' <? Claims.ExpiresAt claims)%Z then Some claims else None).
  { unfold g'. rewrite serve_all_engine, Htok, ValidateToken_issued by done. by rewrite (proj2 (Z.leb_le _ _)) by lia. }
  unfold AuthService.ValidateToken, AuthService.CheckPermission. rewrite Hparse.
  destruct (Z.ltb_spec now' (Claims.ExpiresAt claims)) as [Hlt |]; [| done].
  destruct (serve_all_barred (Claims.JTI claims) (Claims.ExpiresAt claims) cs (serve (CLogout now r) g).1) as (e & He & Hle).
  - change ((serve (CLogout now r) g).1) with (serve_all [CLogout now r] g). by rewrite serve_all_engine.
  - apply (logout_bars claims from); try done; [lia | by apply (Hc now r)].
  - unfold IsBlacklisted. change (AuthService.store (svc g')) with (store (serve_all cs (serve (CLogout now r) g).1)). rewrite He.
    unfold After. by rewrite (proj2 (Z.ltb_ge _ _)) by lia.
Qed.

(** ** Names *)

(** Users and names are in bijection. *)
Record names_ok (st : AuthStore.t) : Prop := {
  named : forall id u, users st !! id = Some u -> User.ID u = id /\ usersByName st !! User.Username u = Some id;
  name_used : forall n id, usersByName st !! n = Some id -> exists u, users st !! id = Some u /\ User.Username u = n;
}.

(** The identifier a call draws is new. *)
Fixpoint fresh_ids (cs : list call) (g : Gateway.t) : Prop :=
  match cs with
  | [] => True
  | c :: cs => (forall uuid, uuid_of c = Some uuid -> users (store g) !! ("user-" +:+ uuid) = None) /\ fresh_ids cs (serve c g).1
  end.

Lemma step_names c g st st' :
  (forall uuid, uuid_of c = Some uuid -> users (store g) !! ("user-" +:+ uuid) = None) ->
  names_ok st -> step sha256 c g st st' -> names_ok st'.
Proof using Type.
  intros Hf Hn Hs. destruct Hs as [st v Hv | | u uuid Hu Hid Hnew | st id f Hf1 Hf2 | st id |]; try (by destruct Hn; split).
  - specialize (Hf uuid Hu). rewrite <- Hid in Hf. destruct Hn as [H1 H2]. split; cbn.
    + intros id u' [[<- <-] | [Hne Hu']]%lookup_insert_Some; [by rewrite lookup_insert_eq |].
      destruct (H1 id u' Hu') as [E1 E2]. split; [done |]. rewrite lookup_insert_ne; [done |]. intros E. by rewrite E, E2 in Hnew.
    + intros n id [[<- <-] | [Hne Hi]]%lookup_insert_Some; [exists u; by rewrite lookup_insert_eq |].
      destruct (H2 n id Hi) as (u' & Hu' & E). exists u'. rewrite lookup_insert_ne; [done |]. intros <-. by rewrite Hu' in Hf.
  - unfold change_user. destruct (users st !! id) as [u |] eqn:E; [| done]. destruct Hn as [H1 H2]. destruct (Hf1 u) as [E1 E2]. split; cbn.
    + intros id' u' [[<- <-] | [Hne Hu']]%lookup_insert_Some; [rewrite E1, E2; by apply H1 | by apply H1].
    + intros n id' Hi. destruct (H2 n id' Hi) as (u' & Hu' & <-). destruct (decide (id = id')) as [<- | Hne].
      * exists (f u). rewrite lookup_insert_eq, E2. rewrite E in Hu'. by injection Hu' as ->.
      * exists u'. by rewrite lookup_insert_ne.
  - unfold DeleteUser. destruct (users st !! id) as [u |] eqn:E; [| done]. destruct Hn as [H1 H2]. destruct (H1 id u E) as [_ En]. split; cbn.
    + intros id' u' [Hne Hu']%lookup_delete_Some. destruct (H1 id' u' Hu') as [? Eu']. split; [done |].
      rewrite lookup_delete_ne; [done |]. intros Eq. rewrite Eq, Eu' in En. by injection En as ->.
    + intros n id' [Hne Hi]%lookup_delete_Some. destruct (H2 n id' Hi) as (u' & Hu' & <-). exists u'. rewrite lookup_delete_ne; [done |].
      intros ->. rewrite E in Hu'. by injection Hu' as ->.
Qed.

(** Names identify users: along every sequence of requests with new
    identifiers, every user is filed under its own identifier and name, every name
    leads to the user who has it, and so no two users share a name. *)
Theorem usernames_identify_users cs g :
  names_ok (store g) -> fresh_ids cs g ->
  let st := store (serve_all cs g) in
  names_ok st /\ forall i j u v, users st !! i = Some u -> users st !! j = Some v -> User.Username u = User.Username v -> i = j.
Proof using Type.
  intros Hn Hf. cbv zeta. assert (Hok : names_ok (store (serve_all cs g))).
  { revert g Hn Hf. induction cs as [| c cs IH]; intros g Hn Hf; [done |]. destruct Hf as [Hf Hfs]. apply (IH (serve c g).1); [| done].
    apply (serve_keeps names_ok); [| done]. intros st st' Hst. by apply step_names. }
  split; [done |]. intros i j u v Hu Hv E. destruct (named _ Hok i u Hu) as [_ E1]. destruct (named _ Hok j v Hv) as [_ E2]. congruence.
Qed.

(** ** Approval *)

(** Nobody who serves a call may approve users. *)
Fixpoint unapproved (cs : list call) (g : Gateway.t) : Prop :=
  match cs with [] => True | c :: cs => ~ approver c g /\ unapproved cs (serve c g).1 end.

Definition stays_pending (id : string) (st : AuthStore.t) : Prop := forall u, users st !! id = Some u -> User.Status u = StatusPending.

Lemma step_pending id c g st st' :
  ~ approver c g -> (forall uuid, uuid_of c = Some uuid -> "user-" +:+ uuid <> id) ->
  stays_pending id st -> step sha256 c g st st' -> stays_pending id st'.
Proof using Type.
  intros Ha Hf Hp Hs. destruct Hs as [| | u uuid Hu Hid Hnew | st id' f Hf1 Hf2 | st id' |]; try done.
  - intros u'. cbn. intros [[E _] | [_ Hu']]%lookup_insert_Some; [| by apply Hp]. rewrite Hid in E. by destruct (Hf uuid Hu).
  - unfold change_user. destruct (users st !! id') as [u |] eqn:E; [| done].
    intros u'. cbn. intros [[-> <-] | [_ Hu']]%lookup_insert_Some; [| by apply Hp]. destruct (Hf2 u eq_refl) as [-> | Hap]; [by apply Hp | done].
  - unfold DeleteUser. destruct (users st !! id') as [u |]; [| done]. intros u'. cbn. intros [_ Hu']%lookup_delete_Some. by apply Hp.
Qed.

Lemma pending_login d now r b id g u :
  stays_pending id (store g) -> GetUserByUsername (match b with Some (name, _) => name | None => "" end) (store g) = Some u -> 
  users (store g) !! id = Some u -> Response.Code (handleLogin sha256 range d now r b g).2 <> 200%Z.
Proof using Type.
  intros Hp Hn Hu. unfold handleLogin. destruct (_ != _); [done |]. destruct b as [[name pw] |]; [| done]. destruct (_ || _); [done |].
  pose proof (allow_svc now r g) as Ha. destruct (allow now r g) as [g1 ok]. cbn in Ha. destruct ok; [| done]. cbn [negb].
  destruct (LoginGuard.accountLocked _ _ _); [done |]. rewrite Ha. unfold AuthService.LoginWithFP. fold (store g). rewrite Hn.
  specialize (Hp u Hu). rewrite bool_decide_false; [done |]. by rewrite Hp.
Qed.

(** C15: registrations need an approval: while no request comes from a caller who
    may approve users, a pending user stays pending, whatever else is served, and
    no login as that user succeeds. *)
Theorem pending_until_approved cs g id u :
  users (store g) !! id = Some u -> User.Status u = StatusPending -> unapproved cs g ->
  Forall (fun c => forall uuid, uuid_of c = Some uuid -> "user-" +:+ uuid <> id) cs ->
  let g' := serve_all cs g in
  stays_pending id (store g') /\
  forall d now r name pw v, usersByName (store g') !! name = Some id -> users (store g') !! id = Some v ->
    Response.Code (serve (CLogin d now r (Some (name, pw))) g').2 <> 200%Z.
Proof using Type.
  intros Hu Hp Ha Hf. cbv zeta. assert (Hok : stays_pending id (store (serve_all cs g))).
  { assert (Hp0 : stays_pending id (store g)) by (intros u' Hu'; congruence). clear Hu Hp u. revert g Ha Hp0.
    induction Hf as [| c cs Hc _ IH]; intros g Ha Hp0; [done |]. destruct Ha as [Ha Has]. apply (IH (serve c g).1); [done |].
    apply (serve_keeps (stays_pending id)); [| done]. intros st st' Hst Hs. by eapply (step_pending id c g st st'). }
  split; [done |]. intros d now r name pw v Hn Hv. cbn [Gateway.serve]. eapply (pending_login d now r (Some (name, pw)) id); [done | | exact Hv].
  unfold GetUserByUsername. by rewrite Hn.
Qed.
End tokens.
