(* ===== verification/AuthAccess.v ===== *)
(** * What logins grant

    The permissions of a token are those of the roles at the login; a token for a
    first change of password carries them all, a refresh token outlives the
    password, and permission to change users is permission to become administrator. *)

From Stdlib Require Import Ascii.
From S2P Require Import Prelude Float64 GoStrings Auth AuthGateway.
Import AuthStore Gateway.
Open Scope go_scope.

(** ** Permissions *)

Lemma add_new_spec out p q : q ∈ AuthService.add_new out p <-> q ∈ out \/ q = p.
Proof.
  unfold AuthService.add_new. case_bool_decide as E; [| set_solver]. split; [by left | intros [? | ->]; done].
Qed.

Lemma add_new_all ps out : (forall q, q ∈ foldl AuthService.add_new out ps <-> q ∈ out \/ q ∈ ps) /\
  (NoDup out -> NoDup (foldl AuthService.add_new out ps)).
Proof.
  revert out. induction ps as [| p ps IH]; intros out; cbn; [split; [set_solver | done] |]. destruct (IH (AuthService.add_new out p)) as [H1 H2]. split.
  - intros q. rewrite H1, add_new_spec. set_solver.
  - intros Hout. apply H2. unfold AuthService.add_new. case_bool_decide as E; [done |]. apply NoDup_app. split; [done |].
    split; [set_solver | apply NoDup_singleton].
Qed.

Lemma elem_concat {A} (x : A) ls : x ∈ concat ls <-> exists l, x ∈ l /\ l ∈ ls.
Proof.
  rewrite list_elem_of_In, in_concat. split; intros (l & H1 & H2); exists l; rewrite ?list_elem_of_In in *; rewrite <- ?list_elem_of_In in *; done.
Qed.

(** The roles of [u] grant [p]. *)
Definition role_grants (u : User.t) (st : AuthStore.t) (p : string) : Prop :=
  exists rid r, rid ∈ User.RoleIDs u /\ roles st !! rid = Some r /\ p ∈ Role.Permissions r.

Lemma expandPermissions_spec u st :
  (forall p, p ∈ AuthService.expandPermissions u st <-> role_grants u st p) /\ NoDup (AuthService.expandPermissions u st).
Proof.
  unfold AuthService.expandPermissions. destruct (add_new_all (concat (omap (fun rid => Role.Permissions <$> GetRole rid st) (User.RoleIDs u))) []) as [H1 H2].
  split; [| apply H2, NoDup_nil_2]. intros p. rewrite H1. split.
  - intros [[]%elem_of_nil | (l & Hp & Hl)%elem_concat]. apply list_elem_of_omap in Hl as (rid & Hr & Hl). unfold GetRole in Hl.
    destruct (roles st !! rid) as [r |] eqn:E; [| done]. injection Hl as <-. by exists rid, r.
  - intros (rid & r & Hr & E & Hp). right. apply elem_concat. exists (Role.Permissions r). split; [done |]. apply list_elem_of_omap.
    exists rid. split; [done |]. unfold GetRole. by rewrite E.
Qed.

(** ** Tokens *)

Section access.
Context `{JWT} `{PasswordHash} (sha256 ToLower : string -> string).

(** What the token of [u] issued at [now] says. *)
Definition issued (d : AuthService.draws) (now : time) (u : User.t) (fp : string) (ttl : duration) (st : AuthStore.t) : Claims.t :=
  Claims.mk (User.ID u) (User.Username u) (User.RoleIDs u) (AuthService.expandPermissions u st)
    (if User.TenantID u == "" then "default" else User.TenantID u) fp (AuthService.jti d) (AuthEngine.NewNumericDate (now + ttl)%Z).

(** It is good from the second it is issued in to the one it expires in. *)
Definition live (now ttl now' : Z) : Prop := (AuthEngine.NewNumericDate now <= now' < AuthEngine.NewNumericDate (now + ttl))%Z.

Lemma CheckPermission_issued claims from now' p s :
  encodable claims -> AuthEngine.secret (AuthService.jwtEngine s) <> "" -> (from <= now' < Claims.ExpiresAt claims)%Z ->
  AuthService.CheckPermission now' (Sign (AuthEngine.secret (AuthService.jwtEngine s)) claims from) p s =
    negb (IsBlacklisted now' (Claims.JTI claims) (AuthService.store s)) && bool_decide (p ∈ Claims.Permissions claims).
Proof using Type.
  intros Henc Hs Hn. unfold AuthService.CheckPermission, AuthEngine.ValidateToken. rewrite bool_decide_false by done. rewrite Parse_Sign by done.
  rewrite (proj2 (Z.leb_le _ _)), (proj2 (Z.ltb_lt _ _)) by lia. cbn [andb]. destruct (IsBlacklisted _ _ _); [done |]. cbn [negb andb].
  apply eq_bool_prop_intro. rewrite !Is_true_true, existsb_elem, bool_decide_eq_true. split.
  - by intros (x & Hx & ->%bool_decide_eq_true).
  - intros Hp. exists p. by rewrite bool_decide_true.
Qed.

Lemma tenant_default t : (if (if t == "" then "default" else t) == "" then "default" else if t == "" then "default" else t) = if t == "" then "default" else t.
Proof using Type. destruct (bool_decide_reflect (t = "")) as [| Hne]; [done |]. by rewrite bool_decide_false. Qed.

(** A login grants what the roles grant.  A login succeeds only for an
    active user with the right password; at every instant the token is good for, with
    the same secret and whatever has become of the store, a permission is granted
    exactly if the token has not been logged out with and some role the user had at
    the login had the permission then. *)
Theorem login_grants_role_permissions d now name pw tenant fp s s' resp :
  AuthService.LoginWithFP sha256 d now name pw tenant fp s = (s', Ok resp) ->
  exists u, GetUserByUsername name (AuthService.store s) = Some u /\ User.Status u = StatusActive /\ VerifyPassword (User.PasswordHash u) pw = true /\
  let ttl := if User.MustChangePassword u then AuthService.changePasswordTokenTTL else AuthEngine.accessTTL (AuthService.jwtEngine s) in
  forall s2 now' p,
    AuthService.jwtEngine s2 = AuthService.jwtEngine s -> (forall fp, encodable (issued d now u fp ttl (AuthService.store s))) -> live now ttl now' ->
    AuthService.CheckPermission now' (TokenResponse.AccessToken resp) p s2 = true <->
      IsBlacklisted now' (AuthService.jti d) (AuthService.store s2) = false /\ role_grants u (AuthService.store s) p.
Proof using Type.
  unfold AuthService.LoginWithFP. destruct (GetUserByUsername _ _) as [u |] eqn:Eu; [| done].
  destruct (bool_decide_reflect (User.Status u = StatusActive)) as [Ea | Ea]; [| done]. destruct (VerifyPassword _ _) eqn:Ev; [| done]. cbn [negb].
  intros E. exists u. do 3 (split; [done |]). cbv zeta. intros s2 now' p Hj Henc Hlive.
  set (ttl := if User.MustChangePassword u then AuthService.changePasswordTokenTTL else AuthEngine.accessTTL (AuthService.jwtEngine s)) in *.
  assert (Htok : exists fp', TokenResponse.AccessToken resp = Sign (AuthEngine.secret (AuthService.jwtEngine s))
    (issued d now u fp' ttl (AuthService.store s)) (AuthEngine.NewNumericDate now) /\ AuthEngine.secret (AuthService.jwtEngine s) <> "").
  { unfold ttl. destruct (User.MustChangePassword u).
    - injection E as <- E. unfold AuthService.issueChangePasswordTokens, AuthEngine.IssueTokenWithTTL, AuthEngine.IssueTokenWithDeviceFP in E.
      rewrite tenant_default in E. destruct (bool_decide_reflect (AuthEngine.secret (AuthService.jwtEngine s) = "")); [done |]. cbn [orb] in E.
      change (AuthService.changePasswordTokenTTL <=? 0)%Z with false in E. injection E as <-. by exists "".
    - unfold AuthService.issueTokens, AuthEngine.IssueTokenWithDeviceFP in E.
      destruct (bool_decide_reflect (AuthEngine.secret (AuthService.jwtEngine s) = "")); [done |]. cbn [orb] in E.
      destruct (_ <=? 0)%Z; [done |]. destruct (AuthService.refresh d); [| done]. injection E as <- <-. by exists fp. }
  destruct Htok as (fp' & -> & Hs). rewrite <- Hj in *. rewrite CheckPermission_issued by done. cbn [Claims.JTI Claims.Permissions issued].
  rewrite andb_true_iff, negb_true_iff, bool_decide_eq_true, (proj1 (expandPermissions_spec u _)). done.
Qed.

(** The token for a first change of password is no lesser token: a user who
    has to change the password first, and from whom the gateway withholds
    everything, still gets a token that the check of permissions honours in full for
    five minutes. *)
Theorem change_token_unrestricted d now name pw tenant fp g u :
  let s := svc g in
  GetUserByUsername name (AuthService.store s) = Some u -> User.Status u = StatusActive -> VerifyPassword (User.PasswordHash u) pw = true ->
  User.MustChangePassword u = true -> AuthEngine.secret (AuthService.jwtEngine s) <> "" ->
  encodable (issued d now u "" AuthService.changePasswordTokenTTL (AuthService.store s)) -> users (AuthService.store s) !! User.ID u = Some u ->
  exists resp, AuthService.LoginWithFP sha256 d now name pw tenant fp s = (s, Ok resp) /\
    TokenResponse.ChangePasswordToken resp = TokenResponse.AccessToken resp /\
    forall now' p, live now AuthService.changePasswordTokenTTL now' -> IsBlacklisted now' (AuthService.jti d) (AuthService.store s) = false ->
      role_grants u (AuthService.store s) p ->
      AuthService.CheckPermission now' (TokenResponse.AccessToken resp) p s = true /\
      forall r, bearerOrCookie r = TokenResponse.AccessToken resp -> TokenResponse.AccessToken resp <> "" ->
        requirePermission now' r p g = Some (Response.error 403 "password change required").
Proof using Type.
  intros s Hu Ha Hv Hm Hs Henc Hid. unfold AuthService.LoginWithFP. rewrite Hu, Hv, Hm, bool_decide_true by done. cbn [negb].
  unfold AuthService.issueChangePasswordTokens, AuthEngine.IssueTokenWithTTL, AuthEngine.IssueTokenWithDeviceFP. rewrite tenant_default.
  rewrite bool_decide_false by done. cbn [orb]. change (AuthService.changePasswordTokenTTL <=? 0)%Z with false. cbn iota.
  eexists. split; [done |]. split; [done |]. cbn [TokenResponse.AccessToken]. intros now' p Hlive Hb Hp.
  fold (issued d now u "" AuthService.changePasswordTokenTTL (AuthService.store s)). split.
  - rewrite CheckPermission_issued by done. cbn [Claims.JTI issued]. rewrite Hb. cbn [negb andb]. apply bool_decide_true.
    by apply (expandPermissions_spec u).
  - intros r Hr Hne. unfold requirePermission. rewrite Hr, bool_decide_false by done. unfold AuthService.ValidateToken, AuthEngine.ValidateToken.
    rewrite bool_decide_false by done. fold s. rewrite Parse_Sign by done. destruct Hlive as [Hl1 Hl2].
    rewrite (proj2 (Z.leb_le _ _)), (proj2 (Z.ltb_lt _ _)) by done. cbn [andb].
    change (Claims.JTI (issued d now u "" AuthService.changePasswordTokenTTL (AuthService.store s))) with (AuthService.jti d). rewrite Hb.
    change (Claims.UserID (issued d now u "" AuthService.changePasswordTokenTTL (AuthService.store s))) with (User.ID u).
    unfold AuthStore.GetUser, store. fold s. rewrite Hid, Hm, bool_decide_true by done. done.
Qed.

(** A refresh token outlives the password: after the password has been
    changed, a refresh token from before still yields new tokens. *)
Theorem refresh_survives_password_change d salt now id old new s s1 tok fp rt u tokens :
  AuthService.ChangePassword salt id old new s = (s1, Ok tt) ->
  refreshTokens (AuthService.store s) !! sha256 tok = Some rt -> RefreshToken.UserID rt = id -> (now <= RefreshToken.ExpiresAt rt)%Z ->
  RefreshToken.DeviceFP rt = "" \/ RefreshToken.DeviceFP rt = fp ->
  users (AuthService.store s) !! id = Some u -> User.Status u = StatusActive ->
  AuthEngine.secret (AuthService.jwtEngine s) <> "" -> (0 < AuthEngine.accessTTL (AuthService.jwtEngine s))%Z -> AuthService.refresh d = Some tokens ->
  exists s2 resp, AuthService.refreshTokenFP sha256 d now tok fp "" s1 = (s2, Ok resp) /\ TokenResponse.RefreshToken resp = tokens /\
    User.ID (TokenResponse.User resp) = User.ID u.
Proof using Type.
  intros Hc Ht Hid Hx Hfp Hu Ha Hs Httl Hd. unfold AuthService.ChangePassword, AuthStore.GetUser in Hc. rewrite Hu in Hc.
  destruct (VerifyPassword _ _); [| done]. cbn [negb] in Hc. destruct (HashPassword _ _) as [hash |]; [| done]. injection Hc as <-.
  unfold AuthStore.ChangePassword, change_user. rewrite Hu. cbn [fst]. unfold AuthService.refreshTokenFP, ConsumeRefreshToken.
  cbn [AuthService.store AuthService.set_store set_users refreshTokens]. unfold AuthService.HashRefreshToken. rewrite Ht. unfold After.
  rewrite (proj2 (Z.ltb_ge _ _)) by done.
  assert ((RefreshToken.DeviceFP rt != "") && (fp != RefreshToken.DeviceFP rt) = false) as ->.
  { destruct Hfp as [-> | ->]; [done |]. by rewrite (bool_decide_true (fp = fp)), andb_false_r. }
  unfold AuthStore.GetUser. cbn [AuthService.store AuthService.set_store users set_users set_refreshTokens]. rewrite Hid, lookup_insert_eq. cbn [User.Status User.set_MustChangePassword User.set_PasswordHash User.MustChangePassword].
  rewrite bool_decide_true by done. cbn [negb]. unfold AuthService.issueTokens, AuthEngine.IssueTokenWithDeviceFP. cbn [AuthService.jwtEngine AuthService.set_store].
  rewrite bool_decide_false, (proj2 (Z.leb_gt _ _)) by done. cbn [orb]. rewrite Hd. by do 2 eexists.
Qed.

(** Who may change users may become administrator: with the permission
    user:write alone, without role:assign, a caller gives any user, also itself, any
    roles, and every permission of these roles is in the next token. *)
Theorem user_write_gives_any_role now r id roleIDs g u :
  requirePermission now r "user:write" g = None -> Request.Method r = MethodPut ->
  id <> "" -> HasSuffix "/revoke-sessions" id = false -> HasSuffix "/approve" id = false -> HasSuffix "/reject" id = false ->
  users (store g) !! id = Some u ->
  let g' := (managementHandler now "user" (handleUserDetail now r (Some ("", "", Some roleIDs)) id) r g).1 in
  users (store g') !! id = Some (User.set_RoleIDs roleIDs u) /\ roles (store g') = roles (store g) /\
  forall rid role p, rid ∈ roleIDs -> roles (store g) !! rid = Some role -> p ∈ Role.Permissions role ->
    p ∈ AuthService.expandPermissions (User.set_RoleIDs roleIDs u) (store g').
Proof using Type.
  intros Hp Hm Hid H1 H2 H3 Hu. cbv zeta. unfold managementHandler, management_permission. rewrite Hm.
  change (MethodPut == MethodGet) with false. change (MethodPut == MethodDelete) with false. cbn iota. change ("user" +:+ ":write") with "user:write".
  rewrite Hp. unfold handleUserDetail. rewrite bool_decide_false, H1, H2, H3, Hm by done. cbn [orb]. change (MethodPut == MethodPut) with true. cbn iota.
  unfold handleUpdateUser. rewrite Hp. change ("" != "") with false. cbn iota.
  unfold AuthService.UpdateUserFields, AuthStore.GetUser. fold (store g). rewrite Hu. change ("" != "") with false. cbn iota.
  unfold AuthService.UpdateUser, AuthStore.UpdateUser, change_user. fold (store g). rewrite Hu.
  match goal with |- context [<[id := ?x]> _] => assert (E : x = User.set_RoleIDs roleIDs u) end.
  { cbn [User.Email User.set_RoleIDs User.Status User.RoleIDs]. destruct u as [i n e ph st rs t c mc]. cbn. by do 2 case_bool_decide. }
  rewrite E. unfold AuthService.GetUser, AuthStore.GetUser. cbn [AuthService.store AuthService.set_store users set_users]. rewrite lookup_insert_eq.
  unfold store. cbn [fst svc set_svc AuthService.store AuthService.set_store users roles set_users]. rewrite lookup_insert_eq. split; [done |]. split; [done |].
  intros rid role p Hrid Hrole Hpp. apply expandPermissions_spec. exists rid, role. by split_and!.
Qed.
End access.
