(* ===== verification/AuthGuard.v ===== *)
(** * How many guesses the guard lets through

    In any fifteen minutes at most eight wrong passwords of an account are tried,
    and a new address gets five requests at once.  The windows of the guard do not
    slide, so five failures in a row need not lock the account. *)

From Stdlib Require Import Ascii.
From S2P Require Import Prelude Float64 GoStrings Auth AuthGateway AuthProps.
Import LoginGuard Gateway.
Open Scope go_scope.

(** ** Guesses *)

(** Locked since five failures, for fifteen minutes after the last. *)
Definition record_ok (now : time) (r : failures) : Prop :=
  (1 <= fails r /\ windowAt r <= now /\ (guardMaxFails <= fails r -> windowAt r + guardLockDur <= lockedTo r /\ 0 < lockedTo r) /\
   (fails r < guardMaxFails -> lockedTo r = 0))%Z.

(** The wrong guesses still possible between [from] and fifteen minutes later. *)
Definition guesses_left (from : time) (rec : option failures) : Z :=
  match rec with
  | None => 5
  | Some r =>
      if (guardMaxFails <=? fails r)%Z then (if (from + guardLockDur <=? lockedTo r)%Z then 0 else 5)
      else if (from <=? windowAt r)%Z then 5 - fails r else 9 - fails r
  end%Z.

Lemma locked_record now name g :
  accountLocked now name g = match failed g !! name with Some r => negb ((lockedTo r =? 0) || (lockedTo r <? now))%Z | None => false end.
Proof. done. Qed.

Lemma guesses_left_bounds from now rec : (forall r, rec = Some r -> record_ok now r) -> (0 <= guesses_left from rec <= 8)%Z.
Proof.
  intros Hr. unfold guesses_left, guardMaxFails. destruct rec as [r |]; [| lia]. destruct (Hr r eq_refl) as (H1 & _).
  destruct (Z.leb_spec 5 (fails r)), (Z.leb_spec from (windowAt r)), (Z.leb_spec (from + guardLockDur) (lockedTo r)); lia.
Qed.

(** A wrong guess uses one up. *)
Lemma guess_counts from now name g :
  (0 <= from <= now)%Z -> (now <= from + guardFailWindow)%Z -> (forall r, failed g !! name = Some r -> record_ok now r) ->
  accountLocked now name g = false ->
  let r' := counted now (window_of now (failed g !! name)) in
  record_ok now r' /\ (guesses_left from (Some r') < guesses_left from (failed g !! name))%Z.
Proof.
  intros Hf Hn Hr Hl. cbv zeta. rewrite locked_record in Hl. change guardFailWindow with 900000000000%Z in Hn.
  assert (Hnew : record_ok now (counted now {| fails := 0; windowAt := now; lockedTo := 0 |}) /\
    guesses_left from (Some (counted now {| fails := 0; windowAt := now; lockedTo := 0 |})) = 4%Z).
  { change (counted now _) with {| fails := 1; windowAt := now; lockedTo := 0 |}.
    unfold record_ok, guesses_left, guardMaxFails. cbn [fails windowAt lockedTo]. change (5 <=? 1)%Z with false. cbn iota.
    rewrite (proj2 (Z.leb_le from now)) by lia. split; [lia | done]. }
  destruct Hnew as [Hnew1 Hnew2]. destruct (failed g !! name) as [r |]; cbn [window_of]; [| rewrite Hnew2; by split].
  destruct (Hr r eq_refl) as (H1 & H2 & H3 & H4). apply negb_false_iff, orb_true_iff in Hl.
  rewrite Z.eqb_eq, Z.ltb_lt in Hl. unfold guesses_left in *. change guardMaxFails with 5%Z in *. change guardLockDur with 900000000000%Z in *.
  destruct (Z.gtb_spec (Sub now (windowAt r)) guardFailWindow) as [Hw | Hw].
  - assert (Hw' : (now - windowAt r > 900000000000)%Z) by (apply (Sub_gt now (windowAt r) guardFailWindow); [done | lia]).
    rewrite Hnew2. split; [done |].
    destruct (Z.leb_spec 5 (fails r)), (Z.leb_spec from (windowAt r)), (Z.leb_spec (from + 900000000000) (lockedTo r)); lia.
  - assert (Hw' : (now - windowAt r <= 900000000000)%Z).
    { apply Z.nlt_ge. intros Hc%Z.lt_gt. apply (Sub_gt now (windowAt r) guardFailWindow) in Hc; [lia | done]. }
    unfold record_ok, counted. change guardMaxFails with 5%Z. change guardLockDur with 900000000000%Z. cbn [fails windowAt lockedTo].
    destruct (Z.geb_spec (fails r + 1) 5), (Z.leb_spec 5 (fails r + 1)), (Z.leb_spec 5 (fails r)), (Z.leb_spec from (windowAt r)),
      (Z.leb_spec (from + 900000000000) (lockedTo r)), (Z.leb_spec (from + 900000000000) (now + 900000000000)); lia.
Qed.

(** ** Requests *)

Section guard.
Context `{JWT} `{PasswordHash} (sha256 ToLower : string -> string).
Context (range : gmap string Role.t -> list Role.t) (range_users : gmap string User.t -> list User.t)
  (range_permissions : gmap string Permission.t -> list Permission.t).

Abbreviation serve := (serve sha256 ToLower range range_users range_permissions).
Abbreviation serve_all := (serve_all sha256 ToLower range range_users range_permissions).

(** [c] is a login as [name]. *)
Definition logs_in (name : string) (c : call) : Prop := exists d now r pw, c = CLogin d now r (Some (name, pw)).
#[local] Instance logs_in_dec name c : Decision (logs_in name c).
Proof using Type.
  destruct c as [d now r [[n pw] |] | | | | | | | | | |]; try (right; intros (? & ? & ? & ? & [=]); fail).
  destruct (decide (n = name)) as [-> | Hne]; [left; by do 4 eexists | right; by intros (? & ? & ? & ? & [= -> -> -> ->])].
Defined.

(** A password was tried and was wrong. *)
Definition wrong_guess (name : string) (c : call) (g : Gateway.t) : bool := bool_decide (logs_in name c) && (Response.Code (serve c g).2 =? 401)%Z.

Fixpoint wrong_guesses (name : string) (cs : list call) (g : Gateway.t) : nat :=
  match cs with [] => 0 | c :: cs => (if wrong_guess name c g then 1 else 0) + wrong_guesses name cs (serve c g).1 end.

(** No login as [name] succeeds. *)
Fixpoint no_success (name : string) (cs : list call) (g : Gateway.t) : Prop :=
  match cs with [] => True | c :: cs => ~ (logs_in name c /\ Response.Code (serve c g).2 = 200%Z) /\ no_success name cs (serve c g).1 end.

Lemma allow_failed now r g : failed (guard (allow now r g).1) = failed (guard g).
Proof using Type. unfold allow, allowIP. by destruct (f_lt _ _). Qed.

Local Ltac sweep := repeat match goal with
  | |- context [let '(_, _) := ?x in _] => destruct x
  | |- context [match ?x with _ => _ end] => destruct x end; first [done | assumption].

Lemma login_failed d now r b g name :
  let g' := (handleLogin sha256 range d now r b g).1 in
  match b with
  | Some (n, _) =>
      if bool_decide (n = name) then
        (failed (guard g') !! name = failed (guard g) !! name /\ Response.Code (handleLogin sha256 range d now r b g).2 <> 401%Z) \/
        (failed (guard g') !! name = Some (counted now (window_of now (failed (guard g) !! name))) /\ accountLocked now name (guard g) = false) \/
        (failed (guard g') !! name = None /\ Response.Code (handleLogin sha256 range d now r b g).2 = 200%Z)
      else failed (guard g') !! name = failed (guard g) !! name
  | None => failed (guard g') = failed (guard g)
  end.
Proof using Type.
  cbv zeta. unfold handleLogin. destruct (Request.Method r != _); [destruct b as [[n pw] |]; [case_bool_decide; [by left |] |]; done |].
  destruct b as [[n pw] |]; [| done]. pose proof (allow_failed now r g) as Ha. pose proof (allow_svc now r g) as Hs.
  destruct (_ || _); [case_bool_decide; [by left | done] |]. destruct (allow now r g) as [g1 ok]. cbn [fst] in Ha, Hs. rewrite <- Ha.
  destruct ok; cbn [negb]; [| case_bool_decide; [by left | done]].
  assert (Hlock : accountLocked now name (guard g) = accountLocked now name (guard g1)) by (unfold accountLocked; by rewrite Ha).
  rewrite Hlock. destruct (accountLocked now n (guard g1)) eqn:El; [case_bool_decide; [by left | done] |].
  destruct (AuthService.LoginWithFP _ _ _ _ _ _ _ _) as [s [resp | e]].
  - destruct (DeviceFP.checkAndRegister _ _ _ _) as [fps [kn mfa]]. case_bool_decide as E; cbn; [| by apply lookup_delete_ne].
    right; right. split; [subst n; apply lookup_delete_eq | done].
  - case_bool_decide as E; cbn; [subst n; right; left; by rewrite lookup_insert_eq | by apply lookup_insert_ne].
Qed.

Lemma other_failed c g : (forall d now r b, c <> CLogin d now r b) -> failed (guard (serve c g).1) = failed (guard g).
Proof using Type.
  destruct c as [d now r b | now r | d now r | uuid salt now r b | d salt now r b | now r | uuid salt now r b | now r b rest | uuid now r b | now r b rest | now r];
    intros Hc; cbn [Gateway.serve]; try (unfold managementHandler; destruct (requirePermission _ _ (management_permission _ _) _); [done |]).
  - by destruct (Hc d now r b).
  - unfold handleLogout. sweep.
  - unfold handleRefresh. sweep.
  - unfold handleRegister. pose proof (allow_failed now r g) as Ha. destruct (allow now r g) as [g1 ok]. cbn [fst] in Ha. sweep.
  - unfold handleChangePassword. pose proof (allow_failed now r g) as Ha. destruct (allow now r g) as [g1 ok]. cbn [fst] in Ha. sweep.
  - done.
  - unfold handleUsers. sweep.
  - unfold handleUserDetail, revokeSessions, decideUser, handleUpdateUser. sweep.
  - unfold handleRoles. sweep.
  - unfold handleRoleDetail, handleUpdateRole. sweep.
  - unfold handlePermissions. sweep.
Qed.

(** ** Bounds *)

(** The clock does not go back, and starts after the zero time. *)
Definition in_order (from : time) (cs : list call) : Prop := StronglySorted Z.le (from :: map time_of cs).

Lemma in_order_cons from c cs : in_order from (c :: cs) <-> (from <= time_of c)%Z /\ in_order (time_of c) cs.
Proof using Type.
  unfold in_order. cbn [map]. split.
  - intros [Hs Hf]%StronglySorted_inv. split; [by apply Forall_inv in Hf | done].
  - intros [Hle Hs]. constructor; [done |]. constructor; [done |]. apply StronglySorted_inv in Hs as [_ Hf].
    eapply Forall_impl; [exact Hf |]. simpl. intros. lia.
Qed.

Definition guard_ok (now : time) (name : string) (g : Gateway.t) : Prop :=
  (0 <= now)%Z /\ forall r, failed (guard g) !! name = Some r -> record_ok now r.

Lemma record_later now now' r : record_ok now r -> (now <= now')%Z -> record_ok now' r.
Proof using Type. unfold record_ok. lia. Qed.

(** One request: the guard stays well, and a wrong guess uses one up. *)
Lemma serve_guess from name c g :
  (0 <= from)%Z -> guard_ok (time_of c) name g ->
  guard_ok (time_of c) name (serve c g).1 /\
  ((from <= time_of c <= from + guardFailWindow)%Z -> ~ (logs_in name c /\ Response.Code (serve c g).2 = 200%Z) ->
   ((if wrong_guess name c g then 1 else 0) + guesses_left from (failed (guard (serve c g).1) !! name) <= guesses_left from (failed (guard g) !! name))%Z).
Proof using Type.
  intros Hfrom [Hn Hr]. destruct (decide (logs_in name c)) as [(d & now & r & pw & ->) | Hno].
  - pose proof (login_failed d now r (Some (name, pw)) g name) as Hl. cbv zeta in Hl. cbn iota in Hl. rewrite bool_decide_true in Hl by done.
    unfold wrong_guess, guard_ok. rewrite (bool_decide_true (logs_in _ _)) by (by do 4 eexists). cbn [andb]. cbn [Gateway.serve time_of] in *.
    destruct Hl as [[-> Hc] | [[-> Hlk] | [-> Hc]]].
    + split; [done |]. rewrite (proj2 (Z.eqb_neq _ _)) by done. lia.
    + destruct (guess_counts now now name (guard g)) as [Hok _]; try done; [change guardFailWindow with 900000000000%Z; lia |].
      split; [split; [done |]; by intros ? [= <-] |]. intros Hw _.
      destruct (guess_counts from now name (guard g)) as [_ Hlt]; try done; [lia | lia |]. destruct (_ =? 401)%Z; lia.
    + split; [by split |]. intros _ Hno. destruct Hno. split; [by do 4 eexists | done].
  - unfold wrong_guess, guard_ok. rewrite bool_decide_false by done. cbn [andb].
    assert (Hf : failed (guard (serve c g).1) !! name = failed (guard g) !! name).
    { destruct c as [d now r b | | | | | | | | | |]; try (rewrite other_failed; [done | by intros]). cbn [Gateway.serve].
      pose proof (login_failed d now r b g name) as Hl. cbv zeta in Hl. destruct b as [[n pw] |]; [| by rewrite Hl].
      destruct (bool_decide_reflect (n = name)) as [-> | Hne]; [| done]. destruct Hno. by do 4 eexists. }
    rewrite Hf. split; [done | lia].
Qed.

End guard.

(** Failures of [name], one after the other. *)
Definition fail_at (name : string) (g : LoginGuard.t) (t : time) : LoginGuard.t := recordFail (t * second) name g.

(** The window does not slide: after a failure a quarter of an hour ago,
    seven failures within a minute and a half do not lock the account, although
    five in fifteen minutes should; the next one does. *)
Theorem window_does_not_slide :
  let g := foldl (fail_at "root") newLoginGuard [60; 900; 901; 902; 961; 962; 963; 964]%Z in
  accountLocked (964 * second) "root" g = false /\ accountLocked (965 * second) "root" (fail_at "root" g 965) = true.
Proof. vm_compute. by split. Qed.

(** ** Addresses *)

(** [n] requests of an address at one instant. *)
Fixpoint burst (now : time) (ip : string) (n : nat) (g : LoginGuard.t) : list bool :=
  match n with 0 => [] | S n => let '(g, ok) := allowIP now ip g in ok :: burst now ip n g end.

Definition with_tokens (now : time) (f : float64) : bucket := {| tokens := f; last := now |}.

Lemma whole_tokens k : (0 <= k <= 5)%Z ->
  f_add (f_of_int k) (f_mul f_zero guardRateRefill) = f_of_int k /\ f_lt guardRateBurst (f_of_int k) = false /\
  f_lt (f_of_int k) f_one = negb (0 <? k)%Z /\ ((0 < k)%Z -> f_sub (f_of_int k) f_one = f_of_int (k - 1)).
Proof.
  intros Hk. assert (k = 0 \/ k = 1 \/ k = 2 \/ k = 3 \/ k = 4 \/ k = 5)%Z as [-> | [-> | [-> | [-> | [-> | ->]]]]] by lia;
    split_and!; try (intros _); vm_compute; reflexivity.
Qed.

(** Without time passing, a bucket of whole tokens gives one token. *)
Lemma allow_whole now ip g k :
  (0 <= k <= 5)%Z -> default (with_tokens now guardRateBurst) (ips g !! ip) = with_tokens now (f_of_int k) ->
  exists g', allowIP now ip g = (g', (0 <? k)%Z) /\ ips g' !! ip = Some (with_tokens now (f_of_int (Z.max 0 (k - 1)))).
Proof.
  intros Hk Hg. destruct (whole_tokens k Hk) as (H1 & H2 & H3 & H4). unfold allowIP.
  change {| tokens := guardRateBurst; last := now |} with (with_tokens now guardRateBurst). rewrite Hg. unfold refill, with_tokens. cbn [tokens last].
  assert (Seconds (Sub now now) = f_zero) as -> by (unfold Sub; rewrite Z.sub_diag; reflexivity). rewrite H1, H2, H3.
  destruct (Z.ltb_spec 0 k); cbn [negb].
  - rewrite H4 by done. eexists. split; [done |]. cbn [ips]. rewrite lookup_insert_eq. by rewrite Z.max_r by lia.
  - assert (k = 0%Z) as -> by lia. eexists. split; [done |]. cbn [ips]. apply lookup_insert_eq.
Qed.

(** Of the requests an unknown address sends at one instant the first five
    are let through, and no other. *)
Theorem new_address_gets_five now ip n g :
  ips g !! ip = None -> burst now ip n g = take n (replicate 5 true) ++ replicate (n - 5) false.
Proof.
  intros Hg. assert (Hk : forall n k g, (0 <= k <= 5)%Z -> default (with_tokens now guardRateBurst) (ips g !! ip) = with_tokens now (f_of_int k) ->
    burst now ip n g = take n (replicate (Z.to_nat k) true) ++ replicate (n - Z.to_nat k) false).
  { clear. induction n as [| n IH]; intros k g Hk Hg; [done |]. cbn [burst].
    destruct (allow_whole now ip g k Hk Hg) as (g' & -> & Hg'). rewrite (IH (Z.max 0 (k - 1))) by (try rewrite Hg'; done || lia).
    destruct (Z.ltb_spec 0 k).
    - replace (Z.to_nat k) with (S (Z.to_nat (Z.max 0 (k - 1)))) by lia. done.
    - assert (k = 0%Z) as -> by lia. cbn. rewrite Nat.sub_0_r. by destruct n. }
  rewrite (Hk n 5%Z g); [done | done |]. by rewrite Hg.
Qed.
