(* ===== verification/AuthExamples.v ===== *)
(** * The authentication service on concrete inputs

    A toy signature and a toy hash obey the laws of the interfaces; with them the
    theorems about tokens, names, approvals and guesses are applied to small runs of
    the gateway. *)

From Stdlib Require Import Ascii.
From S2P Require Import Prelude Float64 GoStrings Auth AuthGateway AuthProps AuthTokens AuthAccess AuthGuard.
Import AuthStore Gateway.
Open Scope go_scope.

(** ** Toy instances *)

(** A text with its characters marked, and its end. *)
Fixpoint put (s r : string) : string := match s with "" => String "." r | String c s' => String "x" (String c (put s' r)) end.
Fixpoint get (i : string) : option (string * string) :=
  match i with
  | String "." r => Some ("", r)
  | String "x" (String c i') => match get i' with Some (s, r) => Some (String c s, r) | None => None end
  | _ => None
  end.
Lemma get_put s r : get (put s r) = Some (s, r).
Proof. induction s as [| c s IH]; [done |]. cbn. by rewrite IH. Qed.

Fixpoint put_list (l : list string) : string := match l with [] => "" | s :: l => put s (put_list l) end.
Fixpoint get_list (i acc : string) : list string :=
  match i with
  | String "." r => acc :: get_list r ""
  | String "x" (String c i') => get_list i' (acc +:+ String c "")
  | _ => []
  end.
Lemma get_list_put s r acc : get_list (put s r) acc = (acc +:+ s) :: get_list r "".
Proof.
  revert acc. induction s as [| c s IH]; intros acc; cbn; [by rewrite app_nil_r_string |]. rewrite IH. by rewrite app_assoc_string.
Qed.
Lemma get_put_list l : get_list (put_list l) "" = l.
Proof. induction l as [| s l IH]; [done |]. cbn [put_list]. rewrite get_list_put, IH. done. Qed.

Fixpoint bits (p : positive) : string := match p with xH => "" | xO p => String "0" (bits p) | xI p => String "1" (bits p) end.
Fixpoint unbits (s : string) : positive := match s with String "0" s => xO (unbits s) | String "1" s => xI (unbits s) | _ => xH end.
Lemma unbits_bits p : unbits (bits p) = p.
Proof. induction p as [p IH | p IH |]; cbn; by rewrite ?IH. Qed.
Definition put_int (z : Z) : string := match z with Z0 => "" | Zpos p => String "+" (bits p) | Zneg p => String "-" (bits p) end.
Definition get_int (s : string) : Z := match s with String "+" s => Zpos (unbits s) | String "-" s => Zneg (unbits s) | _ => 0%Z end.
Lemma get_put_int z : get_int (put_int z) = z.
Proof. destruct z; cbn; by rewrite ?unbits_bits. Qed.

Definition toy_sign (secret : string) (c : Claims.t) (from : time) : string :=
  put secret (put_list [Claims.UserID c; Claims.Username c; put_list (Claims.Roles c); put_list (Claims.Permissions c); Claims.TenantID c;
    Claims.DeviceFP c; Claims.JTI c; put_int (Claims.ExpiresAt c); put_int from]).
Definition toy_parse (secret : string) (now : time) (tok : string) : option Claims.t :=
  match get tok with
  | Some (secret', r) =>
      if secret' == secret then
        match get_list r "" with
        | [u; n; rs; ps; t; f; j; x; from] =>
            if (get_int from <=? now)%Z && (now <? get_int x)%Z then Some (Claims.mk u n (get_list rs "") (get_list ps "") t f j (get_int x)) else None
        | _ => None
        end
      else None
  | None => None
  end.

#[local] Program Instance toy_jwt : JWT := {| Sign := toy_sign; ParseWithClaims := toy_parse; encodable _ := True |}.
Next Obligation.
  intros secret c from now _. unfold toy_parse, toy_sign. rewrite get_put, bool_decide_true by done. rewrite get_put_list.
  rewrite !get_put_int, !get_put_list. by destruct c.
Qed.

#[local] Program Instance toy_hash : PasswordHash := {|
  HashPassword salt pw := Some (put salt pw);
  VerifyPassword hash pw := match get hash with Some (_, r) => r == pw | None => false end |}.
Next Obligation. intros salt pw hash [= <-]. cbn. rewrite get_put. by rewrite bool_decide_true. Qed.

(** A gateway whose administrator has chosen a password. *)
Definition ex_engine : AuthEngine.t := AuthEngine.NewEngine "secret" (15 * minute) (168 * hour).
Definition ex_store : AuthStore.t := NewMemoryStore (fun m => (map_to_list m).*2) 0 (put "s" "admin123").
Definition ex_gateway : Gateway.t := NewGateway (AuthService.NewService ex_engine ex_store).
Definition ex_range : gmap string Role.t -> list Role.t := fun m => (map_to_list m).*2.
Definition ex_range_users : gmap string User.t -> list User.t := fun m => (map_to_list m).*2.
Definition ex_range_permissions : gmap string Permission.t -> list Permission.t := fun m => (map_to_list m).*2.
Definition ex_serve := serve (fun s => s) (fun s => s) ex_range ex_range_users ex_range_permissions.
Definition ex_serve_all := serve_all (fun s => s) (fun s => s) ex_range ex_range_users ex_range_permissions.
Definition ex_req (method at_ rt : string) : Request.t := Request.mk method "10.0.0.1" "fp" at_ rt "".
Definition ex_draws (n : string) : AuthService.draws := {| AuthService.jti := "jti-" +:+ n; AuthService.refresh := Some ("rt-" +:+ n) |}.
Definition at_second (n : Z) : time := (n * second)%Z.

(** An active user "ann" with the roles [roles]. *)
Definition ex_user (name : string) (roles : list string) (status : string) (must : bool) : User.t :=
  User.mk ("user-" +:+ name) name "" (put "s" "pw") status roles "acme" 1 must.
Definition ex_writer : Role.t := Role.mk "role-writer" "writer" "" ["user:write"] 1.
Definition ex_with (us : list User.t) : Gateway.t :=
  set_svc (AuthService.NewService ex_engine (foldr add_user (add_role ex_writer ex_store) us)) ex_gateway.
Definition ex_ann : User.t := ex_user "ann" ["role-writer"] StatusActive false.

(** The token ann gets at second 100. *)
Definition ex_token (g : Gateway.t) (u : User.t) (ttl : duration) : string :=
  Sign "secret" (issued (ex_draws "1") (at_second 100) u "fp" ttl (store g)) (at_second 100).

(** ** The theorems applied *)

Definition ex_login (n name pw : string) (t : Z) : call := CLogin (ex_draws n) (at_second t) (ex_req "POST" "" "") (Some (name, pw)).
Definition ex_ann_in : Gateway.t := (ex_serve (ex_login "1" "ann" "pw" 100) (ex_with [ex_ann])).1.

(** ann's refresh token is exchanged once, with success; not again. *)
Lemma refresh_token_works_once_witness :
  Response.Code (ex_serve (CRefresh (ex_draws "2") (at_second 200) (ex_req "POST" "" "rt-1")) ex_ann_in).2 = 200%Z /\
  (ex_serve (CRefresh (ex_draws "4") (at_second 201) (ex_req "POST" "" "rt-1"))
    (ex_serve_all [CRefresh (ex_draws "2") (at_second 200) (ex_req "POST" "" "rt-1"); ex_login "3" "ann" "pw" 200] ex_ann_in)).2 =
    Response.cleared 401 (BError "refresh failed").
Proof.
  split; [vm_compute; reflexivity |].
  apply (refresh_token_works_once (fun s => s) (fun s => s) ex_range ex_range_users ex_range_permissions "rt-1"
    (CRefresh (ex_draws "2") (at_second 200) (ex_req "POST" "" "rt-1")) [ex_login "3" "ann" "pw" 200] (ex_draws "4") (at_second 201) (ex_req "POST" "" "rt-1"));
    [by split | done | | done | done].
  repeat apply List.Forall_cons; try apply List.Forall_nil; intros tok [= <-]; done.
Defined.

(** ann logs out; the token is refused before it expires. *)
Lemma logout_is_final_witness :
  let tok := ex_token (ex_with [ex_ann]) ex_ann (15 * minute) in
  AuthService.CheckPermission (at_second 200) tok "user:write" (svc ex_ann_in) = true /\
  AuthService.CheckPermission (at_second 300) tok "user:write"
    (svc (ex_serve_all [CLogout (at_second 250) (ex_req "POST" tok "rt-1"); ex_login "3" "ann" "pw" 260] ex_ann_in)) = false.
Proof.
  split; [vm_compute; reflexivity |].
  refine (proj2 (logout_is_final (fun s => s) (fun s => s) ex_range ex_range_users ex_range_permissions
    (issued (ex_draws "1") (at_second 100) ex_ann "fp" (15 * minute) (store (ex_with [ex_ann]))) (at_second 100) (at_second 250)
    (ex_req "POST" (ex_token (ex_with [ex_ann]) ex_ann (15 * minute)) "rt-1") [ex_login "3" "ann" "pw" 260] ex_ann_in (at_second 300) "user:write"
    I ltac:(done) ltac:(done) eq_refl _ _ _ _)).
  - vm_compute. reflexivity.
  - vm_compute. discriminate.
  - split; vm_compute; discriminate.
  - repeat apply List.Forall_cons; try apply List.Forall_nil; intros n q [= <- <-]. split; [vm_compute; discriminate |].
    intros claims Hc _. vm_compute in Hc. injection Hc as <-. split; vm_compute; reflexivity.
Defined.

Lemma seeded_names_ok range now hash : names_ok (NewMemoryStore range now hash).
Proof.
  split; cbn.
  - intros id u [<- <-]%lookup_singleton_Some. by rewrite lookup_insert_eq.
  - intros n id [<- <-]%lookup_singleton_Some. eexists. by rewrite lookup_insert_eq.
Qed.

Definition ex_register (uuid name : string) (t : Z) : call :=
  CRegister uuid "s" (at_second t) (ex_req "POST" "" "") (Some (name, "Corr3ct-Horse", "", "acme")).

(** The second registration of a name is refused. *)
Lemma usernames_identify_users_witness :
  let cs := [ex_register "1" "bob" 10; ex_register "2" "bob" 11; ex_register "3" "eve" 12] in
  Response.Code (ex_serve (ex_register "2" "bob" 11) (ex_serve_all [ex_register "1" "bob" 10] ex_gateway)).2 = 409%Z /\
  size (users (store (ex_serve_all cs ex_gateway))) = 3 /\ names_ok (store (ex_serve_all cs ex_gateway)).
Proof.
  split; [vm_compute; reflexivity |]. split; [vm_compute; reflexivity |].
  refine (proj1 (usernames_identify_users (fun s => s) (fun s => s) ex_range ex_range_users ex_range_permissions
    [ex_register "1" "bob" 10; ex_register "2" "bob" 11; ex_register "3" "eve" 12] ex_gateway (seeded_names_ok _ _ _) _)).
  repeat split; intros uuid [= <-]; vm_compute; reflexivity.
Defined.

(** bob waits; an approval by ann, who may not approve, changes nothing. *)
Definition ex_bob : User.t := ex_user "bob" ["role-viewer"] StatusPending false.
Lemma pending_until_approved_witness :
  let tok := ex_token (ex_with [ex_ann; ex_bob]) ex_ann (15 * minute) in
  let cs := [CUser (at_second 110) (ex_req "POST" tok "") None "user-bob/approve"; ex_login "5" "bob" "pw" 120] in
  Response.Code (ex_serve (ex_login "6" "bob" "pw" 130) (ex_serve_all cs (ex_with [ex_ann; ex_bob]))).2 <> 200%Z.
Proof.
  refine (proj2 (pending_until_approved (fun s => s) (fun s => s) ex_range ex_range_users ex_range_permissions
    [CUser (at_second 110) (ex_req "POST" (ex_token (ex_with [ex_ann; ex_bob]) ex_ann (15 * minute)) "") None "user-bob/approve"; ex_login "5" "bob" "pw" 120]
    (ex_with [ex_ann; ex_bob]) "user-bob" ex_bob _ eq_refl _ _) (ex_draws "6") (at_second 130) (ex_req "POST" "" "") "bob" "pw" ex_bob _ _).
  - vm_compute. reflexivity.
  - repeat split; intros Hc; vm_compute in Hc; discriminate.
  - repeat apply List.Forall_cons; try apply List.Forall_nil; intros uuid [=].
  - vm_compute. reflexivity.
  - vm_compute. reflexivity.
Defined.

Definition ex_ann_service : AuthService.t := svc (ex_with [ex_ann]).

(** ann's login grants what her role has, and nothing else. *)
Lemma login_grants_role_permissions_witness :
  exists resp, (AuthService.LoginWithFP (fun s => s) (ex_draws "1") (at_second 100) "ann" "pw" "" "fp" ex_ann_service).2 = Ok resp /\
  AuthService.CheckPermission (at_second 200) (TokenResponse.AccessToken resp) "user:write" ex_ann_service = true /\
  AuthService.CheckPermission (at_second 200) (TokenResponse.AccessToken resp) "role:assign" ex_ann_service = false.
Proof.
  pose (resp := TokenResponse.mk (ex_token (ex_with [ex_ann]) ex_ann (15 * minute)) "rt-1" 900 (AuthService.toProtoUser ex_ann) false "").
  assert (E : (AuthService.LoginWithFP (fun s => s) (ex_draws "1") (at_second 100) "ann" "pw" "" "fp" ex_ann_service).2 = Ok resp) by (vm_compute; reflexivity).
  exists resp. split; [exact E |]. apply pair_of_snd in E.
  destruct (login_grants_role_permissions (fun s => s) (ex_draws "1") (at_second 100) "ann" "pw" "" "fp" ex_ann_service _ resp E) as (u & Hu & _ & _ & Hp).
  assert (u = ex_ann) as -> by (vm_compute in Hu; by injection Hu as <-). cbv zeta in Hp.
  assert (Hl : live (at_second 100) (15 * minute) (at_second 200)) by (split; vm_compute; [discriminate | reflexivity]). split.
  - apply (Hp ex_ann_service (at_second 200) "user:write" eq_refl (fun _ => I) Hl). split; [vm_compute; reflexivity |].
    exists "role-writer", ex_writer. split; [by left |]. split; [vm_compute; reflexivity | by left].
  - apply not_true_is_false. intros Hc. apply (Hp ex_ann_service (at_second 200) "role:assign" eq_refl (fun _ => I) Hl) in Hc as [_ (rid & r & Hr & E2 & Hin)].
    cbn in Hr. apply list_elem_of_singleton in Hr as ->. vm_compute in E2. injection E2 as <-. by apply list_elem_of_singleton in Hin.
Defined.

(** dan has to change the password first. *)
Definition ex_dan : User.t := ex_user "dan" ["role-writer"] StatusActive true.
Lemma change_token_unrestricted_witness :
  exists resp, AuthService.LoginWithFP (fun s => s) (ex_draws "1") (at_second 100) "dan" "pw" "" "fp" (svc (ex_with [ex_dan])) = (svc (ex_with [ex_dan]), Ok resp) /\
  AuthService.CheckPermission (at_second 200) (TokenResponse.AccessToken resp) "user:write" (svc (ex_with [ex_dan])) = true.
Proof.
  destruct (change_token_unrestricted (fun s => s) (ex_draws "1") (at_second 100) "dan" "pw" "" "fp" (ex_with [ex_dan]) ex_dan
    ltac:(vm_compute; reflexivity) eq_refl eq_refl eq_refl ltac:(vm_compute; discriminate) I ltac:(vm_compute; reflexivity)) as (resp & E & _ & Hc).
  exists resp. split; [exact E |].
  apply Hc; [split; vm_compute; [discriminate | reflexivity] | vm_compute; reflexivity |].
  exists "role-writer", ex_writer. split; [by left |]. split; [vm_compute; reflexivity | by left].
Defined.

Lemma refresh_survives_password_change_witness :
  exists s2 resp, AuthService.refreshTokenFP (fun s => s) (ex_draws "7") (at_second 300) "rt-1" "fp" ""
    (AuthService.ChangePassword "s" "user-ann" "pw" "pw2" (svc ex_ann_in)).1 = (s2, Ok resp) /\ TokenResponse.RefreshToken resp = "rt-7".
Proof.
  destruct (refresh_survives_password_change (fun s => s) (ex_draws "7") "s" (at_second 300) "user-ann" "pw" "pw2" (svc ex_ann_in)
    (AuthService.ChangePassword "s" "user-ann" "pw" "pw2" (svc ex_ann_in)).1 "rt-1" "fp"
    (RefreshToken.mk "rt-1" "user-ann" "default" "fp" (at_second 100 + 168 * hour) (at_second 100)) ex_ann "rt-7") as (s2 & resp & E & Hr & _).
  - apply pair_of_snd. vm_compute. reflexivity.
  - vm_compute. reflexivity.
  - done.
  - vm_compute. discriminate.
  - by right.
  - vm_compute. reflexivity.
  - done.
  - done.
  - vm_compute. reflexivity.
  - done.
  - exists s2, resp. split; [exact E | exact Hr].
Defined.

(** ann, who may write users but not assign roles, makes herself administrator. *)
Lemma user_write_gives_any_role_witness :
  let r := ex_req "PUT" (ex_token (ex_with [ex_ann]) ex_ann (15 * minute)) "" in
  let g := (managementHandler (at_second 200) "user" (handleUserDetail (at_second 200) r (Some ("", "", Some ["role-admin"])) "user-ann") r (ex_with [ex_ann])).1 in
  "role:assign" ∈ AuthService.expandPermissions (User.set_RoleIDs ["role-admin"] ex_ann) (store g).
Proof.
  destruct (user_write_gives_any_role (at_second 200) (ex_req "PUT" (ex_token (ex_with [ex_ann]) ex_ann (15 * minute)) "") "user-ann" ["role-admin"]
    (ex_with [ex_ann]) ex_ann) as (_ & _ & Hp); try (vm_compute; reflexivity); [done |].
  apply (Hp "role-admin" (Role.mk "role-admin" "admin" "Administrator with full access"
    (map Permission.Name ((map_to_list (list_to_map (map (fun p => (Permission.ID p, p)) seedPermissions) : gmap string Permission.t)).*2)) 0)); [by left | |].
  - vm_compute. reflexivity.
  - apply (bool_decide_unpack _). vm_compute. exact I.
Defined.

(** Ten wrong logins from ten addresses. *)
Definition ex_attack : list call :=
  map (fun n => CLogin (ex_draws "x") (at_second (Z.of_nat n)) (Request.mk "POST" (itoa (Z.of_nat n)) "fp" "" "" "") (Some ("ann", "guess"))) (seq 100 10).


Lemma new_address_gets_five_witness : burst (at_second 5) "10.0.0.9" 7 LoginGuard.newLoginGuard = [true; true; true; true; true; false; false].
Proof. exact (new_address_gets_five (at_second 5) "10.0.0.9" 7 LoginGuard.newLoginGuard eq_refl). Defined.
