(* ===== verification/Tenant.v ===== *)
(** * Service tokens and tenants ([pkg/auth], [pkg/tenant])

    What the services share to tell whose request it is: the token of a service, the
    tenant a request belongs to, and the quotas of tenants: requests one after the other
    never use more of a resource than the quota of their tenant; requests that overlap
    do. *)

From Stdlib Require Import Ascii.
From S2P Require Import GoStrings Prelude Auth.
Open Scope go_scope.

(** ** Tokens ([pkg/auth/jwt.go]) *)

(** The JSON object in a token.  Both kinds of claims are read from it by the names
    of their fields, and a name that is absent reads as the empty value. *)
Module Payload.
Record t := mk {
  sub : string; jti : string; username : string; device_fp : string; service_id : string; service_name : string; tenant_id : string;
  roles : list string; permissions : list string; exp : option time; nbf : option time;
}.
End Payload.

(** [golang-jwt] with HS256 over such objects. *)
Class JWTLib := {
  SignedString : string -> Payload.t -> string;
  ParsePayload : string -> time -> string -> option Payload.t;
  json_safe : Payload.t -> Prop;
  Parse_Signed : forall secret p now, json_safe p ->
    ParsePayload secret now (SignedString secret p) =
      if default true ((fun x => now <? x)%Z <$> Payload.exp p) && default true ((fun x => x <=? now)%Z <$> Payload.nbf p) then Some p else None;
}.

(** [auth.ServiceClaims]. *)
Module ServiceClaims.
Record t := mk { ServiceID : string; ServiceName : string; TenantID : string; Permissions : list string; ExpiresAt : time }.
End ServiceClaims.

Section tokens.
Context `{JWTLib}.

Definition GenerateServiceToken (now : time) (claims : ServiceClaims.t) (secret : string) : option string :=
  if secret == "" then None else
  let exp := if IsZero (ServiceClaims.ExpiresAt claims) then (now + hour)%Z else ServiceClaims.ExpiresAt claims in
  Some (SignedString secret (Payload.mk (ServiceClaims.ServiceID claims) "" "" "" (ServiceClaims.ServiceID claims) (ServiceClaims.ServiceName claims)
    (ServiceClaims.TenantID claims) [] (ServiceClaims.Permissions claims) (Some (AuthEngine.NewNumericDate exp)) (Some (AuthEngine.NewNumericDate now)))).

Definition ValidateServiceToken (now : time) (token secret : string) : option ServiceClaims.t :=
  if secret == "" then None else
  p ← ParsePayload secret now token;
  Some (ServiceClaims.mk (Payload.service_id p) (Payload.service_name p) (Payload.tenant_id p) (Payload.permissions p) (default zero_time (Payload.exp p))).

(** The claims of the authentication service ([jwtClaims] of its [auth/jwt.go]) as
    such an object, and read back. *)
Definition user_payload (c : Claims.t) (from : time) : Payload.t :=
  Payload.mk (Claims.UserID c) (Claims.JTI c) (Claims.Username c) (Claims.DeviceFP c) "" "" (Claims.TenantID c) (Claims.Roles c) (Claims.Permissions c)
    (Some (Claims.ExpiresAt c)) (Some from).
Definition user_claims (p : Payload.t) : Claims.t :=
  Claims.mk (Payload.sub p) (Payload.username p) (Payload.roles p) (Payload.permissions p) (Payload.tenant_id p) (Payload.device_fp p) (Payload.jti p)
    (default zero_time (Payload.exp p)).
End tokens.

(** The library as the authentication service uses it. *)
#[export, refine] Instance jwt_of_lib `{JWTLib} : JWT := {
  Sign secret c from := SignedString secret (user_payload c from);
  ParseWithClaims secret now tok := user_claims <$> ParsePayload secret now tok;
  encodable c := forall from, json_safe (user_payload c from);
  Parse_Sign := _;
}.
Proof.
  intros secret c from now Hc. rewrite Parse_Signed by apply Hc. cbn. rewrite (andb_comm (now <? _)%Z).
  destruct ((from <=? now)%Z && (now <? Claims.ExpiresAt c)%Z); [| done]. by destruct c.
Defined.

(** ** Middleware ([pkg/auth/middleware.go]) *)

(** The headers and the cookie that are read. *)
Module Headers.
Record t := mk { XTenantID : string; Authorization : string; AccessCookie : string }.
End Headers.

Inductive auth_failure := MissingToken | NotBearer | InvalidToken | NoServiceID | Unauthenticated | Forbidden.

Definition extractBearer (h : Headers.t) : result auth_failure string :=
  let v := Headers.Authorization h in
  if v == "" then Err MissingToken else
  match cut_fold "Bearer " v with
  | None => Err NotBearer
  | Some rest => let token := TrimSpace rest in if token == "" then Err MissingToken else Ok token
  end.

Definition hasPermission (perms : list string) (target : string) : bool := bool_decide (target ∈ perms).

Section middleware.
Context `{JWTLib}.

(** What the next handler finds in the context, or the refusal. *)
Definition AuthMiddleware (secret : string) (now : time) (h : Headers.t) : result auth_failure ServiceClaims.t :=
  token ← extractBearer h;
  match ValidateServiceToken now token secret with None => Err InvalidToken | Some claims => Ok claims end.

Definition RequirePermission (permission : string) (claims : option ServiceClaims.t) : result auth_failure ServiceClaims.t :=
  match claims with
  | None => Err Unauthenticated
  | Some claims => if hasPermission (ServiceClaims.Permissions claims) permission then Ok claims else Err Forbidden
  end.

Definition ServiceAuthMiddleware (secret : string) (now : time) (h : Headers.t) : result auth_failure ServiceClaims.t :=
  claims ← AuthMiddleware secret now h;
  if ServiceClaims.ServiceID claims == "" then Err NoServiceID else Ok claims.

(** ** The tenant of a request ([pkg/tenant/tenant.go], [auth_bridge.go]) *)

Definition normalizeTenantID (tenantID : string) : string := if tenantID == "" then "default" else tenantID.

Definition authExtractTenant (now : time) (token secret : string) : option string :=
  claims ← ValidateServiceToken now token secret;
  if ServiceClaims.TenantID claims == "" then None else Some (ServiceClaims.TenantID claims).

Definition extractTenantFromToken (now : time) (token secret : string) : string :=
  if (token == "") || (secret == "") then "" else default "" (authExtractTenant now token secret).

Definition extractTenantFromRequest (now : time) (h : Headers.t) (secret : string) : string :=
  let tid := TrimSpace (Headers.XTenantID h) in
  if tid != "" then tid
  else if (secret != "") && HasPrefix "Bearer " (Headers.Authorization h) then
    extractTenantFromToken now (TrimSpace (TrimPrefix "Bearer " (Headers.Authorization h))) secret
  else "".

(** The tenant in the context of the next handler. *)
Definition Middleware (secret : string) (now : time) (h : Headers.t) : string :=
  let tid := extractTenantFromRequest now h secret in
  normalizeTenantID (if tid == "" then "default" else tid).

Definition RequireTenant (secret : string) (now : time) (h : Headers.t) : option string :=
  let tid := extractTenantFromRequest now h secret in
  if tid == "" then None else Some (normalizeTenantID tid).
End middleware.

(** The values of the metadata key [x-tenant-id], if there is metadata. *)
Definition tenantIDFromGRPCContext (md : option (list string)) : string :=
  match md with
  | Some (v :: _) => if v != "" then v else "default"
  | _ => "default"
  end.
Definition GRPCInterceptor (md : option (list string)) : string := normalizeTenantID (tenantIDFromGRPCContext md).

(** ** Quotas *)

Definition ResourceDevices : string := "devices".
Definition ResourceTasks : string := "tasks".
Definition ResourceAlerts : string := "alerts".
Definition ResourceAgents : string := "agents".
Definition ResourceWebhooks : string := "webhooks".
Definition ResourceAPIKeys : string := "api_keys".

Module TenantUsage.
Record t := mk { TenantID : string; Usage : gmap string Z; Quota : gmap string Z }.

Definition GetUsage (r : string) (u : t) : Z := default 0%Z (Usage u !! r).
Definition AddUsage (r : string) (amount : Z) (u : t) : t :=
  mk (TenantID u) (<[r := wrap_i64 (GetUsage r u + amount)]> (Usage u)) (Quota u).
Definition SetQuota (r : string) (limit : Z) (u : t) : t := mk (TenantID u) (Usage u) (<[r := limit]> (Quota u)).
Definition CanAllocate (r : string) (amount : Z) (u : t) : bool :=
  match Quota u !! r with
  | None => true
  | Some limit => if (limit <=? 0)%Z then true else (wrap_i64 (GetUsage r u + amount) <=? limit)%Z
  end.
Definition snapshotUsageAndQuota (r : string) (u : t) : Z * Z * bool :=
  (GetUsage r u, default 0%Z (Quota u !! r), bool_decide (is_Some (Quota u !! r))).
End TenantUsage.

Module TenantManager.
(** The limits a quota store has for a tenant, and the usage another process keeps. *)
Record t := mk {
  quotaStore : option (string -> option (gmap string Z)); usageStore : option (string -> option TenantUsage.t);
  usage : gmap string TenantUsage.t; defaults : gmap string Z }.

Definition default_quota : gmap string Z :=
  {[ ResourceDevices := 100%Z; ResourceTasks := 1000%Z; ResourceAlerts := 100%Z; ResourceAgents := 50%Z; ResourceWebhooks := 10%Z; ResourceAPIKeys := 5%Z ]}.

Definition NewManager quotaStore usageStore (defaultQuota : option (gmap string Z)) : t :=
  mk quotaStore usageStore ∅ (default default_quota defaultQuota).

Definition set_usage (u : TenantUsage.t) (id : string) (m : t) : t := mk (quotaStore m) (usageStore m) (<[id := u]> (usage m)) (defaults m).

Definition fresh_usage (id : string) (m : t) : TenantUsage.t := TenantUsage.mk id ∅ (defaults m).
Definition getOrCreateUsage (id : string) (m : t) : t * TenantUsage.t :=
  match usage m !! id with
  | Some u => (m, u)
  | None => (set_usage (fresh_usage id m) id m, fresh_usage id m)
  end.

Inductive tenant_error := ErrQuotaExceeded (current limit : Z) | ErrTenantNotFound | TrackFailed.

Definition EnforceQuota (tenantID r : string) (amount : Z) (m : t) : t * option tenant_error :=
  let id := normalizeTenantID tenantID in
  let '(m, u) := getOrCreateUsage id m in
  let u := match quotaStore m with
           | Some get => match get id with Some limits => TenantUsage.mk (TenantUsage.TenantID u) (TenantUsage.Usage u) (limits ∪ TenantUsage.Quota u) | None => u end
           | None => u
           end in
  let m := set_usage u id m in
  let '(current, limit, hasLimit) := TenantUsage.snapshotUsageAndQuota r u in
  (m, if hasLimit && (limit >? 0) && (wrap_i64 (current + amount) >? limit)%Z then Some (ErrQuotaExceeded current limit) else None).

(** [accepted]: whether the store of usage takes the record, if there is one. *)
Definition TrackUsage (accepted : bool) (tenantID r : string) (amount : Z) (m : t) : t * option tenant_error :=
  let id := normalizeTenantID tenantID in
  if bool_decide (is_Some (usageStore m)) && negb accepted then (m, Some TrackFailed)
  else let '(m, u) := getOrCreateUsage id m in (set_usage (TenantUsage.AddUsage r amount u) id m, None).

Definition GetUsage (tenantID : string) (m : t) : TenantUsage.t :=
  let id := normalizeTenantID tenantID in
  let local := default (fresh_usage id m) (usage m !! id) in
  match usageStore m with Some get => default local (get id) | None => local end.

Definition SetDefaultQuota (r : string) (limit : Z) (m : t) : t := mk (quotaStore m) (usageStore m) (usage m) (<[r := limit]> (defaults m)).

(** The two halves of a request behind [QuotaMiddleware]; other requests may come
    between them. *)
Definition QuotaMiddleware (accepted : bool) (tenantID : option string) (r : string) (amount : Z) (m : t) : t * option tenant_error :=
  match tenantID with
  | None => (m, Some ErrTenantNotFound)
  | Some tenantID =>
      match EnforceQuota tenantID r amount m with
      | (m, Some e) => (m, Some e)
      | (m, None) => ((TrackUsage accepted tenantID r amount m).1, None)
      end
  end.
End TenantManager.

(** ** Quotas over requests *)

Import TenantManager.
#[local] Open Scope Z_scope.
Open Scope go_scope.

(** A request behind the middleware: the tenant of its context, its amount, and whether
    the store of usage takes the record. *)
Record request := Request { of_tenant : option string; amount : Z; accepted : bool }.

(** Whether a manager records what a request uses. *)
Definition tracked (m : TenantManager.t) (q : request) : bool := negb (bool_decide (is_Some (usageStore m)) && negb (accepted q)).

Definition serve_one (r : string) (q : request) (m : TenantManager.t) : TenantManager.t * bool :=
  let '(m, e) := QuotaMiddleware (accepted q) (of_tenant q) r (amount q) m in (m, match e with None => true | Some _ => false end).
Fixpoint serve_all (r : string) (qs : list request) (m : TenantManager.t) : TenantManager.t * list bool :=
  match qs with
  | [] => (m, [])
  | q :: qs => let '(m, ok) := serve_one r q m in let '(m, oks) := serve_all r qs m in (m, ok :: oks)
  end.

(** What the requests of tenant [id] that were let through have used. *)
Fixpoint let_through (m : TenantManager.t) (id : string) (qs : list request) (oks : list bool) : Z :=
  match qs, oks with
  | q :: qs, ok :: oks =>
      (if ok && tracked m q && bool_decide (normalizeTenantID <$> of_tenant q = Some id) then amount q else 0) + let_through m id qs oks
  | _, _ => 0
  end.

Definition used (m : TenantManager.t) (id r : string) : Z := default 0 ((fun u => TenantUsage.GetUsage r u) <$> usage m !! id).

Section quota.
Context (r : string) (limit : Z).

(** Every tenant has the limit: by default, or from the store of quotas. *)
Record limited (m : TenantManager.t) : Prop := {
  by_default : defaults m !! r = Some limit;
  by_store : forall get id q, quotaStore m = Some get -> get id = Some q -> q !! r = Some limit;
  by_usage : forall id u, usage m !! id = Some u -> TenantUsage.Quota u !! r = Some limit /\ 0 <= TenantUsage.GetUsage r u <= limit;
}.

Lemma set_usage_limited u id m :
  limited m -> TenantUsage.Quota u !! r = Some limit -> 0 <= TenantUsage.GetUsage r u <= limit -> limited (set_usage u id m).
Proof. intros [H1 H2 H3] Hq Hu. split; [done | done |]. intros i y. cbn. intros [[<- <-] | [_ Hy]]%lookup_insert_Some; [done | by apply (H3 i)]. Qed.

(** Looking up a tenant: what it has used stays, and it has the limit. *)
Lemma create_usage_spec id m m' u :
  0 < limit -> limited m -> getOrCreateUsage id m = (m', u) ->
  limited m' /\ usage m' !! id = Some u /\ (forall i s, used m' i s = used m i s) /\ TenantUsage.GetUsage r u = used m id r /\
  usageStore m' = usageStore m /\ quotaStore m' = quotaStore m.
Proof.
  intros Hl Hm. unfold getOrCreateUsage. destruct (usage m !! id) as [y |] eqn:Hy; intros [= <- <-].
  - split_and!; try done. unfold used. by rewrite Hy.
  - assert (E0 : forall s, TenantUsage.GetUsage s (fresh_usage id m) = 0) by (intros s; unfold TenantUsage.GetUsage; cbn; by rewrite lookup_empty).
    split_and!; try done.
    + apply set_usage_limited; [done | apply Hm | rewrite E0; lia].
    + cbn. by rewrite lookup_insert_eq.
    + intros i s. unfold used. cbn. destruct (decide (i = id)) as [-> | Hne]; [| by rewrite lookup_insert_ne]. rewrite lookup_insert_eq, Hy. apply E0.
    + unfold used. rewrite Hy. apply E0.
Qed.

Lemma enforce_spec id a m m' e :
  0 < limit -> limited m -> EnforceQuota id r a m = (m', e) ->
  limited m' /\ (forall i, used m' i r = used m i r) /\ usageStore m' = usageStore m /\
  e = if wrap_i64 (used m (normalizeTenantID id) r + a) >? limit then Some (ErrQuotaExceeded (used m (normalizeTenantID id) r) limit) else None.
Proof.
  intros Hl Hm. unfold EnforceQuota. set (i0 := normalizeTenantID id).
  destruct (getOrCreateUsage i0 m) as [m1 u] eqn:Eg. destruct (create_usage_spec i0 m m1 u Hl Hm Eg) as (Hm1 & Hu & Hused & Hget & Hstore & Hqs).
  destruct (by_usage _ Hm1 i0 u Hu) as [Hq Hb].
  set (u2 := match quotaStore m1 with Some get => _ | None => u end).
  assert (H2 : TenantUsage.Quota u2 !! r = Some limit /\ TenantUsage.Usage u2 = TenantUsage.Usage u).
  { unfold u2. destruct (quotaStore m1) as [get |] eqn:Eq; [| done]. destruct (get i0) as [q |] eqn:Egq; [| done]. cbn. split; [| done].
    apply lookup_union_Some_raw. left. by apply (by_store _ Hm1 get i0). }
  destruct H2 as [Hq2 Hu2]. assert (Hget2 : TenantUsage.GetUsage r u2 = TenantUsage.GetUsage r u) by (unfold TenantUsage.GetUsage; by rewrite Hu2).
  unfold TenantUsage.snapshotUsageAndQuota. rewrite Hq2, Hget2, Hget. cbn.
  rewrite (proj2 (Z.gtb_lt _ _)) by lia. rewrite andb_true_l. intros [= <- <-]. split_and!; try done.
  - apply set_usage_limited; [done | done | by rewrite Hget2].
  - intros i. rewrite <- Hused. unfold used. cbn. destruct (decide (i = i0)) as [-> | Hne]; [| by rewrite lookup_insert_ne].
    rewrite lookup_insert_eq, Hu. cbn. exact Hget2.
Qed.

Lemma track_spec acc id a m :
  0 < limit <= max_i64 -> limited m -> 0 <= a -> used m (normalizeTenantID id) r + a <= limit ->
  let m' := (TrackUsage acc id r a m).1 in
  limited m' /\ usageStore m' = usageStore m /\
  forall i, used m' i r = used m i r +
    if negb (bool_decide (is_Some (usageStore m)) && negb acc) && bool_decide (normalizeTenantID id = i) then a else 0.
Proof.
  intros Hl Hm Ha Hfit. cbv zeta. unfold TrackUsage. destruct (_ && _); cbn [fst negb andb]; [split; [done |]; split; [done |]; intros; lia |].
  set (i0 := normalizeTenantID id) in *. destruct (getOrCreateUsage i0 m) as [m1 u] eqn:Eg.
  destruct (create_usage_spec i0 m m1 u ltac:(lia) Hm Eg) as (Hm1 & Hu & Hused & Hget & Hstore & Hqs). destruct (by_usage _ Hm1 i0 u Hu) as [Hq Hb].
  assert (E : forall s, TenantUsage.GetUsage s (TenantUsage.AddUsage r a u) = if bool_decide (s = r) then TenantUsage.GetUsage r u + a else TenantUsage.GetUsage s u).
  { intros s. unfold TenantUsage.GetUsage, TenantUsage.AddUsage. cbn. destruct (bool_decide_reflect (s = r)) as [-> | Hne]; [| by rewrite lookup_insert_ne].
    rewrite lookup_insert_eq. cbn. fold (TenantUsage.GetUsage r u). apply wrap_i64_id. unfold in_i64, max_i64 in *. lia. }
  cbn [fst]. split; [| split; [done |]].
  - apply set_usage_limited; [done | done |]. rewrite E, bool_decide_eq_true_2 by done. lia.
  - intros i. rewrite <- Hused. unfold used at 1. cbn. destruct (bool_decide_reflect (i0 = i)) as [<- | Hne].
    + rewrite lookup_insert_eq. cbn. rewrite E, bool_decide_eq_true_2 by done. unfold used. by rewrite Hu.
    + rewrite lookup_insert_ne by done. unfold used. lia.
Qed.

Definition modest (q : request) : Prop := 0 <= amount q <= max_i64 - limit.

Lemma serve_one_spec q m m' ok :
  0 < limit <= max_i64 -> limited m -> modest q -> serve_one r q m = (m', ok) ->
  limited m' /\ usageStore m' = usageStore m /\
  (forall i, used m' i r = used m i r + if ok && tracked m q && bool_decide (normalizeTenantID <$> of_tenant q = Some i) then amount q else 0) /\
  ok = match of_tenant q with None => false | Some id => used m (normalizeTenantID id) r + amount q <=? limit end.
Proof.
  intros Hl Hm [Ha1 Ha2]. unfold serve_one, QuotaMiddleware. destruct (of_tenant q) as [id |].
  2: { intros [= <- <-]. split_and!; try done. intros i. cbn. lia. }
  destruct (EnforceQuota id r (amount q) m) as [m1 e] eqn:Ee. destruct (enforce_spec id (amount q) m m1 e ltac:(lia) Hm Ee) as (Hm1 & Hused & Hst & He).
  assert (Hb : 0 <= used m (normalizeTenantID id) r <= limit).
  { unfold used. destruct (usage m !! _) as [u |] eqn:Eu; cbn; [by apply (by_usage _ Hm _ u Eu) | lia]. }
  rewrite wrap_i64_id in He by (unfold in_i64, max_i64 in *; lia).
  destruct (Z.gtb_spec (used m (normalizeTenantID id) r + amount q) limit) as [Hgt | Hle]; subst e; intros [= <- <-].
  - split_and!; try done; [intros i; rewrite Hused; cbn; lia |]. symmetry. by apply Z.leb_gt.
  - assert (Hfit : used m1 (normalizeTenantID id) r + amount q <= limit) by (rewrite Hused; lia).
    destruct (track_spec (accepted q) id (amount q) m1 Hl Hm1 ltac:(lia) Hfit) as (Hm2 & Hst2 & Hu2).
    split; [done |]. split; [congruence |]. split; [| symmetry; by apply Z.leb_le]. intros i. rewrite Hu2, Hused, Hst. unfold tracked. cbn [andb fmap option_fmap option_map].
    replace (bool_decide (Some (normalizeTenantID id) = Some i)) with (bool_decide (normalizeTenantID id = i)); [done |].
    apply bool_decide_ext. split; [by intros -> | by intros [=]].
Qed.

(** Of requests one after the other, whatever their tenants and amounts, those that
    are let through and recorded use exactly what the manager says, and that is never more
    than the limit of the tenant. *)
Theorem quotas_hold qs m m' oks id :
  0 < limit <= max_i64 -> limited m -> Forall modest qs -> serve_all r qs m = (m', oks) ->
  used m' id r = used m id r + let_through m id qs oks /\ used m' id r <= limit /\ length oks = length qs.
Proof.
  intros Hl Hm Hq E.
  enough (limited m' /\ used m' id r = used m id r + let_through m id qs oks /\ length oks = length qs) as (Hm' & Hu & Hlen).
  { split_and!; try done. unfold used. destruct (usage m' !! id) as [u |] eqn:Eu; cbn; [by apply (by_usage _ Hm' _ u Eu) | lia]. }
  revert m m' oks Hm E. induction Hq as [| q qs Hq Hqs IH]; intros m m' oks Hm; cbn [serve_all]; [intros [= <- <-]; cbn; split_and!; done || lia |].
  destruct (serve_one r q m) as [m1 ok] eqn:E1. destruct (serve_one_spec q m m1 ok Hl Hm Hq E1) as (Hm1 & Hst & Hu1 & _).
  destruct (serve_all r qs m1) as [m2 oks2] eqn:E2. intros [= <- <-]. destruct (IH m1 m2 oks2 Hm1 E2) as (Hm2 & Hu2 & Hlen).
  split; [done |]. split; [| cbn; lia]. rewrite Hu2, Hu1. cbn [let_through].
  assert (El : forall qs oks, let_through m1 id qs oks = let_through m id qs oks).
  { induction qs0 as [| q0 qs0 IH0]; intros [| ok0 oks0]; try done. cbn. rewrite IH0. unfold tracked. by rewrite Hst. }
  rewrite El. lia.
Qed.

(** Two requests that overlap both pass the check before either is recorded: when one
    more fits and two do not, the tenant is above its limit afterwards. *)
Theorem quota_race id a m :
  0 < limit <= max_i64 -> limited m -> usageStore m = None -> 0 <= a <= max_i64 - limit -> used m (normalizeTenantID id) r + a <= limit < used m (normalizeTenantID id) r + 2 * a ->
  used m (normalizeTenantID id) r + 2 * a <= max_i64 ->
  exists m1 m2, EnforceQuota id r a m = (m1, None) /\ EnforceQuota id r a m1 = (m2, None) /\
    let m4 := (TrackUsage true id r a (TrackUsage true id r a m2).1).1 in
    used m4 (normalizeTenantID id) r = used m (normalizeTenantID id) r + 2 * a /\ limit < used m4 (normalizeTenantID id) r.
Proof.
  intros Hl Hm Hst Ha Hfit Hmax. set (i0 := normalizeTenantID id) in *.
  destruct (EnforceQuota id r a m) as [m1 e1] eqn:E1. destruct (enforce_spec id a m m1 e1 ltac:(lia) Hm E1) as (Hm1 & Hu1 & Hs1 & He1).
  destruct (EnforceQuota id r a m1) as [m2 e2] eqn:E2. destruct (enforce_spec id a m1 m2 e2 ltac:(lia) Hm1 E2) as (Hm2 & Hu2 & Hs2 & He2).
  fold i0 in He1, He2. assert (Hb : 0 <= used m i0 r).
  { unfold used. destruct (usage m !! i0) as [u |] eqn:Eu; cbn; [by apply (by_usage _ Hm _ u Eu) | lia]. }
  rewrite Hu1 in He2. rewrite wrap_i64_id in He1, He2 by (unfold in_i64, max_i64 in *; lia).
  destruct (Z.gtb_spec (used m i0 r + a) limit); [lia |]. subst e1 e2. exists m1, m2. split; [done |]. split; [done |]. cbv zeta.
  destruct (track_spec true id a m2 Hl Hm2 ltac:(lia) ltac:(fold i0; rewrite Hu2, Hu1; lia)) as (Hm3 & Hs3 & Hu3).
  set (m3 := (TrackUsage true id r a m2).1) in *. specialize (Hu3 i0). fold i0 in Hu3. rewrite andb_false_r, (bool_decide_eq_true_2 (i0 = i0) eq_refl) in Hu3. cbn in Hu3.
  assert (E4 : used (TrackUsage true id r a m3).1 i0 r = used m3 i0 r + a); [| rewrite E4, Hu3, Hu2, Hu1; lia].
  unfold TrackUsage. rewrite andb_false_r. fold i0. destruct (getOrCreateUsage i0 m3) as [m4 u] eqn:Eg.
  destruct (create_usage_spec i0 m3 m4 u ltac:(lia) Hm3 Eg) as (_ & _ & _ & Hget & _ & _). cbn [fst]. unfold used at 1. cbn. rewrite lookup_insert_eq. cbn.
  unfold TenantUsage.GetUsage at 1, TenantUsage.AddUsage. cbn. rewrite lookup_insert_eq. cbn. rewrite Hget.
  apply wrap_i64_id. rewrite Hu3, Hu2, Hu1. unfold in_i64, max_i64 in *. lia.
Qed.
End quota.

(** ** The default quota of webhooks *)

Definition ex_manager : TenantManager.t := NewManager None None None.

Lemma ex_limited : limited ResourceWebhooks 10 ex_manager.
Proof.
  split; [vm_compute; reflexivity | intros get id q E; discriminate E |]. intros id u E. unfold ex_manager, NewManager in E. cbn in E. by rewrite lookup_empty in E.
Defined.

Definition ex_requests : list request := [Request (Some "acme") 6 true; Request (Some "") 7 true; Request (Some "acme") 5 true; Request (Some "acme") 4 true].

Lemma quotas_hold_witness :
  (serve_all ResourceWebhooks ex_requests ex_manager).2 = [true; true; false; true] /\
  used (serve_all ResourceWebhooks ex_requests ex_manager).1 "acme" ResourceWebhooks <= 10.
Proof.
  split; [vm_compute; reflexivity |].
  assert (Hmod : Forall (modest 10) ex_requests) by (repeat constructor; cbn; unfold max_i64; lia).
  destruct (serve_all ResourceWebhooks ex_requests ex_manager) as [m' oks] eqn:E.
  apply (quotas_hold ResourceWebhooks 10 ex_requests ex_manager m' oks "acme" ltac:(unfold max_i64; lia) ex_limited Hmod E).
Defined.

Lemma quota_race_witness :
  exists m1 m2, EnforceQuota "acme" ResourceWebhooks 6 ex_manager = (m1, None) /\ EnforceQuota "acme" ResourceWebhooks 6 m1 = (m2, None) /\
    10 < used (TrackUsage true "acme" ResourceWebhooks 6 (TrackUsage true "acme" ResourceWebhooks 6 m2).1).1 "acme" ResourceWebhooks.
Proof.
  assert (H0 : used ex_manager (normalizeTenantID "acme") ResourceWebhooks = 0) by (vm_compute; reflexivity).
  destruct (quota_race ResourceWebhooks 10 "acme" 6 ex_manager ltac:(unfold max_i64; lia) ex_limited eq_refl ltac:(unfold max_i64; lia)
    ltac:(rewrite H0; lia) ltac:(rewrite H0; unfold max_i64; lia)) as (m1 & m2 & E1 & E2 & _ & H4).
  exists m1, m2. split; [exact E1 |]. split; [exact E2 | exact H4].
Defined.
