(* ===== verification/ShellQuote.v ===== *)
(** * Quoting for shells ([pkg/shellquote])

    The functions that make values safe to paste into scripts, and the checks of values
    that are pasted bare; with a reader of the words of a POSIX command line and one of
    PowerShell's quoted strings, which say what quoting is to achieve. *)

From Stdlib Require Import Ascii.
From S2P Require Import Prelude GoStrings Base64.
#[local] Open Scope Z_scope.
Open Scope go_scope.

(** ** [quote.go] *)

Definition Quote (s : string) : string :=
  if s == "" then "''"
  else if negb (Contains "'" s) then "'" +:+ (s +:+ "'")
  else "'" +:+ (ReplaceAll "'" "'\''" s +:+ "'").

(** [strings.Join]. *)
Fixpoint Join (sep : string) (ws : list string) : string :=
  match ws with [] => "" | [w] => w | w :: ws => w +:+ (sep +:+ Join sep ws) end.
Definition QuoteJoin (sep : string) (args : list string) : string := Join sep (map Quote args).

Definition backtick : ascii := "096".
Definition double_quote : ascii := "034".
(** [doubleQuoteEscaper], in one pass. *)
Fixpoint doubleQuoteEscaper (s : string) : string :=
  match s with
  | "" => ""
  | String c s => if bool_decide (c ∈ ["\"%char; double_quote; "$"%char; backtick]) then String "\" (String c (doubleQuoteEscaper s)) else String c (doubleQuoteEscaper s)
  end.
Definition QuoteDouble (s : string) : string := String double_quote (doubleQuoteEscaper s +:+ String double_quote "").

(** ** Checks *)

Inductive value_error := EmptyValue | TooLong | BadLabel | BadChar | NotNumber | OutOfRange | TooManySegments | NotAbsolute | DotDot.

Definition in_range (a b c : ascii) : bool := (nat_of_ascii a <=? nat_of_ascii c)%nat && (nat_of_ascii c <=? nat_of_ascii b)%nat.
Definition alnum (c : ascii) : bool := in_range "a" "z" c || in_range "A" "Z" c || in_range "0" "9" c.
Definition len (s : string) : Z := Z.of_nat (String.length s).

Definition isAlnumDash (s : string) : bool := all_chars (fun c => alnum c || (c == "-"%char)) s.
Definition starts_with_dash (s : string) : bool := HasPrefix "-" s.

Definition check_label (lbl : string) : option value_error :=
  if (lbl == "") || (len lbl >? 63) then Some BadLabel
  else if negb (isAlnumDash lbl) then Some BadChar
  else if starts_with_dash lbl || HasSuffix "-" lbl then Some BadLabel else None.
Fixpoint first_error {A} (check : A -> option value_error) (l : list A) : option value_error :=
  match l with [] => None | x :: l => match check x with Some e => Some e | None => first_error check l end end.
Definition ValidateHost (s : string) : option value_error :=
  if s == "" then Some EmptyValue else if len s >? 253 then Some TooLong else first_error check_label (Split "." s).

Definition ident_char (first : bool) (c : ascii) : bool := alnum c || (c == "_"%char) || (c == "."%char) || ((c == "-"%char) && negb first).
Definition ValidateIdent (s : string) : option value_error :=
  if s == "" then Some EmptyValue else if len s >? 32 then Some TooLong
  else match s with
       | String c r => if ident_char true c && all_chars (ident_char false) r then None else Some BadChar
       | "" => None
       end.

Definition ValidatePort (p : Z) : option value_error := if (p <? 1) || (p >? 65535) then Some OutOfRange else None.
Definition ParsePort (s : string) : Z * option value_error :=
  if s == "" then (0, Some EmptyValue)
  else match Atoi s with
       | None => (0, Some NotNumber)
       | Some n => match ValidatePort n with Some e => (0, Some e) | None => (n, None) end
       end.

Definition isNameByte (c : ascii) : bool := alnum c || (c == "_"%char) || (c == "."%char) || (c == "-"%char).
Definition ValidateName (s : string) (maxLen : Z) : option value_error :=
  if s == "" then Some EmptyValue else if len s >? maxLen then Some TooLong else if all_chars isNameByte s then None else Some BadChar.
Definition ValidateQualifiedName (s : string) (maxSegLen : Z) : option value_error :=
  if s == "" then Some EmptyValue
  else let segs := Split ":" s in
       if (2 <? length segs)%nat then Some TooManySegments else first_error (fun seg => ValidateName seg maxSegLen) segs.

Definition cmd_char (c : ascii) : bool := negb (bool_decide (c ∈ [double_quote; "%"%char; "!"%char; "013"%char; "010"%char; "000"%char])).
Definition ValidateCmdQuoted (s : string) (maxLen : Z) : option value_error :=
  if len s >? maxLen then Some TooLong else if all_chars cmd_char s then None else Some BadChar.

(** The characters that a path may not have. *)
Definition path_forbidden : list ascii :=
  [" "; "009"; "010"; "013"; "'"; double_quote; "\"; "$"; backtick; ";"; "&"; "|"; "<"; ">"; "("; ")"; "*"; "?"; "["; "]"; "{"; "}"; "!"; "~"; "#"]%char.
Definition path_char (c : ascii) : bool := negb (bool_decide (c ∈ path_forbidden)).
Definition ValidatePath (p : string) : option value_error :=
  if p == "" then Some EmptyValue
  else if negb (HasPrefix "/" p) then Some NotAbsolute
  else if len p >? 4096 then Some TooLong
  else if bool_decide (".." ∈ Split "/" p) then Some DotDot
  else if all_chars path_char p then None else Some BadChar.

(** ** [powershell.go] *)

Definition QuotePowerShellSingle (s : string) : string := "'" +:+ (ReplaceAll "'" "''" s +:+ "'").

(** The code points of a text: [[]rune(s)]; each byte that starts no character reads as
    the replacement character. *)
Definition cont (lo hi : Z) (c : ascii) : bool := (lo <=? byte c) && (byte c <=? hi).
Definition tail_bits (c : ascii) : Z := byte c `mod` 64.
Definition RuneError : Z := 65533.
(** The range of the second byte after the first one. *)
Definition second_range (b : Z) : Z * Z :=
  if b =? 224 then (160, 191) else if b =? 237 then (128, 159) else if b =? 240 then (144, 191) else if b =? 244 then (128, 143) else (128, 191).
Fixpoint runes (s : string) : list Z :=
  match s with
  | "" => []
  | String a s1 =>
      let b := byte a in let '(lo, hi) := second_range b in
      if b <? 128 then b :: runes s1
      else match s1 with
           | String c s2 =>
               if negb (cont lo hi c) then RuneError :: runes s1
               else if (194 <=? b) && (b <=? 223) then (b `mod` 32 * 64 + tail_bits c) :: runes s2
               else match s2 with
                    | String d s3 =>
                        if negb (cont 128 191 d) then RuneError :: runes s1
                        else if (224 <=? b) && (b <=? 239) then (b `mod` 16 * 4096 + tail_bits c * 64 + tail_bits d) :: runes s3
                        else match s3 with
                             | String e s4 =>
                                 if cont 128 191 e && (240 <=? b) && (b <=? 244)
                                 then (b `mod` 8 * 262144 + tail_bits c * 4096 + tail_bits d * 64 + tail_bits e) :: runes s4 else RuneError :: runes s1
                             | "" => RuneError :: runes s1
                             end
                    | "" => RuneError :: runes s1
                    end
           | "" => RuneError :: runes s1
           end
  end.

(** [utf16.Encode]; the code points of a text are no surrogates. *)
Definition utf16_units (r : Z) : list Z := if r <? 65536 then [r] else [55296 + (r - 65536) / 1024; 56320 + (r - 65536) `mod` 1024].
Definition Encode16 (rs : list Z) : list Z := concat (map utf16_units rs).
Fixpoint little_endian (us : list Z) : string :=
  match us with [] => "" | u :: us => String (out (u `mod` 256)) (String (out (u / 256)) (little_endian us)) end.
Definition PowerShellEncodedCommand (script : string) : string :=
  "powershell -EncodedCommand " +:+ EncodeToString (little_endian (Encode16 (runes script))).

Example Quote_quote : Quote "a'; rm -rf /" = "'a'\''; rm -rf /'".
Proof. reflexivity. Qed.
(** An accented letter, a sign of three bytes, one of four, and a stray byte. *)
Example runes_text :
  runes (String "195" (String "169" (String "226" (String "130" (String "172" (String "240" (String "159" (String "152" (String "128" (String "130" "a"))))))))))
  = [233; 8364; 128512; RuneError; 97].
Proof. vm_compute. reflexivity. Qed.
Example PowerShell_dir : PowerShellEncodedCommand "dir" = "powershell -EncodedCommand ZABpAHIA".
Proof. vm_compute. reflexivity. Qed.
Example ValidateHost_examples :
  ValidateHost "db-1.example.com" = None /\ ValidateHost "a..b" = Some BadLabel /\ ValidateHost "-a" = Some BadLabel /\ ValidateHost "a;b" = Some BadChar.
Proof. vm_compute. done. Qed.

(** ** What a shell reads

    The words of a simple command by the rules of POSIX for quoting; no answer where the
    text is anything but literal words: an operator, an expansion, a pattern, a comment, a
    further command, or a quote that is not closed. *)
Inductive quoting := Bare | Single | Double.

Definition sh_operators : list ascii :=
  ["|"; "&"; ";"; "<"; ">"; "("; ")"; "$"; backtick; "*"; "?"; "["; "]"; "#"; "~"; "{"; "}"; "!"; "010"; "000"]%char.
Definition add_char (w : option string) (c : ascii) : option string := Some (default "" w +:+ String c "").
Definition flush (w : option string) (ws : list string) : list string := match w with Some w => w :: ws | None => ws end.

Fixpoint sh_words (m : quoting) (w : option string) (s : string) : option (list string) :=
  match m, s with
  | Bare, "" => Some (flush w [])
  | _, "" => None
  | Bare, String c s =>
      if (c == " "%char) || (c == "009"%char) then flush w <$> sh_words Bare None s
      else if c == "'"%char then sh_words Single (Some (default "" w)) s
      else if c == double_quote then sh_words Double (Some (default "" w)) s
      else if c == "\"%char then match s with "" => None | String "010" s => sh_words Bare w s | String "000" _ => None | String d s => sh_words Bare (add_char w d) s end
      else if bool_decide (c ∈ sh_operators) then None
      else sh_words Bare (add_char w c) s
  | Single, String c s =>
      if c == "'"%char then sh_words Bare w s else if c == "000"%char then None else sh_words Single (add_char w c) s
  | Double, String c s =>
      if c == double_quote then sh_words Bare w s
      else if c == "\"%char then
        match s with
        | "" => None
        | String "010" s => sh_words Double w s
        | String d s' => if bool_decide (d ∈ ["$"%char; backtick; double_quote; "\"%char]) then sh_words Double (add_char w d) s' else sh_words Double (add_char w c) s
        end
      else if bool_decide (c ∈ ["$"%char; backtick; "000"%char]) then None
      else sh_words Double (add_char w c) s
  end.

Example sh_echo : sh_words Bare None "echo 'a b' x\$y q''" = Some ["echo"; "a b"; "x$y"; "q"].
Proof. vm_compute. reflexivity. Qed.
Example sh_injected : sh_words Bare None "echo a; rm" = None.
Proof. reflexivity. Qed.

(** No text of a command has the byte 0. *)
Definition no_nul (s : string) : Prop := all_chars (not_char "000") s = true.

(** What a word has so far, with more of it. *)
Definition extend (w : option string) (s : string) : option string := Some (default "" w +:+ s).

Lemma extend_nil w : extend w "" = Some (default "" w).
Proof. unfold extend. by rewrite app_nil_r_string. Qed.
Lemma extend_add w c s : extend (add_char w c) s = extend w (String c s).
Proof. unfold extend, add_char. f_equal. apply (app_assoc_string (default "" w) (String c "") s). Qed.

Lemma app_cons_string c s t : String c s +:+ t = String c (s +:+ t).
Proof. reflexivity. Qed.

(** The text between single quotes, each quote of it closed, escaped and opened again. *)
Fixpoint escaped (s : string) : string :=
  match s with "" => "" | String c s => if c == "'"%char then "'\''" +:+ escaped s else String c (escaped s) end.

Lemma ReplaceAll_escaped s : ReplaceAll "'" "'\''" s = escaped s.
Proof.
  unfold ReplaceAll. induction s as [| c s IH]; [done |]. cbn [replace_from HasPrefix escaped String.length Nat.sub]. rewrite andb_true_r.
  destruct (bool_decide_reflect ("'"%char = c)) as [<- | Hn]; [by rewrite IH |]. rewrite IH. by rewrite bool_decide_eq_false_2.
Qed.

Lemma escaped_id s : Contains "'" s = false -> escaped s = s.
Proof.
  induction s as [| c s IH]; [done |]. cbn [Contains HasPrefix escaped]. rewrite andb_true_r. intros [Hc Hs]%orb_false_elim.
  apply bool_decide_eq_false in Hc. rewrite bool_decide_eq_false_2 by congruence. by rewrite IH.
Qed.

(** Whatever way [Quote] takes. *)
Lemma Quote_escaped s : Quote s = String "'" (escaped s +:+ "'").
Proof.
  unfold Quote. destruct (bool_decide_reflect (s = "")) as [-> |]; [done |]. destruct (Contains "'" s) eqn:E; cbn [negb]; [by rewrite ReplaceAll_escaped |].
  by rewrite (escaped_id s E).
Qed.

Lemma single_reads w s rest : no_nul s -> sh_words Single w (escaped s +:+ String "'" rest) = sh_words Bare (match s with "" => w | _ => extend w s end) rest.
Proof.
  revert w. induction s as [| c s IH]; intros w Hs; [done |]. apply andb_prop in Hs as [Hc Hs]. cbn [escaped].
  assert (E : sh_words Single (add_char w c) (escaped s +:+ String "'" rest) = sh_words Bare (extend w (String c s)) rest).
  { rewrite IH by done. destruct s; [by rewrite <- extend_add, extend_nil | by rewrite extend_add]. }
  destruct (bool_decide_reflect (c = "'"%char)) as [-> | Hn]; [exact E |]. rewrite app_cons_string. cbn [sh_words].
  rewrite (bool_decide_eq_false_2 _ Hn). unfold not_char in Hc. apply negb_true_iff in Hc. by rewrite Hc.
Qed.

Lemma double_reads w s rest : no_nul s -> sh_words Double w (doubleQuoteEscaper s +:+ String double_quote rest) = sh_words Bare (match s with "" => w | _ => extend w s end) rest.
Proof.
  revert w. induction s as [| c s IH]; intros w Hs; [done |]. apply andb_prop in Hs as [Hc Hs]. cbn [doubleQuoteEscaper].
  assert (E : sh_words Double (add_char w c) (doubleQuoteEscaper s +:+ String double_quote rest) = sh_words Bare (extend w (String c s)) rest).
  { rewrite IH by done. destruct s; [by rewrite <- extend_add, extend_nil | by rewrite extend_add]. }
  case_bool_decide as Hd.
  - rewrite !app_cons_string. rewrite <- E. repeat (apply elem_of_cons in Hd as [-> | Hd]; [reflexivity |]). by apply not_elem_of_nil in Hd.
  - rewrite app_cons_string. cbn [sh_words]. rewrite !not_elem_of_cons in Hd. destruct Hd as (H1 & H2 & H3 & H4 & _).
    rewrite (bool_decide_eq_false_2 _ H2), (bool_decide_eq_false_2 _ H1). rewrite bool_decide_eq_false_2; [exact E |].
    rewrite !not_elem_of_cons. unfold not_char in Hc. apply negb_true_iff, bool_decide_eq_false in Hc. split_and!; try done. apply not_elem_of_nil.
Qed.

Lemma Quote_reads w s rest : no_nul s -> sh_words Bare w (Quote s +:+ rest) = sh_words Bare (extend w s) rest.
Proof.
  intros Hs. rewrite Quote_escaped, app_cons_string, app_assoc_string. change (sh_words Bare w (String "'" ?x)) with (sh_words Single (Some (default "" w)) x).
  rewrite (app_cons_string "'" "" rest). change ("" +:+ rest) with rest. rewrite single_reads by done. destruct s; [by rewrite extend_nil | done].
Qed.

Lemma QuoteDouble_reads w s rest : no_nul s -> sh_words Bare w (QuoteDouble s +:+ rest) = sh_words Bare (extend w s) rest.
Proof.
  intros Hs. unfold QuoteDouble. rewrite app_cons_string, app_assoc_string. change (sh_words Bare w (String double_quote ?x)) with (sh_words Double (Some (default "" w)) x).
  rewrite (app_cons_string double_quote "" rest). change ("" +:+ rest) with rest. rewrite double_reads by done. destruct s; [by rewrite extend_nil | done].
Qed.

(** An argument quoted in one of the two ways. *)
Definition quoted (x : bool * string) : string := if x.1 then Quote x.2 else QuoteDouble x.2.

Lemma quoted_reads w x rest : no_nul x.2 -> sh_words Bare w (quoted x +:+ rest) = sh_words Bare (extend w x.2) rest.
Proof. unfold quoted. destruct x.1; [apply Quote_reads | apply QuoteDouble_reads]. Qed.

(** C30: whatever the arguments hold, quoted, whichever of the two functions quotes which of
    them, and joined by spaces, a shell reads exactly these words, and nothing that it
    would expand or run. *)
Theorem quoted_arguments_read_back (args : list (bool * string)) :
  Forall (fun x => no_nul x.2) args -> sh_words Bare None (Join " " (map quoted args)) = Some (map snd args).
Proof.
  induction 1 as [| x args Hx Hargs IH]; [done |]. cbn [map]. destruct args as [| y args].
  - cbn [map Join]. rewrite <- (app_nil_r_string (quoted x)), quoted_reads by done. done.
  - change (Join " " (quoted x :: map quoted (y :: args))) with (quoted x +:+ (" " +:+ Join " " (map quoted (y :: args)))).
    rewrite quoted_reads by done. change (sh_words Bare (extend None x.2) (" " +:+ ?r)) with (flush (Some x.2) <$> sh_words Bare None r). by rewrite IH.
Qed.

Lemma quoted_arguments_read_back_witness :
  let args := ["rm"; "-rf /; echo $(id) `id` \ '"; ""] in sh_words Bare None (QuoteJoin " " args) = Some args.
Proof.
  cbv zeta. apply (quoted_arguments_read_back [(true, "rm"); (true, "-rf /; echo $(id) `id` \ '"); (true, "")]).
  repeat (apply Forall_cons; split; [vm_compute; reflexivity |]). by apply Forall_nil.
Defined.

(** ** Values that are pasted bare *)

(** A character that is a part of a word without any quotes. *)
Definition plain (c : ascii) : bool :=
  negb (bool_decide (c ∈ [" "; "009"; "'"; double_quote; "\"]%char)) && negb (bool_decide (c ∈ sh_operators)).

Lemma plain_reads w s : all_chars plain s = true -> s <> "" -> sh_words Bare w s = Some [default "" w +:+ s].
Proof.
  revert w. induction s as [| c s IH]; intros w Hs Hn; [done |]. apply andb_prop in Hs as [Hc Hs]. apply andb_prop in Hc as [H1 H2]. cbn [sh_words].
  apply negb_true_iff, bool_decide_eq_false in H1, H2. rewrite !not_elem_of_cons in H1. destruct H1 as (A & B & C & D & E & _).
  rewrite (bool_decide_eq_false_2 _ A), (bool_decide_eq_false_2 _ B), (bool_decide_eq_false_2 _ C), (bool_decide_eq_false_2 _ D), (bool_decide_eq_false_2 _ E), (bool_decide_eq_false_2 _ H2).
  cbn [orb]. destruct s as [| d s]; [done |]. rewrite IH by done. unfold add_char. f_equal. f_equal. apply (app_assoc_string (default "" w) (String c "") (String d s)).
Qed.

Definition all_bytes : list ascii := map ascii_of_nat (seq 0 256).
Lemma all_bytes_complete c : c ∈ all_bytes.
Proof. apply list_elem_of_fmap. exists (nat_of_ascii c). split; [by rewrite ascii_nat_embedding |]. apply elem_of_seq. pose proof (nat_ascii_bounded c). lia. Qed.
(** What holds of 256 bytes. *)
Lemma byte_implies (p q : ascii -> bool) c : forallb (fun c => negb (p c) || q c) all_bytes = true -> p c = true -> q c = true.
Proof. rewrite forallb_forall. intros H Hp. specialize (H c (proj1 (list_elem_of_In _ _) (all_bytes_complete c))). by rewrite Hp in H. Qed.

Lemma name_plain s : all_chars isNameByte s = true -> all_chars plain s = true.
Proof. apply all_chars_weaken. intros c. apply byte_implies. vm_compute. reflexivity. Qed.

Lemma first_error_none {A} (check : A -> option value_error) l : first_error check l = None -> Forall (fun x => check x = None) l.
Proof. induction l as [| x l IH]; cbn; [constructor |]. destruct (check x) eqn:E; [done |]. intros H. constructor; [done | by apply IH]. Qed.

Lemma Split_cons c s : exists w ws, Split c s = w :: ws.
Proof. destruct s as [| a s]; cbn [Split]; [by do 2 eexists |]. destruct (a == c); [by do 2 eexists |]. destruct (Split c s); by do 2 eexists. Qed.

Lemma Split_pieces_plain c s : plain c = true -> Forall (fun w => all_chars plain w = true) (Split c s) -> all_chars plain s = true.
Proof.
  intros Hc. induction s as [| a s IH]; [done |]. cbn [Split all_chars]. destruct (bool_decide_reflect (a = c)) as [-> | Hn].
  - intros [_ H]%Forall_cons. by rewrite Hc, IH.
  - destruct (Split_cons c s) as (w & ws & E). rewrite E in *.
    intros [H1 H2]%Forall_cons. cbn [all_chars] in H1. apply andb_prop in H1 as [-> H1]. apply IH. by constructor.
Qed.

(** A value that one of the checks takes. *)
Inductive validated (s : string) : Prop :=
  | valid_host (H : ValidateHost s = None)
  | valid_ident (H : ValidateIdent s = None)
  | valid_name n (H : ValidateName s n = None)
  | valid_qualified n (H : ValidateQualifiedName s n = None)
  | valid_path (H : ValidatePath s = None) (Hn : no_nul s).

Lemma ValidateName_plain s n : ValidateName s n = None -> s <> "" /\ all_chars plain s = true.
Proof. unfold ValidateName. case_bool_decide; [done |]. destruct (_ >? _); [done |]. destruct (all_chars isNameByte s) eqn:E; [| done]. intros _. split; [done | by apply name_plain]. Qed.

Lemma check_label_none l : check_label l = None -> all_chars plain l = true /\ starts_with_dash l = false.
Proof.
  unfold check_label. destruct (_ || _); [done |]. destruct (isAlnumDash l) eqn:E; [| done]. destruct (starts_with_dash l); [done |]. intros _. split; [| done].
  revert E. apply all_chars_weaken. intros c Hc. apply (byte_implies (fun c => alnum c || (c == "-"%char)) plain c); [vm_compute; reflexivity | exact Hc].
Qed.

Lemma host_labels s : ValidateHost s = None -> s <> "" /\ Forall (fun l => check_label l = None) (Split "." s).
Proof. unfold ValidateHost. case_bool_decide; [done |]. destruct (_ >? _); [done |]. intros E. split; [done | by apply first_error_none]. Qed.

Lemma ident_chars s : ValidateIdent s = None -> exists c r, s = String c r /\ ident_char true c = true /\ all_chars (ident_char false) r = true.
Proof.
  unfold ValidateIdent. case_bool_decide; [done |]. destruct (_ >? _); [done |]. destruct s as [| c r]; [done |]. destruct (ident_char true c) eqn:E1; [| done].
  destruct (all_chars (ident_char false) r) eqn:E2; [| done]. intros _. by exists c, r.
Qed.

Lemma validated_plain s : validated s -> s <> "" /\ all_chars plain s = true.
Proof.
  intros [H | H | n H | n H | H Hn].
  - apply host_labels in H as [Hs Hl]. split; [done |]. apply (Split_pieces_plain "."); [reflexivity |]. eapply Forall_impl; [exact Hl |]. intros l Hc. by apply check_label_none.
  - apply ident_chars in H as (c & r & -> & H1 & H2). split; [done |]. cbn [all_chars].
    rewrite (byte_implies (ident_char true) plain c ltac:(vm_compute; reflexivity) H1). revert H2. apply all_chars_weaken. intros d. apply (byte_implies (ident_char false)). vm_compute. reflexivity.
  - by apply ValidateName_plain with n.
  - unfold ValidateQualifiedName in H. case_bool_decide; [done |]. destruct (2 <? _)%nat; [done |]. split; [done |]. apply (Split_pieces_plain ":"); [reflexivity |].
    apply first_error_none in H. eapply Forall_impl; [exact H |]. intros l Hc. by apply (ValidateName_plain l n).
  - unfold ValidatePath in H. case_bool_decide; [done |]. destruct (negb _); [done |]. destruct (_ >? _); [done |]. case_bool_decide; [done |].
    destruct (all_chars path_char s) eqn:E; [| done]. split; [done |]. clear -E Hn. unfold no_nul in Hn. induction s as [| c s IH]; [done |]. cbn [all_chars] in *.
    apply andb_prop in E as [E1 E2]. apply andb_prop in Hn as [N1 N2].
    rewrite (byte_implies (fun c => path_char c && not_char "000" c) plain c ltac:(vm_compute; reflexivity)) by (by rewrite E1, N1). by apply IH.
Qed.

(** A value that a check takes, pasted without quotes, is one word that reads as it is
    written: a host name, an identifier, a name, a qualified name, or a path without the
    byte 0; and a host name or an identifier is never taken for an option. *)
Theorem validated_values_are_words s :
  validated s -> sh_words Bare None s = Some [s] /\ (ValidateHost s = None \/ ValidateIdent s = None -> starts_with_dash s = false).
Proof.
  intros Hv. apply validated_plain in Hv as [Hn Hp]. split; [by rewrite plain_reads |]. intros [H | H].
  - apply host_labels in H as [_ Hl]. destruct s as [| c r]; [done |]. cbn [Split] in Hl. unfold starts_with_dash. cbn [HasPrefix]. rewrite andb_true_r.
    apply bool_decide_eq_false. intros <-. rewrite bool_decide_eq_false_2 in Hl by done. destruct (Split_cons "." r) as (w & ws & E). rewrite E in Hl.
    apply Forall_cons in Hl as [Hl _]. by apply check_label_none in Hl as [_ Hl].
  - apply ident_chars in H as (c & r & -> & H1 & _). unfold starts_with_dash. cbn [HasPrefix]. rewrite andb_true_r. apply bool_decide_eq_false. by intros <-.
Qed.

Lemma validated_values_are_words_witness : sh_words Bare None "db-1.example.com" = Some ["db-1.example.com"] /\ starts_with_dash "db-1.example.com" = false.
Proof.
  assert (H : ValidateHost "db-1.example.com" = None) by (vm_compute; reflexivity).
  destruct (validated_values_are_words "db-1.example.com" (valid_host _ H)) as [H1 H2]. split; [exact H1 | apply H2; by left].
Defined.

(** A name may look like an option. *)
Example name_like_option : ValidateName "-rf" 64 = None.
Proof. reflexivity. Qed.

(** ** PowerShell *)

(** The characters that PowerShell takes for a single quote: the apostrophe and U+2018 to
    U+201B. *)
Definition ps_quote (r : Z) : bool := (r =? 39) || ((8216 <=? r) && (r <=? 8219)).
(** A text between single quotes after the opening one: its value and what follows; of two
    quotes in a row the second is a part of the value. *)
Fixpoint ps_single (acc rs : list Z) : option (list Z * list Z) :=
  match rs with
  | [] => None
  | q :: rs =>
      if ps_quote q then match rs with q2 :: rs' => if ps_quote q2 then ps_single (acc ++ [q2]) rs' else Some (acc, rs) | [] => Some (acc, []) end
      else ps_single (acc ++ [q]) rs
  end.
Definition ps_literal (rs : list Z) : option (list Z * list Z) :=
  match rs with q :: rs => if ps_quote q then ps_single [] rs else None | [] => None end.

(** A byte that continues no character ends whatever is before it. *)
Lemma runes_app s a t : byte a < 128 \/ 191 < byte a -> runes (s +:+ String a t) = runes s ++ runes (String a t).
Proof.
  intros Ha. remember (String.length s) as n eqn:Hn. revert s Hn. induction n as [n IH] using lt_wf_ind. intros s ->.
  assert (Hc : forall lo hi, 128 <= lo /\ hi <= 191 -> cont lo hi a = false).
  { intros lo hi [Hlo Hhi]. unfold cont. destruct Ha; [rewrite (proj2 (Z.leb_gt lo (byte a))); [done | lia] |]. rewrite (proj2 (Z.leb_gt (byte a) hi)), andb_false_r; [done | lia]. }
  assert (Hlo : forall b lo hi, second_range b = (lo, hi) -> 128 <= lo /\ hi <= 191).
  { intros b lo hi. unfold second_range. repeat (destruct (b =? _); [intros [= <- <-]; lia |]). intros [= <- <-]. lia. }
  assert (Ht : forall s, "" +:+ s = s) by done. remember (runes (String a t)) as R eqn:HR.
  assert (IH' : forall s', (String.length s' < String.length s)%nat -> runes (s' +:+ String a t) = runes s' ++ R) by (intros s' Hl; by apply (IH (String.length s'))). clear IH.
  destruct s as [| x s1]; [by rewrite Ht |]. rewrite app_cons_string. cbn [runes]. destruct (second_range (byte x)) as [lo hi] eqn:Er. specialize (Hlo _ _ _ Er). cbn [String.length] in IH'.
  destruct (byte x <? 128); [cbn [app]; f_equal; apply IH'; lia |].
  assert (E1 : runes (s1 +:+ String a t) = runes s1 ++ R) by (apply IH'; lia).
  destruct s1 as [| c s2]; [rewrite Ht, (Hc _ _ Hlo), <- HR; done |]. rewrite !app_cons_string in *. destruct (negb (cont lo hi c)); [by rewrite E1 |].
  cbn [String.length] in IH'. assert (E2 : runes (s2 +:+ String a t) = runes s2 ++ R) by (apply IH'; lia).
  destruct ((194 <=? byte x) && _); [by rewrite E2 |].
  destruct s2 as [| d s3]; [rewrite Ht, (Hc 128 191) in *; [by rewrite E1 | lia] |]. rewrite !app_cons_string in *.
  destruct (negb (cont 128 191 d)); [by rewrite E1 |]. cbn [String.length] in IH'.
  assert (E3 : runes (s3 +:+ String a t) = runes s3 ++ R) by (apply IH'; lia).
  destruct ((224 <=? byte x) && _); [by rewrite E3 |].
  destruct s3 as [| e s4]; [rewrite Ht, (Hc 128 191) in *; [by rewrite E1 | lia] |]. rewrite !app_cons_string in *. cbn [String.length] in IH'.
  destruct (cont 128 191 e && _ && _); [| by rewrite E1]. by rewrite (IH' s4) by lia.
Qed.

(** The code points of a text without apostrophes are none. *)
Lemma runes_no_quote s : all_chars (not_char "'") s = true -> Forall (fun r => r <> 39) (runes s).
Proof.
  remember (String.length s) as n eqn:Hn. revert s Hn. induction n as [n IH] using lt_wf_ind. intros s -> Hs.
  assert (IH' : forall s', (String.length s' < String.length s)%nat -> all_chars (not_char "'") s' = true -> Forall (fun r => r <> 39) (runes s')) by (intros s' Hl; by apply (IH (String.length s'))). clear IH.
  destruct s as [| x s1]; [constructor |]. cbn [all_chars String.length] in Hs, IH'. apply andb_prop in Hs as [Hx Hs1]. cbn [runes]. pose proof (byte_bound x) as Bx.
  assert (F1 : Forall (fun r => r <> 39) (runes s1)) by (apply IH'; [lia | done]). assert (E1 : Forall (fun r => r <> 39) (RuneError :: runes s1)) by (by constructor).
  destruct (second_range (byte x)) as [lo hi] eqn:Er. destruct (Z.ltb_spec (byte x) 128) as [| Hb].
  { constructor; [| done]. intros E. unfold not_char in Hx. apply negb_true_iff, bool_decide_eq_false in Hx. apply Hx. apply (f_equal out) in E. by rewrite (out_byte _ x eq_refl) in E. }
  destruct s1 as [| c s2]; [done |]. apply andb_prop in Hs1 as [_ Hs2]. cbn [String.length] in IH'. pose proof (byte_bound c) as Bc.
  destruct (cont lo hi c) eqn:Ec; cbn [negb]; [| done]. unfold cont in Ec. apply andb_prop in Ec as [Ec1 Ec2]. unfold tail_bits, second_range in *.
  destruct ((194 <=? byte x) && (byte x <=? 223)) eqn:E2; [constructor; [| apply IH'; [lia | done]]; Z.div_mod_to_equations; lia |].
  destruct s2 as [| d s3]; [done |]. apply andb_prop in Hs2 as [_ Hs3]. cbn [String.length] in IH'. destruct (cont 128 191 d); cbn [negb]; [| done].
  destruct ((224 <=? byte x) && (byte x <=? 239)) eqn:E3.
  { constructor; [| apply IH'; [lia | done]]. destruct (byte x =? 224) eqn:E224; [injection Er as <- <-|]; pose proof (byte_bound d); Z.div_mod_to_equations; lia. }
  destruct s3 as [| e s4]; [done |]. apply andb_prop in Hs3 as [_ Hs4]. cbn [String.length] in IH'. destruct (cont 128 191 e && (240 <=? byte x) && (byte x <=? 244)) eqn:E4; [| done].
  constructor; [| apply IH'; [lia | done]]. pose proof (byte_bound d). pose proof (byte_bound e).
  destruct (byte x =? 240) eqn:E240; [replace (byte x =? 224) with false in Er by lia; replace (byte x =? 237) with false in Er by lia; injection Er as <- <- |]; Z.div_mod_to_equations; lia.
Qed.

(** A text in front of its first apostrophe, or without any. *)
Lemma at_apostrophe s : all_chars (not_char "'") s = true \/ exists p t, s = p +:+ String "'" t /\ all_chars (not_char "'") p = true.
Proof.
  induction s as [| c s [IH | (p & t & -> & IH)]]; [by left | |].
  - destruct (decide (c = "'"%char)) as [-> | Hn]; [right; by exists "", s | left]. cbn [all_chars]. rewrite IH, andb_true_r. unfold not_char. by rewrite bool_decide_eq_false_2.
  - right. destruct (decide (c = "'"%char)) as [-> | Hn]; [by exists "", (p +:+ String "'" t) |]. exists (String c p), t. split; [done |]. cbn [all_chars].
    rewrite IH, andb_true_r. unfold not_char. by rewrite bool_decide_eq_false_2.
Qed.

Lemma doubled_prefix p s : all_chars (not_char "'") p = true -> ReplaceAll "'" "''" (p +:+ s) = p +:+ ReplaceAll "'" "''" s.
Proof.
  unfold ReplaceAll. induction p as [| c p IH]; [done |]. intros [Hc Hp]%andb_prop. rewrite !app_cons_string. cbn [replace_from HasPrefix]. rewrite andb_true_r.
  unfold not_char in Hc. apply negb_true_iff, bool_decide_eq_false in Hc. rewrite bool_decide_eq_false_2 by congruence. by rewrite IH.
Qed.

(** What follows the opening quote is read to the end of the value, which has no quotation
    marks but apostrophes. *)
Lemma ps_plain acc rs rest : Forall (fun r => ps_quote r = false) rs -> ps_single acc (rs ++ rest) = ps_single (acc ++ rs) rest.
Proof. intros Hr. revert acc. induction Hr as [| r rs Hr _ IH]; intros acc; [by rewrite app_nil_r |]. cbn [app ps_single]. by rewrite Hr, IH, <- app_assoc. Qed.

Definition no_smart_quotes (s : string) : Prop := Forall (fun r => ps_quote r = true -> r = 39) (runes s).

Lemma no_smart_app p a t : byte a < 128 \/ 191 < byte a -> no_smart_quotes (p +:+ String a t) -> no_smart_quotes p /\ no_smart_quotes (String a t).
Proof. intros Ha Hs. unfold no_smart_quotes in *. rewrite (runes_app p a t Ha) in Hs. by apply Forall_app in Hs. Qed.

Lemma plain_runes p : no_smart_quotes p -> all_chars (not_char "'") p = true -> Forall (fun r => ps_quote r = false) (runes p).
Proof.
  intros Hs Hp. apply runes_no_quote in Hp. unfold no_smart_quotes in Hs. eapply Forall_impl; [apply Forall_and; exact (conj Hs Hp) |].
  cbn beta. intros r [H1 H2]. destruct (ps_quote r); [by destruct H2; apply H1 | done].
Qed.

Lemma runes_quote t : runes (String "'" t) = 39 :: runes t.
Proof. reflexivity. Qed.

(** A doubled value is read to its end, whatever follows that starts a character of its
    own. *)
Lemma doubled_reads s acc rest :
  (forall p, runes (p +:+ rest) = runes p ++ runes rest) -> no_smart_quotes s -> ps_single acc (runes (ReplaceAll "'" "''" s +:+ rest)) = ps_single (acc ++ runes s) (runes rest).
Proof.
  intros Ea. remember (String.length s) as n eqn:Hn. revert s acc Hn. induction n as [n IH] using lt_wf_ind. intros s acc -> Hs. destruct (at_apostrophe s) as [Hp | (p & t & -> & Hp)].
  - rewrite <- (app_nil_r_string s) at 1. rewrite doubled_prefix by done. change (ReplaceAll "'" "''" "") with "". rewrite app_nil_r_string, Ea.
    apply ps_plain. by apply plain_runes.
  - destruct (no_smart_app p "'" t ltac:(by left) Hs) as [H1 H2]. rewrite doubled_prefix, app_assoc_string by done.
    change (ReplaceAll "'" "''" (String "'" t)) with ("''" +:+ ReplaceAll "'" "''" t). rewrite app_assoc_string. change ("''" +:+ ?x) with (String "'" (String "'" x)).
    rewrite !runes_app, !runes_quote by (left; reflexivity). rewrite ps_plain by (by apply plain_runes). cbn [ps_single]. change (ps_quote 39) with true. cbv iota.
    rewrite (IH (String.length t)); [by rewrite <- !app_assoc | rewrite length_app_string; cbn; lia | done |].
    unfold no_smart_quotes in *. rewrite runes_quote in H2. by apply Forall_cons in H2 as [_ H2].
Qed.

Lemma ps_literal_of s : ps_literal (runes (QuotePowerShellSingle s)) = ps_single [] (runes (ReplaceAll "'" "''" s +:+ "'")).
Proof. reflexivity. Qed.

(** A value without the typographic quotation marks, quoted for PowerShell, is one
    literal, which reads as the value and ends with the text. *)
Theorem powershell_literal_reads_back s : no_smart_quotes s -> ps_literal (runes (QuotePowerShellSingle s)) = Some (runes s, []).
Proof. intros Hs. rewrite ps_literal_of, (doubled_reads s [] "'") by (done || intros p; apply runes_app; by left). done. Qed.

Lemma powershell_literal_reads_back_witness : ps_literal (runes (QuotePowerShellSingle "it's $(whoami)")) = Some (runes "it's $(whoami)", []).
Proof. apply powershell_literal_reads_back. vm_compute. repeat (constructor; [congruence |]). constructor. Defined.

(** U+2019, which word processors put for an apostrophe. *)
Definition right_mark (s : string) : string := String "226" (String "128" (String "153" s)).

Lemma marked s t : ReplaceAll "'" "''" (s +:+ right_mark t) = ReplaceAll "'" "''" s +:+ right_mark (ReplaceAll "'" "''" t).
Proof.
  unfold ReplaceAll. induction s as [| c s IH]; [done |]. rewrite app_cons_string. cbn [replace_from HasPrefix String.length Nat.sub]. rewrite andb_true_r.
  destruct ("'"%char == c); rewrite IH; [by rewrite !app_assoc_string | done].
Qed.

(** C39: a typographic quotation mark ends the literal: PowerShell runs what follows it in
    the value as code, up to the quote that was to end it.  (A doubled quote would be a part
    of the literal, hence the condition on what follows.) *)
Theorem typographic_quote_escapes s c payload :
  no_smart_quotes s -> byte c < 128 -> c <> "'"%char ->
  ps_literal (runes (QuotePowerShellSingle (s +:+ right_mark (String c payload)))) = Some (runes s, runes (String c (ReplaceAll "'" "''" payload +:+ "'"))).
Proof.
  intros Hs Hc Hn. rewrite ps_literal_of, marked, app_assoc_string. set (rest := right_mark _ +:+ "'").
  rewrite (doubled_reads s [] rest); [| intros p; unfold rest, right_mark; rewrite !app_cons_string; apply runes_app; right; reflexivity | done].
  assert (Ep : ReplaceAll "'" "''" (String c payload) = String c (ReplaceAll "'" "''" payload)).
  { unfold ReplaceAll. cbn [replace_from HasPrefix]. rewrite andb_true_r. by rewrite bool_decide_eq_false_2 by congruence. }
  assert (Er : runes rest = 8217 :: runes (String c (ReplaceAll "'" "''" payload +:+ "'"))) by (unfold rest, right_mark; rewrite Ep, !app_cons_string; reflexivity).
  assert (Hq : ps_quote (byte c) = false).
  { unfold ps_quote. rewrite (proj2 (Z.leb_gt 8216 (byte c))) by lia. rewrite orb_false_r. apply Z.eqb_neq. intros Eb. apply Hn. by rewrite <- (out_byte 39 c). }
  rewrite Er. assert (Ec : forall t, runes (String c t) = byte c :: runes t) by (intros t; cbn [runes]; destruct (second_range (byte c)); by rewrite (proj2 (Z.ltb_lt _ _) Hc)).
  rewrite Ec. cbn [ps_single]. change (ps_quote 8217) with true. by rewrite Hq.
Qed.

Lemma typographic_quote_escapes_witness :
  ps_literal (runes (QuotePowerShellSingle ("a" +:+ right_mark "; calc #"))) = Some ([97], runes "; calc #'").
Proof.
  apply (typographic_quote_escapes "a" ";" " calc #"); [| reflexivity | discriminate]. vm_compute. repeat (constructor; [congruence |]). constructor.
Defined.

(** What follows the option of an encoded command has only characters of Base64, so that
    neither the starting program nor cmd.exe sees anything special in it, and decodes to the
    script, as UTF-16 with the low byte first. *)
Theorem encoded_command_carries_script script :
  exists payload_text, PowerShellEncodedCommand script = "powershell -EncodedCommand " +:+ payload_text /\
    DecodeString payload_text = Some (little_endian (Encode16 (runes script))) /\ all_chars (fun c => alnum c || bool_decide (c ∈ ["+"; "/"; "="]%char)) payload_text = true.
Proof.
  eexists. split; [reflexivity |]. split; [apply DecodeString_EncodeToString |]. generalize (little_endian (Encode16 (runes script))). clear.
  assert (Hs : forall n, 0 <= n < 64 -> (fun c => alnum c || bool_decide (c ∈ ["+"; "/"; "="]%char)) (sextet_char n) = true).
  { intros n Hn. apply (sextets_all (fun n => alnum (sextet_char n) || bool_decide (sextet_char n ∈ ["+"; "/"; "="]%char)) n Hn). vm_compute. reflexivity. }
  apply string_ind3; cbn [EncodeToString all_chars]; [done | intros a | intros a b | intros a b c s IH]; pose proof (byte_bound a);
    try pose proof (byte_bound b); try pose proof (byte_bound c); rewrite !Hs by (Z.div_mod_to_equations; lia); [done | done | exact IH].
Qed.
