(* ===== verification/Requests.v ===== *)
(** * What requests may ask for ([internal/controlplane/paginate], [pkg/retry],
      [internal/controlplane/ratelimit], [pkg/security])

    The page that a request asks for, and that the pages of a list are the list; calling
    a function again while it fails, and when that ends; buckets of tokens by address, in
    a table of bounded size; windows that slide, and that they admit exactly what the
    limit says. *)

From Stdlib Require Import Ascii.
From S2P Require Import Prelude Float64 GoStrings.
#[local] Open Scope Z_scope.
Open Scope go_scope.

(** ** [ParsePagination] *)

Definition maxInt : Z := 2 ^ 62 - 1.

(** Of the query parameters [page] and [pageSize], empty if they are missing; page 0 is no
    paging. *)
Definition ParsePagination (pageStr sizeStr : string) : Z * Z :=
  if pageStr == "" then (0, 0) else
  let page := default 0 (Atoi pageStr) in
  let page := if page <? 1 then 1 else page in
  let pageSize := match Atoi sizeStr with Some n => if (sizeStr != "") && (n >? 0) then n else 20 | None => 20 end in
  let pageSize := if pageSize >? 200 then 200 else pageSize in
  let maxPage := maxInt ÷ pageSize in
  let maxPage := if maxPage <? 1 then 1 else maxPage in
  (if page >? maxPage then maxPage else page, pageSize).

(** [PaginateResult]. *)
Record PaginateResult (A : Type) := Page { Data : list A; Total : Z; PageNo : Z; PageSize : Z; HasMore : bool }.
Arguments Page {A}. Arguments Data {A}. Arguments Total {A}. Arguments PageNo {A}. Arguments PageSize {A}. Arguments HasMore {A}.

(** [a[i:j]]. *)
Definition between {A} (i j : Z) (l : list A) : list A := take (Z.to_nat (j - i)) (drop (Z.to_nat i) l).
Definition paginate {A} (page pageSize : Z) (arr : list A) : PaginateResult A :=
  let total := Z.of_nat (length arr) in
  let start := wrap_i64 ((page - 1) * pageSize) in
  let start := if start >=? total then total else start in
  let stop := wrap_i64 (start + pageSize) in
  let stop := if stop >? total then total else stop in
  Page (between start stop arr) total page pageSize (stop <? total).

(** The answer of the wrapped handler is kept, unless it is a list and one page of it was
    asked for; [arr] is its body, if that is a list. *)
Inductive paged (A : Type) := AsIs | OnePage (r : PaginateResult A).
Arguments AsIs {A}. Arguments OnePage {A}.
Definition PaginateJSONHandler {A} (isGet : bool) (pageStr sizeStr : string) (status : Z) (arr : option (list A)) : paged A :=
  if negb isGet || (pageStr == "") then AsIs
  else if status != 200 then AsIs
  else match arr with None => AsIs | Some arr => let '(page, size) := ParsePagination pageStr sizeStr in OnePage (paginate page size arr) end.

(** ** What a client gets *)

(** Whatever the parameters say, a page is at least the first, has one to two hundred
    rows, and its bounds are computed without overflow, in a list of any length that a
    machine holds. *)
Theorem pagination_in_bounds pageStr sizeStr total :
  pageStr <> "" -> 0 <= total <= 2 ^ 62 ->
  let '(page, size) := ParsePagination pageStr sizeStr in
  1 <= page /\ 1 <= size <= 200 /\ in_i64 ((page - 1) * size) /\ in_i64 (Z.min total ((page - 1) * size) + size).
Proof.
  intros Hp Ht. unfold ParsePagination, in_i64, maxInt. rewrite bool_decide_eq_false_2 by done. set (page := default 0 (Atoi pageStr)). cbv zeta.
  set (size0 := match Atoi sizeStr with Some n => _ | None => 20 end). assert (Hs : 1 <= size0) by (unfold size0; destruct (Atoi sizeStr) as [n |]; [destruct (sizeStr != "") |]; cbn; [destruct (Z.gtb_spec n 0); lia | lia | lia]).
  destruct (Z.gtb_spec size0 200).
  all: destruct (Z.ltb_spec page 1); match goal with |- context [?a <? 1] => destruct (Z.ltb_spec a 1) end; match goal with |- context [?a >? ?b] => destruct (Z.gtb_spec a b) end.
  all: Z.quot_rem_to_equations; nia.
Qed.

Lemma paginate_slice {A} page size (arr : list A) :
  1 <= page -> 1 <= size -> in_i64 ((page - 1) * size) -> in_i64 (Z.min (Z.of_nat (length arr)) ((page - 1) * size) + size) ->
  Data (paginate page size arr) = take (Z.to_nat size) (drop (Z.to_nat ((page - 1) * size)) arr) /\
  HasMore (paginate page size arr) = (page * size <? Z.of_nat (length arr)).
Proof.
  intros Hp Hs Hi1 Hi2. unfold paginate, between. cbn [Data HasMore]. rewrite (wrap_i64_id _ Hi1).
  destruct (Z.geb_spec ((page - 1) * size) (Z.of_nat (length arr))) as [Hg | Hg].
  - rewrite Z.min_l in Hi2 by lia. rewrite (wrap_i64_id _ Hi2). rewrite (proj2 (Z.gtb_lt _ _)) by lia.
    rewrite (drop_ge arr) by lia. rewrite (drop_ge arr) by lia. rewrite !take_nil. split; [done |]. rewrite Z.ltb_irrefl. symmetry. apply Z.ltb_ge. nia.
  - rewrite Z.min_r in Hi2 by lia. rewrite (wrap_i64_id _ Hi2). replace ((page - 1) * size + size) with (page * size) by lia.
    destruct (Z.gtb_spec (page * size) (Z.of_nat (length arr))) as [Ho | Ho].
    + split; [| rewrite Z.ltb_irrefl; symmetry; apply Z.ltb_ge; lia]. rewrite !take_ge; [done | rewrite length_drop; nia | rewrite length_drop; nia].
    + split; [| done]. f_equal. lia.
Qed.

Lemma pagination_in_bounds_witness :
  let '(page, size) := ParsePagination "9223372036854775807" "1000" in 1 <= page /\ 1 <= size <= 200 /\ in_i64 ((page - 1) * size) /\ in_i64 (Z.min 7 ((page - 1) * size) + size).
Proof. apply (pagination_in_bounds "9223372036854775807" "1000" 7); [discriminate | lia]. Defined.

(** The page of a number, of the size that the request names. *)
Definition get_page {A} (sizeStr : string) (arr : list A) (k : nat) : PaginateResult A :=
  let '(page, size) := ParsePagination (itoa (Z.of_nat k)) sizeStr in paginate page size arr.
Definition size_of (sizeStr : string) : Z := (ParsePagination "1" sizeStr).2.

Lemma ParsePagination_page sizeStr k :
  1 <= Z.of_nat k <= 2 ^ 54 -> ParsePagination (itoa (Z.of_nat k)) sizeStr = (Z.of_nat k, size_of sizeStr) /\ 1 <= size_of sizeStr <= 200.
Proof.
  intros Hk. pose proof (pagination_in_bounds "1" sizeStr 0 ltac:(done) ltac:(lia)) as Hb. unfold size_of in *. destruct (ParsePagination "1" sizeStr) as [p s] eqn:E1. cbn [snd].
  split; [| tauto]. unfold ParsePagination in *. rewrite (bool_decide_eq_false_2 _ (itoa_nonempty _)), Atoi_itoa by (unfold max_i64; lia). change (default 0 (Some (Z.of_nat k))) with (Z.of_nat k).
  change ("1" == "") with false in E1. cbv iota zeta in *. injection E1 as _ <-.
  set (s := if _ >? 200 then 200 else _) in *. cbv beta zeta. rewrite (proj2 (Z.ltb_ge (Z.of_nat k) 1)) by lia. unfold maxInt. f_equal.
  destruct (Z.ltb_spec ((2 ^ 62 - 1) ÷ s) 1); match goal with |- context [?a >? ?b] => destruct (Z.gtb_spec a b) end; Z.quot_rem_to_equations; nia.
Qed.

Lemma get_page_slice {A} sizeStr (arr : list A) k :
  1 <= Z.of_nat k <= 2 ^ 54 -> Z.of_nat (length arr) <= 2 ^ 62 ->
  Data (get_page sizeStr arr k) = take (Z.to_nat (size_of sizeStr)) (drop (Z.to_nat ((Z.of_nat k - 1) * size_of sizeStr)) arr) /\
  HasMore (get_page sizeStr arr k) = (Z.of_nat k * size_of sizeStr <? Z.of_nat (length arr)).
Proof.
  intros Hk Hl. unfold get_page. destruct (ParsePagination_page sizeStr k Hk) as [-> Hs]. apply paginate_slice; unfold in_i64; nia.
Qed.

(** A client that asks for page after page until there is no more gets the list, each
    element once and in order, whatever page size it names: the first [n] pages are the
    first elements, and [HasMore] says exactly whether elements are left. *)
Theorem pages_are_the_list {A} sizeStr (arr : list A) n :
  Z.of_nat n <= 2 ^ 54 -> Z.of_nat (length arr) <= 2 ^ 62 ->
  concat (map (fun k => Data (get_page sizeStr arr k)) (seq 1 n)) = take (n * Z.to_nat (size_of sizeStr)) arr /\
  ((0 < n)%nat -> HasMore (get_page sizeStr arr n) = false -> concat (map (fun k => Data (get_page sizeStr arr k)) (seq 1 n)) = arr).
Proof.
  intros Hn Hl. assert (E : concat (map (fun k => Data (get_page sizeStr arr k)) (seq 1 n)) = take (n * Z.to_nat (size_of sizeStr)) arr).
  { induction n as [| n IH]; [done |]. rewrite seq_S, map_app, concat_app, IH by lia. cbn [map concat]. rewrite app_nil_r.
    destruct (get_page_slice sizeStr arr (1 + n) ltac:(lia) Hl) as [-> _]. replace (Z.to_nat ((Z.of_nat (1 + n) - 1) * size_of sizeStr)) with (n * Z.to_nat (size_of sizeStr))%nat by nia.
    replace (S n * Z.to_nat (size_of sizeStr))%nat with (n * Z.to_nat (size_of sizeStr) + Z.to_nat (size_of sizeStr))%nat by lia. apply take_take_drop. }
  split; [exact E |]. intros H0 Hm. destruct (get_page_slice sizeStr arr n ltac:(lia) Hl) as [_ Hh]. rewrite Hh in Hm. rewrite E. apply take_ge.
  destruct (ParsePagination_page sizeStr n ltac:(lia)) as [_ Hs]. apply Z.ltb_ge in Hm. nia.
Qed.

Lemma pages_are_the_list_witness :
  HasMore (get_page "2" [1; 2; 3; 4; 5] 2) = true /\ concat (map (fun k => Data (get_page "2" [1; 2; 3; 4; 5] k)) (seq 1 3)) = [1; 2; 3; 4; 5].
Proof.
  split; [vm_compute; reflexivity |]. assert (Hm : HasMore (get_page "2" [1; 2; 3; 4; 5] 3) = false) by (vm_compute; reflexivity).
  exact (proj2 (pages_are_the_list "2" [1; 2; 3; 4; 5] 3 ltac:(lia) ltac:(cbn; lia)) ltac:(lia) Hm).
Defined.

(** ** [DoWithConfig] *)

Module Retry.
Record Config (E : Type) := {
  MaxRetries : Z; InitialDelay : duration; MaxDelay : duration; BackoffFactor : float64; Jitter : float64; ShouldRetry : option (E -> bool) }.
Arguments MaxRetries {E}. Arguments InitialDelay {E}. Arguments MaxDelay {E}. Arguments BackoffFactor {E}. Arguments Jitter {E}. Arguments ShouldRetry {E}.

Definition f_two : float64 := f_of_int 2.
Definition DefaultConfig {E} : Config E :=
  {| MaxRetries := 3; InitialDelay := second / 10; MaxDelay := 30 * second; BackoffFactor := f_two; Jitter := f_div f_one (f_of_int 5); ShouldRetry := None |}.

(** [random] is what [rand.Float64] draws. *)
Definition applyJitter (random : float64) (delay : duration) (jitter : float64) : duration :=
  if f_le jitter f_zero then delay
  else
    let jitter := if f_lt f_one jitter then f_one else jitter in
    let factor := f_add (f_sub f_one jitter) (f_mul (f_mul random f_two) jitter) in
    f_trunc (f_mul (f_of_int delay) factor).

Section retry.
Context {E : Type}.
(** What the calls return, by number, and what is drawn before each further call. *)
Context (fn : nat -> option E) (random : nat -> float64).

(** The calls made, the waits before them, and the answer; [todo] calls may follow. *)
Record outcome := Outcome { Calls : nat; Waits : list duration; Answer : option E }.

Definition next_delay (cfg : Config E) (delay : duration) : duration :=
  let delay := f_trunc (f_mul (f_of_int delay) (BackoffFactor cfg)) in if delay >? MaxDelay cfg then MaxDelay cfg else delay.

Fixpoint attempts (cfg : Config E) (todo : nat) (attempt : nat) (delay : duration) (waits : list duration) (lastErr : option E) : outcome :=
  match todo with
  | O => Outcome attempt waits lastErr
  | S todo =>
      let '(waits, delay) :=
        if (0 <? attempt)%nat then (waits ++ [applyJitter (random attempt) delay (Jitter cfg)], next_delay cfg delay) else (waits, delay) in
      match fn attempt with
      | None => Outcome (S attempt) waits None
      | Some e =>
          match ShouldRetry cfg with
          | Some should => if should e then attempts cfg todo (S attempt) delay waits (Some e) else Outcome (S attempt) waits (Some e)
          | None => attempts cfg todo (S attempt) delay waits (Some e)
          end
      end
  end.

Definition completed (cfg : Config E) : Config E :=
  {| MaxRetries := MaxRetries cfg; InitialDelay := InitialDelay cfg; MaxDelay := if MaxDelay cfg <=? 0 then 30 * second else MaxDelay cfg;
     BackoffFactor := if f_le (BackoffFactor cfg) f_zero then f_two else BackoffFactor cfg; Jitter := Jitter cfg; ShouldRetry := ShouldRetry cfg |}.
Definition DoWithConfig (cfg : Config E) : outcome :=
  attempts (completed cfg) (Z.to_nat (MaxRetries cfg + 1)) 0 (InitialDelay cfg) [] None.
Definition Do (maxRetries : Z) (initialDelay : duration) : outcome :=
  let d := @DefaultConfig E in
  DoWithConfig {| MaxRetries := maxRetries; InitialDelay := initialDelay; MaxDelay := MaxDelay d; BackoffFactor := BackoffFactor d; Jitter := Jitter d; ShouldRetry := ShouldRetry d |}.

Definition again (cfg : Config E) (e : E) : bool := match ShouldRetry cfg with Some should => should e | None => true end.

(** How [attempts] ends: [k] is the number of the call that was the last. *)
Lemma attempts_end cfg todo attempt delay waits lastErr :
  (0 < todo)%nat -> length waits = (attempt - 1)%nat ->
  exists k, let o := attempts cfg todo attempt delay waits lastErr in
    (attempt <= k < attempt + todo)%nat /\ Calls o = S k /\ length (Waits o) = k /\ Answer o = fn k /\
    (forall i, (attempt <= i < k)%nat -> exists e, fn i = Some e /\ again cfg e = true) /\
    (forall e, fn k = Some e -> (S k = attempt + todo)%nat \/ again cfg e = false).
Proof using Type.
  revert attempt delay waits lastErr. induction todo as [| todo IH]; intros attempt delay waits lastErr Hl Hw; [lia |]. cbn [attempts].
  set (p := if (0 <? attempt)%nat then _ else _). assert (Hp : length p.1 = attempt).
  { unfold p. destruct (Nat.ltb_spec 0 attempt); cbn [fst]; [rewrite length_app; cbn [length] |]; lia. }
  destruct p as [w d]. cbn [fst] in Hp. destruct (fn attempt) as [e |] eqn:Ef.
  - assert (Hstop : again cfg e = false \/ todo = O -> exists k, let o := Outcome (S attempt) w (Some e) in
      (attempt <= k < attempt + S todo)%nat /\ Calls o = S k /\ length (Waits o) = k /\ Answer o = fn k /\
      (forall i, (attempt <= i < k)%nat -> exists e, fn i = Some e /\ again cfg e = true) /\
      (forall e, fn k = Some e -> (S k = attempt + S todo)%nat \/ again cfg e = false)).
    { intros Hs. exists attempt. cbn. rewrite Ef. split_and!; try done; try lia. intros e' [= <-]. destruct Hs; [by right | left; lia]. }
    assert (Hgo : again cfg e = true -> todo <> O -> exists k, let o := attempts cfg todo (S attempt) d w (Some e) in
      (attempt <= k < attempt + S todo)%nat /\ Calls o = S k /\ length (Waits o) = k /\ Answer o = fn k /\
      (forall i, (attempt <= i < k)%nat -> exists e, fn i = Some e /\ again cfg e = true) /\
      (forall e, fn k = Some e -> (S k = attempt + S todo)%nat \/ again cfg e = false)).
    { intros Ha Hn. destruct (IH (S attempt) d w (Some e) ltac:(lia) ltac:(lia)) as (k & H1 & H2 & H3 & H4 & H5 & H6). exists k. cbv zeta. split_and!; try done; try lia.
      - intros i Hi. destruct (decide (i = attempt)) as [-> |]; [by exists e | apply H5; lia].
      - intros e' He. destruct (H6 e' He) as [|]; [left; lia | by right]. }
    assert (H0 : todo = O -> attempts cfg todo (S attempt) d w (Some e) = Outcome (S attempt) w (Some e)) by (by intros ->).
    assert (Ea : forall x y : outcome, match ShouldRetry cfg with Some should => if should e then x else y | None => x end = if again cfg e then x else y)
      by (intros x y; unfold again; by destruct (ShouldRetry cfg)).
    rewrite Ea. destruct (again cfg e) eqn:Ee; [| exact (Hstop (or_introl eq_refl))].
    destruct (decide (todo = O)) as [E0 |]; [rewrite H0 by done; exact (Hstop (or_intror E0)) | by apply Hgo].
  - exists attempt. cbn. rewrite Ef. split_and!; try done; try lia.
Qed.

(** A function is called until it succeeds, fails in a way that is not to be retried, or
    has been called once more than [MaxRetries]; the answer is that of the last call, every
    call before it failed in a way that is to be retried, and there is one wait before each
    call but the first. *)
Theorem retried_until_done cfg :
  0 <= MaxRetries cfg ->
  let o := DoWithConfig cfg in
  exists k, Calls o = S k /\ Z.of_nat k <= MaxRetries cfg /\ length (Waits o) = k /\ Answer o = fn k /\
    (forall i, (i < k)%nat -> exists e, fn i = Some e /\ again cfg e = true) /\
    (forall e, fn k = Some e -> Z.of_nat k = MaxRetries cfg \/ again cfg e = false).
Proof using Type.
  intros Hm. destruct (attempts_end (completed cfg) (Z.to_nat (MaxRetries cfg + 1)) 0 (InitialDelay cfg) [] None ltac:(lia) eq_refl) as (k & H1 & H2 & H3 & H4 & H5 & H6).
  exists k. change (again (completed cfg)) with (again cfg) in *. cbv zeta. split_and!; try done; try lia; [intros i Hi; apply H5; lia |].
  intros e He. destruct (H6 e He) as [|]; [left; lia | by right].
Qed.

(** With a negative number of retries the function is not called at all, and the answer
    is that it succeeded. *)
Theorem negative_retries_succeed cfg : MaxRetries cfg < 0 -> DoWithConfig cfg = Outcome 0 [] None.
Proof using Type. intros Hm. unfold DoWithConfig. by replace (Z.to_nat (MaxRetries cfg + 1)) with 0%nat by lia. Qed.
End retry.

(** A function that succeeds at the third call. *)
Definition ex_flaky (n : nat) : option string := if (n <? 2)%nat then Some "busy" else None.

Example waits_double : Waits (Do ex_flaky (fun _ => f_div f_one f_two) 3 second) = [second; 2 * second].
Proof. vm_compute. reflexivity. Qed.

Lemma retried_until_done_witness :
  exists k, Calls (DoWithConfig ex_flaky (fun _ => f_zero) DefaultConfig) = S k /\ Answer (DoWithConfig ex_flaky (fun _ => f_zero) DefaultConfig) = ex_flaky k.
Proof.
  destruct (retried_until_done ex_flaky (fun _ => f_zero) DefaultConfig ltac:(cbn; lia)) as (k & H1 & _ & _ & H4 & _). exists k. split; [exact H1 | exact H4].
Defined.

Definition ex_no_retries : Config string :=
  {| MaxRetries := -1; InitialDelay := 0; MaxDelay := 0; BackoffFactor := f_zero; Jitter := f_zero; ShouldRetry := None |}.
Lemma negative_retries_succeed_witness : DoWithConfig (fun _ => Some "down") (fun _ => f_zero) ex_no_retries = Outcome 0 [] None.
Proof. apply negative_retries_succeed. cbn. lia. Defined.
End Retry.

(** ** Buckets ([limiter.go]) *)

Module Limiter.
Definition maxRateLimitBuckets : Z := 50000.
(** [tokenBucket]. *)
Record bucket := { tokens : float64; lastRefill : time }.
Record t := mk { buckets : gmap string bucket; ratePerSec : Z; sweepInterval : duration; maxBuckets : Z; untracked : Z; lastUntrackedLog : time }.
Definition set_buckets (v : gmap string bucket) (rl : t) : t := mk v (ratePerSec rl) (sweepInterval rl) (maxBuckets rl) (untracked rl) (lastUntrackedLog rl).

Definition New (ratePerSec : Z) (sweepInterval : duration) : t := mk ∅ ratePerSec sweepInterval maxRateLimitBuckets 0 0.
Definition idle (now : time) (rl : t) (b : bucket) : bool := Sub now (lastRefill b) >? sweepInterval rl.
Definition evictIdleLocked (now : time) (rl : t) : t := set_buckets (filter (fun p => idle now rl p.2 = false) (buckets rl)) rl.
Definition sweep := evictIdleLocked.

Definition limit (rl : t) : Z := if maxBuckets rl <=? 0 then maxRateLimitBuckets else maxBuckets rl.
Definition full (rl : t) : bool := Z.of_nat (size (buckets rl)) >=? limit rl.

(** One token of a bucket, after it is refilled. *)
Definition take_token (now : time) (b : bucket) (rl : t) : bucket * bool :=
  let rate := f_of_int (ratePerSec rl) in
  let tokens := f_add (tokens b) (f_mul (Seconds (Sub now (lastRefill b))) rate) in
  let tokens := if f_lt rate tokens then rate else tokens in
  if f_le f_one tokens then ({| tokens := f_sub tokens f_one; lastRefill := now |}, true) else ({| tokens := tokens; lastRefill := now |}, false).
Definition from_bucket (now : time) (ip : string) (b : bucket) (rl : t) : t * bool :=
  let '(b, ok) := take_token now b rl in (set_buckets (<[ip := b]> (buckets rl)) rl, ok).
(** A request that is let through without a bucket, and when this was last logged. *)
Definition pass_untracked (now : time) (rl : t) : t :=
  mk (buckets rl) (ratePerSec rl) (sweepInterval rl) (maxBuckets rl) (wrap_u64 (untracked rl + 1))
    (if IsZero (lastUntrackedLog rl) || (Sub now (lastUntrackedLog rl) >? 30 * second) then now else lastUntrackedLog rl).

Definition Allow (now : time) (ip : string) (rl : t) : t * bool :=
  match buckets rl !! ip with
  | Some b => from_bucket now ip b rl
  | None =>
      let rl := if full rl then evictIdleLocked now rl else rl in
      if full rl then (pass_untracked now rl, true)
      else from_bucket now ip {| tokens := f_of_int (ratePerSec rl); lastRefill := now |} rl
  end.

(** The requests and the rounds of the sweeper, in any order. *)
Inductive event := Request (now : time) (ip : string) | Sweep (now : time).
Definition step (rl : t) (e : event) : t := match e with Request now ip => (Allow now ip rl).1 | Sweep now => sweep now rl end.

Definition bounded (rl : t) : Prop := Z.of_nat (size (buckets rl)) <= limit rl.

Lemma evict_size now rl : (size (buckets (evictIdleLocked now rl)) <= size (buckets rl))%nat.
Proof. unfold evictIdleLocked. cbn [buckets set_buckets]. rewrite <- !(size_dom (D := gset string)). apply subseteq_size, dom_filter_subseteq. Qed.

Lemma from_bucket_size now ip b rl :
  (size (buckets (from_bucket now ip b rl).1) <= match buckets rl !! ip with Some _ => size (buckets rl) | None => S (size (buckets rl)) end)%nat /\
  limit (from_bucket now ip b rl).1 = limit rl.
Proof. unfold from_bucket. destruct (take_token now b rl) as [b' ok]. cbn [fst buckets set_buckets]. split; [| done]. rewrite map_size_insert. by destruct (buckets rl !! ip). Qed.

Lemma step_bounded e rl : bounded rl -> bounded (step rl e).
Proof.
  unfold bounded. intros Hb. destruct e as [now ip | now]; cbn [step]; [| pose proof (evict_size now rl); unfold sweep; change (limit (evictIdleLocked now rl)) with (limit rl); lia].
  unfold Allow. destruct (buckets rl !! ip) as [b |] eqn:E; [destruct (from_bucket_size now ip b rl) as [H1 ->]; rewrite E in H1; lia |].
  set (rl' := if full rl then _ else rl). assert (H : (size (buckets rl') <= size (buckets rl))%nat /\ limit rl' = limit rl /\ buckets rl' !! ip = None).
  { unfold rl'. destruct (full rl); [| done]. split; [apply evict_size |]. split; [done |]. unfold evictIdleLocked. cbn [buckets set_buckets]. by apply map_lookup_filter_None_2; left. }
  destruct H as (H1 & H2 & H3). destruct (full rl') eqn:Ef; [cbn [fst]; change (limit (pass_untracked now rl')) with (limit rl'); change (buckets (pass_untracked now rl')) with (buckets rl'); lia |].
  match goal with |- context [from_bucket now ip ?b rl'] => destruct (from_bucket_size now ip b rl') as [H4 ->] end. rewrite H3 in H4. unfold full in Ef. destruct (Z.geb_spec (Z.of_nat (size (buckets rl'))) (limit rl')); [done | lia].
Qed.

(** However many addresses send requests, and whenever the sweeper runs, the limiter
    never keeps more buckets than its limit. *)
Theorem buckets_bounded rate sweepInterval es : Z.of_nat (size (buckets (foldl step (New rate sweepInterval) es))) <= maxRateLimitBuckets.
Proof.
  assert (H : forall rl, bounded rl -> limit rl = maxRateLimitBuckets -> bounded (foldl step rl es) /\ limit (foldl step rl es) = maxRateLimitBuckets).
  { induction es as [| e es IH]; intros rl Hb Hl; [done |]. cbn [foldl]. apply IH; [by apply step_bounded |]. rewrite <- Hl. destruct e as [now ip | now]; [| done]. cbn [step]. unfold Allow.
    destruct (buckets rl !! ip); [apply from_bucket_size |]. destruct (full rl) eqn:E1.
    - destruct (full (evictIdleLocked now rl)); [reflexivity |]. apply (proj2 (from_bucket_size now ip _ (evictIdleLocked now rl))).
    - rewrite ?E1. apply from_bucket_size. }
  destruct (H (New rate sweepInterval)) as [Hb Hl]; [unfold bounded; change (buckets (New rate sweepInterval)) with (∅ : gmap string bucket); by rewrite map_size_empty | done |]. unfold bounded in Hb. by rewrite Hl in Hb.
Qed.

(** While the table is full of buckets that are not idle, a request of an address without
    a bucket passes, however many it sends: it is counted, and gets no bucket. *)
Theorem full_table_limits_nobody now ip n rl :
  buckets rl !! ip = None -> full rl = true -> map_Forall (fun _ b => idle now rl b = false) (buckets rl) ->
  forall k, (k < n)%nat -> (Allow now ip (Nat.iter k (fun rl => (Allow now ip rl).1) rl)).2 = true.
Proof.
  intros Hn Hf Hi. assert (H : forall k, let rl' := Nat.iter k (fun rl => (Allow now ip rl).1) rl in buckets rl' = buckets rl /\ sweepInterval rl' = sweepInterval rl /\ limit rl' = limit rl /\ (Allow now ip rl').2 = true).
  { assert (Hone : forall rl', buckets rl' = buckets rl -> sweepInterval rl' = sweepInterval rl -> limit rl' = limit rl ->
      buckets (Allow now ip rl').1 = buckets rl /\ sweepInterval (Allow now ip rl').1 = sweepInterval rl /\ limit (Allow now ip rl').1 = limit rl /\ (Allow now ip rl').2 = true).
    { intros rl' E1 E2 E3. unfold Allow. rewrite E1, Hn. assert (Ef : full rl' = true) by (unfold full; by rewrite E1, E3). rewrite Ef.
      assert (Ee : buckets (evictIdleLocked now rl') = buckets rl).
      { unfold evictIdleLocked. cbn [buckets set_buckets]. rewrite E1. apply map_filter_id. intros i b Hb. cbn. unfold idle. rewrite E2. exact (Hi i b Hb). }
      assert (Ef' : full (evictIdleLocked now rl') = true) by (unfold full; rewrite Ee; change (limit (evictIdleLocked now rl')) with (limit rl'); by rewrite E3).
      rewrite Ef'. cbn [fst snd]. split_and!; try done. }
    induction k as [| k (IH1 & IH2 & IH3 & _)]; cbn [Nat.iter nat_rect]; [split_and!; try done; by apply Hone |]. destruct (Hone _ IH1 IH2 IH3) as (G1 & G2 & G3 & _). split_and!; try done. by apply Hone. }
  intros k _. apply H.
Qed.

Definition ex_full : t := mk {["10.0.0.1" := {| tokens := f_zero; lastRefill := 5 |}]} 1 second 1 0 0.
Lemma full_table_limits_nobody_witness :
  (Allow 7 "10.0.0.1" ex_full).2 = false /\ (Allow 7 "10.0.0.2" (Nat.iter 3 (fun rl => (Allow 7 "10.0.0.2" rl).1) ex_full)).2 = true.
Proof.
  split; [vm_compute; reflexivity |]. apply (full_table_limits_nobody 7 "10.0.0.2" 4 ex_full); [vm_compute; reflexivity | vm_compute; reflexivity | | lia].
  apply map_Forall_singleton. vm_compute. reflexivity.
Defined.
End Limiter.

(** ** Windows that slide ([security.go]) *)

Module SlidingWindow.
(** [requests] is the heap, as the ascending list of what it holds. *)
Record t := mk { limit : Z; window : duration; requests : list time }.
Definition newSlidingWindow (limit : Z) (window : duration) : t := mk limit window [].

(** [heap.Push]. *)
Fixpoint push (x : time) (h : list time) : list time :=
  match h with [] => [x] | y :: h => if x <? y then x :: y :: h else y :: push x h end.
(** [heap.Pop] while the least is before the cut-off. *)
Fixpoint expire (cutoff : time) (h : list time) : list time :=
  match h with [] => [] | x :: h' => if Before x cutoff then expire cutoff h' else h end.

Definition allow (now : time) (sw : t) : t * bool :=
  let requests := expire (now - window sw) (requests sw) in
  if Z.of_nat (length requests) >=? limit sw then (mk (limit sw) (window sw) requests, false)
  else (mk (limit sw) (window sw) (push now requests), true).

(** [IPRateLimit] and [UserRateLimit]: a window for each address or user, which is kept for
    good; whether the request of [key] goes on. *)
Definition key_of_user (header : string) : string := if header == "" then "anonymous" else header.
Definition IPRateLimit (limit : Z) (window : duration) (now : time) (key : string) (limiters : gmap string t) : gmap string t * bool :=
  let sw := default (newSlidingWindow limit window) (limiters !! key) in
  let '(sw, ok) := allow now sw in (<[key := sw]> limiters, ok).
Definition UserRateLimit (limit : Z) (window : duration) (now : time) (header : string) : gmap string t -> gmap string t * bool :=
  IPRateLimit limit window now (key_of_user header).

(** The requests that were admitted, and the answer to each. *)
Fixpoint serve (sw : t) (ts : list time) : list time :=
  match ts with [] => [] | now :: ts => let '(sw, ok) := allow now sw in (if ok then [now] else []) ++ serve sw ts end.

(** What a window is to do: admit a request if less than the limit were admitted in the time
    of the window up to it. *)
Definition recent (window : duration) (now : time) (admitted : list time) : list time := List.filter (fun a => now - window <=? a) admitted.
Fixpoint reference (limit : Z) (window : duration) (admitted : list time) (ts : list time) : list time :=
  match ts with
  | [] => []
  | now :: ts => if Z.of_nat (length (recent window now admitted)) <? limit then now :: reference limit window (admitted ++ [now]) ts else reference limit window admitted ts
  end.

Lemma push_last x h : Forall (fun y => y <= x) h -> push x h = h ++ [x].
Proof. induction 1 as [| y h Hy _ IH]; [done |]. cbn [push app]. rewrite IH. by rewrite (proj2 (Z.ltb_ge x y)). Qed.

Lemma expire_filter cutoff h : StronglySorted Z.le h -> expire cutoff h = List.filter (fun a => cutoff <=? a) h.
Proof.
  induction 1 as [| x h Hs IH Hx]; [done |]. cbn [expire List.filter]. unfold Before. destruct (Z.ltb_spec x cutoff); [by rewrite (proj2 (Z.leb_gt cutoff x)) |].
  rewrite (proj2 (Z.leb_le cutoff x)) by lia. f_equal. clear IH Hs. induction Hx as [| y h Hy _ IH]; [done |]. cbn [List.filter]. rewrite (proj2 (Z.leb_le cutoff y)) by lia. by f_equal.
Qed.

Lemma recent_recent window now now' l : now <= now' -> recent window now' (recent window now l) = recent window now' l.
Proof.
  intros Hn. unfold recent. induction l as [| a l IH]; [done |]. cbn [List.filter]. destruct (Z.leb_spec (now - window) a); cbn [List.filter]; [by rewrite IH |].
  rewrite IH. by rewrite (proj2 (Z.leb_gt (now' - window) a)) by lia.
Qed.

Lemma sorted_snoc l x : StronglySorted Z.le l -> Forall (fun y => y <= x) l -> StronglySorted Z.le (l ++ [x]).
Proof.
  intros Hl Hx. apply StronglySorted_app. split_and!; [| done | by repeat constructor]. rewrite Forall_forall in Hx.
  intros y z Hy [-> | []%not_elem_of_nil]%elem_of_cons. by apply Hx.
Qed.

Lemma recent_forall P w now l : Forall P l -> Forall P (recent w now l).
Proof. intros Hl. apply Forall_forall. intros y Hy. apply list_elem_of_In, filter_In in Hy as [Hy _]. rewrite Forall_forall in Hl. by apply Hl, list_elem_of_In. Qed.

Lemma recent_sorted w now l : StronglySorted Z.le l -> StronglySorted Z.le (recent w now l).
Proof. induction 1 as [| x l Hl IH Hx]; cbn [recent List.filter]; [constructor |]. unfold recent in *. cbn [List.filter]. destruct (_ <=? x); [| done]. constructor; [done | by apply recent_forall]. Qed.

(** The window holds the recent part of what was admitted. *)
Lemma serve_reference lim w admitted now0 ts :
  0 <= w -> StronglySorted Z.le admitted -> Forall (fun y => y <= now0) admitted -> StronglySorted Z.le (now0 :: ts) ->
  serve (mk lim w (recent w now0 admitted)) ts = reference lim w admitted ts.
Proof.
  intros Hw. revert admitted now0. induction ts as [| now ts IH]; intros admitted now0 Ha Hle Hs; [done |]. apply StronglySorted_inv in Hs as [Hts Hl]. apply Forall_cons in Hl as [Hl _].
  cbn [serve reference]. unfold allow. cbn [requests window limit]. rewrite (expire_filter _ _ (recent_sorted w now0 admitted Ha)).
  fold (recent w now (recent w now0 admitted)). rewrite (recent_recent w now0 now admitted Hl).
  assert (Hle' : Forall (fun y => y <= now) admitted) by (eapply Forall_impl; [exact Hle |]; cbn beta; intros; lia).
  destruct (Z.geb_spec (Z.of_nat (length (recent w now admitted))) lim) as [Hg | Hg].
  - rewrite (proj2 (Z.ltb_ge _ _)) by lia. cbn [app]. by apply IH.
  - rewrite (proj2 (Z.ltb_lt _ _)) by lia. cbn [app]. f_equal. rewrite push_last by (by apply recent_forall).
    rewrite <- (IH (admitted ++ [now]) now); [| by apply sorted_snoc | apply Forall_app; split; [done | by constructor] | done].
    unfold recent. rewrite List.filter_app. cbn [List.filter]. by rewrite (proj2 (Z.leb_le (now - w) now)) by lia.
Qed.

(** C26: for requests in the order of time the window admits exactly what it is to admit: a
    request passes if and only if less than the limit have been admitted in the time of the
    window before it; so never more than the limit are admitted in any time as long as the
    window. *)
Theorem window_admits_to_limit lim w ts :
  0 <= w -> 0 <= lim -> StronglySorted Z.le ts ->
  serve (newSlidingWindow lim w) ts = reference lim w [] ts /\
  forall t, Z.of_nat (length (List.filter (fun a => (t - w <=? a) && (a <=? t)) (serve (newSlidingWindow lim w) ts))) <= lim.
Proof.
  intros Hw Hlim Hs. assert (E : serve (newSlidingWindow lim w) ts = reference lim w [] ts).
  { destruct ts as [| now ts]; [done |]. apply (serve_reference lim w [] now (now :: ts) Hw); [constructor | constructor |]. constructor; [done |].
    apply StronglySorted_inv in Hs as [_ Hs]. constructor; [done | exact Hs]. }
  split; [exact E |]. intros t. rewrite E.
  enough (H : forall admitted, Forall (fun a => Forall (Z.le a) ts) admitted ->
    Z.of_nat (length (List.filter (fun a => (t - w <=? a) && (a <=? t)) admitted)) <= lim ->
    Z.of_nat (length (List.filter (fun a => (t - w <=? a) && (a <=? t)) (admitted ++ reference lim w admitted ts))) <= lim).
  { apply (H []); [constructor | exact Hlim]. }
  clear E. induction ts as [| now ts IH]; intros admitted Ha Hb; [by rewrite app_nil_r |]. apply StronglySorted_inv in Hs as [Hs Hn]. cbn [reference].
  assert (Ha' : Forall (fun a => Forall (Z.le a) ts) admitted) by (eapply Forall_impl; [exact Ha |]; cbn beta; intros a [_ ?]%Forall_cons; done).
  destruct (Z.ltb_spec (Z.of_nat (length (recent w now admitted))) lim) as [Hr | Hr]; [| by apply (IH Hs)].
  replace (admitted ++ now :: reference lim w (admitted ++ [now]) ts) with ((admitted ++ [now]) ++ reference lim w (admitted ++ [now]) ts) by (by rewrite <- app_assoc).
  apply (IH Hs); [apply Forall_app; split; [done | by constructor] |]. rewrite List.filter_app, length_app. cbn [List.filter].
  destruct ((t - w <=? now) && (now <=? t)) eqn:Et; cbn [length]; [| lia].
  assert (Hsub : le (length (List.filter (fun a => (t - w <=? a) && (a <=? t)) admitted)) (length (recent w now admitted))); [| lia].
  apply andb_prop in Et as [_ Et]. unfold recent. clear -Et. induction admitted as [| a l IH]; [done |]. cbn [List.filter].
  destruct (Z.leb_spec (t - w) a); cbn [andb]; destruct (Z.leb_spec (now - w) a); try destruct (a <=? t); cbn [length]; lia.
Qed.

Lemma window_admits_to_limit_witness :
  serve (newSlidingWindow 2 10) [0; 1; 5; 11; 12; 13; 23] = [0; 1; 11; 12; 23] /\
  Z.of_nat (length (List.filter (fun a => (13 - 10 <=? a) && (a <=? 13)) (serve (newSlidingWindow 2 10) [0; 1; 5; 11; 12; 13; 23]))) <= 2.
Proof.
  assert (Hs : StronglySorted Z.le [0; 1; 5; 11; 12; 13; 23]) by (repeat constructor; discriminate).
  split; [vm_compute; reflexivity |]. exact (proj2 (window_admits_to_limit 2 10 [0; 1; 5; 11; 12; 13; 23] ltac:(lia) ltac:(lia) Hs) 13).
Defined.
End SlidingWindow.
