(* ===== verification/Session.v ===== *)
(** * Sessions and the guard of the control plane ([internal/store/session.go],
      [internal/controlplane/loginguard])

    The store of sessions as an interface with its store in memory: tokens that were taken
    back, counters of failures, tokens to change a password with; and the guard that locks
    accounts through the interface. *)

From S2P Require Import Prelude Float64 GoStrings.
#[local] Open Scope Z_scope.
Open Scope go_scope.

(** ** The interface

    What a key is banned until, and what its counter shows and since when, is what a client
    may know of a store. *)
Class SessionStore (S : Type) := {
  IsBlacklisted : time -> string -> S -> S * bool;
  Blacklist : time -> string -> duration -> S -> S;
  PurgeBlacklist : time -> S -> S;
  IncrRateLimit : time -> string -> duration -> S -> S * Z;
  ResetRateLimit : string -> S -> S;
  CreateChangePasswordToken : time -> string -> string -> duration -> S -> S * bool;
  ConsumeChangePasswordToken : time -> string -> S -> S * option string;
  PurgeChangePasswordTokens : time -> S -> S;

  banned : S -> string -> option time;
  counter : S -> string -> option (Z * time);
  cptoken : S -> string -> option (string * time);

  is_banned : forall now k s, k <> "" ->
    (IsBlacklisted now k s).2 = match banned s k with Some exp => negb (After now exp) | None => false end;
  is_banned_keeps : forall now k s,
    (forall j, banned (IsBlacklisted now k s).1 j = banned s j \/ (exists exp, banned s j = Some exp /\ After now exp = true)) /\
    counter (IsBlacklisted now k s).1 = counter s /\ cptoken (IsBlacklisted now k s).1 = cptoken s;
  ban : forall now k ttl s, k <> "" ->
    (forall j, banned (Blacklist now k ttl s) j = if bool_decide (j = k) then Some (now + ttl) else banned s j) /\
    counter (Blacklist now k ttl s) = counter s /\ cptoken (Blacklist now k ttl s) = cptoken s;
  purge : forall now s,
    (forall j, banned (PurgeBlacklist now s) j = banned s j \/ (exists exp, banned s j = Some exp /\ After now exp = true)) /\
    counter (PurgeBlacklist now s) = counter s /\ cptoken (PurgeBlacklist now s) = cptoken s;
  incr : forall now k w s, k <> "" ->
    let r := match counter s k with
             | Some (n, start) => if Sub now start >? w then (1, now) else (n + 1, start)
             | None => (1, now)
             end in
    (IncrRateLimit now k w s).2 = r.1 /\ (forall j, counter (IncrRateLimit now k w s).1 j = if bool_decide (j = k) then Some r else counter s j) /\
    banned (IncrRateLimit now k w s).1 = banned s /\ cptoken (IncrRateLimit now k w s).1 = cptoken s;
  reset : forall k s, k <> "" ->
    (forall j, counter (ResetRateLimit k s) j = if bool_decide (j = k) then None else counter s j) /\
    banned (ResetRateLimit k s) = banned s /\ cptoken (ResetRateLimit k s) = cptoken s;
  create : forall now tok user ttl s,
    (CreateChangePasswordToken now tok user ttl s).2 = (tok != "") /\
    (forall j, cptoken (CreateChangePasswordToken now tok user ttl s).1 j = if bool_decide (j = tok) && (tok != "") then Some (user, now + ttl) else cptoken s j) /\
    banned (CreateChangePasswordToken now tok user ttl s).1 = banned s /\ counter (CreateChangePasswordToken now tok user ttl s).1 = counter s;
  consume : forall now tok s,
    (ConsumeChangePasswordToken now tok s).2 =
      match cptoken s tok with Some (user, exp) => if (tok == "") || After now exp then None else Some user | None => None end /\
    (forall j, cptoken (ConsumeChangePasswordToken now tok s).1 j = if bool_decide (j = tok) && (tok != "") then None else cptoken s j) /\
    banned (ConsumeChangePasswordToken now tok s).1 = banned s /\ counter (ConsumeChangePasswordToken now tok s).1 = counter s;
  purge_tokens : forall now s,
    (forall j, cptoken (PurgeChangePasswordTokens now s) j = cptoken s j \/ (exists user exp, cptoken s j = Some (user, exp) /\ After now exp = true)) /\
    banned (PurgeChangePasswordTokens now s) = banned s /\ counter (PurgeChangePasswordTokens now s) = counter s;
}.

(** ** In memory *)

Module InProcess.
Record rateLimitRec := { count : Z; window : time }.
Record t := mk { blacklist : gmap string time; rateLimits : gmap string rateLimitRec; cptokens : gmap string (string * time) }.
Definition NewInProcessSessionStore : t := mk ∅ ∅ ∅.
Definition set_blacklist v (s : t) : t := mk v (rateLimits s) (cptokens s).
Definition set_rateLimits v (s : t) : t := mk (blacklist s) v (cptokens s).
Definition set_cptokens v (s : t) : t := mk (blacklist s) (rateLimits s) v.

Definition IsBlacklisted (now : time) (jti : string) (s : t) : t * bool :=
  if jti == "" then (s, false)
  else match blacklist s !! jti with
       | None => (s, false)
       | Some exp => if After now exp then (set_blacklist (delete jti (blacklist s)) s, false) else (s, true)
       end.
Definition Blacklist (now : time) (jti : string) (ttl : duration) (s : t) : t :=
  if jti == "" then s else set_blacklist (<[jti := now + ttl]> (blacklist s)) s.
Definition PurgeBlacklist (now : time) (s : t) : t := set_blacklist (filter (fun p => After now p.2 = false) (blacklist s)) s.

Definition IncrRateLimit (now : time) (key : string) (w : duration) (s : t) : t * Z :=
  if key == "" then (s, 0)
  else
    let opened := {| count := 1; window := now |} in
    let rec := match rateLimits s !! key with
               | None => opened
               | Some rec => if Sub now (window rec) >? w then opened else {| count := count rec + 1; window := window rec |}
               end in
    (set_rateLimits (<[key := rec]> (rateLimits s)) s, count rec).
Definition ResetRateLimit (key : string) (s : t) : t := if key == "" then s else set_rateLimits (delete key (rateLimits s)) s.

(** Whether there was no error. *)
Definition CreateChangePasswordToken (now : time) (token userID : string) (ttl : duration) (s : t) : t * bool :=
  if token == "" then (s, false) else (set_cptokens (<[token := (userID, now + ttl)]> (cptokens s)) s, true).
Definition ConsumeChangePasswordToken (now : time) (token : string) (s : t) : t * option string :=
  if token == "" then (s, None)
  else match cptokens s !! token with
       | None => (s, None)
       | Some (userID, exp) => (set_cptokens (delete token (cptokens s)) s, if After now exp then None else Some userID)
       end.
Definition PurgeChangePasswordTokens (now : time) (s : t) : t := set_cptokens (filter (fun p => After now p.2.2 = false) (cptokens s)) s.

Lemma filter_keeps {A} (P : string * A -> Prop) `{forall x, Decision (P x)} (m : gmap string A) j :
  filter P m !! j = m !! j \/ exists x, m !! j = Some x /\ ~ P (j, x).
Proof.
  destruct (m !! j) as [x |] eqn:E; [| left; by apply map_lookup_filter_None_2; left].
  destruct (decide (P (j, x))); [left; by apply map_lookup_filter_Some_2 | right; by exists x].
Qed.
End InProcess.

#[export, refine] Instance in_process : SessionStore InProcess.t := {
  IsBlacklisted := InProcess.IsBlacklisted; Blacklist := InProcess.Blacklist; PurgeBlacklist := InProcess.PurgeBlacklist;
  IncrRateLimit := InProcess.IncrRateLimit; ResetRateLimit := InProcess.ResetRateLimit;
  CreateChangePasswordToken := InProcess.CreateChangePasswordToken; ConsumeChangePasswordToken := InProcess.ConsumeChangePasswordToken;
  PurgeChangePasswordTokens := InProcess.PurgeChangePasswordTokens;
  banned s k := InProcess.blacklist s !! k;
  counter s k := (fun r => (InProcess.count r, InProcess.window r)) <$> InProcess.rateLimits s !! k;
  cptoken s k := if k == "" then None else InProcess.cptokens s !! k }.
Proof.
  - intros now k s Hk. unfold InProcess.IsBlacklisted. rewrite bool_decide_eq_false_2 by done. destruct (_ !! k); [by destruct (After _ _) | done].
  - intros now k s. unfold InProcess.IsBlacklisted. destruct (k == ""); [by split_and!; [intros j; left | |] |]. destruct (InProcess.blacklist s !! k) as [exp |] eqn:E; [| by split_and!; [intros j; left | |]].
    destruct (After now exp) eqn:Ea; [| by split_and!; [intros j; left | |]]. split_and!; [| done | done]. intros j. cbn.
    destruct (decide (j = k)) as [-> | Hn]; [right; by exists exp | left; by apply lookup_delete_ne].
  - intros now k ttl s Hk. unfold InProcess.Blacklist. rewrite (bool_decide_eq_false_2 _ Hk). split_and!; [| done | done]. intros j. cbn.
    case_bool_decide as Hj; [subst; apply lookup_insert_eq | by apply lookup_insert_ne].
  - intros now s. split_and!; [| done | done]. intros j. cbn. destruct (InProcess.filter_keeps (fun p => After now p.2 = false) (InProcess.blacklist s) j) as [-> | (exp & E & Hn)]; [by left | right].
    exists exp. split; [done |]. cbn in Hn. by destruct (After now exp).
  - intros now k w s Hk. unfold InProcess.IncrRateLimit. rewrite (bool_decide_eq_false_2 _ Hk). destruct (InProcess.rateLimits s !! k) as [rec |] eqn:E; cbn [fmap option_fmap option_map].
    + destruct (_ >? w); (split_and!; [done | | done | done]); intros j; cbn; case_bool_decide as Hj; try (subst; by rewrite lookup_insert_eq); by rewrite lookup_insert_ne.
    + split_and!; [done | | done | done]. intros j. cbn. case_bool_decide as Hj; [subst; by rewrite lookup_insert_eq | by rewrite lookup_insert_ne].
  - intros k s Hk. unfold InProcess.ResetRateLimit. rewrite (bool_decide_eq_false_2 _ Hk). split_and!; [| done | done]. intros j. cbn.
    case_bool_decide as Hj; [subst; by rewrite lookup_delete_eq | by rewrite lookup_delete_ne].
  - intros now tok user ttl s. unfold InProcess.CreateChangePasswordToken. destruct (bool_decide_reflect (tok = "")) as [-> | Hn]; cbn [negb].
    + split_and!; [done | | done | done]. intros j. by rewrite andb_false_r.
    + split_and!; [done | | done | done]. intros j. rewrite andb_true_r. cbn. destruct (bool_decide_reflect (j = tok)) as [-> | Hj]; [rewrite (bool_decide_eq_false_2 _ Hn); apply lookup_insert_eq |].
      destruct (j == ""); [done |]. by apply lookup_insert_ne.
  - intros now tok s. unfold InProcess.ConsumeChangePasswordToken. destruct (bool_decide_reflect (tok = "")) as [-> | Hn]; cbn [negb orb].
    + split_and!; [done | | done | done]. intros j. by rewrite andb_false_r.
    + destruct (InProcess.cptokens s !! tok) as [[user exp] |] eqn:E.
      * split_and!; [done | | done | done]. intros j. rewrite andb_true_r. cbn. destruct (bool_decide_reflect (j = tok)) as [-> | Hj]; [rewrite (bool_decide_eq_false_2 _ Hn); apply lookup_delete_eq |].
        destruct (j == ""); [done |]. by apply lookup_delete_ne.
      * split_and!; [done | | done | done]. intros j. rewrite andb_true_r. cbn. destruct (bool_decide_reflect (j = tok)) as [-> | Hj]; [| done]. rewrite (bool_decide_eq_false_2 _ Hn). exact E.
  - intros now s. split_and!; [| done | done]. intros j. cbn. destruct (j == ""); [by left |].
    destruct (InProcess.filter_keeps (fun p => After now p.2.2 = false) (InProcess.cptokens s) j) as [-> | ([user exp] & E & Hn)]; [by left | right].
    exists user, exp. split; [done |]. cbn in Hn. by destruct (After now exp).
Defined.

(** ** The guard *)

Module Guard.
Definition loginRateBurst : float64 := f_of_int 5.
Definition loginRateRefill : float64 := f_div f_one (f_of_int 6).
Definition loginMaxFails : Z := 5.
Definition loginFailWindow : duration := 15 * minute.
Definition loginLockDur : duration := 15 * minute.

Definition loginFailKey (username : string) : string := "fail:user:" +:+ username.
Definition loginLockKey (username : string) : string := "lock:user:" +:+ username.

(** [rateRec]. *)
Record bucket := { tokens : float64; last : time }.

Section guard.
Context {S : Type} `{!SessionStore S}.

Record t := mk { ips : gmap string bucket; store : S }.
Definition New (s : S) : t := mk ∅ s.

Definition Allow (now : time) (ip : string) (g : t) : t * bool :=
  let rec := default {| tokens := loginRateBurst; last := now |} (ips g !! ip) in
  let tokens := f_add (tokens rec) (f_mul (Seconds (Sub now (last rec))) loginRateRefill) in
  let tokens := if f_lt loginRateBurst tokens then loginRateBurst else tokens in
  if f_lt tokens f_one then (mk (<[ip := {| tokens := tokens; last := now |}]> (ips g)) (store g), false)
  else (mk (<[ip := {| tokens := f_sub tokens f_one; last := now |}]> (ips g)) (store g), true).
Definition RecordFail (now : time) (username : string) (g : t) : t * bool :=
  let '(s, count) := IncrRateLimit now (loginFailKey username) loginFailWindow (store g) in
  if count >=? loginMaxFails then (mk (ips g) (Blacklist now (loginLockKey username) loginLockDur s), true) else (mk (ips g) s, false).
Definition Locked (now : time) (username : string) (g : t) : t * bool :=
  let '(s, b) := IsBlacklisted now (loginLockKey username) (store g) in (mk (ips g) s, b).
Definition ResetFail (username : string) (g : t) : t := mk (ips g) (ResetRateLimit (loginFailKey username) (store g)).
Definition Sweep (now : time) (g : t) : t :=
  mk (filter (fun p => f_le loginRateBurst (tokens p.2) && (Sub now (last p.2) >? hour) = false) (ips g)) (store g).

(** What happens to a guard and to the store it shares with the rest of the server. *)
Inductive event :=
  | EAllow (ip : string) | EFail (username : string) | ELocked (username : string) | EReset (username : string) | ESweep
  | ERevoke (jti : string) (ttl : duration) | ERevoked (jti : string) | EPurge | EToken (tok user : string) (ttl : duration) | EUse (tok : string).
Definition step (g : t) (x : time * event) : t :=
  let '(now, e) := x in
  match e with
  | EAllow ip => (Allow now ip g).1
  | EFail u => (RecordFail now u g).1
  | ELocked u => (Locked now u g).1
  | EReset u => ResetFail u g
  | ESweep => Sweep now g
  | ERevoke jti ttl => mk (ips g) (Blacklist now jti ttl (store g))
  | ERevoked jti => mk (ips g) (IsBlacklisted now jti (store g)).1
  | EPurge => mk (ips g) (PurgeChangePasswordTokens now (PurgeBlacklist now (store g)))
  | EToken tok user ttl => mk (ips g) (CreateChangePasswordToken now tok user ttl (store g)).1
  | EUse tok => mk (ips g) (ConsumeChangePasswordToken now tok (store g)).1
  end.

(** Identifiers of tokens are no keys of accounts. *)
Definition foreign (u : string) (e : event) : Prop := match e with ERevoke jti _ => jti <> "" /\ jti <> loginLockKey u | ERevoked jti => jti <> loginLockKey u | _ => True end.

Lemma key_nonempty a b c : String a b +:+ c <> "".
Proof. done. Qed.
Lemma key_inj p a b : p +:+ a = p +:+ b -> a = b.
Proof. induction p as [| c p IH]; [done |]. intros E. apply IH. exact (f_equal (fun s => match s with String _ r => r | "" => "" end) E). Qed.

(** The bans of an account that last until [T] at least. *)
Definition locked_until (u : string) (T : time) (s : S) : Prop := exists exp, banned s (loginLockKey u) = Some exp /\ T <= exp.

Lemma locked_purged u T now s s' :
  now <= T -> (forall j, banned s' j = banned s j \/ (exists exp, banned s j = Some exp /\ After now exp = true)) -> locked_until u T s -> locked_until u T s'.
Proof using Type.
  intros Hn Hp (exp & E & Ht). destruct (Hp (loginLockKey u)) as [Eb | (exp' & Eb & Ha)]; [exists exp; by rewrite Eb |].
  rewrite E in Eb. injection Eb as <-. unfold After in Ha. apply Z.ltb_lt in Ha. lia.
Qed.

(** An event that is not a failure or the reset of the account leaves its counter, and its
    lock until the time is over. *)
Lemma other_event u T now e g :
  now <= T -> foreign u e -> e <> EFail u -> e <> EReset u ->
  counter (store (step g (now, e))) (loginFailKey u) = counter (store g) (loginFailKey u) /\
  (locked_until u T (store g) -> locked_until u T (store (step g (now, e)))).
Proof using Type.
  intros Hn Hf He Hr. assert (Hneq : forall p q v, p +:+ v = p +:+ q -> v = q) by (intros p q v; apply key_inj). destruct e; cbn [step].
  - unfold Allow. by destruct (f_lt _ f_one).
  - assert (Hu : username <> u) by congruence. unfold RecordFail. destruct (incr now (loginFailKey username) loginFailWindow (store g) (key_nonempty _ _ _)) as (_ & Hc & Hb & _).
    destruct (IncrRateLimit now (loginFailKey username) loginFailWindow (store g)) as [s' n]. cbn [fst] in *.
    assert (Ec : counter s' (loginFailKey u) = counter (store g) (loginFailKey u)) by (rewrite Hc; rewrite bool_decide_eq_false_2; [done | intros E; by apply Hneq in E]).
    destruct (n >=? loginMaxFails); cbn [fst store]; [| split; [done | unfold locked_until; by rewrite Hb]].
    destruct (ban now (loginLockKey username) loginLockDur s' (key_nonempty _ _ _)) as (Hb' & Hc' & _). rewrite Hc'. split; [done |].
    unfold locked_until. rewrite Hb', bool_decide_eq_false_2; [by rewrite Hb | intros E; by apply Hneq in E].
  - unfold Locked. destruct (is_banned_keeps now (loginLockKey username) (store g)) as (Hb & Hc & _). destruct (IsBlacklisted now (loginLockKey username) (store g)) as [s' b]. cbn [fst store] in *.
    rewrite Hc. split; [done | by apply locked_purged with now].
  - assert (Hu : username <> u) by congruence. unfold ResetFail. cbn [store]. destruct (reset (loginFailKey username) (store g) (key_nonempty _ _ _)) as (Hc & Hb & _).
    rewrite Hc, bool_decide_eq_false_2; [| intros E; by apply Hneq in E]. split; [done |]. unfold locked_until. by rewrite Hb.
  - done.
  - destruct Hf as [Hj Hk]. cbn [store]. destruct (ban now jti ttl (store g) Hj) as (Hb & Hc & _). rewrite Hc. split; [done |]. unfold locked_until. by rewrite Hb, bool_decide_eq_false_2.
  - cbn [store]. destruct (is_banned_keeps now jti (store g)) as (Hb & Hc & _). rewrite Hc. split; [done | by apply locked_purged with now].
  - cbn [store]. destruct (purge_tokens now (PurgeBlacklist now (store g))) as (_ & Hb & Hc). destruct (purge now (store g)) as (Hb' & Hc' & _). rewrite Hc, Hc'. split; [done |].
    apply locked_purged with now; [done |]. by rewrite Hb.
  - cbn [store]. destruct (create now tok user ttl (store g)) as (_ & _ & Hb & Hc). rewrite Hc. split; [done |]. unfold locked_until. by rewrite Hb.
  - cbn [store]. destruct (consume now tok (store g)) as (_ & _ & Hb & Hc). rewrite Hc. split; [done |]. unfold locked_until. by rewrite Hb.
Qed.

(** The failures of an account since [t0], while it is not locked. *)
Definition counting (u : string) (t0 : time) (k : Z) (s : S) : Prop :=
  match counter s (loginFailKey u) with
  | Some (n, start) => if start <? t0 then t0 - start > loginFailWindow /\ k = 0 else k <= n
  | None => k = 0
  end.

(** A failure locks the account or is counted. *)
Lemma fail_counts u t0 now k g :
  t0 <= now <= t0 + loginFailWindow -> (counting u t0 k (store g) /\ k < loginMaxFails) \/ locked_until u (t0 + loginLockDur) (store g) ->
  let g' := (RecordFail now u g).1 in (counting u t0 (k + 1) (store g') /\ k + 1 < loginMaxFails) \/ locked_until u (t0 + loginLockDur) (store g').
Proof using Type.
  intros Hn Hk. cbv zeta. unfold RecordFail. destruct (incr now (loginFailKey u) loginFailWindow (store g) (key_nonempty _ _ _)) as (Hr & Hc & Hb & _).
  destruct (IncrRateLimit now (loginFailKey u) loginFailWindow (store g)) as [s' n]. cbn [fst snd] in *.
  specialize (Hc (loginFailKey u)). rewrite bool_decide_eq_true_2 in Hc by done. set (r := match counter (store g) (loginFailKey u) with Some _ => _ | None => _ end) in *.
  destruct (Z.geb_spec n loginMaxFails) as [Hmax | Hmax]; cbn [fst store].
  - right. destruct (ban now (loginLockKey u) loginLockDur s' (key_nonempty _ _ _)) as (Hb' & _). exists (now + loginLockDur). rewrite Hb', bool_decide_eq_true_2 by done. split; [done | lia].
  - destruct Hk as [[Hk _] | (exp & E & Ht)]; [left | right; exists exp; by rewrite Hb]. unfold counting in *. rewrite Hc.
    assert (Hn' : k + 1 <= n /\ t0 <= r.2).
    { unfold r in *. destruct (counter (store g) (loginFailKey u)) as [[m start] |]; [| cbn [fst snd] in *; lia]. destruct (Z.ltb_spec start t0) as [Hs | Hs].
      - destruct Hk as [Hw ->]. assert (Hg : Sub now start > loginFailWindow) by (apply (Sub_gt now start loginFailWindow); [split; vm_compute; [discriminate | reflexivity] | lia]).
        rewrite (proj2 (Z.gtb_lt _ _)) in Hr |- * by lia. cbn [fst snd] in *. lia.
      - assert (Hg : ~ Sub now start > loginFailWindow) by (intros Hg; apply (Sub_gt now start loginFailWindow) in Hg; [lia | split; vm_compute; [discriminate | reflexivity]]).
        destruct (Z.gtb_spec (Sub now start) loginFailWindow); [lia |]. cbn [fst snd] in *. lia. }
    destruct r as [m start]. cbn [fst snd] in *. rewrite (proj2 (Z.ltb_ge start t0)) by lia. lia.
Qed.

Definition fails_of (u : string) (es : list (time * event)) : Z := Z.of_nat (length (List.filter (fun x => match x.2 with EFail v => v == u | _ => false end) es)).

Lemma run_counts u t0 k es g :
  Forall (fun x => t0 <= x.1 <= t0 + loginFailWindow /\ foreign u x.2 /\ x.2 <> EReset u) es ->
  (counting u t0 k (store g) /\ k < loginMaxFails) \/ locked_until u (t0 + loginLockDur) (store g) ->
  (counting u t0 (k + fails_of u es) (store (foldl step g es)) /\ k + fails_of u es < loginMaxFails) \/ locked_until u (t0 + loginLockDur) (store (foldl step g es)).
Proof using Type.
  intros Hes. revert k g. induction Hes as [| [now e] es (Hn & Hf & Hr) Hes IH]; intros k g Hk; [by rewrite Z.add_0_r |]. cbn [fst snd foldl] in *.
  assert (Hd : e = EFail u \/ e <> EFail u) by (destruct e as [| v | | | | | | | |]; try (right; discriminate); destruct (decide (v = u)) as [-> |]; [by left | right; congruence]).
  destruct Hd as [-> | Hne].
  - assert (E : fails_of u ((now, EFail u) :: es) = 1 + fails_of u es) by (unfold fails_of; cbn [List.filter snd]; rewrite bool_decide_eq_true_2 by done; cbn [length]; lia).
    rewrite E, Z.add_assoc. apply IH. exact (fail_counts u t0 now k g Hn Hk).
  - assert (E : fails_of u ((now, e) :: es) = fails_of u es).
    { unfold fails_of. cbn [List.filter snd]. destruct e; try done. rewrite bool_decide_eq_false_2; [done |]. intros ->. by apply Hne. }
    rewrite E. apply IH. destruct (other_event u (t0 + loginLockDur) now e g) as [Hc Hl]; [change loginLockDur with loginFailWindow; lia | done | done | done |].
    destruct Hk as [[Hk Hk'] | Hk]; [left | right; by apply Hl]. unfold counting in *. by rewrite Hc.
Qed.

(** Five failures within fifteen minutes lock the account, whatever else goes on in the
    meantime for other accounts, addresses and tokens, and in whatever store: if no window
    of its counter is open at [t0], and the account is not reset, it is locked after five
    failures, until fifteen minutes after [t0] at least. *)
Theorem five_failures_lock u t0 es g now :
  counting u t0 0 (store g) -> Forall (fun x => t0 <= x.1 <= t0 + loginFailWindow /\ foreign u x.2 /\ x.2 <> EReset u) es -> loginMaxFails <= fails_of u es ->
  now <= t0 + loginLockDur -> (Locked now u (foldl step g es)).2 = true.
Proof using Type.
  intros Hc Hes H5 Hn. destruct (run_counts u t0 0 es g Hes) as [[_ Hk] | (exp & E & Ht)]; [left; split; [done | reflexivity] | lia |].
  unfold Locked. pose proof (is_banned now (loginLockKey u) (store (foldl step g es)) (key_nonempty _ _ _)) as Hb. destruct (IsBlacklisted now _ _) as [s' b]. cbn [snd] in *.
  rewrite Hb, E. unfold After. by rewrite (proj2 (Z.ltb_ge exp now)) by lia.
Qed.

(** Resetting the failures of an account does not unlock it. *)
Theorem reset_keeps_lock u v now g : (Locked now u (ResetFail v g)).2 = (Locked now u g).2.
Proof using Type.
  unfold Locked, ResetFail. cbn [store]. destruct (reset (loginFailKey v) (store g) (key_nonempty _ _ _)) as (_ & Hb & _).
  pose proof (is_banned now (loginLockKey u) (store g) (key_nonempty _ _ _)) as H1. pose proof (is_banned now (loginLockKey u) (ResetRateLimit (loginFailKey v) (store g)) (key_nonempty _ _ _)) as H2.
  rewrite Hb, <- H1 in H2. destruct (IsBlacklisted now _ (store g)) as [s1 b1], (IsBlacklisted now _ (ResetRateLimit _ _)) as [s2 b2]. exact H2.
Qed.

(** Nothing but the reset of its account ever removes a counter: neither the sweeps of
    the guard nor the purges of the store do, however long ago its window was. *)
Theorem counters_are_kept u es g :
  is_Some (counter (store g) (loginFailKey u)) -> Forall (fun x => foreign u x.2 /\ x.2 <> EReset u) es -> is_Some (counter (store (foldl step g es)) (loginFailKey u)).
Proof using Type.
  intros Hs Hes. revert g Hs. induction Hes as [| [now e] es [Hf Hr] Hes IH]; intros g Hs; [done |]. cbn [foldl fst snd] in *. apply IH.
  assert (Hd : e = EFail u \/ e <> EFail u) by (destruct e as [| v | | | | | | | |]; try (right; discriminate); destruct (decide (v = u)) as [-> |]; [by left | right; congruence]).
  destruct Hd as [-> | Hne]; [| destruct (other_event u now now e g) as [Hc _]; [lia | done | done | done |]; by rewrite Hc].
  cbn [step]. unfold RecordFail. destruct (incr now (loginFailKey u) loginFailWindow (store g) (key_nonempty _ _ _)) as (_ & Hc & _).
  destruct (IncrRateLimit now (loginFailKey u) loginFailWindow (store g)) as [s' n]. cbn [fst snd] in *. specialize (Hc (loginFailKey u)). rewrite bool_decide_eq_true_2 in Hc by done.
  destruct (n >=? loginMaxFails); cbn [fst store]; [| by rewrite Hc]. destruct (ban now (loginLockKey u) loginLockDur s' (key_nonempty _ _ _)) as (_ & Hc' & _). by rewrite Hc', Hc.
Qed.
End guard.

Definition ex_start : time := 63800000000 * second.
Definition ex_fails (n : nat) : list (time * event) := map (fun i => (ex_start + Z.of_nat i * minute, EFail "ann")) (seq 0 n).
Definition ex_mixed : list (time * event) := ex_fails 3 ++ [(ex_start + 3 * minute, EReset "bob"); (ex_start + 3 * minute, EPurge)] ++ drop 3 (ex_fails 5).
Definition ex_guard : @t InProcess.t := New InProcess.NewInProcessSessionStore.

Lemma five_failures_lock_witness : (Locked (ex_start + 14 * minute) "ann" (foldl step ex_guard ex_mixed)).2 = true.
Proof.
  apply (five_failures_lock "ann" ex_start ex_mixed ex_guard); [vm_compute; reflexivity | | vm_compute; discriminate | vm_compute; discriminate].
  unfold ex_mixed. repeat (apply Forall_cons; split; [split; [split; vm_compute; discriminate | split; [exact I | discriminate]] |]). apply Forall_nil. exact I.
Defined.

(** The window of the counter does not slide: four failures, and four more when the window
    is over, are eight within fifteen minutes, and do not lock the account. *)
Definition ex_spread : list (time * event) :=
  (ex_start, EFail "ann") :: map (fun i => (ex_start + 13 * minute + Z.of_nat i * second, EFail "ann")) (seq 0 3)
    ++ map (fun i => (ex_start + 15 * minute + Z.of_nat i * second, EFail "ann")) (seq 1 4).
Example eight_failures_no_lock : (Locked (ex_start + 16 * minute) "ann" (foldl step ex_guard ex_spread)).2 = false.
Proof. vm_compute. reflexivity. Qed.

Lemma counters_are_kept_witness :
  is_Some (counter (store (foldl step (foldl step ex_guard (ex_fails 1)) [(ex_start + 48 * hour, ESweep); (ex_start + 48 * hour, EPurge)])) (loginFailKey "ann")).
Proof.
  apply (counters_are_kept "ann"); [exists (1, ex_start); vm_compute; reflexivity |]. repeat (apply Forall_cons; split; [split; [exact I | discriminate] |]). apply Forall_nil. exact I.
Defined.

Example ex_locked : (Locked (ex_start + 14 * minute) "ann" (ResetFail "ann" (foldl step ex_guard (ex_fails 5)))).2 = true.
Proof. vm_compute. reflexivity. Qed.
End Guard.
