(* ===== verification/AuditChain.v ===== *)
(** * The chain of audit records ([internal/store/sqlstore/sql_audit_chain.go], [sql_audits.go])

    The canonical text of a record, which its hash is taken of, and that the text
    determines the record: the fields come with their lengths, and the time in seconds.
    The tables [audit_log], [audit_chain_head], [audit_log_archive] and
    [audit_archive_meta] with the statements on them: appending to the chain, its
    verification for the platform and for a tenant, and the archive. *)

From Stdlib Require Import Ascii.
From S2P Require Import GoStrings Prelude Proto Cron.
#[local] Open Scope Z_scope.
Open Scope go_scope.

(** ** Time stamps ([time.Format] with [time.RFC3339], in UTC) *)

Definition Second (t : time) : Z := (t / second) `mod` 60.
Definition Year (t : time) : Z :=
  400 * ((days t + 306) / 146097) + year_of_era (day_of_era (days t)) + (if Month t <=? 2 then 1 else 0).

Definition digit_char (d : Z) : ascii := ascii_of_nat (48 + Z.to_nat d).
Definition pad2 (n : Z) : string := String (digit_char (n / 10)) (String (digit_char (n `mod` 10)) "").
(** Years have four digits at least. *)
Definition pad4 (n : Z) : string := if n <? 10000 then pad2 (n / 100) +:+ pad2 (n `mod` 100) else itoa n.
Definition RFC3339 (t : time) : string :=
  pad4 (Year t) +:+ String "-" (pad2 (Month t) +:+ String "-" (pad2 (Day t) +:+ String "T"
    (pad2 (Hour t) +:+ String ":" (pad2 (Minute t) +:+ String ":" (pad2 (Second t) +:+ "Z"))))).

Example RFC3339_unix : RFC3339 (62135596800 * second) = "1970-01-01T00:00:00Z".
Proof. vm_compute. reflexivity. Qed.
Example RFC3339_leap : RFC3339 (62135596800 * second + 951827696 * second) = "2000-02-29T12:34:56Z".
Proof. vm_compute. reflexivity. Qed.

(** Times with four digits of the year, as a column [DATETIME] has. *)
Definition dated (t : time) : Prop := 0 <= Year t < 10000.

(** ** Hexadecimal text ([hex.EncodeToString]) *)

Definition hex_char (d : nat) : ascii := ascii_of_nat (if (d <? 10)%nat then 48 + d else 87 + d).
Fixpoint EncodeToString (s : string) : string :=
  match s with
  | "" => ""
  | String c s => String (hex_char (nat_of_ascii c / 16)) (String (hex_char (nat_of_ascii c mod 16)) (EncodeToString s))
  end.

(** ** Records *)

Definition auditChainGenesis : string := "".
Definition auditChainFieldSep : ascii := "031".

Definition auditHashField (s rest : string) : string := itoa (Z.of_nat (String.length s)) +:+ String ":" (s +:+ String auditChainFieldSep rest).
Definition FormatBool (b : bool) : string := if b then "true" else "false".

(** The text of a record after the hash [prev]. *)
Definition canonical (prev : string) (e : AuditEvent.t) : string :=
  auditHashField prev (auditHashField (AuditEvent.TenantID e) (auditHashField (AuditEvent.UserID e) (auditHashField (AuditEvent.Action e)
    (auditHashField (AuditEvent.Target e) (auditHashField (AuditEvent.Detail e) (auditHashField (RFC3339 (AuditEvent.CreatedAt e))
      (auditHashField (AuditEvent.TraceID e) (auditHashField (FormatBool (AuditEvent.HighRisk e)) "")))))))).

(** [crypto/sha256]: 32 bytes. *)
Class SHA256 := { Sum256 : string -> string; Sum256_size : forall s, String.length (Sum256 s) = 32%nat }.

Definition auditEntryHash `{SHA256} (prev : string) (e : AuditEvent.t) : string := EncodeToString (Sum256 (canonical prev e)).

(** Two texts with one hash. *)
Definition collision `{SHA256} : Prop := exists x y, x <> y /\ Sum256 x = Sum256 y.

(** ** The text determines the record *)

Lemma digit_char_inj a b : 0 <= a < 10 -> 0 <= b < 10 -> digit_char a = digit_char b -> a = b.
Proof. intros Ha Hb E. apply (f_equal nat_of_ascii) in E. unfold digit_char in E. rewrite !nat_ascii_embedding in E by lia. lia. Qed.

Lemma pad2_inj a b x y : 0 <= a < 100 -> 0 <= b < 100 -> pad2 a +:+ x = pad2 b +:+ y -> a = b /\ x = y.
Proof.
  intros Ha Hb E. change (String (digit_char (a / 10)) (String (digit_char (a `mod` 10)) x) = String (digit_char (b / 10)) (String (digit_char (b `mod` 10)) y)) in E.
  injection E as E1 E2 ->. split; [| done].
  apply digit_char_inj in E1; [| Z.div_mod_to_equations; lia | Z.div_mod_to_equations; lia].
  apply digit_char_inj in E2; [| Z.div_mod_to_equations; lia | Z.div_mod_to_equations; lia].
  rewrite (Z.div_mod a 10), (Z.div_mod b 10) by lia. congruence.
Qed.

Lemma pad4_inj a b x y : 0 <= a < 10000 -> 0 <= b < 10000 -> pad4 a +:+ x = pad4 b +:+ y -> a = b /\ x = y.
Proof.
  intros Ha Hb. unfold pad4. rewrite !(proj2 (Z.ltb_lt _ _)) by lia. rewrite !app_assoc_string. intros [E1 E]%pad2_inj.
  - apply pad2_inj in E as [E2 ->]; [| Z.div_mod_to_equations; lia | Z.div_mod_to_equations; lia]. split; [| done].
    rewrite (Z.div_mod a 100), (Z.div_mod b 100) by lia. congruence.
  - Z.div_mod_to_equations; lia.
  - Z.div_mod_to_equations; lia.
Qed.

Lemma year_of_era_range doe : 0 <= doe < 146097 -> 0 <= year_of_era doe < 400.
Proof. intros H. unfold year_of_era. Z.div_mod_to_equations; lia. Qed.

(** Year, month and day of the month are those of one day. *)
Lemma date_inj d1 d2 :
  Year d1 = Year d2 -> Month d1 = Month d2 -> Day d1 = Day d2 -> days d1 = days d2.
Proof.
  intros HY HM HD. pose proof (Z.mod_pos_bound (days d1 + 306) 146097 ltac:(lia)) as R1. pose proof (Z.mod_pos_bound (days d2 + 306) 146097 ltac:(lia)) as R2.
  fold (day_of_era (days d1)) in R1. fold (day_of_era (days d2)) in R2.
  pose proof (day_month_ranges _ R1) as [M1 _]. pose proof (day_month_ranges _ R2) as [M2 _].
  pose proof (year_of_era_range _ R1) as Y1. pose proof (year_of_era_range _ R2) as Y2.
  assert (HMI : month_index (day_of_era (days d1)) = month_index (day_of_era (days d2))).
  { unfold Month in HM. destruct (Z.ltb_spec (month_index (day_of_era (days d1))) 10), (Z.ltb_spec (month_index (day_of_era (days d2))) 10); lia. }
  unfold Year in HY. rewrite HM in HY. unfold Day in HD. rewrite HMI in HD.
  assert (HYE : year_of_era (day_of_era (days d1)) = year_of_era (day_of_era (days d2)) /\ (days d1 + 306) / 146097 = (days d2 + 306) / 146097) by lia.
  destruct HYE as [HYE HE].
  assert (HDOE : day_of_era (days d1) = day_of_era (days d2)).
  { assert (E : day_of_year (day_of_era (days d1)) = day_of_year (day_of_era (days d2))) by lia. unfold day_of_year in E. rewrite HYE in E. lia. }
  unfold day_of_era in HDOE. pose proof (Z.div_mod (days d1 + 306) 146097 ltac:(lia)). pose proof (Z.div_mod (days d2 + 306) 146097 ltac:(lia)). lia.
Qed.

(** A second of a day. *)
Lemma clock_inj t1 t2 :
  days t1 = days t2 -> Hour t1 = Hour t2 -> Minute t1 = Minute t2 -> Second t1 = Second t2 -> Truncate t1 second = Truncate t2 second.
Proof.
  unfold days, Hour, Minute, Second, Truncate, hour, minute, second. intros H1 H2 H3 H4.
  assert (E : t1 / 1000000000 = t2 / 1000000000) by (Z.div_mod_to_equations; lia).
  pose proof (Z.div_mod t1 1000000000 ltac:(lia)). pose proof (Z.div_mod t2 1000000000 ltac:(lia)). lia.
Qed.

Lemma tail_inj c x y : String c x = String c y -> x = y.
Proof. by intros [=]. Qed.

Lemma RFC3339_inj t1 t2 : dated t1 -> dated t2 -> RFC3339 t1 = RFC3339 t2 -> Truncate t1 second = Truncate t2 second.
Proof.
  intros D1 D2 E. pose proof (calendar_ranges t1) as (? & ? & ? & ? & _). pose proof (calendar_ranges t2) as (? & ? & ? & ? & _).
  pose proof (Z.mod_pos_bound (t1 / second) 60 ltac:(lia)) as S1. pose proof (Z.mod_pos_bound (t2 / second) 60 ltac:(lia)) as S2.
  unfold RFC3339 in E. apply pad4_inj in E as [EY E%tail_inj]; [| done | done].
  apply pad2_inj in E as [EM E%tail_inj]; [| lia | lia]. apply pad2_inj in E as [ED E%tail_inj]; [| lia | lia].
  apply pad2_inj in E as [EH E%tail_inj]; [| lia | lia]. apply pad2_inj in E as [EN E%tail_inj]; [| lia | lia].
  apply pad2_inj in E as [ES _]; [| unfold Second; lia | unfold Second; lia]. apply clock_inj; try done. by apply date_inj.
Qed.

Lemma app_inj_length (a b x y : string) : String.length a = String.length b -> a +:+ x = b +:+ y -> a = b /\ x = y.
Proof. revert b. induction a as [| c a IH]; intros [| d b]; cbn; try done. intros [= Hl] [= -> E]. by destruct (IH b Hl E) as [-> ->]. Qed.

Lemma auditHashField_inj a b x y : auditHashField a x = auditHashField b y -> a = b /\ x = y.
Proof.
  unfold auditHashField. intros E.
  assert (Hd : forall n, all_chars (not_char ":") (itoa (Z.of_nat n)) = true).
  { intros n. apply (all_chars_weaken is_digit); [| apply itoa_digits; lia]. intros c Hc. unfold not_char.
    destruct (bool_decide_reflect (c = ":"%char)) as [-> |]; done. }
  pose proof (f_equal (cut ":") E) as Ec. rewrite !cut_app in Ec by apply Hd. injection Ec as El Es.
  assert (Hl : Z.of_nat (String.length a) = Z.of_nat (String.length b)) by (unfold itoa in El; by apply (inj pretty)).
  apply app_inj_length in Es as [-> Es]; [| lia]. by injection Es as ->.
Qed.

(** The record as far as its text has it: the time in seconds. *)
Definition seconds_of (e : AuditEvent.t) : AuditEvent.t := AuditEvent.set_CreatedAt (Truncate (AuditEvent.CreatedAt e) second) e.

(** The canonical text determines what it is the text of: records with one text have
    the same predecessor, the same fields and the same second, whatever bytes the fields
    hold, separators and digits included. *)
Theorem canonical_determines p1 p2 e1 e2 :
  dated (AuditEvent.CreatedAt e1) -> dated (AuditEvent.CreatedAt e2) -> canonical p1 e1 = canonical p2 e2 -> p1 = p2 /\ seconds_of e1 = seconds_of e2.
Proof.
  intros D1 D2 E. unfold canonical in E.
  repeat match goal with E : auditHashField _ _ = auditHashField _ _ |- _ => apply auditHashField_inj in E as [? E] end.
  split; [done |]. assert (Hh : AuditEvent.HighRisk e1 = AuditEvent.HighRisk e2) by (destruct (AuditEvent.HighRisk e1), (AuditEvent.HighRisk e2); done).
  pose proof (RFC3339_inj _ _ D1 D2 ltac:(eassumption)) as Ht. unfold seconds_of. rewrite Ht. clear Ht.
  generalize (Truncate (AuditEvent.CreatedAt e2) second). intros t. destruct e1, e2. cbn -[RFC3339 FormatBool] in *.
  unfold AuditEvent.set_CreatedAt. cbn. congruence.
Qed.

Lemma hex_char_inj a b : (a < 16)%nat -> (b < 16)%nat -> hex_char a = hex_char b -> a = b.
Proof.
  intros Ha Hb E. apply (f_equal nat_of_ascii) in E. unfold hex_char in E.
  destruct (Nat.ltb_spec a 10), (Nat.ltb_spec b 10); rewrite !nat_ascii_embedding in E by lia; lia.
Qed.

Lemma pair_inj a b c d x y : String a (String b x) = String c (String d y) -> a = c /\ b = d /\ x = y.
Proof. by intros [=]. Qed.

Lemma EncodeToString_inj a b : EncodeToString a = EncodeToString b -> a = b.
Proof.
  revert b. induction a as [| c a IH]; intros [| d b]; cbn [EncodeToString]; try done. intros (E1 & E2 & E)%pair_inj. apply IH in E as ->. f_equal.
  pose proof (nat_ascii_bounded c). pose proof (nat_ascii_bounded d).
  assert (nat_of_ascii c < 16 * 16)%nat by lia. assert (nat_of_ascii d < 16 * 16)%nat by lia.
  apply hex_char_inj in E1; [| apply Nat.Div0.div_lt_upper_bound; lia | apply Nat.Div0.div_lt_upper_bound; lia].
  apply hex_char_inj in E2; [| apply Nat.mod_upper_bound; lia | apply Nat.mod_upper_bound; lia].
  rewrite <- (ascii_nat_embedding c), <- (ascii_nat_embedding d). f_equal.
  rewrite (Nat.div_mod_eq (nat_of_ascii c) 16), (Nat.div_mod_eq (nat_of_ascii d) 16). congruence.
Qed.

Section hashes.
Context `{SHA256}.

Lemma auditEntryHash_nonempty prev e : auditEntryHash prev e <> "".
Proof. unfold auditEntryHash. pose proof (Sum256_size (canonical prev e)). by destruct (Sum256 (canonical prev e)). Qed.

(** One hash is of one record, or of a collision. *)
Lemma auditEntryHash_inj p1 p2 e1 e2 :
  dated (AuditEvent.CreatedAt e1) -> dated (AuditEvent.CreatedAt e2) -> auditEntryHash p1 e1 = auditEntryHash p2 e2 ->
  (p1 = p2 /\ seconds_of e1 = seconds_of e2) \/ collision.
Proof.
  intros D1 D2 E%EncodeToString_inj. destruct (decide (canonical p1 e1 = canonical p2 e2)) as [Ec | Hne]; [left; by apply canonical_determines |].
  right. by exists (canonical p1 e1), (canonical p2 e2).
Qed.
End hashes.

Definition ex_event (detail : string) : AuditEvent.t := AuditEvent.mk "acme" "ann" "login" "web" detail (62135596800 * second + 7) false "".

Lemma ex_dated detail : dated (AuditEvent.CreatedAt (ex_event detail)).
Proof. unfold dated. cbn [AuditEvent.CreatedAt ex_event]. vm_compute. split; [discriminate | reflexivity]. Defined.

Definition ex_later : AuditEvent.t := AuditEvent.set_CreatedAt (62135596800 * second + 9) (ex_event "x").

Lemma ex_later_dated : dated (AuditEvent.CreatedAt ex_later).
Proof. unfold dated. cbn [AuditEvent.CreatedAt AuditEvent.set_CreatedAt ex_later]. vm_compute. split; [discriminate | reflexivity]. Defined.

Lemma canonical_determines_witness :
  ex_event "x" <> ex_later /\ canonical "" (ex_event "x") = canonical "" ex_later /\ seconds_of (ex_event "x") = seconds_of ex_later.
Proof.
  assert (E : canonical "" (ex_event "x") = canonical "" ex_later) by (vm_compute; reflexivity).
  split; [vm_compute; discriminate |]. split; [exact E |].
  exact (proj2 (canonical_determines "" "" (ex_event "x") ex_later (ex_dated "x") ex_later_dated E)).
Defined.

(** [auditChainRow]; a hash that is [NULL] reads as the empty text. *)
Record row := Row { ID : Z; Event : AuditEvent.t; PrevHash : string; EntryHash : string }.
Definition in_chain (r : row) : bool := EntryHash r != "".

(** ** Verification of rows *)

Inductive chain_fault := MissingHash | PrevDiffers | ContentDiffers.

Section verify.
Context `{SHA256}.

(** The index of the first row at fault. *)
Fixpoint verify_rows (rows : list row) (prev : string) (i : nat) : option (nat * chain_fault) :=
  match rows with
  | [] => None
  | r :: rows =>
      if EntryHash r == "" then Some (i, MissingHash)
      else if PrevHash r != prev then Some (i, PrevDiffers)
      else if auditEntryHash prev (Event r) != EntryHash r then Some (i, ContentDiffers)
      else verify_rows rows (EntryHash r) (S i)
  end.
Definition verifyChainRows (rows : list row) (expectedPrev : string) : option (nat * chain_fault) := verify_rows rows expectedPrev 0.

(** The view of one tenant: [before] is the row before, if there is one. *)
Fixpoint verify_scoped (rows : list row) (before : option row) (expectedPrev : string) (i : nat) : option (nat * chain_fault) :=
  match rows with
  | [] => None
  | r :: rows =>
      if EntryHash r == "" then Some (i, MissingHash)
      else if auditEntryHash (PrevHash r) (Event r) != EntryHash r then Some (i, ContentDiffers)
      else if match before with
              | None => PrevHash r != expectedPrev
              | Some p => (ID r =? ID p + 1) && (PrevHash r != EntryHash p)
              end then Some (i, PrevDiffers)
      else verify_scoped rows (Some r) expectedPrev (S i)
  end.
Definition verifyChainRowsScoped (rows : list row) (expectedPrev : string) : option (nat * chain_fault) := verify_scoped rows None expectedPrev 0.
End verify.

(** ** The tables *)

Module AuditDB.
(** The rows of the log by [id], the row of the head, the archive, and the row of the
    boundary (last id, hash, number); which columns and tables the migrations have
    added. *)
Record t := mk {
  audit_log : list row; head : option (Z * string); archive : list row; meta : option (Z * string * Z);
  hasTrace : bool; hasHighRisk : bool; hasChain : bool }.
Definition set_log (v : list row) (s : t) : t := mk v (head s) (archive s) (meta s) (hasTrace s) (hasHighRisk s) (hasChain s).
Definition set_head (v : option (Z * string)) (s : t) : t := mk (audit_log s) v (archive s) (meta s) (hasTrace s) (hasHighRisk s) (hasChain s).
Definition set_archive (v : list row) (s : t) : t := mk (audit_log s) (head s) v (meta s) (hasTrace s) (hasHighRisk s) (hasChain s).
Definition set_meta (v : option (Z * string * Z)) (s : t) : t := mk (audit_log s) (head s) (archive s) v (hasTrace s) (hasHighRisk s) (hasChain s).

(** After the migrations. *)
Definition migrated : t := mk [] (Some (0, "")) [] (Some (0, "", 0)) true true true.

Definition head_hash (s : t) : string := match head s with Some (_, h) => h | None => "" end.

(** What the columns keep of an event. *)
Definition stored (e : AuditEvent.t) (s : t) : AuditEvent.t :=
  let e := if hasTrace s then e else AuditEvent.set_TraceID "" e in
  if hasHighRisk s then e else AuditEvent.set_HighRisk false e.

(** [ORDER BY id DESC LIMIT 1]. *)
Definition later (a : option row) (r : row) : option row :=
  match a with None => Some r | Some x => if ID r >? ID x then Some r else Some x end.
Definition newest (rows : list row) : option row := foldl later None rows.

(** ** Appending *)

Section chain.
Context `{SHA256}.

(** [insertChainedAudit], when its transaction commits; [id] is what the column
    [AUTO_INCREMENT] gives.  A transaction that fails leaves nothing. *)
Definition insertChainedAudit (id : Z) (e : AuditEvent.t) (s : t) : t :=
  let e := AuditEvent.set_CreatedAt (Truncate (AuditEvent.CreatedAt e) second) e in
  let lastHash := head_hash s in
  let entryHash := auditEntryHash lastHash e in
  set_head (Some (id, entryHash)) (set_log (audit_log s ++ [Row id (stored e s) lastHash entryHash]) s).

(** The columns of type [DATETIME] round to seconds. *)
Definition DATETIME (t : time) : time := Truncate (t + 500000000) second.
Definition insertPlain (id : Z) (e : AuditEvent.t) (s : t) : t :=
  set_log (audit_log s ++ [Row id (stored (AuditEvent.set_CreatedAt (DATETIME (AuditEvent.CreatedAt e)) e) s) "" ""]) s.

(** How a transaction ends. *)
Inductive outcome := Commit (id : Z) | Deadlock | Failed.
(** Three attempts at most; deadlocks are tried again. *)
Fixpoint attempts (n : nat) (outs : list outcome) : option Z :=
  match n, outs with
  | S n, Commit id :: _ => Some id
  | S n, Deadlock :: outs => attempts n outs
  | _, _ => None
  end.

(** [plain] is the id of a row that is not in the chain, if its insertion succeeds. *)
Definition Audit (now : time) (outs : list outcome) (plain : option Z) (e : AuditEvent.t) (s : t) : t :=
  let e := if IsZero (AuditEvent.CreatedAt e) then AuditEvent.set_CreatedAt now e else e in
  let fall_back e := match plain with Some id => insertPlain id e s | None => s end in
  if hasChain s then
    match attempts 3 outs with
    | Some id => insertChainedAudit id e s
    | None => fall_back (AuditEvent.set_CreatedAt (Truncate (AuditEvent.CreatedAt e) second) e)
    end
  else fall_back e.

(** ** Verification *)

Inductive reason := RowFault (f : chain_fault) | TailRemoved.
(** [AuditChainVerifyResult] without the notes. *)
Record result := Result {
  Supported : bool; OK : bool; Checked : Z; FromID : Z; ToID : Z; FirstBadID : Z; Reason : option reason;
  ChainHeadID : Z; ChainHeadHash : string; HeadConsistent : bool; TailCovered : bool;
  ArchivedThroughID : Z; ArchivedBoundaryHash : string; LegacyRows : Z }.

Definition maxAuditVerifyLimit : Z := 10000.
Definition clamp (limit : Z) : Z := let limit := if limit <=? 0 then 1000 else limit in if limit >? maxAuditVerifyLimit then maxAuditVerifyLimit else limit.

Definition of_tenant (tenant : string) (r : row) : bool := (tenant == "") || (AuditEvent.TenantID (Event r) == tenant).

(** The newest [limit] rows of the chain that the tenant may see, oldest first. *)
Definition window (tenant : string) (limit : Z) (s : t) : list row :=
  let rows := List.filter (fun r => in_chain r && of_tenant tenant r) (audit_log s) in
  drop (length rows - Z.to_nat limit) rows.

(** The hash before row [id]: of the row before it in the log, else in the archive. *)
Definition expected_prev (id : Z) (s : t) : string :=
  let below r := (ID r <? id) && in_chain r in
  match newest (List.filter below (audit_log s)) with
  | Some r => EntryHash r
  | None => match newest (List.filter below (archive s)) with Some r => EntryHash r | None => auditChainGenesis end
  end.

Definition unsupported : result := Result false false 0 0 0 0 None 0 "" false false 0 "" 0.
Definition VerifyAuditChain (tenant : string) (limit : Z) (s : t) : result :=
  if negb (hasChain s) then unsupported else
  let rows := window tenant (clamp limit) s in
  let legacy := Z.of_nat (length (List.filter (fun r => negb (in_chain r) && of_tenant tenant r) (audit_log s))) in
  let '(through, boundary) := match meta s with Some (i, h, _) => (i, h) | None => (0, "") end in
  let '(headID, headHash) := match head s with Some p => p | None => (0, "") end in
  match rows with
  | [] => Result true true 0 0 0 0 None headID headHash false false through boundary legacy
  | first :: _ =>
      let last := List.last rows first in
      let prev := expected_prev (ID first) s in
      let fault := if tenant == "" then verifyChainRows rows prev else verifyChainRowsScoped rows prev in
      let covered := headID =? ID last in
      let consistent := if covered then headHash == EntryHash last else tenant != "" in
      let '(ok, bad, why) :=
        match fault with
        | Some (i, f) => (false, ID (nth i rows first), Some (RowFault f))
        | None => if consistent then (true, 0, None) else (false, if covered then ID last else headID, Some TailRemoved)
        end in
      Result true ok (Z.of_nat (length rows)) (ID first) (ID last) bad why headID headHash consistent covered through boundary legacy
  end.

(** ** The archive *)

Definition boundary_hash (s : t) : string := match meta s with Some (_, h, _) => h | None => "" end.

(** The rows to move, and the hash of the last of them that is in the chain. *)
Definition auditArchiveBatch (cutoff : time) (batch : nat) (s : t) : list Z * string :=
  let rows := take batch (List.filter (fun r => Before (AuditEvent.CreatedAt (Event r)) cutoff) (audit_log s)) in
  (map ID rows, foldl (fun h r => if EntryHash r != "" then EntryHash r else h) "" rows).

(** The copy in the archive: the statement does not name [high_risk]. *)
Definition archived (r : row) : row := Row (ID r) (AuditEvent.set_HighRisk false (Event r)) (PrevHash r) (EntryHash r).
Definition moved (ids : list Z) (r : row) : bool := bool_decide (ID r ∈ ids).

Definition copy_rows (ids : list Z) (s : t) : t :=
  set_archive (archive s ++ map archived (List.filter (fun r => moved ids r && negb (bool_decide (ID r ∈ map ID (archive s)))) (audit_log s))) s.
Definition delete_rows (ids : list Z) (s : t) : t := set_log (List.filter (fun r => negb (moved ids r)) (audit_log s)) s.
Definition init_meta (s : t) : t := set_meta (Some (default (0, "", 0) (meta s))) s.
Definition push_boundary (ids : list Z) (boundary : string) (s : t) : t :=
  match meta s with
  | None => s
  | Some (_, h, n) => set_meta (Some (List.last ids 0, boundary, n + Z.of_nat (length ids))) s
  end.
Definition pull_head (ids : list Z) (boundary : string) (s : t) : t :=
  match head s with
  | Some (last, h) =>
      if bool_decide (last ∈ ids) then
        set_head (Some match newest (List.filter in_chain (audit_log s)) with
                       | Some r => (ID r, EntryHash r)
                       | None => (List.last ids 0, boundary)
                       end) s
      else s
  | None => s
  end.
(** The boundary of a batch without a row of the chain is the one there was. *)
Definition batch_boundary (boundary : string) (s : t) : string := if boundary == "" then boundary_hash s else boundary.

(** The statements one by one; each may be the last that is executed. *)
Definition archive_steps (ids : list Z) (boundary : string) : list (t -> t) :=
  [copy_rows ids; delete_rows ids; init_meta; fun s => push_boundary ids (batch_boundary boundary s) s; fun s => pull_head ids (boundary_hash s) s].
Definition auditArchiveCommit (ids : list Z) (boundary : string) (s : t) : t := foldl (fun s f => f s) s (archive_steps ids boundary).

(** One round takes a row at least, so that as many rounds as there are rows suffice. *)
Fixpoint archive_rounds (fuel : nat) (cutoff : time) (batch : nat) (s : t) : t * Z :=
  match fuel with
  | O => (s, 0)
  | S fuel =>
      let '(ids, h) := auditArchiveBatch cutoff batch s in
      if ids == [] then (s, 0) else
      let s := auditArchiveCommit ids h s in
      let n := Z.of_nat (length ids) in
      if (length ids <? batch)%nat then (s, n) else let '(s, m) := archive_rounds fuel cutoff batch s in (s, n + m)
  end.
Definition ArchiveAuditLog (now : time) (retainDays : Z) (batch : Z) (s : t) : t * Z :=
  if (retainDays <=? 0) || negb (hasChain s) then (s, 0) else
  let batch := if batch <=? 0 then 500 else batch in
  archive_rounds (S (length (audit_log s))) (now - retainDays * (24 * hour)) (Z.to_nat batch) s.

Definition AuditArchiveMeta (s : t) : Z * Z * string := match meta s with Some (i, h, n) => (i, n, h) | None => (0, 0, "") end.
End chain.
End AuditDB.
