(* ===== verification/AuditProps.v ===== *)
(** * The chain of audit records: what it keeps and what it shows

    Whatever is appended and archived in the order of time, the chain verifies; a log
    that verifies against the head is the one that was written, or two texts with one
    hash are known; no crash of the archive loses a row. *)

From Stdlib Require Import Ascii.
From S2P Require Import GoStrings Prelude Proto Cron AuditChain.
Import AuditDB.
#[local] Open Scope Z_scope.
Open Scope go_scope.

Section props.
Context `{SHA256}.

(** ** Links *)

(** Rows that follow the hash [prev], each bound to the one before. *)
Fixpoint links (prev : string) (rows : list row) : Prop :=
  match rows with
  | [] => True
  | r :: rows => EntryHash r <> "" /\ PrevHash r = prev /\ auditEntryHash prev (Event r) = EntryHash r /\ links (EntryHash r) rows
  end.
Definition end_hash (prev : string) (rows : list row) : string := match last rows with Some r => EntryHash r | None => prev end.

Lemma verify_links rows prev i : verify_rows rows prev i = None <-> links prev rows.
Proof.
  revert prev i. induction rows as [| r rows IH]; intros prev i; [done |]. cbn [verify_rows links].
  destruct (bool_decide_reflect (EntryHash r = "")); [split; [done | by intros []] |].
  destruct (bool_decide_reflect (PrevHash r = prev)); cbn [negb]; [| split; [done | by intros (_ & ? & _)]].
  destruct (bool_decide_reflect (auditEntryHash prev (Event r) = EntryHash r)); cbn [negb]; [| split; [done | by intros (_ & _ & ? & _)]].
  rewrite IH. split; [by intros ? | by intros (_ & _ & _ & ?)].
Qed.

Lemma end_hash_cons p r rows : end_hash p (r :: rows) = end_hash (EntryHash r) rows.
Proof. unfold end_hash. rewrite last_cons. by destruct (last rows). Qed.

Lemma end_hash_app p a b : end_hash p (a ++ b) = end_hash (end_hash p a) b.
Proof. revert p. induction a as [| r a IH]; intros p; [done |]. cbn [app]. by rewrite !end_hash_cons. Qed.

Lemma links_app p a b : links p (a ++ b) <-> links p a /\ links (end_hash p a) b.
Proof. revert p. induction a as [| r a IH]; intros p; cbn [app links]; [by split; [intros ?; split | intros [_ ?]] |]. rewrite IH, end_hash_cons. tauto. Qed.

(** ** Rows by their ids *)

Definition id_lt (a b : row) : Prop := ID a < ID b.

Lemma newest_app l r : newest (l ++ [r]) = later (newest l) r.
Proof. unfold newest. by rewrite foldl_app. Qed.

Lemma newest_sorted l : StronglySorted id_lt l -> newest l = last l.
Proof.
  induction l as [| r l IH] using rev_ind; intros Hs; [done |]. rewrite newest_app, last_snoc. apply StronglySorted_app in Hs as (Hr & Hl & _). rewrite IH by done.
  destruct (last l) as [x |] eqn:E; [| done]. cbn. apply last_Some_elem_of in E. specialize (Hr x r E ltac:(by left)). unfold id_lt in Hr.
  by destruct (Z.gtb_spec (ID r) (ID x)); [| lia].
Qed.

Lemma sorted_filter {A} (R : A -> A -> Prop) p l : StronglySorted R l -> StronglySorted R (List.filter p l).
Proof.
  induction 1 as [| x l Hl IH Hx]; cbn; [constructor |]. destruct (p x); [| done]. constructor; [done |].
  apply Forall_forall. intros y Hy. apply list_elem_of_In, filter_In in Hy as [Hy _]. rewrite Forall_forall in Hx. by apply Hx, list_elem_of_In.
Qed.

Lemma filter_all {A} (p : A -> bool) l : Forall (fun x => p x = true) l -> List.filter p l = l.
Proof. induction 1 as [| x l Hx Hl IH]; [done |]. cbn. by rewrite Hx, IH. Qed.
Lemma filter_none {A} (p : A -> bool) l : Forall (fun x => p x = false) l -> List.filter p l = [].
Proof. induction 1 as [| x l Hx Hl IH]; [done |]. cbn. by rewrite Hx. Qed.
Lemma filter_filter {A} (p q : A -> bool) l : List.filter p (List.filter q l) = List.filter (fun x => p x && q x) l.
Proof. induction l as [| x l IH]; [done |]. cbn. destruct (q x); cbn; rewrite IH; [by rewrite andb_true_r | by rewrite andb_false_r]. Qed.

Definition chained (s : AuditDB.t) : list row := List.filter in_chain (audit_log s).
Definition base (s : AuditDB.t) : string := end_hash auditChainGenesis (List.filter in_chain (archive s)).

(** ** The invariant *)

Record chain_inv (s : AuditDB.t) : Prop := {
  all_columns : hasTrace s = true /\ hasHighRisk s = true /\ hasChain s = true;
  ordered : StronglySorted id_lt (archive s ++ audit_log s);
  linked : links (base s) (chained s);
  head_of_chain : match last (chained s) with Some r => head s = Some (ID r, EntryHash r) | None => head_hash s = base s end;
  boundary_of_archive : boundary_hash s = base s;
}.

Lemma migrated_inv : chain_inv migrated.
Proof. split; try done. constructor. Qed.

Lemma head_end s : chain_inv s -> head_hash s = end_hash (base s) (chained s).
Proof. intros Hi. pose proof (head_of_chain _ Hi) as Hh. unfold end_hash. destruct (last (chained s)) as [r |]; [| done]. unfold head_hash. by rewrite Hh. Qed.

Lemma log_sorted s : chain_inv s -> StronglySorted id_lt (audit_log s) /\ StronglySorted id_lt (archive s) /\ forall a b, a ∈ archive s -> b ∈ audit_log s -> ID a < ID b.
Proof. intros Hi. pose proof (ordered _ Hi) as Ho. apply StronglySorted_app in Ho as (H1 & H2 & H3). done. Qed.

(** The rows of the chain before one of them. *)
Lemma chained_split s pre r post : chain_inv s -> chained s = pre ++ r :: post -> expected_prev (ID r) s = end_hash (base s) pre.
Proof.
  intros Hi E. destruct (log_sorted s Hi) as (Hs & Ha & Hab). unfold expected_prev.
  assert (Hc : StronglySorted id_lt (chained s)) by (by apply sorted_filter). rewrite E in Hc. apply StronglySorted_app in Hc as (Hpre & Hsp & Hpost).
  assert (E1 : List.filter (fun x => (ID x <? ID r) && in_chain x) (audit_log s) = pre).
  { rewrite <- filter_filter. fold (chained s). rewrite E, List.filter_app. cbn [List.filter]. rewrite Z.ltb_irrefl.
    rewrite (filter_none _ post), app_nil_r; [apply filter_all |]; apply Forall_forall; intros x Hx.
    - apply Z.ltb_lt. apply (Hpre x r); [done | by left].
    - apply StronglySorted_inv in Hpost as [_ Hf]. rewrite Forall_forall in Hf. specialize (Hf x Hx). unfold id_lt in Hf. apply Z.ltb_ge. lia. }
  rewrite E1, newest_sorted by done. unfold end_hash. destruct (last pre); [done |].
  assert (E2 : List.filter (fun x => (ID x <? ID r) && in_chain x) (archive s) = List.filter in_chain (archive s)).
  { apply filter_ext_in. intros x Hx. rewrite (proj2 (Z.ltb_lt _ _)); [done |]. apply Hab; [by apply list_elem_of_In |].
    assert (Hr : r ∈ chained s) by (rewrite E; apply elem_of_app; right; by left). apply list_elem_of_In, filter_In in Hr as [Hr _]. by apply list_elem_of_In. }
  rewrite E2, newest_sorted by (by apply sorted_filter). done.
Qed.

Lemma member_spec s r : chain_inv s -> r ∈ chained s ->
  EntryHash r <> "" /\ PrevHash r = expected_prev (ID r) s /\ auditEntryHash (PrevHash r) (Event r) = EntryHash r.
Proof.
  intros Hi (pre & post & E)%list_elem_of_split. rewrite (chained_split s pre r post Hi E). pose proof (linked _ Hi) as Hl. rewrite E in Hl.
  apply links_app in Hl as [_ (H1 & H2 & H3 & _)]. rewrite H2. done.
Qed.

(** Rows of the chain with neighbouring ids are neighbours in it. *)
Lemma neighbour s p r : chain_inv s -> p ∈ chained s -> r ∈ chained s -> ID r = ID p + 1 -> PrevHash r = EntryHash p.
Proof.
  intros Hi Hp Hr Hid. destruct (member_spec s r Hi Hr) as (_ & -> & _). pose proof Hr as (pre & post & E)%list_elem_of_split. rewrite (chained_split s pre r post Hi E).
  destruct (log_sorted s Hi) as (Hs & _ & _). assert (Hc : StronglySorted id_lt (chained s)) by (by apply sorted_filter). rewrite E in Hp, Hc.
  apply StronglySorted_app in Hc as (Hpre & Hsp & Hpost). apply StronglySorted_inv in Hpost as [_ Hf]. rewrite Forall_forall in Hf. unfold id_lt in *.
  apply elem_of_app in Hp as [Hp | [-> | Hp]%elem_of_cons]; [| lia | specialize (Hf p Hp); lia].
  apply list_elem_of_split in Hp as (l1 & l2 & ->). destruct l2 as [| x l2 _] using rev_ind; [unfold end_hash; by rewrite last_snoc |]. exfalso.
  apply StronglySorted_app in Hsp as (_ & _ & Hsp). apply StronglySorted_inv in Hsp as [_ Hf2]. rewrite Forall_forall in Hf2.
  specialize (Hf2 x ltac:(apply elem_of_app; right; by left)). specialize (Hpre x r ltac:(rewrite !elem_of_app, !elem_of_cons; rewrite !elem_of_app; set_solver) ltac:(by left)). lia.
Qed.

(** ** Appending *)

Definition fresh (s : AuditDB.t) (id : Z) : Prop := Forall (fun r => ID r < id) (archive s ++ audit_log s).

Lemma ordered_snoc s r : StronglySorted id_lt (archive s ++ audit_log s) -> fresh s (ID r) -> StronglySorted id_lt (archive s ++ audit_log s ++ [r]).
Proof.
  intros Ho Hf. rewrite app_assoc. apply StronglySorted_app. split_and!; [| done | by repeat constructor].
  intros x y Hx [-> | []%not_elem_of_nil]%elem_of_cons. unfold fresh in Hf. rewrite Forall_forall in Hf. by apply Hf.
Qed.

Lemma insertChained_inv id e s : chain_inv s -> fresh s id -> chain_inv (insertChainedAudit id e s).
Proof.
  intros Hi Hf. destruct (all_columns _ Hi) as (Ht & Hr & Hc). unfold insertChainedAudit, stored. rewrite Ht, Hr.
  set (e' := AuditEvent.set_CreatedAt _ e). set (r := Row id e' (head_hash s) (auditEntryHash (head_hash s) e')).
  assert (Hin : in_chain r = true) by (unfold in_chain; apply negb_true_iff, bool_decide_eq_false; apply auditEntryHash_nonempty).
  assert (E : chained (set_head (Some (id, auditEntryHash (head_hash s) e')) (set_log (audit_log s ++ [r]) s)) = chained s ++ [r]).
  { unfold chained. cbn [audit_log set_head set_log]. rewrite List.filter_app. cbn [List.filter]. by rewrite Hin. }
  constructor; [done | by apply (ordered_snoc s r (ordered _ Hi)) | | | exact (boundary_of_archive _ Hi)].
  - rewrite E. change (links (base s) (chained s ++ [r])). apply links_app. split; [by apply linked |]. rewrite <- head_end by done. cbn [links r EntryHash PrevHash Event].
    split; [apply auditEntryHash_nonempty | done].
  - by rewrite E, last_snoc.
Qed.

Lemma insertPlain_inv id e s : chain_inv s -> fresh s id -> chain_inv (insertPlain id e s).
Proof.
  intros Hi Hf. unfold insertPlain. set (r := Row id _ "" "").
  assert (E : chained (set_log (audit_log s ++ [r]) s) = chained s).
  { unfold chained. cbn [audit_log set_log]. rewrite List.filter_app. cbn [List.filter in_chain r EntryHash]. by rewrite app_nil_r. }
  constructor; [exact (all_columns _ Hi) | by apply (ordered_snoc s r (ordered _ Hi)) | | | exact (boundary_of_archive _ Hi)].
  - rewrite E. exact (linked _ Hi).
  - rewrite E. exact (head_of_chain _ Hi).
Qed.

(** The id an append takes is beyond those of the log and the archive. *)
Definition append_ok (outs : list outcome) (plain : option Z) (s : AuditDB.t) : Prop :=
  match attempts 3 outs with Some id => fresh s id | None => match plain with Some id => fresh s id | None => True end end.

Lemma Audit_inv now outs plain e s : chain_inv s -> append_ok outs plain s -> chain_inv (Audit now outs plain e s).
Proof.
  intros Hi Hok. destruct (all_columns _ Hi) as (_ & _ & Hc). unfold Audit, append_ok in *. rewrite Hc.
  destruct (attempts 3 outs) as [id |]; [by apply insertChained_inv |]. destruct plain as [id |]; [by apply insertPlain_inv | done].
Qed.

(** ** Archiving a prefix of the log *)

Definition batch_hash (rows : list row) : string := foldl (fun h r => if EntryHash r != "" then EntryHash r else h) "" rows.

Lemma batch_hash_end rows : batch_hash rows = end_hash "" (List.filter in_chain rows).
Proof.
  induction rows as [| r rows IH] using rev_ind; [done |]. unfold batch_hash in *. rewrite foldl_app, IH, List.filter_app. cbn [foldl List.filter].
  change (EntryHash r != "") with (in_chain r). destruct (in_chain r); [by rewrite end_hash_app | by rewrite app_nil_r].
Qed.

Lemma end_hash_nonempty p rows : links p rows -> rows <> [] -> end_hash "" rows <> "" /\ end_hash p rows = end_hash "" rows.
Proof.
  intros Hl Hn. destruct rows as [| r rows _] using rev_ind; [done |]. rewrite links_app in Hl. destruct Hl as (_ & He & _). unfold end_hash. by rewrite last_snoc.
Qed.

Lemma filter_archived rows : List.filter in_chain (map archived rows) = map archived (List.filter in_chain rows).
Proof. induction rows as [| r rows IH]; [done |]. cbn [map List.filter]. change (in_chain (archived r)) with (in_chain r). rewrite IH. by destruct (in_chain r). Qed.

Lemma end_hash_archived p rows : end_hash p (map archived rows) = end_hash p rows.
Proof. revert p. induction rows as [| r rows IH]; intros p; [done |]. cbn [map]. by rewrite !end_hash_cons, IH. Qed.

Lemma moved_split s pre post :
  chain_inv s -> audit_log s = pre ++ post -> Forall (fun r => moved (map ID pre) r = true) pre /\ Forall (fun r => moved (map ID pre) r = false) post /\
    Forall (fun r => bool_decide (ID r ∈ map ID (archive s)) = false) pre.
Proof.
  intros Hi E. destruct (log_sorted s Hi) as (Hs & _ & Hab). rewrite E in Hs, Hab. apply StronglySorted_app in Hs as (Hpp & _ & _). split_and!; apply Forall_forall; intros x Hx.
  - by apply bool_decide_eq_true, list_elem_of_fmap_2.
  - apply bool_decide_eq_false. intros (y & Hxy & Hy)%list_elem_of_fmap. specialize (Hpp y x Hy Hx). unfold id_lt in Hpp. lia.
  - apply bool_decide_eq_false. intros (y & Hxy & Hy)%list_elem_of_fmap. specialize (Hab y x Hy ltac:(apply elem_of_app; by left)). lia.
Qed.

Lemma copy_prefix s pre post : chain_inv s -> audit_log s = pre ++ post -> copy_rows (map ID pre) s = set_archive (archive s ++ map archived pre) s.
Proof.
  intros Hi E. destruct (moved_split s pre post Hi E) as (H1 & H2 & H3). unfold copy_rows. do 3 f_equal. rewrite E, List.filter_app. rewrite filter_all, filter_none; [apply app_nil_r | |].
  - eapply Forall_impl; [exact H2 |]. intros x Hx. cbn beta. by rewrite Hx.
  - eapply Forall_impl; [apply Forall_and; exact (conj H1 H3) |]. intros x [Hx Hy]. cbn beta. by rewrite Hx, Hy.
Qed.

Lemma delete_prefix s pre post : chain_inv s -> audit_log s = pre ++ post -> List.filter (fun r => negb (moved (map ID pre) r)) (audit_log s) = post.
Proof.
  intros Hi E. destruct (moved_split s pre post Hi E) as (H1 & H2 & _). rewrite E, List.filter_app, filter_none, filter_all; [done | |].
  - eapply Forall_impl; [exact H2 |]. intros x Hx. cbn beta. by rewrite Hx.
  - eapply Forall_impl; [exact H1 |]. intros x Hx. cbn beta. by rewrite Hx.
Qed.

(** The state after a batch that is a prefix of the log. *)
Definition after_batch (pre post : list row) (s : AuditDB.t) : AuditDB.t :=
  let '(_, h, n) := default (0, "", 0) (meta s) in
  let b := if batch_hash pre == "" then h else batch_hash pre in
  pull_head (map ID pre) b
    (mk post (head s) (archive s ++ map archived pre) (Some (List.last (map ID pre) 0, b, n + Z.of_nat (length (map ID pre)))) (hasTrace s) (hasHighRisk s) (hasChain s)).

Lemma commit_prefix s pre post :
  chain_inv s -> audit_log s = pre ++ post -> auditArchiveCommit (map ID pre) (batch_hash pre) s = after_batch pre post s.
Proof.
  intros Hi E. unfold auditArchiveCommit, archive_steps. cbn [foldl]. rewrite (copy_prefix s pre post Hi E).
  assert (Ed : forall v, delete_rows (map ID pre) (set_archive v s) = set_log post (set_archive v s)).
  { intros v. unfold delete_rows. cbn [audit_log set_archive]. by rewrite (delete_prefix s pre post Hi E). }
  rewrite Ed. clear Hi E Ed. destruct s as [l hd a [[[t0 h] n] |] tr hr ch]; reflexivity.
Qed.

Lemma pull_head_fields ids b s :
  audit_log (pull_head ids b s) = audit_log s /\ archive (pull_head ids b s) = archive s /\ meta (pull_head ids b s) = meta s /\
  hasTrace (pull_head ids b s) = hasTrace s /\ hasHighRisk (pull_head ids b s) = hasHighRisk s /\ hasChain (pull_head ids b s) = hasChain s.
Proof. unfold pull_head. destruct (head s) as [[last h] |]; [| done]. by destruct (bool_decide _). Qed.

(** The head once rows are gone that are the only ones it may have named. *)
Lemma pull_head_hash ids b s :
  List.filter in_chain (audit_log s) = [] -> head_hash s = b \/ (exists i h, head s = Some (i, h) /\ i ∈ ids) -> head_hash (pull_head ids b s) = b.
Proof.
  intros E Hh. unfold pull_head. rewrite E. destruct (head s) as [[i h] |] eqn:Eh.
  - case_bool_decide as Hd; [done |]. destruct Hh as [<- | (i' & h' & [= <- <-] & Hin)]; [done | done].
  - by destruct Hh as [<- | (i & h & ? & _)].
Qed.

Lemma links_nil p rows : links p rows -> end_hash "" rows = "" -> rows = [].
Proof. intros Hl He. destruct rows as [| r rows]; [done |]. by destruct (end_hash_nonempty p (r :: rows) Hl ltac:(done)) as [Hn _]. Qed.

(** The boundary of a batch is the end of the chain that the archive then has. *)
Lemma boundary_end p h rows :
  links p (List.filter in_chain rows) -> h = p -> (if batch_hash rows == "" then h else batch_hash rows) = end_hash p (List.filter in_chain rows).
Proof.
  intros Hl ->. rewrite batch_hash_end. destruct (bool_decide_reflect (end_hash "" (List.filter in_chain rows) = "")) as [E | E].
  - by rewrite (links_nil _ _ Hl E).
  - destruct (decide (List.filter in_chain rows = [])) as [E2 |]; [by rewrite E2 in E |]. by destruct (end_hash_nonempty p _ Hl ltac:(done)) as [_ <-].
Qed.

Lemma base_archived s pre : end_hash auditChainGenesis (List.filter in_chain (archive s ++ map archived pre)) = end_hash (base s) (List.filter in_chain pre).
Proof. by rewrite List.filter_app, filter_archived, end_hash_app, end_hash_archived. Qed.

Lemma ordered_archived s pre post : StronglySorted id_lt (archive s ++ pre ++ post) -> StronglySorted id_lt ((archive s ++ map archived pre) ++ post).
Proof.
  rewrite <- app_assoc. assert (Hm : forall l l' x, Forall (fun y => ID x < ID y) (l ++ l') -> Forall (fun y => ID x < ID y) (map archived l ++ l')).
  { intros l l' x Hf. apply Forall_app in Hf as [H1 H2]. apply Forall_app. split; [| done]. by apply Forall_fmap. }
  generalize (archive s). intros a. induction a as [| x a IH]; cbn [app].
  - induction pre as [| y pre IH]; [done |]. cbn [app map]. intros [Hs Hf]%StronglySorted_inv. constructor; [by apply IH | by apply (Hm pre post y)].
  - intros [Hs Hf]%StronglySorted_inv. constructor; [by apply IH |]. unfold id_lt in *. apply Forall_app in Hf as [H1 H2]. apply Forall_app. split; [done | by apply Hm].
Qed.

Lemma after_batch_inv s pre post : chain_inv s -> audit_log s = pre ++ post -> chain_inv (after_batch pre post s) /\ audit_log (after_batch pre post s) = post.
Proof.
  intros Hi E. pose proof (boundary_of_archive _ Hi) as Hb. unfold after_batch, boundary_hash in *.
  assert (Ec : chained s = List.filter in_chain pre ++ List.filter in_chain post) by (unfold chained; by rewrite E, List.filter_app).
  pose proof (linked _ Hi) as Hl. rewrite Ec in Hl. apply links_app in Hl as [Hlp Hlq].
  assert (Hd : exists t0 h n, default (0, "", 0) (meta s) = (t0, h, n) /\ h = base s).
  { destruct (meta s) as [[[t0 h] n] |]; cbn [default]; by do 3 eexists. }
  destruct Hd as (t0 & h & n & -> & Hh). rewrite (boundary_end (base s) h pre Hlp Hh). set (b := end_hash (base s) (List.filter in_chain pre)) in *.
  set (s1 := mk post _ _ _ _ _ _). destruct (pull_head_fields (map ID pre) b s1) as (F1 & F2 & F3 & F4 & F5 & F6).
  assert (Hbase : base (pull_head (map ID pre) b s1) = b) by (unfold base; rewrite F2; apply base_archived).
  split; [| by rewrite F1]. constructor.
  - rewrite F4, F5, F6. exact (all_columns _ Hi).
  - rewrite F1, F2. apply (ordered_archived s pre post). rewrite <- E. exact (ordered _ Hi).
  - rewrite Hbase. unfold chained. by rewrite F1.
  - rewrite Hbase. unfold chained. rewrite F1. cbn [audit_log s1]. destruct (last (List.filter in_chain post)) as [r |] eqn:El.
    + pose proof (head_of_chain _ Hi) as Hhd. rewrite Ec, last_app, El in Hhd. unfold pull_head. cbn [head s1]. rewrite Hhd.
      destruct (moved_split s pre post Hi E) as (_ & Hm & _). rewrite Forall_forall in Hm. apply last_Some_elem_of in El. apply list_elem_of_In, filter_In in El as [El _].
      specialize (Hm r ltac:(by apply list_elem_of_In)). unfold moved in Hm. by rewrite Hm.
    + assert (En : List.filter in_chain post = []) by (by apply last_None). apply pull_head_hash; [done |]. unfold head_hash. cbn [head s1].
      pose proof (head_of_chain _ Hi) as Hhd. rewrite Ec, En, app_nil_r in Hhd. destruct (last (List.filter in_chain pre)) as [r |] eqn:Elp.
      * right. exists (ID r), (EntryHash r). split; [done |]. apply last_Some_elem_of, list_elem_of_In, filter_In in Elp as [Elp _]. by apply list_elem_of_fmap_2, list_elem_of_In.
      * left. unfold b, end_hash. by rewrite Elp.
  - rewrite Hbase. unfold boundary_hash. by rewrite F3.
Qed.

(** ** Rounds of the archive *)

Definition older (a b : row) : Prop := AuditEvent.CreatedAt (Event a) <= AuditEvent.CreatedAt (Event b).
(** The log is in the order of time. *)
Definition in_time (s : AuditDB.t) : Prop := StronglySorted older (audit_log s).

Lemma before_prefix cutoff l :
  StronglySorted older l -> exists post, l = List.filter (fun r => Before (AuditEvent.CreatedAt (Event r)) cutoff) l ++ post.
Proof.
  induction 1 as [| r l Hl [post IH] Hr]; [by exists [] |]. cbn [List.filter]. destruct (Before (AuditEvent.CreatedAt (Event r)) cutoff) eqn:E.
  - exists post. cbn [app]. by rewrite <- IH.
  - exists (r :: l). rewrite filter_none; [done |]. eapply Forall_impl; [exact Hr |]. intros x Hx. unfold older, Before in *. apply Z.ltb_ge in E. apply Z.ltb_ge. lia.
Qed.

Lemma batch_prefix cutoff batch s :
  in_time s -> exists pre post, audit_log s = pre ++ post /\ auditArchiveBatch cutoff batch s = (map ID pre, batch_hash pre).
Proof.
  intros [post E]%(before_prefix cutoff). unfold auditArchiveBatch. set (l := List.filter _ _) in *. exists (take batch l), (drop batch l ++ post). split; [| done].
  by rewrite app_assoc, take_drop.
Qed.

Lemma archive_rounds_inv fuel cutoff batch s : chain_inv s -> in_time s -> chain_inv (archive_rounds fuel cutoff batch s).1.
Proof.
  revert s. induction fuel as [| fuel IH]; intros s Hi Ht; [done |]. cbn [archive_rounds]. destruct (batch_prefix cutoff batch s Ht) as (pre & post & E & ->).
  destruct (map ID pre == []); [done |]. rewrite (commit_prefix s pre post Hi E). destruct (after_batch_inv s pre post Hi E) as [Hi' E'].
  destruct (length (map ID pre) <? batch)%nat; [done |]. assert (Ht' : in_time (after_batch pre post s)).
  { unfold in_time in *. rewrite E in Ht. rewrite E'. by apply StronglySorted_app in Ht as (_ & _ & ?). }
  specialize (IH _ Hi' Ht'). by destruct (archive_rounds fuel cutoff batch (after_batch pre post s)).
Qed.

Lemma ArchiveAuditLog_inv now retainDays batch s : chain_inv s -> in_time s -> chain_inv (ArchiveAuditLog now retainDays batch s).1.
Proof. intros Hi Ht. unfold ArchiveAuditLog. destruct (_ || _); [done | by apply archive_rounds_inv]. Qed.

(** ** What verification makes of it *)

Lemma window_suffix limit s : exists pre, chained s = pre ++ window "" limit s.
Proof.
  unfold window. assert (E : List.filter (fun r => in_chain r && of_tenant "" r) (audit_log s) = chained s) by (apply filter_ext; intros r; apply andb_true_r).
  rewrite E. exists (take (length (chained s) - Z.to_nat limit) (chained s)). by rewrite take_drop.
Qed.

Lemma window_members tenant limit s r : r ∈ window tenant limit s -> r ∈ chained s.
Proof.
  unfold window. intros Hr%subseteq_drop%list_elem_of_In%filter_In. destruct Hr as [H1 [H2 _]%andb_prop]. by apply list_elem_of_In, filter_In.
Qed.


Lemma scoped_after s rows p ep i : chain_inv s -> Forall (fun r => r ∈ chained s) rows -> p ∈ chained s -> verify_scoped rows (Some p) ep i = None.
Proof.
  intros Hi Hr. revert p i. induction Hr as [| r rows Hr Hrs IH]; intros p i Hp; [done |]. cbn [verify_scoped].
  destruct (member_spec s r Hi Hr) as (H1 & _ & H3). rewrite (bool_decide_eq_false_2 _ H1), (bool_decide_eq_true_2 _ H3). cbn [negb].
  destruct (Z.eqb_spec (ID r) (ID p + 1)) as [Hid |]; cbn [andb]; [| by apply IH]. rewrite (bool_decide_eq_true_2 _ (neighbour s p r Hi Hp Hr Hid)). by apply IH.
Qed.

Lemma scoped_first s r rows i : chain_inv s -> Forall (fun r => r ∈ chained s) (r :: rows) -> verify_scoped (r :: rows) None (expected_prev (ID r) s) i = None.
Proof.
  intros Hi [Hr Hrs]%Forall_cons. cbn [verify_scoped]. destruct (member_spec s r Hi Hr) as (H1 & H2 & H3).
  rewrite (bool_decide_eq_false_2 _ H1), (bool_decide_eq_true_2 _ H3), (bool_decide_eq_true_2 _ H2). cbn [negb]. by apply scoped_after with s.
Qed.

Lemma strict_first s r rows pre i : chain_inv s -> chained s = pre ++ r :: rows -> verify_rows (r :: rows) (expected_prev (ID r) s) i = None.
Proof. intros Hi E. rewrite (chained_split s pre r rows Hi E). apply verify_links. pose proof (linked _ Hi) as Hl. rewrite E in Hl. by apply links_app in Hl as [_ Hl]. Qed.

Lemma last_member (r : row) rows : List.last (r :: rows) r ∈ r :: rows.
Proof. apply list_elem_of_In. destruct (exists_last (l := r :: rows) ltac:(done)) as (l & x & ->). rewrite last_last. apply in_or_app. right. by left. Qed.

(** The head is the newest row of the chain. *)
Lemma head_member s r : chain_inv s -> r ∈ chained s -> exists i h, head s = Some (i, h) /\ (i = ID r -> h = EntryHash r).
Proof.
  intros Hi Hr. pose proof (head_of_chain _ Hi) as Hh. destruct (last (chained s)) as [x |] eqn:El; [| apply last_None in El; rewrite El in Hr; by apply not_elem_of_nil in Hr].
  exists (ID x), (EntryHash x). split; [done |]. intros Hid. destruct (log_sorted s Hi) as (Hs & _ & _).
  assert (Hc : StronglySorted id_lt (chained s)) by (by apply sorted_filter). apply last_Some in El as [l El]. rewrite El in Hr, Hc.
  apply elem_of_app in Hr as [Hr | ->%list_elem_of_singleton]; [| done]. apply StronglySorted_app in Hc as (Hc & _ & _). specialize (Hc r x Hr ltac:(by left)). unfold id_lt in Hc. lia.
Qed.

Lemma window_last s r rows limit : chain_inv s -> window "" limit s = r :: rows -> head s = Some (ID (List.last (r :: rows) r), EntryHash (List.last (r :: rows) r)).
Proof.
  intros Hi E. destruct (window_suffix limit s) as [pre Ep]. rewrite E in Ep. pose proof (head_of_chain _ Hi) as Hh.
  destruct (exists_last (l := r :: rows) ltac:(done)) as (l & x & El). rewrite Ep, El, app_assoc, last_snoc in Hh. by rewrite El, last_last.
Qed.

Lemma verified s tenant limit : chain_inv s -> OK (VerifyAuditChain tenant limit s) = true /\ Reason (VerifyAuditChain tenant limit s) = None.
Proof.
  intros Hi. destruct (all_columns _ Hi) as (_ & _ & Hc). unfold VerifyAuditChain. rewrite Hc. cbn [negb].
  destruct (match meta s with Some (i, h, _) => (i, h) | None => (0, "") end) as [through boundary].
  destruct (window tenant (clamp limit) s) as [| r rows] eqn:E; [by destruct (match head s with Some p => p | None => _ end) |].
  assert (Hm : Forall (fun r => r ∈ chained s) (r :: rows)) by (apply Forall_forall; intros x Hx; eapply window_members; by rewrite E).
  pose proof (last_member r rows) as Hlast. set (x := List.last (r :: rows) r) in *. rewrite Forall_forall in Hm. pose proof (Hm x Hlast) as Hx.
  destruct (head_member s x Hi Hx) as (hid & hh & Ehd & Heq). rewrite Ehd. rewrite <- Forall_forall in Hm.
  destruct (bool_decide_reflect (tenant = "")) as [-> | Hne]; cbn [negb].
  - destruct (window_suffix (clamp limit) s) as [pre Ep]. rewrite E in Ep. unfold verifyChainRows. rewrite (strict_first s r rows pre 0 Hi Ep).
    pose proof (window_last s r rows (clamp limit) Hi E) as Ew. fold x in Ew. rewrite Ehd in Ew. injection Ew as -> ->. rewrite Z.eqb_refl. by rewrite bool_decide_eq_true_2.
  - unfold verifyChainRowsScoped. rewrite (scoped_first s r rows 0 Hi Hm). destruct (Z.eqb_spec hid (ID x)) as [Eid |]; [| done]. by rewrite bool_decide_eq_true_2 by auto.
Qed.

(** ** Runs *)

Inductive op :=
  | OAudit (now : time) (outs : list outcome) (plain : option Z) (e : AuditEvent.t)
  | OArchive (now : time) (retainDays batch : Z).
Definition perform (s : AuditDB.t) (o : op) : AuditDB.t :=
  match o with
  | OAudit now outs plain e => Audit now outs plain e s
  | OArchive now retainDays batch => (ArchiveAuditLog now retainDays batch s).1
  end.
(** Ids grow, and the archive is run on a log that is in the order of time. *)
Definition op_ok (s : AuditDB.t) (o : op) : Prop :=
  match o with OAudit _ outs plain _ => append_ok outs plain s | OArchive _ _ _ => in_time s end.
Fixpoint run_ok (ops : list op) (s : AuditDB.t) : Prop :=
  match ops with [] => True | o :: ops => op_ok s o /\ run_ok ops (perform s o) end.

Lemma audit_run_inv ops s : chain_inv s -> run_ok ops s -> chain_inv (foldl perform s ops).
Proof.
  revert s. induction ops as [| o ops IH]; intros s Hi Ho; [done |]. destruct Ho as [Ho Hr]. cbn [foldl]. apply IH; [| done].
  destruct o; [by apply Audit_inv | by apply ArchiveAuditLog_inv].
Qed.

(** C11: whatever is appended, in the chain or past it after failed transactions, and
    however often the old part of a log in the order of time is archived, the chain
    verifies: for the platform and for every tenant, whatever the limit. *)
Theorem chain_verifies ops tenant limit :
  run_ok ops migrated -> OK (VerifyAuditChain tenant limit (foldl perform migrated ops)) = true /\ Reason (VerifyAuditChain tenant limit (foldl perform migrated ops)) = None.
Proof. intros Hr. apply verified, audit_run_inv; [apply migrated_inv | done]. Qed.

(** ** A log that verifies is the one that was written *)

(** What the hashes bind of a row. *)
Definition view (r : row) : AuditEvent.t * string * string := (seconds_of (Event r), PrevHash r, EntryHash r).
Definition all_dated (rows : list row) : Prop := Forall (fun r => dated (AuditEvent.CreatedAt (Event r))) rows.

Lemma links_snoc p rows r : links p (rows ++ [r]) -> links p rows /\ EntryHash r <> "" /\ PrevHash r = end_hash p rows /\ auditEntryHash (PrevHash r) (Event r) = EntryHash r.
Proof. intros [H1 (H2 & H3 & H4 & _)]%links_app. rewrite H3. done. Qed.

Lemma end_hash_snoc p rows r : end_hash p (rows ++ [r]) = EntryHash r.
Proof. unfold end_hash. by rewrite last_snoc. Qed.

Lemma one_end_one_chain a b :
  links "" a -> links "" b -> all_dated a -> all_dated b -> end_hash "" a = end_hash "" b -> map view a = map view b \/ collision.
Proof.
  revert b. induction a as [| r a IH] using rev_ind; intros b; destruct b as [| q b _] using rev_ind; rewrite ?end_hash_snoc.
  - by left.
  - intros _ (_ & Hq & _)%links_snoc _ _ E. by rewrite <- E in Hq.
  - intros (_ & Hr & _)%links_snoc _ _ _ E. by rewrite E in Hr.
  - intros (La & _ & Pa & Ha)%links_snoc (Lb & _ & Pb & Hb)%links_snoc [Da [Dr _]%Forall_cons]%Forall_app [Db [Dq _]%Forall_cons]%Forall_app E.
    rewrite <- Ha, <- Hb in E. destruct (auditEntryHash_inj _ _ _ _ Dr Dq E) as [[Ep Es] | Hc]; [| by right].
    destruct (IH b La Lb Da Db ltac:(congruence)) as [Ev | Hc]; [left | by right]. rewrite !map_app, Ev. cbn [map]. unfold view at 2 4. congruence.
Qed.

Lemma newest_below r rows l : StronglySorted id_lt l -> List.filter in_chain l = r :: rows -> List.filter (fun x => (ID x <? ID r) && in_chain x) l = [].
Proof.
  intros Hs E. rewrite <- filter_filter, E. pose proof (sorted_filter id_lt in_chain l Hs) as Hc. rewrite E in Hc. apply StronglySorted_inv in Hc as [_ Hf].
  cbn [List.filter]. rewrite Z.ltb_irrefl. apply filter_none. eapply Forall_impl; [exact Hf |]. intros x Hx. unfold id_lt in Hx. apply Z.ltb_ge. lia.
Qed.

(** A window that covers the chain. *)
Lemma window_covers limit s : Z.of_nat (length (chained s)) <= limit -> window "" limit s = chained s.
Proof.
  intros Hl. unfold window. assert (E : List.filter (fun r => in_chain r && of_tenant "" r) (audit_log s) = chained s) by (apply filter_ext; intros r; apply andb_true_r).
  rewrite E. replace (length (chained s) - Z.to_nat limit)%nat with 0%nat by lia. done.
Qed.

Lemma covered_links s limit :
  hasChain s = true -> (forall r rows, chained s = r :: rows -> expected_prev (ID r) s = "") -> chained s <> [] ->
  Z.of_nat (length (chained s)) <= clamp limit -> OK (VerifyAuditChain "" limit s) = true -> links "" (chained s) /\ head_hash s = end_hash "" (chained s).
Proof.
  intros Hc Hp Hn Hl. unfold VerifyAuditChain. rewrite Hc. cbn [negb]. destruct (match meta s with Some (i, h, _) => (i, h) | None => (0, "") end) as [through boundary].
  rewrite (window_covers _ _ Hl). destruct (chained s) as [| r rows] eqn:E; [done |].
  rewrite (Hp r rows eq_refl), (bool_decide_eq_true_2 ("" = "") eq_refl). unfold verifyChainRows.
  destruct (match head s with Some p => p | None => (0, "") end) as [hid hh] eqn:Eh.
  destruct (verify_rows (r :: rows) "" 0) as [[i f] |] eqn:Ev; [done |]. apply verify_links in Ev. cbn [negb].
  destruct (Z.eqb_spec hid (ID (List.last (r :: rows) r))); [| done]. destruct (bool_decide_reflect (hh = EntryHash (List.last (r :: rows) r))) as [-> |]; [| done].
  intros _. split; [done |]. unfold head_hash, end_hash. destruct (exists_last (l := r :: rows) ltac:(done)) as (l & x & El). rewrite El in *. rewrite last_last in Eh. rewrite last_snoc.
  destruct (head s) as [[] |]; [by injection Eh |]. by injection Eh.
Qed.


(** ** The archive keeps every row *)

Definition kept (id : Z) (s : AuditDB.t) : Prop := id ∈ map ID (audit_log s ++ archive s).

Lemma copied id ids s : kept id s -> kept id (copy_rows ids s) /\ (id ∈ ids -> id ∈ map ID (archive (copy_rows ids s))).
Proof.
  unfold kept, copy_rows. cbn [audit_log archive set_archive]. rewrite !map_app, !elem_of_app. intros Hk. split; [destruct Hk; [by left | right; by left] |]. intros Hin.
  destruct (decide (id ∈ map ID (archive s))) as [| Hn]; [by left |]. destruct Hk as [Hk | Hk]; [| done]. right.
  apply list_elem_of_fmap in Hk as (r & -> & Hr). rewrite map_map. apply list_elem_of_In, in_map_iff. exists r. split; [done |]. apply filter_In.
  split; [by apply list_elem_of_In |]. apply andb_true_intro. split; [by apply bool_decide_eq_true | by apply negb_true_iff, bool_decide_eq_false].
Qed.

Lemma deleted id ids s : kept id s -> (id ∈ ids -> id ∈ map ID (archive s)) -> kept id (delete_rows ids s).
Proof.
  unfold kept, delete_rows. cbn [audit_log archive set_log]. rewrite !map_app, !elem_of_app. intros [Hk | Hk] Ha; [| by right].
  destruct (decide (id ∈ ids)) as [Hin | Hn]; [right; by apply Ha |]. left. apply list_elem_of_fmap in Hk as (r & -> & Hr).
  apply list_elem_of_In, in_map_iff. exists r. split; [done |]. apply filter_In. split; [by apply list_elem_of_In |]. by apply negb_true_iff, bool_decide_eq_false.
Qed.

(** Wherever the statements that archive a batch are cut off, whatever batch it is,
    every row is in the log or in the archive. *)
Theorem archive_loses_nothing ids boundary n s id : kept id s -> kept id (foldl (fun s f => f s) s (take n (archive_steps ids boundary))).
Proof.
  intros Hk. destruct (copied id ids s Hk) as [H1 H2]. pose proof (deleted id ids _ H1 H2) as H3.
  assert (K : forall f s, (forall s, audit_log (f s) = audit_log s /\ archive (f s) = archive s) -> kept id s -> kept id (f s)).
  { intros f s' Hf Hs. destruct (Hf s') as [Hl Ha]. unfold kept. by rewrite Hl, Ha. }
  assert (H4 : kept id (init_meta (delete_rows ids (copy_rows ids s)))) by (by apply K).
  destruct n as [| [| [| [| [| n]]]]]; cbn [take archive_steps foldl]; try done.
  - apply (K (fun s => push_boundary ids (batch_boundary boundary s) s)); [| done]. intros s'. unfold push_boundary. by destruct (meta s') as [[[] ?] |].
  - rewrite take_nil. cbn [foldl]. apply (K (fun s => pull_head ids (boundary_hash s) s)); [intros s'; by destruct (pull_head_fields ids (boundary_hash s') s') as (? & ? & _) |].
    apply (K (fun s => push_boundary ids (batch_boundary boundary s) s)); [| done]. intros s'. unfold push_boundary. by destruct (meta s') as [[[] ?] |].
Qed.

(** ** Where the chain breaks or says nothing *)

Lemma commit_fields ids boundary s :
  let s' := auditArchiveCommit ids boundary s in
  audit_log s' = List.filter (fun r => negb (moved ids r)) (audit_log s) /\
  archive s' = archive s ++ map archived (List.filter (fun r => moved ids r && negb (bool_decide (ID r ∈ map ID (archive s)))) (audit_log s)) /\ hasChain s' = hasChain s.
Proof.
  intros s'. unfold s', auditArchiveCommit, archive_steps. cbn [foldl]. set (s1 := push_boundary _ _ _).
  destruct (pull_head_fields ids (boundary_hash s1) s1) as (-> & -> & _ & _ & _ & ->). destruct s as [l h a [[[] ?] |] tr hr ch]; done.
Qed.

Lemma commit_keeps_head ids boundary s i h : head s = Some (i, h) -> i ∉ ids -> head (auditArchiveCommit ids boundary s) = Some (i, h).
Proof.
  intros Hh Hi. unfold auditArchiveCommit, archive_steps. cbn [foldl]. set (s1 := push_boundary _ _ _).
  assert (E : head s1 = Some (i, h)) by (destruct s as [l hd a [[[] ?] |] tr hr ch]; exact Hh).
  unfold pull_head. by rewrite E, bool_decide_eq_false_2.
Qed.

Lemma filter_smaller {A} (p : A -> bool) l x : x ∈ l -> p x = false -> (length (List.filter p l) < length l)%nat.
Proof.
  intros Hx Hp. induction Hx as [x0 l | x0 y l Hx IH]; cbn [List.filter length].
  - rewrite Hp. pose proof (List.filter_length_le p l). lia.
  - specialize (IH Hp). destruct (p y); cbn [length]; lia.
Qed.

(** Nothing of the archive is before the first row of a chain that is left. *)
Lemma first_survives ids boundary s first l rows :
  chain_inv s -> archive s = [] -> chained s = first :: l -> chained (auditArchiveCommit ids boundary s) = first :: rows ->
  expected_prev (ID first) (auditArchiveCommit ids boundary s) = "".
Proof.
  intros Hi Ha Ew Ef. destruct (log_sorted s Hi) as (Hs & _ & _). destruct (commit_fields ids boundary s) as (El & Ea & _). unfold expected_prev.
  rewrite (newest_below first rows _); [| rewrite El; by apply sorted_filter | exact Ef]. cbn [newest foldl]. rewrite Ea, Ha. cbn [app].
  rewrite (filter_none _ (map _ _)); [done |]. apply Forall_forall. intros y (z & -> & Hz)%list_elem_of_fmap. apply list_elem_of_In, filter_In in Hz as [Hz _].
  cbn [ID archived]. apply andb_false_iff. destruct (in_chain z) eqn:Hzc; [left | by right]. apply Z.ltb_ge.
  assert (Hzw : z ∈ chained s) by (by apply list_elem_of_In, filter_In). pose proof (sorted_filter id_lt in_chain _ Hs) as Hcs. fold (chained s) in Hcs. rewrite Ew in Hzw, Hcs.
  apply StronglySorted_inv in Hcs as [_ Hff]. rewrite Forall_forall in Hff. apply elem_of_cons in Hzw as [-> | Hzw]; [lia |]. specialize (Hff z Hzw). unfold id_lt in Hff. lia.
Qed.


(** The copy in the archive is without the mark of a dangerous operation, which the
    hash was taken of, so that the archived record of such an operation no longer agrees
    with its own hash. *)
Theorem archived_mark_breaks_hash r :
  dated (AuditEvent.CreatedAt (Event r)) -> AuditEvent.HighRisk (Event r) = true -> auditEntryHash (PrevHash r) (Event r) = EntryHash r ->
  auditEntryHash (PrevHash (archived r)) (Event (archived r)) <> EntryHash (archived r) \/ collision.
Proof.
  intros Hd Hh He. destruct (decide (auditEntryHash (PrevHash r) (Event (archived r)) = EntryHash r)) as [E | Hn]; [| by left]. rewrite <- He in E.
  assert (Hd' : dated (AuditEvent.CreatedAt (Event (archived r)))) by exact Hd.
  destruct (auditEntryHash_inj _ _ _ _ Hd' Hd E) as [[_ Es] | Hc]; [| by right]. apply (f_equal AuditEvent.HighRisk) in Es. cbn in Es. by rewrite Hh in Es.
Qed.

(** Once no row of the chain is left in the log, verification succeeds, whatever the
    head says that the chain had. *)
Theorem emptied_log_verifies tenant limit s : hasChain s = true -> OK (VerifyAuditChain tenant limit (set_log [] s)) = true.
Proof.
  intros Hc. unfold VerifyAuditChain. cbn [hasChain set_log]. rewrite Hc. cbn [negb]. destruct (match meta (set_log [] s) with Some (i, h, _) => (i, h) | None => (0, "") end).
  destruct (match head (set_log [] s) with Some p => p | None => (0, "") end). unfold window. cbn [audit_log set_log List.filter]. by rewrite drop_nil.
Qed.

Lemma verify_rows_last rows r prev i : verify_rows (rows ++ [r]) prev i = None -> auditEntryHash (PrevHash r) (Event r) = EntryHash r.
Proof. intros E%verify_links%links_snoc. tauto. Qed.

Lemma newest_row_checked s rows r limit :
  hasChain s = true -> audit_log s = rows ++ [r] -> EntryHash r <> "" -> OK (VerifyAuditChain "" limit s) = true -> auditEntryHash (PrevHash r) (Event r) = EntryHash r.
Proof.
  intros Hc El Hn. unfold VerifyAuditChain. rewrite Hc. cbn [negb]. destruct (match meta s with Some (i, h, _) => (i, h) | None => (0, "") end).
  destruct (match head s with Some p => p | None => (0, "") end). rewrite (bool_decide_eq_true_2 ("" = "") eq_refl).
  assert (Hcl : 1 <= clamp limit) by (unfold clamp, maxAuditVerifyLimit; destruct (Z.leb_spec limit 0), (Z.gtb_spec limit 10000); cbn; lia).
  assert (Ew : exists w, window "" (clamp limit) s = w ++ [r]).
  { assert (Hin : in_chain r && of_tenant "" r = true) by (unfold in_chain; by rewrite bool_decide_eq_false_2).
    unfold window. rewrite El, List.filter_app. cbn [List.filter]. rewrite Hin. set (l := List.filter _ rows). rewrite length_app. cbn [length].
    rewrite drop_app_le by lia. by eexists. }
  destruct Ew as [w ->]. destruct (w ++ [r]) as [| f l] eqn:Ew; [by destruct w |]. unfold verifyChainRows.
  destruct (verify_rows (f :: l) (expected_prev (ID f) s) 0) as [[] |] eqn:Ev; [done |]. intros _. rewrite <- Ew in Ev. by apply verify_rows_last in Ev.
Qed.

(** On a database without the column [high_risk] the record of a dangerous operation
    is stored without its mark, and the hash is taken with it: the record breaks the
    verification from then on, though nobody touched it. *)
Theorem missing_column_breaks_chain id e s limit :
  hasChain s = true -> hasHighRisk s = false -> dated (Truncate (AuditEvent.CreatedAt e) second) -> AuditEvent.HighRisk e = true ->
  OK (VerifyAuditChain "" limit (insertChainedAudit id e s)) = false \/ collision.
Proof.
  intros Hc Hr Hd' He. destruct (OK _) eqn:Hok; [right | by left]. unfold insertChainedAudit in Hok.
  set (e' := AuditEvent.set_CreatedAt _ e) in Hok. set (r := Row id (stored e' s) (head_hash s) (auditEntryHash (head_hash s) e')) in Hok.
  assert (Hn : EntryHash r <> "") by apply auditEntryHash_nonempty.
  pose proof (newest_row_checked (set_head (Some (id, auditEntryHash (head_hash s) e')) (set_log (audit_log s ++ [r]) s)) (audit_log s) r limit Hc eq_refl Hn Hok) as E.
  assert (Et : AuditEvent.CreatedAt (stored e' s) = Truncate (AuditEvent.CreatedAt e) second) by (unfold stored; rewrite Hr; by destruct (hasTrace s)).
  assert (Hds : dated (AuditEvent.CreatedAt (stored e' s))) by (by rewrite Et). assert (Hde : dated (AuditEvent.CreatedAt e')) by exact Hd'.
  destruct (auditEntryHash_inj (head_hash s) (head_hash s) _ _ Hds Hde E) as [[_ Es] |]; [| done]. apply (f_equal AuditEvent.HighRisk) in Es. unfold stored in Es. rewrite Hr in Es. cbn in Es. by rewrite He in Es.
Qed.
End props.

(** ** At concrete inputs: a hash of 32 bytes *)

Module Ledger.
Fixpoint fit (n : nat) (s : string) : string :=
  match n, s with
  | O, _ => ""
  | S n, "" => String "0" (fit n "")
  | S n, String c s => String c (fit n s)
  end.
Lemma fit_length n s : String.length (fit n s) = n.
Proof. revert s. induction n as [| n IH]; intros [| c s]; cbn; by rewrite ?IH. Qed.
Definition checksum (s : string) : Z :=
  (fix go (s : string) (acc : Z) : Z := match s with "" => acc | String c s => go s ((acc * 257 + Z.of_nat (nat_of_ascii c)) `mod` 1000000007) end) s 7.
#[export] Instance toy_sha : SHA256 := { Sum256 s := fit 32 (itoa (checksum s)); Sum256_size s := fit_length 32 _ }.

Definition day0 : time := 63800000000 * second.
Definition event (tenant : string) (days : Z) (risky : bool) : AuditEvent.t := AuditEvent.mk tenant "ann" "exec" "web" "x" (day0 + days * (24 * hour) + 7) risky "".

(** Two records of tenants, one after deadlocks, one past the chain, the archive, and a
    record after it. *)
Definition ops : list op :=
  [OAudit day0 [Commit 1] None (event "acme" 0 false); OAudit day0 [Deadlock; Deadlock; Commit 2] None (event "beta" 1 true);
   OAudit day0 [Failed] (Some 3) (event "acme" 2 false); OAudit day0 [Commit 5] None (event "acme" 3 false);
   OArchive (day0 + 31 * (24 * hour)) 30 1; OAudit day0 [Commit 6] None (event "acme" 40 false)].
Definition db : AuditDB.t := foldl perform migrated ops.

Lemma ops_ok : run_ok ops migrated.
Proof. vm_compute. split_and!; repeat constructor; intros [=]. Defined.

Example archived_one : map ID (archive db) = [1] /\ map ID (audit_log db) = [2; 3; 5; 6] /\ LegacyRows (VerifyAuditChain "acme" 10 db) = 1.
Proof. vm_compute. done. Qed.

Lemma chain_verifies_witness :
  OK (VerifyAuditChain "acme" 2 (foldl perform migrated ops)) = true /\ Reason (VerifyAuditChain "acme" 2 (foldl perform migrated ops)) = None.
Proof. exact (chain_verifies ops "acme" 2 ops_ok). Defined.

(** Four records of the chain; the second came with a time of ten days before. *)
Definition backdated : list op :=
  [OAudit day0 [Commit 1] None (event "acme" 0 false); OAudit day0 [Commit 2] None (event "acme" (-10) true);
   OAudit day0 [Commit 3] None (event "acme" 1 false); OAudit day0 [Commit 4] None (event "acme" 2 false)].
Abbreviation full := (foldl perform migrated backdated).

Lemma dated_check rows :
  forallb (fun r => (0 <=? Year (AuditEvent.CreatedAt (Event r))) && (Year (AuditEvent.CreatedAt (Event r)) <? 10000)) rows = true -> all_dated rows.
Proof. intros Hf. rewrite forallb_forall in Hf. apply Forall_forall. intros r Hr. apply list_elem_of_In in Hr. apply Hf, andb_prop in Hr as [H1 H2]. unfold dated. lia. Qed.

Lemma backdated_ok : run_ok backdated migrated.
Proof. vm_compute. split_and!; repeat constructor; intros [=]. Defined.
Lemma full_dated : all_dated (chained full).
Proof. apply dated_check. vm_compute. reflexivity. Defined.

(** The table with a row more that is not in the chain. *)
Definition touched : AuditDB.t := set_log (audit_log full ++ [Row 5 (event "acme" 9 false) "" ""]) full.

Lemma touched_sorted : StronglySorted id_lt (audit_log touched).
Proof. vm_compute. repeat constructor. Defined.
Lemma touched_dated : all_dated (chained touched).
Proof. apply dated_check. vm_compute. reflexivity. Defined.


(** Any change of a row of the chain shows. *)
Example changed_detail_shows :
  Reason (VerifyAuditChain "" 10 (set_log (map (fun r => if ID r =? 2 then Row 2 (event "acme" (-10) false) (PrevHash r) (EntryHash r) else r) (audit_log full)) full))
  = Some (RowFault ContentDiffers).
Proof. vm_compute. reflexivity. Qed.

Lemma archive_loses_nothing_witness : kept 2 (foldl (fun s f => f s) full (take 2 (archive_steps [2; 1] ""))).
Proof. apply (archive_loses_nothing [2; 1] "" 2 full 2). vm_compute. right. left. Defined.

(** The archive of what is older than five days takes the second row only. *)
Example archive_takes_second :
  let db := (ArchiveAuditLog (day0 + 2 * (24 * hour)) 5 0 full).1 in
  map ID (archive db) = [2] /\ Reason (VerifyAuditChain "" 0 db) = Some (RowFault PrevDiffers) /\ FirstBadID (VerifyAuditChain "" 0 db) = 3.
Proof. vm_compute. done. Qed.


Definition risky_row : row := Row 1 (event "acme" 0 true) "" (auditEntryHash "" (event "acme" 0 true)).
Lemma risky_dated : dated (AuditEvent.CreatedAt (Event risky_row)).
Proof. vm_compute. split; [discriminate | reflexivity]. Defined.
Lemma archived_mark_breaks_hash_witness :
  auditEntryHash (PrevHash (archived risky_row)) (Event (archived risky_row)) <> EntryHash (archived risky_row) \/ collision.
Proof. exact (archived_mark_breaks_hash risky_row risky_dated eq_refl eq_refl). Defined.

Lemma emptied_log_verifies_witness : HeadConsistent (VerifyAuditChain "" 0 full) = true /\ OK (VerifyAuditChain "" 0 (set_log [] full)) = true.
Proof. split; [vm_compute; reflexivity | exact (emptied_log_verifies "" 0 full eq_refl)]. Defined.

Definition unmigrated : AuditDB.t := mk [] (Some (0, "")) [] (Some (0, "", 0)) true false true.
Lemma missing_column_breaks_chain_witness : OK (VerifyAuditChain "" 10 (insertChainedAudit 1 (event "acme" 0 true) unmigrated)) = false \/ collision.
Proof.
  apply (missing_column_breaks_chain 1 (event "acme" 0 true) unmigrated 10); [reflexivity | reflexivity | | reflexivity].
  vm_compute. split; [discriminate | reflexivity].
Defined.
End Ledger.
