(* ===== verification/TaskSvc.v ===== *)
(** * The task service: data and store ([services/task-svc], models and store)

    The tasks, results, schedules, batches and staged releases of the task service,
    the check of commands ([service/validate.go]), and the store in memory
    ([store/store.go]), each operation of which holds its mutex. *)

From Stdlib Require Import Ascii.
From S2P Require Import GoStrings Prelude.
Open Scope go_scope.

(** ** Data ([models.go]) *)

Definition TaskStatusPending : string := "pending".
Definition TaskStatusClaimed : string := "claimed".
Definition TaskStatusRunning : string := "running".
Definition TaskStatusDone : string := "done".
Definition TaskStatusFailed : string := "failed".
Definition TaskStatusCancelled : string := "cancelled".
Definition TaskStatusPendingApproval : string := "pending_approval".
Definition TaskStatusRejected : string := "rejected".
Definition TaskTypeShell : string := "shell".
Definition BatchStatusPending : string := "pending".

(** [models.Task]; an assignment [t.F = v] is [set_F v t]. *)
Module Task.
Record t := mk {
  TaskID : string; AgentID : string; TenantID : string; Type_ : string; Command : string;
  Content : string; Path : string; Status : string; ClaimedBy : string; ClaimedAt : time;
  ClaimEpoch : Z; CreatedAt : time; RetryCount : Z; MaxRetries : Z; DeadLetter : bool;
  Timeout : Z; RetryDelay : Z; Schedule : string; LastFiredAt : time; ParentID : string;
  DependsOn : list string; ApprovalRequired : bool; ApprovedBy : string; ApprovedAt : time;
  BatchID : string; Priority : Z; IdempotencyKey : string; StatusMachine : string;
}.

Definition set_Type_ (v : string) (r : t) : t :=
  mk (TaskID r) (AgentID r) (TenantID r) v (Command r) (Content r) (Path r) (Status r)
     (ClaimedBy r) (ClaimedAt r) (ClaimEpoch r) (CreatedAt r) (RetryCount r) (MaxRetries r)
     (DeadLetter r) (Timeout r) (RetryDelay r) (Schedule r) (LastFiredAt r) (ParentID r)
     (DependsOn r) (ApprovalRequired r) (ApprovedBy r) (ApprovedAt r) (BatchID r) (Priority r)
     (IdempotencyKey r) (StatusMachine r).
Definition set_Status (v : string) (r : t) : t :=
  mk (TaskID r) (AgentID r) (TenantID r) (Type_ r) (Command r) (Content r) (Path r) v
     (ClaimedBy r) (ClaimedAt r) (ClaimEpoch r) (CreatedAt r) (RetryCount r) (MaxRetries r)
     (DeadLetter r) (Timeout r) (RetryDelay r) (Schedule r) (LastFiredAt r) (ParentID r)
     (DependsOn r) (ApprovalRequired r) (ApprovedBy r) (ApprovedAt r) (BatchID r) (Priority r)
     (IdempotencyKey r) (StatusMachine r).
Definition set_ClaimedBy (v : string) (r : t) : t :=
  mk (TaskID r) (AgentID r) (TenantID r) (Type_ r) (Command r) (Content r) (Path r) (Status r) v
     (ClaimedAt r) (ClaimEpoch r) (CreatedAt r) (RetryCount r) (MaxRetries r) (DeadLetter r)
     (Timeout r) (RetryDelay r) (Schedule r) (LastFiredAt r) (ParentID r) (DependsOn r)
     (ApprovalRequired r) (ApprovedBy r) (ApprovedAt r) (BatchID r) (Priority r)
     (IdempotencyKey r) (StatusMachine r).
Definition set_ClaimedAt (v : time) (r : t) : t :=
  mk (TaskID r) (AgentID r) (TenantID r) (Type_ r) (Command r) (Content r) (Path r) (Status r)
     (ClaimedBy r) v (ClaimEpoch r) (CreatedAt r) (RetryCount r) (MaxRetries r) (DeadLetter r)
     (Timeout r) (RetryDelay r) (Schedule r) (LastFiredAt r) (ParentID r) (DependsOn r)
     (ApprovalRequired r) (ApprovedBy r) (ApprovedAt r) (BatchID r) (Priority r)
     (IdempotencyKey r) (StatusMachine r).
Definition set_ClaimEpoch (v : Z) (r : t) : t :=
  mk (TaskID r) (AgentID r) (TenantID r) (Type_ r) (Command r) (Content r) (Path r) (Status r)
     (ClaimedBy r) (ClaimedAt r) v (CreatedAt r) (RetryCount r) (MaxRetries r) (DeadLetter r)
     (Timeout r) (RetryDelay r) (Schedule r) (LastFiredAt r) (ParentID r) (DependsOn r)
     (ApprovalRequired r) (ApprovedBy r) (ApprovedAt r) (BatchID r) (Priority r)
     (IdempotencyKey r) (StatusMachine r).
Definition set_CreatedAt (v : time) (r : t) : t :=
  mk (TaskID r) (AgentID r) (TenantID r) (Type_ r) (Command r) (Content r) (Path r) (Status r)
     (ClaimedBy r) (ClaimedAt r) (ClaimEpoch r) v (RetryCount r) (MaxRetries r) (DeadLetter r)
     (Timeout r) (RetryDelay r) (Schedule r) (LastFiredAt r) (ParentID r) (DependsOn r)
     (ApprovalRequired r) (ApprovedBy r) (ApprovedAt r) (BatchID r) (Priority r)
     (IdempotencyKey r) (StatusMachine r).
Definition set_RetryCount (v : Z) (r : t) : t :=
  mk (TaskID r) (AgentID r) (TenantID r) (Type_ r) (Command r) (Content r) (Path r) (Status r)
     (ClaimedBy r) (ClaimedAt r) (ClaimEpoch r) (CreatedAt r) v (MaxRetries r) (DeadLetter r)
     (Timeout r) (RetryDelay r) (Schedule r) (LastFiredAt r) (ParentID r) (DependsOn r)
     (ApprovalRequired r) (ApprovedBy r) (ApprovedAt r) (BatchID r) (Priority r)
     (IdempotencyKey r) (StatusMachine r).
Definition set_MaxRetries (v : Z) (r : t) : t :=
  mk (TaskID r) (AgentID r) (TenantID r) (Type_ r) (Command r) (Content r) (Path r) (Status r)
     (ClaimedBy r) (ClaimedAt r) (ClaimEpoch r) (CreatedAt r) (RetryCount r) v (DeadLetter r)
     (Timeout r) (RetryDelay r) (Schedule r) (LastFiredAt r) (ParentID r) (DependsOn r)
     (ApprovalRequired r) (ApprovedBy r) (ApprovedAt r) (BatchID r) (Priority r)
     (IdempotencyKey r) (StatusMachine r).
Definition set_DeadLetter (v : bool) (r : t) : t :=
  mk (TaskID r) (AgentID r) (TenantID r) (Type_ r) (Command r) (Content r) (Path r) (Status r)
     (ClaimedBy r) (ClaimedAt r) (ClaimEpoch r) (CreatedAt r) (RetryCount r) (MaxRetries r) v
     (Timeout r) (RetryDelay r) (Schedule r) (LastFiredAt r) (ParentID r) (DependsOn r)
     (ApprovalRequired r) (ApprovedBy r) (ApprovedAt r) (BatchID r) (Priority r)
     (IdempotencyKey r) (StatusMachine r).
Definition set_LastFiredAt (v : time) (r : t) : t :=
  mk (TaskID r) (AgentID r) (TenantID r) (Type_ r) (Command r) (Content r) (Path r) (Status r)
     (ClaimedBy r) (ClaimedAt r) (ClaimEpoch r) (CreatedAt r) (RetryCount r) (MaxRetries r)
     (DeadLetter r) (Timeout r) (RetryDelay r) (Schedule r) v (ParentID r) (DependsOn r)
     (ApprovalRequired r) (ApprovedBy r) (ApprovedAt r) (BatchID r) (Priority r)
     (IdempotencyKey r) (StatusMachine r).
Definition set_ApprovedBy (v : string) (r : t) : t :=
  mk (TaskID r) (AgentID r) (TenantID r) (Type_ r) (Command r) (Content r) (Path r) (Status r)
     (ClaimedBy r) (ClaimedAt r) (ClaimEpoch r) (CreatedAt r) (RetryCount r) (MaxRetries r)
     (DeadLetter r) (Timeout r) (RetryDelay r) (Schedule r) (LastFiredAt r) (ParentID r)
     (DependsOn r) (ApprovalRequired r) v (ApprovedAt r) (BatchID r) (Priority r)
     (IdempotencyKey r) (StatusMachine r).
Definition set_ApprovedAt (v : time) (r : t) : t :=
  mk (TaskID r) (AgentID r) (TenantID r) (Type_ r) (Command r) (Content r) (Path r) (Status r)
     (ClaimedBy r) (ClaimedAt r) (ClaimEpoch r) (CreatedAt r) (RetryCount r) (MaxRetries r)
     (DeadLetter r) (Timeout r) (RetryDelay r) (Schedule r) (LastFiredAt r) (ParentID r)
     (DependsOn r) (ApprovalRequired r) (ApprovedBy r) v (BatchID r) (Priority r)
     (IdempotencyKey r) (StatusMachine r).
End Task.

(** [models.TaskResult]. *)
Module TaskResult.
Record t := mk {
  TaskID : string; AgentID : string; ExitCode : Z; Stdout : string; Stderr : string;
  DurationMs : Z; FinishedAt : time; ClaimEpoch : Z;
}.

End TaskResult.

(** [models.Schedule]. *)
Module Schedule.
Record t := mk {
  ID : string; TenantID : string; Name : string; CronExpr : string; TaskType : string;
  Command : string; Content : string; Path : string; AgentID : string; Enabled : bool;
  LastFiredAt : time; CreatedAt : time; UpdatedAt : time;
}.

Definition set_CreatedAt (v : time) (r : t) : t :=
  mk (ID r) (TenantID r) (Name r) (CronExpr r) (TaskType r) (Command r) (Content r) (Path r)
     (AgentID r) (Enabled r) (LastFiredAt r) v (UpdatedAt r).
Definition set_UpdatedAt (v : time) (r : t) : t :=
  mk (ID r) (TenantID r) (Name r) (CronExpr r) (TaskType r) (Command r) (Content r) (Path r)
     (AgentID r) (Enabled r) (LastFiredAt r) (CreatedAt r) v.
End Schedule.

(** [models.BatchTask]. *)
Module BatchTask.
Record t := mk {
  BatchID : string; TenantID : string; Name : string; TotalCount : Z; SuccessCount : Z;
  FailedCount : Z; PendingCount : Z; Status : string; CreatedAt : time;
}.

Definition set_CreatedAt (v : time) (r : t) : t :=
  mk (BatchID r) (TenantID r) (Name r) (TotalCount r) (SuccessCount r) (FailedCount r)
     (PendingCount r) (Status r) v.
End BatchTask.

(** [models.LogLine]. *)
Module LogLine.
Record t := mk {
  Timestamp : time; Level : string; Message : string;
}.

End LogLine.

(** [models.BatchTaskItem]. *)
Module BatchTaskItem.
Record t := mk {
  DeviceID : string; TaskID : string; Status : string; Error : string;
}.

Definition set_Status (v : string) (r : t) : t :=
  mk (DeviceID r) (TaskID r) v (Error r).
End BatchTaskItem.

(** [models.CanaryPhase]. *)
Module CanaryPhase.
Record t := mk {
  Phase : Z; DeviceIDs : list string; Status : string; Tasks : list BatchTaskItem.t;
  StartedAt : time; FinishedAt : time;
}.

Definition set_Tasks (v : list BatchTaskItem.t) (r : t) : t :=
  mk (Phase r) (DeviceIDs r) (Status r) v (StartedAt r) (FinishedAt r).
End CanaryPhase.

(** [models.CanaryRelease]. *)
Module CanaryRelease.
Record t := mk {
  CanaryID : string; TenantID : string; TaskType : string; Command : string; Strategy : string;
  Percentage : Z; Groups : list string; Labels : gmap string string; CreatedAt : time;
  CreatedBy : string; Phases : list CanaryPhase.t;
}.

Definition set_CreatedAt (v : time) (r : t) : t :=
  mk (CanaryID r) (TenantID r) (TaskType r) (Command r) (Strategy r) (Percentage r) (Groups r)
     (Labels r) v (CreatedBy r) (Phases r).
Definition set_Phases (v : list CanaryPhase.t) (r : t) : t :=
  mk (CanaryID r) (TenantID r) (TaskType r) (Command r) (Strategy r) (Percentage r) (Groups r)
     (Labels r) (CreatedAt r) (CreatedBy r) v.
End CanaryRelease.

(** ** Commands ([validate.go]) *)

Definition maxCommandLen : Z := 4096.

Inductive command_error :=
  | EmptyCommand | TooLong | Newline | Carriage | Separator | Substitution | Backtick | Pipe | Background.

Definition nl : string := String "010" "".
Definition cr : string := String "013" "".

(** The reason to refuse a command, if there is one. *)
Definition ValidateCommand (command : string) : option command_error :=
  if command == "" then Some EmptyCommand
  else if (Z.of_nat (String.length command) >? maxCommandLen)%Z then Some TooLong
  else if Contains nl command then Some Newline
  else if Contains cr command then Some Carriage
  else if Contains ";" command then Some Separator
  else if Contains "$(" command then Some Substitution
  else if Contains "`" command then Some Backtick
  else if Contains "|" command then Some Pipe
  else if Contains "&" (ReplaceAll "&&" "" (ReplaceAll "&>" "" (ReplaceAll ">&" "" command))) then Some Background
  else None.

(** ** The store in memory ([store.go]) *)

Inductive store_error := ErrTaskNotFound | ErrClaimEpochMismatch | ErrScheduleNotFound.

Module TaskStore.
Record t := mk {
  tasks : gmap string Task.t; results : gmap string TaskResult.t; logs : gmap string (list LogLine.t);
  schedules : gmap string Schedule.t; batches : gmap string BatchTask.t; batchTask : gmap string (list string);
  canaries : gmap string CanaryRelease.t }.
Definition NewMemoryStore : t := mk ∅ ∅ ∅ ∅ ∅ ∅ ∅.

Definition set_tasks v s := mk v (results s) (logs s) (schedules s) (batches s) (batchTask s) (canaries s).
Definition set_results v s := mk (tasks s) v (logs s) (schedules s) (batches s) (batchTask s) (canaries s).
Definition set_logs v s := mk (tasks s) (results s) v (schedules s) (batches s) (batchTask s) (canaries s).
Definition set_schedules v s := mk (tasks s) (results s) (logs s) v (batches s) (batchTask s) (canaries s).
Definition set_batches v s := mk (tasks s) (results s) (logs s) (schedules s) v (batchTask s) (canaries s).
Definition set_batchTask v s := mk (tasks s) (results s) (logs s) (schedules s) (batches s) v (canaries s).
Definition set_canaries v s := mk (tasks s) (results s) (logs s) (schedules s) (batches s) (batchTask s) v.

(** The orders in which the maps are visited. *)
Record ranges := { of_tasks : gmap string Task.t -> list Task.t; of_results : gmap string TaskResult.t -> list TaskResult.t;
  of_schedules : gmap string Schedule.t -> list Schedule.t; of_batches : gmap string BatchTask.t -> list BatchTask.t;
  of_canaries : gmap string CanaryRelease.t -> list CanaryRelease.t }.

(** A loop that stops when it has collected [limit] of the elements. *)
Definition first_of {A} (limit : Z) (l : list A) : list A := if (limit >? 0)%Z then take (Z.to_nat limit) l else l.
(** A condition that applies when it is given. *)
Definition fits (want have : string) : bool := (want == "") || (have == want).

(** *** Tasks *)

Definition CreateTask (now : time) (task : Task.t) (s : t) : t * Task.t :=
  let task := if IsZero (Task.CreatedAt task) then Task.set_CreatedAt now task else task in
  let task := if Task.Status task == "" then Task.set_Status TaskStatusPending task else task in
  (set_tasks (<[Task.TaskID task := task]> (tasks s)) s, task).

Definition GetTask (id : string) (s : t) : option Task.t := tasks s !! id.
Definition GetTaskStatus := GetTask.

Definition ListTasks (r : ranges) (tenantID status agentID : string) (limit : Z) (s : t) : list Task.t :=
  first_of limit (List.filter (fun x => fits tenantID (Task.TenantID x) && fits status (Task.Status x) && fits agentID (Task.AgentID x))
    (of_tasks r (tasks s))).

Definition claimable (agentID : string) (x : Task.t) : bool := (Task.Status x == TaskStatusPending) && (Task.AgentID x == agentID).
Definition claimed (now : time) (agentID : string) (x : Task.t) : Task.t :=
  Task.set_ClaimEpoch (wrap_i64 (Task.ClaimEpoch x + 1)) (Task.set_ClaimedAt now (Task.set_ClaimedBy agentID (Task.set_Status TaskStatusClaimed x))).
Definition ClaimTask (r : ranges) (now : time) (agentID : string) (s : t) : t * option Task.t :=
  match List.find (claimable agentID) (of_tasks r (tasks s)) with
  | None => (s, None)
  | Some x => let x := claimed now agentID x in (set_tasks (<[Task.TaskID x := x]> (tasks s)) s, Some x)
  end.

(** A task after a report. *)
Definition reported (exitCode : Z) (x : Task.t) : Task.t :=
  if (exitCode =? 0)%Z then Task.set_Status TaskStatusDone x
  else
    let x := Task.set_RetryCount (wrap_i64 (Task.RetryCount x + 1)) x in
    if (Task.RetryCount x >=? Task.MaxRetries x)%Z then Task.set_DeadLetter true (Task.set_Status TaskStatusFailed x)
    else Task.set_ClaimedAt zero_time (Task.set_ClaimedBy "" (Task.set_Status TaskStatusPending x)).
Definition ReportResult (res : TaskResult.t) (s : t) : t * option store_error :=
  match tasks s !! TaskResult.TaskID res with
  | None => (s, Some ErrTaskNotFound)
  | Some x =>
      if (negb (TaskResult.ClaimEpoch res =? 0) && negb (TaskResult.ClaimEpoch res =? Task.ClaimEpoch x))%Z then (s, Some ErrClaimEpochMismatch)
      else (set_results (<[TaskResult.TaskID res := res]> (results s))
              (set_tasks (<[TaskResult.TaskID res := reported (TaskResult.ExitCode res) x]> (tasks s)) s), None)
  end.

(** A change of a task of the tenant in a state that admits it. *)
Definition change_task (id tenantID : string) (admits : Task.t -> bool) (f : Task.t -> Task.t) (s : t) : t * bool :=
  match tasks s !! id with
  | None => (s, false)
  | Some x =>
      if (tenantID != "") && (Task.TenantID x != tenantID) then (s, false)
      else if admits x then (set_tasks (<[id := f x]> (tasks s)) s, true) else (s, false)
  end.
Definition CancelTask (id tenantID : string) : t -> t * bool :=
  change_task id tenantID (fun x => negb ((Task.Status x == TaskStatusDone) || (Task.Status x == TaskStatusFailed))) (Task.set_Status TaskStatusCancelled).
Definition decided (now : time) (status by_ : string) (x : Task.t) : Task.t :=
  Task.set_ApprovedAt now (Task.set_ApprovedBy by_ (Task.set_Status status x)).
Definition awaits_approval (x : Task.t) : bool := Task.Status x == TaskStatusPendingApproval.
Definition ApproveTask (now : time) (id tenantID by_ : string) : t -> t * bool := change_task id tenantID awaits_approval (decided now TaskStatusPending by_).
Definition RejectTask (now : time) (id tenantID by_ : string) : t -> t * bool := change_task id tenantID awaits_approval (decided now TaskStatusRejected by_).

Definition AllTasks (r : ranges) (s : t) : list Task.t := of_tasks r (tasks s).
Definition UpdateTask (task : option Task.t) (s : t) : t * bool :=
  match task with
  | None => (s, false)
  | Some x =>
      if Task.TaskID x == "" then (s, false) else
      match tasks s !! Task.TaskID x with
      | None => (s, false)
      | Some _ => (set_tasks (<[Task.TaskID x := x]> (tasks s)) s, true)
      end
  end.

(** *** Schedules *)

Definition CreateSchedule (now : time) (x : Schedule.t) (s : t) : t * Schedule.t :=
  let x := if IsZero (Schedule.CreatedAt x) then Schedule.set_CreatedAt now x else x in
  let x := if IsZero (Schedule.UpdatedAt x) then Schedule.set_UpdatedAt now x else x in
  (set_schedules (<[Schedule.ID x := x]> (schedules s)) s, x).
Definition GetSchedule (id : string) (s : t) : option Schedule.t := schedules s !! id.
Definition UpdateSchedule (now : time) (x : Schedule.t) (s : t) : t * result store_error Schedule.t :=
  match schedules s !! Schedule.ID x with
  | None => (s, Err ErrScheduleNotFound)
  | Some _ => let x := Schedule.set_UpdatedAt now x in (set_schedules (<[Schedule.ID x := x]> (schedules s)) s, Ok x)
  end.
Definition DeleteSchedule (id : string) (s : t) : t * bool :=
  match schedules s !! id with None => (s, false) | Some _ => (set_schedules (delete id (schedules s)) s, true) end.
Definition ListSchedules (r : ranges) (tenantID : string) (s : t) : list Schedule.t :=
  List.filter (fun x => fits tenantID (Schedule.TenantID x)) (of_schedules r (schedules s)).

(** *** Results and logs *)

Definition SaveResult (res : TaskResult.t) (s : t) : t := set_results (<[TaskResult.TaskID res := res]> (results s)) s.
Definition GetTaskResult (id : string) (s : t) : option TaskResult.t := results s !! id.
(** The tenant is not looked at: a result does not say whose it is. *)
Definition ListTaskResults (r : ranges) (tenantID agentID : string) (limit : Z) (s : t) : list TaskResult.t :=
  first_of limit (List.filter (fun x => fits agentID (TaskResult.AgentID x)) (of_results r (results s))).
Definition SaveLogs (id : string) (l : list LogLine.t) (s : t) : t := set_logs (<[id := l]> (logs s)) s.
Definition GetTaskLogs (id : string) (s : t) : list LogLine.t := default [] (logs s !! id).

(** *** Batches *)

Definition CreateBatch (now : time) (b : BatchTask.t) (s : t) : t * BatchTask.t :=
  let b := if IsZero (BatchTask.CreatedAt b) then BatchTask.set_CreatedAt now b else b in
  (set_batches (<[BatchTask.BatchID b := b]> (batches s)) s, b).
Definition GetBatch (id : string) (s : t) : option BatchTask.t := batches s !! id.
Definition UpdateBatch (b : BatchTask.t) (s : t) : t := set_batches (<[BatchTask.BatchID b := b]> (batches s)) s.
Definition ListBatches (r : ranges) (tenantID : string) (s : t) : list BatchTask.t :=
  List.filter (fun x => fits tenantID (BatchTask.TenantID x)) (of_batches r (batches s)).
Definition AddTaskToBatch (batchID taskID : string) (s : t) : t :=
  set_batchTask (<[batchID := default [] (batchTask s !! batchID) ++ [taskID]]> (batchTask s)) s.
Definition GetBatchTasks (batchID : string) (s : t) : list string := default [] (batchTask s !! batchID).

(** *** Staged releases *)

Definition CreateCanary (now : time) (c : CanaryRelease.t) (s : t) : t * CanaryRelease.t :=
  let c := if IsZero (CanaryRelease.CreatedAt c) then CanaryRelease.set_CreatedAt now c else c in
  (set_canaries (<[CanaryRelease.CanaryID c := c]> (canaries s)) s, c).
Definition GetCanary (id : string) (s : t) : option CanaryRelease.t := canaries s !! id.
Definition UpdateCanary (c : CanaryRelease.t) (s : t) : t := set_canaries (<[CanaryRelease.CanaryID c := c]> (canaries s)) s.
Definition ListCanaries (r : ranges) (tenantID : string) (s : t) : list CanaryRelease.t :=
  List.filter (fun x => fits tenantID (CanaryRelease.TenantID x)) (of_canaries r (canaries s)).
End TaskStore.
