(* ===== verification/TaskService.v ===== *)
(** * The task service: operations ([services/task-svc/internal/service/service.go])

    The operations of the service on its store, behind the circuit breaker where the
    source puts it there, with the messages of the protocol and what is emitted for
    audits and events.  Stores in memory do not fail. *)

From Stdlib Require Import Ascii.
From S2P Require Import GoStrings Prelude Breaker TaskSvc.
Open Scope go_scope.

(** ** Messages *)

(** [taskv1.Task], the message of the protocol; a time stamp may be absent. *)
Module PTask.
Record t := mk {
  TaskId : string; AgentId : string; TenantId : string; Type_ : string; Command : string;
  Content : string; Path : string; Status : string; ClaimedBy : string; ClaimedAt : option time;
  ClaimEpoch : Z; CreatedAt : option time; RetryCount : Z; MaxRetries : Z; DeadLetter : bool;
  Timeout : Z; RetryDelay : Z; Schedule : string; ParentId : string; DependsOn : list string;
  ApprovalRequired : bool; ApprovedBy : string; ApprovedAt : option time; BatchId : string;
}.

Definition set_TaskId (v : string) (r : t) : t :=
  mk v (AgentId r) (TenantId r) (Type_ r) (Command r) (Content r) (Path r) (Status r)
     (ClaimedBy r) (ClaimedAt r) (ClaimEpoch r) (CreatedAt r) (RetryCount r) (MaxRetries r)
     (DeadLetter r) (Timeout r) (RetryDelay r) (Schedule r) (ParentId r) (DependsOn r)
     (ApprovalRequired r) (ApprovedBy r) (ApprovedAt r) (BatchId r).
Definition set_Type_ (v : string) (r : t) : t :=
  mk (TaskId r) (AgentId r) (TenantId r) v (Command r) (Content r) (Path r) (Status r)
     (ClaimedBy r) (ClaimedAt r) (ClaimEpoch r) (CreatedAt r) (RetryCount r) (MaxRetries r)
     (DeadLetter r) (Timeout r) (RetryDelay r) (Schedule r) (ParentId r) (DependsOn r)
     (ApprovalRequired r) (ApprovedBy r) (ApprovedAt r) (BatchId r).
Definition set_Status (v : string) (r : t) : t :=
  mk (TaskId r) (AgentId r) (TenantId r) (Type_ r) (Command r) (Content r) (Path r) v
     (ClaimedBy r) (ClaimedAt r) (ClaimEpoch r) (CreatedAt r) (RetryCount r) (MaxRetries r)
     (DeadLetter r) (Timeout r) (RetryDelay r) (Schedule r) (ParentId r) (DependsOn r)
     (ApprovalRequired r) (ApprovedBy r) (ApprovedAt r) (BatchId r).
Definition set_CreatedAt (v : option time) (r : t) : t :=
  mk (TaskId r) (AgentId r) (TenantId r) (Type_ r) (Command r) (Content r) (Path r) (Status r)
     (ClaimedBy r) (ClaimedAt r) (ClaimEpoch r) v (RetryCount r) (MaxRetries r) (DeadLetter r)
     (Timeout r) (RetryDelay r) (Schedule r) (ParentId r) (DependsOn r) (ApprovalRequired r)
     (ApprovedBy r) (ApprovedAt r) (BatchId r).
Definition set_MaxRetries (v : Z) (r : t) : t :=
  mk (TaskId r) (AgentId r) (TenantId r) (Type_ r) (Command r) (Content r) (Path r) (Status r)
     (ClaimedBy r) (ClaimedAt r) (ClaimEpoch r) (CreatedAt r) (RetryCount r) v (DeadLetter r)
     (Timeout r) (RetryDelay r) (Schedule r) (ParentId r) (DependsOn r) (ApprovalRequired r)
     (ApprovedBy r) (ApprovedAt r) (BatchId r).
End PTask.

(** [taskv1.TaskResult]. *)
Module PResult.
Record t := mk {
  TaskId : string; AgentId : string; ExitCode : Z; Stdout : string; Stderr : string;
  DurationMs : Z; FinishedAt : option time; ClaimEpoch : Z;
}.

Definition set_FinishedAt (v : option time) (r : t) : t :=
  mk (TaskId r) (AgentId r) (ExitCode r) (Stdout r) (Stderr r) (DurationMs r) v (ClaimEpoch r).
End PResult.

(** [taskv1.Schedule]. *)
Module PSchedule.
Record t := mk {
  Id : string; TenantId : string; Name : string; CronExpr : string; TaskType : string;
  Command : string; Content : string; Path : string; AgentId : string; Enabled : bool;
  LastFiredAt : option time; CreatedAt : option time; UpdatedAt : option time;
}.

Definition set_Id (v : string) (r : t) : t :=
  mk v (TenantId r) (Name r) (CronExpr r) (TaskType r) (Command r) (Content r) (Path r)
     (AgentId r) (Enabled r) (LastFiredAt r) (CreatedAt r) (UpdatedAt r).
Definition set_Enabled (v : bool) (r : t) : t :=
  mk (Id r) (TenantId r) (Name r) (CronExpr r) (TaskType r) (Command r) (Content r) (Path r)
     (AgentId r) v (LastFiredAt r) (CreatedAt r) (UpdatedAt r).
Definition set_CreatedAt (v : option time) (r : t) : t :=
  mk (Id r) (TenantId r) (Name r) (CronExpr r) (TaskType r) (Command r) (Content r) (Path r)
     (AgentId r) (Enabled r) (LastFiredAt r) v (UpdatedAt r).
Definition set_UpdatedAt (v : option time) (r : t) : t :=
  mk (Id r) (TenantId r) (Name r) (CronExpr r) (TaskType r) (Command r) (Content r) (Path r)
     (AgentId r) (Enabled r) (LastFiredAt r) (CreatedAt r) v.
End PSchedule.

(** [taskv1.BatchTask]. *)
Module PBatch.
Record t := mk {
  BatchId : string; TenantId : string; Name : string; TotalCount : Z; SuccessCount : Z;
  FailedCount : Z; PendingCount : Z; Status : string; CreatedAt : option time;
}.

End PBatch.

(** The width of integers in messages. *)
Definition wrap_i32 (z : Z) : Z := ((z + 2 ^ 31) `mod` 2 ^ 32 - 2 ^ 31)%Z.

(** [AsTime]: an absent time stamp reads as the start of 1970. *)
Definition unix_epoch : time := (62135596800 * second)%Z.
Definition AsTime (t : option time) : time := default unix_epoch t.

Definition protoToTask (x : PTask.t) : Task.t :=
  Task.mk (PTask.TaskId x) (PTask.AgentId x) (PTask.TenantId x) (PTask.Type_ x) (PTask.Command x) (PTask.Content x) (PTask.Path x) (PTask.Status x)
    (PTask.ClaimedBy x) (AsTime (PTask.ClaimedAt x)) (PTask.ClaimEpoch x) (AsTime (PTask.CreatedAt x)) (PTask.RetryCount x) (PTask.MaxRetries x)
    (PTask.DeadLetter x) (PTask.Timeout x) (PTask.RetryDelay x) (PTask.Schedule x) zero_time (PTask.ParentId x) (PTask.DependsOn x)
    (PTask.ApprovalRequired x) (PTask.ApprovedBy x) (AsTime (PTask.ApprovedAt x)) (PTask.BatchId x) 0 "" "".
Definition taskToProto (x : Task.t) : PTask.t :=
  PTask.mk (Task.TaskID x) (Task.AgentID x) (Task.TenantID x) (Task.Type_ x) (Task.Command x) (Task.Content x) (Task.Path x) (Task.Status x)
    (Task.ClaimedBy x) (Some (Task.ClaimedAt x)) (Task.ClaimEpoch x) (Some (Task.CreatedAt x)) (wrap_i32 (Task.RetryCount x)) (wrap_i32 (Task.MaxRetries x))
    (Task.DeadLetter x) (wrap_i32 (Task.Timeout x)) (wrap_i32 (Task.RetryDelay x)) (Task.Schedule x) (Task.ParentID x) (Task.DependsOn x)
    (Task.ApprovalRequired x) (Task.ApprovedBy x) (Some (Task.ApprovedAt x)) (Task.BatchID x).
Definition protoToResult (r : PResult.t) : TaskResult.t :=
  TaskResult.mk (PResult.TaskId r) (PResult.AgentId r) (PResult.ExitCode r) (PResult.Stdout r) (PResult.Stderr r) (PResult.DurationMs r)
    (AsTime (PResult.FinishedAt r)) (PResult.ClaimEpoch r).
Definition resultToProto (r : TaskResult.t) : PResult.t :=
  PResult.mk (TaskResult.TaskID r) (TaskResult.AgentID r) (wrap_i32 (TaskResult.ExitCode r)) (TaskResult.Stdout r) (TaskResult.Stderr r)
    (TaskResult.DurationMs r) (Some (TaskResult.FinishedAt r)) (TaskResult.ClaimEpoch r).
Definition protoToSchedule (x : PSchedule.t) : Schedule.t :=
  Schedule.mk (PSchedule.Id x) (PSchedule.TenantId x) (PSchedule.Name x) (PSchedule.CronExpr x) (PSchedule.TaskType x) (PSchedule.Command x)
    (PSchedule.Content x) (PSchedule.Path x) (PSchedule.AgentId x) (PSchedule.Enabled x) (AsTime (PSchedule.LastFiredAt x))
    (AsTime (PSchedule.CreatedAt x)) (AsTime (PSchedule.UpdatedAt x)).
Definition scheduleToProto (x : Schedule.t) : PSchedule.t :=
  PSchedule.mk (Schedule.ID x) (Schedule.TenantID x) (Schedule.Name x) (Schedule.CronExpr x) (Schedule.TaskType x) (Schedule.Command x)
    (Schedule.Content x) (Schedule.Path x) (Schedule.AgentID x) (Schedule.Enabled x) (Some (Schedule.LastFiredAt x))
    (Some (Schedule.CreatedAt x)) (Some (Schedule.UpdatedAt x)).
Definition batchToProto (b : BatchTask.t) : PBatch.t :=
  PBatch.mk (BatchTask.BatchID b) (BatchTask.TenantID b) (BatchTask.Name b) (wrap_i32 (BatchTask.TotalCount b)) (wrap_i32 (BatchTask.SuccessCount b))
    (wrap_i32 (BatchTask.FailedCount b)) (wrap_i32 (BatchTask.PendingCount b)) (BatchTask.Status b) (Some (BatchTask.CreatedAt b)).

(** ** The service *)

Inductive task_error :=
  | TaskNotFound | TaskInvalid (why : option command_error) | EpochMismatch | ScheduleNotFound | BatchNotFound | ResultNotFound
  | CanaryNotFound | CanaryStoreNotAvailable | CanaryNoPendingPhase
  | BreakerOpen | StoreTaskNotFound (** the error of the store, which is another value than [TaskNotFound] *).

Definition LevelInfo : string := "info".
Definition LevelWarn : string := "warn".

Module TaskService.
(** What [emitAudit] hands to the audit log, to the event bus and, with data, to
    the clients that listen. *)
Record emission := Emission {
  e_tenant : string; e_user : string; e_action : string; e_target : string; e_detail : string; e_level : string; e_data : option (list (string * string)) }.

Record t := mk { store : TaskStore.t; canaryStore : bool; breaker : option Circuit.t; emitted : list emission }.
Definition NewService (st : TaskStore.t) : t := mk st false None [].
Definition SetCircuitBreaker (b : Circuit.t) (s : t) : t := mk (store s) (canaryStore s) (Some b) (emitted s).
Definition SetCanaryStore (s : t) : t := mk (store s) true (breaker s) (emitted s).
Definition set_store (st : TaskStore.t) (s : t) : t := mk st (canaryStore s) (breaker s) (emitted s).
Definition set_breaker (b : Circuit.t) (s : t) : t := mk (store s) (canaryStore s) (Some b) (emitted s).
Definition emitAudit (tenant user action target detail level : string) (data : list (string * string)) (s : t) : t :=
  mk (store s) (canaryStore s) (breaker s) (emitted s ++ [Emission tenant user action target detail level (Some data)]).

Definition mk_error (e : store_error) : task_error :=
  match e with ErrClaimEpochMismatch => EpochMismatch | ErrTaskNotFound => StoreTaskNotFound | ErrScheduleNotFound => ScheduleNotFound end.

(** *** Tasks *)

(** What [CreateTask] fills in. *)
Definition completed (uuid : string) (now : time) (x : PTask.t) : PTask.t :=
  let x := if PTask.TaskId x == "" then PTask.set_TaskId uuid x else x in
  let x := if PTask.Type_ x == "" then PTask.set_Type_ TaskTypeShell x else x in
  let x := if (PTask.MaxRetries x =? 0)%Z then PTask.set_MaxRetries 3 x else x in
  let x := PTask.set_Status (if PTask.ApprovalRequired x then TaskStatusPendingApproval else TaskStatusPending) x in
  PTask.set_CreatedAt (Some now) x.

Definition CreateTask (uuid : string) (now : time) (req : option PTask.t) (s : t) : t * result task_error PTask.t :=
  match req with
  | None => (s, Err (TaskInvalid None))
  | Some x =>
      match ValidateCommand (PTask.Command x) with
      | Some e => (s, Err (TaskInvalid (Some e)))
      | None =>
          let x := completed uuid now x in
          let s := set_store (TaskStore.CreateTask now (protoToTask x) (store s)).1 s in
          (emitAudit (PTask.TenantId x) "" "create_task" (PTask.TaskId x) (PTask.Command x) LevelInfo
             [("taskID", PTask.TaskId x); ("status", PTask.Status x); ("agentID", PTask.AgentId x)] s, Ok x)
      end
  end.

Definition GetTask (id : string) (s : t) : result task_error PTask.t :=
  match TaskStore.GetTask id (store s) with None => Err TaskNotFound | Some x => Ok (taskToProto x) end.
Definition ListTasks r (tenantID status agentID : string) (limit : Z) (s : t) : list PTask.t :=
  map taskToProto (TaskStore.ListTasks r tenantID status agentID limit (store s)).

Definition announce_claim (agentID : string) (x : Task.t) (s : t) : t :=
  emitAudit (Task.TenantID x) agentID "claim_task" (Task.TaskID x) "claimed by agent" LevelInfo
    [("taskID", Task.TaskID x); ("status", Task.Status x); ("agentID", agentID)] s.
Definition ClaimTask r (now : time) (agentID : string) (s : t) : t * result task_error PTask.t :=
  if agentID == "" then (s, Err (TaskInvalid None)) else
  match breaker s with
  | None =>
      match TaskStore.ClaimTask r now agentID (store s) with
      | (_, None) => (s, Err TaskNotFound)
      | (st, Some x) => (announce_claim agentID x (set_store st s), Ok (taskToProto x))
      end
  | Some b =>
      match Circuit.allow now b with
      | (b, false) => (set_breaker b s, Err BreakerOpen)
      | (b, true) =>
          match TaskStore.ClaimTask r now agentID (store s) with
          | (_, None) => (set_breaker (Circuit.recordResult now false b) s, Err TaskNotFound)
          | (st, Some x) => (announce_claim agentID x (set_breaker (Circuit.recordResult now true b) (set_store st s)), Ok (taskToProto x))
          end
      end
  end.

(** What a report leaves in the store, or the error. *)
Definition store_report (res : PResult.t) (st : TaskStore.t) : TaskStore.t * option store_error :=
  match TaskStore.ReportResult (protoToResult res) st with
  | (_, Some e) => (st, Some e)
  | (st, None) =>
      let st := TaskStore.SaveResult (protoToResult res) st in
      (if PResult.TaskId res != "" then TaskStore.SaveLogs (PResult.TaskId res) [] st else st, None)
  end.
Definition announce_report (res : PResult.t) (s : t) : t :=
  let ok := (PResult.ExitCode res =? 0)%Z in
  let '(status, dead) := match TaskStore.GetTask (PResult.TaskId res) (store s) with Some x => (Task.Status x, Task.DeadLetter x) | None => ("", false) end in
  emitAudit "" (PResult.AgentId res) (if ok then "report_result" else "fail_task") (PResult.TaskId res) ("exit=" +:+ itoa (PResult.ExitCode res))
    (if ok then LevelInfo else LevelWarn)
    [("taskID", PResult.TaskId res); ("status", status); ("agentID", PResult.AgentId res); ("exitCode", itoa (PResult.ExitCode res));
     ("deadLetter", if dead then "true" else "false")] s.
Definition ReportResult (now : time) (req : option PResult.t) (s : t) : t * result task_error PResult.t :=
  match req with
  | None => (s, Err (TaskInvalid None))
  | Some res =>
      let res := match PResult.FinishedAt res with None => PResult.set_FinishedAt (Some now) res | Some _ => res end in
      match breaker s with
      | None =>
          match store_report res (store s) with
          | (_, Some e) => (s, Err (mk_error e))
          | (st, None) => (announce_report res (set_store st s), Ok res)
          end
      | Some b =>
          match Circuit.allow now b with
          | (b, false) => (set_breaker b s, Err BreakerOpen)
          | (b, true) =>
              match store_report res (store s) with
              | (_, Some ErrClaimEpochMismatch) => (announce_report res (set_breaker (Circuit.recordResult now true b) s), Ok res)
              | (_, Some e) => (set_breaker (Circuit.recordResult now false b) s, Err (mk_error e))
              | (st, None) => (announce_report res (set_breaker (Circuit.recordResult now true b) (set_store st s)), Ok res)
              end
          end
      end
  end.

Definition CancelTask (id tenantID : string) (s : t) : t * option task_error :=
  if id == "" then (s, Some (TaskInvalid None)) else
  match TaskStore.CancelTask id tenantID (store s) with
  | (_, false) => (s, Some TaskNotFound)
  | (st, true) =>
      (emitAudit tenantID "" "cancel_task" id "task cancelled" LevelInfo [("taskID", id); ("status", TaskStatusCancelled)] (set_store st s), None)
  end.

(** The task after a decision that the store has taken. *)
Definition decide_task (id : string) (r : TaskStore.t * bool) (s : t) : t * result task_error PTask.t :=
  if id == "" then (s, Err (TaskInvalid None)) else
  match r with
  | (_, false) => (s, Err TaskNotFound)
  | (st, true) => (set_store st s, GetTask id (set_store st s))
  end.
Definition ApproveTask (now : time) (id tenantID by_ : string) (s : t) : t * result task_error PTask.t :=
  decide_task id (TaskStore.ApproveTask now id tenantID by_ (store s)) s.
Definition RejectTask (now : time) (id tenantID by_ : string) (s : t) : t * result task_error PTask.t :=
  decide_task id (TaskStore.RejectTask now id tenantID by_ (store s)) s.

(** Status, holder, epoch, retries and whether the task is dead. *)
Definition GetTaskStatus (id : string) (s : t) : result task_error (string * string * Z * Z * bool) :=
  match TaskStore.GetTaskStatus id (store s) with
  | None => Err TaskNotFound
  | Some x => Ok (Task.Status x, Task.ClaimedBy x, Task.ClaimEpoch x, wrap_i32 (Task.RetryCount x), Task.DeadLetter x)
  end.

(** *** Schedules *)

Definition CreateSchedule (uuid : string) (now : time) (req : option PSchedule.t) (s : t) : t * result task_error PSchedule.t :=
  match req with
  | None => (s, Err (TaskInvalid None))
  | Some x =>
      let x := if PSchedule.Id x == "" then PSchedule.set_Id uuid x else x in
      let x := PSchedule.set_UpdatedAt (Some now) (PSchedule.set_CreatedAt (Some now) x) in
      (set_store (TaskStore.CreateSchedule now (protoToSchedule x) (store s)).1 s, Ok x)
  end.
Definition GetSchedule (id : string) (s : t) : result task_error PSchedule.t :=
  match TaskStore.GetSchedule id (store s) with None => Err ScheduleNotFound | Some x => Ok (scheduleToProto x) end.
Definition UpdateSchedule (now : time) (req : option PSchedule.t) (s : t) : t * result task_error PSchedule.t :=
  match req with
  | None => (s, Err (TaskInvalid None))
  | Some x =>
      match TaskStore.UpdateSchedule now (protoToSchedule x) (store s) with
      | (_, Err e) => (s, Err (mk_error e))
      | (st, Ok y) => (set_store st s, Ok (scheduleToProto y))
      end
  end.
Definition DeleteSchedule (id : string) (s : t) : t * option task_error :=
  match TaskStore.DeleteSchedule id (store s) with (_, false) => (s, Some ScheduleNotFound) | (st, true) => (set_store st s, None) end.
Definition ListSchedules r (tenantID : string) (s : t) : list PSchedule.t := map scheduleToProto (TaskStore.ListSchedules r tenantID (store s)).

(** *** Results *)

Definition GetTaskResult (id : string) (s : t) : result task_error PResult.t :=
  match TaskStore.GetTaskResult id (store s) with None => Err ResultNotFound | Some r => Ok (resultToProto r) end.
Definition ListTaskResults r (tenantID agentID : string) (limit : Z) (s : t) : list PResult.t :=
  map resultToProto (TaskStore.ListTaskResults r tenantID agentID limit (store s)).
Definition GetTaskLogs (id : string) (s : t) : list LogLine.t := TaskStore.GetTaskLogs id (store s).

(** *** Batches *)

Module BatchRequest.
Record t := mk { Name : string; TenantId : string; Type_ : string; Command : string; Content : string; Path : string; AgentId : string; AgentIds : list string }.
End BatchRequest.

Definition batch_task (batchID uuid : string) (req : BatchRequest.t) (agentID : string) : PTask.t :=
  PTask.mk uuid agentID (BatchRequest.TenantId req) (if BatchRequest.Type_ req == "" then TaskTypeShell else BatchRequest.Type_ req)
    (BatchRequest.Command req) (BatchRequest.Content req) (BatchRequest.Path req) TaskStatusPending "" None 0 None 0 0 false 0 0 "" "" [] false "" None batchID.

(** [uuids] draws one identifier per agent. *)
Fixpoint add_batch_tasks (now : time) (batchID : string) (uuids : nat -> string) (req : BatchRequest.t) (agents : list string) (st : TaskStore.t) : TaskStore.t :=
  match agents with
  | [] => st
  | a :: agents =>
      let st := (TaskStore.CreateTask now (protoToTask (batch_task batchID (uuids 0) req a)) st).1 in
      add_batch_tasks now batchID (fun n => uuids (S n)) req agents (TaskStore.AddTaskToBatch batchID (uuids 0) st)
  end.
Definition CreateBatchTask (batchID : string) (uuids : nat -> string) (now : time) (req : BatchRequest.t) (s : t) : t * result task_error PBatch.t :=
  if BatchRequest.Name req == "" then (s, Err (TaskInvalid None)) else
  let agents := if BatchRequest.AgentIds req == [] then [BatchRequest.AgentId req] else BatchRequest.AgentIds req in
  let n := Z.of_nat (length agents) in
  let batch := BatchTask.mk batchID (BatchRequest.TenantId req) (BatchRequest.Name req) n 0 0 n BatchStatusPending now in
  (set_store (add_batch_tasks now batchID uuids req agents (TaskStore.CreateBatch now batch (store s)).1) s, Ok (batchToProto batch)).

Definition GetBatchStatus (id : string) (s : t) : result task_error (PBatch.t * list PTask.t) :=
  match TaskStore.GetBatch id (store s) with
  | None => Err BatchNotFound
  | Some b => Ok (batchToProto b, map taskToProto (omap (fun id => TaskStore.GetTask id (store s)) (TaskStore.GetBatchTasks id (store s))))
  end.
Definition ListBatchTasks r (tenantID : string) (s : t) : list PBatch.t := map batchToProto (TaskStore.ListBatches r tenantID (store s)).

(** *** Staged releases *)

Module CanaryCreateRequest.
Record t := mk { DeviceIDs : list string; TaskType : string; Command : string; Content : string; Path : string; Strategy : string; Percentage : Z;
  Groups : list string; Labels : gmap string string; TenantID : string; UserID : string }.
End CanaryCreateRequest.

Definition pending_phase (n : Z) (devices : list string) : CanaryPhase.t := CanaryPhase.mk n devices "pending" [] zero_time zero_time.

(** Pieces [i], [i + 1], ... of a list, of [size] elements each. *)
Fixpoint pieces (size : nat) (n i : nat) (devices : list string) : list CanaryPhase.t :=
  match n with
  | 0 => []
  | S n => pending_phase (Z.of_nat i + 1) (take size (drop (i * size) devices)) :: pieces size n (S i) devices
  end.

Definition planCanaryPhases (devices : list string) (strategy : string) (percentage : Z) (groups : list string) : list CanaryPhase.t :=
  if strategy == "percentage" then
    let percentage := if (percentage <=? 0)%Z then 10%Z else percentage in
    let percentage := if (percentage >? 100)%Z then 100%Z else percentage in
    let n := Z.to_nat (Z.of_nat (length devices) * percentage / 100) in
    let n := if (n <? 1)%nat && (0 <? length devices)%nat then 1 else n in
    pending_phase 1 (take n devices) :: (if (n <? length devices)%nat then [pending_phase 2 (drop n devices)] else [])
  else if strategy == "group" then
    let nGroups := if (length groups =? 0)%nat then 1 else length groups in
    pieces (Nat.div (length devices + nGroups - 1) nGroups) nGroups 0 devices
  else [pending_phase 1 devices].

(** One device of a phase: its task, and the entry for it. *)
Definition canary_task (uuid : string) (devID taskType command content path tenantID : string) : Task.t :=
  Task.mk uuid devID tenantID (if taskType == "" then TaskTypeShell else taskType) command content path TaskStatusPending "" zero_time 0 zero_time 0 3
    false 0 0 "" zero_time "" [] false "" zero_time "" 0 "" "".
Definition exec_device (now : time) (uuid : string) (canaryID : string) (phase : Z) (taskType command content path tenantID userID devID : string) (s : t) :
    t * BatchTaskItem.t :=
  let '(st, created) := TaskStore.CreateTask now (canary_task uuid devID taskType command content path tenantID) (store s) in
  (emitAudit tenantID userID "canary_exec" (Task.TaskID created) ("canary:" +:+ canaryID +:+ ":phase" +:+ itoa phase) LevelInfo
     [("taskID", Task.TaskID created); ("status", Task.Status created); ("agentID", devID)] (set_store st s),
   BatchTaskItem.mk devID (Task.TaskID created) (Task.Status created) "").
Fixpoint exec_devices (now : time) (uuids : nat -> string) (canaryID : string) (phase : Z) (taskType command content path tenantID userID : string)
    (devices : list string) (s : t) : t * list BatchTaskItem.t :=
  match devices with
  | [] => (s, [])
  | d :: devices =>
      let '(s, item) := exec_device now (uuids 0) canaryID phase taskType command content path tenantID userID d s in
      let '(s, items) := exec_devices now (fun n => uuids (S n)) canaryID phase taskType command content path tenantID userID devices s in
      (s, item :: items)
  end.
Definition execCanaryPhase (now : time) (uuids : nat -> string) (canaryID : string) (p : CanaryPhase.t)
    (taskType command content path tenantID userID : string) (s : t) : t * CanaryPhase.t :=
  let '(s, items) := exec_devices now uuids canaryID (CanaryPhase.Phase p) taskType command content path tenantID userID (CanaryPhase.DeviceIDs p) s in
  (s, CanaryPhase.mk (CanaryPhase.Phase p) (CanaryPhase.DeviceIDs p) "running" items now (CanaryPhase.FinishedAt p)).

Definition CreateCanary (canaryID : string) (uuids : nat -> string) (now : time) (req : CanaryCreateRequest.t) (s : t) : t * result task_error CanaryRelease.t :=
  if negb (canaryStore s) then (s, Err CanaryStoreNotAvailable)
  else if (CanaryCreateRequest.DeviceIDs req == []) || (CanaryCreateRequest.Command req == "") then (s, Err (TaskInvalid None))
  else
    let taskType := if CanaryCreateRequest.TaskType req == "" then TaskTypeShell else CanaryCreateRequest.TaskType req in
    match (if taskType == TaskTypeShell then ValidateCommand (CanaryCreateRequest.Command req) else None) with
    | Some e => (s, Err (TaskInvalid (Some e)))
    | None =>
        if negb (bool_decide (CanaryCreateRequest.Strategy req ∈ ["percentage"; "group"; "label"])) then (s, Err (TaskInvalid None)) else
        let phases := planCanaryPhases (CanaryCreateRequest.DeviceIDs req) (CanaryCreateRequest.Strategy req) (CanaryCreateRequest.Percentage req)
                        (CanaryCreateRequest.Groups req) in
        let '(s, phases) :=
          match phases with
          | [] => (s, [])
          | p :: ps =>
              let '(s, p) := execCanaryPhase now uuids canaryID p taskType (CanaryCreateRequest.Command req) (CanaryCreateRequest.Content req)
                               (CanaryCreateRequest.Path req) (CanaryCreateRequest.TenantID req) (CanaryCreateRequest.UserID req) s in
              (s, p :: ps)
          end in
        let c := CanaryRelease.mk canaryID (CanaryCreateRequest.TenantID req) taskType (CanaryCreateRequest.Command req) (CanaryCreateRequest.Strategy req)
                   (CanaryCreateRequest.Percentage req) (CanaryCreateRequest.Groups req) (CanaryCreateRequest.Labels req) now
                   (CanaryCreateRequest.UserID req) phases in
        (set_store (TaskStore.CreateCanary now c (store s)).1 s, Ok c)
    end.

(** The release, if the request may see it. *)
Definition visible_canary (id tenantID : string) (s : t) : result task_error CanaryRelease.t :=
  if negb (canaryStore s) then Err CanaryStoreNotAvailable else
  match TaskStore.GetCanary id (store s) with
  | None => Err CanaryNotFound
  | Some c => if (tenantID != "") && (CanaryRelease.TenantID c != tenantID) then Err CanaryNotFound else Ok c
  end.

Definition refresh_item (st : TaskStore.t) (i : BatchTaskItem.t) : BatchTaskItem.t :=
  if BatchTaskItem.TaskID i == "" then i else
  match TaskStore.GetTask (BatchTaskItem.TaskID i) st with None => i | Some x => BatchTaskItem.set_Status (Task.Status x) i end.
(** The phases that are refreshed are those of the store: the copies share them. *)
Definition GetCanaryStatus (id tenantID : string) (s : t) : t * result task_error CanaryRelease.t :=
  match visible_canary id tenantID s with
  | Err e => (s, Err e)
  | Ok c =>
      let c := CanaryRelease.set_Phases (map (fun p => CanaryPhase.set_Tasks (map (refresh_item (store s)) (CanaryPhase.Tasks p)) p) (CanaryRelease.Phases c)) c in
      (set_store (TaskStore.set_canaries (<[id := c]> (TaskStore.canaries (store s))) (store s)) s, Ok c)
  end.

(** Runs the first phase that is pending. *)
Fixpoint advance_phases (now : time) (uuids : nat -> string) (c : CanaryRelease.t) (userID : string) (ps : list CanaryPhase.t) (s : t) :
    option (t * list CanaryPhase.t) :=
  match ps with
  | [] => None
  | p :: ps =>
      if CanaryPhase.Status p == "pending" then
        let '(s, p) := execCanaryPhase now uuids (CanaryRelease.CanaryID c) p (CanaryRelease.TaskType c) (CanaryRelease.Command c) "" ""
                         (CanaryRelease.TenantID c) userID s in
        Some (s, p :: ps)
      else '(s, ps) ← advance_phases now uuids c userID ps s; Some (s, p :: ps)
  end.
Definition AdvanceCanary (uuids : nat -> string) (now : time) (id tenantID userID : string) (s : t) : t * result task_error CanaryRelease.t :=
  match visible_canary id tenantID s with
  | Err e => (s, Err e)
  | Ok c =>
      match advance_phases now uuids c userID (CanaryRelease.Phases c) s with
      | None => (s, Err CanaryNoPendingPhase)
      | Some (s, ps) => let c := CanaryRelease.set_Phases ps c in (set_store (TaskStore.UpdateCanary c (store s)) s, Ok c)
      end
  end.
End TaskService.
