(* ===== verification/TaskLoops.v ===== *)
(** * The task service: periodic work and leadership

    The loops of [cmd/task-svc/main.go] and [internal/scheduler], which read all tasks
    and write single ones back, and the election of [internal/leader]. *)

From Stdlib Require Import Ascii.
From S2P Require Import GoStrings Prelude Cron CronPkg TaskSvc.
Open Scope go_scope.

(** ** What the loops do ([main.go])

    Both work on the copies that [AllTasks] returns; other operations may come between
    the reading and each [UpdateTask]. *)

Definition defaultMaxAge : duration := (30 * second)%Z.

Definition stale (cutoff : time) (x : Task.t) : bool :=
  (Task.Status x == TaskStatusRunning) && negb (IsZero (Task.ClaimedAt x)) && Before (Task.ClaimedAt x) cutoff.
Definition reclaimed (x : Task.t) : Task.t := Task.set_ClaimedBy "" (Task.set_ClaimedAt zero_time (Task.set_Status TaskStatusPending x)).

Definition due_template (now : time) (x : Task.t) : bool :=
  (Task.ParentID x == "") && (Task.Schedule x != "") &&
  match PkgCron.Match (Task.Schedule x) now with Ok ok => ok | Err _ => false end &&
  (IsZero (Task.LastFiredAt x) || Before (Task.LastFiredAt x) (Truncate now minute)).
Definition fired (now : time) (x : Task.t) : Task.t := Task.set_LastFiredAt now x.

(** Writing back one copy. *)
Definition write_back (pick : Task.t -> bool) (change : Task.t -> Task.t) (x : Task.t) (s : TaskStore.t) : TaskStore.t * bool :=
  if pick x then TaskStore.UpdateTask (Some (change x)) s else (s, false).
(** The writes of a pass over copies, with their number. *)
Fixpoint write_pass (pick : Task.t -> bool) (change : Task.t -> Task.t) (copies : list Task.t) (s : TaskStore.t) : TaskStore.t * nat :=
  match copies with
  | [] => (s, 0)
  | x :: copies =>
      let '(s, ok) := write_back pick change x s in
      let '(s, n) := write_pass pick change copies s in
      (s, if ok then S n else n)
  end.

Definition reclaimFn (r : TaskStore.ranges) (now : time) (maxAge : duration) (s : TaskStore.t) : TaskStore.t * nat :=
  let maxAge := if (maxAge <=? 0)%Z then defaultMaxAge else maxAge in
  write_pass (stale (now - maxAge)%Z) reclaimed (TaskStore.AllTasks r s) s.
Definition fireFn (r : TaskStore.ranges) (now : time) (s : TaskStore.t) : TaskStore.t * nat :=
  write_pass (due_template now) (fired now) (TaskStore.AllTasks r s) s.

(** ** Leadership ([leader.go]) *)

Definition leaderTTL : duration := (15 * second)%Z.
Definition leaderInterval : duration := (5 * second)%Z.
Definition scheduleInterval : duration := (30 * second)%Z.
Definition reclaimInterval : duration := (30 * second)%Z.

(** The lease: who holds it, and until when. *)
Module Lease.
Record t := mk { holder : string; expires : time }.

(** [K8sLeaseOps]: what a store of leases promises to those who elect with it.  [held]
    is the lease of a name, if someone holds it; a success leaves it with the caller
    until [until now ttl], and takes it from nobody whose time has not passed; a failure
    leaves it alone; a release ends it if it is the caller's. *)
Class LeaseOps (L : Type) := {
  Acquire : string -> string -> duration -> time -> L -> L * bool;
  Renew : string -> string -> duration -> time -> L -> L * bool;
  Release : string -> string -> time -> L -> L * bool;
  held : string -> L -> option t;
  until : time -> duration -> time;
  granularity : duration;
  Acquire_taken : forall name h ttl now l l', h <> "" -> (granularity <= ttl)%Z -> Acquire name h ttl now l = (l', true) ->
    held name l' = Some (mk h (until now ttl)) /\ forall x, held name l = Some x -> holder x = h \/ (expires x <= now)%Z;
  Acquire_refused : forall name h ttl now l l', h <> "" -> (granularity <= ttl)%Z -> Acquire name h ttl now l = (l', false) -> held name l' = held name l;
  Acquire_free : forall name h ttl now l, h <> "" -> (granularity <= ttl)%Z -> (forall x, held name l = Some x -> expires x < now)%Z ->
    (Acquire name h ttl now l).2 = true;
  Renew_done : forall name h ttl now l l', h <> "" -> Renew name h ttl now l = (l', true) ->
    held name l' = Some (mk h (until now ttl)) /\ exists x, held name l = Some x /\ holder x = h;
  Renew_refused : forall name h ttl now l l', h <> "" -> Renew name h ttl now l = (l', false) -> held name l' = held name l;
  Release_effect : forall name h now l l' ok, h <> "" -> Release name h now l = (l', ok) ->
    held name l' = held name l \/ (ok = true /\ held name l' = None /\ exists x, held name l = Some x /\ holder x = h);
  until_later : forall t1 t2 ttl, (t1 <= t2)%Z -> (until t1 ttl <= until t2 ttl)%Z;
}.
End Lease.

(** The rows of [task_svc_leader_lease] ([mysql.go]) by the name of the lease, and its
    statements; [now] is [NOW(3)] of the server. *)
Module MySQLLeaseOps.
Record row := Row { holder_identity : string; lease_until : time; updated_at : time }.
Abbreviation table := (gmap string row).

#[export] Instance row_eq_dec : EqDecision row.
Proof. solve_decision. Defined.

Definition microsecond : duration := 1000%Z.
Definition millisecond : duration := 1000000%Z.
(** A column of type [DATETIME(3)] rounds to milliseconds. *)
Definition DATETIME3 (t : time) : time := ((t + 500 * microsecond) / millisecond * millisecond)%Z.
Definition until (now : time) (ttl : duration) : time := DATETIME3 (now + Z.quot ttl microsecond * microsecond).

Definition heldBy (name h : string) (now : time) (tb : table) : bool :=
  match tb !! name with None => false | Some r => (holder_identity r == h) && (now <? lease_until r)%Z end.

(** The condition [free] of the statement. *)
Definition free (h : string) (now : time) (r : row) : bool :=
  (holder_identity r == "") || (lease_until r <? now)%Z || (holder_identity r == h).
(** [ON DUPLICATE KEY UPDATE] assigns from left to right, and reads what it has
    assigned. *)
Definition on_duplicate (h : string) (x now : time) (r : row) : row :=
  let r := Row (if free h now r then h else holder_identity r) (lease_until r) (updated_at r) in
  let r := Row (holder_identity r) (if free h now r then x else lease_until r) (updated_at r) in
  Row (holder_identity r) (lease_until r) now.

Definition Acquire (name h : string) (ttl : duration) (now : time) (tb : table) : table * bool :=
  match tb !! name with
  | None => let tb := <[name := Row h (until now ttl) now]> tb in (tb, heldBy name h now tb)
  | Some r =>
      let r' := on_duplicate h (until now ttl) now r in
      if r' == r then (tb, false) else let tb := <[name := r']> tb in (tb, heldBy name h now tb)
  end.

Definition Renew (name h : string) (ttl : duration) (now : time) (tb : table) : table * bool :=
  match tb !! name with
  | None => (tb, false)
  | Some r =>
      if (holder_identity r == h) && (now <? lease_until r)%Z then
        let r' := Row h (until now ttl) now in
        if r' == r then (tb, false) else (<[name := r']> tb, true)
      else (tb, false)
  end.

Definition Release (name h : string) (now : time) (tb : table) : table * bool :=
  match tb !! name with
  | None => (tb, true)
  | Some r => if holder_identity r == h then (<[name := Row "" now now]> tb, true) else (tb, true)
  end.

Definition held (name : string) (tb : table) : option Lease.t :=
  r ← tb !! name;
  if holder_identity r == "" then None else Some (Lease.mk (holder_identity r) (lease_until r)).
End MySQLLeaseOps.

(** [StubLeaderElector]: always the leader. *)
Module StubLeaderElector.
Definition IsLeader : bool := true.
Definition Renew (ttl : duration) : bool := true.
Definition Close : bool := true.
End StubLeaderElector.

Module K8sLeaseElector.
Record t := mk { holder : string; leaseName : string; isLeader : bool; lastRenewAt : time }.
Definition NewK8sLease (leaseName holderID : string) : t := mk holderID leaseName false zero_time.
Definition IsLeader (e : t) : bool := isLeader e.

Section elector.
Context `{Lease.LeaseOps L}.

Definition Renew (ttl : duration) (now : time) (e : t) (l : L) : t * L * bool :=
  let '(l, ok) := if isLeader e then Lease.Renew (leaseName e) (holder e) ttl now l else Lease.Acquire (leaseName e) (holder e) ttl now l in
  (if ok then mk (holder e) (leaseName e) true now else mk (holder e) (leaseName e) false (lastRenewAt e), l, ok).

(** [true] when there is no error. *)
Definition Close (now : time) (e : t) (l : L) : t * L * bool :=
  if isLeader e then
    match Lease.Release (leaseName e) (holder e) now l with
    | (l, false) => (e, l, false)
    | (l, true) => (mk (holder e) (leaseName e) false (lastRenewAt e), l, true)
    end
  else (e, l, true).
End elector.
End K8sLeaseElector.

(** ** The loops ([scheduler.go]) *)

Module Scheduler.
(** What the leader loop keeps for the other loops; a callback that is absent has no
    loop. *)
Record t := mk { isLeader : bool; reclaim : bool; fire : bool; renew : bool }.
Definition New (reclaim fire renew : bool) : t := mk false reclaim fire renew.

(** A tick of each loop. *)
Definition scheduleTick (r : TaskStore.ranges) (now : time) (sched : t) (s : TaskStore.t) : TaskStore.t * nat :=
  if fire sched && isLeader sched then fireFn r now s else (s, 0).
Definition reclaimTick (r : TaskStore.ranges) (now : time) (sched : t) (s : TaskStore.t) : TaskStore.t * nat :=
  if reclaim sched && isLeader sched then reclaimFn r now 0 s else (s, 0).
Definition leaderTick (renewed : bool) (sched : t) : t :=
  if renew sched then mk renewed (reclaim sched) (fire sched) (renew sched) else sched.
End Scheduler.

(** ** The shadow ([shadow.go]) *)

Definition reclaimMaxAge : duration := (5 * minute)%Z.

Definition would_fire (now : time) (x : Task.t) : bool :=
  (Task.ParentID x == "") && (Task.Schedule x != "") &&
  match PkgCron.Match (Task.Schedule x) now with Ok ok => ok | Err _ => false end &&
  (IsZero (Task.CreatedAt x) || Before (Task.CreatedAt x) (Truncate now minute)).
Definition derived_active (x : Task.t) : bool :=
  (Task.ParentID x != "") && ((Task.Status x == TaskStatusPending) || (Task.Status x == TaskStatusRunning)).
(** The three numbers that are published. *)
Definition evaluate (r : TaskStore.ranges) (now : time) (s : TaskStore.t) : nat * nat * nat :=
  let tasks := TaskStore.AllTasks r s in
  (length (List.filter (would_fire now) tasks), length (List.filter (stale (now - reclaimMaxAge)%Z) tasks), length (List.filter derived_active tasks)).
