(* ===== verification/TaskGateway.v ===== *)
(** * The task service: HTTP gateway ([services/task-svc/internal/http])

    Who a request is from ([extractAuth], behind [tenant.Middleware]), and the handlers
    of tasks, schedules, batches and staged releases over decoded requests. *)

From Stdlib Require Import Ascii.
From S2P Require Import GoStrings Prelude Tenant TaskSvc TaskService.
Open Scope go_scope.

(** [authContext]. *)
Module AuthContext.
Record t := mk { TenantID : string; UserID : string; Roles : list string }.
End AuthContext.

Inductive auth_error := errInvalidToken | errTenantMismatch.

(** A request: method, what follows the prefix of the route, headers, and the values
    of the query. *)
Module HTTP.
Record t := mk { Method : string; Rest : string; Head : Headers.t; Query : gmap string string }.
Definition get (k : string) (r : t) : string := default "" (Query r !! k).
End HTTP.
Definition GET : string := "GET".
Definition POST : string := "POST".
Definition PUT : string := "PUT".
Definition DELETE : string := "DELETE".

(** [batchTask] and its items, which only this index knows. *)
Module BatchRecord.
Record t := mk { BatchID : string; TenantID : string; TaskType : string; Command : string; Timeout : Z; CreatedAt : time; CreatedBy : string;
  Tasks : list BatchTaskItem.t }.
End BatchRecord.

(** The bodies of requests; [None] is one that does not decode. *)
Module TaskBody.
Record t := mk { AgentID : string; Type_ : string; Command : string; Content : string; Path : string; Schedule : string; ApprovalRequired : bool;
  MaxRetries : option Z; Timeout : Z; RetryDelay : Z; DependsOn : list string }.
End TaskBody.

Module BatchBody.
Record t := mk { DeviceIDs : list string; TaskType : string; Command : string; Content : string; Path : string; Timeout : Z }.
End BatchBody.

Module CanaryBody.
Record t := mk { DeviceIDs : list string; TaskType : string; Command : string; Content : string; Path : string; Strategy : string; Percentage : Z;
  Groups : list string; Labels : gmap string string }.
End CanaryBody.

(** The bodies of responses. *)
Inductive payload :=
  | PError (msg : string) | PAuthError (e : auth_error) | PServiceError (e : task_error)
  | PTaskBody (x : PTask.t) | PTasks (l : list PTask.t) | PResultBody (r : PResult.t) | PStatus (status id : string)
  | PScheduleBody (x : PSchedule.t) | PSchedules (l : list PSchedule.t)
  | PBatch (id : string) (items : list BatchTaskItem.t)
  | PBatchStatus (b : BatchRecord.t) (items : list BatchTaskItem.t) (total succeeded failed pending : Z) (status : string)
  | PCanary (c : CanaryRelease.t) | PCanaryPhase (id : string) (phase : Z) (status : string).
Definition reply : Type := Z * payload.

(** [strconv] of the gateway: empty and other texts read as zero. *)
Fixpoint parseInt32_go (s : string) (n : Z) : Z :=
  match s with
  | "" => n
  | String c s => match digit c with None => 0%Z | Some d => parseInt32_go s (wrap_i32 (wrap_i32 (n * 10) + d)) end
  end.
Definition parseInt32 (s : string) : Z := parseInt32_go s 0.

Definition auth_reply (e : auth_error) : reply := (match e with errInvalidToken => 401%Z | errTenantMismatch => 403%Z end, PAuthError e).
Definition service_code (e : task_error) : Z :=
  match e with
  | TaskInvalid _ => 400
  | TaskNotFound | ScheduleNotFound | ResultNotFound | BatchNotFound => 404
  | EpochMismatch => 409
  | _ => 500
  end.
Definition writeServiceError (e : task_error) : reply := (service_code e, PServiceError e).
Definition writeCanaryError (e : task_error) : reply :=
  (match e with CanaryStoreNotAvailable => 503 | CanaryNotFound => 404 | CanaryNoPendingPhase | TaskInvalid _ => 400 | _ => 500 end%Z, PServiceError e).
Definition method_not_allowed : reply := (405%Z, PError "method not allowed").
Definition not_found : reply := (404%Z, PError "not found").

Module TaskGateway.
Record t := mk { svc : TaskService.t; jwtSecret : string; batches : gmap string BatchRecord.t }.
Definition NewGateway (s : TaskService.t) (secret : string) : t := mk s secret ∅.
Definition set_svc (s : TaskService.t) (g : t) : t := mk s (jwtSecret g) (batches g).

Definition bearerOrCookie (h : Headers.t) : string :=
  if HasPrefix "Bearer " (Headers.Authorization h) then TrimPrefix "Bearer " (Headers.Authorization h) else Headers.AccessCookie h.

Section gateway.
Context `{JWTLib}.

Definition extractAuth (now : time) (h : Headers.t) (g : t) : result auth_error AuthContext.t :=
  let headerTenant := TrimSpace (Headers.XTenantID h) in
  let tenant := if headerTenant != "" then headerTenant else Middleware (jwtSecret g) now h in
  let token := bearerOrCookie h in
  if (token != "") && (jwtSecret g != "") then
    match ValidateServiceToken now token (jwtSecret g) with
    | None => Err errInvalidToken
    | Some claims =>
        if ServiceClaims.TenantID claims != "" then
          if (headerTenant != "") && (headerTenant != ServiceClaims.TenantID claims) then Err errTenantMismatch
          else Ok (AuthContext.mk (ServiceClaims.TenantID claims) (ServiceClaims.ServiceID claims) (ServiceClaims.Permissions claims))
        else Ok (AuthContext.mk tenant (ServiceClaims.ServiceID claims) (ServiceClaims.Permissions claims))
    end
  else Ok (AuthContext.mk tenant "" []).

(** A handler behind [extractAuth]. *)
Definition with_auth (now : time) (r : HTTP.t) (f : AuthContext.t -> t -> t * reply) (g : t) : t * reply :=
  match extractAuth now (HTTP.Head r) g with Err e => (g, auth_reply e) | Ok a => f a g end.

(** The tenant a list is filtered by: the query may name it for the default tenant. *)
Definition list_tenant (a : AuthContext.t) (r : HTTP.t) : string :=
  let tid := HTTP.get "tenantID" r in
  if (tid != "") && (AuthContext.TenantID a == "default") then tid else AuthContext.TenantID a.

(** *** Tasks *)

Definition handleListTasks (rg : TaskStore.ranges) (now : time) (r : HTTP.t) : t -> t * reply :=
  with_auth now r (fun a g =>
    (g, (200%Z, PTasks (TaskService.ListTasks rg (list_tenant a r) (HTTP.get "status" r) (HTTP.get "agent_id" r) (parseInt32 (HTTP.get "limit" r)) (svc g))))).

(** The task a request asks for. *)
Definition requested_task (tenant : string) (b : TaskBody.t) : PTask.t :=
  PTask.mk "" (TaskBody.AgentID b) tenant (if TaskBody.Type_ b == "" then "shell" else TaskBody.Type_ b) (TaskBody.Command b) (TaskBody.Content b)
    (TaskBody.Path b) "" "" None 0 None 0 (default 0%Z (TaskBody.MaxRetries b)) false (TaskBody.Timeout b) (TaskBody.RetryDelay b) (TaskBody.Schedule b)
    "" (TaskBody.DependsOn b) (TaskBody.ApprovalRequired b) "" None "".
Definition handleCreateTask (uuid : string) (now : time) (r : HTTP.t) (body : option TaskBody.t) : t -> t * reply :=
  with_auth now r (fun a g =>
    match body with
    | None => (g, (400%Z, PError "invalid JSON"))
    | Some b =>
        if (TaskBody.AgentID b == "") || (TaskBody.Command b == "") then (g, (400%Z, PError "agentID and command are required")) else
        match TaskService.CreateTask uuid now (Some (requested_task (AuthContext.TenantID a) b)) (svc g) with
        | (s, Err e) => (set_svc s g, writeServiceError e)
        | (s, Ok x) => (set_svc s g, (201%Z, PTaskBody x))
        end
    end).
Definition handleTasks (rg : TaskStore.ranges) (uuid : string) (now : time) (r : HTTP.t) (body : option TaskBody.t) (g : t) : t * reply :=
  if HTTP.Method r == GET then handleListTasks rg now r g
  else if HTTP.Method r == POST then handleCreateTask uuid now r body g
  else (g, method_not_allowed).

Definition handleGetTask (now : time) (r : HTTP.t) (id : string) : t -> t * reply :=
  with_auth now r (fun _ g => (g, match TaskService.GetTask id (svc g) with Err e => writeServiceError e | Ok x => (200%Z, PTaskBody x) end)).
Definition handleCancelTask (now : time) (r : HTTP.t) (id : string) : t -> t * reply :=
  with_auth now r (fun a g =>
    match TaskService.CancelTask id (AuthContext.TenantID a) (svc g) with
    | (s, Some e) => (set_svc s g, writeServiceError e)
    | (s, None) => (set_svc s g, (200%Z, PStatus "cancelled" id))
    end).
Definition handleTaskResult (now : time) (r : HTTP.t) (id : string) : t -> t * reply :=
  with_auth now r (fun _ g => (g, match TaskService.GetTaskResult id (svc g) with Err e => writeServiceError e | Ok x => (200%Z, PResultBody x) end)).
Definition handleApproveTask (now : time) (r : HTTP.t) (id : string) : t -> t * reply :=
  with_auth now r (fun a g =>
    match TaskService.ApproveTask now id (AuthContext.TenantID a) (AuthContext.UserID a) (svc g) with
    | (s, Err e) => (set_svc s g, writeServiceError e)
    | (s, Ok x) => (set_svc s g, (200%Z, PTaskBody x))
    end).
Definition handleRejectTask (now : time) (r : HTTP.t) (id : string) : t -> t * reply :=
  with_auth now r (fun a g =>
    match TaskService.RejectTask now id (AuthContext.TenantID a) (AuthContext.UserID a) (svc g) with
    | (s, Err e) => (set_svc s g, writeServiceError e)
    | (s, Ok x) => (set_svc s g, (200%Z, PTaskBody x))
    end).
Definition handleTaskRouting (now : time) (r : HTTP.t) (g : t) : t * reply :=
  let '(id, sub) := match cut "/" (HTTP.Rest r) with None => (HTTP.Rest r, None) | Some (id, sub) => (id, Some sub) end in
  let m := HTTP.Method r in
  if id == "" then (g, (400%Z, PError "task id required"))
  else match sub with
  | None => if m == GET then handleGetTask now r id g else (g, not_found)
  | Some sub =>
      if (sub == "cancel") && (m == POST) then handleCancelTask now r id g
      else if (sub == "result") && (m == GET) then handleTaskResult now r id g
      else if (sub == "approve") && (m == POST) then handleApproveTask now r id g
      else if (sub == "reject") && (m == POST) then handleRejectTask now r id g
      else (g, not_found)
  end.

(** *** Schedules *)

(** [responseToScheduleProto] keeps everything but the time stamps. *)
Definition responseToScheduleProto (x : PSchedule.t) : PSchedule.t :=
  PSchedule.mk (PSchedule.Id x) (PSchedule.TenantId x) (PSchedule.Name x) (PSchedule.CronExpr x) (PSchedule.TaskType x) (PSchedule.Command x)
    (PSchedule.Content x) (PSchedule.Path x) (PSchedule.AgentId x) (PSchedule.Enabled x) None None None.
Definition of_tenant (tenant : string) (x : PSchedule.t) : PSchedule.t :=
  PSchedule.mk (PSchedule.Id x) tenant (PSchedule.Name x) (PSchedule.CronExpr x) (PSchedule.TaskType x) (PSchedule.Command x)
    (PSchedule.Content x) (PSchedule.Path x) (PSchedule.AgentId x) (PSchedule.Enabled x) (PSchedule.LastFiredAt x) (PSchedule.CreatedAt x) (PSchedule.UpdatedAt x).

Definition handleListSchedules (rg : TaskStore.ranges) (now : time) (r : HTTP.t) : t -> t * reply :=
  with_auth now r (fun a g => (g, (200%Z, PSchedules (TaskService.ListSchedules rg (list_tenant a r) (svc g))))).
Definition handleCreateSchedule (uuid : string) (now : time) (r : HTTP.t) (body : option PSchedule.t) : t -> t * reply :=
  with_auth now r (fun a g =>
    match body with
    | None => (g, (400%Z, PError "invalid JSON"))
    | Some b =>
        if (PSchedule.Name b == "") || (PSchedule.CronExpr b == "") then (g, (400%Z, PError "name and cronExpr are required")) else
        match TaskService.CreateSchedule uuid now (Some (responseToScheduleProto (of_tenant (AuthContext.TenantID a) b))) (svc g) with
        | (s, Err e) => (set_svc s g, writeServiceError e)
        | (s, Ok x) => (set_svc s g, (201%Z, PScheduleBody x))
        end
    end).
Definition handleSchedules (rg : TaskStore.ranges) (uuid : string) (now : time) (r : HTTP.t) (body : option PSchedule.t) (g : t) : t * reply :=
  if HTTP.Method r == GET then handleListSchedules rg now r g
  else if HTTP.Method r == POST then handleCreateSchedule uuid now r body g
  else (g, method_not_allowed).

(** Writes a schedule back and answers with it. *)
Definition put_schedule (now : time) (x : PSchedule.t) (g : t) : t * reply :=
  match TaskService.UpdateSchedule now (Some x) (svc g) with
  | (s, Err e) => (set_svc s g, writeServiceError e)
  | (s, Ok y) => (set_svc s g, (200%Z, PScheduleBody y))
  end.
(** [handleSchedulePause] and [handleScheduleResume]. *)
Definition enable_schedule (now : time) (enabled : bool) (id : string) (g : t) : t * reply :=
  match TaskService.GetSchedule id (svc g) with
  | Err e => (g, writeServiceError e)
  | Ok x => put_schedule now (PSchedule.set_Enabled enabled x) g
  end.
Definition handleScheduleRouting (now : time) (r : HTTP.t) (body : option PSchedule.t) (g : t) : t * reply :=
  let '(id, sub) := match cut "/" (HTTP.Rest r) with None => (HTTP.Rest r, None) | Some (id, sub) => (id, Some sub) end in
  let m := HTTP.Method r in
  if id == "" then (g, (400%Z, PError "schedule id required")) else
  with_auth now r (fun _ g =>
    match sub with
    | None =>
        if m == GET then (g, match TaskService.GetSchedule id (svc g) with Err e => writeServiceError e | Ok x => (200%Z, PScheduleBody x) end)
        else if m == PUT then
          match body with
          | None => (g, (400%Z, PError "invalid JSON"))
          | Some b => put_schedule now (responseToScheduleProto (PSchedule.set_Id id b)) g
          end
        else if m == DELETE then
          match TaskService.DeleteSchedule id (svc g) with
          | (s, Some e) => (set_svc s g, writeServiceError e)
          | (s, None) => (set_svc s g, (200%Z, PStatus "deleted" id))
          end
        else (g, method_not_allowed)
    | Some sub =>
        if sub == "pause" then if m == POST then enable_schedule now false id g else (g, method_not_allowed)
        else if sub == "resume" then if m == POST then enable_schedule now true id g else (g, method_not_allowed)
        else (g, not_found)
    end) g.

(** *** Batches ([gateway_batch.go]) *)

Definition batch_request (tenant taskType : string) (b : BatchBody.t) (devID : string) : PTask.t :=
  PTask.mk "" devID tenant taskType (BatchBody.Command b) (BatchBody.Content b) (BatchBody.Path b) "" "" None 0 None 0 0 false
    (wrap_i32 (BatchBody.Timeout b)) 0 "" "" [] false "" None "".
(** The devices one after the other; one that is refused is noted as failed. *)
Fixpoint batch_exec (now : time) (uuids : nat -> string) (request : string -> PTask.t) (devices : list string) (s : TaskService.t) :
    TaskService.t * list BatchTaskItem.t :=
  match devices with
  | [] => (s, [])
  | d :: devices =>
      let '(s, item) :=
        match TaskService.CreateTask (uuids 0) now (Some (request d)) s with
        | (s, Err _) => (s, BatchTaskItem.mk d "" "failed" "task invalid")
        | (s, Ok x) => (s, BatchTaskItem.mk d (PTask.TaskId x) (PTask.Status x) "")
        end in
      let '(s, items) := batch_exec now (fun n => uuids (S n)) request devices s in
      (s, item :: items)
  end.
Definition handleBatchExec (batchID : string) (uuids : nat -> string) (now : time) (r : HTTP.t) (body : option BatchBody.t) (g : t) : t * reply :=
  if HTTP.Method r != POST then (g, method_not_allowed) else
  with_auth now r (fun a g =>
    match body with
    | None => (g, (400%Z, PError "invalid JSON"))
    | Some b =>
        if BatchBody.DeviceIDs b == [] then (g, (400%Z, PError "deviceIDs is required (non-empty)"))
        else if BatchBody.Command b == "" then (g, (400%Z, PError "command is required"))
        else
          let taskType := if BatchBody.TaskType b == "" then "shell" else BatchBody.TaskType b in
          let tenant := AuthContext.TenantID a in
          let '(s, items) := batch_exec now uuids (batch_request tenant taskType b) (BatchBody.DeviceIDs b) (svc g) in
          let bt := BatchRecord.mk batchID tenant taskType (BatchBody.Command b) (BatchBody.Timeout b) now (AuthContext.UserID a) items in
          (mk s (jwtSecret g) (<[batchID := bt]> (batches g)), (201%Z, PBatch batchID items))
    end) g.

(** An item with the state its task has now, and whether that counts as a success or
    as a failure. *)
Definition refreshed (s : TaskService.t) (i : BatchTaskItem.t) : BatchTaskItem.t :=
  if BatchTaskItem.TaskID i == "" then i else
  match TaskService.GetTask (BatchTaskItem.TaskID i) s with Ok x => BatchTaskItem.set_Status (PTask.Status x) i | Err _ => i end.
Definition item_failed (i : BatchTaskItem.t) : bool :=
  (BatchTaskItem.TaskID i == "") || bool_decide (BatchTaskItem.Status i ∈ [TaskStatusFailed; TaskStatusCancelled; TaskStatusRejected]).
Definition item_succeeded (i : BatchTaskItem.t) : bool := (BatchTaskItem.TaskID i != "") && (BatchTaskItem.Status i == TaskStatusDone).
Definition batchOverallStatus (total succeeded failed : Z) : string :=
  let done_ := (succeeded + failed)%Z in
  if (done_ =? 0)%Z then "pending"
  else if (done_ >=? total)%Z then if (failed >? 0)%Z then "failed" else "succeeded"
  else "running".
Definition handleBatchStatus (now : time) (r : HTTP.t) (id : string) (g : t) : t * reply :=
  if HTTP.Method r != GET then (g, method_not_allowed) else
  with_auth now r (fun a g =>
    match batches g !! id with
    | None => (g, (404%Z, PError "batch not found"))
    | Some bt =>
        if (AuthContext.TenantID a != "") && (BatchRecord.TenantID bt != "") && (BatchRecord.TenantID bt != AuthContext.TenantID a) then
          (g, (403%Z, PError "tenant mismatch"))
        else
          let items := map (refreshed (svc g)) (BatchRecord.Tasks bt) in
          let total := Z.of_nat (length items) in
          let succeeded := Z.of_nat (length (List.filter item_succeeded items)) in
          let failed := Z.of_nat (length (List.filter item_failed items)) in
          (g, (200%Z, PBatchStatus bt items total succeeded failed (total - succeeded - failed) (batchOverallStatus total succeeded failed)))
    end) g.
Definition handleBatchRouting (now : time) (r : HTTP.t) (g : t) : t * reply :=
  if HTTP.Rest r == "" then (g, (400%Z, PError "batch id required"))
  else if ContainsChar "/" (HTTP.Rest r) then (g, not_found)
  else handleBatchStatus now r (HTTP.Rest r) g.

(** *** Staged releases ([gateway_canary.go]) *)

Definition handleCanaryCreate (canaryID : string) (uuids : nat -> string) (now : time) (r : HTTP.t) (body : option CanaryBody.t) (g : t) : t * reply :=
  if HTTP.Method r != POST then (g, method_not_allowed) else
  with_auth now r (fun a g =>
    match body with
    | None => (g, (400%Z, PError "invalid JSON"))
    | Some b =>
        match TaskService.CreateCanary canaryID uuids now
                (TaskService.CanaryCreateRequest.mk (CanaryBody.DeviceIDs b) (CanaryBody.TaskType b) (CanaryBody.Command b) (CanaryBody.Content b)
                   (CanaryBody.Path b) (CanaryBody.Strategy b) (CanaryBody.Percentage b) (CanaryBody.Groups b) (CanaryBody.Labels b)
                   (AuthContext.TenantID a) (AuthContext.UserID a)) (svc g) with
        | (s, Err e) => (set_svc s g, writeCanaryError e)
        | (s, Ok c) => (set_svc s g, (201%Z, PCanary c))
        end
    end) g.
Definition handleCanaryStatus (now : time) (r : HTTP.t) (id : string) (g : t) : t * reply :=
  if HTTP.Method r != GET then (g, method_not_allowed) else
  with_auth now r (fun a g =>
    match TaskService.GetCanaryStatus id (AuthContext.TenantID a) (svc g) with
    | (s, Err e) => (set_svc s g, writeCanaryError e)
    | (s, Ok c) => (set_svc s g, (200%Z, PCanary c))
    end) g.
(** The last phase that runs. *)
Definition running_phase (c : CanaryRelease.t) : Z * string :=
  foldl (fun acc p => if CanaryPhase.Status p == "running" then (CanaryPhase.Phase p, CanaryPhase.Status p) else acc) (0%Z, "") (CanaryRelease.Phases c).
Definition handleCanaryAdvance (uuids : nat -> string) (now : time) (r : HTTP.t) (id : string) (g : t) : t * reply :=
  if HTTP.Method r != POST then (g, method_not_allowed) else
  with_auth now r (fun a g =>
    match TaskService.AdvanceCanary uuids now id (AuthContext.TenantID a) (AuthContext.UserID a) (svc g) with
    | (s, Err e) => (set_svc s g, writeCanaryError e)
    | (s, Ok c) => (set_svc s g, (200%Z, PCanaryPhase (CanaryRelease.CanaryID c) (running_phase c).1 (running_phase c).2))
    end) g.
Definition handleCanaryRouting (uuids : nat -> string) (now : time) (r : HTTP.t) (g : t) : t * reply :=
  if HTTP.Rest r == "" then (g, (404%Z, PError "canary id required")) else
  match cut "/" (HTTP.Rest r) with
  | None => handleCanaryStatus now r (HTTP.Rest r) g
  | Some (id, sub) => if sub == "advance" then handleCanaryAdvance uuids now r id g else (g, not_found)
  end.
End gateway.
End TaskGateway.
