(* ===== verification/TaskProps.v ===== *)
(** * The task service: what every operation does to the tasks

    The operations as one transition system.  Each of them leaves a task as it is or
    moves it by one of a few changes ([touch]), and the tasks it adds are new
    ([step_effect]); the properties of runs follow from that. *)

From Stdlib Require Import Ascii.
From S2P Require Import GoStrings Prelude Breaker Cron CronPkg TaskSvc TaskService TaskLoops.
Import TaskStore TaskService.
#[local] Open Scope Z_scope.
Open Scope go_scope.

(** ** The transition system *)

Inductive op :=
  | OCreate (uuid : string) (now : time) (req : option PTask.t)
  | OClaim (r : ranges) (now : time) (agentID : string)
  | OReport (now : time) (req : option PResult.t)
  | OCancel (id tenantID : string)
  | OApprove (now : time) (id tenantID by_ : string)
  | OReject (now : time) (id tenantID by_ : string)
  | OCreateSchedule (uuid : string) (now : time) (req : option PSchedule.t)
  | OUpdateSchedule (now : time) (req : option PSchedule.t)
  | ODeleteSchedule (id : string)
  | OBatch (batchID : string) (uuids : nat -> string) (now : time) (req : BatchRequest.t)
  | OCanary (canaryID : string) (uuids : nat -> string) (now : time) (req : CanaryCreateRequest.t)
  | OCanaryStatus (id tenantID : string)
  | OAdvance (uuids : nat -> string) (now : time) (id tenantID userID : string)
  | OReclaim (r : ranges) (now : time) (maxAge : duration)
  | OFire (r : ranges) (now : time).

Definition step (o : op) (s : TaskService.t) : TaskService.t :=
  match o with
  | OCreate uuid now req => (TaskService.CreateTask uuid now req s).1
  | OClaim r now agentID => (TaskService.ClaimTask r now agentID s).1
  | OReport now req => (TaskService.ReportResult now req s).1
  | OCancel id tenantID => (TaskService.CancelTask id tenantID s).1
  | OApprove now id tenantID by_ => (TaskService.ApproveTask now id tenantID by_ s).1
  | OReject now id tenantID by_ => (TaskService.RejectTask now id tenantID by_ s).1
  | OCreateSchedule uuid now req => (TaskService.CreateSchedule uuid now req s).1
  | OUpdateSchedule now req => (TaskService.UpdateSchedule now req s).1
  | ODeleteSchedule id => (TaskService.DeleteSchedule id s).1
  | OBatch batchID uuids now req => (CreateBatchTask batchID uuids now req s).1
  | OCanary canaryID uuids now req => (TaskService.CreateCanary canaryID uuids now req s).1
  | OCanaryStatus id tenantID => (GetCanaryStatus id tenantID s).1
  | OAdvance uuids now id tenantID userID => (AdvanceCanary uuids now id tenantID userID s).1
  | OReclaim r now maxAge => set_store (reclaimFn r now maxAge (store s)).1 s
  | OFire r now => set_store (fireFn r now (store s)).1 s
  end.
Definition run (os : list op) (s : TaskService.t) : TaskService.t := foldl (fun s o => step o s) s os.

Abbreviation tasks_of s := (tasks (store s)).

(** The maps are visited in some order. *)
Definition visits (r : ranges) : Prop := forall m, of_tasks r m ≡ₚ (map_to_list m).*2.

(** Identifiers that are drawn are new, and requests come without a history. *)
Definition fresh (ids : list string) (s : TaskService.t) : Prop := NoDup ids /\ forall id, id ∈ ids -> id <> "" /\ tasks_of s !! id = None.
Definition drawn (uuids : nat -> string) (n : nat) : list string := map uuids (seq 0 n).
Definition advance_size (id : string) (s : TaskService.t) : nat :=
  match canaries (store s) !! id with None => 0 | Some c => list_max (map (fun p => length (CanaryPhase.DeviceIDs p)) (CanaryRelease.Phases c)) end.
Definition op_ok (o : op) (s : TaskService.t) : Prop :=
  match o with
  | OCreate uuid _ (Some x) => PTask.ClaimEpoch x = 0 /\ fresh [if PTask.TaskId x == "" then uuid else PTask.TaskId x] s
  | OBatch _ uuids _ req => fresh (drawn uuids (S (length (BatchRequest.AgentIds req)))) s
  | OCanary _ uuids _ req => fresh (drawn uuids (length (CanaryCreateRequest.DeviceIDs req))) s
  | OAdvance uuids _ id _ _ => fresh (drawn uuids (advance_size id s)) s
  | OClaim r _ _ | OReclaim r _ _ | OFire r _ => visits r
  | _ => True
  end.
Fixpoint run_ok (os : list op) (s : TaskService.t) : Prop := match os with [] => True | o :: os => op_ok o s /\ run_ok os (step o s) end.

(** ** Changes of a task *)

Inductive touch : Task.t -> Task.t -> Prop :=
  | t_claim now a x : claimable a x = true -> touch x (claimed now a x)
  | t_report code x : touch x (reported code x)
  | t_cancel x : touch x (Task.set_Status TaskStatusCancelled x)
  | t_decide now status by_ x : awaits_approval x = true -> status = TaskStatusPending \/ status = TaskStatusRejected -> touch x (decided now status by_ x)
  | t_reclaim x : Task.Status x = TaskStatusRunning -> touch x (reclaimed x)
  | t_fire now x : touch x (fired now x).

(** A task that has just been created. *)
Definition born (x : Task.t) : Prop :=
  (Task.Status x = TaskStatusPending \/ Task.Status x = TaskStatusPendingApproval) /\ Task.ClaimEpoch x = 0.

Definition step_effect (m m' : gmap string Task.t) : Prop :=
  (forall id x, m !! id = Some x -> exists x', m' !! id = Some x' /\ (x' = x \/ touch x x')) /\
  (forall id x', m !! id = None -> m' !! id = Some x' -> born x' /\ Task.TaskID x' = id /\ id <> "").

(** Every task is found under its identifier. *)
Definition keyed (m : gmap string Task.t) : Prop := forall id x, m !! id = Some x -> Task.TaskID x = id /\ id <> "".

Lemma touch_id x x' : touch x x' -> Task.TaskID x' = Task.TaskID x.
Proof. destruct 1; try done. unfold reported. by repeat case_match. Qed.

Lemma effect_refl m : step_effect m m.
Proof. split; [eauto |]. intros id x' E1 E2. congruence. Qed.

Lemma effect_new m id x : m !! id = None -> born x -> Task.TaskID x = id -> id <> "" -> step_effect m (<[id := x]> m).
Proof.
  intros Hid Hb Hx Hne. split.
  - intros i y Hi. rewrite lookup_insert_ne by congruence. eauto.
  - intros i y Hi [[<- <-] | [_ E]]%lookup_insert_Some; [done | congruence].
Qed.

Lemma effect_touch m id x x' : m !! id = Some x -> touch x x' -> step_effect m (<[id := x']> m).
Proof.
  intros Hid Ht. split.
  - intros i y Hi. destruct (decide (i = id)) as [-> | Hne]; [| rewrite lookup_insert_ne by done; eauto].
    rewrite lookup_insert_eq. exists x'. split; [done |]. right. congruence.
  - intros i y Hi [[<- <-] | [_ E]]%lookup_insert_Some; congruence.
Qed.

(** Additions one after the other. *)
Lemma effect_then_new m m' id x :
  step_effect m m' -> m' !! id = None -> born x -> Task.TaskID x = id -> id <> "" -> step_effect m (<[id := x]> m').
Proof.
  intros [H1 H2] Hid Hb Hx Hne. split.
  - intros i y Hi. destruct (H1 i y Hi) as (y' & Hy' & Ht). exists y'. split; [| done]. rewrite lookup_insert_ne by congruence. done.
  - intros i y Hi [[<- <-] | [_ E]]%lookup_insert_Some; [done | by apply H2].
Qed.

Lemma keyed_effect m m' : keyed m -> step_effect m m' -> keyed m'.
Proof.
  intros Hk [H1 H2] id x' Hx'. destruct (m !! id) as [x |] eqn:Hx; [| destruct (H2 id x' Hx Hx') as (_ & ? & ?); done].
  destruct (H1 id x Hx) as (y & Hy & Ht). assert (y = x') as -> by congruence. destruct (Hk id x Hx) as [Hid Hne].
  split; [| done]. destruct Ht as [-> | Ht%touch_id]; congruence.
Qed.

(** ** The single operations *)

Lemma create_store_effect now (x : Task.t) st :
  born x -> tasks st !! Task.TaskID x = None -> Task.TaskID x <> "" ->
  exists y, TaskStore.CreateTask now x st = (set_tasks (<[Task.TaskID x := y]> (tasks st)) st, y) /\ born y /\ Task.TaskID y = Task.TaskID x.
Proof.
  intros [Hs He] Hn Hne. unfold TaskStore.CreateTask.
  assert (forall z, Task.Status z = Task.Status x -> (Task.Status z == "") = false) as Hst.
  { intros z ->. destruct Hs as [-> | ->]; done. }
  destruct (IsZero (Task.CreatedAt x)); rewrite Hst by done; eexists; (split; [done |]); (split; [split; done | done]).
Qed.

Lemma create_effect uuid now req s : op_ok (OCreate uuid now req) s -> step_effect (tasks_of s) (tasks_of (step (OCreate uuid now req) s)).
Proof.
  cbn [step]. unfold TaskService.CreateTask. destruct req as [x |]; [| intros; apply effect_refl]. cbn [op_ok]. intros [He [_ Hf]].
  destruct (ValidateCommand _); [apply effect_refl |].
  set (y := protoToTask (completed uuid now x)).
  assert (Hid : Task.TaskID y = if PTask.TaskId x == "" then uuid else PTask.TaskId x).
  { unfold y, completed. cbn. by repeat case_match. }
  assert (Hb : born y).
  { unfold y, completed. split; cbn.
    - repeat case_match; auto.
    - by repeat case_match. }
  destruct (Hf (Task.TaskID y)) as [Hne Hn]; [rewrite Hid; by left |].
  destruct (create_store_effect now y (store s) Hb Hn Hne) as (z & -> & Hz & Hzid). cbn. by apply effect_new.
Qed.

Lemma find_claimable r st a x :
  visits r -> keyed (tasks st) -> List.find (claimable a) (of_tasks r (tasks st)) = Some x -> tasks st !! Task.TaskID x = Some x /\ claimable a x = true.
Proof.
  intros Hr Hk [Hin Hc]%find_some. split; [| done]. apply list_elem_of_In in Hin. rewrite (Hr (tasks st)) in Hin.
  apply list_elem_of_fmap in Hin as ([id y] & -> & Hin). apply elem_of_map_to_list in Hin. destruct (Hk id y Hin) as [<- _]. done.
Qed.

(** The claim as a step of the store: what it yields, and the task behind it. *)
Lemma claim_spec r now a s s' res :
  visits r -> keyed (tasks_of s) -> TaskService.ClaimTask r now a s = (s', res) ->
  match res with
  | Ok y => exists x, tasks_of s !! Task.TaskID x = Some x /\ claimable a x = true /\ y = taskToProto (claimed now a x) /\
      tasks_of s' = <[Task.TaskID x := claimed now a x]> (tasks_of s)
  | Err _ => tasks_of s' = tasks_of s
  end.
Proof.
  intros Hr Hk. unfold TaskService.ClaimTask, TaskStore.ClaimTask. destruct (a == ""); [by intros [= <- <-] |].
  pose proof (find_claimable r (store s) a) as Hf.
  destruct (breaker s) as [b |]; [destruct (Circuit.allow now b) as [b' []]; [| by intros [= <- <-]] |];
    (destruct (List.find _ _) as [x |]; intros [= <- <-]; [| done]; destruct (Hf x Hr Hk eq_refl) as [Hx Hc]; by exists x).
Qed.

Lemma report_store_effect res st st' e : store_report res st = (st', e) ->
  match e with
  | Some _ => st' = st
  | None => exists x, tasks st !! PResult.TaskId res = Some x /\ tasks st' = <[PResult.TaskId res := reported (PResult.ExitCode res) x]> (tasks st) /\
      (PResult.ClaimEpoch res = 0 \/ PResult.ClaimEpoch res = Task.ClaimEpoch x) /\
      TaskStore.results st' = <[PResult.TaskId res := protoToResult res]> (TaskStore.results st)
  end.
Proof.
  unfold store_report, TaskStore.ReportResult. cbn [TaskResult.TaskID protoToResult TaskResult.ClaimEpoch TaskResult.ExitCode].
  destruct (tasks st !! _) as [x |] eqn:Ex; [| by intros [= <- <-]].
  destruct (Z.eqb_spec (PResult.ClaimEpoch res) 0), (Z.eqb_spec (PResult.ClaimEpoch res) (Task.ClaimEpoch x)); cbn [negb andb];
    intros E; injection E as <- <-; try done; (exists x; split; [done |]; split; [by destruct (_ != "") |]; split; [auto |];
    destruct (_ != ""); apply insert_insert_eq).
Qed.

(** The result of a report with or without the breaker: the store as it was, or with
    the report. *)
Lemma report_cases now res s :
  let res' := match PResult.FinishedAt res with None => PResult.set_FinishedAt (Some now) res | Some _ => res end in
  store (TaskService.ReportResult now (Some res) s).1 = store s \/
  exists st, store_report res' (store s) = (st, None) /\ store (TaskService.ReportResult now (Some res) s).1 = st.
Proof.
  cbv zeta. unfold TaskService.ReportResult. set (res' := match PResult.FinishedAt res with None => _ | Some _ => _ end).
  assert (Ha : forall s0, store (announce_report res' s0) = store s0).
  { intros s0. unfold announce_report. by destruct (TaskStore.GetTask _ _). }
  destruct (breaker s) as [b |]; [destruct (Circuit.allow now b) as [b' []]; [| by left] |];
    (destruct (store_report res' (store s)) as [st [[] |]] eqn:E; cbn [fst]; rewrite ?Ha; try (by left); right; by exists st).
Qed.

Lemma report_effect now req s : step_effect (tasks_of s) (tasks_of (step (OReport now req) s)).
Proof.
  cbn [step]. destruct req as [res |]; [| apply effect_refl]. destruct (report_cases now res s) as [-> | (st & E & ->)]; [apply effect_refl |].
  apply report_store_effect in E as (x & Hx & -> & _). by eapply effect_touch, t_report.
Qed.

Lemma change_effect id tenant admits f st :
  (forall x, admits x = true -> touch x (f x)) -> step_effect (tasks st) (tasks (change_task id tenant admits f st).1).
Proof.
  intros Hf. unfold change_task. destruct (tasks st !! id) as [x |] eqn:Hx; [| apply effect_refl].
  destruct (_ && _); [apply effect_refl |]. destruct (admits x) eqn:Ha; [| apply effect_refl]. cbn. eapply effect_touch; [done | by apply Hf].
Qed.

Lemma cancel_effect id tenant s : step_effect (tasks_of s) (tasks_of (step (OCancel id tenant) s)).
Proof.
  cbn [step]. unfold TaskService.CancelTask. destruct (id == ""); [apply effect_refl |].
  pose proof (change_effect id tenant (fun x => negb ((Task.Status x == TaskStatusDone) || (Task.Status x == TaskStatusFailed)))
    (Task.set_Status TaskStatusCancelled) (store s) (fun x _ => t_cancel x)) as H.
  unfold TaskStore.CancelTask. destruct (change_task _ _ _ _ _) as [st []]; [exact H | apply effect_refl].
Qed.

Lemma decide_effect id (r : TaskStore.t * bool) s : step_effect (tasks_of s) (tasks r.1) -> step_effect (tasks_of s) (tasks_of (decide_task id r s).1).
Proof. intros H. unfold decide_task. destruct (id == ""); [apply effect_refl |]. by destruct r as [st []]; [| apply effect_refl]. Qed.

Lemma approve_effect now id tenant by_ s : step_effect (tasks_of s) (tasks_of (step (OApprove now id tenant by_) s)).
Proof. apply decide_effect, change_effect. intros x Hx. apply t_decide; auto. Qed.
Lemma reject_effect now id tenant by_ s : step_effect (tasks_of s) (tasks_of (step (OReject now id tenant by_) s)).
Proof. apply decide_effect, change_effect. intros x Hx. apply t_decide; auto. Qed.

(** *** Batches and staged releases add tasks *)

Lemma drawn_S uuids n : drawn uuids (S n) = uuids 0%nat :: drawn (fun k => uuids (S k)) n.
Proof. unfold drawn. cbn [seq map]. f_equal. rewrite <- seq_shift, map_map. done. Qed.

Lemma drawn_prefix uuids n k : (n <= k)%nat -> drawn uuids n `prefix_of` drawn uuids k.
Proof. intros H. unfold drawn. replace k with (n + (k - n))%nat by lia. rewrite seq_app, map_app. apply prefix_app_r. done. Qed.

Definition all_new (ids : list string) (m : gmap string Task.t) : Prop := NoDup ids /\ forall id, id ∈ ids -> id <> "" /\ m !! id = None.

Lemma all_new_prefix ids ids' m : ids `prefix_of` ids' -> all_new ids' m -> all_new ids m.
Proof. intros [k ->] [H1 H2]. apply NoDup_app in H1 as (H1 & _ & _). split; [done |]. intros id Hid. apply H2, elem_of_app. by left. Qed.

Lemma all_new_cons id ids m x : all_new (id :: ids) m -> all_new ids (<[id := x]> m).
Proof.
  intros [[Hn Hd]%NoDup_cons H2]. split; [done |]. intros i Hi. destruct (H2 i) as [Hne Hm]; [by right |]. split; [done |].
  rewrite lookup_insert_ne; [done | congruence].
Qed.

(** What a list of new tasks leaves: the earlier tasks, and a new one per device. *)
Lemma add_batch_effect now b uuids req agents m st :
  step_effect m (tasks st) -> all_new (drawn uuids (length agents)) (tasks st) ->
  step_effect m (tasks (add_batch_tasks now b uuids req agents st)).
Proof.
  revert uuids st. induction agents as [| a agents IH]; intros uuids st Hm Hf; [done |]. cbn [add_batch_tasks length] in *. rewrite drawn_S in Hf.
  destruct (proj2 Hf (uuids 0%nat)) as [Hne Hn]; [by left |].
  destruct (create_store_effect now (protoToTask (batch_task b (uuids 0%nat) req a)) st) as (y & -> & Hb & Hid); [split; cbn; auto | done | done |].
  cbn [fst]. cbn in Hid. apply IH; cbn.
  - by apply effect_then_new.
  - by apply all_new_cons.
Qed.

Lemma batch_effect b uuids now req s : op_ok (OBatch b uuids now req) s -> step_effect (tasks_of s) (tasks_of (step (OBatch b uuids now req) s)).
Proof.
  cbn [step op_ok]. intros Hf. unfold CreateBatchTask. destruct (_ == ""); [apply effect_refl |]. cbn.
  apply add_batch_effect; [apply effect_refl |]. eapply all_new_prefix; [| exact Hf]. apply drawn_prefix.
  destruct (bool_decide_reflect (BatchRequest.AgentIds req = [])) as [-> |]; cbn; lia.
Qed.

Lemma exec_device_effect now uuid cid ph ty cmd ct pa te us d s m :
  step_effect m (tasks_of s) -> uuid <> "" -> tasks_of s !! uuid = None ->
  exists y, born y /\ Task.TaskID y = uuid /\ Task.AgentID y = d /\
    exec_device now uuid cid ph ty cmd ct pa te us d s =
      (emitAudit te us "canary_exec" uuid ("canary:" +:+ cid +:+ ":phase" +:+ itoa ph) LevelInfo
         [("taskID", uuid); ("status", Task.Status y); ("agentID", d)] (set_store (set_tasks (<[uuid := y]> (tasks_of s)) (store s)) s),
       BatchTaskItem.mk d uuid (Task.Status y) "") /\
    step_effect m (<[uuid := y]> (tasks_of s)).
Proof.
  intros Hm Hne Hn. exists (Task.set_CreatedAt now (canary_task uuid d ty cmd ct pa te)).
  unfold exec_device, TaskStore.CreateTask. cbn. split_and!; try done; [by split; auto |]. apply effect_then_new; try done. by split; auto.
Qed.

Lemma exec_devices_effect now uuids cid ph ty cmd ct pa te us devices m s :
  step_effect m (tasks_of s) -> all_new (drawn uuids (length devices)) (tasks_of s) ->
  step_effect m (tasks_of (exec_devices now uuids cid ph ty cmd ct pa te us devices s).1).
Proof.
  revert uuids s. induction devices as [| d devices IH]; intros uuids s Hm Hf; [done |]. cbn [exec_devices length] in *. rewrite drawn_S in Hf.
  destruct (proj2 Hf (uuids 0%nat)) as [Hne Hn]; [by left |].
  destruct (exec_device_effect now (uuids 0%nat) cid ph ty cmd ct pa te us d s m Hm Hne Hn) as (y & _ & _ & _ & -> & He).
  specialize (IH (fun n => uuids (S n))). destruct (exec_devices _ _ _ _ _ _ _ _ _ _ devices _) as [s2 items] eqn:E.
  match type of E with exec_devices _ _ _ _ _ _ _ _ _ _ _ ?z = _ => specialize (IH z) end. rewrite E in IH. apply IH; [exact He |].
  by apply (all_new_cons (uuids 0%nat)).
Qed.

Lemma phase_effect now uuids cid p ty cmd ct pa te us s m :
  step_effect m (tasks_of s) -> all_new (drawn uuids (length (CanaryPhase.DeviceIDs p))) (tasks_of s) ->
  step_effect m (tasks_of (execCanaryPhase now uuids cid p ty cmd ct pa te us s).1).
Proof.
  intros Hm Hf. unfold execCanaryPhase. pose proof (exec_devices_effect now uuids cid (CanaryPhase.Phase p) ty cmd ct pa te us _ m s Hm Hf) as H.
  by destruct (exec_devices _ _ _ _ _ _ _ _ _ _ _ _).
Qed.

(** *** The phases of a plan *)

Abbreviation devices_of := CanaryPhase.DeviceIDs.

Lemma pieces_concat size n i devices :
  concat (map devices_of (pieces size n i devices)) = take (n * size) (drop (i * size) devices).
Proof.
  revert i. induction n as [| n IH]; intros i; [done |]. cbn [pieces map concat devices_of pending_phase]. rewrite IH.
  replace (S i * size)%nat with (i * size + size)%nat by lia. rewrite <- drop_drop.
  replace (S n * size)%nat with (size + n * size)%nat by lia. apply take_take_drop.
Qed.

Lemma plan_covers devices strategy percentage groups :
  concat (map devices_of (planCanaryPhases devices strategy percentage groups)) = devices.
Proof.
  unfold planCanaryPhases. destruct (strategy == "percentage").
  - set (n := if (_ && _) then 1%nat else _). cbn [map concat devices_of pending_phase].
    destruct (Nat.ltb_spec n (length devices)); cbn [map concat devices_of pending_phase]; rewrite ?app_nil_r.
    + apply take_drop.
    + by apply take_ge.
  - destruct (strategy == "group"); [| cbn; apply app_nil_r]. rewrite pieces_concat. cbn [Nat.mul]. rewrite drop_0.
    set (k := if (length groups =? 0)%nat then 1%nat else length groups). assert (Hk : (0 < k)%nat) by (unfold k; destruct (Nat.eqb_spec (length groups) 0); lia).
    apply take_ge. pose proof (Nat.div_mod (length devices + k - 1) k ltac:(lia)) as E.
    pose proof (Nat.mod_upper_bound (length devices + k - 1) k ltac:(lia)). lia.
Qed.

Lemma plan_lengths devices strategy percentage groups p :
  p ∈ planCanaryPhases devices strategy percentage groups -> (length (devices_of p) <= length devices)%nat.
Proof.
  intros Hp. rewrite <- (plan_covers devices strategy percentage groups). revert Hp. generalize (planCanaryPhases devices strategy percentage groups).
  induction l as [| q l IH]; intros [-> | Hp]%elem_of_cons || intros []%not_elem_of_nil; cbn [map concat]; rewrite length_app; [lia |]. specialize (IH Hp). lia.
Qed.

Lemma canary_effect cid uuids now req s : op_ok (OCanary cid uuids now req) s -> step_effect (tasks_of s) (tasks_of (step (OCanary cid uuids now req) s)).
Proof.
  cbn [step op_ok]. intros Hf. unfold TaskService.CreateCanary. destruct (negb (canaryStore s)); [apply effect_refl |].
  destruct (_ || _); [apply effect_refl |]. destruct (if _ == TaskTypeShell then _ else _); [apply effect_refl |]. destruct (negb _); [apply effect_refl |].
  destruct (planCanaryPhases _ _ _ _) as [| p ps] eqn:Ep; [apply effect_refl |].
  match goal with |- context [execCanaryPhase now uuids cid p ?ty ?cmd ?ct ?pa ?te ?us s] =>
    pose proof (phase_effect now uuids cid p ty cmd ct pa te us s (tasks_of s) (effect_refl _)) as H;
    destruct (execCanaryPhase now uuids cid p ty cmd ct pa te us s) as [s2 p2] eqn:E end.
  cbn in H |- *. apply H. eapply all_new_prefix; [| exact Hf]. apply drawn_prefix.
  eapply plan_lengths. rewrite Ep. by left.
Qed.

Lemma advance_phases_effect now uuids c user ps s s' ps' n :
  advance_phases now uuids c user ps s = Some (s', ps') -> Forall (fun p => (length (devices_of p) <= n)%nat) ps ->
  all_new (drawn uuids n) (tasks_of s) -> step_effect (tasks_of s) (tasks_of s').
Proof.
  intros E Hn Hf. revert s' ps' E. induction Hn as [| p ps Hp Hn IH]; intros s' ps'; [done |]. cbn [advance_phases].
  destruct (CanaryPhase.Status p == "pending").
  - match goal with |- context [execCanaryPhase now uuids ?cid p ?ty ?cmd ?ct ?pa ?te ?us s] =>
      pose proof (phase_effect now uuids cid p ty cmd ct pa te us s (tasks_of s) (effect_refl _)) as H;
      destruct (execCanaryPhase now uuids cid p ty cmd ct pa te us s) as [s2 p2] eqn:E end.
    intros [= <- <-]. apply H. eapply all_new_prefix; [by apply drawn_prefix | done].
  - destruct (advance_phases now uuids c user ps s) as [[s2 ps2] |] eqn:E; [| done]. cbn. intros [= <- <-]. by eapply IH.
Qed.

Lemma list_max_ge (l : list nat) n : n ∈ l -> (n <= list_max l)%nat.
Proof. intros Hin. pose proof (proj1 (list_max_le l (list_max l)) ltac:(lia)) as H. rewrite List.Forall_forall in H. by apply H, list_elem_of_In. Qed.

Lemma advance_effect uuids now id tenant user s :
  op_ok (OAdvance uuids now id tenant user) s -> step_effect (tasks_of s) (tasks_of (step (OAdvance uuids now id tenant user) s)).
Proof.
  cbn [step op_ok]. unfold advance_size, AdvanceCanary, visible_canary, GetCanary. destruct (negb _); [intros; apply effect_refl |].
  destruct (canaries (store s) !! id) as [c |]; [| intros; apply effect_refl]. intros Hf. destruct (_ && _); [apply effect_refl |].
  destruct (advance_phases _ _ _ _ _ _) as [[s2 ps2] |] eqn:E; [| apply effect_refl]. cbn.
  eapply advance_phases_effect; [exact E | | exact Hf]. apply Forall_forall. intros p Hp.
  apply list_max_ge. apply (list_elem_of_fmap_2 (fun p => length (devices_of p))). done.
Qed.

Lemma status_effect id tenant s : tasks_of (step (OCanaryStatus id tenant) s) = tasks_of s.
Proof. cbn [step]. unfold GetCanaryStatus. by destruct (visible_canary _ _ _). Qed.

(** *** The loops *)

Lemma write_pass_effect pick change copies m st :
  (forall x, pick x = true -> touch x (change x) /\ Task.TaskID (change x) = Task.TaskID x) ->
  NoDup (Task.TaskID <$> copies) -> step_effect m (tasks st) ->
  (forall x, x ∈ copies -> m !! Task.TaskID x = Some x /\ tasks st !! Task.TaskID x = Some x) ->
  step_effect m (tasks (write_pass pick change copies st).1) .
Proof.
  intros Hp. revert st. induction copies as [| x copies IH]; intros st [Hnin Hnd]%NoDup_cons Hm Hin || intros st _ Hm _; [done |]. cbn [write_pass].
  destruct (Hin x ltac:(by left)) as [Hx1 Hx2].
  assert (Hrest : forall z, tasks (write_back pick change x st).1 = tasks st \/ (tasks (write_back pick change x st).1 = <[Task.TaskID x := z]> (tasks st)) ->
    forall y, y ∈ copies -> m !! Task.TaskID y = Some y /\ tasks (write_back pick change x st).1 !! Task.TaskID y = Some y).
  { intros z Hz y Hy. destruct (Hin y ltac:(by right)) as [H1 H2]. split; [done |]. destruct Hz as [-> | ->]; [done |].
    rewrite lookup_insert_ne; [done |]. intros E. apply Hnin. rewrite E. by apply list_elem_of_fmap_2. }
  assert (Hw : step_effect m (tasks (write_back pick change x st).1) /\
    (tasks (write_back pick change x st).1 = tasks st \/ tasks (write_back pick change x st).1 = <[Task.TaskID x := change x]> (tasks st))).
  { unfold write_back. destruct (pick x) eqn:Ep; [| by split; auto]. destruct (Hp x Ep) as [Ht Hid]. unfold UpdateTask. rewrite Hid, Hx2.
    destruct (_ == ""); cbn; [by split; auto |]. split; [| by right]. destruct Hm as [H1 H2]. split.
    - intros i y Hy. destruct (decide (i = Task.TaskID x)) as [-> | Hne]; [| rewrite lookup_insert_ne by done; by apply H1].
      rewrite lookup_insert_eq. eexists. split; [done |]. right. congruence.
    - intros i y Hi. destruct (decide (i = Task.TaskID x)) as [-> | Hne]; [congruence |]. rewrite lookup_insert_ne by done. by apply H2. }
  destruct Hw as [Hw Hcase]. specialize (IH (write_back pick change x st).1 Hnd Hw (Hrest _ Hcase)).
  destruct (write_back pick change x st) as [st2 ok]. cbn in IH. by destruct (write_pass pick change copies st2).
Qed.

Lemma all_copies r m : visits r -> keyed m -> NoDup (Task.TaskID <$> of_tasks r m) /\ forall x, x ∈ of_tasks r m -> m !! Task.TaskID x = Some x.
Proof.
  intros Hr Hk. split.
  - rewrite (Hr m). assert (Task.TaskID <$> (map_to_list m).*2 = (map_to_list m).*1) as ->; [| apply NoDup_fst_map_to_list].
    rewrite <- list_fmap_compose. apply list_fmap_ext. intros i [id x] Hi. apply list_elem_of_lookup_2, elem_of_map_to_list in Hi. by apply (Hk id).
  - intros x Hx. rewrite (Hr m) in Hx. apply list_elem_of_fmap in Hx as ([id y] & -> & Hy). apply elem_of_map_to_list in Hy. by destruct (Hk id y Hy) as [<- _].
Qed.

Lemma loop_effect r pick change s :
  visits r -> keyed (tasks_of s) -> (forall x, pick x = true -> touch x (change x) /\ Task.TaskID (change x) = Task.TaskID x) ->
  step_effect (tasks_of s) (tasks (write_pass pick change (AllTasks r (store s)) (store s)).1).
Proof.
  intros Hr Hk Hp. destruct (all_copies r (tasks_of s) Hr Hk) as [Hnd Hin].
  apply write_pass_effect; [done | done | apply effect_refl |]. intros x Hx. by split; apply Hin.
Qed.

(** ** The effect of every operation *)

Lemma task_step_moves o s : keyed (tasks_of s) -> op_ok o s -> step_effect (tasks_of s) (tasks_of (step o s)).
Proof.
  intros Hk Hok. destruct o.
  - by apply create_effect.
  - cbn [step]. destruct (TaskService.ClaimTask r now agentID s) as [s' res] eqn:E. pose proof (claim_spec _ _ _ _ _ _ Hok Hk E) as H.
    destruct res as [y |]; cbn; [| rewrite H; apply effect_refl]. destruct H as (x & Hx & Hc & _ & ->). by eapply effect_touch, t_claim.
  - apply report_effect.
  - apply cancel_effect.
  - apply approve_effect.
  - apply reject_effect.
  - cbn [step]. unfold TaskService.CreateSchedule. destruct req; apply effect_refl.
  - cbn [step]. unfold TaskService.UpdateSchedule, TaskStore.UpdateSchedule. destruct req as [x |]; [| apply effect_refl]. destruct (schedules _ !! _); apply effect_refl.
  - cbn [step]. unfold TaskService.DeleteSchedule, TaskStore.DeleteSchedule. destruct (schedules _ !! _); apply effect_refl.
  - by apply batch_effect.
  - by apply canary_effect.
  - rewrite status_effect. apply effect_refl.
  - by apply advance_effect.
  - apply loop_effect; [done | done |]. intros x Hx. unfold stale in Hx. apply andb_true_iff in Hx as [Hx _]. apply andb_true_iff in Hx as [Hx _].
    apply bool_decide_eq_true in Hx. split; [by apply t_reclaim | done].
  - apply loop_effect; [done | done |]. intros x _. split; [apply t_fire | done].
Qed.

Lemma keyed_step o s : keyed (tasks_of s) -> op_ok o s -> keyed (tasks_of (step o s)).
Proof. intros Hk Hok. eapply keyed_effect; [done | by apply task_step_moves]. Qed.
