(* ===== verification/TaskClaims.v ===== *)
(** * The task service: claims, reports and the loops

    Claims are fenced by their epochs as long as the loops do not interleave with
    them; what follows are the ways in which tasks get lost, repeated or revived. *)

From Stdlib Require Import Ascii.
From S2P Require Import GoStrings Prelude Breaker Cron CronPkg TaskSvc TaskService TaskLoops TaskProps.
Import TaskStore TaskService.
#[local] Open Scope Z_scope.
Open Scope go_scope.

(** ** Epochs *)

(** The claims of a run that succeed: the task and the epoch the agent is given. *)
Definition claim_of (o : op) (s : TaskService.t) : list (string * Z) :=
  match o with
  | OClaim r now a => match (TaskService.ClaimTask r now a s).2 with Ok y => [(PTask.TaskId y, PTask.ClaimEpoch y)] | Err _ => [] end
  | _ => []
  end.
Fixpoint claims (os : list op) (s : TaskService.t) : list (string * Z) := match os with [] => [] | o :: os => claim_of o s ++ claims os (step o s) end.

Definition epochs_within (k : Z) (s : TaskService.t) : Prop := forall id x, tasks_of s !! id = Some x -> 0 <= Task.ClaimEpoch x <= k.

Lemma touch_epoch x x' k : 0 <= Task.ClaimEpoch x <= k -> k < max_i64 -> touch x x' -> Task.ClaimEpoch x <= Task.ClaimEpoch x' <= k + 1.
Proof.
  intros Hx Hk. unfold max_i64 in Hk. destruct 1; cbn; try lia.
  - rewrite wrap_i64_id; unfold in_i64; lia.
  - unfold reported. repeat case_match; cbn; lia.
Qed.

Lemma epochs_step o s k : keyed (tasks_of s) -> op_ok o s -> epochs_within k s -> 0 <= k < max_i64 -> epochs_within (k + 1) (step o s).
Proof.
  intros Hk Ho He Hb id x' Hx'. destruct (task_step_moves o s Hk Ho) as [H1 H2]. destruct (tasks_of s !! id) as [x |] eqn:Hx.
  - destruct (H1 id x Hx) as (y & Hy & Ht). assert (y = x') as -> by congruence. specialize (He id x Hx).
    destruct Ht as [-> | Ht]; [lia |]. pose proof (touch_epoch x x' k He ltac:(lia) Ht). lia.
  - destruct (H2 id x' Hx Hx') as ([_ E] & _). lia.
Qed.

(** A claim that succeeds: its task, one epoch on. *)
Lemma claim_of_spec o s k id e : keyed (tasks_of s) -> op_ok o s -> epochs_within k s -> k < max_i64 -> (id, e) ∈ claim_of o s ->
  exists x y, tasks_of s !! id = Some x /\ e = Task.ClaimEpoch x + 1 /\ tasks_of (step o s) !! id = Some y /\ Task.ClaimEpoch y = e /\ claim_of o s = [(id, e)].
Proof.
  intros Hk Ho He Hb Hin. destruct o; try by apply not_elem_of_nil in Hin. cbn [claim_of step] in *.
  destruct (TaskService.ClaimTask r now agentID s) as [s' res] eqn:E. pose proof (claim_spec _ _ _ _ _ _ Ho Hk E) as H. cbn [fst snd] in *.
  destruct res as [y |]; [| by apply not_elem_of_nil in Hin]. destruct H as (x & Hx & Hc & -> & Ht). apply list_elem_of_singleton in Hin. injection Hin as -> ->.
  assert (Hw : wrap_i64 (Task.ClaimEpoch x + 1) = Task.ClaimEpoch x + 1).
  { apply wrap_i64_id. specialize (He _ x Hx). unfold in_i64, max_i64 in *. lia. }
  exists x, (claimed now agentID x). rewrite Ht, lookup_insert_eq. cbn. rewrite Hw. done.
Qed.

Lemma later_epochs os s k id e x :
  keyed (tasks_of s) -> run_ok os s -> epochs_within k s -> 0 <= k -> k + Z.of_nat (length os) <= max_i64 ->
  (id, e) ∈ claims os s -> tasks_of s !! id = Some x -> Task.ClaimEpoch x < e.
Proof.
  revert s k x. induction os as [| o os IH]; intros s k x Hk Hok He H0 Hb Hin Hx; [by apply not_elem_of_nil in Hin |].
  cbn [claims run_ok length] in *. destruct Hok as [Ho Hok]. apply elem_of_app in Hin as [Hin | Hin].
  - destruct (claim_of_spec o s k id e Hk Ho He ltac:(lia) Hin) as (x2 & _ & Hx2 & -> & _). assert (x2 = x) as -> by congruence. lia.
  - destruct (task_step_moves o s Hk Ho) as [H1 _]. destruct (H1 id x Hx) as (x' & Hx' & Ht).
    specialize (IH (step o s) (k + 1) x' (keyed_step o s Hk Ho) Hok (epochs_step o s k Hk Ho He ltac:(lia)) ltac:(lia) ltac:(lia) Hin Hx').
    destruct Ht as [-> | Ht]; [lia |]. pose proof (touch_epoch x x' k (He id x Hx) ltac:(lia) Ht). lia.
Qed.

Lemma claims_NoDup os s k :
  keyed (tasks_of s) -> run_ok os s -> epochs_within k s -> 0 <= k -> k + Z.of_nat (length os) <= max_i64 -> NoDup (claims os s).
Proof.
  revert s k. induction os as [| o os IH]; intros s k Hk Hok He H0 Hb; [apply NoDup_nil_2 |]. cbn [claims run_ok length] in *. destruct Hok as [Ho Hok].
  pose proof (keyed_step o s Hk Ho) as Hk'. pose proof (epochs_step o s k Hk Ho He ltac:(lia)) as He'.
  specialize (IH (step o s) (k + 1) Hk' Hok He' ltac:(lia) ltac:(lia)).
  destruct (claim_of o s) as [| [id e] l] eqn:Ec; [exact IH |].
  destruct (claim_of_spec o s k id e Hk Ho He ltac:(lia)) as (x & y & Hx & -> & Hy & Ey & E1); [rewrite Ec; by left |].
  rewrite Ec in E1. injection E1 as ->. cbn. apply NoDup_cons. split; [| done]. intros Hin.
  pose proof (later_epochs os (step o s) (k + 1) id _ y Hk' Hok He' ltac:(lia) ltac:(lia) Hin Hy). lia.
Qed.


(** That holds for whole passes only. The pass that marks schedules as
    fired writes back copies it has read before: when an agent claims a task that is due
    in between, the write undoes the claim, and the next claim of the task is given the
    same epoch, so that neither run can be told from the other. *)
Theorem fire_repeats_claim r now a st st1 y x :
  visits r -> keyed (tasks st) -> TaskStore.ClaimTask r now a st = (st1, Some y) ->
  tasks st !! Task.TaskID y = Some x -> due_template now x = true ->
  let st2 := (write_back (due_template now) (fired now) x st1).1 in
  tasks st2 !! Task.TaskID y = Some (fired now x) /\ claimable a (fired now x) = true /\
  forall r' now' st3 z, TaskStore.ClaimTask r' now' a st2 = (st3, Some z) -> Task.TaskID z = Task.TaskID y -> visits r' ->
    Task.ClaimEpoch z = Task.ClaimEpoch y.
Proof.
  intros Hr Hk Hc Hx Hd. unfold TaskStore.ClaimTask in Hc. destruct (List.find _ _) as [w |] eqn:Ef; [| done]. injection Hc as <- <-.
  destruct (find_claimable r st a w Hr Hk Ef) as [Hw Hcl]. cbn in Hx. assert (w = x) as -> by congruence. destruct (Hk _ _ Hx) as [_ Hne].
  assert (Hst2 : (write_back (due_template now) (fired now) x (set_tasks (<[Task.TaskID x := claimed now a x]> (tasks st)) st)).1
    = set_tasks (<[Task.TaskID x := fired now x]> (tasks st)) st).
  { unfold write_back. rewrite Hd. unfold UpdateTask. cbn. rewrite (bool_decide_eq_false_2 _ Hne), lookup_insert_eq. cbn.
    unfold set_tasks. cbn. by rewrite insert_insert_eq. }
  cbv zeta. rewrite Hst2. cbn. rewrite lookup_insert_eq. split; [done |]. split; [exact Hcl |].
  clear Ef. intros r' now' st3 z Hc Hid Hr'. unfold TaskStore.ClaimTask in Hc. destruct (List.find _ _) as [v |] eqn:Ev; [| done].
  injection Hc as <- <-.
  assert (Hk2 : keyed (<[Task.TaskID x := fired now x]> (tasks st))).
  { eapply keyed_effect; [exact Hk |]. eapply effect_touch; [exact Hx | apply t_fire]. }
  destruct (find_claimable r' (set_tasks (<[Task.TaskID x := fired now x]> (tasks st)) st) a v Hr' Hk2 Ev) as [Hv _].
  cbn in Hid, Hv. rewrite Hid, lookup_insert_eq in Hv. assert (v = fired now x) as -> by congruence. done.
Qed.

(** ** The loops *)

Definition never_running (s : TaskService.t) : Prop := forall id x, tasks_of s !! id = Some x -> Task.Status x <> TaskStatusRunning.

Lemma never_running_step o s : keyed (tasks_of s) -> op_ok o s -> never_running s -> never_running (step o s).
Proof.
  intros Hk Ho Hn id x' Hx'. destruct (task_step_moves o s Hk Ho) as [H1 H2]. destruct (tasks_of s !! id) as [x |] eqn:Hx.
  - destruct (H1 id x Hx) as (y & Hy & Ht). assert (y = x') as -> by congruence. specialize (Hn id x Hx).
    destruct Ht as [-> | Ht]; [done |]. destruct Ht as [| | | ? ? ? ? ? [-> | ->] | |]; try done. unfold reported. by repeat case_match.
  - destruct (H2 id x' Hx Hx') as ([[-> | ->] _] & _); done.
Qed.

Lemma run_keeps (P : TaskService.t -> Prop) os s :
  (forall o s, keyed (tasks_of s) -> op_ok o s -> P s -> P (step o s)) ->
  keyed (tasks_of s) -> run_ok os s -> P s -> keyed (tasks_of (run os s)) /\ P (run os s).
Proof.
  intros Hstep. revert s. induction os as [| o os IH]; intros s Hk Hok HP; [done |]. cbn [run_ok run foldl] in *. destruct Hok as [Ho Hok].
  apply IH; [by apply keyed_step | done | by apply Hstep].
Qed.

Lemma write_pass_none pick change copies st : (forall x, x ∈ copies -> pick x = false) -> write_pass pick change copies st = (st, 0%nat).
Proof.
  induction copies as [| x copies IH]; intros H; [done |]. cbn [write_pass]. unfold write_back. rewrite (H x) by (by left).
  rewrite IH; [done |]. intros y Hy. apply H. by right.
Qed.

(** A claimed task stays with an agent that is lost: claiming gives a task the status
    "claimed", no operation ever gives it "running", and "running" is the only status
    that the pass for abandoned tasks takes back: over every run that pass changes
    nothing and counts nothing, whatever the age. *)
Theorem lost_agents_keep_tasks os s r now maxAge :
  tasks_of s = ∅ -> run_ok os s -> visits r -> reclaimFn r now maxAge (store (run os s)) = (store (run os s), 0%nat).
Proof.
  intros H0 Hok Hr. destruct (run_keeps never_running os s never_running_step) as [Hk Hn]; [| done | |].
  - intros id x. by rewrite H0, lookup_empty.
  - intros id x. by rewrite H0, lookup_empty.
  - unfold reclaimFn. apply write_pass_none. intros x Hx. apply (all_copies r _ Hr Hk) in Hx. unfold stale.
    apply andb_false_iff. left. apply andb_false_iff. left. apply bool_decide_eq_false. exact (Hn _ x Hx).
Qed.

(** The writes of a pass over copies that are those of the store. *)
Lemma write_pass_marks pick change copies st :
  NoDup (Task.TaskID <$> copies) -> keyed (tasks st) -> (forall x, Task.TaskID (change x) = Task.TaskID x) ->
  (forall x, x ∈ copies -> tasks st !! Task.TaskID x = Some x) ->
  exists m, write_pass pick change copies st = (set_tasks m st, length (List.filter pick copies)) /\
    forall id, m !! id = match tasks st !! id with
                         | Some x => Some (if pick x && bool_decide (id ∈ Task.TaskID <$> copies) then change x else x)
                         | None => None end.
Proof.
  intros Hnd Hk Hid. revert st Hnd Hk. induction copies as [| x copies IH]; intros st Hnd Hk Hin.
  { exists (tasks st). split; [by destruct st |]. intros id. destruct (tasks st !! id); [| done].
    rewrite bool_decide_eq_false_2 by apply not_elem_of_nil. by rewrite andb_false_r. }
  rewrite fmap_cons in Hnd. apply NoDup_cons in Hnd as [Hn Hnd]. assert (Hx : tasks st !! Task.TaskID x = Some x) by (apply Hin; by left).
  destruct (Hk _ _ Hx) as [_ Hne]. set (st1 := if pick x then set_tasks (<[Task.TaskID x := change x]> (tasks st)) st else st).
  assert (Hother : forall id, id <> Task.TaskID x -> tasks st1 !! id = tasks st !! id).
  { intros id Hi. unfold st1. destruct (pick x); [| done]. cbn. by rewrite lookup_insert_ne. }
  assert (Hsame : tasks st1 !! Task.TaskID x = Some (if pick x then change x else x)).
  { unfold st1. destruct (pick x); [| done]. cbn. by rewrite lookup_insert_eq. }
  destruct (IH st1 Hnd) as (m & E & Hm).
  - intros id y Hy. destruct (decide (id = Task.TaskID x)) as [-> | Hi]; [| rewrite Hother in Hy by done; by apply Hk].
    rewrite Hsame in Hy. injection Hy as <-. by destruct (pick x); rewrite ?Hid.
  - intros y Hy. rewrite Hother; [apply Hin; by right |]. intros Ei. apply Hn. rewrite <- Ei. by apply list_elem_of_fmap_2.
  - exists m. split.
    + cbn [write_pass List.filter]. assert (Ew : write_back pick change x st = (st1, pick x)).
      { unfold write_back, st1. destruct (pick x); [| done]. unfold UpdateTask. rewrite Hid, Hx. by rewrite (bool_decide_eq_false_2 _ Hne). }
      rewrite Ew, E. unfold st1. by destruct (pick x).
    + intros id. rewrite (Hm id). destruct (decide (id = Task.TaskID x)) as [-> | Hi].
      * rewrite Hsame, Hx, (bool_decide_eq_false_2 _ Hn), andb_false_r, fmap_cons, bool_decide_eq_true_2 by (by left). by rewrite andb_true_r.
      * rewrite (Hother id Hi). destruct (tasks st !! id) as [y |] eqn:Hy; [| done].
        replace (bool_decide (id ∈ Task.TaskID <$> x :: copies)) with (bool_decide (id ∈ Task.TaskID <$> copies)); [done |].
        apply bool_decide_ext. rewrite fmap_cons. split; [by right |]. by intros [-> | ?]%elem_of_cons.
Qed.

(** The pass over the schedules derives no tasks: what it leaves is every task as it
    was, with the time of the pass as the last firing where the template is due, and it
    returns their number; nothing is added, and the schedules are not looked at. *)
Theorem fire_derives_nothing r now st :
  visits r -> keyed (tasks st) ->
  exists m, fireFn r now st = (set_tasks m st, length (List.filter (due_template now) (of_tasks r (tasks st)))) /\
    forall id, m !! id = (fun x => if due_template now x then fired now x else x) <$> tasks st !! id.
Proof.
  intros Hr Hk. destruct (all_copies r (tasks st) Hr Hk) as [Hnd Hin].
  destruct (write_pass_marks (due_template now) (fired now) (of_tasks r (tasks st)) st Hnd Hk ltac:(done) Hin) as (m & E & Hm).
  exists m. split; [exact E |]. intros id. rewrite Hm. destruct (tasks st !! id) as [x |] eqn:Hx; [| done]. cbn.
  rewrite bool_decide_eq_true_2; [by rewrite andb_true_r |]. rewrite (Hr (tasks st)). apply list_elem_of_fmap. exists x.
  split; [by destruct (Hk id x Hx) |]. apply list_elem_of_fmap. exists (id, x). split; [done |]. by apply elem_of_map_to_list.
Qed.

(** ** Runs to look at *)

(** Every map is visited in the order of its entries. *)
Definition in_order : ranges :=
  {| of_tasks m := (map_to_list m).*2; of_results m := (map_to_list m).*2; of_schedules m := (map_to_list m).*2; of_batches m := (map_to_list m).*2;
     of_canaries m := (map_to_list m).*2 |}.
Lemma in_order_visits : visits in_order.
Proof. intros m. reflexivity. Defined.

Definition ex_request : PTask.t :=
  PTask.mk "t-1" "agent-1" "acme" "" "uptime" "" "" "" "" None 0 None 0 2 false 30 0 "* * * * *" "" [] false "" None "".
Definition ex_report : PResult.t := PResult.mk "t-1" "agent-1" 1 "" "" 5 None 1.
Definition ex_now : time := unix_epoch.
Definition ex_empty : TaskService.t := NewService TaskStore.NewMemoryStore.
Definition ex_ops : list op :=
  [OCreate "u-1" ex_now (Some ex_request); OClaim in_order ex_now "agent-1"; OReport ex_now (Some ex_report); OClaim in_order ex_now "agent-1"].

Lemma ex_ops_ok : run_ok ex_ops ex_empty.
Proof.
  unfold ex_ops. cbn [run_ok op_ok]. split_and!; try done; try exact in_order_visits.
  split; [apply NoDup_singleton |]. intros id ->%list_elem_of_singleton. split; [done |]. vm_compute. reflexivity.
Defined.


Lemma lost_agents_keep_tasks_witness :
  map (fun x => (Task.Status x, Task.ClaimedBy x)) (of_tasks in_order (tasks_of (run ex_ops ex_empty))) = [("claimed", "agent-1")] /\
  reclaimFn in_order (ex_now + 1000000 * second) 0 (store (run ex_ops ex_empty)) = (store (run ex_ops ex_empty), 0%nat).
Proof. split; [vm_compute; reflexivity |]. apply lost_agents_keep_tasks; [reflexivity | apply ex_ops_ok | apply in_order_visits]. Defined.

Definition ex_stored : TaskStore.t := store (step (OCreate "u-1" ex_now (Some ex_request)) ex_empty).

Lemma ex_stored_keyed : keyed (tasks ex_stored).
Proof.
  apply (keyed_step (OCreate "u-1" ex_now (Some ex_request)) ex_empty); [intros id x; unfold ex_empty; cbn; by rewrite lookup_empty |].
  apply (proj1 ex_ops_ok).
Defined.

Lemma fire_repeats_claim_witness :
  exists y x, (TaskStore.ClaimTask in_order ex_now "agent-1" ex_stored).2 = Some y /\
    (let st2 := (write_back (due_template ex_now) (fired ex_now) x (TaskStore.ClaimTask in_order ex_now "agent-1" ex_stored).1).1 in
     tasks st2 !! Task.TaskID y = Some (fired ex_now x) /\ claimable "agent-1" (fired ex_now x) = true /\
     forall r' now' st3 z, TaskStore.ClaimTask r' now' "agent-1" st2 = (st3, Some z) -> Task.TaskID z = Task.TaskID y -> visits r' ->
       Task.ClaimEpoch z = Task.ClaimEpoch y).
Proof.
  eexists _, _. split; [vm_compute; reflexivity |].
  eapply (fire_repeats_claim in_order ex_now "agent-1" ex_stored); [apply in_order_visits | apply ex_stored_keyed | | vm_compute; reflexivity | vm_compute; reflexivity].
  apply pair_of_snd. vm_compute. reflexivity.
Defined.

Lemma fire_derives_nothing_witness :
  exists m, fireFn in_order ex_now ex_stored = (set_tasks m ex_stored, length (List.filter (due_template ex_now) (of_tasks in_order (tasks ex_stored)))) /\
    forall id, m !! id = (fun x => if due_template ex_now x then fired ex_now x else x) <$> tasks ex_stored !! id.
Proof. apply (fire_derives_nothing in_order ex_now ex_stored); [apply in_order_visits | apply ex_stored_keyed]. Defined.
