(* ===== verification/TaskReports.v ===== *)
(** * The task service: reports, retries, and the breaker

    How often a failing task is handed out; what a report of an earlier holder, or one
    without an epoch, does; what the circuit breaker takes for a failure; and which
    commands are let in. *)

From Stdlib Require Import Ascii.
From S2P Require Import GoStrings Prelude Breaker Cron CronPkg TaskSvc TaskService TaskLoops TaskProps TaskClaims.
Import TaskStore TaskService.
#[local] Open Scope Z_scope.
Open Scope go_scope.

(** ** Retries *)

(** The agent claims a task and reports that it failed, under the epoch it was given. *)
Definition failure (code : Z) (x : Task.t) : TaskResult.t := TaskResult.mk (Task.TaskID x) (Task.ClaimedBy x) code "" "" 0 zero_time (Task.ClaimEpoch x).
Definition failing_round (r : ranges) (now : time) (a : string) (code : Z) (st : TaskStore.t) : TaskStore.t :=
  match TaskStore.ClaimTask r now a st with
  | (st, None) => st
  | (st, Some x) => (TaskStore.ReportResult (failure code x) st).1
  end.

(** The only task of agent [a] is [x], under [id]. *)
Definition sole (a id : string) (x : Task.t) (st : TaskStore.t) : Prop :=
  keyed (tasks st) /\ tasks st !! id = Some x /\ forall id' x', tasks st !! id' = Some x' -> Task.AgentID x' = a -> id' = id.

Lemma sole_find r a id x st :
  visits r -> sole a id x st -> List.find (claimable a) (of_tasks r (tasks st)) = if claimable a x then Some x else None.
Proof.
  intros Hr (Hk & Hx & Ho). destruct (List.find _ _) as [y |] eqn:Ef.
  - destruct (find_claimable r st a y Hr Hk Ef) as [Hy Hc]. pose proof Hc as Hc'. apply andb_true_iff in Hc' as [_ Ha%bool_decide_eq_true].
    specialize (Ho _ _ Hy Ha). assert (y = x) as -> by congruence. by rewrite Hc.
  - destruct (claimable a x) eqn:Hc; [| done]. pose proof (find_none _ _ Ef x) as Hn. rewrite Hn in Hc; [done |].
    apply list_elem_of_In. rewrite (Hr (tasks st)). apply list_elem_of_fmap. exists (id, x). split; [done | by apply elem_of_map_to_list].
Qed.

Lemma sole_insert a id x y st : sole a id x st -> Task.TaskID y = id -> sole a id y (set_tasks (<[id := y]> (tasks st)) st).
Proof.
  intros (Hk & Hx & Ho) Hy. destruct (Hk _ _ Hx) as [_ Hne]. split_and!; cbn.
  - intros i z [[<- <-] | [_ Hz]]%lookup_insert_Some; [done | by apply Hk].
  - apply lookup_insert_eq.
  - intros i z [[<- <-] | [_ Hz]]%lookup_insert_Some; [done | by apply Ho].
Qed.

Lemma sole_results a id x v st : sole a id x st -> sole a id x (set_results v st).
Proof. done. Qed.

Lemma failing_round_step r now a code id x st :
  visits r -> sole a id x st -> claimable a x = true -> sole a id (reported code (claimed now a x)) (failing_round r now a code st).
Proof.
  intros Hr Hs Hc. unfold failing_round, TaskStore.ClaimTask. rewrite (sole_find r a id x st Hr Hs), Hc.
  pose proof Hs as (Hk & Hx & _). destruct (Hk _ _ Hx) as [Hid _]. unfold TaskStore.ReportResult. cbn [failure TaskResult.TaskID TaskResult.ClaimEpoch TaskResult.ExitCode].
  change (Task.TaskID (claimed now a x)) with (Task.TaskID x). rewrite Hid. cbn. rewrite lookup_insert_eq, Z.eqb_refl, andb_false_r. cbn.
  apply sole_results. rewrite insert_insert_eq.
  apply (sole_insert a id x _ st Hs). unfold reported. by repeat case_match.
Qed.

Lemma failing_round_stuck r now a code id x st : visits r -> sole a id x st -> claimable a x = false -> failing_round r now a code st = st.
Proof. intros Hr Hs Hc. unfold failing_round, TaskStore.ClaimTask. by rewrite (sole_find r a id x st Hr Hs), Hc. Qed.

(** A claim and a failing report, as long as retries are left, and at the last. *)
Lemma fails_again now a code x k :
  code <> 0 -> claimable a x = true -> Task.RetryCount x = Z.of_nat k -> Z.of_nat (S k) <= Task.MaxRetries x <= max_i64 ->
  let y := reported code (claimed now a x) in
  Task.MaxRetries y = Task.MaxRetries x /\ Task.RetryCount y = Z.of_nat (S k) /\
  if (Z.of_nat (S k) <? Task.MaxRetries x) then claimable a y = true /\ Task.DeadLetter y = Task.DeadLetter x
  else Task.Status y = TaskStatusFailed /\ Task.DeadLetter y = true.
Proof.
  intros Hcode [_ Ha]%andb_true_iff Hk Hm. cbv zeta. unfold reported. rewrite (proj2 (Z.eqb_neq code 0) Hcode). cbn. rewrite Hk.
  assert (wrap_i64 (Z.of_nat k + 1) = Z.of_nat (S k)) as ->.
  { rewrite wrap_i64_id; [lia |]. unfold in_i64, max_i64 in *. lia. }
  destruct (Z.ltb_spec (Z.of_nat (S k)) (Task.MaxRetries x)), (Z.geb_spec (Z.of_nat (S k)) (Task.MaxRetries x)); try lia; cbn; try done.
Qed.

(** A task whose runs fail is handed out exactly as often as its MaxRetries says:
    until then every failing report leaves it pending for its agent with one retry more,
    the last marks it as failed and dead, and from then on it is not handed out. *)
Theorem retries_exhausted r now a code id x st k :
  visits r -> sole a id x st -> claimable a x = true -> Task.RetryCount x = 0 -> 0 < Task.MaxRetries x <= max_i64 -> code <> 0 ->
  Task.DeadLetter x = false ->
  exists y, tasks (Nat.iter k (failing_round r now a code) st) !! id = Some y /\
    if (Z.of_nat k <? Task.MaxRetries x)
    then claimable a y = true /\ Task.RetryCount y = Z.of_nat k /\ Task.DeadLetter y = false
    else Task.Status y = TaskStatusFailed /\ Task.RetryCount y = Task.MaxRetries x /\ Task.DeadLetter y = true.
Proof.
  intros Hr Hs Hc H0 Hm Hcode Hd.
  enough (exists y, sole a id y (Nat.iter k (failing_round r now a code) st) /\ Task.MaxRetries y = Task.MaxRetries x /\
    if (Z.of_nat k <? Task.MaxRetries x) then claimable a y = true /\ Task.RetryCount y = Z.of_nat k /\ Task.DeadLetter y = false
    else Task.Status y = TaskStatusFailed /\ Task.RetryCount y = Task.MaxRetries x /\ Task.DeadLetter y = true)
    as (y & (_ & Hy & _) & _ & H); [by exists y |].
  induction k as [| k (y & Hy & Hmy & H)].
  - exists x. rewrite (proj2 (Z.ltb_lt _ _)) by lia. done.
  - rewrite Nat.iter_succ. destruct (Z.ltb_spec (Z.of_nat k) (Task.MaxRetries x)).
    + destruct H as (Hcy & Hry & Hdy). exists (reported code (claimed now a y)).
      destruct (fails_again now a code y k Hcode Hcy Hry ltac:(lia)) as (E1 & E2 & E3). split; [by apply failing_round_step |]. split; [congruence |].
      rewrite Hmy in E3. destruct (Z.ltb_spec (Z.of_nat (S k)) (Task.MaxRetries x)); destruct E3; split_and!; try congruence. lia.
    + destruct H as (Hsy & Hry & Hdy). exists y. rewrite (proj2 (Z.ltb_ge _ _)) by lia. split; [| done].
      rewrite (failing_round_stuck r now a code id y); [done | done | done |]. unfold claimable. by rewrite Hsy.
Qed.

(** ** Reports that are not from the holder *)

Definition stamped (now : time) (res : PResult.t) : PResult.t := match PResult.FinishedAt res with None => PResult.set_FinishedAt (Some now) res | Some _ => res end.

(** C27: a report under an epoch that has passed changes nothing in the store. But whether
    the agent is told depends on the breaker: without one the answer is the error; with
    one that lets calls through, the answer is a success, as if the report had been
    recorded. *)
Theorem superseded_report_succeeds now res s x :
  tasks_of s !! PResult.TaskId res = Some x -> PResult.ClaimEpoch res <> 0 -> PResult.ClaimEpoch res <> Task.ClaimEpoch x ->
  store (TaskService.ReportResult now (Some res) s).1 = store s /\
  (TaskService.ReportResult now (Some res) s).2 =
    match breaker s with
    | None => Err EpochMismatch
    | Some b => if (Circuit.allow now b).2 then Ok (stamped now res) else Err BreakerOpen
    end.
Proof.
  intros Hx H0 He. unfold TaskService.ReportResult. fold (stamped now res).
  assert (Hid : PResult.TaskId (stamped now res) = PResult.TaskId res /\ PResult.ClaimEpoch (stamped now res) = PResult.ClaimEpoch res)
    by (unfold stamped; by destruct (PResult.FinishedAt res)).
  destruct Hid as [Hid Hep]. assert (E : store_report (stamped now res) (store s) = (store s, Some ErrClaimEpochMismatch)).
  { unfold store_report, TaskStore.ReportResult. cbn [TaskResult.TaskID protoToResult TaskResult.ClaimEpoch]. rewrite Hid, Hep, Hx.
    by rewrite (proj2 (Z.eqb_neq _ _) H0), (proj2 (Z.eqb_neq _ _) He). }
  rewrite E. destruct (breaker s) as [b |]; [| done]. destruct (Circuit.allow now b) as [b' []]; [| done]. cbn.
  split; [| done]. unfold announce_report. by destruct (TaskStore.GetTask _ _).
Qed.

(** A failing report without an epoch is taken whatever the state of the task: while
    retries are left, it makes a task pending that was cancelled, rejected, done or still
    waiting for its approval, and the agent can claim it. *)
Theorem failed_report_revives now res s x :
  breaker s = None -> tasks_of s !! PResult.TaskId res = Some x -> PResult.ClaimEpoch res = 0 -> PResult.ExitCode res <> 0 ->
  wrap_i64 (Task.RetryCount x + 1) < Task.MaxRetries x ->
  exists y, tasks_of (TaskService.ReportResult now (Some res) s).1 !! PResult.TaskId res = Some y /\ claimable (Task.AgentID x) y = true.
Proof.
  intros Hb Hx He Hcode Hm. unfold TaskService.ReportResult. fold (stamped now res). rewrite Hb.
  assert (Hid : PResult.TaskId (stamped now res) = PResult.TaskId res /\ PResult.ClaimEpoch (stamped now res) = PResult.ClaimEpoch res /\
    PResult.ExitCode (stamped now res) = PResult.ExitCode res) by (unfold stamped; by destruct (PResult.FinishedAt res)).
  destruct Hid as (Hid & Hep & Hex). destruct (store_report (stamped now res) (store s)) as [st e] eqn:E.
  pose proof (report_store_effect _ _ _ _ E) as H. destruct e as [e |].
  { unfold store_report, TaskStore.ReportResult in E. cbn [TaskResult.TaskID protoToResult TaskResult.ClaimEpoch] in E. rewrite Hid, Hep, Hx, He in E. done. }
  destruct H as (y & Hy & Ht & _). rewrite Hid in Hy, Ht. rewrite Hex in Ht. assert (y = x) as -> by congruence.
  exists (reported (PResult.ExitCode res) x). split.
  - unfold announce_report. destruct (TaskStore.GetTask _ _); cbn; rewrite Ht; apply lookup_insert_eq.
  - unfold reported. rewrite (proj2 (Z.eqb_neq _ _) Hcode). cbn. destruct (Z.geb_spec (wrap_i64 (Task.RetryCount x + 1)) (Task.MaxRetries x)); [lia |].
    unfold claimable. cbn. by apply bool_decide_eq_true.
Qed.

(** ** The breaker *)

(** No task can be handed to the agent. *)
Definition idle (a : string) (s : TaskService.t) : Prop := forall id x, tasks_of s !! id = Some x -> claimable a x = false.

Definition poll (s : TaskService.t) (p : ranges * time * string) : TaskService.t := let '(r, now, a) := p in step (OClaim r now a) s.

Lemma idle_poll r now a s b :
  visits r -> a <> "" -> idle a s -> breaker s = Some b -> Circuit.state b = Circuit.StateClosed ->
  step (OClaim r now a) s = set_breaker (Circuit.recordResult now false b) s.
Proof.
  intros Hr Ha Hi Hb Hs. cbn [step]. unfold TaskService.ClaimTask. rewrite (bool_decide_eq_false_2 _ Ha), Hb. unfold Circuit.allow. rewrite Hs.
  unfold TaskStore.ClaimTask. destruct (List.find _ _) as [x |] eqn:Ef; [| done]. apply find_some in Ef as [Hin Hc]. exfalso.
  apply list_elem_of_In in Hin. rewrite (Hr (tasks_of s)) in Hin. apply list_elem_of_fmap in Hin as ([id y] & -> & Hin). apply elem_of_map_to_list in Hin.
  cbn in Hc. by rewrite (Hi id y Hin) in Hc.
Qed.

Definition ok_poll (s : TaskService.t) (p : ranges * time * string) : Prop := let '(r, _, a) := p in visits r /\ a <> "" /\ idle a s.

(** While fewer polls than the threshold have found nothing, the breaker counts them. *)
Lemma idle_polls_count polls s b :
  Forall (ok_poll s) polls -> breaker s = Some b -> Circuit.state b = Circuit.StateClosed -> Circuit.failures b = 0 ->
  Z.of_nat (length polls) < Circuit.maxFailures b < 2 ^ 32 ->
  store (foldl poll s polls) = store s /\ exists b', breaker (foldl poll s polls) = Some b' /\ Circuit.state b' = Circuit.StateClosed /\
    Circuit.failures b' = Z.of_nat (length polls) /\ Circuit.maxFailures b' = Circuit.maxFailures b /\ Circuit.timeout b' = Circuit.timeout b.
Proof.
  intros Hp Hb Hs Hf Hm. induction polls as [| [[r now] a] polls IH] using rev_ind; [split; [done |]; exists b; auto |].
  apply Forall_app in Hp as [Hp (Hr & Ha & Hi)%Forall_singleton]. rewrite length_app in *. cbn [length] in *.
  destruct (IH Hp ltac:(lia)) as (Est & b' & Hb' & Hs' & Hf' & Hm' & Ht'). rewrite foldl_app. cbn [foldl poll].
  rewrite (idle_poll r now a _ b' Hr Ha); [| intros id x; rewrite Est; by apply Hi | done | done].
  split; [done |]. eexists. split; [done |]. unfold Circuit.recordResult. rewrite Hs'. cbn.
  assert (wrap_u32 (Circuit.failures b' + 1) = Z.of_nat (length polls + 1)) as ->.
  { unfold wrap_u32. rewrite Z.mod_small; lia. }
  destruct (Z.geb_spec (Z.of_nat (length polls + 1)) (Circuit.maxFailures b')); [lia |]. done.
Qed.

(** That there is no work counts as a failure: as many polls without a task as the
    threshold says (five in the service), by whichever agents, open the breaker, and
    until its timeout has passed since the last of them every claim and every report is
    refused, those of the agents that have work included. *)
Theorem idle_polls_open_breaker polls r0 t0 a0 s b r now a res :
  Forall (ok_poll s) (polls ++ [(r0, t0, a0)]) -> breaker s = Some b -> Circuit.state b = Circuit.StateClosed -> Circuit.failures b = 0 ->
  Z.of_nat (length (polls ++ [(r0, t0, a0)])) = Circuit.maxFailures b -> Circuit.maxFailures b < 2 ^ 32 -> Sub now t0 < Circuit.timeout b ->
  let s' := foldl poll s (polls ++ [(r0, t0, a0)]) in
  store s' = store s /\ (a <> "" -> (TaskService.ClaimTask r now a s').2 = Err BreakerOpen) /\ (TaskService.ReportResult now (Some res) s').2 = Err BreakerOpen.
Proof.
  intros [Hp (Hr & Ha & Hi)%Forall_singleton]%Forall_app Hb Hs Hf Hm Hlt Hnow. rewrite length_app in Hm. cbn [length] in Hm. cbv zeta. rewrite foldl_app. cbn [foldl].
  destruct (idle_polls_count polls s b Hp Hb Hs Hf ltac:(lia)) as (Est & b' & Hb' & Hs' & Hf' & Hm' & Ht').
  assert (E : poll (foldl poll s polls) (r0, t0, a0) = set_breaker (Circuit.recordResult t0 false b') (foldl poll s polls)).
  { apply idle_poll; try done. intros id x. rewrite Est. apply Hi. }
  rewrite E. split; [done |].
  assert (Ho : Circuit.allow now (Circuit.recordResult t0 false b') = (Circuit.recordResult t0 false b', false)).
  { unfold Circuit.recordResult. rewrite Hs'. cbn. assert (wrap_u32 (Circuit.failures b' + 1) = Z.of_nat (length polls + 1)) as ->.
    { unfold wrap_u32. rewrite Z.mod_small; lia. }
    destruct (Z.geb_spec (Z.of_nat (length polls + 1)) (Circuit.maxFailures b')); [| lia].
    change (Circuit.StateClosed == Circuit.StateHalfOpen) with false. unfold Circuit.allow. cbn.
    destruct (Z.geb_spec (Sub now t0) (Circuit.timeout b')); [lia | done]. }
  split.
  - intros Hne. unfold TaskService.ClaimTask. cbn [breaker set_breaker]. by rewrite (bool_decide_eq_false_2 _ Hne), Ho.
  - unfold TaskService.ReportResult. cbn [breaker set_breaker]. by rewrite Ho.
Qed.

(** ** Commands *)

Lemma add_batch_keeps now b uuids req agents st id :
  id ∉ drawn uuids (length agents) -> tasks (add_batch_tasks now b uuids req agents st) !! id = tasks st !! id.
Proof.
  revert uuids st. induction agents as [| a agents IH]; intros uuids st Hn; [done |]. cbn [add_batch_tasks length] in *. rewrite drawn_S in Hn.
  apply not_elem_of_cons in Hn as [Hne Hn]. rewrite IH by done. cbn. by rewrite lookup_insert_ne.
Qed.

Lemma add_batch_lookup now b uuids req agents st i a :
  NoDup (drawn uuids (length agents)) -> agents !! i = Some a ->
  tasks (add_batch_tasks now b uuids req agents st) !! uuids i = Some (protoToTask (batch_task b (uuids i) req a)).
Proof.
  revert uuids st i. induction agents as [| a' agents IH]; intros uuids st i Hnd Hi; [done |]. cbn [add_batch_tasks length] in *. rewrite drawn_S in Hnd.
  apply NoDup_cons in Hnd as [Hn Hnd]. destruct i as [| i]; cbn in Hi.
  - injection Hi as ->. rewrite add_batch_keeps by done. cbn. by rewrite lookup_insert_eq.
  - exact (IH (fun n => uuids (S n)) _ i Hnd Hi).
Qed.

(** What [CreateTask] refuses, a batch lets in: for every command, one that is empty,
    too long or joins others included, a batch with a name leaves one task per agent that
    is pending with that command, was created in 1970 and has no retries, so that its
    first failure is its last. *)
Theorem batch_skips_validation b uuids now req s i a code :
  BatchRequest.Name req <> "" -> NoDup (drawn uuids (length (BatchRequest.AgentIds req))) -> BatchRequest.AgentIds req !! i = Some a -> code <> 0 ->
  exists x, tasks_of (CreateBatchTask b uuids now req s).1 !! uuids i = Some x /\
    Task.Command x = BatchRequest.Command req /\ claimable a x = true /\ Task.CreatedAt x = unix_epoch /\ Task.MaxRetries x = 0 /\
    Task.DeadLetter (reported code (claimed now a x)) = true.
Proof.
  intros Hn Hnd Hi Hcode. unfold CreateBatchTask. rewrite (bool_decide_eq_false_2 _ Hn). cbn [fst store set_store].
  assert (BatchRequest.AgentIds req <> []) as Hne by (intros E; by rewrite E in Hi). rewrite (bool_decide_eq_false_2 _ Hne).
  rewrite (add_batch_lookup _ _ _ _ _ _ i a Hnd Hi). eexists. split; [done |]. split_and!; try done.
  - unfold claimable. cbn. by rewrite !bool_decide_eq_true_2.
  - unfold reported. by rewrite (proj2 (Z.eqb_neq _ _) Hcode).
Qed.

(** A command that is accepted has no way to start another: it is not empty, fits
    the limit, and holds no line break, no semicolon, no substitution, no pipe; every
    ampersand of it is part of a redirection or of a conjunction. *)
Theorem accepted_commands_clean uuid now x s y :
  (TaskService.CreateTask uuid now (Some x) s).2 = Ok y ->
  let c := PTask.Command y in
  c = PTask.Command x /\ c <> "" /\ Z.of_nat (String.length c) <= maxCommandLen /\
  Forall (fun w => Contains w c = false) [nl; cr; ";"; "$("; "`"; "|"] /\
  Contains "&" (ReplaceAll "&&" "" (ReplaceAll "&>" "" (ReplaceAll ">&" "" c))) = false /\
  tasks_of (TaskService.CreateTask uuid now (Some x) s).1 !! PTask.TaskId y = Some (protoToTask y).
Proof.
  unfold TaskService.CreateTask. destruct (ValidateCommand (PTask.Command x)) eqn:Ev; [done |]. cbn [fst snd]. intros [= <-]. cbv zeta.
  assert (Hc : PTask.Command (completed uuid now x) = PTask.Command x) by (unfold completed; by repeat case_match). rewrite Hc.
  unfold ValidateCommand in Ev. split; [done |].
  destruct (bool_decide_reflect (PTask.Command x = "")); [done |]. destruct (Z.gtb_spec (Z.of_nat (String.length (PTask.Command x))) maxCommandLen); [done |].
  repeat (match goal with H : (if Contains ?w ?c then _ else _) = None |- _ => destruct (Contains w c) eqn:?; [done |] end).
  split; [done |]. split; [done |]. split; [by repeat constructor |]. split; [done |]. cbn [emitAudit store set_store]. unfold TaskStore.CreateTask.
  assert (Hs : Task.Status (protoToTask (completed uuid now x)) <> "") by (unfold completed; cbn; by repeat case_match).
  assert (Ht : Task.CreatedAt (protoToTask (completed uuid now x)) = now) by (unfold completed; cbn; by repeat case_match).
  rewrite Ht. set (z := protoToTask (completed uuid now x)) in *.
  assert (Ez : (if IsZero now then Task.set_CreatedAt now z else z) = z) by (rewrite <- Ht; destruct z; by destruct (IsZero _)).
  rewrite Ez, (bool_decide_eq_false_2 _ Hs). cbn. apply lookup_insert_eq.
Qed.

(** ** Concrete services *)

Lemma ex_stored_sole : exists x, (tasks ex_stored !! "t-1" = Some x /\ claimable "agent-1" x = true /\ Task.MaxRetries x = 2) /\ sole "agent-1" "t-1" x ex_stored.
Proof.
  eexists. split; [vm_compute; done |]. split; [apply ex_stored_keyed |]. split; [vm_compute; reflexivity |].
  assert (Hm : map_Forall (fun id _ => id = "t-1") (tasks ex_stored)) by (apply (bool_decide_unpack _); vm_compute; exact I).
  intros id y E _. exact (Hm id y E).
Defined.

Lemma retries_exhausted_witness :
  exists y z, tasks (Nat.iter 1 (failing_round in_order ex_now "agent-1" 1) ex_stored) !! "t-1" = Some y /\ Task.Status y = TaskStatusPending /\
    tasks (Nat.iter 2 (failing_round in_order ex_now "agent-1" 1) ex_stored) !! "t-1" = Some z /\ Task.DeadLetter z = true.
Proof.
  destruct ex_stored_sole as (x & (Hx & Hc & Hm) & Hs).
  assert (Hx' : Task.RetryCount x = 0 /\ Task.DeadLetter x = false) by (vm_compute in Hx; injection Hx as <-; done). destruct Hx' as [H0 Hd].
  destruct (retries_exhausted in_order ex_now "agent-1" 1 "t-1" x ex_stored 1 in_order_visits Hs Hc H0 ltac:(rewrite Hm; unfold max_i64; lia) ltac:(done) Hd)
    as (y & Hy & H1).
  destruct (retries_exhausted in_order ex_now "agent-1" 1 "t-1" x ex_stored 2 in_order_visits Hs Hc H0 ltac:(rewrite Hm; unfold max_i64; lia) ltac:(done) Hd)
    as (z & Hz & H2).
  rewrite Hm in H1, H2. cbn in H1, H2. destruct H1 as (H1 & _). destruct H2 as (_ & _ & H2). apply andb_true_iff in H1 as [H1 _]. apply bool_decide_eq_true in H1.
  exists y, z. split; [exact Hy |]. split; [exact H1 |]. split; [exact Hz | exact H2].
Defined.

Definition ex_held : TaskService.t := step (OClaim in_order ex_now "agent-1") (step (OCreate "u-1" ex_now (Some ex_request)) ex_empty).
Definition ex_breaker : Circuit.t := Circuit.New "task-execution" 5 (30 * second).
Definition ex_old_report : PResult.t := PResult.mk "t-1" "agent-2" 0 "" "" 5 (Some ex_now) 7.

Lemma superseded_report_succeeds_witness :
  (TaskService.ReportResult ex_now (Some ex_old_report) ex_held).2 = Err EpochMismatch /\
  (TaskService.ReportResult ex_now (Some ex_old_report) (SetCircuitBreaker ex_breaker ex_held)).2 = Ok ex_old_report /\
  store (TaskService.ReportResult ex_now (Some ex_old_report) (SetCircuitBreaker ex_breaker ex_held)).1 = store ex_held.
Proof.
  assert (Hx : exists x, tasks_of ex_held !! "t-1" = Some x /\ Task.ClaimEpoch x = 1) by (eexists; split; vm_compute; reflexivity).
  assert (Hb : breaker ex_held = None) by (vm_compute; reflexivity). revert Hx Hb. generalize ex_held. intros h (x & Hx & He) Hb.
  assert (Hn : PResult.ClaimEpoch ex_old_report <> Task.ClaimEpoch x) by (rewrite He; discriminate).
  assert (Ha : (Circuit.allow ex_now ex_breaker).2 = true) by (vm_compute; reflexivity).
  destruct (superseded_report_succeeds ex_now ex_old_report h x Hx ltac:(discriminate) Hn) as [_ H1]. rewrite Hb in H1.
  destruct (superseded_report_succeeds ex_now ex_old_report (SetCircuitBreaker ex_breaker h) x Hx ltac:(discriminate) Hn) as [H2 H3].
  change (breaker (SetCircuitBreaker ex_breaker h)) with (Some ex_breaker) in H3. cbv iota in H3. rewrite Ha in H3.
  split; [exact H1 | split; [exact H3 | exact H2]].
Defined.

Definition ex_cancelled : TaskService.t := step (OCancel "t-1" "acme") ex_held.
Definition ex_stray : PResult.t := PResult.mk "t-1" "agent-2" 1 "" "" 5 (Some ex_now) 0.

Lemma failed_report_revives_witness :
  exists x y, tasks_of ex_cancelled !! "t-1" = Some x /\ Task.Status x = TaskStatusCancelled /\
    tasks_of (TaskService.ReportResult ex_now (Some ex_stray) ex_cancelled).1 !! "t-1" = Some y /\ claimable "agent-1" y = true.
Proof.
  assert (Hx : exists x, tasks_of ex_cancelled !! "t-1" = Some x /\ Task.Status x = TaskStatusCancelled /\ Task.AgentID x = "agent-1" /\ Task.RetryCount x = 0 /\ Task.MaxRetries x = 2)
    by (eexists; split; [vm_compute; reflexivity | done]).
  destruct Hx as (x & Hx & Hs & Ha & H0 & Hm).
  destruct (failed_report_revives ex_now ex_stray ex_cancelled x ltac:(done) Hx ltac:(done) ltac:(done) ltac:(rewrite H0, Hm; done)) as (y & Hy & Hc).
  rewrite Ha in Hc. exists x, y. split; [exact Hx |]. split; [exact Hs |]. split; [exact Hy | exact Hc].
Defined.

Definition ex_guarded : TaskService.t := SetCircuitBreaker ex_breaker (step (OCreate "u-1" ex_now (Some ex_request)) ex_empty).
Definition ex_idle_polls (a : string) (n : nat) : list (ranges * time * string) := replicate n (in_order, ex_now, a).

Lemma ex_polls_ok n : Forall (ok_poll ex_guarded) (ex_idle_polls "agent-2" n).
Proof.
  apply Forall_replicate. split; [exact in_order_visits |]. split; [done |].
  assert (Hm : map_Forall (fun _ x => claimable "agent-2" x = false) (tasks_of ex_guarded)) by (apply (bool_decide_unpack _); vm_compute; exact I).
  exact Hm.
Defined.

Lemma idle_polls_open_breaker_witness :
  (exists y, (TaskService.ClaimTask in_order (ex_now + 20 * second) "agent-1" ex_guarded).2 = Ok y) /\
  (TaskService.ClaimTask in_order (ex_now + 20 * second) "agent-1" (foldl poll ex_guarded (ex_idle_polls "agent-2" 4 ++ ex_idle_polls "agent-2" 1))).2 = Err BreakerOpen.
Proof.
  split; [eexists; vm_compute; reflexivity |].
  apply (idle_polls_open_breaker (ex_idle_polls "agent-2" 4) in_order ex_now "agent-2" ex_guarded ex_breaker in_order (ex_now + 20 * second) "agent-1" ex_stray);
    [apply (ex_polls_ok 5) | reflexivity | reflexivity | reflexivity | reflexivity | reflexivity | reflexivity | discriminate].
Defined.

Definition ex_batch : BatchRequest.t := BatchRequest.mk "wipe" "acme" "" "true; rm -rf /" "" "" "" ["agent-1"; "agent-2"].
Definition ex_uuids (n : nat) : string := "u-" +:+ itoa (Z.of_nat n).

Lemma batch_skips_validation_witness :
  ValidateCommand "true; rm -rf /" = Some Separator /\
  exists x, tasks_of (CreateBatchTask "b-1" ex_uuids ex_now ex_batch ex_empty).1 !! "u-1" = Some x /\ Task.Command x = "true; rm -rf /" /\
    claimable "agent-2" x = true /\ Task.CreatedAt x = unix_epoch /\ Task.MaxRetries x = 0 /\ Task.DeadLetter (reported 1 (claimed ex_now "agent-2" x)) = true.
Proof.
  split; [vm_compute; reflexivity |].
  apply (batch_skips_validation "b-1" ex_uuids ex_now ex_batch ex_empty 1 "agent-2" 1); [discriminate | | reflexivity | discriminate].
  apply (bool_decide_unpack _). vm_compute. exact I.
Defined.

Lemma accepted_commands_clean_witness :
  exists y, (TaskService.CreateTask "u-1" ex_now (Some ex_request) ex_empty).2 = Ok y /\ Contains ";" (PTask.Command y) = false.
Proof.
  eexists. split; [vm_compute; reflexivity |].
  pose proof (accepted_commands_clean "u-1" ex_now ex_request ex_empty _ ltac:(vm_compute; reflexivity)) as (_ & _ & _ & H & _).
  rewrite Forall_forall in H. apply H. by do 2 right; left.
Defined.
