(* ===== verification/TaskLeader.v ===== *)
(** * The task service: who leads

    The table of leases in the database fulfils the contract of [Lease.LeaseOps], and
    over every store that does, at most one replica at a time holds a lease that has not
    run out; when the leader is lost, another one takes over. *)

From Stdlib Require Import Ascii.
From S2P Require Import GoStrings Prelude Cron CronPkg TaskSvc TaskLoops.
#[local] Open Scope Z_scope.
Open Scope go_scope.

(** ** The table of leases *)

Module LeaseTable.
Import MySQLLeaseOps.

Lemma until_after now ttl : millisecond <= ttl -> now < until now ttl.
Proof.
  unfold until, DATETIME3, millisecond, microsecond. intros H.
  rewrite Z.quot_div_nonneg by lia.
  pose proof (Z.div_mod ttl 1000 ltac:(lia)). pose proof (Z.mod_pos_bound ttl 1000 ltac:(lia)).
  set (x := now + ttl / 1000 * 1000 + 500 * 1000).
  pose proof (Z.div_mod x 1000000 ltac:(lia)). pose proof (Z.mod_pos_bound x 1000000 ltac:(lia)). unfold x in *. lia.
Qed.

Lemma until_mono t1 t2 ttl : t1 <= t2 -> until t1 ttl <= until t2 ttl.
Proof.
  unfold until, DATETIME3, millisecond, microsecond. intros H.
  apply Z.mul_le_mono_nonneg_r; [lia |]. apply Z.div_le_mono; lia.
Qed.

Lemma held_insert name h t u tb : h <> "" -> held name (<[name := Row h t u]> tb) = Some (Lease.mk h t).
Proof. intros Hh. unfold held. rewrite lookup_insert_eq. cbn. by rewrite (bool_decide_eq_false_2 _ Hh). Qed.

Lemma heldBy_insert name h t u now tb : heldBy name h now (<[name := Row h t u]> tb) = (now <? t).
Proof. unfold heldBy. rewrite lookup_insert_eq. cbn. by rewrite bool_decide_eq_true_2. Qed.

Lemma on_duplicate_free h x now r : free h now r = true -> on_duplicate h x now r = Row h x now.
Proof.
  intros Hf. unfold on_duplicate. rewrite Hf. cbn. assert (E : free h now (Row h (lease_until r) (updated_at r)) = true).
  { unfold free. cbn. rewrite (bool_decide_eq_true_2 (h = h)) by done. apply orb_true_r. }
  by rewrite E.
Qed.

Lemma on_duplicate_taken h x now r : free h now r = false -> on_duplicate h x now r = Row (holder_identity r) (lease_until r) now.
Proof. intros Hf. unfold on_duplicate. rewrite Hf. destruct r as [hi lu ua]. cbn in *. by rewrite Hf. Qed.

(** The cases of the statement: the lease is free and taken, unless the row says so
    already; or it is not. *)
Lemma Acquire_cases name h ttl now tb :
  h <> "" -> millisecond <= ttl ->
  let free_ := match tb !! name with None => True | Some r => free h now r = true end in
  (free_ /\ Acquire name h ttl now tb = (<[name := Row h (until now ttl) now]> tb, true)) \/
  (exists r, tb !! name = Some r /\ r = Row h (until now ttl) now /\ Acquire name h ttl now tb = (tb, false)) \/
  (exists r, tb !! name = Some r /\ free h now r = false /\ (Acquire name h ttl now tb).2 = false /\
    held name (Acquire name h ttl now tb).1 = held name tb).
Proof.
  intros Hh Httl. pose proof (until_after now ttl Httl) as Hu. cbv zeta. unfold Acquire. destruct (tb !! name) as [r |] eqn:Er.
  - destruct (free h now r) eqn:Hf.
    + rewrite (on_duplicate_free _ _ _ _ Hf). destruct (bool_decide_reflect (Row h (until now ttl) now = r)) as [<- |].
      * right. left. by eexists.
      * left. split; [done |]. rewrite heldBy_insert. by rewrite (proj2 (Z.ltb_lt _ _) Hu).
    + right. right. exists r. rewrite (on_duplicate_taken _ _ _ _ Hf). split; [done |]. split; [done |].
      unfold free in Hf. apply orb_false_iff in Hf as [Hf Hne%bool_decide_eq_false]. apply orb_false_iff in Hf as [He%bool_decide_eq_false _].
      destruct (bool_decide_reflect (Row (holder_identity r) (lease_until r) now = r)); [done |]. split.
      * unfold heldBy. cbn [snd]. rewrite lookup_insert_eq. cbn. by rewrite (bool_decide_eq_false_2 _ Hne).
      * unfold held. cbn [fst]. by rewrite lookup_insert_eq, Er.
  - left. split; [done |]. rewrite heldBy_insert. by rewrite (proj2 (Z.ltb_lt _ _) Hu).
Qed.

Lemma free_held name h now tb r x : tb !! name = Some r -> free h now r = true -> held name tb = Some x -> Lease.holder x = h \/ Lease.expires x <= now.
Proof.
  intros Er Hf Hx. unfold held in Hx. rewrite Er in Hx. cbn in Hx. destruct (bool_decide_reflect (holder_identity r = "")) as [| Hne]; [done |].
  injection Hx as <-. cbn. unfold free in Hf. apply orb_true_iff in Hf as [Hf | Hf%bool_decide_eq_true]; [| by left].
  apply orb_true_iff in Hf as [Hf%bool_decide_eq_true | Hf%Z.ltb_lt]; [done |]. right. lia.
Qed.

Lemma Renew_cases name h ttl now tb :
  h <> "" ->
  (Renew name h ttl now tb = (<[name := Row h (until now ttl) now]> tb, true) /\ exists x, held name tb = Some x /\ Lease.holder x = h) \/
  Renew name h ttl now tb = (tb, false).
Proof.
  intros Hh. unfold Renew, held. destruct (tb !! name) as [r |]; [| by right]. cbn.
  destruct (bool_decide_reflect (holder_identity r = h)) as [E |]; [| by right]. destruct (now <? lease_until r); [| by right]. cbn.
  destruct (_ == r); [by right |]. left. split; [done |]. exists (Lease.mk h (lease_until r)). by rewrite E, (bool_decide_eq_false_2 _ Hh).
Qed.

(** What [K8sLeaseOps] promises holds of the table. *)
#[export, refine] Instance mysql_leases : Lease.LeaseOps (gmap string row) := {
  Lease.Acquire := Acquire; Lease.Renew := Renew; Lease.Release := Release; Lease.held := held; Lease.until := until;
  Lease.granularity := millisecond;
  Lease.Acquire_taken := _; Lease.Acquire_refused := _; Lease.Acquire_free := _; Lease.Renew_done := _; Lease.Renew_refused := _;
  Lease.Release_effect := _; Lease.until_later := until_mono }.
Proof.
  - intros name h ttl now tb tb' Hh Httl E. destruct (Acquire_cases name h ttl now tb Hh Httl) as [[Hf Ea] | [(r & _ & _ & Ea) | (r & _ & _ & Ea & _)]];
      rewrite E in Ea; [| done | done]. injection Ea as ->. split; [by apply held_insert |]. intros x Hx.
    destruct (tb !! name) as [r |] eqn:Er; [by eapply free_held |]. unfold held in Hx. by rewrite Er in Hx.
  - intros name h ttl now tb tb' Hh Httl E. destruct (Acquire_cases name h ttl now tb Hh Httl) as [[Hf Ea] | [(r & _ & _ & Ea) | (r & _ & _ & _ & Ea)]];
      rewrite E in Ea; [done | by injection Ea as -> | done].
  - intros name h ttl now tb Hh Httl Hexp. pose proof (until_after now ttl Httl) as Hu.
    destruct (Acquire_cases name h ttl now tb Hh Httl) as [[Hf Ea] | [(r & Er & -> & _) | (r & Er & Hf & _)]]; [by rewrite Ea | |]; exfalso.
    + specialize (Hexp (Lease.mk h (until now ttl))). unfold held in Hexp. rewrite Er in Hexp. cbn in Hexp. rewrite (bool_decide_eq_false_2 _ Hh) in Hexp.
      specialize (Hexp eq_refl). lia.
    + unfold free in Hf. apply orb_false_iff in Hf as [Hf _]. apply orb_false_iff in Hf as [He%bool_decide_eq_false Hl%Z.ltb_ge].
      specialize (Hexp (Lease.mk (holder_identity r) (lease_until r))). unfold held in Hexp. rewrite Er in Hexp. cbn in Hexp.
      rewrite (bool_decide_eq_false_2 _ He) in Hexp. specialize (Hexp eq_refl). lia.
  - intros name h ttl now tb tb' Hh E. destruct (Renew_cases name h ttl now tb Hh) as [[Ea Hx] | Ea]; rewrite E in Ea; [| done]. injection Ea as ->.
    split; [by apply held_insert | done].
  - intros name h ttl now tb tb' Hh E. destruct (Renew_cases name h ttl now tb Hh) as [[Ea Hx] | Ea]; rewrite E in Ea; [done |]. by injection Ea as ->.
  - intros name h now tb tb' ok Hh. unfold Release. destruct (tb !! name) as [r |] eqn:Er; [| intros [= <- <-]; by left].
    destruct (bool_decide_reflect (holder_identity r = h)) as [Eh |]; intros [= <- <-]; [| by left]. right. split; [done |]. split.
    + unfold held. by rewrite lookup_insert_eq.
    + exists (Lease.mk h (lease_until r)). unfold held. rewrite Er. cbn. by rewrite Eh, (bool_decide_eq_false_2 _ Hh).
Defined.
End LeaseTable.

(** ** The election *)

(** The replicas by their identities, with the store of leases between them. *)
Module Election.
Import K8sLeaseElector.

Record t (L : Type) := mk { electors : string -> K8sLeaseElector.t; leases : L }.
Arguments mk {L}. Arguments electors {L}. Arguments leases {L}.

(** A tick of the leader loop of a replica, or its shutdown. *)
Inductive event := Tick (who : string) (now : time) | Stop (who : string) (now : time).
Definition when (e : event) : time := match e with Tick _ now | Stop _ now => now end.
Definition who (e : event) : string := match e with Tick h _ | Stop h _ => h end.

Section election.
Context `{Lease.LeaseOps L} (name : string) (ttl : duration) (long_enough : (Lease.granularity <= ttl)%Z).

Definition start (l : L) : t L := mk (NewK8sLease name) l.
Definition set_elector (h : string) (e : K8sLeaseElector.t) (l : L) (s : t L) : t L := mk (fun x => if x == h then e else electors s x) l.
Definition step (s : t L) (ev : event) : t L :=
  match ev with
  | Tick h now => let '(e, l, _) := Renew ttl now (electors s h) (leases s) in set_elector h e l s
  | Stop h now => let '(e, l, _) := Close now (electors s h) (leases s) in set_elector h e l s
  end.
Definition run (evs : list event) (s : t L) : t L := foldl step s evs.

(** The replica believes that it leads, and its lease has not run out. *)
Definition leads (s : t L) (h : string) (now : time) : Prop :=
  IsLeader (electors s h) = true /\ now < Lease.until (lastRenewAt (electors s h)) ttl.

(** Events in the order of time, of replicas with a name. *)
Fixpoint timely (from : time) (evs : list event) : Prop :=
  match evs with [] => True | ev :: evs => from <= when ev /\ who ev <> "" /\ timely (when ev) evs end.
Definition last_time (from : time) (evs : list event) : time := foldl (fun _ ev => when ev) from evs.

Record election_inv (now : time) (s : t L) : Prop := {
  named : forall h, holder (electors s h) = h /\ leaseName (electors s h) = name;
  leads_held : forall h t, h <> "" -> now <= t -> leads s h t -> Lease.held name (leases s) = Some (Lease.mk h (Lease.until (lastRenewAt (electors s h)) ttl));
  held_until : forall x, Lease.held name (leases s) = Some x -> Lease.expires x <= Lease.until now ttl;
}.

Lemma start_inv l now : (forall x, Lease.held name l = Some x -> Lease.expires x <= Lease.until now ttl) -> election_inv now (start l).
Proof. intros Hl. split; [done | | exact Hl]. by intros h t Hh Ht [Hl' _]. Qed.

Lemma electors_same h e l s : electors (set_elector h e l s) h = e.
Proof. cbn. by rewrite bool_decide_eq_true_2. Qed.
Lemma electors_other h e l s h2 : h2 <> h -> electors (set_elector h e l s) h2 = electors s h2.
Proof. intros Hne. cbn. by rewrite bool_decide_eq_false_2. Qed.

(** A step of [h] keeps the invariant, given what it does to the lease: it leaves it
    alone and [h] no longer leads, or takes it from nobody who leads, or ends its own. *)
Lemma set_elector_inv now now' h e l s :
  election_inv now s -> now <= now' -> h <> "" -> holder e = h -> leaseName e = name ->
  (Lease.held name l = Lease.held name (leases s) /\ (IsLeader e = true -> e = electors s h)) \/
  (IsLeader e = true /\ lastRenewAt e = now' /\ Lease.held name l = Some (Lease.mk h (Lease.until now' ttl)) /\
    forall x, Lease.held name (leases s) = Some x -> Lease.holder x = h \/ Lease.expires x <= now') \/
  (IsLeader e = false /\ Lease.held name l = None /\ exists x, Lease.held name (leases s) = Some x /\ Lease.holder x = h) ->
  election_inv now' (set_elector h e l s).
Proof.
  intros [Hn Hl Hu] Hle Hh He1 He2 Hcase. split.
  - intros h2. destruct (decide (h2 = h)) as [-> | Hne]; [by rewrite electors_same | by rewrite electors_other].
  - intros h2 t Hh2 Ht. unfold leads. destruct (decide (h2 = h)) as [-> | Hne].
    + rewrite electors_same. intros [Hlead Hlt]. cbn. destruct Hcase as [[-> He] | [(_ & -> & -> & _) | (Hf & _)]]; [| done | congruence].
      specialize (He Hlead). subst e. apply (Hl h t); [done | lia | by split].
    + rewrite electors_other by done. intros Hlead. specialize (Hl h2 t Hh2 ltac:(lia) Hlead). cbn.
      destruct Hcase as [[-> _] | [(_ & _ & _ & Hx) | (_ & _ & x & Hx & Hxh)]]; [done | |]; exfalso.
      * destruct Hlead as [_ Hlt]. destruct (Hx _ Hl) as [E | E]; cbn in E; [done | lia].
      * rewrite Hl in Hx. injection Hx as <-. done.
  - intros x Hx. cbn in Hx. pose proof (Lease.until_later now now' ttl Hle).
    destruct Hcase as [[E _] | [(_ & _ & E & _) | (_ & E & _)]]; rewrite E in Hx; [specialize (Hu x Hx); lia | by injection Hx as <- | done].
Qed.

Lemma election_step_inv now s ev : election_inv now s -> now <= when ev -> who ev <> "" -> election_inv (when ev) (step s ev).
Proof.
  intros Hi Hle Hh. destruct (named _ _ Hi (who ev)) as [Hn1 Hn2]. destruct ev as [h t | h t]; cbn [when who] in *; cbn [step].
  - destruct (Renew ttl t (electors s h) (leases s)) as [[e l] ok] eqn:E. unfold Renew in E. rewrite Hn1, Hn2 in E.
    destruct (isLeader (electors s h)) eqn:El.
    + destruct (Lease.Renew name h ttl t (leases s)) as [l' []] eqn:Er; injection E as <- <- <-; apply (set_elector_inv _ _ _ _ _ _ Hi Hle Hh); try done.
      * right. left. destruct (Lease.Renew_done _ _ _ _ _ _ Hh Er) as [Hd (x & Hx & Ex)]. split_and!; try done. intros y Hy. left. congruence.
      * left. split; [by eapply Lease.Renew_refused | done].
    + destruct (Lease.Acquire name h ttl t (leases s)) as [l' []] eqn:Er; injection E as <- <- <-; apply (set_elector_inv _ _ _ _ _ _ Hi Hle Hh); try done.
      * right. left. by destruct (Lease.Acquire_taken _ _ _ _ _ _ Hh long_enough Er).
      * left. split; [by eapply Lease.Acquire_refused | done].
  - destruct (Close t (electors s h) (leases s)) as [[e l] ok] eqn:E. unfold Close in E. rewrite Hn1, Hn2 in E.
    destruct (isLeader (electors s h)) eqn:El; [| injection E as <- <- <-; apply (set_elector_inv _ _ _ _ _ _ Hi Hle Hh); try done; by left].
    destruct (Lease.Release name h t (leases s)) as [l' ok'] eqn:Er. pose proof (Lease.Release_effect _ _ _ _ _ _ Hh Er) as Hr.
    destruct ok'; injection E as <- <- <-; apply (set_elector_inv _ _ _ _ _ _ Hi Hle Hh); try done; destruct Hr as [Hr | (Hok & Hr & Hx)]; try done; [by left | by do 2 right | by left].
Qed.

Lemma run_inv evs now s : election_inv now s -> timely now evs -> election_inv (last_time now evs) (run evs s).
Proof.
  revert now s. induction evs as [| ev evs IH]; intros now s Hi Ht; [done |]. cbn in *. destruct Ht as (Hle & Hw & Ht). apply IH; [by apply (election_step_inv now) | done].
Qed.

(** C10: whatever replicas tick, pause and stop, in any order, at no time do two of them
    lead by leases that have not run out. *)
Theorem leadership_exclusive evs from l h1 h2 now :
  (forall x, Lease.held name l = Some x -> Lease.expires x <= Lease.until from ttl) -> timely from evs -> last_time from evs <= now ->
  h1 <> "" -> h2 <> "" -> leads (run evs (start l)) h1 now -> leads (run evs (start l)) h2 now -> h1 = h2.
Proof.
  intros Hl Ht Hnow H1 H2 L1 L2. pose proof (run_inv evs from (start l) (start_inv l from Hl) Ht) as Hi.
  pose proof (leads_held _ _ Hi h1 now H1 Hnow L1) as E1. pose proof (leads_held _ _ Hi h2 now H2 Hnow L2) as E2. congruence.
Qed.

(** Once the time of the last lease has passed, any replica leads after its next tick
    or after the one that follows, as long as no other intervenes: the loss of the leader
    stops the loops for no longer. *)
Theorem leadership_recovers evs from l h t1 t2 :
  (forall x, Lease.held name l = Some x -> Lease.expires x <= Lease.until from ttl) -> timely from evs -> h <> "" ->
  Lease.until (last_time from evs) ttl < t1 -> last_time from evs <= t1 <= t2 ->
  let s := run evs (start l) in
  IsLeader (electors (run [Tick h t1] s) h) = true \/ IsLeader (electors (run [Tick h t1; Tick h t2] s) h) = true.
Proof.
  intros Hl Ht Hh Hexp H12. cbv zeta. pose proof (run_inv evs from (start l) (start_inv l from Hl) Ht) as Hi. set (s := run evs (start l)) in *.
  assert (Hacq : forall s' t, (forall x, Lease.held name (leases s') = Some x -> Lease.expires x < t) -> holder (electors s' h) = h -> leaseName (electors s' h) = name ->
    isLeader (electors s' h) = false -> IsLeader (electors (step s' (Tick h t)) h) = true).
  { intros s' t Hx Hn1 Hn2 Hf. cbn [step]. unfold Renew. rewrite Hf, Hn1, Hn2. pose proof (Lease.Acquire_free name h ttl t (leases s') Hh long_enough Hx) as Ha.
    destruct (Lease.Acquire name h ttl t (leases s')) as [l' ok]. cbn in Ha. subst ok. by rewrite electors_same. }
  assert (Hfree : forall x, Lease.held name (leases s) = Some x -> Lease.expires x < t1) by (intros x Hx; pose proof (held_until _ _ Hi x Hx); lia).
  destruct (named _ _ Hi h) as [Hn1 Hn2]. destruct (isLeader (electors s h)) eqn:Hf; [| left; by apply Hacq]. cbn [run foldl].
  destruct (Lease.Renew name h ttl t1 (leases s)) as [l' ok] eqn:Er.
  assert (E : step s (Tick h t1) = set_elector h (if ok then K8sLeaseElector.mk h name true t1 else K8sLeaseElector.mk h name false (lastRenewAt (electors s h))) l' s).
  { cbn [step]. unfold Renew. by rewrite Hf, Hn1, Hn2, Er. }
  rewrite E. destruct ok; [left; by rewrite electors_same | right]. apply Hacq; rewrite ?electors_same; try done.
  cbn. rewrite (Lease.Renew_refused _ _ _ _ _ _ Hh Er). intros x Hx. specialize (Hfree x Hx). lia.
Qed.

(** The scheduler does not look at the lease but at the result of the last tick: a
    leader that pauses until its lease has run out, and then wakes in the middle of its
    loop, runs its passes beside those of the replica that has taken over. *)
Theorem stale_flag_fires evs from l h1 h2 t1 t2 r now st :
  (forall x, Lease.held name l = Some x -> Lease.expires x <= Lease.until from ttl) -> timely from (evs ++ [Tick h1 t1]) -> h2 <> "" -> h2 <> h1 ->
  IsLeader (electors (run (evs ++ [Tick h1 t1]) (start l)) h1) = true -> IsLeader (electors (run (evs ++ [Tick h1 t1]) (start l)) h2) = false ->
  Lease.until t1 ttl < t2 -> t1 <= t2 ->
  let s := run (evs ++ [Tick h1 t1; Tick h2 t2]) (start l) in
  let sched h := Scheduler.leaderTick (IsLeader (electors s h)) (Scheduler.New true true true) in
  IsLeader (electors s h1) = true /\ IsLeader (electors s h2) = true /\
  Scheduler.scheduleTick r now (sched h1) st = fireFn r now st /\ Scheduler.scheduleTick r now (sched h2) st = fireFn r now st.
Proof.
  intros Hl Ht Hh Hne L1 L2 Hexp H12. pose proof (run_inv _ from (start l) (start_inv l from Hl) Ht) as Hi.
  assert (Elast : last_time from (evs ++ [Tick h1 t1]) = t1) by (unfold last_time; by rewrite foldl_app). rewrite Elast in Hi.
  set (s := run (evs ++ [Tick h1 t1]) (start l)) in *. cbv zeta.
  assert (Es : run (evs ++ [Tick h1 t1; Tick h2 t2]) (start l) = step s (Tick h2 t2)).
  { unfold s, run. rewrite !foldl_app. done. }
  rewrite Es. destruct (named _ _ Hi h2) as [Hn1 Hn2].
  assert (Hfree : forall x, Lease.held name (leases s) = Some x -> Lease.expires x < t2) by (intros x Hx; pose proof (held_until _ _ Hi x Hx); lia).
  assert (E1 : IsLeader (electors (step s (Tick h2 t2)) h1) = true /\ IsLeader (electors (step s (Tick h2 t2)) h2) = true).
  { cbn [step]. unfold Renew. rewrite Hn1, Hn2. unfold IsLeader in L2. rewrite L2.
    pose proof (Lease.Acquire_free name h2 ttl t2 (leases s) Hh long_enough Hfree) as Ha.
    destruct (Lease.Acquire name h2 ttl t2 (leases s)) as [l' ok]. cbn in Ha. subst ok. rewrite electors_same, electors_other by done. done. }
  destruct E1 as [E1 E2]. rewrite E1, E2. done.
Qed.
End election.
End Election.

(** ** Two replicas over the table *)

Module Replicas.
Import LeaseTable Election.

Definition ex_evs : list event := [Tick "pod-a" 0; Tick "pod-b" (1 * second); Tick "pod-a" (5 * second)].

Lemma ex_free : forall x, Lease.held "task-svc-leader" (∅ : gmap string MySQLLeaseOps.row) = Some x -> Lease.expires x <= Lease.until 0 leaderTTL.
Proof. intros x. cbn. unfold MySQLLeaseOps.held. by rewrite lookup_empty. Defined.

Lemma ex_long_enough : Lease.granularity <= leaderTTL.
Proof. vm_compute. discriminate. Defined.

Lemma ex_timely : timely 0 ex_evs.
Proof. repeat split; vm_compute; discriminate. Defined.

Definition after (evs : list event) := run leaderTTL evs (start "task-svc-leader" (∅ : gmap string MySQLLeaseOps.row)).

Lemma leadership_exclusive_witness :
  leads leaderTTL (after ex_evs) "pod-a" (6 * second) /\ ~ leads leaderTTL (after ex_evs) "pod-b" (6 * second).
Proof.
  assert (Ha : leads leaderTTL (after ex_evs) "pod-a" (6 * second)) by (split; vm_compute; reflexivity).
  split; [exact Ha |]. intros Hb. discriminate (leadership_exclusive "task-svc-leader" leaderTTL ex_long_enough ex_evs 0 ∅ "pod-a" "pod-b" (6 * second)
    ex_free ex_timely ltac:(vm_compute; discriminate) ltac:(discriminate) ltac:(discriminate) Ha Hb).
Defined.

Lemma leadership_recovers_witness :
  K8sLeaseElector.IsLeader (electors (after (ex_evs ++ [Tick "pod-b" (21 * second)])) "pod-b") = true \/
  K8sLeaseElector.IsLeader (electors (after (ex_evs ++ [Tick "pod-b" (21 * second); Tick "pod-b" (26 * second)])) "pod-b") = true.
Proof.
  exact (leadership_recovers "task-svc-leader" leaderTTL ex_long_enough ex_evs 0 ∅ "pod-b" (21 * second) (26 * second)
    ex_free ex_timely ltac:(discriminate) ltac:(vm_compute; reflexivity) ltac:(split; vm_compute; discriminate)).
Defined.

Lemma stale_flag_fires_witness :
  K8sLeaseElector.IsLeader (electors (after (ex_evs ++ [Tick "pod-b" (21 * second)])) "pod-a") = true /\
  K8sLeaseElector.IsLeader (electors (after (ex_evs ++ [Tick "pod-b" (21 * second)])) "pod-b") = true.
Proof.
  pose proof (stale_flag_fires "task-svc-leader" leaderTTL ex_long_enough [Tick "pod-a" 0; Tick "pod-b" (1 * second)] 0 ∅ "pod-a" "pod-b" (5 * second) (21 * second)
    {| TaskStore.of_tasks _ := []; TaskStore.of_results _ := []; TaskStore.of_schedules _ := []; TaskStore.of_batches _ := []; TaskStore.of_canaries _ := [] |}
    0 TaskStore.NewMemoryStore
    ex_free ex_timely ltac:(discriminate) ltac:(discriminate) ltac:(vm_compute; reflexivity) ltac:(vm_compute; reflexivity) ltac:(vm_compute; reflexivity)
    ltac:(vm_compute; discriminate)) as (H1 & H2 & _).
  split; [exact H1 | exact H2].
Defined.
End Replicas.
