(* ===== verification/TaskTenants.v ===== *)
(** * The task service: whose tasks a request can touch

    Behind a token of a service that names a tenant, no request changes a task of another
    tenant.  Without a token the header names the tenant, and the requests of users whose
    token comes from the authentication service are anonymous. *)

From Stdlib Require Import Ascii.
From S2P Require Import GoStrings Prelude Breaker Cron CronPkg Auth Tenant TaskSvc TaskService TaskGateway TaskLoops TaskProps TaskClaims.
Import TaskStore TaskService TaskGateway.
#[local] Open Scope Z_scope.
Open Scope go_scope.

(** ** Requests *)

Inductive request :=
  | RTasks (rg : ranges) (uuid : string) (body : option TaskBody.t)
  | RTask
  | RSchedules (rg : ranges) (uuid : string) (body : option PSchedule.t)
  | RSchedule (body : option PSchedule.t)
  | RBatch (batchID : string) (uuids : nat -> string) (body : option BatchBody.t)
  | RBatchOf
  | RCanary (canaryID : string) (uuids : nat -> string) (body : option CanaryBody.t)
  | RCanaryOf (uuids : nat -> string).

Section tenants.
Context `{JWTLib}.

(** The handler of a route. *)
Definition serve (now : time) (r : HTTP.t) (q : request) (g : TaskGateway.t) : TaskGateway.t * reply :=
  match q with
  | RTasks rg uuid body => handleTasks rg uuid now r body g
  | RTask => handleTaskRouting now r g
  | RSchedules rg uuid body => handleSchedules rg uuid now r body g
  | RSchedule body => handleScheduleRouting now r body g
  | RBatch id uuids body => handleBatchExec id uuids now r body g
  | RBatchOf => handleBatchRouting now r g
  | RCanary id uuids body => handleCanaryCreate id uuids now r body g
  | RCanaryOf uuids => handleCanaryRouting uuids now r g
  end.

Abbreviation gtasks g := (tasks_of (svc g)).

(** Identifiers that are drawn are new. *)
Definition draws (q : request) (g : TaskGateway.t) : Prop :=
  match q with
  | RTasks _ uuid _ => all_new [uuid] (gtasks g)
  | RBatch _ uuids (Some b) => all_new (drawn uuids (length (BatchBody.DeviceIDs b))) (gtasks g)
  | RCanary _ uuids (Some b) => all_new (drawn uuids (length (CanaryBody.DeviceIDs b))) (gtasks g)
  | RCanaryOf uuids => forall id, all_new (drawn uuids (advance_size id (svc g))) (gtasks g)
  | _ => True
  end.

(** Nothing of another tenant than [T] changes. *)
Definition confined (T : string) (m m' : gmap string Task.t) : Prop := forall id x, m !! id = Some x -> Task.TenantID x <> T -> m' !! id = Some x.

Lemma confined_subseteq T m m' : m ⊆ m' -> confined T m m'.
Proof. intros Hs id x Hx _. by eapply lookup_weaken. Qed.
Lemma confined_refl T m : confined T m m.
Proof. by apply confined_subseteq. Qed.

(** ** What the operations of the service leave alone *)

Lemma create_keeps uuid now x s :
  PTask.TaskId x = "" -> tasks_of s !! uuid = None -> tasks_of s ⊆ tasks_of (TaskService.CreateTask uuid now (Some x) s).1 /\
  forall id, id <> uuid -> tasks_of (TaskService.CreateTask uuid now (Some x) s).1 !! id = tasks_of s !! id.
Proof.
  intros Hid Hn. unfold TaskService.CreateTask. destruct (ValidateCommand _); [done |]. cbn [fst store set_store emitAudit].
  assert (Eid : Task.TaskID (protoToTask (completed uuid now x)) = uuid).
  { unfold completed. rewrite Hid. cbn. by repeat case_match. }
  assert (E : forall y st, exists z, (TaskStore.CreateTask now y st).1 = set_tasks (<[Task.TaskID y := z]> (tasks st)) st).
  { intros y st. unfold TaskStore.CreateTask. destruct (IsZero _), (_ == ""); eexists; done. }
  destruct (E (protoToTask (completed uuid now x)) (store s)) as [z ->]. rewrite Eid. cbn. split; [by apply insert_subseteq |].
  intros id Hne. by rewrite lookup_insert_ne.
Qed.

Lemma batch_exec_keeps now uuids request devices s :
  (forall d, PTask.TaskId (request d) = "") -> all_new (drawn uuids (length devices)) (tasks_of s) ->
  tasks_of s ⊆ tasks_of (batch_exec now uuids request devices s).1.
Proof.
  intros Hr. revert uuids s. induction devices as [| d devices IH]; intros uuids s [Hnd Hf]; [done |]. cbn [batch_exec length] in *. rewrite drawn_S in Hnd, Hf.
  apply NoDup_cons in Hnd as [Hni Hnd]. destruct (Hf (uuids 0%nat)) as [_ Hn]; [by left |].
  destruct (create_keeps (uuids 0%nat) now (request d) s (Hr d) Hn) as [Hs Ho].
  assert (Hf' : all_new (drawn (fun n => uuids (S n)) (length devices)) (tasks_of (TaskService.CreateTask (uuids 0%nat) now (Some (request d)) s).1)).
  { split; [done |]. intros id Hid. destruct (Hf id) as [Hne Hnone]; [by right |]. split; [done |]. rewrite Ho by congruence. done. }
  specialize (IH _ _ Hf'). destruct (TaskService.CreateTask (uuids 0%nat) now (Some (request d)) s) as [s2 res]. cbn [fst] in *.
  set (p := match res with Ok x => (s2, _) | Err _ => _ end). assert (Ep : p.1 = s2) by (unfold p; by destruct res).
  destruct p as [s3 item]. cbn in Ep. subst s3. destruct (batch_exec now _ request devices s2) as [s4 items]. cbn in *. by transitivity (tasks_of s2).
Qed.

Lemma exec_devices_keeps now uuids cid ph ty cmd ct pa te us devices s :
  all_new (drawn uuids (length devices)) (tasks_of s) -> tasks_of s ⊆ tasks_of (exec_devices now uuids cid ph ty cmd ct pa te us devices s).1.
Proof.
  revert uuids s. induction devices as [| d devices IH]; intros uuids s Hf; [done |]. cbn [exec_devices length] in *. rewrite drawn_S in Hf.
  destruct (proj2 Hf (uuids 0%nat)) as [Hne Hn]; [by left |].
  destruct (exec_device_effect now (uuids 0%nat) cid ph ty cmd ct pa te us d s _ (effect_refl _) Hne Hn) as (y & _ & _ & _ & -> & _).
  match goal with |- context [exec_devices _ _ _ _ _ _ _ _ _ _ devices ?z] => specialize (IH (fun n => uuids (S n)) z); set (s2 := z) in * end.
  assert (Hs : tasks_of s ⊆ tasks_of s2) by (cbn; by apply insert_subseteq).
  destruct (exec_devices _ _ _ _ _ _ _ _ _ _ devices s2) as [s3 items]. cbn in IH |- *. transitivity (tasks_of s2); [done |]. apply IH.
  by apply (all_new_cons (uuids 0%nat)).
Qed.

Lemma phase_keeps now uuids cid p ty cmd ct pa te us s :
  all_new (drawn uuids (length (CanaryPhase.DeviceIDs p))) (tasks_of s) -> tasks_of s ⊆ tasks_of (execCanaryPhase now uuids cid p ty cmd ct pa te us s).1.
Proof.
  intros Hf. unfold execCanaryPhase. pose proof (exec_devices_keeps now uuids cid (CanaryPhase.Phase p) ty cmd ct pa te us _ s Hf) as Hs.
  by destruct (exec_devices _ _ _ _ _ _ _ _ _ _ _ _).
Qed.

Lemma canary_keeps cid uuids now req s :
  all_new (drawn uuids (length (CanaryCreateRequest.DeviceIDs req))) (tasks_of s) -> tasks_of s ⊆ tasks_of (TaskService.CreateCanary cid uuids now req s).1.
Proof.
  intros Hf. unfold TaskService.CreateCanary. destruct (negb (canaryStore s)); [done |].
  destruct (_ || _); [done |]. destruct (if _ == TaskTypeShell then _ else _); [done |]. destruct (negb _); [done |].
  destruct (planCanaryPhases _ _ _ _) as [| p ps] eqn:Ep; [done |].
  match goal with |- context [execCanaryPhase now uuids cid p ?ty ?cmd ?ct ?pa ?te ?us s] =>
    pose proof (phase_keeps now uuids cid p ty cmd ct pa te us s) as Hs;
    destruct (execCanaryPhase now uuids cid p ty cmd ct pa te us s) as [s2 p2] eqn:E end.
  cbn in Hs |- *. apply Hs. eapply all_new_prefix; [| exact Hf]. apply drawn_prefix. eapply plan_lengths. rewrite Ep. by left.
Qed.

Lemma advance_phases_keeps now uuids c user ps s s' ps' n :
  advance_phases now uuids c user ps s = Some (s', ps') -> Forall (fun p => (length (devices_of p) <= n)%nat) ps ->
  all_new (drawn uuids n) (tasks_of s) -> tasks_of s ⊆ tasks_of s'.
Proof.
  intros E Hn Hf. revert s' ps' E. induction Hn as [| p ps Hp Hn IH]; intros s' ps'; [done |]. cbn [advance_phases].
  destruct (CanaryPhase.Status p == "pending").
  - match goal with |- context [execCanaryPhase now uuids ?cid p ?ty ?cmd ?ct ?pa ?te ?us s] =>
      pose proof (phase_keeps now uuids cid p ty cmd ct pa te us s) as Hs;
      destruct (execCanaryPhase now uuids cid p ty cmd ct pa te us s) as [s2 p2] eqn:E end.
    intros [= <- <-]. apply Hs. eapply all_new_prefix; [by apply drawn_prefix | done].
  - destruct (advance_phases now uuids c user ps s) as [[s2 ps2] |] eqn:E; [| done]. cbn. intros [= <- <-]. by eapply IH.
Qed.

Lemma advance_keeps uuids now id tenant user s :
  all_new (drawn uuids (advance_size id s)) (tasks_of s) -> tasks_of s ⊆ tasks_of (AdvanceCanary uuids now id tenant user s).1.
Proof.
  unfold advance_size, AdvanceCanary, visible_canary, GetCanary. destruct (negb _); [done |].
  destruct (canaries (store s) !! id) as [c |]; [| done]. intros Hf. destruct (_ && _); [done |].
  destruct (advance_phases _ _ _ _ _ _) as [[s2 ps2] |] eqn:E; [| done]. cbn.
  eapply advance_phases_keeps; [exact E | | exact Hf]. apply Forall_forall. intros p Hp.
  apply list_max_ge. apply (list_elem_of_fmap_2 (fun p => length (devices_of p))). done.
Qed.

Lemma change_confined id T admits f st : T <> "" -> confined T (tasks st) (tasks (change_task id T admits f st).1).
Proof.
  intros HT. unfold change_task. destruct (tasks st !! id) as [x |] eqn:Hx; [| apply confined_refl]. rewrite (bool_decide_eq_false_2 (T = "") HT). cbn [negb andb].
  destruct (bool_decide_reflect (Task.TenantID x = T)) as [E |]; cbn [negb]; [| apply confined_refl].
  destruct (admits x); [| apply confined_refl]. intros i y Hy Hne. cbn. rewrite lookup_insert_ne; [done | congruence].
Qed.

(** ** Behind a token *)

(** The token of the request names tenant [T]. *)
Definition token_of (now : time) (r : HTTP.t) (T : string) (g : TaskGateway.t) : Prop :=
  T <> "" /\ bearerOrCookie (HTTP.Head r) <> "" /\ jwtSecret g <> "" /\
  exists claims, ValidateServiceToken now (bearerOrCookie (HTTP.Head r)) (jwtSecret g) = Some claims /\ ServiceClaims.TenantID claims = T.

Lemma token_auth now r T g : token_of now r T g ->
  match extractAuth now (HTTP.Head r) g with Ok a => AuthContext.TenantID a = T | Err e => e = errTenantMismatch end.
Proof.
  intros (HT & Hb & Hs & claims & Hv & Hc). unfold extractAuth. rewrite (bool_decide_eq_false_2 _ Hb), (bool_decide_eq_false_2 _ Hs). cbn [negb andb].
  rewrite Hv, Hc, (bool_decide_eq_false_2 _ HT). cbn [negb]. by destruct (_ && _).
Qed.

Lemma with_auth_confined now r T f g :
  token_of now r T g -> (forall a, AuthContext.TenantID a = T -> confined T (gtasks g) (gtasks (f a g).1)) ->
  confined T (gtasks g) (gtasks (with_auth now r f g).1).
Proof.
  intros Ht Hf. unfold with_auth. pose proof (token_auth now r T g Ht) as Ha. destruct (extractAuth now (HTTP.Head r) g) as [a | e]; [by apply Hf | apply confined_refl].
Qed.

Lemma tasks_confined now r T rg uuid body g : token_of now r T g -> all_new [uuid] (gtasks g) -> confined T (gtasks g) (gtasks (handleTasks rg uuid now r body g).1).
Proof.
  intros Ht [_ Hn]. unfold handleTasks. destruct (_ == GET); [apply with_auth_confined; [done |]; intros; apply confined_refl |].
  destruct (_ == POST); [| apply confined_refl]. apply with_auth_confined; [done |]. intros a _. destruct body as [b |]; [| apply confined_refl].
  destruct (_ || _); [apply confined_refl |]. destruct (Hn uuid) as [_ Hnone]; [by left |].
  pose proof (create_keeps uuid now (requested_task (AuthContext.TenantID a) b) (svc g) eq_refl Hnone) as [Hs _].
  destruct (TaskService.CreateTask _ _ _ _) as [s2 [x | e]]; by apply confined_subseteq.
Qed.

Lemma decide_confined id T admits f s : T <> "" -> confined T (tasks_of s) (tasks_of (decide_task id (change_task id T admits f (store s)) s).1).
Proof.
  intros HT. unfold decide_task. destruct (id == ""); [apply confined_refl |]. pose proof (change_confined id T admits f (store s) HT) as Hc.
  destruct (change_task _ _ _ _ _) as [st []]; [exact Hc | apply confined_refl].
Qed.

Lemma task_confined now r T g : token_of now r T g -> confined T (gtasks g) (gtasks (handleTaskRouting now r g).1).
Proof.
  intros Ht. assert (HT : T <> "") by apply Ht. unfold handleTaskRouting. destruct (match cut _ _ with None => _ | Some _ => _ end) as [id sub].
  destruct (id == ""); [apply confined_refl |]. destruct sub as [sub |].
  - destruct (_ && _); [| destruct (_ && _); [| destruct (_ && _); [| destruct (_ && _); [| apply confined_refl]]]];
      (apply with_auth_confined; [done |]; intros a Ha; rewrite ?Ha; try apply confined_refl).
    + unfold TaskService.CancelTask. destruct (id == ""); [apply confined_refl |].
      pose proof (change_confined id T (fun x => negb ((Task.Status x == TaskStatusDone) || (Task.Status x == TaskStatusFailed)))
        (Task.set_Status TaskStatusCancelled) (store (svc g)) HT) as Hc.
      unfold TaskStore.CancelTask. destruct (change_task _ _ _ _ _) as [st []]; [exact Hc | apply confined_refl].
    + pose proof (decide_confined id T awaits_approval (decided now TaskStatusPending (AuthContext.UserID a)) (svc g) HT) as Hc.
      unfold TaskService.ApproveTask, TaskStore.ApproveTask. destruct (decide_task _ _ _) as [s2 [x | e]]; exact Hc.
    + pose proof (decide_confined id T awaits_approval (decided now TaskStatusRejected (AuthContext.UserID a)) (svc g) HT) as Hc.
      unfold TaskService.RejectTask, TaskStore.RejectTask. destruct (decide_task _ _ _) as [s2 [x | e]]; exact Hc.
  - destruct (_ == GET); [apply with_auth_confined; [done |]; intros; apply confined_refl | apply confined_refl].
Qed.

(** Requests about schedules leave the tasks alone. *)
Lemma put_schedule_tasks now x g : gtasks (put_schedule now x g).1 = gtasks g.
Proof. unfold put_schedule, TaskService.UpdateSchedule, TaskStore.UpdateSchedule. by destruct (schedules _ !! _). Qed.

Lemma delete_schedule_tasks id s : tasks_of (TaskService.DeleteSchedule id s).1 = tasks_of s.
Proof. unfold TaskService.DeleteSchedule, TaskStore.DeleteSchedule. by destruct (schedules _ !! _). Qed.

Lemma schedule_tasks now r body g : gtasks (handleScheduleRouting now r body g).1 = gtasks g.
Proof.
  unfold handleScheduleRouting. destruct (match cut _ _ with None => _ | Some _ => _ end) as [id sub]. destruct (id == ""); [done |].
  unfold with_auth. destruct (extractAuth _ _ _) as [a | e]; [| done]. destruct sub as [sub |].
  - unfold enable_schedule. repeat case_match; rewrite ?put_schedule_tasks; done.
  - destruct (_ == GET); [done |]. destruct (_ == PUT); [destruct body; rewrite ?put_schedule_tasks; done |]. destruct (_ == DELETE); [| done].
    pose proof (delete_schedule_tasks id (svc g)) as Hd. destruct (TaskService.DeleteSchedule id (svc g)) as [s2 [e |]]; exact Hd.
Qed.

Lemma schedules_tasks rg uuid now r body g : gtasks (handleSchedules rg uuid now r body g).1 = gtasks g.
Proof.
  unfold handleSchedules, handleListSchedules, handleCreateSchedule, with_auth. destruct (_ == GET); [by destruct (extractAuth _ _ _) |].
  destruct (_ == POST); [| done]. destruct (extractAuth _ _ _); [| done]. destruct body; [| done]. by destruct (_ || _).
Qed.

(** C17: behind a token that names a tenant, whatever header comes with it, no request
    to the gateway changes or removes a task of another tenant. *)
Theorem tenant_writes_confined now r q T g id x :
  token_of now r T g -> draws q g -> gtasks g !! id = Some x -> Task.TenantID x <> T -> gtasks (serve now r q g).1 !! id = Some x.
Proof.
  intros Ht Hd. enough (confined T (gtasks g) (gtasks (serve now r q g).1)) as Hc by apply Hc. destruct q; cbn [serve draws] in *.
  - by apply tasks_confined.
  - by apply task_confined.
  - rewrite schedules_tasks. apply confined_refl.
  - rewrite schedule_tasks. apply confined_refl.
  - unfold handleBatchExec. destruct (_ != POST); [apply confined_refl |]. apply with_auth_confined; [done |]. intros a _. destruct body as [b |]; [| apply confined_refl].
    destruct (_ == []); [apply confined_refl |]. destruct (_ == ""); [apply confined_refl |].
    pose proof (batch_exec_keeps now uuids (batch_request (AuthContext.TenantID a) (if BatchBody.TaskType b == "" then "shell" else BatchBody.TaskType b) b)
      (BatchBody.DeviceIDs b) (svc g) ltac:(done) Hd) as Hk. destruct (batch_exec _ _ _ _ _) as [s2 items]. by apply confined_subseteq.
  - unfold handleBatchRouting. destruct (_ == ""); [apply confined_refl |]. destruct (ContainsChar _ _); [apply confined_refl |].
    unfold handleBatchStatus. destruct (_ != GET); [apply confined_refl |]. apply with_auth_confined; [done |]. intros a _.
    destruct (batches g !! _); [| apply confined_refl]. destruct (_ && _); apply confined_refl.
  - unfold handleCanaryCreate. destruct (_ != POST); [apply confined_refl |]. apply with_auth_confined; [done |]. intros a _. destruct body as [b |]; [| apply confined_refl].
    match goal with |- context [TaskService.CreateCanary ?c ?u ?n ?rq ?s] => pose proof (canary_keeps c u n rq s Hd) as Hk; destruct (TaskService.CreateCanary c u n rq s) as [s2 [y | e]] end;
      by apply confined_subseteq.
  - unfold handleCanaryRouting. destruct (_ == ""); [apply confined_refl |]. destruct (cut _ _) as [[cid sub] |].
    + destruct (_ == _); [| apply confined_refl]. unfold handleCanaryAdvance. destruct (_ != POST); [apply confined_refl |]. apply with_auth_confined; [done |]. intros a _.
      pose proof (advance_keeps uuids now cid (AuthContext.TenantID a) (AuthContext.UserID a) (svc g) (Hd cid)) as Hk.
      destruct (AdvanceCanary _ _ _ _ _ _) as [s2 [y | e]]; by apply confined_subseteq.
    + unfold handleCanaryStatus. destruct (_ != GET); [apply confined_refl |]. apply with_auth_confined; [done |]. intros a _.
      pose proof (status_effect (HTTP.Rest r) (AuthContext.TenantID a) (svc g)) as Hk. cbn [step] in Hk.
      destruct (GetCanaryStatus _ _ _) as [s2 [y | e]]; cbn in *; rewrite Hk; apply confined_refl.
Qed.

(** ** Without a token *)

Definition anonymous (T : string) (method rest : string) : HTTP.t := HTTP.mk method rest (Headers.mk T "" "") ∅.

(** The check that a header cannot claim another tenant needs a token: a request
    without one is served as the tenant its header names. Whoever reaches the gateway so
    approves a task of any tenant that waits for approval, and nobody is recorded as
    having approved it. *)
Theorem header_approves_any_task now g id x :
  gtasks g !! id = Some x -> awaits_approval x = true -> Task.TenantID x <> "" -> TrimSpace (Task.TenantID x) = Task.TenantID x -> id <> "" -> all_chars (not_char "/") id = true ->
  let '(g', (code, _)) := serve now (anonymous (Task.TenantID x) POST (id +:+ "/approve")) RTask g in
  code = 200 /\ gtasks g' !! id = Some (decided now TaskStatusPending "" x).
Proof.
  intros Hx Ha HT Htrim Hid Hcut. set (r := anonymous (Task.TenantID x) POST (id +:+ "/approve")).
  assert (E : serve now r RTask g = handleApproveTask now r id g).
  { cbn [serve]. unfold handleTaskRouting. change (HTTP.Rest r) with (id +:+ String "/" "approve"). rewrite (cut_app "/" id "approve" Hcut).
    by rewrite (bool_decide_eq_false_2 _ Hid). }
  assert (Ea : extractAuth now (HTTP.Head r) g = Ok (AuthContext.mk (Task.TenantID x) "" [])).
  { unfold extractAuth. cbn [r anonymous HTTP.Head Headers.XTenantID]. rewrite Htrim, (bool_decide_eq_false_2 _ HT). reflexivity. }
  rewrite E. unfold handleApproveTask, with_auth. rewrite Ea. cbn [AuthContext.TenantID AuthContext.UserID].
  unfold TaskService.ApproveTask, decide_task, TaskStore.ApproveTask, change_task. rewrite (bool_decide_eq_false_2 _ Hid), Hx.
  rewrite (bool_decide_eq_false_2 _ HT), (bool_decide_eq_true_2 (Task.TenantID x = Task.TenantID x) eq_refl), Ha. cbn [negb andb].
  unfold TaskService.GetTask, TaskStore.GetTask. cbn. rewrite lookup_insert_eq. split; [done |]. cbn. apply lookup_insert_eq.
Qed.

(** A token of a user, signed by the authentication service with the same secret, is
    accepted here, but names no service: the user is not recorded, whoever it is, and
    decides as the tenant of the token under an empty name. *)
Theorem user_tokens_anonymous now r g (c : Claims.t) from T :
  bearerOrCookie (HTTP.Head r) = SignedString (jwtSecret g) (user_payload c from) -> bearerOrCookie (HTTP.Head r) <> "" -> jwtSecret g <> "" ->
  json_safe (user_payload c from) -> from <= now < Claims.ExpiresAt c -> Claims.TenantID c = T -> T <> "" -> TrimSpace (Headers.XTenantID (HTTP.Head r)) = "" ->
  extractAuth now (HTTP.Head r) g = Ok (AuthContext.mk T "" (Claims.Permissions c)).
Proof.
  intros Hb Hne Hs Hj Hnow HT HTne Hh. unfold extractAuth. rewrite Hh. cbn. rewrite (bool_decide_eq_false_2 _ Hne), (bool_decide_eq_false_2 _ Hs). cbn.
  unfold ValidateServiceToken. rewrite (bool_decide_eq_false_2 _ Hs), Hb, Parse_Signed by done. cbn.
  rewrite (proj2 (Z.ltb_lt _ _)), (proj2 (Z.leb_le _ _)) by lia. cbn. rewrite HT, (bool_decide_eq_false_2 _ HTne). done.
Qed.
End tenants.

(** ** A gateway of two tenants *)

(** A library that signs one object only. *)
#[refine] Instance toy_lib (p0 : Payload.t) : JWTLib := {
  SignedString secret p := "token:" +:+ secret;
  ParsePayload secret now tok :=
    if tok == "token:" +:+ secret then
      if default true ((fun x => now <? x) <$> Payload.exp p0) && default true ((fun x => x <=? now) <$> Payload.nbf p0) then Some p0 else None
    else None;
  json_safe p := p = p0;
  Parse_Signed := _ }.
Proof. intros secret p now ->. by rewrite bool_decide_eq_true_2. Defined.

Definition ex_payload : Payload.t := Payload.mk "svc-1" "" "" "" "svc-1" "portal" "acme" [] ["task:write"] (Some (ex_now + hour)) (Some ex_now).
Definition ex_waiting : PTask.t := PTask.mk "t-9" "agent-9" "globex" "" "uptime" "" "" "" "" None 0 None 0 2 false 30 0 "" "" [] true "" None "".
Definition ex_gateway : TaskGateway.t := NewGateway (step (OCreate "u-1" ex_now (Some ex_waiting)) ex_empty) "secret".
Definition ex_approve : HTTP.t := HTTP.mk POST "t-9/approve" (Headers.mk "" "Bearer token:secret" "") ∅.

Lemma tenant_writes_confined_witness :
  exists x, tasks_of (svc ex_gateway) !! "t-9" = Some x /\ Task.TenantID x = "globex" /\
    tasks_of (svc (@serve (toy_lib ex_payload) ex_now ex_approve RTask ex_gateway).1) !! "t-9" = Some x.
Proof.
  eexists. split; [vm_compute; reflexivity |]. split; [reflexivity |].
  eapply (@tenant_writes_confined (toy_lib ex_payload) ex_now ex_approve RTask "acme" ex_gateway "t-9"); [| exact I | vm_compute; reflexivity | vm_compute; discriminate].
  split; [discriminate |]. split; [vm_compute; discriminate |]. split; [discriminate |]. eexists. split; [vm_compute; reflexivity | reflexivity].
Defined.

Lemma header_approves_any_task_witness :
  let '(g', (code, _)) := @serve (toy_lib ex_payload) ex_now (anonymous "globex" POST "t-9/approve") RTask ex_gateway in
  code = 200 /\ exists y, tasks_of (svc g') !! "t-9" = Some y /\ claimable "agent-9" y = true /\ Task.ApprovedBy y = "".
Proof.
  assert (Hx : exists x, tasks_of (svc ex_gateway) !! "t-9" = Some x /\ Task.TenantID x = "globex" /\ awaits_approval x = true /\ Task.AgentID x = "agent-9")
    by (eexists; split; [vm_compute; reflexivity | done]).
  destruct Hx as (x & Hx & HT & Ha & Hag).
  pose proof (@header_approves_any_task (toy_lib ex_payload) ex_now ex_gateway "t-9" x Hx Ha ltac:(rewrite HT; discriminate) ltac:(rewrite HT; vm_compute; reflexivity)
    ltac:(discriminate) eq_refl) as Hres.
  rewrite HT in Hres. change ("t-9" +:+ "/approve") with "t-9/approve" in Hres. destruct (serve _ _ _ _) as [g' [code p]]. destruct Hres as [Hc Hg].
  split; [exact Hc |]. exists (decided ex_now TaskStatusPending "" x). split; [exact Hg |]. split; [| reflexivity].
  unfold claimable, decided. cbn. rewrite Hag. by rewrite !bool_decide_eq_true_2.
Defined.

Definition ex_claims : Claims.t := Claims.mk "user-7" "ann" ["admin"] ["task:approve"] "globex" "" "jti-1" (ex_now + hour).

Lemma user_tokens_anonymous_witness :
  @extractAuth (toy_lib (user_payload ex_claims ex_now)) ex_now (HTTP.Head ex_approve) ex_gateway = Ok (AuthContext.mk "globex" "" ["task:approve"]).
Proof.
  apply (@user_tokens_anonymous (toy_lib (user_payload ex_claims ex_now)) ex_now ex_approve ex_gateway ex_claims ex_now "globex");
    [reflexivity | discriminate | discriminate | reflexivity | vm_compute; split; [discriminate | reflexivity] | reflexivity | discriminate | reflexivity].
Defined.
