(* ===== verification/TaskCanary.v ===== *)
(** * The task service: staged releases

    A staged release reaches every device exactly once: the phases of the plan cover the
    devices, each advance runs the next one, and after the last there is none to run. *)

From Stdlib Require Import Ascii.
From S2P Require Import GoStrings Prelude Breaker Cron CronPkg TaskSvc TaskService TaskLoops TaskProps TaskClaims TaskTenants.
Import TaskStore TaskService.
#[local] Open Scope Z_scope.
Open Scope go_scope.

Abbreviation items_of := CanaryPhase.Tasks.
Abbreviation all_items ps := (concat (map items_of ps)).

(** The task of an entry is in the store, for its device. *)
Definition placed (s : TaskService.t) (i : BatchTaskItem.t) : Prop :=
  exists x, tasks_of s !! BatchTaskItem.TaskID i = Some x /\ Task.AgentID x = BatchTaskItem.DeviceID i.

Lemma placed_subseteq s s' i : tasks_of s ⊆ tasks_of s' -> placed s i -> placed s' i.
Proof. intros Hs (x & Hx & Ha). exists x. split; [by eapply lookup_weaken | done]. Qed.

(** ** One phase *)

(** What the operations of a release leave alone besides tasks. *)
Definition same_canaries (s s' : TaskService.t) : Prop := canaries (store s') = canaries (store s) /\ canaryStore s' = canaryStore s.

Lemma exec_devices_items now uuids cid ph ty cmd ct pa te us devices s :
  all_new (drawn uuids (length devices)) (tasks_of s) ->
  let '(s', items) := exec_devices now uuids cid ph ty cmd ct pa te us devices s in
  map BatchTaskItem.DeviceID items = devices /\ map BatchTaskItem.TaskID items = drawn uuids (length devices) /\
  Forall (placed s') items /\ same_canaries s s'.
Proof.
  revert uuids s. induction devices as [| d devices IH]; intros uuids s Hf; [done |]. cbn [exec_devices length]. cbn [length] in Hf. rewrite drawn_S in Hf |- *.
  destruct (proj2 Hf (uuids 0%nat)) as [Hne Hn]; [by left |].
  destruct (exec_device_effect now (uuids 0%nat) cid ph ty cmd ct pa te us d s _ (effect_refl _) Hne Hn) as (y & _ & Hid & Ha & -> & _).
  match goal with |- context [exec_devices _ _ _ _ _ _ _ _ _ _ devices ?z] => set (s2 := z) end.
  assert (Hf2 : all_new (drawn (fun n => uuids (S n)) (length devices)) (tasks_of s2)) by (by apply (all_new_cons (uuids 0%nat))).
  pose proof (exec_devices_keeps now (fun n => uuids (S n)) cid ph ty cmd ct pa te us devices s2 Hf2) as Hk.
  specialize (IH (fun n => uuids (S n)) s2 Hf2). destruct (exec_devices _ _ _ _ _ _ _ _ _ _ devices s2) as [s3 items].
  destruct IH as (H1 & H2 & H3 & H4). cbn [map BatchTaskItem.DeviceID BatchTaskItem.TaskID]. rewrite H1, H2. split_and!; try done.
  constructor; [| done]. apply (placed_subseteq s2); [exact Hk |]. exists y. split; [| done]. cbn. apply lookup_insert_eq.
Qed.

(** A phase that has run. *)
Definition ran (p : CanaryPhase.t) : Prop := CanaryPhase.Status p = "running" /\ map BatchTaskItem.DeviceID (items_of p) = devices_of p.
Definition waits (p : CanaryPhase.t) : Prop := CanaryPhase.Status p = "pending".

Lemma exec_phase_ran now uuids cid p ty cmd ct pa te us s :
  all_new (drawn uuids (length (devices_of p))) (tasks_of s) ->
  let '(s', p') := execCanaryPhase now uuids cid p ty cmd ct pa te us s in
  ran p' /\ devices_of p' = devices_of p /\ map BatchTaskItem.TaskID (items_of p') = drawn uuids (length (devices_of p)) /\
  Forall (placed s') (items_of p') /\ same_canaries s s' /\ tasks_of s ⊆ tasks_of s'.
Proof.
  intros Hf. pose proof (phase_keeps now uuids cid p ty cmd ct pa te us s Hf) as Hk. unfold execCanaryPhase in *.
  pose proof (exec_devices_items now uuids cid (CanaryPhase.Phase p) ty cmd ct pa te us _ s Hf) as Hi.
  destruct (exec_devices _ _ _ _ _ _ _ _ _ _ _ _) as [s' items]. destruct Hi as (H1 & H2 & H3 & H4). done.
Qed.

(** ** Progress *)

Record progress (cid T : string) (devices : list string) (c : CanaryRelease.t) (gone rest : list CanaryPhase.t) (s : TaskService.t) : Prop := {
  has_store : canaryStore s = true;
  is_stored : canaries (store s) !! cid = Some c;
  is_named : CanaryRelease.CanaryID c = cid /\ CanaryRelease.TenantID c = T;
  its_phases : CanaryRelease.Phases c = gone ++ rest;
  covers : concat (map devices_of (gone ++ rest)) = devices;
  gone_ran : Forall ran gone;
  rest_waits : Forall waits rest;
  tasks_distinct : NoDup (map BatchTaskItem.TaskID (all_items gone));
  tasks_placed : Forall (placed s) (all_items gone);
}.

Lemma advance_phases_next now uuids c us gone p rest s :
  Forall ran gone -> waits p ->
  advance_phases now uuids c us (gone ++ p :: rest) s =
    let '(s', p') := execCanaryPhase now uuids (CanaryRelease.CanaryID c) p (CanaryRelease.TaskType c) (CanaryRelease.Command c) "" "" (CanaryRelease.TenantID c) us s in
    Some (s', gone ++ p' :: rest).
Proof.
  intros Hg Hp. induction Hg as [| q gone [Hq _] Hg IH]; cbn [app advance_phases].
  - unfold waits in Hp. rewrite Hp. reflexivity.
  - rewrite Hq. change ("running" == "pending") with false. cbn iota. rewrite IH.
    by destruct (execCanaryPhase now uuids (CanaryRelease.CanaryID c) p (CanaryRelease.TaskType c) (CanaryRelease.Command c) "" "" (CanaryRelease.TenantID c) us s).
Qed.

Lemma advance_phases_end now uuids c us gone s : Forall ran gone -> advance_phases now uuids c us gone s = None.
Proof. induction 1 as [| q gone [Hq _] Hg IH]; cbn [advance_phases]; [done |]. rewrite Hq. change ("running" == "pending") with false. cbn iota. by rewrite IH. Qed.

Lemma visible cid T tenant devices c gone rest s : progress cid T devices c gone rest s -> tenant = "" \/ tenant = T -> visible_canary cid tenant s = Ok c.
Proof.
  intros Hp Ht. unfold visible_canary, GetCanary. rewrite (has_store _ _ _ _ _ _ _ Hp), (is_stored _ _ _ _ _ _ _ Hp).
  destruct (is_named _ _ _ _ _ _ _ Hp) as [_ ->]. cbn [negb]. destruct Ht as [-> | ->]; [done |]. by rewrite (bool_decide_eq_true_2 (T = T) eq_refl), andb_false_r.
Qed.

Lemma all_items_snoc gone p : all_items (gone ++ [p]) = all_items gone ++ items_of p.
Proof. rewrite map_app, concat_app. cbn. by rewrite app_nil_r. Qed.

(** One more phase: its tasks are new, so that they differ from those before. *)
Lemma more_items s s' gone p ids :
  NoDup (map BatchTaskItem.TaskID (all_items gone)) -> Forall (placed s) (all_items gone) ->
  all_new ids (tasks_of s) -> map BatchTaskItem.TaskID (items_of p) = ids -> Forall (placed s') (items_of p) -> tasks_of s ⊆ tasks_of s' ->
  NoDup (map BatchTaskItem.TaskID (all_items (gone ++ [p]))) /\ Forall (placed s') (all_items (gone ++ [p])).
Proof.
  intros Hd Hg [Hn Hnew] Hids Hp Hs. rewrite all_items_snoc, map_app, Hids. split.
  - apply NoDup_app. split; [done |]. split; [| done]. intros id Hid Hin. apply list_elem_of_fmap in Hid as (i & -> & Hi).
    rewrite Forall_forall in Hg. destruct (Hg i Hi) as (x & Hx & _). destruct (Hnew _ Hin) as [_ E]. congruence.
  - apply Forall_app. split; [| done]. eapply Forall_impl; [exact Hg |]. intros i. by apply placed_subseteq.
Qed.

Lemma advance_progress cid T tenant devices c gone p rest uuids now us s :
  progress cid T devices c gone (p :: rest) s -> tenant = "" \/ tenant = T -> op_ok (OAdvance uuids now cid tenant us) s ->
  exists c' p', progress cid T devices c' (gone ++ [p']) rest (step (OAdvance uuids now cid tenant us) s).
Proof.
  intros Hp Ht Hf. pose proof (Forall_inv (rest_waits _ _ _ _ _ _ _ Hp)) as Hw.
  assert (Hnew : all_new (drawn uuids (length (devices_of p))) (tasks_of s)).
  { eapply all_new_prefix; [| exact Hf]. apply drawn_prefix. unfold advance_size. rewrite (is_stored _ _ _ _ _ _ _ Hp), (its_phases _ _ _ _ _ _ _ Hp).
    apply list_max_ge, (list_elem_of_fmap_2 (fun p => length (devices_of p))), elem_of_app. right. by left. }
  cbn [step]. unfold AdvanceCanary. rewrite (visible _ _ _ _ _ _ _ _ Hp Ht), (its_phases _ _ _ _ _ _ _ Hp).
  rewrite (advance_phases_next _ _ _ _ _ _ _ _ (gone_ran _ _ _ _ _ _ _ Hp) Hw).
  match goal with |- context [execCanaryPhase now uuids ?a p ?b ?d ?e ?f ?g ?h s] => pose proof (exec_phase_ran now uuids a p b d e f g h s Hnew) as Hr;
    destruct (execCanaryPhase now uuids a p b d e f g h s) as [s' p'] end.
  destruct Hr as (Hran & Hdev & Hids & Hpl & [Hc1 Hc2] & Hs). cbn [fst]. destruct (is_named _ _ _ _ _ _ _ Hp) as [Hn1 Hn2].
  destruct (more_items s s' gone p' _ (tasks_distinct _ _ _ _ _ _ _ Hp) (tasks_placed _ _ _ _ _ _ _ Hp) Hnew Hids Hpl Hs) as [Hd Hall].
  exists (CanaryRelease.set_Phases (gone ++ p' :: rest) c), p'. destruct Hp. split; try done.
  - by rewrite <- has_store0.
  - cbn. rewrite Hn1. apply lookup_insert_eq.
  - cbn. by rewrite <- app_assoc.
  - rewrite <- covers0, <- app_assoc. cbn [app]. rewrite !map_app, !concat_app. cbn [map concat]. by rewrite Hdev.
  - apply Forall_app. split; [done |]. by constructor.
  - by apply Forall_cons_1 in rest_waits0 as [_ ?].
Qed.

Lemma plan_waits devices strategy percentage groups : Forall waits (planCanaryPhases devices strategy percentage groups).
Proof.
  assert (Hpieces : forall size n i, Forall waits (pieces size n i devices)) by (intros size n; induction n; intros i; by constructor).
  unfold planCanaryPhases. repeat case_match; repeat constructor; apply Hpieces.
Qed.

Lemma create_progress cid uuids now req s c :
  op_ok (OCanary cid uuids now req) s -> (TaskService.CreateCanary cid uuids now req s).2 = Ok c ->
  exists c' p rest, progress cid (CanaryCreateRequest.TenantID req) (CanaryCreateRequest.DeviceIDs req) c' [p] rest (step (OCanary cid uuids now req) s) /\
    CanaryRelease.Phases c = p :: rest.
Proof.
  cbn [step op_ok]. unfold TaskService.CreateCanary. intros Hf. destruct (canaryStore s) eqn:Hcs; [| done]. cbn [negb].
  destruct (_ || _) eqn:Hreq; [done |]. destruct (if _ == TaskTypeShell then _ else _); [done |]. destruct (negb _); [done |].
  pose proof (plan_covers (CanaryCreateRequest.DeviceIDs req) (CanaryCreateRequest.Strategy req) (CanaryCreateRequest.Percentage req) (CanaryCreateRequest.Groups req)) as Hcov.
  pose proof (plan_lengths (CanaryCreateRequest.DeviceIDs req) (CanaryCreateRequest.Strategy req) (CanaryCreateRequest.Percentage req) (CanaryCreateRequest.Groups req)) as Hlen.
  assert (Hpend : Forall waits (planCanaryPhases (CanaryCreateRequest.DeviceIDs req) (CanaryCreateRequest.Strategy req) (CanaryCreateRequest.Percentage req)
    (CanaryCreateRequest.Groups req))) by apply plan_waits.
  destruct (planCanaryPhases _ _ _ _) as [| p rest] eqn:Ep.
  { apply orb_false_iff in Hreq as [Hd%bool_decide_eq_false _]. by rewrite <- Hcov in Hd. }
  assert (Hnew : all_new (drawn uuids (length (devices_of p))) (tasks_of s)).
  { eapply all_new_prefix; [| exact Hf]. apply drawn_prefix, Hlen. by left. }
  match goal with |- context [execCanaryPhase now uuids ?a p ?b ?d ?e ?f ?g ?h s] => pose proof (exec_phase_ran now uuids a p b d e f g h s Hnew) as Hr;
    destruct (execCanaryPhase now uuids a p b d e f g h s) as [s' p'] end.
  destruct Hr as (Hran & Hdev & Hids & Hpl & [Hc1 Hc2] & Hs). cbn [snd fst]. intros [= <-]. cbn [CanaryRelease.Phases].
  destruct (more_items s s' [] p' _ (NoDup_nil_2) (Forall_nil_2 _) Hnew Hids Hpl Hs) as [Hd Hall].
  unfold TaskStore.CreateCanary. cbn [CanaryRelease.CreatedAt].
  match goal with |- context [if IsZero now then ?a else ?b] => set (c' := if IsZero now then a else b) end.
  assert (Hc' : CanaryRelease.Phases c' = p' :: rest /\ CanaryRelease.CanaryID c' = cid /\ CanaryRelease.TenantID c' = CanaryCreateRequest.TenantID req)
    by (unfold c'; by destruct (IsZero now)).
  destruct Hc' as (H1 & H2 & H3). exists c', p', rest. split; [| done]. split; try done.
  - cbn. by rewrite Hc2.
  - cbn. rewrite H2. apply lookup_insert_eq.
  - rewrite <- Hcov. cbn. by rewrite Hdev.
  - by constructor.
  - by apply Forall_cons_1 in Hpend as [_ ?].
Qed.

(** ** The whole release *)

Definition advances (cid tenant : string) (l : list ((nat -> string) * time * string)) : list op := map (fun '(uuids, now, us) => OAdvance uuids now cid tenant us) l.

Lemma advances_progress cid T tenant devices l s c gone rest :
  progress cid T devices c gone rest s -> tenant = "" \/ tenant = T -> run_ok (advances cid tenant l) s -> length l = length rest ->
  exists c' gone', progress cid T devices c' gone' [] (run (advances cid tenant l) s).
Proof.
  revert s c gone rest. induction l as [| [[uuids now] us] l IH]; intros s c gone rest Hp Ht Hok Hlen.
  - destruct rest; [| done]. by exists c, gone.
  - destruct rest as [| p rest]; [done |]. cbn [advances map run_ok run foldl] in *. destruct Hok as [Ho Hok].
    destruct (advance_progress cid T tenant devices c gone p rest uuids now us s Hp Ht Ho) as (c' & p' & Hp').
    apply (IH _ c' (gone ++ [p']) rest); [done | done | done |]. cbn in Hlen. lia.
Qed.

(** C23: a staged release that is created and advanced once for each phase after the first
    has run all its phases: over all of them the entries are exactly the devices of the
    request, in order and each once, every entry has a task of its own in the store for
    its device, and a further advance finds no phase to run. *)
Theorem canary_completes cid uuids now req s c tenant l :
  op_ok (OCanary cid uuids now req) s -> (TaskService.CreateCanary cid uuids now req s).2 = Ok c ->
  tenant = "" \/ tenant = CanaryCreateRequest.TenantID req ->
  run_ok (advances cid tenant l) (step (OCanary cid uuids now req) s) -> S (length l) = length (CanaryRelease.Phases c) ->
  let s' := run (advances cid tenant l) (step (OCanary cid uuids now req) s) in
  exists c', GetCanary cid (store s') = Some c' /\ Forall (fun p => CanaryPhase.Status p = "running") (CanaryRelease.Phases c') /\
    map BatchTaskItem.DeviceID (all_items (CanaryRelease.Phases c')) = CanaryCreateRequest.DeviceIDs req /\
    NoDup (map BatchTaskItem.TaskID (all_items (CanaryRelease.Phases c'))) /\ Forall (placed s') (all_items (CanaryRelease.Phases c')) /\
    forall uuids' now' us, (AdvanceCanary uuids' now' cid tenant us s').2 = Err CanaryNoPendingPhase.
Proof.
  intros Hok Hc Ht Hrun Hlen. cbv zeta. destruct (create_progress cid uuids now req s c Hok Hc) as (c0 & p & rest & Hp & Eph). rewrite Eph in Hlen. cbn in Hlen.
  destruct (advances_progress cid _ tenant _ l _ c0 [p] rest Hp Ht Hrun ltac:(lia)) as (c' & gone & Hp').
  set (s' := run (advances cid tenant l) (step (OCanary cid uuids now req) s)) in *.
  pose proof (its_phases _ _ _ _ _ _ _ Hp') as Eg. rewrite app_nil_r in Eg. pose proof (gone_ran _ _ _ _ _ _ _ Hp') as Hran.
  exists c'. rewrite Eg. split; [exact (is_stored _ _ _ _ _ _ _ Hp') |]. split; [eapply Forall_impl; [exact Hran |]; by intros q [] |]. split_and!.
  - rewrite <- (covers _ _ _ _ _ _ _ Hp'), app_nil_r. clear -Hran. induction Hran as [| q gone [_ Hq] Hg IH]; [done |]. cbn. by rewrite map_app, Hq, IH.
  - exact (tasks_distinct _ _ _ _ _ _ _ Hp').
  - exact (tasks_placed _ _ _ _ _ _ _ Hp').
  - intros uuids' now' us. unfold AdvanceCanary. rewrite (visible _ _ _ _ _ _ _ _ Hp' Ht), Eg, advance_phases_end by done. done.
Qed.

(** ** What later phases lose *)

(** The tasks after are those before, or have no content. *)
Definition adds_bare (m m' : gmap string Task.t) : Prop := forall id x, m' !! id = Some x -> m !! id = Some x \/ (Task.Content x = "" /\ Task.Path x = "").

Lemma exec_devices_bare now uuids cid ph ty cmd te us devices s :
  adds_bare (tasks_of s) (tasks_of (exec_devices now uuids cid ph ty cmd "" "" te us devices s).1).
Proof.
  revert uuids s. induction devices as [| d devices IH]; intros uuids s id x Hx; [by left |]. cbn [exec_devices] in Hx.
  assert (Hd : adds_bare (tasks_of s) (tasks_of (exec_device now (uuids 0%nat) cid ph ty cmd "" "" te us d s).1)).
  { intros i y. unfold exec_device, TaskStore.CreateTask. cbn. intros [[<- <-] | [_ ?]]%lookup_insert_Some; [right | by left]. done. }
  destruct (exec_device _ _ _ _ _ _ _ _ _ _ d s) as [s2 item]. specialize (IH (fun n => uuids (S n)) s2 id x).
  destruct (exec_devices _ _ _ _ _ _ _ _ _ _ devices s2) as [s3 items]. cbn [fst] in *.
  destruct (IH Hx) as [H2 | ?]; [by apply Hd | by right].
Qed.

Lemma advance_phases_bare now uuids c us ps s s' ps' : advance_phases now uuids c us ps s = Some (s', ps') -> adds_bare (tasks_of s) (tasks_of s').
Proof.
  revert s' ps'. induction ps as [| p ps IH]; intros s' ps'; [done |]. cbn [advance_phases]. destruct (CanaryPhase.Status p == "pending").
  - unfold execCanaryPhase.
    pose proof (exec_devices_bare now uuids (CanaryRelease.CanaryID c) (CanaryPhase.Phase p) (CanaryRelease.TaskType c) (CanaryRelease.Command c)
      (CanaryRelease.TenantID c) us (CanaryPhase.DeviceIDs p) s) as Hb.
    destruct (exec_devices _ _ _ _ _ _ _ _ _ _ _ s) as [s2 items]. by intros [= <- <-].
  - destruct (advance_phases now uuids c us ps s) as [[s2 ps2] |]; [| done]. cbn. intros [= <- <-]. by eapply IH.
Qed.

(** The content and the path of a release reach its first phase only: whatever the
    request carried, the tasks that an advance creates have neither. *)
Theorem later_phases_lose_content uuids now cid tenant us s id x :
  tasks_of s !! id = None -> tasks_of (AdvanceCanary uuids now cid tenant us s).1 !! id = Some x -> Task.Content x = "" /\ Task.Path x = "".
Proof.
  intros Hn. unfold AdvanceCanary. destruct (visible_canary cid tenant s) as [c | e]; [| cbn; congruence].
  destruct (advance_phases now uuids c us (CanaryRelease.Phases c) s) as [[s2 ps2] |] eqn:E; [| cbn; congruence]. cbn. intros Hx.
  destruct (advance_phases_bare _ _ _ _ _ _ _ _ E id x Hx) as [? | ?]; [congruence | done].
Qed.

(** ** A release to three devices in two phases *)

Definition ex_release : CanaryCreateRequest.t :=
  CanaryCreateRequest.mk ["dev-a"; "dev-b"; "dev-c"] "" "install" "data" "/tmp/data" "percentage" 40 [] ∅ "acme" "ann".
Definition ex_canaries : TaskService.t := SetCanaryStore ex_empty.
Definition ex_ids (prefix : string) (n : nat) : string := prefix +:+ itoa (Z.of_nat n).
Definition ex_create : op := OCanary "c-1" (ex_ids "first-") ex_now ex_release.
Definition ex_advances : list ((nat -> string) * time * string) := [(ex_ids "second-", ex_now, "ann")].

Definition all_unused (ids : list string) (s : TaskService.t) : bool :=
  bool_decide (NoDup ids) && forallb (fun id => (id != "") && match tasks_of s !! id with None => true | Some _ => false end) ids.

Lemma ex_new n s ids : all_unused ids s = true -> drawn n (length ids) = ids -> fresh (drawn n (length ids)) s.
Proof.
  intros [Hn%bool_decide_eq_true Hf]%andb_true_iff ->. split; [done |]. intros id Hid. rewrite forallb_forall in Hf.
  apply list_elem_of_In, Hf, andb_true_iff in Hid as [H1 H2]. apply negb_true_iff, bool_decide_eq_false in H1. by destruct (tasks_of s !! id).
Qed.

Lemma ex_create_ok : op_ok ex_create ex_canaries.
Proof. apply (ex_new (ex_ids "first-") ex_canaries ["first-0"; "first-1"; "first-2"]); [vm_compute; reflexivity | vm_compute; reflexivity]. Defined.

Lemma ex_advances_ok : run_ok (advances "c-1" "acme" ex_advances) (step ex_create ex_canaries).
Proof.
  split; [| exact I].
  apply (ex_new (ex_ids "second-") (step ex_create ex_canaries) ["second-0"; "second-1"]); [vm_compute; reflexivity | vm_compute; reflexivity].
Defined.

Lemma canary_completes_witness :
  exists c', GetCanary "c-1" (store (run (advances "c-1" "acme" ex_advances) (step ex_create ex_canaries))) = Some c' /\
    map BatchTaskItem.DeviceID (all_items (CanaryRelease.Phases c')) = ["dev-a"; "dev-b"; "dev-c"].
Proof.
  assert (Hc : exists c, (TaskService.CreateCanary "c-1" (ex_ids "first-") ex_now ex_release ex_canaries).2 = Ok c /\ length (CanaryRelease.Phases c) = 2%nat)
    by (eexists; split; [vm_compute; reflexivity | done]).
  destruct Hc as (c & Hc & Hlen).
  destruct (canary_completes "c-1" (ex_ids "first-") ex_now ex_release ex_canaries c "acme" ex_advances ex_create_ok Hc (or_intror eq_refl) ex_advances_ok (eq_sym Hlen))
    as (c' & H1 & _ & H2 & _).
  exists c'. split; [exact H1 | exact H2].
Defined.

Lemma later_phases_lose_content_witness :
  exists x y, tasks_of (step ex_create ex_canaries) !! "first-0" = Some x /\ Task.Content x = "data" /\
    tasks_of (AdvanceCanary (ex_ids "second-") ex_now "c-1" "acme" "ann" (step ex_create ex_canaries)).1 !! "second-0" = Some y /\ Task.Content y = "".
Proof.
  eexists _, _. split; [vm_compute; reflexivity |]. split; [reflexivity |]. split; [vm_compute; reflexivity |].
  eapply (later_phases_lose_content (ex_ids "second-") ex_now "c-1" "acme" "ann" (step ex_create ex_canaries) "second-0"); vm_compute; reflexivity.
Defined.
