(* ===== verification/MemState.v ===== *)
(** * State of the memory store ([internal/store/memory/memory.go])

    The record of [MemoryStore] and its primitive operations: reading and
    writing through task pointers, publishing events, appending audits and
    alerts to their bounded logs, and adding a task to both task maps.  Every
    operation of the Go type runs under one mutex, so it is a function from
    state to state; the time it reads from the clock is its argument [now]
    (the few operations that read the clock twice do it within one critical
    section). *)

From S2P Require Import Prelude Proto GoStrings Window.
Open Scope go_scope.

(** [events.Event]: the envelope published on the event bus. *)
Module Event.
Record t := mk {
  TenantID : string;
  UserID : string;
  Action : string;
  Target : string;
  Detail : string;
  Level : string;
  Version : string;
}.

Definition set_TenantID (v : string) (r : t) : t :=
  mk v (r.(UserID)) (r.(Action)) (r.(Target)) (r.(Detail)) (r.(Level)) (r.(Version)).
Definition set_UserID (v : string) (r : t) : t :=
  mk (r.(TenantID)) v (r.(Action)) (r.(Target)) (r.(Detail)) (r.(Level)) (r.(Version)).
Definition set_Action (v : string) (r : t) : t :=
  mk (r.(TenantID)) (r.(UserID)) v (r.(Target)) (r.(Detail)) (r.(Level)) (r.(Version)).
Definition set_Target (v : string) (r : t) : t :=
  mk (r.(TenantID)) (r.(UserID)) (r.(Action)) v (r.(Detail)) (r.(Level)) (r.(Version)).
Definition set_Detail (v : string) (r : t) : t :=
  mk (r.(TenantID)) (r.(UserID)) (r.(Action)) (r.(Target)) v (r.(Level)) (r.(Version)).
Definition set_Level (v : string) (r : t) : t :=
  mk (r.(TenantID)) (r.(UserID)) (r.(Action)) (r.(Target)) (r.(Detail)) v (r.(Version)).
Definition set_Version (v : string) (r : t) : t :=
  mk (r.(TenantID)) (r.(UserID)) (r.(Action)) (r.(Target)) (r.(Detail)) (r.(Level)) v.

(** Go's zero value. *)
Definition zero : t := mk "" "" "" "" "" "" "".

#[export] Instance t_eq_dec : EqDecision t.
Proof. solve_decision. Defined.
End Event.

Definition LevelInfo : string := "info".
Definition LevelWarn : string := "warn".
Definition LevelAlert : string := "alert".

(** [idempotencyEntry]. *)
Module idempotencyEntry.
Record t := mk {
  taskID : string;
  createdAt : time;
}.

Definition set_taskID (v : string) (r : t) : t := mk v (r.(createdAt)).
Definition set_createdAt (v : time) (r : t) : t := mk (r.(taskID)) v.

(** Go's zero value. *)
Definition zero : t := mk "" zero_time.

#[export] Instance t_eq_dec : EqDecision t.
Proof. solve_decision. Defined.
End idempotencyEntry.

(** [tokenMeta]: a one-time install token. *)
Module tokenMeta.
Record t := mk {
  deviceID : string;
  tenantID : string;
  expiresAt : time;
  consumed : bool;
}.

Definition set_deviceID (v : string) (r : t) : t :=
  mk v (r.(tenantID)) (r.(expiresAt)) (r.(consumed)).
Definition set_tenantID (v : string) (r : t) : t :=
  mk (r.(deviceID)) v (r.(expiresAt)) (r.(consumed)).
Definition set_expiresAt (v : time) (r : t) : t :=
  mk (r.(deviceID)) (r.(tenantID)) v (r.(consumed)).
Definition set_consumed (v : bool) (r : t) : t :=
  mk (r.(deviceID)) (r.(tenantID)) (r.(expiresAt)) v.

(** Go's zero value. *)
Definition zero : t := mk "" "" zero_time false.

#[export] Instance t_eq_dec : EqDecision t.
Proof. solve_decision. Defined.
End tokenMeta.

(** [MemoryStore]: the fields the operations below use.  The task objects that
    [tasks] and [tasksByID] point to live in [heap]; a pointer is a position in it
    and an allocation appends, so two maps that hold the same pointer see the same
    object.  [published] is what went to the event bus, [bus] whether there is one. *)
Module Mem.
Record t := mk {
  agents : gmap string AgentInfo.t;
  segments : gmap string (list DeviceInfo.t);
  heap : list Task.t;
  tasks : gmap string (list nat);
  tasksByID : gmap string nat;
  results : gmap string (list TaskResult.t);
  audits : list AuditEvent.t;
  alerts : list Alert.t;
  seqno : Z;
  bus : bool;
  published : list Event.t;
  demo : bool;
  secret : string;
  tokens : gmap string tokenMeta.t;
  agentSecrets : gmap string string;
  idempotencyKeys : gmap string idempotencyEntry.t;
}.

Definition set_agents (v : gmap string AgentInfo.t) (r : t) : t :=
  mk v (r.(segments)) (r.(heap)) (r.(tasks)) (r.(tasksByID)) (r.(results)) (r.(audits))
    (r.(alerts)) (r.(seqno)) (r.(bus)) (r.(published)) (r.(demo)) (r.(secret)) (r.(tokens))
    (r.(agentSecrets)) (r.(idempotencyKeys)).
Definition set_segments (v : gmap string (list DeviceInfo.t)) (r : t) : t :=
  mk (r.(agents)) v (r.(heap)) (r.(tasks)) (r.(tasksByID)) (r.(results)) (r.(audits))
    (r.(alerts)) (r.(seqno)) (r.(bus)) (r.(published)) (r.(demo)) (r.(secret)) (r.(tokens))
    (r.(agentSecrets)) (r.(idempotencyKeys)).
Definition set_heap (v : list Task.t) (r : t) : t :=
  mk (r.(agents)) (r.(segments)) v (r.(tasks)) (r.(tasksByID)) (r.(results)) (r.(audits))
    (r.(alerts)) (r.(seqno)) (r.(bus)) (r.(published)) (r.(demo)) (r.(secret)) (r.(tokens))
    (r.(agentSecrets)) (r.(idempotencyKeys)).
Definition set_tasks (v : gmap string (list nat)) (r : t) : t :=
  mk (r.(agents)) (r.(segments)) (r.(heap)) v (r.(tasksByID)) (r.(results)) (r.(audits))
    (r.(alerts)) (r.(seqno)) (r.(bus)) (r.(published)) (r.(demo)) (r.(secret)) (r.(tokens))
    (r.(agentSecrets)) (r.(idempotencyKeys)).
Definition set_tasksByID (v : gmap string nat) (r : t) : t :=
  mk (r.(agents)) (r.(segments)) (r.(heap)) (r.(tasks)) v (r.(results)) (r.(audits))
    (r.(alerts)) (r.(seqno)) (r.(bus)) (r.(published)) (r.(demo)) (r.(secret)) (r.(tokens))
    (r.(agentSecrets)) (r.(idempotencyKeys)).
Definition set_results (v : gmap string (list TaskResult.t)) (r : t) : t :=
  mk (r.(agents)) (r.(segments)) (r.(heap)) (r.(tasks)) (r.(tasksByID)) v (r.(audits))
    (r.(alerts)) (r.(seqno)) (r.(bus)) (r.(published)) (r.(demo)) (r.(secret)) (r.(tokens))
    (r.(agentSecrets)) (r.(idempotencyKeys)).
Definition set_audits (v : list AuditEvent.t) (r : t) : t :=
  mk (r.(agents)) (r.(segments)) (r.(heap)) (r.(tasks)) (r.(tasksByID)) (r.(results)) v
    (r.(alerts)) (r.(seqno)) (r.(bus)) (r.(published)) (r.(demo)) (r.(secret)) (r.(tokens))
    (r.(agentSecrets)) (r.(idempotencyKeys)).
Definition set_alerts (v : list Alert.t) (r : t) : t :=
  mk (r.(agents)) (r.(segments)) (r.(heap)) (r.(tasks)) (r.(tasksByID)) (r.(results))
    (r.(audits)) v (r.(seqno)) (r.(bus)) (r.(published)) (r.(demo)) (r.(secret)) (r.(tokens))
    (r.(agentSecrets)) (r.(idempotencyKeys)).
Definition set_seqno (v : Z) (r : t) : t :=
  mk (r.(agents)) (r.(segments)) (r.(heap)) (r.(tasks)) (r.(tasksByID)) (r.(results))
    (r.(audits)) (r.(alerts)) v (r.(bus)) (r.(published)) (r.(demo)) (r.(secret)) (r.(tokens))
    (r.(agentSecrets)) (r.(idempotencyKeys)).
Definition set_bus (v : bool) (r : t) : t :=
  mk (r.(agents)) (r.(segments)) (r.(heap)) (r.(tasks)) (r.(tasksByID)) (r.(results))
    (r.(audits)) (r.(alerts)) (r.(seqno)) v (r.(published)) (r.(demo)) (r.(secret)) (r.(tokens))
    (r.(agentSecrets)) (r.(idempotencyKeys)).
Definition set_published (v : list Event.t) (r : t) : t :=
  mk (r.(agents)) (r.(segments)) (r.(heap)) (r.(tasks)) (r.(tasksByID)) (r.(results))
    (r.(audits)) (r.(alerts)) (r.(seqno)) (r.(bus)) v (r.(demo)) (r.(secret)) (r.(tokens))
    (r.(agentSecrets)) (r.(idempotencyKeys)).
Definition set_demo (v : bool) (r : t) : t :=
  mk (r.(agents)) (r.(segments)) (r.(heap)) (r.(tasks)) (r.(tasksByID)) (r.(results))
    (r.(audits)) (r.(alerts)) (r.(seqno)) (r.(bus)) (r.(published)) v (r.(secret)) (r.(tokens))
    (r.(agentSecrets)) (r.(idempotencyKeys)).
Definition set_secret (v : string) (r : t) : t :=
  mk (r.(agents)) (r.(segments)) (r.(heap)) (r.(tasks)) (r.(tasksByID)) (r.(results))
    (r.(audits)) (r.(alerts)) (r.(seqno)) (r.(bus)) (r.(published)) (r.(demo)) v (r.(tokens))
    (r.(agentSecrets)) (r.(idempotencyKeys)).
Definition set_tokens (v : gmap string tokenMeta.t) (r : t) : t :=
  mk (r.(agents)) (r.(segments)) (r.(heap)) (r.(tasks)) (r.(tasksByID)) (r.(results))
    (r.(audits)) (r.(alerts)) (r.(seqno)) (r.(bus)) (r.(published)) (r.(demo)) (r.(secret)) v
    (r.(agentSecrets)) (r.(idempotencyKeys)).
Definition set_agentSecrets (v : gmap string string) (r : t) : t :=
  mk (r.(agents)) (r.(segments)) (r.(heap)) (r.(tasks)) (r.(tasksByID)) (r.(results))
    (r.(audits)) (r.(alerts)) (r.(seqno)) (r.(bus)) (r.(published)) (r.(demo)) (r.(secret))
    (r.(tokens)) v (r.(idempotencyKeys)).
Definition set_idempotencyKeys (v : gmap string idempotencyEntry.t) (r : t) : t :=
  mk (r.(agents)) (r.(segments)) (r.(heap)) (r.(tasks)) (r.(tasksByID)) (r.(results))
    (r.(audits)) (r.(alerts)) (r.(seqno)) (r.(bus)) (r.(published)) (r.(demo)) (r.(secret))
    (r.(tokens)) (r.(agentSecrets)) v.

(** Go's zero value. *)
Definition zero : t := mk ∅ ∅ [] ∅ ∅ ∅ [] [] 0%Z false [] false "" ∅ ∅ ∅.

End Mem.

(** ** Primitive operations *)

(** A Go map lookup without [ok] on a map of slices. *)
Definition slice {A} (m : gmap string (list A)) (k : string) : list A := default [] (m !! k).

(** Seconds and nanoseconds between Go's zero time and the Unix epoch. *)
Definition unix_epoch : time := (62135596800 * second)%Z.
Definition UnixNano (t : time) : Z := wrap_i64 (t - unix_epoch).
Definition Unix (t : time) : Z := (t / second - 62135596800)%Z.

Definition deref (m : Mem.t) (l : nat) : Task.t := default Task.zero (Mem.heap m !! l).

(** [*t = f( *t )] through the pointer [l]. *)
Definition update (l : nat) (f : Task.t -> Task.t) (m : Mem.t) : Mem.t :=
  Mem.set_heap (alter f l (Mem.heap m)) m.

(** [&t]: the fresh pointer and the state that holds it. *)
Definition alloc (t : Task.t) (m : Mem.t) : nat * Mem.t :=
  (length (Mem.heap m), Mem.set_heap (Mem.heap m ++ [t]) m).

Definition publish (e : Event.t) (m : Mem.t) : Mem.t :=
  if Mem.bus m then Mem.set_published (Mem.published m ++ [e]) m else m.

Definition auditCap : nat := Z.to_nat 10000.
#[global] Arguments auditCap : simpl never.

Definition appendAudit (now : time) (e : AuditEvent.t) (m : Mem.t) : Mem.t :=
  let e := if IsZero (AuditEvent.CreatedAt e) then AuditEvent.set_CreatedAt now e else e in
  Mem.set_audits (append_capped auditCap (Mem.audits m) e) m.

Definition addAlertLocked (now : time) (a : Alert.t) (m : Mem.t) : Mem.t :=
  let a := if IsZero (Alert.CreatedAt a) then Alert.set_CreatedAt now a else a in
  let a := if Alert.Status a == "" then Alert.set_Status AlertStatusFiring a else a in
  Mem.set_alerts (append_capped auditCap (Mem.alerts m) a) m.

Definition addTaskLocked (l : nat) (m : Mem.t) : Mem.t :=
  let t := deref m l in
  let m := Mem.set_tasks (<[Task.AgentID t := slice (Mem.tasks m) (Task.AgentID t) ++ [l]]> (Mem.tasks m)) m in
  Mem.set_tasksByID (<[Task.TaskID t := l]> (Mem.tasksByID m)) m.

(** [m.seq++]. *)
Definition next_seq (m : Mem.t) : Mem.t := Mem.set_seqno (wrap_i64 (Mem.seqno m + 1)) m.

(** The objects an agent's list points to, in order. *)
Definition tasks_of (m : Mem.t) (agentID : string) : list Task.t :=
  deref m <$> slice (Mem.tasks m) agentID.

(** Every task, for the order [keys] in which the map is ranged over. *)
Definition all_tasks (keys : list string) (m : Mem.t) : list Task.t :=
  keys ≫= tasks_of m.

Definition isPending (t : Task.t) : bool := (Task.Status t == "") || (Task.Status t == "pending").
