(* ===== verification/MemTasks.v ===== *)
(** * Tasks of the memory store ([internal/store/memory/memory.go])

    The operations of [MemoryStore] on tasks: creation with idempotency,
    claiming, results with retry and dead letter, release of blocked
    dependents, cancellation, approval, reclaim of stale tasks, schedules and
    the listings.  [keys] is the order in which Go ranges over the map of
    tasks, any enumeration of its keys. *)

From S2P Require Import Proto Dag GoStrings Cron Window MemState Prelude.
Open Scope go_scope.

(** ** Reading *)

Definition GetTasks (agentID : string) (m : Mem.t) : list Task.t :=
  List.filter isPending (tasks_of m agentID).

Definition TasksByParent (keys : list string) (parentID : string) (m : Mem.t) : list Task.t :=
  List.filter (fun t => Task.ParentID t == parentID) (all_tasks keys m).

Definition PendingDepth (keys : list string) (m : Mem.t) : nat :=
  length (List.filter isPending (all_tasks keys m)).

Definition AllTasks (keys : list string) (tenantID : string) (m : Mem.t) : list Task.t :=
  List.filter (fun t => negb ((tenantID != "") && (Task.TenantID t != tenantID))) (all_tasks keys m).

Definition TaskByID (taskID : string) (m : Mem.t) : option Task.t :=
  l ← Mem.tasksByID m !! taskID; Some (deref m l).

Definition CancelledTaskIDs (agentID : string) (m : Mem.t) : list string :=
  Task.TaskID <$> List.filter (fun t => Task.Status t == "cancelled") (tasks_of m agentID).

(** ** Claiming *)

Definition agentTenant (agentID : string) (m : Mem.t) : string :=
  match Mem.agents m !! agentID with
  | Some a => AgentInfo.TenantID a
  | None => ""
  end.

(** The body of the loop that collects the candidates. *)
Definition claimable (tenant : string) (t : Task.t) : bool :=
  if (Task.ParentID t == "") && (Task.Schedule t != "") then false
  else if (Task.TenantID t != "") && (tenant != "") && (Task.TenantID t != tenant) then false
  else isPending t.

Definition candidates (agentID : string) (m : Mem.t) : list nat :=
  List.filter (fun l => claimable (agentTenant agentID m) (deref m l)) (slice (Mem.tasks m) agentID).

Definition more_urgent (m : Mem.t) (l1 l2 : nat) : bool :=
  (Task.Priority (deref m l1) >? Task.Priority (deref m l2))%Z.

Definition mark_claimed (agentID : string) (now : time) (t : Task.t) : Task.t :=
  let t := Task.set_Status "running" t in
  let t := Task.set_ClaimedAt now t in
  let t := Task.set_ClaimedBy agentID t in
  Task.set_ClaimEpoch (wrap_i64 (Task.ClaimEpoch t + 1)) t.

Definition ClaimTask (agentID : string) (now : time) (m : Mem.t) : option Task.t * Mem.t :=
  match stable_sort (more_urgent m) (candidates agentID m) with
  | [] => (None, m)
  | l :: _ =>
      let m := update l (mark_claimed agentID now) m in
      (Some (deref m l), m)
  end.

(** ** Alerts about tasks *)

Definition dead_letter_alert (t : Task.t) (agentID message : string) (now : time) : Alert.t :=
  let a := Alert.set_AlertID ("alert-" +:+ Task.TaskID t) Alert.zero in
  let a := Alert.set_TenantID (Task.TenantID t) a in
  let a := Alert.set_DeviceID ("dev-" +:+ agentID) a in
  let a := Alert.set_AgentID agentID a in
  let a := Alert.set_Severity "critical" a in
  let a := Alert.set_Message message a in
  Alert.set_CreatedAt now a.

Definition unclaim (t : Task.t) : Task.t := Task.set_ClaimedBy "" (Task.set_ClaimedAt zero_time t).
Definition kill (t : Task.t) : Task.t := Task.set_DeadLetter true (Task.set_Status "failed" t).

Definition event (action target tenant detail level : string) : Event.t :=
  Event.set_Action action (Event.set_Target target (Event.set_TenantID tenant
    (Event.set_Detail detail (Event.set_Level level Event.zero)))).

(** ** Reclaiming stale tasks *)

(** The agent's heartbeat is still fresh. *)
Definition heartbeat_fresh (cutoff : time) (agentID : string) (m : Mem.t) : bool :=
  match Mem.agents m !! agentID with
  | Some a => negb (Before (AgentInfo.LastSeen a) cutoff)
  | None => false
  end.

(** The loop body, on the pointer [l]; the counter [n] counts reclaims. *)
Definition reclaim_one (cutoff now : time) (l : nat) (s : Mem.t * nat) : Mem.t * nat :=
  let '(m, n) := s in
  let t := deref m l in
  if (Task.Status t != "running") || IsZero (Task.ClaimedAt t) || negb (Before (Task.ClaimedAt t) cutoff)
  then (m, n)
  else if heartbeat_fresh cutoff (Task.ClaimedBy t) m then (m, n)
  else
    let m := update l (fun t => Task.set_RetryCount (wrap_i64 (Task.RetryCount t + 1)) t) m in
    let agentID := Task.ClaimedBy t in
    let m := update l unclaim m in
    let t := deref m l in
    let m :=
      if (Task.RetryCount t >=? Task.MaxRetries t)%Z then
        let m := update l kill m in
        addAlertLocked now
          (dead_letter_alert t agentID
             ("task " +:+ Task.TaskID t +:+ " entered dead-letter after " +:+
              itoa (Task.RetryCount t) +:+ " stale reclaims") now) m
      else update l (fun t => unclaim (Task.set_Status "pending" t)) m in
    (m, S n).

Definition reclaim_loop (cutoff now : time) (ls : list nat) (s : Mem.t * nat) : Mem.t * nat :=
  foldl (fun s l => reclaim_one cutoff now l s) s ls.

Definition ReclaimStaleTasks (keys : list string) (maxAge : duration) (now : time) (m : Mem.t)
  : Mem.t * nat :=
  if (maxAge <=? 0)%Z then (m, 0)
  else
    let cutoff := Add now (- maxAge) in
    foldl (fun s key => reclaim_loop cutoff now (slice (Mem.tasks s.1) key) s) (m, 0) keys.

(** ** Schedules *)

Definition derived_task (t : Task.t) (now : time) : Task.t :=
  let i := Task.set_AgentID (Task.AgentID t) Task.zero in
  let i := Task.set_TenantID (Task.TenantID t) i in
  let i := Task.set_Type_ (Task.Type_ t) i in
  let i := Task.set_Command (Task.Command t) i in
  let i := Task.set_Content (Task.Content t) i in
  let i := Task.set_Path (Task.Path t) i in
  let i := Task.set_ScriptBody (Task.ScriptBody t) i in
  let i := Task.set_Status "pending" i in
  let i := Task.set_ParentID (Task.TaskID t) i in
  let i := Task.set_MaxRetries (Task.MaxRetries t) i in
  let i := Task.set_Timeout (Task.Timeout t) i in
  let i := Task.set_RetryDelay (Task.RetryDelay t) i in
  Task.set_CreatedAt now i.

Definition new_task_id (now : time) (seq : Z) : string :=
  "task-" +:+ itoa (UnixNano now) +:+ "-" +:+ itoa seq.

(** The template fires: [cron.Match] accepts [now] and the template has not
    fired since [minuteStart]. *)
Definition template_due (now minuteStart : time) (t : Task.t) : bool :=
  if (Task.ParentID t != "") || (Task.Schedule t == "") then false
  else match Match (Task.Schedule t) now with
  | Ok true => negb (negb (IsZero (Task.LastFiredAt t)) && negb (Before (Task.LastFiredAt t) minuteStart))
  | _ => false
  end.

Definition fire_one (now minuteStart : time) (l : nat) (s : Mem.t * nat) : Mem.t * nat :=
  let '(m, fired) := s in
  let t := deref m l in
  if negb (template_due now minuteStart t) then (m, fired)
  else
    let m := next_seq m in
    let inst := Task.set_TaskID (new_task_id now (Mem.seqno m)) (derived_task t now) in
    let '(l', m) := alloc inst m in
    let m := addTaskLocked l' m in
    let m := update l (Task.set_LastFiredAt now) m in
    let m := publish (event "schedule_fire" (Task.TaskID inst) (Task.TenantID t)
      ("parent=" +:+ Task.TaskID t +:+ " cron=" +:+ Task.Schedule t) LevelInfo) m in
    (m, S fired).

Definition fire_loop (now minuteStart : time) (ls : list nat) (s : Mem.t * nat) : Mem.t * nat :=
  foldl (fun s l => fire_one now minuteStart l s) s ls.

Definition FireDueSchedules (keys : list string) (now : time) (m : Mem.t) : Mem.t * nat :=
  let minuteStart := Truncate now minute in
  foldl (fun s key => fire_loop now minuteStart (slice (Mem.tasks s.1) key) s) (m, 0) keys.

(** ** Creation and idempotency *)

Definition idempotencyCacheKey (tenantID key : string) : string := tenantID +:+ "|" +:+ key.

Definition idempotency_ttl : duration := (24 * hour)%Z.

Definition cleanupIdempotencyLocked (now : time) (m : Mem.t) : Mem.t :=
  Mem.set_idempotencyKeys
    (filter (fun ke => ~ (Sub now (idempotencyEntry.createdAt ke.2) > idempotency_ttl)%Z)
       (Mem.idempotencyKeys m)) m.

Definition register_key (tenantID key taskID : string) (now : time) (m : Mem.t) : Mem.t :=
  let m := Mem.set_idempotencyKeys
    (<[idempotencyCacheKey tenantID key := idempotencyEntry.mk taskID now]> (Mem.idempotencyKeys m)) m in
  cleanupIdempotencyLocked now m.

Definition AddIdempotencyKey (tenantID key taskID : string) (now : time) (m : Mem.t) : Mem.t :=
  if (tenantID == "") || (key == "") || (taskID == "") then m
  else register_key tenantID key taskID now m.

Definition GetIdempotencyKey (tenantID key : string) (now : time) (m : Mem.t) : option string :=
  match Mem.idempotencyKeys m !! idempotencyCacheKey tenantID key with
  | None => None
  | Some entry =>
      if (Sub now (idempotencyEntry.createdAt entry) >? idempotency_ttl)%Z then None
      else Some (idempotencyEntry.taskID entry)
  end.

Definition GetTaskByIdempotencyKey (tenantID key : string) (now : time) (m : Mem.t) : option Task.t :=
  match GetIdempotencyKey tenantID key now m with
  | None => None
  | Some taskID => if taskID == "" then None else TaskByID taskID m
  end.

(** The task that an unexpired key of the new task already stands for. *)
Definition existing_task (t : Task.t) (now : time) (m : Mem.t) : option Task.t :=
  if Task.IdempotencyKey t == "" then None
  else match Mem.idempotencyKeys m !! idempotencyCacheKey (Task.TenantID t) (Task.IdempotencyKey t) with
  | None => None
  | Some entry =>
      if (Sub now (idempotencyEntry.createdAt entry) <=? idempotency_ttl)%Z
      then TaskByID (idempotencyEntry.taskID entry) m else None
  end.

(** The status a task enters the store with. *)
Definition initial_status (t : Task.t) : Task.t :=
  let t := match Task.DependsOn t with
           | [] => t
           | _ :: _ => Task.set_Status "blocked" t
           end in
  if Task.ApprovalRequired t && (Task.Status t == "pending") then Task.set_Status "pending_approval" t else t.

(** The id a task without one is given. *)
Definition with_id (t : Task.t) (now : time) (m : Mem.t) : Task.t * Mem.t :=
  if Task.TaskID t == "" then
    let m := next_seq m in (Task.set_TaskID (new_task_id now (Mem.seqno m)) t, m)
  else (t, m).

(** The part of [CreateTask] after the test for an existing task. *)
Definition store_new (t : Task.t) (now : time) (m : Mem.t) : Task.t * Mem.t :=
  let t := initial_status t in
  let t := if IsZero (Task.CreatedAt t) then Task.set_CreatedAt now t else t in
  let '(l, m) := alloc t m in
  let m := addTaskLocked l m in
  let m :=
    if Task.IdempotencyKey t != ""
    then register_key (Task.TenantID t) (Task.IdempotencyKey t) (Task.TaskID t) now m else m in
  let m := publish (event "create_task" (Task.TaskID t) (Task.TenantID t) (Task.Command t) LevelInfo) m in
  (t, m).

Definition CreateTask (t : Task.t) (now : time) (m : Mem.t) : Task.t * Mem.t :=
  if Task.AgentID t == "" then (t, m)
  else
    let '(t, m) := with_id t now m in
    let t := if Task.Status t == "" then Task.set_Status "pending" t else t in
    match existing_task t now m with
    | Some existing => (existing, m)
    | None => store_new t now m
    end.

Definition CreateTaskWithIdempotency (t : Task.t) (now : time) (m : Mem.t) : Task.t * Mem.t :=
  CreateTask t now m.

(** ** Listing by priority *)

Definition listed_before (a b : Task.t) : bool :=
  if negb (Task.Priority a =? Task.Priority b)%Z then (Task.Priority a >? Task.Priority b)%Z
  else if negb (Task.CreatedAt a =? Task.CreatedAt b)%Z then Before (Task.CreatedAt a) (Task.CreatedAt b)
  else str_lt (Task.TaskID a) (Task.TaskID b).

(** [all[offset:end]] for the clamped bounds. *)
Definition page {A} (offset limit : Z) (all : list A) : list A :=
  let total := Z.of_nat (length all) in
  let offset := if (offset <? 0)%Z then 0%Z else offset in
  let offset := if (offset >? total)%Z then total else offset in
  let end_ :=
    if (limit >? 0)%Z then
      let e := wrap_i64 (offset + limit) in
      let e := if (e >? total)%Z then total else e in
      if (e <? offset)%Z then offset else e
    else total in
  take (Z.to_nat (end_ - offset)) (drop (Z.to_nat offset) all).

Definition ListTasksByPriority (keys : list string) (tenantID : string) (offset limit : Z) (m : Mem.t)
  : list Task.t * nat :=
  let all := AllTasks keys tenantID m in
  (page offset limit (stable_sort listed_before all), length all).

(** ** Results *)

Definition validTaskTransition (from to : string) : bool :=
  if from == "pending" then
    (to == "claimed") || (to == "running") || (to == "blocked") || (to == "pending_approval")
  else if from == "claimed" then to == "running"
  else if from == "running" then
    (to == "done") || (to == "failed") || (to == "cancelled") || (to == "pending")
  else if from == "blocked" then to == "pending"
  else if from == "pending_approval" then (to == "pending") || (to == "rejected")
  else false.

(** The map from task id to pointer that [releaseDeps] builds, read through
    the current objects. *)
Definition byID_of (ls : list nat) (m : Mem.t) : gmap string nat :=
  foldl (fun byID l => <[Task.TaskID (deref m l) := l]> byID) ∅ ls.
Definition view (byID : gmap string nat) (m : Mem.t) : index := fun id => deref m <$> byID !! id.

Definition release_one (byID : gmap string nat) (doneTaskID : string) (now : time) (l : nat) (m : Mem.t)
  : Mem.t :=
  let t := deref m l in
  if Task.Status t != "blocked" then m
  else if negb (AllDepsTerminal t (view byID m)) then m
  else match AnyDepFailed t (view byID m) with
  | Some failedDep =>
      let m := update l (fun t => unclaim (kill t)) m in
      let reason := "upstream dependency " +:+ failedDep +:+ " " +:+
        Task.Status (default Task.zero (view byID m failedDep)) in
      let m := addAlertLocked now
        (dead_letter_alert t (Task.AgentID t) ("task " +:+ Task.TaskID t +:+ " failed: " +:+ reason) now) m in
      publish (event "task_failed" (Task.TaskID t) (Task.TenantID t)
        (reason +:+ " (trigger=" +:+ doneTaskID +:+ ", dead-letter)") LevelWarn) m
  | None =>
      let m := update l (fun t => unclaim (Task.set_Status "pending" t)) m in
      publish (event "task_released" (Task.TaskID t) (Task.TenantID t)
        ("deps done (trigger=" +:+ doneTaskID +:+ ")") LevelInfo) m
  end.

Definition releaseDeps (agentID doneTaskID : string) (now : time) (m : Mem.t) : Mem.t :=
  let ls := slice (Mem.tasks m) agentID in
  let byID := byID_of ls m in
  foldl (fun m l => release_one byID doneTaskID now l m) m ls.

Definition next_status (success : bool) (t : Task.t) : string :=
  if success then "done"
  else if (Task.RetryCount t <? Task.MaxRetries t)%Z then "pending" else "failed".

(** The outcome of an accepted report on the task behind [l]. *)
Definition apply_result (res : TaskResult.t) (now : time) (l : nat) (m : Mem.t) : Mem.t :=
  let t := deref m l in
  if (TaskResult.ExitCode res =? 0)%Z then update l (Task.set_Status "done") m
  else if (Task.RetryCount t <? Task.MaxRetries t)%Z then
    let m := update l (fun t => Task.set_RetryCount (wrap_i64 (Task.RetryCount t + 1))
                                  (unclaim (Task.set_Status "pending" t))) m in
    publish (event "task_retry" (Task.TaskID t) (Task.TenantID t)
      ("retry " +:+ itoa (Task.RetryCount (deref m l)) +:+ "/" +:+ itoa (Task.MaxRetries t)) LevelWarn) m
  else
    let m := update l kill m in
    addAlertLocked now
      (dead_letter_alert t (TaskResult.AgentID res)
         ("task " +:+ Task.TaskID t +:+ " entered dead-letter after " +:+ itoa (Task.RetryCount t) +:+
          " retries (exitCode=" +:+ itoa (TaskResult.ExitCode res) +:+ ")") now) m.

(** The loop over the agent's tasks; [false] is the early [return]. *)
Fixpoint submit_loop (res : TaskResult.t) (now : time) (ls : list nat) (m : Mem.t) : Mem.t * bool :=
  match ls with
  | [] => (m, true)
  | l :: ls =>
      let t := deref m l in
      if Task.TaskID t != TaskResult.TaskID res then submit_loop res now ls m
      else if negb (validTaskTransition (Task.Status t) (next_status (TaskResult.ExitCode res =? 0)%Z t))
      then (m, false)
      else if negb (TaskResult.ClaimEpoch res =? Task.ClaimEpoch t)%Z then (m, false)
      else submit_loop res now ls (apply_result res now l m)
  end.

(** The device board of the agent's segment. *)
Definition mark_device (success : bool) (agentID : string) (now : time) (d : DeviceInfo.t) : DeviceInfo.t :=
  if DeviceInfo.AgentID d == agentID then
    let d := if success
      then DeviceInfo.set_LastResult "success" (DeviceInfo.set_TaskState "done" d)
      else DeviceInfo.set_LastResult "failed" (DeviceInfo.set_TaskState "idle" d) in
    DeviceInfo.set_LastResultAt now d
  else d.

Definition mark_devices (success : bool) (agentID : string) (now : time) (m : Mem.t) : Mem.t :=
  let seg := match Mem.agents m !! agentID with Some a => AgentInfo.Segment a | None => "" end in
  match Mem.segments m !! seg with
  | Some devs => Mem.set_segments (<[seg := mark_device success agentID now <$> devs]> (Mem.segments m)) m
  | None => m
  end.

Definition SubmitResult (res : TaskResult.t) (now : time) (m : Mem.t) : Mem.t :=
  let agentID := TaskResult.AgentID res in
  let m := Mem.set_results (<[agentID := slice (Mem.results m) agentID ++ [res]]> (Mem.results m)) m in
  let success := (TaskResult.ExitCode res =? 0)%Z in
  let '(m, completed) := submit_loop res now (slice (Mem.tasks m) agentID) m in
  if negb completed then m
  else
    let m := releaseDeps agentID (TaskResult.TaskID res) now m in
    let m := mark_devices success agentID now m in
    publish (event "report_result" (TaskResult.TaskID res) ""
      ("exitCode=" +:+ itoa (TaskResult.ExitCode res)) (if success then LevelInfo else LevelWarn)) m.

(** ** Cancellation, approval, dead letters, deletion *)

(** The lookup that the by-id operations share: the pointer, unless the task
    is unknown or belongs to another tenant. *)
Definition owned (id tenantID : string) (m : Mem.t) : option nat :=
  match Mem.tasksByID m !! id with
  | None => None
  | Some l => if (tenantID != "") && (Task.TenantID (deref m l) != tenantID) then None else Some l
  end.

Definition CancelTask (id tenantID : string) (now : time) (m : Mem.t) : bool * Mem.t :=
  match owned id tenantID m with
  | None => (false, m)
  | Some l =>
      let t := deref m l in
      if (Task.Status t == "pending") || (Task.Status t == "running") then
        let m := update l (Task.set_Status "cancelled") m in
        (true, releaseDeps (Task.AgentID t) (Task.TaskID t) now m)
      else (false, m)
  end.

Definition ApproveTask (id tenantID approvedBy : string) (now : time) (m : Mem.t) : bool * Mem.t :=
  match owned id tenantID m with
  | None => (false, m)
  | Some l =>
      let t := deref m l in
      if Task.Status t != "pending_approval" then (false, m)
      else
        let m := update l (fun t => Task.set_ApprovedAt now (Task.set_ApprovedBy approvedBy
                                      (Task.set_Status "pending" t))) m in
        (true, publish (event "task_approved" (Task.TaskID t) (Task.TenantID t) ("by=" +:+ approvedBy) LevelInfo) m)
  end.

Definition RejectTask (id tenantID approvedBy : string) (now : time) (m : Mem.t) : bool * Mem.t :=
  match owned id tenantID m with
  | None => (false, m)
  | Some l =>
      let t := deref m l in
      if Task.Status t != "pending_approval" then (false, m)
      else
        let m := update l (fun t => Task.set_ApprovedAt now (Task.set_ApprovedBy approvedBy
                                      (Task.set_Status "rejected" t))) m in
        (true, publish (event "task_rejected" (Task.TaskID t) (Task.TenantID t) ("by=" +:+ approvedBy) LevelWarn) m)
  end.

Definition RetryDeadLetterTask (id tenantID : string) (m : Mem.t) : bool * Mem.t :=
  match owned id tenantID m with
  | None => (false, m)
  | Some l =>
      let t := deref m l in
      if negb (Task.DeadLetter t) || (Task.Status t != "failed") then (false, m)
      else
        let m := update l (fun t => unclaim (Task.set_RetryCount 0 (Task.set_Status "pending"
                                      (Task.set_DeadLetter false t)))) m in
        (true, publish (event "task_retry_dead_letter" (Task.TaskID t) (Task.TenantID t)
                 "dead letter requeued" LevelInfo) m)
  end.

(** Removal of the first pointer to a task with the id. *)
Fixpoint remove_first (id : string) (m : Mem.t) (ls : list nat) : list nat :=
  match ls with
  | [] => []
  | l :: ls => if Task.TaskID (deref m l) == id then ls else l :: remove_first id m ls
  end.

Definition DeleteTask (id tenantID : string) (m : Mem.t) : bool * Mem.t :=
  match owned id tenantID m with
  | None => (false, m)
  | Some l =>
      let t := deref m l in
      let agentTasks := slice (Mem.tasks m) (Task.AgentID t) in
      let m' :=
        if existsb (fun l => Task.TaskID (deref m l) == id) agentTasks
        then Mem.set_tasks (<[Task.AgentID t := remove_first id m agentTasks]> (Mem.tasks m)) m else m in
      let m' := Mem.set_tasksByID (delete id (Mem.tasksByID m')) m' in
      (true, publish (event "task_deleted" id (Task.TenantID t) "task purged" LevelWarn) m')
  end.
