(* ===== verification/MemFleet.v ===== *)
(** * Agents, devices and install tokens of the memory store
      ([internal/store/memory/memory.go], [internal/store/storekit/crypto.go])

    Registration with its guard against re-binding an agent to another tenant,
    heartbeats, the device lists of the network segments, and one-time install
    tokens.  [segs] is the order in which Go ranges over the map of segments.
    The cryptographic primitives are parameters: [hmac_hex secret payload] is
    the hexadecimal HMAC-SHA256 and [sha256_hex] the hexadecimal digest; random
    texts are arguments of the operations that draw them. *)

From Stdlib Require Import Ascii.
From S2P Require Import Proto GoStrings Window MemState MemTasks Prelude.
Open Scope go_scope.

(** ** Loops over segments *)

(** [for i := range xs { if p(xs[i]) { xs[i] = f(xs[i]); break } }]. *)
Fixpoint update_first {A} (p : A -> bool) (f : A -> A) (l : list A) : option (list A) :=
  match l with
  | [] => None
  | x :: l => if p x then Some (f x :: l) else cons x <$> update_first p f l
  end.

(** The same over all the segments, in the order [segs]. *)
Fixpoint update_device (segs : list string) (p : DeviceInfo.t -> bool) (f : DeviceInfo.t -> DeviceInfo.t)
  (m : Mem.t) : option Mem.t :=
  match segs with
  | [] => None
  | seg :: segs =>
      match update_first p f (slice (Mem.segments m) seg) with
      | Some devs => Some (Mem.set_segments (<[seg := devs]> (Mem.segments m)) m)
      | None => update_device segs p f m
      end
  end.

Definition all_devices (segs : list string) (m : Mem.t) : list DeviceInfo.t :=
  segs ≫= slice (Mem.segments m).

(** ** Agents *)

(** The candidate device that [Register] turns into a managed one. *)
Definition onboardable (a : AgentInfo.t) (d : DeviceInfo.t) : bool :=
  (DeviceInfo.DeviceID d == AgentInfo.OnboardDeviceID a) &&
  negb ((AgentInfo.TenantID a != "") && (DeviceInfo.TenantID d != "") &&
        (DeviceInfo.TenantID d != AgentInfo.TenantID a)).

Definition onboard (a : AgentInfo.t) (d : DeviceInfo.t) : DeviceInfo.t :=
  DeviceInfo.set_TenantID (AgentInfo.TenantID a) (DeviceInfo.set_AgentID (AgentInfo.AgentID a)
    (DeviceInfo.set_State "online" (DeviceInfo.set_Managed true d))).

Definition refresh_host (a : AgentInfo.t) (d : DeviceInfo.t) : DeviceInfo.t :=
  let d := DeviceInfo.set_Hostname (AgentInfo.Hostname a) d in
  let d := if AgentInfo.OS a != "" then DeviceInfo.set_OS (AgentInfo.OS a) d else d in
  if AgentInfo.Arch a != "" then DeviceInfo.set_Arch (AgentInfo.Arch a) d else d.

Definition placeholder_device (a : AgentInfo.t) : DeviceInfo.t :=
  DeviceInfo.set_DeviceID ("dev-" +:+ AgentInfo.AgentID a) (DeviceInfo.set_Segment (AgentInfo.Segment a)
  (DeviceInfo.set_TenantID (AgentInfo.TenantID a) (DeviceInfo.set_IP (AgentInfo.Addr a)
  (DeviceInfo.set_AgentID (AgentInfo.AgentID a) (DeviceInfo.set_State "online"
  (DeviceInfo.set_TaskState "idle" (DeviceInfo.set_Managed true
  (DeviceInfo.set_Hostname (AgentInfo.Hostname a) (DeviceInfo.set_OS (AgentInfo.OS a)
  (DeviceInfo.set_Arch (AgentInfo.Arch a) DeviceInfo.zero)))))))))).

Definition place_agent (segs : list string) (a : AgentInfo.t) (m : Mem.t) : Mem.t :=
  if AgentInfo.OnboardDeviceID a != "" then
    default m (update_device segs (onboardable a) (onboard a) m)
  else
    let devs := slice (Mem.segments m) (AgentInfo.Segment a) in
    let devs :=
      match update_first (fun d => DeviceInfo.AgentID d == AgentInfo.AgentID a) (refresh_host a) devs with
      | Some devs => devs
      | None => devs ++ [placeholder_device a]
      end in
    Mem.set_segments (<[AgentInfo.Segment a := devs]> (Mem.segments m)) m.

Definition demo_task (a : AgentInfo.t) (now : time) : Task.t :=
  Task.set_TaskID ("task-" +:+ AgentInfo.AgentID a +:+ "-1") (Task.set_AgentID (AgentInfo.AgentID a)
  (Task.set_TenantID (AgentInfo.TenantID a) (Task.set_Type_ "shell" (Task.set_Command "uname -a"
  (Task.set_Status "pending" (Task.set_CreatedAt now Task.zero)))))).

(** The agent's id and tenant are already bound to another tenant. *)
Definition bound_elsewhere (a : AgentInfo.t) (m : Mem.t) : bool :=
  match Mem.agents m !! AgentInfo.AgentID a with
  | Some prev => (AgentInfo.TenantID prev != "") && (AgentInfo.TenantID prev != AgentInfo.TenantID a)
  | None => false
  end.

(** [Register]; [rnd] is the random key drawn for a new agent. *)
Definition Register (segs : list string) (rnd : string) (a : AgentInfo.t) (now : time) (m : Mem.t)
  : option AgentInfo.t * Mem.t :=
  let '(a, m) :=
    if AgentInfo.AgentID a == "" then
      let m := next_seq m in (AgentInfo.set_AgentID ("agent-" +:+ itoa (Mem.seqno m)) a, m)
    else (a, m) in
  let a := if AgentInfo.Status a == "" then AgentInfo.set_Status "online" a else a in
  if bound_elsewhere a m then (None, m)
  else
    let a := AgentInfo.set_LastSeen now a in
    let id := AgentInfo.AgentID a in
    let m := Mem.set_agents (<[id := a]> (Mem.agents m)) m in
    let m := match Mem.agentSecrets m !! id with
             | None => Mem.set_agentSecrets (<[id := rnd]> (Mem.agentSecrets m)) m
             | Some _ => m
             end in
    let m := place_agent segs a m in
    let m :=
      if Mem.demo m && (length (slice (Mem.tasks m) id) == 0) then
        let '(l, m) := alloc (demo_task a now) m in addTaskLocked l m
      else m in
    let m := publish (event "register" id (AgentInfo.TenantID a) "" LevelInfo) m in
    let m := appendAudit now (AuditEvent.set_TenantID (AgentInfo.TenantID a)
      (AuditEvent.set_Action "register" (AuditEvent.set_Target id AuditEvent.zero))) m in
    (Some a, m).

Definition Heartbeat (agentID status : string) (load : Z) (now : time) (m : Mem.t) : bool * Mem.t :=
  match Mem.agents m !! agentID with
  | None => (false, m)
  | Some a =>
      let a := AgentInfo.set_Load load (AgentInfo.set_Status status (AgentInfo.set_LastSeen now a)) in
      (true, Mem.set_agents (<[agentID := a]> (Mem.agents m)) m)
  end.

Definition Agent (id : string) (m : Mem.t) : option AgentInfo.t := Mem.agents m !! id.

(** [keys] enumerates the map of agents. *)
Definition Agents (keys : list string) (tenantID : string) (m : Mem.t) : list AgentInfo.t :=
  List.filter (fun a => negb ((tenantID != "") && (AgentInfo.TenantID a != tenantID)))
    (omap (fun k => Mem.agents m !! k) keys).

Definition AgentSecret (agentID : string) (m : Mem.t) : string := default "" (Mem.agentSecrets m !! agentID).

(** ** Devices *)

Definition UpsertDevice (d : DeviceInfo.t) (m : Mem.t) : Mem.t :=
  if DeviceInfo.DeviceID d == "" then m
  else
    let seg := DeviceInfo.Segment d in
    let devs := slice (Mem.segments m) seg in
    let devs :=
      match update_first (fun e => DeviceInfo.DeviceID e == DeviceInfo.DeviceID d) (fun _ => d) devs with
      | Some devs => devs
      | None => devs ++ [d]
      end in
    Mem.set_segments (<[seg := devs]> (Mem.segments m)) m.

Definition Device (segs : list string) (id : string) (m : Mem.t) : option DeviceInfo.t :=
  find_first (fun d => DeviceInfo.DeviceID d == id) (all_devices segs m).

Definition retire (d : DeviceInfo.t) : DeviceInfo.t :=
  DeviceInfo.set_State "offline" (DeviceInfo.set_Retired true d).

Definition RetireDevice (segs : list string) (id tenantID : string) (m : Mem.t) : bool * Mem.t :=
  match Device segs id m with
  | None => (false, m)
  | Some d =>
      if (tenantID != "") && (DeviceInfo.TenantID d != tenantID) then (false, m)
      else (true, default m (update_device segs (fun d => DeviceInfo.DeviceID d == id) retire m))
  end.

(** A device whose agent has been silent since [cutoff], or that has none. *)
Definition aged (cutoff : time) (m : Mem.t) (d : DeviceInfo.t) : bool :=
  if DeviceInfo.AgentID d != "" then
    match Mem.agents m !! DeviceInfo.AgentID d with
    | Some a => Before (AgentInfo.LastSeen a) cutoff
    | None => true
    end
  else true.

Definition retire_stale (cutoff : time) (m : Mem.t) (d : DeviceInfo.t) : DeviceInfo.t :=
  if DeviceInfo.Retired d then d else if aged cutoff m d then retire d else d.

Definition RetireStaleDevices (maxAge : duration) (now : time) (m : Mem.t) : nat * Mem.t :=
  if (maxAge <=? 0)%Z then (0, m)
  else
    let cutoff := Add now (- maxAge) in
    let n := map_fold (fun _ devs n =>
      n + length (List.filter (fun d => negb (DeviceInfo.Retired d) && aged cutoff m d) devs))
      0 (Mem.segments m) in
    (n, Mem.set_segments
      ((fun devs : list DeviceInfo.t => retire_stale cutoff m <$> devs) <$> Mem.segments m) m).

Definition Snapshot (tenantID : string) (m : Mem.t) : gmap string (list DeviceInfo.t) :=
  List.filter (fun d =>
    negb ((tenantID != "") && (DeviceInfo.TenantID d != tenantID)) && negb (DeviceInfo.Retired d))
  <$> Mem.segments m.

(** ** Install tokens *)

Section tokens.
Context (hmac_hex : string -> string -> string) (sha256_hex : string -> string).

Definition HashToken (tok : string) : string := sha256_hex tok.

Definition VerifyTokenMAC (secret token : string) : bool :=
  if (secret == "") || (token == "") then false
  else match cut "." token with
  | Some (sigHex, payload) =>
      if (sigHex == "") || (payload == "") then false
      else hmac_hex secret payload == sigHex
  | None => false
  end.

(** [rnd] is the fallback secret, [nonce] the random part of the payload. *)
Definition issueTokenLocked (deviceID tenantID : string) (ttl : duration) (rnd nonce : string)
  (now : time) (m : Mem.t) : string * Mem.t :=
  let m := if Mem.secret m == "" then Mem.set_secret rnd m else m in
  let expiresAt := Add now ttl in
  let payload := JoinStr "|" [tenantID; deviceID; itoa (Unix expiresAt); nonce] in
  let tok := hmac_hex (Mem.secret m) payload +:+ "." +:+ payload in
  (tok, Mem.set_tokens
    (<[HashToken tok := tokenMeta.mk deviceID tenantID expiresAt false]> (Mem.tokens m)) m).

Inductive token_error := IllegalCharacter | DeviceNotFound (id : string) | DeviceRequired.

Definition IssueToken (deviceID tenantID : string) (ttl : duration) (rnd nonce : string) (now : time)
  (m : Mem.t) : result token_error string * Mem.t :=
  if deviceID == "" then (Err DeviceRequired, m)
  else let '(tok, m) := issueTokenLocked deviceID tenantID ttl rnd nonce now m in (Ok tok, m).

Definition provision_ttl : duration := (15 * minute)%Z.

(** [Provision]; the bootstrap text of the source is a fixed template around
    the token. *)
Definition Provision (segs : list string) (deviceID host tenantID rnd nonce : string) (now : time)
  (m : Mem.t) : result token_error (string * string) * Mem.t :=
  if ContainsChar "|" deviceID || ContainsChar "|" tenantID then (Err IllegalCharacter, m)
  else
    let prepare d := DeviceInfo.set_IP host (DeviceInfo.set_State "provisioning" d) in
    match update_device segs (fun d => DeviceInfo.DeviceID d == deviceID) prepare m with
    | None => (Err (DeviceNotFound deviceID), m)
    | Some m =>
        let '(tok, m) := issueTokenLocked deviceID tenantID provision_ttl rnd nonce now m in
        (Ok (tok, "curl -sSL http://<control-plane>:8080/install.sh | sh -s -- --token=" +:+ tok), m)
    end.

Definition ConsumeToken (token : string) (now : time) (m : Mem.t) : option (string * string) * Mem.t :=
  if negb (VerifyTokenMAC (Mem.secret m) token) then (None, m)
  else match Mem.tokens m !! HashToken token with
  | None => (None, m)
  | Some tm =>
      if tokenMeta.consumed tm then (None, m)
      else if After now (tokenMeta.expiresAt tm) then (None, m)
      else
        (Some (tokenMeta.deviceID tm, tokenMeta.tenantID tm),
         Mem.set_tokens (<[HashToken token := tokenMeta.set_consumed true tm]> (Mem.tokens m)) m)
  end.
End tokens.

(** [CleanupTokens]; [keys] enumerates the map of tokens. *)
Fixpoint cleanup_loop (keys : list string) (batch : Z) (now : time) (m : Mem.t) (n : Z) : Z * Mem.t :=
  match keys with
  | [] => (n, m)
  | key :: keys =>
      if (batch >? 0)%Z && (n >=? batch)%Z then (n, m)
      else match Mem.tokens m !! key with
      | Some tm =>
          if tokenMeta.consumed tm || After now (tokenMeta.expiresAt tm)
          then cleanup_loop keys batch now (Mem.set_tokens (delete key (Mem.tokens m)) m) (n + 1)
          else cleanup_loop keys batch now m n
      | None => cleanup_loop keys batch now m n
      end
  end.

Definition CleanupTokens (keys : list string) (batch : Z) (now : time) (m : Mem.t) : Z * Mem.t :=
  cleanup_loop keys batch now m 0.
