(* ===== verification/MemRecords.v ===== *)
(** * Alerts, audits, results, rules, quotas and metrics of the memory store
      ([internal/store/memory/memory.go])

    The operations on the bounded logs of alerts and audit events, the stored
    results, and the three tables whose maps no other operation touches (alert
    rules, tenant quotas, device metrics), each over its own map. *)

From S2P Require Import Proto GoStrings Window Storekit MemState MemFleet Prelude.
Open Scope go_scope.

(** ** Alerts *)

Definition AddAlert (a : Alert.t) (now : time) (m : Mem.t) : Mem.t := addAlertLocked now a m.

Definition Alerts (tenantID : string) (m : Mem.t) : list Alert.t :=
  List.filter (fun a => negb ((tenantID != "") && (Alert.TenantID a != tenantID))) (Mem.alerts m).

Definition Alert_ (id : string) (m : Mem.t) : option Alert.t :=
  find_first (fun a => Alert.AlertID a == id) (Mem.alerts m).

Definition alert_of (id tenantID : string) (a : Alert.t) : bool :=
  (Alert.AlertID a == id) && ((tenantID == "") || (Alert.TenantID a == tenantID)).

Definition AckAlert (id tenantID by_ : string) (now : time) (m : Mem.t) : bool * Mem.t :=
  let ack a := Alert.set_UpdatedAt now (Alert.set_AcknowledgedBy by_
    (Alert.set_Status AlertStatusAcknowledged a)) in
  match update_first (alert_of id tenantID) ack (Mem.alerts m) with
  | Some alerts => (true, Mem.set_alerts alerts m)
  | None => (false, m)
  end.

Definition SilenceAlert (id tenantID by_ : string) (until : time) (comment : string) (now : time) (m : Mem.t)
  : bool * Mem.t :=
  let until := if IsZero until then Add now (24 * hour) else until in
  let silence a := Alert.set_UpdatedAt now (Alert.set_Comment comment (Alert.set_SilencedUntil until
    (Alert.set_AcknowledgedBy by_ (Alert.set_Status AlertStatusSilenced a)))) in
  match update_first (alert_of id tenantID) silence (Mem.alerts m) with
  | Some alerts => (true, Mem.set_alerts alerts m)
  | None => (false, m)
  end.

(** ** Results ([keys] enumerates the map of results) *)

Definition TaskResult_ (keys : list string) (taskID : string) (m : Mem.t) : option TaskResult.t :=
  find_first (fun r => TaskResult.TaskID r == taskID) (keys ≫= slice (Mem.results m)).

Definition Results (agentID : string) (m : Mem.t) : list TaskResult.t := slice (Mem.results m) agentID.

(** ** Audits *)

Definition Audit (e : AuditEvent.t) (now : time) (m : Mem.t) : Mem.t := appendAudit now e m.
Definition Audits (m : Mem.t) : list AuditEvent.t := Mem.audits m.

(** The filter of the queries; empty or zero arguments do not restrict. *)
Definition audit_matches (tenant action : string) (since until : time) (e : AuditEvent.t) : bool :=
  negb ((tenant != "") && (AuditEvent.TenantID e != tenant)) &&
  negb ((action != "") && (AuditEvent.Action e != action)) &&
  negb (negb (IsZero since) && Before (AuditEvent.CreatedAt e) since) &&
  negb (negb (IsZero until) && After (AuditEvent.CreatedAt e) until).

Definition newest_first {A} (limit : Z) (out : list A) : list A :=
  let out := rev out in
  if (limit >? 0)%Z && (Z.of_nat (length out) >? limit)%Z then take (Z.to_nat limit) out else out.

Definition QueryAudits (tenant action : string) (since until : time) (limit : Z) (m : Mem.t)
  : list AuditEvent.t :=
  newest_first limit (List.filter (audit_matches tenant action since until) (Mem.audits m)).

Definition QueryHighRiskAudits (tenant : string) (since until : time) (limit : Z) (m : Mem.t)
  : list AuditEvent.t :=
  newest_first limit
    (List.filter (fun e => AuditEvent.HighRisk e && audit_matches tenant "" since until e) (Mem.audits m)).

(** [AddDate(0, 0, -n)] in UTC is a shift by whole days. *)
Definition ArchiveAuditLog (retainDays : Z) (now : time) (m : Mem.t) : Z * Mem.t :=
  if (retainDays <=? 0)%Z then (0%Z, m)
  else
    let cutoff := Add now (- retainDays * (24 * hour)) in
    let old e := Before (AuditEvent.CreatedAt e) cutoff in
    (Z.of_nat (length (List.filter old (Mem.audits m))),
     Mem.set_audits (List.filter (fun e => negb (old e)) (Mem.audits m)) m).

(** ** Alert rules *)

(** [AlertRule]; the threshold is an uninterpreted 64-bit float, carried by its
    bits. *)
Module AlertRule.
Record t := mk {
  ID : string;
  TenantID : string;
  Metric : string;
  Op : string;
  Threshold : Z;
  ForDuration : Z;
  Severity : string;
  Message : string;
  Enabled : bool;
  CreatedAt : time;
  CreatedBy : string;
}.
Definition set_ID v r := mk v r.(TenantID) r.(Metric) r.(Op) r.(Threshold) r.(ForDuration) r.(Severity)
  r.(Message) r.(Enabled) r.(CreatedAt) r.(CreatedBy).
Definition set_TenantID v r := mk r.(ID) v r.(Metric) r.(Op) r.(Threshold) r.(ForDuration) r.(Severity)
  r.(Message) r.(Enabled) r.(CreatedAt) r.(CreatedBy).
Definition set_CreatedAt v r := mk r.(ID) r.(TenantID) r.(Metric) r.(Op) r.(Threshold) r.(ForDuration)
  r.(Severity) r.(Message) r.(Enabled) v r.(CreatedBy).
End AlertRule.

Abbreviation alert_rules := (gmap string AlertRule.t).

(** [rnd] is the id drawn by [RandAlertRuleID]. *)
Definition CreateAlertRule (rnd : string) (r : AlertRule.t) (now : time) (rules : alert_rules)
  : AlertRule.t * alert_rules :=
  let r := if AlertRule.TenantID r == "" then AlertRule.set_TenantID "default" r else r in
  let r := if AlertRule.ID r == "" then AlertRule.set_ID rnd r else r in
  let r := if IsZero (AlertRule.CreatedAt r) then AlertRule.set_CreatedAt now r else r in
  (r, <[AlertRule.ID r := r]> rules).

(** [keys] enumerates the map; the insertion sort of the source is stable. *)
Definition ListAlertRules (keys : list string) (tenantID : string) (rules : alert_rules) : list AlertRule.t :=
  stable_sort (fun a b => Before (AlertRule.CreatedAt a) (AlertRule.CreatedAt b))
    (List.filter (fun r => negb ((tenantID != "") && (AlertRule.TenantID r != tenantID)))
       (omap (fun k => rules !! k) keys)).

Definition DeleteAlertRule (id tenantID : string) (rules : alert_rules) : bool * alert_rules :=
  match rules !! id with
  | None => (false, rules)
  | Some r => if AlertRule.TenantID r != tenantID then (false, rules) else (true, delete id rules)
  end.

Definition GetAlertRule (id : string) (rules : alert_rules) : option AlertRule.t := rules !! id.

Definition UpdateAlertRule (r : AlertRule.t) (rules : alert_rules) : bool * alert_rules :=
  match rules !! AlertRule.ID r with
  | None => (false, rules)
  | Some old => (true, <[AlertRule.ID r := AlertRule.set_CreatedAt (AlertRule.CreatedAt old) r]> rules)
  end.

(** ** Quotas *)

Module QuotaConfig.
Record t := mk { TenantID : string; MaxDevices : Z; MaxTasks : Z; MaxAlerts : Z }.
Definition set_TenantID v r := mk v r.(MaxDevices) r.(MaxTasks) r.(MaxAlerts).
End QuotaConfig.

Abbreviation quotas := (gmap string QuotaConfig.t).

Definition GetQuota (tenantID : string) (q : quotas) : option QuotaConfig.t :=
  if tenantID == "" then None else q !! tenantID.

Definition ListQuotas (keys : list string) (q : quotas) : list QuotaConfig.t :=
  omap (fun tenantID => QuotaConfig.set_TenantID tenantID <$> q !! tenantID) keys.

Inductive quota_error := EmptyTenantID.

Definition SetQuota (tenantID : string) (cfg : option QuotaConfig.t) (q : quotas) : result quota_error quotas :=
  if tenantID == "" then Err EmptyTenantID
  else match cfg with
  | None => Ok (delete tenantID q)
  | Some cfg => Ok (<[tenantID := QuotaConfig.set_TenantID tenantID cfg]> q)
  end.

(** ** Device metrics *)

Section metrics.
Context {A : Type} (zero : A) (CollectedAt : A -> time).
Abbreviation rings := (gmap string (option (MetricsRing.t A))).
Context (iter : rings -> list (string * option (MetricsRing.t A))).

(** [seq] is the write number drawn from the process-wide counter. *)
Definition StoreDeviceMetrics (deviceID : string) (seq : Z) (metrics : A) (dm : rings) : rings :=
  if deviceID == "" then dm
  else
    let r := match dm !! deviceID with
             | Some (Some r) => r
             | _ => MetricsRing.NewMetricsRing zero (Z.of_nat MetricsRingDefaultCap)
             end in
    (Evict.EvictDeviceMetricsIfNeeded iter (<[deviceID := Some (MetricsRing.Add seq metrics r)]> dm)).1.

Definition DeviceMetrics (deviceID : string) (dm : rings) : option A :=
  match dm !! deviceID with
  | Some (Some r) => MetricsRing.Latest r
  | _ => None
  end.

Definition DeviceMetricsHistory (deviceID : string) (since : time) (dm : rings) : list A :=
  match dm !! deviceID with
  | Some (Some r) => MetricsRing.Since CollectedAt r since
  | _ => []
  end.
End metrics.
