(* ===== verification/MemLife.v ===== *)
(** * The life of a task in the memory store

    [task_step] lists everything that may ever happen to a task object, with the
    number of claims a step makes; it is
    the abstract specification that the operations of [MemTasks] implement.
    Two facts are shown of every operation here: the objects move along
    [task_step] only ([evolves]), and the two maps of tasks stay consistent with
    each other ([wf]). *)

From S2P Require Import Proto Dag GoStrings Cron Window MemState MemTasks MemFleet MemRecords Prelude.
From stdpp Require Import relations.
Open Scope go_scope.

(** ** Specification *)

Definition reclaimed (t : Task.t) : Task.t :=
  let t := unclaim (Task.set_RetryCount (wrap_i64 (Task.RetryCount t + 1)) t) in
  if (Task.RetryCount t >=? Task.MaxRetries t)%Z then kill t else unclaim (Task.set_Status "pending" t).

Inductive task_step : nat -> Task.t -> Task.t -> Prop :=
  | step_claim agentID now t :
      isPending t = true -> task_step 1 t (mark_claimed agentID now t)
  | step_done t :
      Task.Status t = "running" -> task_step 0 t (Task.set_Status "done" t)
  (** A failure report is accepted in all the states from which [pending] is
      a valid transition, not only for a running task. *)
  | step_retry t :
      Task.Status t = "running" \/ Task.Status t = "blocked" \/ Task.Status t = "pending_approval" ->
      (Task.RetryCount t < Task.MaxRetries t)%Z ->
      task_step 0 t (Task.set_RetryCount (wrap_i64 (Task.RetryCount t + 1)) (unclaim (Task.set_Status "pending" t)))
  | step_dead t :
      Task.Status t = "running" -> (Task.MaxRetries t <= Task.RetryCount t)%Z -> task_step 0 t (kill t)
  | step_reclaim t :
      Task.Status t = "running" -> task_step 0 t (reclaimed t)
  | step_cancel t :
      Task.Status t = "pending" \/ Task.Status t = "running" -> task_step 0 t (Task.set_Status "cancelled" t)
  | step_release t :
      Task.Status t = "blocked" -> task_step 0 t (unclaim (Task.set_Status "pending" t))
  | step_dep_failed t :
      Task.Status t = "blocked" -> task_step 0 t (unclaim (kill t))
  | step_approve by_ now t :
      Task.Status t = "pending_approval" ->
      task_step 0 t (Task.set_ApprovedAt now (Task.set_ApprovedBy by_ (Task.set_Status "pending" t)))
  | step_reject by_ now t :
      Task.Status t = "pending_approval" ->
      task_step 0 t (Task.set_ApprovedAt now (Task.set_ApprovedBy by_ (Task.set_Status "rejected" t)))
  | step_requeue t :
      Task.Status t = "failed" -> Task.DeadLetter t = true ->
      task_step 0 t (unclaim (Task.set_RetryCount 0 (Task.set_Status "pending" (Task.set_DeadLetter false t))))
  | step_fired now t :
      Task.ParentID t = "" -> Task.Schedule t <> "" -> task_step 0 t (Task.set_LastFiredAt now t).

(** A life is a sequence of steps; its index counts the claims. *)
Inductive life : nat -> Task.t -> Task.t -> Prop :=
  | life_nil t : life 0 t t
  | life_cons i j t1 t2 t3 : task_step i t1 t2 -> life j t2 t3 -> life (i + j) t1 t3.

Lemma life_once i t t' : task_step i t t' -> life i t t'.
Proof. intros H. rewrite <- (Nat.add_0_r i). eapply life_cons; [exact H | constructor]. Qed.

Lemma life_app i j t1 t2 t3 : life i t1 t2 -> life j t2 t3 -> life (i + j) t1 t3.
Proof.
  induction 1 as [| i i' x y z H _ IH]; [done |]. intros H'. rewrite <- Nat.add_assoc.
  eapply life_cons; [exact H | by apply IH].
Qed.

(** What no step changes. *)
Record same_task (t t' : Task.t) : Prop := {
  same_id : Task.TaskID t' = Task.TaskID t;
  same_agent : Task.AgentID t' = Task.AgentID t;
  same_tenant : Task.TenantID t' = Task.TenantID t;
  same_parent : Task.ParentID t' = Task.ParentID t;
  same_schedule : Task.Schedule t' = Task.Schedule t;
  same_deps : Task.DependsOn t' = Task.DependsOn t;
  same_max : Task.MaxRetries t' = Task.MaxRetries t;
  same_priority : Task.Priority t' = Task.Priority t;
  same_created : Task.CreatedAt t' = Task.CreatedAt t;
  same_command : Task.Command t' = Task.Command t;
}.

#[global] Instance same_task_preorder : PreOrder same_task.
Proof. split; [by constructor |]. intros x y z [] []. constructor; congruence. Qed.

Lemma reclaimed_cases t (P : Task.t -> Prop) :
  P (kill (unclaim (Task.set_RetryCount (wrap_i64 (Task.RetryCount t + 1)) t))) ->
  P (unclaim (Task.set_Status "pending" (unclaim (Task.set_RetryCount (wrap_i64 (Task.RetryCount t + 1)) t)))) ->
  P (reclaimed t).
Proof. intros H1 H2. unfold reclaimed. cbv zeta. by destruct (_ >=? _)%Z. Qed.

Lemma task_step_same i t t' : task_step i t t' -> same_task t t'.
Proof. destruct 1; try by constructor. apply reclaimed_cases; by constructor. Qed.

Lemma life_same i t t' : life i t t' -> same_task t t'.
Proof. induction 1 as [| i j x y z H _ IH]; [reflexivity |]. etransitivity; [by eapply task_step_same | done]. Qed.

(** A task in one of these states stays in it. *)
Definition settled (status : string) : bool :=
  (status == "done") || (status == "cancelled") || (status == "rejected").

Lemma task_step_settled i t t' :
  task_step i t t' -> settled (Task.Status t) = true ->
  Task.Status t' = Task.Status t /\ Task.ClaimEpoch t' = Task.ClaimEpoch t /\ Task.RetryCount t' = Task.RetryCount t.
Proof.
  destruct 1 as [? ? t H | t H | t [H | [H | H]] | t H | t H | t [H | H] | t H | t H | ? ? t H | ? ? t H | t H | ]; try done;
    unfold isPending in *; try (rewrite H; done).
  intros Hs. apply orb_true_iff in H as [H | H]; apply bool_decide_eq_true in H; by rewrite H in Hs.
Qed.

Lemma life_settled i t t' :
  life i t t' -> settled (Task.Status t) = true ->
  Task.Status t' = Task.Status t /\ Task.ClaimEpoch t' = Task.ClaimEpoch t /\ Task.RetryCount t' = Task.RetryCount t.
Proof.
  induction 1 as [| i j x y z H _ IH]; [done |]. intros Hs.
  destruct (task_step_settled _ _ _ H Hs) as (E1 & E2 & E3). rewrite <- E1, <- E2, <- E3.
  apply IH. by rewrite E1.
Qed.

(** The retry budget: a task that is not failed has used at most [MaxRetries]
    retries; the reclaim of a stale task may add one more as it fails. *)
Definition within_budget (t : Task.t) : Prop :=
  (0 <= Task.RetryCount t <= Z.max 0 (Task.MaxRetries t) + 1)%Z /\
  (Task.Status t <> "failed" -> Task.RetryCount t <= Z.max 0 (Task.MaxRetries t))%Z.

Lemma task_step_budget i t t' :
  (Task.MaxRetries t < max_i64)%Z -> task_step i t t' -> within_budget t -> within_budget t'.
Proof.
  unfold max_i64. intros Hmax Hstep [H1 H2]. unfold within_budget.
  assert (Hw : Task.Status t <> "failed" -> wrap_i64 (Task.RetryCount t + 1) = (Task.RetryCount t + 1)%Z).
  { intros Hs. specialize (H2 Hs). apply wrap_i64_id. unfold in_i64. lia. }
  assert (Hlive : forall s, Task.Status t = s -> s <> "failed" ->
    (Task.RetryCount t <= Z.max 0 (Task.MaxRetries t))%Z /\
    wrap_i64 (Task.RetryCount t + 1) = (Task.RetryCount t + 1)%Z) by (intros s <- Hs; auto).
  clear Hw. destruct Hstep as [? ? t H | t H | t [H | [H | H]] ? | t H | t H | t [H | H] | t H | t H | ? ? t H | ? ? t H | t H | ];
    try (destruct (Hlive _ H ltac:(done)) as [H3 Hw]).
  - apply orb_true_iff in H as [H | H]; apply bool_decide_eq_true in H;
      destruct (Hlive _ H ltac:(done)) as [H3 Hw]; simpl; lia.
  - simpl; lia.
  - simpl. rewrite Hw. lia.
  - simpl. rewrite Hw. lia.
  - simpl. rewrite Hw. lia.
  - simpl. split; [lia | done].
  - unfold reclaimed. simpl. rewrite Hw.
    destruct (Z.geb_spec (Task.RetryCount t + 1) (Task.MaxRetries t)); simpl; [| lia]. split; [lia | done].
  - simpl; lia.
  - simpl; lia.
  - simpl; lia.
  - simpl. split; [lia | done].
  - simpl; lia.
  - simpl; lia.
  - simpl; lia.
  - done.
Qed.

Lemma life_budget i t t' :
  (Task.MaxRetries t < max_i64)%Z -> life i t t' -> within_budget t -> within_budget t'.
Proof.
  intros Hmax H. induction H as [| i j x y z H _ IH]; [done |]. intros Hb. apply IH.
  - by rewrite (same_max _ _ (task_step_same _ _ _ H)).
  - by eapply task_step_budget.
Qed.

(** ** Pointers *)

Lemma deref_update m l f l' :
  l' < length (Mem.heap m) ->
  deref (update l f m) l' = if decide (l = l') then f (deref m l') else deref m l'.
Proof.
  intros Hl. unfold deref, update. simpl. case_decide as E.
  - subst l'. rewrite list_lookup_alter_eq. by destruct (lookup_lt_is_Some_2 _ _ Hl) as [t ->].
  - by rewrite list_lookup_alter_ne.
Qed.

Lemma deref_update_eq m l f : l < length (Mem.heap m) -> deref (update l f m) l = f (deref m l).
Proof. intros. rewrite deref_update by done. by rewrite decide_True. Qed.

Lemma deref_update_ne m l f l' : l <> l' -> deref (update l f m) l' = deref m l'.
Proof. intros. unfold deref, update. simpl. by rewrite list_lookup_alter_ne. Qed.

Lemma deref_alloc m t l : deref (alloc t m).2 l = if decide (l = length (Mem.heap m)) then t else deref m l.
Proof.
  unfold deref, alloc. simpl. case_decide as E.
  - subst l. by rewrite list_lookup_middle.
  - destruct (decide (l < length (Mem.heap m))).
    + by rewrite lookup_app_l.
    + rewrite !lookup_ge_None_2; [done | lia |]. rewrite length_app. simpl. lia.
Qed.

(** ** How a state evolves *)

(** Objects are only ever changed along [task_step], with at most [k] claims
    each, and none disappears. *)
Record evolves (k : nat) (m m' : Mem.t) : Prop := {
  evolves_length : length (Mem.heap m) <= length (Mem.heap m');
  evolves_life : forall l, l < length (Mem.heap m) -> exists n, n <= k /\ life n (deref m l) (deref m' l);
}.

Lemma evolves_refl k m : evolves k m m.
Proof. split; [done |]. intros l _. exists 0. split; [lia | constructor]. Qed.

Lemma evolves_trans i j m1 m2 m3 : evolves i m1 m2 -> evolves j m2 m3 -> evolves (i + j) m1 m3.
Proof.
  intros [L1 H1] [L2 H2]. split; [lia |]. intros l Hl.
  destruct (H1 l Hl) as (n1 & ? & E1). destruct (H2 l ltac:(lia)) as (n2 & ? & E2).
  exists (n1 + n2). split; [lia | by eapply life_app].
Qed.

#[global] Instance evolves_preorder : PreOrder (evolves 0).
Proof. split; [intros m; apply evolves_refl | intros x y z; apply (evolves_trans 0 0)]. Qed.

(** The maps of tasks and the counter are untouched and no object is added. *)
Record same_maps (m m' : Mem.t) : Prop := {
  same_length : length (Mem.heap m') = length (Mem.heap m);
  same_tasks : Mem.tasks m' = Mem.tasks m;
  same_index : Mem.tasksByID m' = Mem.tasksByID m;
  same_seqno : Mem.seqno m' = Mem.seqno m;
}.

#[global] Instance same_maps_preorder : PreOrder same_maps.
Proof. split; [done |]. intros x y z [] []. constructor; congruence. Qed.

(** A step that moves objects and touches neither map. *)
Definition moves_n (k : nat) (m m' : Mem.t) : Prop := same_maps m m' /\ evolves k m m'.
Abbreviation moves := (moves_n 0).

#[global] Instance moves_preorder : PreOrder moves.
Proof.
  split; [by split |]. intros x y z [H1 H2] [H3 H4]. split; by etransitivity.
Qed.

(** The task heap, both maps and the counter are untouched. *)
Definition same_heap (m m' : Mem.t) : Prop :=
  Mem.heap m' = Mem.heap m /\ Mem.tasks m' = Mem.tasks m /\ Mem.tasksByID m' = Mem.tasksByID m /\
  Mem.seqno m' = Mem.seqno m.

#[global] Instance same_heap_preorder : PreOrder same_heap.
Proof. split; [done |]. intros x y z (? & ? & ? & ?) (? & ? & ? & ?). repeat split; congruence. Qed.

Lemma same_heap_deref m m' l : same_heap m m' -> deref m' l = deref m l.
Proof. intros (E & _). unfold deref. by rewrite E. Qed.

Lemma same_heap_moves m m' : same_heap m m' -> moves m m'.
Proof.
  intros H. pose proof H as (E1 & E2 & E3 & E4). split; [by split; rewrite ?E1 |].
  split; [by rewrite E1 |]. intros l _. exists 0. rewrite (same_heap_deref _ _ _ H). split; [done | constructor].
Qed.

Lemma same_heap_publish e m : same_heap m (publish e m).
Proof. unfold publish. by destruct (Mem.bus m). Qed.

Lemma same_heap_alert now a m : same_heap m (addAlertLocked now a m).
Proof. done. Qed.

Lemma moves_update k l f m : life k (deref m l) (f (deref m l)) -> moves_n k m (update l f m).
Proof.
  intros H. split.
  - split; [| done..]. unfold update. simpl. apply length_alter.
  - split; [unfold update; simpl; by rewrite length_alter |].
    intros l' Hl'. rewrite deref_update by done.
    case_decide; [subst; by exists k | exists 0; split; [lia | constructor]].
Qed.

Lemma moves_foldl {A} (f : Mem.t -> A -> Mem.t) xs m :
  (forall m x, moves m (f m x)) -> moves m (foldl f m xs).
Proof.
  intros Hf. revert m. induction xs as [| x xs IH]; intros m; simpl; [reflexivity |].
  etransitivity; [apply Hf | apply IH].
Qed.
