(* ===== verification/MemInv.v ===== *)
(** * Every operation of the memory store follows the life of a task

    For each operation: the tasks it may move and how ([moves], [adds]), from
    which well-formedness of the two maps of tasks and the evolution of all
    task objects follow for whole executions. *)

From S2P Require Import Proto Dag GoStrings Cron Window MemState MemTasks MemFleet MemRecords MemLife Prelude.
From stdpp Require Import relations.
Open Scope go_scope.

(** ** Well-formedness of the maps of tasks *)

Record wf (m : Mem.t) : Prop := {
  wf_tasks : forall a l, l ∈ slice (Mem.tasks m) a ->
    l < length (Mem.heap m) /\ Task.AgentID (deref m l) = a /\
    Mem.tasksByID m !! Task.TaskID (deref m l) = Some l;
  wf_index : forall id l, Mem.tasksByID m !! id = Some l ->
    l < length (Mem.heap m) /\ Task.TaskID (deref m l) = id /\
    l ∈ slice (Mem.tasks m) (Task.AgentID (deref m l));
  wf_nodup : forall a, NoDup (slice (Mem.tasks m) a);
}.

Lemma wf_moves k m m' : moves_n k m m' -> wf m -> wf m'.
Proof.
  intros [[Hl Ht Hi _] [_ He]] [H1 H2 H3].
  assert (Hs : forall l, l < length (Mem.heap m) -> same_task (deref m l) (deref m' l)).
  { intros l Hlt. destruct (He l Hlt) as (n & _ & Hn). by eapply life_same. }
  constructor.
  - intros a l Hin. rewrite Ht in Hin. destruct (H1 _ _ Hin) as (A & B & C).
    destruct (Hs l A) as [E1 E2 _]. by rewrite Hl, E1, E2, Hi.
  - intros id l Hid. rewrite Hi in Hid. destruct (H2 _ _ Hid) as (A & B & C).
    destruct (Hs l A) as [E1 E2 _]. by rewrite Hl, E1, E2, Ht.
  - intros a. by rewrite Ht.
Qed.

Lemma slice_insert {A} (m : gmap string (list A)) k k' v :
  slice (<[k := v]> m) k' = if decide (k = k') then v else slice m k'.
Proof.
  unfold slice. case_decide as E; [subst; by rewrite lookup_insert_eq | by rewrite lookup_insert_ne].
Qed.

(** Adding a task whose id is new. *)
Lemma wf_add t m :
  wf m -> Mem.tasksByID m !! Task.TaskID t = None ->
  wf (addTaskLocked (alloc t m).1 (alloc t m).2).
Proof.
  intros [H1 H2 H3] Hfresh. unfold addTaskLocked. rewrite deref_alloc. simpl.
  rewrite decide_True by done. set (n := length (Mem.heap m)).
  assert (Hd : forall l, deref (Mem.set_tasksByID (<[Task.TaskID t:=n]> (Mem.tasksByID m))
     (Mem.set_tasks (<[Task.AgentID t:=slice (Mem.tasks m) (Task.AgentID t) ++ [n]]> (Mem.tasks m))
        (Mem.set_heap (Mem.heap m ++ [t]) m))) l = if decide (l = n) then t else deref m l).
  { intros l. apply (deref_alloc m t l). }
  constructor.
  - intros a l Hin. rewrite Hd. simpl in *. rewrite slice_insert in Hin. rewrite length_app. simpl.
    assert (Hold : l ∈ slice (Mem.tasks m) a -> l < n + 1 /\
      Task.AgentID (if decide (l = n) then t else deref m l) = a /\
      <[Task.TaskID t:=n]> (Mem.tasksByID m) !! Task.TaskID (if decide (l = n) then t else deref m l) = Some l).
    { intros Hin'. destruct (H1 _ _ Hin') as (A & B & C). rewrite decide_False by (subst n; lia).
      rewrite lookup_insert_ne by congruence. split_and!; [subst n; lia | done..]. }
    destruct (decide (Task.AgentID t = a)) as [E | E]; [| by apply Hold].
    apply elem_of_app in Hin as [Hin | Hin]; [apply Hold; by rewrite <- E |].
    apply list_elem_of_singleton in Hin as ->. rewrite decide_True by done.
    rewrite lookup_insert_eq. split_and!; [lia | done..].
  - intros id l. rewrite Hd. simpl. rewrite length_app. simpl.
    intros [[<- <-] | [Hne Hid]]%lookup_insert_Some.
    + rewrite decide_True, slice_insert, decide_True by done. split_and!; [lia | done |].
      apply elem_of_app. right. by apply list_elem_of_singleton.
    + destruct (H2 _ _ Hid) as (A & B & C). rewrite decide_False by (subst n; lia).
      split_and!; [lia | done |]. rewrite slice_insert. case_decide as E; [| done].
      apply elem_of_app. left. by rewrite E.
  - intros a. simpl. rewrite slice_insert. case_decide as E; [| apply H3].
    apply NoDup_app. split_and!; [apply H3 | | apply NoDup_singleton].
    intros l Hin ->%list_elem_of_singleton. destruct (H1 _ _ Hin). subst n. lia.
Qed.

(** ** What each operation does *)

Lemma claim_life t agentID now tenant :
  claimable tenant t = true -> life 1 t (mark_claimed agentID now t).
Proof.
  unfold claimable. intros H. apply life_once, step_claim. by repeat case_match.
Qed.

Lemma ClaimTask_moves agentID now m : moves_n 1 m (ClaimTask agentID now m).2.
Proof.
  unfold ClaimTask. destruct (stable_sort _ _) as [| l ls] eqn:E.
  { split; [reflexivity | apply evolves_refl]. }
  apply moves_update.
  assert (Hl : l ∈ candidates agentID m).
  { rewrite <- (elem_of_stable_sort (more_urgent m)), E. left. }
  unfold candidates in Hl. rewrite list_elem_of_In, filter_In in Hl.
  eapply claim_life. apply Hl.
Qed.

Lemma moves_alert f now a l m :
  life 0 (deref m l) (f (deref m l)) -> moves m (addAlertLocked now a (update l f m)).
Proof. intros H. etransitivity; [by apply moves_update |]. apply same_heap_moves, same_heap_alert. Qed.

Lemma moves_publish m m' e : moves m m' -> moves m (publish e m').
Proof. intros H. etransitivity; [exact H |]. apply same_heap_moves, same_heap_publish. Qed.

(** Two updates of the same object are one. *)
Lemma update_update l f g m : update l g (update l f m) = update l (fun t => g (f t)) m.
Proof.
  unfold update. simpl. unfold Mem.set_heap. simpl. f_equal.
  generalize (Mem.heap m). induction l as [| l IH]; intros [| t h]; simpl; try done. f_equal. apply IH.
Qed.

Lemma update_ge l f m : length (Mem.heap m) <= l -> update l f m = m.
Proof.
  intros H. unfold update. replace (alter f l (Mem.heap m)) with (Mem.heap m); [by destruct m |].
  symmetry. apply list_eq. intros i. destruct (decide (l = i)) as [<- |].
  - rewrite list_lookup_alter_eq. by rewrite lookup_ge_None_2.
  - by rewrite list_lookup_alter_ne.
Qed.

(** A null or dangling pointer reads as the zero task, whose status is empty. *)
Lemma deref_status_valid m l s : Task.Status (deref m l) = s -> s <> "" -> l < length (Mem.heap m).
Proof.
  intros H Hs. unfold deref in H. destruct (Mem.heap m !! l) eqn:E; [by eapply lookup_lt_Some |]. by subst.
Qed.

Lemma reclaim_one_spec cutoff now l m n :
  let t := deref m l in
  reclaim_one cutoff now l (m, n) =
    if (Task.Status t != "running") || IsZero (Task.ClaimedAt t) || negb (Before (Task.ClaimedAt t) cutoff)
    then (m, n)
    else if heartbeat_fresh cutoff (Task.ClaimedBy t) m then (m, n)
    else
      let m' := update l reclaimed m in
      (if (Task.RetryCount (reclaimed t) >=? Task.MaxRetries t)%Z
       then addAlertLocked now
          (dead_letter_alert t (Task.ClaimedBy t)
             ("task " +:+ Task.TaskID t +:+ " entered dead-letter after " +:+
              itoa (Task.RetryCount (reclaimed t)) +:+ " stale reclaims") now) m'
       else m', S n).
Proof.
  cbv zeta. unfold reclaim_one. set (t := deref m l).
  destruct ((Task.Status t != "running") || IsZero (Task.ClaimedAt t) || negb (Before (Task.ClaimedAt t) cutoff))
    eqn:Eg; [done |].
  destruct (heartbeat_fresh cutoff (Task.ClaimedBy t) m); [done |].
  assert (Hl : l < length (Mem.heap m)).
  { apply orb_false_iff in Eg as [[Eg _]%orb_false_iff _]. apply negb_false_iff, bool_decide_eq_true in Eg.
    by eapply deref_status_valid. }
  rewrite !update_update, deref_update_eq by done. simpl. fold t.
  assert (Hr : reclaimed t = if (wrap_i64 (Task.RetryCount t + 1) >=? Task.MaxRetries t)%Z
    then kill (unclaim (Task.set_RetryCount (wrap_i64 (Task.RetryCount t + 1)) t))
    else unclaim (Task.set_Status "pending" (unclaim (Task.set_RetryCount (wrap_i64 (Task.RetryCount t + 1)) t))))
    by done.
  assert (Hc : Task.RetryCount (reclaimed t) = wrap_i64 (Task.RetryCount t + 1)).
  { rewrite Hr. by destruct (_ >=? _)%Z. }
  rewrite Hc.
  assert (Hu : forall f, f t = reclaimed t -> update l f m = update l reclaimed m).
  { intros f Hf. unfold update. f_equal. apply list_alter_ext; [| done].
    intros x Hx. assert (x = t) as ->; [| done]. subst t. unfold deref. by rewrite Hx. }
  f_equal. rewrite Hr in Hu.
  destruct (wrap_i64 (Task.RetryCount t + 1) >=? Task.MaxRetries t)%Z.
  - by rewrite ?update_update, (Hu _ eq_refl).
  - by rewrite ?update_update, (Hu _ eq_refl).
Qed.

Lemma reclaim_one_moves cutoff now l s : moves s.1 (reclaim_one cutoff now l s).1.
Proof.
  destruct s as [m n]. rewrite reclaim_one_spec. cbv zeta. simpl.
  destruct (_ || _ || _) eqn:Eg; [reflexivity |]. destruct (heartbeat_fresh _ _ _); [reflexivity |].
  apply orb_false_iff in Eg as [[Eg _]%orb_false_iff _]. apply negb_false_iff, bool_decide_eq_true in Eg.
  assert (H : life 0 (deref m l) (reclaimed (deref m l))) by by apply life_once, step_reclaim.
  simpl. destruct (_ >=? _)%Z; [by apply moves_alert | by apply moves_update].
Qed.

Lemma foldl_moves {A B} (f : Mem.t * B -> A -> Mem.t * B) xs s :
  (forall s x, moves s.1 (f s x).1) -> moves s.1 (foldl f s xs).1.
Proof.
  intros Hf. revert s. induction xs as [| x xs IH]; intros s; simpl; [reflexivity |].
  etransitivity; [apply Hf | apply IH].
Qed.

Lemma ReclaimStaleTasks_moves keys maxAge now m : moves m (ReclaimStaleTasks keys maxAge now m).1.
Proof.
  unfold ReclaimStaleTasks. destruct (maxAge <=? 0)%Z; [reflexivity |].
  apply (foldl_moves _ keys (m, 0)). intros s key. apply foldl_moves. intros s' l. apply reclaim_one_moves.
Qed.

Lemma release_one_moves byID id now l m : moves m (release_one byID id now l m).
Proof.
  unfold release_one. cbv zeta. case_bool_decide as Es; simpl; [| reflexivity].
  destruct (AllDepsTerminal _ _); simpl; [| reflexivity].
  destruct (AnyDepFailed _ _) as [d |]; apply moves_publish.
  - apply moves_alert. by apply life_once, step_dep_failed.
  - apply moves_update. by apply life_once, step_release.
Qed.

Lemma releaseDeps_moves agentID id now m : moves m (releaseDeps agentID id now m).
Proof. unfold releaseDeps. apply moves_foldl. intros. apply release_one_moves. Qed.

Lemma running_of_transition t success :
  validTaskTransition (Task.Status t) (next_status success t) = true ->
  Task.Status t = "running" \/
  (success = false /\ (Task.RetryCount t < Task.MaxRetries t)%Z /\
   (Task.Status t = "blocked" \/ Task.Status t = "pending_approval")).
Proof.
  unfold validTaskTransition, next_status. intros H.
  destruct success; [| destruct (Z.ltb_spec (Task.RetryCount t) (Task.MaxRetries t))];
    repeat (case_bool_decide; [try done; by auto |]); done.
Qed.

Lemma submit_step_life t success :
  validTaskTransition (Task.Status t) (next_status success t) = true ->
  life 0 t (if success then Task.set_Status "done" t
          else if (Task.RetryCount t <? Task.MaxRetries t)%Z
          then Task.set_RetryCount (wrap_i64 (Task.RetryCount t + 1)) (unclaim (Task.set_Status "pending" t))
          else kill t).
Proof.
  intros H. apply running_of_transition in H as [H | (-> & Hlt & H)].
  - destruct success; [by apply life_once, step_done |].
    destruct (Z.ltb_spec (Task.RetryCount t) (Task.MaxRetries t)); apply life_once.
    + apply step_retry; auto.
    + by apply step_dead.
  - rewrite (proj2 (Z.ltb_lt _ _) Hlt). apply life_once, step_retry; auto.
Qed.

Lemma apply_result_moves res now l m :
  validTaskTransition (Task.Status (deref m l)) (next_status (TaskResult.ExitCode res =? 0)%Z (deref m l)) = true ->
  moves m (apply_result res now l m).
Proof.
  intros H%submit_step_life. unfold apply_result.
  destruct (_ =? _)%Z; [by apply moves_update |]. cbv zeta.
  destruct (_ <? _)%Z; [apply moves_publish | apply moves_alert]; [by apply moves_update | done].
Qed.

Lemma submit_loop_moves res now ls m : moves m (submit_loop res now ls m).1.
Proof.
  revert m. induction ls as [| l ls IH]; intros m; simpl; [reflexivity |].
  case_bool_decide; simpl; [| apply IH].
  destruct (validTaskTransition _ _) eqn:Ev; simpl; [| reflexivity].
  destruct (TaskResult.ClaimEpoch res =? _)%Z eqn:Ee; simpl; [| reflexivity].
  etransitivity; [by eapply apply_result_moves | apply IH].
Qed.

Lemma same_heap_mark success agentID now m : same_heap m (mark_devices success agentID now m).
Proof. unfold mark_devices. cbv zeta. by destruct (Mem.segments m !! _). Qed.

Lemma SubmitResult_moves res now m : moves m (SubmitResult res now m).
Proof.
  unfold SubmitResult. cbv zeta.
  set (m1 := Mem.set_results _ m). assert (H1 : moves m m1) by by apply same_heap_moves.
  pose proof (submit_loop_moves res now (slice (Mem.tasks m1) (TaskResult.AgentID res)) m1) as H2.
  change (Mem.tasks m) with (Mem.tasks m1).
  destruct (submit_loop _ _ _ _) as [m2 []]; simpl in *; [| by etransitivity].
  apply moves_publish. etransitivity; [exact H1 |]. etransitivity; [exact H2 |].
  etransitivity; [apply releaseDeps_moves |]. apply same_heap_moves, same_heap_mark.
Qed.

Lemma CancelTask_moves id tenantID now m : moves m (CancelTask id tenantID now m).2.
Proof.
  unfold CancelTask. destruct (owned _ _ _) as [l |]; [| reflexivity]. cbv zeta.
  destruct (_ || _) eqn:E; [| reflexivity]. simpl.
  etransitivity; [| apply releaseDeps_moves]. apply moves_update, life_once, step_cancel.
  by apply orb_true_iff in E as [E%bool_decide_eq_true | E%bool_decide_eq_true]; [left | right].
Qed.

Lemma ApproveTask_moves id tenantID by_ now m : moves m (ApproveTask id tenantID by_ now m).2.
Proof.
  unfold ApproveTask. destruct (owned _ _ _) as [l |]; [| reflexivity]. cbv zeta.
  case_bool_decide; simpl; [| reflexivity].
  by apply moves_publish, moves_update, life_once, step_approve.
Qed.

Lemma RejectTask_moves id tenantID by_ now m : moves m (RejectTask id tenantID by_ now m).2.
Proof.
  unfold RejectTask. destruct (owned _ _ _) as [l |]; [| reflexivity]. cbv zeta.
  case_bool_decide; simpl; [| reflexivity].
  by apply moves_publish, moves_update, life_once, step_reject.
Qed.

Lemma RetryDeadLetterTask_moves id tenantID m : moves m (RetryDeadLetterTask id tenantID m).2.
Proof.
  unfold RetryDeadLetterTask. destruct (owned _ _ _) as [l |]; [| reflexivity]. cbv zeta.
  destruct (_ || _) eqn:E; simpl; [reflexivity |].
  apply orb_false_iff in E as [E1%negb_false_iff E2]. apply negb_false_iff, bool_decide_eq_true in E2.
  by apply moves_publish, moves_update, life_once, step_requeue.
Qed.

(** *** Additions *)

Lemma evolves_add t m : evolves 0 m (addTaskLocked (alloc t m).1 (alloc t m).2).
Proof.
  split; [simpl; rewrite length_app; lia |]. intros l Hl.
  assert (E : deref (addTaskLocked (alloc t m).1 (alloc t m).2) l = deref (alloc t m).2 l) by done.
  rewrite E, deref_alloc, decide_False by lia. exists 0. split; [done | constructor].
Qed.

Lemma same_heap_key tenantID key taskID now m : same_heap m (register_key tenantID key taskID now m).
Proof. done. Qed.

Lemma same_heap_evolves m m' : same_heap m m' -> evolves 0 m m'.
Proof. intros H. by apply same_heap_moves in H as [_ H]. Qed.

Lemma same_heap_wf m m' : same_heap m m' -> wf m -> wf m'.
Proof. intros H. by eapply wf_moves, same_heap_moves. Qed.

Lemma initial_status_same t :
  Task.TaskID (initial_status t) = Task.TaskID t /\ Task.AgentID (initial_status t) = Task.AgentID t.
Proof. unfold initial_status. cbv zeta. by destruct (Task.DependsOn t); destruct (_ && _). Qed.

(** The counter was read once, or not at all. *)
Definition drawn (m m' : Mem.t) : Prop := m' = m \/ m' = next_seq m.

Lemma drawn_evolves m m' : drawn m m' -> evolves 0 m m'.
Proof. intros [-> | ->]; [reflexivity |]. split; [done |]. intros l _. exists 0. split; [done | constructor]. Qed.

(** A creation returns an existing task and changes nothing but the counter,
    or adds the new task. *)
Lemma CreateTask_cases t now m :
  let r := CreateTask t now m in
  exists m1, drawn m m1 /\
    (same_heap m1 r.2 \/
     exists t', same_heap (addTaskLocked (alloc t' m1).1 (alloc t' m1).2) r.2 /\ r.1 = t' /\
       Task.AgentID t' = Task.AgentID t /\
       (if Task.TaskID t == "" then m1 = next_seq m /\ Task.TaskID t' = new_task_id now (Mem.seqno m1)
        else m1 = m /\ Task.TaskID t' = Task.TaskID t)).
Proof.
  cbv zeta. unfold CreateTask, with_id, store_new. destruct (Task.AgentID t == "").
  { exists m. split; [by left | by left]. }
  set (tm := if Task.TaskID t == "" then _ else _).
  assert (Hm : drawn m tm.2) by (unfold tm; case_bool_decide; [by right | by left]).
  assert (Ht : if Task.TaskID t == "" then tm.2 = next_seq m /\ Task.TaskID tm.1 = new_task_id now (Mem.seqno tm.2)
               else tm.2 = m /\ Task.TaskID tm.1 = Task.TaskID t) by (unfold tm; by case_bool_decide).
  assert (Ha : Task.AgentID tm.1 = Task.AgentID t) by (unfold tm; by case_bool_decide).
  destruct tm as [t1 m1]. simpl in Hm, Ht, Ha. cbv iota zeta.
  set (t2 := if Task.Status t1 == "" then Task.set_Status "pending" t1 else t1).
  assert (E2 : Task.TaskID t2 = Task.TaskID t1 /\ Task.AgentID t2 = Task.AgentID t1)
    by (unfold t2; by destruct (Task.Status t1 == "")).
  exists m1. split; [done |].
  destruct (existing_task t2 now m1) as [ex |]; [by left |]. right.
  set (t3 := if IsZero _ then _ else _).
  assert (E3 : Task.TaskID t3 = Task.TaskID t2 /\ Task.AgentID t3 = Task.AgentID t2).
  { unfold t3. clearbody t2. split; [destruct (IsZero _); apply initial_status_same |].
    destruct (IsZero _); apply initial_status_same. }
  destruct E2 as [E21 E22], E3 as [E31 E32].
  exists t3. split; [| split_and!].
  - cbn [snd alloc]. etransitivity; [| apply same_heap_publish]. by destruct (Task.IdempotencyKey t3 != "").
  - done.
  - congruence.
  - destruct (Task.TaskID t == ""); rewrite E31, E21; apply Ht.
Qed.

Lemma CreateTask_evolves t now m : evolves 0 m (CreateTask t now m).2.
Proof.
  destruct (CreateTask_cases t now m) as (m1 & Hd & H). etransitivity; [by apply drawn_evolves |].
  destruct H as [H | (t' & H & _)]; [by apply same_heap_evolves |].
  etransitivity; [apply evolves_add |]. by apply same_heap_evolves.
Qed.

Lemma fire_one_spec now ms l m n :
  fire_one now ms l (m, n) =
    if negb (template_due now ms (deref m l)) then (m, n)
    else
      let t := deref m l in
      let m1 := next_seq m in
      let inst := Task.set_TaskID (new_task_id now (Mem.seqno m1)) (derived_task t now) in
      (publish (event "schedule_fire" (Task.TaskID inst) (Task.TenantID t)
        ("parent=" +:+ Task.TaskID t +:+ " cron=" +:+ Task.Schedule t) LevelInfo)
        (update l (Task.set_LastFiredAt now) (addTaskLocked (alloc inst m1).1 (alloc inst m1).2)), S n).
Proof. unfold fire_one. by destruct (template_due now ms (deref m l)). Qed.

Lemma template_due_template now ms t :
  template_due now ms t = true -> Task.ParentID t = "" /\ Task.Schedule t <> "".
Proof.
  unfold template_due. destruct (_ || _) eqn:E; [done |]. intros _.
  apply orb_false_iff in E as [E1 E2]. apply negb_false_iff, bool_decide_eq_true in E1.
  by apply bool_decide_eq_false in E2.
Qed.

(** The state after an instance was added and the template stamped. *)
Lemma fire_stamp_moves now ms l m inst :
  template_due now ms (deref m l) = true ->
  let m2 := addTaskLocked (alloc inst (next_seq m)).1 (alloc inst (next_seq m)).2 in
  moves m2 (update l (Task.set_LastFiredAt now) m2).
Proof.
  intros Hdue. cbv zeta. apply moves_update. destruct (template_due_template _ _ _ Hdue) as [Hp Hs].
  assert (Hl : l < length (Mem.heap m)).
  { unfold deref in Hs. destruct (Mem.heap m !! l) eqn:E; [by eapply lookup_lt_Some | done]. }
  assert (E : deref (addTaskLocked (alloc inst (next_seq m)).1 (alloc inst (next_seq m)).2) l
            = deref (alloc inst (next_seq m)).2 l) by done.
  rewrite E, deref_alloc, decide_False by (simpl; lia). apply life_once. by apply step_fired.
Qed.

Lemma fire_one_evolves now ms l s : evolves 0 s.1 (fire_one now ms l s).1.
Proof.
  destruct s as [m n]. rewrite fire_one_spec. destruct (template_due _ _ _) eqn:E; simpl; [| reflexivity].
  etransitivity; [| apply same_heap_evolves, same_heap_publish].
  etransitivity; [| by apply fire_stamp_moves with (ms := ms)].
  etransitivity; [| apply evolves_add]. apply drawn_evolves. by right.
Qed.

Lemma foldl_evolves {A B} (f : Mem.t * B -> A -> Mem.t * B) xs s :
  (forall s x, evolves 0 s.1 (f s x).1) -> evolves 0 s.1 (foldl f s xs).1.
Proof.
  intros Hf. revert s. induction xs as [| x xs IH]; intros s; simpl; [reflexivity |].
  etransitivity; [apply Hf | apply IH].
Qed.

Lemma FireDueSchedules_evolves keys now m : evolves 0 m (FireDueSchedules keys now m).1.
Proof.
  unfold FireDueSchedules. apply (foldl_evolves _ keys (m, 0)). intros s key.
  apply foldl_evolves. intros s' l. apply fire_one_evolves.
Qed.

Lemma DeleteTask_evolves id tenantID m : evolves 0 m (DeleteTask id tenantID m).2.
Proof.
  unfold DeleteTask. destruct (owned _ _ _) as [l |]; [| reflexivity]. cbv zeta.
  etransitivity; [| apply same_heap_evolves, same_heap_publish].
  split; [by destruct (existsb _ _) |]. intros l' _. exists 0. split; [done |].
  destruct (existsb _ _); constructor.
Qed.
