(* ===== verification/MemExec.v ===== *)
(** * Executions of the memory store

    The store as a labelled transition system: one label per operation, a step
    that runs it at a given time, and traces of steps.  Every trace moves tasks
    along [task_step] only; traces whose new ids are new keep the two maps of
    tasks consistent. *)

From Stdlib Require Import Ascii.
From S2P Require Import Proto Dag GoStrings Cron Window MemState MemTasks MemFleet MemRecords MemLife MemInv Prelude.
From stdpp Require Import relations.
Open Scope go_scope.

Section exec.
Context (hmac_hex : string -> string -> string) (sha256_hex : string -> string).

Inductive op :=
  | OpRegister (segs : list string) (rnd : string) (a : AgentInfo.t)
  | OpHeartbeat (agentID status : string) (load : Z)
  | OpUpsertDevice (d : DeviceInfo.t)
  | OpRetireDevice (segs : list string) (id tenantID : string)
  | OpRetireStaleDevices (maxAge : duration)
  | OpCreateTask (t : Task.t)
  | OpClaimTask (agentID : string)
  | OpSubmitResult (res : TaskResult.t)
  | OpReclaimStaleTasks (keys : list string) (maxAge : duration)
  | OpFireDueSchedules (keys : list string)
  | OpCancelTask (id tenantID : string)
  | OpApproveTask (id tenantID by_ : string)
  | OpRejectTask (id tenantID by_ : string)
  | OpRetryDeadLetterTask (id tenantID : string)
  | OpDeleteTask (id tenantID : string)
  | OpAddIdempotencyKey (tenantID key taskID : string)
  | OpAddAlert (a : Alert.t)
  | OpAckAlert (id tenantID by_ : string)
  | OpSilenceAlert (id tenantID by_ : string) (until : time) (comment : string)
  | OpAudit (e : AuditEvent.t)
  | OpArchiveAuditLog (retainDays : Z)
  | OpIssueToken (deviceID tenantID : string) (ttl : duration) (rnd nonce : string)
  | OpProvision (segs : list string) (deviceID host tenantID rnd nonce : string)
  | OpConsumeToken (token : string)
  | OpCleanupTokens (keys : list string) (batch : Z).

(** A label is an operation and the time at which it runs. *)
Definition step (l : op * time) (m : Mem.t) : Mem.t :=
  let now := l.2 in
  match l.1 with
  | OpRegister segs rnd a => (Register segs rnd a now m).2
  | OpHeartbeat agentID status load => (Heartbeat agentID status load now m).2
  | OpUpsertDevice d => UpsertDevice d m
  | OpRetireDevice segs id tenantID => (RetireDevice segs id tenantID m).2
  | OpRetireStaleDevices maxAge => (RetireStaleDevices maxAge now m).2
  | OpCreateTask t => (CreateTask t now m).2
  | OpClaimTask agentID => (ClaimTask agentID now m).2
  | OpSubmitResult res => SubmitResult res now m
  | OpReclaimStaleTasks keys maxAge => (ReclaimStaleTasks keys maxAge now m).1
  | OpFireDueSchedules keys => (FireDueSchedules keys now m).1
  | OpCancelTask id tenantID => (CancelTask id tenantID now m).2
  | OpApproveTask id tenantID by_ => (ApproveTask id tenantID by_ now m).2
  | OpRejectTask id tenantID by_ => (RejectTask id tenantID by_ now m).2
  | OpRetryDeadLetterTask id tenantID => (RetryDeadLetterTask id tenantID m).2
  | OpDeleteTask id tenantID => (DeleteTask id tenantID m).2
  | OpAddIdempotencyKey tenantID key taskID => AddIdempotencyKey tenantID key taskID now m
  | OpAddAlert a => AddAlert a now m
  | OpAckAlert id tenantID by_ => (AckAlert id tenantID by_ now m).2
  | OpSilenceAlert id tenantID by_ until comment => (SilenceAlert id tenantID by_ until comment now m).2
  | OpAudit e => Audit e now m
  | OpArchiveAuditLog retainDays => (ArchiveAuditLog retainDays now m).2
  | OpIssueToken deviceID tenantID ttl rnd nonce =>
      (IssueToken hmac_hex sha256_hex deviceID tenantID ttl rnd nonce now m).2
  | OpProvision segs deviceID host tenantID rnd nonce =>
      (Provision hmac_hex sha256_hex segs deviceID host tenantID rnd nonce now m).2
  | OpConsumeToken token => (ConsumeToken hmac_hex sha256_hex token now m).2
  | OpCleanupTokens keys batch => (CleanupTokens keys batch now m).2
  end.

Definition exec (ls : list (op * time)) (m : Mem.t) : Mem.t := run step ls m.

(** ** Operations that leave tasks alone *)

Lemma update_device_same segs p f m m' :
  update_device segs p f m = Some m' -> same_heap m m' /\ Mem.demo m' = Mem.demo m.
Proof.
  induction segs as [| seg segs IH]; simpl; [done |].
  destruct (update_first _ _ _); [by intros [= <-] | done].
Qed.

Lemma same_heap_issue deviceID tenantID ttl rnd nonce now m :
  same_heap m (issueTokenLocked hmac_hex sha256_hex deviceID tenantID ttl rnd nonce now m).2.
Proof. unfold issueTokenLocked. by case_bool_decide. Qed.

Lemma same_heap_cleanup keys batch now m n : same_heap m (cleanup_loop keys batch now m n).2.
Proof.
  revert m n. induction keys as [| k keys IH]; intros m n; simpl; [done |].
  destruct (_ && _); [done |]. destruct (Mem.tokens m !! k) as [tm |]; [| apply IH].
  destruct (_ || _); [| apply IH]. etransitivity; [| apply IH]. done.
Qed.

Lemma place_agent_same segs a m : same_heap m (place_agent segs a m) /\ Mem.demo (place_agent segs a m) = Mem.demo m.
Proof.
  unfold place_agent. case_bool_decide; simpl; [done |].
  destruct (update_device _ _ _ _) eqn:E; [by eapply update_device_same | done].
Qed.

Lemma same_heap_announce now e e' m : same_heap m (appendAudit now e' (publish e m)).
Proof. etransitivity; [apply same_heap_publish |]. done. Qed.

(** A registration leaves the tasks alone or adds the demo task. *)
Lemma Register_cases segs rnd a now m :
  let r := Register segs rnd a now m in
  exists m1, drawn m m1 /\
    (same_heap m1 r.2 \/
     exists a' m2, Mem.demo m = true /\ r.1 = Some a' /\ same_heap m1 m2 /\
       same_heap (addTaskLocked (alloc (demo_task a' now) m2).1 (alloc (demo_task a' now) m2).2) r.2).
Proof.
  cbv zeta. unfold Register.
  set (am := if AgentInfo.AgentID a == "" then _ else _).
  assert (Hm : drawn m am.2) by (unfold am; case_bool_decide; [by right | by left]).
  destruct am as [a1 m1]. simpl in Hm. exists m1. split; [done |]. cbv iota zeta.
  set (a2 := if AgentInfo.Status a1 == "" then _ else _).
  destruct (bound_elsewhere a2 m1); [by left |].
  set (a3 := AgentInfo.set_LastSeen now a2).
  set (m2 := match Mem.agentSecrets _ !! _ with Some _ => _ | None => _ end).
  assert (H2 : same_heap m1 m2 /\ Mem.demo m2 = Mem.demo m1).
  { unfold m2. by destruct (Mem.agentSecrets _ !! _). }
  destruct (place_agent_same segs a3 m2) as [H3 D3]. destruct H2 as [H2 D2].
  assert (H13 : same_heap m1 (place_agent segs a3 m2)) by (by etransitivity).
  destruct (Mem.demo (place_agent segs a3 m2) && _) eqn:Ed; cbn [snd fst alloc].
  - right. apply andb_true_iff in Ed as [Ed _]. exists a3, (place_agent segs a3 m2).
    split_and!; [| done | done | apply same_heap_announce].
    rewrite D3, D2 in Ed. by destruct Hm as [-> | ->].
  - left. etransitivity; [exact H13 | apply same_heap_announce].
Qed.

Lemma step_same_heap l m :
  match l.1 with
  | OpRegister _ _ _ | OpCreateTask _ | OpClaimTask _ | OpSubmitResult _ | OpReclaimStaleTasks _ _
  | OpFireDueSchedules _ | OpCancelTask _ _ | OpApproveTask _ _ _ | OpRejectTask _ _ _
  | OpRetryDeadLetterTask _ _ | OpDeleteTask _ _ => True
  | _ => same_heap m (step l m)
  end.
Proof.
  destruct l as [[] now]; try done; unfold step; simpl.
  - unfold Heartbeat. by destruct (Mem.agents m !! _).
  - unfold UpsertDevice. by case_bool_decide.
  - unfold RetireDevice. destruct (Device _ _ _); [| done]. destruct (_ && _); [done |].
    simpl. destruct (update_device _ _ _ _) eqn:E; [by eapply update_device_same | done].
  - unfold RetireStaleDevices. by destruct (_ <=? _)%Z.
  - unfold AddIdempotencyKey. by destruct (_ || _ || _).
  - unfold AckAlert. by destruct (update_first _ _ _).
  - unfold SilenceAlert. by destruct (update_first _ _ _).
  - unfold ArchiveAuditLog. by destruct (_ <=? _)%Z.
  - unfold IssueToken. case_bool_decide; [done |].
    pose proof (same_heap_issue deviceID tenantID ttl rnd nonce now m). by destruct (issueTokenLocked _ _ _ _ _ _ _ _ _).
  - unfold Provision. destruct (_ || _); [done |]. cbv zeta.
    destruct (update_device _ _ _ _) as [m1 |] eqn:E; [| done].
    pose proof (same_heap_issue deviceID tenantID provision_ttl rnd nonce now m1) as H.
    destruct (issueTokenLocked _ _ _ _ _ _ _ _ _). etransitivity; [by eapply update_device_same | exact H].
  - unfold ConsumeToken. destruct (negb _); [done |]. destruct (Mem.tokens m !! _); [| done].
    destruct (tokenMeta.consumed _); [done |]. by destruct (After _ _).
  - apply same_heap_cleanup.
Qed.

(** Only [ClaimTask] claims, one task at a time. *)
Definition claims (l : op * time) : nat := match l.1 with OpClaimTask _ => 1 | _ => 0 end.

Lemma step_evolves l m : evolves (claims l) m (step l m).
Proof.
  pose proof (step_same_heap l m) as H. destruct l as [o now].
  destruct o; simpl in H; try (by apply same_heap_evolves); unfold step; simpl.
  - destruct (Register_cases segs rnd a now m) as (m1 & Hd & Hr).
    etransitivity; [by apply drawn_evolves |].
    destruct Hr as [Hr | (a' & m2 & _ & _ & H1 & H2)]; [by apply same_heap_evolves |].
    etransitivity; [by apply same_heap_evolves |]. etransitivity; [apply evolves_add |].
    by apply same_heap_evolves.
  - apply CreateTask_evolves.
  - apply ClaimTask_moves.
  - apply SubmitResult_moves.
  - apply ReclaimStaleTasks_moves.
  - apply FireDueSchedules_evolves.
  - apply CancelTask_moves.
  - apply ApproveTask_moves.
  - apply RejectTask_moves.
  - apply RetryDeadLetterTask_moves.
  - apply DeleteTask_evolves.
Qed.

Definition total_claims (ls : list (op * time)) : nat := sum_list_with claims ls.

Lemma exec_evolves ls m : evolves (total_claims ls) m (exec ls m).
Proof.
  revert m. induction ls as [| l ls IH]; intros m; [apply evolves_refl |].
  eapply (evolves_trans (claims l)); [apply step_evolves | apply IH].
Qed.

(** ** Generated ids *)

Lemma last_dash a b x y :
  all_chars (not_char "-") x = true -> all_chars (not_char "-") y = true ->
  a +:+ String "-" x = b +:+ String "-" y -> x = y.
Proof.
  intros Hx Hy. revert b. induction a as [| c a IH]; intros [| d b] E.
  - by injection E.
  - injection E as _ ->. rewrite all_chars_app in Hx. cbn [all_chars] in Hx.
    by rewrite andb_comm in Hx.
  - injection E as _ <-. rewrite all_chars_app in Hy. cbn [all_chars] in Hy.
    by rewrite andb_comm in Hy.
  - injection E as _ E. by apply (IH b).
Qed.

(** The number in a generated id can be read back. *)
Lemma new_task_id_seq now now' k k' :
  (0 <= k)%Z -> (0 <= k')%Z -> new_task_id now k = new_task_id now' k' -> k = k'.
Proof.
  unfold new_task_id. intros Hk Hk' E.
  change ("task-" +:+ itoa (UnixNano now) +:+ String "-" (itoa k) =
          "task-" +:+ itoa (UnixNano now') +:+ String "-" (itoa k')) in E.
  rewrite <- !app_assoc_string in E. apply last_dash in E; [| apply digit_not_char; done..].
  unfold itoa in E. by apply (inj pretty) in E.
Qed.

(** The ids that the store will generate from now on are free. *)
Record inv (m : Mem.t) : Prop := {
  inv_wf : wf m;
  inv_seq : (0 <= Mem.seqno m)%Z;
  inv_ids : forall now k, (Mem.seqno m < k)%Z -> Mem.tasksByID m !! new_task_id now k = None;
}.

(** An id a caller may bring: unused, and not one the store would generate
    later. *)
Definition new_id (m : Mem.t) (id : string) : Prop :=
  Mem.tasksByID m !! id = None /\ forall now k, (Mem.seqno m < k)%Z -> id <> new_task_id now k.

Definition room (m : Mem.t) (n : Z) : Prop := (Mem.seqno m + n <= max_i64)%Z.

Lemma next_seq_room m : (0 <= Mem.seqno m)%Z -> room m 1 -> Mem.seqno (next_seq m) = (Mem.seqno m + 1)%Z.
Proof. unfold room, max_i64. intros. simpl. apply wrap_i64_id. unfold in_i64. lia. Qed.

Lemma inv_moves k m m' : moves_n k m m' -> inv m -> inv m'.
Proof.
  intros H [H1 H2 H3]. pose proof (wf_moves _ _ _ H H1). destruct H as [[_ _ E1 E2] _].
  constructor; [done | by rewrite E2 | by rewrite E1, E2].
Qed.

Lemma inv_same_heap m m' : same_heap m m' -> inv m -> inv m'.
Proof. intros H. by eapply inv_moves, same_heap_moves. Qed.

Lemma inv_next_seq m : room m 1 -> inv m -> inv (next_seq m).
Proof.
  intros Hr [H1 H2 H3]. pose proof (next_seq_room m H2 Hr) as E. constructor; [by destruct H1 | lia |].
  intros now k. rewrite E. intros Hk. apply H3. lia.
Qed.

Lemma inv_drawn m m' : drawn m m' -> room m 1 -> inv m -> inv m'.
Proof. intros [-> | ->] Hr H; [done | by apply inv_next_seq]. Qed.

Lemma inv_add t m : new_id m (Task.TaskID t) -> inv m -> inv (addTaskLocked (alloc t m).1 (alloc t m).2).
Proof.
  intros [Hn Hg] [H1 H2 H3]. constructor; [by apply wf_add | done |].
  intros now k Hk. unfold addTaskLocked. rewrite deref_alloc, decide_True by done. simpl in *.
  rewrite lookup_insert_ne by (by apply Hg). by apply H3.
Qed.

Lemma new_id_generated m now :
  inv m -> room m 1 -> new_id (next_seq m) (new_task_id now (Mem.seqno (next_seq m))).
Proof.
  intros [H1 H2 H3] Hr. rewrite (next_seq_room m H2 Hr). split.
  - change (Mem.tasksByID (next_seq m)) with (Mem.tasksByID m). apply H3. lia.
  - intros now' k Hk E. rewrite (next_seq_room m H2 Hr) in Hk.
    apply new_task_id_seq in E; lia.
Qed.

Lemma fire_one_inv now ms l m n :
  inv m -> room m 1 -> inv (fire_one now ms l (m, n)).1.
Proof.
  intros Hi Hr. rewrite fire_one_spec. destruct (template_due _ _ _) eqn:E; simpl; [| done].
  eapply inv_same_heap; [apply same_heap_publish |].
  eapply inv_moves; [by apply fire_stamp_moves with (ms := ms) |].
  apply inv_add; [| by apply inv_next_seq]. by apply new_id_generated.
Qed.

Lemma fire_one_count now ms l m n :
  ((fire_one now ms l (m, n)).2 = n /\ (fire_one now ms l (m, n)).1 = m) \/
  ((fire_one now ms l (m, n)).2 = S n /\ Mem.seqno (fire_one now ms l (m, n)).1 = Mem.seqno (next_seq m)).
Proof.
  rewrite fire_one_spec. destruct (template_due _ _ _); simpl; [right | by left].
  split; [done |]. unfold publish. by destruct (Mem.bus _).
Qed.

(** [n] counts the instances, so the counter grows by their number. *)
Definition counted (s s' : Mem.t * nat) : Prop :=
  s.2 <= s'.2 /\ (inv s.1 -> room s.1 (Z.of_nat (s'.2 - s.2)) ->
    inv s'.1 /\ Mem.seqno s'.1 = (Mem.seqno s.1 + Z.of_nat (s'.2 - s.2))%Z).

#[local] Instance counted_preorder : PreOrder counted.
Proof.
  split; [intros s; split; [done | intros ? _; split; [done | lia]] |].
  intros s1 s2 s3 [L1 H1] [L2 H2]. split; [lia |]. unfold room in *. intros Hi Hr.
  destruct (H1 Hi ltac:(lia)) as [Hi2 E2]. destruct (H2 Hi2 ltac:(lia)) as [Hi3 E3]. split; [done | lia].
Qed.

Lemma fire_one_counted now ms l s : counted s (fire_one now ms l s).
Proof.
  destruct s as [m n]. unfold counted. cbn [fst snd].
  destruct (fire_one_count now ms l m n) as [[-> ->] | [-> E]]; (split; [lia |]); intros Hi Hr.
  - split; [done | lia].
  - replace (S n - n) with 1 in * by lia. split; [by apply fire_one_inv |].
    rewrite E. apply next_seq_room; [apply Hi | done].
Qed.

Lemma foldl_counted {A} (f : Mem.t * nat -> A -> Mem.t * nat) xs s :
  (forall s x, counted s (f s x)) -> counted s (foldl f s xs).
Proof.
  intros Hf. revert s. induction xs as [| x xs IH]; intros s; simpl; [reflexivity |].
  etransitivity; [apply Hf | apply IH].
Qed.

Lemma FireDueSchedules_counted keys now m : counted (m, 0) (FireDueSchedules keys now m).
Proof.
  unfold FireDueSchedules. apply foldl_counted. intros s key. apply foldl_counted.
  intros s' l. apply fire_one_counted.
Qed.

(** *** Deletion *)

Lemma remove_first_spec id m ls :
  NoDup ls ->
  (forall l l', l ∈ ls -> l' ∈ ls -> Task.TaskID (deref m l) = id -> Task.TaskID (deref m l') = id -> l = l') ->
  NoDup (remove_first id m ls) /\
  forall l, l ∈ remove_first id m ls <-> l ∈ ls /\ Task.TaskID (deref m l) <> id.
Proof.
  induction 1 as [| x ls Hx Hls IH]; intros Hu; simpl.
  { split; [constructor |]. intros l. split; [intros Hl; inversion Hl | by intros [Hl _]]. }
  destruct IH as [Hn Hin]; [intros l l' ? ?; apply Hu; by right |].
  case_bool_decide as E.
  - split; [done |]. intros l. rewrite elem_of_cons. split.
    + intros Hl. split; [by right |]. intros El. apply Hx. by rewrite (Hu x l ltac:(left) ltac:(by right) E El).
    + intros [[-> | Hl] Hne]; done.
  - split.
    + constructor; [| done]. rewrite Hin. tauto.
    + intros l. rewrite !elem_of_cons, Hin. split.
      * intros [-> | [? ?]]; auto.
      * intros [[-> | ?] ?]; auto.
Qed.

Lemma DeleteTask_inv id tenantID m : inv m -> inv (DeleteTask id tenantID m).2.
Proof.
  intros Hi. unfold DeleteTask. destruct (owned id tenantID m) as [l |] eqn:El; [| done]. cbv zeta.
  eapply inv_same_heap; [apply same_heap_publish |].
  assert (Hl : Mem.tasksByID m !! id = Some l).
  { unfold owned in El. destruct (Mem.tasksByID m !! id); [| done]. destruct (_ && _); [done | congruence]. }
  destruct Hi as [[H1 H2 H3] Hs Hg]. destruct (H2 _ _ Hl) as (Hlen & Hid & Hin).
  rewrite (proj2 (existsb_elem _ _)) by (exists l; split; [done | by rewrite bool_decide_true]).
  destruct (remove_first_spec id m (slice (Mem.tasks m) (Task.AgentID (deref m l)))) as [Hn Hr].
  { apply H3. }
  { intros l1 l2 [_ [_ E1]]%H1 [_ [_ E2]]%H1 <- E. congruence. }
  constructor; simpl; [constructor; simpl | done |].
  - intros a x. rewrite slice_insert. intros Hx. change (deref _ x) with (deref m x).
    assert (Hx' : x ∈ slice (Mem.tasks m) a /\ Task.TaskID (deref m x) <> id).
    { case_decide as Ea; [subst a; by apply Hr |]. split; [done |].
      destruct (H1 _ _ Hx) as (_ & Ea' & E). intros Eid. rewrite Eid in E. congruence. }
    destruct Hx' as [Hx1 Hx2]. destruct (H1 _ _ Hx1) as (A & B & C).
    split_and!; [done | done |]. by rewrite lookup_delete_ne.
  - intros id' x [Hne Hx]%lookup_delete_Some. destruct (H2 _ _ Hx) as (A & B & C).
    change (deref _ x) with (deref m x). split_and!; [done | done |].
    rewrite slice_insert. case_decide as Ea; [| done]. rewrite Hr. rewrite Ea. split; congruence.
  - intros a. rewrite slice_insert. case_decide; [done | apply H3].
  - intros now k Hk. apply lookup_delete_None. right. by apply Hg.
Qed.

(** ** Executions that keep the maps consistent *)

(** What an operation must not do: bring an id that is in use or that the
    store would generate later, or draw a number past the largest [int]. *)
Definition op_ok (l : op * time) (m : Mem.t) : Prop :=
  match l.1 with
  | OpCreateTask t => room m 1 /\ (Task.TaskID t <> "" -> new_id m (Task.TaskID t))
  | OpRegister segs rnd a =>
      room m 1 /\ (Mem.demo m = true -> forall a', (Register segs rnd a l.2 m).1 = Some a' ->
        new_id m (Task.TaskID (demo_task a' l.2)))
  | OpFireDueSchedules keys => room m (Z.of_nat (FireDueSchedules keys l.2 m).2)
  | _ => True
  end.

Lemma new_id_drawn m m' id : inv m -> room m 1 -> drawn m m' -> new_id m id -> new_id m' id.
Proof.
  intros Hi Hr [-> | ->] [H1 H2]; [done |]. split; [done |]. intros now k Hk. apply H2.
  rewrite next_seq_room in Hk; [lia | apply Hi | done].
Qed.

Lemma new_id_same_heap m m' id : same_heap m m' -> new_id m id -> new_id m' id.
Proof. intros (_ & _ & E1 & E2) [H1 H2]. split; [by rewrite E1 | by rewrite E2]. Qed.

Lemma CreateTask_inv t now m : op_ok (OpCreateTask t, now) m -> inv m -> inv (CreateTask t now m).2.
Proof.
  intros [Hr Hn] Hi. destruct (CreateTask_cases t now m) as (m1 & Hd & H).
  pose proof (inv_drawn _ _ Hd Hr Hi) as Hi1.
  destruct H as [H | (t' & H & _ & _ & Hid)]; [by eapply inv_same_heap |].
  eapply inv_same_heap; [exact H |]. apply inv_add; [| done].
  case_bool_decide as E.
  - destruct Hid as [-> ->]. by apply new_id_generated.
  - destruct Hid as [-> ->]. by apply Hn.
Qed.

Lemma Register_inv segs rnd a now m :
  op_ok (OpRegister segs rnd a, now) m -> inv m -> inv (Register segs rnd a now m).2.
Proof.
  intros [Hr Hn] Hi. destruct (Register_cases segs rnd a now m) as (m1 & Hd & H).
  pose proof (inv_drawn _ _ Hd Hr Hi) as Hi1.
  destruct H as [H | (a' & m2 & Hdemo & Ha & H1 & H2)]; [by eapply inv_same_heap |].
  eapply inv_same_heap; [exact H2 |]. apply inv_add; [| by eapply inv_same_heap].
  eapply new_id_same_heap; [exact H1 |]. eapply new_id_drawn; [exact Hi | exact Hr | exact Hd |].
  by apply Hn.
Qed.

Lemma step_inv l m : op_ok l m -> inv m -> inv (step l m).
Proof.
  intros Hok Hi. pose proof (step_same_heap l m) as H. destruct l as [o now].
  destruct o; simpl in H; try (by eapply inv_same_heap); unfold step; cbn [fst snd].
  - by apply Register_inv.
  - by apply CreateTask_inv.
  - by eapply inv_moves; [apply ClaimTask_moves |].
  - by eapply inv_moves; [apply SubmitResult_moves |].
  - by eapply inv_moves; [apply ReclaimStaleTasks_moves |].
  - destruct (FireDueSchedules_counted keys now m) as [_ Hc]. cbn [fst snd] in Hc.
    rewrite Nat.sub_0_r in Hc. by apply Hc.
  - by eapply inv_moves; [apply CancelTask_moves |].
  - by eapply inv_moves; [apply ApproveTask_moves |].
  - by eapply inv_moves; [apply RejectTask_moves |].
  - by eapply inv_moves; [apply RetryDeadLetterTask_moves |].
  - by apply DeleteTask_inv.
Qed.

(** The states a store can get into from the empty one. *)
Inductive reachable : Mem.t -> Prop :=
  | reachable_init m : Mem.heap m = [] -> Mem.tasks m = ∅ -> Mem.tasksByID m = ∅ -> Mem.seqno m = 0%Z -> reachable m
  | reachable_step l m : reachable m -> op_ok l m -> reachable (step l m).

Lemma reachable_inv m : reachable m -> inv m.
Proof.
  induction 1 as [m H1 H2 H3 H4 | l m _ IH Hok]; [| by apply step_inv].
  constructor; [constructor | by rewrite H4 | by rewrite H3].
  - intros a l. rewrite H2. intros Hl. inversion Hl.
  - intros id l. by rewrite H3.
  - intros a. rewrite H2. constructor.
Qed.
End exec.
