(* ===== verification/MemProps.v ===== *)
(** * Correctness of the task queue of the memory store

    The properties of claiming, reporting, releasing, reclaiming, scheduling
    and listing tasks, for all the executions of [MemExec]. *)

From Stdlib Require Import Ascii.
From S2P Require Import Proto Dag GoStrings Cron Window MemState MemTasks MemFleet MemRecords MemLife MemInv MemExec Prelude.
Open Scope go_scope.

(** ** Claiming *)

Lemma more_urgent_asym m x y : more_urgent m x y = true -> more_urgent m y x = false.
Proof. unfold more_urgent. rewrite !Z.gtb_ltb, Z.ltb_lt, Z.ltb_ge. lia. Qed.

Lemma more_urgent_trans m x y z :
  not_more (more_urgent m) x y -> not_more (more_urgent m) y z -> not_more (more_urgent m) x z.
Proof. unfold not_more, more_urgent. rewrite !Z.gtb_ltb, !Z.ltb_ge. lia. Qed.

(** A split of a filtered list is a split of the list. *)
Lemma filter_split {A} (p : A -> bool) l b x a :
  List.filter p l = b ++ x :: a ->
  exists b' a', l = b' ++ x :: a' /\ List.filter p b' = b /\ List.filter p a' = a.
Proof.
  revert b. induction l as [| y l IH]; intros b; simpl; [by destruct b |].
  destruct (p y) eqn:E.
  - destruct b as [| z b]; intros [= -> H].
    + exists [], l. auto.
    + destruct (IH _ H) as (b' & a' & -> & <- & <-). exists (z :: b'), a'. simpl. by rewrite E.
  - intros H. destruct (IH _ H) as (b' & a' & -> & <- & <-). exists (y :: b'), a'. simpl. by rewrite E.
Qed.

Definition claims_first (agentID : string) (now : time) (m : Mem.t) (l : nat) (before after : list nat) : Prop :=
  let ok x := claimable (agentTenant agentID m) (deref m x) in
  slice (Mem.tasks m) agentID = before ++ l :: after /\ ok l = true /\
  (forall x, x ∈ before -> ok x = true -> (Task.Priority (deref m x) < Task.Priority (deref m l))%Z) /\
  (forall x, x ∈ after -> ok x = true -> (Task.Priority (deref m x) <= Task.Priority (deref m l))%Z).

Lemma ClaimTask_spec agentID now m :
  wf m ->
  (exists l before after, claims_first agentID now m l before after /\ l < length (Mem.heap m) /\
     ClaimTask agentID now m =
       (Some (mark_claimed agentID now (deref m l)), update l (mark_claimed agentID now) m)) \/
  (ClaimTask agentID now m = (None, m) /\
     forall x, x ∈ slice (Mem.tasks m) agentID -> claimable (agentTenant agentID m) (deref m x) = false).
Proof.
  intros Hwf. unfold ClaimTask. destruct (stable_sort (more_urgent m) (candidates agentID m)) as [| l r] eqn:E.
  - right. split; [done |].
    assert (Hc : candidates agentID m = []).
    { apply Permutation_nil_r. rewrite <- E. symmetry. apply stable_sort_perm. }
    intros x Hx. destruct (claimable _ _) eqn:Ex; [| done]. exfalso.
    assert (Hin : x ∈ candidates agentID m).
    { unfold candidates. rewrite list_elem_of_In, filter_In, <- list_elem_of_In. done. }
    rewrite Hc in Hin. inversion Hin.
  - left. destruct (stable_sort_first _ (more_urgent_trans m) (more_urgent_asym m) _ _ _ E)
      as (b & a & Hc & Hb & Ha).
    unfold candidates in Hc. destruct (filter_split _ _ _ _ _ Hc) as (b' & a' & Hl & Eb & Ea).
    assert (Hlin : l ∈ slice (Mem.tasks m) agentID).
    { rewrite Hl. apply elem_of_app. right. left. }
    destruct (wf_tasks _ Hwf _ _ Hlin) as [Hlen _].
    exists l, b', a'. split; [| split; [done |]].
    + split_and!; [done | | |].
      * assert (Hin : l ∈ List.filter (fun l => claimable (agentTenant agentID m) (deref m l))
          (slice (Mem.tasks m) agentID)) by (rewrite Hc; apply elem_of_app; right; left).
        rewrite list_elem_of_In, filter_In in Hin. tauto.
      * intros x Hx Hok. assert (Hxb : x ∈ b).
        { rewrite <- Eb, list_elem_of_In, filter_In, <- list_elem_of_In. done. }
        specialize (Hb x Hxb). unfold more_urgent in Hb. rewrite Z.gtb_ltb, Z.ltb_lt in Hb. lia.
      * intros x Hx Hok. assert (Hxa : x ∈ a).
        { rewrite <- Ea, list_elem_of_In, filter_In, <- list_elem_of_In. done. }
        specialize (Ha x Hxa). unfold more_urgent in Ha. rewrite Z.gtb_ltb, Z.ltb_ge in Ha. lia.
    + by rewrite deref_update_eq.
Qed.

(** ** Epochs *)

Lemma wrap_i64_add a b : wrap_i64 (wrap_i64 a + b) = wrap_i64 (a + b).
Proof.
  unfold wrap_i64. f_equal.
  replace ((a + 2 ^ 63) mod 2 ^ 64 - 2 ^ 63 + b + 2 ^ 63)%Z with ((a + 2 ^ 63) mod 2 ^ 64 + b)%Z by lia.
  rewrite Zplus_mod_idemp_l. f_equal. lia.
Qed.

Lemma task_step_epoch i t t' :
  task_step i t t' -> Task.ClaimEpoch t' = (if decide (i = 0) then Task.ClaimEpoch t else wrap_i64 (Task.ClaimEpoch t + Z.of_nat i)).
Proof. destruct 1; try done. by apply reclaimed_cases. Qed.

(** The token of a task counts its claims. *)
Lemma life_epoch n t t' :
  in_i64 (Task.ClaimEpoch t) -> life n t t' -> Task.ClaimEpoch t' = wrap_i64 (Task.ClaimEpoch t + Z.of_nat n).
Proof.
  intros Hin H. induction H as [t | i j x y z H _ IH]; [by rewrite Z.add_0_r, wrap_i64_id |].
  apply task_step_epoch in H. assert (Ey : Task.ClaimEpoch y = wrap_i64 (Task.ClaimEpoch x + Z.of_nat i)).
  { rewrite H. case_decide; [| done]. subst i. by rewrite Z.add_0_r, wrap_i64_id. }
  rewrite IH by (rewrite Ey; apply wrap_i64_range). rewrite Ey, wrap_i64_add. f_equal. lia.
Qed.

Lemma epoch_differs e n : in_i64 e -> (0 < Z.of_nat n < 2 ^ 64)%Z -> wrap_i64 (e + Z.of_nat n) <> e.
Proof.
  intros He Hn E. rewrite <- (wrap_i64_id e He) in E at 2. apply wrap_i64_eq_mod in E.
  rewrite <- (Z.add_0_r e) in E at 2.
  assert (H : ((e + Z.of_nat n - (e + 0)) mod 2 ^ 64 = 0)%Z) by (rewrite Zminus_mod, E, Z.sub_diag; done).
  replace (e + Z.of_nat n - (e + 0))%Z with (Z.of_nat n) in H by lia. rewrite Z.mod_small in H; lia.
Qed.

(** ** Reports *)

Lemma unique_ids m a l l' :
  wf m -> l ∈ slice (Mem.tasks m) a -> l' ∈ slice (Mem.tasks m) a ->
  Task.TaskID (deref m l) = Task.TaskID (deref m l') -> l = l'.
Proof.
  intros H Hl Hl' E. destruct (wf_tasks _ H _ _ Hl) as (_ & _ & E1).
  destruct (wf_tasks _ H _ _ Hl') as (_ & _ & E2). congruence.
Qed.

(** The loop over the agent's tasks only looks at the reported one. *)
Lemma submit_loop_other res now ls m :
  (forall l, l ∈ ls -> Task.TaskID (deref m l) <> TaskResult.TaskID res) -> submit_loop res now ls m = (m, true).
Proof.
  induction ls as [| l ls IH]; intros H; simpl; [done |].
  rewrite bool_decide_false by (apply H; left). simpl. apply IH. intros x Hx. apply H. by right.
Qed.

Lemma apply_result_deref res now l l' m :
  l <> l' -> deref (apply_result res now l m) l' = deref m l'.
Proof.
  intros Hne. unfold apply_result. destruct (_ =? _)%Z; [by apply deref_update_ne |]. cbv zeta.
  destruct (_ <? _)%Z.
  - rewrite (same_heap_deref _ _ _ (same_heap_publish _ _)). by apply deref_update_ne.
  - rewrite (same_heap_deref _ _ _ (same_heap_alert _ _ _)). by apply deref_update_ne.
Qed.

Definition accepts (res : TaskResult.t) (t : Task.t) : bool :=
  validTaskTransition (Task.Status t) (next_status (TaskResult.ExitCode res =? 0)%Z t) &&
  (TaskResult.ClaimEpoch res =? Task.ClaimEpoch t)%Z.

Lemma submit_loop_one res now ls m l :
  NoDup ls -> l ∈ ls -> Task.TaskID (deref m l) = TaskResult.TaskID res ->
  (forall l', l' ∈ ls -> Task.TaskID (deref m l') = TaskResult.TaskID res -> l' = l) ->
  submit_loop res now ls m =
    if accepts res (deref m l) then (apply_result res now l m, true) else (m, false).
Proof.
  intros Hnd Hl Hid Hu. revert Hl. induction Hnd as [| x ls Hx Hnd IH]; intros Hl; [inversion Hl |].
  simpl. case_bool_decide as E; simpl.
  - assert (x = l) as -> by (apply Hu; [left | done]). unfold accepts.
    destruct (validTaskTransition _ _); simpl; [| done]. destruct (_ =? _)%Z eqn:Ee; simpl; [| done].
    apply submit_loop_other. intros l' Hl' El'. rewrite apply_result_deref in El'.
    + apply Hx. by rewrite <- (Hu l' ltac:(by right) El').
    + intros <-. done.
  - apply IH.
    + intros l' Hl'. apply Hu. by right.
    + apply elem_of_cons in Hl as [-> | Hl]; done.
Qed.

(** ** Releasing dependents *)

Definition released (t : Task.t) : Task.t := unclaim (Task.set_Status "pending" t).
Definition dep_failed (t : Task.t) : Task.t := unclaim (kill t).

(** What one turn of [releaseDeps] makes of the task it looks at. *)
Definition release_result (byID : index) (t : Task.t) : Task.t :=
  if Task.Status t != "blocked" then t
  else if negb (AllDepsTerminal t byID) then t
  else match AnyDepFailed t byID with
  | Some _ => dep_failed t
  | None => released t
  end.

Lemma release_one_self byID id now l m :
  deref (release_one byID id now l m) l = release_result (view byID m) (deref m l).
Proof.
  unfold release_one, release_result. cbv zeta.
  case_bool_decide as Es; simpl; [| done].
  assert (Hl : l < length (Mem.heap m)) by by eapply deref_status_valid.
  destruct (AllDepsTerminal _ _); simpl; [| done].
  destruct (AnyDepFailed _ _); rewrite (same_heap_deref _ _ _ (same_heap_publish _ _)).
  - rewrite (same_heap_deref _ _ _ (same_heap_alert _ _ _)). by rewrite deref_update_eq.
  - by rewrite deref_update_eq.
Qed.

Lemma release_one_other byID id now l l' m :
  l <> l' -> deref (release_one byID id now l m) l' = deref m l'.
Proof.
  intros Hne. unfold release_one. cbv zeta.
  case_bool_decide; simpl; [| done]. destruct (AllDepsTerminal _ _); simpl; [| done].
  destruct (AnyDepFailed _ _); rewrite (same_heap_deref _ _ _ (same_heap_publish _ _)).
  - rewrite (same_heap_deref _ _ _ (same_heap_alert _ _ _)). by rewrite deref_update_ne.
  - by rewrite deref_update_ne.
Qed.

Abbreviation release_fold byID id now ls m := (foldl (fun m l => release_one byID id now l m) m ls).

(** Only blocked tasks of the list are touched. *)
Lemma release_fold_other byID id now ls m l :
  l ∉ ls \/ Task.Status (deref m l) <> "blocked" -> deref (release_fold byID id now ls m) l = deref m l.
Proof.
  revert m. induction ls as [| x ls IH]; intros m Hl; simpl; [done |].
  assert (E : deref (release_one byID id now x m) l = deref m l).
  { destruct (decide (x = l)) as [-> |]; [| by apply release_one_other].
    destruct Hl as [Hl | Hl]; [destruct Hl; left |].
    rewrite release_one_self. unfold release_result. by rewrite bool_decide_false. }
  rewrite IH, E; [done |]. rewrite E. destruct Hl as [Hl | Hl]; [left | by right].
  intros H. apply Hl. by right.
Qed.

(** The turn that looks at [l] happens in the state [m1] left by those before
    it. *)
Lemma release_fold_at byID id now ls m l :
  NoDup ls -> l ∈ ls ->
  exists before, (l ∉ before) /\ (before ⊆ ls) /\
    deref (release_fold byID id now ls m) l =
      release_result (view byID (release_fold byID id now before m)) (deref m l).
Proof.
  intros Hnd Hl. apply list_elem_of_split in Hl as (b & a & ->). exists b.
  apply NoDup_app in Hnd as (Hb & Hba & Ha). apply NoDup_cons in Ha as [Hla Ha].
  assert (Hlb : l ∉ b) by (intros H; by apply (Hba l H); left).
  split; [done |]. split; [intros x Hx; apply elem_of_app; by left |].
  rewrite foldl_app. simpl. rewrite release_fold_other by by left.
  rewrite release_one_self. by rewrite release_fold_other by by left.
Qed.

(** A terminal object is the same in every later turn. *)
Lemma release_fold_terminal byID id now ls m l :
  isTerminalStatus (Task.Status (deref m l)) = true -> deref (release_fold byID id now ls m) l = deref m l.
Proof.
  intros Ht. apply release_fold_other. right. intros E. by rewrite E in Ht.
Qed.

Lemma release_fold_view byID id now ls m d t :
  view byID m d = Some t -> isTerminalStatus (Task.Status t) = true ->
  view byID (release_fold byID id now ls m) d = Some t.
Proof.
  unfold view. destruct (byID !! d) as [p |]; simpl; [| done]. intros [= <-] Ht. f_equal.
  by apply release_fold_terminal.
Qed.

(** Not a terminal task in [m]: later it is still not one, or it has failed. *)
Lemma release_fold_view_back byID id now ls m d t :
  view byID (release_fold byID id now ls m) d = Some t -> Task.Status t = "done" ->
  view byID m d = Some t.
Proof.
  unfold view. destruct (byID !! d) as [p |]; simpl; [| done]. intros [= <-] Hd. f_equal. symmetry.
  revert m Hd. induction ls as [| x ls IH]; intros m Hd; simpl in *; [done |].
  rewrite (IH _ Hd). rewrite (IH _ Hd) in Hd. revert Hd.
  destruct (decide (x = p)) as [-> |]; [| by rewrite release_one_other].
  rewrite release_one_self. unfold release_result.
  case_bool_decide; simpl; [| done]. destruct (AllDepsTerminal _ _); simpl; [| done].
  by destruct (AnyDepFailed _ _).
Qed.

Lemma AllDepsTerminal_view t byID id now ls m :
  AllDepsTerminal t (view byID m) = true ->
  AllDepsTerminal t (view byID (release_fold byID id now ls m)) = true /\
  (AllDepsDone t (view byID (release_fold byID id now ls m)) = true <-> AllDepsDone t (view byID m) = true).
Proof.
  rewrite !AllDepsTerminal_iff, !AllDepsDone_iff. intros H. split.
  - intros d Hd. destruct (H d Hd) as (x & Ex & Hx). exists x. split; [by apply release_fold_view | done].
  - split; intros Hdone d Hd; destruct (Hdone d Hd) as (x & Ex & Hx); exists x; split; try done.
    + by eapply release_fold_view_back.
    + apply release_fold_view; [done |]. by rewrite Hx.
Qed.

Lemma release_result_terminal (byID : index) t :
  Task.Status t = "blocked" -> AllDepsTerminal t byID = true ->
  release_result byID t = if AllDepsDone t byID then released t else dep_failed t.
Proof.
  intros Hb Ht. unfold release_result. rewrite bool_decide_true by done. rewrite Ht. simpl.
  destruct (AllDepsDone t byID) eqn:Ed; destruct (AnyDepFailed t byID) as [d |] eqn:Ef; try done; exfalso.
  - apply AnyDepFailed_Some in Ef as (dep & x & Hd & Ex & _ & _ & Hx).
    rewrite AllDepsDone_iff in Ed. destruct (Ed dep Hd) as (x' & Ex' & ?). congruence.
  - rewrite <- not_true_iff_false, AllDepsDone_iff in Ed. apply Ed. intros dep Hd.
    rewrite AllDepsTerminal_iff in Ht. destruct (Ht dep Hd) as (x & Ex & Hx). exists x. split; [done |].
    rewrite AnyDepFailed_None in Ef. by eapply Ef.
Qed.

(** The view of the agent's tasks that [releaseDeps] uses. *)
Definition agent_view (agentID : string) (m : Mem.t) : index := view (byID_of (slice (Mem.tasks m) agentID) m) m.

Lemma releaseDeps_disposition agentID id now m l :
  NoDup (slice (Mem.tasks m) agentID) -> l ∈ slice (Mem.tasks m) agentID ->
  Task.Status (deref m l) = "blocked" ->
  let t := deref m l in
  let t' := deref (releaseDeps agentID id now m) l in
  if AllDepsTerminal t (agent_view agentID m)
  then t' = if AllDepsDone t (agent_view agentID m) then released t else dep_failed t
  else t' = t \/ t' = dep_failed t.
Proof.
  intros Hnd Hl Hb. cbv zeta. unfold releaseDeps, agent_view.
  set (byID := byID_of _ m).
  destruct (release_fold_at byID id now (slice (Mem.tasks m) agentID) m l Hnd Hl) as (b & _ & _ & E).
  rewrite E. clear E.
  destruct (AllDepsTerminal (deref m l) (view byID m)) eqn:Et.
  - destruct (AllDepsTerminal_view _ byID id now b m Et) as [Ht Hd].
    rewrite release_result_terminal by done.
    destruct (AllDepsDone _ (view byID m)) eqn:E1, (AllDepsDone _ (view byID (release_fold byID id now b m))) eqn:E2;
      try done; exfalso.
    + discriminate (proj2 Hd eq_refl).
    + discriminate (proj1 Hd eq_refl).
  - destruct (AllDepsTerminal (deref m l) (view byID (release_fold byID id now b m))) eqn:Et'.
    2: { left. unfold release_result. rewrite bool_decide_true by done. by rewrite Et'. }
    rewrite release_result_terminal by done.
    destruct (AllDepsDone _ _) eqn:Ed; [| by right]. exfalso.
    rewrite <- not_true_iff_false, AllDepsTerminal_iff in Et. apply Et.
    rewrite AllDepsDone_iff in Ed. intros d Hd. destruct (Ed d Hd) as (x & Ex & Hx).
    exists x. split; [by eapply release_fold_view_back |]. by rewrite Hx.
Qed.

Lemma releaseDeps_other agentID id now m l :
  Task.Status (deref m l) <> "blocked" -> deref (releaseDeps agentID id now m) l = deref m l.
Proof. intros H. unfold releaseDeps. apply release_fold_other. by right. Qed.

(** ** The outcome of a report *)

Definition retried (t : Task.t) : Task.t :=
  Task.set_RetryCount (wrap_i64 (Task.RetryCount t + 1)) (unclaim (Task.set_Status "pending" t)).

(** Done, queued again, or dead. *)
Definition reported (res : TaskResult.t) (t : Task.t) : Task.t :=
  if (TaskResult.ExitCode res =? 0)%Z then Task.set_Status "done" t
  else if (Task.RetryCount t <? Task.MaxRetries t)%Z then retried t
  else kill t.

(** The state in which only the report itself was recorded. *)
Definition recorded (res : TaskResult.t) (m : Mem.t) : Mem.t :=
  Mem.set_results (<[TaskResult.AgentID res := slice (Mem.results m) (TaskResult.AgentID res) ++ [res]]> (Mem.results m)) m.

Lemma apply_result_self res now l m :
  l < length (Mem.heap m) -> deref (apply_result res now l m) l = reported res (deref m l).
Proof.
  intros Hl. unfold apply_result, reported. destruct (_ =? _)%Z; [by rewrite deref_update_eq |]. cbv zeta.
  destruct (_ <? _)%Z.
  - rewrite (same_heap_deref _ _ _ (same_heap_publish _ _)). by rewrite deref_update_eq.
  - rewrite (same_heap_deref _ _ _ (same_heap_alert _ _ _)). by rewrite deref_update_eq.
Qed.

Lemma reported_not_blocked res t : Task.Status (reported res t) <> "blocked".
Proof. unfold reported. destruct (_ =? _)%Z; [done |]. by destruct (_ <? _)%Z. Qed.

Lemma SubmitResult_cases res now m l :
  wf m -> l ∈ slice (Mem.tasks m) (TaskResult.AgentID res) -> Task.TaskID (deref m l) = TaskResult.TaskID res ->
  (accepts res (deref m l) = true /\ deref (SubmitResult res now m) l = reported res (deref m l)) \/
  (accepts res (deref m l) = false /\ SubmitResult res now m = recorded res m).
Proof.
  intros Hwf Hl Hid. unfold SubmitResult. cbv zeta. fold (recorded res m).
  change (Mem.tasks m) with (Mem.tasks (recorded res m)).
  assert (Hd : forall x, deref (recorded res m) x = deref m x) by done.
  rewrite (submit_loop_one res now _ _ l).
  - rewrite Hd. destruct (accepts res (deref m l)) eqn:Ea; [left | by right]. split; [done |]. simpl.
    rewrite (same_heap_deref _ _ _ (same_heap_publish _ _)), (same_heap_deref _ _ _ (same_heap_mark _ _ _ _)).
    assert (Hself : deref (apply_result res now l (recorded res m)) l = reported res (deref m l)).
    { rewrite apply_result_self; [done |]. by destruct (wf_tasks _ Hwf _ _ Hl). }
    rewrite releaseDeps_other; [done |]. rewrite Hself. apply reported_not_blocked.
  - apply (wf_nodup _ Hwf).
  - done.
  - done.
  - intros l' Hl' El'. by eapply unique_ids; [| | | rewrite Hid].
Qed.

(** ** Reclaiming *)

(** A running task claimed before the cutoff whose agent is unknown or was last
    heard of before the cutoff. *)
Definition stale (cutoff : time) (m : Mem.t) (t : Task.t) : bool :=
  (Task.Status t == "running") && negb (IsZero (Task.ClaimedAt t)) && Before (Task.ClaimedAt t) cutoff &&
  match Mem.agents m !! Task.ClaimedBy t with
  | Some a => (AgentInfo.LastSeen a <? cutoff)%Z
  | None => true
  end.

Lemma stale_fresh cutoff m t :
  stale cutoff m t =
    (Task.Status t == "running") && negb (IsZero (Task.ClaimedAt t)) && Before (Task.ClaimedAt t) cutoff &&
    negb (heartbeat_fresh cutoff (Task.ClaimedBy t) m).
Proof.
  unfold stale, heartbeat_fresh, Before. destruct (Mem.agents m !! Task.ClaimedBy t); [| done].
  by rewrite negb_involutive.
Qed.

Lemma reclaim_one_cases cutoff now l m n :
  let s := reclaim_one cutoff now l (m, n) in
  Mem.agents s.1 = Mem.agents m /\ (forall x, x <> l -> deref s.1 x = deref m x) /\
  deref s.1 l = (if stale cutoff m (deref m l) then reclaimed (deref m l) else deref m l) /\
  s.2 = if stale cutoff m (deref m l) then S n else n.
Proof.
  cbv zeta. rewrite reclaim_one_spec. cbv zeta. rewrite !stale_fresh.
  destruct (bool_decide_reflect (Task.Status (deref m l) = "running")) as [Hr | Hr]; simpl; [| done].
  destruct (IsZero _); simpl; [done |]. destruct (Before _ _); simpl; [| done].
  destruct (heartbeat_fresh _ _ _); simpl; [done |].
  assert (Hl : l < length (Mem.heap m)) by by eapply deref_status_valid.
  assert (Hs : forall b (m1 m2 : Mem.t), Mem.heap m1 = Mem.heap m2 -> Mem.agents m1 = Mem.agents m2 ->
    Mem.heap (if b : bool then m1 else m2) = Mem.heap m2 /\ Mem.agents (if b then m1 else m2) = Mem.agents m2).
  { by intros [] m1 m2 E1 E2. }
  destruct (Hs (Task.RetryCount (reclaimed (deref m l)) >=? Task.MaxRetries (deref m l))%Z
    (addAlertLocked now
          (dead_letter_alert (deref m l) (Task.ClaimedBy (deref m l))
             ("task " +:+ Task.TaskID (deref m l) +:+ " entered dead-letter after " +:+
              itoa (Task.RetryCount (reclaimed (deref m l))) +:+ " stale reclaims") now) (update l reclaimed m))
    (update l reclaimed m) eq_refl eq_refl) as [E1 E2].
  assert (Ed : forall (m1 m2 : Mem.t) x, Mem.heap m1 = Mem.heap m2 -> deref m1 x = deref m2 x).
  { intros m1 m2 x E. unfold deref. by rewrite E. }
  split_and!; [by rewrite E2 | | | done].
  - intros x Hx. rewrite (Ed _ _ x E1). by rewrite deref_update_ne.
  - rewrite (Ed _ _ l E1). by rewrite deref_update_eq.
Qed.

Lemma stale_agents cutoff m m' t : Mem.agents m' = Mem.agents m -> stale cutoff m' t = stale cutoff m t.
Proof. intros E. unfold stale. by rewrite E. Qed.

#[local] Arguments reclaim_one : simpl never.

Lemma reclaim_loop_spec cutoff now ls m n :
  NoDup ls ->
  let s := reclaim_loop cutoff now ls (m, n) in
  Mem.agents s.1 = Mem.agents m /\ (forall x, x ∉ ls -> deref s.1 x = deref m x) /\
  (forall x, x ∈ ls -> deref s.1 x = if stale cutoff m (deref m x) then reclaimed (deref m x) else deref m x) /\
  s.2 = n + length (List.filter (fun x => stale cutoff m (deref m x)) ls).
Proof.
  intros Hnd. cbv zeta. revert m n. induction Hnd as [| l ls Hl Hnd IH]; intros m n.
  { simpl. split_and!; [done | done | intros x Hx; inversion Hx | lia]. }
  destruct (reclaim_one_cases cutoff now l m n) as (A & B & C & D). simpl in *.
  destruct (reclaim_one cutoff now l (m, n)) as [m1 n1]. simpl in *. subst n1.
  destruct (IH m1 (if stale cutoff m (deref m l) then S n else n)) as (A' & B' & C' & D').
  split_and!.
  - congruence.
  - intros x Hx. rewrite elem_of_cons in Hx. rewrite B', B; tauto.
  - intros x [-> | Hx]%elem_of_cons; [by rewrite B' |].
    assert (x <> l) by congruence. rewrite C' by done. rewrite (stale_agents cutoff m m1) by done.
    by rewrite B.
  - rewrite D'. rewrite (filter_ext_in _ (fun x => stale cutoff m (deref m x)) ls).
    2: { intros x Hx%list_elem_of_In. rewrite (stale_agents cutoff m m1) by done. rewrite B; [done | congruence]. }
    destruct (stale cutoff m (deref m l)); simpl; lia.
Qed.

(** The loops over the map and over the lists are one loop over all listed
    tasks, since the lists do not change. *)
Lemma reclaim_flatten cutoff now keys s :
  foldl (fun s key => reclaim_loop cutoff now (slice (Mem.tasks s.1) key) s) s keys =
  reclaim_loop cutoff now (keys ≫= slice (Mem.tasks s.1)) s.
Proof.
  revert s. induction keys as [| k keys IH]; intros s; [done |]. csimpl.
  rewrite IH.
  assert (E : Mem.tasks (reclaim_loop cutoff now (slice (Mem.tasks s.1) k) s).1 = Mem.tasks s.1).
  { apply (foldl_moves (fun s l => reclaim_one cutoff now l s)). intros s' l. apply reclaim_one_moves. }
  rewrite E. unfold reclaim_loop. by rewrite foldl_app.
Qed.

(** The keys of the map, in some order. *)
Definition enumerates (keys : list string) (m : Mem.t) : Prop :=
  NoDup keys /\ forall k l, l ∈ slice (Mem.tasks m) k -> k ∈ keys.

Lemma listed_nodup keys m : wf m -> NoDup keys -> NoDup (keys ≫= slice (Mem.tasks m)).
Proof.
  intros Hwf. induction 1 as [| k keys Hk Hnd IH]; [constructor |]. csimpl.
  apply NoDup_app. split_and!; [apply (wf_nodup _ Hwf) | | done].
  intros l Hl (k' & Hl' & Hk')%list_elem_of_bind.
  destruct (wf_tasks _ Hwf _ _ Hl) as (_ & E & _). destruct (wf_tasks _ Hwf _ _ Hl') as (_ & E' & _).
  congruence.
Qed.

Lemma listed_iff keys m l :
  enumerates keys m -> l ∈ (keys ≫= slice (Mem.tasks m)) <-> exists a, l ∈ slice (Mem.tasks m) a.
Proof.
  intros [_ He]. rewrite list_elem_of_bind. split.
  - intros (k & H & _). eauto.
  - intros [k H]. exists k. split; [done | by eapply He].
Qed.

(** ** Listing *)

Lemma listed_before_asym a b : listed_before a b = true -> listed_before b a = false.
Proof.
  unfold listed_before, Before. rewrite (Z.eqb_sym (Task.Priority b)), (Z.eqb_sym (Task.CreatedAt b)).
  rewrite !Z.gtb_ltb.
  destruct (Z.eqb_spec (Task.Priority a) (Task.Priority b)); simpl; [| rewrite Z.ltb_lt, Z.ltb_ge; lia].
  destruct (Z.eqb_spec (Task.CreatedAt a) (Task.CreatedAt b)); simpl; [| rewrite Z.ltb_lt, Z.ltb_ge; lia].
  apply str_lt_asym.
Qed.

(** [listed_before] refused in both directions: the three keys agree. *)
Lemma listed_before_keys a b :
  listed_before a b = false ->
  (Task.Priority a < Task.Priority b)%Z \/
  (Task.Priority a = Task.Priority b /\ (Task.CreatedAt b < Task.CreatedAt a)%Z) \/
  (Task.Priority a = Task.Priority b /\ Task.CreatedAt a = Task.CreatedAt b /\
     str_lt (Task.TaskID a) (Task.TaskID b) = false).
Proof.
  unfold listed_before, Before. rewrite Z.gtb_ltb.
  destruct (Z.eqb_spec (Task.Priority a) (Task.Priority b)); simpl; [| rewrite Z.ltb_ge; lia].
  destruct (Z.eqb_spec (Task.CreatedAt a) (Task.CreatedAt b)); simpl; [auto | rewrite Z.ltb_ge; lia].
Qed.

Lemma listed_before_of_keys a b :
  (Task.Priority a < Task.Priority b)%Z \/
  (Task.Priority a = Task.Priority b /\ (Task.CreatedAt b < Task.CreatedAt a)%Z) \/
  (Task.Priority a = Task.Priority b /\ Task.CreatedAt a = Task.CreatedAt b /\
     str_lt (Task.TaskID a) (Task.TaskID b) = false) ->
  listed_before a b = false.
Proof.
  unfold listed_before, Before. rewrite Z.gtb_ltb.
  destruct (Z.eqb_spec (Task.Priority a) (Task.Priority b)); simpl; [| rewrite Z.ltb_ge; lia].
  destruct (Z.eqb_spec (Task.CreatedAt a) (Task.CreatedAt b)); simpl; [| rewrite Z.ltb_ge; lia].
  intros [? | [? | (_ & _ & ?)]]; [lia | lia | done].
Qed.

Lemma listed_before_trans a b c :
  not_more listed_before a b -> not_more listed_before b c -> not_more listed_before a c.
Proof.
  unfold not_more. intros H1%listed_before_keys H2%listed_before_keys. apply listed_before_of_keys.
  destruct H1 as [? | [? | (? & ? & H1)]], H2 as [? | [? | (? & ? & H2)]]; try lia.
  right; right. split_and!; [lia | lia |]. by eapply str_lt_not_trans.
Qed.

Lemma all_tasks_listed keys m : all_tasks keys m = deref m <$> (keys ≫= slice (Mem.tasks m)).
Proof.
  unfold all_tasks, tasks_of. induction keys as [| k keys IH]; [done |]. csimpl.
  by rewrite fmap_app, IH.
Qed.

Lemma all_tasks_elem keys m t :
  enumerates keys m -> t ∈ all_tasks keys m <-> exists a l, l ∈ slice (Mem.tasks m) a /\ t = deref m l.
Proof.
  intros He. rewrite all_tasks_listed, list_elem_of_fmap. setoid_rewrite (listed_iff _ _ _ He).
  split; [intros (l & -> & a & H) | intros (a & l & H & ->)]; eauto.
Qed.

Lemma AllTasks_elem keys tenantID m t :
  enumerates keys m ->
  t ∈ AllTasks keys tenantID m <->
  (exists a l, l ∈ slice (Mem.tasks m) a /\ t = deref m l) /\ (tenantID = "" \/ Task.TenantID t = tenantID).
Proof.
  intros He. unfold AllTasks. rewrite list_elem_of_In, filter_In, <- list_elem_of_In.
  rewrite (all_tasks_elem _ _ _ He). rewrite negb_true_iff, andb_false_iff, !negb_false_iff, !bool_decide_eq_true. done.
Qed.

Lemma AllTasks_perm keys keys' tenantID m :
  keys ≡ₚ keys' -> AllTasks keys tenantID m ≡ₚ AllTasks keys' tenantID m.
Proof.
  intros H. unfold AllTasks, all_tasks.
  assert (Hf : forall l k : list Task.t, l ≡ₚ k -> forall p, List.filter p l ≡ₚ List.filter p k).
  { intros l k Hp p. induction Hp; simpl.
    - done.
    - destruct (p x); by rewrite IHHp.
    - destruct (p x), (p y); try done. apply perm_swap.
    - by etransitivity. }
  apply Hf. by rewrite H.
Qed.

Lemma ListTasks_same keys keys' tenantID m :
  wf m -> enumerates keys m -> keys ≡ₚ keys' ->
  stable_sort listed_before (AllTasks keys tenantID m) = stable_sort listed_before (AllTasks keys' tenantID m).
Proof.
  intros Hwf He Hp. apply stable_sort_unique.
  - exact listed_before_trans.
  - exact listed_before_asym.
  - intros x y. rewrite !(AllTasks_elem _ _ _ _ He). intros [(a & l & Hl & ->) _] [(b & k & Hk & ->) _] H1 H2.
    assert (E : Task.TaskID (deref m l) = Task.TaskID (deref m k)).
    { apply listed_before_keys in H1, H2. destruct H1 as [? | [? | (? & ? & H1)]], H2 as [? | [? | (? & ? & H2)]]; try lia.
      by apply str_lt_total. }
    destruct (wf_tasks _ Hwf _ _ Hl) as (_ & _ & E1). destruct (wf_tasks _ Hwf _ _ Hk) as (_ & _ & E2).
    rewrite E in E1. by assert (l = k) as -> by congruence.
  - by apply AllTasks_perm.
Qed.

(** Consecutive pages cover the list without overlap. *)
Lemma page_spec {A} (k limit : Z) (all : list A) :
  (0 <= k)%Z -> (0 < limit)%Z -> (k * limit + limit <= max_i64)%Z ->
  page (k * limit) limit all = take (Z.to_nat limit) (drop (Z.to_nat (k * limit)) all).
Proof.
  intros Hk Hl Hmax. assert (H0 : (0 <= k * limit)%Z) by nia. revert H0 Hmax. generalize (k * limit)%Z. clear Hk k.
  intros o Ho Hmax. unfold page. cbv zeta. rewrite !Z.gtb_ltb.
  rewrite (proj2 (Z.ltb_ge o 0)) by lia. rewrite (proj2 (Z.ltb_lt 0 limit)) by lia.
  assert (Hw : wrap_i64 (o + limit) = (o + limit)%Z).
  { apply wrap_i64_id. unfold in_i64. unfold max_i64 in Hmax.
    lia. }
  destruct (Z.ltb_spec (Z.of_nat (length all)) o) as [H | H].
  - rewrite !drop_ge by lia. by rewrite !take_nil.
  - rewrite Hw. destruct (Z.ltb_spec (Z.of_nat (length all)) (o + limit)) as [H' | H'].
    + rewrite (proj2 (Z.ltb_ge _ o)) by lia. rewrite !take_ge; [done | |]; rewrite length_drop; lia.
    + rewrite (proj2 (Z.ltb_ge _ o)) by lia. f_equal. lia.
Qed.

Lemma pages_cover {A} limit (all : list A) n :
  (0 < limit)%Z -> (Z.of_nat n * limit + limit <= max_i64)%Z ->
  concat ((fun k => page (Z.of_nat k * limit) limit all) <$> seq 0 n) = take (n * Z.to_nat limit) all.
Proof.
  intros Hl. induction n as [| n IH]; intros Hmax; [done |].
  rewrite seq_S, fmap_app, concat_app, IH by nia. simpl. rewrite app_nil_r.
  rewrite page_spec by nia.
  replace (Z.to_nat (Z.of_nat n * limit)) with (n * Z.to_nat limit) by nia.
  rewrite take_take_drop. f_equal. lia.
Qed.
