(* ===== verification/MemTheorems.v ===== *)
(** * Theorems about the task queue of the memory store

    The properties the library establishes of [MemTasks], each followed by an
    instance on a concrete execution. *)

From S2P Require Import Proto Dag GoStrings Cron Window MemState MemTasks MemFleet MemRecords MemLife MemInv MemExec MemProps Prelude.
Open Scope go_scope.

(** ** A concrete execution *)

Fixpoint trace_ok (h : string -> string -> string) (s : string -> string) (ls : list (op * time)) (m : Mem.t) : Prop :=
  match ls with
  | [] => True
  | l :: ls => op_ok l m /\ trace_ok h s ls (step h s l m)
  end.

Lemma exec_reachable h s ls m : reachable h s m -> trace_ok h s ls m -> reachable h s (exec h s ls m).
Proof.
  revert m. induction ls as [| l ls IH]; intros m Hm; [done |]. intros [Hl Hls].
  apply IH; [by apply reachable_step | done].
Qed.

Definition ex_hmac (secret payload : string) : string := "mac-" +:+ secret +:+ "-" +:+ payload.
Definition ex_sha (s : string) : string := "sha-" +:+ s.
Definition at_second (n : Z) : time := (unix_epoch + n * second)%Z.

Definition ex_agent : AgentInfo.t :=
  AgentInfo.set_AgentID "a1" (AgentInfo.set_TenantID "acme" (AgentInfo.set_Segment "lan" AgentInfo.zero)).
Definition ex_task (priority retries : Z) (command : string) : Task.t :=
  Task.set_AgentID "a1" (Task.set_TenantID "acme" (Task.set_Priority priority
    (Task.set_MaxRetries retries (Task.set_Command command Task.zero)))).

(** One agent and three tasks: ids [task-2000000000-1] to [-3]. *)
Definition ex_trace : list (op * time) :=
  [(OpRegister ["lan"] "key" ex_agent, at_second 1);
   (OpCreateTask (ex_task 1 2 "ls"), at_second 2);
   (OpCreateTask (ex_task 5 2 "df"), at_second 2);
   (OpCreateTask (ex_task 5 0 "ps"), at_second 2)].
Definition ex_init : Mem.t := Mem.set_bus true Mem.zero.
Definition ex_queue : Mem.t := exec ex_hmac ex_sha ex_trace ex_init.

Ltac solve_trace :=
  repeat match goal with
  | |- _ /\ _ => split
  | |- True => exact I
  | |- room _ _ => vm_compute; discriminate
  | |- _ -> _ => intros ?; exfalso; vm_compute in *; congruence
  | |- op_ok _ _ => unfold op_ok; cbn [fst snd]
  | |- trace_ok _ _ _ _ => unfold trace_ok; fold trace_ok
  end.

Lemma ex_init_reachable : reachable ex_hmac ex_sha ex_init.
Proof. by apply reachable_init. Qed.

Lemma ex_queue_reachable : reachable ex_hmac ex_sha ex_queue.
Proof.
  apply exec_reachable; [exact ex_init_reachable |]. unfold ex_trace.
  cbn [trace_ok]. unfold op_ok. cbn [fst snd]. solve_trace; exact I.
Qed.

Example ex_queue_tasks :
  Task.TaskID <$> tasks_of ex_queue "a1" = ["task-2000000000-1"; "task-2000000000-2"; "task-2000000000-3"].
Proof. vm_compute. reflexivity. Qed.

(** ** Life of a task *)

(** C2: whatever sequence of store operations runs, every task object moves
    along [task_step] only, with at most one claim per [ClaimTask], and no
    object is lost: the implementation refines the task life cycle. *)
Theorem store_refines_lifecycle hmac_hex sha256_hex ls m :
  evolves (total_claims ls) m (exec hmac_hex sha256_hex ls m).
Proof. apply exec_evolves. Qed.



(** A task that is done, cancelled or rejected keeps its status, its claim
    epoch and its retry count whatever happens afterwards. *)
Theorem settled_tasks_stay hmac_hex sha256_hex ls m l :
  l < length (Mem.heap m) -> settled (Task.Status (deref m l)) = true ->
  let t := deref m l in
  let t' := deref (exec hmac_hex sha256_hex ls m) l in
  Task.Status t' = Task.Status t /\ Task.ClaimEpoch t' = Task.ClaimEpoch t /\
  Task.RetryCount t' = Task.RetryCount t.
Proof.
  intros Hl Hs. cbv zeta. destruct (exec_evolves hmac_hex sha256_hex ls m) as [_ H].
  destruct (H l Hl) as (n & _ & Hn). by eapply life_settled.
Qed.

Definition ex_report (id : string) (code epoch : Z) : TaskResult.t :=
  TaskResult.set_TaskID id (TaskResult.set_AgentID "a1" (TaskResult.set_ExitCode code
    (TaskResult.set_ClaimEpoch epoch TaskResult.zero))).

Definition ex_done : Mem.t :=
  exec ex_hmac ex_sha [(OpClaimTask "a1", at_second 3);
                       (OpSubmitResult (ex_report "task-2000000000-2" 0 1), at_second 4)] ex_queue.

Lemma settled_tasks_stay_witness :
  Task.Status (deref ex_done 1) = "done" /\
  Task.Status (deref (exec ex_hmac ex_sha [(OpCancelTask "task-2000000000-2" "acme", at_second 5);
    (OpClaimTask "a1", at_second 6)] ex_done) 1) = Task.Status (deref ex_done 1).
Proof.
  assert (Hl : 1 < length (Mem.heap ex_done)) by (vm_compute; lia).
  assert (Hs : settled (Task.Status (deref ex_done 1)) = true) by (vm_compute; reflexivity).
  split; [vm_compute; reflexivity |].
  apply (settled_tasks_stay ex_hmac ex_sha [(OpCancelTask "task-2000000000-2" "acme", at_second 5);
    (OpClaimTask "a1", at_second 6)] ex_done 1 Hl Hs).
Defined.

(** C7: whatever happens to a task, it never uses more retries than its
    budget: at most [MaxRetries] unless it has failed, and at most one more
    (counted by the reclaim that fails it) when it has. *)
Theorem retry_budget_respected hmac_hex sha256_hex ls m l :
  l < length (Mem.heap m) -> (Task.MaxRetries (deref m l) < max_i64)%Z ->
  within_budget (deref m l) -> within_budget (deref (exec hmac_hex sha256_hex ls m) l).
Proof.
  intros Hl Hmax Hb. destruct (exec_evolves hmac_hex sha256_hex ls m) as [_ H].
  destruct (H l Hl) as (n & _ & Hn). by eapply life_budget.
Qed.

Lemma retry_budget_respected_witness :
  within_budget (deref (exec ex_hmac ex_sha [(OpClaimTask "a1", at_second 3);
    (OpReclaimStaleTasks ["a1"] minute, at_second 500)] ex_queue) 1).
Proof.
  apply (retry_budget_respected ex_hmac ex_sha _ ex_queue 1).
  - vm_compute. lia.
  - vm_compute. reflexivity.
  - split; [vm_compute; split; discriminate |]. intros _. vm_compute. discriminate.
Defined.

(** ** Claiming and fencing *)

(** C3: [ClaimTask] hands out a claimable task of the highest priority, the
    earliest created one among equals, running, stamped with the claimer and
    with the next epoch, and changes no other task; it returns nothing exactly
    when the agent has no claimable task.  A task of another tenant than the
    agent's, or a schedule template, is never handed out. *)
Theorem claim_takes_most_urgent hmac_hex sha256_hex m agentID now :
  reachable hmac_hex sha256_hex m ->
  (exists l before after, claims_first agentID now m l before after /\
     ClaimTask agentID now m =
       (Some (mark_claimed agentID now (deref m l)), update l (mark_claimed agentID now) m) /\
     (forall x, x <> l -> deref (ClaimTask agentID now m).2 x = deref m x) /\
     ~ (Task.ParentID (deref m l) = "" /\ Task.Schedule (deref m l) <> "") /\
     (Task.TenantID (deref m l) = "" \/ agentTenant agentID m = "" \/
      Task.TenantID (deref m l) = agentTenant agentID m)) \/
  (ClaimTask agentID now m = (None, m) /\
     forall t, t ∈ tasks_of m agentID -> claimable (agentTenant agentID m) t = false).
Proof.
  intros [Hwf _ _]%reachable_inv.
  destruct (ClaimTask_spec agentID now m Hwf) as [(l & b & a & Hc & Hl & E) | [E Hn]].
  - left. exists l, b, a. split; [done |]. split; [done |].
    split; [intros x Hx; rewrite E; by apply deref_update_ne |].
    destruct Hc as (_ & Hok & _). unfold claimable in Hok.
    destruct (bool_decide_reflect (Task.ParentID (deref m l) = "")), (bool_decide_reflect (Task.Schedule (deref m l) = ""));
      simpl in Hok; try done; (split; [tauto |]);
    destruct (bool_decide_reflect (Task.TenantID (deref m l) = "")); simpl in Hok; auto;
    destruct (bool_decide_reflect (agentTenant agentID m = "")); simpl in Hok; auto;
    case_bool_decide; simpl in Hok; auto; done.
  - right. split; [done |]. intros t (l & -> & Hl)%list_elem_of_fmap. by apply Hn.
Qed.

Lemma claim_takes_most_urgent_witness :
  Task.TaskID <$> (ClaimTask "a1" (at_second 3) ex_queue).1 = Some "task-2000000000-2" /\
  exists l before after, claims_first "a1" (at_second 3) ex_queue l before after.
Proof.
  split; [vm_compute; reflexivity |].
  destruct (claim_takes_most_urgent ex_hmac ex_sha ex_queue "a1" (at_second 3) ex_queue_reachable)
    as [(l & b & a & H & _) | [H _]].
  - exists l, b, a. exact H.
  - exfalso. assert (E : (ClaimTask "a1" (at_second 3) ex_queue).1 <> None) by (vm_compute; discriminate).
    apply E. rewrite H. reflexivity.
Defined.

(** C1: fencing.  Once a task is claimed a second time, a report that carries
    the epoch of the first claim changes nothing but the record of results, in
    every later state of the task (fewer than 2^64 claims in between). *)
Theorem superseded_holder_fenced hmac_hex sha256_hex m a now ls a' now' ls' res now'' l :
  let m1 := (ClaimTask a now m).2 in
  let m2 := exec hmac_hex sha256_hex ls m1 in
  let m3 := (ClaimTask a' now' m2).2 in
  let m4 := exec hmac_hex sha256_hex ls' m3 in
  m1 = update l (mark_claimed a now) m -> l < length (Mem.heap m) ->
  m3 = update l (mark_claimed a' now') m2 ->
  (Z.of_nat (total_claims ls + total_claims ls' + 1) < 2 ^ 64)%Z ->
  reachable hmac_hex sha256_hex m4 -> l ∈ slice (Mem.tasks m4) (TaskResult.AgentID res) ->
  TaskResult.TaskID res = Task.TaskID (deref m4 l) ->
  TaskResult.ClaimEpoch res = Task.ClaimEpoch (deref m1 l) ->
  SubmitResult res now'' m4 = recorded res m4.
Proof.
  cbv zeta. intros E1 Hl E3 Hn [Hwf _ _]%reachable_inv Hin Hid Hep.
  set (m1 := (ClaimTask a now m).2) in *. set (m2 := exec _ _ ls m1) in *.
  set (m3 := (ClaimTask a' now' m2).2) in *. set (m4 := exec _ _ ls' m3) in *.
  destruct (SubmitResult_cases res now'' m4 l Hwf Hin (eq_sym Hid)) as [[Ha _] | [_ E]]; [| done]. exfalso.
  apply andb_true_iff in Ha as [_ Ha%Z.eqb_eq].
  assert (Hl1 : l < length (Mem.heap m1)) by (rewrite E1; unfold update; simpl; by rewrite length_alter).
  destruct (exec_evolves hmac_hex sha256_hex ls m1) as [Hlen2 H2]. destruct (H2 l Hl1) as (n2 & Hn2 & Hlife2).
  fold m2 in Hlen2, Hlife2. assert (Hl2 : l < length (Mem.heap m2)) by lia.
  assert (Hl3 : l < length (Mem.heap m3)) by (rewrite E3; unfold update; simpl; by rewrite length_alter).
  destruct (exec_evolves hmac_hex sha256_hex ls' m3) as [_ H4]. destruct (H4 l Hl3) as (n4 & Hn4 & Hlife4).
  fold m4 in Hlife4.
  assert (Hr1 : in_i64 (Task.ClaimEpoch (deref m1 l))).
  { rewrite E1, deref_update_eq by done. apply wrap_i64_range. }
  assert (Hr3 : Task.ClaimEpoch (deref m3 l) = wrap_i64 (Task.ClaimEpoch (deref m2 l) + 1)).
  { by rewrite E3, deref_update_eq. }
  apply life_epoch in Hlife4; [| rewrite Hr3; apply wrap_i64_range].
  apply life_epoch in Hlife2; [| done].
  rewrite Hr3, Hlife2, !wrap_i64_add, <- Z.add_assoc, wrap_i64_add in Hlife4.
  apply (epoch_differs (Task.ClaimEpoch (deref m1 l)) (n2 + 1 + n4)); [done | lia |].
  rewrite <- Hep at 2. rewrite Ha, Hlife4. f_equal. lia.
Qed.

(** The claimed task goes stale and is claimed again; the first holder then
    reports. *)
Definition ex_reclaimed : list (op * time) := [(OpReclaimStaleTasks ["a1"] minute, at_second 500)].
Abbreviation ex_idle := (exec ex_hmac ex_sha ex_reclaimed (ClaimTask "a1" (at_second 3) ex_queue).2).
Abbreviation ex_second := (exec ex_hmac ex_sha [] (ClaimTask "a1" (at_second 501) ex_idle).2).

Lemma ex_second_reachable : reachable ex_hmac ex_sha ex_second.
Proof.
  assert (E : exec ex_hmac ex_sha [(OpClaimTask "a1", at_second 3); (OpReclaimStaleTasks ["a1"] minute, at_second 500);
    (OpClaimTask "a1", at_second 501)] ex_queue = ex_second) by (vm_compute; reflexivity).
  rewrite <- E. apply exec_reachable; [exact ex_queue_reachable |]. cbn [trace_ok]. unfold op_ok. cbn [fst snd]. auto.
Qed.

Lemma superseded_holder_fenced_witness :
  Task.Status (deref ex_second 1) = "running" /\
  SubmitResult (ex_report "task-2000000000-2" 0 1) (at_second 502) ex_second =
    recorded (ex_report "task-2000000000-2" 0 1) ex_second.
Proof.
  split; [vm_compute; reflexivity |].
  assert (H1 : (ClaimTask "a1" (at_second 3) ex_queue).2 = update 1 (mark_claimed "a1" (at_second 3)) ex_queue)
    by (vm_compute; reflexivity).
  assert (H2 : 1 < length (Mem.heap ex_queue)) by (vm_compute; lia).
  assert (H3 : (ClaimTask "a1" (at_second 501) ex_idle).2 = update 1 (mark_claimed "a1" (at_second 501)) ex_idle)
    by (vm_compute; reflexivity).
  assert (H4 : (Z.of_nat (total_claims ex_reclaimed + total_claims [] + 1) < 2 ^ 64)%Z) by (vm_compute; reflexivity).
  set (res := ex_report "task-2000000000-2" 0 1).
  assert (H5 : 1 ∈ slice (Mem.tasks ex_second) (TaskResult.AgentID res)) by (vm_compute; right; left).
  assert (H6 : TaskResult.TaskID res = Task.TaskID (deref ex_second 1)) by (vm_compute; reflexivity).
  assert (H7 : TaskResult.ClaimEpoch res = Task.ClaimEpoch (deref (ClaimTask "a1" (at_second 3) ex_queue).2 1))
    by (vm_compute; reflexivity).
  exact (superseded_holder_fenced ex_hmac ex_sha ex_queue "a1" (at_second 3) ex_reclaimed "a1" (at_second 501) []
           res (at_second 502) 1 H1 H2 H3 H4 ex_second_reachable H5 H6 H7).
Defined.

(** ** Reports *)

(** A report is accepted only if the transition is valid from the task's
    status and the epoch is the current one; then the task becomes done,
    pending with one more retry, or failed and dead, as its exit code and its
    budget say.  A rejected report changes nothing but the record of results. *)
Theorem submit_outcome hmac_hex sha256_hex m res now l :
  reachable hmac_hex sha256_hex m ->
  l ∈ slice (Mem.tasks m) (TaskResult.AgentID res) -> Task.TaskID (deref m l) = TaskResult.TaskID res ->
  if accepts res (deref m l) then deref (SubmitResult res now m) l = reported res (deref m l)
  else SubmitResult res now m = recorded res m.
Proof.
  intros [Hwf _ _]%reachable_inv Hl Hid.
  destruct (SubmitResult_cases res now m l Hwf Hl Hid) as [[-> E] | [-> E]]; exact E.
Qed.

Definition ex_running : Mem.t := exec ex_hmac ex_sha [(OpClaimTask "a1", at_second 3)] ex_queue.

Lemma ex_running_reachable : reachable ex_hmac ex_sha ex_running.
Proof. unfold ex_running. apply exec_reachable; [exact ex_queue_reachable |]. by split. Qed.

Lemma submit_outcome_witness :
  let res := ex_report "task-2000000000-2" 1 1 in
  deref (SubmitResult res (at_second 4) ex_running) 1 = reported res (deref ex_running 1) /\
  Task.RetryCount (reported res (deref ex_running 1)) = 1%Z.
Proof.
  split; [| vm_compute; reflexivity].
  assert (Hl : 1 ∈ slice (Mem.tasks ex_running) "a1") by (vm_compute; right; left).
  assert (Hid : Task.TaskID (deref ex_running 1) = "task-2000000000-2") by (vm_compute; reflexivity).
  pose proof (submit_outcome ex_hmac ex_sha ex_running (ex_report "task-2000000000-2" 1 1) (at_second 4) 1
    ex_running_reachable Hl Hid) as H.
  assert (Ha : accepts (ex_report "task-2000000000-2" 1 1) (deref ex_running 1) = true) by (vm_compute; reflexivity).
  rewrite Ha in H. exact H.
Defined.

(** C5: [releaseDeps] settles every blocked task whose dependencies are all
    terminal: released to pending when all are done, failed and dead otherwise.
    A task with an unfinished dependency is never released (it can only fail,
    when a dependency fails earlier in the same pass); tasks that are not
    blocked are untouched. *)
Theorem release_disposition hmac_hex sha256_hex m agentID id now l :
  reachable hmac_hex sha256_hex m -> l ∈ slice (Mem.tasks m) agentID ->
  let t := deref m l in
  let t' := deref (releaseDeps agentID id now m) l in
  if Task.Status t == "blocked" then
    if AllDepsTerminal t (agent_view agentID m)
    then t' = if AllDepsDone t (agent_view agentID m) then released t else dep_failed t
    else t' = t \/ t' = dep_failed t
  else t' = t.
Proof.
  intros [Hwf _ _]%reachable_inv Hl. cbv zeta. case_bool_decide as Hb.
  - apply releaseDeps_disposition; [apply (wf_nodup _ Hwf) | done | done].
  - by apply releaseDeps_other.
Qed.

Definition ex_graph : Mem.t :=
  exec ex_hmac ex_sha
    [(OpCreateTask (Task.set_DependsOn ["task-2000000000-2"] (ex_task 1 0 "make")), at_second 3);
     (OpClaimTask "a1", at_second 4)] ex_queue.

Lemma ex_graph_reachable : reachable ex_hmac ex_sha ex_graph.
Proof.
  apply exec_reachable; [exact ex_queue_reachable |]. cbn [trace_ok]. unfold op_ok. cbn [fst snd]. solve_trace; exact I.
Qed.

Lemma release_disposition_witness :
  Task.Status (deref ex_graph 3) = "blocked" /\
  (deref (releaseDeps "a1" "x" (at_second 5) ex_graph) 3 = deref ex_graph 3 \/
   deref (releaseDeps "a1" "x" (at_second 5) ex_graph) 3 = dep_failed (deref ex_graph 3)).
Proof.
  assert (Hl : 3 ∈ slice (Mem.tasks ex_graph) "a1") by (vm_compute; do 3 right; left).
  assert (Hb : (Task.Status (deref ex_graph 3) == "blocked") = true) by (vm_compute; reflexivity).
  assert (Ht : AllDepsTerminal (deref ex_graph 3) (agent_view "a1" ex_graph) = false) by (vm_compute; reflexivity).
  split; [vm_compute; reflexivity |].
  pose proof (release_disposition ex_hmac ex_sha ex_graph "a1" "x" (at_second 5) 3 ex_graph_reachable Hl) as H.
  cbv zeta in H. rewrite Hb, Ht in H. exact H.
Defined.

(** ** Stale tasks *)

(** C6: [ReclaimStaleTasks] takes a task back exactly when it has been running
    since before the cutoff and its agent's heartbeat is older than the cutoff
    too, so a live agent never loses a long task; a task taken back uses up a
    retry and is queued again, or fails into the dead letters when the budget
    is spent; the number returned counts them, in whatever order the map is
    ranged over. *)
Theorem reclaim_only_abandoned hmac_hex sha256_hex m keys maxAge now :
  reachable hmac_hex sha256_hex m -> enumerates keys m -> (0 < maxAge)%Z ->
  let cutoff := Add now (- maxAge) in
  let r := ReclaimStaleTasks keys maxAge now m in
  (forall a l, l ∈ slice (Mem.tasks m) a ->
     deref r.1 l = if stale cutoff m (deref m l) then reclaimed (deref m l) else deref m l) /\
  r.2 = length (List.filter (stale cutoff m) (all_tasks keys m)).
Proof.
  intros [Hwf _ _]%reachable_inv He Hage. cbv zeta. unfold ReclaimStaleTasks.
  rewrite (proj2 (Z.leb_gt _ _)) by done. rewrite reclaim_flatten. simpl.
  destruct (reclaim_loop_spec (Add now (- maxAge)) now (keys ≫= slice (Mem.tasks m)) m 0) as (_ & _ & H1 & H2).
  { apply listed_nodup; [done | apply He]. }
  split.
  - intros a l Hl. apply H1. apply (listed_iff _ _ _ He). eauto.
  - rewrite H2, all_tasks_listed. clear. rewrite Nat.add_0_l.
    induction (keys ≫= slice (Mem.tasks m)) as [| x xs IH]; [done |]. csimpl.
    destruct (stale _ _ _); csimpl; by rewrite IH.
Qed.

Lemma ex_running_keys : enumerates ["a1"] ex_running.
Proof.
  split; [repeat constructor; set_solver |]. intros k l Hl.
  destruct (decide (k = "a1")) as [-> | Hk]; [left |]. exfalso. revert Hl.
  replace (slice (Mem.tasks ex_running) k) with (@nil nat); [intros Hl; inversion Hl |].
  unfold slice. replace (Mem.tasks ex_running) with ({["a1" := [0; 1; 2]]} : gmap string (list nat)).
  - by rewrite lookup_singleton_ne.
  - vm_compute. reflexivity.
Qed.

Lemma reclaim_only_abandoned_witness :
  (ReclaimStaleTasks ["a1"] minute (at_second 500) ex_running).2 = 1 /\
  deref (ReclaimStaleTasks ["a1"] minute (at_second 500) ex_running).1 1 = reclaimed (deref ex_running 1).
Proof.
  assert (Hs : stale (Add (at_second 500) (- minute)) ex_running (deref ex_running 1) = true) by (vm_compute; reflexivity).
  assert (Hn : length (List.filter (stale (Add (at_second 500) (- minute)) ex_running) (all_tasks ["a1"] ex_running)) = 1)
    by (vm_compute; reflexivity).
  assert (Hl : 1 ∈ slice (Mem.tasks ex_running) "a1") by (vm_compute; right; left).
  destruct (reclaim_only_abandoned ex_hmac ex_sha ex_running ["a1"] minute (at_second 500)
    ex_running_reachable ex_running_keys eq_refl) as [H1 H2].
  split; [rewrite H2; exact Hn |]. rewrite (H1 "a1" 1 Hl), Hs. reflexivity.
Defined.
