(* ===== verification/MemAccess.v ===== *)
(** * Isolation, idempotency, listing and bounds of the memory store

    Theorems about who may touch what, about repeated creations, about the
    paged listing, about install tokens and about the bounds of the resident
    logs, with instances on concrete executions. *)

From Stdlib Require Import Ascii.
From S2P Require Import Proto Dag GoStrings Cron Window MemState MemTasks MemFleet MemRecords MemLife MemInv MemExec MemProps MemTheorems Prelude.
Open Scope go_scope.

(** ** What an operation leaves alone *)

(** The agents are untouched and the two logs stay within their bound. *)
Record keeps (m m' : Mem.t) : Prop := {
  keeps_agents : Mem.agents m' = Mem.agents m;
  keeps_alerts : length (Mem.alerts m) <= auditCap -> length (Mem.alerts m') <= auditCap;
  keeps_audits : length (Mem.audits m) <= auditCap -> length (Mem.audits m') <= auditCap;
}.

#[global] Instance keeps_preorder : PreOrder keeps.
Proof. split; [by split |]. intros x y z [] []. split; [congruence | auto | auto]. Qed.

Lemma keeps_publish e m : keeps m (publish e m).
Proof. unfold publish. by destruct (Mem.bus m). Qed.

Lemma keeps_update l f m : keeps m (update l f m).
Proof. done. Qed.

Lemma keeps_alert now a m : keeps m (addAlertLocked now a m).
Proof. split; [done | intros _ | done]. apply append_capped_bounded. Qed.

Lemma keeps_audit now e m : keeps m (appendAudit now e m).
Proof. split; [done | done | intros _]. apply append_capped_bounded. Qed.

Lemma keeps_foldl {A} (f : Mem.t -> A -> Mem.t) xs m :
  (forall m x, keeps m (f m x)) -> keeps m (foldl f m xs).
Proof.
  intros Hf. revert m. induction xs as [| x xs IH]; intros m; simpl; [reflexivity |].
  etransitivity; [apply Hf | apply IH].
Qed.

Lemma keeps_foldl_pair {A B} (f : Mem.t * B -> A -> Mem.t * B) xs s :
  (forall s x, keeps s.1 (f s x).1) -> keeps s.1 (foldl f s xs).1.
Proof.
  intros Hf. revert s. induction xs as [| x xs IH]; intros s; simpl; [reflexivity |].
  etransitivity; [apply Hf | apply IH].
Qed.

Create HintDb keeps discriminated.
#[export] Hint Resolve keeps_publish keeps_update keeps_alert keeps_audit keeps_foldl : keeps.

(** Composes the frame lemmas along the text of an operation. *)
Ltac keeps_step :=
  first [ done | solve [auto with keeps]
        | etransitivity; [| apply keeps_publish] | etransitivity; [| apply keeps_alert]
        | etransitivity; [| apply keeps_update] ].

Lemma release_keeps agentID id now m : keeps m (releaseDeps agentID id now m).
Proof.
  unfold releaseDeps. apply keeps_foldl. intros m' l. unfold release_one. cbv zeta.
  case_bool_decide; simpl; [| done]. destruct (AllDepsTerminal _ _); simpl; [| done].
  destruct (AnyDepFailed _ _); repeat keeps_step.
Qed.

Lemma apply_result_keeps res now l m : keeps m (apply_result res now l m).
Proof.
  unfold apply_result. destruct (_ =? _)%Z; [done |]. cbv zeta. destruct (_ <? _)%Z; repeat keeps_step.
Qed.

Lemma submit_loop_keeps res now ls m : keeps m (submit_loop res now ls m).1.
Proof.
  revert m. induction ls as [| l ls IH]; intros m; simpl; [done |].
  case_bool_decide; simpl; [| apply IH]. destruct (validTaskTransition _ _); simpl; [| done].
  destruct (TaskResult.ClaimEpoch res =? _)%Z; simpl; [| done].
  etransitivity; [apply apply_result_keeps | apply IH].
Qed.

Lemma mark_devices_keeps b agentID now m : keeps m (mark_devices b agentID now m).
Proof. unfold mark_devices. cbv zeta. by destruct (Mem.segments m !! _). Qed.

Lemma SubmitResult_keeps res now m : keeps m (SubmitResult res now m).
Proof.
  unfold SubmitResult. cbv zeta. fold (recorded res m). change (Mem.tasks m) with (Mem.tasks (recorded res m)).
  pose proof (submit_loop_keeps res now (slice (Mem.tasks (recorded res m)) (TaskResult.AgentID res)) (recorded res m)) as H.
  assert (H' : keeps m (recorded res m)) by done.
  destruct (submit_loop _ _ _ _) as [m1 []]; simpl in *; [| by etransitivity].
  etransitivity; [| apply keeps_publish]. etransitivity; [| apply mark_devices_keeps].
  etransitivity; [| apply release_keeps]. by etransitivity.
Qed.

Lemma reclaim_keeps keys maxAge now m : keeps m (ReclaimStaleTasks keys maxAge now m).1.
Proof.
  unfold ReclaimStaleTasks. destruct (_ <=? _)%Z; [done |].
  apply (keeps_foldl_pair _ keys (m, 0)). intros s key. apply keeps_foldl_pair. intros [m' n] l.
  rewrite reclaim_one_spec. cbv zeta. cbn [fst snd].
  destruct (_ || _ || _); [done |]. destruct (heartbeat_fresh _ _ _); [done |]. cbn [fst snd].
  destruct (_ >=? _)%Z; repeat keeps_step.
Qed.

Lemma fire_keeps keys now m : keeps m (FireDueSchedules keys now m).1.
Proof.
  unfold FireDueSchedules. apply (keeps_foldl_pair _ keys (m, 0)). intros s key.
  apply keeps_foldl_pair. intros [m' n] l. rewrite fire_one_spec.
  destruct (template_due _ _ _); cbn [fst snd negb]; [| done]. cbv zeta. repeat keeps_step.
Qed.

Lemma CreateTask_keeps t now m : keeps m (CreateTask t now m).2.
Proof.
  unfold CreateTask, with_id, store_new. destruct (Task.AgentID t == ""); [done |].
  set (tm := if Task.TaskID t == "" then _ else _).
  assert (Hm : keeps m tm.2) by (unfold tm; by case_bool_decide).
  destruct tm as [t1 m1]. simpl in Hm. cbv iota zeta.
  destruct (existing_task _ _ _); [done |]. cbn [snd alloc].
  etransitivity; [| apply keeps_publish]. etransitivity; [exact Hm |].
  by destruct (Task.IdempotencyKey _ != "").
Qed.

Section steps.
Context (hmac_hex : string -> string -> string) (sha256_hex : string -> string).

Lemma update_first_length {A} (p : A -> bool) f l l' : update_first p f l = Some l' -> length l' = length l.
Proof.
  revert l'. induction l as [| x l IH]; intros l'; simpl; [done |].
  destruct (p x); [by intros [= <-] |]. destruct (update_first p f l) as [k |]; simpl; [| done].
  intros [= <-]. simpl. by rewrite (IH k).
Qed.

Lemma update_device_keeps segs p f m m' : update_device segs p f m = Some m' -> keeps m m'.
Proof.
  induction segs as [| seg segs IH]; simpl; [done |].
  destruct (update_first _ _ _); [by intros [= <-] | done].
Qed.

Lemma issue_keeps deviceID tenantID ttl rnd nonce now m :
  keeps m (issueTokenLocked hmac_hex sha256_hex deviceID tenantID ttl rnd nonce now m).2.
Proof. unfold issueTokenLocked. by case_bool_decide. Qed.

Lemma cleanup_keeps keys batch now m n : keeps m (cleanup_loop keys batch now m n).2.
Proof.
  revert m n. induction keys as [| k keys IH]; intros m n; simpl; [done |].
  destruct (_ && _); [done |]. destruct (Mem.tokens m !! k) as [tm |]; [| apply IH].
  destruct (_ || _); [| apply IH]. etransitivity; [| apply IH]. done.
Qed.

Lemma place_keeps segs a m : keeps m (place_agent segs a m).
Proof.
  unfold place_agent. case_bool_decide; simpl; [done |].
  destruct (update_device _ _ _ _) eqn:E; [by eapply update_device_keeps | done].
Qed.

Lemma step_keeps l m :
  match l.1 with
  | OpRegister _ _ _ | OpHeartbeat _ _ _ => True
  | _ => keeps m (step hmac_hex sha256_hex l m)
  end.
Proof.
  destruct l as [[] now]; try done; unfold step; cbn [fst snd].
  - unfold UpsertDevice. by case_bool_decide.
  - unfold RetireDevice. destruct (Device _ _ _); [| done]. destruct (_ && _); [done |].
    simpl. destruct (update_device _ _ _ _) eqn:E; [by eapply update_device_keeps | done].
  - unfold RetireStaleDevices. by destruct (_ <=? _)%Z.
  - apply CreateTask_keeps.
  - unfold ClaimTask. by destruct (stable_sort _ _).
  - apply SubmitResult_keeps.
  - apply reclaim_keeps.
  - apply fire_keeps.
  - unfold CancelTask. destruct (owned _ _ _); [| done]. cbv zeta. destruct (_ || _); [| done].
    simpl. etransitivity; [apply keeps_update | apply release_keeps].
  - unfold ApproveTask. destruct (owned _ _ _); [| done]. cbv zeta. case_bool_decide; [| done]. repeat keeps_step.
  - unfold RejectTask. destruct (owned _ _ _); [| done]. cbv zeta. case_bool_decide; [| done]. repeat keeps_step.
  - unfold RetryDeadLetterTask. destruct (owned _ _ _); [| done]. cbv zeta. destruct (_ || _); [done |]. repeat keeps_step.
  - unfold DeleteTask. destruct (owned _ _ _); [| done]. cbv zeta. cbn [snd]. etransitivity; [| apply keeps_publish].
    by destruct (existsb _ _).
  - unfold AddIdempotencyKey. by destruct (_ || _ || _).
  - apply keeps_alert.
  - unfold AckAlert. destruct (update_first _ _ _) eqn:E; [| done].
    split; simpl; [done | by rewrite (update_first_length _ _ _ _ E) | done].
  - unfold SilenceAlert. cbv zeta. destruct (update_first _ _ (Mem.alerts m)) eqn:E; [| done].
    split; simpl; [done | by rewrite (update_first_length _ _ _ _ E) | done].
  - apply keeps_audit.
  - unfold ArchiveAuditLog. destruct (_ <=? _)%Z; [done |]. split; simpl; [done | done |].
    intros H. etransitivity; [apply List.filter_length_le | exact H].
  - unfold IssueToken. case_bool_decide; [done |].
    pose proof (issue_keeps deviceID tenantID ttl rnd nonce now m). by destruct (issueTokenLocked _ _ _ _ _ _ _ _ _).
  - unfold Provision. destruct (_ || _); [done |]. cbv zeta.
    destruct (update_device _ _ _ _) as [m1 |] eqn:E; [| done].
    pose proof (issue_keeps deviceID tenantID provision_ttl rnd nonce now m1) as H.
    destruct (issueTokenLocked _ _ _ _ _ _ _ _ _). etransitivity; [by eapply update_device_keeps | exact H].
  - unfold ConsumeToken. destruct (negb _); [done |]. destruct (Mem.tokens m !! _); [| done].
    destruct (tokenMeta.consumed _); [done |]. by destruct (After _ _).
  - apply cleanup_keeps.
Qed.

(** A registration writes the one agent it returns. *)
Lemma Register_keeps segs rnd a now m :
  let r := Register segs rnd a now m in
  match r.1 with
  | None => keeps m r.2
  | Some a' =>
      Mem.agents r.2 = <[AgentInfo.AgentID a' := a']> (Mem.agents m) /\ bound_elsewhere a' m = false /\
      keeps (Mem.set_agents (Mem.agents r.2) m) r.2
  end.
Proof.
  cbv zeta. unfold Register.
  set (am := if AgentInfo.AgentID a == "" then _ else _).
  assert (Hm : keeps m am.2) by (unfold am; by case_bool_decide).
  destruct am as [a1 m1]. simpl in Hm. cbv iota zeta.
  set (a2 := if AgentInfo.Status a1 == "" then _ else _).
  destruct (bound_elsewhere a2 m1) eqn:Hb; [done |].
  set (a3 := AgentInfo.set_LastSeen now a2). cbn [fst snd].
  set (m2 := Mem.set_agents _ m1).
  set (m3 := match Mem.agentSecrets m2 !! _ with Some _ => m2 | None => _ end).
  assert (H23 : keeps m2 m3) by (unfold m3; by destruct (Mem.agentSecrets m2 !! _)).
  pose proof (place_keeps segs a3 m3) as H34.
  set (m4 := place_agent segs a3 m3) in *.
  set (m5 := if Mem.demo m4 && _ then _ else _).
  assert (H45 : keeps m4 m5) by (unfold m5; by destruct (Mem.demo m4 && _)).
  assert (H25 : keeps m2 m5) by (etransitivity; [exact H23 |]; by etransitivity).
  match goal with |- context [appendAudit now ?e (publish ?e' m5)] =>
    assert (H26 : keeps m2 (appendAudit now e (publish e' m5)))
      by (etransitivity; [exact H25 |]; etransitivity; [apply keeps_publish | apply keeps_audit]) end.
  assert (Ha : Mem.agents m1 = Mem.agents m) by apply Hm.
  split_and!.
  - rewrite (keeps_agents _ _ H26). unfold m2. simpl. by rewrite Ha.
  - unfold bound_elsewhere in *. rewrite Ha in Hb. exact Hb.
  - destruct H26 as [E1 E2 E3], Hm as [_ F2 F3]. split; [done | | ]; intros H; [apply E2 | apply E3]; simpl;
      [by apply F2 | by apply F3].
Qed.
End steps.

(** ** Tenants *)

(** Once an agent id is bound to a tenant it stays bound to it: no sequence
    of operations makes the id disappear or move to another tenant. *)
Theorem agent_tenant_is_permanent hmac_hex sha256_hex ls m id tenant :
  tenant <> "" -> AgentInfo.TenantID <$> Mem.agents m !! id = Some tenant ->
  AgentInfo.TenantID <$> Mem.agents (exec hmac_hex sha256_hex ls m) !! id = Some tenant.
Proof.
  intros Ht. apply (run_invariant _ (fun m => AgentInfo.TenantID <$> Mem.agents m !! id = Some tenant)).
  clear m. intros l m H. pose proof (step_keeps hmac_hex sha256_hex l m) as Hk.
  destruct l as [o now]. destruct o; cbn [fst] in Hk; try (by rewrite (keeps_agents _ _ Hk)); unfold step; cbn [fst snd].
  - pose proof (Register_keeps segs rnd a now m) as Hr. cbv zeta in Hr.
    destruct (Register segs rnd a now m) as [[a' |] m']; cbn [fst snd] in *; [| by rewrite (keeps_agents _ _ Hr)].
    destruct Hr as (-> & Hb & _). destruct (decide (AgentInfo.AgentID a' = id)) as [<- | Hne];
      [| by rewrite lookup_insert_ne].
    rewrite lookup_insert_eq. unfold bound_elsewhere in Hb.
    destruct (Mem.agents m !! AgentInfo.AgentID a') as [prev |]; [| done]. simpl in *. injection H as H.
    rewrite H in Hb. rewrite (bool_decide_false (tenant = "")) in Hb by done. simpl in Hb.
    apply negb_false_iff, bool_decide_eq_true in Hb. by rewrite Hb.
  - unfold Heartbeat. destruct (Mem.agents m !! agentID) as [a |] eqn:Ea; [| done]. cbn [snd Mem.agents Mem.set_agents].
    destruct (decide (agentID = id)) as [-> | Hne]; [| by rewrite lookup_insert_ne].
    rewrite lookup_insert_eq. rewrite Ea in H. exact H.
Qed.

Definition ex_intruder : AgentInfo.t := AgentInfo.set_TenantID "evil" ex_agent.

Lemma agent_tenant_is_permanent_witness :
  AgentInfo.TenantID <$> Mem.agents
    (exec ex_hmac ex_sha [(OpRegister ["lan"] "k" ex_intruder, at_second 3)] ex_queue) !! "a1" = Some "acme".
Proof.
  apply (agent_tenant_is_permanent ex_hmac ex_sha _ ex_queue "a1" "acme"); [discriminate | vm_compute; reflexivity].
Defined.

(** With a tenant given, cancelling, approving, rejecting, re-queuing or
    deleting a task of another tenant is refused and changes nothing. *)
Theorem foreign_tasks_untouched m id tenantID by_ now t :
  tenantID <> "" -> TaskByID id m = Some t -> Task.TenantID t <> tenantID ->
  CancelTask id tenantID now m = (false, m) /\ ApproveTask id tenantID by_ now m = (false, m) /\
  RejectTask id tenantID by_ now m = (false, m) /\ RetryDeadLetterTask id tenantID m = (false, m) /\
  DeleteTask id tenantID m = (false, m).
Proof.
  intros Ht Hid Hne. assert (Ho : owned id tenantID m = None).
  { unfold owned, TaskByID in *. destruct (Mem.tasksByID m !! id) as [l |]; [| done].
    injection Hid as ->. by rewrite !bool_decide_false. }
  unfold CancelTask, ApproveTask, RejectTask, RetryDeadLetterTask, DeleteTask. by rewrite Ho.
Qed.

Lemma foreign_tasks_untouched_witness :
  CancelTask "task-2000000000-1" "evil" (at_second 3) ex_queue = (false, ex_queue).
Proof.
  assert (H : TaskByID "task-2000000000-1" ex_queue = Some (deref ex_queue 0)) by (vm_compute; reflexivity).
  assert (Hn : Task.TenantID (deref ex_queue 0) <> "evil") by (vm_compute; discriminate).
  exact (proj1 (foreign_tasks_untouched ex_queue "task-2000000000-1" "evil" "x" (at_second 3) _ ltac:(discriminate) H Hn)).
Defined.

(** ** Idempotent creation *)

(** The entry a creation registers answers for the following day. *)
Lemma register_key_lookup tenantID key taskID now m :
  Mem.idempotencyKeys (register_key tenantID key taskID now m) !! idempotencyCacheKey tenantID key =
    Some (idempotencyEntry.mk taskID now).
Proof.
  unfold register_key, cleanupIdempotencyLocked. cbn [Mem.idempotencyKeys Mem.set_idempotencyKeys].
  apply map_lookup_filter_Some. split; [by rewrite lookup_insert_eq |]. simpl.
  unfold Sub, idempotency_ttl, hour, minute, second, min_i64, max_i64. lia.
Qed.

Lemma with_id_keeps t now m :
  ((with_id t now m).2 = m \/ (with_id t now m).2 = next_seq m) /\
  Task.TenantID (with_id t now m).1 = Task.TenantID t /\
  Task.IdempotencyKey (with_id t now m).1 = Task.IdempotencyKey t.
Proof. unfold with_id. case_bool_decide; simpl; auto. Qed.

Lemma initial_status_key t :
  Task.TenantID (initial_status t) = Task.TenantID t /\
  Task.IdempotencyKey (initial_status t) = Task.IdempotencyKey t.
Proof. unfold initial_status. cbv zeta. by destruct (Task.DependsOn t); destruct (_ && _). Qed.

(** What a creation with a key leaves behind. *)
Lemma store_new_registers t now m :
  Task.IdempotencyKey t <> "" ->
  let r := store_new t now m in
  Mem.idempotencyKeys r.2 !! idempotencyCacheKey (Task.TenantID t) (Task.IdempotencyKey t) =
    Some (idempotencyEntry.mk (Task.TaskID r.1) now) /\
  is_Some (TaskByID (Task.TaskID r.1) r.2).
Proof.
  intros Hk. cbv zeta. unfold store_new. set (s := if IsZero _ then _ else _).
  assert (Hs : Task.TenantID s = Task.TenantID t /\ Task.IdempotencyKey s = Task.IdempotencyKey t).
  { destruct (initial_status_key t) as [E1 E2]. unfold s. by destruct (IsZero _). }
  destruct Hs as [Hten Hkey]. clearbody s. cbn [fst snd alloc].
  rewrite Hkey, Hten, (bool_decide_false (Task.IdempotencyKey t = "")) by done. cbn [negb].
  set (m2 := addTaskLocked _ _). set (m3 := register_key _ _ _ _ m2).
  assert (Hp : forall e, Mem.idempotencyKeys (publish e m3) = Mem.idempotencyKeys m3 /\
    Mem.tasksByID (publish e m3) = Mem.tasksByID m2).
  { intros e. unfold publish. by destruct (Mem.bus m3). }
  destruct (Hp (event "create_task" (Task.TaskID s) (Task.TenantID t) (Task.Command s) LevelInfo)) as [E1 E2].
  rewrite E1. split; [apply register_key_lookup |]. unfold TaskByID. rewrite E2. unfold m2, addTaskLocked.
  pose proof (deref_alloc m s (length (Mem.heap m))) as Hd. rewrite decide_True in Hd by done. simpl in Hd.
  rewrite Hd. cbn [Mem.tasksByID Mem.set_tasksByID]. rewrite lookup_insert_eq. by eexists.
Qed.

Lemma CreateTask_registers t now m :
  Task.AgentID t <> "" -> Task.IdempotencyKey t <> "" ->
  GetIdempotencyKey (Task.TenantID t) (Task.IdempotencyKey t) now m = None ->
  let r := CreateTask t now m in
  Mem.idempotencyKeys r.2 !! idempotencyCacheKey (Task.TenantID t) (Task.IdempotencyKey t) =
    Some (idempotencyEntry.mk (Task.TaskID r.1) now) /\
  is_Some (TaskByID (Task.TaskID r.1) r.2).
Proof.
  intros Ha Hk Hnone. cbv zeta. unfold CreateTask. rewrite (bool_decide_false (Task.AgentID t = "")) by done.
  destruct (with_id_keeps t now m) as (Hm & Hten & Hkey). destruct (with_id t now m) as [s m1]. simpl in *.
  set (s2 := if Task.Status s == "" then _ else _).
  assert (Hs2 : Task.TenantID s2 = Task.TenantID t /\ Task.IdempotencyKey s2 = Task.IdempotencyKey t)
    by (unfold s2; by destruct (Task.Status s == "")).
  destruct Hs2 as [E1 E2]. assert (He : existing_task s2 now m1 = None).
  2: { rewrite He, <- E1, <- E2. apply store_new_registers. by rewrite E2. }
  unfold existing_task. rewrite E1, E2, (bool_decide_false (Task.IdempotencyKey t = "")) by done.
  assert (Ek : Mem.idempotencyKeys m1 = Mem.idempotencyKeys m) by (by destruct Hm as [-> | ->]). rewrite Ek.
  unfold GetIdempotencyKey in Hnone. destruct (Mem.idempotencyKeys m !! _) as [e |]; [| done].
  rewrite Z.gtb_ltb in Hnone. rewrite Z.leb_antisym. by destruct (idempotency_ttl <? _)%Z.
Qed.

Lemma CreateTask_existing t now m e t0 :
  Task.AgentID t <> "" -> Task.IdempotencyKey t <> "" ->
  Mem.idempotencyKeys m !! idempotencyCacheKey (Task.TenantID t) (Task.IdempotencyKey t) = Some e ->
  (Sub now (idempotencyEntry.createdAt e) <= idempotency_ttl)%Z ->
  TaskByID (idempotencyEntry.taskID e) m = Some t0 ->
  (CreateTask t now m).1 = t0 /\ ((CreateTask t now m).2 = m \/ (CreateTask t now m).2 = next_seq m).
Proof.
  intros Ha Hk He Httl Ht. unfold CreateTask. rewrite (bool_decide_false (Task.AgentID t = "")) by done.
  destruct (with_id_keeps t now m) as (Hm & Hten & Hkey). destruct (with_id t now m) as [s m1]. simpl in *.
  set (s2 := if Task.Status s == "" then _ else _).
  assert (Hs2 : Task.TenantID s2 = Task.TenantID t /\ Task.IdempotencyKey s2 = Task.IdempotencyKey t)
    by (unfold s2; by destruct (Task.Status s == "")).
  destruct Hs2 as [E1 E2]. assert (Hex : existing_task s2 now m1 = Some t0); [| by rewrite Hex].
  unfold existing_task. rewrite E1, E2, (bool_decide_false (Task.IdempotencyKey t = "")) by done.
  assert (Ek : Mem.idempotencyKeys m1 = Mem.idempotencyKeys m) by (by destruct Hm as [-> | ->]).
  rewrite Ek, He, (proj2 (Z.leb_le _ _) Httl), <- Ht. by destruct Hm as [-> | ->].
Qed.


Definition ex_keyed (command : string) : Task.t := Task.set_IdempotencyKey "k" (ex_task 1 0 command).


(** ** Listing *)

(** The paged listing does not depend on the order in which Go ranges over
    the map of tasks, is sorted by priority, age and id, contains exactly the
    tenant's tasks, and consecutive pages cover it without gap or overlap. *)
Theorem listing_is_stable hmac_hex sha256_hex m keys keys' tenantID limit n :
  reachable hmac_hex sha256_hex m -> enumerates keys m -> keys' ≡ₚ keys ->
  (0 < limit)%Z -> (Z.of_nat n * limit + limit <= max_i64)%Z ->
  let full := stable_sort listed_before (AllTasks keys tenantID m) in
  (forall offset limit, ListTasksByPriority keys' tenantID offset limit m = (page offset limit full, length full)) /\
  StronglySorted (not_more listed_before) full /\
  (forall t, t ∈ full <-> (exists a, t ∈ tasks_of m a) /\ (tenantID = "" \/ Task.TenantID t = tenantID)) /\
  concat ((fun k => (ListTasksByPriority keys' tenantID (Z.of_nat k * limit) limit m).1) <$> seq 0 n) =
    take (n * Z.to_nat limit) full.
Proof.
  intros [Hwf _ _]%reachable_inv He Hp Hl Hmax. cbv zeta.
  assert (Hsame : forall offset limit, ListTasksByPriority keys' tenantID offset limit m =
    (page offset limit (stable_sort listed_before (AllTasks keys tenantID m)),
     length (stable_sort listed_before (AllTasks keys tenantID m)))).
  { intros o l. unfold ListTasksByPriority. cbv zeta.
    rewrite <- (ListTasks_same keys keys' tenantID m Hwf He (symmetry Hp)). f_equal.
    by rewrite length_stable_sort, (AllTasks_perm keys' keys). }
  split; [done |]. split; [| split].
  - apply (stable_sort_sorted listed_before listed_before_trans listed_before_asym).
  - intros t. rewrite elem_of_stable_sort, (AllTasks_elem _ _ _ _ He). unfold tasks_of.
    split; intros [H ?]; (split; [| done]).
    + destruct H as (a & l & Hla & ->). exists a. by apply list_elem_of_fmap_2.
    + destruct H as (a & (l & -> & Hla)%list_elem_of_fmap). by exists a, l.
  - rewrite <- pages_cover by done. f_equal. apply list_fmap_ext. intros i k _. by rewrite Hsame.
Qed.

Lemma listing_is_stable_witness :
  let full := stable_sort listed_before (AllTasks ["a1"] "acme" ex_running) in
  (ListTasksByPriority ["a1"] "acme" 1 1 ex_running = (page 1 1 full, length full)) /\
  (Task.TaskID <$> full = ["task-2000000000-2"; "task-2000000000-3"; "task-2000000000-1"]).
Proof.
  cbv zeta. split; [| vm_compute; reflexivity].
  refine (proj1 (listing_is_stable ex_hmac ex_sha ex_running ["a1"] ["a1"] "acme" 1 2
    ex_running_reachable ex_running_keys _ eq_refl _) 1%Z 1%Z); [reflexivity | vm_compute; discriminate].
Defined.

(** ** Bounds *)

(** The resident logs of alerts and of audit events never exceed their cap,
    whatever operations run. *)
Theorem resident_logs_bounded hmac_hex sha256_hex ls m :
  length (Mem.alerts m) <= auditCap -> length (Mem.audits m) <= auditCap ->
  length (Mem.alerts (exec hmac_hex sha256_hex ls m)) <= auditCap /\
  length (Mem.audits (exec hmac_hex sha256_hex ls m)) <= auditCap.
Proof.
  intros H1 H2.
  apply (run_invariant _ (fun m => length (Mem.alerts m) <= auditCap /\ length (Mem.audits m) <= auditCap)); [| done].
  clear. intros l m [H1 H2]. pose proof (step_keeps hmac_hex sha256_hex l m) as Hk.
  destruct l as [o now]. destruct o; cbn [fst] in Hk; try (split; [by apply (keeps_alerts _ _ Hk) | by apply (keeps_audits _ _ Hk)]);
    unfold step; cbn [fst snd].
  - pose proof (Register_keeps segs rnd a now m) as Hr. cbv zeta in Hr.
    destruct (Register segs rnd a now m) as [[a' |] m']; cbn [fst snd] in *.
    + destruct Hr as (_ & _ & [_ Hr1 Hr2]). by auto.
    + destruct Hr as [_ Hr1 Hr2]. by auto.
  - unfold Heartbeat. by destruct (Mem.agents m !! agentID).
Qed.

Lemma resident_logs_bounded_witness :
  length (Mem.audits ex_queue) = 1 /\ length (Mem.audits ex_queue) <= auditCap.
Proof.
  split; [vm_compute; reflexivity |].
  apply (resident_logs_bounded ex_hmac ex_sha ex_trace ex_init); apply Nat.le_0_l.
Defined.

(** ** Install tokens *)

Section token_theorems.
Context (hmac_hex : string -> string -> string) (sha256_hex : string -> string).
(** Hexadecimal text: not empty, no dot. *)
Hypothesis hmac_is_hex : forall s p, hmac_hex s p <> "" /\ all_chars (not_char ".") (hmac_hex s p) = true.

Lemma VerifyTokenMAC_issued secret payload :
  secret <> "" -> payload <> "" ->
  VerifyTokenMAC hmac_hex secret (hmac_hex secret payload +:+ "." +:+ payload) = true.
Proof using hmac_is_hex.
  intros Hs Hp. destruct (hmac_is_hex secret payload) as [Hne Hdot]. unfold VerifyTokenMAC.
  rewrite (bool_decide_false (secret = "")) by done.
  rewrite (bool_decide_false (_ = "")) by (by destruct (hmac_hex secret payload)). cbn [orb].
  change ("." +:+ payload) with (String "." payload). rewrite cut_app by done.
  rewrite !bool_decide_false by done. cbn [orb]. by rewrite bool_decide_true.
Qed.

(** An install token that was issued is accepted once, for its device
    and tenant, until it expires; afterwards, and from then on, it is refused.
    A token whose signature is not the one of its payload is always refused. *)
Theorem token_single_use deviceID tenantID ttl rnd nonce now m :
  rnd <> "" ->
  let '(tok, m1) := issueTokenLocked hmac_hex sha256_hex deviceID tenantID ttl rnd nonce now m in
  (forall now', (now' <= now + ttl)%Z ->
     let '(r, m2) := ConsumeToken hmac_hex sha256_hex tok now' m1 in
     r = Some (deviceID, tenantID) /\
     forall now'', ConsumeToken hmac_hex sha256_hex tok now'' m2 = (None, m2)) /\
  (forall now', (now + ttl < now')%Z -> ConsumeToken hmac_hex sha256_hex tok now' m1 = (None, m1)) /\
  (forall sig payload now', all_chars (not_char ".") sig = true -> sig <> hmac_hex (Mem.secret m1) payload ->
     ConsumeToken hmac_hex sha256_hex (sig +:+ String "." payload) now' m1 = (None, m1)).
Proof using hmac_is_hex.
  intros Hrnd. unfold issueTokenLocked.
  set (m0 := if Mem.secret m == "" then _ else _).
  assert (Hs : Mem.secret m0 <> "") by (unfold m0; by case_bool_decide).
  set (payload := JoinStr "|" _). set (tok := _ +:+ _). cbv zeta.
  assert (Hp : payload <> "") by (unfold payload; destruct tenantID; discriminate).
  assert (Hv : VerifyTokenMAC hmac_hex (Mem.secret m0) tok = true) by by apply VerifyTokenMAC_issued.
  set (m1 := Mem.set_tokens _ m0). clearbody tok.
  assert (Hsec : Mem.secret m1 = Mem.secret m0) by done.
  assert (Hl : Mem.tokens m1 !! HashToken sha256_hex tok =
    Some (tokenMeta.mk deviceID tenantID (Add now ttl) false)) by apply lookup_insert_eq.
  clearbody m1. split; [| split].
  - intros now' Hn. unfold ConsumeToken at 1. rewrite Hsec, Hv, Hl. cbn [negb tokenMeta.consumed tokenMeta.expiresAt].
    unfold After, Add. rewrite (proj2 (Z.ltb_ge _ _)) by lia. split; [done |]. intros now''.
    unfold ConsumeToken. cbn [Mem.secret Mem.set_tokens Mem.tokens]. rewrite Hsec, Hv, lookup_insert_eq. done.
  - intros now' Hn. unfold ConsumeToken. rewrite Hsec, Hv, Hl. cbn [negb tokenMeta.consumed tokenMeta.expiresAt].
    unfold After, Add. by rewrite (proj2 (Z.ltb_lt _ _)).
  - intros sig p now' Hsig Hne. unfold ConsumeToken.
    assert (E : VerifyTokenMAC hmac_hex (Mem.secret m1) (sig +:+ String "." p) = false); [| by rewrite E].
    unfold VerifyTokenMAC. destruct (_ || _); [done |]. rewrite cut_app by done.
    destruct (_ || _); [done |]. apply bool_decide_false. congruence.
Qed.
End token_theorems.

Lemma token_single_use_witness :
  let r := issueTokenLocked (fun _ _ => "c0ffee") (fun s => s) "d1" "acme" minute "k" "n" (at_second 3) ex_queue in
  (ConsumeToken (fun _ _ => "c0ffee") (fun s => s) r.1 (at_second 500) r.2).1 = None.
Proof.
  cbv zeta. pose proof (token_single_use (fun _ _ => "c0ffee") (fun s => s)
    ltac:(intros; split; [discriminate | reflexivity]) "d1" "acme" minute "k" "n" (at_second 3) ex_queue ltac:(discriminate)) as H.
  destruct (issueTokenLocked _ _ _ _ _ _ _ _ _) as [tok m1]. destruct H as (_ & H & _). cbn [fst snd].
  rewrite (H (at_second 500)); [reflexivity | vm_compute; reflexivity].
Defined.

(** ** Gaps *)

Definition ex_risky : Task.t := Task.set_ApprovalRequired true (ex_task 9 3 "rm -rf /srv").
Definition ex_waiting : Mem.t := exec ex_hmac ex_sha [(OpCreateTask ex_risky, at_second 3)] ex_queue.

(** A task that waits for approval is run without one when its agent
    reports a failure of it: [validTaskTransition] allows [pending_approval] to
    [pending], and the epoch of a task never claimed is 0. *)
Theorem failure_report_skips_approval :
  let m := SubmitResult (ex_report "task-3000000000-4" 1 0) (at_second 4) ex_waiting in
  Task.Status (deref ex_waiting 3) = "pending_approval" /\
  (Task.TaskID (deref ex_waiting 3) = "task-3000000000-4") /\
  (ClaimTask "a1" (at_second 4) ex_waiting).1 <> Some (deref ex_waiting 3) /\
  Task.Status (deref m 3) = "pending" /\ Task.ApprovedBy (deref m 3) = "" /\
  (Task.Command <$> (ClaimTask "a1" (at_second 5) m).1 = Some "rm -rf /srv").
Proof. repeat split; try (vm_compute; reflexivity). vm_compute. discriminate. Qed.

Definition ex_risky_after : Task.t := Task.set_DependsOn ["task-2000000000-2"] ex_risky.
Definition ex_dependent : Mem.t :=
  exec ex_hmac ex_sha
    [(OpCreateTask ex_risky_after, at_second 3); (OpClaimTask "a1", at_second 4);
     (OpSubmitResult (ex_report "task-2000000000-2" 0 1), at_second 5)] ex_queue.

(** A task that needs approval and has dependencies enters the store as
    blocked and is released straight to pending when they are done: nobody ever
    approves it. *)
Theorem dependencies_skip_approval :
  Task.ApprovalRequired (deref ex_dependent 3) = true /\
  Task.Status (deref ex_dependent 3) = "pending" /\ Task.ApprovedBy (deref ex_dependent 3) = "" /\
  (Task.Command <$> (ClaimTask "a1" (at_second 6) ex_dependent).1 = Some "rm -rf /srv").
Proof. repeat split; vm_compute; reflexivity. Qed.

(** The reclaim of stale tasks counts before it compares, a failure report
    compares before it counts: with the last retry left, the report queues the
    task again and the reclaim kills it. *)
Theorem reclaim_spends_budget_earlier t res :
  Task.Status t = "running" -> (0 <= Task.RetryCount t)%Z -> (Task.RetryCount t + 1 = Task.MaxRetries t)%Z ->
  (Task.MaxRetries t <= max_i64)%Z -> TaskResult.ExitCode res <> 0%Z ->
  Task.Status (reported res t) = "pending" /\ Task.RetryCount (reported res t) = Task.MaxRetries t /\
  Task.Status (reclaimed t) = "failed" /\ Task.DeadLetter (reclaimed t) = true.
Proof.
  unfold max_i64. intros Hs H0 H1 Hmax Hc.
  assert (Hw : wrap_i64 (Task.RetryCount t + 1) = Task.MaxRetries t).
  { rewrite H1. apply wrap_i64_id. unfold in_i64. lia. }
  unfold reported, reclaimed. rewrite (proj2 (Z.eqb_neq _ _) Hc), (proj2 (Z.ltb_lt _ _)) by lia. simpl.
  rewrite Hw. rewrite (proj2 (Z.geb_le _ _)) by lia. done.
Qed.

Lemma reclaim_spends_budget_earlier_witness :
  let t := Task.set_RetryCount 1 (deref ex_running 1) in
  Task.Status (reported (ex_report "task-2000000000-2" 1 1) t) = "pending" /\ Task.Status (reclaimed t) = "failed".
Proof.
  cbv zeta. destruct (reclaim_spends_budget_earlier (Task.set_RetryCount 1 (deref ex_running 1))
    (ex_report "task-2000000000-2" 1 1)) as (H1 & _ & H2 & _).
  - vm_compute. reflexivity.
  - vm_compute. discriminate.
  - vm_compute. reflexivity.
  - vm_compute. discriminate.
  - vm_compute. discriminate.
  - exact (conj H1 H2).
Defined.

Definition ex_stranded : Mem.t :=
  exec ex_hmac ex_sha
    [(OpCreateTask (Task.set_DependsOn ["task-2000000000-3"] (ex_task 1 0 "make")), at_second 3);
     (OpClaimTask "a1", at_second 4); (OpClaimTask "a1", at_second 4);
     (OpReclaimStaleTasks ["a1"] minute, at_second 900)] ex_queue.

(** A stale task that the reclaim sends to the dead letters leaves its
    dependents blocked, since only reports and cancellations run [releaseDeps];
    running it would fail them. *)
Theorem reclaim_strands_dependents :
  Task.Status (deref ex_stranded 2) = "failed" /\ Task.DeadLetter (deref ex_stranded 2) = true /\
  Task.Status (deref ex_stranded 3) = "blocked" /\
  Task.Status (deref (releaseDeps "a1" "task-2000000000-3" (at_second 900) ex_stranded) 3) = "failed".
Proof. repeat split; vm_compute; reflexivity. Qed.

(** The key of the idempotency table joins tenant and key with a bar that
    both may contain, so the request of one tenant can be answered with the
    task of another. *)
Theorem idempotency_keys_collide :
  idempotencyCacheKey "a|b" "c" = idempotencyCacheKey "a" "b|c" /\
  let t tenant key := Task.set_TenantID tenant (Task.set_IdempotencyKey key (ex_task 1 0 "ls")) in
  let r := CreateTask (t "a|b" "c") (at_second 3) ex_queue in
  Task.TenantID (CreateTask (t "a" "b|c") (at_second 4) r.2).1 = "a|b".
Proof. split; vm_compute; reflexivity. Qed.
