(* ===== verification/MemSchedule.v ===== *)
(** * Schedules of the memory store fire once per minute

    [FireDueSchedules] may be called more often than once a minute; a template
    that fired is stamped and skipped until the next minute, and the instances
    it leaves behind are no templates. *)

From S2P Require Import Proto Dag GoStrings Cron Window MemState MemTasks MemFleet MemLife MemInv MemExec MemProps MemTheorems Prelude.
Open Scope go_scope.

(** ** Matching looks at the minute only *)

Lemma Truncate_minute t : Truncate t minute = (minute * (t / minute))%Z.
Proof. unfold Truncate. pose proof (Z.div_mod t minute ltac:(done)). lia. Qed.

Lemma Match_same_minute expr t t' : Truncate t minute = Truncate t' minute -> Match expr t = Match expr t'.
Proof.
  rewrite !Truncate_minute. intros H.
  assert (E : (t / minute = t' / minute)%Z) by (revert H; unfold minute, second; lia).
  assert (Eh : forall u, (u / hour = u / minute / 60)%Z).
  { intros u. rewrite Z.div_div by done. done. }
  assert (Ed : forall u, days u = (u / minute / 1440)%Z).
  { intros u. unfold days. rewrite Z.div_div by done. done. }
  unfold Match, Minute, Hour, Day, Month, Weekday. by rewrite !Eh, !Ed, E.
Qed.

Section fire.
Context (now now' : time).
Context (same_minute : Truncate now' minute = Truncate now minute) (nonzero : now <> zero_time).

Let ms : time := Truncate now minute.

(** The template will not fire again in this minute. *)
Definition calm (t : Task.t) : Prop := template_due now' ms t = false.

Lemma calm_not_due t : template_due now ms t = false -> calm t.
Proof using same_minute.
  unfold calm, template_due. destruct (_ || _); [done |].
  by rewrite (Match_same_minute _ now' now same_minute).
Qed.

Lemma calm_fired t : template_due now ms t = true -> calm (Task.set_LastFiredAt now t).
Proof using same_minute nonzero.
  unfold calm, template_due. simpl. destruct (_ || _); [done |].
  rewrite (Match_same_minute _ now' now same_minute). destruct (Match _ _) as [[] |]; try done. intros _.
  unfold IsZero, Before, ms, zero_time in *. rewrite (proj2 (Z.eqb_neq _ _)) by done.
  destruct (Truncate_spec now minute ltac:(done)) as [[Hle _] _].
  by rewrite (proj2 (Z.ltb_ge _ _)) by lia.
Qed.

Lemma calm_no_schedule t : Task.Schedule t = "" -> calm t.
Proof. unfold calm, template_due. intros ->. by rewrite orb_true_r. Qed.

(** The lists only grow, by new objects. *)
Definition grown (m m' : Mem.t) : Prop :=
  length (Mem.heap m) <= length (Mem.heap m') /\
  forall a, exists new, slice (Mem.tasks m') a = slice (Mem.tasks m) a ++ new /\
    forall x, x ∈ new -> length (Mem.heap m) <= x.

#[local] Instance grown_preorder : PreOrder grown.
Proof.
  split.
  - intros m. split; [done |]. intros a. exists []. rewrite app_nil_r. split; [done |]. intros x Hx. inversion Hx.
  - intros m1 m2 m3 [L1 H1] [L2 H2]. split; [lia |]. intros a.
    destruct (H1 a) as (n1 & E1 & F1), (H2 a) as (n2 & E2 & F2). exists (n1 ++ n2).
    rewrite E2, E1, app_assoc. split; [done |].
    intros x [Hx | Hx]%elem_of_app; [by apply F1 | specialize (F2 x Hx); lia].
Qed.

(** Going from [s] to [s'] calms the tasks of [P], and all calm or new ones
    are calm. *)
Definition calms (P : nat -> Prop) (s s' : Mem.t * nat) : Prop :=
  grown s.1 s'.1 /\
  forall x, P x \/ length (Mem.heap s.1) <= x \/ calm (deref s.1 x) -> calm (deref s'.1 x).

Lemma calms_trans (P Q R : nat -> Prop) s1 s2 s3 :
  (forall x, R x -> P x \/ Q x) -> calms P s1 s2 -> calms Q s2 s3 -> calms R s1 s3.
Proof.
  intros HR [G1 H1] [G2 H2]. split; [by etransitivity |]. intros x Hx. apply H2.
  destruct Hx as [Hx | Hx]; [destruct (HR x Hx) as [HP | HQ] |]; [right; right; apply H1; by left | by left |].
  right; right. apply H1. by right.
Qed.

Lemma fire_one_calms l s : calms (fun x => x = l) s (fire_one now ms l s).
Proof using same_minute nonzero.
  destruct s as [m n]. rewrite fire_one_spec. unfold calms.
  destruct (template_due now ms (deref m l)) eqn:Edue; cbn [negb fst snd].
  2: { split; [reflexivity |]. intros x [-> | [Hx | Hx]]; [by apply calm_not_due | | done].
       unfold deref. rewrite lookup_ge_None_2 by done. by apply calm_no_schedule. }
  cbv zeta. set (t := deref m l). set (inst := Task.set_TaskID _ _).
  set (m2 := addTaskLocked (alloc inst (next_seq m)).1 (alloc inst (next_seq m)).2).
  assert (Hd2 : forall x, deref m2 x = if decide (x = length (Mem.heap m)) then inst else deref m x).
  { intros x. apply (deref_alloc (next_seq m) inst x). }
  assert (Hl : l < length (Mem.heap m)).
  { destruct (template_due_template _ _ _ Edue) as [_ Hs]. unfold deref in Hs.
    destruct (Mem.heap m !! l) eqn:E; [by eapply lookup_lt_Some | done]. }
  assert (Hlen : length (Mem.heap m2) = S (length (Mem.heap m))) by (simpl; rewrite length_app; simpl; lia).
  set (m3 := update l (Task.set_LastFiredAt now) m2).
  assert (Hd3 : forall x, deref m3 x = if decide (x = l) then Task.set_LastFiredAt now t else deref m2 x).
  { intros x. destruct (decide (x = l)) as [-> | Hne]; unfold m3; [| by rewrite deref_update_ne].
    rewrite deref_update_eq by lia. rewrite Hd2, decide_False by lia. done. }
  split.
  - assert (Hg : grown m m3).
    { split; [unfold m3, update; simpl; rewrite length_alter, length_app; lia |]. intros a.
      exists (if decide (Task.AgentID t = a) then [length (Mem.heap m)] else []).
      unfold m3, m2, update, addTaskLocked. cbn [fst snd alloc Mem.tasks Mem.set_heap Mem.set_tasks Mem.set_tasksByID].
      pose proof (deref_alloc (next_seq m) inst (length (Mem.heap m))) as Hd. simpl in Hd. rewrite decide_True in Hd by done.
      simpl. rewrite Hd, slice_insert. simpl. case_decide as E.
      - rewrite E. split; [done |]. by intros x ->%list_elem_of_singleton.
      - rewrite app_nil_r. split; [done |]. intros x Hx'. inversion Hx'. }
    { etransitivity; [exact Hg |]. unfold publish. destruct (Mem.bus m3); [| reflexivity].
      split; [done |]. intros a. exists []. rewrite app_nil_r. split; [done |]. intros x Hx. inversion Hx. }
  - intros x Hx. rewrite (same_heap_deref _ _ _ (same_heap_publish _ _)), Hd3.
    destruct (decide (x = l)) as [-> | Hne]; [by apply calm_fired |]. rewrite Hd2.
    case_decide as Ex; [by apply calm_no_schedule |].
    destruct Hx as [-> | [Hx | Hx]]; [done | | done].
    unfold deref. rewrite lookup_ge_None_2 by done. by apply calm_no_schedule.
Qed.

Lemma fire_loop_calms ls s : calms (fun x => x ∈ ls) s (fire_loop now ms ls s).
Proof using same_minute nonzero.
  revert s. induction ls as [| l ls IH]; intros s; simpl.
  { split; [reflexivity |]. intros x [Hx | [Hx | Hx]]; [inversion Hx | | done].
    unfold deref. rewrite lookup_ge_None_2 by done. by apply calm_no_schedule. }
  eapply calms_trans; [| apply (fire_one_calms l) | apply IH].
  intros x [-> | Hx]%elem_of_cons; [by left | by right].
Qed.

Lemma FireDue_calms keys m :
  calms (fun x => exists k, k ∈ keys /\ x ∈ slice (Mem.tasks m) k) (m, 0) (FireDueSchedules keys now m).
Proof using same_minute nonzero.
  unfold FireDueSchedules. fold ms.
  assert (H : forall s, calms (fun x => exists k, k ∈ keys /\ x ∈ slice (Mem.tasks s.1) k) s
    (foldl (fun s key => fire_loop now ms (slice (Mem.tasks s.1) key) s) s keys)); [| apply (H (m, 0))].
  induction keys as [| k keys IH]; intros s; simpl.
  { split; [reflexivity |]. intros x [(k & Hk & _) | [Hx | Hx]]; [inversion Hk | | done].
    unfold deref. rewrite lookup_ge_None_2 by done. by apply calm_no_schedule. }
  pose proof (fire_loop_calms (slice (Mem.tasks s.1) k) s) as H1.
  eapply calms_trans; [| exact H1 | apply IH].
  intros x (k' & [-> | Hk']%elem_of_cons & Hx); [by left | right]. exists k'. split; [done |].
  destruct H1 as [[_ Hg] _]. destruct (Hg k') as (new & -> & _). apply elem_of_app. by left.
Qed.

(** Nothing fires when every listed task is calm. *)
Lemma fire_loop_none ls m n : (forall x, x ∈ ls -> calm (deref m x)) -> fire_loop now' ms ls (m, n) = (m, n).
Proof.
  unfold fire_loop. induction ls as [| l ls IH]; intros H; [done |]. cbn [foldl].
  rewrite fire_one_spec. unfold calm in H. rewrite (H l ltac:(left)). simpl. apply IH.
  intros x Hx. apply H. by right.
Qed.

Lemma FireDue_none keys m :
  (forall k x, x ∈ slice (Mem.tasks m) k -> calm (deref m x)) -> FireDueSchedules keys now' m = (m, 0).
Proof using same_minute.
  intros H. unfold FireDueSchedules. rewrite same_minute. fold ms.
  induction keys as [| k keys IH]; [done |]. cbn [foldl fst]. rewrite fire_loop_none; [done |]. apply H.
Qed.
End fire.

(** A second call of [FireDueSchedules] in the same minute derives no
    instance and changes nothing, whatever the order of the map: a due template
    fires at most once per minute. *)
Theorem fires_once_per_minute keys keys' now now' m :
  enumerates keys m -> now <> zero_time -> Truncate now' minute = Truncate now minute ->
  let m1 := (FireDueSchedules keys now m).1 in
  FireDueSchedules keys' now' m1 = (m1, 0).
Proof.
  intros [_ He] Hnow Hmin. cbv zeta. destruct (FireDue_calms now now' Hmin Hnow keys m) as [[_ Hg] H].
  apply (FireDue_none now now' Hmin). intros k x Hx. apply H. cbn [fst snd] in *.
  destruct (Hg k) as (new & E & Hn). rewrite E in Hx. apply elem_of_app in Hx as [Hx | Hx].
  - left. exists k. split; [by eapply He | done].
  - right; left. by apply Hn.
Qed.

Definition ex_template : Task.t := Task.set_Schedule "*/5 * * * *" (ex_task 1 0 "backup").
Definition ex_scheduled : Mem.t := exec ex_hmac ex_sha [(OpCreateTask ex_template, at_second 3)] ex_init.

Lemma ex_scheduled_keys : enumerates ["a1"] ex_scheduled.
Proof.
  split; [repeat constructor; set_solver |]. intros k l Hl.
  destruct (decide (k = "a1")) as [-> | Hk]; [left |]. exfalso. revert Hl.
  replace (slice (Mem.tasks ex_scheduled) k) with (@nil nat); [intros Hl; inversion Hl |].
  unfold slice. replace (Mem.tasks ex_scheduled) with ({["a1" := [0]]} : gmap string (list nat)).
  - by rewrite lookup_singleton_ne.
  - vm_compute. reflexivity.
Qed.

Lemma fires_once_per_minute_witness :
  (FireDueSchedules ["a1"] (at_second 300) ex_scheduled).2 = 1 /\
  FireDueSchedules ["a1"] (at_second 330) (FireDueSchedules ["a1"] (at_second 300) ex_scheduled).1 =
    ((FireDueSchedules ["a1"] (at_second 300) ex_scheduled).1, 0).
Proof.
  split; [vm_compute; reflexivity |].
  assert (Hn : at_second 300 <> zero_time) by (vm_compute; discriminate).
  assert (Hm : Truncate (at_second 330) minute = Truncate (at_second 300) minute) by (vm_compute; reflexivity).
  exact (fires_once_per_minute ["a1"] ["a1"] (at_second 300) (at_second 330) ex_scheduled ex_scheduled_keys Hn Hm).
Defined.
