(* ===== verification/AuditQueries.v ===== *)
(** * Queries of audit records, in SQL and in memory ([internal/store/sqlstore/sql_audits.go])

    The reads of [audit_log] and that they answer as those of the memory store do, for
    the same records of whole seconds. *)

From S2P Require Import Prelude GoStrings Proto Window Storekit Cron AuditChain AuditProps MemState MemRecords.
Import AuditDB.
#[local] Open Scope Z_scope.
Open Scope go_scope.

Module SQLAudits.
(** What a scan of a row gives. *)
Definition scanAuditRow (s : AuditDB.t) (r : row) : AuditEvent.t := stored (Event r) s.

(** [ORDER BY id DESC], and [LIMIT] if there is one. *)
Definition select (p : AuditEvent.t -> bool) (limit : option Z) (s : AuditDB.t) : list AuditEvent.t :=
  let rows := rev (List.filter (fun r => p (Event r)) (audit_log s)) in
  map (scanAuditRow s) match limit with Some n => take (Z.to_nat n) rows | None => rows end.

(** The conditions of the queries. *)
Definition tenant_is (tenant : string) (e : AuditEvent.t) : bool := (tenant == "") || (AuditEvent.TenantID e == tenant).
Definition action_is (action : string) (e : AuditEvent.t) : bool := (action == "") || (AuditEvent.Action e == action).
Definition within (since until : time) (e : AuditEvent.t) : bool :=
  (IsZero since || negb (Before (AuditEvent.CreatedAt e) since)) && (IsZero until || negb (After (AuditEvent.CreatedAt e) until)).
Definition limited (limit : Z) : option Z := if limit >? 0 then Some limit else None.

Definition Audits (s : AuditDB.t) : list AuditEvent.t := select (fun _ => true) (Some 100) s.
Definition QueryAudits (tenant action : string) (since until : time) (limit : Z) (s : AuditDB.t) : list AuditEvent.t :=
  select (fun e => tenant_is tenant e && action_is action e && within since until e) (limited limit) s.
Definition QueryHighRiskAudits (tenant : string) (since until : time) (limit : Z) (s : AuditDB.t) : list AuditEvent.t :=
  if hasHighRisk s then select (fun e => AuditEvent.HighRisk e && tenant_is tenant e && within since until e) (limited limit) s else [].
End SQLAudits.

Section agree.
Context `{SHA256}.

(** One record given to a store: when, how the transaction ended, the id past the chain. *)
Record submission := Submission { at_time : time; outcomes : list outcome; plain_id : option Z; submitted : AuditEvent.t }.
Definition to_sql (s : AuditDB.t) (x : submission) : AuditDB.t := Audit (at_time x) (outcomes x) (plain_id x) (submitted x) s.
Definition to_memory (m : Mem.t) (x : submission) : Mem.t := MemRecords.Audit (submitted x) (at_time x) m.

(** The record is stored, with a time of whole seconds. *)
Definition plainly_stored (x : submission) : Prop :=
  (is_Some (attempts 3 (outcomes x)) \/ is_Some (plain_id x)) /\
  IsZero (AuditEvent.CreatedAt (submitted x)) = false /\ AuditEvent.CreatedAt (submitted x) `mod` second = 0.

Lemma whole_seconds t : t `mod` second = 0 -> Truncate t second = t /\ DATETIME t = t.
Proof. unfold DATETIME, Truncate, second. intros Ht. split; [lia |]. Z.div_mod_to_equations. lia. Qed.

Lemma set_time_same t e : t = AuditEvent.CreatedAt e -> AuditEvent.set_CreatedAt t e = e.
Proof. intros ->. by destruct e. Qed.

Definition full_columns (s : AuditDB.t) : Prop := hasTrace s = true /\ hasHighRisk s = true /\ hasChain s = true.

Lemma to_sql_log s x :
  full_columns s -> plainly_stored x -> full_columns (to_sql s x) /\ map Event (audit_log (to_sql s x)) = map Event (audit_log s) ++ [submitted x].
Proof.
  intros (Ht & Hr & Hc) (Hs & Hz & Hm). destruct (whole_seconds _ Hm) as [E1 E2]. unfold to_sql, Audit. rewrite Hz, Hc, (set_time_same (Truncate _ second) _ E1).
  assert (Hst : stored (submitted x) s = submitted x) by (unfold stored; by rewrite Ht, Hr).
  destruct (attempts 3 (outcomes x)) as [id |]; [| destruct Hs as [[? ?] | [id ->]]; [done |]].
  - unfold insertChainedAudit. rewrite (set_time_same (Truncate _ second) _ E1). split; [done |]. cbn [audit_log set_head set_log]. rewrite map_app. cbn [map Event]. by rewrite Hst.
  - unfold insertPlain. rewrite (set_time_same (DATETIME _) _ E2). split; [done |]. cbn [audit_log set_log]. rewrite map_app. cbn [map Event]. by rewrite Hst.
Qed.

Lemma to_sql_all xs s :
  full_columns s -> Forall plainly_stored xs ->
  full_columns (foldl to_sql s xs) /\ map Event (audit_log (foldl to_sql s xs)) = map Event (audit_log s) ++ map submitted xs.
Proof.
  revert s. induction xs as [| x xs IH]; intros s Hs Hx; [split; [done |]; by rewrite app_nil_r |]. apply Forall_cons in Hx as [Hx Hxs].
  destruct (to_sql_log s x Hs Hx) as [Hs' E]. cbn [foldl map]. destruct (IH _ Hs' Hxs) as [Hc Ec]. split; [done |]. by rewrite Ec, E, <- app_assoc.
Qed.

Lemma to_memory_all xs m :
  Forall plainly_stored xs -> (length (Mem.audits m) + length xs <= auditCap)%nat -> Mem.audits (foldl to_memory m xs) = Mem.audits m ++ map submitted xs.
Proof.
  revert m. induction xs as [| x xs IH]; intros m Hx Hl; [by rewrite app_nil_r |]. apply Forall_cons in Hx as [(_ & Hz & _) Hxs]. cbn [length] in Hl.
  assert (E : Mem.audits (to_memory m x) = Mem.audits m ++ [submitted x]).
  { unfold to_memory, MemRecords.Audit, appendAudit. rewrite Hz. cbn [Mem.audits Mem.set_audits]. rewrite append_capped_lastn. apply lastn_all. rewrite length_app. cbn [length]. lia. }
  cbn [foldl map]. rewrite IH, E, <- app_assoc; [done | done |]. rewrite E, length_app. cbn [length]. lia.
Qed.

(** A query of the table by its records. *)
Lemma select_records p limit s :
  full_columns s -> SQLAudits.select p limit s =
    let out := rev (List.filter p (map Event (audit_log s))) in match limit with Some n => take (Z.to_nat n) out | None => out end.
Proof.
  intros (Ht & Hr & _). unfold SQLAudits.select. assert (E : map (SQLAudits.scanAuditRow s) = map Event).
  { unfold SQLAudits.scanAuditRow, stored. by rewrite Ht, Hr. }
  assert (Ef : List.filter p (map Event (audit_log s)) = map Event (List.filter (fun r => p (Event r)) (audit_log s))).
  { induction (audit_log s) as [| r l IH]; [done |]. cbn [map List.filter]. rewrite IH. by destruct (p (Event r)). }
  rewrite E, Ef, <- map_rev. destruct limit; [symmetry; apply firstn_map | done].
Qed.

Lemma newest_first_limited {A} limit (l : list A) :
  newest_first limit l = match SQLAudits.limited limit with Some n => take (Z.to_nat n) (rev l) | None => rev l end.
Proof.
  unfold newest_first, SQLAudits.limited. destruct (Z.gtb_spec limit 0); cbn [andb]; [| done].
  destruct (Z.gtb_spec (Z.of_nat (length (rev l))) limit); [done |]. rewrite take_ge; [done | lia].
Qed.

Lemma where_matches tenant action since until e :
  SQLAudits.tenant_is tenant e && SQLAudits.action_is action e && SQLAudits.within since until e = audit_matches tenant action since until e.
Proof.
  unfold SQLAudits.tenant_is, SQLAudits.action_is, SQLAudits.within, audit_matches.
  destruct (tenant == ""), (AuditEvent.TenantID e == tenant), (action == ""), (AuditEvent.Action e == action), (IsZero since), (IsZero until),
    (Before (AuditEvent.CreatedAt e) since), (After (AuditEvent.CreatedAt e) until); reflexivity.
Qed.

End agree.

(** Three records, one of them past the chain. *)
Definition ex_submissions : list submission :=
  let at_ tenant t risky := AuditEvent.mk tenant "ann" "exec" "web" "x" (63800000000 * second + t * second) risky "" in
  [Submission 0 [Commit 1] None (at_ "acme" 0 true); Submission 0 [Failed] (Some 2) (at_ "acme" 5 true); Submission 0 [Commit 3] None (at_ "beta" 9 false)].

Import Ledger.

Lemma ex_submissions_stored : Forall plainly_stored ex_submissions.
Proof.
  apply Forall_cons. split; [split; [left; by exists 1 | vm_compute; by split] |]. apply Forall_cons. split; [split; [right; by exists 2 | vm_compute; by split] |].
  apply Forall_cons. split; [split; [left; by exists 3 | vm_compute; by split] | done].
Defined.

